(* ===== verification/_CoqProject ===== *)
-Q . S2P
Prelude.v
Params.v
Str.v
Bio.v
BioSpec.v
Log.v
LogSpec.v
Trans.v
Recover.v
BlockIf.v
Storage.v
Fs.v
FsBlocks.v
FsFile.v
FsSpec.v
FsThms.v
FsInode.v
FsTrunc.v
FsDemo.v
FsDir.v
FsPath.v
Ide.v
IdeThms.v
Mkfs.v
MkfsSpec.v
MkfsThms.v
MkfsImage.v
Pipe.v
Spinlock.v
Kalloc.v
Vm.v
VmSpec.v
VmThms.v
Proc.v
ProcSys.v
ProcThms.v
Console.v
ConsoleThms.v
Kbd.v
Kern.v
File.v
ProcOps.v
Sysfile.v
Exec.v
Syscall.v
FileThms.v
FileInv.v
FileOps.v
FileCalls.v
Descriptors.v
SysArgs.v
FileDemo.v
Umalloc.v
UmallocThms.v
Ulib.v
Sh.v
ShThms.v
Lines.v
Editor.v
EditorThms.v
Exit.v
Script.v
ScriptRun.v
ScriptThms.v
ScriptFlow.v
ScriptVars.v
Make.v
MakeThms.v
MakeBuild.v
ShRun.v
ShRunThms.v
Boot.v
Mp.v
Ufs.v
Utils.v
UtilsThms.v
RmThms.v
Grep.v
Seg.v
Irq.v
