(* ===== verification/Prelude.v ===== *)
(** * The xv6 kernel, modelled and verified

    The sources are an x86 teaching kernel (src/*.c, one C file per
    component), the tool that makes its disk and user programs.  This library
    translates them into Rocq functions and proves what the components
    promise.

    ** How code is modelled

    Code that runs under a lock, or alone, is a function in a state and error
    monad [K S A] (below): it returns, or stops in one of the ways the code
    can: [Panic] (panic), [Sleep] (the caller would give up the processor),
    [Undef] (an access outside an object) and [OutOfFuel].  A theorem with
    [wp m noerr Q s] says that [m] run from [s] does return, with [Q].
    Loops that are not structural have fuel; [wp_while] asks for a measure
    below the fuel, so every [noerr] theorem also says that the fuel is
    enough and the loop ends.  Integers are in [Z] with the wrap-around
    written out ([u32], [s32], [u16], [u8]), bytes are integers below 256, C
    arrays are lists, memory and tables indexed by address are finite maps.
    Where processors or processes interleave (pipe.c, spinlock.c, proc.c, ide.c) the
    atomic steps are an inductive relation and the theorems are about every
    reachable state.

    ** Files

    - [Prelude] machine integers, the monad and its rules, byte encodings,
      list lemmas; [Params] constants of param.h, fs.h, buf.h, stat.h, fcntl.h.
    - [Str] string.c.
    - Storage.  [Bio] bio.c over memide.c: the sector array, buffers, the
      LRU list with its links.  [Log] log.c.  [BioSpec], [LogSpec]: what each
      routine does to sectors and buffers.  [Trans]: the abstract
      transactional disk that the two implement; [BlockIf]: the interface the
      file system sees, as a class with its laws; [Recover]: initlog after a
      crash; [Storage]: the instance and the theorems.
    - File system.  [Fs] fs.c, written against the interface.  [FsBlocks] the
      block allocator, [FsFile] file contents as functions of the disk,
      [FsSpec] bmap, readi, writei, iupdate and the inode cache, [FsThms],
      [FsInode], [FsTrunc], [FsDir], [FsPath] the theorems; [FsDemo] small
      disks on which they are applied.
    - [Pipe] pipe.c; [Spinlock] spinlock.c; [Kalloc] kalloc.c.
    - Address spaces.  [Vm] vm.c, with page tables in the memory of [Kalloc];
      [VmSpec] page tables as functions; [VmThms].
    - Processes.  [Proc] the operations of proc.c on the process table;
      [ProcSys] processors and processes as a step relation; [ProcThms].
    - Console.  [Console] console.c, [ConsoleThms]; [Kbd] kbd.c.
    - The whole kernel.  [Kern] its state (file system, memory, files, pipes,
      processes, console) and the argument fetching of syscall.c; [File]
      file.c; [ProcOps] allocproc, userinit, growproc, fork, exit, wait;
      [Sysfile] sysfile.c; [Exec] exec.c and loaduvm; [Syscall] sysproc.c, the
      dispatcher and trap.c.  [FileThms], [FileInv], [FileOps], [FileCalls],
      [Descriptors], [SysArgs]: theorems on it; [FileDemo] examples.
    - Hardware.  [Ide], [IdeThms] ide.c and its queue of requests;
      [Boot] bootmain.c; [Mp] mp.c; [Seg] the descriptors of
      mmu.h, seginit, switchuvm and tvinit; [Irq] ioapic.c, picirq.c, lapic.c,
      timer.c and uart.c.
    - The disk image.  [Mkfs] mkfs.c, [MkfsSpec], [MkfsThms], [MkfsImage].
    - User library.  [Umalloc] umalloc.c and [UmallocThms]; [Ulib] ulib.c and
      printf.c; [Exit] programs that may end at any call, their buffers and
      strings; [Lines] a file as lines.
    - The shell.  [Sh] the parser and the command search of sh.c, [ShThms];
      [ShRun] the processes of a command line, the history and main,
      [ShRunThms].
    - Programs.  [Editor] editor.c, [EditorThms]; [Script] and
      [ScriptRun] script.c, [ScriptThms], [ScriptFlow], [ScriptVars];
      [Make] make.c, [MakeThms], [MakeBuild]; [Ufs]
      the files as a program sees them, a specification of the system calls
      on files; [Utils] cat, cp, mv, rm, ls, wc, touch, mkdir, rename, ln,
      echo and history over it, [UtilsThms], [RmThms]; [Grep] grep.c.

    ** What is proved

    - Crash safety of the log: whatever prefix of the sector writes of a
      commit reached the disk, recovery gives the old or the new contents;
      recovery may itself be cut short; a crash elsewhere loses exactly the
      running transaction.  The cache and the log refine a transactional
      disk, and a write through a file descriptor is one committed
      transaction on it: the disk the next boot finds has the inode and the
      bytes.
    - Files: writei and readi against the file as a function from offsets to
      bytes, with direct and indirect blocks and allocation; the inode on the
      disk follows the one in memory, and other inodes and files are not
      disturbed; truncation frees exactly the blocks of the file;
      inodes survive a round trip through the disk; inode locks exclude;
      directories behave as finite maps; namex agrees with a walk of the
      directory tree, and panics only when the inode cache is all but full.
    - Pipes: the bytes read and those in the ring are the bytes written, for
      any interleaving and for counters that wrap; without kills no reader
      or writer sleeps for ever.
    - Spin locks: mutual exclusion and the discipline of interrupts, over the
      interleavings of single instructions.
    - Memory: the allocator never hands out a page twice; growing, copying
      and writing address spaces do what they promise to each byte.
    - Processes: the invariants of the process table over all interleavings,
      a parent in wait is not stranded, the scheduler is fair.
    - Open files: reference counts equal the number of descriptors after any
      history of system calls, traps and switches.  System calls read their
      arguments only inside the memory of the process.
    - Console: input is a line editor; printint prints numbers; scan codes of
      a text give the text.
    - Disk driver: for any interleaving of requests and interrupts each
      request is served once and in order, the driver refines reading and
      writing an array of sectors as long as the controller reports no error
      (what a failed request leaves is part of the contract: the driver does
      not report it), every request completes, and a process that sleeps for
      one is woken.
    - Start-up: bootmain loads the segments of the kernel; mpinit takes the
      processors of the machine from the tables; the gates tvinit sets, read
      back from their bytes, let a program in only by the system call;
      interrupts are routed as the calls of ioapicenable say.
    - mkfs: the image is a well-formed file system with an empty log, whose
      files share no block, and in which namei of the kernel finds every file
      that was put in, with its bytes.
    - User library: malloc and free keep the blocks of a program apart and
      always return; atoi inverts printf's %d.
    - Shell: its parser answers for every line and reads back every command;
      its string distance is the edit distance; the programs of a line run
      with exactly the descriptors the line gives them whatever fork, pipe,
      open and exec do; the history that is recorded is the history shown.
    - Programs, within the bounds of their buffers that each theorem names:
      the editor refines a list of lines, and what it saves is what it loads; a script runs by its structure and its assignments compute
      values; make builds what its rules say in the order of dependence; wc
      counts, cp copies, mv moves, rm removes trees, grep prints the lines
      that match, where matching agrees with the meaning of patterns.

    ** Fuel

    A theorem that a program returns names the fuel it needs: the lines or
    bytes of its input and the depth of its recursion (blocks of a script,
    rules of a makefile, levels of directories), which the loops of the code
    never exceed.  Loops the code may leave only by a device (lapicinit's wait
    for delivery) have fuel and no such theorem.

    ** What is left out

    The assembly stubs and main.c, which is the calls of the parts in
    sequence; the test programs (usertests.c and others) and the smallest
    user programs (help, kill, uptime, zombie, init).  In the model of the
    whole kernel a system call runs without interleaving from its trap to its
    return, and its [Sleep] is an outcome: waiting and waking are in [Pipe],
    [Ide] and [ProcSys], where calls are cut into their atomic steps.
    procdump, getcallerpcs and the messages of trap.c are not modelled.  sbrk
    is a parameter of the model of malloc, which is about requests below
    2 GB.  What exec finds, and what a command does to the files, are
    parameters of the shell, of scripts and of make.  [Ufs] is a specification
    of its own: that sysfile.c implements it is proved for its parts (files,
    directories, paths, descriptors), not as one refinement. *)
From Stdlib Require Export ZArith Lia.
From stdpp Require Export base tactics numbers gmap fin_sets strings functions.
From stdpp Require Export list.
#[global] Open Scope Z_scope.
#[global] Set Default Goal Selector "!".

(** ** Machine integers *)

Definition u32 (z : Z) : Z := z mod 2 ^ 32.
Definition u16 (z : Z) : Z := z mod 2 ^ 16.
Definition u8 (z : Z) : Z := z mod 2 ^ 8.
Definition s32 (z : Z) : Z := (z + 2 ^ 31) mod 2 ^ 32 - 2 ^ 31.
Definition s16 (z : Z) : Z := (z + 2 ^ 15) mod 2 ^ 16 - 2 ^ 15.

Lemma u32_small z : 0 <= z < 2 ^ 32 -> u32 z = z.
Proof. intros. by apply Z.mod_small. Qed.
Lemma s32_small z : - 2 ^ 31 <= z < 2 ^ 31 -> s32 z = z.
Proof. intros. unfold s32. rewrite Z.mod_small; lia. Qed.
Lemma u16_small z : 0 <= z < 2 ^ 16 -> u16 z = z.
Proof. intros. by apply Z.mod_small. Qed.
Lemma s16_small z : - 2 ^ 15 <= z < 2 ^ 15 -> s16 z = z.
Proof. intros. unfold s16. rewrite Z.mod_small; lia. Qed.
Lemma s32_u32 z : s32 (u32 z) = s32 z.
Proof. unfold s32, u32. by rewrite Zplus_mod_idemp_l. Qed.

Lemma u32_eq a b : 0 <= b - a < 2 ^ 32 -> u32 a = u32 b <-> a = b.
Proof.
  intros Hab. split; [|by intros ->]. unfold u32. intros Heq.
  pose proof (Z.div_mod a (2 ^ 32) ltac:(lia)). pose proof (Z.div_mod b (2 ^ 32) ltac:(lia)).
  assert (Hq : b - a = 2 ^ 32 * (b / 2 ^ 32 - a / 2 ^ 32)) by lia.
  assert (b / 2 ^ 32 - a / 2 ^ 32 = 0) by nia. lia.
Qed.
Lemma u32_u32_add a b : u32 (u32 a + b) = u32 (a + b).
Proof. unfold u32. by rewrite Zplus_mod_idemp_l. Qed.
Lemma u32_u32_sub a b : u32 (u32 a - b) = u32 (a - b).
Proof. unfold u32. by rewrite Zminus_mod_idemp_l. Qed.
Lemma u32_sub a b : 0 <= a - b < 2 ^ 32 -> u32 (u32 a - u32 b) = a - b.
Proof. intros H. unfold u32. rewrite <- Zminus_mod. by apply Z.mod_small. Qed.
Lemma u32_u32 a : u32 (u32 a) = u32 a.
Proof. unfold u32. apply Zmod_mod. Qed.
Lemma u32_s32 a : u32 (s32 a) = u32 a.
Proof. unfold u32, s32. rewrite Zminus_mod, Zmod_mod, <- Zminus_mod. f_equal. lia. Qed.
(** Counters that wrap at 32 bits, used as indices of a ring. *)
Lemma u32_mod_ring z n : (n | 2 ^ 32) -> u32 z mod n = z mod n.
Proof. intros Hn. unfold u32. by apply Z.mod_mod_divide. Qed.

(** ** The kernel monad

    A kernel routine runs on an explicit state.  It returns, or it stops
    in one of the ways the code can stop: [panic(msg)], [sleep(chan)] (the
    calling process gives up the CPU), an access outside an object, or a
    loop of the model that runs out of fuel. *)

Inductive chan :=
  | ChBuf (i : nat) | ChLog | ChInode (i : nat) | ChProc (i : nat)
  | ChPipeR | ChPipeW | ChTicks | ChInput.
#[export] Instance chan_eq : EqDecision chan.
Proof. solve_decision. Defined.

Inductive err := Panic (msg : string) | Sleep (c : chan) | Undef | OutOfFuel.

Inductive result (S A : Type) := Ok (a : A) (s : S) | Fail (e : err).
Arguments Ok {S A} a s.
Arguments Fail {S A} e.

Definition K (S A : Type) := S -> result S A.

Definition ret {S A} (a : A) : K S A := fun s => Ok a s.
Definition bind {S A B} (m : K S A) (k : A -> K S B) : K S B :=
  fun s => match m s with Ok a s' => k a s' | Fail e => Fail e end.
Definition fail {S A} (e : err) : K S A := fun _ => Fail e.
Definition panic {S A} (msg : string) : K S A := fail (Panic msg).
Definition get {S} : K S S := fun s => Ok s s.
Definition put {S} (s : S) : K S unit := fun _ => Ok tt s.
Definition gets {S A} (f : S -> A) : K S A := fun s => Ok (f s) s.
Definition modify {S} (f : S -> S) : K S unit := fun s => Ok tt (f s).

Declare Scope k_scope.
Delimit Scope k_scope with K.
Notation "x <- c1 ;; c2" := (bind c1 (fun x => c2))
  (at level 100, c1 at next level, right associativity) : k_scope.
Notation "'let!' pat ':=' c1 'in' c2" := (bind c1 (fun x => match x with pat => c2 end))
  (at level 10, pat pattern, c1 at level 100, c2 at level 200) : k_scope.
Notation "c1 ;; c2" := (bind c1 (fun _ => c2)) : k_scope.
#[global] Open Scope k_scope.

Definition when {S} (b : bool) (m : K S unit) : K S unit :=
  if b then m else ret tt.

(** Accesses to a C array held in a list; outside it the behaviour is
    undefined. *)
Definition inb {A} (l : list A) (i : Z) : bool :=
  (0 <=? i) && (i <? Z.of_nat (length l)).
Definition aget {S A} `{Inhabited A} (l : list A) (i : Z) : K S A :=
  if inb l i then ret (l !!! Z.to_nat i) else fail Undef.
Definition aset {S A} (l : list A) (i : Z) (v : A) : K S (list A) :=
  if inb l i then ret (<[Z.to_nat i := v]> l) else fail Undef.

(** *** Loops

    [for_range n i body] runs [body i], ..., [body (i + n - 1)];
    [for_find] stops at the first index whose body gives a result, as a
    [for] loop with a [return] or [break] does; [while fuel] iterates a
    body that either continues with a new loop state or leaves the loop. *)

Fixpoint for_range {S} (n : nat) (i : Z) (body : Z -> K S unit) : K S unit :=
  match n with
  | O => ret tt
  | Datatypes.S n' => body i;; for_range n' (i + 1) body
  end.

Fixpoint for_find {S R} (n : nat) (i : Z) (body : Z -> K S (option R))
    : K S (option R) :=
  match n with
  | O => ret None
  | Datatypes.S n' =>
      r <- body i;;
      match r with
      | Some v => ret (Some v)
      | None => for_find n' (i + 1) body
      end
  end.

Fixpoint while {S A R} (fuel : nat) (body : A -> K S (A + R)) (a : A) : K S R :=
  match fuel with
  | O => fail OutOfFuel
  | Datatypes.S f =>
      r <- body a;;
      match r with
      | inl a' => while f body a'
      | inr v => ret v
      end
  end.

(** *** Weakest preconditions

    [wp m E Q s]: run from [s], [m] returns with [Q], or stops with an
    error that [E] allows.  [ok] is the total version: no error at all. *)

Definition wp {S A} (m : K S A) (E : err -> Prop) (Q : A -> S -> Prop) (s : S)
    : Prop :=
  match m s with Ok a s' => Q a s' | Fail e => E e end.

Definition noerr : err -> Prop := fun _ => False.

Lemma wp_ret {S A} (a : A) E Q (s : S) : Q a s -> wp (ret a) E Q s.
Proof. done. Qed.
Lemma wp_fail {S A} e E (Q : A -> S -> Prop) (s : S) : E e -> wp (fail e) E Q s.
Proof. done. Qed.
Lemma wp_get {S} E (Q : S -> S -> Prop) s : Q s s -> wp get E Q s.
Proof. done. Qed.
Lemma wp_put {S} (s' : S) E Q s : Q tt s' -> wp (put s') E Q s.
Proof. done. Qed.
Lemma wp_gets {S A} (f : S -> A) E Q s : Q (f s) s -> wp (gets f) E Q s.
Proof. done. Qed.
Lemma wp_modify {S} (f : S -> S) E Q s : Q tt (f s) -> wp (modify f) E Q s.
Proof. done. Qed.
Lemma wp_bind {S A B} (m : K S A) (k : A -> K S B) E Q s :
  wp m E (fun a s' => wp (k a) E Q s') s -> wp (bind m k) E Q s.
Proof. unfold wp, bind. by destruct (m s). Qed.
Lemma wp_mono {S A} (m : K S A) (E E' : err -> Prop) (Q Q' : A -> S -> Prop) s :
  wp m E Q s -> (forall e, E e -> E' e) -> (forall a s', Q a s' -> Q' a s') ->
  wp m E' Q' s.
Proof. unfold wp. destruct (m s); auto. Qed.
Lemma wp_post {S A} (m : K S A) E (Q Q' : A -> S -> Prop) s :
  wp m E Q s -> (forall a s', Q a s' -> Q' a s') -> wp m E Q' s.
Proof. eauto using wp_mono. Qed.
(** The form used to sequence a specification with the rest of a routine. *)
Lemma wp_seq {S A B} (m : K S A) (k : A -> K S B) E Q Q' s :
  wp m E Q s -> (forall a s', Q a s' -> wp (k a) E Q' s') ->
  wp (bind m k) E Q' s.
Proof. intros. apply wp_bind. eauto using wp_post. Qed.
(** The same when the specification covers the first two of three routines. *)
Lemma wp_seq2 {S A B C} (m : K S A) (k : A -> K S B) (k' : B -> K S C) E Q Q' s :
  wp (bind m k) E Q s -> (forall b s', Q b s' -> wp (k' b) E Q' s') ->
  wp (bind m (fun a => bind (k a) k')) E Q' s.
Proof.
  unfold wp, bind. intros Hm Hk. destruct (m s) as [a s1|e]; [|done]. destruct (k a s1) as [b s2|e]; [|done]. exact (Hk b s2 Hm).
Qed.
Lemma wp_ok {S A} (m : K S A) Q s :
  wp m noerr Q s <-> exists a s', m s = Ok a s' /\ Q a s'.
Proof.
  unfold wp, noerr. destruct (m s) as [a s'|e].
  - split; [eauto|]. intros (a'&s''&Heq&HQ). by inversion Heq; subst.
  - split; [done|]. intros (?&?&Heq&?). discriminate Heq.
Qed.
Lemma wp_when {S} (b : bool) (m : K S unit) E Q s :
  (b = true -> wp m E Q s) -> (b = false -> Q tt s) -> wp (when b m) E Q s.
Proof. destruct b; simpl; intros; [|apply wp_ret]; auto. Qed.

#[export] Instance wp_proper {S A} (m : K S A) E :
  Proper (pointwise_relation _ (pointwise_relation _ iff) ==>
          pointwise_relation _ iff) (wp m E).
Proof. intros Q Q' HQ s. unfold wp. destruct (m s); [apply HQ|done]. Qed.

Lemma wp_aget {S A} `{Inhabited A} (l : list A) i E Q (s : S) :
  0 <= i < Z.of_nat (length l) -> Q (l !!! Z.to_nat i) s -> wp (aget l i) E Q s.
Proof.
  intros Hi HQ. unfold aget, inb.
  by rewrite (proj2 (Z.leb_le _ _)), (proj2 (Z.ltb_lt _ _)) by lia.
Qed.
Lemma wp_aset {S A} (l : list A) i v E Q (s : S) :
  0 <= i < Z.of_nat (length l) -> Q (<[Z.to_nat i := v]> l) s -> wp (aset l i v) E Q s.
Proof.
  intros Hi HQ. unfold aset, inb.
  by rewrite (proj2 (Z.leb_le _ _)), (proj2 (Z.ltb_lt _ _)) by lia.
Qed.

Lemma wp_for_range {S} (I : Z -> S -> Prop) n i body E Q (s : S) :
  I i s ->
  (forall j s, i <= j < i + Z.of_nat n -> I j s ->
     wp (body j) E (fun _ s' => I (j + 1) s') s) ->
  (forall s, I (i + Z.of_nat n) s -> Q tt s) ->
  wp (for_range n i body) E Q s.
Proof.
  revert i s. induction n as [|n IH]; simpl; intros i s Hi Hb HQ.
  - apply wp_ret, HQ. by replace (i + Z.of_nat 0) with i by lia.
  - eapply wp_seq; [apply Hb; [lia|done]|]. intros [] s' Hs'. apply IH; [done| |].
    + intros. apply Hb; [lia|done].
    + intros s'' Hs''. apply HQ. by replace (i + Z.of_nat (Datatypes.S n))
        with (i + 1 + Z.of_nat n) by lia.
Qed.

Lemma wp_for_find {S R} (I : Z -> S -> Prop) n i (body : Z -> K S (option R))
    E Q (s : S) :
  I i s ->
  (forall j s, i <= j < i + Z.of_nat n -> I j s ->
     wp (body j) E
       (fun r s' => match r with Some v => Q (Some v) s' | None => I (j + 1) s' end) s) ->
  (forall s, I (i + Z.of_nat n) s -> Q None s) ->
  wp (for_find n i body) E Q s.
Proof.
  revert i s. induction n as [|n IH]; simpl; intros i s Hi Hb HQ.
  - apply wp_ret, HQ. by replace (i + Z.of_nat 0) with i by lia.
  - eapply wp_seq; [apply Hb; [lia|done]|]. intros [v|] s' Hs'; [by apply wp_ret|].
    apply IH; [done| |].
    + intros. apply Hb; [lia|done].
    + intros s'' Hs''. apply HQ. by replace (i + Z.of_nat (Datatypes.S n))
        with (i + 1 + Z.of_nat n) by lia.
Qed.

(** A loop whose measure decreases and stays below the fuel terminates. *)
Lemma wp_while {S A R} (I : A -> S -> Prop) (m : A -> nat) fuel
    (body : A -> K S (A + R)) a E Q (s : S) :
  I a s -> (m a < fuel)%nat ->
  (forall a s, I a s ->
     wp (body a) E
       (fun r s' => match r with
                    | inl a' => I a' s' /\ (m a' < m a)%nat
                    | inr v => Q v s'
                    end) s) ->
  wp (while fuel body a) E Q s.
Proof.
  revert a s. induction fuel as [|f IH]; simpl; intros a s Ha Hm Hb; [lia|].
  eapply wp_seq; [by apply Hb|]. intros [a'|v] s' Hs'; [|by apply wp_ret].
  destruct Hs'. apply IH; [done|lia|done].
Qed.

(** The same with a measure of the state. *)
Lemma wp_while_state {S A R} (I : A -> S -> Prop) (m : A -> S -> nat) fuel
    (body : A -> K S (A + R)) a E Q (s : S) :
  I a s -> (m a s < fuel)%nat ->
  (forall a s, I a s ->
     wp (body a) E
       (fun r s' => match r with
                    | inl a' => I a' s' /\ (m a' s' < m a s)%nat
                    | inr v => Q v s'
                    end) s) ->
  wp (while fuel body a) E Q s.
Proof.
  revert a s. induction fuel as [|f IH]; simpl; intros a s Ha Hm Hb; [lia|].
  eapply wp_seq; [by apply Hb|]. intros [a'|v] s' Hs'; [|by apply wp_ret].
  destruct Hs'. apply IH; [done|lia|done].
Qed.

(** Steps through the monadic operations of a routine; stops at calls and
    loops, which the specification of the callee handles with [wp_seq]. *)
Create HintDb wp discriminated.
#[export] Hint Resolve wp_ret wp_get wp_put wp_gets wp_modify : wp.

Ltac wp_step :=
  lazymatch goal with
  | |- wp (bind (bind _ _) _) _ _ _ => apply wp_bind
  | |- wp (bind _ _) _ _ _ => apply wp_bind
  | |- wp (ret _) _ _ _ => apply wp_ret
  | |- wp (gets _) _ _ _ => apply wp_gets
  | |- wp get _ _ _ => apply wp_get
  | |- wp (put _) _ _ _ => apply wp_put
  | |- wp (modify _) _ _ _ => apply wp_modify
  end.
Ltac wp_run := repeat (wp_step; cbv beta).
(** Applies the specification [H] of the call at the head of the goal. *)
Tactic Notation "wp_call" uconstr(H) := eapply wp_seq; [eapply H|cbv beta].

(** ** Little-endian encoding of machine integers in byte lists *)

Fixpoint le_enc (n : nat) (z : Z) : list Z :=
  match n with O => [] | S n => z mod 256 :: le_enc n (z / 256) end.
Fixpoint le_dec (l : list Z) : Z :=
  match l with [] => 0 | b :: l => b + 256 * le_dec l end.

Definition is_byte (z : Z) : Prop := 0 <= z < 256.
Definition bytes (l : list Z) : Prop := Forall is_byte l.

Lemma length_le_enc n z : length (le_enc n z) = n.
Proof. revert z; induction n; simpl; auto. Qed.

Lemma bytes_le_enc n z : bytes (le_enc n z).
Proof.
  revert z; induction n as [|n IH]; simpl; intros z; [constructor|].
  constructor; [apply Z.mod_pos_bound; lia|apply IH].
Qed.

Lemma le_dec_enc n z : le_dec (le_enc n z) = z mod 256 ^ Z.of_nat n.
Proof.
  revert z; induction n as [|n IH]; intros z; simpl le_enc; simpl le_dec.
  - by rewrite Z.mod_1_r.
  - rewrite IH, Nat2Z.inj_succ, Z.pow_succ_r by lia.
    rewrite Z.rem_mul_r by lia. lia.
Qed.

Lemma le_dec_bound l : bytes l -> 0 <= le_dec l < 256 ^ Z.of_nat (length l).
Proof.
  induction 1 as [|b l Hb _ IH]; simpl length; simpl le_dec; [lia|].
  rewrite Nat2Z.inj_succ, Z.pow_succ_r by lia. unfold is_byte in *. lia.
Qed.

Lemma le_enc_dec l : bytes l -> le_enc (length l) (le_dec l) = l.
Proof.
  induction 1 as [|b l Hb _ IH]; simpl; [done|]. unfold is_byte in *.
  rewrite (Z.mul_comm 256), Z_mod_plus_full, Z.mod_small by lia.
  rewrite Z.div_add, Z.div_small, Z.add_0_l by lia. by rewrite IH.
Qed.

(** [slice off n b]: the [n] bytes at [off]; [splice off src b]: [b] with
    the bytes [src] stored at [off]. *)
Definition slice (off n : Z) (b : list Z) : list Z :=
  take (Z.to_nat n) (drop (Z.to_nat off) b).
Definition splice (off : Z) (src b : list Z) : list Z :=
  list_inserts (Z.to_nat off) src b.

(** Reading and writing a [w]-byte little-endian word at offset [off]. *)
Definition rd (w : nat) (off : Z) (b : list Z) : Z := le_dec (slice off (Z.of_nat w) b).
Definition wr (w : nat) (off v : Z) (b : list Z) : list Z := splice off (le_enc w v) b.

Lemma length_splice off src b : length (splice off src b) = length b.
Proof. apply length_inserts. Qed.
Lemma length_wr w off v b : length (wr w off v b) = length b.
Proof. apply length_splice. Qed.
Lemma length_slice off n b :
  0 <= off -> 0 <= n -> off + n <= Z.of_nat (length b) ->
  length (slice off n b) = Z.to_nat n.
Proof. intros. unfold slice. rewrite length_take, length_drop. lia. Qed.

Lemma bytes_slice off n b : bytes b -> bytes (slice off n b).
Proof. intros. unfold bytes, slice. by apply Forall_take, Forall_drop. Qed.

Lemma splice_app_eq off src b :
  0 <= off -> off + Z.of_nat (length src) <= Z.of_nat (length b) ->
  splice off src b = take (Z.to_nat off) b ++ src ++ drop (Z.to_nat off + length src) b.
Proof.
  intros. apply list_eq. intros i. unfold splice.
  destruct (decide (i < Z.to_nat off)%nat) as [Hi|Hi].
  { rewrite list_lookup_inserts_lt by done.
    rewrite lookup_app_l by (rewrite length_take; lia). by rewrite lookup_take_lt. }
  rewrite lookup_app_r by (rewrite length_take; lia).
  rewrite length_take, Nat.min_l by lia.
  destruct (decide (i < Z.to_nat off + length src)%nat) as [Hj|Hj].
  { rewrite list_lookup_inserts by lia. by rewrite lookup_app_l by lia. }
  rewrite list_lookup_inserts_ge by lia. rewrite lookup_app_r by lia.
  rewrite lookup_drop. f_equal. lia.
Qed.

Lemma bytes_splice off src b : bytes src -> bytes b -> bytes (splice off src b).
Proof.
  intros Hs Hb. unfold splice. generalize (Z.to_nat off) as k.
  induction Hs as [|x src Hx _ IH]; intros k; simpl; [done|].
  apply Forall_insert; [apply IH|done].
Qed.

Lemma slice_splice_eq off src b :
  0 <= off -> off + Z.of_nat (length src) <= Z.of_nat (length b) ->
  slice off (Z.of_nat (length src)) (splice off src b) = src.
Proof.
  intros. rewrite splice_app_eq by done. unfold slice.
  rewrite drop_app_length' by (rewrite length_take; lia).
  by rewrite take_app_length' by lia.
Qed.

Lemma slice_splice_ne off n off' src b :
  0 <= off -> 0 <= off' -> 0 <= n ->
  off + n <= off' \/ off' + Z.of_nat (length src) <= off ->
  slice off n (splice off' src b) = slice off n b.
Proof.
  intros. apply list_eq. intros i. unfold slice, splice.
  destruct (decide (i < Z.to_nat n)%nat) as [Hi|Hi].
  - rewrite !lookup_take_lt, !lookup_drop by done.
    destruct (decide (Z.to_nat off + i < Z.to_nat off')%nat).
    + by rewrite list_lookup_inserts_lt.
    + rewrite list_lookup_inserts_ge; [done|lia].
  - rewrite !lookup_take_ge by lia. done.
Qed.

Lemma rd_wr_eq w off v b :
  0 <= off -> off + Z.of_nat w <= Z.of_nat (length b) ->
  rd w off (wr w off v b) = v mod 256 ^ Z.of_nat w.
Proof.
  intros. unfold rd, wr. rewrite <- (length_le_enc w v) at 1.
  rewrite slice_splice_eq by (rewrite ?length_le_enc; done). apply le_dec_enc.
Qed.

Lemma rd_wr_ne w off w' off' v b :
  0 <= off -> 0 <= off' ->
  off + Z.of_nat w <= off' \/ off' + Z.of_nat w' <= off ->
  rd w off (wr w' off' v b) = rd w off b.
Proof.
  intros. unfold rd, wr. rewrite slice_splice_ne; [done..|lia|].
  rewrite length_le_enc. lia.
Qed.

Lemma bytes_wr w off v b : bytes b -> bytes (wr w off v b).
Proof. intros. apply bytes_splice; auto using bytes_le_enc. Qed.

Create Rewrite HintDb len.
#[export] Hint Rewrite length_splice length_wr length_le_enc : len.
#[export] Hint Resolve bytes_splice bytes_wr bytes_slice bytes_le_enc : wp.
