(* ===== verification/Params.v ===== *)
(** Constants of the kernel: param.h, fs.h, buf.h, stat.h and fcntl.h. *)
From S2P Require Import Prelude.

(** param.h *)
Definition NPROC : nat := 64.
Definition KSTACKSIZE : Z := 4096.
Definition NCPU : nat := 8.
Definition NOFILE : nat := 16.
Definition NFILE : nat := 100.
Definition NBUF : nat := 10.
Definition NINODE : nat := 50.
Definition NDEV : Z := 10.
Definition ROOTDEV : Z := 1.
Definition MAXARG : nat := 32.
Definition LOGSIZE : Z := 10.

(** fs.h *)
Definition ROOTINO : Z := 1.
Definition BSIZE : Z := 512.
Definition NDIRECT : Z := 12.
Definition NINDIRECT : Z := BSIZE / 4.
Definition MAXFILE : Z := NDIRECT + NINDIRECT.
(** [sizeof(struct dinode)]: four shorts, the size, NDIRECT+1 addresses. *)
Definition DINODE_SZ : Z := 4 * 2 + 4 + (NDIRECT + 1) * 4.
Definition IPB : Z := BSIZE / DINODE_SZ.
Definition IBLOCK (i : Z) : Z := i / IPB + 2.
Definition BPB : Z := BSIZE * 8.
Definition BBLOCK (b ninodes : Z) : Z := b / BPB + ninodes / IPB + 3.
Definition DIRSIZ : nat := 14.
(** [sizeof(struct dirent)] *)
Definition DIRENT_SZ : Z := 2 + Z.of_nat DIRSIZ.

(** buf.h *)
Definition B_BUSY : Z := 0x1.
Definition B_VALID : Z := 0x2.
Definition B_DIRTY : Z := 0x4.

(** file.h *)
Definition I_BUSY : Z := 0x1.
Definition I_VALID : Z := 0x2.
Definition CONSOLE : Z := 1.

(** stat.h *)
Definition T_DIR : Z := 1.
Definition T_FILE : Z := 2.
Definition T_DEV : Z := 3.

(** fcntl.h *)
Definition O_RDONLY : Z := 0x000.
Definition O_WRONLY : Z := 0x001.
Definition O_RDWR : Z := 0x002.
Definition O_CREATE : Z := 0x200.

(** Flag words: [f & m], [f |= m], [f &= ~m]. *)
Definition has (f m : Z) : bool := negb (Z.land f m =? 0).
Definition fset (m f : Z) : Z := Z.lor f m.
Definition fclr (m f : Z) : Z := Z.land f (Z.lnot m).

Lemma has_bit f k : 0 <= k -> has f (2 ^ k) = Z.testbit f k.
Proof.
  intros. unfold has. rewrite <- Z.shiftl_1_l.
  destruct (Z.eqb_spec (Z.land f (Z.shiftl 1 k)) 0) as [He|Hne]; simpl.
  - apply (f_equal (fun z => Z.testbit z k)) in He.
    rewrite Z.land_spec, Z.shiftl_spec, Z.sub_diag, Z.bits_0 in He by lia.
    by rewrite andb_true_r in He.
  - destruct (Z.testbit f k) eqn:Hf; [done|]. destruct Hne. apply Z.bits_inj'.
    intros n Hn. rewrite Z.land_spec, Z.shiftl_spec, Z.bits_0 by lia.
    destruct (decide (n = k)) as [->|]; [by rewrite Hf|].
    rewrite andb_false_intro2; [done|].
    destruct (decide (n < k)); [by apply Z.testbit_neg_r; lia|].
    change 1 with (2 ^ 0). by rewrite Z.pow2_bits_false by lia.
Qed.

Lemma has_fset f k j :
  0 <= k -> 0 <= j -> has (fset (2 ^ k) f) (2 ^ j) = (k =? j) || has f (2 ^ j).
Proof.
  intros. rewrite !has_bit by done. unfold fset.
  rewrite Z.lor_spec, Z.pow2_bits_eqb by done. apply orb_comm.
Qed.
Lemma has_fclr f k j :
  0 <= k -> 0 <= j -> has (fclr (2 ^ k) f) (2 ^ j) = negb (k =? j) && has f (2 ^ j).
Proof.
  intros. rewrite !has_bit by done. unfold fclr.
  rewrite Z.land_spec, Z.lnot_spec, Z.pow2_bits_eqb by done. apply andb_comm.
Qed.

(** Simplifies tests of a flag after flags were set and cleared. *)
Definition flagbit (m : Z) : Prop := m = 1 \/ m = 2 \/ m = 4.
Lemma has_fset_flag f a b :
  flagbit a -> flagbit b -> has (fset a f) b = (a =? b) || has f b.
Proof.
  intros [->|[->| ->]] [->|[->| ->]];
    [apply (has_fset f 0 0)|apply (has_fset f 0 1)|apply (has_fset f 0 2)
    |apply (has_fset f 1 0)|apply (has_fset f 1 1)|apply (has_fset f 1 2)
    |apply (has_fset f 2 0)|apply (has_fset f 2 1)|apply (has_fset f 2 2)]; lia.
Qed.
Lemma has_fclr_flag f a b :
  flagbit a -> flagbit b -> has (fclr a f) b = negb (a =? b) && has f b.
Proof.
  intros [->|[->| ->]] [->|[->| ->]];
    [apply (has_fclr f 0 0)|apply (has_fclr f 0 1)|apply (has_fclr f 0 2)
    |apply (has_fclr f 1 0)|apply (has_fclr f 1 1)|apply (has_fclr f 1 2)
    |apply (has_fclr f 2 0)|apply (has_fclr f 2 1)|apply (has_fclr f 2 2)]; lia.
Qed.

(** [(f & (B_VALID|B_DIRTY)) == B_VALID], as iderw tests it. *)
Lemma valid_clean_test f :
  (Z.land f (Z.lor B_VALID B_DIRTY) =? B_VALID) = has f B_VALID && negb (has f B_DIRTY).
Proof.
  change B_VALID with (2 ^ 1). change B_DIRTY with (2 ^ 2).
  rewrite !has_bit by lia.
  assert (Hl : Z.land f (Z.lor (2 ^ 1) (2 ^ 2)) =
               Z.lor (if Z.testbit f 1 then 2 else 0) (if Z.testbit f 2 then 4 else 0)).
  { apply Z.bits_inj'. intros n Hn.
    rewrite Z.land_spec, !Z.lor_spec, !Z.pow2_bits_eqb by lia.
    destruct (Z.eqb_spec 1 n) as [<-|]; [destruct (Z.testbit f 1), (Z.testbit f 2); done|].
    destruct (Z.eqb_spec 2 n) as [<-|]; [destruct (Z.testbit f 1), (Z.testbit f 2); done|].
    cbn [orb]. rewrite andb_false_r. symmetry. apply orb_false_intro.
    - destruct (Z.testbit f 1); [|apply Z.bits_0].
      change 2 with (2 ^ 1). rewrite Z.pow2_bits_eqb by lia. by apply Z.eqb_neq.
    - destruct (Z.testbit f 2); [|apply Z.bits_0].
      change 4 with (2 ^ 2). rewrite Z.pow2_bits_eqb by lia. by apply Z.eqb_neq. }
  rewrite Hl. destruct (Z.testbit f 1), (Z.testbit f 2); reflexivity.
Qed.

Ltac flagbit := unfold flagbit, B_BUSY, B_VALID, B_DIRTY, I_BUSY, I_VALID; lia.
Ltac eval_flag_eqb :=
  repeat match goal with
  | |- context [?a =? ?b] =>
      let r := eval vm_compute in (a =? b) in
      lazymatch r with true => idtac | false => idtac end;
      change (a =? b) with r
  end.
Ltac flags :=
  repeat first [rewrite has_fset_flag by flagbit | rewrite has_fclr_flag by flagbit];
  eval_flag_eqb; cbn [orb andb negb].
