(* ===== verification/Str.v ===== *)
(** string.c: the kernel's string and memory routines.

    A pointer into a string is the list of the bytes from it to the end of
    the object; reading [*p] past that end gives 0.  The routines that move
    memory work on an address space, a byte list indexed by addresses, so
    that overlapping arguments are modelled. *)
From S2P Require Import Prelude.

(** ** Strings *)
Definition chr (p : list Z) : Z := hd 0 p.

Fixpoint memcmp (v1 v2 : list Z) (n : nat) : Z :=
  match n with
  | O => 0
  | S n => if negb (chr v1 =? chr v2) then chr v1 - chr v2 else memcmp (tail v1) (tail v2) n
  end.

Fixpoint strncmp (p q : list Z) (n : nat) : Z :=
  match n with
  | O => 0
  | S n => if negb (chr p =? 0) && (chr p =? chr q) then strncmp (tail p) (tail q) n
           else chr p - chr q
  end.

(** The bytes strncpy stores: the copying loop, then the padding loop. *)
Fixpoint strncpy_bytes (t : list Z) (n : nat) : list Z :=
  match n with
  | O => []
  | S n => chr t :: (if chr t =? 0 then replicate n 0 else strncpy_bytes (tail t) n)
  end.
Definition strncpy (s t : list Z) (n : Z) : list Z :=
  splice 0 (strncpy_bytes t (Z.to_nat n)) s.

(** [--n > 0] first, so [m] = n - 1 bytes are copied at most; a copied NUL
    is followed by the final one. *)
Fixpoint safestrcpy_bytes (t : list Z) (m : nat) : list Z :=
  match m with
  | O => [0]
  | S m => if chr t =? 0 then [0; 0] else chr t :: safestrcpy_bytes (tail t) m
  end.
Definition safestrcpy (s t : list Z) (n : Z) : list Z :=
  if n <=? 0 then s else splice 0 (safestrcpy_bytes t (Z.to_nat (n - 1))) s.

Fixpoint strlen_from (s : list Z) (n : Z) : Z :=
  match s with
  | [] => n
  | c :: s => if c =? 0 then n else strlen_from s (n + 1)
  end.
Definition strlen (s : list Z) : Z := strlen_from s 0.

(** ** Memory *)
Definition peek (m : list Z) (a : Z) : Z := m !!! Z.to_nat a.
Definition poke (a v : Z) (m : list Z) : list Z := <[Z.to_nat a := v]> m.

(** [while(n-- > 0) *d++ = *s++] and [while(n-- > 0) *--d = *--s]. *)
Fixpoint copy_up (n : nat) (d s : Z) (m : list Z) : list Z :=
  match n with
  | O => m
  | S n => copy_up n (d + 1) (s + 1) (poke d (peek m s) m)
  end.
Fixpoint copy_down (n : nat) (d s : Z) (m : list Z) : list Z :=
  match n with
  | O => m
  | S n => copy_down n (d - 1) (s - 1) (poke (d - 1) (peek m (s - 1)) m)
  end.
Definition memmove (dst src n : Z) (m : list Z) : list Z :=
  if (src <? dst) && (dst <? src + n) then copy_down (Z.to_nat n) (dst + n) (src + n) m
  else copy_up (Z.to_nat n) dst src m.

Definition memcpy (dst src n : Z) (m : list Z) : list Z := memmove dst src n m.

(** [stosb] and [stosl] of x86.h. *)
Fixpoint stosb (a c : Z) (cnt : nat) (m : list Z) : list Z :=
  match cnt with O => m | S k => stosb (a + 1) c k (poke a (c mod 256) m) end.
Fixpoint stosl (a w : Z) (cnt : nat) (m : list Z) : list Z :=
  match cnt with O => m | S k => stosl (a + 4) w k (wr 4 a w m) end.
Definition memset (dst c n : Z) (m : list Z) : list Z :=
  if (dst mod 4 =? 0) && (n mod 4 =? 0) then
    let c := Z.land c 0xFF in
    stosl dst (Z.lor (Z.lor (Z.lor (Z.shiftl c 24) (Z.shiftl c 16)) (Z.shiftl c 8)) c)
      (Z.to_nat (n / 4)) m
  else stosb dst c (Z.to_nat n) m.

(** ** Specifications *)

(** The C string at a pointer. *)
Fixpoint cstr (p : list Z) : list Z :=
  match p with
  | [] => []
  | c :: p => if c =? 0 then [] else c :: cstr p
  end.

Section strings.
Implicit Types (p q s t : list Z) (n m : nat).

Lemma chr_cstr p : chr p = hd 0 (cstr p).
Proof. destruct p as [|c p]; simpl; [done|]. destruct (Z.eqb_spec c 0); done. Qed.
Lemma cstr_tail p : chr p <> 0 -> cstr p = chr p :: cstr (tail p).
Proof. destruct p as [|c p]; simpl; [done|]. by destruct (Z.eqb_spec c 0). Qed.
Lemma cstr_nil p : chr p = 0 -> cstr p = [].
Proof. destruct p as [|c p]; simpl; [done|]. by intros ->. Qed.
Lemma cstr_nonzero p : Forall (fun c => c <> 0) (cstr p).
Proof.
  induction p as [|c p IH]; simpl; [constructor|]. destruct (Z.eqb_spec c 0); by constructor.
Qed.
Lemma cstr_app_zero s t : Forall (fun c => c <> 0) s -> cstr (s ++ 0 :: t) = s.
Proof.
  induction 1 as [|c s Hc _ IH]; simpl; [done|]. by destruct (Z.eqb_spec c 0); [|rewrite IH].
Qed.
Lemma cstr_id s : Forall (fun c => c <> 0) s -> cstr s = s.
Proof.
  induction 1 as [|c s Hc _ IH]; simpl; [done|]. by destruct (Z.eqb_spec c 0); [|rewrite IH].
Qed.

Lemma strlen_from_spec s (k : Z) : strlen_from s k = k + Z.of_nat (length (cstr s)).
Proof.
  revert k. induction s as [|c s IH]; intros k; simpl; [lia|].
  destruct (c =? 0); simpl; [lia|]. rewrite IH. lia.
Qed.

Lemma strncmp_zero p q n : strncmp p q n = 0 <-> take n (cstr p) = take n (cstr q).
Proof.
  revert p q. induction n as [|n IH]; intros p q; simpl; [done|].
  destruct (Z.eqb_spec (chr p) 0) as [Hp|Hp]; simpl.
  - rewrite (cstr_nil p Hp). simpl. split.
    + intros Hq. rewrite (cstr_nil q); [done|lia].
    + intros Heq. rewrite Hp, (chr_cstr q). by destruct (cstr q).
  - destruct (Z.eqb_spec (chr p) (chr q)) as [Heq|Hne].
    + rewrite IH, (cstr_tail p), (cstr_tail q) by congruence. simpl. rewrite Heq.
      split; [by intros ->|by intros [= ->]].
    + rewrite (cstr_tail p) by done. split; [lia|]. intros Htake. exfalso. apply Hne.
      rewrite (chr_cstr q). destruct (cstr q); by inversion Htake.
Qed.

Lemma length_strncpy_bytes t n : length (strncpy_bytes t n) = n.
Proof.
  revert t. induction n as [|n IH]; intros t; simpl; [done|].
  destruct (chr t =? 0); by rewrite ?length_replicate, ?IH.
Qed.
Lemma strncpy_bytes_spec t n :
  strncpy_bytes t n = take n (cstr t) ++ replicate (n - length (cstr t)) 0.
Proof.
  revert t. induction n as [|n IH]; intros t; simpl; [done|].
  destruct (Z.eqb_spec (chr t) 0) as [Ht|Ht].
  - rewrite (cstr_nil t Ht), Ht. simpl. done.
  - rewrite (cstr_tail t Ht). simpl. by rewrite IH.
Qed.

Lemma safestrcpy_bytes_spec t m :
  exists k, safestrcpy_bytes t m = take m (cstr t) ++ 0 :: replicate k 0 /\
    (length (safestrcpy_bytes t m) <= S m)%nat.
Proof.
  revert t. induction m as [|m IH]; intros t; simpl; [by exists O|].
  destruct (Z.eqb_spec (chr t) 0) as [Ht|Ht].
  - exists 1%nat. rewrite (cstr_nil t Ht). simpl. split; [done|lia].
  - destruct (IH (tail t)) as (k&Hk&Hl). exists k. rewrite (cstr_tail t Ht). simpl.
    split; [by rewrite Hk|lia].
Qed.
End strings.

Section memory.
Implicit Types (m : list Z) (d s a c : Z) (n : nat).

Lemma peek_poke m a b v :
  0 <= a < Z.of_nat (length m) -> 0 <= b -> peek (poke a v m) b = if decide (b = a) then v else peek m b.
Proof.
  intros Ha Hb. unfold peek, poke. case_decide.
  - subst. apply list_lookup_total_insert_eq. lia.
  - apply list_lookup_total_insert_ne. lia.
Qed.
Lemma length_poke a v m : length (poke a v m) = length m.
Proof. apply length_insert. Qed.

(** Two memories of the same size are equal if they agree at each address. *)
Lemma mem_ext m m' :
  length m = length m' -> (forall a, 0 <= a < Z.of_nat (length m) -> peek m a = peek m' a) -> m = m'.
Proof.
  intros Hl Hp. apply list_eq. intros i. destruct (decide (i < length m)%nat) as [Hi|Hi].
  - rewrite !list_lookup_lookup_total_lt by lia. f_equal. specialize (Hp (Z.of_nat i)).
    unfold peek in Hp. rewrite Nat2Z.id in Hp. apply Hp. lia.
  - rewrite !lookup_ge_None_2 by lia. done.
Qed.
Lemma peek_splice a src m b :
  0 <= a -> a + Z.of_nat (length src) <= Z.of_nat (length m) -> 0 <= b ->
  peek (splice a src m) b =
  if decide (a <= b < a + Z.of_nat (length src)) then src !!! Z.to_nat (b - a) else peek m b.
Proof.
  intros Ha Hl Hb. unfold peek, splice. apply Some_inj.
  destruct (decide (b < Z.of_nat (length m))) as [Hbm|Hbm].
  - rewrite <- list_lookup_lookup_total_lt by (rewrite length_inserts; lia). case_decide.
    + rewrite list_lookup_inserts by lia. rewrite <- list_lookup_lookup_total_lt by lia. f_equal. lia.
    + rewrite <- list_lookup_lookup_total_lt by lia.
      destruct (decide (b < a)); [apply list_lookup_inserts_lt; lia|apply list_lookup_inserts_ge; lia].
  - rewrite decide_False by lia. f_equal. rewrite !list_lookup_total_alt.
    rewrite !lookup_ge_None_2; [done|lia|rewrite length_inserts; lia].
Qed.
Lemma peek_slice a n m b :
  0 <= a -> 0 <= b < Z.of_nat n -> a + Z.of_nat n <= Z.of_nat (length m) ->
  slice a (Z.of_nat n) m !!! Z.to_nat b = peek m (a + b).
Proof.
  intros Ha Hb Hl. unfold slice, peek. apply Some_inj. rewrite Nat2Z.id.
  rewrite <- !list_lookup_lookup_total_lt by (rewrite ?length_take, ?length_drop; lia).
  rewrite lookup_take_lt, lookup_drop by lia. f_equal. lia.
Qed.

(** The copying loops move [n] bytes when the destination does not run into
    the part of the source that is still to be read. *)
Lemma copy_up_spec n d s m :
  0 <= d -> 0 <= s -> d + Z.of_nat n <= Z.of_nat (length m) -> s + Z.of_nat n <= Z.of_nat (length m) ->
  d <= s \/ s + Z.of_nat n <= d ->
  length (copy_up n d s m) = length m /\ forall b, 0 <= b ->
  peek (copy_up n d s m) b = if decide (d <= b < d + Z.of_nat n) then peek m (s + (b - d)) else peek m b.
Proof.
  revert d s m. induction n as [|n IH]; intros d s m Hd Hs Hdl Hsl Hov; cbn [copy_up].
  { split; [done|]. intros b Hb. by rewrite decide_False by lia. }
  destruct (IH (d + 1) (s + 1) (poke d (peek m s) m)) as [Hl Hp]; rewrite ?length_poke; try lia.
  rewrite length_poke in Hl. split; [done|]. intros b Hb. rewrite Hp by done.
  destruct (decide (b = d)) as [->|Hbd].
  - rewrite decide_False, decide_True, peek_poke, decide_True by lia. f_equal. lia.
  - destruct (decide (d + 1 <= b < d + 1 + Z.of_nat n)) as [Hin|Hin].
    + rewrite (decide_True (P := d <= b < _)) by lia. rewrite peek_poke by lia.
      destruct (decide (s + 1 + (b - (d + 1)) = d)); [lia|]. f_equal. lia.
    + rewrite (decide_False (P := d <= b < _)) by lia. rewrite peek_poke by lia. by rewrite decide_False.
Qed.
Lemma copy_down_spec n d s m :
  Z.of_nat n <= d -> Z.of_nat n <= s -> d <= Z.of_nat (length m) -> s <= Z.of_nat (length m) ->
  s <= d ->
  length (copy_down n d s m) = length m /\ forall b, 0 <= b ->
  peek (copy_down n d s m) b = if decide (d - Z.of_nat n <= b < d) then peek m (s - (d - b)) else peek m b.
Proof.
  revert d s m. induction n as [|n IH]; intros d s m Hd Hs Hdl Hsl Hov; cbn [copy_down].
  { split; [done|]. intros b Hb. by rewrite decide_False by lia. }
  destruct (IH (d - 1) (s - 1) (poke (d - 1) (peek m (s - 1)) m)) as [Hl Hp]; rewrite ?length_poke; try lia.
  rewrite length_poke in Hl. split; [done|]. intros b Hb. rewrite Hp by done.
  destruct (decide (b = d - 1)) as [->|Hbd].
  - rewrite decide_False, decide_True, peek_poke, decide_True by lia. f_equal. lia.
  - destruct (decide (d - 1 - Z.of_nat n <= b < d - 1)) as [Hin|Hin].
    + rewrite (decide_True (P := d - _ <= b < d)) by lia. rewrite peek_poke by lia.
      destruct (decide (s - 1 - (d - 1 - b) = d - 1)); [lia|]. f_equal. lia.
    + rewrite (decide_False (P := d - _ <= b < d)) by lia. rewrite peek_poke by lia. by rewrite decide_False.
Qed.

Lemma splice_app a (s1 s2 : list Z) m :
  0 <= a -> a + Z.of_nat (length s1 + length s2) <= Z.of_nat (length m) ->
  splice a (s1 ++ s2) m = splice (a + Z.of_nat (length s1)) s2 (splice a s1 m).
Proof.
  intros Ha Hl. apply mem_ext; [by autorewrite with len|]. intros b Hb.
  rewrite !peek_splice by (rewrite ?length_app, ?length_splice; lia). rewrite length_app.
  destruct (decide (a <= b < a + Z.of_nat (length s1))) as [H1|H1].
  - rewrite decide_True, decide_False, (lookup_total_app_l s1) by lia. done.
  - destruct (decide (a + Z.of_nat (length s1) <= b < a + Z.of_nat (length s1) + Z.of_nat (length s2))).
    + rewrite decide_True, (lookup_total_app_r s1) by lia. f_equal. lia.
    + by rewrite decide_False by lia.
Qed.

Lemma stosb_spec n a c m :
  0 <= a -> a + Z.of_nat n <= Z.of_nat (length m) ->
  stosb a c n m = splice a (replicate n (c mod 256)) m.
Proof.
  revert a m. induction n as [|n IH]; intros a m Ha Hl; cbn [stosb replicate]; [done|].
  rewrite IH by (rewrite ?length_poke; lia). unfold splice, poke. cbn [list_inserts].
  replace (Z.to_nat (a + 1)) with (S (Z.to_nat a)) by lia.
  symmetry. apply list_insert_inserts_lt. lia.
Qed.
Lemma stosl_spec n a w m :
  0 <= a -> a + 4 * Z.of_nat n <= Z.of_nat (length m) ->
  stosl a w n m = splice a (concat (replicate n (le_enc 4 w))) m.
Proof.
  revert a m. induction n as [|n IH]; intros a m Ha Hl; cbn [stosl]; [done|].
  rewrite IH by (rewrite ?length_wr; lia). cbn [replicate concat]. unfold wr.
  rewrite splice_app.
  - done.
  - done.
  - rewrite length_le_enc, length_concat. rewrite fmap_replicate, length_le_enc, sum_list_replicate. lia.
Qed.

(** The word memset stores repeats the byte. *)
Lemma memset_word c : 0 <= c < 256 ->
  le_enc 4 (Z.lor (Z.lor (Z.lor (Z.shiftl c 24) (Z.shiftl c 16)) (Z.shiftl c 8)) c) = replicate 4 c.
Proof.
  intros Hc.
  assert (Hall : Forall (fun c => le_enc 4 (Z.lor (Z.lor (Z.lor (Z.shiftl c 24) (Z.shiftl c 16))
    (Z.shiftl c 8)) c) = replicate 4 c) (seqZ 0 256)) by (apply (bool_decide_unpack _); by vm_compute).
  rewrite Forall_forall in Hall. apply Hall, elem_of_seqZ. lia.
Qed.
Lemma concat_replicate4 n c : concat (replicate n (replicate 4 c)) = replicate (4 * n) c.
Proof.
  induction n as [|n IH]; [done|]. replace (4 * S n)%nat with (4 + 4 * n)%nat by lia.
  rewrite replicate_add, <- IH. done.
Qed.
End memory.

(** ** Theorems *)

(** memmove copies correctly whether or not the two areas overlap: the [n]
    bytes at [dst] become the [n] bytes that were at [src], every other byte
    of memory keeps its value. *)
Theorem memmove_correct dst src n m :
  0 <= dst -> 0 <= src -> 0 <= n ->
  dst + n <= Z.of_nat (length m) -> src + n <= Z.of_nat (length m) ->
  memmove dst src n m = splice dst (slice src n m) m.
Proof.
  intros Hd Hs Hn Hdl Hsl. set (k := Z.to_nat n). assert (Hk : n = Z.of_nat k) by lia.
  assert (Hlen : length (slice src n m) = k) by (apply length_slice; lia).
  assert (Hsp : forall b, 0 <= b -> peek (splice dst (slice src n m) m) b =
    if decide (dst <= b < dst + n) then peek m (src + (b - dst)) else peek m b).
  { intros b Hb. rewrite peek_splice by lia. rewrite Hlen, <- Hk. case_decide; [|done].
    rewrite Hk. apply peek_slice; lia. }
  unfold memmove. fold k. destruct (Z.ltb_spec src dst) as [H1|H1]; simpl;
    [destruct (Z.ltb_spec dst (src + n)) as [H2|H2]|].
  - destruct (copy_down_spec k (dst + n) (src + n) m) as [Hl Hp]; [lia..|].
    apply mem_ext; [by rewrite length_splice|]. intros b Hb. rewrite Hp, Hsp by lia.
    replace (dst + n - Z.of_nat k) with dst by lia. case_decide; [f_equal; lia|done].
  - destruct (copy_up_spec k dst src m) as [Hl Hp]; [lia..|].
    apply mem_ext; [by rewrite length_splice|]. intros b Hb. by rewrite Hp, Hsp, <- Hk by lia.
  - destruct (copy_up_spec k dst src m) as [Hl Hp]; [lia..|].
    apply mem_ext; [by rewrite length_splice|]. intros b Hb. by rewrite Hp, Hsp, <- Hk by lia.
Qed.

(** memset: the branch that stores whole words and the one that stores bytes
    have the same effect, [n] copies of the low byte of [c]. *)
Theorem memset_correct dst c n m :
  0 <= dst -> 0 <= n -> dst + n <= Z.of_nat (length m) ->
  memset dst c n m = splice dst (replicate (Z.to_nat n) (c mod 256)) m.
Proof.
  intros Hd Hn Hl. unfold memset. destruct (Z.eqb_spec (dst mod 4) 0); [|apply stosb_spec; lia].
  destruct (Z.eqb_spec (n mod 4) 0) as [Hm|]; simpl; [|apply stosb_spec; lia].
  assert (Hn4 : n = 4 * (n / 4)) by (pose proof (Z.div_mod n 4); lia).
  replace (Z.land c 255) with (c mod 256) by (change 255 with (Z.ones 8); by rewrite Z.land_ones).
  rewrite stosl_spec, memset_word, concat_replicate4 by (try apply Z.mod_pos_bound; lia).
  do 2 f_equal. lia.
Qed.

Lemma memmove_correct_witness :
  memmove 1 0 4 [1; 2; 3; 4; 5; 6] = splice 1 (slice 0 4 [1; 2; 3; 4; 5; 6]) [1; 2; 3; 4; 5; 6] /\
  memmove 1 0 4 [1; 2; 3; 4; 5; 6] = [1; 1; 2; 3; 4; 6].
Proof. split; [apply memmove_correct; simpl; lia|reflexivity]. Defined.
Lemma memset_correct_witness :
  memset 4 0x12F 4 (replicate 9 7) = splice 4 (replicate 4 (0x12F mod 256)) (replicate 9 7).
Proof. apply (memset_correct 4 0x12F 4); simpl; lia. Defined.

(** strncmp decides equality of the first [n] characters of two C strings;
    in the file system this makes file names equal up to DIRSIZ characters. *)
Theorem strncmp_correct p q n :
  strncmp p q n = 0 <-> take n (cstr p) = take n (cstr q).
Proof. apply strncmp_zero. Qed.

(** C37. strncpy stores exactly [n] bytes: the string cut at [n], then zeros;
    safestrcpy never stores more than [n] bytes, and what it stores is a
    terminated copy of the first n - 1 characters.  strlen counts the
    characters before the terminator. *)
Theorem strcpy_correct s t n :
  0 < n <= Z.of_nat (length s) ->
  slice 0 n (strncpy s t n) = take (Z.to_nat n) (cstr t) ++ replicate (Z.to_nat n - length (cstr t)) 0 /\
  drop (Z.to_nat n) (strncpy s t n) = drop (Z.to_nat n) s /\
  cstr (safestrcpy s t n) = take (Z.to_nat (n - 1)) (cstr t) /\
  drop (Z.to_nat n) (safestrcpy s t n) = drop (Z.to_nat n) s /\
  strlen t = Z.of_nat (length (cstr t)).
Proof.
  intros Hn. assert (Hpre : forall src, (length src <= Z.to_nat n)%nat -> splice 0 src s = src ++ drop (length src) s).
  { intros src Hl. rewrite splice_app_eq by lia. done. }
  assert (Hnz : forall m, Forall (fun c => c <> 0) (take m (cstr t))) by (intros; apply Forall_take, cstr_nonzero).
  split_and!.
  - unfold strncpy. rewrite <- strncpy_bytes_spec. unfold slice. simpl drop.
    rewrite Hpre by (by rewrite length_strncpy_bytes). apply take_app_length'. by rewrite length_strncpy_bytes.
  - unfold strncpy. rewrite Hpre by (by rewrite length_strncpy_bytes).
    by rewrite drop_app_length', length_strncpy_bytes by (by rewrite length_strncpy_bytes).
  - unfold safestrcpy. rewrite (proj2 (Z.leb_gt _ _)) by lia.
    destruct (safestrcpy_bytes_spec t (Z.to_nat (n - 1))) as (k&Heq&Hl).
    rewrite Hpre by lia. rewrite Heq, <- app_assoc. simpl. by apply cstr_app_zero.
  - unfold safestrcpy. rewrite (proj2 (Z.leb_gt _ _)) by lia.
    destruct (safestrcpy_bytes_spec t (Z.to_nat (n - 1))) as (k&Heq&Hl).
    rewrite Hpre by lia. set (l := safestrcpy_bytes t _) in *. rewrite drop_app_ge by lia.
    rewrite drop_drop. f_equal. lia.
  - unfold strlen. apply strlen_from_spec.
Qed.
Lemma strcpy_correct_witness :
  cstr (safestrcpy (replicate 4 9) [104; 105; 106; 107; 0] 4) = [104; 105; 106].
Proof.
  assert (Hn : 0 < 4 <= Z.of_nat (length (replicate 4 9))) by (simpl; lia).
  exact (eq_trans (proj1 (proj2 (proj2 (strcpy_correct (replicate 4 9) [104; 105; 106; 107; 0] 4 Hn)))) eq_refl).
Defined.
