(* ===== verification/Bio.v ===== *)
(** The buffer cache (bio.c) over the memory disk driver (memide.c).

    The cache is the array [bcache.buf] of NBUF buffers followed by the list
    head [bcache.head]; buffers are linked through [prev]/[next] indices in
    most-recently-used order, the head being index NBUF.  The disk is an
    array of 512-byte sectors; the model also keeps every earlier image of
    it, so that theorems can speak about a crash between two sector writes.
    The calls to [wakeup] are recorded; the spinlock bracketing a critical
    section does not appear because a routine of this file runs as one step
    (a [sleep] inside it ends the step with the error [Sleep]). *)
From S2P Require Import Prelude Params.

Record buf := mkBuf {
  b_flags : Z; b_dev : Z; b_sector : Z;
  b_prev : nat; b_next : nat; b_data : list Z }.

#[export] Instance buf_inhabited : Inhabited buf :=
  populate (mkBuf 0 0 0 0 0 []).

Definition set_flags (z : Z) (b : buf) : buf :=
  mkBuf z (b_dev b) (b_sector b) (b_prev b) (b_next b) (b_data b).
Definition set_dev (z : Z) (b : buf) : buf :=
  mkBuf (b_flags b) z (b_sector b) (b_prev b) (b_next b) (b_data b).
Definition set_sector (z : Z) (b : buf) : buf :=
  mkBuf (b_flags b) (b_dev b) z (b_prev b) (b_next b) (b_data b).
Definition set_prev (i : nat) (b : buf) : buf :=
  mkBuf (b_flags b) (b_dev b) (b_sector b) i (b_next b) (b_data b).
Definition set_next (i : nat) (b : buf) : buf :=
  mkBuf (b_flags b) (b_dev b) (b_sector b) (b_prev b) i (b_data b).
Definition set_data (d : list Z) (b : buf) : buf :=
  mkBuf (b_flags b) (b_dev b) (b_sector b) (b_prev b) (b_next b) d.

(** The platter: the sectors now, and the images it held before (newest
    first). *)
Record disk := mkDisk { d_now : list (list Z); d_past : list (list (list Z)) }.

Record bio := mkBio { bcache : list buf; dsk : disk; woken : list chan }.

(** [&bcache.head] *)
Definition head : nat := NBUF.

Definition getb (i : nat) : K bio buf :=
  fun s => match bcache s !! i with Some b => Ok b s | None => Fail Undef end.
(** [b->field = ...] *)
Definition updb (i : nat) (f : buf -> buf) : K bio unit :=
  modify (fun s => mkBio (alter f i (bcache s)) (dsk s) (woken s)).
Definition wakeup (c : chan) : K bio unit :=
  modify (fun s => mkBio (bcache s) (dsk s) (c :: woken s)).

(** ** memide.c *)

Definition disksize : K bio Z := gets (fun s => Z.of_nat (length (d_now (dsk s)))).
Definition disk_read (sector : Z) : K bio (list Z) :=
  gets (fun s => d_now (dsk s) !!! Z.to_nat sector).
Definition disk_write (sector : Z) (d : list Z) : K bio unit :=
  modify (fun s => mkBio (bcache s)
    (mkDisk (<[Z.to_nat sector := d]> (d_now (dsk s))) (d_now (dsk s) :: d_past (dsk s)))
    (woken s)).

Definition iderw (b : nat) : K bio unit :=
  x <- getb b;;
  if negb (has (b_flags x) B_BUSY) then panic "iderw: buf not busy" else
  if Z.land (b_flags x) (Z.lor B_VALID B_DIRTY) =? B_VALID
  then panic "iderw: nothing to do" else
  if negb (b_dev x =? 1) then panic "iderw: request not for disk 1" else
  dsz <- disksize;;
  if dsz <=? b_sector x then panic "iderw: sector out of range" else
  (if has (b_flags x) B_DIRTY then
     updb b (set_flags (fclr B_DIRTY (b_flags x)));;
     disk_write (b_sector x) (b_data x)
   else
     d <- disk_read (b_sector x);;
     updb b (set_data d));;
  x <- getb b;;
  updb b (set_flags (fset B_VALID (b_flags x))).

(** ** bio.c *)

Definition binit : K bio unit :=
  updb head (set_prev head);;
  updb head (set_next head);;
  for_range NBUF 0 (fun i =>
    let b := Z.to_nat i in
    h <- getb head;;
    updb b (set_next (b_next h));;
    updb b (set_prev head);;
    updb b (set_dev (u32 (-1)));;
    h <- getb head;;
    updb (b_next h) (set_prev b);;
    updb head (set_next b)).

(** First loop of bget: is the sector already cached? *)
Definition bget_cached (dev sector : Z) (b : nat) : K bio (nat + option nat) :=
  if (b =? head)%nat then ret (inr None) else
  x <- getb b;;
  if (b_dev x =? dev) && (b_sector x =? sector) then
    if negb (has (b_flags x) B_BUSY) then
      updb b (set_flags (fset B_BUSY (b_flags x)));;
      ret (inr (Some b))
    else fail (Sleep (ChBuf b))
  else ret (inl (b_next x)).

(** Second loop: recycle some non-busy and clean buffer. *)
Definition bget_recycle (dev sector : Z) (b : nat) : K bio (nat + nat) :=
  if (b =? head)%nat then panic "bget: no buffers" else
  x <- getb b;;
  if (Z.land (b_flags x) B_BUSY =? 0) && (Z.land (b_flags x) B_DIRTY =? 0) then
    updb b (set_dev dev);;
    updb b (set_sector sector);;
    updb b (set_flags B_BUSY);;
    ret (inr b)
  else ret (inl (b_prev x)).

Definition bget (dev sector : Z) : K bio nat :=
  h <- getb head;;
  r <- while (S NBUF) (bget_cached dev sector) (b_next h);;
  match r with
  | Some b => ret b
  | None =>
      h <- getb head;;
      while (S NBUF) (bget_recycle dev sector) (b_prev h)
  end.

Definition bread (dev sector : Z) : K bio nat :=
  b <- bget dev sector;;
  x <- getb b;;
  when (negb (has (b_flags x) B_VALID)) (iderw b);;
  ret b.

Definition bwrite (b : nat) : K bio unit :=
  x <- getb b;;
  if Z.land (b_flags x) B_BUSY =? 0 then panic "bwrite" else
  updb b (set_flags (fset B_DIRTY (b_flags x)));;
  iderw b.

Definition brelse (b : nat) : K bio unit :=
  x <- getb b;;
  if Z.land (b_flags x) B_BUSY =? 0 then panic "brelse" else
  x <- getb b;;
  updb (b_next x) (set_prev (b_prev x));;
  x <- getb b;;
  updb (b_prev x) (set_next (b_next x));;
  h <- getb head;;
  updb b (set_next (b_next h));;
  updb b (set_prev head);;
  h <- getb head;;
  updb (b_next h) (set_prev b);;
  updb head (set_next b);;
  x <- getb b;;
  updb b (set_flags (fclr B_BUSY (b_flags x)));;
  wakeup (ChBuf b).

(** [b->data] as the holder of a buffer reads and writes it. *)
Definition bdata (b : nat) : K bio (list Z) := x <- getb b;; ret (b_data x).
Definition bstore (b : nat) (d : list Z) : K bio unit := updb b (set_data d).

(** Boot state: zeroed static memory and a disk image. *)
Definition zero_block : list Z := replicate 512 0.
Definition boot (img : list (list Z)) : bio :=
  mkBio (replicate (S NBUF) (mkBuf 0 0 0 0 0 zero_block)) (mkDisk img []) [].
