(* ===== verification/BioSpec.v ===== *)
(** Correctness of the buffer cache: the pointer-linked LRU list, the
    invariant of the cache, and what [bread], [bwrite] and [brelse] do to
    the logical contents of the sectors. *)
From S2P Require Import Prelude Params Bio.

(** ** Circular lists given by a successor function *)

Fixpoint path (f : nat -> nat) (a : nat) (l : list nat) : Prop :=
  match l with [] => True | b :: l => f a = b /\ path f b l end.

Section path.
Implicit Types (f g : nat -> nat) (a b z : nat) (l : list nat).

Lemma path_app f a l1 b l2 :
  path f a (l1 ++ b :: l2) <-> path f a (l1 ++ [b]) /\ path f b l2.
Proof. revert a. induction l1 as [|x l1 IH]; intros a; simpl; [tauto|]. rewrite IH. tauto. Qed.

Lemma last_cons_default (x a : nat) l : List.last (x :: l) a = List.last l x.
Proof. destruct l as [|y l]; [done|]. simpl. revert y. induction l; intros y; [done|apply IHl]. Qed.
#[local] Arguments List.last : simpl never.

Lemma path_snoc f a l z : path f a (l ++ [z]) <-> path f a l /\ f (List.last l a) = z.
Proof.
  revert a. induction l as [|x l IH]; intros a; [simpl; unfold List.last; tauto|].
  rewrite last_cons_default. simpl. rewrite IH. tauto.
Qed.

Lemma last_in (a : nat) l : List.last l a ∈ a :: l.
Proof.
  revert a. induction l as [|x l IH]; intros a; [set_solver|].
  rewrite last_cons_default. specialize (IH x). set_solver.
Qed.

Lemma last_ne (a b : nat) l : b ∉ a :: l -> List.last l a <> b.
Proof. intros Hb He. apply Hb. rewrite <- He. apply last_in. Qed.

Lemma path_ext f g a l z :
  (forall x, x ∈ a :: l -> f x = g x) -> path f a (l ++ [z]) -> path g a (l ++ [z]).
Proof.
  revert a. induction l as [|x l IH]; intros a He; simpl.
  - rewrite <- He by set_solver. done.
  - intros [<- H]. rewrite <- He by set_solver. split; [done|]. apply IH; [set_solver|done].
Qed.

(** Unlinking [b]: its predecessor now points to its successor. *)
Lemma path_remove f a l1 b l2 z :
  NoDup (a :: l1 ++ b :: l2) -> path f a (l1 ++ b :: l2 ++ [z]) ->
  path (<[List.last l1 a := f b]> f) a (l1 ++ l2 ++ [z]).
Proof.
  revert a. induction l1 as [|x l1 IH]; intros a Hnd; simpl.
  - intros [<- Hp]. apply NoDup_cons in Hnd as [Ha Hnd].
    destruct l2 as [|y l2]; simpl in *.
    + split; [|done]. rewrite fn_lookup_insert. tauto.
    + destruct Hp as [<- Hp]. split; [by rewrite fn_lookup_insert|].
      eapply path_ext; [|done]. intros x Hx. rewrite fn_lookup_insert_ne; [done|set_solver].
  - intros [<- Hp]. apply NoDup_cons in Hnd as [Ha Hnd]. rewrite last_cons_default.
    assert (List.last l1 (f a) <> a) by (apply last_ne; set_solver).
    rewrite fn_lookup_insert_ne by done. split; [done|]. by apply IH.
Qed.

(** Linking [b] just after [a]. *)
Lemma path_insert f a b l z :
  b ∉ a :: l -> a ∉ l -> path f a (l ++ [z]) ->
  path (<[a := b]> (<[b := f a]> f)) a (b :: l ++ [z]).
Proof.
  intros Hb Ha Hp. simpl. rewrite fn_lookup_insert. split; [done|].
  destruct l as [|x l]; simpl in *.
  - destruct Hp as [<- _]. rewrite fn_lookup_insert_ne, fn_lookup_insert by set_solver. done.
  - destruct Hp as [Hf Hp]. rewrite fn_lookup_insert_ne, fn_lookup_insert by set_solver.
    split; [done|]. eapply path_ext; [|done].
    intros y Hy. rewrite !fn_lookup_insert_ne by set_solver. done.
Qed.

(** Linking [b] at the end. *)
Lemma path_insert_end f a b l z :
  b ∉ a :: l -> NoDup (a :: l) -> path f a (l ++ [z]) ->
  path (<[List.last l a := b]> (<[b := z]> f)) a ((l ++ [b]) ++ [z]).
Proof.
  intros Hb Hnd Hp. apply path_snoc. split.
  - apply path_snoc in Hp as [Hp Hl]. apply path_snoc.
    split; [|by rewrite fn_lookup_insert].
    revert a Hb Hnd Hp Hl. induction l as [|x l IH]; intros a Hb Hnd; simpl; [done|].
    intros [<- Hp] Hl. rewrite !last_cons_default in *.
    apply NoDup_cons in Hnd as [Ha Hnd].
    split; [|apply IH; [set_solver|done..]].
    rewrite fn_lookup_insert_ne by (apply last_ne; set_solver).
    by rewrite fn_lookup_insert_ne by set_solver.
  - assert (List.last (l ++ [b]) a = b) as ->.
    { clear. revert a. induction l as [|x l IH]; intros a; [done|].
      change ((x :: l) ++ [b]) with (x :: (l ++ [b])). rewrite last_cons_default. apply IH. }
    rewrite fn_lookup_insert_ne by (apply last_ne; set_solver).
    by rewrite fn_lookup_insert.
Qed.

Lemma elem_of_rev (x : nat) l : x ∈ rev l <-> x ∈ l.
Proof. rewrite !list_elem_of_In. symmetry. apply in_rev. Qed.

Lemma last_rev_hd l a : List.last (rev l) a = List.hd a l.
Proof.
  destruct l as [|x l]; [done|]. simpl.
  generalize (rev l) as k. intros k. revert a. induction k as [|y k IH]; intros a; [done|].
  change ((y :: k) ++ [x]) with (y :: (k ++ [x])). rewrite last_cons_default. apply IH.
Qed.
End path.

(** ** The invariant of the cache *)

Definition B (s : bio) (i : nat) : buf := bcache s !!! i.
Definition nxt (c : list buf) (i : nat) : nat := b_next (c !!! i).
Definition prv (c : list buf) (i : nat) : nat := b_prev (c !!! i).
Definition busy (b : buf) : bool := has (b_flags b) B_BUSY.
Definition valid (b : buf) : bool := has (b_flags b) B_VALID.
Definition dirty (b : buf) : bool := has (b_flags b) B_DIRTY.
(** The buffer caches sector [x] of disk 1. *)
Definition holds (x : Z) (b : buf) : Prop := b_dev b = 1 /\ b_sector b = x.
#[export] Instance holds_dec x b : Decision (holds x b).
Proof. unfold holds. apply _. Defined.
Definition is_block (d : list Z) : Prop := length d = 512%nat /\ bytes d.
(** The sector on the platter. *)
Definition sector_of (img : list (list Z)) (x : Z) : list Z :=
  if 0 <=? x then img !!! Z.to_nat x else [].
Definition sect (s : bio) (x : Z) : list Z := sector_of (d_now (dsk s)) x.
Definition nsect (s : bio) : Z := Z.of_nat (length (d_now (dsk s))).

(** The buffers in the order of the doubly linked list [l]. *)
Definition dll (c : list buf) (l : list nat) : Prop :=
  path (nxt c) head (l ++ [head]) /\ path (prv c) head (rev l ++ [head]).

Record bio_wf (s : bio) : Prop := {
  wf_len : length (bcache s) = S NBUF;
  wf_lru : exists l, dll (bcache s) l /\ l ≡ₚ seq 0 NBUF;
  wf_uniq : forall i j x, (i < NBUF)%nat -> (j < NBUF)%nat ->
    holds x (B s i) -> holds x (B s j) -> i = j;
  wf_free : forall i, (i < NBUF)%nat -> b_dev (B s i) <> 1 -> b_flags (B s i) = 0;
  wf_range : forall i x, (i < NBUF)%nat -> holds x (B s i) -> 0 <= x < nsect s;
  wf_valid : forall i, (i < NBUF)%nat -> b_dev (B s i) = 1 -> valid (B s i) = true;
  wf_block : forall i, (i < NBUF)%nat -> b_dev (B s i) = 1 -> is_block (b_data (B s i));
  wf_clean : forall i x, (i < NBUF)%nat -> holds x (B s i) ->
    busy (B s i) = false -> dirty (B s i) = false -> b_data (B s i) = sect s x;
  wf_disk : Forall is_block (d_now (dsk s)) }.

(** What the file system reads as sector [x]: the cached copy, or else the
    platter. *)
Definition cidx (s : bio) (x : Z) : option nat :=
  fst <$> list_find (holds x) (take NBUF (bcache s)).
Definition view (s : bio) (x : Z) : list Z :=
  match cidx s x with Some i => b_data (B s i) | None => sect s x end.

Section cache.
Implicit Types (s : bio) (c : list buf) (x : Z) (i j : nat) (l : list nat).

Lemma lookup_total_alter (f : buf -> buf) c i j :
  (i < length c)%nat ->
  alter f i c !!! j = if decide (i = j) then f (c !!! j) else c !!! j.
Proof.
  intros Hi. rewrite list_lookup_total_alter.
  repeat case_decide; naive_solver.
Qed.

Lemma wp_getb i s E Q :
  (i < length (bcache s))%nat -> Q (B s i) s -> wp (getb i) E Q s.
Proof.
  intros Hi HQ. unfold wp, getb, B in *.
  by rewrite (list_lookup_lookup_total_lt _ _ Hi).
Qed.
Lemma wp_updb i f s E Q :
  Q tt (mkBio (alter f i (bcache s)) (dsk s) (woken s)) -> wp (updb i f) E Q s.
Proof. done. Qed.

Lemma cidx_Some s x i :
  bio_wf s -> cidx s x = Some i <-> (i < NBUF)%nat /\ holds x (B s i).
Proof.
  intros Hwf. unfold cidx, B.
  assert (Hlk : forall j b, take NBUF (bcache s) !! j = Some b <->
                (j < NBUF)%nat /\ b = bcache s !!! j).
  { intros j b. rewrite lookup_take_Some. pose proof (wf_len _ Hwf). split.
    - intros [Hj ?]. split; [done|]. symmetry. by apply list_lookup_total_correct.
    - intros [? ->]. split; [|done]. apply list_lookup_lookup_total_lt. lia. }
  rewrite fmap_Some. split.
  - intros ([j b] & Hf & ->). apply list_find_Some in Hf as (Hl & Hh & _).
    apply Hlk in Hl as [? ->]. done.
  - intros [Hi Hh].
    destruct (list_find (holds x) (take NBUF (bcache s))) as [[j b]|] eqn:Hf.
    + apply list_find_Some in Hf as (Hl & Hh' & _). apply Hlk in Hl as [? ->].
      exists (j, bcache s !!! j). split; [done|]. by eapply wf_uniq.
    + apply list_find_None in Hf. rewrite Forall_lookup in Hf.
      destruct (Hf i (bcache s !!! i)); [|done]. by apply Hlk.
Qed.

Lemma cidx_None s x :
  bio_wf s -> cidx s x = None <-> forall i, (i < NBUF)%nat -> ~ holds x (B s i).
Proof.
  intros Hwf. split.
  - intros Hn i Hi Hh. assert (cidx s x = Some i) by (by apply cidx_Some). congruence.
  - intros Hn. destruct (cidx s x) as [i|] eqn:Hc; [|done].
    apply cidx_Some in Hc as [? ?]; [|done]. naive_solver.
Qed.

Lemma view_cached s x i :
  bio_wf s -> (i < NBUF)%nat -> holds x (B s i) -> view s x = b_data (B s i).
Proof. intros. unfold view. by rewrite (proj2 (cidx_Some s x i ltac:(done))). Qed.
Lemma view_uncached s x :
  bio_wf s -> (forall i, (i < NBUF)%nat -> ~ holds x (B s i)) -> view s x = sect s x.
Proof. intros. unfold view. by rewrite (proj2 (cidx_None s x ltac:(done))). Qed.

Lemma sector_of_nonneg img x : 0 <= x -> sector_of img x = img !!! Z.to_nat x.
Proof. intros. unfold sector_of. by rewrite (proj2 (Z.leb_le 0 x)). Qed.
Lemma sector_of_insert img x y d :
  0 <= x < Z.of_nat (length img) ->
  sector_of (<[Z.to_nat x := d]> img) y = if decide (y = x) then d else sector_of img y.
Proof.
  intros Hx. unfold sector_of. case_decide as Hy.
  - subst. rewrite (proj2 (Z.leb_le 0 x)) by lia. apply list_lookup_total_insert_eq. lia.
  - destruct (Z.leb_spec 0 y); [|done]. apply list_lookup_total_insert_ne. lia.
Qed.
Lemma sect_block s x : bio_wf s -> 0 <= x < nsect s -> is_block (sect s x).
Proof.
  intros Hwf Hx. unfold nsect, sect in *. rewrite sector_of_nonneg by lia.
  eapply (proj1 (Forall_lookup _ _) (wf_disk _ Hwf) (Z.to_nat x)).
  apply list_lookup_lookup_total_lt. lia.
Qed.
Lemma view_block s x : bio_wf s -> 0 <= x < nsect s -> is_block (view s x).
Proof.
  intros Hwf Hx. unfold view. destruct (cidx s x) as [i|] eqn:Hc.
  - apply cidx_Some in Hc as [? [? ?]]; [|done]. by apply wf_block.
  - by apply sect_block.
Qed.

(** A state whose cache entries differ from [s] only in the links has the
    same view. *)
Definition core (b : buf) := (b_flags b, b_dev b, b_sector b, b_data b).

Lemma view_ext s s' x :
  bio_wf s -> bio_wf s' -> dsk s = dsk s' ->
  (forall i, (i < NBUF)%nat -> core (B s i) = core (B s' i)) -> view s x = view s' x.
Proof.
  intros Hwf Hwf' Hd Hc.
  destruct (cidx s x) as [i|] eqn:Hi.
  - apply cidx_Some in Hi as [? Hh]; [|done].
    rewrite (view_cached s x i) by done. specialize (Hc i ltac:(done)).
    unfold core, holds in *. injection Hc as ????.
    rewrite (view_cached s' x i); [congruence|done..|]. split; naive_solver congruence.
  - rewrite cidx_None in Hi by done. rewrite (view_uncached s) by done.
    rewrite (view_uncached s'); [unfold sect; by rewrite Hd|done|].
    intros i Hi' Hh. apply (Hi i Hi'). specialize (Hc i Hi'). unfold core, holds in *.
    injection Hc as ????. split; naive_solver congruence.
Qed.
(** [s'] is [s] with entry [i] (not its links) changed to [k]. *)
Definition upd_core s s' i k : Prop :=
  length (bcache s') = length (bcache s) /\
  (forall j, core (B s' j) = if decide (i = j) then k else core (B s j)) /\
  (forall j, nxt (bcache s') j = nxt (bcache s) j) /\
  (forall j, prv (bcache s') j = prv (bcache s) j).

Lemma upd_core_trans s1 s2 s3 i k1 k2 :
  upd_core s1 s2 i k1 -> upd_core s2 s3 i k2 -> upd_core s1 s3 i k2.
Proof.
  intros (?&Hc1&Hn1&Hp1) (?&Hc2&Hn2&Hp2). split_and!; intros; [congruence|..].
  - rewrite Hc2, Hc1. by case_decide.
  - by rewrite Hn2, Hn1.
  - by rewrite Hp2, Hp1.
Qed.

(** One field assignment that leaves the links alone. *)
Lemma upd_core_alter s i f d w k :
  (i < length (bcache s))%nat ->
  (forall b, b_next (f b) = b_next b /\ b_prev (f b) = b_prev b) ->
  core (f (B s i)) = k -> upd_core s (mkBio (alter f i (bcache s)) d w) i k.
Proof.
  intros Hi Hf <-. unfold upd_core, nxt, prv, B. simpl. split_and!; [apply length_alter|..];
    intros j; rewrite lookup_total_alter by done; case_decide; subst; try done; apply Hf.
Qed.

Lemma upd_core_same s s' i k :
  upd_core s s' i k -> core (B s' i) = k.
Proof. intros (_&Hc&_). rewrite Hc. by rewrite decide_True. Qed.
Lemma upd_core_other s s' i k j :
  upd_core s s' i k -> i <> j -> core (B s' j) = core (B s j).
Proof. intros (_&Hc&_) ?. rewrite Hc. by rewrite decide_False. Qed.

(** The invariant after entry [i] became a valid copy of sector [x]; the
    platter may have changed at sector [x] only. *)
Lemma wf_upd s s' i fl x d :
  bio_wf s -> (i < NBUF)%nat -> upd_core s s' i (fl, 1, x, d) ->
  nsect s' = nsect s -> Forall is_block (d_now (dsk s')) ->
  (forall y, y <> x -> sect s' y = sect s y) ->
  0 <= x < nsect s -> has fl B_VALID = true -> is_block d ->
  (forall j, (j < NBUF)%nat -> j <> i -> ~ holds x (B s j)) ->
  (has fl B_BUSY = false -> has fl B_DIRTY = false -> d = sect s' x) ->
  bio_wf s'.
Proof.
  intros Hwf Hi Hu Hns Hblk Hsect Hx Hv Hd Huniq Hclean.
  pose proof (upd_core_same _ _ _ _ Hu) as Hsame. unfold core in Hsame.
  injection Hsame as Hfl Hdv Hsc Hdt.
  assert (Hoth : forall j, j <> i -> core (B s' j) = core (B s j)).
  { intros j Hj. by eapply upd_core_other. }
  assert (Hh : forall j y, j <> i -> holds y (B s' j) <-> holds y (B s j)).
  { intros j y Hj. specialize (Hoth j Hj). unfold core in Hoth. unfold holds.
    injection Hoth as ????. split; intros [? ?]; split; congruence. }
  assert (Hf : forall j, j <> i -> b_flags (B s' j) = b_flags (B s j) /\
                 b_data (B s' j) = b_data (B s j) /\ b_dev (B s' j) = b_dev (B s j)).
  { intros j Hj. specialize (Hoth j Hj). by injection Hoth. }
  destruct Hu as (Hlen&_&Hn&Hp).
  split.
  - rewrite Hlen. apply Hwf.
  - destruct (wf_lru _ Hwf) as (l&[Hl1 Hl2]&Hl). exists l. split; [|done].
    split; (eapply path_ext; [|done]); intros; by rewrite ?Hn, ?Hp.
  - intros j k y Hj Hk Hhj Hhk.
    destruct (decide (j = i)) as [->|Hji], (decide (k = i)) as [->|Hki]; try done.
    + destruct (Huniq k Hk Hki). apply Hh; [done|]. destruct Hhj as [_ <-]. congruence.
    + destruct (Huniq j Hj Hji). apply Hh; [done|]. destruct Hhk as [_ <-]. congruence.
    + apply Hh in Hhj, Hhk; [|done..]. by eapply wf_uniq.
  - intros j Hj Hdj. destruct (decide (j = i)) as [->|Hji]; [congruence|].
    destruct (Hf j Hji) as (->&_&Hd'). apply wf_free; [done..|congruence].
  - intros j y Hj Hhj. rewrite Hns. destruct (decide (j = i)) as [->|Hji].
    + destruct Hhj as [_ <-]. congruence.
    + apply Hh in Hhj; [|done]. by eapply wf_range.
  - intros j Hj Hdj. unfold valid. destruct (decide (j = i)) as [->|Hji]; [congruence|].
    destruct (Hf j Hji) as (->&_&Hd'). apply (wf_valid _ Hwf); [done|congruence].
  - intros j Hj Hdj. destruct (decide (j = i)) as [->|Hji]; [congruence|].
    destruct (Hf j Hji) as (_&->&Hd'). apply wf_block; [done..|congruence].
  - intros j y Hj Hhj Hbj Hdj. unfold busy, dirty in *.
    destruct (decide (j = i)) as [->|Hji].
    + rewrite Hfl in *. destruct Hhj as [_ <-]. rewrite Hdt, Hsc. auto.
    + destruct (Hf j Hji) as (Hfj&->&_). rewrite Hfj in *. apply Hh in Hhj; [|done].
      rewrite Hsect; [by apply wf_clean|]. intros ->. by destruct (Huniq j Hj Hji).
  - done.
Qed.

Lemma view_upd s s' i fl x d :
  bio_wf s -> bio_wf s' -> (i < NBUF)%nat -> upd_core s s' i (fl, 1, x, d) ->
  (forall y, y <> x -> sect s' y = sect s y) ->
  (forall y, holds y (B s i) -> y = x \/ b_data (B s i) = sect s y) ->
  forall y, view s' y = if decide (y = x) then d else view s y.
Proof.
  intros Hwf Hwf' Hi Hu Hsect Hold y.
  pose proof (upd_core_same _ _ _ _ Hu) as Hsame. injection Hsame as Hfl Hdv Hsc Hdt.
  case_decide as Hy.
  { subst y. rewrite (view_cached s' x i); [done..|]. by split. }
  assert (Hoth : forall j, j <> i -> core (B s' j) = core (B s j)).
  { intros j Hj. by eapply upd_core_other. }
  destruct (cidx s' y) as [j|] eqn:Hj.
  - apply cidx_Some in Hj as [Hjn Hh]; [|done].
    assert (j <> i) as Hji by (intros ->; destruct Hh; congruence).
    rewrite (view_cached s' y j) by done. specialize (Hoth j Hji). injection Hoth as ????.
    rewrite (view_cached s y j); [done..|]. destruct Hh. split; congruence.
  - rewrite cidx_None in Hj by done. rewrite (view_uncached s' y) by done.
    rewrite Hsect by done. destruct (cidx s y) as [k|] eqn:Hk.
    + apply cidx_Some in Hk as [Hkn Hh]; [|done].
      destruct (decide (k = i)) as [->|Hki].
      * rewrite (view_cached s y i) by done. destruct (Hold y Hh); congruence.
      * destruct (Hj k Hkn). specialize (Hoth k Hki). injection Hoth as ????.
        destruct Hh. split; congruence.
    + unfold view. by rewrite Hk.
Qed.
End cache.

(** ** bget and bread *)

Section ops.
Implicit Types (s : bio) (x : Z) (i j : nat) (l : list nat).

Lemma wp_cached_loop s x l a fuel E Q :
  length (bcache s) = S NBUF -> path (nxt (bcache s)) a (l ++ [head]) ->
  Forall (fun i => i < NBUF)%nat l -> (length l < fuel)%nat ->
  ((forall i, i ∈ l -> ~ holds x (B s i)) -> Q None s) ->
  (forall i, i ∈ l -> holds x (B s i) ->
     if busy (B s i) then E (Sleep (ChBuf i)) else
     Q (Some i) (mkBio (alter (set_flags (fset B_BUSY (b_flags (B s i)))) i (bcache s))
                       (dsk s) (woken s))) ->
  wp (while fuel (bget_cached 1 x) (nxt (bcache s) a)) E Q s.
Proof.
  intros Hlen. revert a fuel. induction l as [|i l IH]; intros a fuel Hp Hl Hfuel Hno Hyes.
  - destruct fuel as [|fuel]; [simpl in *; lia|]. destruct Hp as [-> _]. simpl.
    unfold bget_cached at 1. rewrite Nat.eqb_refl. apply wp_bind, wp_ret, wp_ret.
    apply Hno. set_solver.
  - destruct fuel as [|fuel]; [simpl in *; lia|]. destruct Hp as [-> Hp]. simpl.
    apply Forall_cons in Hl as [Hi Hl]. unfold bget_cached at 1.
    rewrite (proj2 (Nat.eqb_neq i head)) by (unfold head; lia).
    apply wp_bind, wp_bind, wp_getb; [lia|]. specialize (Hyes i) as Hyi.
    destruct (Z.eqb_spec (b_dev (B s i)) 1), (Z.eqb_spec (b_sector (B s i)) x); cbn [andb].
    { specialize (Hyi ltac:(set_solver) ltac:(by split)). unfold busy in Hyi.
      destruct (has _ _) eqn:Hb; cbn [negb]; [by apply wp_fail|].
      apply wp_bind, wp_updb, wp_ret, wp_ret, Hyi. }
    all: apply wp_ret; apply IH; [done|done|simpl in *; lia| |].
    all: try (intros j Hj; apply Hyes; set_solver).
    all: intros Hn; apply Hno; intros j [->|Hj]%elem_of_cons; [intros [? ?]; done|auto].
Qed.

Lemma has_land f m : (Z.land f m =? 0) = negb (has f m).
Proof. unfold has. by rewrite negb_involutive. Qed.

Lemma wp_recycle_loop s x l a fuel E Q :
  length (bcache s) = S NBUF -> path (prv (bcache s)) a (l ++ [head]) ->
  Forall (fun i => i < NBUF)%nat l -> (length l < fuel)%nat ->
  ((forall i, i ∈ l -> busy (B s i) = true \/ dirty (B s i) = true) ->
     E (Panic "bget: no buffers")) ->
  (forall i s', i ∈ l -> busy (B s i) = false -> dirty (B s i) = false ->
     upd_core s s' i (B_BUSY, 1, x, b_data (B s i)) -> dsk s' = dsk s -> Q i s') ->
  wp (while fuel (bget_recycle 1 x) (prv (bcache s) a)) E Q s.
Proof.
  intros Hlen. revert a fuel. induction l as [|i l IH]; intros a fuel Hp Hl Hfuel Hno Hyes.
  - destruct fuel as [|fuel]; [simpl in *; lia|]. destruct Hp as [-> _]. simpl.
    unfold bget_recycle at 1. rewrite Nat.eqb_refl. apply wp_bind, wp_fail, Hno. set_solver.
  - destruct fuel as [|fuel]; [simpl in *; lia|]. destruct Hp as [-> Hp]. simpl.
    apply Forall_cons in Hl as [Hi Hl]. unfold bget_recycle at 1.
    rewrite (proj2 (Nat.eqb_neq i head)) by (unfold head; lia).
    apply wp_bind, wp_bind, wp_getb; [lia|]. rewrite !has_land.
    fold (busy (B s i)) (dirty (B s i)).
    destruct (busy (B s i)) eqn:Hb, (dirty (B s i)) eqn:Hd; cbn [negb andb].
    4: { do 3 apply wp_bind, wp_updb. apply wp_ret, wp_ret.
         apply Hyes; [set_solver|done..| |done].
         simpl. rewrite !list_alter_alter_eq.
         eapply (upd_core_alter s i (set_flags B_BUSY ∘ (set_sector x ∘ set_dev 1)));
           [lia|done|done]. }
    all: apply wp_ret; apply IH; [done|done|simpl in *; lia| |].
    all: try (intros j s' Hj; apply Hyes; set_solver).
    all: intros Hn'; apply Hno; intros j [->|Hj]%elem_of_cons; auto.
Qed.

(** A buffer that can be recycled. *)
Definition free_buf s : Prop :=
  exists i, (i < NBUF)%nat /\ busy (B s i) = false /\ dirty (B s i) = false.

Lemma lru_bound l : l ≡ₚ seq 0 NBUF -> Forall (fun i => i < NBUF)%nat l /\ length l = NBUF.
Proof.
  intros Hl. split; [|by rewrite Hl, length_seq].
  apply Forall_forall. intros i Hi. rewrite Hl in Hi. apply elem_of_seq in Hi. lia.
Qed.

Lemma bget_spec s x (E : err -> Prop) :
  bio_wf s -> 
  (forall i, (i < NBUF)%nat -> holds x (B s i) -> busy (B s i) = true -> E (Sleep (ChBuf i))) ->
  ((forall i, (i < NBUF)%nat -> ~ holds x (B s i)) -> free_buf s \/ E (Panic "bget: no buffers")) ->
  wp (bget 1 x) E (fun i s' => (i < NBUF)%nat /\ dsk s' = dsk s /\ busy (B s i) = false /\
    ((holds x (B s i) /\
      upd_core s s' i (fset B_BUSY (b_flags (B s i)), 1, x, b_data (B s i))) \/
     ((forall j, (j < NBUF)%nat -> ~ holds x (B s j)) /\ dirty (B s i) = false /\
      upd_core s s' i (B_BUSY, 1, x, b_data (B s i))))) s.
Proof.
  intros Hwf Hsl Hpan. destruct (wf_lru _ Hwf) as (l&[Hn Hp]&Hl).
  pose proof (wf_len _ Hwf) as Hlen. pose proof (lru_bound _ Hl) as [Hlb Hll].
  assert (Hin : forall i, i ∈ l <-> (i < NBUF)%nat).
  { intros i. rewrite Hl, elem_of_seq. lia. }
  unfold bget. apply wp_bind, wp_getb; [unfold head; lia|]. apply wp_bind.
  eapply wp_cached_loop; [done|exact Hn|done|lia| |].
  - intros Hno. apply wp_bind, wp_getb; [unfold head; lia|].
    eapply wp_recycle_loop; [done|exact Hp|by apply Forall_rev|rewrite length_rev; lia| |].
    + intros Hall. destruct Hpan as [(i&?&?&?)|]; [|..|done].
      * intros i Hi. apply Hno. by apply Hin.
      * destruct (Hall i); [|congruence..]. rewrite elem_of_rev. by apply Hin.
    + intros i s' Hi ????. rewrite elem_of_rev, Hin in Hi. split_and!; [done..|].
      right. split_and!; [|done..]. intros j Hj. apply Hno. by apply Hin.
  - intros i Hi Hh. rewrite Hin in Hi. destruct (busy (B s i)) eqn:Hb; [by eauto|].
    apply wp_ret. split_and!; [done..|]. left. split; [done|]. destruct Hh as [Hd Hs].
    apply upd_core_alter; [lia|done|]. unfold core. simpl. congruence.
Qed.

Lemma iderw_spec s i x E :
  (i < length (bcache s))%nat -> holds x (B s i) -> 0 <= x < nsect s ->
  busy (B s i) = true -> valid (B s i) && negb (dirty (B s i)) = false ->
  wp (iderw i) E (fun _ s' =>
    let f := b_flags (B s i) in
    if dirty (B s i) then
      upd_core s s' i (fset B_VALID (fclr B_DIRTY f), 1, x, b_data (B s i)) /\
      dsk s' = mkDisk (<[Z.to_nat x := b_data (B s i)]> (d_now (dsk s)))
                      (d_now (dsk s) :: d_past (dsk s))
    else upd_core s s' i (fset B_VALID f, 1, x, sect s x) /\ dsk s' = dsk s) s.
Proof.
  intros Hi [Hdev Hsec] Hx Hb Hv. unfold iderw. apply wp_bind, wp_getb; [done|].
  fold (busy (B s i)). rewrite Hb, valid_clean_test. cbn [negb].
  fold (valid (B s i)) (dirty (B s i)). rewrite Hv, Hdev. cbn [negb Z.eqb Pos.eqb].
  apply wp_bind, wp_gets. fold (nsect s). rewrite (proj2 (Z.leb_gt _ _)) by lia.
  destruct (dirty (B s i)) eqn:Hd.
  - apply wp_bind, wp_bind, wp_updb, wp_modify. simpl.
    apply wp_bind, wp_getb; [simpl; by rewrite length_alter|]. apply wp_updb. simpl.
    split; [|by rewrite Hsec].
    rewrite list_alter_alter_eq. unfold B at 1. simpl.
    rewrite lookup_total_alter, decide_True by done. simpl.
    apply upd_core_alter; [done..|]. unfold core, B in *. simpl. congruence.
  - apply wp_bind, wp_bind, wp_gets, wp_updb.
    apply wp_bind, wp_getb; [simpl; by rewrite length_alter|]. apply wp_updb. simpl.
    split; [|done]. rewrite list_alter_alter_eq. unfold B at 1. simpl.
    rewrite lookup_total_alter, decide_True by done. simpl. rewrite Hsec.
    apply upd_core_alter; [done..|]. unfold core, B, sect in *. simpl.
    rewrite sector_of_nonneg by lia. congruence.
Qed.

(** [bread] returns a busy, valid buffer holding the logical contents of the
    sector; the contents of all sectors, the platter and the other buffers
    are as before. *)
Record bread_post s x i s' : Prop := {
  br_wf : bio_wf s';
  br_lt : (i < NBUF)%nat;
  br_holds : holds x (B s' i);
  br_busy : busy (B s' i) = true;
  br_data : b_data (B s' i) = view s x;
  br_view : forall y, view s' y = view s y;
  br_dsk : dsk s' = dsk s;
  br_other : forall j, j <> i -> core (B s' j) = core (B s j);
  br_was_free : busy (B s i) = false;
  br_dirty : dirty (B s' i) = dirty (B s i);
  br_dirty_holds : dirty (B s i) = true -> holds x (B s i) }.

Lemma bread_spec s x (E : err -> Prop) :
  bio_wf s -> 0 <= x < nsect s ->
  (forall i, (i < NBUF)%nat -> holds x (B s i) -> busy (B s i) = true -> E (Sleep (ChBuf i))) ->
  ((forall i, (i < NBUF)%nat -> ~ holds x (B s i)) -> free_buf s \/ E (Panic "bget: no buffers")) ->
  wp (bread 1 x) E (bread_post s x) s.
Proof.
  intros Hwf Hx Hsl Hpan. unfold bread. eapply wp_seq; [by apply bget_spec|].
  intros i s1 (Hi&Hd&Hb&Hcase). pose proof (wf_len _ Hwf) as Hlen.
  assert (Hlen1 : length (bcache s1) = S NBUF).
  { destruct Hcase as [(_&Hu&_)|(_&_&Hu&_)]; congruence. }
  assert (Hsect : forall s' y, dsk s' = dsk s -> sect s' y = sect s y)
    by (intros ?? He; unfold sect; by rewrite He).
  assert (Hns : forall s', dsk s' = dsk s -> nsect s' = nsect s)
    by (intros ? He; unfold nsect; by rewrite He).
  apply wp_bind, wp_getb; [lia|].
  destruct Hcase as [(Hh&Hu)|(Hno&Hdi&Hu)];
    pose proof (upd_core_same _ _ _ _ Hu) as Hc; injection Hc as Hf Hdv Hsc Hdt.
  - pose proof (wf_valid _ Hwf i Hi (proj1 Hh)) as Hv. unfold valid in Hv.
    rewrite Hf. rewrite has_fset_flag, Hv by flagbit. simpl. apply wp_bind, wp_ret, wp_ret.
    assert (Hwf1 : bio_wf s1).
    { eapply wf_upd; eauto using wf_disk, wf_block with lia.
      - rewrite Hd. apply Hwf.
      - rewrite has_fset_flag by flagbit. simpl. exact Hv.
      - apply wf_block; [done..|]. apply Hh.
      - intros j Hj Hji Hhj. destruct Hji. by eapply wf_uniq.
      - rewrite has_fset_flag by flagbit. done. }
    split; try done.
    + unfold busy. by rewrite Hf, has_fset_flag by flagbit.
    + rewrite Hdt. symmetry. by apply view_cached.
    + intros y. rewrite (view_upd s s1 i _ x _ Hwf Hwf1 Hi Hu) by
        (intros; try (left; destruct Hh, H; congruence); by rewrite ?Hsect).
      case_decide; [subst; symmetry; by apply view_cached|done].
    + intros j Hj. by eapply upd_core_other.
    + unfold dirty. by rewrite Hf, has_fset_flag by flagbit.
  - rewrite Hf. change (has B_BUSY B_VALID) with false. simpl. apply wp_bind.
    eapply wp_post; [eapply (iderw_spec s1 i x); [lia|by split|by rewrite Hns|..]|].
    { unfold busy. by rewrite Hf. } { unfold valid. by rewrite Hf. }
    cbv zeta. unfold dirty at 1. rewrite Hf. change (has B_BUSY B_DIRTY) with false.
    intros [] s2 [Hu2 Hd2]. apply wp_ret.
    rewrite Hsect in Hu2 by done.
    assert (Hu' := upd_core_trans _ _ _ _ _ _ Hu Hu2).
    assert (Hd' : dsk s2 = dsk s) by congruence.
    assert (Hwf2 : bio_wf s2).
    { apply (wf_upd s s2 i _ x _ Hwf Hi Hu'); auto using sect_block.
      - rewrite Hd'. apply Hwf.
      - intros _ _. symmetry. by apply Hsect. }
    pose proof (upd_core_same _ _ _ _ Hu') as Hc; injection Hc as Hf2 Hdv2 Hsc2 Hdt2.
    split; try done.
    + unfold busy. by rewrite Hf2.
    + rewrite Hdt2. symmetry. by apply view_uncached.
    + intros y. rewrite (view_upd s s2 i _ x _ Hwf Hwf2 Hi Hu').
      * case_decide; [subst; symmetry; by apply view_uncached|done].
      * intros. by rewrite Hsect.
      * intros z Hz. right. by apply wf_clean.
    + intros j Hj. by eapply upd_core_other.
    + rewrite Hdi. unfold dirty. by rewrite Hf2.
    + congruence.
Qed.

(** [bwrite] stores the buffer on the platter (one sector write) and leaves
    it clean; no logical contents change. *)
Record bwrite_post s x i s' : Prop := {
  bw_wf : bio_wf s';
  bw_holds : holds x (B s' i);
  bw_busy : busy (B s' i) = true;
  bw_dirty : dirty (B s' i) = false;
  bw_data : b_data (B s' i) = b_data (B s i);
  bw_view : forall y, view s' y = view s y;
  bw_dsk : dsk s' = mkDisk (<[Z.to_nat x := b_data (B s i)]> (d_now (dsk s)))
                           (d_now (dsk s) :: d_past (dsk s));
  bw_other : forall j, j <> i -> core (B s' j) = core (B s j) }.

Lemma bwrite_spec s x i E :
  bio_wf s -> (i < NBUF)%nat -> holds x (B s i) -> busy (B s i) = true ->
  wp (bwrite i) E (fun _ => bwrite_post s x i) s.
Proof.
  intros Hwf Hi Hh Hb. pose proof (wf_len _ Hwf) as Hlen.
  unfold bwrite. apply wp_bind, wp_getb; [lia|]. rewrite has_land. fold (busy (B s i)).
  rewrite Hb. simpl. apply wp_bind, wp_updb.
  set (s1 := mkBio _ _ _).
  assert (Hu1 : upd_core s s1 i (fset B_DIRTY (b_flags (B s i)), 1, x, b_data (B s i))).
  { apply upd_core_alter; [lia|done|]. destruct Hh. unfold core. simpl. congruence. }
  pose proof (upd_core_same _ _ _ _ Hu1) as Hc; injection Hc as Hf1 Hdv1 Hsc1 Hdt1.
  assert (Hx := wf_range _ Hwf i x Hi Hh).
  eapply wp_post; [eapply (iderw_spec s1 i x); [|by split|done|..]|].
  { simpl. rewrite length_alter. lia. }
  { unfold busy. rewrite Hf1, has_fset_flag by flagbit. done. }
  { unfold valid, dirty. rewrite Hf1, !has_fset_flag by flagbit. simpl. apply andb_false_r. }
  cbv zeta. unfold dirty at 1. rewrite Hf1, has_fset_flag by flagbit. simpl.
  intros [] s2 [Hu2 Hd2]. rewrite Hdt1 in Hu2, Hd2.
  assert (Hu := upd_core_trans _ _ _ _ _ _ Hu1 Hu2).
  pose proof (upd_core_same _ _ _ _ Hu) as Hc; injection Hc as Hf2 Hdv2 Hsc2 Hdt2.
  assert (Hs2 : forall y, sect s2 y = if decide (y = x) then b_data (B s i) else sect s y).
  { intros y. unfold sect. rewrite Hd2. simpl. by apply sector_of_insert. }
  assert (Hblk : is_block (b_data (B s i))) by (apply wf_block; [done..|apply Hh]).
  assert (Hwf2 : bio_wf s2).
  { apply (wf_upd s s2 i _ x _ Hwf Hi Hu); try done.
    - unfold nsect. rewrite Hd2. simpl. by rewrite length_insert.
    - rewrite Hd2. simpl. apply Forall_insert; [apply Hwf|done].
    - intros. rewrite Hs2. by rewrite decide_False.
    - rewrite has_fset_flag by flagbit. done.
    - intros j Hj Hji Hhj. destruct Hji. by eapply wf_uniq.
    - intros _ _. rewrite Hs2. by rewrite decide_True. }
  split; try done.
  - unfold busy. rewrite Hf2. flags. exact Hb.
  - unfold dirty. rewrite Hf2. flags. done.
  - intros y. rewrite (view_upd s s2 i _ x _ Hwf Hwf2 Hi Hu).
    + case_decide; [subst; symmetry; by apply view_cached|done].
    + intros. rewrite Hs2. by rewrite decide_False.
    + intros z [_ Hz]. left. destruct Hh. congruence.
  - intros j Hj. by eapply upd_core_other.
Qed.

(** *** brelse: the list surgery *)

Lemma nxt_set_next c i v j : (i < length c)%nat ->
  nxt (alter (set_next v) i c) j = (<[i := v]> (nxt c)) j.
Proof.
  intros. unfold nxt. rewrite lookup_total_alter by done.
  case_decide; subst; [by rewrite fn_lookup_insert|by rewrite fn_lookup_insert_ne].
Qed.
Lemma prv_set_prev c i v j : (i < length c)%nat ->
  prv (alter (set_prev v) i c) j = (<[i := v]> (prv c)) j.
Proof.
  intros. unfold prv. rewrite lookup_total_alter by done.
  case_decide; subst; [by rewrite fn_lookup_insert|by rewrite fn_lookup_insert_ne].
Qed.
Lemma nxt_alter c i f j : (i < length c)%nat ->
  (forall b, b_next (f b) = b_next b) -> nxt (alter f i c) j = nxt c j.
Proof. intros ? Hf. unfold nxt. rewrite lookup_total_alter by done. by case_decide. Qed.
Lemma prv_alter c i f j : (i < length c)%nat ->
  (forall b, b_prev (f b) = b_prev b) -> prv (alter f i c) j = prv c j.
Proof. intros ? Hf. unfold prv. rewrite lookup_total_alter by done. by case_decide. Qed.
Lemma core_alter (c : list buf) i f j : (i < length c)%nat ->
  (forall b, core (f b) = core b) -> core (alter f i c !!! j) = core (c !!! j).
Proof. intros ? Hf. rewrite lookup_total_alter by done. by case_decide. Qed.

(** The links of the list [l1 ++ i :: l2] around [i]. *)
Lemma dll_around c l1 i l2 :
  dll c (l1 ++ i :: l2) -> NoDup (head :: l1 ++ i :: l2) ->
  nxt c i = List.hd head l2 /\ prv c i = List.last l1 head.
Proof.
  intros [Hn Hp] Hnd. split.
  - rewrite <- app_assoc in Hn. apply path_app in Hn as [_ Hn].
    destruct l2; simpl in *; tauto.
  - rewrite rev_app_distr in Hp. simpl in Hp. rewrite <- !app_assoc in Hp. simpl in Hp.
    apply path_app in Hp as [_ Hp]. rewrite <- (rev_involutive l1), last_rev_hd.
    destruct (rev l1); simpl in *; tauto.
Qed.

(** The assignments of brelse to [next] and [prev]: take [i] out of the
    list, then put it at its head. *)
Definition unlink (i : nat) (c : list buf) : list buf :=
  let c1 := alter (set_prev (prv c i)) (nxt c i) c in
  alter (set_next (nxt c1 i)) (prv c1 i) c1.
Definition push (i : nat) (c : list buf) : list buf :=
  let c3 := alter (set_next (nxt c head)) i c in
  let c4 := alter (set_prev head) i c3 in
  let c5 := alter (set_prev i) (nxt c4 head) c4 in
  alter (set_next i) head c5.

Lemma fn_insert_ext (f g : nat -> nat) i v j :
  (forall k : nat, f k = g k) -> (<[i := v]> f) j = (<[i := v]> g) j.
Proof.
  intros He. destruct (decide (i = j)) as [->|]; [by rewrite !fn_lookup_insert|].
  by rewrite !fn_lookup_insert_ne.
Qed.
Lemma path_eq f g a l : (forall k : nat, f k = g k) -> path f a l -> path g a l.
Proof. intros He. revert a. induction l as [|b l IH]; intros a; simpl; [done|]. rewrite He. naive_solver. Qed.

Definition same_core (c c' : list buf) : Prop :=
  length c' = length c /\ forall j, core (c' !!! j) = core (c !!! j).

Lemma NoDup_remove l1 i l2 :
  NoDup (head :: l1 ++ i :: l2) ->
  i <> head /\ (i ∉ l1 ++ l2) /\ (head ∉ l1 ++ l2) /\ NoDup (l1 ++ l2).
Proof.
  rewrite <- Permutation_middle, !NoDup_cons. set_solver.
Qed.
Lemma NoDup_cons_rev (a : nat) l : NoDup (a :: l) -> NoDup (a :: rev l).
Proof. rewrite !NoDup_cons, elem_of_rev. by rewrite <- Permutation_rev. Qed.

Lemma unlink_dll c l1 i l2 :
  dll c (l1 ++ i :: l2) -> NoDup (head :: l1 ++ i :: l2) ->
  Forall (fun j => j < length c)%nat (head :: l1 ++ i :: l2) ->
  dll (unlink i c) (l1 ++ l2) /\ same_core c (unlink i c).
Proof.
  intros Hdll Hnd Hb. rewrite Forall_forall in Hb.
  destruct (dll_around _ _ _ _ Hdll Hnd) as [Hni Hpi]. destruct Hdll as [Hn Hp].
  destruct (NoDup_remove _ _ _ Hnd) as (Hih&Hil&_&_).
  assert (Hq : nxt c i ∈ head :: l2) by (rewrite Hni; destruct l2; set_solver).
  assert (Hpr : prv c i ∈ head :: l1) by (rewrite Hpi; apply last_in).
  assert (Hq' : (nxt c i < length c)%nat) by (apply Hb; set_solver).
  assert (Hp' : (prv c i < length c)%nat) by (apply Hb; set_solver).
  assert (Hqi : nxt c i <> i) by (intros He; rewrite He in Hq; set_solver).
  unfold unlink. set (c1 := alter (set_prev (prv c i)) (nxt c i) c).
  assert (L1 : length c1 = length c) by apply length_alter.
  assert (N1 : forall j, nxt c1 j = nxt c j) by (intros; by apply nxt_alter).
  assert (P1 : forall j, prv c1 j = (<[nxt c i := prv c i]> (prv c)) j)
    by (intros; by apply prv_set_prev).
  rewrite N1. rewrite P1, fn_lookup_insert_ne by done. split; [split|split].
  - eapply path_eq; [intros; symmetry; rewrite nxt_set_next by lia; by apply fn_insert_ext|].
    rewrite Hpi, <- app_assoc. apply path_remove; [done|]. by rewrite <- app_assoc in Hn.
  - eapply path_eq; [intros; symmetry; rewrite prv_alter by (done || lia); apply P1|].
    rewrite rev_app_distr in Hp. simpl in Hp. rewrite <- !app_assoc in Hp. simpl in Hp.
    rewrite Hni, <- last_rev_hd, rev_app_distr, <- app_assoc. apply path_remove; [|done].
    apply NoDup_cons_rev in Hnd. rewrite rev_app_distr in Hnd. simpl in Hnd.
    by rewrite <- app_assoc in Hnd.
  - by rewrite length_alter.
  - intros j. unfold c1. rewrite !core_alter; rewrite ?length_alter; done.
Qed.

Lemma push_dll c i l :
  dll c l -> NoDup (head :: i :: l) ->
  Forall (fun j => j < length c)%nat (head :: i :: l) ->
  dll (push i c) (i :: l) /\ same_core c (push i c).
Proof.
  intros [Hn Hp] Hnd Hb. rewrite Forall_forall in Hb.
  apply NoDup_cons in Hnd as [Hhd Hnd]. apply NoDup_cons in Hnd as [Hil Hnd].
  assert (Hh : nxt c head = List.hd head l) by (destruct l; simpl in Hn; tauto).
  assert (Hi : (i < length c)%nat) by (apply Hb; set_solver).
  assert (Hhl : (nxt c head < length c)%nat)
    by (apply Hb; rewrite Hh; destruct l; set_solver).
  assert (head < length c)%nat by (apply Hb; set_solver).
  unfold push. set (h := nxt c head) in *. set (c3 := alter (set_next h) i c).
  set (c4 := alter (set_prev head) i c3).
  assert (L4 : length c4 = length c) by (unfold c4, c3; by rewrite !length_alter).
  assert (N4 : forall j, nxt c4 j = (<[i := h]> (nxt c)) j).
  { intros j. unfold c4. rewrite nxt_alter; [|unfold c3; by rewrite length_alter|done].
    by apply nxt_set_next. }
  assert (P4 : forall j, prv c4 j = (<[i := head]> (prv c)) j).
  { intros j. unfold c4. rewrite prv_set_prev by (unfold c3; by rewrite length_alter).
    apply fn_insert_ext. intros. by apply prv_alter. }
  assert (nxt c4 head = h) as -> by (rewrite N4, fn_lookup_insert_ne; [done|set_solver]).
  split; [split|split].
  - eapply path_eq; [|apply (path_insert (nxt c) head i l head); [set_solver..|done]].
    intros j. rewrite nxt_set_next by (rewrite length_alter; lia). apply fn_insert_ext.
    intros k. rewrite nxt_alter by (done || lia). by rewrite N4.
  - eapply path_eq; [|apply (path_insert_end (prv c) head i (rev l) head)].
    + intros j. rewrite prv_alter by (done || rewrite length_alter; lia).
      rewrite prv_set_prev by lia. rewrite last_rev_hd, <- Hh. by apply fn_insert_ext.
    + rewrite elem_of_cons, elem_of_rev. set_solver.
    + apply NoDup_cons_rev, NoDup_cons. set_solver.
    + done.
  - rewrite !length_alter. done.
  - intros j. unfold c4, c3. rewrite !core_alter; rewrite ?length_alter; (done || lia).
Qed.

Lemma wf_links s c w l :
  bio_wf s -> same_core (bcache s) c -> dll c l -> l ≡ₚ seq 0 NBUF ->
  bio_wf (mkBio c (dsk s) w).
Proof.
  intros Hwf [Hlen Hc] Hd Hl.
  assert (He : forall j, core (B (mkBio c (dsk s) w) j) = core (B s j)) by (intros; apply Hc).
  assert (Hfl : forall j, b_flags (c !!! j) = b_flags (B s j) /\ b_data (c !!! j) = b_data (B s j)
                 /\ b_dev (c !!! j) = b_dev (B s j)).
  { intros j. specialize (He j). unfold B in *. simpl in *. by injection He. }
  assert (Hh : forall j y, holds y (c !!! j) <-> holds y (B s j)).
  { intros j y. specialize (He j). unfold B, core, holds in *. simpl in *.
    injection He as ????. split; intros []; split; congruence. }
  split; unfold B, busy, valid, dirty in *; simpl in *.
  - rewrite Hlen. apply Hwf.
  - by exists l.
  - intros i j y ??. rewrite !Hh. by apply (wf_uniq _ Hwf).
  - intros i Hi. destruct (Hfl i) as (->&_&->). by apply (wf_free _ Hwf).
  - intros i y Hi. rewrite Hh. by apply (wf_range _ Hwf).
  - intros i Hi. destruct (Hfl i) as (->&_&->). by apply (wf_valid _ Hwf).
  - intros i Hi. destruct (Hfl i) as (_&->&->). by apply (wf_block _ Hwf).
  - intros i y Hi. rewrite Hh. destruct (Hfl i) as (->&->&_). by apply (wf_clean _ Hwf).
  - apply Hwf.
Qed.

Lemma wp_brelse s i E Q :
  length (bcache s) = S NBUF -> (i < NBUF)%nat -> busy (B s i) = true ->
  (let c := push i (unlink i (bcache s)) in
   Q tt (mkBio (alter (set_flags (fclr B_BUSY (b_flags (c !!! i)))) i c) (dsk s)
               (ChBuf i :: woken s))) ->
  wp (brelse i) E Q s.
Proof.
  intros Hlen Hi Hb HQ. unfold brelse.
  apply wp_bind, wp_getb; [lia|]. rewrite has_land. fold (busy (B s i)). rewrite Hb. simpl.
  repeat first [apply wp_bind, wp_getb; [simpl; rewrite ?length_alter; unfold head; lia|]
               |apply wp_bind, wp_updb]; simpl.
  apply wp_modify. exact HQ.
Qed.

(** [brelse] unlocks the buffer, wakes up its waiters and makes it the most
    recently used one. *)
Record brelse_post s x i s' : Prop := {
  rl_wf : bio_wf s';
  rl_core : core (B s' i) = (fclr B_BUSY (b_flags (B s i)), 1, x, b_data (B s i));
  rl_view : forall y, view s' y = view s y;
  rl_dsk : dsk s' = dsk s;
  rl_other : forall j, j <> i -> core (B s' j) = core (B s j);
  rl_woken : woken s' = ChBuf i :: woken s;
  rl_mru : forall l1 l2, dll (bcache s) (l1 ++ i :: l2) -> l1 ++ i :: l2 ≡ₚ seq 0 NBUF ->
           dll (bcache s') (i :: l1 ++ l2) }.

Lemma relinked s i l1 l2 :
  bio_wf s -> dll (bcache s) (l1 ++ i :: l2) -> l1 ++ i :: l2 ≡ₚ seq 0 NBUF ->
  let c := push i (unlink i (bcache s)) in
  dll c (i :: l1 ++ l2) /\ same_core (bcache s) c.
Proof.
  intros Hwf Hd Hl. pose proof (wf_len _ Hwf) as Hlen.
  assert (Hin : forall j, j ∈ l1 ++ i :: l2 <-> (j < NBUF)%nat)
    by (intros; rewrite Hl, elem_of_seq; lia).
  assert (Hnd : NoDup (head :: l1 ++ i :: l2)).
  { apply NoDup_cons. rewrite Hin, Hl. unfold head. split; [lia|apply NoDup_seq]. }
  assert (Hb : Forall (fun j => j < length (bcache s))%nat (head :: l1 ++ i :: l2)).
  { apply Forall_forall. intros j. rewrite elem_of_cons, Hin. unfold head. lia. }
  destruct (unlink_dll _ _ _ _ Hd Hnd Hb) as [Hd2 [Hl2 Hc2]].
  assert (Hp : head :: i :: l1 ++ l2 ≡ₚ head :: l1 ++ i :: l2) by (by rewrite Permutation_middle).
  destruct (push_dll (unlink i (bcache s)) i (l1 ++ l2)) as [Hd3 [Hl3 Hc3]].
  - done.
  - by rewrite Hp.
  - by rewrite Hl2, Hp.
  - split; [done|]. split; [congruence|]. intros j. by rewrite Hc3, Hc2.
Qed.

Lemma brelse_spec s x i E :
  bio_wf s -> (i < NBUF)%nat -> holds x (B s i) -> busy (B s i) = true ->
  (dirty (B s i) = false -> b_data (B s i) = sect s x) ->
  wp (brelse i) E (fun _ => brelse_post s x i) s.
Proof.
  intros Hwf Hi Hh Hb Hcl. pose proof (wf_len _ Hwf) as Hlen.
  apply wp_brelse; [done..|]. intros c.
  destruct (wf_lru _ Hwf) as (l&Hd&Hl).
  assert (i ∈ l) as (l1&l2&->)%list_elem_of_split by (rewrite Hl, elem_of_seq; lia).
  destruct (relinked s i l1 l2 Hwf Hd Hl) as [Hd' Hsc]. fold c in Hd', Hsc.
  assert (Hl' : i :: l1 ++ l2 ≡ₚ seq 0 NBUF) by (by rewrite Permutation_middle).
  set (s1 := mkBio c (dsk s) (ChBuf i :: woken s)).
  assert (Hwf1 : bio_wf s1) by (by eapply wf_links).
  assert (Hc1 : forall j, core (B s1 j) = core (B s j)) by (intros; apply Hsc).
  pose proof (Hc1 i) as Hci. unfold core in Hci. injection Hci as Hf1 Hdv1 Hs1 Hdt1.
  assert (Hh1 : holds x (B s1 i)) by (destruct Hh; split; congruence).
  set (s' := mkBio (alter (set_flags (fclr B_BUSY (b_flags (c !!! i)))) i c) (dsk s)
                   (ChBuf i :: woken s)).
  assert (Hu : upd_core s1 s' i (fclr B_BUSY (b_flags (B s i)), 1, x, b_data (B s i))).
  { apply upd_core_alter; [|done|].
    - pose proof (wf_len _ Hwf1) as Hl1. simpl in *. lia.
    - destruct Hh1. unfold core. simpl. fold (B s1 i). unfold B in Hf1 at 1. simpl in Hf1.
      congruence. }
  assert (Hwf' : bio_wf s').
  { apply (wf_upd s1 s' i _ x _ Hwf1 Hi Hu); try done.
    - apply Hwf.
    - by apply (wf_range _ Hwf1 i x).
    - flags. apply (wf_valid _ Hwf); [done|apply Hh].
    - apply (wf_block _ Hwf); [done|apply Hh].
    - intros j Hj Hji Hhj. destruct Hji. by eapply (wf_uniq _ Hwf1).
    - flags. intros _ Hdd. by apply Hcl. }
  split; try done.
  - by eapply upd_core_same.
  - intros y. rewrite (view_upd s1 s' i _ x _ Hwf1 Hwf' Hi Hu); [|done|].
    + case_decide; [subst; symmetry; by apply view_cached|].
      apply view_ext; try done.
    + intros z Hz. left. destruct Hz, Hh1. congruence.
  - intros j Hj. rewrite <- Hc1. by eapply upd_core_other.
  - intros k1 k2 Hdk Hlk. destruct (relinked s i k1 k2 Hwf Hdk Hlk) as [[Hn Hp] _].
    fold c in Hn, Hp. pose proof (wf_len _ Hwf1) as Hl1. simpl in Hl1.
    split; (eapply path_eq; [intros; symmetry|done]); [apply nxt_alter|apply prv_alter]; (done || lia).
Qed.

(** [binit] establishes the invariant, with an empty cache: every sector
    reads as the platter has it. *)
Lemma binit_spec img E :
  Forall is_block img ->
  wp binit E (fun _ s => bio_wf s /\ dsk s = mkDisk img [] /\
    (forall x, view s x = sect s x) /\ (forall i, (i < NBUF)%nat -> b_flags (B s i) = 0))
    (boot img).
Proof.
  intros Himg. unfold wp.
  assert (Hr : exists c, binit (boot img) = Ok tt (mkBio c (mkDisk img []) []) /\
    length c = S NBUF /\ dll c (rev (seq 0 NBUF)) /\
    Forall (fun b => b_dev b = u32 (-1) /\ b_flags b = 0) (take NBUF c)).
  { eexists. split; [vm_compute; reflexivity|]. split; [reflexivity|].
    split; [repeat split|]. repeat (constructor; [by vm_compute|]). constructor. }
  destruct Hr as (c&->&Hlen&Hd&Hf). rewrite Forall_lookup in Hf.
  assert (Hb : forall i, (i < NBUF)%nat -> b_dev (c !!! i) = u32 (-1) /\ b_flags (c !!! i) = 0).
  { intros i Hi. apply (Hf i). rewrite lookup_take_lt by done.
    apply list_lookup_lookup_total_lt. lia. }
  assert (Hno : forall i, (i < NBUF)%nat -> b_dev (c !!! i) <> 1).
  { intros i Hi. by rewrite (proj1 (Hb i Hi)). }
  assert (Hwf : bio_wf (mkBio c (mkDisk img []) [])).
  { split; unfold B, holds; simpl.
    - done.
    - exists (rev (seq 0 NBUF)). split; [done|]. symmetry. apply Permutation_rev.
    - intros i j x Hi Hj [Hi' _]. by destruct (Hno i Hi).
    - intros i Hi _. by apply Hb.
    - intros i x Hi [Hi' _]. by destruct (Hno i Hi).
    - intros i Hi Hi'. by destruct (Hno i Hi).
    - intros i Hi Hi'. by destruct (Hno i Hi).
    - intros i x Hi [Hi' _]. by destruct (Hno i Hi).
    - done. }
  split_and!; [done..| |].
  - intros x. apply view_uncached; [done|]. intros i Hi [Hi' _]. by destruct (Hno i Hi).
  - intros i Hi. by apply Hb.
Qed.
End ops.
