(* ===== verification/Log.v ===== *)
(** The write-ahead log (log.c), with [readsb] of fs.c.

    State: the buffer cache and disk of [Bio], and the variable [log].  The
    on-disk header block holds [struct logheader]: the count [n] and LOGSIZE
    sector numbers, little-endian. *)
From S2P Require Import Prelude Params Bio.

Record logheader := mkLh { lh_n : Z; lh_sector : list Z }.
Record log := mkLog {
  l_start : Z; l_size : Z; l_busy : Z; l_dev : Z; l_lh : logheader }.
Record lst := mkL { l_bio : bio; l_log : log }.

Definition liftb {A} (m : K bio A) : K lst A := fun s =>
  match m (l_bio s) with Ok a b => Ok a (mkL b (l_log s)) | Fail e => Fail e end.
Definition getl : K lst log := gets l_log.
Definition updl (f : log -> log) : K lst unit := modify (fun s => mkL (l_bio s) (f (l_log s))).

Definition set_n (n : Z) (l : log) : log :=
  mkLog (l_start l) (l_size l) (l_busy l) (l_dev l) (mkLh n (lh_sector (l_lh l))).
Definition set_sectors (a : list Z) (l : log) : log :=
  mkLog (l_start l) (l_size l) (l_busy l) (l_dev l) (mkLh (lh_n (l_lh l)) a).
Definition set_busy (b : Z) (l : log) : log :=
  mkLog (l_start l) (l_size l) b (l_dev l) (l_lh l).
Definition set_geometry (start size dev : Z) (l : log) : log :=
  mkLog start size (l_busy l) dev (l_lh l).

(** ** The super block *)
Record superblock := mkSb { sb_size : Z; sb_nblocks : Z; sb_ninodes : Z; sb_nlog : Z }.
Definition dec_sb (d : list Z) : superblock :=
  mkSb (rd 4 0 d) (rd 4 4 d) (rd 4 8 d) (rd 4 12 d).
Definition readsb (dev : Z) : K bio superblock :=
  bp <- bread dev 1;;
  d <- bdata bp;;
  brelse bp;;
  ret (dec_sb d).

(** Fields [n] and [sector[i]] of the header block. *)
Definition hdr_n (d : list Z) : Z := s32 (rd 4 0 d).
Definition hdr_sector (i : Z) (d : list Z) : Z := s32 (rd 4 (4 + 4 * i) d).
Definition sizeof_logheader : Z := 4 + 4 * LOGSIZE.

(** Number of iterations of [for(i = 0; i < n; i++)]. *)
Definition iters (n : Z) : nat := Z.to_nat n.

Definition install_trans : K lst unit :=
  l <- getl;;
  for_range (iters (lh_n (l_lh l))) 0 (fun tail =>
    lbuf <- liftb (bread (u32 (l_dev l)) (u32 (l_start l + tail + 1)));;
    sec <- aget (lh_sector (l_lh l)) tail;;
    dbuf <- liftb (bread (u32 (l_dev l)) (u32 sec));;
    d <- liftb (bdata lbuf);;
    liftb (bstore dbuf d);;
    liftb (bwrite dbuf);;
    liftb (brelse lbuf);;
    liftb (brelse dbuf)).

Definition read_head : K lst unit :=
  l <- getl;;
  b <- liftb (bread (u32 (l_dev l)) (u32 (l_start l)));;
  d <- liftb (bdata b);;
  updl (set_n (hdr_n d));;
  for_range (iters (hdr_n d)) 0 (fun i =>
    l <- getl;;
    a <- aset (lh_sector (l_lh l)) i (hdr_sector i d);;
    updl (set_sectors a));;
  liftb (brelse b).

Definition write_head : K lst unit :=
  l <- getl;;
  b <- liftb (bread (u32 (l_dev l)) (u32 (l_start l)));;
  d <- liftb (bdata b);;
  liftb (bstore b (wr 4 0 (lh_n (l_lh l)) d));;
  for_range (iters (lh_n (l_lh l))) 0 (fun i =>
    sec <- aget (lh_sector (l_lh l)) i;;
    d <- liftb (bdata b);;
    liftb (bstore b (wr 4 (4 + 4 * i) sec d)));;
  liftb (bwrite b);;
  liftb (brelse b).

Definition recover_from_log : K lst unit :=
  read_head;;
  install_trans;;
  updl (set_n 0);;
  write_head.

Definition initlog : K lst unit :=
  if BSIZE <=? sizeof_logheader then panic "initlog: too big logheader" else
  sb <- liftb (readsb ROOTDEV);;
  updl (set_geometry (s32 (u32 (sb_size sb - sb_nlog sb))) (s32 (sb_nlog sb)) ROOTDEV);;
  recover_from_log.

Definition begin_trans : K lst unit :=
  l <- getl;;
  if negb (l_busy l =? 0) then fail (Sleep ChLog) else
  updl (set_busy 1).

Definition commit_trans : K lst unit :=
  l <- getl;;
  when (0 <? lh_n (l_lh l)) (
    write_head;;
    install_trans;;
    updl (set_n 0);;
    write_head);;
  updl (set_busy 0);;
  liftb (wakeup ChLog).

(** [for(i = 0; i < n; i++) if(sector[i] == b->sector) break;] *)
Fixpoint log_index (n : nat) (a : list Z) (sec : Z) (i : Z) : Z :=
  match n with
  | O => i
  | S n => if u32 (a !!! Z.to_nat i) =? sec then i else log_index n a sec (i + 1)
  end.

Definition log_write (b : nat) : K lst unit :=
  l <- getl;;
  let n := lh_n (l_lh l) in
  if (LOGSIZE <=? n) || (l_size l - 1 <=? n) then panic "too big a transaction" else
  if l_busy l =? 0 then panic "write outside of trans" else
  x <- liftb (getb b);;
  let i := log_index (iters n) (lh_sector (l_lh l)) (b_sector x) 0 in
  a <- aset (lh_sector (l_lh l)) i (s32 (b_sector x));;
  updl (set_sectors a);;
  lbuf <- liftb (bread (b_dev x) (u32 (l_start l + i + 1)));;
  d <- liftb (bdata b);;
  liftb (bstore lbuf d);;
  liftb (bwrite lbuf);;
  liftb (brelse lbuf);;
  when (i =? n) (updl (set_n (n + 1)));;
  x <- liftb (getb b);;
  liftb (updb b (set_flags (fset B_DIRTY (b_flags x)))).

(** Boot: static storage is zero. *)
Definition log0 : log := mkLog 0 0 0 0 (mkLh 0 (replicate (Z.to_nat LOGSIZE) 0)).
