(* ===== verification/LogSpec.v ===== *)
(** Correctness of the log: what the routines of log.c do to the sectors,
    and crash safety of transactions. *)
From S2P Require Import Prelude Params Bio BioSpec Log.

(** ** More on the buffer cache *)

Section bio.
Implicit Types (s : bio) (x y : Z) (i j : nat).

(** Fields of an entry from the equality of its [core]. *)
Lemma core_fields (b b' : buf) :
  core b = core b' ->
  busy b = busy b' /\ dirty b = dirty b' /\ valid b = valid b' /\ b_flags b = b_flags b' /\
  b_dev b = b_dev b' /\ b_data b = b_data b' /\ (forall x, holds x b <-> holds x b').
Proof.
  intros H. injection H as ????. unfold busy, dirty, valid, holds.
  split_and!; try congruence. intros; split; intros []; split; congruence.
Qed.

(** Fewer than NBUF sectors account for all buffers in use: one is free. *)
Lemma pigeon_free s (U : list Z) :
  bio_wf s ->
  (forall i, (i < NBUF)%nat -> busy (B s i) = true \/ dirty (B s i) = true ->
     exists x, x ∈ U /\ holds x (B s i)) ->
  (length U < NBUF)%nat -> free_buf s.
Proof.
  intros Hwf HU Hlen.
  destruct (decide (Exists (fun i => busy (B s i) = false /\ dirty (B s i) = false)
                           (seq 0 NBUF))) as [He|Hn].
  { apply Exists_exists in He as (i&Hi&?&?). apply elem_of_seq in Hi.
    exists i. split; [lia|done]. }
  exfalso. rewrite Exists_exists in Hn.
  assert (Hall : forall i, (i < NBUF)%nat -> exists x, x ∈ U /\ holds x (B s i)).
  { intros i Hi. apply HU; [done|].
    destruct (busy (B s i)) eqn:Hb; [by left|]. destruct (dirty (B s i)) eqn:Hd; [by right|].
    destruct Hn. exists i. split; [apply elem_of_seq; lia|done]. }
  assert (Hnd : NoDup (map (fun i => b_sector (B s i)) (seq 0 NBUF))).
  { apply NoDup_fmap_2_strong; [|apply NoDup_seq].
    intros i j Hi Hj He. apply elem_of_seq in Hi, Hj.
    destruct (Hall i ltac:(lia)) as (x&_&Hx&Hx2), (Hall j ltac:(lia)) as (y&_&Hy&Hy2).
    eapply (wf_uniq _ Hwf i j x); [lia..|by split|split; congruence]. }
  assert (Hle : (NBUF <= length U)%nat).
  { rewrite <- (length_seq NBUF 0), <- (length_map (fun i => b_sector (B s i))).
    apply submseteq_length, NoDup_submseteq; [done|].
    intros z (i&->&Hi)%list_elem_of_fmap. apply elem_of_seq in Hi.
    destruct (Hall i ltac:(lia)) as (x&Hx&_&<-). done. }
  lia.
Qed.

Lemma bdata_spec s i E Q :
  bio_wf s -> (i < NBUF)%nat -> Q (b_data (B s i)) s -> wp (bdata i) E Q s.
Proof.
  intros Hwf Hi HQ. unfold bdata. apply wp_bind, wp_getb; [|by apply wp_ret].
  pose proof (wf_len _ Hwf). lia.
Qed.

Lemma bstore_spec s x i d E :
  bio_wf s -> (i < NBUF)%nat -> holds x (B s i) -> busy (B s i) = true -> is_block d ->
  wp (bstore i d) E (fun _ s' => bio_wf s' /\
    upd_core s s' i (b_flags (B s i), 1, x, d) /\ dsk s' = dsk s /\
    forall y, view s' y = if decide (y = x) then d else view s y) s.
Proof.
  intros Hwf Hi Hh Hb Hd. unfold bstore. apply wp_updb. pose proof (wf_len _ Hwf).
  set (s' := mkBio _ _ _).
  assert (Hu : upd_core s s' i (b_flags (B s i), 1, x, d)).
  { apply upd_core_alter; [lia|done|]. destruct Hh. unfold core. simpl. congruence. }
  assert (Hwf' : bio_wf s').
  { apply (wf_upd s s' i _ x _ Hwf Hi Hu); try done.
    - apply Hwf.
    - by apply (wf_range _ Hwf i x).
    - apply (wf_valid _ Hwf); [done|apply Hh].
    - intros j Hj Hji Hhj. destruct Hji. by eapply wf_uniq.
    - unfold busy in Hb. congruence. }
  split_and!; try done. apply (view_upd s s' i (b_flags (B s i))); try done.
  intros z Hz. left. destruct Hh, Hz. congruence.
Qed.

(** The buffers locked by the running kernel code are those of [H] (buffer
    index to sector), the dirty ones are the cached copies of the sectors of
    [D], which stay in the cache. *)
Record cstate s (D : gset Z) (H : gmap nat Z) : Prop := {
  cs_wf : bio_wf s;
  cs_held : forall i x, H !! i = Some x ->
    (i < NBUF)%nat /\ holds x (B s i) /\ busy (B s i) = true;
  cs_busy : forall i, (i < NBUF)%nat -> busy (B s i) = true -> is_Some (H !! i);
  cs_dirty : forall i x, (i < NBUF)%nat -> holds x (B s i) -> dirty (B s i) = true <-> x ∈ D;
  cs_pinned : forall x, x ∈ D -> exists i, (i < NBUF)%nat /\ holds x (B s i) }.

Definition used (D : gset Z) (H : gmap nat Z) : gset Z := D ∪ map_img H.

Lemma dirty_dev s i : bio_wf s -> (i < NBUF)%nat -> dirty (B s i) = true -> b_dev (B s i) = 1.
Proof.
  intros Hwf Hi Hd. destruct (decide (b_dev (B s i) = 1)); [done|].
  unfold dirty in Hd. by rewrite (wf_free _ Hwf) in Hd.
Qed.

Lemma cs_free s D H : cstate s D H -> (size (used D H) < NBUF)%nat -> free_buf s.
Proof.
  intros Hc Hsz. eapply (pigeon_free s (elements (used D H))); [apply Hc| |exact Hsz].
  intros i Hi [Hb|Hd].
  - destruct (cs_busy _ _ _ Hc i Hi Hb) as [x Hx]. exists x.
    split; [|by eapply cs_held]. apply elem_of_elements. unfold used.
    apply elem_of_union_r. by eapply elem_of_map_img_2.
  - pose proof (dirty_dev _ _ (cs_wf _ _ _ Hc) Hi Hd).
    exists (b_sector (B s i)). split; [|done]. apply elem_of_elements. unfold used.
    apply elem_of_union_l. by eapply (cs_dirty _ _ _ Hc i).
Qed.

Lemma cs_not_held s D H x i :
  cstate s D H -> x ∉ (map_img H : gset Z) -> (i < NBUF)%nat -> holds x (B s i) ->
  busy (B s i) = false.
Proof.
  intros Hc Hx Hi Hh. destruct (busy (B s i)) eqn:Hb; [|done].
  destruct (cs_busy _ _ _ Hc i Hi Hb) as [y Hy].
  destruct (cs_held _ _ _ Hc i y Hy) as (_&[_ Hh']&_). destruct Hh as [_ Hh].
  destruct Hx. apply (elem_of_map_img_2 H i). congruence.
Qed.

(** A sector that is neither dirty nor locked reads as the platter has it. *)
Lemma cs_clean s D H x :
  cstate s D H -> x ∉ used D H -> view s x = sect s x.
Proof.
  intros Hc Hx. unfold used in Hx. unfold view. destruct (cidx s x) as [i|] eqn:Hi; [|done].
  pose proof (cs_wf _ _ _ Hc) as Hwf. apply cidx_Some in Hi as [Hi Hh]; [|done].
  apply wf_clean; [done..| |].
  - eapply cs_not_held; [done| |done..]. set_solver.
  - destruct (dirty (B s i)) eqn:Hd; [|done]. rewrite (cs_dirty _ _ _ Hc) in Hd by done.
    set_solver.
Qed.

(** How an operation on the entry [i] of sector [x] changes [cstate]. *)
Lemma cs_upd s s' D H i x fl d D' H' :
  cstate s D H -> bio_wf s' -> (i < NBUF)%nat ->
  core (B s' i) = (fl, 1, x, d) -> (forall j, j <> i -> core (B s' j) = core (B s j)) ->
  (forall j, j <> i -> H' !! j = H !! j) ->
  (has fl B_BUSY = true <-> H' !! i = Some x) -> (forall y, H' !! i = Some y -> y = x) ->
  (has fl B_DIRTY = true <-> x ∈ D') -> (forall y, y <> x -> y ∈ D' <-> y ∈ D) ->
  (holds x (B s i) \/ ((forall j, (j < NBUF)%nat -> ~ holds x (B s j)) /\ dirty (B s i) = false)) ->
  cstate s' D' H'.
Proof.
  intros Hc Hwf' Hi Hci Hco HH Hb HHi Hd HD Hold. pose proof (cs_wf _ _ _ Hc) as Hwf.
  injection Hci as Hfl Hdev Hsec Hdat.
  assert (Hhi : holds x (B s' i)) by done.
  assert (Huniq : forall j, (j < NBUF)%nat -> j <> i -> ~ holds x (B s j)).
  { intros j Hj Hji Hh. destruct Hold as [Ho|[Ho _]]; [|by eapply Ho].
    apply Hji. by eapply (wf_uniq _ Hwf). }
  split.
  - done.
  - intros j y Hy. destruct (decide (j = i)) as [->|Hji].
    + assert (y = x) as -> by auto. split_and!; [done..|]. unfold busy. rewrite Hfl. by apply Hb.
    + rewrite HH in Hy by done. destruct (core_fields _ _ (Hco j Hji)) as (->&_&_&_&_&_&->).
      by eapply cs_held.
  - intros j Hj Hbj. destruct (decide (j = i)) as [->|Hji].
    + unfold busy in Hbj. rewrite Hfl in Hbj. exists x. by apply Hb.
    + rewrite HH by done. destruct (core_fields _ _ (Hco j Hji)) as (He&_).
      rewrite He in Hbj. by eapply cs_busy.
  - intros j y Hj Hh. destruct (decide (j = i)) as [->|Hji].
    + assert (y = x) as -> by (destruct Hh; congruence). unfold dirty. by rewrite Hfl.
    + destruct (core_fields _ _ (Hco j Hji)) as (_&->&_&_&_&_&Hh'). apply Hh' in Hh.
      rewrite HD; [by eapply cs_dirty|]. intros ->. by eapply Huniq.
  - intros y Hy. destruct (decide (y = x)) as [->|Hyx]; [by exists i|].
    apply HD in Hy; [|done]. destruct (cs_pinned _ _ _ Hc y Hy) as (j&Hj&Hh).
    exists j. split; [done|]. assert (j <> i) as Hji.
    { intros ->. destruct Hold as [[_ Ho]|[_ Ho]]; [destruct Hh; congruence|].
      apply (cs_dirty _ _ _ Hc i y Hi Hh) in Hy. congruence. }
    by apply (core_fields _ _ (Hco j Hji)).
Qed.

Lemma cs_bread s D H x :
  cstate s D H -> 0 <= x < nsect s -> x ∉ (map_img H : gset Z) ->
  x ∈ D \/ (size (used D H) < NBUF)%nat ->
  wp (bread 1 x) noerr (fun i s' =>
    cstate s' D (<[i := x]> H) /\ H !! i = None /\ b_data (B s' i) = view s x /\
    (forall y, view s' y = view s y) /\ dsk s' = dsk s) s.
Proof.
  intros Hc Hx Hnh Hroom. pose proof (cs_wf _ _ _ Hc) as Hwf.
  eapply wp_post; [apply bread_spec; [done..| |]|].
  - intros i Hi Hh Hb. by rewrite (cs_not_held _ _ _ _ _ Hc Hnh Hi Hh) in Hb.
  - intros Hno. left. destruct Hroom as [Hin|Hsz]; [|by eapply cs_free].
    destruct (cs_pinned _ _ _ Hc x Hin) as (i&Hi&Hh). by destruct (Hno i Hi).
  - intros i s' Hp. assert (Hi := br_lt _ _ _ _ Hp).
    assert (HHi : H !! i = None).
    { destruct (H !! i) as [y|] eqn:Hy; [|done].
      destruct (cs_held _ _ _ Hc i y Hy) as (_&_&Hb).
      by rewrite (br_was_free _ _ _ _ Hp) in Hb. }
    split_and!; [|done|apply Hp..].
    destruct (br_holds _ _ _ _ Hp) as [Hd Hs].
    assert (Hbusy := br_busy _ _ _ _ Hp). assert (Hdirty := br_dirty _ _ _ _ Hp).
    assert (Hdh := br_dirty_holds _ _ _ _ Hp).
    eapply (cs_upd s s' D H i x (b_flags (B s' i)) (b_data (B s' i))); try done.
    + apply Hp.
    + unfold core. congruence.
    + apply Hp.
    + intros j Hj. by rewrite lookup_insert_ne.
    + rewrite lookup_insert_eq. done.
    + intros y. rewrite lookup_insert_eq. congruence.
    + fold (dirty (B s' i)). rewrite Hdirty. split.
      * intros Hdi. by eapply (cs_dirty _ _ _ Hc i x Hi (Hdh Hdi)).
      * intros Hin. destruct (cs_pinned _ _ _ Hc x Hin) as (j&Hj&Hh).
        destruct (decide (j = i)) as [->|Hji]; [by eapply (cs_dirty _ _ _ Hc i x)|].
        exfalso. apply Hji. eapply (wf_uniq _ (br_wf _ _ _ _ Hp)); [done..| |by split].
        apply (core_fields _ _ (br_other _ _ _ _ Hp j Hji)). done.
    + destruct (dirty (B s i)) eqn:Hdi; [left; auto|].
      destruct (decide (holds x (B s i))); [by left|]. right. split; [|done].
      intros j Hj Hh. destruct (decide (j = i)) as [->|Hji]; [done|].
      exfalso. apply Hji. eapply (wf_uniq _ (br_wf _ _ _ _ Hp)); [done..| |by split].
      apply (core_fields _ _ (br_other _ _ _ _ Hp j Hji)). done.
Qed.

Lemma cs_held_core s D H i x :
  cstate s D H -> H !! i = Some x ->
  (i < NBUF)%nat /\ holds x (B s i) /\ busy (B s i) = true /\
  core (B s i) = (b_flags (B s i), 1, x, b_data (B s i)) /\ view s x = b_data (B s i).
Proof.
  intros Hc Hi. destruct (cs_held _ _ _ Hc i x Hi) as (Hlt&[Hd Hs]&Hb).
  split_and!; [done..| |].
  - unfold core. congruence.
  - by apply view_cached; [apply Hc|..].
Qed.

Lemma cs_bstore s D H i x d :
  cstate s D H -> H !! i = Some x -> is_block d ->
  wp (bstore i d) noerr (fun _ s' =>
    cstate s' D H /\ dsk s' = dsk s /\
    forall y, view s' y = if decide (y = x) then d else view s y) s.
Proof.
  intros Hc Hi Hd. destruct (cs_held_core _ _ _ _ _ Hc Hi) as (Hlt&Hh&Hb&_&_).
  eapply wp_post; [apply bstore_spec; [apply Hc|done..]|].
  intros [] s' (Hwf'&Hu&Hdsk&Hv). split_and!; [|done..].
  eapply (cs_upd s s' D H i x (b_flags (B s i)) d); try done.
  - by eapply upd_core_same.
  - intros j Hj. by eapply upd_core_other.
  - congruence.
  - fold (dirty (B s i)). by apply (cs_dirty _ _ _ Hc).
  - by left.
Qed.

Lemma cs_bwrite s D H i x :
  cstate s D H -> H !! i = Some x ->
  wp (bwrite i) noerr (fun _ s' =>
    cstate s' (D ∖ {[x]}) H /\
    dsk s' = mkDisk (<[Z.to_nat x := view s x]> (d_now (dsk s))) (d_now (dsk s) :: d_past (dsk s)) /\
    forall y, view s' y = view s y) s.
Proof.
  intros Hc Hi. destruct (cs_held_core _ _ _ _ _ Hc Hi) as (Hlt&Hh&Hb&_&Hvx).
  eapply wp_post; [apply bwrite_spec; [apply Hc|done..]|].
  intros [] s' Hp. split_and!; [|rewrite Hvx; apply Hp|apply Hp].
  destruct (bw_holds _ _ _ _ Hp) as [Hd Hs].
  assert (Hbusy := bw_busy _ _ _ _ Hp). assert (Hdirty := bw_dirty _ _ _ _ Hp).
  eapply (cs_upd s s' D H i x (b_flags (B s' i)) (b_data (B s' i))); try done.
  - apply Hp.
  - unfold core. congruence.
  - apply Hp.
  - congruence.
  - fold (dirty (B s' i)). rewrite Hdirty. set_solver.
  - set_solver.
  - by left.
Qed.

Lemma cs_brelse s D H i x :
  cstate s D H -> H !! i = Some x -> x ∈ D \/ view s x = sect s x ->
  wp (brelse i) noerr (fun _ s' =>
    cstate s' D (delete i H) /\ dsk s' = dsk s /\ forall y, view s' y = view s y) s.
Proof.
  intros Hc Hi Hcl. destruct (cs_held_core _ _ _ _ _ Hc Hi) as (Hlt&Hh&Hb&_&Hvx).
  eapply wp_post; [apply (brelse_spec s x i); [apply Hc|done..|]|].
  - intros Hd. rewrite <- Hvx. destruct Hcl as [Hin|]; [|done].
    apply (cs_dirty _ _ _ Hc i x Hlt Hh) in Hin. congruence.
  - intros [] s' Hp. split_and!; [|apply Hp..].
    eapply (cs_upd s s' D H i x); try done; [apply Hp..| | | | |by left].
    + intros j Hj. by rewrite lookup_delete_ne.
    + rewrite lookup_delete_eq. flags. done.
    + by rewrite lookup_delete_eq.
    + flags. fold (dirty (B s i)). by apply (cs_dirty _ _ _ Hc).
Qed.

(** [b->flags |= B_DIRTY] *)
Lemma cs_setdirty s D H i x :
  cstate s D H -> H !! i = Some x ->
  wp (updb i (set_flags (fset B_DIRTY (b_flags (B s i))))) noerr (fun _ s' =>
    cstate s' (D ∪ {[x]}) H /\ dsk s' = dsk s /\ forall y, view s' y = view s y) s.
Proof.
  intros Hc Hi. destruct (cs_held_core _ _ _ _ _ Hc Hi) as (Hlt&Hh&Hb&Hco&Hvx).
  pose proof (cs_wf _ _ _ Hc) as Hwf. pose proof (wf_len _ Hwf).
  apply wp_updb. set (s' := mkBio _ _ _).
  assert (Hu : upd_core s s' i (fset B_DIRTY (b_flags (B s i)), 1, x, b_data (B s i))).
  { apply upd_core_alter; [lia|done|]. unfold core in *. simpl. congruence. }
  assert (Hwf' : bio_wf s').
  { apply (wf_upd s s' i _ x _ Hwf Hlt Hu); try done.
    - apply Hwf.
    - by apply (wf_range _ Hwf i x).
    - flags. apply (wf_valid _ Hwf); [done|apply Hh].
    - apply (wf_block _ Hwf); [done|apply Hh].
    - intros j Hj Hji Hhj. destruct Hji. by eapply wf_uniq.
    - flags. unfold busy in Hb. congruence. }
  split_and!; [|done|].
  - eapply (cs_upd s s' D H i x); [done..|by eapply upd_core_same| |done| | | | |by left].
    + intros j Hj. by eapply upd_core_other.
    + flags. fold (busy (B s i)). by rewrite Hb, Hi.
    + congruence.
    + flags. set_solver.
    + set_solver.
  - intros y. rewrite (view_upd s s' i _ x _ Hwf Hwf' Hlt Hu); [|done|].
    + case_decide; [by subst|done].
    + intros z Hz. left. destruct Hh, Hz. congruence.
Qed.
End bio.

(** ** Sequences of sector writes and crash images *)

Definition sector_write : Type := Z * list Z.
Definition write1 (d : disk) (w : sector_write) : disk :=
  mkDisk (<[Z.to_nat w.1 := w.2]> (d_now d)) (d_now d :: d_past d).
Definition run_writes (d : disk) (ws : list sector_write) : disk := foldl write1 d ws.
(** The effect of the writes on the contents as a function of the sector. *)
Definition upd_all (f : Z -> list Z) (ws : list sector_write) : Z -> list Z :=
  foldl (fun f w => <[w.1 := w.2]> f) f ws.

Section writes.
Implicit Types (f g : Z -> list Z) (ws : list sector_write) (y : Z).

Lemma upd_all_snoc f ws w : upd_all f (ws ++ [w]) = <[w.1 := w.2]> (upd_all f ws).
Proof. unfold upd_all. by rewrite foldl_app. Qed.
Lemma upd_all_notin f ws y : y ∉ ws.*1 -> upd_all f ws y = f y.
Proof.
  induction ws as [|w ws IH] using rev_ind; [done|]. rewrite upd_all_snoc, fmap_app. intros Hy.
  rewrite fn_lookup_insert_ne by set_solver. apply IH. set_solver.
Qed.
Lemma upd_all_in f g ws y : y ∈ ws.*1 -> upd_all f ws y = upd_all g ws y.
Proof.
  induction ws as [|w ws IH] using rev_ind; [set_solver|]. rewrite !upd_all_snoc, fmap_app.
  intros Hy. destruct (decide (w.1 = y)) as [<-|Hne]; [by rewrite !fn_lookup_insert|].
  rewrite !fn_lookup_insert_ne by done. apply IH. set_solver.
Qed.
Lemma upd_all_ext f g ws y : f y = g y -> upd_all f ws y = upd_all g ws y.
Proof.
  destruct (decide (y ∈ ws.*1)); [intros; by apply upd_all_in|].
  by rewrite !upd_all_notin.
Qed.
Lemma upd_all_NoDup f ws w : NoDup ws.*1 -> w ∈ ws -> upd_all f ws w.1 = w.2.
Proof.
  induction ws as [|v ws IH] using rev_ind; [set_solver|].
  rewrite upd_all_snoc, fmap_app. intros (Hnd&Hdis&_)%NoDup_app [Hw|Hw]%elem_of_app.
  - rewrite fn_lookup_insert_ne; [by apply IH|]. intros He.
    apply (Hdis w.1); [apply list_elem_of_fmap; by exists w|]. rewrite <- He. set_solver.
  - assert (w = v) as -> by set_solver. by rewrite fn_lookup_insert.
Qed.

Lemma elem_of_take_fst j ws y : y ∈ (take j ws).*1 -> y ∈ ws.*1.
Proof. rewrite <- (take_drop j ws) at 2. rewrite fmap_app. set_solver. Qed.
Lemma length_run_writes d ws : length (d_now (run_writes d ws)) = length (d_now d).
Proof.
  induction ws as [|w ws IH] using rev_ind; [done|].
  unfold run_writes in *. rewrite foldl_app. simpl. by rewrite length_insert.
Qed.
Lemma sector_run_writes d ws y :
  Forall (fun w => 0 <= w.1 < Z.of_nat (length (d_now d))) ws ->
  sector_of (d_now (run_writes d ws)) y = upd_all (sector_of (d_now d)) ws y.
Proof.
  induction ws as [|w ws IH] using rev_ind; [done|].
  intros [Hws Hw]%Forall_app. rewrite upd_all_snoc.
  unfold run_writes in *. rewrite foldl_app. simpl. rewrite Forall_singleton in Hw.
  pose proof (length_run_writes d ws) as Hl. unfold run_writes in Hl.
  rewrite sector_of_insert by (rewrite Hl; lia).
  destruct (decide (y = w.1)) as [->|]; [by rewrite fn_lookup_insert|].
  rewrite fn_lookup_insert_ne by done. auto.
Qed.
Lemma d_now_write1 d x c : d_now (run_writes d [(x, c)]) = <[Z.to_nat x := c]> (d_now d).
Proof. done. Qed.
Lemma run_writes_app d ws1 ws2 : run_writes d (ws1 ++ ws2) = run_writes (run_writes d ws1) ws2.
Proof. apply foldl_app. Qed.
End writes.

(** ** The log header block *)

(** The header block after write_head stored [n] and the first [k] sectors. *)
Definition hdr_put (n : Z) (a : list Z) (k : Z) (d : list Z) : list Z :=
  foldl (fun d i => wr 4 (4 + 4 * i) (a !!! Z.to_nat i) d) (wr 4 0 n d) (seqZ 0 k).

Section header.
Implicit Types (n k i : Z) (a d : list Z).

Lemma hdr_put_S n a k d :
  0 <= k -> hdr_put n a (k + 1) d = wr 4 (4 + 4 * k) (a !!! Z.to_nat k) (hdr_put n a k d).
Proof.
  intros. unfold hdr_put. replace k with (Z.of_nat (Z.to_nat k)) by lia.
  replace (Z.of_nat (Z.to_nat k) + 1) with (Z.of_nat (S (Z.to_nat k))) by lia.
  rewrite seqZ_S, foldl_app. simpl. do 2 f_equal; lia.
Qed.

Lemma hdr_put_facts n a k d :
  is_block d -> 0 <= k <= 127 -> 0 <= n < 2 ^ 31 ->
  is_block (hdr_put n a k d) /\ hdr_n (hdr_put n a k d) = n /\
  forall i, 0 <= i < k -> 0 <= a !!! Z.to_nat i < 2 ^ 31 ->
    hdr_sector i (hdr_put n a k d) = a !!! Z.to_nat i.
Proof.
  intros [Hlen Hby] Hk Hn. pose proof (proj1 Hk) as Hk0. revert Hk.
  pattern k. apply natlike_ind; [| |exact Hk0]; clear k Hk0.
  - intros _. unfold hdr_put. simpl. split_and!; [| |lia].
    + split; [by rewrite length_wr|by apply bytes_wr].
    + unfold hdr_n. rewrite rd_wr_eq by (rewrite ?Hlen; lia).
      change (256 ^ Z.of_nat 4) with (2 ^ 32). fold (u32 n). by rewrite s32_u32, s32_small by lia.
  - intros k Hk0 IH Hk. destruct IH as ([Hl Hb]&Hh&Hs); [lia|]. unfold Z.succ.
    rewrite hdr_put_S by lia. split_and!.
    + split; [by rewrite length_wr|by apply bytes_wr].
    + unfold hdr_n in *. by rewrite rd_wr_ne by lia.
    + intros i Hi Ha. unfold hdr_sector in *. destruct (decide (i = k)) as [->|].
      * rewrite rd_wr_eq by (rewrite ?Hl; lia). change (256 ^ Z.of_nat 4) with (2 ^ 32).
        fold (u32 (a !!! Z.to_nat k)). by rewrite s32_u32, s32_small by lia.
      * rewrite rd_wr_ne by lia. apply Hs; [lia|done].
Qed.
End header.

(** ** The routines of log.c *)

(** The log occupies the sectors [l_start .. l_start + l_size - 1]. *)
Record geom (st : lst) : Prop := {
  g_dev : l_dev (l_log st) = 1;
  g_start : 0 <= l_start (l_log st);
  g_size : 2 <= l_size (l_log st);
  g_end : l_start (l_log st) + l_size (l_log st) <= nsect (l_bio st);
  g_small : nsect (l_bio st) < 2 ^ 31;
  g_sectors : Z.of_nat (length (lh_sector (l_lh (l_log st)))) = LOGSIZE }.

Definition in_log (st : lst) (x : Z) : Prop :=
  l_start (l_log st) <= x < l_start (l_log st) + l_size (l_log st).
(** The sector of the log that holds entry [k]. *)
Definition slot (st : lst) (k : Z) : Z := l_start (l_log st) + k + 1.

Lemma wp_liftb {A} (m : K bio A) E Q st :
  wp m E (fun a b => Q a (mkL b (l_log st))) (l_bio st) -> wp (liftb m) E Q st.
Proof. unfold wp, liftb. by destruct (m (l_bio st)). Qed.

(** Calls one routine of the buffer cache through its specification. *)
Ltac bio_call H := apply wp_bind, wp_liftb; eapply wp_post; [eapply H|cbv beta].

Section logops.
Implicit Types (st : lst) (b : bio) (D : gset Z).

Lemma used_empty D : used D ∅ = D.
Proof. unfold used. rewrite map_img_empty_L. set_solver. Qed.
Lemma used_one D i x : used D {[i := x]} = D ∪ {[x]}.
Proof. unfold used. by rewrite map_img_singleton_L. Qed.

Lemma nsect_dsk b b' : dsk b' = dsk b -> nsect b' = nsect b.
Proof. unfold nsect. by intros ->. Qed.
Lemma sect_dsk b b' y : dsk b' = dsk b -> sect b' y = sect b y.
Proof. unfold sect. by intros ->. Qed.

Lemma write_head_spec st D :
  geom st -> cstate (l_bio st) D ∅ -> (size D < NBUF)%nat ->
  l_start (l_log st) ∉ D -> 0 <= lh_n (l_lh (l_log st)) <= LOGSIZE ->
  let b := l_bio st in let l := l_log st in
  let h := hdr_put (lh_n (l_lh l)) (lh_sector (l_lh l)) (lh_n (l_lh l)) (sect b (l_start l)) in
  wp write_head noerr (fun _ st' => l_log st' = l /\ cstate (l_bio st') D ∅ /\
    dsk (l_bio st') = run_writes (dsk b) [(l_start l, h)] /\
    forall y, view (l_bio st') y = if decide (y = l_start l) then h else view b y) st.
Proof.
  intros Hg Hc Hsz HD Hn b l h. destruct Hg. unfold write_head.
  assert (Hstart : 0 <= l_start l < nsect b) by (unfold l, b; lia).
  assert (Hsect : is_block (sect b (l_start l))) by (apply sect_block; [apply Hc|done]).
  apply wp_bind, wp_gets. fold l. replace (l_dev l) with 1 by done.
  change (u32 1) with 1. rewrite u32_small by (unfold l; lia).
  bio_call cs_bread; [done|exact Hstart|set_solver|right; by rewrite used_empty|].
  intros i b1 (Hc1&_&Hd1&Hv1&Hk1). rewrite insert_empty in Hc1.
  assert (Hi : ({[i := l_start l]} : gmap nat Z) !! i = Some (l_start l)) by apply lookup_singleton_eq.
  assert (Hdat : b_data (B b1 i) = sect b (l_start l)).
  { rewrite Hd1. eapply cs_clean; [done|]. by rewrite used_empty. }
  apply wp_bind, wp_liftb, bdata_spec; [apply Hc1|by eapply cs_held|].
  cbn [l_bio l_log]. rewrite Hdat.
  bio_call cs_bstore; [exact Hc1|exact Hi| |].
  { split; [rewrite length_wr; apply Hsect|apply bytes_wr, Hsect]. }
  intros [] b2 (Hc2&Hk2&Hv2). cbn [l_log].
  apply wp_bind.
  apply (wp_for_range (fun k s => l_log s = l /\ cstate (l_bio s) D {[i := l_start l]} /\
    dsk (l_bio s) = dsk b /\ forall y, view (l_bio s) y = if decide (y = l_start l) then
      hdr_put (lh_n (l_lh l)) (lh_sector (l_lh l)) k (sect b (l_start l)) else view b y)).
  { simpl. split_and!; [done..|by rewrite Hk2|]. intros y. rewrite Hv2, Hv1. done. }
  { intros k s Hk (Hl&Hcs&Hks&Hvs). unfold iters in Hk. 
    apply wp_bind, wp_aget; [unfold l, LOGSIZE in *; lia|].
    destruct (cs_held_core _ _ _ _ _ Hcs Hi) as (Hlt&_&_&_&Hvi).
    apply wp_bind, wp_liftb, bdata_spec; [apply Hcs|exact Hlt|]. rewrite <- Hvi, Hvs, decide_True by done.
    destruct (hdr_put_facts (lh_n (l_lh l)) (lh_sector (l_lh l)) k _ Hsect) as ([? ?]&_);
      [unfold LOGSIZE, l in *; lia..|].
    apply wp_liftb. eapply wp_post; [eapply cs_bstore; [exact Hcs|exact Hi|]|].
    { split; [by rewrite length_wr|by apply bytes_wr]. }
    intros [] b3 (Hc3&Hk3&Hv3). simpl. split_and!; [done..|by rewrite Hk3|].
    intros y. rewrite Hv3. case_decide; [by rewrite hdr_put_S by lia|].
    rewrite Hvs. by case_decide. }
  rewrite Z.add_0_l. unfold iters. rewrite Z2Nat.id by (unfold l; lia).
  intros s (Hl&Hcs&Hks&Hvs). fold h in Hvs.
  bio_call cs_bwrite; [exact Hcs|exact Hi|].
  intros [] b4 (Hc4&Hk4&Hv4). rewrite Hvs, decide_True in Hk4 by done.
  replace (D ∖ {[l_start l]}) with D in Hc4 by set_solver.
  apply wp_liftb. eapply wp_post; [eapply cs_brelse; [exact Hc4|exact Hi|right]|].
  { simpl. rewrite Hv4, Hvs, decide_True by done. unfold sect. rewrite Hk4. simpl.
    rewrite Hks, sector_of_insert, decide_True; [done..|]. exact Hstart. }
  intros [] b5 (Hc5&Hk5&Hv5). simpl. rewrite delete_singleton_eq in Hc5.
  split_and!; [done..| |].
  - rewrite Hk5. simpl. by rewrite Hk4, Hks.
  - intros y. rewrite Hv5. simpl. by rewrite Hv4, Hvs.
Qed.

Lemma seqZ_snoc k : 0 <= k -> seqZ 0 (k + 1) = seqZ 0 k ++ [k].
Proof.
  intros. replace (k + 1) with (Z.of_nat (S (Z.to_nat k))) by lia.
  rewrite seqZ_S. f_equal; [f_equal|f_equal]; lia.
Qed.

(** Entry [k] of the in-memory header, the writes that install the first
    [k] entries, and the dirty sectors left after that. *)
Definition ent st (k : Z) : Z := lh_sector (l_lh (l_log st)) !!! Z.to_nat k.
Definition ents st (k : Z) : list Z := map (ent st) (seqZ 0 k).
Definition inst st (k : Z) : list sector_write :=
  map (fun j => (ent st j, sect (l_bio st) (slot st j))) (seqZ 0 k).
Definition rest st D (k : Z) : gset Z := D ∖ list_to_set (ents st k).

Lemma inst_fst st k : (inst st k).*1 = ents st k.
Proof. unfold inst, ents. induction (seqZ 0 k) as [|j l IH]; [done|]. simpl. by f_equal. Qed.
Lemma elem_of_ents st n x : x ∈ ents st n <-> exists k, 0 <= k < n /\ x = ent st k.
Proof.
  unfold ents. rewrite list_elem_of_fmap. setoid_rewrite elem_of_seqZ.
  split; intros (k&?&?); exists k; split; (done || lia).
Qed.

Lemma ent_inj st n k j :
  NoDup (ents st n) -> 0 <= k < n -> 0 <= j < n -> ent st k = ent st j -> k = j.
Proof.
  intros Hnd Hk Hj He.
  assert (Hl : forall i : Z, 0 <= i < n -> ents st n !! Z.to_nat i = Some (ent st i)).
  { intros i Hi. unfold ents. rewrite list_lookup_fmap, lookup_seqZ_lt by lia. simpl. do 2 f_equal. lia. }
  assert (Z.to_nat k = Z.to_nat j); [|lia].
  eapply NoDup_lookup; [done|by apply Hl|]. rewrite He. by apply Hl.
Qed.

(** The entries are sectors outside the log, and there are at most as many
    as the log has slots. *)
Definition ents_ok st : Prop :=
  0 <= lh_n (l_lh (l_log st)) <= LOGSIZE /\
  lh_n (l_lh (l_log st)) < l_size (l_log st) /\
  forall k, 0 <= k < lh_n (l_lh (l_log st)) -> 0 <= ent st k < nsect (l_bio st) /\ ~ in_log st (ent st k).

Lemma geom_disk st b : geom st -> nsect b = nsect (l_bio st) -> geom (mkL b (l_log st)).
Proof. intros [] Hn. split; cbn [l_bio l_log]; rewrite ?Hn; assumption. Qed.
Lemma ents_ok_disk st b : ents_ok st -> nsect b = nsect (l_bio st) -> ents_ok (mkL b (l_log st)).
Proof.
  intros (?&?&He) Hn. split; [done|split; [done|]]. intros k Hk. simpl. rewrite Hn. by apply He.
Qed.

Lemma inst_bounds st k :
  ents_ok st -> k <= lh_n (l_lh (l_log st)) ->
  Forall (fun w => 0 <= w.1 < Z.of_nat (length (d_now (dsk (l_bio st))))) (inst st k).
Proof.
  intros (_&_&He) Hk. apply Forall_forall. intros w (j&->&Hj%elem_of_seqZ)%list_elem_of_fmap.
  simpl. apply He. lia.
Qed.

(** Installing one entry. *)
Lemma install_one_spec (lx e : Z) b D (l : log) :
  cstate b D ∅ -> 0 <= lx < nsect b -> 0 <= e < nsect b -> lx ∉ D -> lx <> e ->
  (size D < NBUF)%nat -> e ∈ D \/ (S (size D) < NBUF)%nat ->
  wp (lbuf <- liftb (bread 1 lx);;
      dbuf <- liftb (bread 1 e);;
      d <- liftb (bdata lbuf);;
      liftb (bstore dbuf d);;
      liftb (bwrite dbuf);;
      liftb (brelse lbuf);;
      liftb (brelse dbuf)) noerr
    (fun _ st' => l_log st' = l /\ cstate (l_bio st') (D ∖ {[e]}) ∅ /\
      dsk (l_bio st') = run_writes (dsk b) [(e, sect b lx)] /\
      forall y, view (l_bio st') y = if decide (y = e) then sect b lx else view b y)
    (mkL b l).
Proof.
  intros Hc Hlx He HlD Hne Hsz Hroom.
  bio_call cs_bread; [exact Hc|done|set_solver|right; by rewrite used_empty|].
  intros i b1 (Hc1&_&_&Hv1&Hk1). cbn [l_log]. rewrite insert_empty in Hc1.
  bio_call cs_bread; [exact Hc1|simpl; by rewrite (nsect_dsk b)|
    rewrite map_img_singleton_L; set_solver| |].
  { rewrite used_one. destruct Hroom; [by left|right].
    rewrite size_union by set_solver. rewrite size_singleton. lia. }
  intros j b2 (Hc2&Hij&_&Hv2&Hk2). cbn [l_log l_bio] in *.
  assert (Hji : i <> j) by (intros ->; by rewrite lookup_singleton_eq in Hij).
  assert (Hi : (<[j := e]> {[i := lx]} : gmap nat Z) !! i = Some lx)
    by (rewrite lookup_insert_ne by done; apply lookup_singleton_eq).
  assert (Hj : (<[j := e]> {[i := lx]} : gmap nat Z) !! j = Some e) by apply lookup_insert_eq.
  destruct (cs_held_core _ _ _ _ _ Hc2 Hi) as (Hilt&_&_&_&Hvi).
  apply wp_bind, wp_liftb, bdata_spec; [apply Hc2|done|]. cbn [l_log l_bio].
  assert (Hlv : view b lx = sect b lx) by (eapply cs_clean; [done|by rewrite used_empty]).
  rewrite <- Hvi, Hv2, Hv1, Hlv.
  bio_call cs_bstore; [exact Hc2|exact Hj|apply sect_block; [apply Hc|done]|].
  intros [] b3 (Hc3&Hk3&Hv3). cbn [l_log l_bio] in *.
  bio_call cs_bwrite; [exact Hc3|exact Hj|].
  intros [] b4 (Hc4&Hk4&Hv4). cbn [l_log l_bio] in *.
  rewrite Hv3, decide_True, Hk3, Hk2, Hk1 in Hk4 by done.
  assert (Hs4 : forall y, sect b4 y = if decide (y = e) then sect b lx else sect b y).
  { intros y. unfold sect. rewrite Hk4. simpl. by rewrite sector_of_insert. }
  assert (Hv : forall y, view b4 y = if decide (y = e) then sect b lx else view b y).
  { intros y. rewrite Hv4, Hv3. case_decide; [done|]. by rewrite Hv2, Hv1. }
  bio_call cs_brelse; [exact Hc4|exact Hi|right; simpl; by rewrite Hv, Hs4, !decide_False|].
  intros [] b5 (Hc5&Hk5&Hv5). cbn [l_log l_bio] in *.
  rewrite delete_insert_ne, delete_singleton_eq in Hc5 by done. rewrite insert_empty in Hc5.
  apply wp_liftb. eapply wp_post; [eapply cs_brelse; [exact Hc5|apply lookup_singleton_eq|right]|].
  { simpl. by rewrite (sect_dsk b4), Hv5, Hv, Hs4, !decide_True. }
  intros [] b6 (Hc6&Hk6&Hv6). cbn [l_log l_bio] in *. rewrite delete_singleton_eq in Hc6.
  split_and!; [done..| |].
  - by rewrite Hk6, Hk5, Hk4.
  - intros y. by rewrite Hv6, Hv5, Hv.
Qed.

Lemma slot_fresh st k :
  geom st -> ents_ok st -> 0 <= k < lh_n (l_lh (l_log st)) ->
  in_log st (slot st k) /\ 0 <= slot st k < nsect (l_bio st) /\
  (slot st k ∉ ents st (lh_n (l_lh (l_log st)))) /\
  u32 (l_start (l_log st) + k + 1) = slot st k /\ u32 (ent st k) = ent st k.
Proof.
  intros Hg (Hn&Hsz&He) Hk. destruct Hg. unfold in_log, slot in *.
  assert (Hin : l_start (l_log st) <= l_start (l_log st) + k + 1
                < l_start (l_log st) + l_size (l_log st)) by lia.
  pose proof (He k Hk). split_and!; [lia..| | |].
  - rewrite elem_of_ents. intros (j&Hj&Heq). destruct (He j Hj) as [_ Hnl].
    apply Hnl. rewrite <- Heq. done.
  - rewrite u32_small; lia.
  - rewrite u32_small; lia.
Qed.

Lemma install_trans_spec st D :
  geom st -> ents_ok st -> cstate (l_bio st) D ∅ -> (size D < NBUF)%nat ->
  (forall x, x ∈ D -> ~ in_log st x) ->
  let n := lh_n (l_lh (l_log st)) in
  (forall k, 0 <= k < n -> ent st k ∈ rest st D k \/ (S (size (rest st D k)) < NBUF)%nat) ->
  wp install_trans noerr (fun _ st' => l_log st' = l_log st /\
    cstate (l_bio st') (rest st D n) ∅ /\
    dsk (l_bio st') = run_writes (dsk (l_bio st)) (inst st n) /\
    forall y, view (l_bio st') y = upd_all (view (l_bio st)) (inst st n) y) st.
Proof.
  intros Hg He Hc Hsz HD n Hroom. unfold install_trans. apply wp_bind, wp_gets. fold n.
  apply (wp_for_range (fun k s => l_log s = l_log st /\ cstate (l_bio s) (rest st D k) ∅ /\
    dsk (l_bio s) = run_writes (dsk (l_bio st)) (inst st k) /\
    forall y, view (l_bio s) y = upd_all (view (l_bio st)) (inst st k) y)).
  - split_and!; [done| |done..]. unfold rest, ents. simpl.
    by replace (D ∖ ∅) with D by set_solver.
  - intros k s Hk (Hl&Hcs&Hks&Hvs). unfold iters in Hk.
    assert (Hkn : 0 <= k < n) by lia. clear Hk.
    destruct (slot_fresh st k Hg He Hkn) as (Hinl&Hslot&Hfresh&Hu1&Hu2).
    destruct (proj2 (proj2 He) k Hkn) as [Hek Hekl].
    assert (Hnsk : nsect (l_bio s) = nsect (l_bio st))
      by (unfold nsect; by rewrite Hks, length_run_writes).
    rewrite (g_dev _ Hg). change (u32 1) with 1. rewrite Hu1.
    assert (Ha : aget (S := lst) (lh_sector (l_lh (l_log st))) k = ret (ent st k)).
    { unfold aget, inb. pose proof (g_sectors _ Hg). pose proof (proj1 He).
      by rewrite (proj2 (Z.leb_le _ _)), (proj2 (Z.ltb_lt _ _)) by (unfold n in *; lia). }
    rewrite Ha. destruct s as [b l]. simpl in Hl, Hcs, Hks, Hvs, Hnsk. subst l.
    assert (Hlog : forall x, x ∈ rest st D k -> ~ in_log st x)
      by (intros x Hx; apply HD; unfold rest in Hx; set_solver).
    assert (Hsect : sect b (slot st k) = sect (l_bio st) (slot st k)).
    { unfold sect at 1. rewrite Hks, sector_run_writes by (apply inst_bounds; [done|unfold n in *; lia]).
      apply upd_all_notin. rewrite inst_fst. intros Hin. apply Hfresh.
      apply elem_of_ents in Hin as (j&Hj&Heq). apply elem_of_ents. exists j.
      split; [unfold n in *; lia|done]. }
    eapply wp_post; [eapply (install_one_spec (slot st k) (u32 (ent st k)) b _ (l_log st) Hcs)|].
    + by rewrite Hnsk.
    + by rewrite Hu2, Hnsk.
    + intros Hin. by apply (Hlog (slot st k)).
    + rewrite Hu2. intros Heq. apply Hekl. by rewrite <- Heq.
    + eapply Nat.le_lt_trans; [|exact Hsz]. apply subseteq_size. unfold rest. set_solver.
    + rewrite Hu2. by apply Hroom.
    + rewrite Hu2, Hsect. intros [] st' (Hl'&Hc'&Hk'&Hv').
      assert (Hinst : inst st (k + 1) = inst st k ++ [(ent st k, sect (l_bio st) (slot st k))])
        by (unfold inst; by rewrite seqZ_snoc, map_app by lia).
      split_and!; [done| | |].
      * replace (rest st D (k + 1)) with (rest st D k ∖ {[ent st k]}); [done|].
        unfold rest, ents. rewrite seqZ_snoc, map_app by lia.
        rewrite list_to_set_app_L. set_solver.
      * by rewrite Hk', Hinst, run_writes_app, Hks.
      * intros y. rewrite Hv', Hinst, upd_all_snoc. simpl.
        case_decide as Hy; [subst; by rewrite fn_lookup_insert|].
        by rewrite fn_lookup_insert_ne, Hvs.
  - unfold iters. rewrite Z.add_0_l, Z2Nat.id by apply He. done.
Qed.
End logops.

(** ** Recovery as a function of the disk image *)

(** The log entries that a header block at sector [start] describes. *)
Definition disk_log (start : Z) (img : list (list Z)) : list sector_write :=
  let h := sector_of img start in
  map (fun k => (hdr_sector k h, sector_of img (start + k + 1))) (seqZ 0 (hdr_n h)).
(** The contents of the disk once its log has been replayed. *)
Definition recovered (start : Z) (img : list (list Z)) : Z -> list Z :=
  upd_all (sector_of img) (disk_log start img).

Section recovered.
Implicit Types (img : list (list Z)) (start x : Z) (ws : list sector_write).

Lemma recovered_empty start img x :
  hdr_n (sector_of img start) = 0 -> recovered start img x = sector_of img x.
Proof. intros Hn. unfold recovered, disk_log. by rewrite Hn. Qed.

(** Two images whose log regions agree and which differ only on sectors the
    log overwrites recover to the same contents. *)
Lemma recovered_same_log start size img img' x :
  (forall y, start <= y < start + size -> sector_of img' y = sector_of img y) ->
  0 <= hdr_n (sector_of img start) < size ->
  (forall y, y ∉ (disk_log start img).*1 -> start <= y < start + size \/ sector_of img' y = sector_of img y) ->
  ~ start <= x < start + size ->
  recovered start img' x = recovered start img x.
Proof.
  intros Hlog Hn Hoth Hx.
  assert (Heq : disk_log start img' = disk_log start img).
  { unfold disk_log. rewrite Hlog by lia. apply list_fmap_ext.
    intros i k Hk. apply lookup_seqZ in Hk as [-> Hk]. f_equal. apply Hlog. lia. }
  unfold recovered. rewrite Heq.
  destruct (decide (x ∈ (disk_log start img).*1)) as [Hin|Hnin]; [by apply upd_all_in|].
  rewrite !upd_all_notin by done. by destruct (Hoth x Hnin).
Qed.
End recovered.

Section commit.
Implicit Types (st : lst) (D : gset Z) (x : Z).

(** The sectors after [ws] in terms of the sectors before. *)
Lemma sector_after b ws y :
  Forall (fun w => 0 <= w.1 < nsect b) ws ->
  sector_of (d_now (run_writes (dsk b) ws)) y = upd_all (sect b) ws y.
Proof. intros. by apply sector_run_writes. Qed.

(** The writes of a commit: the header, the installation of the entries,
    the cleared header. *)
Definition head_of st (n : Z) : list Z :=
  hdr_put n (lh_sector (l_lh (l_log st))) n (sect (l_bio st) (l_start (l_log st))).
Definition commit_writes st : list sector_write :=
  let n := lh_n (l_lh (l_log st)) in let start := l_start (l_log st) in
  (start, head_of st n) :: inst st n ++
    [(start, hdr_put 0 (lh_sector (l_lh (l_log st))) 0 (head_of st n))].

Lemma head_of_facts st :
  geom st -> ents_ok st -> bio_wf (l_bio st) ->
  let n := lh_n (l_lh (l_log st)) in
  is_block (head_of st n) /\ hdr_n (head_of st n) = n /\
  forall k, 0 <= k < n -> hdr_sector k (head_of st n) = ent st k.
Proof.
  intros Hg He Hwf n. destruct Hg. destruct He as (Hn&Hsz&Hent).
  destruct (hdr_put_facts n (lh_sector (l_lh (l_log st))) n (sect (l_bio st) (l_start (l_log st))))
    as (Hb&Hh&Hs).
  - apply sect_block; [done|lia].
  - unfold LOGSIZE, n in *. lia.
  - unfold LOGSIZE, n in *. lia.
  - split_and!; [done..|]. intros k Hk. apply Hs; [done|].
    destruct (Hent k Hk) as [? _]. unfold ent in *. lia.
Qed.

Lemma commit_writes_bounds st :
  geom st -> ents_ok st -> Forall (fun w => 0 <= w.1 < nsect (l_bio st)) (commit_writes st).
Proof.
  intros Hg He. pose proof (inst_bounds st _ He (Z.le_refl _)) as Hi. destruct Hg.
  constructor; [simpl; lia|]. apply Forall_app. split; [done|].
  constructor; [simpl; lia|done].
Qed.

(** The header block on disk is the in-memory one. *)
Definition on_disk st : Prop :=
  let h := sect (l_bio st) (l_start (l_log st)) in let n := lh_n (l_lh (l_log st)) in
  hdr_n h = n /\ forall k, 0 <= k < n -> hdr_sector k h = ent st k.

Lemma on_disk_log st : on_disk st ->
  disk_log (l_start (l_log st)) (d_now (dsk (l_bio st))) = inst st (lh_n (l_lh (l_log st))).
Proof.
  intros [Hn Hk]. unfold disk_log. fold (sect (l_bio st) (l_start (l_log st))). rewrite Hn.
  apply list_fmap_ext. intros i k Hi. apply lookup_seqZ in Hi as [-> Hi]. rewrite Hk by lia. done.
Qed.

(** The log region of an image describes a transaction that can be replayed. *)
Definition log_ok (start size : Z) (img : list (list Z)) : Prop :=
  let h := sector_of img start in
  0 <= hdr_n h <= LOGSIZE /\ hdr_n h < size /\
  forall k, 0 <= k < hdr_n h -> 0 <= hdr_sector k h < Z.of_nat (length img) /\
    ~ start <= hdr_sector k h < start + size.
#[export] Instance log_ok_dec start size img : Decision (log_ok start size img).
Proof.
  unfold log_ok. set (h := sector_of img start).
  assert (Hd : Decision (Forall (fun k => 0 <= hdr_sector k h < Z.of_nat (length img) /\
    ~ start <= hdr_sector k h < start + size) (seqZ 0 (hdr_n h)))) by apply _.
  destruct (decide (0 <= hdr_n h <= LOGSIZE)); [|right; tauto].
  destruct (decide (hdr_n h < size)); [|right; tauto].
  destruct Hd as [Hf|Hf]; [left|right].
  - split_and!; [tauto..|]. intros k Hk. rewrite Forall_forall in Hf. apply Hf, elem_of_seqZ. lia.
  - intros (_&_&Hk). apply Hf, Forall_forall. intros k Hk'%elem_of_seqZ. apply Hk. lia.
Defined.

Lemma log_ok_same start size img img' :
  sector_of img' start = sector_of img start -> length img' = length img ->
  log_ok start size img -> log_ok start size img'.
Proof. unfold log_ok. by intros -> ->. Qed.
Lemma log_ok_empty start size img :
  1 <= size -> hdr_n (sector_of img start) = 0 -> log_ok start size img.
Proof. unfold log_ok. intros Hs ->. unfold LOGSIZE. split_and!; lia. Qed.
Lemma on_disk_ok st : on_disk st -> ents_ok st ->
  log_ok (l_start (l_log st)) (l_size (l_log st)) (d_now (dsk (l_bio st))).
Proof.
  intros [Hn Hk] (He1&He2&He3). unfold log_ok. fold (sect (l_bio st) (l_start (l_log st))).
  rewrite Hn. split; [done|split; [done|]]. intros k Hk'. rewrite Hk by done. by apply He3.
Qed.

(** The common tail of a commit and of a recovery: install the entries and
    clear the header. *)
Definition clear_write st : sector_write :=
  (l_start (l_log st), hdr_put 0 (lh_sector (l_lh (l_log st))) 0 (sect (l_bio st) (l_start (l_log st)))).

Lemma start_notin_ents st : geom st -> ents_ok st ->
  l_start (l_log st) ∉ ents st (lh_n (l_lh (l_log st))).
Proof.
  intros Hg He (k&Hk&Heq)%elem_of_ents. apply (proj2 (proj2 He) k Hk).
  rewrite <- Heq. destruct Hg. unfold in_log. lia.
Qed.

Definition replay_writes st : list sector_write :=
  inst st (lh_n (l_lh (l_log st))) ++ [clear_write st].

Lemma replay_bounds st :
  geom st -> ents_ok st -> Forall (fun w => 0 <= w.1 < nsect (l_bio st)) (replay_writes st).
Proof.
  intros Hg He. apply Forall_app. split; [by apply (inst_bounds st _ He)|].
  destruct Hg. constructor; [simpl; lia|done].
Qed.

(** Replaying the log is idempotent: after any number of its writes the
    image is again one whose replay gives the same contents. *)
Lemma replay_images st j :
  geom st -> ents_ok st -> is_block (sect (l_bio st) (l_start (l_log st))) -> on_disk st ->
  let start := l_start (l_log st) in let size := l_size (l_log st) in
  let img := d_now (run_writes (dsk (l_bio st)) (take j (replay_writes st))) in
  log_ok start size img /\ forall x, ~ in_log st x ->
  recovered start img x = recovered start (d_now (dsk (l_bio st))) x.
Proof.
  intros Hg He Hst Hod start size. set (n := lh_n (l_lh (l_log st))).
  pose proof (replay_bounds st Hg He) as Hb. pose proof (on_disk_log st Hod) as Hdl.
  assert (Hlogs : forall i y, start <= y < start + size -> y ∉ (take i (inst st n)).*1).
  { intros i y Hy Hin. assert (y ∈ ents st n) as Hye.
    { rewrite <- inst_fst. by eapply elem_of_take_fst. }
    apply elem_of_ents in Hye as (k&Hk&->). by destruct (proj2 (proj2 He) k Hk). }
  assert (Hs2 : 2 <= size) by (destruct Hg; unfold size; lia).
  unfold replay_writes in *. fold n start in Hb, Hdl |- *. destruct (decide (j <= length (inst st n))%nat) as [Hj|Hj].
  - rewrite take_app_le by done. set (ws := take j (inst st n)) in *.
    assert (Hb' : Forall (fun w => 0 <= w.1 < nsect (l_bio st)) ws)
      by (apply Forall_take; by apply (inst_bounds st _ He)).
    assert (Hlog : forall y, start <= y < start + size ->
      sector_of (d_now (run_writes (dsk (l_bio st)) ws)) y = sector_of (d_now (dsk (l_bio st))) y)
      by (intros y Hy; rewrite sector_after by done; by apply upd_all_notin, Hlogs).
    split.
    + apply (log_ok_same _ _ (d_now (dsk (l_bio st)))); [apply Hlog; lia|by rewrite length_run_writes|].
      by apply on_disk_ok.
    + intros x Hx. apply (recovered_same_log start size); [done| | |exact Hx].
      * destruct Hod as [Hn _]. fold start (sect (l_bio st) start) in Hn |- *. rewrite Hn.
        destruct He. unfold size. lia.
      * intros y Hy. right. rewrite sector_after by done. apply upd_all_notin.
        rewrite Hdl in Hy. intros Hin. by apply Hy, (elem_of_take_fst j).
  - rewrite take_ge by (rewrite length_app; simpl; lia).
    assert (Hh : hdr_n (sector_of (d_now (run_writes (dsk (l_bio st)) (inst st n ++ [clear_write st]))) start) = 0).
    { rewrite sector_after, upd_all_snoc by done. simpl. rewrite fn_lookup_insert.
      apply (hdr_put_facts 0); [done|lia..]. }
    split; [by apply log_ok_empty; [lia|]|]. intros x Hx.
    rewrite recovered_empty by done. rewrite sector_after, upd_all_snoc by done. simpl.
    rewrite fn_lookup_insert_ne by (fold start; intros Heq; apply Hx; unfold in_log; fold start size; lia).
    unfold recovered. by rewrite Hdl.
Qed.

(** Writing the header of the running transaction. *)
Definition headed st : lst :=
  mkL (mkBio (bcache (l_bio st)) (run_writes (dsk (l_bio st))
    [(l_start (l_log st), head_of st (lh_n (l_lh (l_log st))))]) []) (l_log st).

Lemma sect_headed st y : geom st ->
  sect (l_bio (headed st)) y = if decide (y = l_start (l_log st))
    then head_of st (lh_n (l_lh (l_log st))) else sect (l_bio st) y.
Proof. intros []. apply sector_of_insert. unfold nsect in *. lia. Qed.

Lemma inst_headed st n : geom st -> inst (headed st) n = inst st n.
Proof.
  intros Hg. apply list_fmap_ext. intros i k Hk. apply lookup_seqZ in Hk as [-> Hk].
  rewrite sect_headed, decide_False by (done || (unfold slot; simpl; lia)). done.
Qed.

Lemma commit_writes_headed st : geom st ->
  run_writes (dsk (l_bio st)) [(l_start (l_log st), head_of st (lh_n (l_lh (l_log st))))] =
    dsk (l_bio (headed st)) /\
  commit_writes st = (l_start (l_log st), head_of st (lh_n (l_lh (l_log st)))) :: replay_writes (headed st).
Proof.
  intros Hg. split; [done|]. unfold commit_writes, replay_writes, clear_write.
  change (l_log (headed st)) with (l_log st). rewrite sect_headed, decide_True by done.
  by rewrite inst_headed.
Qed.

(** Crash safety of a commit, image by image: before the header is written
    recovery gives the old contents, at every later point the new ones. *)
Lemma commit_images st j :
  geom st -> ents_ok st -> bio_wf (l_bio st) ->
  hdr_n (sect (l_bio st) (l_start (l_log st))) = 0 ->
  let img := d_now (run_writes (dsk (l_bio st)) (take j (commit_writes st))) in
  log_ok (l_start (l_log st)) (l_size (l_log st)) img /\ forall x, ~ in_log st x ->
  recovered (l_start (l_log st)) img x =
  if decide (j = O) then sect (l_bio st) x
  else upd_all (sect (l_bio st)) (inst st (lh_n (l_lh (l_log st)))) x.
Proof.
  intros Hg He Hwf Hh. destruct (head_of_facts st Hg He Hwf) as (Hhb&Hhn&Hhs).
  destruct j as [|j].
  { split; [apply log_ok_empty; [destruct Hg; lia|done]|]. intros x Hx. by apply recovered_empty. }
  destruct (commit_writes_headed st Hg) as [Hd ->]. cbv zeta.
  rewrite firstn_cons, <- (app_nil_l (take j _)), app_comm_cons, run_writes_app, Hd.
  assert (Hns : nsect (l_bio (headed st)) = nsect (l_bio st))
    by (unfold nsect; simpl; by rewrite length_insert).
  assert (Hod : on_disk (headed st)).
  { split; simpl l_start; rewrite sect_headed, decide_True by done; [done|]. apply Hhs. }
  destruct (replay_images (headed st) j) as [Hok Hrec];
    [by apply geom_disk|by apply ents_ok_disk| |done|].
  { simpl l_start. by rewrite sect_headed, decide_True. }
  split; [exact Hok|]. intros x Hx. rewrite decide_False by done.
  etransitivity; [by apply Hrec|]. unfold recovered. rewrite (on_disk_log (headed st) Hod).
  change (l_log (headed st)) with (l_log st). rewrite inst_headed by done. apply upd_all_ext.
  change (sect (l_bio (headed st)) x = sect (l_bio st) x).
  rewrite sect_headed by done. rewrite decide_False; [done|].
  intros ->. apply Hx. destruct Hg. unfold in_log. lia.
Qed.

Lemma install_clear_spec st D :
  geom st -> ents_ok st -> cstate (l_bio st) D ∅ -> (size D < NBUF)%nat ->
  (forall x, x ∈ D -> ~ in_log st x) ->
  let n := lh_n (l_lh (l_log st)) in
  (forall k, 0 <= k < n -> ent st k ∈ rest st D k \/ (S (size (rest st D k)) < NBUF)%nat) ->
  wp (install_trans;; updl (set_n 0);; write_head) noerr (fun _ st' =>
    l_log st' = set_n 0 (l_log st) /\ cstate (l_bio st') (rest st D n) ∅ /\
    dsk (l_bio st') = run_writes (dsk (l_bio st)) (replay_writes st) /\
    forall y, view (l_bio st') y = if decide (y = l_start (l_log st)) then (clear_write st).2
      else upd_all (view (l_bio st)) (inst st n) y) st.
Proof.
  intros Hg He Hc Hsz HD n Hroom. apply wp_bind.
  eapply wp_post; [by eapply install_trans_spec|].
  intros [] [b l] (Hl&Hc1&Hk1&Hv1). cbn [l_log l_bio] in *. subst l.
  apply wp_bind, wp_modify. cbn [l_log l_bio].
  assert (Hns : nsect b = nsect (l_bio st)) by (unfold nsect; by rewrite Hk1, length_run_writes).
  eapply wp_post; [eapply (write_head_spec _ (rest st D n))|].
  - destruct Hg. split; cbn [l_bio l_log set_n l_dev l_start l_size l_lh lh_sector]; rewrite ?Hns; done.
  - done.
  - eapply Nat.le_lt_trans; [|exact Hsz]. apply subseteq_size. unfold rest. set_solver.
  - cbn [l_log set_n l_start]. intros Hin.
    apply (HD (l_start (l_log st))); [unfold rest in Hin; set_solver|]. destruct Hg. unfold in_log. lia.
  - simpl. unfold LOGSIZE. lia.
  - cbn [l_log l_bio set_n l_start l_lh lh_n lh_sector]. intros [] st' (Hl'&Hc2&Hk2&Hv2).
    assert (Hsame : sect b (l_start (l_log st)) = sect (l_bio st) (l_start (l_log st))).
    { unfold sect at 1. rewrite Hk1, sector_run_writes by (by apply inst_bounds).
      apply upd_all_notin. rewrite inst_fst. by apply start_notin_ents. }
    rewrite Hsame in Hk2, Hv2. split_and!; [done..| |].
    + unfold replay_writes. fold n. by rewrite Hk2, Hk1, run_writes_app.
    + intros y. rewrite Hv2. case_decide; [done|]. by rewrite Hv1.
Qed.

(** The body of commit_trans when the transaction is not empty. *)
Lemma commit_body_spec st :
  geom st -> ents_ok st -> let n := lh_n (l_lh (l_log st)) in
  cstate (l_bio st) (list_to_set (ents st n)) ∅ -> NoDup (ents st n) -> n < Z.of_nat NBUF ->
  wp (write_head;; install_trans;; updl (set_n 0);; write_head) noerr (fun _ st' =>
    l_log st' = set_n 0 (l_log st) /\ cstate (l_bio st') ∅ ∅ /\
    dsk (l_bio st') = run_writes (dsk (l_bio st)) (commit_writes st) /\
    forall y, y <> l_start (l_log st) ->
      view (l_bio st') y = upd_all (view (l_bio st)) (inst st n) y) st.
Proof.
  intros Hg He n Hc Hnd Hcap. set (D := list_to_set (ents st n) : gset Z) in *.
  assert (Hsz : (size D < NBUF)%nat).
  { unfold D. rewrite size_list_to_set by done. unfold ents. rewrite length_map, length_seqZ.
    pose proof (proj1 He). unfold n in *. lia. }
  assert (HD : forall x, x ∈ D -> ~ in_log st x).
  { intros x (k&Hk&->)%elem_of_list_to_set%elem_of_ents. by apply (proj2 (proj2 He) k Hk). }
  apply wp_bind. eapply wp_post; [eapply (write_head_spec st D); [done..| |apply He]|].
  { intros Hin%HD. apply Hin. destruct Hg. unfold in_log. lia. }
  intros [] [b l] (Hl&Hc1&Hk1&Hv1). cbn [l_log l_bio] in *. subst l. fold n in Hk1, Hv1.
  set (st1 := mkL b (l_log st)).
  assert (Hns : nsect b = nsect (l_bio st)) by (unfold nsect; by rewrite Hk1, length_run_writes).
  assert (Hst : 0 <= l_start (l_log st) < nsect (l_bio st)) by (destruct Hg; lia).
  assert (Hs1 : forall y, sect b y = if decide (y = l_start (l_log st)) then head_of st n else sect (l_bio st) y).
  { intros y. unfold sect at 1. rewrite Hk1. by apply sector_of_insert. }
  assert (Hinst : inst st1 n = inst st n).
  { apply list_fmap_ext. intros i k Hk. apply lookup_seqZ in Hk as [-> Hk]. f_equal.
    simpl. rewrite Hs1, decide_False; [done|]. unfold slot. simpl. lia. }
  assert (Hrest : rest st1 D n = ∅) by (unfold rest; change (ents st1 n) with (ents st n); set_solver).
  eapply wp_post; [eapply (install_clear_spec st1 D)|].
  - by apply geom_disk.
  - by apply ents_ok_disk.
  - done.
  - done.
  - done.
  - intros k Hk. left. unfold rest. change (ents st1 k) with (ents st k). change (ent st1 k) with (ent st k).
    unfold D. rewrite elem_of_difference, !elem_of_list_to_set. split; [apply elem_of_ents; by exists k|].
    intros (j&Hj&Heq)%elem_of_ents. change (l_log st1) with (l_log st) in Hk. fold n in Hk.
    assert (k = j); [|lia]. eapply ent_inj; [exact Hnd|lia..|done].
  - change (l_log st1) with (l_log st). change (l_bio st1) with b. fold n. rewrite Hrest, Hinst.
    intros [] st' (Hl'&Hc2&Hk2&Hv2). split_and!; [done..| |].
    + rewrite Hk2, Hk1. unfold commit_writes, replay_writes, clear_write.
      change (l_log st1) with (l_log st). change (l_bio st1) with b. fold n. rewrite Hinst.
      rewrite Hs1, decide_True by done. done.
    + intros y Hy. rewrite Hv2, decide_False by done. apply upd_all_ext. by rewrite Hv1, decide_False.
Qed.
End commit.
