(* ===== verification/Trans.v ===== *)
(** The transactional disk: what log.c and bio.c together promise to the
    file system.

    [tdisk] is the abstract state: the contents a reader sees, the contents
    that survive a crash, the sectors logged by the running transaction, the
    buffers locked by the caller.  [linv] relates it to the state of the
    buffer cache, the disk and the log; the theorems say that each routine
    implements its abstract transition. *)
From S2P Require Import Prelude Params Bio BioSpec Log LogSpec.

Record tdisk := mkT {
  t_view : Z -> list Z;
  t_comm : Z -> list Z;
  t_logged : list Z;
  (** locked buffer -> (sector, modified since it was last logged) *)
  t_held : gmap nat (Z * bool);
  t_active : bool }.

Definition t_hold (i : nat) (x : Z) (t : tdisk) : tdisk :=
  mkT (t_view t) (t_comm t) (t_logged t) (<[i := (x, false)]> (t_held t)) (t_active t).
Definition t_store (i : nat) (x : Z) (d : list Z) (t : tdisk) : tdisk :=
  mkT (<[x := d]> (t_view t)) (t_comm t) (t_logged t) (<[i := (x, true)]> (t_held t)) (t_active t).
Definition t_logw (i : nat) (x : Z) (t : tdisk) : tdisk :=
  mkT (t_view t) (t_comm t)
    (if decide (x ∈ t_logged t) then t_logged t else t_logged t ++ [x])
    (<[i := (x, false)]> (t_held t)) (t_active t).
Definition t_rel (i : nat) (t : tdisk) : tdisk :=
  mkT (t_view t) (t_comm t) (t_logged t) (delete i (t_held t)) (t_active t).
Definition t_begin (t : tdisk) : tdisk :=
  mkT (t_view t) (t_comm t) (t_logged t) (t_held t) true.
Definition t_commit (t : tdisk) : tdisk :=
  mkT (t_view t) (t_view t) [] (t_held t) false.

(** Locked sectors, and the sectors that occupy a buffer for good. *)
Definition t_locked (t : tdisk) : gmap nat Z := fst <$> t_held t.
Definition t_used (t : tdisk) : gset Z := used (list_to_set (t_logged t)) (t_locked t).
Definition unmodified (t : tdisk) (x : Z) : Prop := forall i, t_held t !! i <> Some (x, true).

Record linv (st : lst) (t : tdisk) : Prop := {
  li_geom : geom st;
  li_cs : cstate (l_bio st) (list_to_set (t_logged t)) (t_locked t);
  li_n : lh_n (l_lh (l_log st)) = Z.of_nat (length (t_logged t));
  li_ents : ents st (lh_n (l_lh (l_log st))) = t_logged t;
  li_nodup : NoDup (t_logged t);
  li_cap : (length (t_logged t) < NBUF)%nat;
  li_ok : ents_ok st;
  li_held_data : forall i x m, t_held t !! i = Some (x, m) -> ~ in_log st x;
  li_hdr : hdr_n (sect (l_bio st) (l_start (l_log st))) = 0;
  li_view : forall x, ~ in_log st x -> view (l_bio st) x = t_view t x;
  li_comm : forall x, ~ in_log st x -> sect (l_bio st) x = t_comm t x;
  li_slot : forall k, 0 <= k < lh_n (l_lh (l_log st)) -> unmodified t (ent st k) ->
    sect (l_bio st) (slot st k) = t_view t (ent st k);
  li_clean : forall x, ~ in_log st x -> x ∉ t_logged t -> unmodified t x ->
    t_view t x = t_comm t x;
  li_active : l_busy (l_log st) = if t_active t then 1 else 0;
  li_idle : t_active t = false -> t_logged t = [] }.

Section ops.
Implicit Types (st : lst) (t : tdisk) (x : Z) (i : nat).

Lemma locked_lookup t i x : t_locked t !! i = Some x <-> exists m, t_held t !! i = Some (x, m).
Proof.
  unfold t_locked. rewrite lookup_fmap, fmap_Some. split.
  - intros ([y m]&Hy&->). eauto.
  - intros [m Hm]. exists (x, m). done.
Qed.
Lemma locked_img t x : x ∈ (map_img (t_locked t) : gset Z) <-> exists i m, t_held t !! i = Some (x, m).
Proof. rewrite elem_of_map_img. by setoid_rewrite locked_lookup. Qed.

(** Operations that leave the log variable and the platter alone. *)
Lemma linv_frame st t b' t' :
  linv st t ->
  dsk b' = dsk (l_bio st) ->
  cstate b' (list_to_set (t_logged t)) (t_locked t') ->
  t_comm t' = t_comm t -> t_logged t' = t_logged t -> t_active t' = t_active t ->
  (forall i x m, t_held t' !! i = Some (x, m) -> ~ in_log st x) ->
  (forall x, ~ in_log st x -> view b' x = t_view t' x) ->
  (forall x, unmodified t' x -> unmodified t x /\ t_view t' x = t_view t x) ->
  linv (mkL b' (l_log st)) t'.
Proof.
  intros Hi Hd Hc Hcm Hlg Hac Hheld Hview Hun. destruct Hi as [Hg ???????? Hv Hcomm Hslot Hcl ? Hidle].
  assert (Hs : forall y, sect b' y = sect (l_bio st) y) by (intros; by apply sect_dsk).
  assert (Hn : nsect b' = nsect (l_bio st)) by (by apply nsect_dsk).
  split; simpl; rewrite ?Hlg, ?Hcm, ?Hac; try done.
  - by apply geom_disk.
  - by apply ents_ok_disk.
  - by rewrite Hs.
  - intros x Hx. rewrite Hs. by apply Hcomm.
  - intros k Hk Hu. change (ent (mkL b' (l_log st)) k) with (ent st k) in *.
    destruct (Hun _ Hu) as [Hu' ->]. rewrite Hs. by apply Hslot.
  - intros x Hx Hnl Hu. destruct (Hun _ Hu) as [Hu' ->]. by apply Hcl.
Qed.

Theorem tr_bread st t x :
  linv st t -> 0 <= x < nsect (l_bio st) -> ~ in_log st x ->
  x ∉ (map_img (t_locked t) : gset Z) ->
  x ∈ t_logged t \/ (size (t_used t) < NBUF)%nat ->
  wp (liftb (bread 1 x)) noerr (fun i st' =>
    l_log st' = l_log st /\ nsect (l_bio st') = nsect (l_bio st) /\
    t_held t !! i = None /\ linv st' (t_hold i x t)) st.
Proof.
  intros Hi Hx Hnl Hnh Hroom. apply wp_liftb.
  eapply wp_post; [eapply cs_bread; [apply Hi|done|done|]|].
  { destruct Hroom; [left; by apply elem_of_list_to_set|by right]. }
  intros i b' (Hc&Hhi&_&Hv&Hd). simpl. split_and!; [done|by apply nsect_dsk| |].
  - unfold t_locked in Hhi. rewrite lookup_fmap in Hhi. by destruct (t_held t !! i).
  - eapply (linv_frame st t b'); try done.
    + unfold t_locked, t_hold in *. simpl. by rewrite fmap_insert.
    + simpl. intros j y m. rewrite lookup_insert. case_decide.
      * congruence.
      * by eapply li_held_data.
    + intros y Hy. rewrite Hv. by apply (li_view _ _ Hi).
    + intros y Hu. split; [|done]. intros j Hj. apply (Hu j). simpl.
      rewrite lookup_insert_ne; [done|]. intros ->.
      unfold t_locked in Hhi. rewrite lookup_fmap, Hj in Hhi. done.
Qed.

Theorem tr_bdata st t i x m :
  linv st t -> t_held t !! i = Some (x, m) ->
  wp (liftb (bdata i)) noerr (fun d st' => st' = st /\ d = t_view t x) st.
Proof.
  intros Hi Hh. apply wp_liftb.
  destruct (cs_held_core _ _ _ i x (li_cs _ _ Hi)) as (Hlt&_&_&_&Hv).
  { apply locked_lookup. eauto. }
  apply bdata_spec; [apply Hi|done|]. split; [by destruct st|].
  rewrite <- Hv. apply Hi. by eapply li_held_data.
Qed.

Theorem tr_bstore st t i x m d :
  linv st t -> t_held t !! i = Some (x, m) -> is_block d ->
  wp (liftb (bstore i d)) noerr (fun _ st' =>
    l_log st' = l_log st /\ nsect (l_bio st') = nsect (l_bio st) /\
    linv st' (t_store i x d t)) st.
Proof.
  intros Hi Hh Hd. apply wp_liftb.
  eapply wp_post; [eapply cs_bstore; [apply Hi|apply locked_lookup; eauto|done]|].
  intros [] b' (Hc&Hk&Hv). simpl. split_and!; [done|by apply nsect_dsk|].
  eapply (linv_frame st t b'); try done.
  - replace (t_locked (t_store i x d t)) with (t_locked t); [done|].
    unfold t_locked, t_store. simpl. rewrite fmap_insert. symmetry. apply insert_id.
    by rewrite lookup_fmap, Hh.
  - simpl. intros j y m'. rewrite lookup_insert. case_decide.
    + intros [= <- _]. by eapply li_held_data.
    + by eapply li_held_data.
  - intros y Hy. rewrite Hv. simpl. case_decide; [subst; by rewrite fn_lookup_insert|].
    rewrite fn_lookup_insert_ne by done. by apply (li_view _ _ Hi).
  - intros y Hu. assert (y <> x) as Hyx.
    { intros ->. apply (Hu i). simpl. apply lookup_insert_eq. }
    split; [|simpl; by rewrite fn_lookup_insert_ne].
    intros j Hj. apply (Hu j). simpl. rewrite lookup_insert. case_decide; [|done].
    subst. congruence.
Qed.

(** A sector is locked through one buffer only. *)
Lemma held_uniq st t i j x m m' :
  linv st t -> t_held t !! i = Some (x, m) -> t_held t !! j = Some (x, m') -> i = j /\ m = m'.
Proof.
  intros Hi H1 H2. assert (i = j) as ->; [|split; congruence].
  pose proof (li_cs _ _ Hi) as Hc.
  destruct (cs_held _ _ _ Hc i x) as (?&?&_); [apply locked_lookup; eauto|].
  destruct (cs_held _ _ _ Hc j x) as (?&?&_); [apply locked_lookup; eauto|].
  by eapply (wf_uniq _ (cs_wf _ _ _ Hc)).
Qed.

Theorem tr_brelse st t i x :
  linv st t -> t_held t !! i = Some (x, false) ->
  wp (liftb (brelse i)) noerr (fun _ st' =>
    l_log st' = l_log st /\ nsect (l_bio st') = nsect (l_bio st) /\
    linv st' (t_rel i t)) st.
Proof.
  intros Hi Hh. apply wp_liftb.
  assert (Hnl : ~ in_log st x) by (by eapply li_held_data).
  eapply wp_post; [eapply (cs_brelse _ _ _ i x); [apply Hi|apply locked_lookup; eauto|]|].
  { destruct (decide (x ∈ t_logged t)); [left; by apply elem_of_list_to_set|right].
    rewrite (li_view _ _ Hi), (li_comm _ _ Hi) by done. apply (li_clean _ _ Hi); [done..|].
    intros j Hj. by destruct (held_uniq _ _ _ _ _ _ _ Hi Hh Hj). }
  intros [] b' (Hc&Hk&Hv). simpl. split_and!; [done|by apply nsect_dsk|].
  eapply (linv_frame st t b'); try done.
  - unfold t_locked, t_rel in *. simpl. by rewrite fmap_delete.
  - simpl. intros j y m. rewrite lookup_delete. case_decide; [done|]. by eapply li_held_data.
  - intros y Hy. rewrite Hv. by apply (li_view _ _ Hi).
  - intros y Huy. split; [|done]. intros j Hj. apply (Huy j). simpl.
    rewrite lookup_delete_ne; [done|]. intros ->. congruence.
Qed.

Lemma log_index_spec n a sec (i0 : Z) :
  0 <= i0 ->
  let r := log_index n a sec i0 in
  i0 <= r <= i0 + Z.of_nat n /\ (forall k, i0 <= k < r -> u32 (a !!! Z.to_nat k) <> sec) /\
  (r < i0 + Z.of_nat n -> u32 (a !!! Z.to_nat r) = sec).
Proof.
  revert i0. induction n as [|n IH]; intros i0 Hi0; simpl; [split_and!; lia|].
  destruct (Z.eqb_spec (u32 (a !!! Z.to_nat i0)) sec) as [He|Hne]; [split_and!; (done || lia)|].
  destruct (IH (i0 + 1)) as (Hr&Hno&Hyes); [lia|]. split_and!; [lia..| |].
  - intros k Hk. destruct (decide (k = i0)) as [->|]; [done|]. apply Hno. lia.
  - intros. apply Hyes. lia.
Qed.

(** Where log_write puts sector [x]. *)
Lemma log_slot st t x :
  linv st t -> 0 <= x ->
  let n := lh_n (l_lh (l_log st)) in
  let i : Z := log_index (iters n) (lh_sector (l_lh (l_log st))) x 0 in
  (x ∈ t_logged t /\ 0 <= i < n /\ ent st i = x) \/ ((x ∉ t_logged t) /\ i = n).
Proof.
  intros Hi Hx n i. destruct (log_index_spec (iters n) (lh_sector (l_lh (l_log st))) x 0) as (Hr&Hno&Hyes); [lia|].
  fold i in Hr, Hno, Hyes. pose proof (li_ok _ _ Hi) as He. pose proof (li_geom _ _ Hi) as Hg.
  assert (Hn : Z.of_nat (iters n) = n) by (unfold iters, n; pose proof (proj1 He); lia).
  rewrite Hn in *. rewrite <- (li_ents _ _ Hi). fold n.
  assert (Hu : forall k, 0 <= k < n -> u32 (lh_sector (l_lh (l_log st)) !!! Z.to_nat k) = ent st k)
    by (intros k Hk; by eapply slot_fresh).
  destruct (decide (i < n)) as [Hlt|Hge].
  - left. assert (ent st i = x) as He' by (rewrite <- Hu by lia; apply Hyes; lia).
    split_and!; [|lia..|done]. apply elem_of_ents. exists i. split; [lia|done].
  - right. split; [|lia]. intros (k&Hk&->)%elem_of_ents.
    apply (Hno k); [lia|]. by apply Hu.
Qed.

Lemma ents_set_sector st k (i v : Z) :
  0 <= k -> (k <= i \/ v = ent st i) -> 0 <= i < Z.of_nat (length (lh_sector (l_lh (l_log st)))) ->
  forall b n, ents (mkL b (set_n n (set_sectors (<[Z.to_nat i := v]> (lh_sector (l_lh (l_log st)))) (l_log st)))) k
  = ents st k.
Proof.
  intros Hk Hv Hi b n. unfold ents. apply list_fmap_ext. intros j y Hj.
  apply lookup_seqZ in Hj as [-> Hj]. rewrite Z.add_0_l. unfold ent. simpl.
  destruct (decide (i = Z.of_nat j)) as [->|Hne].
  - destruct Hv as [Hv| ->]; [lia|]. rewrite Nat2Z.id in *.
    rewrite list_lookup_total_insert_eq by lia. unfold ent. by rewrite Nat2Z.id.
  - rewrite list_lookup_total_insert_ne by lia. done.
Qed.

(** Copying the buffer [i] of sector [x] to sector [lx] of the disk. *)
Lemma copy_to_slot {A} (k : K lst A) Q b D H i x lx (l : log) :
  cstate b D H -> H !! i = Some x -> 0 <= lx < nsect b -> lx ∉ used D H ->
  (size (used D H) < NBUF)%nat ->
  (forall b', cstate b' D H -> dsk b' = run_writes (dsk b) [(lx, view b x)] ->
    (forall y, view b' y = if decide (y = lx) then view b x else view b y) ->
    wp k noerr Q (mkL b' l)) ->
  wp (lbuf <- liftb (bread 1 lx);;
      d <- liftb (bdata i);;
      liftb (bstore lbuf d);;
      liftb (bwrite lbuf);;
      liftb (brelse lbuf);;
      k) noerr Q (mkL b l).
Proof.
  intros Hc Hi Hlx Hnu Hsz Hk. unfold used in Hnu.
  bio_call cs_bread; [exact Hc|done|set_solver|by right|].
  intros j b1 (Hc1&Hj&_&Hv1&Hk1). cbn [l_log l_bio] in *.
  assert (Hij : j <> i) by (intros ->; congruence).
  assert (Hi1 : <[j := lx]> H !! i = Some x) by (by rewrite lookup_insert_ne).
  assert (Hj1 : <[j := lx]> H !! j = Some lx) by apply lookup_insert_eq.
  destruct (cs_held_core _ _ _ _ _ Hc1 Hi1) as (Hilt&Hih&_&_&Hvi).
  apply wp_bind, wp_liftb, bdata_spec; [apply Hc1|done|]. cbn [l_log l_bio].
  rewrite <- Hvi, Hv1.
  assert (Hblk : is_block (view b x)).
  { rewrite <- Hv1. apply view_block; [apply Hc1|]. by apply (wf_range _ (cs_wf _ _ _ Hc1) i). }
  bio_call cs_bstore; [exact Hc1|exact Hj1|done|].
  intros [] b2 (Hc2&Hk2&Hv2). cbn [l_log l_bio] in *.
  bio_call cs_bwrite; [exact Hc2|exact Hj1|].
  intros [] b3 (Hc3&Hk3&Hv3). cbn [l_log l_bio] in *.
  rewrite Hv2, decide_True, Hk2, Hk1 in Hk3 by done.
  replace (D ∖ {[lx]}) with D in Hc3 by set_solver.
  bio_call cs_brelse; [exact Hc3|exact Hj1|right|].
  { simpl. rewrite Hv3, Hv2, decide_True by done. unfold sect. rewrite Hk3. simpl.
    by rewrite sector_of_insert, decide_True. }
  intros [] b4 (Hc4&Hk4&Hv4). cbn [l_log l_bio] in *.
  rewrite delete_insert_eq, delete_id in Hc4 by done.
  apply Hk; [done|by rewrite Hk4, Hk3|].
  intros y. rewrite Hv4, Hv3, Hv2. case_decide; [done|]. by rewrite Hv1.
Qed.

(** [log_write] adds the sector to the transaction and writes its contents
    to a slot of the log; nothing else on the disk changes. *)
Definition with_entry st (i x n : Z) (b : bio) : lst :=
  mkL b (set_n n (set_sectors (<[Z.to_nat i := x]> (lh_sector (l_lh (l_log st)))) (l_log st))).

(** Sector [x] goes to entry [i]: an old one of its own, or a new one. *)
Definition placed st t (i x : Z) : Prop :=
  let n := lh_n (l_lh (l_log st)) in
  (x ∈ t_logged t /\ 0 <= i < n /\ ent st i = x) \/ ((x ∉ t_logged t) /\ i = n).
Definition new_n st (i : Z) : Z :=
  let n := lh_n (l_lh (l_log st)) in if i =? n then n + 1 else n.

Lemma placed_bound st t (i x : Z) :
  linv st t -> placed st t i x -> lh_n (l_lh (l_log st)) < LOGSIZE ->
  0 <= i <= lh_n (l_lh (l_log st)) /\ i < Z.of_nat (length (lh_sector (l_lh (l_log st)))).
Proof.
  intros Hi Hp HnL. pose proof (g_sectors _ (li_geom _ _ Hi)). pose proof (proj1 (li_ok _ _ Hi)).
  unfold placed, LOGSIZE in *. lia.
Qed.

Lemma with_entry_ent st t (i x k : Z) n b :
  linv st t -> placed st t i x -> lh_n (l_lh (l_log st)) < LOGSIZE -> 0 <= k ->
  ent (with_entry st i x n b) k = if decide (k = i) then x else ent st k.
Proof.
  intros Hi Hp HnL Hk. destruct (placed_bound _ _ _ _ Hi Hp HnL).
  unfold ent, with_entry. simpl. case_decide.
  - subst. apply list_lookup_total_insert_eq. lia.
  - apply list_lookup_total_insert_ne. lia.
Qed.

Lemma with_entry_ents st t (i x : Z) bi b :
  linv st t -> placed st t i x -> lh_n (l_lh (l_log st)) < LOGSIZE ->
  ents (with_entry st i x (new_n st i) b) (new_n st i) = t_logged (t_logw bi x t) /\
  new_n st i = Z.of_nat (length (t_logged (t_logw bi x t))) /\ i < new_n st i.
Proof.
  intros Hi Hp HnL. pose proof (placed_bound _ _ _ _ Hi Hp HnL) as [Hir Hil].
  pose proof (li_ents _ _ Hi) as Hents. pose proof (li_n _ _ Hi) as Hn.
  unfold new_n. destruct Hp as [(Hx&Hir'&Hex)|[Hx Hin']].
  - rewrite (proj2 (Z.eqb_neq _ _)) by lia. simpl. rewrite decide_True by done.
    unfold with_entry. rewrite ents_set_sector by (done || (right; congruence) || lia).
    split_and!; (done || lia).
  - rewrite (proj2 (Z.eqb_eq _ _)) by lia. simpl. rewrite decide_False by done.
    rewrite length_app. simpl. split_and!; [|lia..].
    unfold ents. rewrite seqZ_snoc, map_app by lia. f_equal.
    + change (map _ _) with (ents (with_entry st i x (lh_n (l_lh (l_log st)) + 1) b)
        (lh_n (l_lh (l_log st)))).
      unfold with_entry. rewrite ents_set_sector by (done || (left; lia) || lia). done.
    + simpl. f_equal. erewrite with_entry_ent, decide_True by (done || lia || by right). done.
Qed.

Lemma logged_set bi x t :
  list_to_set (t_logged (t_logw bi x t)) = (list_to_set (t_logged t) ∪ {[x]} : gset Z).
Proof. simpl. case_decide; [set_solver|]. rewrite list_to_set_app_L. set_solver. Qed.
Lemma logged_nodup bi x t : NoDup (t_logged t) -> NoDup (t_logged (t_logw bi x t)).
Proof.
  intros Hnd. simpl. case_decide; [done|]. apply NoDup_app. split_and!; [done|set_solver|].
  apply NoDup_singleton.
Qed.
Lemma logged_cap bi x m t :
  NoDup (t_logged t) -> t_held t !! bi = Some (x, m) -> (size (t_used t) < NBUF)%nat ->
  (length (t_logged (t_logw bi x t)) < NBUF)%nat.
Proof.
  intros Hnd Hh Hsz. eapply Nat.le_lt_trans; [|exact Hsz].
  rewrite <- (size_list_to_set (C := gset Z)) by (by apply logged_nodup).
  rewrite logged_set. apply subseteq_size. unfold t_used, used.
  assert (x ∈ (map_img (t_locked t) : gset Z)) by (apply locked_img; eauto). set_solver.
Qed.

Lemma linv_logged st t b' bi (i x : Z) m :
  linv st t -> t_held t !! bi = Some (x, m) -> t_active t = true ->
  lh_n (l_lh (l_log st)) < LOGSIZE -> lh_n (l_lh (l_log st)) + 1 < l_size (l_log st) ->
  (size (t_used t) < NBUF)%nat -> placed st t i x ->
  cstate b' (list_to_set (t_logged t) ∪ {[x]}) (t_locked t) ->
  dsk b' = run_writes (dsk (l_bio st)) [(slot st i, t_view t x)] ->
  (forall y, ~ in_log st y -> view b' y = view (l_bio st) y) ->
  linv (with_entry st i x (new_n st i) b') (t_logw bi x t).
Proof.
  intros Hi Hh Hact HnL Hns Hsz Hp Hc Hd Hv.
  pose proof (li_geom _ _ Hi) as Hg. pose proof (li_ok _ _ Hi) as He.
  destruct (placed_bound _ _ _ _ Hi Hp HnL) as [Hin _].
  destruct (with_entry_ents st t i x bi b' Hi Hp HnL) as (Hents&Hnn&Hinn).
  assert (Hnx : ~ in_log st x) by (by eapply li_held_data).
  assert (Hxr : 0 <= x < nsect (l_bio st)).
  { eapply (wf_range _ (cs_wf _ _ _ (li_cs _ _ Hi)) bi); eapply (cs_held _ _ _ (li_cs _ _ Hi) bi x);
      apply locked_lookup; eauto. }
  assert (Hns' : nsect b' = nsect (l_bio st)) by (unfold nsect; by rewrite Hd, length_run_writes).
  assert (Hslotr : 0 <= slot st i < nsect (l_bio st)) by (destruct Hg; unfold slot; lia).
  assert (Hs : forall y, sect b' y = if decide (y = slot st i) then t_view t x else sect (l_bio st) y).
  { intros y. unfold sect at 1. rewrite Hd. by apply sector_of_insert. }
  assert (Hent : forall k, 0 <= k -> ent (with_entry st i x (new_n st i) b') k =
    if decide (k = i) then x else ent st k) by (intros; by eapply with_entry_ent).
  assert (Hnew : new_n st i <= lh_n (l_lh (l_log st)) + 1) by (unfold new_n; case_match; lia).
  assert (Hold : forall k, 0 <= k < new_n st i -> k <> i -> k < lh_n (l_lh (l_log st)))
    by (intros k Hk Hki; unfold new_n in *; destruct (Z.eqb_spec i (lh_n (l_lh (l_log st)))); lia).
  assert (Hun : forall y, unmodified (t_logw bi x t) y -> y <> x -> unmodified t y).
  { intros y Hu Hyx j Hj. apply (Hu j). simpl. rewrite lookup_insert_ne; [done|]. congruence. }
  split.
  - destruct Hg. split; cbn [l_bio l_log with_entry l_dev l_start l_size set_n set_sectors l_lh lh_sector];
      rewrite ?Hns', ?length_insert; assumption.
  - rewrite logged_set. cbn [l_bio with_entry].
    replace (t_locked (t_logw bi x t)) with (t_locked t); [done|].
    unfold t_locked, t_logw. simpl. rewrite fmap_insert. symmetry. apply insert_id.
    by rewrite lookup_fmap, Hh.
  - done.
  - done.
  - apply logged_nodup, Hi.
  - eapply logged_cap; [apply Hi|done..].
  - split; [|split].
    + cbn [with_entry l_log set_n l_lh lh_n]. lia.
    + cbn [with_entry l_log set_n l_lh lh_n l_size set_sectors]. lia.
    + intros k Hk. cbn [with_entry l_log set_n l_lh lh_n l_bio] in Hk. rewrite Hent by lia.
      cbn [with_entry l_bio]. rewrite Hns'. case_decide; [done|]. apply He. split; [lia|by apply Hold].
  - intros j y m'. simpl. rewrite lookup_insert. case_decide; [by intros [= <- _]|].
    intros Hj. exact (li_held_data _ _ Hi j y m' Hj).
  - cbn [with_entry l_bio l_log set_n set_sectors l_start]. rewrite Hs, decide_False; [apply Hi|].
    unfold slot. lia.
  - intros y Hy. cbn [with_entry l_bio]. rewrite Hv by done. by apply (li_view _ _ Hi).
  - intros y Hy. cbn [with_entry l_bio]. rewrite Hs, decide_False; [by apply (li_comm _ _ Hi)|].
    intros ->. apply Hy. unfold in_log, slot. simpl. lia.
  - intros k Hk Hu. assert (Hk' : 0 <= k < new_n st i) by exact Hk. clear Hk.
    rewrite Hent in Hu by lia. rewrite Hent by lia. cbn [with_entry l_bio].
    change (slot (mkL b' _) k) with (slot st k). rewrite Hs. cbn [t_logw t_view].
    destruct (decide (k = i)) as [->|Hki]; [by rewrite decide_True|].
    rewrite decide_False by (unfold slot; simpl; lia). apply (li_slot _ _ Hi); [split; [lia|by apply Hold]|].
    apply Hun; [done|]. intros Heq. apply Hki.
    eapply (ent_inj (with_entry st i x (new_n st i) b')); [rewrite Hents; apply logged_nodup, Hi|lia..|].
    rewrite (Hent k), (Hent i) by lia. rewrite (decide_False (P := k = i)) by done.
    by rewrite (decide_True (P := i = i)).
  - intros y Hy Hnl Hu. simpl. assert (Hyl : (y ∉ t_logged t) /\ y <> x).
    { assert (y ∉ (list_to_set (t_logged (t_logw bi x t)) : gset Z)) as Hn'
        by (by rewrite elem_of_list_to_set).
      rewrite logged_set in Hn'. set_solver. }
    apply (li_clean _ _ Hi); [done|apply Hyl|]. apply Hun; [done|apply Hyl].
  - apply Hi.
  - simpl. congruence.
Qed.

Lemma tr_log_write st t bi x m :
  linv st t -> t_held t !! bi = Some (x, m) -> t_active t = true ->
  lh_n (l_lh (l_log st)) < LOGSIZE -> lh_n (l_lh (l_log st)) + 1 < l_size (l_log st) ->
  (size (t_used t) < NBUF)%nat ->
  wp (log_write bi) noerr (fun _ st' =>
    l_size (l_log st') = l_size (l_log st) /\ l_start (l_log st') = l_start (l_log st) /\
    nsect (l_bio st') = nsect (l_bio st) /\ linv st' (t_logw bi x t) /\
    exists k, in_log st k /\ k <> l_start (l_log st) /\
      dsk (l_bio st') = run_writes (dsk (l_bio st)) [(k, t_view t x)]) st.
Proof.
  intros Hi Hh Hact HnL Hns Hsz.
  pose proof (li_geom _ _ Hi) as Hg. pose proof (li_cs _ _ Hi) as Hc.
  assert (Hlk : t_locked t !! bi = Some x) by (apply locked_lookup; eauto).
  destruct (cs_held_core _ _ _ _ _ Hc Hlk) as (Hblt&[Hbd Hbs]&_&_&Hbv).
  pose proof (wf_len _ (cs_wf _ _ _ Hc)) as Hlen.
  assert (Hxr : 0 <= x < nsect (l_bio st)).
  { eapply (wf_range _ (cs_wf _ _ _ Hc) bi); by apply (cs_held _ _ _ Hc bi x). }
  assert (Hnx : ~ in_log st x) by (by eapply li_held_data).
  unfold log_write. apply wp_bind, wp_gets. cbv zeta.
  rewrite (proj2 (Z.leb_gt _ _)), (proj2 (Z.leb_gt _ _)) by lia. simpl orb. cbv iota.
  rewrite (li_active _ _ Hi), Hact. change (1 =? 0) with false. cbv iota.
  apply wp_bind, wp_liftb, wp_getb; [lia|]. rewrite Hbs, Hbd.
  replace (s32 x) with x by (symmetry; apply s32_small; destruct Hg; lia).
  pose proof (log_slot st t x Hi (proj1 Hxr)) as Hp. cbv zeta in Hp.
  set (i := log_index _ _ x 0) in *. change (placed st t i x) in Hp.
  destruct (placed_bound _ _ _ _ Hi Hp HnL) as [Hin Hil].
  assert (Hslot : in_log st (slot st i)) by (destruct Hg; unfold in_log, slot; lia).
  replace (u32 (l_start (l_log st) + i + 1)) with (slot st i)
    by (rewrite u32_small; [done|destruct Hg; lia]).
  apply wp_bind, wp_aset; [lia|]. apply wp_bind, wp_modify. cbn [l_bio l_log].
  assert (Hnd : forall y, in_log st y -> y ∉ used (list_to_set (t_logged t)) (t_locked t)).
  { intros y Hy. unfold used. rewrite elem_of_union, elem_of_list_to_set, locked_img.
    intros [Hin'|(j&m'&Hj)].
    - rewrite <- (li_ents _ _ Hi) in Hin'. apply elem_of_ents in Hin' as (k&Hk&->).
      by apply (proj2 (proj2 (li_ok _ _ Hi)) k Hk).
    - by apply (li_held_data _ _ Hi j y m'). }
  eapply (copy_to_slot _ _ (l_bio st)); [exact Hc|exact Hlk|destruct Hg; unfold slot; lia|by apply Hnd|exact Hsz|].
  intros b1 Hc1 Hk1 Hv1. rewrite (li_view _ _ Hi) in Hk1 by done.
  apply wp_bind.
  apply (wp_post _ _ (fun _ s => s = with_entry st i x (new_n st i) b1)).
  { unfold new_n, when. destruct (i =? lh_n (l_lh (l_log st))); [apply wp_modify|apply wp_ret]; done. }
  intros [] s ->.
  pose proof (wf_len _ (cs_wf _ _ _ Hc1)) as Hlen1.
  apply wp_bind, wp_liftb, wp_getb; [cbn [l_bio with_entry]; lia|].
  apply wp_liftb. cbn [l_bio l_log with_entry].
  eapply wp_post; [eapply cs_setdirty; [exact Hc1|exact Hlk]|].
  intros [] b2 (Hc2&Hk2&Hv2). cbn [l_bio l_log]. fold (with_entry st i x (new_n st i) b2).
  rewrite Hk1 in Hk2. split_and!; [done..| | |].
  - unfold nsect. cbn [l_bio with_entry]. by rewrite Hk2, length_run_writes.
  - eapply linv_logged; [done..|]. intros y Hy. rewrite Hv2, Hv1, decide_False; [done|].
    by intros ->.
  - exists (slot st i). split_and!; [done|unfold slot; lia|done].
Qed.

(** ** begin_trans and commit_trans *)
Lemma linv_busy st t (a : bool) :
  linv st t -> (a = false -> t_logged t = []) ->
  linv (mkL (l_bio st) (set_busy (if a then 1 else 0) (l_log st)))
    (mkT (t_view t) (t_comm t) (t_logged t) (t_held t) a).
Proof. intros [[]] Ha. split; [split|..]; done. Qed.

Lemma cs_woken b D H w : cstate b D H -> cstate (mkBio (bcache b) (dsk b) w) D H.
Proof. intros [[]]. split; [split|..]; done. Qed.
Lemma linv_woken st t w :
  linv st t -> linv (mkL (mkBio (bcache (l_bio st)) (dsk (l_bio st)) w) (l_log st)) t.
Proof.
  intros Hi. eapply linv_frame; try done.
  - apply cs_woken, Hi.
  - apply Hi.
  - apply (li_view _ _ Hi).
Qed.

Lemma tr_begin st t :
  linv st t ->
  (t_active t = true -> begin_trans st = Fail (Sleep ChLog)) /\
  (t_active t = false -> wp begin_trans noerr (fun _ st' =>
    linv st' (t_begin t) /\ l_bio st' = l_bio st /\ l_log st' = set_busy 1 (l_log st)) st).
Proof.
  intros Hi. unfold begin_trans, bind, getl, gets, wp, updl, modify. rewrite (li_active _ _ Hi).
  split; intros ->; [done|]. change (negb (0 =? 0)) with false. cbv iota.
  split_and!; [|done..]. by apply (linv_busy st t true).
Qed.

(** What the slots of the log hold is what the transaction wrote. *)
Lemma inst_view st t f x :
  linv st t -> t_held t = ∅ -> ~ in_log st x ->
  (x ∉ t_logged t -> f x = t_view t x) ->
  upd_all f (inst st (lh_n (l_lh (l_log st)))) x = t_view t x.
Proof.
  intros Hi Hh Hx Hf. set (n := lh_n (l_lh (l_log st))).
  assert (Hun : forall y, unmodified t y) by (intros y j; by rewrite Hh).
  destruct (decide (x ∈ t_logged t)) as [Hin|Hnin].
  - rewrite <- (li_ents _ _ Hi) in Hin. apply elem_of_ents in Hin as (k&Hk&->). fold n in Hk.
    etransitivity; [apply (upd_all_NoDup f (inst st n) (ent st k, sect (l_bio st) (slot st k)))|].
    + rewrite inst_fst. unfold n. rewrite (li_ents _ _ Hi). apply Hi.
    + apply list_elem_of_fmap. exists k. split; [done|]. apply elem_of_seqZ. lia.
    + by apply (li_slot _ _ Hi).
  - rewrite upd_all_notin; [by apply Hf|]. rewrite inst_fst. unfold n. by rewrite (li_ents _ _ Hi).
Qed.

Lemma clean_idle st t x :
  linv st t -> t_held t = ∅ -> ~ in_log st x -> x ∉ t_logged t -> t_comm t x = t_view t x.
Proof. intros Hi Hh Hx Hn. symmetry. apply (li_clean _ _ Hi); [done..|]. intros j. by rewrite Hh. Qed.

(** The writes of a commit, none when nothing was logged. *)
Definition tr_writes st : list sector_write :=
  if 0 <? lh_n (l_lh (l_log st)) then commit_writes st else [].

Lemma set_n_id (l : log) (n : Z) : lh_n (l_lh l) = n -> set_n n l = l.
Proof. destruct l as [????[]]. by intros <-. Qed.

(** The state after the body of a commit. *)
Lemma linv_committed st t b' :
  linv st t -> t_held t = ∅ -> 0 < lh_n (l_lh (l_log st)) ->
  cstate b' ∅ ∅ -> dsk b' = run_writes (dsk (l_bio st)) (commit_writes st) ->
  (forall y, y <> l_start (l_log st) ->
    view b' y = upd_all (view (l_bio st)) (inst st (lh_n (l_lh (l_log st)))) y) ->
  linv (mkL b' (set_n 0 (l_log st))) (mkT (t_view t) (t_view t) [] ∅ (t_active t)).
Proof.
  intros Hi Hh Hn Hc Hd Hv. pose proof (li_geom _ _ Hi) as Hg. pose proof (li_ok _ _ Hi) as He.
  assert (Hns : nsect b' = nsect (l_bio st)) by (unfold nsect; by rewrite Hd, length_run_writes).
  assert (Hst : in_log st (l_start (l_log st))) by (destruct Hg; unfold in_log; lia).
  assert (Hs : forall y, sect b' y = upd_all (sect (l_bio st)) (commit_writes st) y).
  { intros y. unfold sect at 1. rewrite Hd. apply sector_after. by apply commit_writes_bounds. }
  destruct (head_of_facts st Hg He (cs_wf _ _ _ (li_cs _ _ Hi))) as (Hhb&_&_).
  assert (Hsh : sect b' (l_start (l_log st)) = hdr_put 0 (lh_sector (l_lh (l_log st))) 0
    (head_of st (lh_n (l_lh (l_log st))))).
  { rewrite Hs. unfold commit_writes. rewrite app_comm_cons, upd_all_snoc. apply fn_lookup_insert. }
  assert (Hsx : forall x, ~ in_log st x -> sect b' x = t_view t x).
  { intros x Hx. assert (Hxs : x <> l_start (l_log st)) by (by intros ->).
    rewrite Hs. unfold commit_writes. rewrite app_comm_cons, upd_all_snoc.
    rewrite fn_lookup_insert_ne by done. unfold upd_all. cbn [foldl].
    fold (upd_all (<[(l_start (l_log st), head_of st (lh_n (l_lh (l_log st)))).1 :=
      (l_start (l_log st), head_of st (lh_n (l_lh (l_log st)))).2]> (sect (l_bio st)))
      (inst st (lh_n (l_lh (l_log st)))) x).
    apply inst_view; [done..|]. intros Hnl. rewrite fn_lookup_insert_ne by done.
    rewrite (li_comm _ _ Hi) by done. by eapply clean_idle. }
  split; cbn [l_bio l_log t_logged t_held t_view t_comm t_active]; try done.
  - by apply (geom_disk (mkL (l_bio st) (set_n 0 (l_log st)))); [destruct Hg; split|].
  - apply NoDup_nil_2.
  - simpl. unfold NBUF. lia.
  - split; [simpl; unfold LOGSIZE; lia|]. split; [simpl; destruct Hg; lia|]. simpl. lia.
  - simpl. rewrite Hsh. apply (hdr_put_facts 0); [done|lia..].
  - intros x Hx. assert (Hxs : x <> l_start (l_log st)) by (by intros ->).
    rewrite Hv by done. apply inst_view; [done..|]. intros _. by apply (li_view _ _ Hi).
  - simpl. lia.
  - apply Hi.
Qed.

Lemma tr_commit st t :
  linv st t -> t_held t = ∅ ->
  wp commit_trans noerr (fun _ st' =>
    linv st' (t_commit t) /\ l_log st' = set_busy 0 (set_n 0 (l_log st)) /\
    nsect (l_bio st') = nsect (l_bio st) /\
    dsk (l_bio st') = run_writes (dsk (l_bio st)) (tr_writes st)) st.
Proof.
  intros Hi Hh. unfold commit_trans. apply wp_bind, wp_gets.
  apply wp_bind. set (n := lh_n (l_lh (l_log st))).
  apply (wp_post _ _ (fun _ s => linv s (mkT (t_view t) (t_view t) [] ∅ (t_active t)) /\
    l_log s = set_n 0 (l_log st) /\ dsk (l_bio s) = run_writes (dsk (l_bio st)) (tr_writes st))).
  - unfold tr_writes, when. fold n. destruct (Z.ltb_spec 0 n) as [Hn|Hn].
    + pose proof (li_ents _ _ Hi) as Hents. pose proof (li_cs _ _ Hi) as Hc.
      rewrite <- Hents in Hc. unfold t_locked in Hc. rewrite Hh, fmap_empty in Hc.
      eapply wp_post; [eapply (commit_body_spec st); [apply Hi..|exact Hc| |]|].
      * rewrite Hents. apply Hi.
      * rewrite (li_n _ _ Hi). apply inj_lt, Hi.
      * intros [] [b' l'] (Hl&Hc'&Hd&Hv). cbn [l_bio l_log] in *. subst l'.
        split_and!; [by apply linv_committed|done..].
    + apply wp_ret. pose proof (li_n _ _ Hi) as Hn'.
      assert (Hnil : t_logged t = []) by (destruct (t_logged t); [done|simpl in Hn'; lia]).
      assert (n = 0) as Hn0 by (unfold n; rewrite Hn', Hnil; done).
      split_and!; [|symmetry; by apply set_n_id|done].
      replace (mkT _ _ _ _ _) with (mkT (t_view t) (t_view t) (t_logged t) (t_held t) (t_active t))
        by (by rewrite Hnil, Hh).
      destruct Hi. split; try done.
      intros x Hx. rewrite li_comm0 by done. symmetry. apply li_clean0; [done|rewrite Hnil; set_solver|].
      intros j. by rewrite Hh.
  - intros [] s (His&Hl&Hd). apply wp_bind, wp_modify. apply wp_liftb. apply wp_modify.
    cbn [l_bio l_log]. split_and!.
    + apply (linv_woken (mkL (l_bio s) (set_busy 0 (l_log s)))). unfold t_commit. rewrite Hh.
      by apply (linv_busy s _ false His).
    + by rewrite Hl.
    + unfold nsect. simpl. by rewrite Hd, length_run_writes.
    + done.
Qed.

(** Crash safety: what recovery makes of the platter. *)
Lemma linv_crash st t x :
  linv st t -> ~ in_log st x ->
  recovered (l_start (l_log st)) (d_now (dsk (l_bio st))) x = t_comm t x.
Proof.
  intros Hi Hx. rewrite recovered_empty by apply Hi.
  change (sect (l_bio st) x = t_comm t x). by apply Hi.
Qed.

Lemma commit_crash st t j :
  linv st t -> t_held t = ∅ ->
  let img := d_now (run_writes (dsk (l_bio st)) (take j (tr_writes st))) in
  log_ok (l_start (l_log st)) (l_size (l_log st)) img /\ forall x, ~ in_log st x ->
  recovered (l_start (l_log st)) img x = if decide (j = O) then t_comm t x else t_view t x.
Proof.
  intros Hi Hh. unfold tr_writes. destruct (Z.ltb_spec 0 (lh_n (l_lh (l_log st)))) as [Hn|Hn].
  - destruct (commit_images st j) as [Hok Hrec]; [apply Hi..|]. split; [exact Hok|]. intros x Hx.
    rewrite Hrec by done. case_decide; [by apply Hi|]. apply inst_view; [done..|]. intros Hnl.
    rewrite (li_comm _ _ Hi) by done. by eapply clean_idle.
  - rewrite take_nil. pose proof (li_n _ _ Hi) as Hn'.
    assert (Hnil : t_logged t = []) by (destruct (t_logged t); [done|simpl in Hn'; lia]).
    split.
    + apply log_ok_empty; [destruct (li_geom _ _ Hi); lia|apply Hi].
    + intros x Hx. transitivity (t_comm t x); [by apply linv_crash|]. case_decide; [done|].
      eapply clean_idle; [done..|]. rewrite Hnil. set_solver.
Qed.
End ops.
