(* ===== verification/Recover.v ===== *)
(** Recovery: read_head, recover_from_log and initlog of log.c, from a boot
    on a disk image whose log region can be replayed ([log_ok]).

    The result is the transactional disk of [Trans] whose contents are
    [recovered]; together with [commit_crash] this closes the crash story:
    a crash anywhere during a transaction, a commit or a recovery, followed
    by a boot, gives the old or the new contents of the disk. *)
From S2P Require Import Prelude Params Bio BioSpec Log LogSpec Trans.

Section recovery.
Implicit Types (st : lst) (x : Z).

Definition header_at st : list Z := sect (l_bio st) (l_start (l_log st)).

Lemma read_head_spec st :
  geom st -> cstate (l_bio st) ∅ ∅ ->
  log_ok (l_start (l_log st)) (l_size (l_log st)) (d_now (dsk (l_bio st))) ->
  wp read_head noerr (fun _ st' =>
    dsk (l_bio st') = dsk (l_bio st) /\ cstate (l_bio st') ∅ ∅ /\
    (forall y, view (l_bio st') y = view (l_bio st) y) /\
    exists a, l_log st' = set_sectors a (set_n (hdr_n (header_at st)) (l_log st)) /\
      Z.of_nat (length a) = LOGSIZE /\
      forall k, 0 <= k < hdr_n (header_at st) -> a !!! Z.to_nat k = hdr_sector k (header_at st)) st.
Proof.
  intros Hg Hc (Hn&_&_). fold (sect (l_bio st) (l_start (l_log st))) (header_at st) in Hn.
  unfold read_head. apply wp_bind, wp_gets. rewrite (g_dev _ Hg). change (u32 1) with 1.
  rewrite u32_small by (destruct Hg; lia).
  bio_call cs_bread; [exact Hc|destruct Hg; lia|set_solver|right; rewrite used_empty, size_empty; unfold NBUF; lia|].
  intros i b1 (Hc1&_&_&Hv1&Hk1). rewrite insert_empty in Hc1.
  assert (Hi : ({[i := l_start (l_log st)]} : gmap nat Z) !! i = Some (l_start (l_log st)))
    by apply lookup_singleton_eq.
  destruct (cs_held_core _ _ _ _ _ Hc1 Hi) as (Hlt&_&_&_&Hbv).
  apply wp_bind, wp_liftb, bdata_spec; [apply Hc1|done|]. cbn [l_bio l_log].
  assert (Hclean : view b1 (l_start (l_log st)) = header_at st).
  { rewrite Hv1. eapply cs_clean; [exact Hc|]. rewrite used_empty. set_solver. }
  rewrite <- Hbv, Hclean. set (h := header_at st) in *.
  apply wp_bind, wp_modify. cbn [l_bio l_log]. apply wp_bind.
  set (I := fun (k : Z) (s : lst) => l_bio s = b1 /\ exists a,
      l_log s = set_sectors a (set_n (hdr_n h) (l_log st)) /\ Z.of_nat (length a) = LOGSIZE /\
      forall j, 0 <= j < k -> a !!! Z.to_nat j = hdr_sector j h).
  apply (wp_post _ _ (fun _ => I (0 + Z.of_nat (iters (hdr_n h))))).
  - apply (wp_for_range I); unfold I.
    + split; [done|]. exists (lh_sector (l_lh (l_log st))). split_and!; [done|apply Hg|lia].
    + intros k s Hk (Hb&a&Hl&Ha&Hj). apply wp_bind, wp_gets. rewrite Hl. simpl l_lh. simpl lh_sector.
      unfold iters in Hk.
      apply wp_bind, wp_aset; [lia|]. apply wp_modify. cbn [l_bio l_log]. split; [done|].
      exists (<[Z.to_nat k := hdr_sector k h]> a). rewrite Hl, length_insert. split_and!; [done..|].
      intros j Hj'. destruct (decide (j = k)) as [->|].
      * apply list_lookup_total_insert_eq. lia.
      * rewrite list_lookup_total_insert_ne by lia. apply Hj. lia.
    + intros s Hs. exact Hs.
  - intros [] [b l] (Hb&a&Hl&Ha&Hj). cbn [l_bio l_log] in *. subst b l. apply wp_liftb. cbn [l_bio l_log].
    eapply wp_post; [eapply cs_brelse; [exact Hc1|exact Hi|right]|].
    { rewrite Hclean. symmetry. by apply sect_dsk. }
    intros [] b2 (Hc2&Hk2&Hv2). cbn [l_bio l_log]. rewrite delete_singleton_eq in Hc2.
    split_and!; [congruence|done|intros y; by rewrite Hv2, Hv1|]. exists a. split_and!; [done..|].
    intros k Hk. apply Hj. unfold iters. lia.
Qed.

Lemma cs_quiet_view b x : cstate b ∅ ∅ -> view b x = sect b x.
Proof. intros Hc. eapply cs_clean; [exact Hc|]. rewrite used_empty. set_solver. Qed.

(** A quiet system: nothing logged, nothing locked. *)
Definition t_idle (f : Z -> list Z) : tdisk := mkT f f [] ∅ false.

Lemma linv_quiet st (f : Z -> list Z) :
  geom st -> cstate (l_bio st) ∅ ∅ -> lh_n (l_lh (l_log st)) = 0 -> l_busy (l_log st) = 0 ->
  hdr_n (header_at st) = 0 -> (forall x, ~ in_log st x -> sect (l_bio st) x = f x) ->
  linv st (t_idle f).
Proof.
  intros Hg Hc Hn Hb Hh Hf. split; simpl; rewrite ?Hn; try done.
  - apply NoDup_nil_2.
  - unfold NBUF. lia.
  - split; rewrite Hn; [unfold LOGSIZE; lia|]. split; [destruct Hg; lia|lia].
  - intros x Hx. rewrite cs_quiet_view by done. by apply Hf.
  - lia.
Qed.

Lemma replay_sect st b x :
  geom st -> ents_ok st -> on_disk st -> ~ in_log st x ->
  dsk b = run_writes (dsk (l_bio st)) (replay_writes st) ->
  sect b x = recovered (l_start (l_log st)) (d_now (dsk (l_bio st))) x.
Proof.
  intros Hg He Hod Hx Hd. unfold sect. rewrite Hd, sector_after by (by apply replay_bounds).
  unfold replay_writes. rewrite upd_all_snoc. simpl. rewrite fn_lookup_insert_ne.
  - unfold recovered. by rewrite (on_disk_log st Hod).
  - intros Heq. apply Hx. destruct Hg. unfold in_log. lia.
Qed.

(** What is true of every image that occurs while [ws] is being written. *)
Definition images_recover st (ws : list sector_write) (f : Z -> list Z) : Prop :=
  forall j, let img := d_now (run_writes (dsk (l_bio st)) (take j ws)) in
  log_ok (l_start (l_log st)) (l_size (l_log st)) img /\
  forall x, ~ in_log st x -> recovered (l_start (l_log st)) img x = f x.

Lemma rest_empty st k : rest st ∅ k = ∅.
Proof. unfold rest. set_solver. Qed.

Lemma recover_spec st :
  geom st -> cstate (l_bio st) ∅ ∅ -> l_busy (l_log st) = 0 ->
  log_ok (l_start (l_log st)) (l_size (l_log st)) (d_now (dsk (l_bio st))) ->
  let f := recovered (l_start (l_log st)) (d_now (dsk (l_bio st))) in
  wp recover_from_log noerr (fun _ st' =>
    linv st' (t_idle f) /\ l_start (l_log st') = l_start (l_log st) /\
    l_size (l_log st') = l_size (l_log st) /\ nsect (l_bio st') = nsect (l_bio st) /\
    exists c, let ws := disk_log (l_start (l_log st)) (d_now (dsk (l_bio st))) ++ [(l_start (l_log st), c)] in
      is_block c /\ dsk (l_bio st') = run_writes (dsk (l_bio st)) ws /\ images_recover st ws f) st.
Proof.
  intros Hg Hc Hb Hok f. pose proof Hok as (Hn&Hns&Hks).
  fold (sect (l_bio st) (l_start (l_log st))) (header_at st) in Hn, Hns, Hks.
  unfold recover_from_log. apply wp_bind. eapply wp_post; [by apply read_head_spec|].
  intros [] [b l] (Hk1&Hc1&Hv1&a&Hl&Ha&Hak). cbn [l_bio l_log] in *.
  set (st1 := mkL b l). assert (Hns1 : nsect b = nsect (l_bio st)) by (by apply nsect_dsk).
  assert (Hg1 : geom st1).
  { destruct Hg. split; subst st1 l; cbn [l_bio l_log set_sectors set_n l_dev l_start l_size l_lh lh_sector];
      rewrite ?Hns1; done. }
  assert (Hs1 : l_start l = l_start (l_log st)) by (by subst l).
  assert (He1 : ents_ok st1).
  { subst l. split; [done|]. split; [done|]. intros k Hk. unfold ent, in_log. simpl in Hk |- *.
    rewrite Hak, Hns1 by done. by apply Hks. }
  assert (Hod1 : on_disk st1).
  { subst l. split; simpl; rewrite (sect_dsk _ _ _ Hk1); [done|]. intros k Hk. symmetry. by apply Hak. }
  eapply wp_post; [eapply (install_clear_spec st1 ∅)|]; [done..|by rewrite size_empty; unfold NBUF; lia|set_solver| |].
  { intros k _. right. rewrite rest_empty, size_empty. unfold NBUF. lia. }
  intros [] st' (Hl'&Hc'&Hk'&Hv'). simpl l_bio in Hk'. simpl l_log in Hl'.
  assert (Hrc : forall x, ~ in_log st1 x -> sect (l_bio st') x = f x).
  { intros x Hx. rewrite (replay_sect st1 _ x) by done. unfold f. simpl. by rewrite Hs1, Hk1. }
  assert (Hblk : is_block (header_at st)) by (apply sect_block; [apply Hc|destruct Hg; lia]).
  assert (Hns' : nsect (l_bio st') = nsect (l_bio st))
    by (unfold nsect; rewrite Hk', length_run_writes; exact Hns1).
  assert (Hh1 : sect b (l_start l) = header_at st)
    by (rewrite Hs1; unfold header_at; by apply sect_dsk).
  split_and!; [|by rewrite Hl', Hl..|done|].
  - rewrite rest_empty in Hc'. apply linv_quiet; [| |by rewrite Hl'|by rewrite Hl', Hl| |].
    + destruct Hg. split; rewrite ?Hl', ?Hl; cbn [l_bio l_log set_sectors set_n l_dev l_start l_size l_lh lh_sector];
      rewrite ?Hns'; done.
    + done.
    + unfold header_at, sect. rewrite Hk', Hl'. simpl l_start.
      rewrite (sector_after b) by (by apply (replay_bounds st1)).
      unfold replay_writes. rewrite upd_all_snoc. unfold clear_write. simpl.
      rewrite fn_lookup_insert, Hh1. apply (hdr_put_facts 0); [done|lia..].
    + intros x Hx. apply Hrc. unfold in_log in *. by rewrite Hl' in Hx.
  - exists (clear_write st1).2. cbv zeta. split; [apply (hdr_put_facts 0); [|lia..]; by simpl; rewrite Hh1|].
    replace (_ ++ _) with (replay_writes st1).
    2:{ unfold replay_writes. rewrite <- on_disk_log by done. unfold clear_write. simpl. by rewrite Hs1, Hk1. }
    split; [by rewrite Hk', Hk1|]. intros j.
    destruct (replay_images st1 j Hg1 He1) as [Hokj Hrj]; [simpl; by rewrite Hh1|done|].
    simpl in Hokj, Hrj. rewrite Hk1 in Hokj, Hrj. rewrite Hl in Hokj, Hrj.
    split; [exact Hokj|]. intros x Hx. apply Hrj. unfold in_log, st1 in *. simpl. by rewrite Hl.
Qed.

(** ** initlog *)

(** A bootable image: its super block places the log inside the disk. *)
Definition sb_start (img : list (list Z)) : Z :=
  let sb := dec_sb (sector_of img 1) in sb_size sb - sb_nlog sb.
Definition sb_logsize (img : list (list Z)) : Z := sb_nlog (dec_sb (sector_of img 1)).
Definition image_ok (img : list (list Z)) : Prop :=
  Forall is_block img /\ 2 <= Z.of_nat (length img) < 2 ^ 31 /\
  0 <= sb_start img /\ 2 <= sb_logsize img /\ sb_start img + sb_logsize img <= Z.of_nat (length img).

Lemma cs_fresh b :
  bio_wf b -> (forall i, (i < NBUF)%nat -> b_flags (B b i) = 0) -> cstate b ∅ ∅.
Proof.
  intros Hwf Hf. split; try done.
  - intros i Hi. unfold busy. by rewrite Hf.
  - intros i x Hi Hh. unfold dirty. rewrite Hf by done. split; [done|set_solver].
Qed.

Lemma readsb_spec b (l : log) :
  cstate b ∅ ∅ -> 2 <= nsect b ->
  wp (liftb (readsb ROOTDEV)) noerr (fun sb st' =>
    sb = dec_sb (sect b 1) /\ l_log st' = l /\ dsk (l_bio st') = dsk b /\
    cstate (l_bio st') ∅ ∅) (mkL b l).
Proof.
  intros Hc Hns. apply wp_liftb. unfold readsb. cbn [l_bio l_log]. apply wp_bind.
  eapply wp_post; [eapply (cs_bread b ∅ ∅ 1); [done|lia|set_solver|right]|].
  { rewrite used_empty, size_empty. unfold NBUF. lia. }
  intros i b1 (Hc1&_&Hd1&Hv1&Hk1). rewrite insert_empty in Hc1.
  assert (Hi : ({[i := 1]} : gmap nat Z) !! i = Some 1) by apply lookup_singleton_eq.
  destruct (cs_held_core _ _ _ _ _ Hc1 Hi) as (Hlt&_).
  apply wp_bind, bdata_spec; [apply Hc1|done|]. rewrite Hd1, cs_quiet_view by done.
  apply wp_bind. eapply wp_post; [eapply (cs_brelse b1 _ _ i 1); [done..|right]|].
  { rewrite Hv1, cs_quiet_view by done. symmetry. by apply sect_dsk. }
  intros [] b2 (Hc2&Hk2&_). rewrite delete_singleton_eq in Hc2. apply wp_ret.
  split_and!; [done..|cbn [l_bio]; congruence|done].
Qed.

Definition bootlog : K lst unit := liftb binit;; initlog.

Lemma initlog_spec img :
  image_ok img -> log_ok (sb_start img) (sb_logsize img) img ->
  let f := recovered (sb_start img) img in
  wp bootlog noerr (fun _ st' =>
    linv st' (t_idle f) /\ l_start (l_log st') = sb_start img /\
    l_size (l_log st') = sb_logsize img /\ nsect (l_bio st') = Z.of_nat (length img) /\
    exists c, let ws := disk_log (sb_start img) img ++ [(sb_start img, c)] in
      is_block c /\ dsk (l_bio st') = run_writes (mkDisk img []) ws /\
      forall j, let img' := d_now (run_writes (mkDisk img []) (take j ws)) in
        log_ok (sb_start img) (sb_logsize img) img' /\
        forall x, ~ (sb_start img <= x < sb_start img + sb_logsize img) ->
          recovered (sb_start img) img' x = f x) (mkL (boot img) log0).
Proof.
  intros (Hblk&Hlen&Hst&Hsz&Hend) Hok f. unfold bootlog. apply wp_bind, wp_liftb. cbn [l_bio l_log].
  eapply wp_post; [by apply binit_spec|]. intros [] b (Hwf&Hd&_&Hfl).
  unfold initlog. change (BSIZE <=? sizeof_logheader) with false. cbv iota.
  assert (Hn : nsect b = Z.of_nat (length img)) by (unfold nsect; by rewrite Hd).
  apply wp_bind. eapply wp_post; [apply readsb_spec; [by apply cs_fresh|lia]|].
  intros sb [b1 l1] (->&Hl&Hd1&Hc1). cbn [l_bio l_log] in *. subst l1.
  assert (Hsec : sect b 1 = sector_of img 1) by (unfold sect; by rewrite Hd).
  rewrite Hsec. fold (sb_start img) (sb_logsize img).
  rewrite u32_small, !s32_small by lia.
  apply wp_bind, wp_modify. cbn [l_bio l_log].
  assert (Hn1 : nsect b1 = Z.of_nat (length img)) by (rewrite <- Hn; by apply nsect_dsk).
  rewrite Hd in Hd1.
  eapply wp_post; [apply recover_spec|].
  - split; cbn [l_bio l_log set_geometry l_dev l_start l_size l_lh log0]; (done || lia).
  - done.
  - done.
  - simpl. rewrite Hd1. exact Hok.
  - cbn [l_bio l_log set_geometry l_start l_size]. rewrite Hd1. cbn [d_now].
    intros [] st' (Hi&Hs&Hz&Hns'&c&Hcb&Hws&Him). split_and!; [done..|lia|]. exists c. cbv zeta in *.
    split; [done|]. split; [done|]. intros j. specialize (Him j). cbn [l_bio l_log set_geometry l_start l_size] in Him.
    rewrite Hd1 in Him. exact Him.
Qed.
End recovery.
