(* ===== verification/BlockIf.v ===== *)
(** The block layer as the file system sees it: the five routines of bio.c
    and log.c that fs.c calls, and what they promise.

    [BlockLayer S] is the interface; fs.c is modelled and verified against
    it ([Fs], [FsSpec]), and the instance [lst_blocks] below discharges it
    with the buffer cache and the log.  [t_write] is the net effect of the
    idiom bread, modify, log_write, brelse. *)
From S2P Require Import Prelude Params Bio BioSpec Log LogSpec Trans.

(** Where the sectors of the file system are. *)
Record geo := mkGeo { g_nsect : Z; g_lstart : Z; g_lsize : Z }.
Definition data_sector (g : geo) (x : Z) : Prop :=
  0 <= x < g_nsect g /\ ~ (g_lstart g <= x < g_lstart g + g_lsize g).
#[export] Instance data_sector_dec g x : Decision (data_sector g x).
Proof. unfold data_sector. apply _. Defined.
(** How many distinct sectors a transaction may log. *)
Definition log_cap (g : geo) : Z := Z.min LOGSIZE (g_lsize g - 1).

(** Room to log [w] more sectors while locking up to [h] more buffers. *)
Definition room (g : geo) (t : tdisk) (w h : nat) : Prop :=
  Z.of_nat (length (t_logged t) + w) <= log_cap g /\
  (length (t_logged t) + w + size (t_held t) + h <= NBUF)%nat.

Class BlockLayer (S : Type) := {
  bl_bread : Z -> Z -> K S nat;
  bl_bdata : nat -> K S (list Z);
  bl_bstore : nat -> list Z -> K S unit;
  bl_log_write : nat -> K S unit;
  bl_brelse : nat -> K S unit;
  (** the state represents the abstract disk *)
  bl_rep : geo -> S -> tdisk -> Prop;
  bl_bread_ok g s t x w h :
    bl_rep g s t -> data_sector g x -> (forall i m, t_held t !! i <> Some (x, m)) ->
    room g t w (Datatypes.S h) ->
    wp (bl_bread 1 x) noerr (fun i s' => t_held t !! i = None /\ bl_rep g s' (t_hold i x t)) s;
  bl_bdata_ok g s t i x m :
    bl_rep g s t -> t_held t !! i = Some (x, m) ->
    wp (bl_bdata i) noerr (fun d s' => d = t_view t x /\ bl_rep g s' t) s;
  bl_bstore_ok g s t i x m d :
    bl_rep g s t -> t_held t !! i = Some (x, m) -> is_block d ->
    wp (bl_bstore i d) noerr (fun _ s' => bl_rep g s' (t_store i x d t)) s;
  bl_log_write_ok g s t i x m w h :
    bl_rep g s t -> t_held t !! i = Some (x, m) -> t_active t = true ->
    room g t (Datatypes.S w) h ->
    wp (bl_log_write i) noerr (fun _ s' => bl_rep g s' (t_logw i x t)) s;
  bl_brelse_ok g s t i x :
    bl_rep g s t -> t_held t !! i = Some (x, false) ->
    wp (bl_brelse i) noerr (fun _ s' => bl_rep g s' (t_rel i t)) s;
  (** readable sectors are blocks *)
  bl_block g s t x : bl_rep g s t -> data_sector g x -> is_block (t_view t x) }.

(** ** The buffer cache and the log implement it *)
Definition lst_rep (g : geo) (st : lst) (t : tdisk) : Prop :=
  linv st t /\ nsect (l_bio st) = g_nsect g /\
  l_start (l_log st) = g_lstart g /\ l_size (l_log st) = g_lsize g.

Lemma size_union_le (X Y : gset Z) : (size (X ∪ Y) <= size X + size Y)%nat.
Proof.
  rewrite size_union_alt. apply Nat.add_le_mono_l, subseteq_size. set_solver.
Qed.
Lemma size_list_le (l : list Z) : (size (list_to_set l : gset Z) <= length l)%nat.
Proof.
  induction l as [|x l IH]; [done|]. simpl.
  pose proof (size_union_le {[x]} (list_to_set l)). rewrite size_singleton in *. lia.
Qed.
Lemma size_img_le (m : gmap nat Z) : (size (map_img m : gset Z) <= size m)%nat.
Proof.
  induction m as [|i x m Hm _ IH] using map_first_key_ind.
  - by rewrite map_img_empty_L, !size_empty.
  - rewrite map_size_insert_None by done.
    etrans; [apply subseteq_size, map_img_insert_subseteq|].
    pose proof (size_union_le {[x]} (map_img m)). rewrite size_singleton in *. lia.
Qed.
Lemma size_used_le t : (size (t_used t) <= length (t_logged t) + size (t_held t))%nat.
Proof.
  unfold t_used, used. etrans; [apply size_union_le|]. pose proof (size_list_le (t_logged t)).
  pose proof (size_img_le (t_locked t)). unfold t_locked in *. rewrite map_size_fmap in *. lia.
Qed.

Section instance.
Implicit Types (g : geo) (st : lst) (t : tdisk) (x : Z).

Lemma data_not_log g st x :
  l_start (l_log st) = g_lstart g -> l_size (l_log st) = g_lsize g ->
  nsect (l_bio st) = g_nsect g -> data_sector g x ->
  0 <= x < nsect (l_bio st) /\ ~ in_log st x.
Proof. intros Hs Hz Hn [? ?]. unfold in_log. by rewrite Hs, Hz, Hn. Qed.

Lemma rep_bread g st t x w h :
  lst_rep g st t -> data_sector g x -> (forall i m, t_held t !! i <> Some (x, m)) ->
  room g t w (S h) ->
  wp (liftb (bread 1 x)) noerr (fun i st' => t_held t !! i = None /\ lst_rep g st' (t_hold i x t)) st.
Proof.
  intros (Hi&Hn&Hs&Hz) Hx Hl [_ Hr]. destruct (data_not_log g st x Hs Hz Hn Hx).
  eapply wp_post; [apply (tr_bread st t x); [done..| |]|].
  - rewrite locked_img. intros (i&m&Hm). by apply (Hl i m).
  - right. pose proof (size_used_le t). lia.
  - intros i st' (Hl'&Hn'&Hh&Hi'). split; [done|]. unfold lst_rep. rewrite Hl', Hn'. done.
Qed.

Lemma rep_log_write g st t i x m w h :
  lst_rep g st t -> t_held t !! i = Some (x, m) -> t_active t = true -> room g t (S w) h ->
  wp (log_write i) noerr (fun _ st' => lst_rep g st' (t_logw i x t)) st.
Proof.
  intros (Hi&Hn&Hs&Hz) Hh Ha [Hc Hr]. unfold log_cap in Hc. pose proof (li_n _ _ Hi) as Hln.
  eapply wp_post; [apply (tr_log_write st t i x m); [done..|lia|lia|]|].
  - pose proof (size_used_le t). lia.
  - intros [] st' (Hz'&Hs'&Hn'&Hi'&_). unfold lst_rep. rewrite Hs', Hz', Hn'. done.
Qed.

Lemma rep_bdata g st t i x m :
  lst_rep g st t -> t_held t !! i = Some (x, m) ->
  wp (liftb (bdata i)) noerr (fun d st' => d = t_view t x /\ lst_rep g st' t) st.
Proof.
  intros (Hi&Hg) Hh. eapply wp_post; [by eapply tr_bdata|].
  intros d st' [-> ->]. by split; [|split].
Qed.
Lemma rep_bstore g st t i x m d :
  lst_rep g st t -> t_held t !! i = Some (x, m) -> is_block d ->
  wp (liftb (bstore i d)) noerr (fun _ st' => lst_rep g st' (t_store i x d t)) st.
Proof.
  intros (Hi&Hn&Hs&Hz) Hh Hd. eapply wp_post; [by eapply tr_bstore|].
  intros [] st' (Hl&Hn'&Hi'). unfold lst_rep. by rewrite Hl, Hn'.
Qed.
Lemma rep_brelse g st t i x :
  lst_rep g st t -> t_held t !! i = Some (x, false) ->
  wp (liftb (brelse i)) noerr (fun _ st' => lst_rep g st' (t_rel i t)) st.
Proof.
  intros (Hi&Hn&Hs&Hz) Hh. eapply wp_post; [by eapply tr_brelse|].
  intros [] st' (Hl&Hn'&Hi'). unfold lst_rep. by rewrite Hl, Hn'.
Qed.
Lemma rep_block g st t x : lst_rep g st t -> data_sector g x -> is_block (t_view t x).
Proof.
  intros (Hi&Hn&Hs&Hz) Hx. destruct (data_not_log g st x Hs Hz Hn Hx) as [Hr Hl].
  rewrite <- (li_view _ _ Hi) by done. apply view_block; [|done]. apply (cs_wf _ _ _ (li_cs _ _ Hi)).
Qed.
End instance.

#[export] Instance lst_blocks : BlockLayer lst := {|
  bl_bread dev x := liftb (bread dev x);
  bl_bdata i := liftb (bdata i);
  bl_bstore i d := liftb (bstore i d);
  bl_log_write := log_write;
  bl_brelse i := liftb (brelse i);
  bl_rep := lst_rep;
  bl_bread_ok := rep_bread;
  bl_bdata_ok := rep_bdata;
  bl_bstore_ok := rep_bstore;
  bl_log_write_ok := rep_log_write;
  bl_brelse_ok := rep_brelse;
  bl_block := rep_block |}.


(** ** The idiom bread, modify, log_write, brelse *)
Definition t_write (x : Z) (d : list Z) (t : tdisk) : tdisk :=
  mkT (<[x := d]> (t_view t)) (t_comm t)
    (if decide (x ∈ t_logged t) then t_logged t else t_logged t ++ [x])
    (t_held t) (t_active t).

Section idiom.
Implicit Types (g : geo) (t : tdisk) (x : Z) (i : nat).

Lemma t_rel_hold t i x : t_held t !! i = None -> t_rel i (t_hold i x t) = t.
Proof. intros Hi. destruct t. unfold t_rel, t_hold. simpl in *. by rewrite delete_insert_id. Qed.
Lemma t_rel_write t i x d :
  t_held t !! i = None -> t_rel i (t_logw i x (t_store i x d (t_hold i x t))) = t_write x d t.
Proof.
  intros Hi. unfold t_rel, t_logw, t_store, t_hold, t_write. simpl.
  by rewrite !insert_insert_eq, delete_insert_id.
Qed.
Lemma held_hold t i x : t_held (t_hold i x t) !! i = Some (x, false).
Proof. apply lookup_insert_eq. Qed.

Lemma room_hold g t i x w h :
  t_held t !! i = None -> room g t w (S h) -> room g (t_hold i x t) w h.
Proof. intros Hi [? ?]. split; simpl; [done|]. rewrite map_size_insert_None by done. lia. Qed.
Lemma room_store g t i x m d w h :
  t_held t !! i = Some (x, m) -> room g t w h -> room g (t_store i x d t) w h.
Proof. intros Hi [? ?]. split; simpl; [done|]. rewrite map_size_insert_Some; [done|by eexists]. Qed.
Lemma room_write g t x d w h : room g t (S w) h -> room g (t_write x d t) w h.
Proof. intros [? ?]. split; simpl; case_decide; rewrite ?length_app; simpl; lia. Qed.
Lemma room_le g t w h w' h' : room g t w h -> (w' <= w)%nat -> (h' <= h)%nat -> room g t w' h'.
Proof. intros [? ?] ??. split; lia. Qed.
End idiom.
