(* ===== verification/Storage.v ===== *)
(** The theorems of the storage stack: buffer cache, write-ahead log and
    recovery, stated on the code of [Bio] and [Log] through the abstract
    disk of [Trans].  The lemmas are in [BioSpec], [LogSpec], [Trans] and
    [Recover]. *)
From S2P Require Import Prelude Params Bio BioSpec Log LogSpec Trans Recover BlockIf.

(** ** Booting from the image a crash leaves *)

(** The super block of the disk describes the log the kernel is using. *)
Definition sb_agrees (st : lst) : Prop :=
  sb_start (d_now (dsk (l_bio st))) = l_start (l_log st) /\
  sb_logsize (d_now (dsk (l_bio st))) = l_size (l_log st) /\ ~ in_log st 1.
#[export] Instance sb_agrees_dec st : Decision (sb_agrees st).
Proof. unfold sb_agrees, in_log. apply _. Defined.

Section crash.
Implicit Types (st : lst) (t : tdisk) (ws : list sector_write).

(** What a boot from [img] makes of the sectors outside the log. *)
Definition boots_to st (img : list (list Z)) (f : Z -> list Z) : Prop :=
  wp bootlog noerr (fun _ st' => forall x, ~ in_log st x -> view (l_bio st') x = f x)
    (mkL (boot img) log0).

Lemma boots_to_ext st img f g :
  boots_to st img f -> (forall x, ~ in_log st x -> f x = g x) -> boots_to st img g.
Proof.
  unfold boots_to. intros Hf Hfg. eapply wp_post; [exact Hf|].
  intros [] st' Hv x Hx. rewrite <- Hfg by done. by apply Hv.
Qed.

Lemma blocks_run_writes (d : disk) ws :
  Forall is_block (d_now d) -> Forall (fun w => is_block w.2) ws ->
  Forall is_block (d_now (run_writes d ws)).
Proof.
  intros Hd Hws. revert d Hd. induction Hws as [|[x c] ws Hc _ IH]; intros d Hd; [done|].
  apply IH. simpl. by apply Forall_insert.
Qed.

Lemma tr_writes_blocks st t :
  linv st t -> Forall (fun w => is_block w.2 /\ 0 <= w.1 < nsect (l_bio st)) (tr_writes st).
Proof.
  intros Hi. pose proof (li_geom _ _ Hi) as Hg. pose proof (li_ok _ _ Hi) as He.
  pose proof (cs_wf _ _ _ (li_cs _ _ Hi)) as Hwf.
  destruct (head_of_facts st Hg He Hwf) as (Hhb&_&_). unfold tr_writes. case_match; [|constructor].
  unfold commit_writes. constructor; [split; [done|destruct Hg; simpl; lia]|].
  apply Forall_app. split.
  - apply Forall_forall. intros w (k&->&Hk%elem_of_seqZ)%list_elem_of_fmap. simpl.
    split; [|apply He; lia]. apply sect_block; [done|]. eapply slot_fresh; [done..|lia].
  - constructor; [|constructor]. split; [|destruct Hg; simpl; lia].
    apply (hdr_put_facts 0); [done|lia..].
Qed.

(** The super block survives any part of a commit. *)
Lemma tr_writes_sb st t j :
  linv st t -> 1 ∉ t_logged t -> ~ in_log st 1 ->
  sector_of (d_now (run_writes (dsk (l_bio st)) (take j (tr_writes st)))) 1 =
  sector_of (d_now (dsk (l_bio st))) 1.
Proof.
  intros Hi H1 Hl. rewrite sector_after.
  - apply upd_all_notin. intros Hin.
    pose proof (elem_of_take_fst _ _ _ Hin) as Hin'.
    unfold tr_writes in Hin'. case_match; [|set_solver]. unfold commit_writes in Hin'.
    assert (1 <> l_start (l_log st)).
    { intros Heq. apply Hl. destruct (li_geom _ _ Hi). unfold in_log. lia. }
    rewrite fmap_cons, fmap_app, inst_fst, (li_ents _ _ Hi) in Hin'. set_solver.
  - apply Forall_take. eapply Forall_impl; [by eapply tr_writes_blocks|]. intros w Hw; apply Hw.
Qed.

Lemma linv_blocks st t : linv st t -> Forall is_block (d_now (dsk (l_bio st))).
Proof. intros Hi. apply (wf_disk _ (cs_wf _ _ _ (li_cs _ _ Hi))). Qed.

Lemma boot_image st t img :
  linv st t -> sb_agrees st ->
  sector_of img 1 = sector_of (d_now (dsk (l_bio st))) 1 ->
  Forall is_block img -> Z.of_nat (length img) = nsect (l_bio st) ->
  image_ok img /\ sb_start img = l_start (l_log st) /\ sb_logsize img = l_size (l_log st).
Proof.
  intros Hi (Hs&Hz&_) H1 Hb Hn. unfold image_ok, sb_start, sb_logsize in *. rewrite H1, Hs, Hz.
  destruct (li_geom _ _ Hi). split_and!; (done || lia).
Qed.

(** Booting from any image with the right super block whose log can be
    replayed gives what the log recovers to. *)
Lemma boot_recovers st t img :
  linv st t -> sb_agrees st ->
  sector_of img 1 = sector_of (d_now (dsk (l_bio st))) 1 ->
  Forall is_block img -> Z.of_nat (length img) = nsect (l_bio st) ->
  log_ok (l_start (l_log st)) (l_size (l_log st)) img ->
  boots_to st img (recovered (l_start (l_log st)) img).
Proof.
  intros Hi Hsb H1 Hb Hn Hok. destruct (boot_image st t img Hi Hsb H1 Hb Hn) as (Hio&Hs&Hz).
  unfold boots_to. rewrite <- Hs, <- Hz in Hok. eapply wp_post; [by apply initlog_spec|].
  intros [] st' (Hi'&Hs'&Hz'&_&_) x Hx. rewrite <- Hs. apply Hi'.
  unfold in_log in *. rewrite Hs', Hz', Hs, Hz. exact Hx.
Qed.
Lemma crash_outside st t :
  linv st t -> sb_agrees st -> boots_to st (d_now (dsk (l_bio st))) (t_comm t).
Proof.
  intros Hi Hsb. eapply boots_to_ext; [eapply (boot_recovers st t); [done..| | |]|].
  - by eapply linv_blocks.
  - done.
  - apply log_ok_empty; [destruct (li_geom _ _ Hi); lia|apply Hi].
  - intros x Hx. by apply linv_crash.
Qed.
End crash.

(** C1. A commit is atomic.  [commit_trans] never fails; the sector
    writes it issues are some list [ws]; whatever number [j] of them has
    reached the platter when the machine stops, the next boot (binit,
    initlog) succeeds and every sector outside the log has its contents from
    before the transaction when j = 0, and the ones the transaction wrote
    otherwise.  After the call the new contents are the committed ones. *)
Theorem commit_atomic st t :
  linv st t -> t_held t = ∅ -> 1 ∉ t_logged t -> sb_agrees st ->
  wp commit_trans noerr (fun _ st' =>
    linv st' (t_commit t) /\ exists ws, dsk (l_bio st') = run_writes (dsk (l_bio st)) ws /\
    forall j, boots_to st (d_now (run_writes (dsk (l_bio st)) (take j ws)))
      (if decide (j = O) then t_comm t else t_view t)) st.
Proof.
  intros Hi Hh H1 Hsb. eapply wp_post; [by apply tr_commit|].
  intros [] st' (Hi'&_&_&Hd). split; [done|]. exists (tr_writes st). split; [done|]. intros j.
  destruct (commit_crash st t j Hi Hh) as [Hok Hrec].
  pose proof (tr_writes_blocks st t Hi) as Hwb.
  eapply boots_to_ext; [eapply (boot_recovers st t); [done..| | | |exact Hok]|].
  - apply (tr_writes_sb st t); [done..|]. apply Hsb.
  - apply blocks_run_writes; [by eapply linv_blocks|]. apply Forall_take.
    eapply Forall_impl; [exact Hwb|]. intros w Hw; apply Hw.
  - by rewrite length_run_writes.
  - intros x Hx. rewrite Hrec by done. by case_decide.
Qed.

(** C36. A crash at any moment outside a commit, in the middle of a
    transaction included: the next boot succeeds and every sector outside the
    log has its last committed contents. *)
Theorem crash_running st t :
  linv st t -> sb_agrees st -> boots_to st (d_now (dsk (l_bio st))) (t_comm t).
Proof. apply crash_outside. Qed.

(** Recovery survives crashes.  A boot from a usable image replays
    the log; if it is itself cut short after any number [j] of its sector
    writes, the next boot gives the same contents. *)
Theorem recovery_idempotent img :
  image_ok img -> log_ok (sb_start img) (sb_logsize img) img ->
  1 ∉ (disk_log (sb_start img) img).*1 ->
  ~ (sb_start img <= 1 < sb_start img + sb_logsize img) ->
  wp bootlog noerr (fun _ st' =>
    (forall x, ~ in_log st' x -> view (l_bio st') x = recovered (sb_start img) img x) /\
    exists ws, dsk (l_bio st') = run_writes (mkDisk img []) ws /\
    forall j, boots_to st' (d_now (run_writes (mkDisk img []) (take j ws)))
      (recovered (sb_start img) img)) (mkL (boot img) log0).
Proof.
  intros Hio Hok H1 Hl1. eapply wp_post; [by apply initlog_spec|].
  intros [] st' (Hi&Hs&Hz&Hn&c&Hcb&Hd&Him). split; [intros x Hx; by apply Hi|].
  set (ws := _ ++ _) in *. exists ws. split; [done|]. intros j.
  destruct (Him j) as [Hokj Hrec]. cbv zeta in Hokj, Hrec.
  assert (Hbnd : Forall (fun w => is_block w.2 /\ 0 <= w.1 < Z.of_nat (length img)) ws).
  { apply Forall_app. split; [|constructor; [|constructor]; destruct Hio; simpl; split; [done|lia]].
    destruct Hok as (_&Hlt&Hk). apply Forall_forall.
    intros w (k&->&Hk'%elem_of_seqZ)%list_elem_of_fmap. simpl. destruct Hio as (Hblk&Hlen&?&?&?).
    split; [|apply Hk; lia]. rewrite sector_of_nonneg by lia.
    eapply (proj1 (Forall_lookup _ _) Hblk). apply list_lookup_lookup_total_lt. lia. }
  assert (Hsb : forall k, sector_of (d_now (run_writes (mkDisk img []) (take k ws))) 1 = sector_of img 1).
  { intros k. rewrite sector_run_writes.
    - apply upd_all_notin. intros Hin%elem_of_take_fst. unfold ws in Hin.
      rewrite fmap_app, elem_of_app in Hin. destruct Hin as [Hin|Hin]; [done|].
      apply list_elem_of_singleton in Hin. simpl in Hin. apply Hl1. destruct Hio. lia.
    - apply Forall_take. eapply Forall_impl; [exact Hbnd|]. intros w Hw; apply Hw. }
  assert (Hfin : sector_of (d_now (dsk (l_bio st'))) 1 = sector_of img 1).
  { rewrite Hd. specialize (Hsb (length ws)). by rewrite firstn_all in Hsb. }
  eapply boots_to_ext; [eapply (boot_recovers st'); [done| | | | |by rewrite Hs, Hz]|].
  - unfold sb_agrees, in_log, sb_start, sb_logsize in *. rewrite Hfin, Hs, Hz. done.
  - by rewrite Hsb, Hfin.
  - apply blocks_run_writes; [apply Hio|]. apply Forall_take.
    eapply Forall_impl; [exact Hbnd|]. intros w Hw; apply Hw.
  - by rewrite length_run_writes, Hn.
  - intros x Hx. rewrite Hs. apply Hrec. unfold in_log in Hx. by rewrite Hs, Hz in Hx.
Qed.

(** ** The refinement, routine by routine *)
Inductive bop :=
  | OpBread (x : Z) | OpBdata (i : nat) | OpBstore (i : nat) (d : list Z)
  | OpLogWrite (i : nat) | OpBrelse (i : nat) | OpBegin | OpCommit.
Inductive bret := RUnit | RBuf (i : nat) | RData (d : list Z).

Definition run_op (o : bop) : K lst bret :=
  match o with
  | OpBread x => i <- liftb (bread 1 x);; ret (RBuf i)
  | OpBdata i => d <- liftb (bdata i);; ret (RData d)
  | OpBstore i d => liftb (bstore i d);; ret RUnit
  | OpLogWrite i => log_write i;; ret RUnit
  | OpBrelse i => liftb (brelse i);; ret RUnit
  | OpBegin => begin_trans;; ret RUnit
  | OpCommit => commit_trans;; ret RUnit
  end.

(** What the caller has to respect. *)
Definition enabled (g : geo) (t : tdisk) (o : bop) : Prop :=
  match o with
  | OpBread x => data_sector g x /\ (forall i m, t_held t !! i <> Some (x, m)) /\ room g t 0 1
  | OpBdata i => is_Some (t_held t !! i)
  | OpBstore i d => is_Some (t_held t !! i) /\ is_block d
  | OpLogWrite i => is_Some (t_held t !! i) /\ t_active t = true /\ room g t 1 0
  | OpBrelse i => exists x, t_held t !! i = Some (x, false)
  | OpBegin => t_active t = false
  | OpCommit => t_held t = ∅
  end.

(** The abstract transitions and their results. *)
Inductive tstep (t : tdisk) : bop -> bret -> tdisk -> Prop :=
  | ts_bread x i : t_held t !! i = None -> tstep t (OpBread x) (RBuf i) (t_hold i x t)
  | ts_bdata i x m : t_held t !! i = Some (x, m) -> tstep t (OpBdata i) (RData (t_view t x)) t
  | ts_bstore i x m d : t_held t !! i = Some (x, m) -> tstep t (OpBstore i d) RUnit (t_store i x d t)
  | ts_log_write i x m : t_held t !! i = Some (x, m) -> tstep t (OpLogWrite i) RUnit (t_logw i x t)
  | ts_brelse i : tstep t (OpBrelse i) RUnit (t_rel i t)
  | ts_begin : tstep t OpBegin RUnit (t_begin t)
  | ts_commit : tstep t OpCommit RUnit (t_commit t).

(** C2. The buffer cache and the log refine the transactional disk: from
    related states, every operation the caller is entitled to make returns
    (no panic, no sleep), with a result and a new state that the abstract
    disk also allows. *)
Theorem block_layer_refines g st t o :
  lst_rep g st t -> enabled g t o ->
  wp (run_op o) noerr (fun r st' => exists t', tstep t o r t' /\ lst_rep g st' t') st.
Proof.
  intros Hr He. destruct o as [x|i|i d|i|i| |]; simpl in He |- *; apply wp_bind.
  - destruct He as (Hx&Hl&Hroom). eapply wp_post; [by eapply (rep_bread g st t x)|].
    intros i st' [Hh Hr']. apply wp_ret. eexists. split; [by constructor|done].
  - destruct He as [[x m] He]. eapply wp_post; [by eapply (rep_bdata g st t)|].
    intros d st' [-> Hr']. apply wp_ret. eexists. split; [by econstructor|done].
  - destruct He as [[[x m] He] Hd]. eapply wp_post; [by eapply (rep_bstore g st t)|].
    intros [] st' Hr'. apply wp_ret. eexists. split; [by econstructor|done].
  - destruct He as ([[x m] He]&Ha&Hroom). eapply wp_post; [by eapply (rep_log_write g st t)|].
    intros [] st' Hr'. apply wp_ret. eexists. split; [by econstructor|done].
  - destruct He as [x He]. eapply wp_post; [by eapply (rep_brelse g st t)|].
    intros [] st' Hr'. apply wp_ret. eexists. split; [by econstructor|done].
  - destruct Hr as (Hi&Hn&Hs&Hz). eapply wp_post; [by apply (tr_begin st t)|].
    intros [] st' (Hi'&Hb&Hl). apply wp_ret. eexists. split; [constructor|].
    unfold lst_rep. by rewrite Hb, Hl.
  - destruct Hr as (Hi&Hn&Hs&Hz). eapply wp_post; [by apply (tr_commit st t)|].
    intros [] st' (Hi'&Hl&Hn'&_). apply wp_ret. eexists. split; [constructor|].
    unfold lst_rep. by rewrite Hn', Hl.
Qed.

(** ** A concrete disk *)

(** 24 sectors, the last six for the log. *)
Definition demo_sb : list Z := wr 4 12 6 (wr 4 8 8 (wr 4 4 10 (wr 4 0 24 zero_block))).
Definition demo_img : list (list Z) := zero_block :: demo_sb :: replicate 22 zero_block.
Definition demo_geo : geo := mkGeo 24 18 6.
Definition state_of {A} (r : result lst A) : lst :=
  match r with Ok _ s => s | Fail _ => mkL (boot []) log0 end.
Definition demo0 : lst := state_of (bootlog (mkL (boot demo_img) log0)).
Definition demo_t0 : tdisk := t_idle (recovered (sb_start demo_img) demo_img).
(** A transaction that writes sector 5. *)
Definition demo_data : list Z := wr 4 0 7 zero_block.
Definition write_trans (x : Z) (d : list Z) : K lst unit :=
  begin_trans;;
  i <- liftb (bread 1 x);;
  liftb (bstore i d);;
  log_write i;;
  liftb (brelse i).
Definition demo1 : lst := state_of (write_trans 5 demo_data demo0).
Definition demo_t1 : tdisk := t_write 5 demo_data (t_begin demo_t0).

Lemma wp_state_of {A} (m : K lst A) Q s : wp m noerr (fun _ => Q) s -> Q (state_of (m s)).
Proof. unfold wp. by destruct (m s). Qed.
Definition blockb (d : list Z) : bool :=
  bool_decide (length d = 512%nat) && forallb (fun b => (0 <=? b) && (b <? 256)) d.
Lemma block_vm (d : list Z) : blockb d = true -> is_block d.
Proof.
  intros [Hl Hb]%andb_prop. split; [by apply bool_decide_eq_true in Hl|].
  apply Forall_forall. intros b Hin. rewrite forallb_forall in Hb.
  specialize (Hb b (proj1 (list_elem_of_In _ _) Hin)). unfold is_byte. lia.
Qed.
Lemma blocks_vm (img : list (list Z)) : forallb blockb img = true -> Forall is_block img.
Proof.
  intros Hb. apply Forall_forall. intros d Hin. rewrite forallb_forall in Hb.
  by apply block_vm, Hb, list_elem_of_In.
Qed.
Lemma demo_image_ok : image_ok demo_img.
Proof.
  split; [|apply (bool_decide_unpack _); by vm_compute].
  apply blocks_vm. by vm_compute.
Qed.
Lemma demo0_rep : lst_rep demo_geo demo0 demo_t0.
Proof.
  apply (wp_state_of bootlog (fun s => lst_rep demo_geo s demo_t0)).
  eapply wp_post; [apply initlog_spec; [apply demo_image_ok|]|].
  - apply (bool_decide_unpack _). by vm_compute.
  - intros [] st' (Hi&Hs&Hz&Hn&_). split; [exact Hi|]. rewrite Hs, Hz, Hn. split_and!; by vm_compute.
Qed.
Lemma write_trans_rep g st t x d :
  lst_rep g st t -> t_active t = false -> t_held t = ∅ -> data_sector g x -> is_block d ->
  room g t 1 1 -> wp (write_trans x d) noerr (fun _ st' => lst_rep g st' (t_write x d (t_begin t))) st.
Proof.
  intros (Hi&Hn&Hs&Hz) Ha Hh Hx Hd Hroom. unfold write_trans.
  apply wp_bind. eapply wp_post; [by apply (tr_begin _ _ Hi)|]. intros [] st0 (Hi'&Hb&Hl).
  assert (Hr : lst_rep g st0 (t_begin t)) by (unfold lst_rep; rewrite Hb, Hl; done).
  apply wp_bind. eapply wp_post; [apply (rep_bread _ _ _ x 1 0 Hr); [done| |done]|].
  { intros i m. simpl. by rewrite Hh. }
  intros i st1 [Hhi Hr1]. apply wp_bind. eapply wp_post; [eapply (rep_bstore _ _ _ _ x false d Hr1); [apply held_hold|done]|].
  intros [] st2 Hr2. apply wp_bind. eapply wp_post; [eapply (rep_log_write _ _ _ i x true 0 0 Hr2)|].
  { apply lookup_insert_eq. }
  { done. }
  { eapply room_store; [apply held_hold|]. by apply room_hold. }
  intros [] st3 Hr3. eapply wp_post; [apply (rep_brelse _ _ _ i x Hr3); apply lookup_insert_eq|].
  intros [] st4 Hr4. by rewrite t_rel_write in Hr4.
Qed.
Lemma demo1_rep : lst_rep demo_geo demo1 demo_t1.
Proof.
  apply (wp_state_of (write_trans 5 demo_data) (fun s => lst_rep demo_geo s demo_t1)).
  apply write_trans_rep; [apply demo0_rep|done|done| | |].
  - apply (bool_decide_unpack _). by vm_compute.
  - by apply block_vm; vm_compute.
  - split; vm_compute; [discriminate|lia].
Qed.

Lemma commit_atomic_witness :
  wp commit_trans noerr (fun _ st' =>
    linv st' (t_commit demo_t1) /\ exists ws, dsk (l_bio st') = run_writes (dsk (l_bio demo1)) ws /\
    forall j, boots_to demo1 (d_now (run_writes (dsk (l_bio demo1)) (take j ws)))
      (if decide (j = O) then t_comm demo_t1 else t_view demo_t1)) demo1.
Proof.
  apply commit_atomic.
  - apply demo1_rep.
  - done.
  - apply (bool_decide_unpack _). by vm_compute.
  - apply (bool_decide_unpack _). by vm_compute.
Defined.
Lemma crash_running_witness : boots_to demo1 (d_now (dsk (l_bio demo1))) (t_comm demo_t1).
Proof. apply crash_running; [apply demo1_rep|]. apply (bool_decide_unpack _). by vm_compute. Defined.

Lemma block_layer_refines_witness :
  wp (run_op (OpBread 5)) noerr
    (fun r st' => exists t', tstep demo_t0 (OpBread 5) r t' /\ lst_rep demo_geo st' t') demo0.
Proof.
  apply block_layer_refines; [apply demo0_rep|]. split; [|split].
  - apply (bool_decide_unpack _). by vm_compute.
  - intros i m. change (t_held demo_t0) with (∅ : gmap nat (Z * bool)). by rewrite lookup_empty.
  - split; vm_compute; [discriminate|lia].
Defined.

(** The image of a crash right after the header of [demo1] was written. *)
Definition demo_crash : list (list Z) :=
  d_now (run_writes (dsk (l_bio demo1)) (take 1 (commit_writes demo1))).
Lemma recovery_idempotent_witness :
  hdr_n (sector_of demo_crash (sb_start demo_crash)) = 1 /\
  wp bootlog noerr (fun _ st' =>
    (forall x, ~ in_log st' x -> view (l_bio st') x = recovered (sb_start demo_crash) demo_crash x) /\
    exists ws, dsk (l_bio st') = run_writes (mkDisk demo_crash []) ws /\
    forall j, boots_to st' (d_now (run_writes (mkDisk demo_crash []) (take j ws)))
      (recovered (sb_start demo_crash) demo_crash)) (mkL (boot demo_crash) log0).
Proof.
  split; [by vm_compute|]. apply recovery_idempotent.
  - split; [|apply (bool_decide_unpack _); by vm_compute].
    apply blocks_vm. by vm_compute.
  - apply (bool_decide_unpack _). by vm_compute.
  - apply (bool_decide_unpack _). by vm_compute.
  - apply (bool_decide_unpack _). by vm_compute.
Defined.

(** ** The buffer cache on its own *)

(** Reading a block, on every branch: the buffer returned is locked,
    belongs to the sector and holds what the cache or else the disk has for
    it, and nothing else changes; the call sleeps only on the buffer of that
    very sector when it is locked, and panics only when the sector is not
    cached and no buffer is unlocked and clean. *)
Theorem bread_correct s x :
  bio_wf s -> 0 <= x < nsect s ->
  wp (bread 1 x) (fun e =>
      (exists i, (i < NBUF)%nat /\ holds x (B s i) /\ busy (B s i) = true /\ e = Sleep (ChBuf i)) \/
      (~ free_buf s /\ (forall i, (i < NBUF)%nat -> ~ holds x (B s i)) /\ e = Panic "bget: no buffers"))
    (bread_post s x) s.
Proof.
  intros Hwf Hx. apply bread_spec; [done..| |].
  - intros i Hi Hh Hb. left. by exists i.
  - intros Hno. destruct (decide (Exists (fun i => busy (B s i) = false /\ dirty (B s i) = false) (seq 0 NBUF)))
      as [Hf|Hf].
    + left. apply Exists_exists in Hf as (i&Hi%elem_of_seq&Hb). exists i. split; [lia|done].
    + right. right. split_and!; [|done..]. intros (i&Hi&Hb). apply Hf, Exists_exists. exists i.
      split; [apply elem_of_seq; lia|done].
Qed.

(** Writing and releasing a locked buffer: bwrite makes the sector on
    the platter equal to the buffer, in one write, and leaves every other
    sector alone; brelse then unlocks the buffer, wakes its waiters and makes
    it the most recently used one of the LRU list, the others in their order. *)
Theorem bwrite_brelse_correct s x i :
  bio_wf s -> (i < NBUF)%nat -> holds x (B s i) -> busy (B s i) = true ->
  wp (bwrite i) noerr (fun _ s1 =>
    bwrite_post s x i s1 /\ sect s1 x = b_data (B s i) /\
    wp (brelse i) noerr (fun _ s2 => brelse_post s1 x i s2 /\ busy (B s2 i) = false) s1) s.
Proof.
  intros Hwf Hi Hh Hb. eapply wp_post; [by eapply bwrite_spec|]. intros [] s1 Hp.
  assert (Hsx : sect s1 x = b_data (B s i)).
  { unfold sect. rewrite (bw_dsk _ _ _ _ Hp). simpl. rewrite sector_of_insert, decide_True; [done..|].
    by apply (wf_range _ Hwf i). }
  split_and!; [done..|]. eapply wp_post; [eapply (brelse_spec s1 x i); [apply Hp|done|apply Hp|apply Hp|]|].
  { intros _. by rewrite Hsx, (bw_data _ _ _ _ Hp). }
  intros [] s2 Hr. split; [done|]. pose proof (rl_core _ _ _ _ Hr) as Hc.
  unfold core in Hc. injection Hc as Hf _ _ _. unfold busy. rewrite Hf, has_fclr_flag by flagbit. done.
Qed.

Lemma demo0_wf : bio_wf (l_bio demo0).
Proof. apply (cs_wf _ _ _ (li_cs _ _ (proj1 demo0_rep))). Qed.
Lemma bread_correct_witness :
  wp (bread 1 5) (fun e =>
      (exists i, (i < NBUF)%nat /\ holds 5 (B (l_bio demo0) i) /\ busy (B (l_bio demo0) i) = true /\
        e = Sleep (ChBuf i)) \/
      (~ free_buf (l_bio demo0) /\ (forall i, (i < NBUF)%nat -> ~ holds 5 (B (l_bio demo0) i)) /\
        e = Panic "bget: no buffers"))
    (bread_post (l_bio demo0) 5) (l_bio demo0).
Proof.
  apply bread_correct; [apply demo0_wf|]. apply (bool_decide_unpack _). by vm_compute.
Defined.

(** Buffer [demo_buf] of [demo_held] is locked for sector 5. *)
Definition after_read (x : Z) (s : bio) : bio :=
  match bread 1 x s with Ok _ s' => s' | Fail _ => s end.
Definition buf_read (x : Z) (s : bio) : nat :=
  match bread 1 x s with Ok i _ => i | Fail _ => O end.
Lemma after_read_wf x s : bio_wf s -> 0 <= x < nsect s -> bio_wf (after_read x s).
Proof.
  intros Hwf Hx. pose proof (bread_spec s x (fun _ => True) Hwf Hx) as Hb.
  unfold wp, after_read in *. destruct (bread 1 x s) as [i s'|e]; [|done].
  eapply br_wf, Hb; [done|by right].
Qed.
Definition demo_buf : nat := buf_read 5 (l_bio demo0).
Definition demo_held : bio := after_read 5 (l_bio demo0).
Lemma demo_held_wf : bio_wf demo_held.
Proof. apply after_read_wf; [apply demo0_wf|]. apply (bool_decide_unpack _). by vm_compute. Qed.
Lemma bwrite_brelse_correct_witness :
  wp (bwrite demo_buf) noerr (fun _ s1 =>
    bwrite_post demo_held 5 demo_buf s1 /\ sect s1 5 = b_data (B demo_held demo_buf) /\
    wp (brelse demo_buf) noerr (fun _ s2 =>
      brelse_post s1 5 demo_buf s2 /\ busy (B s2 demo_buf) = false) s1) demo_held.
Proof.
  refine (bwrite_brelse_correct demo_held 5 demo_buf demo_held_wf _ _ _).
  - apply Nat.ltb_lt. by vm_compute.
  - split; by vm_compute.
  - by vm_compute.
Defined.
