(* ===== verification/Fs.v ===== *)
(** fs.c: the disk layout, the block allocator, inodes and their cache, file
    contents, directories and path names, over the block layer of [BlockIf].

    State: the block layer's own, the inode cache [icache] and the channels
    woken so far.  A pointer to a cached inode is its index in the cache.
    Blocks and in-memory names are byte lists.  [devsw] is the device table
    the console driver fills in; its entries are parameters here. *)
From S2P Require Import Prelude Params Str Bio Log BlockIf.

(** struct inode. *)
Record inode := mkInode {
  i_dev : Z; i_inum : Z; i_ref : Z; i_flags : Z;
  i_type : Z; i_major : Z; i_minor : Z; i_nlink : Z; i_size : Z; i_addrs : list Z }.
#[export] Instance inode_inhabited : Inhabited inode := populate (mkInode 0 0 0 0 0 0 0 0 0 []).

Definition set_ref (r : Z) (ip : inode) : inode :=
  mkInode (i_dev ip) (i_inum ip) r (i_flags ip) (i_type ip) (i_major ip) (i_minor ip)
    (i_nlink ip) (i_size ip) (i_addrs ip).
Definition set_iflags (f : Z) (ip : inode) : inode :=
  mkInode (i_dev ip) (i_inum ip) (i_ref ip) f (i_type ip) (i_major ip) (i_minor ip)
    (i_nlink ip) (i_size ip) (i_addrs ip).
Definition set_type (t : Z) (ip : inode) : inode :=
  mkInode (i_dev ip) (i_inum ip) (i_ref ip) (i_flags ip) t (i_major ip) (i_minor ip)
    (i_nlink ip) (i_size ip) (i_addrs ip).
Definition set_size (z : Z) (ip : inode) : inode :=
  mkInode (i_dev ip) (i_inum ip) (i_ref ip) (i_flags ip) (i_type ip) (i_major ip) (i_minor ip)
    (i_nlink ip) z (i_addrs ip).
Definition set_addrs (a : list Z) (ip : inode) : inode :=
  mkInode (i_dev ip) (i_inum ip) (i_ref ip) (i_flags ip) (i_type ip) (i_major ip) (i_minor ip)
    (i_nlink ip) (i_size ip) a.

(** struct dinode in a block: the fields of the inode at byte [o]. *)
Definition dip_off (inum : Z) : Z := DINODE_SZ * (inum mod IPB).
Definition enc_addrs (a : list Z) : list Z := concat (map (le_enc 4) a).
Definition dec_addrs (o : Z) (d : list Z) : list Z :=
  map (fun k => rd 4 (o + 12 + 4 * k) d) (seqZ 0 (NDIRECT + 1)).
Definition put_dinode (o : Z) (ip : inode) (d : list Z) : list Z :=
  let d := wr 2 o (i_type ip) d in
  let d := wr 2 (o + 2) (i_major ip) d in
  let d := wr 2 (o + 4) (i_minor ip) d in
  let d := wr 2 (o + 6) (i_nlink ip) d in
  let d := wr 4 (o + 8) (i_size ip) d in
  splice (o + 12) (enc_addrs (i_addrs ip)) d.
Definition get_dinode (o : Z) (d : list Z) (ip : inode) : inode :=
  mkInode (i_dev ip) (i_inum ip) (i_ref ip) (i_flags ip)
    (s16 (rd 2 o d)) (s16 (rd 2 (o + 2) d)) (s16 (rd 2 (o + 4) d)) (s16 (rd 2 (o + 6) d))
    (rd 4 (o + 8) d) (dec_addrs o d).

(** struct dirent. *)
Record dirent := mkDe { de_inum : Z; de_name : list Z }.
Definition enc_dirent (de : dirent) : list Z := le_enc 2 (de_inum de) ++ de_name de.
Definition dec_dirent (b : list Z) : dirent := mkDe (rd 2 0 b) (slice 2 (Z.of_nat DIRSIZ) b).

(** struct stat. *)
Record stat := mkStat { st_type : Z; st_dev : Z; st_ino : Z; st_nlink : Z; st_size : Z }.

(** The bit of a bitmap block: byte bi/8, mask 1 << (bi % 8). *)
Definition bit_mask (bi : Z) : Z := Z.shiftl 1 (bi mod 8).
Definition bit_free (d : list Z) (bi : Z) : bool :=
  Z.land (d !!! Z.to_nat (bi / 8)) (bit_mask bi) =? 0.
Definition bit_set (bi : Z) (d : list Z) : list Z :=
  <[Z.to_nat (bi / 8) := Z.lor (d !!! Z.to_nat (bi / 8)) (bit_mask bi)]> d.
Definition bit_clear (bi : Z) (d : list Z) : list Z :=
  <[Z.to_nat (bi / 8) := Z.land (d !!! Z.to_nat (bi / 8)) (Z.lnot (bit_mask bi))]> d.

(** for(bi = 0; bi < BPB && b + bi < sb.size; bi++) if(free) ... *)
Fixpoint free_bit (n : nat) (d : list Z) (b size bi : Z) : option Z :=
  match n with
  | O => None
  | S n => if b + bi <? size then
             if bit_free d bi then Some bi else free_bit n d b size (bi + 1)
           else None
  end.

Section fs.
Context {S : Type} `{BlockLayer S}.

Record fsys := mkFs { f_blk : S; f_icache : list inode; f_woken : list chan }.

(** The device table: a device reads into or writes from the caller's
    buffer. *)
Record devops := mkDev {
  dev_read : nat -> Z -> K fsys (Z * list Z);
  dev_write : nat -> list Z -> Z -> K fsys Z }.
Variable devsw : Z -> option devops.

Definition blk {A} (m : K S A) : K fsys A := fun s =>
  match m (f_blk s) with
  | Ok a b => Ok a (mkFs b (f_icache s) (f_woken s))
  | Fail e => Fail e
  end.
Definition geti (ip : nat) : K fsys inode := fun s =>
  match f_icache s !! ip with Some x => Ok x s | None => Fail Undef end.
Definition updi (ip : nat) (f : inode -> inode) : K fsys unit :=
  x <- geti ip;;
  modify (fun s => mkFs (f_blk s) (<[ip := f x]> (f_icache s)) (f_woken s)).
Definition wakeupi (c : chan) : K fsys unit :=
  modify (fun s => mkFs (f_blk s) (f_icache s) (c :: f_woken s)).

(** ** Blocks *)
Definition readsb (dev : Z) : K fsys superblock :=
  bp <- blk (bl_bread dev 1);;
  d <- blk (bl_bdata bp);;
  blk (bl_brelse bp);;
  ret (dec_sb d).

Definition bzero (dev bno : Z) : K fsys unit :=
  bp <- blk (bl_bread dev bno);;
  blk (bl_bstore bp zero_block);;
  blk (bl_log_write bp);;
  blk (bl_brelse bp).

(** One iteration of the loop over the bitmap blocks. *)
Definition balloc_body (dev : Z) (sb : superblock) (b : Z) : K fsys (Z + option Z) :=
  if negb (b <? sb_size sb) then ret (inr None) else
  bp <- blk (bl_bread dev (BBLOCK b (sb_ninodes sb)));;
  d <- blk (bl_bdata bp);;
  match free_bit (Z.to_nat BPB) d b (sb_size sb) 0 with
  | Some bi =>
      blk (bl_bstore bp (bit_set bi d));;
      blk (bl_log_write bp);;
      blk (bl_brelse bp);;
      bzero dev (b + bi);;
      ret (inr (Some (b + bi)))
  | None =>
      blk (bl_brelse bp);;
      ret (inl (b + BPB))
  end.
Definition balloc (dev : Z) : K fsys Z :=
  sb <- readsb dev;;
  r <- while (Datatypes.S (Z.to_nat (sb_size sb / BPB + 1))) (balloc_body dev sb) 0;;
  match r with
  | Some b => ret b
  | None => panic "balloc: out of blocks"
  end.

Definition bfree (dev b : Z) : K fsys unit :=
  sb <- readsb dev;;
  bp <- blk (bl_bread dev (BBLOCK b (sb_ninodes sb)));;
  let bi := b mod BPB in
  d <- blk (bl_bdata bp);;
  if bit_free d bi then panic "freeing free block" else
  blk (bl_bstore bp (bit_clear bi d));;
  blk (bl_log_write bp);;
  blk (bl_brelse bp).

(** ** Inodes *)

(** The loop of iget: a cached entry, or else the first free slot. *)
Fixpoint iget_scan (l : list inode) (dev inum : Z) (i : nat) (empty : option nat) : nat + option nat :=
  match l with
  | [] => inr empty
  | ip :: l =>
      if (0 <? i_ref ip) && (i_dev ip =? dev) && (i_inum ip =? inum) then inl i else
      iget_scan l dev inum (Datatypes.S i)
        (if (match empty with None => true | Some _ => false end) && (i_ref ip =? 0)
         then Some i else empty)
  end.
Definition iget (dev inum : Z) : K fsys nat :=
  l <- gets f_icache;;
  match iget_scan l dev inum 0 None with
  | inl i => updi i (fun ip => set_ref (i_ref ip + 1) ip);; ret i
  | inr None => panic "iget: no inodes"
  | inr (Some i) =>
      updi i (fun ip => mkInode dev inum 1 0 (i_type ip) (i_major ip) (i_minor ip)
        (i_nlink ip) (i_size ip) (i_addrs ip));;
      ret i
  end.

Definition ialloc (dev type : Z) : K fsys nat :=
  sb <- readsb dev;;
  r <- for_find (Z.to_nat (sb_ninodes sb - 1)) 1 (fun inum =>
    bp <- blk (bl_bread dev (IBLOCK inum));;
    d <- blk (bl_bdata bp);;
    let o := dip_off inum in
    if s16 (rd 2 o d) =? 0 then
      let d := splice o (replicate (Z.to_nat DINODE_SZ) 0) d in
      blk (bl_bstore bp (wr 2 o type d));;
      blk (bl_log_write bp);;
      blk (bl_brelse bp);;
      i <- iget dev inum;;
      ret (Some i)
    else
      blk (bl_brelse bp);;
      ret None);;
  match r with
  | Some i => ret i
  | None => panic "ialloc: no inodes"
  end.

Definition iupdate (ip : nat) : K fsys unit :=
  x <- geti ip;;
  bp <- blk (bl_bread (i_dev x) (IBLOCK (i_inum x)));;
  d <- blk (bl_bdata bp);;
  blk (bl_bstore bp (put_dinode (dip_off (i_inum x)) x d));;
  blk (bl_log_write bp);;
  blk (bl_brelse bp).

Definition idup (ip : nat) : K fsys nat :=
  updi ip (fun x => set_ref (i_ref x + 1) x);;
  ret ip.

Definition ilock (ip : nat) : K fsys unit :=
  x <- geti ip;;
  if i_ref x <? 1 then panic "ilock" else
  if has (i_flags x) I_BUSY then fail (Sleep (ChInode ip)) else
  updi ip (set_iflags (fset I_BUSY (i_flags x)));;
  x <- geti ip;;
  if has (i_flags x) I_VALID then ret tt else
  bp <- blk (bl_bread (i_dev x) (IBLOCK (i_inum x)));;
  d <- blk (bl_bdata bp);;
  updi ip (get_dinode (dip_off (i_inum x)) d);;
  blk (bl_brelse bp);;
  x <- geti ip;;
  updi ip (set_iflags (fset I_VALID (i_flags x)));;
  x <- geti ip;;
  if i_type x =? 0 then panic "ilock: no type" else ret tt.

Definition iunlock (ip : nat) : K fsys unit :=
  x <- geti ip;;
  if negb (has (i_flags x) I_BUSY) || (i_ref x <? 1) then panic "iunlock" else
  updi ip (set_iflags (fclr I_BUSY (i_flags x)));;
  wakeupi (ChInode ip).

(** ** Inode content *)
Definition bmap (ip : nat) (bn : Z) : K fsys Z :=
  x <- geti ip;;
  if bn <? NDIRECT then
    addr <- aget (i_addrs x) bn;;
    if addr =? 0 then
      addr <- balloc (i_dev x);;
      updi ip (fun x => set_addrs (<[Z.to_nat bn := addr]> (i_addrs x)) x);;
      ret addr
    else ret addr
  else
  let bn := bn - NDIRECT in
  if bn <? NINDIRECT then
    addr <- aget (i_addrs x) NDIRECT;;
    addr <- (if addr =? 0 then
               addr <- balloc (i_dev x);;
               updi ip (fun x => set_addrs (<[Z.to_nat NDIRECT := addr]> (i_addrs x)) x);;
               ret addr
             else ret addr);;
    bp <- blk (bl_bread (i_dev x) addr);;
    d <- blk (bl_bdata bp);;
    let addr := rd 4 (4 * bn) d in
    addr <- (if addr =? 0 then
               addr <- balloc (i_dev x);;
               d <- blk (bl_bdata bp);;
               blk (bl_bstore bp (wr 4 (4 * bn) addr d));;
               blk (bl_log_write bp);;
               ret addr
             else ret addr);;
    blk (bl_brelse bp);;
    ret addr
  else panic "bmap: out of range".

Definition itrunc (ip : nat) : K fsys unit :=
  for_range (Z.to_nat NDIRECT) 0 (fun i =>
    x <- geti ip;;
    a <- aget (i_addrs x) i;;
    when (negb (a =? 0)) (
      bfree (i_dev x) a;;
      updi ip (fun x => set_addrs (<[Z.to_nat i := 0]> (i_addrs x)) x)));;
  x <- geti ip;;
  a <- aget (i_addrs x) NDIRECT;;
  when (negb (a =? 0)) (
    bp <- blk (bl_bread (i_dev x) a);;
    for_range (Z.to_nat NINDIRECT) 0 (fun j =>
      d <- blk (bl_bdata bp);;
      let e := rd 4 (4 * j) d in
      when (negb (e =? 0)) (bfree (i_dev x) e));;
    blk (bl_brelse bp);;
    bfree (i_dev x) a;;
    updi ip (fun x => set_addrs (<[Z.to_nat NDIRECT := 0]> (i_addrs x)) x));;
  updi ip (set_size 0);;
  iupdate ip.

Definition iput (ip : nat) : K fsys unit :=
  x <- geti ip;;
  when ((i_ref x =? 1) && has (i_flags x) I_VALID && (i_nlink x =? 0)) (
    if has (i_flags x) I_BUSY then panic "iput busy" else
    updi ip (set_iflags (fset I_BUSY (i_flags x)));;
    itrunc ip;;
    updi ip (set_type 0);;
    iupdate ip;;
    updi ip (set_iflags 0);;
    wakeupi (ChInode ip));;
  updi ip (fun x => set_ref (i_ref x - 1) x).

Definition iunlockput (ip : nat) : K fsys unit := iunlock ip;; iput ip.

Definition stati (ip : nat) : K fsys stat :=
  x <- geti ip;;
  ret (mkStat (i_type x) (i_dev x) (i_inum x) (i_nlink x) (i_size x)).

(** One block's worth of a transfer: [m] bytes at [off] % BSIZE. *)
Definition chunk (n tot off : Z) : Z := Z.min (n - tot) (BSIZE - off mod BSIZE).
(** Iterations of the transfer loops. *)
Definition nchunks (n : Z) : nat := Z.to_nat (n / BSIZE + 3).

(** Returns the result and the bytes stored at [dst]. *)
Definition readi (ip : nat) (off n : Z) : K fsys (Z * list Z) :=
  x <- geti ip;;
  if i_type x =? T_DEV then
    if (i_major x <? 0) || (NDEV <=? i_major x) then ret (-1, []) else
    match devsw (i_major x) with
    | None => ret (-1, [])
    | Some d => dev_read d ip n
    end
  else
  if (i_size x <? off) || (u32 (off + n) <? off) then ret (-1, []) else
  let n := if i_size x <? u32 (off + n) then u32 (i_size x - off) else n in
  out <- while (nchunks n) (fun '(tot, off, dst) =>
    if negb (tot <? n) then ret (inr dst) else
    a <- bmap ip (off / BSIZE);;
    bp <- blk (bl_bread (i_dev x) a);;
    let m := chunk n tot off in
    d <- blk (bl_bdata bp);;
    blk (bl_brelse bp);;
    ret (inl (tot + m, off + m, dst ++ slice (off mod BSIZE) m d))) (0, off, []);;
  ret (n, out).

Definition writei (ip : nat) (src : list Z) (off n : Z) : K fsys Z :=
  x <- geti ip;;
  if i_type x =? T_DEV then
    if (i_major x <? 0) || (NDEV <=? i_major x) then ret (-1) else
    match devsw (i_major x) with
    | None => ret (-1)
    | Some d => dev_write d ip src n
    end
  else
  if (i_size x <? off) || (u32 (off + n) <? off) then ret (-1) else
  if MAXFILE * BSIZE <? u32 (off + n) then ret (-1) else
  off <- while (nchunks n) (fun '(tot, off) =>
    if negb (tot <? n) then ret (inr off) else
    a <- bmap ip (off / BSIZE);;
    bp <- blk (bl_bread (i_dev x) a);;
    let m := chunk n tot off in
    d <- blk (bl_bdata bp);;
    blk (bl_bstore bp (splice (off mod BSIZE) (slice tot m src) d));;
    blk (bl_log_write bp);;
    blk (bl_brelse bp);;
    ret (inl (tot + m, off + m))) (0, off);;
  x <- geti ip;;
  when ((0 <? n) && (i_size x <? off)) (
    updi ip (set_size off);;
    iupdate ip);;
  ret n.

(** ** Directories *)
Definition namecmp (s t : list Z) : Z := strncmp s t DIRSIZ.

(** The inode and the offset of the entry. *)
Definition dirlookup (dp : nat) (name : list Z) : K fsys (option (nat * Z)) :=
  x <- geti dp;;
  if negb (i_type x =? T_DIR) then panic "dirlookup not DIR" else
  while (Datatypes.S (Z.to_nat (i_size x / DIRENT_SZ + 1))) (fun off =>
    x <- geti dp;;
    if negb (off <? i_size x) then ret (inr None) else
    let! (r, b) := readi dp off DIRENT_SZ in
    if negb (r =? DIRENT_SZ) then panic "dirlink read" else
    let de := dec_dirent b in
    if de_inum de =? 0 then ret (inl (off + DIRENT_SZ)) else
    if namecmp name (de_name de) =? 0 then
      ip <- iget (i_dev x) (de_inum de);;
      ret (inr (Some (ip, off)))
    else ret (inl (off + DIRENT_SZ))) 0.

Definition dirlink (dp : nat) (name : list Z) (inum : Z) : K fsys Z :=
  r <- dirlookup dp name;;
  match r with
  | Some (ip, _) => iput ip;; ret (-1)
  | None =>
      x <- geti dp;;
      off <- while (Datatypes.S (Z.to_nat (i_size x / DIRENT_SZ + 1))) (fun off =>
        if negb (off <? i_size x) then ret (inr off) else
        let! (r, b) := readi dp off DIRENT_SZ in
        if negb (r =? DIRENT_SZ) then panic "dirlink read" else
        if de_inum (dec_dirent b) =? 0 then ret (inr off) else
        ret (inl (off + DIRENT_SZ))) 0;;
      let de := mkDe (u16 inum) (strncpy_bytes name DIRSIZ) in
      w <- writei dp (enc_dirent de) off DIRENT_SZ;;
      if negb (w =? DIRENT_SZ) then panic "dirlink" else ret 0
  end.
End fs.

(** ** Paths *)

Definition SLASH : Z := 47.
(** while( *path == '/') path++ *)
Fixpoint skip_slashes (path : list Z) : list Z :=
  match path with
  | [] => []
  | c :: p => if c =? SLASH then skip_slashes p else path
  end.
(** while( *path != '/' && *path != 0) path++ *)
Fixpoint elem_len (path : list Z) : nat :=
  match path with
  | [] => O
  | c :: p => if negb (c =? SLASH) && negb (c =? 0) then S (elem_len p) else O
  end.
(** The rest of the path and the new contents of the name buffer. *)
Definition skipelem (path name : list Z) : option (list Z * list Z) :=
  let s := skip_slashes path in
  if chr s =? 0 then None else
  let len := elem_len s in
  let name := if (DIRSIZ <=? len)%nat then splice 0 (take DIRSIZ s) name
              else splice 0 (take len s ++ [0]) name in
  Some (skip_slashes (drop len s), name).

Section namex.
Context {S : Type} `{BlockLayer S}.
Variable devsw : Z -> option (@devops S).

(** The loop of namex; [cwd] is the current directory of the process. *)
Definition namex_body (nameiparent : bool) (st : nat * list Z * list Z)
    : K (@fsys S) (nat * list Z * list Z + option (nat * list Z)) :=
  let '(ip, path, name) := st in
  match skipelem path name with
  | None =>
      if nameiparent then iput ip;; ret (inr None) else ret (inr (Some (ip, name)))
  | Some (path, name) =>
      ilock ip;;
      x <- geti ip;;
      if negb (i_type x =? T_DIR) then iunlockput ip;; ret (inr None) else
      if nameiparent && (chr path =? 0) then iunlock ip;; ret (inr (Some (ip, name))) else
      r <- dirlookup devsw ip name;;
      match r with
      | None => iunlockput ip;; ret (inr None)
      | Some (next, _) => iunlockput ip;; ret (inl (next, path, name))
      end
  end.
Definition namex (cwd : nat) (path : list Z) (nameiparent : bool) (name : list Z)
    : K (@fsys S) (option (nat * list Z)) :=
  ip <- (if chr path =? SLASH then iget ROOTDEV ROOTINO else idup cwd);;
  while (Datatypes.S (length path)) (namex_body nameiparent) (ip, path, name).

Definition namei (cwd : nat) (path : list Z) : K (@fsys S) (option nat) :=
  r <- namex cwd path false (replicate DIRSIZ 0);;
  ret (fst <$> r).
Definition nameiparent (cwd : nat) (path name : list Z) : K (@fsys S) (option (nat * list Z)) :=
  namex cwd path true name.
End namex.
