(* ===== verification/FsBlocks.v ===== *)
(** Reasoning about fs.c over the block layer: the transfer idioms, the log
    space they need, and the block allocator. *)
From S2P Require Import Prelude Params Str Bio BioSpec Log LogSpec Trans BlockIf Fs.

(** ** Log space

    The sectors the running operation may log are those of [L] and [n] more;
    it may lock [h] more buffers. *)
Definition fits (g : geo) (t : tdisk) (L : list Z) (n h : nat) : Prop :=
  NoDup (t_logged t) /\ (forall x, x ∈ t_logged t -> x ∈ L) /\
  Z.of_nat (S (length L + n)) <= log_cap g /\
  (S (length L + n) + size (t_held t) + h <= NBUF)%nat.
Definition unlocked (t : tdisk) (x : Z) : Prop := forall i m, t_held t !! i <> Some (x, m).

Section space.
Implicit Types (g : geo) (t : tdisk) (x : Z) (i n h : nat) (L : list Z).

Lemma fits_len g t L n h : fits g t L n h -> (length (t_logged t) <= length L)%nat.
Proof. intros (Hnd&Hin&_). by apply submseteq_length, NoDup_submseteq. Qed.
Lemma fits_room g t L n h : fits g t L n h -> room g t 1 h.
Proof.
  intros Hf. pose proof (fits_len _ _ _ _ _ Hf). destruct Hf as (_&_&?&?). split; lia.
Qed.
Lemma fits_hold g t L n h i x :
  t_held t !! i = None -> fits g t L n (S h) -> fits g (t_hold i x t) L n h.
Proof.
  intros Hi (?&?&?&?). split_and!; [done..|]. simpl. rewrite map_size_insert_None by done. lia.
Qed.
Lemma fits_le g t L n h n' h' :
  fits g t L n h -> (n' <= n)%nat -> (h' <= h)%nat -> fits g t L n' h'.
Proof. intros (?&?&?&?) ??. split_and!; (done || lia). Qed.
Lemma nodup_write t x d : NoDup (t_logged t) -> NoDup (t_logged (t_write x d t)).
Proof.
  intros Hnd. simpl. case_decide; [done|]. apply NoDup_app. split_and!; [done|set_solver|].
  apply NoDup_singleton.
Qed.
Lemma logged_write t x d y : y ∈ t_logged (t_write x d t) <-> y ∈ t_logged t \/ y = x.
Proof. simpl. case_decide; set_solver. Qed.
(** Logging a sector of [L], and one more. *)
Lemma fits_write g t L n h x d : x ∈ L -> fits g t L n h -> fits g (t_write x d t) L n h.
Proof.
  intros Hx (?&Hin&?&?). split_and!; [by apply nodup_write| |done..].
  intros y [Hy| ->]%logged_write; [by apply Hin|done].
Qed.
Lemma fits_more g t L n h x : fits g t L (S n) h -> fits g t (x :: L) n h.
Proof. intros (?&?&?&?). split_and!; [done|set_solver|simpl; lia..]. Qed.
Lemma unlocked_write t x d y : unlocked (t_write x d t) y <-> unlocked t y.
Proof. done. Qed.
Lemma unlocked_hold t i x y : unlocked t y -> x <> y -> unlocked (t_hold i x t) y.
Proof. intros Hu Hxy j m. simpl. rewrite lookup_insert. case_decide; [congruence|apply Hu]. Qed.
End space.

(** ** The idioms *)
Section idioms.
Context {S : Type} `{BlockLayer S}.
Implicit Types (g : geo) (b : S) (ic : list inode) (wk : list chan) (t : tdisk) (L : list Z).

Lemma wp_blk {A} (m : K S A) E Q b ic wk :
  wp m E (fun a b' => Q a (mkFs b' ic wk)) b -> wp (blk m) E Q (mkFs b ic wk).
Proof. unfold wp, blk. simpl. by destruct (m b). Qed.
Lemma wp_total {A} (m : K S A) E Q b : wp m noerr Q b -> wp m E Q b.
Proof. intros Hw. eapply wp_mono; [exact Hw|done|done]. Qed.

(** bp = bread(dev, x), and a use of bp->data. *)
Lemma wp_bread g b ic wk t x L n h {A} (k : nat -> list Z -> K fsys A) E Q :
  bl_rep g b t -> data_sector g x -> unlocked t x -> fits g t L n (Datatypes.S h) ->
  (forall i b1, t_held t !! i = None -> bl_rep g b1 (t_hold i x t) ->
    wp (k i (t_view t x)) E Q (mkFs b1 ic wk)) ->
  wp (i <- blk (bl_bread 1 x);; d <- blk (bl_bdata i);; k i d) E Q (mkFs b ic wk).
Proof.
  intros Hr Hx Hu Hf Hk. apply wp_bind, wp_blk, wp_total.
  eapply wp_post; [eapply (bl_bread_ok g b t x); [done..|by eapply fits_room]|].
  intros i b1 [Hi Hr1]. apply wp_bind, wp_blk, wp_total.
  eapply wp_post; [eapply (bl_bdata_ok g b1); [done|apply held_hold]|].
  intros d b2 [-> Hr2]. by apply Hk.
Qed.

(** brelse(bp) of an unmodified buffer. *)
Lemma wp_brelse0 g b ic wk t i x {A} (k : K fsys A) E Q :
  t_held t !! i = None -> bl_rep g b (t_hold i x t) ->
  (forall b1, bl_rep g b1 t -> wp k E Q (mkFs b1 ic wk)) ->
  wp (blk (bl_brelse i);; k) E Q (mkFs b ic wk).
Proof.
  intros Hi Hr Hk. apply wp_bind, wp_blk, wp_total.
  eapply wp_post; [eapply (bl_brelse_ok g b _ i x); [done|apply held_hold]|].
  intros [] b1 Hr1. rewrite t_rel_hold in Hr1 by done. by apply Hk.
Qed.

(** bp->data = d; log_write(bp); brelse(bp). *)
Lemma wp_store_log g b ic wk t i x L n h d {A} (k : K fsys A) E Q :
  t_held t !! i = None -> bl_rep g b (t_hold i x t) -> is_block d -> t_active t = true ->
  fits g t L n (Datatypes.S h) ->
  (forall b1, bl_rep g b1 (t_logw i x (t_store i x d (t_hold i x t))) -> wp k E Q (mkFs b1 ic wk)) ->
  wp (blk (bl_bstore i d);; blk (bl_log_write i);; k) E Q (mkFs b ic wk).
Proof.
  intros Hi Hr Hd Ha Hf Hk. apply wp_bind, wp_blk, wp_total.
  eapply wp_post; [eapply (bl_bstore_ok g b); [done|apply held_hold|done]|].
  intros [] b1 Hr1. apply wp_bind, wp_blk, wp_total.
  eapply wp_post; [eapply (bl_log_write_ok g b1 _ i x true 0 h); [done|apply lookup_insert_eq|done|]|].
  { eapply room_store; [apply held_hold|]. eapply fits_room, fits_hold; done. }
  intros [] b2 Hr2. by apply Hk.
Qed.
Lemma wp_brelse1 g b t i x d ic wk E (Q : unit -> fsys -> Prop) :
  t_held t !! i = None -> bl_rep g b (t_logw i x (t_store i x d (t_hold i x t))) ->
  (forall b1, bl_rep g b1 (t_write x d t) -> Q tt (mkFs b1 ic wk)) ->
  wp (blk (bl_brelse i)) E Q (mkFs b ic wk).
Proof.
  intros Hi Hr HQ. apply wp_blk, wp_total.
  eapply wp_post; [eapply (bl_brelse_ok g b _ i x); [done|apply lookup_insert_eq]|].
  intros [] b1 Hr1. rewrite t_rel_write in Hr1 by done. by apply HQ.
Qed.

Lemma wp_write g b ic wk t i x L n h d {A} (k : K fsys A) E Q :
  t_held t !! i = None -> bl_rep g b (t_hold i x t) -> is_block d -> t_active t = true ->
  fits g t L n (Datatypes.S h) ->
  (forall b1, bl_rep g b1 (t_write x d t) -> wp k E Q (mkFs b1 ic wk)) ->
  wp (blk (bl_bstore i d);; blk (bl_log_write i);; blk (bl_brelse i);; k) E Q (mkFs b ic wk).
Proof.
  intros Hi Hr Hd Ha Hf Hk. eapply wp_store_log; [done..|]. intros b1 Hr1.
  apply wp_bind. by eapply wp_brelse1.
Qed.
Lemma wp_write_end g b ic wk t i x L n h d E Q :
  t_held t !! i = None -> bl_rep g b (t_hold i x t) -> is_block d -> t_active t = true ->
  fits g t L n (Datatypes.S h) ->
  (forall b1, bl_rep g b1 (t_write x d t) -> Q tt (mkFs b1 ic wk)) ->
  wp (blk (bl_bstore i d);; blk (bl_log_write i);; blk (bl_brelse i)) E Q (mkFs b ic wk).
Proof. intros. eapply wp_store_log; [done..|]. intros b1 Hr1. by eapply wp_brelse1. Qed.
End idioms.

(** ** The bitmap *)
Section bits.
Implicit Types (d : list Z) (bi bj b : Z).

Lemma bit_free_has d bi : bit_free d bi = negb (has (d !!! Z.to_nat (bi / 8)) (2 ^ (bi mod 8))).
Proof. unfold bit_free, bit_mask, has. rewrite Z.shiftl_1_l. by rewrite negb_involutive. Qed.
Lemma byte_at d (k : nat) : is_block d -> (k < 512)%nat -> is_byte (d !!! k).
Proof.
  intros [Hl Hb] Hk. eapply (proj1 (Forall_lookup _ _) Hb k).
  apply list_lookup_lookup_total_lt. lia.
Qed.
Lemma byte_set (f k : Z) : is_byte f -> 0 <= k < 8 -> is_byte (fset (2 ^ k) f) /\ is_byte (fclr (2 ^ k) f).
Proof.
  intros Hf Hk.
  assert (Hall : Forall (fun f => Forall (fun k => (0 <= fset (2 ^ k) f < 256) /\ (0 <= fclr (2 ^ k) f < 256))
    (seqZ 0 8)) (seqZ 0 256)) by (apply (bool_decide_unpack _); by vm_compute).
  rewrite Forall_forall in Hall. specialize (Hall f). rewrite Forall_forall in Hall.
  unfold is_byte in *. apply Hall; apply elem_of_seqZ; lia.
Qed.
Lemma bit_index bi : 0 <= bi < BPB -> (Z.to_nat (bi / 8) < 512)%nat /\ 0 <= bi mod 8 < 8.
Proof.
  unfold BPB, BSIZE. intros. pose proof (Z.mod_pos_bound bi 8).
  pose proof (Z.div_lt_upper_bound bi 8 512). pose proof (Z.div_pos bi 8). lia.
Qed.

Lemma block_insert d (k : nat) (v : Z) : is_block d -> is_byte v -> is_block (<[k := v]> d).
Proof. intros [Hl Hb] Hv. split; [by rewrite length_insert|by apply Forall_insert]. Qed.
Lemma block_bit_set d bi : is_block d -> 0 <= bi < BPB -> is_block (bit_set bi d).
Proof.
  intros Hd Hbi. destruct (bit_index bi Hbi). unfold bit_set, bit_mask. rewrite Z.shiftl_1_l.
  apply block_insert; [done|]. by apply byte_set; [apply byte_at|].
Qed.
Lemma block_bit_clear d bi : is_block d -> 0 <= bi < BPB -> is_block (bit_clear bi d).
Proof.
  intros Hd Hbi. destruct (bit_index bi Hbi). unfold bit_clear, bit_mask. rewrite Z.shiftl_1_l.
  apply block_insert; [done|]. by apply byte_set; [apply byte_at|].
Qed.

Lemma same_bit bi bj : bi / 8 = bj / 8 -> bi mod 8 = bj mod 8 -> bi = bj.
Proof. intros. rewrite (Z.div_mod bi 8), (Z.div_mod bj 8) by lia. congruence. Qed.
Lemma bit_free_upd d bi bj (f : Z -> Z) (r : bool) :
  is_block d -> 0 <= bi < BPB -> 0 <= bj < BPB ->
  (forall z, has (f z) (2 ^ (bi mod 8)) = r) ->
  (forall z j, 0 <= j < 8 -> j <> bi mod 8 -> has (f z) (2 ^ j) = has z (2 ^ j)) ->
  bit_free (<[Z.to_nat (bi / 8) := f (d !!! Z.to_nat (bi / 8))]> d) bj =
  if decide (bi = bj) then negb r else bit_free d bj.
Proof.
  intros [Hl _] Hbi Hbj Hr Hne. destruct (bit_index bi Hbi), (bit_index bj Hbj).
  rewrite !bit_free_has. destruct (decide (bi = bj)) as [->|Hb].
  - rewrite list_lookup_total_insert_eq by lia. by rewrite Hr.
  - destruct (decide (bi / 8 = bj / 8)) as [Heq|Hq].
    + rewrite <- Heq, list_lookup_total_insert_eq by lia. rewrite Hne; [done|lia|].
      intros Hm. apply Hb. by apply same_bit.
    + rewrite list_lookup_total_insert_ne; [done|]. pose proof (Z.div_pos bi 8).
      pose proof (Z.div_pos bj 8). lia.
Qed.
Lemma bit_free_set d bi bj :
  is_block d -> 0 <= bi < BPB -> 0 <= bj < BPB ->
  bit_free (bit_set bi d) bj = if decide (bi = bj) then false else bit_free d bj.
Proof.
  intros Hd Hbi Hbj. unfold bit_set, bit_mask. rewrite Z.shiftl_1_l. pose proof (Z.mod_pos_bound bi 8).
  rewrite (bit_free_upd d bi bj (fun z => Z.lor z (2 ^ (bi mod 8))) true); [done..| |].
  - intros z. change (Z.lor z _) with (fset (2 ^ (bi mod 8)) z). rewrite has_fset by lia.
    by rewrite Z.eqb_refl.
  - intros z j Hj Hne. change (Z.lor z _) with (fset (2 ^ (bi mod 8)) z). rewrite has_fset by lia.
    by rewrite (proj2 (Z.eqb_neq _ _)) by lia.
Qed.
Lemma bit_free_clear d bi bj :
  is_block d -> 0 <= bi < BPB -> 0 <= bj < BPB ->
  bit_free (bit_clear bi d) bj = if decide (bi = bj) then true else bit_free d bj.
Proof.
  intros Hd Hbi Hbj. unfold bit_clear, bit_mask. rewrite Z.shiftl_1_l. pose proof (Z.mod_pos_bound bi 8).
  rewrite (bit_free_upd d bi bj (fun z => Z.land z (Z.lnot (2 ^ (bi mod 8)))) false); [done..| |].
  - intros z. change (Z.land z _) with (fclr (2 ^ (bi mod 8)) z). rewrite has_fclr by lia.
    by rewrite Z.eqb_refl.
  - intros z j Hj Hne. change (Z.land z _) with (fclr (2 ^ (bi mod 8)) z). rewrite has_fclr by lia.
    by rewrite (proj2 (Z.eqb_neq _ _)) by lia.
Qed.

(** The scan of one bitmap block. *)
Lemma free_bit_spec n d b size bi :
  0 <= bi ->
  match free_bit n d b size bi with
  | Some r => bi <= r < bi + Z.of_nat n /\ b + r < size /\ bit_free d r = true /\
      forall j, bi <= j < r -> bit_free d j = false
  | None => forall j, bi <= j < bi + Z.of_nat n -> b + j < size -> bit_free d j = false
  end.
Proof.
  revert bi. induction n as [|n IH]; intros bi Hbi; cbn [free_bit]; [lia|].
  destruct (Z.ltb_spec (b + bi) size); [|lia].
  destruct (bit_free d bi) eqn:Hf; [split_and!; (done || lia)|].
  specialize (IH (bi + 1)). destruct (free_bit n d b size (bi + 1)) as [r|].
  - destruct IH as (?&?&?&Hno); [lia|]. split_and!; [lia..|done|].
    intros j Hj. destruct (decide (j = bi)) as [->|]; [done|]. apply Hno. lia.
  - intros j Hj Hs. destruct (decide (j = bi)) as [->|]; [done|]. apply IH; lia.
Qed.
End bits.

(** ** balloc and bfree *)

(** The bitmap as the contents [v] of the disk have it. *)
Definition sb_of (v : Z -> list Z) : superblock := dec_sb (v 1).
Definition bitmap_of (v : Z -> list Z) (b : Z) : Z := BBLOCK b (sb_ninodes (sb_of v)).
Definition blk_free (v : Z -> list Z) (b : Z) : bool := bit_free (v (bitmap_of v b)) (b mod BPB).
(** The first free block, what balloc looks for. *)
Definition first_free (v : Z -> list Z) (b : Z) : Prop :=
  0 <= b < sb_size (sb_of v) /\ blk_free v b = true /\ forall b', 0 <= b' < b -> blk_free v b' = false.

(** The super block and the bitmap are sectors of the file system, in the
    order the layout of fs.h gives them. *)
Record bitmap_ok (g : geo) (v : Z -> list Z) : Prop := {
  bm_sb : data_sector g 1;
  bm_nin : 0 <= sb_ninodes (sb_of v);
  bm_bits : forall b, 0 <= b < sb_size (sb_of v) -> data_sector g (bitmap_of v b) }.

Definition t_alloc (b : Z) (t : tdisk) : tdisk :=
  let bb := bitmap_of (t_view t) b in
  t_write b zero_block (t_write bb (bit_set (b mod BPB) (t_view t bb)) t).
Definition t_free (b : Z) (t : tdisk) : tdisk :=
  let bb := bitmap_of (t_view t) b in t_write bb (bit_clear (b mod BPB) (t_view t bb)) t.

Lemma zero_is_block : is_block zero_block.
Proof. split; [done|]. apply Forall_replicate. unfold is_byte. lia. Qed.

Section alloc.
Context {S : Type} `{BlockLayer S}.
Implicit Types (g : geo) (b : S) (ic : list inode) (wk : list chan) (t : tdisk) (L : list Z) (v : Z -> list Z).

Lemma bitmap_ge3 g v x : bitmap_ok g v -> 0 <= x -> 3 <= bitmap_of v x.
Proof.
  intros Hb Hx. unfold bitmap_of, BBLOCK. pose proof (Z.div_pos x BPB).
  pose proof (Z.div_pos (sb_ninodes (sb_of v)) IPB). pose proof (bm_nin _ _ Hb).
  unfold BPB, IPB, BSIZE, DINODE_SZ, NDIRECT in *. change (512 / (4 * 2 + 4 + (12 + 1) * 4)) with 8 in *. lia.
Qed.

Lemma readsb_ok g b ic wk t L n h E :
  bl_rep g b t -> data_sector g 1 -> unlocked t 1 -> fits g t L n (Datatypes.S h) ->
  wp (readsb 1) E (fun sb s => sb = sb_of (t_view t) /\ exists b', s = mkFs b' ic wk /\ bl_rep g b' t)
    (mkFs b ic wk).
Proof.
  intros Hr H1 Hu Hf. unfold readsb. eapply wp_bread; [done..|]. intros i b1 Hi Hr1.
  eapply wp_brelse0; [done..|]. intros b2 Hr2. apply wp_ret. eauto.
Qed.

Lemma bzero_ok g b ic wk t x L n h E :
  bl_rep g b t -> data_sector g x -> unlocked t x -> t_active t = true -> fits g t L n (Datatypes.S h) ->
  wp (bzero 1 x) E (fun _ s => exists b', s = mkFs b' ic wk /\ bl_rep g b' (t_write x zero_block t))
    (mkFs b ic wk).
Proof.
  intros Hr Hx Hu Ha Hf. unfold bzero. apply wp_bind, wp_blk, wp_total.
  eapply wp_post; [eapply (bl_bread_ok g b t x); [done..|by eapply fits_room]|].
  intros i b1 [Hi Hr1]. eapply wp_write_end; [done|done|apply zero_is_block|done..|]. eauto.
Qed.

Lemma bit_index_add (a bi : Z) :
  a mod BPB = 0 -> 0 <= bi < BPB -> (a + bi) / BPB = a / BPB /\ (a + bi) mod BPB = bi.
Proof.
  intros Ha Hbi. assert (Hb : BPB <> 0) by done. rewrite (Z.div_mod a BPB Hb), Ha, Z.add_0_r.
  rewrite (Z.mul_comm BPB), Z.add_comm, Z.div_add, Z.mod_add by done.
  rewrite Z.div_small, Z.mod_small by lia. rewrite Z.div_mul by done. lia.
Qed.

(** Bitmap blocks still to be scanned from block [a] on. *)
Definition groups (size a : Z) : nat := Z.to_nat ((size - a + BPB - 1) / BPB).
Lemma groups_fuel size : (groups size 0 < Datatypes.S (Z.to_nat (size / BPB + 1)))%nat.
Proof.
  unfold groups. assert (Hle : (size - 0 + BPB - 1) / BPB <= size / BPB + 1); [|lia].
  transitivity ((size + 1 * BPB) / BPB); [apply Z.div_le_mono; unfold BPB, BSIZE; lia|].
  rewrite Z.div_add by done. lia.
Qed.
Lemma groups_dec size a : a < size -> (groups size (a + BPB) < groups size a)%nat.
Proof.
  intros Ha. unfold groups. replace (size - (a + BPB) + BPB - 1) with (size - a + BPB - 1 + (-1) * BPB) by lia.
  rewrite Z.div_add by done. assert (Hp : 1 <= (size - a + BPB - 1) / BPB); [|lia].
  apply Z.div_le_lower_bound; unfold BPB, BSIZE in *; lia.
Qed.

Lemma balloc_ok g b ic wk t L n h (E : err -> Prop) :
  bl_rep g b t -> bitmap_ok g (t_view t) -> t_active t = true ->
  unlocked t 1 -> (forall x, 0 <= x < sb_size (sb_of (t_view t)) -> unlocked t (bitmap_of (t_view t) x)) ->
  fits g t L n (Datatypes.S h) ->
  (forall r, first_free (t_view t) r -> data_sector g r /\ unlocked t r /\ bitmap_of (t_view t) r ∈ L) ->
  ((forall x, 0 <= x < sb_size (sb_of (t_view t)) -> blk_free (t_view t) x = false) ->
    E (Panic "balloc: out of blocks")) ->
  wp (balloc 1) E (fun r s => first_free (t_view t) r /\
    exists b', s = mkFs b' ic wk /\ bl_rep g b' (t_alloc r t)) (mkFs b ic wk).
Proof.
  intros Hr Hbm Ha Hu1 Hub Hf Hfree HE. set (v := t_view t) in *. set (sb := sb_of v).
  unfold balloc. apply wp_bind. eapply wp_post; [eapply readsb_ok; [done|apply Hbm|done..]|].
  intros sb' s (->&b1&->&Hr1). change (sb_of (t_view t)) with sb. apply wp_bind.
  apply (wp_while (fun a s => (exists b', s = mkFs b' ic wk /\ bl_rep g b' t) /\ 0 <= a /\ a mod BPB = 0 /\
      forall x, 0 <= x < a -> x < sb_size sb -> blk_free v x = false)
    (groups (sb_size sb))).
  - split_and!; [by eexists|done|done|lia].
  - apply groups_fuel.
  - intros a s ((b2&->&Hr2)&Ha0&Ham&Hno). unfold balloc_body.
    destruct (Z.ltb_spec a (sb_size sb)) as [Hlt|Hge]; cbn [negb].
    + eapply (wp_bread g b2 ic wk t (bitmap_of v a)); [done|apply Hbm; fold sb; lia|apply Hub; fold sb; lia|done|].
      intros i b3 Hi Hr3. fold v.
      assert (Hsame : forall bi, 0 <= bi < BPB -> blk_free v (a + bi) = bit_free (v (bitmap_of v a)) bi /\
        bitmap_of v (a + bi) = bitmap_of v a).
      { intros bi Hbi. destruct (bit_index_add a bi Ham Hbi) as [Hq Hm].
        unfold blk_free, bitmap_of, BBLOCK. by rewrite Hq, Hm. }
      pose proof (free_bit_spec (Z.to_nat BPB) (v (bitmap_of v a)) a (sb_size sb) 0) as Hfb.
      rewrite Z.add_0_l, Z2Nat.id in Hfb by (unfold BPB, BSIZE; lia).
      destruct (free_bit (Z.to_nat BPB) (v (bitmap_of v a)) a (sb_size sb) 0) as [bi|].
      * destruct Hfb as (Hbi&Hsz&Hbf&Hbno); [done|]. destruct (Hsame bi Hbi) as [Hbf' Hbb'].
        assert (Hff : first_free v (a + bi)).
        { unfold first_free. fold sb. split_and!; [lia|lia|by rewrite Hbf'|]. intros x Hx. destruct (decide (x < a)); [apply Hno; lia|].
          destruct (Hsame (x - a)) as [Hx' _]; [lia|]. replace (a + (x - a)) with x in Hx' by lia.
          rewrite Hx'. apply Hbno. lia. }
        destruct (Hfree _ Hff) as (Hds&Hul&HinL). rewrite Hbb' in HinL.
        assert (Hmod : (a + bi) mod BPB = bi) by (by apply bit_index_add).
        eapply wp_write; [done|done| |done|done|].
        { apply block_bit_set; [|done]. eapply bl_block; [exact Hr2|]. apply Hbm. fold sb. lia. }
        intros b4 Hr4. apply wp_bind. eapply wp_post; [eapply bzero_ok; [exact Hr4|done|done|done|by apply fits_write]|].
        intros [] s (b5&->&Hr5). apply wp_ret, wp_ret. split; [done|]. eexists. split; [done|].
        unfold t_alloc. cbv zeta. change (t_view t) with v. rewrite Hbb', Hmod. exact Hr5.
      * eapply wp_brelse0; [done..|]. intros b4 Hr4. apply wp_ret. split.
        -- split_and!; [by eexists|unfold BPB, BSIZE; lia| |].
           ++ rewrite Z.add_mod, Ham by done. by rewrite Z.mod_same.
           ++ intros x Hx Hxs. destruct (decide (x < a)); [apply Hno; lia|].
              destruct (Hsame (x - a)) as [Hx' _]; [lia|]. replace (a + (x - a)) with x in Hx' by lia.
              rewrite Hx'. apply Hfb; lia.
        -- by apply groups_dec.
    + apply wp_ret, wp_fail, HE. fold sb. intros x Hx. apply Hno; lia.
Qed.

Lemma bfree_ok g b ic wk t L n h x (E : err -> Prop) :
  bl_rep g b t -> bitmap_ok g (t_view t) -> t_active t = true ->
  0 <= x < sb_size (sb_of (t_view t)) -> unlocked t 1 -> unlocked t (bitmap_of (t_view t) x) ->
  fits g t L n (Datatypes.S h) ->
  (blk_free (t_view t) x = true -> E (Panic "freeing free block")) ->
  wp (bfree 1 x) E (fun _ s => blk_free (t_view t) x = false /\
    exists b', s = mkFs b' ic wk /\ bl_rep g b' (t_free x t)) (mkFs b ic wk).
Proof.
  intros Hr Hbm Ha Hx Hu1 Hub Hf HE. unfold bfree. apply wp_bind.
  eapply wp_post; [eapply readsb_ok; [done|apply Hbm|done..]|]. intros sb s (->&b1&->&Hr1).
  assert (Hds : data_sector g (bitmap_of (t_view t) x)) by (by apply Hbm).
  assert (Hm : 0 <= x mod BPB < BPB) by (by apply Z.mod_pos_bound).
  eapply (wp_bread g b1 ic wk t (bitmap_of (t_view t) x)); [done..|]. intros i b2 Hi Hr2.
  change (bit_free (t_view t (bitmap_of (t_view t) x)) (x mod BPB)) with (blk_free (t_view t) x).
  destruct (blk_free (t_view t) x) eqn:Hbf; [by apply wp_fail, HE|].
  eapply wp_write_end; [done|done| |done..|].
  - apply block_bit_clear; [|done]. by eapply bl_block.
  - intros b3 Hr3. eauto.
Qed.
End alloc.
