(* ===== verification/FsFile.v ===== *)
(** The contents of a file as a function of the disk: how the block numbers
    of an inode map positions to bytes, the invariant that ties the inodes
    to the bitmap, and what one allocation does to both. *)
From S2P Require Import Prelude Params Str Bio BioSpec Log LogSpec Trans BlockIf Fs FsBlocks.

Implicit Types (g : geo) (v : Z -> list Z) (A : list Z) (x bn p : Z).

(** ** The invariant of the disk layout *)

(** First block after the bitmap. *)
Definition dstart v : Z := bitmap_of v (sb_size (sb_of v) - 1) + 1.
Record fs_ok g v : Prop := {
  fo_nin : 0 <= sb_ninodes (sb_of v);
  fo_pos : 0 < sb_size (sb_of v);
  fo_size : g_lstart g <= sb_size (sb_of v);
  fo_data : dstart v <= g_lstart g;
  fo_log : 0 <= g_lsize g /\ g_lstart g + g_lsize g <= g_nsect g < 2 ^ 31;
  fo_sb_blocks : forall x, 0 <= x < g_lstart g -> is_block (v x);
  fo_meta : forall x, 0 <= x < dstart v -> x < sb_size (sb_of v) -> blk_free v x = false }.

(** Free blocks below the log. *)
Definition nfree g v : nat := length (filter (fun x => blk_free v x = true) (seqZ 0 (g_lstart g))).

Section layout.
Lemma IPB_eq : IPB = 8. Proof. done. Qed.
Lemma bitmap_mono g v x y : fs_ok g v -> 0 <= x <= y -> 3 <= bitmap_of v x <= bitmap_of v y.
Proof.
  intros Hf Hxy. unfold bitmap_of, BBLOCK. pose proof (fo_nin _ _ Hf). rewrite IPB_eq.
  pose proof (Z.div_pos (sb_ninodes (sb_of v)) 8).
  pose proof (Z.div_le_mono x y BPB). pose proof (Z.div_pos x BPB). unfold BPB, BSIZE in *. lia.
Qed.
Lemma bitmap_range g v x : fs_ok g v -> 0 <= x < sb_size (sb_of v) -> 3 <= bitmap_of v x < dstart v.
Proof.
  intros Hf Hx. pose proof (bitmap_mono g v x (sb_size (sb_of v) - 1) Hf). unfold dstart. lia.
Qed.
Lemma dstart_ge4 g v : fs_ok g v -> 4 <= dstart v.
Proof. intros Hf. pose proof (bitmap_range g v 0 Hf). pose proof (fo_pos _ _ Hf). lia. Qed.
Lemma data_below g v x : fs_ok g v -> 0 <= x < g_lstart g -> data_sector g x.
Proof. intros Hf Hx. pose proof (fo_log _ _ Hf). unfold data_sector. lia. Qed.
Lemma fs_bitmap_ok g v : fs_ok g v -> bitmap_ok g v.
Proof.
  intros Hf. pose proof (dstart_ge4 g v Hf). pose proof (fo_data _ _ Hf). split.
  - eapply data_below; [done|lia].
  - apply Hf.
  - intros b Hb. eapply data_below; [done|]. pose proof (bitmap_range g v b Hf Hb). lia.
Qed.

(** There is a first free block below the log when some block there is free. *)
Lemma first_free_below g v r :
  fs_ok g v -> (0 < nfree g v)%nat -> first_free v r -> dstart v <= r < g_lstart g.
Proof.
  intros Hf Hn ((Hr&Hrs)&Hfree&Hmin). unfold nfree in Hn.
  destruct (filter _ _) as [|y l] eqn:Hfl; [simpl in Hn; lia|].
  assert (Hy : y ∈ filter (fun x => blk_free v x = true) (seqZ 0 (g_lstart g))) by (rewrite Hfl; set_solver).
  apply list_elem_of_filter in Hy as [Hyf Hy%elem_of_seqZ].
  split.
  - destruct (decide (dstart v <= r)); [done|].
    assert (blk_free v r = false) by (apply (fo_meta _ _ Hf); lia). congruence.
  - destruct (decide (r <= y)); [lia|]. assert (blk_free v y = false) by (apply Hmin; lia). congruence.
Qed.
Lemma free_exists g v :
  fs_ok g v -> (0 < nfree g v)%nat ->
  ~ (forall x, 0 <= x < sb_size (sb_of v) -> blk_free v x = false).
Proof.
  intros Hf Hn Hall. unfold nfree in Hn.
  destruct (filter _ _) as [|y l] eqn:Hfl; [simpl in Hn; lia|].
  assert (Hy : y ∈ filter (fun x => blk_free v x = true) (seqZ 0 (g_lstart g))) by (rewrite Hfl; set_solver).
  apply list_elem_of_filter in Hy as [Hyf Hy%elem_of_seqZ].
  rewrite Hall in Hyf; [done|]. pose proof (fo_size _ _ Hf). lia.
Qed.
End layout.

(** ** One allocation *)
Definition alloc_view v (r : Z) : Z -> list Z :=
  let bb := bitmap_of v r in <[r := zero_block]> (<[bb := bit_set (r mod BPB) (v bb)]> v).

Section alloc.
Context (g : geo) (v : Z -> list Z) (r : Z).
Hypotheses (Hf : fs_ok g v) (Hr : dstart v <= r < g_lstart g) (Hfree : blk_free v r = true).

Let v' := alloc_view v r.
Let bb := bitmap_of v r.

Lemma alloc_size : 0 <= r < sb_size (sb_of v).
Proof using Hf Hr. pose proof (dstart_ge4 g v Hf). pose proof (fo_size _ _ Hf). lia. Qed.
Lemma alloc_bb : 3 <= bb < dstart v.
Proof using Hf Hr. apply (bitmap_range g); [done|apply alloc_size]. Qed.
Lemma alloc_at x : v' x = if decide (x = r) then zero_block else
  if decide (x = bb) then bit_set (r mod BPB) (v bb) else v x.
Proof.
  unfold v', alloc_view. fold bb. case_decide; [subst; apply fn_lookup_insert|].
  rewrite fn_lookup_insert_ne by done.
  case_decide; [subst; apply fn_lookup_insert|]. by rewrite fn_lookup_insert_ne.
Qed.
Lemma alloc_sb : sb_of v' = sb_of v.
Proof using Hf Hr.
  unfold sb_of. rewrite alloc_at. pose proof alloc_bb. pose proof (dstart_ge4 g v Hf).
  by rewrite !decide_False by lia.
Qed.
Lemma alloc_bitmap x : bitmap_of v' x = bitmap_of v x.
Proof using Hf Hr. unfold bitmap_of. by rewrite alloc_sb. Qed.
Lemma alloc_dstart : dstart v' = dstart v.
Proof using Hf Hr. unfold dstart. by rewrite alloc_bitmap, alloc_sb. Qed.
(** Data blocks other than the new one keep their contents. *)
Lemma alloc_data x : dstart v <= x -> x <> r -> v' x = v x.
Proof using Hf Hr. intros Hx Hne. pose proof alloc_bb. rewrite alloc_at. by rewrite !decide_False by lia. Qed.
Lemma alloc_meta x : x < dstart v -> x <> bb -> v' x = v x.
Proof using Hr. intros Hx Hne. rewrite alloc_at. by rewrite !decide_False by lia. Qed.

Lemma same_bit_block x : bitmap_of v x = bb -> x mod BPB = r mod BPB -> x = r.
Proof.
  unfold bb, bitmap_of, BBLOCK. intros Hq Hm. rewrite (Z.div_mod x BPB), (Z.div_mod r BPB) by done.
  replace (x / BPB) with (r / BPB) by lia. by rewrite Hm.
Qed.
Lemma alloc_free x : 0 <= x < sb_size (sb_of v) ->
  blk_free v' x = if decide (x = r) then false else blk_free v x.
Proof using Hf Hr.
  intros Hx. pose proof (bitmap_range g v x Hf Hx). pose proof (dstart_ge4 g v Hf).
  pose proof (fo_data _ _ Hf). pose proof alloc_bb.
  unfold blk_free at 1. rewrite alloc_bitmap, alloc_at. rewrite decide_False by lia.
  destruct (decide (bitmap_of v x = bb)) as [Hbb|Hbb].
  - rewrite bit_free_set; [|apply (fo_sb_blocks _ _ Hf); lia|apply Z.mod_pos_bound; done..].
    rewrite <- Hbb. fold (blk_free v x). destruct (decide (x = r)) as [->|Hxr].
    + by rewrite decide_True.
    + rewrite decide_False; [done|]. intros Hm. apply Hxr. by apply same_bit_block.
  - rewrite decide_False; [done|]. intros ->. done.
Qed.

Lemma alloc_fs_ok : fs_ok g v'.
Proof using Hf Hr.
  pose proof alloc_bb. pose proof (fo_data _ _ Hf).
  split; rewrite ?alloc_sb, ?alloc_dstart; try apply Hf.
  - intros x Hx. rewrite alloc_at. case_decide; [apply zero_is_block|]. case_decide; [|by apply Hf].
    apply block_bit_set; [apply Hf; lia|apply Z.mod_pos_bound; done].
  - intros x Hx Hxs. rewrite alloc_free by lia. case_decide; [done|]. by apply Hf.
Qed.

Lemma filter_remove (P Q : Z -> Prop) `{!forall x, Decision (P x), !forall x, Decision (Q x)} (l : list Z) :
  NoDup l -> r ∈ l -> P r -> (forall x, x ∈ l -> Q x <-> P x /\ x <> r) ->
  S (length (filter Q l)) = length (filter P l).
Proof.
  intros Hnd Hin HP HQ. assert (Hp : filter P l ≡ₚ r :: filter Q l); [|by rewrite Hp].
  apply NoDup_Permutation.
  - by apply NoDup_filter.
  - constructor; [|by apply NoDup_filter]. rewrite list_elem_of_filter. intros [Hq _].
    by apply HQ in Hq as [_ ?].
  - intros x. rewrite elem_of_cons, !list_elem_of_filter. split.
    + intros [HPx Hx]. destruct (decide (x = r)) as [->|]; [by left|right]. split; [by apply HQ|done].
    + intros [->|[Hq Hx]]; [done|]. split; [by apply HQ|done].
Qed.
Lemma alloc_nfree : S (nfree g v') = nfree g v.
Proof using Hf Hr Hfree.
  pose proof (dstart_ge4 g v Hf). pose proof (fo_size _ _ Hf). unfold nfree. apply filter_remove.
  - apply NoDup_seqZ.
  - apply elem_of_seqZ. lia.
  - done.
  - intros x Hx%elem_of_seqZ. rewrite alloc_free by lia. case_decide; [subst; naive_solver|naive_solver].
Qed.
End alloc.

(** ** Files *)

Definition ind_of A : Z := A !!! Z.to_nat NDIRECT.
(** Entry [k] of an indirect block. *)
Definition ind_ent (d : list Z) (k : Z) : Z := rd 4 (4 * k) d.
(** The block that holds block [bn] of the file; 0 if there is none. *)
Definition blkno v A bn : Z :=
  if bn <? NDIRECT then A !!! Z.to_nat bn
  else if ind_of A =? 0 then 0 else ind_ent (v (ind_of A)) (bn - NDIRECT).
(** The byte at position [p]; what was never written reads as zero. *)
Definition fbyte v A p : Z :=
  let a := blkno v A (p / BSIZE) in if a =? 0 then 0 else v a !!! Z.to_nat (p mod BSIZE).
Definition owns v A x : Prop :=
  x <> 0 /\ ((exists bn, 0 <= bn < MAXFILE /\ blkno v A bn = x) \/ ind_of A = x).

Record inode_ok g v A : Prop := {
  io_len : length A = 13%nat;
  io_range : forall x, owns v A x -> dstart v <= x < g_lstart g;
  io_used : forall x, owns v A x -> blk_free v x = false;
  io_inj : forall bn bn', 0 <= bn < MAXFILE -> 0 <= bn' < MAXFILE ->
    blkno v A bn <> 0 -> blkno v A bn = blkno v A bn' -> bn = bn';
  io_ind : forall bn, 0 <= bn < MAXFILE -> blkno v A bn <> 0 -> blkno v A bn <> ind_of A }.

(** A step of an operation on the file gives it the contents [f] and keeps
    the layout, the invariant and every other block in use. *)
Record becomes g v A v' A' (f : Z -> Z) : Prop := {
  k_sb : sb_of v' = sb_of v;
  k_fs : fs_ok g v';
  k_ino : inode_ok g v' A';
  k_bytes : forall p, 0 <= p < MAXFILE * BSIZE -> fbyte v' A' p = f p;
  k_frame : forall x, dstart v <= x < g_lstart g -> blk_free v x = false -> ~ owns v A x ->
    v' x = v x /\ blk_free v' x = false /\ ~ owns v' A' x;
  k_mono : forall bn, 0 <= bn < MAXFILE -> blkno v A bn <> 0 -> blkno v' A' bn = blkno v A bn;
  k_inodes : forall x, 0 <= x < bitmap_of v 0 -> v' x = v x }.
(** The contents of the file stay as they are. *)
Abbreviation kept g v A v' A' := (becomes g v A v' A' (fbyte v A)).

Section file.
Lemma MAXFILE_eq : MAXFILE = 140. Proof. done. Qed.

Lemma kept_refl g v A : fs_ok g v -> inode_ok g v A -> kept g v A v A.
Proof. intros. by split. Qed.
Lemma kept_dstart g v A v' A' f : becomes g v A v' A' f -> dstart v' = dstart v.
Proof. intros Hk. unfold dstart, bitmap_of. by rewrite (k_sb _ _ _ _ _ _ Hk). Qed.
Lemma kept_trans g v A v1 A1 f1 v2 A2 f2 :
  becomes g v A v1 A1 f1 -> becomes g v1 A1 v2 A2 f2 -> becomes g v A v2 A2 f2.
Proof.
  intros H1 H2. pose proof (kept_dstart _ _ _ _ _ _ H1) as Hd. split.
  - rewrite (k_sb _ _ _ _ _ _ H2). apply H1.
  - apply H2.
  - apply H2.
  - apply H2.
  - intros x Hx Hfr Ho. destruct (k_frame _ _ _ _ _ _ H1 x Hx Hfr Ho) as (Hv&Hf1&Ho1).
    rewrite <- Hd in Hx. destruct (k_frame _ _ _ _ _ _ H2 x Hx Hf1 Ho1) as (Hv2&?&?).
    split_and!; [congruence|done..].
  - intros bn Hbn Hne. pose proof (k_mono _ _ _ _ _ _ H1 bn Hbn Hne) as He.
    rewrite (k_mono _ _ _ _ _ _ H2) by (done || congruence). done.
  - intros x Hx. rewrite (k_inodes _ _ _ _ _ _ H2).
    + by apply (k_inodes _ _ _ _ _ _ H1).
    + unfold bitmap_of in *. by rewrite (k_sb _ _ _ _ _ _ H1).
Qed.
Lemma becomes_ext g v A v' A' f f' :
  becomes g v A v' A' f -> (forall p, 0 <= p < MAXFILE * BSIZE -> f p = f' p) -> becomes g v A v' A' f'.
Proof. intros [] Hff. split; [done|done|done| |done..]. intros p Hp. rewrite <- Hff by done. auto. Qed.

Lemma zero_byte (k : nat) : (k < 512)%nat -> zero_block !!! k = 0.
Proof. intros Hk. by apply lookup_total_replicate_2. Qed.
Lemma zero_rd (w : nat) (o : Z) : 0 <= o -> rd w o zero_block = 0.
Proof.
  intros Ho. unfold rd, slice, zero_block. rewrite drop_replicate, take_replicate.
  generalize (Z.to_nat (Z.of_nat w) `min` (512 - Z.to_nat o))%nat as k.
  induction k as [|k IH]; [done|]. simpl. by rewrite IH.
Qed.
Lemma div_file p : 0 <= p < MAXFILE * BSIZE -> 0 <= p / BSIZE < MAXFILE.
Proof.
  rewrite MAXFILE_eq. unfold BSIZE. intros. split; [apply Z.div_pos; lia|].
  apply Z.div_lt_upper_bound; lia.
Qed.

(** A file changes its bytes only where its block numbers or the blocks do. *)
Lemma fbyte_ext v A v' A' p :
  (blkno v A (p / BSIZE) <> 0 -> blkno v' A' (p / BSIZE) = blkno v A (p / BSIZE) /\
    v' (blkno v A (p / BSIZE)) = v (blkno v A (p / BSIZE))) ->
  (blkno v A (p / BSIZE) = 0 -> blkno v' A' (p / BSIZE) = 0 \/ v' (blkno v' A' (p / BSIZE)) = zero_block) ->
  fbyte v' A' p = fbyte v A p.
Proof.
  intros Hne Hz. unfold fbyte. destruct (Z.eqb_spec (blkno v A (p / BSIZE)) 0) as [H0|H0].
  - destruct (Hz H0) as [->| ->]; [done|]. case_match; [done|].
    apply zero_byte. pose proof (Z.mod_pos_bound p BSIZE). unfold BSIZE in *. lia.
  - destruct (Hne H0) as [-> ->]. by rewrite (proj2 (Z.eqb_neq _ _)).
Qed.
Lemma owns_blk v A bn : 0 <= bn < MAXFILE -> blkno v A bn <> 0 -> owns v A (blkno v A bn).
Proof. intros Hb Hne. split; [done|]. left. by exists bn. Qed.
Lemma owns_ind v A : ind_of A <> 0 -> owns v A (ind_of A).
Proof. intros Hne. split; [done|]. by right. Qed.
End file.

(** ** The three ways bmap allocates *)
Section grow.
Context (g : geo) (v : Z -> list Z) (A : list Z) (r : Z).
Hypotheses (Hf : fs_ok g v) (Hi : inode_ok g v A).
Hypotheses (Hr : dstart v <= r < g_lstart g) (Hfree : blk_free v r = true).
Let v' := alloc_view v r.

Lemma grow_new x : owns v A x -> x <> r.
Proof using Hi Hfree. intros Ho ->. pose proof (io_used _ _ _ Hi r Ho). congruence. Qed.
Lemma grow_same x : owns v A x -> v' x = v x.
Proof using Hf Hi Hr Hfree.
  intros Ho. apply (alloc_data g v r Hf Hr); [|by apply grow_new]. by apply (io_range _ _ _ Hi).
Qed.
Lemma grow_used x : owns v A x -> blk_free v' x = false.
Proof using Hf Hi Hr.
  intros Ho. pose proof (io_range _ _ _ Hi x Ho). pose proof (dstart_ge4 g v Hf).
  pose proof (fo_size _ _ Hf). unfold v'. rewrite (alloc_free g v r Hf Hr) by lia.
  case_decide; [done|]. by apply (io_used _ _ _ Hi).
Qed.
Lemma grow_frame x : dstart v <= x < g_lstart g -> blk_free v x = false -> v' x = v x /\ blk_free v' x = false.
Proof using Hf Hr Hfree.
  intros Hx Hb. assert (x <> r) by congruence. pose proof (dstart_ge4 g v Hf). pose proof (fo_size _ _ Hf).
  split; [apply (alloc_data g v r Hf Hr); [lia|done]|]. unfold v'. rewrite (alloc_free g v r Hf Hr) by lia.
  by rewrite decide_False.
Qed.
Lemma grow_inodes x : 0 <= x < bitmap_of v 0 -> v' x = v x.
Proof using Hf Hr.
  intros Hx. pose proof (bitmap_mono g v 0 r Hf). pose proof (dstart_ge4 g v Hf).
  pose proof (alloc_bb g v r Hf Hr). apply (alloc_meta g v r Hr); lia.
Qed.

Lemma r_used : blk_free v' r = false.
Proof using Hf Hr.
  unfold v'. rewrite (alloc_free g v r Hf Hr); [by rewrite decide_True|by apply (alloc_size g)].
Qed.

(** A new block numbering [A'] on a disk [v2] that has [r] as block [c] of
    the file, or as its indirect block (then [c] is no block of a file). *)
Context (v2 : Z -> list Z) (A' : list Z) (c : Z).
Hypotheses (Hlen : length A' = 13%nat) (Hf2 : fs_ok g v2) (Hsb2 : sb_of v2 = sb_of v).
Hypothesis (Hfree2 : forall x, 0 <= x < sb_size (sb_of v) -> blk_free v2 x = blk_free v' x).
Hypothesis (Hv2 : forall x, x <> ind_of A' \/ ind_of A' = 0 -> v2 x = v' x).
Hypothesis (Hblk : forall bn, 0 <= bn < MAXFILE ->
  blkno v2 A' bn = if decide (bn = c) then r else blkno v A bn).
Hypothesis (Hind : ind_of A' = ind_of A \/ (ind_of A = 0 /\ ind_of A' = r /\ ~ 0 <= c < MAXFILE)).
Hypothesis (Hc : 0 <= c < MAXFILE -> blkno v A c = 0).

Lemma grow_owns x : owns v2 A' x -> owns v A x \/ x = r.
Proof using Hblk Hind.
  intros [Hx [(bn&Hbn&<-)|<-]].
  - rewrite Hblk in * by done. case_decide; [by right|]. left. by apply owns_blk.
  - destruct Hind as [Heq|(_&->&_)]; [|by right]. left. rewrite Heq in Hx |- *. by apply owns_ind.
Qed.
Lemma ind_not_owned x : owns v A x -> x <> ind_of A -> x <> ind_of A'.
Proof using Hi Hfree Hind.
  intros Ho Hne. destruct Hind as [->|(_&->&_)]; [done|]. by apply grow_new.
Qed.

Lemma grow_inode_ok : inode_ok g v2 A'.
Proof using All.
  assert (Hd : dstart v2 = dstart v) by (unfold dstart, bitmap_of; by rewrite Hsb2).
  pose proof (dstart_ge4 g v Hf). pose proof (fo_size _ _ Hf). split; [done| | | |].
  - intros x [Ho| ->]%grow_owns; rewrite Hd; [by apply Hi|done].
  - intros x [Ho| ->]%grow_owns.
    + pose proof (io_range _ _ _ Hi x Ho). rewrite Hfree2 by lia. by apply grow_used.
    + rewrite Hfree2 by lia. apply r_used.
  - intros bn bn' Hb Hb'. rewrite !Hblk by done. intros Hne Heq. destruct (decide (bn = c)), (decide (bn' = c)); [congruence| | |].
    + exfalso. apply (grow_new (blkno v A bn')); [apply owns_blk; congruence|done].
    + exfalso. apply (grow_new (blkno v A bn)); [by apply owns_blk|done].
    + by apply (io_inj _ _ _ Hi).
  - intros bn Hb. rewrite Hblk by done. case_decide as Hbc.
    + intros _. destruct Hind as [->|(_&_&Hout)]; [|by rewrite Hbc in Hb]. intros Heq.
      apply (grow_new r); [|done]. rewrite Heq. apply owns_ind. lia.
    + intros Hne. apply ind_not_owned; [by apply owns_blk|by apply Hi].
Qed.

Lemma grow_kept : (0 <= c < MAXFILE -> v2 r = zero_block) -> kept g v A v2 A'.
Proof using All.
  intros Hz. pose proof (dstart_ge4 g v Hf) as Hd4. split; [done|done|apply grow_inode_ok| | | |].
  - intros p Hp. pose proof (div_file p Hp) as Hq. apply fbyte_ext; rewrite Hblk by done.
    + intros Hne. rewrite decide_False by (intros Heq; apply Hne; rewrite Heq; apply Hc; by rewrite <- Heq).
      split; [done|]. assert (Ho : owns v A (blkno v A (p / BSIZE))) by (by apply owns_blk).
      rewrite Hv2; [by apply grow_same|]. left. apply ind_not_owned; [done|by apply Hi].
    + intros H0. case_decide as Hcq; [right; apply Hz; by rewrite <- Hcq|by left].
  - intros x Hx Hb Hno. destruct (grow_frame x Hx Hb) as [Hv Hb']. pose proof (fo_size _ _ Hf).
    rewrite Hfree2 by lia. split_and!; [|done|].
    + rewrite Hv2; [done|]. destruct (decide (ind_of A' = 0)) as [|Hne]; [by right|left].
      intros ->. destruct Hind as [Heq|(_&Heq&_)].
      * apply Hno. rewrite Heq. apply owns_ind. by rewrite <- Heq.
      * rewrite Heq in Hb. congruence.
    + intros [Ho| ->]%grow_owns; [done|congruence].
  - intros bn Hbn Hne. rewrite Hblk by done. rewrite decide_False; [done|].
    intros ->. apply Hne. by apply Hc.
  - intros x Hx. rewrite Hv2; [by apply grow_inodes|].
    destruct (decide (ind_of A' = 0)) as [|Hne]; [by right|left]. intros ->.
    pose proof (bitmap_range g v 0 Hf). pose proof (fo_pos _ _ Hf).
    destruct Hind as [Heq|(_&Heq&_)].
    + pose proof (io_range _ _ _ Hi (ind_of A)). destruct (owns_ind v A); [congruence|].
      assert (dstart v <= ind_of A); [|rewrite Heq in Hx; lia]. apply (io_range _ _ _ Hi), owns_ind. congruence.
    + rewrite Heq in Hx. lia.
Qed.
End grow.

(** ** Storing into a data block *)
Lemma filter_ext_in (P Q : Z -> Prop) `{!forall x, Decision (P x), !forall x, Decision (Q x)} (l : list Z) :
  (forall x, x ∈ l -> P x <-> Q x) -> filter P l = filter Q l.
Proof.
  induction l as [|y l IH]; intros HPQ; [done|]. rewrite !filter_cons. rewrite IH by set_solver.
  pose proof (HPQ y ltac:(set_solver)). do 2 case_decide; tauto.
Qed.
Section store.
Context (g : geo) (v : Z -> list Z) (x : Z) (d : list Z).
Hypotheses (Hf : fs_ok g v) (Hx : dstart v <= x < g_lstart g) (Hd : is_block d).
Let v' : Z -> list Z := <[x := d]> v.

Lemma store_sb : sb_of v' = sb_of v.
Proof using Hf Hx.
  unfold sb_of, v'. pose proof (dstart_ge4 g v Hf). by rewrite fn_lookup_insert_ne by lia.
Qed.
Lemma store_bitmap y : bitmap_of v' y = bitmap_of v y.
Proof using Hf Hx. unfold bitmap_of. by rewrite store_sb. Qed.
Lemma store_dstart : dstart v' = dstart v.
Proof using Hf Hx. unfold dstart. by rewrite store_bitmap, store_sb. Qed.
Lemma store_free y : 0 <= y < sb_size (sb_of v) -> blk_free v' y = blk_free v y.
Proof using Hf Hx.
  intros Hy. unfold blk_free. rewrite store_bitmap. pose proof (bitmap_range g v y Hf Hy).
  unfold v'. by rewrite fn_lookup_insert_ne by lia.
Qed.
Lemma store_fs_ok : fs_ok g v'.
Proof using All.
  split; rewrite ?store_sb, ?store_dstart; try apply Hf.
  - intros y Hy. unfold v'. destruct (decide (y = x)) as [->|]; [by rewrite fn_lookup_insert|].
    rewrite fn_lookup_insert_ne by done. by apply Hf.
  - intros y Hy Hys. rewrite store_free by lia. by apply Hf.
Qed.
Lemma store_nfree : nfree g v' = nfree g v.
Proof using Hf Hx.
  unfold nfree. f_equal. apply filter_ext_in. intros y Hy%elem_of_seqZ.
  rewrite store_free; [done|]. pose proof (fo_size _ _ Hf). lia.
Qed.
End store.

Section cases.
Context (g : geo) (v : Z -> list Z) (A : list Z) (r : Z).
Hypotheses (Hf : fs_ok g v) (Hi : inode_ok g v A).
Hypotheses (Hr : dstart v <= r < g_lstart g) (Hfree : blk_free v r = true).
Let v' := alloc_view v r.

Lemma alloc_new : v' r = zero_block.
Proof. unfold v', alloc_view. apply fn_lookup_insert. Qed.

(** What the new numbering maps. *)
Lemma direct_ind bn : 0 <= bn < NDIRECT -> ind_of (<[Z.to_nat bn := r]> A) = ind_of A.
Proof. intros Hb. unfold ind_of, NDIRECT in *. apply list_lookup_total_insert_ne. lia. Qed.
Lemma direct_blkno bn bn' :
  0 <= bn < NDIRECT -> 0 <= bn' ->
  blkno v' (<[Z.to_nat bn := r]> A) bn' = if decide (bn' = bn) then r else blkno v A bn'.
Proof using All.
  intros Hb Hb'. pose proof (io_len _ _ _ Hi) as Hl. unfold blkno. rewrite direct_ind by done.
  unfold NDIRECT in *. destruct (Z.ltb_spec bn' 12) as [Hlt|Hge].
  - case_decide as Heq; [rewrite Heq; apply list_lookup_total_insert_eq; lia|].
    apply list_lookup_total_insert_ne. lia.
  - rewrite decide_False by lia. destruct (Z.eqb_spec (ind_of A) 0) as [|Hne]; [done|].
    unfold v'. rewrite (grow_same g v A r Hf Hi Hr Hfree); [done|by apply owns_ind].
Qed.
Lemma grow_direct bn :
  0 <= bn < NDIRECT -> A !!! Z.to_nat bn = 0 -> kept g v A v' (<[Z.to_nat bn := r]> A).
Proof using All.
  intros Hb H0. pose proof (io_len _ _ _ Hi) as Hl.
  apply (grow_kept g v A r Hf Hi Hr Hfree v' _ bn).
  - by rewrite length_insert.
  - by apply alloc_fs_ok.
  - by apply (alloc_sb g).
  - done.
  - done.
  - intros bn' Hb'. apply direct_blkno; [done|lia].
  - left. by apply direct_ind.
  - intros _. unfold blkno. by rewrite (proj2 (Z.ltb_lt _ _)) by lia.
  - intros _. apply alloc_new.
Qed.

Lemma indirect_ind : ind_of (<[Z.to_nat NDIRECT := r]> A) = r.
Proof using Hi.
  unfold ind_of. apply list_lookup_total_insert_eq. rewrite (io_len _ _ _ Hi). unfold NDIRECT. lia.
Qed.
Lemma indirect_blkno bn :
  ind_of A = 0 -> 0 <= bn -> blkno v' (<[Z.to_nat NDIRECT := r]> A) bn = blkno v A bn.
Proof using All.
  intros H0 Hb. pose proof (dstart_ge4 g v Hf). unfold blkno. rewrite indirect_ind, H0.
  destruct (Z.ltb_spec bn NDIRECT) as [Hlt|Hge].
  - apply list_lookup_total_insert_ne. unfold NDIRECT in *. lia.
  - rewrite (proj2 (Z.eqb_neq _ _)) by lia. rewrite alloc_new. unfold ind_ent. rewrite zero_rd by lia. done.
Qed.
Lemma grow_indirect : ind_of A = 0 -> kept g v A v' (<[Z.to_nat NDIRECT := r]> A).
Proof using All.
  intros H0. pose proof (io_len _ _ _ Hi) as Hl. pose proof indirect_ind as Hind.
  apply (grow_kept g v A r Hf Hi Hr Hfree v' _ (-1)).
  - by rewrite length_insert.
  - by apply alloc_fs_ok.
  - by apply (alloc_sb g).
  - done.
  - done.
  - intros bn Hb. rewrite decide_False by lia. apply indirect_blkno; [done|lia].
  - right. split_and!; [done..|lia].
  - lia.
  - lia.
Qed.

Lemma entry_blkno (k bn : Z) :
  0 <= k < NINDIRECT -> ind_of A <> 0 -> 0 <= bn < MAXFILE ->
  blkno (<[ind_of A := wr 4 (4 * k) r (v' (ind_of A))]> v') A bn =
  if decide (bn = NDIRECT + k) then r else blkno v A bn.
Proof using All.
  change NINDIRECT with 128. rewrite MAXFILE_eq. intros Hk Hne Hb. set (ia := ind_of A) in *.
  assert (Ho : owns v A ia) by (by apply owns_ind).
  assert (Hia : dstart v <= ia < g_lstart g) by (by apply (io_range _ _ _ Hi)).
  assert (Hsame : v' ia = v ia) by (by apply (grow_same g v A r Hf Hi Hr Hfree)).
  assert (Hblk : is_block (v ia)) by (apply (fo_sb_blocks _ _ Hf); pose proof (dstart_ge4 g v Hf); lia).
  assert (Hr2 : r mod 256 ^ Z.of_nat 4 = r).
  { apply Z.mod_small. pose proof (fo_log _ _ Hf). pose proof (dstart_ge4 g v Hf). lia. }
  unfold blkno, NDIRECT. fold ia.
  rewrite (proj2 (Z.eqb_neq ia 0)), fn_lookup_insert by done.
  destruct (Z.ltb_spec bn 12) as [Hlt|Hge]; [by rewrite decide_False by lia|].
  unfold ind_ent. case_decide as Heq.
  - replace (bn - 12) with k by lia. rewrite rd_wr_eq; [done|lia|]. destruct Hblk as [Hl _].
    rewrite Hsame, Hl. lia.
  - rewrite rd_wr_ne by lia. by rewrite Hsame.
Qed.
Lemma grow_entry (k : Z) :
  0 <= k < NINDIRECT -> ind_of A <> 0 -> ind_ent (v (ind_of A)) k = 0 ->
  kept g v A (<[ind_of A := wr 4 (4 * k) r (v' (ind_of A))]> v') A.
Proof using All.
  change NINDIRECT with 128. intros Hk Hne H0. set (ia := ind_of A) in *.
  assert (Ho : owns v A ia) by (by apply owns_ind).
  assert (Hia : dstart v <= ia < g_lstart g) by (by apply (io_range _ _ _ Hi)).
  assert (Hsame : v' ia = v ia) by (by apply (grow_same g v A r Hf Hi Hr Hfree)).
  assert (Hrne : r <> ia) by (intros Heq; by apply (grow_new g v A r Hi Hfree ia)).
  assert (Hf' : fs_ok g v') by (by apply alloc_fs_ok).
  assert (Hd' : dstart v' = dstart v) by (by apply (alloc_dstart g)).
  assert (Hblk : is_block (v ia)) by (apply (fo_sb_blocks _ _ Hf); pose proof (dstart_ge4 g v Hf); lia).
  set (w := wr 4 (4 * k) r (v' ia)).
  assert (Hw : is_block w).
  { unfold w. rewrite Hsame. destruct Hblk. split; [by rewrite length_wr|by apply bytes_wr]. }
  rewrite <- Hd' in Hia. set (v2 := <[ia := w]> v').
  apply (grow_kept g v A r Hf Hi Hr Hfree v2 A (NDIRECT + k)).
  - apply Hi.
  - by apply store_fs_ok.
  - unfold v2. rewrite (store_sb g) by done. by apply (alloc_sb g).
  - intros x Hx. unfold v2. rewrite (store_free g); [done..|]. unfold v'. by rewrite (alloc_sb g).
  - intros x Hx. unfold v2. apply fn_lookup_insert_ne. fold ia in Hx. destruct Hx; congruence.
  - intros bn Hb. by apply entry_blkno.
  - by left.
  - intros _. unfold blkno. fold ia. rewrite (proj2 (Z.ltb_ge _ _)), (proj2 (Z.eqb_neq ia 0)) by (done || lia).
    rewrite <- H0. f_equal. lia.
  - intros _. unfold v2. rewrite fn_lookup_insert_ne by done. apply alloc_new.
Qed.
End cases.

(** ** Writing into a block of the file *)
Section update.
Context (g : geo) (v : Z -> list Z) (A : list Z) (bn : Z) (d : list Z).
Hypotheses (Hf : fs_ok g v) (Hi : inode_ok g v A) (Hbn : 0 <= bn < MAXFILE).
Let a := blkno v A bn.
Hypotheses (Ha : a <> 0) (Hd : is_block d).
Let v' : Z -> list Z := <[a := d]> v.

Lemma update_range : dstart v <= a < g_lstart g.
Proof using Hi Hbn Ha. apply (io_range _ _ _ Hi). by apply owns_blk. Qed.
Lemma update_ind : ind_of A <> 0 -> v' (ind_of A) = v (ind_of A).
Proof using Hi Hbn Ha.
  intros Hne. unfold v'. apply fn_lookup_insert_ne. by apply (io_ind _ _ _ Hi).
Qed.
Lemma update_blkno bn' : blkno v' A bn' = blkno v A bn'.
Proof using Hi Hbn Ha.
  unfold blkno. case_match; [done|]. destruct (Z.eqb_spec (ind_of A) 0); [done|]. by rewrite update_ind.
Qed.
Lemma update_owns x : owns v' A x <-> owns v A x.
Proof using Hi Hbn Ha.
  unfold owns. split; intros [Hx [(n&Hn&Heq)|Heq]]; (split; [done|]); (by right) ||
    (left; exists n; rewrite update_blkno in *; done).
Qed.
Lemma update_becomes : becomes g v A v' A
  (fun p => if decide (p / BSIZE = bn) then d !!! Z.to_nat (p mod BSIZE) else fbyte v A p).
Proof using All.
  pose proof update_range as Hr. pose proof (fo_size _ _ Hf). pose proof (dstart_ge4 g v Hf).
  split.
  - by apply (store_sb g).
  - by apply store_fs_ok.
  - split; [apply Hi|..].
    + intros x Hx%update_owns. unfold v'. rewrite (store_dstart g) by done. by apply Hi.
    + intros x Hx%update_owns. pose proof (io_range _ _ _ Hi x Hx). unfold v'.
      rewrite (store_free g) by (done || lia). by apply Hi.
    + intros b1 b2 H1 H2. rewrite !update_blkno. by apply Hi.
    + intros b1 H1. rewrite update_blkno. by apply Hi.
  - intros p Hp. unfold fbyte. rewrite update_blkno. case_decide as Hpb.
    + rewrite Hpb. fold a. rewrite (proj2 (Z.eqb_neq a 0)) by done. unfold v'. by rewrite fn_lookup_insert.
    + destruct (Z.eqb_spec (blkno v A (p / BSIZE)) 0) as [|Hne]; [done|]. unfold v'.
      rewrite fn_lookup_insert_ne; [done|]. intros Heq. apply Hpb. symmetry.
      apply (io_inj _ _ _ Hi); [done|by apply div_file|done|done].
  - intros x Hx Hb Ho. split_and!.
    + unfold v'. apply fn_lookup_insert_ne. intros Heq. apply Ho. rewrite <- Heq. by apply owns_blk.
    + unfold v'. rewrite (store_free g) by (done || lia). done.
    + by rewrite update_owns.
  - intros bn' _ _. apply update_blkno.
  - intros x Hx. unfold v'. apply fn_lookup_insert_ne.
    pose proof (bitmap_range g v 0 Hf). pose proof (fo_pos _ _ Hf). lia.
Qed.
End update.

(** ** Storing into an inode block *)
Section istore.
Context (g : geo) (v : Z -> list Z) (x : Z) (d : list Z).
Hypotheses (Hf : fs_ok g v) (Hx : 2 <= x < bitmap_of v 0) (Hd : is_block d).
Let v' : Z -> list Z := <[x := d]> v.

Lemma istore_other y : y = 1 \/ bitmap_of v 0 <= y -> v' y = v y.
Proof using Hx. intros Hy. unfold v'. apply fn_lookup_insert_ne. lia. Qed.
Lemma istore_sb : sb_of v' = sb_of v.
Proof using Hx. unfold sb_of. by rewrite istore_other by lia. Qed.
Lemma istore_bitmap y : bitmap_of v' y = bitmap_of v y.
Proof using Hx. unfold bitmap_of. by rewrite istore_sb. Qed.
Lemma istore_dstart : dstart v' = dstart v.
Proof using Hx. unfold dstart. by rewrite istore_bitmap, istore_sb. Qed.
Lemma istore_free y : 0 <= y -> blk_free v' y = blk_free v y.
Proof using Hf Hx.
  intros Hy. unfold blk_free. rewrite istore_bitmap, istore_other; [done|].
  pose proof (bitmap_mono g v 0 y Hf). lia.
Qed.
Lemma istore_fs_ok : fs_ok g v'.
Proof using All.
  split; rewrite ?istore_sb, ?istore_dstart; try apply Hf.
  - intros y Hy. unfold v'. destruct (decide (y = x)) as [->|]; [by rewrite fn_lookup_insert|].
    rewrite fn_lookup_insert_ne by done. by apply Hf.
  - intros y Hy Hys. rewrite istore_free by lia. by apply Hf.
Qed.

Lemma data_above A y : inode_ok g v A -> owns v A y -> bitmap_of v 0 <= y.
Proof using Hf.
  intros Hi Ho. pose proof (io_range _ _ _ Hi y Ho). pose proof (bitmap_range g v 0 Hf).
  pose proof (fo_pos _ _ Hf). lia.
Qed.
Lemma istore_blkno A bn : inode_ok g v A -> blkno v' A bn = blkno v A bn.
Proof using Hf Hx.
  intros Hi. unfold blkno. case_match; [done|]. destruct (Z.eqb_spec (ind_of A) 0) as [|Hne]; [done|].
  rewrite istore_other; [done|]. right. eapply data_above; [done|]. by apply owns_ind.
Qed.
Lemma istore_owns A y : inode_ok g v A -> owns v' A y <-> owns v A y.
Proof using Hf Hx.
  intros Hi. unfold owns. split; intros [Hy [(n&Hn&Heq)|Heq]]; (split; [done|]); (by right) ||
    (left; exists n; rewrite istore_blkno in *; done).
Qed.
Lemma istore_inode_ok A : inode_ok g v A -> inode_ok g v' A.
Proof using All.
  intros Hi. split; [apply Hi|..].
  - intros y Hy%istore_owns; [|done]. rewrite istore_dstart. by apply Hi.
  - intros y Hy%istore_owns; [|done]. pose proof (data_above A y Hi Hy).
    pose proof (bitmap_mono g v 0 0 Hf). rewrite istore_free by lia. by apply Hi.
  - intros b1 b2 H1 H2. rewrite !istore_blkno by done. by apply Hi.
  - intros b1 H1. rewrite istore_blkno by done. by apply Hi.
Qed.
Lemma istore_fbyte A p :
  inode_ok g v A -> 0 <= p < MAXFILE * BSIZE -> fbyte v' A p = fbyte v A p.
Proof using Hf Hx.
  intros Hi Hp. unfold fbyte. rewrite istore_blkno by done.
  destruct (Z.eqb_spec (blkno v A (p / BSIZE)) 0) as [|Hne]; [done|].
  rewrite istore_other; [done|]. right. eapply data_above; [done|]. apply owns_blk; [by apply div_file|done].
Qed.
End istore.

(** A file without blocks. *)
Lemma blkno_empty v bn : 0 <= bn -> blkno v (replicate 13 0) bn = 0.
Proof.
  intros Hbn. unfold blkno. change (ind_of (replicate 13 0)) with 0.
  destruct (Z.ltb_spec bn NDIRECT) as [Hlt|]; [|done].
  apply lookup_total_replicate_2. unfold NDIRECT in *. lia.
Qed.
Lemma owns_empty v x : ~ owns v (replicate 13 0) x.
Proof. intros [Hx [(bn&Hbn&Heq)|Heq]]; [rewrite blkno_empty in Heq by lia; congruence|]. by rewrite <- Heq in Hx. Qed.
Lemma inode_ok_empty g v : inode_ok g v (replicate 13 0).
Proof.
  split; [done|..].
  - intros x Hx. by destruct (owns_empty v x).
  - intros x Hx. by destruct (owns_empty v x).
  - intros bn bn' Hbn _ Hne. by rewrite blkno_empty in Hne by lia.
  - intros bn Hbn Hne. by rewrite blkno_empty in Hne by lia.
Qed.
