(* ===== verification/FsSpec.v ===== *)
(** Files on disk: bmap, readi, writei, iupdate and the inode cache of fs.c
    against the contents of files ([fbyte]) of [FsFile]. *)
From S2P Require Import Prelude Params Str Bio BioSpec Log LogSpec Trans BlockIf Fs FsBlocks FsFile.

Lemma alter_Some {A} (f : A -> A) (l : list A) (i : nat) (x : A) :
  l !! i = Some x -> alter f i l = <[i := f x]> l.
Proof.
  intros Hl. apply list_eq. intros j. destruct (decide (i = j)) as [<-|Hij].
  - rewrite list_lookup_alter_eq, Hl. simpl. rewrite list_lookup_insert_eq; [done|].
    by eapply lookup_lt_Some.
  - by rewrite list_lookup_alter_ne, list_lookup_insert_ne.
Qed.

(** Data blocks the operation still has to pay for the indirect block. *)
Definition owed (A : list Z) : nat := if ind_of A =? 0 then 1 else 0.

(** The setting of an operation on the file with block numbers [A]: a
    transaction is running, no buffer is locked, [n] more blocks of the file
    can be logged and, if need be, allocated. *)
Record fctx (g : geo) (t : tdisk) (A L : list Z) (n : nat) : Prop := {
  fc_fs : fs_ok g (t_view t);
  fc_ino : inode_ok g (t_view t) A;
  fc_act : t_active t = true;
  fc_held : t_held t = ∅;
  fc_bm : forall x, 0 <= x < g_lstart g -> bitmap_of (t_view t) x ∈ L;
  fc_ind : ind_of A <> 0 -> ind_of A ∈ L;
  fc_fits : fits g t L (n + owed A) 2;
  fc_free : (n + owed A <= nfree g (t_view t))%nat }.

Section files.
Context {S : Type} `{BlockLayer S}.
Implicit Types (g : geo) (b : S) (ic : list inode) (wk : list chan) (t : tdisk) (L A : list Z) (ip : nat).

Lemma wp_geti ic ip x b wk E (Q : inode -> fsys -> Prop) :
  ic !! ip = Some x -> Q x (mkFs b ic wk) -> wp (geti ip) E Q (mkFs b ic wk).
Proof. intros Hx HQ. unfold wp, geti. simpl. by rewrite Hx. Qed.
Lemma wp_updi ic ip x f b wk E (Q : unit -> fsys -> Prop) :
  ic !! ip = Some x -> Q tt (mkFs b (<[ip := f x]> ic) wk) -> wp (updi ip f) E Q (mkFs b ic wk).
Proof. intros Hx HQ. unfold updi, geti, bind, wp. simpl. by rewrite Hx. Qed.

Lemma unlocked_none t x : t_held t = ∅ -> unlocked t x.
Proof. intros Ht i m. by rewrite Ht. Qed.

(** balloc inside a file operation; the buffers that may be locked hold data
    blocks in use. *)
Definition held_ok t : Prop := forall i x m, t_held t !! i = Some (x, m) ->
  dstart (t_view t) <= x /\ blk_free (t_view t) x = false.
Lemma fits_alloc g t L n h r :
  bitmap_of (t_view t) r ∈ L -> fits g t L (Datatypes.S n) h -> fits g (t_alloc r t) (r :: L) n h.
Proof.
  intros Hb Hf. unfold t_alloc. apply fits_write; [set_solver|]. apply fits_write; [set_solver|].
  by apply fits_more.
Qed.
Lemma balloc_file g b ic wk t L n h E :
  bl_rep g b t -> fs_ok g (t_view t) -> t_active t = true -> held_ok t ->
  (forall x, 0 <= x < g_lstart g -> bitmap_of (t_view t) x ∈ L) ->
  fits g t L (Datatypes.S n) (Datatypes.S h) -> (0 < nfree g (t_view t))%nat ->
  wp (balloc 1) E (fun r s => exists b', s = mkFs b' ic wk /\
    dstart (t_view t) <= r < g_lstart g /\ blk_free (t_view t) r = true /\
    bl_rep g b' (t_alloc r t) /\ fits g (t_alloc r t) (r :: L) n (Datatypes.S h)) (mkFs b ic wk).
Proof.
  intros Hr Hf Ha Hh Hbm Hfit Hn. pose proof (dstart_ge4 _ _ Hf) as Hd4.
  assert (Hul : forall y, y < dstart (t_view t) -> unlocked t y).
  { intros y Hy i m Hi. destruct (Hh i y m Hi). lia. }
  assert (Hff : forall r, first_free (t_view t) r -> dstart (t_view t) <= r < g_lstart g)
    by (intros; by eapply first_free_below).
  eapply wp_post; [eapply (balloc_ok g b ic wk t L); [done|by apply fs_bitmap_ok|done|apply Hul; lia| |exact Hfit| |]|].
  - intros y Hy. apply Hul. by apply (bitmap_range g).
  - intros r Hr'. pose proof (Hff r Hr') as Hrr. split_and!.
    + eapply data_below; [done|lia].
    + intros i m Hi. destruct (Hh i r m Hi) as [_ Hb]. destruct Hr' as (_&Hb'&_). congruence.
    + apply Hbm. lia.
  - intros Hno. by destruct (free_exists g (t_view t) Hf Hn).
  - intros r s (Hr'&b'&->&Hr1). exists b'. pose proof (Hff r Hr') as Hrr. split_and!; [done|lia|lia|apply Hr'|done|].
    apply fits_alloc; [apply Hbm; lia|done].
Qed.

(** The setting after a step that logged only sectors of the new [L']. *)
Lemma fctx_step g t A L n t' A' L' n' f :
  fctx g t A L n -> becomes g (t_view t) A (t_view t') A' f ->
  t_active t' = true -> t_held t' = ∅ -> (forall x, x ∈ L -> x ∈ L') ->
  (ind_of A' <> 0 -> ind_of A' ∈ L') -> fits g t' L' (n' + owed A') 2 ->
  (n' + owed A' <= nfree g (t_view t'))%nat -> fctx g t' A' L' n'.
Proof.
  intros Hc Hk Ha Hh HL Hi Hfit Hn. split; [apply Hk|apply Hk|done|done| |done..].
  intros x Hx. apply HL. unfold bitmap_of. rewrite (k_sb _ _ _ _ _ _ Hk). by apply (fc_bm _ _ _ _ _ Hc).
Qed.

(** What bmap has done when it returns [a] for block [bn]. *)
Definition bmap_post g ic wk ip (x : inode) t A L n bn (a : Z) (s : fsys) : Prop :=
  exists b' t' A' L', s = mkFs b' (<[ip := set_addrs A' x]> ic) wk /\ bl_rep g b' t' /\
    kept g (t_view t) A (t_view t') A' /\ a = blkno (t_view t') A' bn /\ a <> 0 /\ a ∈ L' /\
    t_comm t' = t_comm t /\ (forall y, y ∈ L -> y ∈ L') /\ fctx g t' A' L' n /\
    (blkno (t_view t) A bn <> 0 -> A' = A).

Lemma set_addrs_id x : set_addrs (i_addrs x) x = x.
Proof. by destruct x. Qed.

(** The block is there already. *)
Lemma bmap_found g b ic wk ip x t L n bn :
  bl_rep g b t -> ic !! ip = Some x -> fctx g t (i_addrs x) L (Datatypes.S n) ->
  0 <= bn < MAXFILE -> blkno (t_view t) (i_addrs x) bn <> 0 ->
  bmap_post g ic wk ip x t (i_addrs x) L n bn (blkno (t_view t) (i_addrs x) bn) (mkFs b ic wk).
Proof.
  intros Hr Hx Hc Hbn Hne. exists b, t, (i_addrs x), (blkno (t_view t) (i_addrs x) bn :: L).
  rewrite set_addrs_id, list_insert_id by done. pose proof (fc_free _ _ _ _ _ Hc).
  split_and!; [done|done|apply kept_refl; apply Hc|done|done|set_solver|done|set_solver| |done].
  eapply fctx_step; [done|apply kept_refl; apply Hc|apply Hc|apply Hc|set_solver| | |lia].
  - intros Hi. right. by apply (fc_ind _ _ _ _ _ Hc).
  - apply fits_more. exact (fc_fits _ _ _ _ _ Hc).
Qed.

(** A direct block is allocated. *)
Lemma bmap_new_direct g b ic wk ip x t L n bn E :
  bl_rep g b t -> ic !! ip = Some x -> i_dev x = 1 -> fctx g t (i_addrs x) L (Datatypes.S n) ->
  0 <= bn < NDIRECT -> i_addrs x !!! Z.to_nat bn = 0 ->
  wp (addr <- balloc (i_dev x);;
      updi ip (fun x => set_addrs (<[Z.to_nat bn := addr]> (i_addrs x)) x);;
      ret addr) E (bmap_post g ic wk ip x t (i_addrs x) L n bn) (mkFs b ic wk).
Proof.
  intros Hr Hx Hdev Hc Hbn H0. rewrite Hdev. apply wp_bind.
  pose proof (fc_fits _ _ _ _ _ Hc) as Hfit. pose proof (fc_free _ _ _ _ _ Hc) as Hfree.
  eapply wp_post; [eapply (balloc_file g b ic wk t L (n + owed (i_addrs x)) 1); [done|apply Hc|apply Hc| | | |lia]|].
  - intros i y m. by rewrite (fc_held _ _ _ _ _ Hc).
  - apply Hc.
  - exact Hfit.
  - intros r s (b'&->&Hrr&Hrf&Hr'&Hfit'). apply wp_bind. eapply wp_updi; [done|]. apply wp_ret.
    set (A' := <[Z.to_nat bn := r]> (i_addrs x)).
    assert (Hk : kept g (t_view t) (i_addrs x) (t_view (t_alloc r t)) A')
      by (apply grow_direct; [apply Hc|apply Hc|done..]).
    assert (Hind : ind_of A' = ind_of (i_addrs x)).
    { unfold ind_of, A', NDIRECT in *. apply list_lookup_total_insert_ne. lia. }
    assert (Hnf : Datatypes.S (nfree g (t_view (t_alloc r t))) = nfree g (t_view t))
      by (apply alloc_nfree; [apply Hc|done..]).
    assert (Hblk : blkno (t_view (t_alloc r t)) A' bn = r).
    { unfold blkno. rewrite (proj2 (Z.ltb_lt _ _)) by lia. apply list_lookup_total_insert_eq.
      pose proof (io_len _ _ _ (fc_ino _ _ _ _ _ Hc)) as Hl. unfold NDIRECT in *. rewrite Hl. lia. }
    pose proof (dstart_ge4 _ _ (fc_fs _ _ _ _ _ Hc)).
    exists b', (t_alloc r t), A', (r :: L). split_and!; [done|done|done|done|lia|set_solver|done|set_solver| |].
    2:{ unfold blkno. by rewrite (proj2 (Z.ltb_lt bn NDIRECT)), H0 by lia. }
    eapply fctx_step; [done|done|apply Hc|apply Hc|set_solver| | |].
    + rewrite Hind. intros Hi. right. by apply (fc_ind _ _ _ _ _ Hc).
    + unfold owed in *. rewrite Hind. exact Hfit'.
    + unfold owed in *. rewrite Hind. lia.
Qed.

(** The first half of the indirect case: there is an indirect block. *)
Lemma bmap_indirect g b ic wk ip x t L n E :
  bl_rep g b t -> ic !! ip = Some x -> i_dev x = 1 -> fctx g t (i_addrs x) L (Datatypes.S n) ->
  wp (if ind_of (i_addrs x) =? 0 then
        addr <- balloc (i_dev x);;
        updi ip (fun x => set_addrs (<[Z.to_nat NDIRECT := addr]> (i_addrs x)) x);;
        ret addr
      else ret (ind_of (i_addrs x))) E
    (fun a s => exists b' t' A' L', s = mkFs b' (<[ip := set_addrs A' x]> ic) wk /\ bl_rep g b' t' /\
      kept g (t_view t) (i_addrs x) (t_view t') A' /\ a = ind_of A' /\ a <> 0 /\
      t_comm t' = t_comm t /\ (forall y, y ∈ L -> y ∈ L') /\ fctx g t' A' L' (Datatypes.S n) /\
      (ind_of (i_addrs x) <> 0 -> A' = i_addrs x)) (mkFs b ic wk).
Proof.
  intros Hr Hx Hdev Hc. pose proof (fc_fits _ _ _ _ _ Hc) as Hfit. pose proof (fc_free _ _ _ _ _ Hc) as Hfree.
  unfold owed in Hfit, Hfree. destruct (Z.eqb_spec (ind_of (i_addrs x)) 0) as [H0|Hne].
  - rewrite Hdev. apply wp_bind.
    eapply wp_post; [eapply (balloc_file g b ic wk t L (Datatypes.S n) 1); [done|apply Hc|apply Hc| | | |lia]|].
    + intros i y m. by rewrite (fc_held _ _ _ _ _ Hc).
    + apply Hc.
    + eapply fits_le; [exact Hfit|lia..].
    + intros r s (b'&->&Hrr&Hrf&Hr'&Hfit'). apply wp_bind. eapply wp_updi; [done|]. apply wp_ret.
      set (A' := <[Z.to_nat NDIRECT := r]> (i_addrs x)).
      assert (Hk : kept g (t_view t) (i_addrs x) (t_view (t_alloc r t)) A')
        by (apply grow_indirect; [apply Hc|apply Hc|done..]).
      assert (Hind : ind_of A' = r).
      { apply list_lookup_total_insert_eq. rewrite (io_len _ _ _ (fc_ino _ _ _ _ _ Hc)). unfold NDIRECT. lia. }
      assert (Hnf : Datatypes.S (nfree g (t_view (t_alloc r t))) = nfree g (t_view t))
        by (apply alloc_nfree; [apply Hc|done..]).
      pose proof (dstart_ge4 _ _ (fc_fs _ _ _ _ _ Hc)).
      assert (Hr0 : (r =? 0) = false) by lia.
      exists b', (t_alloc r t), A', (r :: L). split_and!; [done..|lia|done|set_solver| |done].
      eapply fctx_step; [done|done|apply Hc|apply Hc|set_solver|rewrite Hind; set_solver| |].
      * unfold owed. rewrite Hind, Hr0, Nat.add_0_r. exact Hfit'.
      * unfold owed. rewrite Hind, Hr0. lia.
  - apply wp_ret. exists b, t, (i_addrs x), L. rewrite set_addrs_id, list_insert_id by done.
    split_and!; [done..|apply kept_refl; apply Hc|done|done|done|done|done|done].
Qed.

(** The second half: the entry of the indirect block. *)
Lemma bmap_entry g b ic wk ip x t L n (k : Z) E :
  bl_rep g b t -> ic !! ip = Some x -> i_dev x = 1 -> fctx g t (i_addrs x) L (Datatypes.S n) ->
  0 <= k < NINDIRECT -> ind_of (i_addrs x) <> 0 ->
  wp (bp <- blk (bl_bread (i_dev x) (ind_of (i_addrs x)));;
      d <- blk (bl_bdata bp);;
      let addr := rd 4 (4 * k) d in
      addr <- (if addr =? 0 then
                 addr <- balloc (i_dev x);;
                 d <- blk (bl_bdata bp);;
                 blk (bl_bstore bp (wr 4 (4 * k) addr d));;
                 blk (bl_log_write bp);;
                 ret addr
               else ret addr);;
      blk (bl_brelse bp);;
      ret addr) E (bmap_post g ic wk ip x t (i_addrs x) L n (NDIRECT + k)) (mkFs b ic wk).
Proof.
  intros Hr Hx Hdev Hc Hk Hne. set (A := i_addrs x) in *. set (ia := ind_of A) in *.
  pose proof (fc_fits _ _ _ _ _ Hc) as Hfit. pose proof (fc_free _ _ _ _ _ Hc) as Hfree.
  pose proof (fc_fs _ _ _ _ _ Hc) as Hfs. pose proof (fc_ino _ _ _ _ _ Hc) as Hino.
  assert (Ho : owns (t_view t) A ia) by (by apply owns_ind).
  pose proof (io_range _ _ _ Hino ia Ho) as Hia. pose proof (dstart_ge4 _ _ Hfs) as Hd4.
  unfold owed in Hfit, Hfree. fold ia in Hfit, Hfree. rewrite (proj2 (Z.eqb_neq ia 0)), Nat.add_0_r in Hfit, Hfree by done.
  assert (Hbk : blkno (t_view t) A (NDIRECT + k) = rd 4 (4 * k) (t_view t ia)).
  { unfold blkno. fold ia. rewrite (proj2 (Z.ltb_ge _ _)), (proj2 (Z.eqb_neq ia 0)) by (done || lia).
    unfold ind_ent. do 2 f_equal. lia. }
  assert (Hbn : 0 <= NDIRECT + k < MAXFILE) by (unfold MAXFILE, NDIRECT in *; lia).
  rewrite Hdev. eapply wp_bread; [done|by eapply data_below; [done|lia]|apply unlocked_none, Hc|exact Hfit|].
  intros i b1 Hi Hr1. cbv zeta. destruct (Z.eqb_spec (rd 4 (4 * k) (t_view t ia)) 0) as [H0|H0].
  - apply wp_bind, wp_bind.
    eapply wp_post; [eapply (balloc_file g b1 ic wk (t_hold i ia t) L n 0); [done|done|apply Hc| |apply Hc| |simpl; lia]|].
    + intros j y m. simpl. rewrite (fc_held _ _ _ _ _ Hc), insert_empty.
      intros [<- [= <- <-]]%lookup_singleton_Some. split; [lia|]. by apply (io_used _ _ _ Hino).
    + by apply fits_hold.
    + intros r s (b2&->&Hrr&Hrf&Hr2&_). simpl t_view in Hrr, Hrf.
      change (t_alloc r (t_hold i ia t)) with (t_hold i ia (t_alloc r t)) in Hr2.
      assert (Hfit2 : fits g (t_alloc r t) (r :: L) n 2) by (apply fits_alloc; [apply Hc; lia|done]).
      assert (Hia2 : t_view (t_alloc r t) ia = t_view t ia)
        by (apply (grow_same g (t_view t) A r); [done..|]; done).
      assert (Hblk : is_block (t_view t ia)) by (apply (fo_sb_blocks _ _ Hfs); lia).
      apply wp_bind, wp_blk, wp_total. eapply wp_post; [eapply (bl_bdata_ok g b2); [done|apply held_hold]|].
      intros d b3 [-> Hr3]. change (t_view (t_hold i ia (t_alloc r t)) ia) with (t_view (t_alloc r t) ia).
      eapply (wp_store_log g b3 ic wk (t_alloc r t) i ia); [done|done| |apply Hc|exact Hfit2|].
      { rewrite Hia2. destruct Hblk. split; [by rewrite length_wr|by apply bytes_wr]. }
      intros b4 Hr4. apply wp_ret, wp_bind. eapply (wp_brelse1 g b4 (t_alloc r t)); [done|done|].
      intros b5 Hr5. apply wp_ret. set (t' := t_write ia _ (t_alloc r t)) in Hr5.
      assert (Hk' : kept g (t_view t) A (t_view t') A).
      { apply (grow_entry g (t_view t) A r); try done. }
      exists b5, t', A, (r :: L). unfold A at 1. rewrite set_addrs_id, list_insert_id by done.
      assert (Hnf : Datatypes.S (nfree g (t_view (t_alloc r t))) = nfree g (t_view t))
        by (by apply alloc_nfree).
      assert (Hnf' : nfree g (t_view t') = nfree g (t_view (t_alloc r t))).
      { apply store_nfree; [by apply alloc_fs_ok|].
        change (t_view (t_alloc r t)) with (alloc_view (t_view t) r). by rewrite (alloc_dstart g). }
      split_and!; [done|done|done| |lia|set_solver|done|set_solver| |done].
      * unfold blkno. fold ia. rewrite (proj2 (Z.ltb_ge _ _)), (proj2 (Z.eqb_neq ia 0)) by (done || lia).
        unfold t'. simpl t_view. rewrite fn_lookup_insert. unfold ind_ent.
        replace (NDIRECT + k - NDIRECT) with k by lia. rewrite rd_wr_eq; [|lia|].
        -- symmetry. apply Z.mod_small. pose proof (fo_log _ _ Hfs). lia.
        -- change NINDIRECT with 128 in Hk. destruct Hblk as [Hl _].
           change (4 * k + 4 <= Z.of_nat (length (t_view (t_alloc r t) ia))). rewrite Hia2, Hl. lia.
      * eapply fctx_step; [done|done|apply Hc|apply Hc|set_solver| | |].
        -- intros _. right. by apply (fc_ind _ _ _ _ _ Hc).
        -- unfold owed. fold ia. rewrite (proj2 (Z.eqb_neq ia 0)), Nat.add_0_r by done.
           apply fits_write; [right; by apply (fc_ind _ _ _ _ _ Hc)|exact Hfit2].
        -- unfold owed. fold ia. rewrite (proj2 (Z.eqb_neq ia 0)) by done. lia.
  - apply wp_bind, wp_ret. eapply wp_brelse0; [done..|]. intros b2 Hr2. apply wp_ret.
    rewrite <- Hbk. apply (bmap_found g b2 ic wk ip x t L n); [done..|].
    change (blkno (t_view t) A (NDIRECT + k) <> 0). by rewrite Hbk.
Qed.

Lemma kept_seq g v A v1 A1 v2 A2 : kept g v A v1 A1 -> kept g v1 A1 v2 A2 -> kept g v A v2 A2.
Proof.
  intros H1 H2. eapply becomes_ext; [by eapply kept_trans|]. intros p Hp. by apply (k_bytes _ _ _ _ _ _ H1).
Qed.

Lemma bmap_ok g b ic wk ip x t L n bn E :
  bl_rep g b t -> ic !! ip = Some x -> i_dev x = 1 -> fctx g t (i_addrs x) L (Datatypes.S n) ->
  0 <= bn < MAXFILE ->
  wp (bmap ip bn) E (bmap_post g ic wk ip x t (i_addrs x) L n bn) (mkFs b ic wk).
Proof.
  intros Hr Hx Hdev Hc Hbn. pose proof (io_len _ _ _ (fc_ino _ _ _ _ _ Hc)) as Hl.
  unfold bmap. apply wp_bind. eapply wp_geti; [done|].
  destruct (Z.ltb_spec bn NDIRECT) as [Hlt|Hge].
  - apply wp_bind, wp_aget; [rewrite Hl; unfold NDIRECT in *; lia|].
    destruct (Z.eqb_spec (i_addrs x !!! Z.to_nat bn) 0) as [H0|H0].
    + eapply bmap_new_direct; try done. lia.
    + apply wp_ret. assert (Hb : blkno (t_view t) (i_addrs x) bn = i_addrs x !!! Z.to_nat bn)
        by (unfold blkno; by rewrite (proj2 (Z.ltb_lt _ _)) by lia).
      rewrite <- Hb. eapply bmap_found; try done. by rewrite Hb.
  - rewrite (proj2 (Z.ltb_lt _ _)) by (unfold MAXFILE in Hbn; lia).
    apply wp_bind, wp_aget; [rewrite Hl; unfold NDIRECT; lia|]. apply wp_bind.
    change (i_addrs x !!! Z.to_nat NDIRECT) with (ind_of (i_addrs x)).
    eapply wp_post; [by eapply bmap_indirect|].
    intros a s (b1&t1&A1&L1&->&Hr1&Hk1&->&Hne&Hcm1&HL1&Hc1&HA1).
    set (x1 := set_addrs A1 x) in *.
    assert (Hx1 : <[ip := x1]> ic !! ip = Some x1)
      by (apply list_lookup_insert_eq; by eapply lookup_lt_Some).
    eapply wp_post; [eapply (bmap_entry g b1 _ wk ip x1 t1 L1 n (bn - NDIRECT)); [done|done|done|exact Hc1| |done]|].
    { unfold MAXFILE in Hbn. lia. }
    intros a s (b2&t2&A2&L2&->&Hr2&Hk2&Ha&Hane&HaL&Hcm2&HL2&Hc2&HA2).
    exists b2, t2, A2, L2. replace (NDIRECT + (bn - NDIRECT)) with bn in Ha, HA2 by lia.
    split_and!; [by rewrite list_insert_insert_eq|done|by eapply kept_seq|done|done|done|congruence|auto|done|].
    intros Hmap. change (i_addrs x1) with A1 in HA2. rewrite HA2.
    + apply HA1. intros Hz. unfold blkno in Hmap. by rewrite (proj2 (Z.ltb_ge _ _)), Hz in Hmap by lia.
    + by rewrite (k_mono _ _ _ _ _ _ Hk1).
Qed.

(** ** iupdate *)
Lemma IBLOCK_below g v inum :
  fs_ok g v -> 0 <= inum < sb_ninodes (sb_of v) ->
  2 <= IBLOCK inum < bitmap_of v 0 /\ 0 <= dip_off inum <= 448.
Proof.
  intros Hf Hi. unfold IBLOCK, dip_off, bitmap_of, BBLOCK. rewrite IPB_eq.
  change (0 / BPB) with 0. change DINODE_SZ with 64.
  pose proof (Z.div_pos inum 8). pose proof (Z.div_le_mono inum (sb_ninodes (sb_of v)) 8).
  pose proof (Z.mod_pos_bound inum 8). lia.
Qed.
Lemma block_put_dinode o x d : is_block d -> is_block (put_dinode o x d).
Proof.
  intros [Hl Hb]. unfold put_dinode. split; [by autorewrite with len|].
  apply bytes_splice; [|auto 10 with wp]. unfold enc_addrs. apply Forall_concat, Forall_map, Forall_true.
  intros a. apply bytes_le_enc.
Qed.

Definition t_iupdate (x : inode) (t : tdisk) : tdisk :=
  t_write (IBLOCK (i_inum x)) (put_dinode (dip_off (i_inum x)) x (t_view t (IBLOCK (i_inum x)))) t.
Lemma iupdate_ok g b ic wk ip x t L n h E :
  bl_rep g b t -> ic !! ip = Some x -> i_dev x = 1 -> fs_ok g (t_view t) ->
  0 <= i_inum x < sb_ninodes (sb_of (t_view t)) -> t_active t = true -> t_held t = ∅ ->
  fits g t L n (Datatypes.S h) ->
  wp (iupdate ip) E (fun _ s => exists b', s = mkFs b' ic wk /\ bl_rep g b' (t_iupdate x t)) (mkFs b ic wk).
Proof.
  intros Hr Hx Hdev Hf Hin Ha Hh Hfit. unfold iupdate. apply wp_bind. eapply wp_geti; [done|]. rewrite Hdev.
  destruct (IBLOCK_below g (t_view t) (i_inum x) Hf Hin) as [Hib _].
  pose proof (bitmap_range g (t_view t) 0 Hf) as Hb0. pose proof (fo_pos _ _ Hf). pose proof (fo_data _ _ Hf).
  eapply wp_bread; [done|by eapply data_below; [done|lia]|by apply unlocked_none|done|].
  intros i b1 Hi Hr1. eapply wp_write_end; [done|done| |done|done|eauto].
  apply block_put_dinode. apply (fo_sb_blocks _ _ Hf). lia.
Qed.

(** ** The transfer loops *)

(** Blocks that [n] bytes from position [off] touch. *)
Definition span (off n : Z) : nat :=
  if n <=? 0 then O else Z.to_nat ((off mod BSIZE + n + 511) / BSIZE).

Lemma chunk_span off n tot :
  0 <= off -> 0 <= tot < n ->
  let m := chunk n tot off in
  0 < m <= n - tot /\ off mod BSIZE + m <= BSIZE /\
  span off (n - tot) = Datatypes.S (span (off + m) (n - (tot + m))).
Proof.
  intros Ho Ht m. unfold m, chunk, span, BSIZE. pose proof (Z.mod_pos_bound off 512) as Hm.
  rewrite (proj2 (Z.leb_gt (n - tot) 0)) by lia.
  destruct (Z.min_spec (n - tot) (512 - off mod 512)) as [[H1 ->]|[H1 ->]]; (split; [lia|]; split; [lia|]).
  - rewrite (proj2 (Z.leb_le _ _)) by lia.
    replace ((off mod 512 + (n - tot) + 511) / 512) with 1; [done|].
    apply Z.div_unique with (off mod 512 + (n - tot) - 1); lia.
  - replace ((off + (512 - off mod 512)) mod 512) with 0.
    2:{ rewrite (Z.div_mod off 512) at 1 by lia.
        replace (512 * (off / 512) + off mod 512 + (512 - off mod 512)) with ((off / 512 + 1) * 512) by lia.
        by rewrite Z.mod_mul. }
    destruct (Z.leb_spec (n - (tot + (512 - off mod 512))) 0) as [Hz|Hz].
    + replace ((off mod 512 + (n - tot) + 511) / 512) with 1; [done|].
      apply Z.div_unique with (off mod 512 + (n - tot) - 1); lia.
    + replace (off mod 512 + (n - tot) + 511) with (0 + (n - (tot + (512 - off mod 512))) + 511 + 1 * 512) by lia.
      rewrite Z.div_add by lia. rewrite Z2Nat.inj_add, Nat.add_1_r; [done| |lia]. apply Z.div_pos; lia.
Qed.
Lemma span_fuel off n : 0 <= n -> (span off n < nchunks n)%nat.
Proof.
  intros Hn. unfold span, nchunks, BSIZE. pose proof (Z.mod_pos_bound off 512). pose proof (Z.div_pos n 512).
  case_match; [lia|]. assert ((off mod 512 + n + 511) / 512 <= n / 512 + 2); [|lia].
  transitivity ((n + 2 * 512) / 512); [apply Z.div_le_mono; lia|]. rewrite Z.div_add; lia.
Qed.
(** The position of byte [p] relative to the block at [off]. *)
Lemma chunk_pos off m p :
  0 <= off -> 0 <= p -> 0 < m -> off mod BSIZE + m <= BSIZE ->
  off <= p < off + m <-> p / BSIZE = off / BSIZE /\ off mod BSIZE <= p mod BSIZE < off mod BSIZE + m.
Proof.
  unfold BSIZE. intros Ho Hp Hm Hb.
  pose proof (Z.div_mod off 512). pose proof (Z.div_mod p 512).
  pose proof (Z.mod_pos_bound off 512). pose proof (Z.mod_pos_bound p 512).
  split; [intros|intros [? ?]; lia].
  assert (p / 512 = off / 512); [|lia]. symmetry. apply Z.div_unique with (p - off + off mod 512); lia.
Qed.
Lemma splice_at (d s : list Z) o (q : Z) :
  0 <= o -> o + Z.of_nat (length s) <= Z.of_nat (length d) -> 0 <= q ->
  splice o s d !!! Z.to_nat q =
  if decide (o <= q < o + Z.of_nat (length s)) then s !!! Z.to_nat (q - o) else d !!! Z.to_nat q.
Proof. intros. apply (peek_splice o s d q); done. Qed.

(** The contents after the first [tot] bytes of [src] went to [off]. *)
Definition overlay (f : Z -> Z) (src : list Z) (off tot p : Z) : Z :=
  if decide (off <= p < off + tot) then src !!! Z.to_nat (p - off) else f p.

(** The bytes of the file after one more chunk of [src] was stored. *)
Lemma overlay_step v A f src off n tot p (d : list Z) :
  let o := off + tot in let m := chunk n tot o in
  0 <= off -> 0 <= tot < n -> n <= Z.of_nat (length src) -> 0 <= p -> length d = 512%nat ->
  (p / BSIZE = o / BSIZE -> fbyte v A p = d !!! Z.to_nat (p mod BSIZE)) ->
  fbyte v A p = overlay f src off tot p ->
  (if decide (p / BSIZE = o / BSIZE)
   then splice (o mod BSIZE) (slice tot m src) d !!! Z.to_nat (p mod BSIZE) else fbyte v A p) =
  overlay f src off (tot + m) p.
Proof.
  intros o m Ho Ht Hsrc Hp Hd Hblk Hf.
  destruct (chunk_span o n tot) as (Hm&Hmb&_); [unfold o; lia|lia|]. fold m in Hm, Hmb.
  pose proof (Z.mod_pos_bound o BSIZE) as Hom. pose proof (Z.mod_pos_bound p BSIZE) as Hpm.
  assert (Hls : length (slice tot m src) = Z.to_nat m) by (apply length_slice; lia).
  assert (Hpos : o <= p < o + m <-> p / BSIZE = o / BSIZE /\ o mod BSIZE <= p mod BSIZE < o mod BSIZE + m)
    by (apply chunk_pos; [unfold o; lia|done|lia|done]).
  unfold overlay in *. destruct (decide (p / BSIZE = o / BSIZE)) as [Hpb|Hpb].
  - rewrite splice_at by (rewrite ?Hls, ?Hd; unfold BSIZE in *; lia). rewrite Hls, Z2Nat.id by lia.
    destruct (decide (o mod BSIZE <= p mod BSIZE < o mod BSIZE + m)) as [Hin|Hin].
    + assert (Hpo : o <= p < o + m) by (apply Hpos; split; [done|lia]).
      rewrite (decide_True (P := off <= p < off + (tot + m))) by (unfold o in Hpo; lia).
      assert (p mod BSIZE - o mod BSIZE = p - o) as ->.
      { rewrite (Z.div_mod p BSIZE), (Z.div_mod o BSIZE) at 2 by done. rewrite Hpb. lia. }
      rewrite <- (Z2Nat.id m) by lia. rewrite (peek_slice tot (Z.to_nat m) src (p - o)) by (unfold o in *; lia).
      unfold peek. f_equal. f_equal. unfold o. lia.
    + rewrite <- Hblk, Hf by done. assert (~ o <= p < o + m) by (by intros [_ ?]%Hpos).
      unfold o in *. repeat case_decide; (done || lia).
  - rewrite Hf. assert (~ o <= p < o + m) by (by intros [? _]%Hpos).
    unfold o in *. repeat case_decide; (done || lia).
Qed.

(** ** writei *)

(** The file has blocks for [n] bytes at [off]. *)
Definition mapped t (x : inode) (off n : Z) : Prop :=
  forall p, off <= p < off + n -> blkno (t_view t) (i_addrs x) (p / BSIZE) <> 0.
Definition wloop g ic wk ip (x : inode) t (src : list Z) (off n : Z) (st : Z * Z) (s : fsys) : Prop :=
  let '(tot, o) := st in o = off + tot /\ 0 <= tot <= n /\
  exists b t' A' L', s = mkFs b (<[ip := set_addrs A' x]> ic) wk /\ bl_rep g b t' /\
    becomes g (t_view t) (i_addrs x) (t_view t') A' (overlay (fbyte (t_view t) (i_addrs x)) src off tot) /\
    t_comm t' = t_comm t /\ IBLOCK (i_inum x) ∈ L' /\ fctx g t' A' L' (span o (n - tot)) /\
    (forall p, off <= p < off + tot -> blkno (t_view t') A' (p / BSIZE) <> 0) /\
    (mapped t x off n -> A' = i_addrs x).

(** One iteration of the loop of writei. *)
Lemma writei_body_ok g ic wk ip x t src off n tot o s E :
  ic !! ip = Some x -> i_dev x = 1 -> 0 <= off -> off + n <= MAXFILE * BSIZE ->
  n <= Z.of_nat (length src) -> bytes src -> tot < n ->
  wloop g ic wk ip x t src off n (tot, o) s ->
  wp (a <- bmap ip (o / BSIZE);;
      bp <- blk (bl_bread (i_dev x) a);;
      let m := chunk n tot o in
      d <- blk (bl_bdata bp);;
      blk (bl_bstore bp (splice (o mod BSIZE) (slice tot m src) d));;
      blk (bl_log_write bp);;
      blk (bl_brelse bp);;
      ret (inl (tot + m, o + m))) E
    (fun (r : Z * Z + Z) s' => match r with
      | inl st' => wloop g ic wk ip x t src off n st' s' /\
          (span st'.2 (n - st'.1) < span o (n - tot))%nat
      | inr _ => False
      end) s.
Proof.
  intros Hx Hdev Ho Hend Hlen Hsrc Hlt (->&Htot&b&t1&A1&L1&->&Hr1&Hb1&Hcm1&HI1&Hc1&Hmp&HA1).
  set (o := off + tot) in *. set (m := chunk n tot o).
  destruct (chunk_span o n tot) as (Hm&Hmb&Hsp); [unfold o; lia|lia|]. fold m in Hm, Hmb, Hsp.
  assert (Hbn : 0 <= o / BSIZE < MAXFILE) by (apply div_file; unfold o; lia).
  set (x1 := set_addrs A1 x). assert (Hx1 : <[ip := x1]> ic !! ip = Some x1)
    by (apply list_lookup_insert_eq; by eapply lookup_lt_Some).
  rewrite Hsp in Hc1. apply wp_bind.
  eapply wp_post; [eapply (bmap_ok g b _ wk ip x1 t1 L1 _ (o / BSIZE)); [done|done|done|exact Hc1|done]|].
  intros a s (b2&t2&A2&L2&->&Hr2&Hk2&Ha&Hane&HaL&Hcm2&HL2&Hc2&HA2). rewrite list_insert_insert_eq.
  change (set_addrs A2 x1) with (set_addrs A2 x). rewrite Hdev. cbv zeta.
  pose proof (fc_fs _ _ _ _ _ Hc2) as Hf2. pose proof (fc_ino _ _ _ _ _ Hc2) as Hi2.
  assert (Har : dstart (t_view t2) <= a < g_lstart g).
  { rewrite Ha. apply (io_range _ _ _ Hi2), owns_blk; [done|]. by rewrite <- Ha. }
  pose proof (dstart_ge4 _ _ Hf2) as Hd4. pose proof (fc_fits _ _ _ _ _ Hc2) as Hfit.
  assert (Hblk : is_block (t_view t2 a)) by (apply (fo_sb_blocks _ _ Hf2); lia).
  eapply wp_bread; [done|by eapply data_below; [done|lia]|apply unlocked_none, Hc2|exact Hfit|].
  intros i b3 Hi Hr3. set (d := splice (o mod BSIZE) (slice tot m src) (t_view t2 a)).
  assert (Hd : is_block d).
  { destruct Hblk. split; [by unfold d; rewrite length_splice|]. apply bytes_splice; [by apply bytes_slice|done]. }
  eapply wp_write; [done|done|exact Hd|apply Hc2|exact Hfit|]. intros b4 Hr4. apply wp_ret. simpl.
  split; [|lia]. split; [unfold o; lia|]. split; [lia|].
  assert (Hup : becomes g (t_view t2) A2 (t_view (t_write a d t2)) A2
    (fun p => if decide (p / BSIZE = o / BSIZE) then d !!! Z.to_nat (p mod BSIZE) else fbyte (t_view t2) A2 p)).
  { simpl t_view. rewrite Ha. apply update_becomes; [done..|by rewrite <- Ha|done]. }
  assert (Hb2 : becomes g (t_view t) (i_addrs x) (t_view t2) A2 (overlay (fbyte (t_view t) (i_addrs x)) src off tot)).
  { eapply becomes_ext; [by eapply kept_trans|]. intros p Hp. by apply (k_bytes _ _ _ _ _ _ Hb1). }
  assert (Hb3 : becomes g (t_view t) (i_addrs x) (t_view (t_write a d t2)) A2
    (overlay (fbyte (t_view t) (i_addrs x)) src off (tot + m))).
  { eapply becomes_ext; [by eapply kept_trans|]. intros p Hp. cbv beta.
    apply (overlay_step (t_view t2) A2 (fbyte (t_view t) (i_addrs x)) src off n tot p (t_view t2 a)); try lia.
    - apply Hblk.
    - intros Hpo. unfold fbyte. fold o in Hpo. rewrite Hpo, <- Ha. by rewrite (proj2 (Z.eqb_neq a 0)).
    - by apply (k_bytes _ _ _ _ _ _ Hb2). }
  exists b4, (t_write a d t2), A2, L2. split_and!; [done|done|done|simpl; congruence|auto| | |].
  - eapply fctx_step; [exact Hc2|exact Hup|apply Hc2|apply Hc2|done|apply Hc2|by apply fits_write|].
    simpl t_view. rewrite (store_nfree g) by done. apply (fc_free _ _ _ _ _ Hc2).
  - assert (Hmono : forall bn, 0 <= bn < MAXFILE -> blkno (t_view t2) A2 bn <> 0 ->
      blkno (t_view (t_write a d t2)) A2 bn <> 0)
      by (intros bn Hb Hne; by rewrite (k_mono _ _ _ _ _ _ Hup)).
    intros p Hp. apply Hmono; [apply div_file; lia|]. destruct (decide (p < o)) as [Hpo|Hpo].
    + rewrite (k_mono _ _ _ _ _ _ Hk2); [apply Hmp|apply div_file|apply Hmp]; unfold o in *; lia.
    + assert (p / BSIZE = o / BSIZE) as -> by (apply (chunk_pos o m p); unfold o in *; lia). by rewrite <- Ha.
  - intros Hmap. specialize (HA1 Hmap). change (i_addrs x1) with A1 in HA2. rewrite HA2; [done|].
    assert (Hbo : blkno (t_view t) (i_addrs x) (o / BSIZE) <> 0) by (apply Hmap; unfold o; lia).
    by rewrite (k_mono _ _ _ _ _ _ Hb1).
Qed.

Lemma set_size_id x : set_size (i_size x) x = x.
Proof. by destruct x. Qed.

Definition writei_post g ic wk ip (x : inode) t (src : list Z) (off n : Z) (r : Z) (s : fsys) : Prop :=
  r = n /\ exists b' t1 A' L', let x' := set_size (Z.max (i_size x) (off + n)) (set_addrs A' x) in
    s = mkFs b' (<[ip := x']> ic) wk /\
    becomes g (t_view t) (i_addrs x) (t_view t1) A' (overlay (fbyte (t_view t) (i_addrs x)) src off n) /\
    t_comm t1 = t_comm t /\ fctx g t1 A' L' 0 /\ IBLOCK (i_inum x) ∈ L' /\
    (forall p, off <= p < off + n -> blkno (t_view t1) A' (p / BSIZE) <> 0) /\
    (mapped t x off n -> A' = i_addrs x) /\
    bl_rep g b' (if i_size x <? off + n then t_iupdate x' t1 else t1).

Lemma writei_ok devsw g b ic wk ip x t L src off n E :
  bl_rep g b t -> ic !! ip = Some x -> i_dev x = 1 -> i_type x <> T_DEV ->
  0 <= i_inum x < sb_ninodes (sb_of (t_view t)) -> 0 <= off <= i_size x -> 0 <= n ->
  off + n <= MAXFILE * BSIZE -> n <= Z.of_nat (length src) -> bytes src ->
  IBLOCK (i_inum x) ∈ L -> fctx g t (i_addrs x) L (span off n) ->
  wp (writei devsw ip src off n) E (writei_post g ic wk ip x t src off n) (mkFs b ic wk).
Proof.
  intros Hr Hx Hdev Hty Hin Hoff Hn Hend Hlen Hsrc HI Hc.
  unfold writei. apply wp_bind. eapply wp_geti; [done|].
  rewrite (proj2 (Z.eqb_neq (i_type x) T_DEV)) by done.
  assert (Hu : u32 (off + n) = off + n) by (apply u32_small; rewrite MAXFILE_eq in Hend; unfold BSIZE in Hend; lia).
  rewrite Hu. rewrite (proj2 (Z.ltb_ge (i_size x) off)), (proj2 (Z.ltb_ge (off + n) off)) by lia. cbn [orb].
  rewrite (proj2 (Z.ltb_ge (MAXFILE * BSIZE) (off + n))) by lia. apply wp_bind.
  apply (wp_while (wloop g ic wk ip x t src off n) (fun st => span st.2 (n - st.1))).
  - split; [lia|]. split; [lia|]. exists b, t, (i_addrs x), L.
    rewrite set_addrs_id, list_insert_id by done. split_and!; [done..| |done|done|by rewrite Z.sub_0_r|lia|done].
    eapply becomes_ext; [apply kept_refl; apply Hc|]. intros p _. unfold overlay.
    by rewrite decide_False by lia.
  - simpl. rewrite Z.sub_0_r. by apply span_fuel.
  - intros [tot o] s HI'. destruct (Z.ltb_spec tot n) as [Hlt|Hge]; cbn [negb].
    + eapply wp_post; [eapply (writei_body_ok g ic wk ip x t src off n tot o); [done|done|lia|done..]|].
      intros [[tot' o']|r] s'; [done|done].
    + apply wp_ret. destruct HI' as (->&Htot&b1&t1&A1&L1&->&Hr1&Hb1&Hcm1&HI1&Hc1&Hmp&HA1).
      assert (tot = n) as -> by lia. rewrite Z.sub_diag in Hc1. change (span (off + n) 0) with O in Hc1.
      set (x1 := set_addrs A1 x). assert (Hx1 : <[ip := x1]> ic !! ip = Some x1)
        by (apply list_lookup_insert_eq; by eapply lookup_lt_Some).
      apply wp_bind. eapply wp_geti; [done|]. apply wp_bind, wp_when.
      * intros [Hn0 Hgrow]%andb_prop. simpl in Hgrow. apply Z.ltb_lt in Hgrow.
        apply wp_bind. eapply wp_updi; [done|]. rewrite list_insert_insert_eq.
        set (x2 := set_size (off + n) x1).
        assert (Hx2 : <[ip := x2]> ic !! ip = Some x2)
          by (apply list_lookup_insert_eq; by eapply lookup_lt_Some).
        eapply wp_post; [eapply (iupdate_ok g b1 _ wk ip x2 t1 L1 0 1); [done|done|done|apply Hc1| |apply Hc1|apply Hc1|]|].
        -- change (i_inum x2) with (i_inum x). by rewrite (k_sb _ _ _ _ _ _ Hb1).
        -- eapply fits_le; [apply (fc_fits _ _ _ _ _ Hc1)|lia..].
        -- intros [] s (b2&->&Hr2). apply wp_ret. split; [done|]. exists b2, t1, A1, L1. cbv zeta.
           rewrite Z.max_r by lia. rewrite (proj2 (Z.ltb_lt (i_size x) (off + n))) by lia. done.
      * intros Hno. apply wp_ret. split; [done|]. exists b1, t1, A1, L1. cbv zeta.
        assert (Hle : off + n <= i_size x).
        { destruct (Z.ltb_spec 0 n); [|lia]. simpl in Hno. by apply Z.ltb_ge in Hno. }
        rewrite Z.max_l by lia. rewrite (proj2 (Z.ltb_ge (i_size x) (off + n))) by lia.
        split_and!; [|done..]. fold x1. change (i_size x) with (i_size x1). by rewrite set_size_id.
Qed.

(** ** readi *)
Lemma bmap_mapped g b ic wk ip x t L n bn E :
  bl_rep g b t -> ic !! ip = Some x -> i_dev x = 1 -> fs_ok g (t_view t) ->
  inode_ok g (t_view t) (i_addrs x) -> t_held t = ∅ -> fits g t L n 1 ->
  0 <= bn < MAXFILE -> blkno (t_view t) (i_addrs x) bn <> 0 ->
  wp (bmap ip bn) E (fun a s => a = blkno (t_view t) (i_addrs x) bn /\
    exists b', s = mkFs b' ic wk /\ bl_rep g b' t) (mkFs b ic wk).
Proof.
  intros Hr Hx Hdev Hf Hi Hh Hfit Hbn Hne. pose proof (io_len _ _ _ Hi) as Hl.
  unfold bmap. apply wp_bind. eapply wp_geti; [done|]. unfold blkno in *.
  destruct (Z.ltb_spec bn NDIRECT) as [Hlt|Hge].
  - apply wp_bind, wp_aget; [rewrite Hl; unfold NDIRECT in *; lia|].
    rewrite (proj2 (Z.eqb_neq _ 0)) by done. apply wp_ret. eauto.
  - rewrite (proj2 (Z.ltb_lt _ _)) by (unfold MAXFILE in Hbn; lia).
    apply wp_bind, wp_aget; [rewrite Hl; unfold NDIRECT; lia|]. apply wp_bind.
    change (i_addrs x !!! Z.to_nat NDIRECT) with (ind_of (i_addrs x)).
    destruct (Z.eqb_spec (ind_of (i_addrs x)) 0) as [|Hia]; [done|]. apply wp_ret. rewrite Hdev.
    assert (Hr' : dstart (t_view t) <= ind_of (i_addrs x) < g_lstart g)
      by (apply (io_range _ _ _ Hi); by apply owns_ind).
    pose proof (dstart_ge4 _ _ Hf).
    eapply wp_bread; [done|by eapply data_below; [done|lia]|by apply unlocked_none|exact Hfit|].
    intros i b1 Hi1 Hr1. cbv zeta. unfold ind_ent in *. rewrite (proj2 (Z.eqb_neq _ 0)) by done.
    apply wp_bind, wp_ret. eapply wp_brelse0; [done..|]. intros b2 Hr2. apply wp_ret. eauto.
Qed.

Lemma slice_file v A o m :
  0 <= o -> 0 < m -> o mod BSIZE + m <= BSIZE -> blkno v A (o / BSIZE) <> 0 ->
  length (v (blkno v A (o / BSIZE))) = 512%nat ->
  slice (o mod BSIZE) m (v (blkno v A (o / BSIZE))) = map (fbyte v A) (seqZ o m).
Proof.
  intros Ho Hm Hmb Hne Hl. pose proof (Z.mod_pos_bound o BSIZE) as Hom.
  apply mem_ext; [rewrite length_slice, length_map, length_seqZ by (rewrite ?Hl; unfold BSIZE in *; lia); done|].
  intros k Hk. rewrite length_slice in Hk by (rewrite ?Hl; unfold BSIZE in *; lia).
  rewrite <- (Z2Nat.id m) at 1 by lia. unfold peek at 1.
  rewrite peek_slice by (rewrite ?Hl; unfold BSIZE in *; lia). unfold peek.
  apply Some_inj. rewrite <- (list_lookup_lookup_total_lt (map _ _)) by (rewrite length_map, length_seqZ; lia).
  rewrite list_lookup_fmap, lookup_seqZ_lt by lia. simpl. f_equal. rewrite Z2Nat.id by lia.
  assert (Hp : (o + k) / BSIZE = o / BSIZE /\ o mod BSIZE <= (o + k) mod BSIZE < o mod BSIZE + m)
    by (apply chunk_pos; lia).
  unfold fbyte. destruct Hp as [Hq _]. rewrite Hq, (proj2 (Z.eqb_neq _ 0)) by done. do 2 f_equal.
  pose proof (Z.div_mod o BSIZE). pose proof (Z.div_mod (o + k) BSIZE). unfold BSIZE in *. lia.
Qed.

Definition readi_len (x : inode) (off n : Z) : Z := Z.min n (i_size x - off).
Lemma readi_ok devsw g b ic wk ip x t L k off n E :
  bl_rep g b t -> ic !! ip = Some x -> i_dev x = 1 -> i_type x <> T_DEV -> fs_ok g (t_view t) ->
  inode_ok g (t_view t) (i_addrs x) -> t_held t = ∅ -> fits g t L k 1 ->
  0 <= off <= i_size x -> i_size x <= MAXFILE * BSIZE -> 0 <= n -> off + n < 2 ^ 32 ->
  (forall p, off <= p < off + readi_len x off n -> blkno (t_view t) (i_addrs x) (p / BSIZE) <> 0) ->
  wp (readi devsw ip off n) E (fun r s =>
    r = (readi_len x off n, map (fbyte (t_view t) (i_addrs x)) (seqZ off (readi_len x off n))) /\
    exists b', s = mkFs b' ic wk /\ bl_rep g b' t) (mkFs b ic wk).
Proof.
  intros Hr Hx Hdev Hty Hf Hi Hh Hfit Hoff Hsz Hn Hov Hmap.
  unfold readi. apply wp_bind. eapply wp_geti; [done|].
  rewrite (proj2 (Z.eqb_neq (i_type x) T_DEV)) by done.
  rewrite (u32_small (off + n)) by lia.
  rewrite (proj2 (Z.ltb_ge (i_size x) off)), (proj2 (Z.ltb_ge (off + n) off)) by lia. cbn [orb].
  rewrite MAXFILE_eq in Hsz. unfold BSIZE in Hsz at 1.
  rewrite (u32_small (i_size x - off)) by lia.
  replace (if i_size x <? off + n then i_size x - off else n) with (readi_len x off n)
    by (unfold readi_len; destruct (Z.ltb_spec (i_size x) (off + n)); lia).
  set (n' := readi_len x off n) in *. assert (Hn' : 0 <= n' <= i_size x - off) by (unfold n', readi_len; lia).
  apply wp_bind.
  apply (wp_while (fun '(tot, o, dst) s => o = off + tot /\ 0 <= tot <= n' /\
      dst = map (fbyte (t_view t) (i_addrs x)) (seqZ off tot) /\
      exists b', s = mkFs b' ic wk /\ bl_rep g b' t) (fun '(tot, o, _) => span o (n' - tot))).
  - split_and!; [lia..|done|eauto].
  - rewrite Z.sub_0_r. apply span_fuel; lia.
  - intros [[tot o] dst] s (->&Htot&->&b1&->&Hr1). set (o := off + tot).
    destruct (Z.ltb_spec tot n') as [Hlt|Hge]; cbn [negb].
    + destruct (chunk_span o n' tot) as (Hm&Hmb&Hsp); [unfold o; lia|lia|].
      set (m := chunk n' tot o) in *. set (bn := o / BSIZE).
      assert (Hne : blkno (t_view t) (i_addrs x) bn <> 0) by (apply Hmap; unfold o; lia).
      assert (Hbn : 0 <= bn < MAXFILE) by (apply div_file; unfold o; rewrite MAXFILE_eq; unfold BSIZE; lia).
      assert (Ha : dstart (t_view t) <= blkno (t_view t) (i_addrs x) bn < g_lstart g)
        by (apply (io_range _ _ _ Hi); by apply owns_blk).
      pose proof (dstart_ge4 _ _ Hf).
      apply wp_bind. eapply wp_post; [by eapply bmap_mapped|]. intros a s (->&b2&->&Hr2). rewrite Hdev. cbv zeta.
      eapply wp_bread; [done|by eapply data_below; [done|lia]|by apply unlocked_none|exact Hfit|].
      intros i b3 Hi3 Hr3. eapply wp_brelse0; [done..|]. intros b4 Hr4. apply wp_ret.
      split; [|lia]. split_and!; [unfold o; lia|lia|lia| |eauto].
      assert (Hblk : is_block (t_view t (blkno (t_view t) (i_addrs x) bn))) by (apply (fo_sb_blocks _ _ Hf); lia).
      unfold bn. rewrite slice_file; [|unfold o; lia|lia|done|done|apply Hblk].
      rewrite <- map_app. f_equal. unfold o. rewrite <- seqZ_app by lia. done.
    + apply wp_ret, wp_ret. assert (tot = n') as -> by lia. eauto.
Qed.
End files.
