(* ===== verification/FsThms.v ===== *)
(** Theorems on the file system, on the whole storage stack: fs.c over the
    log, the buffer cache and the disk; the encoding of struct dinode. *)
From S2P Require Import Prelude Params Str Bio BioSpec Log LogSpec Trans Recover BlockIf Storage Fs FsBlocks FsFile FsSpec.

Abbreviation fsysL := (@fsys lst).

(** ** struct dinode *)

(** The fields fit their C types. *)
Record inode_typed (x : inode) : Prop := {
  it_type : - 2 ^ 15 <= i_type x < 2 ^ 15;
  it_major : - 2 ^ 15 <= i_major x < 2 ^ 15;
  it_minor : - 2 ^ 15 <= i_minor x < 2 ^ 15;
  it_nlink : - 2 ^ 15 <= i_nlink x < 2 ^ 15;
  it_size : 0 <= i_size x < 2 ^ 32;
  it_len : length (i_addrs x) = 13%nat;
  it_addrs : Forall (fun a => 0 <= a < 2 ^ 32) (i_addrs x) }.

(** The inode [y] with the disk fields of [x]. *)
Definition with_disk (x y : inode) : inode :=
  mkInode (i_dev y) (i_inum y) (i_ref y) (i_flags y) (i_type x) (i_major x) (i_minor x)
    (i_nlink x) (i_size x) (i_addrs x).

Section codec.
Implicit Types (x y : inode) (d : list Z) (o k : Z).

Lemma length_enc_addrs (a : list Z) : length (enc_addrs a) = (4 * length a)%nat.
Proof.
  unfold enc_addrs. induction a as [|z a IH]; [done|]. cbn [map concat].
  rewrite length_app, IH, length_le_enc. simpl. lia.
Qed.
Lemma slice_enc_addrs (a : list Z) (k : nat) :
  (k < length a)%nat -> slice (4 * Z.of_nat k) 4 (enc_addrs a) = le_enc 4 (a !!! k).
Proof.
  revert k. induction a as [|z a IH]; intros k Hk; [simpl in Hk; lia|].
  unfold enc_addrs. cbn [map concat]. fold (enc_addrs a). destruct k as [|k].
  - unfold slice. change (Z.to_nat (4 * Z.of_nat 0)) with O. rewrite drop_0.
    by rewrite take_app_length' by (by rewrite length_le_enc).
  - simpl in Hk. change ((z :: a) !!! S k) with (a !!! k). rewrite <- (IH k) by lia. unfold slice.
    replace (Z.to_nat (4 * Z.of_nat (S k))) with (4 + Z.to_nat (4 * Z.of_nat k))%nat by lia.
    by rewrite drop_app_add' by (by rewrite length_le_enc).
Qed.
(** Reading inside, and outside, a spliced area. *)
Lemma rd_splice_in (w : nat) o1 o (src d : list Z) :
  0 <= o -> 0 <= o1 -> o1 + Z.of_nat w <= Z.of_nat (length src) ->
  o + Z.of_nat (length src) <= Z.of_nat (length d) ->
  rd w (o + o1) (splice o src d) = le_dec (slice o1 (Z.of_nat w) src).
Proof.
  intros Ho Ho1 Hw Hl. unfold rd. f_equal.
  apply mem_ext; [rewrite !length_slice by (rewrite ?length_splice; lia); done|]. intros b Hb.
  rewrite length_slice in Hb by (rewrite ?length_splice; lia). unfold peek.
  rewrite !peek_slice by (rewrite ?length_splice; lia). rewrite peek_splice by lia.
  rewrite decide_True by lia. unfold peek. f_equal. lia.
Qed.
Lemma rd_splice_ne (w : nat) o1 o (src d : list Z) :
  0 <= o -> 0 <= o1 -> o1 + Z.of_nat w <= o \/ o + Z.of_nat (length src) <= o1 ->
  rd w o1 (splice o src d) = rd w o1 d.
Proof. intros. unfold rd. rewrite slice_splice_ne; [done..|lia|done]. Qed.

Lemma mod16 z : - 2 ^ 15 <= z < 2 ^ 15 -> s16 (z mod 256 ^ Z.of_nat 2) = z.
Proof.
  intros Hz. change (256 ^ Z.of_nat 2) with (2 ^ 16). unfold s16.
  rewrite Zplus_mod_idemp_l. rewrite Z.mod_small by lia. lia.
Qed.
Lemma mod32 z : 0 <= z < 2 ^ 32 -> z mod 256 ^ Z.of_nat 4 = z.
Proof. intros. by apply Z.mod_small. Qed.

Lemma dec_addrs_put o d (a : list Z) :
  0 <= o -> o + 64 <= Z.of_nat (length d) -> length a = 13%nat -> Forall (fun a => 0 <= a < 2 ^ 32) a ->
  dec_addrs o (splice (o + 12) (enc_addrs a) d) = a.
Proof.
  intros Ho Hd Hl Ha. apply list_eq. intros i. unfold dec_addrs. rewrite list_lookup_fmap.
  destruct (decide (i < 13)%nat) as [Hi|Hi].
  - rewrite lookup_seqZ_lt by (unfold NDIRECT; lia). simpl.
    replace (4 * (0 + Z.of_nat i)) with (4 * Z.of_nat i) by lia.
    rewrite rd_splice_in; rewrite ?length_enc_addrs, ?Hl; try lia. change (Z.of_nat 4) with 4.
    rewrite slice_enc_addrs by lia. rewrite le_dec_enc. rewrite (list_lookup_lookup_total_lt a) by lia. f_equal.
    apply mod32. eapply (proj1 (Forall_lookup _ _) Ha i). apply list_lookup_lookup_total_lt. lia.
  - rewrite (lookup_ge_None_2 a) by lia. rewrite lookup_seqZ_ge by (unfold NDIRECT; lia). done.
Qed.

Lemma get_put_dinode o x y d :
  inode_typed x -> 0 <= o -> o + 64 <= Z.of_nat (length d) ->
  get_dinode o (put_dinode o x d) y = with_disk x y.
Proof.
  intros [Ht Hma Hmi Hnl Hsz Hlen Had] Ho Hd. unfold get_dinode, put_dinode, with_disk. cbv zeta.
  set (d1 := wr 4 (o + 8) _ _). set (d0 := wr 2 (o + 6) _ _) in d1.
  assert (Hout : forall (w : nat) o1, 0 <= o1 -> o1 + Z.of_nat w <= o + 12 ->
    rd w o1 (splice (o + 12) (enc_addrs (i_addrs x)) d1) = rd w o1 d1)
    by (intros; apply rd_splice_ne; lia).
  rewrite !Hout by lia. unfold d1 at 5. f_equal.
  - unfold d1, d0. rewrite !rd_wr_ne by lia. rewrite rd_wr_eq by lia. by apply mod16.
  - unfold d1, d0. rewrite !(rd_wr_ne 2 (o + 2)) by lia. rewrite rd_wr_eq by (rewrite ?length_wr; lia). by apply mod16.
  - unfold d1, d0. rewrite !(rd_wr_ne 2 (o + 4)) by lia. rewrite rd_wr_eq by (rewrite ?length_wr; lia). by apply mod16.
  - unfold d1, d0. rewrite !(rd_wr_ne 2 (o + 6)) by lia. rewrite rd_wr_eq by (rewrite ?length_wr; lia). by apply mod16.
  - rewrite rd_wr_eq by (unfold d0; rewrite ?length_wr; lia). by apply mod32.
  - apply dec_addrs_put; [done| |done..]. unfold d1, d0. by rewrite !length_wr.
Qed.
(** The other inodes of the block keep their contents. *)
Lemma get_put_other o o' x y d :
  length (i_addrs x) = 13%nat -> 0 <= o -> 0 <= o' -> o' + 64 <= o \/ o + 64 <= o' ->
  get_dinode o' (put_dinode o x d) y = get_dinode o' d y.
Proof.
  intros Hl Ho Ho' Hne. unfold put_dinode. cbv zeta.
  assert (Hw : forall (w : nat) o1 d0, 0 <= o1 -> o' <= o1 -> o1 + Z.of_nat w <= o' + 64 ->
    rd w o1 (splice (o + 12) (enc_addrs (i_addrs x)) d0) = rd w o1 d0).
  { intros. apply rd_splice_ne; rewrite ?length_enc_addrs, ?Hl; lia. }
  unfold get_dinode, dec_addrs. f_equal; try (rewrite Hw by lia; rewrite !rd_wr_ne by lia; done).
  apply map_ext_in. intros k Hk%list_elem_of_In%elem_of_seqZ. unfold NDIRECT in Hk.
  rewrite Hw by lia. rewrite !rd_wr_ne by lia. done.
Qed.
End codec.

(** The disk [v] has the inode as the cache has it: loading it changes
    nothing. *)
Definition on_disk (v : Z -> list Z) (x : inode) : Prop :=
  get_dinode (dip_off (i_inum x)) (v (IBLOCK (i_inum x))) x = x.
(** Two disks have the same inode [i]. *)
Definition same_dinode (v v' : Z -> list Z) (i : Z) : Prop :=
  forall z, get_dinode (dip_off i) (v' (IBLOCK i)) z = get_dinode (dip_off i) (v (IBLOCK i)) z.

Section inodes.
Implicit Types (g : geo) (v : Z -> list Z) (A B : list Z) (x : inode).

Lemma s16_range z : - 2 ^ 15 <= s16 z < 2 ^ 15.
Proof. unfold s16. pose proof (Z.mod_pos_bound (z + 2 ^ 15) (2 ^ 16) ltac:(lia)). lia. Qed.
(** The addresses of a file are block numbers. *)
Lemma inode_ok_addrs g v A : fs_ok g v -> inode_ok g v A -> Forall (fun a => 0 <= a < 2 ^ 32) A.
Proof.
  intros Hf Hi. apply Forall_lookup. intros k a Hk. pose proof (lookup_lt_Some _ _ _ Hk) as Hlt. rewrite (io_len _ _ _ Hi) in Hlt.
  destruct (decide (a = 0)) as [->|Hne]; [lia|]. assert (Ho : owns v A a).
  { destruct (decide (k < 12)%nat) as [Hk12|Hk12].
    - assert (Hb : blkno v A (Z.of_nat k) = a).
      { unfold blkno. rewrite (proj2 (Z.ltb_lt _ _)) by (unfold NDIRECT; lia). rewrite Nat2Z.id. by apply list_lookup_total_correct. }
      rewrite <- Hb. apply owns_blk; [rewrite MAXFILE_eq; lia|congruence].
    - assert (Hb : ind_of A = a).
      { unfold ind_of, NDIRECT. replace (Z.to_nat 12) with k by lia. by apply list_lookup_total_correct. }
      rewrite <- Hb. apply owns_ind. congruence. }
  pose proof (io_range _ _ _ Hi a Ho). pose proof (dstart_ge4 _ _ Hf). pose proof (fo_log _ _ Hf). lia.
Qed.
(** Writing an inode that fits its types puts it on the disk, and changes no
    other one. *)
Lemma iupdate_on_disk g v x : fs_ok g v -> inode_typed x -> 0 <= i_inum x < sb_ninodes (sb_of v) ->
  on_disk (<[IBLOCK (i_inum x) := put_dinode (dip_off (i_inum x)) x (v (IBLOCK (i_inum x)))]> v) x.
Proof.
  intros Hf Ht Hin. destruct (IBLOCK_below g v (i_inum x) Hf Hin) as [Hib Hoff].
  pose proof (bitmap_range g v 0 Hf) as Hb0. pose proof (fo_pos _ _ Hf). pose proof (fo_data _ _ Hf).
  destruct (fo_sb_blocks _ _ Hf (IBLOCK (i_inum x)) ltac:(lia)) as [Hl _].
  unfold on_disk. rewrite fn_lookup_insert, get_put_dinode by (done || lia). by destruct x.
Qed.
Lemma iupdate_others g v x i : fs_ok g v -> length (i_addrs x) = 13%nat ->
  0 <= i_inum x < sb_ninodes (sb_of v) -> 0 <= i < sb_ninodes (sb_of v) -> i <> i_inum x ->
  same_dinode v (<[IBLOCK (i_inum x) := put_dinode (dip_off (i_inum x)) x (v (IBLOCK (i_inum x)))]> v) i.
Proof.
  intros Hf Hl Hin Hi Hne z. destruct (decide (IBLOCK i = IBLOCK (i_inum x))) as [Heq|Hnb]; [|by rewrite fn_lookup_insert_ne].
  rewrite Heq, fn_lookup_insert. destruct (IBLOCK_below g v (i_inum x) Hf Hin) as [_ Ho1], (IBLOCK_below g v i Hf Hi) as [_ Ho2].
  apply get_put_other; [done|lia|lia|]. unfold IBLOCK, dip_off in *. rewrite IPB_eq in *. change DINODE_SZ with 64 in *.
  pose proof (Z.div_mod i 8). pose proof (Z.div_mod (i_inum x) 8). assert (i / 8 = i_inum x / 8) by lia. lia.
Qed.
(** A file with no block in common with the one that changes. *)
Lemma other_file g v A v' A' f B :
  becomes g v A v' A' f -> inode_ok g v B -> (forall y, owns v B y -> ~ owns v A y) ->
  inode_ok g v' B /\ forall p, 0 <= p < MAXFILE * BSIZE -> fbyte v' B p = fbyte v B p.
Proof.
  intros Hk Hi Hd.
  assert (Hsame : forall y, owns v B y -> v' y = v y /\ blk_free v' y = false).
  { intros y Ho. destruct (k_frame _ _ _ _ _ _ Hk y) as (?&?&_); [by apply Hi|by apply Hi|by apply Hd|done]. }
  assert (Hb : forall bn, blkno v' B bn = blkno v B bn).
  { intros bn. unfold blkno. destruct (bn <? NDIRECT); [done|]. destruct (Z.eqb_spec (ind_of B) 0) as [|Hne]; [done|].
    by rewrite (proj1 (Hsame _ (owns_ind v B Hne))). }
  assert (Ho : forall y, owns v' B y -> owns v B y).
  { intros y [Hy [(bn&Hbn&<-)|Hiy]]; (split; [done|]); [left; exists bn; by rewrite Hb|by right]. }
  split.
  - split; [apply Hi|..].
    + intros y Hy%Ho. rewrite (kept_dstart _ _ _ _ _ _ Hk). by apply Hi.
    + intros y Hy%Ho. by apply Hsame.
    + intros bn bn'. rewrite !Hb. apply Hi.
    + intros bn. rewrite Hb. apply Hi.
  - intros p Hp. apply fbyte_ext; [|left; by rewrite Hb]. intros Hne. split; [by apply Hb|].
    apply Hsame. apply owns_blk; [by apply div_file|done].
Qed.
End inodes.

(** No holes below the size of the file. *)
Definition no_holes (v : Z -> list Z) (x : inode) : Prop :=
  forall p, 0 <= p < i_size x -> blkno v (i_addrs x) (p / BSIZE) <> 0.

(** The inode [ip] of the cache is a regular file or directory that can
    take [n] bytes at [off] in the running transaction. *)
Record writable (g : geo) (t : tdisk) (ic : list inode) (ip : nat) (x : inode) (L : list Z) (off n : Z) : Prop := {
  wr_ip : ic !! ip = Some x;
  wr_dev : i_dev x = 1;
  wr_type : i_type x <> T_DEV;
  wr_inum : 0 <= i_inum x < sb_ninodes (sb_of (t_view t));
  wr_off : 0 <= off <= i_size x;
  wr_size : i_size x <= MAXFILE * BSIZE;
  wr_n : 0 <= n;
  wr_end : off + n <= MAXFILE * BSIZE;
  wr_full : no_holes (t_view t) x;
  wr_iblock : IBLOCK (i_inum x) ∈ L;
  wr_ctx : fctx g t (i_addrs x) L (span off n) }.

(** The state of the file after writei returned. *)
Record after_write g t (x : inode) src off n t' x' : Prop := {
  aw_addrs : exists A', x' = set_size (Z.max (i_size x) (off + n)) (set_addrs A' x);
  aw_fs : fs_ok g (t_view t');
  aw_ino : inode_ok g (t_view t') (i_addrs x');
  aw_bytes : forall p, 0 <= p < MAXFILE * BSIZE ->
    fbyte (t_view t') (i_addrs x') p = overlay (fbyte (t_view t) (i_addrs x)) src off n p;
  aw_full : no_holes (t_view t') x';
  (** the inode is on the disk again, the other inodes are as they were *)
  aw_disk : on_disk (t_view t) x -> on_disk (t_view t') x';
  aw_inodes : forall i, 0 <= i < sb_ninodes (sb_of (t_view t)) -> i <> i_inum x -> same_dinode (t_view t) (t_view t') i;
  aw_sb : sb_of (t_view t') = sb_of (t_view t);
  (** a file that has no block in common with it keeps its blocks and bytes *)
  aw_others : forall B, inode_ok g (t_view t) B -> (forall y, owns (t_view t) B y -> ~ owns (t_view t) (i_addrs x) y) ->
    inode_ok g (t_view t') B /\ forall p, 0 <= p < MAXFILE * BSIZE -> fbyte (t_view t') B p = fbyte (t_view t) B p;
  aw_frame : forall y, dstart (t_view t) <= y < g_lstart g -> blk_free (t_view t) y = false ->
    ~ owns (t_view t) (i_addrs x) y -> t_view t' y = t_view t y;
  aw_held : t_held t' = ∅;
  aw_comm : t_comm t' = t_comm t }.

Lemma wr_fs g t ic ip x L off n : writable g t ic ip x L off n -> fs_ok g (t_view t).
Proof. intros Hw. apply (wr_ctx _ _ _ _ _ _ _ _ Hw). Qed.

Section write.
Implicit Types (g : geo) (st : lst) (t : tdisk) (ic : list inode) (wk : list chan) (ip : nat) (x : inode).

Lemma t_iupdate_view x t : t_view (t_iupdate x t) =
  <[IBLOCK (i_inum x) := put_dinode (dip_off (i_inum x)) x (t_view t (IBLOCK (i_inum x)))]> (t_view t).
Proof. done. Qed.

Lemma writei_after devsw g st ic wk ip x t L src off n :
  lst_rep g st t -> writable g t ic ip x L off n -> n <= Z.of_nat (length src) -> bytes src ->
  wp (writei devsw ip src off n) noerr (fun r s => r = n /\ exists st' t' x' L',
    s = mkFs st' (<[ip := x']> ic) wk /\ lst_rep g st' t' /\ after_write g t x src off n t' x' /\
    fits g t' L' 0 2) (mkFs st ic wk).
Proof.
  intros Hr Hw Hlen Hsrc. pose proof (wr_off _ _ _ _ _ _ _ _ Hw) as Hoff.
  pose proof (wr_size _ _ _ _ _ _ _ _ Hw) as Hsz. pose proof (wr_n _ _ _ _ _ _ _ _ Hw) as Hn.
  pose proof (wr_end _ _ _ _ _ _ _ _ Hw) as Hend. pose proof (wr_inum _ _ _ _ _ _ _ _ Hw) as Hin.
  eapply wp_post; [eapply (writei_ok devsw g st ic wk ip x t L src off n); [exact Hr|apply Hw..|done|done|apply Hw|apply Hw]|].
  intros r s (->&st'&t1&A'&L'&->&Hb&Hcm&Hc&HI&Hmp&HA&Hr'). split; [done|].
  set (x' := set_size _ _) in *.
  assert (Hfull : no_holes (t_view t1) x').
  { intros p Hp. unfold x' in Hp |- *. simpl in Hp |- *. destruct (decide (off <= p < off + n)) as [|Hno]; [by apply Hmp|].
    rewrite (k_mono _ _ _ _ _ _ Hb); [|apply div_file; lia|]; apply (wr_full _ _ _ _ _ _ _ _ Hw); lia. }
  destruct (IBLOCK_below g (t_view t) (i_inum x) (wr_fs _ _ _ _ _ _ _ _ Hw) Hin) as [Hib0 _].
  assert (Hib1 : forall i, 0 <= i < sb_ninodes (sb_of (t_view t)) -> t_view t1 (IBLOCK i) = t_view t (IBLOCK i)).
  { intros i Hi. apply (k_inodes _ _ _ _ _ _ Hb). destruct (IBLOCK_below g (t_view t) i (wr_fs _ _ _ _ _ _ _ _ Hw) Hi). lia. }
  assert (Htyped : on_disk (t_view t) x -> inode_typed x').
  { intros Hd. unfold on_disk in Hd. unfold x'. rewrite <- Hd. split; cbn [i_type i_major i_minor i_nlink i_size i_addrs set_size set_addrs get_dinode];
      [apply s16_range..| |apply Hc|eapply inode_ok_addrs; apply Hc]. fold x'.
    rewrite MAXFILE_eq in *. unfold BSIZE in *.
    replace (rd 4 (dip_off (i_inum x) + 8) (t_view t (IBLOCK (i_inum x)))) with (i_size x) by (by rewrite <- Hd at 1). lia. }
  assert (Hfit : fits g t1 L' 0 2) by (eapply fits_le; [apply (fc_fits _ _ _ _ _ Hc)|lia..]).
  destruct (Z.ltb_spec (i_size x) (off + n)) as [Hgrow|Hsame].
  - destruct (IBLOCK_below g (t_view t1) (i_inum x)) as [Hib _]; [apply Hc|by rewrite (k_sb _ _ _ _ _ _ Hb)|].
    pose proof (bitmap_range g (t_view t1) 0 (fc_fs _ _ _ _ _ Hc)) as Hb0. pose proof (fo_pos _ _ (fc_fs _ _ _ _ _ Hc)).
    pose proof (fo_data _ _ (fc_fs _ _ _ _ _ Hc)).
    assert (Hpb : is_block (put_dinode (dip_off (i_inum x')) x' (t_view t1 (IBLOCK (i_inum x'))))).
    { apply block_put_dinode. apply (fo_sb_blocks _ _ (fc_fs _ _ _ _ _ Hc)). change (i_inum x') with (i_inum x). lia. }
    exists st', (t_iupdate x' t1), x', L'. split_and!; [done|done| |by apply fits_write].
    split; rewrite ?t_iupdate_view; change (i_inum x') with (i_inum x) in *; change (i_addrs x') with A'.
    + by exists A'.
    + by apply istore_fs_ok; [apply Hc|..].
    + apply istore_inode_ok; [apply Hc|done..|apply Hc].
    + intros p Hp. rewrite (istore_fbyte g); [|apply Hc|done|apply Hc|done]. by apply (k_bytes _ _ _ _ _ _ Hb).
    + intros p Hp. change (i_addrs x') with A'. rewrite (istore_blkno g); [by apply Hfull|apply Hc|done|apply Hc].
    + intros Hd. apply (iupdate_on_disk g _ x'); [apply Hc|by apply Htyped|]. by rewrite (k_sb _ _ _ _ _ _ Hb).
    + intros i Hi Hne z. rewrite <- (Hib1 i Hi). apply (iupdate_others g _ x'); [apply Hc|apply Hc|..]; by rewrite ?(k_sb _ _ _ _ _ _ Hb).
    + by rewrite istore_sb, (k_sb _ _ _ _ _ _ Hb).
    + intros B HB Hdj. destruct (other_file _ _ _ _ _ _ B Hb HB Hdj) as [HB1 Hby]. split.
      * by apply istore_inode_ok; [apply Hc|..].
      * intros p Hp. rewrite (istore_fbyte g); [by apply Hby|apply Hc|done|done|done].
    + intros y Hy Hbf Ho. rewrite fn_lookup_insert_ne.
      * by apply (k_frame _ _ _ _ _ _ Hb).
      * pose proof (kept_dstart _ _ _ _ _ _ Hb). lia.
    + apply Hc.
    + done.
  - exists st', t1, x', L'. split_and!; [done|done| |done]. split.
    + by exists A'.
    + apply Hc.
    + apply Hc.
    + apply Hb.
    + done.
    + intros Hd. assert (HA' : A' = i_addrs x) by (apply HA; intros p Hp; apply (wr_full _ _ _ _ _ _ _ _ Hw); lia).
      assert (Hx' : x' = x) by (unfold x'; rewrite HA', Z.max_l by lia; by destruct x).
      unfold on_disk in *. rewrite Hx', Hib1 by done. exact Hd.
    + intros i Hi Hne z. by rewrite Hib1.
    + apply (k_sb _ _ _ _ _ _ Hb).
    + intros B HB Hdj. by apply (other_file _ _ _ _ _ _ B Hb).
    + intros y Hy Hbf Ho. by apply (k_frame _ _ _ _ _ _ Hb).
    + apply Hc.
    + done.
Qed.
End write.

(** C3. Writing to a file.  writei returns [n] without an error; the file
    then has the [n] bytes of [src] at [off] and its other bytes as before,
    its size is the larger of the old one and off + n, it has no holes, and its
    blocks are distinct data blocks marked in use in the bitmap.  The inode on
    the disk has the new size and addresses: if it was the one in memory
    before, it is so again.  Nothing else is disturbed: the super block and
    every other inode on the disk are as they were, a file without a block
    in common with this one has its blocks and its bytes, and no block in use
    outside this file has changed. *)
Theorem writei_correct devsw g st ic wk ip x t L src off n :
  lst_rep g st t -> writable g t ic ip x L off n -> n <= Z.of_nat (length src) -> bytes src ->
  wp (writei devsw ip src off n) noerr (fun r s => r = n /\ exists st' t' x',
    s = mkFs st' (<[ip := x']> ic) wk /\ lst_rep g st' t' /\ after_write g t x src off n t' x')
    (mkFs st ic wk : fsysL).
Proof.
  intros Hr Hw Hlen Hsrc. eapply wp_post; [by eapply writei_after|].
  intros r s (->&st'&t'&x'&L'&->&Hr'&Ha&_). eauto 10.
Qed.

(** Reading what was written.  After writei stored [src] at [off], a
    read of any range [off2, off2 + n2) below the size returns the bytes of
    [src] where the range meets the written one and the old bytes elsewhere,
    cut at the new size. *)
Theorem writei_readi devsw g st ic wk ip x t L src off n off2 n2 :
  lst_rep g st t -> writable g t ic ip x L off n -> n <= Z.of_nat (length src) -> bytes src ->
  let size := Z.max (i_size x) (off + n) in
  0 <= off2 <= size -> 0 <= n2 -> off2 + n2 < 2 ^ 32 ->
  let len := Z.min n2 (size - off2) in
  wp (writei devsw ip src off n;; readi devsw ip off2 n2) noerr (fun r _ =>
    r = (len, map (overlay (fbyte (t_view t) (i_addrs x)) src off n) (seqZ off2 len)))
    (mkFs st ic wk : fsysL).
Proof.
  intros Hr Hw Hlen Hsrc size Ho2 Hn2 Hov len. apply wp_bind. eapply wp_post; [by eapply writei_after|].
  intros r s (->&st'&t'&x'&L'&->&Hr'&Ha&Hfit). destruct (aw_addrs _ _ _ _ _ _ _ _ Ha) as [A' Hx'].
  pose proof (wr_size _ _ _ _ _ _ _ _ Hw). pose proof (wr_end _ _ _ _ _ _ _ _ Hw).
  assert (Hs' : i_size x' = size) by (by rewrite Hx').
  assert (Hlen' : readi_len x' off2 n2 = len) by (unfold readi_len; by rewrite Hs').
  eapply wp_post; [eapply (readi_ok devsw g st' _ wk ip x' t' L' 0 off2 n2)|].
  - exact Hr'.
  - apply list_lookup_insert_eq. eapply lookup_lt_Some, Hw.
  - rewrite Hx'. apply Hw.
  - rewrite Hx'. apply Hw.
  - apply Ha.
  - apply Ha.
  - apply Ha.
  - eapply fits_le; [exact Hfit|lia..].
  - by rewrite Hs'.
  - rewrite Hs'. unfold size. lia.
  - done.
  - done.
  - rewrite Hlen'. intros p Hp. apply (aw_full _ _ _ _ _ _ _ _ Ha). rewrite Hs'. lia.
  - intros r s [-> _]. rewrite Hlen'. f_equal. apply map_ext_in. intros p Hp%list_elem_of_In%elem_of_seqZ.
    apply (aw_bytes _ _ _ _ _ _ _ _ Ha). unfold len, size in Hp. lia.
Qed.
