(* ===== verification/FsInode.v ===== *)
(** The inode cache and the on-disk inodes of fs.c: iget, idup, iput, ilock,
    iunlock, ialloc and iupdate. *)
From S2P Require Import Prelude Params Str Bio BioSpec Log LogSpec Trans Recover BlockIf Storage Fs FsBlocks FsFile FsSpec FsThms.

(** ** The inode cache *)

(** At most one entry in use per inode; reference counts are not negative. *)
Record ic_ok (ic : list inode) : Prop := {
  ic_uniq : forall i j x y, ic !! i = Some x -> ic !! j = Some y -> 0 < i_ref x -> 0 < i_ref y ->
    i_dev x = i_dev y -> i_inum x = i_inum y -> i = j;
  ic_ref : forall i x, ic !! i = Some x -> 0 <= i_ref x }.

(** The entry is in use for inode [inum] of [dev]. *)
Definition caches (dev inum : Z) (x : inode) : Prop := 0 < i_ref x /\ i_dev x = dev /\ i_inum x = inum.

Section cache.
Implicit Types (ic l : list inode) (x : inode) (i : nat).

Lemma iget_scan_spec l dev inum i (e : option nat) :
  match iget_scan l dev inum i e with
  | inl k => exists x, (i <= k)%nat /\ l !! (k - i)%nat = Some x /\ caches dev inum x
  | inr e' => (forall k x, l !! k = Some x -> ~ caches dev inum x) /\
      match e with
      | Some _ => e' = e
      | None => match e' with
                | Some k => exists x, (i <= k)%nat /\ l !! (k - i)%nat = Some x /\ i_ref x = 0
                | None => forall k x, l !! k = Some x -> i_ref x <> 0
                end
      end
  end.
Proof.
  revert i e. induction l as [|x l IH]; intros i e; simpl.
  { split; [done|]. by destruct e. }
  destruct (0 <? i_ref x) eqn:Hr, (i_dev x =? dev) eqn:Hd, (i_inum x =? inum) eqn:Hn; simpl.
  1:{ exists x. rewrite Nat.sub_diag. unfold caches. split_and!; [lia|done|lia..]. }
  all: assert (Hno : ~ caches dev inum x) by (unfold caches; lia).
  all: match goal with |- context [iget_scan ?l0 ?d0 ?n0 ?i0 ?e1] =>
    specialize (IH i0 e1); destruct (iget_scan l0 d0 n0 i0 e1) as [k|e'] end.
  all: try (destruct IH as (y&Hk&Hy&Hc); exists y; split_and!; [lia| |done];
    replace (k - i)%nat with (S (k - S i))%nat by lia; done).
  all: destruct IH as [Hall He]; split;
    [intros [|k] y Hy; [injection Hy as <-; done|by apply (Hall k y)]|].
  all: destruct e as [e0|]; [done|]; simpl in He.
  all: destruct (Z.eqb_spec (i_ref x) 0) as [H0|H0];
    [subst e'; exists x; rewrite Nat.sub_diag; split_and!; (done || lia)|].
  all: destruct e' as [k|]; [destruct He as (y&Hk&Hy&Hz); exists y; split_and!; [lia| |done];
    replace (k - i)%nat with (S (k - S i))%nat by lia; done|].
  all: intros [|k] y Hy; [by injection Hy as <-|by apply (He k y)].
Qed.

Lemma ic_ok_insert ic i x x' :
  ic_ok ic -> ic !! i = Some x -> 0 <= i_ref x' ->
  (0 < i_ref x' -> forall j y, j <> i -> ic !! j = Some y -> ~ caches (i_dev x') (i_inum x') y) ->
  ic_ok (<[i := x']> ic).
Proof.
  intros [Hu Hr] Hi Hx' Hno. assert (Hlt : (i < length ic)%nat) by (by eapply lookup_lt_Some).
  assert (Hl : forall j, <[i := x']> ic !! j = if decide (i = j) then Some x' else ic !! j).
  { intros j. case_decide; [subst; by apply list_lookup_insert_eq|by apply list_lookup_insert_ne]. }
  split.
  - intros j k y z. rewrite !Hl. intros Hy Hz Hry Hrz Hd Hn. unfold caches in Hno.
    repeat case_decide; simplify_eq; [done| | |by eapply Hu].
    + exfalso. by eapply (Hno Hrz j y).
    + exfalso. by eapply (Hno Hry k z).
  - intros j y. rewrite Hl. case_decide; [by intros [= <-]|apply Hr].
Qed.
End cache.

(** What iget does: [E] and [Q] are its error and result conditions. *)
Definition iget_fails {S} (s : @fsys S) (dev inum : Z) (e : err) : Prop :=
  e = Panic "iget: no inodes" /\
  forall k x, f_icache s !! k = Some x -> i_ref x <> 0 /\ ~ caches dev inum x.
Definition iget_returns {S} (s : @fsys S) (dev inum : Z) (i : nat) (s' : @fsys S) : Prop :=
  exists x x', f_icache s !! i = Some x /\ s' = mkFs (f_blk s) (<[i := x']> (f_icache s)) (f_woken s) /\
    caches dev inum x' /\ ic_ok (f_icache s') /\
    ((caches dev inum x /\ x' = set_ref (i_ref x + 1) x) \/
     (i_ref x = 0 /\ i_ref x' = 1 /\ i_flags x' = 0 /\
      forall k y, f_icache s !! k = Some y -> ~ caches dev inum y)).
Lemma iget_ok {S} (s : @fsys S) dev inum :
  ic_ok (f_icache s) -> wp (iget dev inum) (iget_fails s dev inum) (iget_returns s dev inum) s.
Proof.
  intros Hok. destruct s as [b ic wk]. simpl in Hok. unfold iget. apply wp_bind, wp_gets. simpl f_icache.
  pose proof (iget_scan_spec ic dev inum 0 None) as Hs.
  destruct (iget_scan ic dev inum 0 None) as [i|[i|]].
  - destruct Hs as (x&_&Hx&Hc). rewrite Nat.sub_0_r in Hx. apply wp_bind. eapply wp_updi; [done|]. apply wp_ret.
    exists x, (set_ref (i_ref x + 1) x). simpl f_icache. pose proof (ic_ref _ Hok i x Hx).
    split_and!; [done|done|unfold caches in *; simpl; lia| |by left].
    eapply ic_ok_insert; [done..|simpl; lia|]. simpl. intros _ j y Hji Hy (Hr&Hd&Hn). apply Hji.
    destruct Hc as (Hr'&_&_). by eapply (ic_uniq _ Hok).
  - destruct Hs as (Hno&x&_&Hx&H0). rewrite Nat.sub_0_r in Hx. apply wp_bind. eapply wp_updi; [done|]. apply wp_ret.
    eexists x, _. simpl f_icache. split_and!; [done|done|by unfold caches; simpl| |by right].
    eapply ic_ok_insert; [done..|]. simpl. intros _ j y _ Hy. by eapply Hno.
  - apply wp_fail. split; [done|]. intros k x Hx. split; [by eapply Hs|by eapply Hs].
Qed.

(** The inode cache.  iget returns the one entry in use for the inode,
    with its reference count one higher, or sets up a free entry with count 1
    and no flags; no other entry changes, the blocks are not touched and the
    cache never has two entries for one inode.  It panics only when the inode
    is not cached and every entry is in use. *)
Theorem iget_correct {S} (s : @fsys S) dev inum :
  ic_ok (f_icache s) -> wp (iget dev inum) (iget_fails s dev inum) (iget_returns s dev inum) s.
Proof. apply iget_ok. Qed.

(** ** Locking *)
Section lock.
Context {S : Type} `{BlockLayer S}.
Implicit Types (g : geo) (b : S) (ic : list inode) (wk : list chan) (t : tdisk) (L : list Z) (ip : nat) (x : inode).

Lemma ilock_valid b ic wk ip x E (Q : unit -> fsys -> Prop) :
  ic !! ip = Some x -> 1 <= i_ref x -> has (i_flags x) I_BUSY = false -> has (i_flags x) I_VALID = true ->
  Q tt (mkFs b (<[ip := set_iflags (fset I_BUSY (i_flags x)) x]> ic) wk) ->
  wp (ilock ip) E Q (mkFs b ic wk).
Proof.
  intros Hx Hr Hb Hv HQ. unfold ilock. apply wp_bind. eapply wp_geti; [done|].
  rewrite (proj2 (Z.ltb_ge _ _)), Hb by lia. apply wp_bind. eapply wp_updi; [done|].
  assert (Hx' : <[ip := set_iflags (fset I_BUSY (i_flags x)) x]> ic !! ip =
    Some (set_iflags (fset I_BUSY (i_flags x)) x)) by (apply list_lookup_insert_eq; by eapply lookup_lt_Some).
  apply wp_bind. eapply wp_geti; [done|]. simpl i_flags. rewrite has_fset_flag, Hv by flagbit. by apply wp_ret.
Qed.

(** Loading an inode from disk. *)
Lemma ilock_load g b ic wk ip x t L n h E (Q : unit -> fsys -> Prop) :
  let y := get_dinode (dip_off (i_inum x)) (t_view t (IBLOCK (i_inum x))) x in
  bl_rep g b t -> ic !! ip = Some x -> 1 <= i_ref x -> has (i_flags x) I_BUSY = false ->
  has (i_flags x) I_VALID = false -> i_dev x = 1 -> fs_ok g (t_view t) ->
  0 <= i_inum x < sb_ninodes (sb_of (t_view t)) -> t_held t = ∅ -> fits g t L n (Datatypes.S h) ->
  i_type y <> 0 ->
  (forall b', bl_rep g b' t ->
    Q tt (mkFs b' (<[ip := set_iflags (fset I_VALID (fset I_BUSY (i_flags x))) y]> ic) wk)) ->
  wp (ilock ip) E Q (mkFs b ic wk).
Proof.
  intros y Hr Hx Href Hb Hv Hdev Hf Hin Hh Hfit Hty HQ. unfold ilock. apply wp_bind. eapply wp_geti; [done|].
  rewrite (proj2 (Z.ltb_ge _ _)), Hb by lia. apply wp_bind. eapply wp_updi; [done|].
  assert (Hlt : (ip < length ic)%nat) by (by eapply lookup_lt_Some).
  set (x1 := set_iflags _ x). assert (Hx1 : <[ip := x1]> ic !! ip = Some x1) by (by apply list_lookup_insert_eq).
  apply wp_bind. eapply wp_geti; [done|]. simpl i_flags. rewrite has_fset_flag, Hv by flagbit.
  change ((I_BUSY =? I_VALID) || false) with false. cbv iota.
  change (i_dev x1) with (i_dev x). change (i_inum x1) with (i_inum x). rewrite Hdev.
  destruct (IBLOCK_below g (t_view t) (i_inum x) Hf Hin) as [Hib _].
  pose proof (bitmap_range g (t_view t) 0 Hf) as Hb0. pose proof (fo_pos _ _ Hf). pose proof (fo_data _ _ Hf).
  eapply wp_bread; [done|by eapply data_below; [done|lia]|by apply unlocked_none|exact Hfit|].
  intros i b1 Hi Hr1. apply wp_bind. eapply wp_updi; [done|]. rewrite list_insert_insert_eq.
  set (x2 := get_dinode _ _ x1). assert (Hx2 : <[ip := x2]> ic !! ip = Some x2) by (by apply list_lookup_insert_eq).
  eapply wp_brelse0; [done..|]. intros b2 Hr2. apply wp_bind. eapply wp_geti; [done|].
  apply wp_bind. eapply wp_updi; [done|]. rewrite list_insert_insert_eq.
  apply wp_bind. eapply wp_geti; [by apply list_lookup_insert_eq|].
  change (i_type (set_iflags _ x2)) with (i_type y). rewrite (proj2 (Z.eqb_neq _ 0)) by done.
  apply wp_ret. by apply HQ.
Qed.
End lock.

(** An inode is a lock.  Once ilock has returned, a second ilock of the
    same inode sleeps on it; iunlock then clears the lock bit, wakes the
    sleepers and gives back the flags from before; unlocking an inode that is
    not locked, or locking one without references, panics. *)
Theorem ilock_exclusive {S} `{BlockLayer S} (s : fsys) ip x :
  f_icache s !! ip = Some x -> 1 <= i_ref x ->
  i_flags x = I_VALID ->
  wp (ilock ip) noerr (fun _ s1 =>
    ilock ip s1 = Fail (Sleep (ChInode ip)) /\
    wp (iunlock ip) noerr (fun _ s2 => f_icache s2 = f_icache s /\ f_blk s2 = f_blk s /\
      f_woken s2 = ChInode ip :: f_woken s /\ iunlock ip s2 = Fail (Panic "iunlock")) s1) s.
Proof.
  destruct s as [b ic wk]. simpl. intros Hx Hr Hfl.
  assert (Hlt : (ip < length ic)%nat) by (by eapply lookup_lt_Some).
  eapply ilock_valid; [done..|by rewrite Hfl|by rewrite Hfl|]. set (x1 := set_iflags _ x).
  assert (Hx1 : <[ip := x1]> ic !! ip = Some x1) by (by apply list_lookup_insert_eq).
  assert (Hb1 : has (i_flags x1) I_BUSY = true) by (unfold x1; simpl; by rewrite Hfl).
  assert (Hr1 : (i_ref x1 <? 1) = false) by (apply Z.ltb_ge; done).
  split.
  - unfold ilock, bind, geti. simpl. by rewrite Hx1, Hr1, Hb1.
  - unfold iunlock. apply wp_bind. eapply wp_geti; [done|]. rewrite Hb1, Hr1. cbn [negb orb].
    apply wp_bind. eapply wp_updi; [done|]. rewrite list_insert_insert_eq. apply wp_modify. simpl.
    assert (Hback : set_iflags (fclr I_BUSY (fset I_BUSY (i_flags x))) x1 = x)
      by (rewrite Hfl; unfold x1; destruct x; simpl in *; by subst).
    rewrite Hback, list_insert_id by done. split_and!; [done..|].
    unfold iunlock, bind, geti. simpl. by rewrite Hx, Hfl.
Qed.

(** Inodes survive the cache.  What iupdate writes for an inode is what
    ilock reads back into any later cache entry for it, and the other inodes
    of the disk, those in the same block included, are not disturbed. *)
Theorem iupdate_ilock g st ic wk ip x y t L :
  lst_rep g st t -> ic !! ip = Some x -> inode_typed x -> i_dev x = 1 -> i_type x <> 0 ->
  0 <= i_inum x < sb_ninodes (sb_of (t_view t)) -> fs_ok g (t_view t) -> t_active t = true ->
  t_held t = ∅ -> fits g t L 0 1 -> IBLOCK (i_inum x) ∈ L ->
  i_dev y = 1 -> i_inum y = i_inum x -> 1 <= i_ref y -> i_flags y = 0 ->
  wp (iupdate ip;; updi ip (fun _ => y);; ilock ip) noerr (fun _ s => exists st' t',
    s = mkFs st' (<[ip := set_iflags (fset I_VALID I_BUSY) (with_disk x y)]> ic) wk /\ lst_rep g st' t' /\
    forall inum z, 0 <= inum < sb_ninodes (sb_of (t_view t)) -> inum <> i_inum x ->
      get_dinode (dip_off inum) (t_view t' (IBLOCK inum)) z = get_dinode (dip_off inum) (t_view t (IBLOCK inum)) z)
    (mkFs st ic wk : fsysL).
Proof.
  intros Hr Hx Htx Hdev Hty Hin Hf Ha Hh Hfit HIL Hyd Hyn Hyr Hyf. apply wp_bind.
  assert (Hlt : (ip < length ic)%nat) by (by eapply lookup_lt_Some).
  eapply wp_post; [by eapply (iupdate_ok g st ic wk ip x t L 0 0)|]. intros [] s (st1&->&Hr1).
  apply wp_bind. eapply wp_updi; [done|].
  destruct (IBLOCK_below g (t_view t) (i_inum x) Hf Hin) as [Hib Hoff].
  pose proof (bitmap_range g (t_view t) 0 Hf) as Hb0. pose proof (fo_pos _ _ Hf). pose proof (fo_data _ _ Hf).
  assert (Hblk : is_block (t_view t (IBLOCK (i_inum x)))) by (apply (fo_sb_blocks _ _ Hf); lia).
  assert (Hv : t_view (t_iupdate x t) (IBLOCK (i_inum x)) =
    put_dinode (dip_off (i_inum x)) x (t_view t (IBLOCK (i_inum x)))) by apply fn_lookup_insert.
  assert (Hget : get_dinode (dip_off (i_inum y)) (t_view (t_iupdate x t) (IBLOCK (i_inum y))) y = with_disk x y).
  { rewrite Hyn, Hv. apply get_put_dinode; [done|lia|]. destruct Hblk as [-> _]. lia. }
  eapply (ilock_load g st1 _ wk ip y (t_iupdate x t) L 0 0); rewrite ?Hget.
  - exact Hr1.
  - by apply list_lookup_insert_eq.
  - done.
  - by rewrite Hyf.
  - by rewrite Hyf.
  - done.
  - rewrite t_iupdate_view. apply istore_fs_ok; [done|done|by apply block_put_dinode].
  - rewrite Hyn, t_iupdate_view, istore_sb; [done|exact Hib].
  - done.
  - by apply fits_write.
  - done.
  - intros b' Hr'. exists b', (t_iupdate x t). rewrite list_insert_insert_eq, Hyf. split_and!; [done..|].
    intros inum z Hinum Hne. rewrite t_iupdate_view.
    destruct (decide (IBLOCK inum = IBLOCK (i_inum x))) as [Heq|Hnb]; [|by rewrite fn_lookup_insert_ne].
    rewrite Heq, fn_lookup_insert. apply get_put_other; [apply Htx|..].
    + lia.
    + unfold dip_off. rewrite IPB_eq. pose proof (Z.mod_pos_bound inum 8). change DINODE_SZ with 64. lia.
    + unfold IBLOCK, dip_off in *. rewrite IPB_eq in *. change DINODE_SZ with 64.
      pose proof (Z.div_mod inum 8). pose proof (Z.div_mod (i_inum x) 8). lia.
Qed.
