(* ===== verification/FsTrunc.v ===== *)
(** Freeing: bfree, itrunc and iput of fs.c. *)
From S2P Require Import Prelude Params Str Bio BioSpec Log LogSpec Trans Recover BlockIf Storage Fs FsBlocks FsFile FsSpec FsThms FsInode.

(** ** One block *)
Definition free_view (v : Z -> list Z) (a : Z) : Z -> list Z :=
  let bb := bitmap_of v a in <[bb := bit_clear (a mod BPB) (v bb)]> v.

(** [v'] is [v] after the blocks of [F] were freed. *)
Record freed (g : geo) (v : Z -> list Z) (F : list Z) (v' : Z -> list Z) : Prop := {
  fr_fs : fs_ok g v';
  fr_sb : sb_of v' = sb_of v;
  fr_free : forall x, 0 <= x < sb_size (sb_of v) -> blk_free v' x = bool_decide (x ∈ F) || blk_free v x;
  fr_data : forall x, dstart v <= x -> v' x = v x;
  fr_ino : forall x, 0 <= x < bitmap_of v 0 -> v' x = v x }.

Section free1.
Context (g : geo) (v : Z -> list Z) (a : Z).
Hypotheses (Hf : fs_ok g v) (Ha : dstart v <= a < g_lstart g).
Let v' := free_view v a.
Let bb := bitmap_of v a.

Lemma free1_size : 0 <= a < sb_size (sb_of v).
Proof using Hf Ha. pose proof (dstart_ge4 g v Hf). pose proof (fo_size _ _ Hf). lia. Qed.
Lemma free1_bb : bitmap_of v 0 <= bb < dstart v.
Proof using Hf Ha.
  pose proof free1_size. pose proof (bitmap_range g v a Hf). pose proof (bitmap_mono g v 0 a Hf). unfold bb. lia.
Qed.
Lemma free1_at x : v' x = if decide (x = bb) then bit_clear (a mod BPB) (v bb) else v x.
Proof. unfold v', free_view. fold bb. case_decide; [subst; apply fn_lookup_insert|by apply fn_lookup_insert_ne]. Qed.
Lemma free1_sb : sb_of v' = sb_of v.
Proof using Hf Ha.
  unfold sb_of. rewrite free1_at. pose proof free1_bb. pose proof (bitmap_mono g v 0 0 Hf).
  by rewrite decide_False by lia.
Qed.
Lemma free1_free x : 0 <= x < sb_size (sb_of v) ->
  blk_free v' x = if decide (x = a) then true else blk_free v x.
Proof using Hf Ha.
  intros Hx. pose proof free1_bb. pose proof (fo_data _ _ Hf).
  pose proof (bitmap_mono g v 0 0 Hf).
  unfold blk_free at 1. unfold bitmap_of at 1. rewrite free1_sb. fold (bitmap_of v x). rewrite free1_at.
  destruct (decide (bitmap_of v x = bb)) as [Hbb|Hbb].
  - rewrite bit_free_clear; [|apply (fo_sb_blocks _ _ Hf); lia|apply Z.mod_pos_bound; done..].
    rewrite <- Hbb. fold (blk_free v x). destruct (decide (x = a)) as [->|Hxa]; [by rewrite decide_True|].
    rewrite decide_False; [done|]. intros Hm. apply Hxa. by apply (same_bit_block v a).
  - rewrite decide_False; [done|]. by intros ->.
Qed.
Lemma free1_freed : freed g v [a] v'.
Proof using Hf Ha.
  pose proof free1_bb. pose proof (fo_data _ _ Hf). pose proof (bitmap_mono g v 0 0 Hf).
  assert (Hd : dstart v' = dstart v) by (unfold dstart, bitmap_of; by rewrite free1_sb).
  split.
  - split; rewrite ?free1_sb, ?Hd; try apply Hf.
    + intros x Hx. rewrite free1_at. case_decide; [|by apply Hf].
      apply block_bit_clear; [apply Hf; lia|apply Z.mod_pos_bound; done].
    + intros x Hx Hxs. rewrite free1_free by lia. rewrite decide_False by lia. by apply Hf.
  - apply free1_sb.
  - intros x Hx. rewrite free1_free by done. case_decide; [subst; by rewrite bool_decide_true by set_solver|].
    rewrite bool_decide_false by set_solver. done.
  - intros x Hx. rewrite free1_at. by rewrite decide_False by lia.
  - intros x Hx. rewrite free1_at. by rewrite decide_False by lia.
Qed.
End free1.

Section freed.
Implicit Types (g : geo) (v : Z -> list Z) (F : list Z).
Lemma freed_nil g v : fs_ok g v -> freed g v [] v.
Proof. intros Hf. split; [done..| |done|done]. intros x Hx. by rewrite bool_decide_false by set_solver. Qed.
Lemma freed_dstart g v F v' : freed g v F v' -> dstart v' = dstart v.
Proof. intros Hr. unfold dstart, bitmap_of. by rewrite (fr_sb _ _ _ _ Hr). Qed.
Lemma freed_snoc g v F v' a :
  freed g v F v' -> dstart v <= a < g_lstart g -> freed g v (F ++ [a]) (free_view v' a).
Proof.
  intros Hr Ha. pose proof (freed_dstart _ _ _ _ Hr) as Hd.
  assert (H1 : freed g v' [a] (free_view v' a)) by (apply free1_freed; [apply Hr|by rewrite Hd]).
  split.
  - apply H1.
  - rewrite (fr_sb _ _ _ _ H1). apply Hr.
  - intros x Hx. rewrite (fr_free _ _ _ _ H1) by (by rewrite (fr_sb _ _ _ _ Hr)).
    rewrite (fr_free _ _ _ _ Hr) by done. rewrite orb_assoc. f_equal.
    repeat case_bool_decide; set_solver.
  - intros x Hx. rewrite (fr_data _ _ _ _ H1) by (by rewrite Hd). by apply (fr_data _ _ _ _ Hr).
  - intros x Hx. rewrite (fr_ino _ _ _ _ H1); [by apply (fr_ino _ _ _ _ Hr)|]. unfold bitmap_of. by rewrite (fr_sb _ _ _ _ Hr).
Qed.
Lemma freed_used g v F v' a :
  freed g v F v' -> 0 <= a < sb_size (sb_of v) -> blk_free v a = false -> a ∉ F -> blk_free v' a = false.
Proof. intros Hr Ha Hb Hn. rewrite (fr_free _ _ _ _ Hr), Hb by done. by rewrite bool_decide_false. Qed.
End freed.

Section trunc.
Context {S : Type} `{BlockLayer S}.
Implicit Types (g : geo) (b : S) (ic : list inode) (wk : list chan) (t : tdisk) (L A F : list Z) (ip : nat) (x : inode).

(** The setting of a truncation: [v] is the disk before it. *)
Record tctx g v t L F : Prop := {
  tc_freed : freed g v F (t_view t);
  tc_act : t_active t = true;
  tc_held : t_held t = ∅;
  tc_bm : forall y, 0 <= y < g_lstart g -> bitmap_of v y ∈ L;
  tc_fits : fits g t L 0 2 }.

Lemma tctx_free g v t L F a :
  tctx g v t L F -> dstart v <= a < g_lstart g -> 0 <= a -> tctx g v (t_free a t) L (F ++ [a]).
Proof.
  intros Hc Ha Ha0. split; try apply Hc.
  - by apply freed_snoc; [apply Hc|].
  - unfold t_free. apply fits_write; [|apply Hc]. unfold bitmap_of.
    rewrite (fr_sb _ _ _ _ (tc_freed _ _ _ _ _ Hc)). apply (tc_bm _ _ _ _ _ Hc). lia.
Qed.

(** bfree of a block of the file, while the buffer of block [ia] may be
    locked. *)
Lemma bfree_file g b ic wk v t th L F a E :
  bl_rep g b th -> tctx g v t L F -> (th = t \/ exists i ia, th = t_hold i ia t /\ dstart v <= ia) ->
  dstart v <= a < g_lstart g -> blk_free v a = false -> a ∉ F -> fs_ok g v ->
  wp (bfree 1 a) E (fun _ s => exists b', s = mkFs b' ic wk /\ bl_rep g b' (t_free a th)) (mkFs b ic wk).
Proof.
  intros Hr Hc Hth Ha Hb Hn Hf. pose proof (tc_freed _ _ _ _ _ Hc) as Hfr.
  pose proof (fr_fs _ _ _ _ Hfr) as Hf'. pose proof (dstart_ge4 g v Hf). pose proof (fo_size _ _ Hf).
  assert (Hv : t_view th = t_view t) by (by destruct Hth as [->|(i&ia&->&_)]).
  assert (Hul : forall y, y < dstart v -> unlocked th y).
  { intros y Hy. destruct Hth as [->|(i&ia&->&Hia)]; [apply unlocked_none, Hc|].
    apply unlocked_hold; [apply unlocked_none, Hc|lia]. }
  assert (Hfit : fits g th L 0 1).
  { destruct Hth as [->|(i&ia&->&Hia)]; [eapply fits_le; [apply Hc|lia..]|].
    apply fits_hold; [by rewrite (tc_held _ _ _ _ _ Hc)|apply Hc]. }
  assert (Hused : blk_free (t_view t) a = false) by (eapply freed_used; [done|lia|done..]).
  pose proof (freed_dstart _ _ _ _ Hfr) as Hd. pose proof (fr_sb _ _ _ _ Hfr) as Hsb.
  eapply wp_post; [eapply (bfree_ok g b ic wk th L 0 0 a); rewrite ?Hv, ?Hsb; [done| |..]|].
  - by apply fs_bitmap_ok.
  - destruct Hth as [->|(i&ia&->&_)]; apply Hc.
  - lia.
  - apply Hul. lia.
  - apply Hul. rewrite <- Hd. apply (bitmap_range g); [done|]. rewrite Hsb. lia.
  - exact Hfit.
  - congruence.
  - intros [] s (_&b'&->&Hr'). eauto.
Qed.

(** ** The loop over the direct blocks *)
Definition nonzero (l : list Z) : list Z := filter (fun a => a <> 0) l.
Definition zeroed (k : nat) A : list Z := replicate k 0 ++ drop k A.

Lemma nonzero_snoc l a : nonzero (l ++ [a]) = nonzero l ++ (if decide (a = 0) then [] else [a]).
Proof. unfold nonzero. rewrite filter_app, filter_cons, filter_nil. repeat case_decide; done. Qed.
Lemma zeroed_S k A : (k < length A)%nat -> <[k := 0]> (zeroed k A) = zeroed (Datatypes.S k) A.
Proof.
  intros Hk. unfold zeroed. rewrite insert_app_r_alt by (rewrite length_replicate; lia).
  rewrite length_replicate, Nat.sub_diag. destruct (drop k A) as [|z l] eqn:Hd.
  - apply (f_equal length) in Hd. rewrite length_drop in Hd. simpl in Hd. lia.
  - assert (Hl : drop (Datatypes.S k) A = l) by (by rewrite <- Nat.add_1_r, <- drop_drop, Hd).
    rewrite Hl, replicate_S_end, <- app_assoc. done.
Qed.
Lemma zeroed_lookup k A (i : nat) : (k <= i)%nat -> (i < length A)%nat -> zeroed k A !! i = A !! i.
Proof.
  intros Hk Hi. unfold zeroed. rewrite lookup_app_r by (rewrite length_replicate; lia).
  rewrite length_replicate, lookup_drop. f_equal. lia.
Qed.
Lemma zeroed_at k A (i : nat) : (k <= i)%nat -> (i < length A)%nat -> zeroed k A !!! i = A !!! i.
Proof. intros Hk Hi. by rewrite !list_lookup_total_alt, zeroed_lookup. Qed.
Lemma length_zeroed k A : (k <= length A)%nat -> length (zeroed k A) = length A.
Proof. intros. unfold zeroed. rewrite length_app, length_replicate, length_drop. lia. Qed.

(** The blocks freed so far are blocks of the file. *)
Lemma in_direct v A (n : nat) a :
  length A = 13%nat -> (n <= 12)%nat -> a ∈ nonzero (take n A) ->
  exists k, 0 <= k < Z.of_nat n /\ blkno v A k = a /\ a <> 0.
Proof.
  intros Hl Hn. unfold nonzero. rewrite list_elem_of_filter. intros [Ha Hin].
  apply list_elem_of_lookup_1 in Hin as [k Hk]. apply lookup_take_Some in Hk as [Hk Hki].
  exists (Z.of_nat k). split_and!; [lia..| |done].
  unfold blkno, NDIRECT. rewrite (proj2 (Z.ltb_lt _ _)), Nat2Z.id by lia. by rewrite list_lookup_total_alt, Hk.
Qed.
Lemma in_indirect v A (n a : Z) :
  ind_of A <> 0 -> a ∈ nonzero (map (ind_ent (v (ind_of A))) (seqZ 0 n)) ->
  exists k, 0 <= k < n /\ blkno v A (NDIRECT + k) = a /\ a <> 0.
Proof.
  intros Hne. unfold nonzero. rewrite list_elem_of_filter. intros [Ha Hin].
  apply list_elem_of_fmap in Hin as (k&->&Hk%elem_of_seqZ). exists k. split_and!; [lia..| |done].
  unfold blkno. rewrite (proj2 (Z.ltb_ge _ _)), (proj2 (Z.eqb_neq (ind_of A) 0)) by (done || lia).
  f_equal. lia.
Qed.

Lemma trunc_direct g b ic wk ip x t L E :
  let A := i_addrs x in let v := t_view t in
  bl_rep g b t -> ic !! ip = Some x -> i_dev x = 1 -> inode_ok g v A -> fs_ok g v -> tctx g v t L [] ->
  wp (for_range (Z.to_nat NDIRECT) 0 (fun i =>
    x <- geti ip;;
    a <- aget (i_addrs x) i;;
    when (negb (a =? 0)) (
      bfree (i_dev x) a;;
      updi ip (fun x => set_addrs (<[Z.to_nat i := 0]> (i_addrs x)) x)))) E
    (fun _ s => exists b' t', s = mkFs b' (<[ip := set_addrs (zeroed 12 A) x]> ic) wk /\ bl_rep g b' t' /\
      t_comm t' = t_comm t /\ tctx g v t' L (nonzero (take 12 A))) (mkFs b ic wk).
Proof.
  intros A v Hr Hx Hdev Hi Hf Hc. pose proof (io_len _ _ _ Hi) as Hl. fold A in Hl.
  apply (wp_for_range (fun i s => exists b' t',
    s = mkFs b' (<[ip := set_addrs (zeroed (Z.to_nat i) A) x]> ic) wk /\ bl_rep g b' t' /\
    t_comm t' = t_comm t /\ tctx g v t' L (nonzero (take (Z.to_nat i) A)))).
  - exists b, t. change (zeroed (Z.to_nat 0) A) with (i_addrs x).
    rewrite set_addrs_id, list_insert_id by done. done.
  - intros i s Hi' (b1&t1&->&Hr1&Hcm&Hc1). change (Z.of_nat (Z.to_nat NDIRECT)) with 12 in Hi'.
    set (x1 := set_addrs (zeroed (Z.to_nat i) A) x).
    assert (Hx1 : <[ip := x1]> ic !! ip = Some x1) by (apply list_lookup_insert_eq; by eapply lookup_lt_Some).
    apply wp_bind. eapply wp_geti; [done|].
    apply wp_bind, wp_aget; [simpl; rewrite length_zeroed, Hl; lia|]. simpl i_addrs. simpl i_dev.
    rewrite zeroed_at by lia. set (a := A !!! Z.to_nat i).
    assert (Hnz : nonzero (take (Z.to_nat (i + 1)) A) = nonzero (take (Z.to_nat i) A) ++ (if decide (a = 0) then [] else [a])).
    { replace (Z.to_nat (i + 1)) with (Datatypes.S (Z.to_nat i)) by lia.
      rewrite (take_S_r A (Z.to_nat i) a) by (apply list_lookup_lookup_total_lt; lia). apply nonzero_snoc. }
    assert (Hz : <[Z.to_nat i := 0]> (zeroed (Z.to_nat i) A) = zeroed (Z.to_nat (i + 1)) A)
      by (rewrite zeroed_S by lia; f_equal; lia).
    assert (Hblk : blkno v A i = a) by (unfold blkno, NDIRECT; by rewrite (proj2 (Z.ltb_lt _ _)) by lia).
    apply wp_when; intros Ha0.
    + assert (Hne : a <> 0) by lia. rewrite decide_False in Hnz by done.
      assert (Ho : owns v A a) by (rewrite <- Hblk; apply owns_blk; [rewrite MAXFILE_eq; lia|by rewrite Hblk]).
      rewrite Hdev. apply wp_bind. eapply wp_post; [eapply (bfree_file g b1 _ wk v t1 t1 L _ a); [done|exact Hc1|by left|..]|].
      * by apply (io_range _ _ _ Hi).
      * by apply (io_used _ _ _ Hi).
      * intros (k&Hk&Hbk&_)%(in_direct v); [|done|lia].
        assert (k = i); [|lia]. apply (io_inj _ _ _ Hi); [rewrite MAXFILE_eq; lia..|by rewrite Hbk|congruence].
      * done.
      * intros [] s (b2&->&Hr2). eapply wp_updi; [done|]. rewrite list_insert_insert_eq. simpl. rewrite Hz, Hnz.
        exists b2, (t_free a t1). split_and!; [done..|]. apply tctx_free; [done|by apply (io_range _ _ _ Hi)|].
        pose proof (io_range _ _ _ Hi a Ho). pose proof (dstart_ge4 g v Hf). lia.
    + assert (Ha : a = 0) by lia. rewrite decide_True in Hnz by done. rewrite app_nil_r in Hnz.
      exists b1, t1. rewrite Hnz, <- Hz. split_and!; [|done..]. do 4 f_equal. symmetry. apply list_insert_id.
      rewrite zeroed_lookup, (list_lookup_lookup_total_lt A) by lia. by f_equal.
  - intros s Hs. exact Hs.
Qed.

(** ** The loop over the indirect block *)
Lemma trunc_indirect g b ic wk i x v t L E :
  let A := i_addrs x in let ia := ind_of A in let F0 := nonzero (take 12 A) in
  bl_rep g b (t_hold i ia t) -> inode_ok g v A -> fs_ok g v -> ia <> 0 ->
  tctx g v t L F0 ->
  wp (for_range (Z.to_nat NINDIRECT) 0 (fun j =>
      d <- blk (bl_bdata i);;
      let e := rd 4 (4 * j) d in
      when (negb (e =? 0)) (bfree 1 e))) E
    (fun _ s => exists b' t', s = mkFs b' ic wk /\ bl_rep g b' (t_hold i ia t') /\
      t_comm t' = t_comm t /\ tctx g v t' L (F0 ++ nonzero (map (ind_ent (v ia)) (seqZ 0 NINDIRECT))))
    (mkFs b ic wk).
Proof.
  intros A ia F0 Hr Hi Hf Hne Hc. pose proof (io_len _ _ _ Hi) as Hl.
  assert (Hia : dstart v <= ia < g_lstart g) by (apply (io_range _ _ _ Hi); by apply owns_ind).
  pose proof (dstart_ge4 g v Hf) as Hd4.
  apply (wp_for_range (fun j s => exists b' t', s = mkFs b' ic wk /\ bl_rep g b' (t_hold i ia t') /\
    t_comm t' = t_comm t /\ tctx g v t' L (F0 ++ nonzero (map (ind_ent (v ia)) (seqZ 0 j))))).
  - exists b, t. simpl. rewrite app_nil_r. done.
  - intros j s Hj (b1&t1&->&Hr1&Hcm&Hc1). change (Z.of_nat (Z.to_nat NINDIRECT)) with 128 in Hj.
    apply wp_bind, wp_blk, wp_total. eapply wp_post; [eapply (bl_bdata_ok g b1); [done|apply held_hold]|].
    intros d b2 [-> Hr2]. change (t_view (t_hold i ia t1)) with (t_view t1).
    rewrite (fr_data _ _ _ _ (tc_freed _ _ _ _ _ Hc1)) by lia. cbv zeta.
    change (rd 4 (4 * j) (v ia)) with (ind_ent (v ia) j). set (e := ind_ent (v ia) j).
    assert (Hnz : nonzero (map (ind_ent (v ia)) (seqZ 0 (j + 1))) =
      nonzero (map (ind_ent (v ia)) (seqZ 0 j)) ++ (if decide (e = 0) then [] else [e])).
    { rewrite seqZ_snoc, map_app by lia. apply nonzero_snoc. }
    assert (Hblk : blkno v A (NDIRECT + j) = e).
    { unfold blkno. fold ia. rewrite (proj2 (Z.ltb_ge _ _)), (proj2 (Z.eqb_neq ia 0)) by (done || lia).
      unfold e. f_equal. lia. }
    assert (Hbn : 0 <= NDIRECT + j < MAXFILE) by (rewrite MAXFILE_eq; unfold NDIRECT; lia).
    apply wp_when; intros He.
    + assert (He0 : e <> 0) by lia. rewrite decide_False in Hnz by done.
      assert (Ho : owns v A e) by (rewrite <- Hblk; apply owns_blk; [done|by rewrite Hblk]).
      assert (Her : dstart v <= e < g_lstart g) by (by apply (io_range _ _ _ Hi)).
      eapply wp_post; [eapply (bfree_file g b2 ic wk v t1 (t_hold i ia t1) L _ e); [done|exact Hc1| |done|..]|].
      * right. exists i, ia. split; [done|lia].
      * by apply (io_used _ _ _ Hi).
      * intros [Hin|Hin]%elem_of_app.
        -- apply (in_direct v) in Hin as (k&Hk&Hbk&_); [|done|lia].
           assert (k = NDIRECT + j); [|unfold NDIRECT in *; lia].
           apply (io_inj _ _ _ Hi); [rewrite MAXFILE_eq; lia|done|by rewrite Hbk|congruence].
        -- apply in_indirect in Hin as (k&Hk&Hbk&_); [|done].
           assert (NDIRECT + k = NDIRECT + j); [|lia].
           apply (io_inj _ _ _ Hi); [rewrite MAXFILE_eq; unfold NDIRECT; lia|done|by rewrite Hbk|congruence].
      * done.
      * intros [] s (b3&->&Hr3). exists b3, (t_free e t1). split_and!; [done..|].
        rewrite Hnz, app_assoc. apply tctx_free; [done..|lia].
    + assert (He0 : e = 0) by lia. rewrite decide_True, app_nil_r in Hnz by done.
      exists b2, t1. by rewrite Hnz.
  - intros s Hs. exact Hs.
Qed.

(** ** itrunc *)

(** The blocks of the file, in the order itrunc frees them. *)
Definition all_blocks v A : list Z :=
  nonzero (take 12 A) ++
  (if ind_of A =? 0 then [] else
   nonzero (map (ind_ent (v (ind_of A))) (seqZ 0 NINDIRECT)) ++ [ind_of A]).

Lemma all_blocks_owns v A a : length A = 13%nat -> a ∈ all_blocks v A <-> owns v A a.
Proof.
  intros Hl. unfold all_blocks. split.
  - intros [Hin|Hin]%elem_of_app.
    + apply (in_direct v) in Hin as (k&Hk&<-&Hne); [|done|lia]. apply owns_blk; [rewrite MAXFILE_eq; lia|done].
    + destruct (Z.eqb_spec (ind_of A) 0) as [|Hia]; [set_solver|].
      apply elem_of_app in Hin as [Hin|Hin%list_elem_of_singleton]; [|subst; by apply owns_ind].
      apply in_indirect in Hin as (k&Hk&<-&Hne); [|done]. change NINDIRECT with 128 in Hk.
      apply owns_blk; [rewrite MAXFILE_eq; unfold NDIRECT; lia|done].
  - intros [Hne [(bn&Hbn&<-)|<-]]; apply elem_of_app.
    + unfold blkno in *. destruct (Z.ltb_spec bn NDIRECT) as [Hlt|Hge].
      * left. unfold nonzero. apply list_elem_of_filter. split; [done|].
        unfold NDIRECT in *. apply (list_elem_of_lookup_2 _ (Z.to_nat bn)).
        rewrite lookup_take_lt by lia. apply list_lookup_lookup_total_lt. lia.
      * right. destruct (Z.eqb_spec (ind_of A) 0) as [|Hia]; [done|]. apply elem_of_app. left.
        unfold nonzero. apply list_elem_of_filter. split; [done|]. apply list_elem_of_fmap.
        exists (bn - NDIRECT). split; [done|]. apply elem_of_seqZ. unfold MAXFILE in Hbn. lia.
    + right. rewrite (proj2 (Z.eqb_neq (ind_of A) 0)) by done. set_solver.
Qed.

Lemma zeroed_full A : length A = 13%nat -> <[Z.to_nat NDIRECT := 0]> (zeroed 12 A) = replicate 13 0.
Proof.
  intros Hl. change (Z.to_nat NDIRECT) with 12%nat. rewrite zeroed_S by lia. unfold zeroed.
  rewrite drop_ge by lia. by rewrite app_nil_r.
Qed.

Definition itrunc_post g ic wk ip x t (s : fsys) : Prop :=
  exists b' t1 L', let x' := set_size 0 (set_addrs (replicate 13 0) x) in
    s = mkFs b' (<[ip := x']> ic) wk /\ bl_rep g b' (t_iupdate x' t1) /\ t_comm t1 = t_comm t /\
    tctx g (t_view t) t1 L' (all_blocks (t_view t) (i_addrs x)) /\ IBLOCK (i_inum x) ∈ L'.

Lemma itrunc_ok g b ic wk ip x t L E :
  bl_rep g b t -> ic !! ip = Some x -> i_dev x = 1 -> inode_ok g (t_view t) (i_addrs x) ->
  0 <= i_inum x < sb_ninodes (sb_of (t_view t)) -> fs_ok g (t_view t) -> tctx g (t_view t) t L [] ->
  IBLOCK (i_inum x) ∈ L ->
  wp (itrunc ip) E (fun _ => itrunc_post g ic wk ip x t) (mkFs b ic wk).
Proof.
  intros Hr Hx Hdev Hi Hin Hf Hc HI. set (v := t_view t) in *. set (A := i_addrs x) in *.
  pose proof (io_len _ _ _ Hi) as Hl. assert (Hlt : (ip < length ic)%nat) by (by eapply lookup_lt_Some).
  assert (Hfin : forall b1 t1 A1, bl_rep g b1 t1 -> t_comm t1 = t_comm t -> A1 = replicate 13 0 ->
    tctx g v t1 L (all_blocks v A) ->
    wp (updi ip (set_size 0);; iupdate ip) E (fun _ => itrunc_post g ic wk ip x t)
      (mkFs b1 (<[ip := set_addrs A1 x]> ic) wk)).
  { intros b1 t1 A1 Hr1 Hcm -> Hc1. apply wp_bind.
    eapply wp_updi; [by apply list_lookup_insert_eq|]. rewrite list_insert_insert_eq.
    set (x' := set_size 0 _). pose proof (tc_freed _ _ _ _ _ Hc1) as Hfr.
    eapply wp_post; [eapply (iupdate_ok g b1 _ wk ip x' t1 L 0 1)|].
    - done.
    - by apply list_lookup_insert_eq.
    - done.
    - apply Hfr.
    - rewrite (fr_sb _ _ _ _ Hfr). done.
    - apply Hc1.
    - apply Hc1.
    - apply Hc1.
    - intros [] s (b2&->&Hr2). exists b2, t1, L. done. }
  unfold itrunc. apply wp_bind. eapply wp_post; [by eapply (trunc_direct g b ic wk ip x t L)|].
  intros [] s (b1&t1&->&Hr1&Hcm1&Hc1). fold v A in Hc1.
  set (x1 := set_addrs (zeroed 12 A) x).
  assert (Hx1 : <[ip := x1]> ic !! ip = Some x1) by (by apply list_lookup_insert_eq).
  apply wp_bind. eapply wp_geti; [done|].
  change (i_addrs x1) with (zeroed 12 A). change (i_dev x1) with (i_dev x).
  apply wp_bind, wp_aget; [rewrite length_zeroed, Hl by lia; unfold NDIRECT; lia|].
  change (Z.to_nat NDIRECT) with 12%nat. rewrite zeroed_at by lia.
  change (A !!! 12%nat) with (ind_of A). set (ia := ind_of A).
  apply wp_bind. destruct (Z.eqb_spec ia 0) as [H0|Hne]; cbn [negb].
  - apply wp_ret. eapply Hfin; [done..| |].
    + rewrite <- (zeroed_full A Hl). symmetry. apply list_insert_id. change (Z.to_nat NDIRECT) with 12%nat.
      fold A. rewrite zeroed_lookup, (list_lookup_lookup_total_lt A) by lia. by f_equal.
    + unfold all_blocks. fold ia. rewrite (proj2 (Z.eqb_eq ia 0)), app_nil_r by done. done.
  - rewrite Hdev. apply wp_bind. apply wp_blk, wp_total.
    assert (Ho : owns v A ia) by (by apply owns_ind).
    pose proof (io_range _ _ _ Hi ia Ho) as Hia. pose proof (dstart_ge4 g v Hf) as Hd4.
    eapply wp_post; [eapply (bl_bread_ok g b1 t1 ia); [done| |apply unlocked_none, Hc1|eapply fits_room, Hc1]|].
    { eapply data_below; [done|lia]. }
    intros i b2 [Hi2 Hr2]. apply wp_bind. eapply wp_post; [by eapply (trunc_indirect g b2 _ wk i x v t1 L)|].
    fold A ia. intros [] s (b3&t3&->&Hr3&Hcm3&Hc3).
    eapply wp_brelse0; [by rewrite (tc_held _ _ _ _ _ Hc3)|done|]. intros b4 Hr4.
    apply wp_bind. eapply wp_post; [eapply (bfree_file g b4 _ wk v t3 t3 L _ ia); [done|exact Hc3|by left|done|..]|].
    + by apply (io_used _ _ _ Hi).
    + intros [Hin'|Hin']%elem_of_app.
      * apply (in_direct v) in Hin' as (k&Hk&Hbk&Hk0); [|done|lia].
        apply (io_ind _ _ _ Hi k); [rewrite MAXFILE_eq; lia|by rewrite Hbk|done].
      * apply in_indirect in Hin' as (k&Hk&Hbk&Hk0); [|done]. change NINDIRECT with 128 in Hk.
        apply (io_ind _ _ _ Hi (NDIRECT + k)); [rewrite MAXFILE_eq; unfold NDIRECT; lia|by rewrite Hbk|done].
    + done.
    + intros [] s (b5&->&Hr5). eapply wp_updi; [done|]. rewrite list_insert_insert_eq.
      eapply Hfin; [done|simpl; congruence|by apply zeroed_full|].
      unfold all_blocks. fold ia. rewrite (proj2 (Z.eqb_neq ia 0)), app_assoc by done.
      apply tctx_free; [done..|lia].
Qed.
End trunc.

(** ** Theorems *)

(** What the disk is after the inode [inum] with block numbers [A] was
    freed: the inode has type 0, exactly its blocks were returned to the
    bitmap, and no data block has changed. *)
Record inode_freed g t A inum t' : Prop := {
  if_fs : fs_ok g (t_view t');
  if_type : rd 2 (dip_off inum) (t_view t' (IBLOCK inum)) = 0;
  if_bits : forall y, 0 <= y < sb_size (sb_of (t_view t)) ->
    blk_free (t_view t') y = true <-> owns (t_view t) A y \/ blk_free (t_view t) y = true;
  if_data : forall y, dstart (t_view t) <= y -> t_view t' y = t_view t y;
  if_comm : t_comm t' = t_comm t }.

(** iput that does not free. *)
Lemma iput_drop {S} `{BlockLayer S} (b : S) ic wk ip x :
  ic !! ip = Some x -> ((i_ref x =? 1) && has (i_flags x) I_VALID && (i_nlink x =? 0)) = false ->
  iput ip (mkFs b ic wk) = Ok tt (mkFs b (<[ip := set_ref (i_ref x - 1) x]> ic) wk).
Proof.
  intros Hx Hb. unfold iput, bind, geti. cbn [f_icache]. rewrite Hx. unfold when. rewrite Hb.
  unfold ret, updi, bind, geti, modify. cbn [f_blk f_icache f_woken]. by rewrite Hx.
Qed.

Section iput.
Implicit Types (g : geo) (st : lst) (t : tdisk) (ic : list inode) (wk : list chan) (ip : nat) (x : inode).

Lemma freed_inode g t t1 L x y :
  fs_ok g (t_view t) -> inode_ok g (t_view t) (i_addrs x) ->
  0 <= i_inum x < sb_ninodes (sb_of (t_view t)) ->
  tctx g (t_view t) t1 L (all_blocks (t_view t) (i_addrs x)) -> t_comm t1 = t_comm t ->
  i_inum y = i_inum x -> i_type y = 0 -> length (i_addrs y) = 13%nat ->
  forall y1, i_inum y1 = i_inum x -> length (i_addrs y1) = 13%nat ->
  inode_freed g t (i_addrs x) (i_inum x) (t_iupdate y (t_iupdate y1 t1)).
Proof.
  intros Hf Hi Hin Hc Hcm Hyn Hyt Hyl y1 Hy1 Hyl1. pose proof (tc_freed _ _ _ _ _ Hc) as Hfr.
  pose proof (fr_fs _ _ _ _ Hfr) as Hf1. pose proof (fr_sb _ _ _ _ Hfr) as Hsb.
  destruct (IBLOCK_below g (t_view t1) (i_inum x) Hf1) as [Hib Hoff]; [by rewrite Hsb|].
  pose proof (bitmap_range g (t_view t1) 0 Hf1) as Hb0. pose proof (fo_pos _ _ Hf1). pose proof (fo_data _ _ Hf1).
  set (ib := IBLOCK (i_inum x)) in *. set (o := dip_off (i_inum x)) in *.
  assert (Hb1 : is_block (t_view t1 ib)) by (apply (fo_sb_blocks _ _ Hf1); lia).
  set (d1 := put_dinode o y1 (t_view t1 ib)).
  assert (Hd1 : is_block d1) by (by apply block_put_dinode).
  assert (Hv1 : t_view (t_iupdate y1 t1) = <[ib := d1]> (t_view t1)) by (rewrite t_iupdate_view, Hy1; done).
  assert (Hv2 : t_view (t_iupdate y (t_iupdate y1 t1)) = <[ib := put_dinode o y d1]> (<[ib := d1]> (t_view t1))).
  { rewrite t_iupdate_view, Hyn, Hv1. fold ib o. by rewrite fn_lookup_insert. }
  assert (Hf2 : fs_ok g (<[ib := d1]> (t_view t1))) by (by apply istore_fs_ok).
  assert (Hib2 : 2 <= ib < bitmap_of (<[ib := d1]> (t_view t1)) 0) by (rewrite istore_bitmap; done).
  assert (Hother : forall z, z <> ib -> t_view (t_iupdate y (t_iupdate y1 t1)) z = t_view t1 z)
    by (intros z Hz; rewrite Hv2; by rewrite !fn_lookup_insert_ne).
  split.
  - rewrite Hv2. apply istore_fs_ok; [done|done|by apply block_put_dinode].
  - rewrite Hv2, fn_lookup_insert. unfold put_dinode. cbv zeta. rewrite rd_splice_ne by lia.
    rewrite !rd_wr_ne by lia. destruct Hd1 as [Hl1 _]. rewrite rd_wr_eq by (rewrite ?Hl1; lia). by rewrite Hyt.
  - intros z Hz. rewrite Hv2. rewrite (istore_free g) by (done || lia). rewrite (istore_free g) by (done || lia).
    rewrite (fr_free _ _ _ _ Hfr) by done. rewrite <- (all_blocks_owns _ _ _ (io_len _ _ _ Hi)).
    rewrite orb_true_iff. by rewrite bool_decide_eq_true.
  - intros z Hz. pose proof (freed_dstart _ _ _ _ Hfr). rewrite Hother by lia. by apply (fr_data _ _ _ _ Hfr).
  - done.
Qed.
End iput.

(** C10. Dropping a reference.  iput of an inode that has other references,
    links, or no valid copy only lowers the count.  iput of the last
    reference to an inode without links frees it: the cache entry is empty,
    the inode on disk has type 0, exactly the blocks of the file go back to
    the bitmap, every other block of the disk keeps its contents, and the
    sleepers are woken. *)
Theorem iput_correct g st ic wk ip x t L :
  lst_rep g st t -> ic !! ip = Some x ->
  (((i_ref x =? 1) && has (i_flags x) I_VALID && (i_nlink x =? 0)) = false ->
    iput ip (mkFs st ic wk) = Ok tt (mkFs st (<[ip := set_ref (i_ref x - 1) x]> ic) wk)) /\
  (i_ref x = 1 -> i_flags x = I_VALID -> i_nlink x = 0 -> i_dev x = 1 ->
   0 <= i_inum x < sb_ninodes (sb_of (t_view t)) -> fs_ok g (t_view t) ->
   inode_ok g (t_view t) (i_addrs x) -> t_active t = true -> t_held t = ∅ ->
   (forall y, 0 <= y < g_lstart g -> bitmap_of (t_view t) y ∈ L) -> IBLOCK (i_inum x) ∈ L -> fits g t L 0 2 ->
   wp (iput ip) noerr (fun _ s => exists st' t' x',
     s = mkFs st' (<[ip := x']> ic) (ChInode ip :: wk) /\ lst_rep g st' t' /\
     i_ref x' = 0 /\ i_flags x' = 0 /\ i_type x' = 0 /\ i_size x' = 0 /\
     inode_freed g t (i_addrs x) (i_inum x) t') (mkFs st ic wk : fsysL)).
Proof.
  intros Hr Hx. assert (Hlt : (ip < length ic)%nat) by (by eapply lookup_lt_Some). split.
  - by apply iput_drop.
  - intros Href Hfl Hnl Hdev Hin Hf Hi Ha Hh Hbm HI Hfit. unfold iput. apply wp_bind. eapply wp_geti; [done|].
    rewrite Href, Hfl, Hnl. change ((1 =? 1) && has I_VALID I_VALID && (0 =? 0)) with true.
    change (has I_VALID I_BUSY) with false. cbv iota. apply wp_bind. unfold when. apply wp_bind.
    eapply wp_updi; [done|]. set (x1 := set_iflags _ x).
    assert (Hx1 : <[ip := x1]> ic !! ip = Some x1) by (by apply list_lookup_insert_eq).
    apply wp_bind. eapply wp_post; [eapply (itrunc_ok g st _ wk ip x1 t L); [done|done|done|done|done|done| |done]|].
    { split; [by apply freed_nil|done..]. }
    intros [] s (st1&t1&L1&->&Hr1&Hcm1&Hc1&HI1). rewrite list_insert_insert_eq.
    set (x2 := set_size 0 _). apply wp_bind. eapply wp_updi; [by apply list_lookup_insert_eq|].
    rewrite list_insert_insert_eq. set (x3 := set_type 0 x2).
    assert (Hx3 : <[ip := x3]> ic !! ip = Some x3) by (by apply list_lookup_insert_eq).
    pose proof (tc_freed _ _ _ _ _ Hc1) as Hfr. pose proof (fr_fs _ _ _ _ Hfr) as Hf1.
    destruct (IBLOCK_below g (t_view t1) (i_inum x) Hf1) as [Hib _]; [by rewrite (fr_sb _ _ _ _ Hfr)|].
    assert (Hpb : is_block (put_dinode (dip_off (i_inum x2)) x2 (t_view t1 (IBLOCK (i_inum x2))))).
    { apply block_put_dinode. apply (fo_sb_blocks _ _ Hf1). change (i_inum x2) with (i_inum x).
      pose proof (bitmap_range g (t_view t1) 0 Hf1). pose proof (fo_pos _ _ Hf1). pose proof (fo_data _ _ Hf1). lia. }
    apply wp_bind. eapply wp_post; [eapply (iupdate_ok g st1 _ wk ip x3 (t_iupdate x2 t1) L1 0 1)|].
    + exact Hr1.
    + done.
    + done.
    + rewrite t_iupdate_view. by apply istore_fs_ok.
    + rewrite t_iupdate_view, istore_sb by done. by rewrite (fr_sb _ _ _ _ Hfr).
    + apply Hc1.
    + apply Hc1.
    + apply fits_write; [done|apply Hc1].
    + intros [] s (st2&->&Hr2). apply wp_bind. eapply wp_updi; [done|]. rewrite list_insert_insert_eq.
      apply wp_modify. cbn [f_blk f_icache f_woken]. eapply wp_updi; [by apply list_lookup_insert_eq|]. rewrite list_insert_insert_eq.
      eexists st2, (t_iupdate x3 (t_iupdate x2 t1)), _. split_and!; [done|done|simpl; lia|done..|].
      by eapply (freed_inode g t t1 L1 x x3).
Qed.
