(* ===== verification/FsDemo.v ===== *)
(** A small file system on which the theorems of [FsThms], [FsInode] and
    [FsTrunc] are applied: 40 blocks, one block of inodes in use, block 4 the
    bitmap, blocks 5 to 29 for data, 30 to 39 the log. *)
From S2P Require Import Prelude Params Str Bio BioSpec Log LogSpec Trans Recover BlockIf Storage Fs FsBlocks FsFile FsSpec FsThms FsInode FsTrunc.

Definition fs_sb : list Z := wr 4 12 10 (wr 4 8 8 (wr 4 4 25 (wr 4 0 40 zero_block))).
Definition fs_bitmap : list Z := wr 1 0 0x1F zero_block.
(** Inode 1, an empty file that is open and locked. *)
Definition fs_inode : inode := mkInode 1 1 1 (fset I_VALID I_BUSY) T_FILE 0 0 1 0 (replicate 13 0).
Definition fs_img : list (list Z) :=
  [zero_block; fs_sb; put_dinode (dip_off 1) fs_inode zero_block; zero_block; fs_bitmap] ++ replicate 35 zero_block.
Definition fs_geo : geo := mkGeo 40 30 10.
Definition fs_state : lst := state_of ((bootlog;; begin_trans) (mkL (boot fs_img) log0)).
Definition fs_disk : tdisk := t_begin (t_idle (recovered (sb_start fs_img) fs_img)).

Lemma boot_wp img g f :
  image_ok img -> log_ok (sb_start img) (sb_logsize img) img ->
  g = mkGeo (Z.of_nat (length img)) (sb_start img) (sb_logsize img) ->
  f = recovered (sb_start img) img ->
  wp (bootlog;; begin_trans) noerr (fun _ st => lst_rep g st (t_begin (t_idle f))) (mkL (boot img) log0).
Proof.
  intros Hio Hok -> ->.
  apply wp_bind. eapply wp_post; [by apply initlog_spec|]. intros [] st (Hi&Hs&Hz&Hn&_).
  eapply wp_post; [by apply (tr_begin _ _ Hi)|]. intros [] st' (Hi'&Hb&Hl).
  unfold lst_rep. rewrite Hb, Hl. simpl. done.
Qed.
Lemma boot_begin img g f :
  image_ok img -> log_ok (sb_start img) (sb_logsize img) img ->
  g = mkGeo (Z.of_nat (length img)) (sb_start img) (sb_logsize img) ->
  f = recovered (sb_start img) img ->
  lst_rep g (state_of ((bootlog;; begin_trans) (mkL (boot img) log0))) (t_begin (t_idle f)).
Proof.
  intros. apply (wp_state_of (bootlog;; begin_trans) (fun s => lst_rep _ s (t_begin (t_idle _)))). by apply boot_wp.
Qed.
Lemma fs_rep : lst_rep fs_geo fs_state fs_disk.
Proof.
  apply boot_begin; [split|..].
  - apply blocks_vm. by vm_compute.
  - apply (bool_decide_unpack _). by vm_compute.
  - apply (bool_decide_unpack _). by vm_compute.
  - by vm_compute.
  - done.
Qed.

(** The checks of [fs_ok] as a program. *)
Definition fs_okb (g : geo) (v : Z -> list Z) : bool :=
  let sb := sb_of v in
  (0 <=? sb_ninodes sb) && (0 <? sb_size sb) && (g_lstart g <=? sb_size sb) && (dstart v <=? g_lstart g) &&
  (0 <=? g_lsize g) && (g_lstart g + g_lsize g <=? g_nsect g) && (g_nsect g <? 2 ^ 31) &&
  forallb (fun x => blockb (v x)) (seqZ 0 (g_lstart g)) &&
  forallb (fun x => negb (blk_free v x)) (seqZ 0 (Z.min (dstart v) (sb_size sb))).
Lemma fs_ok_vm g v : fs_okb g v = true -> fs_ok g v.
Proof.
  unfold fs_okb. rewrite !andb_true_iff, !forallb_forall.
  intros ((((((((?&?)&?)&?)&?)&?)&?)&Hb)&Hm).
  assert (Hin : forall n x, 0 <= x < n -> List.In x (seqZ 0 n)).
  { intros n x Hx. apply list_elem_of_In, elem_of_seqZ. lia. }
  split; try lia.
  - intros x Hx. apply block_vm, Hb, Hin. lia.
  - intros x Hx Hxs. specialize (Hm x (Hin (Z.min (dstart v) (sb_size (sb_of v))) x ltac:(lia))). by apply negb_true_iff in Hm.
Qed.
Lemma fs_disk_ok : fs_ok fs_geo (t_view fs_disk).
Proof. apply fs_ok_vm. by vm_compute. Qed.

(** The sectors an operation on inode 1 may log: bitmap and inode block. *)
Definition fs_L : list Z := [4; 2].
Lemma fs_fits n : (n <= 5)%nat -> fits fs_geo fs_disk fs_L n 2.
Proof.
  intros Hn. split_and!; [apply NoDup_nil_2|simpl; set_solver|vm_compute log_cap; simpl length; lia|].
  simpl t_held. rewrite map_size_empty. simpl length. unfold NBUF. lia.
Qed.
Lemma fs_bm y : 0 <= y < g_lstart fs_geo -> bitmap_of (t_view fs_disk) y ∈ fs_L.
Proof.
  intros Hy. simpl in Hy. unfold bitmap_of, BBLOCK, BPB, BSIZE. rewrite Z.div_small by lia.
  apply (bool_decide_unpack _). by vm_compute.
Qed.
Lemma fs_writable : writable fs_geo fs_disk [fs_inode] 0 fs_inode fs_L 0 3.
Proof.
  split; [done|done|done|apply (bool_decide_unpack _); by vm_compute..| | |].
  - intros p Hp. simpl in Hp. lia.
  - apply (bool_decide_unpack _). by vm_compute.
  - split; try done.
    + apply fs_disk_ok.
    + apply inode_ok_empty.
    + apply fs_bm.
    + apply fs_fits, Nat.leb_le. by vm_compute.
    + apply Nat.leb_le. by vm_compute.
Qed.

Lemma writei_correct_witness :
  on_disk (t_view fs_disk) fs_inode /\ wp (writei (fun _ => None) 0 [104; 105; 10] 0 3) noerr (fun r s => r = 3 /\ exists st' t' x',
    s = mkFs st' (<[O := x']> [fs_inode]) [] /\ lst_rep fs_geo st' t' /\
    after_write fs_geo fs_disk fs_inode [104; 105; 10] 0 3 t' x')
    (mkFs fs_state [fs_inode] []).
Proof.
  split; [by vm_compute|]. refine (writei_correct (fun _ => None) fs_geo fs_state [fs_inode] [] 0 fs_inode fs_disk fs_L
    [104; 105; 10] 0 3 fs_rep fs_writable _ _).
  - simpl. lia.
  - apply (bool_decide_unpack _). by vm_compute.
Defined.
Lemma writei_readi_witness :
  wp (writei (fun _ => None) 0 [104; 105; 10] 0 3;; readi (fun _ => None) 0 1 9) noerr (fun r _ =>
    r = (Z.min 9 (Z.max (i_size fs_inode) 3 - 1),
      map (overlay (fbyte (t_view fs_disk) (i_addrs fs_inode)) [104; 105; 10] 0 3)
        (seqZ 1 (Z.min 9 (Z.max (i_size fs_inode) 3 - 1)))))
    (mkFs fs_state [fs_inode] []).
Proof.
  refine (writei_readi (fun _ => None) fs_geo fs_state [fs_inode] [] 0 fs_inode fs_disk fs_L
    [104; 105; 10] 0 3 1 9 fs_rep fs_writable _ _ _ _ _).
  - simpl. lia.
  - apply (bool_decide_unpack _). by vm_compute.
  - simpl. lia.
  - lia.
  - lia.
Defined.

(** Two entries of a cache: inode 1 in use, a free one. *)
Definition fs_cache : list inode := [fs_inode; mkInode 0 0 0 0 0 0 0 0 0 []].
Lemma fs_cache_ok : ic_ok fs_cache.
Proof.
  split.
  - intros [|[|i]] [|[|j]] x y; simpl; intros [= <-] [= <-]; simpl; (done || lia).
  - intros [|[|i]] x; simpl; intros [= <-]; simpl; lia.
Qed.
Lemma iget_correct_witness :
  let s := mkFs fs_state fs_cache [] in
  wp (iget 1 2) (iget_fails s 1 2) (iget_returns s 1 2) s.
Proof. exact (iget_correct (mkFs fs_state fs_cache []) 1 2 fs_cache_ok). Defined.

Definition fs_unlocked : inode := set_iflags I_VALID fs_inode.
Lemma ilock_exclusive_witness :
  let s := mkFs fs_state [fs_unlocked] [] in
  wp (ilock 0) noerr (fun _ s1 =>
    ilock 0 s1 = Fail (Sleep (ChInode 0)) /\
    wp (iunlock 0) noerr (fun _ s2 => f_icache s2 = f_icache s /\ f_blk s2 = f_blk s /\
      f_woken s2 = ChInode 0 :: f_woken s /\ iunlock 0 s2 = Fail (Panic "iunlock")) s1) s.
Proof.
  refine (ilock_exclusive (mkFs fs_state [fs_unlocked] []) 0 fs_unlocked _ _ _); [done|simpl; lia|done].
Defined.

Lemma fs_inode_typed : inode_typed fs_inode.
Proof.
  split; simpl; unfold T_FILE; try lia.
  repeat (constructor; [lia|]). constructor.
Qed.
Lemma iupdate_ilock_witness :
  let y := mkInode 1 1 1 0 0 0 0 0 0 [] in
  wp (iupdate 0;; updi 0 (fun _ => y);; ilock 0) noerr (fun _ s => exists st' t',
    s = mkFs st' (<[O := set_iflags (fset I_VALID I_BUSY) (with_disk fs_inode y)]> [fs_inode]) [] /\
    lst_rep fs_geo st' t' /\
    forall inum z, 0 <= inum < sb_ninodes (sb_of (t_view fs_disk)) -> inum <> i_inum fs_inode ->
      get_dinode (dip_off inum) (t_view t' (IBLOCK inum)) z =
      get_dinode (dip_off inum) (t_view fs_disk (IBLOCK inum)) z)
    (mkFs fs_state [fs_inode] []).
Proof.
  refine (iupdate_ilock fs_geo fs_state [fs_inode] [] 0 fs_inode (mkInode 1 1 1 0 0 0 0 0 0 []) fs_disk fs_L
    fs_rep eq_refl fs_inode_typed eq_refl _ _ fs_disk_ok eq_refl eq_refl _ _ eq_refl eq_refl _ eq_refl).
  - done.
  - apply (bool_decide_unpack _). by vm_compute.
  - eapply fits_le; [apply (fs_fits 0)|..]; lia.
  - apply (bool_decide_unpack _). by vm_compute.
  - simpl. lia.
Defined.

(** Inode 1 without links, with one data block. *)
Definition fs_bitmap1 : list Z := wr 1 0 0x3F zero_block.
Definition fs_img1 : list (list Z) :=
  [zero_block; fs_sb; zero_block; zero_block; fs_bitmap1] ++ replicate 35 zero_block.
Definition fs_state1 : lst := state_of ((bootlog;; begin_trans) (mkL (boot fs_img1) log0)).
Definition fs_disk1 : tdisk := t_begin (t_idle (recovered (sb_start fs_img1) fs_img1)).
Definition fs_orphan : inode := mkInode 1 1 1 I_VALID T_FILE 0 0 0 7 (5 :: replicate 12 0).
Lemma fs_rep1 : lst_rep fs_geo fs_state1 fs_disk1.
Proof.
  apply boot_begin; [split|..].
  - apply blocks_vm. by vm_compute.
  - apply (bool_decide_unpack _). by vm_compute.
  - apply (bool_decide_unpack _). by vm_compute.
  - by vm_compute.
  - done.
Qed.
Lemma fs_disk1_ok : fs_ok fs_geo (t_view fs_disk1).
Proof. apply fs_ok_vm. by vm_compute. Qed.
Lemma orphan_blk v bn : 0 <= bn < MAXFILE -> blkno v (i_addrs fs_orphan) bn = if decide (bn = 0) then 5 else 0.
Proof.
  intros Hbn. unfold blkno. change (ind_of (i_addrs fs_orphan)) with 0. simpl (0 =? 0).
  unfold NDIRECT. destruct (Z.ltb_spec bn 12) as [Hlt|Hge]; [|by rewrite decide_False by lia].
  assert (Hall : Forall (fun k => i_addrs fs_orphan !!! Z.to_nat k = if decide (k = 0) then 5 else 0) (seqZ 0 12))
    by (apply (bool_decide_unpack _); by vm_compute).
  rewrite Forall_forall in Hall. apply Hall, elem_of_seqZ. lia.
Qed.
Lemma orphan_owns v y : owns v (i_addrs fs_orphan) y -> y = 5.
Proof.
  intros [Hne [(bn&Hbn&Heq)|Heq]]; [|by destruct Hne]. rewrite orphan_blk in Heq by done. case_decide; congruence.
Qed.
Lemma fs_orphan_ok : inode_ok fs_geo (t_view fs_disk1) (i_addrs fs_orphan).
Proof.
  split; [done|..].
  - intros y ->%orphan_owns. apply (bool_decide_unpack _). by vm_compute.
  - intros y ->%orphan_owns. by vm_compute.
  - intros b b' Hb Hb'. rewrite !orphan_blk by done. repeat case_decide; (done || congruence).
  - intros b Hb. rewrite orphan_blk by done. change (ind_of (i_addrs fs_orphan)) with 0. done.
Qed.
Lemma fs_fits1 n : (n <= 5)%nat -> fits fs_geo fs_disk1 fs_L n 2.
Proof. exact (fs_fits n). Qed.

Lemma iput_correct_witness :
  wp (iput 0) noerr (fun _ s => exists st' t' x',
     s = mkFs st' (<[O := x']> [fs_orphan]) [ChInode 0] /\ lst_rep fs_geo st' t' /\
     i_ref x' = 0 /\ i_flags x' = 0 /\ i_type x' = 0 /\ i_size x' = 0 /\
     inode_freed fs_geo fs_disk1 (i_addrs fs_orphan) (i_inum fs_orphan) t') (mkFs fs_state1 [fs_orphan] []).
Proof.
  refine (proj2 (iput_correct fs_geo fs_state1 [fs_orphan] [] 0 fs_orphan fs_disk1 fs_L fs_rep1 eq_refl)
    eq_refl eq_refl eq_refl eq_refl _ fs_disk1_ok fs_orphan_ok eq_refl eq_refl fs_bm _ (fs_fits1 0 _)).
  - apply (bool_decide_unpack _). by vm_compute.
  - apply (bool_decide_unpack _). by vm_compute.
  - lia.
Defined.
