(* ===== verification/FsDir.v ===== *)
(** Directories and path names of fs.c. *)
From S2P Require Import Prelude Params Str Bio BioSpec Log LogSpec Trans Recover BlockIf Storage Fs FsBlocks FsFile FsSpec FsThms FsInode FsTrunc FsDemo.

(** ** Directories as sequences of entries *)

(** Entry [k] of a directory with contents [f]. *)
Definition dent (f : Z -> Z) (k : Z) : dirent := dec_dirent (map f (seqZ (DIRENT_SZ * k) DIRENT_SZ)).
(** File names are compared up to DIRSIZ characters. *)
Definition same_name (s t : list Z) : Prop := take DIRSIZ (cstr s) = take DIRSIZ (cstr t).
#[export] Instance same_name_dec s t : Decision (same_name s t).
Proof. unfold same_name. apply _. Defined.
Definition matches (f : Z -> Z) (name : list Z) (k : Z) : Prop :=
  de_inum (dent f k) <> 0 /\ same_name name (de_name (dent f k)).
#[export] Instance matches_dec f name k : Decision (matches f name k).
Proof. unfold matches. apply _. Defined.

(** A directory that can be searched. *)
Record dir_ok (g : geo) (t : tdisk) (ic : list inode) (dp : nat) (x : inode) (L : list Z) : Prop := {
  dk_ip : ic !! dp = Some x;
  dk_dev : i_dev x = 1;
  dk_type : i_type x = T_DIR;
  dk_fs : fs_ok g (t_view t);
  dk_ino : inode_ok g (t_view t) (i_addrs x);
  dk_size : 0 <= i_size x <= MAXFILE * BSIZE /\ i_size x mod DIRENT_SZ = 0;
  dk_full : no_holes (t_view t) x;
  dk_held : t_held t = ∅;
  dk_fits : fits g t L 0 1 }.
Definition dir_bytes (t : tdisk) (x : inode) : Z -> Z := fbyte (t_view t) (i_addrs x).
Definition nents (x : inode) : Z := i_size x / DIRENT_SZ.

(** A directory as a map: the index of the entry a name stands for, and the
    slot a new entry goes to. *)
Definition dir_find (f : Z -> Z) (n : Z) (name : list Z) : option Z :=
  List.find (fun k => bool_decide (matches f name k)) (seqZ 0 n).
Definition dir_slot (f : Z -> Z) (n : Z) : Z :=
  default n (List.find (fun k => bool_decide (de_inum (dent f k) = 0)) (seqZ 0 n)).

Section find.
Implicit Types (P : Z -> Prop) (n k : Z).
Lemma find_app {A} (p : A -> bool) (l l' : list A) :
  List.find p (l ++ l') = match List.find p l with Some a => Some a | None => List.find p l' end.
Proof. induction l as [|a l IH]; simpl; [done|]. by destruct (p a). Qed.
(** The first index below [n] with property [P]. *)
Lemma find_seqZ P `{forall k, Decision (P k)} n :
  match List.find (fun k => bool_decide (P k)) (seqZ 0 n) with
  | Some k => 0 <= k < n /\ P k /\ forall j, 0 <= j < k -> ~ P j
  | None => forall j, 0 <= j < n -> ~ P j
  end.
Proof.
  destruct (decide (0 <= n)) as [Hn|Hn]; [|rewrite seqZ_nil by lia; simpl; lia].
  rewrite <- (Z2Nat.id n) by done. clear Hn. induction (Z.to_nat n) as [|m IH].
  { simpl. lia. }
  rewrite seqZ_S, find_app, Z.add_0_l.
  destruct (List.find _ (seqZ 0 (Z.of_nat m))) as [k|].
  - destruct IH as (Hk&HP&Hno). split_and!; (done || lia).
  - simpl. case_bool_decide.
    + split_and!; [lia..|done|done].
    + intros j Hj. destruct (decide (j = Z.of_nat m)) as [->|]; [done|]. apply IH. lia.
Qed.
Lemma find_first P `{forall k, Decision (P k)} n k :
  0 <= k < n -> P k -> (forall j, 0 <= j < k -> ~ P j) ->
  List.find (fun k => bool_decide (P k)) (seqZ 0 n) = Some k.
Proof.
  intros Hk HP Hno. pose proof (find_seqZ P n) as Hs. destruct (List.find _ _) as [j|].
  - destruct Hs as (Hj&HPj&Hnj). f_equal. destruct (Z.lt_trichotomy j k) as [?|[?|?]]; [|done|].
    + by destruct (Hno j ltac:(lia)).
    + by destruct (Hnj k ltac:(lia)).
  - by destruct (Hs k ltac:(lia)).
Qed.
Lemma find_none P `{forall k, Decision (P k)} n :
  (forall j, 0 <= j < n -> ~ P j) -> List.find (fun k => bool_decide (P k)) (seqZ 0 n) = None.
Proof.
  intros Hno. pose proof (find_seqZ P n) as Hs. destruct (List.find _ _) as [j|]; [|done].
  destruct Hs as (Hj&HPj&_). by destruct (Hno j ltac:(lia)).
Qed.
End find.

Section dirs.
Context {S : Type} `{BlockLayer S}.
Implicit Types (g : geo) (b : S) (ic : list inode) (wk : list chan) (t : tdisk) (L : list Z) (dp : nat) (x : inode).
Variable devsw : Z -> option (@devops S).

Lemma DIRENT_eq : DIRENT_SZ = 16. Proof. done. Qed.
Lemma namecmp_zero (s u : list Z) : (namecmp s u =? 0) = bool_decide (same_name s u).
Proof.
  unfold namecmp, same_name. destruct (Z.eqb_spec (strncmp s u DIRSIZ) 0) as [H0|H0].
  - rewrite bool_decide_true; [done|]. by apply strncmp_zero.
  - rewrite bool_decide_false; [done|]. intros Heq. by apply H0, strncmp_zero.
Qed.

(** Reading entry [k]. *)
Lemma read_dent g b ic wk dp x t L (k : Z) E :
  bl_rep g b t -> dir_ok g t ic dp x L -> 0 <= k < nents x ->
  wp (readi devsw dp (DIRENT_SZ * k) DIRENT_SZ) E (fun r s =>
    r = (DIRENT_SZ, map (dir_bytes t x) (seqZ (DIRENT_SZ * k) DIRENT_SZ)) /\
    exists b', s = mkFs b' ic wk /\ bl_rep g b' t) (mkFs b ic wk).
Proof.
  intros Hr Hd Hk. pose proof (dk_size _ _ _ _ _ _ Hd) as [Hsz Hmod]. unfold nents in Hk. rewrite DIRENT_eq in *.
  pose proof (Z.div_mod (i_size x) 16).
  assert (Hlen : readi_len x (16 * k) 16 = 16) by (unfold readi_len; lia).
  eapply wp_post; [eapply (readi_ok devsw g b ic wk dp x t L 0 (16 * k) 16);
    [done|apply Hd|apply Hd| |apply Hd|apply Hd|apply Hd|apply Hd|lia|apply Hsz|lia| |]|].
  - by rewrite (dk_type _ _ _ _ _ _ Hd).
  - rewrite MAXFILE_eq in Hsz. unfold BSIZE in Hsz. lia.
  - rewrite Hlen. intros p Hp. apply (dk_full _ _ _ _ _ _ Hd). lia.
  - rewrite Hlen. done.
Qed.

Lemma nents_bound x off k : off = DIRENT_SZ * k -> i_size x mod DIRENT_SZ = 0 -> 0 <= k ->
  off < i_size x <-> k < nents x.
Proof.
  rewrite DIRENT_eq. intros -> Hm Hk. unfold nents. rewrite DIRENT_eq. pose proof (Z.div_mod (i_size x) 16). lia.
Qed.

(** dirlookup: the first matching entry, or none. *)
Lemma dirlookup_ok g b ic wk dp x t L name E (Q : option (nat * Z) -> fsys -> Prop) :
  bl_rep g b t -> dir_ok g t ic dp x L ->
  (forall k b', 0 <= k < nents x -> matches (dir_bytes t x) name k ->
    (forall j, 0 <= j < k -> ~ matches (dir_bytes t x) name j) -> bl_rep g b' t ->
    wp (iget 1 (de_inum (dent (dir_bytes t x) k))) E (fun ip s => Q (Some (ip, DIRENT_SZ * k)) s) (mkFs b' ic wk)) ->
  ((forall j, 0 <= j < nents x -> ~ matches (dir_bytes t x) name j) ->
    forall b', bl_rep g b' t -> Q None (mkFs b' ic wk)) ->
  wp (dirlookup devsw dp name) E Q (mkFs b ic wk).
Proof.
  intros Hr Hd Hfound Hnone. pose proof (dk_size _ _ _ _ _ _ Hd) as [Hsz Hmod].
  unfold dirlookup. apply wp_bind. eapply wp_geti; [apply Hd|].
  rewrite (dk_type _ _ _ _ _ _ Hd). change (negb (T_DIR =? T_DIR)) with false. cbv iota.
  apply (wp_while (fun off s => exists k, off = DIRENT_SZ * k /\ 0 <= k <= nents x /\
      (forall j, 0 <= j < k -> ~ matches (dir_bytes t x) name j) /\ exists b', s = mkFs b' ic wk /\ bl_rep g b' t)
    (fun off => Z.to_nat (nents x - off / DIRENT_SZ))).
  - exists 0. split_and!; [done|lia|unfold nents; apply Z.div_pos; [lia|done]|lia|eauto].
  - change (0 / DIRENT_SZ) with 0. unfold nents. lia.
  - intros off s (k&->&Hk&Hno&b1&->&Hr1). apply wp_bind. eapply wp_geti; [apply Hd|].
    rewrite (Z.mul_comm DIRENT_SZ), Z.div_mul, (Z.mul_comm k) by done.
    destruct (Z.ltb_spec (DIRENT_SZ * k) (i_size x)) as [Hlt|Hge]; cbn [negb].
    + apply (nents_bound x _ k eq_refl Hmod) in Hlt; [|lia].
      assert (Hnext : forall b', bl_rep g b' t -> ~ matches (dir_bytes t x) name k ->
        (exists k', DIRENT_SZ * k + DIRENT_SZ = DIRENT_SZ * k' /\ 0 <= k' <= nents x /\
          (forall j, 0 <= j < k' -> ~ matches (dir_bytes t x) name j) /\
          exists b'', mkFs b' ic wk = mkFs b'' ic wk /\ bl_rep g b'' t) /\
        (Z.to_nat (nents x - (DIRENT_SZ * k + DIRENT_SZ) / DIRENT_SZ) < Z.to_nat (nents x - k))%nat).
      { intros b' Hr' Hnm. split.
        - exists (k + 1). split_and!; [lia..| |eauto]. intros j Hj.
          destruct (decide (j = k)) as [->|]; [done|]. apply Hno. lia.
        - replace (DIRENT_SZ * k + DIRENT_SZ) with ((k + 1) * DIRENT_SZ) by lia. rewrite Z.div_mul by done. lia. }
      apply wp_bind. eapply wp_post; [eapply (read_dent g b1 ic wk dp x t L k); [done..|lia]|].
      intros rb s (->&b2&->&Hr2). cbv beta iota. rewrite Z.eqb_refl. cbn [negb]. cbv zeta.
      fold (dent (dir_bytes t x) k).
      destruct (Z.eqb_spec (de_inum (dent (dir_bytes t x) k)) 0) as [H0|H0].
      * apply wp_ret. refine (Hnext _ Hr2 _). by intros [? _].
      * rewrite namecmp_zero. case_bool_decide as Hnm.
        -- rewrite (dk_dev _ _ _ _ _ _ Hd). apply wp_bind. eapply wp_post; [apply (Hfound k b2); [lia|by split|done..]|].
           intros ip s HQ. by apply wp_ret.
        -- apply wp_ret. refine (Hnext _ Hr2 _). by intros [_ ?].
    + apply wp_ret. apply Hnone; [|done]. intros j Hj. apply Hno.
      destruct (decide (k < nents x)) as [Hkn|]; [|lia].
      apply (nents_bound x (DIRENT_SZ * k) k eq_refl Hmod) in Hkn; lia.
Qed.
End dirs.

(** ** Looking up *)
Section lookup.
Implicit Types (g : geo) (st : lst) (ic : list inode) (wk : list chan) (t : tdisk) (L : list Z) (dp : nat) (x : inode).

Lemma dirlookup_find devsw g st ic wk dp x t L name :
  lst_rep g st t -> dir_ok g t ic dp x L -> ic_ok ic ->
  match dir_find (dir_bytes t x) (nents x) name with
  | None => wp (dirlookup devsw dp name) noerr (fun r s => r = None /\
      exists st', s = mkFs st' ic wk /\ lst_rep g st' t) (mkFs st ic wk : fsysL)
  | Some k => let inum := de_inum (dent (dir_bytes t x) k) in
      wp (dirlookup devsw dp name) (fun e => exists st' : lst, iget_fails (mkFs st' ic wk) 1 inum e)
        (fun r s => exists ip st', r = Some (ip, DIRENT_SZ * k) /\ lst_rep g st' t /\
          iget_returns (mkFs st' ic wk) 1 inum ip s) (mkFs st ic wk : fsysL)
  end.
Proof.
  intros Hr Hd Hic. unfold dir_find.
  pose proof (find_seqZ (matches (dir_bytes t x) name) (nents x)) as Hs. destruct (List.find _ _) as [k|]; [cbv zeta|].
  - destruct Hs as (Hk&Hm&Hno). eapply (dirlookup_ok devsw g st ic wk dp x t L); [done..| |].
    + intros k' st' Hk' Hm' Hno' Hr'.
      assert (k' = k) as ->.
      { destruct (Z.lt_trichotomy k' k) as [?|[?|?]]; [by destruct (Hno k' ltac:(lia))|done|by destruct (Hno' k ltac:(lia))]. }
      eapply wp_mono; [by apply (iget_ok (mkFs st' ic wk))|eauto|]. intros ip s Hs. eauto.
    + intros Hno'. by destruct (Hno' k ltac:(lia)).
  - eapply (dirlookup_ok devsw g st ic wk dp x t L); [done..| |].
    + intros k st' Hk Hm. by destruct (Hs k ltac:(lia)).
    + eauto.
Qed.
End lookup.

(** ** Adding an entry *)
Section entries.
Implicit Types (f : Z -> Z) (k n inum : Z) (name : list Z).

Lemma dec_enc_dirent inum name : 0 <= inum < 2 ^ 16 -> length name = DIRSIZ ->
  dec_dirent (enc_dirent (mkDe inum name)) = mkDe inum name.
Proof.
  intros Hi Hl. unfold dec_dirent, enc_dirent, rd, slice. cbn [de_inum de_name].
  rewrite drop_0, take_app_length' by (by rewrite length_le_enc). rewrite le_dec_enc.
  change (256 ^ Z.of_nat 2) with (2 ^ 16). rewrite Z.mod_small by done. f_equal.
  rewrite drop_app_length' by (by rewrite length_le_enc). apply take_ge. lia.
Qed.
Lemma dent_ext f f' k : (forall p, DIRENT_SZ * k <= p < DIRENT_SZ * k + DIRENT_SZ -> f p = f' p) -> dent f k = dent f' k.
Proof.
  intros Hp. unfold dent. f_equal. apply map_ext_in. intros p Hin%list_elem_of_In%elem_of_seqZ. apply Hp. lia.
Qed.
Lemma dent_overlay f src k j : Z.of_nat (length src) = DIRENT_SZ ->
  dent (overlay f src (DIRENT_SZ * k) DIRENT_SZ) j = if decide (j = k) then dec_dirent src else dent f j.
Proof.
  intros Hl. case_decide as Hjk.
  - subst j. unfold dent. f_equal. apply list_eq_same_length with (length src); [done| |].
    { rewrite length_map, length_seqZ. lia. }
    intros i a b Hi. rewrite list_lookup_fmap. rewrite lookup_seqZ_lt by lia. simpl.
    unfold overlay. rewrite decide_True by lia. intros [= <-] Hb.
    apply list_lookup_total_correct in Hb. rewrite <- Hb. f_equal. lia.
  - apply dent_ext. intros p Hp. unfold overlay. rewrite decide_False; [done|]. rewrite DIRENT_eq in *. lia.
Qed.

Lemma same_name_copy nm name : same_name nm (strncpy_bytes name DIRSIZ) <-> same_name nm name.
Proof.
  unfold same_name. rewrite strncpy_bytes_spec.
  assert (Hc : cstr (take DIRSIZ (cstr name) ++ replicate (DIRSIZ - length (cstr name)) 0) = take DIRSIZ (cstr name)).
  { destruct (DIRSIZ - length (cstr name))%nat; cbn [replicate].
    - rewrite app_nil_r. apply cstr_id, Forall_take, cstr_nonzero.
    - apply cstr_app_zero, Forall_take, cstr_nonzero. }
  by rewrite Hc, take_take, Nat.min_id.
Qed.

Lemma dir_slot_spec f n : 0 <= n ->
  0 <= dir_slot f n <= n /\ (forall j, 0 <= j < dir_slot f n -> de_inum (dent f j) <> 0) /\
  (dir_slot f n < n -> de_inum (dent f (dir_slot f n)) = 0).
Proof.
  intros Hn. unfold dir_slot. pose proof (find_seqZ (fun k => de_inum (dent f k) = 0) n) as Hs.
  destruct (List.find _ _) as [k|]; simpl; [|split_and!; (done || lia)].
  destruct Hs as (Hk&H0&Hno). split_and!; (done || lia).
Qed.

(** As a map, the directory gains the one binding. *)
Lemma dir_find_add f f' n name inum nm :
  let k := dir_slot f n in
  0 <= n -> inum <> 0 -> dir_find f n name = None ->
  (forall j, 0 <= j < Z.max n (k + 1) ->
    dent f' j = if decide (j = k) then mkDe inum (strncpy_bytes name DIRSIZ) else dent f j) ->
  dir_find f' (Z.max n (k + 1)) nm = if decide (same_name nm name) then Some k else dir_find f n nm.
Proof.
  intros k Hn Hi Hnone Hd. destruct (dir_slot_spec f n Hn) as (Hk&Hused&Hfree). fold k in Hk, Hused, Hfree.
  unfold dir_find in *. pose proof (find_seqZ (matches f name) n) as Hno. rewrite Hnone in Hno.
  assert (Hm : forall j, 0 <= j < Z.max n (k + 1) ->
    matches f' nm j <-> if decide (j = k) then same_name nm name else matches f nm j).
  { intros j Hj. unfold matches. rewrite Hd by done. case_decide; [|done]. cbn [de_inum de_name].
    rewrite same_name_copy. naive_solver. }
  case_decide as Hsn.
  - apply find_first; [lia| |].
    + apply Hm; [lia|]. by rewrite decide_True.
    + intros j Hj Hmj. apply Hm in Hmj; [|lia]. rewrite decide_False in Hmj by lia.
      apply (Hno j ltac:(lia)). destruct Hmj as [H1 H2]. split; [done|]. unfold same_name in *. congruence.
  - pose proof (find_seqZ (matches f nm) n) as Hs. destruct (List.find _ (seqZ 0 n)) as [i|] eqn:Hfind in Hs |- *.
    + destruct Hs as (Hin&Hmi&Hfirst).
      assert (Hik : i <> k) by (intros ->; destruct Hmi as [Hmi _]; apply Hmi, Hfree; lia).
      apply find_first; [lia| |].
      * apply Hm; [lia|]. by rewrite decide_False.
      * intros j Hj Hmj. apply Hm in Hmj; [|lia]. case_decide; [done|]. by apply (Hfirst j).
    + apply find_none. intros j Hj Hmj. apply Hm in Hmj; [|done]. case_decide; [done|].
      apply (Hs j); [lia|done].
Qed.
End entries.

Section link.
Implicit Types (g : geo) (st : lst) (ic : list inode) (wk : list chan) (t : tdisk) (L : list Z) (dp : nat) (x : inode).

(** The loop of dirlink that looks for an empty entry. *)
Lemma empty_slot devsw g st ic wk dp x t L E (Q : Z -> fsysL -> Prop) :
  let f := dir_bytes t x in
  lst_rep g st t -> dir_ok g t ic dp x L ->
  (forall st', lst_rep g st' t -> Q (DIRENT_SZ * dir_slot f (nents x)) (mkFs st' ic wk)) ->
  wp (while (Datatypes.S (Z.to_nat (i_size x / DIRENT_SZ + 1))) (fun off =>
        if negb (off <? i_size x) then ret (inr off) else
        let! (r, b) := readi devsw dp off DIRENT_SZ in
        if negb (r =? DIRENT_SZ) then panic "dirlink read" else
        if de_inum (dec_dirent b) =? 0 then ret (inr off) else
        ret (inl (off + DIRENT_SZ))) 0) E Q (mkFs st ic wk).
Proof.
  intros f Hr Hd HQ. pose proof (dk_size _ _ _ _ _ _ Hd) as [Hsz Hmod].
  assert (Hn0 : 0 <= nents x) by (unfold nents; apply Z.div_pos; [lia|done]).
  destruct (dir_slot_spec f (nents x) Hn0) as (Hk&Hused&Hfree). set (k0 := dir_slot f (nents x)) in *.
  apply (wp_while (fun off s => exists k, off = DIRENT_SZ * k /\ 0 <= k <= k0 /\ exists st', s = mkFs st' ic wk /\ lst_rep g st' t)
    (fun off => Z.to_nat (nents x - off / DIRENT_SZ))).
  - exists 0. split_and!; [done|lia..|eauto].
  - change (0 / DIRENT_SZ) with 0. unfold nents. lia.
  - intros off s (k&->&Hk'&st1&->&Hr1).
    rewrite (Z.mul_comm DIRENT_SZ), Z.div_mul, (Z.mul_comm k) by done.
    destruct (Z.ltb_spec (DIRENT_SZ * k) (i_size x)) as [Hlt|Hge]; cbn [negb].
    + apply (nents_bound x _ k eq_refl Hmod) in Hlt; [|lia].
      apply wp_bind. eapply wp_post; [eapply (read_dent devsw g st1 ic wk dp x t L k); [done..|lia]|].
      intros rb s (->&st2&->&Hr2). cbv beta iota. rewrite Z.eqb_refl. cbn [negb]. fold (dent (dir_bytes t x) k). fold f.
      destruct (Z.eqb_spec (de_inum (dent f k)) 0) as [H0|H0].
      * apply wp_ret. assert (k = k0) as -> by (destruct (decide (k < k0)); [by destruct (Hused k ltac:(lia))|lia]). exact (HQ _ Hr2).
      * apply wp_ret. split.
        -- exists (k + 1). split_and!; [lia..| |eauto].
           destruct (decide (k = k0)) as [->|]; [|lia]. by destruct H0; apply Hfree.
        -- replace (DIRENT_SZ * k + DIRENT_SZ) with ((k + 1) * DIRENT_SZ) by lia. rewrite Z.div_mul by done. lia.
    + apply wp_ret. assert (k = k0) as ->; [|exact (HQ _ Hr1)].
      destruct (decide (k < nents x)) as [Hkn|]; [|lia].
      apply (nents_bound x (DIRENT_SZ * k) k eq_refl Hmod) in Hkn; lia.
Qed.

Definition new_entry (name : list Z) (inum : Z) : list Z :=
  enc_dirent (mkDe (u16 inum) (strncpy_bytes name DIRSIZ)).
Lemma length_new_entry name inum : Z.of_nat (length (new_entry name inum)) = DIRENT_SZ.
Proof. unfold new_entry, enc_dirent. rewrite length_app, length_le_enc. cbn [de_name]. by rewrite length_strncpy_bytes. Qed.
Lemma bytes_new_entry name inum : bytes name -> bytes (new_entry name inum).
Proof.
  intros Hb. unfold new_entry, enc_dirent, bytes. cbn [de_name de_inum]. apply Forall_app_2; [apply bytes_le_enc|].
  rewrite strncpy_bytes_spec. apply Forall_app_2; [|apply Forall_replicate; unfold is_byte; lia]. apply Forall_take.
  clear inum. induction Hb as [|c l Hc Hb IH]; simpl; [done|]. destruct (c =? 0); [done|]. by constructor.
Qed.

(** The directory after a successful dirlink. *)
Lemma linked g t ic dp x L name inum t' x' L' :
  let k := dir_slot (dir_bytes t x) (nents x) in
  dir_ok g t ic dp x L -> 0 < inum < 2 ^ 16 -> DIRENT_SZ * k + DIRENT_SZ <= MAXFILE * BSIZE ->
  after_write g t x (new_entry name inum) (DIRENT_SZ * k) DIRENT_SZ t' x' -> fits g t' L' 0 2 ->
  dir_ok g t' (<[dp := x']> ic) dp x' L' /\ nents x' = Z.max (nents x) (k + 1) /\
  (forall j, 0 <= j < nents x' -> dent (dir_bytes t' x') j =
    if decide (j = k) then mkDe inum (strncpy_bytes name DIRSIZ) else dent (dir_bytes t x) j).
Proof.
  intros k Hd Hin Hend Ha Hfit. destruct (aw_addrs _ _ _ _ _ _ _ _ Ha) as [A' Hx'].
  pose proof (dk_size _ _ _ _ _ _ Hd) as [Hsz Hmod].
  assert (Hn0 : 0 <= nents x) by (unfold nents; apply Z.div_pos; [lia|done]).
  destruct (dir_slot_spec (dir_bytes t x) (nents x) Hn0) as (Hk&_&_). fold k in Hk.
  assert (Hs' : i_size x' = Z.max (i_size x) (DIRENT_SZ * k + DIRENT_SZ)) by (by rewrite Hx').
  assert (Hne : nents x' = Z.max (nents x) (k + 1) /\ i_size x' mod DIRENT_SZ = 0).
  { unfold nents in *. rewrite Hs'. rewrite DIRENT_eq in *. pose proof (Z.div_mod (i_size x) 16 ltac:(lia)) as Hdm.
    rewrite Hmod in Hdm. set (q := i_size x / 16) in *. rewrite Hdm.
    replace (Z.max (16 * q + 0) (16 * k + 16)) with (Z.max q (k + 1) * 16) by lia.
    by rewrite Z.div_mul, Z.mod_mul by lia. }
  split_and!.
  - split.
    + apply list_lookup_insert_eq. eapply lookup_lt_Some, Hd.
    + rewrite Hx'. apply Hd.
    + rewrite Hx'. apply Hd.
    + apply Ha.
    + apply Ha.
    + split; [lia|apply Hne].
    + apply Ha.
    + apply Ha.
    + eapply fits_le; [exact Hfit|lia..].
  - apply Hne.
  - intros j Hj. unfold dir_bytes.
    rewrite (dent_ext _ (overlay (fbyte (t_view t) (i_addrs x)) (new_entry name inum) (DIRENT_SZ * k) DIRENT_SZ)).
    + rewrite dent_overlay by apply length_new_entry. case_decide; [|done]. unfold new_entry.
      rewrite u16_small by lia. apply dec_enc_dirent; [lia|apply length_strncpy_bytes].
    + intros p Hp. apply (aw_bytes _ _ _ _ _ _ _ _ Ha). destruct Hne as [Hne _]. rewrite Hne in Hj.
      unfold nents in Hj. rewrite DIRENT_eq in *. pose proof (Z.div_mod (i_size x) 16). lia.
Qed.
End link.

(** ** Theorems *)

(** dirlookup searches the whole directory: it returns the inode (by iget)
    and the offset of the first entry in use whose name equals [name] up to
    DIRSIZ characters, and none exactly when the directory has no such entry;
    the disk is not changed, and the only error is that of iget. *)
Theorem dirlookup_correct devsw g st ic wk dp x t L name :
  lst_rep g st t -> dir_ok g t ic dp x L -> ic_ok ic ->
  match dir_find (dir_bytes t x) (nents x) name with
  | None => wp (dirlookup devsw dp name) noerr (fun r s => r = None /\
      exists st', s = mkFs st' ic wk /\ lst_rep g st' t) (mkFs st ic wk : fsysL)
  | Some k => let inum := de_inum (dent (dir_bytes t x) k) in
      wp (dirlookup devsw dp name) (fun e => exists st' : lst, iget_fails (mkFs st' ic wk) 1 inum e)
        (fun r s => exists ip st', r = Some (ip, DIRENT_SZ * k) /\ lst_rep g st' t /\
          iget_returns (mkFs st' ic wk) 1 inum ip s) (mkFs st ic wk : fsysL)
  end.
Proof. apply dirlookup_find. Qed.

(** C40. dirlink of a name that is not in the directory, with room for the entry in
    the file and the transaction, adds a binding to it and nothing else: the first
    empty entry, or a new one at the end, becomes the name and the inode
    number; afterwards the name is found there, every other name is bound as
    it was, the directory is still searchable, its inode is on the disk with
    the new size, and the other inodes and the blocks of other files are as
    before. *)
Theorem dirlink_correct devsw g st ic wk dp x t L name inum :
  let f := dir_bytes t x in let k := dir_slot f (nents x) in
  lst_rep g st t -> dir_ok g t ic dp x L -> ic_ok ic ->
  dir_find f (nents x) name = None -> 0 < inum < 2 ^ 16 -> bytes name ->
  writable g t ic dp x L (DIRENT_SZ * k) DIRENT_SZ ->
  wp (dirlink devsw dp name inum) noerr (fun r s => r = 0 /\ exists st' t' x' L',
    s = mkFs st' (<[dp := x']> ic) wk /\ lst_rep g st' t' /\ dir_ok g t' (<[dp := x']> ic) dp x' L' /\
    after_write g t x (new_entry name inum) (DIRENT_SZ * k) DIRENT_SZ t' x' /\
    (forall nm, dir_find (dir_bytes t' x') (nents x') nm =
      if decide (same_name nm name) then Some k else dir_find f (nents x) nm) /\
    de_inum (dent (dir_bytes t' x') k) = inum) (mkFs st ic wk : fsysL).
Proof.
  intros f k Hr Hd Hic Hnone Hin Hb Hw. unfold dirlink. apply wp_bind.
  pose proof (dirlookup_find devsw g st ic wk dp x t L name Hr Hd Hic) as Hlk. fold f in Hlk. rewrite Hnone in Hlk.
  eapply wp_post; [exact Hlk|]. intros r s (->&st1&->&Hr1). cbv beta iota.
  apply wp_bind. eapply wp_geti; [apply Hd|]. apply wp_bind. eapply (empty_slot devsw g st1 ic wk dp x t L); [done..|].
  intros st2 Hr2. fold f k. cbv zeta. fold (new_entry name inum).
  pose proof (dk_size _ _ _ _ _ _ Hd) as [Hsz _].
  assert (Hn0 : 0 <= nents x) by (unfold nents; apply Z.div_pos; [lia|done]).
  destruct (dir_slot_spec f (nents x) Hn0) as (Hk&_&_). fold k in Hk.
  pose proof (wr_end _ _ _ _ _ _ _ _ Hw) as Hend.
  apply wp_bind. eapply wp_post; [eapply (writei_after devsw g st2 ic wk dp x t L); [done|done|by rewrite length_new_entry|by apply bytes_new_entry]|].
  intros r s (->&st3&t'&x'&L'&->&Hr3&Ha&Hfit). rewrite Z.eqb_refl. cbn [negb]. apply wp_ret. split; [done|].
  destruct (linked g t ic dp x L name inum t' x' L' Hd Hin Hend Ha Hfit) as (Hd'&Hne&Hent). fold f k in Hne, Hent.
  exists st3, t', x', L'. split_and!; [done..| |].
  - intros nm. rewrite Hne. apply (dir_find_add f _ _ name inum); [done|lia|done|]. intros j Hj. apply Hent. rewrite Hne. exact Hj.
  - rewrite Hent by lia. by rewrite decide_True.
Qed.

(** dirlink of a name that exists returns -1 and leaves the disk as it was;
    the reference dirlookup took is given back. *)
Theorem dirlink_exists devsw g st ic wk dp x t L name inum k :
  lst_rep g st t -> dir_ok g t ic dp x L -> ic_ok ic ->
  dir_find (dir_bytes t x) (nents x) name = Some k ->
  wp (dirlink devsw dp name inum)
    (fun e => exists st' : lst, iget_fails (mkFs st' ic wk) 1 (de_inum (dent (dir_bytes t x) k)) e)
    (fun r s => r = -1 /\ exists st' ic', s = mkFs st' ic' wk /\ lst_rep g st' t /\
      forall i y, ic !! i = Some y -> 0 < i_ref y -> ic' !! i = Some y) (mkFs st ic wk : fsysL).
Proof.
  intros Hr Hd Hic Hs. unfold dirlink. apply wp_bind.
  pose proof (dirlookup_find devsw g st ic wk dp x t L name Hr Hd Hic) as Hlk. rewrite Hs in Hlk.
  eapply wp_post; [exact Hlk|]. intros r s (ip&st1&->&Hr1&y&y'&Hy&->&(Hry'&_&_)&_&Hcase).
  cbn [f_icache f_blk f_woken] in *. assert (Hlt : (ip < length ic)%nat) by (by eapply lookup_lt_Some).
  assert (Hput : iput ip (mkFs st1 (<[ip := y']> ic) wk) =
    Ok tt (mkFs st1 (<[ip := set_ref (i_ref y' - 1) y']> ic) wk)).
  { assert (Hb : ((i_ref y' =? 1) && has (i_flags y') I_VALID && (i_nlink y' =? 0)) = false).
    { destruct Hcase as [[(Hry&_&_) ->]|(_&_&->&_)].
      - simpl. rewrite (proj2 (Z.eqb_neq _ 1)) by lia. done.
      - change (has 0 I_VALID) with false. by rewrite andb_false_r. }
    erewrite iput_drop; [|by apply list_lookup_insert_eq|done]. by rewrite list_insert_insert_eq. }
  apply wp_bind. unfold wp at 1. rewrite Hput. apply wp_ret. split; [done|].
  eexists st1, _. split_and!; [done..|]. intros i z Hz Href.
  destruct (decide (i = ip)) as [->|Hne]; [|by rewrite list_lookup_insert_ne].
  rewrite Hy in Hz. injection Hz as <-. rewrite list_lookup_insert_eq by done. f_equal.
  destruct Hcase as [[_ ->]|(Hr0&_)]; [|lia]. destruct y. unfold set_ref. simpl. f_equal. lia.
Qed.
