(* ===== verification/FsPath.v ===== *)
(** Path names: the elements of a path, and the walk namex makes through the
    directories on the disk. *)
From S2P Require Import Prelude Params Str Bio BioSpec Log LogSpec Trans Recover BlockIf Storage Fs FsBlocks FsFile FsSpec FsThms FsInode FsTrunc FsDir FsDemo.

(** ** Elements *)

(** The elements of a path: the maximal runs of characters other than '/'
    before the terminator.  [words] also gives the run the path starts with. *)
Definition add_elem (e : list Z) (es : list (list Z)) : list (list Z) :=
  match e with [] => es | _ => e :: es end.
Fixpoint words (p : list Z) : list Z * list (list Z) :=
  match p with
  | [] => ([], [])
  | c :: p =>
      if c =? 0 then ([], []) else
      let '(e, es) := words p in
      if c =? SLASH then ([], add_elem e es) else (c :: e, es)
  end.
Definition path_elems (p : list Z) : list (list Z) := add_elem (words p).1 (words p).2.

Section elems.
Implicit Types (p name e : list Z).

Lemma path_elems_nil p : chr p = 0 -> path_elems p = [].
Proof. unfold path_elems. destruct p as [|c p]; simpl; [done|]. intros ->. done. Qed.
Lemma path_elems_slash p : path_elems (SLASH :: p) = path_elems p.
Proof. unfold path_elems. simpl. by destruct (words p). Qed.
Lemma path_elems_skip p : path_elems (skip_slashes p) = path_elems p.
Proof.
  induction p as [|c p IH]; simpl; [done|]. destruct (Z.eqb_spec c SLASH) as [->|]; [|done].
  by rewrite path_elems_slash.
Qed.
Lemma skip_slashes_head p : chr (skip_slashes p) <> SLASH.
Proof. induction p as [|c p IH]; simpl; [done|]. by destruct (Z.eqb_spec c SLASH). Qed.
Lemma skip_slashes_length p : (length (skip_slashes p) <= length p)%nat.
Proof. induction p as [|c p IH]; simpl; [done|]. destruct (c =? SLASH); simpl; lia. Qed.

(** The run at the front, and what follows it. *)
Lemma words_elem p : (words p).1 = take (elem_len p) p /\
  add_elem [] (words p).2 = path_elems (drop (elem_len p) p).
Proof.
  induction p as [|c p IH]; simpl; [done|].
  destruct (Z.eqb_spec c SLASH) as [->|Hs]; simpl.
  - rewrite path_elems_slash. unfold path_elems. by destruct (words p).
  - destruct (Z.eqb_spec c 0) as [->|H0]; simpl; [done|]. destruct (words p) as [e es]. simpl in *.
    destruct IH as [-> ?]. done.
Qed.
Lemma elem_len_pos p : chr p <> 0 -> chr p <> SLASH -> (0 < elem_len p)%nat.
Proof.
  destruct p as [|c p]; simpl; [done|]. intros H0 Hs.
  rewrite (proj2 (Z.eqb_neq c SLASH)), (proj2 (Z.eqb_neq c 0)) by done. simpl. lia.
Qed.
Lemma path_elems_cons p : chr p <> 0 -> chr p <> SLASH ->
  path_elems p = take (elem_len p) p :: path_elems (drop (elem_len p) p).
Proof.
  intros H0 Hs. pose proof (elem_len_pos p H0 Hs) as Hpos. destruct (words_elem p) as [He Hes].
  unfold path_elems at 1. rewrite <- Hes, <- He. simpl.
  destruct p as [|c p]; [done|]. simpl in *.
  rewrite (proj2 (Z.eqb_neq c SLASH)), (proj2 (Z.eqb_neq c 0)) in * by done. by destruct (words p).
Qed.
Lemma elem_nonzero p : Forall (fun c => c <> 0) (take (elem_len p) p).
Proof.
  induction p as [|c p IH]; simpl; [done|].
  destruct (Z.eqb_spec c SLASH), (Z.eqb_spec c 0); simpl; [done..|]. by constructor.
Qed.
Lemma elem_len_le p : (elem_len p <= length p)%nat.
Proof. induction p as [|c p IH]; simpl; [done|]. destruct (_ && _); simpl; lia. Qed.
End elems.

(** skipelem takes a path apart: it fails exactly when no element is left;
    otherwise the path has one element [e] more than the rest, the name
    buffer holds [e] as a file name (compared up to DIRSIZ characters), the
    buffer keeps its length, and the rest is shorter, has no leading slash,
    and is empty exactly when [e] was the last element. *)
Definition skipelem_spec (path name : list Z) : Prop :=
  match skipelem path name with
  | None => path_elems path = []
  | Some (rest, name') => exists e, path_elems path = e :: path_elems rest /\
      same_name name' e /\ length name' = length name /\
      (length rest < length path)%nat /\ chr rest <> SLASH /\ (chr rest = 0 <-> path_elems rest = [])
  end.
Lemma skipelem_ok path name : length name = DIRSIZ -> skipelem_spec path name.
Proof.
  intros Hn. unfold skipelem_spec, skipelem. cbv zeta. set (s := skip_slashes path).
  destruct (Z.eqb_spec (chr s) 0) as [H0|H0].
  { rewrite <- path_elems_skip. by apply path_elems_nil. }
  pose proof (skip_slashes_head path) as Hs. fold s in Hs.
  pose proof (elem_len_pos s H0 Hs) as Hpos. pose proof (elem_len_le s) as Hle.
  set (rest := skip_slashes (drop (elem_len s) s)).
  exists (take (elem_len s) s). assert (Hrest : path_elems rest = path_elems (drop (elem_len s) s)) by apply path_elems_skip.
  split_and!.
  - rewrite <- path_elems_skip. fold s. rewrite Hrest. by apply path_elems_cons.
  - pose proof (elem_nonzero s) as Hnz. unfold same_name. rewrite (cstr_id (take _ s)) by done.
    destruct (Nat.leb_spec DIRSIZ (elem_len s)) as [Hl|Hl].
    + assert (Hsp : splice 0 (take DIRSIZ s) name = take DIRSIZ s).
      { rewrite splice_app_eq by (rewrite ?length_take; lia). simpl. rewrite drop_ge, app_nil_r; [done|].
        rewrite length_take. lia. }
      rewrite Hsp, cstr_id; [by rewrite !take_take, Nat.min_id, Nat.min_l|].
      rewrite <- (Nat.min_l DIRSIZ (elem_len s)), <- take_take by done. by apply Forall_take.
    + rewrite splice_app_eq by (rewrite ?length_app, ?length_take; cbn [length]; lia).
      change (take (Z.to_nat 0) name) with (@nil Z). rewrite <- app_assoc. cbn [app]. by rewrite cstr_app_zero.
  - destruct (_ <=? _)%nat; apply length_splice.
  - pose proof (skip_slashes_length (drop (elem_len s) s)). pose proof (skip_slashes_length path).
    unfold rest. rewrite length_drop in *. fold s in H1. lia.
  - apply skip_slashes_head.
  - split; [apply path_elems_nil|]. intros Hnil. destruct (decide (chr rest = 0)) as [|Hne]; [done|].
    rewrite path_elems_cons in Hnil; [done|done|apply skip_slashes_head].
Qed.

(** ** The directory tree on the disk *)

(** Inode [inum] as the disk has it. *)
Definition dnode (v : Z -> list Z) (inum : Z) : inode :=
  get_dinode (dip_off inum) (v (IBLOCK inum)) (mkInode 1 inum 0 0 0 0 0 0 0 []).
Definition dnode_find (v : Z -> list Z) (inum : Z) (name : list Z) : option Z :=
  (fun k => de_inum (dent (fbyte v (i_addrs (dnode v inum))) k)) <$>
    dir_find (fbyte v (i_addrs (dnode v inum))) (nents (dnode v inum)) name.

(** The inode a path leads to from [inum], one directory per element. *)
Fixpoint walk (v : Z -> list Z) (inum : Z) (es : list (list Z)) : option Z :=
  match es with
  | [] => Some inum
  | e :: es =>
      if i_type (dnode v inum) =? T_DIR then
        match dnode_find v inum e with Some i => walk v i es | None => None end
      else None
  end.
(** The directory that holds the last element, and that element. *)
Fixpoint walk_parent (v : Z -> list Z) (inum : Z) (es : list (list Z)) : option (Z * list Z) :=
  match es with
  | [] => None
  | e :: es =>
      if i_type (dnode v inum) =? T_DIR then
        match es with
        | [] => Some (inum, e)
        | _ => match dnode_find v inum e with Some i => walk_parent v i es | None => None end
        end
      else None
  end.

(** Every directory can be searched and its entries name allocated inodes
    that count their links. *)
Record tree_ok (g : geo) (v : Z -> list Z) : Prop := {
  tr_fs : fs_ok g v;
  tr_dir : forall i, 0 <= i < sb_ninodes (sb_of v) -> i_type (dnode v i) = T_DIR ->
    inode_ok g v (i_addrs (dnode v i)) /\
    0 <= i_size (dnode v i) <= MAXFILE * BSIZE /\ i_size (dnode v i) mod DIRENT_SZ = 0 /\
    no_holes v (dnode v i);
  tr_ent : forall i k, 0 <= i < sb_ninodes (sb_of v) -> i_type (dnode v i) = T_DIR ->
    0 <= k < nents (dnode v i) ->
    let n := de_inum (dent (fbyte v (i_addrs (dnode v i))) k) in
    n <> 0 -> 0 < n < sb_ninodes (sb_of v) /\ i_type (dnode v n) <> 0 /\ i_nlink (dnode v n) <> 0 }.

(** A cache entry for an inode of the disk; [lk] says whether the caller
    holds its lock (nobody else does).  A valid entry has what the disk has. *)
Record coherent (v : Z -> list Z) (lk : bool) (x : inode) : Prop := {
  co_dev : i_dev x = 1;
  co_inum : 0 <= i_inum x < sb_ninodes (sb_of v);
  co_type : i_type (dnode v (i_inum x)) <> 0;
  co_flags : (i_flags x = 0 /\ lk = false) \/
    (i_flags x = (if lk then fset I_VALID I_BUSY else I_VALID) /\ x = with_disk (dnode v (i_inum x)) x) }.
Definition cache_ok (v : Z -> list Z) (lk : option nat) (ic : list inode) : Prop :=
  ic_ok ic /\ (forall i x, ic !! i = Some x -> 0 < i_ref x -> coherent v (bool_decide (lk = Some i)) x) /\
  (forall i, lk = Some i -> exists x, ic !! i = Some x /\ 0 < i_ref x).

(** References to inode [n] that the cache counts. *)
Definition ref_to (n : Z) (x : inode) : Z := if bool_decide (caches 1 n x) then i_ref x else 0.
#[export] Instance caches_dec dev n x : Decision (caches dev n x).
Proof. unfold caches. apply _. Defined.
Definition refs (ic : list inode) (n : Z) : Z := foldr (fun x r => ref_to n x + r) 0 ic.

Section cache.
Implicit Types (v : Z -> list Z) (ic : list inode) (x : inode) (n : Z).

Lemma refs_insert ic i x x' n : ic !! i = Some x -> refs (<[i := x']> ic) n = refs ic n - ref_to n x + ref_to n x'.
Proof.
  revert i. induction ic as [|y ic IH]; intros [|i]; simpl; intros Hx; [done..| |].
  - injection Hx as ->. unfold refs. simpl. lia.
  - unfold refs in *. simpl. rewrite IH by done. lia.
Qed.
(** The same inode with the same count. *)
Definition same_ref (x x' : inode) : Prop := i_ref x' = i_ref x /\ i_dev x' = i_dev x /\ i_inum x' = i_inum x.
Lemma same_ref_to n x x' : same_ref x x' -> ref_to n x' = ref_to n x.
Proof. intros (H1&H2&H3). unfold ref_to, caches. by rewrite H1, H2, H3. Qed.
Lemma same_ref_ok ic i x x' : ic_ok ic -> ic !! i = Some x -> same_ref x x' -> ic_ok (<[i := x']> ic).
Proof.
  intros Hok Hx (H1&H2&H3). eapply ic_ok_insert; [done..|rewrite H1; by eapply ic_ref|].
  rewrite H1, H2, H3. intros Hr j y Hj Hy (Hry&Hdy&Hny). apply Hj. by eapply (ic_uniq _ Hok).
Qed.
Lemma cache_ok_insert v lk lk' ic i x x' :
  cache_ok v lk ic -> ic !! i = Some x -> ic_ok (<[i := x']> ic) ->
  (forall j, j <> i -> lk = Some j <-> lk' = Some j) -> (lk' = Some i -> 0 < i_ref x') ->
  (0 < i_ref x' -> coherent v (bool_decide (lk' = Some i)) x') ->
  cache_ok v lk' (<[i := x']> ic).
Proof.
  intros (_&Hc&Hl) Hx Hok Hlk Hl' Hx'. assert (Hlt : (i < length ic)%nat) by (by eapply lookup_lt_Some).
  split_and!; [done| |].
  - intros j y Hy Hr. destruct (decide (i = j)) as [<-|Hne].
    + rewrite list_lookup_insert_eq in Hy by done. injection Hy as <-. auto.
    + rewrite list_lookup_insert_ne in Hy by done. specialize (Hlk j (not_eq_sym Hne)).
      rewrite <- (bool_decide_ext (lk = Some j) (lk' = Some j) Hlk). by eapply Hc.
  - intros j Hj. destruct (decide (i = j)) as [<-|Hne].
    + rewrite list_lookup_insert_eq by done. eauto.
    + rewrite list_lookup_insert_ne by done. apply Hl, Hlk; done.
Qed.
Lemma disk_ref d x r : x = with_disk d x -> set_ref r x = with_disk d (set_ref r x).
Proof. intros Hw. by rewrite Hw. Qed.
Lemma disk_flags d x f : x = with_disk d x -> set_iflags f x = with_disk d (set_iflags f x).
Proof. intros Hw. by rewrite Hw. Qed.
Lemma disk_load v x :
  get_dinode (dip_off (i_inum x)) (v (IBLOCK (i_inum x))) x = with_disk (dnode v (i_inum x)) x.
Proof. done. Qed.
Lemma dir_find_same f n name e : same_name name e -> dir_find f n name = dir_find f n e.
Proof.
  intros Hs. unfold dir_find.
  assert (Hf : forall k, bool_decide (matches f name k) = bool_decide (matches f e k)).
  { intros k. apply bool_decide_ext. unfold matches, same_name in *. by rewrite Hs. }
  induction (seqZ 0 n) as [|k l IH]; simpl; [done|]. by rewrite Hf, IH.
Qed.
End cache.

(** The panic of iget in a cache of [N] entries: at least [N - k] different
    inodes have references [ref]. *)
Definition no_entry (N k : nat) (ref : Z -> Z) (e : err) : Prop :=
  e = Panic "iget: no inodes" /\ exists l, NoDup l /\ (N <= length l + k)%nat /\ forall n, n ∈ l -> 0 < ref n.
Section full.
Implicit Types (v : Z -> list Z) (ic : list inode) (x : inode) (n : Z) (ref : Z -> Z).
Lemma ref_to_nonneg n x : 0 <= ref_to n x.
Proof. unfold ref_to, caches. case_bool_decide; lia. Qed.
Lemma refs_pos ic i x : ic !! i = Some x -> caches 1 (i_inum x) x -> 0 < refs ic (i_inum x).
Proof.
  intros Hx Hc. rewrite <- (list_insert_id ic i x Hx). rewrite (refs_insert _ _ x) by done.
  assert (Hn : forall l, 0 <= foldr (fun y r => ref_to (i_inum x) y + r) 0 l).
  { induction l as [|y l IH]; simpl; [done|]. pose proof (ref_to_nonneg (i_inum x) y). lia. }
  pose proof (Hn (<[i := set_ref 0 x]> ic)) as H0. fold (refs (<[i := set_ref 0 x]> ic) (i_inum x)) in H0.
  rewrite (refs_insert _ _ x) in H0 by done.
  assert (Hz : ref_to (i_inum x) (set_ref 0 x) = 0) by (unfold ref_to, caches; cbn; by rewrite bool_decide_eq_false_2 by lia).
  assert (Hp : 0 < ref_to (i_inum x) x) by (unfold ref_to; rewrite bool_decide_eq_true_2 by done; apply Hc). lia.
Qed.
(** When every entry is in use there are as many inodes with references. *)
Lemma full_refs v lk ic ref k m :
  cache_ok v lk ic -> (forall i x, ic !! i = Some x -> i_ref x <> 0) ->
  (forall n, n <> m \/ k = 0%nat -> refs ic n = ref n) -> (k <= 1)%nat ->
  no_entry (length ic) k ref (Panic "iget: no inodes").
Proof.
  intros (Hok&Hc&_) Hall Href Hk. split; [done|].
  assert (Hin : forall i x, ic !! i = Some x -> caches 1 (i_inum x) x).
  { intros i x Hx. pose proof (Hall i x Hx). pose proof (ic_ref _ Hok i x Hx).
    destruct (Hc i x Hx ltac:(lia)) as [Hd _ _ _]. split_and!; [lia|done|done]. }
  assert (Hnd : NoDup (map i_inum ic)).
  { apply NoDup_alt. intros i j n Hi Hj'. apply list_lookup_fmap_Some in Hi as (x&Hn&Hx), Hj' as (y&Hy&Hj).
    destruct (Hin i x Hx) as (?&?&_), (Hin j y Hj) as (?&?&_). eapply (ic_uniq _ Hok); [done..|congruence|congruence]. }
  assert (Hpos : forall n, n ∈ map i_inum ic -> 0 < refs ic n).
  { intros n (x&->&[i Hx]%list_elem_of_lookup)%list_elem_of_fmap. eapply refs_pos; [done|by eapply Hin]. }
  destruct k as [|k].
  - exists (map i_inum ic). split_and!; [done|rewrite length_map; lia|]. intros n Hn. rewrite <- Href by auto. auto.
  - exists (filter (fun n => n <> m) (map i_inum ic)). split_and!; [by apply NoDup_filter| |].
    + rewrite <- (length_map i_inum). clear -Hnd Hk. induction Hnd as [|n l Hn Hnd IH]; [simpl; lia|].
      rewrite filter_cons. case_decide as Hnm; cbn [length]; [lia|]. subst n.
      assert (Hl : length (filter (fun n => n <> m) l) = length l); [|lia]. clear -Hn.
      induction l as [|n l IH]; [done|]. rewrite filter_cons_True by set_solver. cbn [length]. rewrite IH by set_solver. done.
    + intros n [Hne Hn]%list_elem_of_filter. rewrite <- Href by auto. auto.
Qed.
End full.

Section steps.
Context {S : Type} `{BlockLayer S}.
Implicit Types (g : geo) (b : S) (ic : list inode) (wk : list chan) (t : tdisk) (L : list Z) (ip : nat) (x : inode) (n : Z).
Definition one (n m : Z) : Z := if decide (n = m) then 1 else 0.

(** iget of an inode of the disk. *)
Lemma iget_step v lk b ic wk inum :
  cache_ok v lk ic -> 0 <= inum < sb_ninodes (sb_of v) -> i_type (dnode v inum) <> 0 ->
  wp (iget 1 inum) (fun e => e = Panic "iget: no inodes" /\ forall i x, ic !! i = Some x -> i_ref x <> 0) (fun ip s => exists x x',
    s = mkFs b (<[ip := x']> ic) wk /\ ic !! ip = Some x /\ caches 1 inum x' /\ cache_ok v lk (<[ip := x']> ic) /\
    (forall n, refs (<[ip := x']> ic) n = refs ic n + one n inum) /\
    (0 < i_ref x -> i_ref x' = i_ref x + 1 /\ i_inum x = inum /\ x' = set_ref (i_ref x + 1) x)) (mkFs b ic wk).
Proof.
  intros (Hok&Hc&Hl) Hin Hty. eapply wp_mono; [by apply (iget_ok (mkFs b ic wk))|intros e [-> He]; split; [done|]; intros i x Hx; by destruct (He i x Hx)|].
  intros ip s (x&x'&Hx&->&Hcx&Hok'&Hcase). cbn [f_blk f_icache f_woken] in *.
  exists x, x'. split_and!; [done..| | |].
  - eapply cache_ok_insert; [by split_and!|done..|intros _; apply Hcx|]. intros Hr'.
    destruct Hcase as [[Hcs ->]|(Hr0&_&Hfl&Hno)].
    + destruct (Hc ip x Hx (proj1 Hcs)) as [H1 H2 H3 H4]. split; [done..|]. simpl.
      destruct H4 as [?|[Hf Hw]]; [by left|]. right. split; [done|]. by apply disk_ref.
    + destruct Hcx as (_&Hd&Hn). split; [done|by rewrite Hn|by rewrite Hn|]. left. split; [done|].
      apply bool_decide_eq_false. intros Hlk. destruct (Hl ip Hlk) as (y&Hy&Hry). simplify_eq. lia.
  - intros n. rewrite (refs_insert _ _ x) by done. unfold ref_to, one.
    destruct Hcase as [[Hcs ->]|(Hr0&Hr1&Hfl&Hno)].
    + unfold caches in *. simpl. destruct Hcs as (Hr&Hd&Hn). repeat case_bool_decide; case_decide; subst; try lia; naive_solver lia.
    + unfold caches in *. destruct Hcx as (Hr&Hd&Hn). repeat case_bool_decide; case_decide; subst; try lia; naive_solver lia.
  - intros Hr. destruct Hcase as [[(_&_&Hn) ->]|(Hr0&_)]; [done|lia].
Qed.

Lemma cache_at v lk ic ip x : cache_ok v lk ic -> ic !! ip = Some x -> 0 < i_ref x ->
  coherent v (bool_decide (lk = Some ip)) x.
Proof. intros (_&Hc&_). apply Hc. Qed.

(** ilock of an inode nobody has locked. *)
Lemma ilock_step g b ic wk ip x t L E :
  bl_rep g b t -> cache_ok (t_view t) None ic -> ic !! ip = Some x -> 0 < i_ref x ->
  fs_ok g (t_view t) -> t_held t = ∅ -> fits g t L 0 1 ->
  let x' := set_iflags (fset I_VALID I_BUSY) (with_disk (dnode (t_view t) (i_inum x)) x) in
  wp (ilock ip) E (fun _ s => exists b', s = mkFs b' (<[ip := x']> ic) wk /\ bl_rep g b' t /\
    cache_ok (t_view t) (Some ip) (<[ip := x']> ic) /\ forall n, refs (<[ip := x']> ic) n = refs ic n) (mkFs b ic wk).
Proof.
  intros Hr Hc Hx Href Hf Hh Hfit x'. pose proof (cache_at _ _ _ _ _ Hc Hx Href) as [Hdev Hin Hty Hfl].
  rewrite bool_decide_eq_false_2 in Hfl by done.
  assert (Hsame : same_ref x x') by done.
  assert (Hok : ic_ok (<[ip := x']> ic)) by (eapply same_ref_ok; [apply Hc|done..]).
  assert (Hpost : cache_ok (t_view t) (Some ip) (<[ip := x']> ic) /\ forall n, refs (<[ip := x']> ic) n = refs ic n).
  { split.
    - eapply (cache_ok_insert _ None); [done..|by intros j Hj; split; congruence|done|].
      intros _. rewrite bool_decide_eq_true_2 by done. split; [done..|]. by right.
    - intros n. rewrite (refs_insert _ _ x) by done. rewrite (same_ref_to n _ _ Hsame). lia. }
  destruct Hfl as [[Hfl _]|[Hfl Hw]].
  - eapply (ilock_load g b ic wk ip x t L 0 0); [done|done|lia|by rewrite Hfl|by rewrite Hfl|done..|].
    intros b' Hr'. rewrite disk_load, Hfl. change (fset I_VALID (fset I_BUSY 0)) with (fset I_VALID I_BUSY). eauto.
  - eapply ilock_valid; [done|lia|by rewrite Hfl|by rewrite Hfl|].
    exists b. split; [|by split]. unfold x'. rewrite <- Hw, Hfl. done.
Qed.

(** Unlocking it. *)
Lemma locked_at v ic ip x : cache_ok v (Some ip) ic -> ic !! ip = Some x ->
  0 < i_ref x /\ i_flags x = fset I_VALID I_BUSY /\ x = with_disk (dnode v (i_inum x)) x.
Proof.
  intros Hc Hx. assert (Href : 0 < i_ref x).
  { destruct Hc as (_&_&Hl). destruct (Hl ip eq_refl) as (y&Hy&Hry). by simplify_eq. }
  pose proof (cache_at _ _ _ _ _ Hc Hx Href) as [_ _ _ Hfl]. rewrite bool_decide_eq_true_2 in Hfl by done.
  by destruct Hfl as [[_ ?]|[Hfl Hw]].
Qed.
Lemma iunlock_step v b ic wk ip x E :
  cache_ok v (Some ip) ic -> ic !! ip = Some x ->
  let x' := set_iflags I_VALID x in
  wp (iunlock ip) E (fun _ s => s = mkFs b (<[ip := x']> ic) (ChInode ip :: wk) /\
    cache_ok v None (<[ip := x']> ic) /\ forall n, refs (<[ip := x']> ic) n = refs ic n) (mkFs b ic wk).
Proof.
  intros Hc Hx x'. destruct (locked_at _ _ _ _ Hc Hx) as (Href&Hfl&Hw).
  pose proof (cache_at _ _ _ _ _ Hc Hx Href) as [Hdev Hin Hty _].
  assert (Hsame : same_ref x x') by done.
  unfold iunlock. apply wp_bind. eapply wp_geti; [done|].
  rewrite Hfl. change (has (fset I_VALID I_BUSY) I_BUSY) with true. cbn [negb orb].
  rewrite (proj2 (Z.ltb_ge _ _)) by lia. apply wp_bind. eapply wp_updi; [done|]. apply wp_modify. cbn [f_blk f_icache f_woken].
  change (fclr I_BUSY (fset I_VALID I_BUSY)) with I_VALID. split_and!; [done| |].
  - eapply (cache_ok_insert _ (Some ip)); [done..| |by intros j Hj; split; congruence|done|].
    + eapply same_ref_ok; [apply Hc|done..].
    + intros _. rewrite bool_decide_eq_false_2 by done. split; [done..|]. right. split; [done|]. by apply disk_flags.
  - intros n. rewrite (refs_insert _ _ x) by done. rewrite (same_ref_to n _ _ Hsame). lia.
Qed.

(** Dropping a reference to an inode that is not freed by it. *)
Lemma iput_step v b ic wk ip x E :
  cache_ok v None ic -> ic !! ip = Some x -> 0 < i_ref x ->
  i_nlink (dnode v (i_inum x)) <> 0 \/ 2 <= i_ref x ->
  let x' := set_ref (i_ref x - 1) x in
  wp (iput ip) E (fun _ s => s = mkFs b (<[ip := x']> ic) wk /\ cache_ok v None (<[ip := x']> ic) /\
    forall n, refs (<[ip := x']> ic) n = refs ic n - one n (i_inum x)) (mkFs b ic wk).
Proof.
  intros Hc Hx Href Hnl x'. destruct (cache_at _ _ _ _ _ Hc Hx Href) as [Hdev Hin Hty Hfl].
  unfold wp. rewrite (iput_drop b _ _ ip x Hx).
  2:{ destruct Hfl as [[-> _]|[Hfl Hw]].
      - change (has 0 I_VALID) with false. by rewrite andb_false_r.
      - assert (Hnx : i_nlink x = i_nlink (dnode v (i_inum x))) by (by rewrite Hw at 1).
        rewrite Hnx. destruct Hnl as [Hnl|Hnl].
        + rewrite (proj2 (Z.eqb_neq (i_nlink _) 0)) by done. by rewrite andb_false_r.
        + by rewrite (proj2 (Z.eqb_neq (i_ref x) 1)) by lia. }
  split_and!; [done| |].
  - eapply (cache_ok_insert _ None); [done..| | |done|].
    + eapply ic_ok_insert; [apply Hc|done|simpl; lia|]. intros _ j y Hj Hy (Hry&Hdy&Hny). apply Hj.
      eapply (ic_uniq _ (proj1 Hc)); done.
    + done.
    + intros _. split; [done..|]. destruct Hfl as [?|[Hf1 Hw1]]; [by left|]. right. split; [done|]. by apply disk_ref.
  - intros n. rewrite (refs_insert _ _ x) by done. unfold ref_to, one, caches. simpl.
    repeat case_bool_decide; case_decide; subst; try lia; naive_solver lia.
Qed.
Lemma iunlockput_step v b ic wk ip x E :
  cache_ok v (Some ip) ic -> ic !! ip = Some x ->
  i_nlink (dnode v (i_inum x)) <> 0 \/ 2 <= i_ref x ->
  let x' := set_ref (i_ref x - 1) (set_iflags I_VALID x) in
  wp (iunlockput ip) E (fun _ s => s = mkFs b (<[ip := x']> ic) (ChInode ip :: wk) /\
    cache_ok v None (<[ip := x']> ic) /\
    forall n, refs (<[ip := x']> ic) n = refs ic n - one n (i_inum x)) (mkFs b ic wk).
Proof.
  intros Hc Hx Hnl x'. destruct (locked_at _ _ _ _ Hc Hx) as (Href&_&_).
  unfold iunlockput. eapply wp_seq; [by apply (iunlock_step v b ic wk ip x)|].
  set (x1 := set_iflags I_VALID x). intros [] s (->&Hc1&Hrefs).
  assert (Hx1 : <[ip := x1]> ic !! ip = Some x1) by (apply list_lookup_insert_eq; by eapply lookup_lt_Some).
  eapply wp_post; [by apply (iput_step v b _ _ ip x1)|]. rewrite list_insert_insert_eq.
  intros [] s (->&Hc2&Hr2). split_and!; [done..|]. intros n. by rewrite Hr2, Hrefs.
Qed.
Lemma idup_step v b ic wk ip x E :
  cache_ok v None ic -> ic !! ip = Some x -> 0 < i_ref x ->
  let x' := set_ref (i_ref x + 1) x in
  wp (idup ip) E (fun r s => r = ip /\ s = mkFs b (<[ip := x']> ic) wk /\ cache_ok v None (<[ip := x']> ic) /\
    forall n, refs (<[ip := x']> ic) n = refs ic n + one n (i_inum x)) (mkFs b ic wk).
Proof.
  intros Hc Hx Href x'. destruct (cache_at _ _ _ _ _ Hc Hx Href) as [Hdev Hin Hty Hfl].
  unfold idup. apply wp_bind. eapply wp_updi; [done|]. apply wp_ret. split_and!; [done..| |].
  - eapply (cache_ok_insert _ None); [done..| | |done|].
    + eapply ic_ok_insert; [apply Hc|done|simpl; lia|]. intros _ j y Hj Hy (Hry&Hdy&Hny). apply Hj.
      eapply (ic_uniq _ (proj1 Hc)); done.
    + done.
    + intros _. split; [done..|]. destruct Hfl as [?|[Hf1 Hw1]]; [by left|]. right. split; [done|]. by apply disk_ref.
  - intros n. rewrite (refs_insert _ _ x) by done. unfold ref_to, one, caches. simpl.
    repeat case_bool_decide; case_decide; subst; try lia; naive_solver lia.
Qed.
End steps.

(** ** namex *)

(** What namex should find from inode [inum]: the inode and, for
    nameiparent, the last element. *)
Definition target (par : bool) (v : Z -> list Z) (inum : Z) (es : list (list Z)) : option (Z * list Z) :=
  if par then walk_parent v inum es else (fun i => (i, [])) <$> walk v inum es.

(** The result of namex that took its reference to the result on top of the
    references [ref0], and left the disk as it was. *)
Definition walked (g : geo) (t : tdisk) (ref0 : Z -> Z) (par : bool) (T : option (Z * list Z))
    (r : option (nat * list Z)) (s : fsysL) : Prop :=
  exists st ic wk, s = mkFs st ic wk /\ lst_rep g st t /\ cache_ok (t_view t) None ic /\
  match T with
  | None => r = None /\ forall n, refs ic n = ref0 n
  | Some (i, e) => exists ip name x, r = Some (ip, name) /\ ic !! ip = Some x /\ caches 1 i x /\
      (par = true -> same_name name e) /\ forall n, refs ic n = ref0 n + one n i
  end.

Section namex.
Implicit Types (g : geo) (st : lst) (ic : list inode) (wk : list chan) (t : tdisk) (L : list Z) (ip : nat) (x : inode).
Variables (devsw : Z -> option (@devops lst)) (g : geo) (t : tdisk) (L : list Z) (par : bool)
  (N : nat) (ref0 : Z -> Z) (T : option (Z * list Z)).
Hypotheses (Htree : tree_ok g (t_view t)) (Hh : t_held t = ∅) (Hfit : fits g t L 0 1).
Let v := t_view t.
Let IGET : err -> Prop := no_entry N 1 ref0.

(** At inode [inum], which the loop has a reference to. *)
Definition at_node (ip : nat) (path name : list Z) (s : fsysL) : Prop :=
  exists st ic wk x, s = mkFs st ic wk /\ lst_rep g st t /\ cache_ok v None ic /\ length ic = N /\ length name = DIRSIZ /\
    ic !! ip = Some x /\ 0 < i_ref x /\ T = target par v (i_inum x) (path_elems path) /\
    (i_nlink (dnode v (i_inum x)) <> 0 \/ 2 <= i_ref x) /\
    forall n, refs ic n = ref0 n + one n (i_inum x).

Lemma dnode_dir ic ip x : ic !! ip = Some x -> coherent v true x -> i_type x = T_DIR -> dir_ok g t ic ip x L.
Proof using Htree Hh Hfit.
  intros Hx [Hdev Hin _ [[_ ?]|[_ Hw]]] Hty; [done|].
  assert (Hd : i_type (dnode v (i_inum x)) = T_DIR) by (rewrite <- Hty; by rewrite Hw at 2).
  destruct (tr_dir _ _ Htree _ Hin Hd) as (Hi&Hs1&Hs2&Hnh).
  assert (Ha : i_addrs x = i_addrs (dnode v (i_inum x))) by (by rewrite Hw at 1).
  assert (Hs : i_size x = i_size (dnode v (i_inum x))) by (by rewrite Hw at 1).
  split; try done.
  - apply Htree.
  - by rewrite Ha.
  - by rewrite Hs.
  - intros p. unfold no_holes in Hnh. rewrite Ha, Hs. apply Hnh.
Qed.

(** Leaving a directory for the entry [nx] found in it. *)
Lemma leave ic wk st ip x nx y y' (E : err -> Prop) inum :
  cache_ok v (Some ip) (<[nx := y']> ic) -> ic !! ip = Some x -> ic !! nx = Some y -> 0 < i_ref x ->
  caches 1 inum y' -> (0 < i_ref y -> i_ref y' = i_ref y + 1 /\ i_inum y = inum /\ y' = set_ref (i_ref y + 1) y) ->
  i_nlink (dnode v (i_inum x)) <> 0 \/ 2 <= i_ref x ->
  wp (iunlockput ip) E (fun _ s => exists ic' wk' z, s = mkFs st ic' wk' /\ cache_ok v None ic' /\ length ic' = length ic /\
    ic' !! nx = Some z /\ caches 1 inum z /\
    forall n, refs ic' n = refs (<[nx := y']> ic) n - one n (i_inum x)) (mkFs st (<[nx := y']> ic) wk : fsysL).
Proof.
  intros Hc Hx Hy Href Hcy Hinc Hnl. assert (Hlt : (nx < length ic)%nat) by (by eapply lookup_lt_Some).
  destruct (decide (nx = ip)) as [->|Hne].
  - rewrite Hx in Hy. injection Hy as <-. destruct (Hinc Href) as (Hr'&Hn&->).
    eapply wp_post; [apply (iunlockput_step v st _ wk ip (set_ref (i_ref x + 1) x)); [done| |]|].
    + by apply list_lookup_insert_eq.
    + right. simpl. lia.
    + intros [] s (->&Hc'&Hrefs). eexists _, _, _. split_and!; [done|done|by rewrite !length_insert| | |done].
      * apply list_lookup_insert_eq. by rewrite length_insert.
      * destruct Hcy as (_&Hd&Hi). unfold caches. simpl in *. split_and!; [lia|done..].
  - assert (Hx' : <[nx := y']> ic !! ip = Some x) by (by rewrite list_lookup_insert_ne).
    eapply wp_post; [by apply (iunlockput_step v st _ wk ip x)|].
    intros [] s (->&Hc'&Hrefs). eexists _, _, y'. split_and!; [done|done|by rewrite !length_insert| |done|done].
    rewrite list_lookup_insert_ne by done. by apply list_lookup_insert_eq.
Qed.

(** One element: the lookup in the locked directory [ip] and the step to the
    entry found. *)
Lemma namex_lookup st ic wk ip x name rest e :
  lst_rep g st t -> cache_ok v (Some ip) ic -> length ic = N -> ic !! ip = Some x -> i_type x = T_DIR ->
  i_nlink (dnode v (i_inum x)) <> 0 \/ 2 <= i_ref x ->
  (forall n, refs ic n = ref0 n + one n (i_inum x)) -> length name = DIRSIZ -> same_name name e ->
  T = match dnode_find v (i_inum x) e with Some i => target par v i (path_elems rest) | None => None end ->
  wp (r <- dirlookup devsw ip name;;
      match r with
      | None => iunlockput ip;; ret (inr None)
      | Some (next, _) => iunlockput ip;; ret (inl (next, rest, name))
      end) IGET (fun r s => match r with
        | inl (ip', path', name') => at_node ip' path' name' s /\ path' = rest
        | inr r => walked g t ref0 par T r s
        end) (mkFs st ic wk : fsysL).
Proof using Htree Hh Hfit.
  intros Hr Hc HN Hx Hty Hnl Hrefs Hlen Hsn HT. destruct (locked_at _ _ _ _ Hc Hx) as (Href&_&Hw).
  pose proof (cache_at _ _ _ _ _ Hc Hx Href) as Hco. rewrite bool_decide_eq_true_2 in Hco by done.
  assert (Hd : dir_ok g t ic ip x L) by (by apply dnode_dir).
  assert (Ha : dir_bytes t x = fbyte v (i_addrs (dnode v (i_inum x)))) by (unfold dir_bytes; by rewrite Hw at 1).
  assert (Hn : nents x = nents (dnode v (i_inum x))) by (unfold nents; by rewrite Hw at 1).
  assert (Hdt : i_type (dnode v (i_inum x)) = T_DIR) by (rewrite <- Hty; by rewrite Hw at 2).
  unfold dnode_find in HT. rewrite <- (dir_find_same _ _ name e Hsn), <- Ha, <- Hn in HT. unfold dir_find in HT.
  pose proof (find_seqZ (matches (dir_bytes t x) name) (nents x)) as Hs.
  apply wp_bind. eapply (dirlookup_ok devsw g st ic wk ip x t L); [done..| |].
  - intros k st1 Hk Hm Hno Hr1. rewrite (find_first (matches (dir_bytes t x) name) (nents x) k) in HT by done. cbn [fmap option_fmap option_map] in HT.
    set (inum := de_inum (dent (dir_bytes t x) k)) in *.
    assert (Hin : 0 <= inum < sb_ninodes (sb_of v) /\ i_type (dnode v inum) <> 0 /\ i_nlink (dnode v inum) <> 0).
    { pose proof (tr_ent _ _ Htree (i_inum x) k (co_inum _ _ _ Hco) Hdt) as He.
      fold v in He. rewrite <- Ha, <- Hn in He. destruct (He Hk) as (H1&H2&H3); [apply Hm|]. fold inum in H1, H2, H3.
      split_and!; [lia|lia|done..]. }
    destruct Hin as (Hin&Hty'&Hnl').
    eapply wp_mono; [by apply (iget_step v (Some ip) st1 ic wk inum)| |].
    { intros ? [-> Hfull]. unfold IGET. rewrite <- HN. apply (full_refs v (Some ip) ic ref0 1 (i_inum x)); [done|done| |lia].
      intros n [Hne|]; [|done]. rewrite Hrefs. unfold one. rewrite decide_False by done. lia. }
    intros nx s (y&y'&->&Hy&Hcy&Hc'&Hrefs'&Hinc).
    eapply wp_seq; [by apply (leave ic wk st1 ip x nx y y' IGET inum)|].
    intros [] s (ic'&wk'&z&->&Hc2&Hl2&Hz&(Hzr&Hzd&Hzn)&Hrefs2). apply wp_ret. split; [|done].
    exists st1, ic', wk', z. rewrite Hzn. split_and!; try done; [congruence|by left|].
    intros n. rewrite Hrefs2, Hrefs', Hrefs. lia.
  - intros Hno st1 Hr1. rewrite (find_none (matches (dir_bytes t x) name) (nents x)) in HT by done. cbn [fmap option_fmap option_map] in HT.
    eapply wp_seq; [by apply (iunlockput_step v st1 ic wk ip x)|].
    intros [] s (->&Hc2&Hrefs2). apply wp_ret. rewrite HT. eexists _, _, _. split_and!; [done..|].
    intros n. rewrite Hrefs2, Hrefs. lia.
Qed.

(** An iteration of the loop. *)
Lemma namex_body_ok ip path name s :
  at_node ip path name s ->
  wp (namex_body devsw par (ip, path, name)) IGET (fun r s => match r with
      | inl (ip', path', name') => at_node ip' path' name' s /\ (length path' < length path)%nat
      | inr r => walked g t ref0 par T r s
      end) s.
Proof using Htree Hh Hfit.
  intros (st&ic&wk&x&->&Hr&Hc&HN&Hlen&Hx&Href&HT&Hnl&Hrefs). unfold namex_body.
  pose proof (skipelem_ok path name Hlen) as Hs. unfold skipelem_spec in Hs.
  assert (Hcx : caches 1 (i_inum x) x) by (split_and!; [done|apply (co_dev _ _ _ (cache_at _ _ _ _ _ Hc Hx Href))|done]).
  destruct (skipelem path name) as [[rest name']|].
  2:{ rewrite Hs in HT. unfold target in HT. destruct par; simpl in HT.
      - eapply wp_seq; [by apply (iput_step v st ic wk ip x)|]. intros [] s (->&Hc2&Hrefs2). apply wp_ret. rewrite HT.
        eexists _, _, _. split_and!; [done..|]. intros n. rewrite Hrefs2, Hrefs. lia.
      - apply wp_ret. rewrite HT. exists st, ic, wk. split_and!; [done..|]. exists ip, name, x. split_and!; done. }
  destruct Hs as (e&He&Hsn&Hlen'&Hlt&Hsl&Hlast).
  eapply wp_seq; [eapply (ilock_step g st ic wk ip x t L); [done|done|done|done|apply Htree|done|done]|].
  set (x1 := set_iflags _ _). intros [] s (st1&->&Hr1&Hc1&Hrefs1).
  assert (Hx1 : <[ip := x1]> ic !! ip = Some x1) by (apply list_lookup_insert_eq; by eapply lookup_lt_Some).
  assert (Hrefs1' : forall n, refs (<[ip := x1]> ic) n = ref0 n + one n (i_inum x)) by (intros n; by rewrite Hrefs1).
  apply wp_bind. eapply wp_geti; [done|].
  rewrite He in HT. change (i_type x1) with (i_type (dnode v (i_inum x))).
  destruct (Z.eqb_spec (i_type (dnode v (i_inum x))) T_DIR) as [Hty|Hty]; cbn [negb].
  - destruct (par && (chr rest =? 0)) eqn:Hp.
    + apply andb_prop in Hp as [Hpar Hz%Z.eqb_eq]. 
      eapply wp_seq; [by apply (iunlock_step v st1 _ wk ip x1)|]. intros [] s (->&Hc2&Hrefs2). apply wp_ret.
      unfold target in HT. rewrite Hpar in HT |- *. cbn [walk_parent] in HT. rewrite (proj2 (Z.eqb_eq _ _) Hty), (proj1 Hlast Hz) in HT. rewrite HT.
      eexists _, _, _. split_and!; [done..|]. exists ip, name', (set_iflags I_VALID x1). split_and!; [done| |apply Hcx..|done|].
      * apply list_lookup_insert_eq. rewrite length_insert. by eapply lookup_lt_Some.
      * intros n. rewrite Hrefs2, Hrefs1'. done.
    + eapply wp_post; [eapply (namex_lookup st1 _ wk ip x1 name' rest e); try done; [by rewrite length_insert|congruence|]|].
      * rewrite HT. change (i_inum x1) with (i_inum x). unfold target. destruct par; cbn [walk walk_parent].
        -- rewrite (proj2 (Z.eqb_eq _ _) Hty). destruct (path_elems rest) as [|e' es] eqn:Hes; [|done].
           simpl in Hp. apply Z.eqb_neq in Hp. destruct Hp. by apply Hlast.
        -- rewrite (proj2 (Z.eqb_eq _ _) Hty). by destruct (dnode_find v (i_inum x) e).
      * intros [[[ip' path'] name2]|r] s; [|done]. intros [Hat ->]. done.
  - eapply wp_seq; [by apply (iunlockput_step v st1 _ wk ip x1)|]. intros [] s (->&Hc2&Hrefs2). apply wp_ret.
    assert (HTn : T = None).
    { rewrite HT. unfold target. destruct par; cbn [walk walk_parent]; by rewrite (proj2 (Z.eqb_neq _ _) Hty). }
    rewrite HTn. eexists _, _, _. split_and!; [done..|]. intros n. rewrite Hrefs2, Hrefs1'.
    change (i_inum x1) with (i_inum x). lia.
Qed.
End namex.

(** ** Theorems *)

(** skipelem takes a path apart: it fails exactly when no element is left;
    otherwise the path has one element [e] more than the rest, the name
    buffer holds [e] as a file name (compared up to DIRSIZ characters), the
    buffer keeps its length, and the rest is shorter, has no leading slash,
    and is empty exactly when [e] was the last element. *)
Theorem skipelem_correct path name : length name = DIRSIZ -> skipelem_spec path name.
Proof. apply skipelem_ok. Qed.
Lemma skipelem_correct_witness : skipelem_spec [SLASH; 97; SLASH; SLASH; 98; 0] (replicate DIRSIZ 0).
Proof. apply skipelem_correct. by vm_compute. Defined.

(** The root directory exists. *)
Definition root_ok (v : Z -> list Z) : Prop :=
  ROOTINO < sb_ninodes (sb_of v) /\ i_type (dnode v ROOTINO) <> 0 /\ i_nlink (dnode v ROOTINO) <> 0.

(** The loop from any inode of the cache. *)
Lemma namex_loop devsw g st t L par N ref0 T ip path name ic wk :
  tree_ok g (t_view t) -> t_held t = ∅ -> fits g t L 0 1 ->
  at_node g t par N ref0 T ip path name (mkFs st ic wk) ->
  wp (while (S (length path)) (namex_body devsw par) (ip, path, name)) (no_entry N 1 ref0)
    (walked g t ref0 par T) (mkFs st ic wk).
Proof.
  intros Htree Hh Hfit Hat.
  apply (wp_while (fun a s => let '(ip, path, name) := a in at_node g t par N ref0 T ip path name s)
    (fun a => length a.1.2)); [done|simpl; lia|].
  intros [[ip' path'] name'] s' Hat'. eapply wp_post; [by eapply (namex_body_ok devsw g t L)|].
  intros [[[ip2 path2] name2]|r] s2; done.
Qed.
(** An absolute path does not need the current directory. *)
Lemma namex_root devsw g st ic wk cwd t L par path name :
  lst_rep g st t -> tree_ok g (t_view t) -> root_ok (t_view t) -> t_held t = ∅ -> fits g t L 0 1 ->
  cache_ok (t_view t) None ic -> length name = DIRSIZ -> chr path = SLASH ->
  wp (namex devsw cwd path par name) (no_entry (length ic) 1 (refs ic))
    (walked g t (refs ic) par (target par (t_view t) ROOTINO (path_elems path))) (mkFs st ic wk : fsysL).
Proof.
  intros Hr Htree (Hrn&Hrt&Hrl) Hh Hfit Hc Hlen Hs. unfold namex. apply wp_bind.
  rewrite (proj2 (Z.eqb_eq _ _)) by done.
  eapply wp_mono; [apply (iget_step (t_view t) None st ic wk ROOTINO); [done|unfold ROOTINO in *; lia|done]| |].
  { intros ? [-> Hfull]. by apply (full_refs (t_view t) None ic (refs ic) 1 0); [| | |lia]. }
  intros ip s (y&y'&->&Hy&(Hry&Hdy&Hny)&Hc'&Hrefs&_). eapply (namex_loop devsw g st t L); [done..|].
  exists st, (<[ip := y']> ic), wk, y'. rewrite Hny.
  split_and!; try done; [by rewrite length_insert| |by left]. apply list_lookup_insert_eq. by eapply lookup_lt_Some.
Qed.

(** C12. namei and nameiparent resolve path names as the directory tree on the
    disk says: from the root or the current directory, element by element,
    they return the inode the walk ends at (for nameiparent its directory,
    with the last element in the name buffer), and fail exactly when an
    element is missing or something that is not a directory is in the way.
    The loop ends, the disk is not changed, no lock stays held, and the
    reference counts of the cache are as before but for the one reference
    returned; the only error is the panic of iget, and only when all entries
    of the cache but at most one are in use for different inodes that have
    references already. *)
Theorem namex_correct devsw g st ic wk cwd x t L par path name :
  lst_rep g st t -> tree_ok g (t_view t) -> root_ok (t_view t) -> t_held t = ∅ -> fits g t L 0 1 ->
  cache_ok (t_view t) None ic -> ic !! cwd = Some x -> 0 < i_ref x -> length name = DIRSIZ ->
  let start := if chr path =? SLASH then ROOTINO else i_inum x in
  wp (namex devsw cwd path par name) (no_entry (length ic) 1 (refs ic))
    (walked g t (refs ic) par (target par (t_view t) start (path_elems path))) (mkFs st ic wk : fsysL).
Proof.
  intros Hr Htree Hroot Hh Hfit Hc Hx Href Hlen start. unfold start.
  destruct (Z.eqb_spec (chr path) SLASH) as [Hs|Hs]; [by eapply namex_root|].
  unfold namex. apply wp_bind. rewrite (proj2 (Z.eqb_neq _ _)) by done.
  eapply wp_post; [by apply (idup_step (t_view t) st ic wk cwd x)|].
  intros ip s (->&->&Hc'&Hrefs). eapply (namex_loop devsw g st t L); [done..|].
  exists st, (<[cwd := set_ref (i_ref x + 1) x]> ic), wk, (set_ref (i_ref x + 1) x). split_and!; try done.
  - by rewrite length_insert.
  - apply list_lookup_insert_eq. by eapply lookup_lt_Some.
  - simpl. lia.
  - right. simpl. lia.
Qed.

(** ** A file system with a root directory, on which the theorems of [FsDir] and
    [FsPath] are applied: inode 1 is the root with the entries ".", ".." and
    "a", inode 2 the empty file "a"; block 5 holds the directory. *)
Definition rt_inode : inode := mkInode 1 1 1 I_VALID T_DIR 0 0 1 48 (5 :: replicate 12 0).
Definition rt_a : inode := mkInode 1 2 1 0 T_FILE 0 0 1 0 (replicate 13 0).
Definition rt_inodes : list Z :=
  put_dinode (dip_off 2) rt_a (put_dinode (dip_off 1) rt_inode zero_block).
Definition rt_entries : list Z :=
  new_entry [46; 0] 1 ++ new_entry [46; 46; 0] 1 ++ new_entry [97; 0] 2.
Definition rt_img : list (list Z) :=
  [zero_block; fs_sb; rt_inodes; zero_block; fs_bitmap1; splice 0 rt_entries zero_block] ++ replicate 34 zero_block.
Definition rt_state : lst := state_of ((bootlog;; begin_trans) (mkL (boot rt_img) log0)).
Definition rt_disk : tdisk := t_begin (t_idle (recovered (sb_start rt_img) rt_img)).
Lemma rt_rep : lst_rep fs_geo rt_state rt_disk.
Proof.
  apply boot_begin; [split|..].
  - apply blocks_vm. by vm_compute.
  - apply (bool_decide_unpack _). by vm_compute.
  - apply (bool_decide_unpack _). by vm_compute.
  - by vm_compute.
  - done.
Qed.
Lemma rt_ok : fs_ok fs_geo (t_view rt_disk).
Proof. apply fs_ok_vm. by vm_compute. Qed.
Lemma rt_fits n : (n <= 5)%nat -> fits fs_geo rt_disk fs_L n 2.
Proof. exact (fs_fits n). Qed.
Lemma rt_inode_ok : inode_ok fs_geo (t_view rt_disk) (i_addrs rt_inode).
Proof.
  split; [done|..].
  - intros y ->%orphan_owns. apply (bool_decide_unpack _). by vm_compute.
  - intros y ->%orphan_owns. by vm_compute.
  - intros b b' Hb Hb'. rewrite !orphan_blk by done. repeat case_decide; (done || congruence).
  - intros b Hb. rewrite orphan_blk by done. change (ind_of (i_addrs rt_inode)) with 0. done.
Qed.
Lemma rt_no_holes : no_holes (t_view rt_disk) rt_inode.
Proof.
  intros p Hp. change (i_size rt_inode) with 48 in Hp. unfold BSIZE. rewrite Z.div_small by lia.
  change (i_addrs rt_inode) with (i_addrs fs_orphan). by rewrite orphan_blk.
Qed.
Lemma rt_dir : dir_ok fs_geo rt_disk [rt_inode] 0 rt_inode fs_L.
Proof.
  split; [done..|apply rt_ok|apply rt_inode_ok| |apply rt_no_holes|done|].
  - apply (bool_decide_unpack _). by vm_compute.
  - eapply fits_le; [apply (rt_fits 0)|..]; lia.
Qed.
Lemma rt_cache : ic_ok [rt_inode].
Proof.
  split.
  - intros [|i] [|j] x y; simpl; intros [= <-] [= <-]; (done || lia).
  - intros [|i] x; simpl; intros [= <-]; simpl; lia.
Qed.
(** The name "a" is entry 2, the name "b" is free and would be entry 3. *)
Lemma rt_find_a : dir_find (dir_bytes rt_disk rt_inode) (nents rt_inode) [97; 0] = Some 2.
Proof. by vm_compute. Qed.
Lemma rt_find_b : dir_find (dir_bytes rt_disk rt_inode) (nents rt_inode) [98; 0] = None.
Proof. by vm_compute. Qed.
Lemma rt_slot : dir_slot (dir_bytes rt_disk rt_inode) (nents rt_inode) = 3.
Proof. by vm_compute. Qed.
Lemma rt_writable : writable fs_geo rt_disk [rt_inode] 0 rt_inode fs_L (DIRENT_SZ * 3) DIRENT_SZ.
Proof.
  split; [done|done|done|apply (bool_decide_unpack _); by vm_compute..|apply rt_no_holes| |].
  - apply (bool_decide_unpack _). by vm_compute.
  - split; try done.
    + apply rt_ok.
    + apply rt_inode_ok.
    + apply fs_bm.
    + apply rt_fits, Nat.leb_le. by vm_compute.
    + apply Nat.leb_le. by vm_compute.
Qed.

Abbreviation nodev := (fun _ => None).
Lemma dirlookup_correct_witness :
  let inum := de_inum (dent (dir_bytes rt_disk rt_inode) 2) in
  wp (dirlookup nodev 0 [97; 0]) (fun e => exists st' : lst, iget_fails (mkFs st' [rt_inode] []) 1 inum e)
    (fun r s => exists ip st', r = Some (ip, DIRENT_SZ * 2) /\ lst_rep fs_geo st' rt_disk /\
      iget_returns (mkFs st' [rt_inode] []) 1 inum ip s) (mkFs rt_state [rt_inode] []).
Proof.
  pose proof (dirlookup_correct nodev fs_geo rt_state [rt_inode] [] 0 rt_inode rt_disk fs_L [97; 0]
    rt_rep rt_dir rt_cache) as H. rewrite rt_find_a in H. exact H.
Defined.

Lemma dirlink_correct_witness :
  let f := dir_bytes rt_disk rt_inode in
  wp (dirlink nodev 0 [98; 0] 2) noerr (fun r s => r = 0 /\ exists st' t' x' L',
    s = mkFs st' (<[O := x']> [rt_inode]) [] /\ lst_rep fs_geo st' t' /\ dir_ok fs_geo t' (<[O := x']> [rt_inode]) 0 x' L' /\
    after_write fs_geo rt_disk rt_inode (new_entry [98; 0] 2) (DIRENT_SZ * dir_slot f (nents rt_inode)) DIRENT_SZ t' x' /\
    (forall nm, dir_find (dir_bytes t' x') (nents x') nm =
      if decide (same_name nm [98; 0]) then Some (dir_slot f (nents rt_inode)) else dir_find f (nents rt_inode) nm) /\
    de_inum (dent (dir_bytes t' x') (dir_slot f (nents rt_inode))) = 2) (mkFs rt_state [rt_inode] []).
Proof.
  refine (dirlink_correct nodev fs_geo rt_state [rt_inode] [] 0 rt_inode rt_disk fs_L [98; 0] 2
    rt_rep rt_dir rt_cache rt_find_b _ _ _).
  - lia.
  - apply (bool_decide_unpack _). by vm_compute.
  - rewrite rt_slot. exact rt_writable.
Defined.

Lemma dirlink_exists_witness :
  wp (dirlink nodev 0 [97; 0] 1)
    (fun e => exists st' : lst, iget_fails (mkFs st' [rt_inode] []) 1 (de_inum (dent (dir_bytes rt_disk rt_inode) 2)) e)
    (fun r s => r = -1 /\ exists st' ic', s = mkFs st' ic' [] /\ lst_rep fs_geo st' rt_disk /\
      forall i y, [rt_inode] !! i = Some y -> 0 < i_ref y -> ic' !! i = Some y) (mkFs rt_state [rt_inode] []).
Proof.
  exact (dirlink_exists nodev fs_geo rt_state [rt_inode] [] 0 rt_inode rt_disk fs_L [97; 0] 1 2
    rt_rep rt_dir rt_cache rt_find_a).
Defined.

(** The whole tree: the root is its only directory. *)
Lemma rt_only_dir i : 0 <= i < sb_ninodes (sb_of (t_view rt_disk)) -> i_type (dnode (t_view rt_disk) i) = T_DIR -> i = 1.
Proof.
  assert (Hall : Forall (fun i => i_type (dnode (t_view rt_disk) i) = T_DIR -> i = 1)
    (seqZ 0 (sb_ninodes (sb_of (t_view rt_disk))))) by (apply (bool_decide_unpack _); by vm_compute).
  rewrite Forall_forall in Hall. intros Hi. apply Hall, elem_of_seqZ. lia.
Qed.
Lemma rt_dnode : dnode (t_view rt_disk) 1 = set_iflags 0 (set_ref 0 rt_inode).
Proof. by vm_compute. Qed.
Lemma rt_tree : tree_ok fs_geo (t_view rt_disk).
Proof.
  split; [apply rt_ok|..].
  - intros i Hi Hd. apply rt_only_dir in Hd as ->; [|done]. rewrite rt_dnode.
    split_and!; [apply rt_inode_ok|done..|apply rt_no_holes].
  - intros i k Hi Hd. apply rt_only_dir in Hd as ->; [|done]. rewrite rt_dnode. intros Hk. cbv zeta.
    change (nents (set_iflags 0 (set_ref 0 rt_inode))) with 3 in Hk.
    set (P := fun k => let n := de_inum (dent (fbyte (t_view rt_disk) (i_addrs (set_iflags 0 (set_ref 0 rt_inode)))) k) in
      n <> 0 -> 0 < n < sb_ninodes (sb_of (t_view rt_disk)) /\ i_type (dnode (t_view rt_disk) n) <> 0 /\
      i_nlink (dnode (t_view rt_disk) n) <> 0).
    assert (Hall : Forall P (seqZ 0 3)) by (apply (bool_decide_unpack _); by vm_compute).
    rewrite Forall_forall in Hall. apply (Hall k), elem_of_seqZ. lia.
Qed.
Lemma rt_root : root_ok (t_view rt_disk).
Proof. apply (bool_decide_unpack _). by vm_compute. Qed.
(** The cache: the root, the current directory, and one free entry. *)
Definition rt_icache : list inode := [rt_inode; mkInode 0 0 0 0 0 0 0 0 0 []].
Lemma rt_cache_ok : cache_ok (t_view rt_disk) None rt_icache.
Proof.
  split_and!; [split|..].
  - intros [|[|i]] [|[|j]] x y; simpl; intros [= <-] [= <-]; simpl; (done || lia).
  - intros [|[|i]] x; simpl; intros [= <-]; simpl; lia.
  - intros [|[|i]] x Hx Hr; simpl in Hx; [injection Hx as <-|injection Hx as <-; simpl in Hr; lia|done].
    split; [done|apply (bool_decide_unpack _); by vm_compute..|].
    right. rewrite bool_decide_eq_false_2 by done. split; [done|]. by vm_compute.
  - done.
Qed.
(** "/a" is inode 2. *)
Lemma namex_correct_witness :
  target false (t_view rt_disk) ROOTINO (path_elems [SLASH; 97; 0]) = Some (2, []) /\
  wp (namex nodev 0 [SLASH; 97; 0] false (replicate DIRSIZ 0)) (no_entry (length rt_icache) 1 (refs rt_icache))
    (walked fs_geo rt_disk (refs rt_icache) false
      (target false (t_view rt_disk) ROOTINO (path_elems [SLASH; 97; 0]))) (mkFs rt_state rt_icache []).
Proof.
  split; [by vm_compute|].
  refine (namex_correct nodev fs_geo rt_state rt_icache [] 0 rt_inode rt_disk fs_L false [SLASH; 97; 0] (replicate DIRSIZ 0)
    rt_rep rt_tree rt_root eq_refl _ rt_cache_ok eq_refl _ _).
  - eapply fits_le; [apply (rt_fits 0)|..]; lia.
  - simpl. lia.
  - by vm_compute.
Defined.

(** ** The allocator and the log *)

(** A disk without a free data block. *)
Definition full_img : list (list Z) :=
  [zero_block; fs_sb; zero_block; zero_block; wr 4 0 0x3FFFFFFF zero_block] ++ replicate 35 zero_block.
(** The bitmap that mkfs writes marks the blocks in use by files; the blocks
    of the log, at the end of the disk, are never marked, and balloc looks
    at all sb.size bits.  On a disk whose data blocks 5 to 29 are all in use,
    balloc does not report that the disk is full: it zeroes and returns
    block 30, the header of the log. *)
Lemma balloc_returns_log_block :
  match (bootlog;; begin_trans) (mkL (boot full_img) log0) with
  | Ok _ st => match balloc 1 (mkFs st [] []) with
               | Ok b _ => b = sb_start full_img
               | Fail _ => False
               end
  | Fail _ => False
  end.
Proof. by vm_compute. Qed.
