(* ===== verification/Ide.v ===== *)
(** ide.c: the driver of the IDE disk.

    The controller is not part of the sources: [IdeDevice] states what the
    driver relies on (the task-file registers, the status byte, and what the
    READ and WRITE commands do, errors included), and the driver is written over it.  The
    state is the array of buffers, their [qnext] links, the head of the
    queue, [havedisk1] and the controller.  The code under [idelock] is one
    step; iderw is cut where it sleeps, so its steps and those of ideintr
    interleave freely. *)
From S2P Require Import Prelude Params Bio BioSpec.

Definition IDE_BSY : Z := 0x80.
Definition IDE_DRDY : Z := 0x40.
Definition IDE_DF : Z := 0x20.
Definition IDE_ERR : Z := 0x01.
Definition IDE_CMD_READ : Z := 0x20.
Definition IDE_CMD_WRITE : Z := 0x30.

Definition status_ready (r : Z) : bool := Z.land r (Z.lor IDE_BSY IDE_DRDY) =? IDE_DRDY.
Definition status_fault (r : Z) : bool := negb (Z.land r (Z.lor IDE_DF IDE_ERR) =? 0).

(** ** The controller *)

(** Registers the driver writes before a command. *)
Definition task_file (p : Z) : Prop := p ∈ [0x3f6; 0x1f2; 0x1f3; 0x1f4; 0x1f5; 0x1f6].
Class IdeDevice (D : Type) := {
  dv_inb : D -> Z * D;             (* inb(0x1f7) *)
  dv_outb : Z -> Z -> D -> D;      (* outb(port, value) *)
  dv_outsl : list Z -> D -> D;     (* outsl(0x1f0, data, 512/4) *)
  dv_insl : D -> list Z * D;       (* insl(0x1f0, data, 512/4) *)
  (** polls of the status until the controller is ready, whether it then
      reports an error (DF or ERR), whether it asks for the data of a write
      (DRQ) and whether data was sent to it when it did not, its registers,
      the command (drive, sector, write?) it executes, and the sectors of its
      two drives as they are once that command has ended *)
  dv_delay : D -> nat;
  dv_fault : D -> bool;
  dv_drq : D -> bool;
  dv_lost : D -> bool;
  dv_reg : D -> Z -> Z;
  dv_cmd : D -> option (Z * Z * bool);
  dv_sector : D -> Z -> Z -> list Z;
  (** the address in the registers *)
  dv_addr (d : D) : Z * Z :=
    (Z.land (Z.shiftr (dv_reg d 0x1f6) 4) 1,
     dv_reg d 0x1f3 + 2 ^ 8 * dv_reg d 0x1f4 + 2 ^ 16 * dv_reg d 0x1f5 + 2 ^ 24 * Z.land (dv_reg d 0x1f6) 0x0f);
  inb_ok d : let (r, d') := dv_inb d in
    status_ready r = (dv_delay d =? 0)%nat /\ (dv_delay d = O -> status_fault r = dv_fault d) /\
    dv_delay d' = pred (dv_delay d) /\ dv_fault d' = dv_fault d /\ dv_lost d' = dv_lost d /\ dv_cmd d' = dv_cmd d /\
    dv_reg d' = dv_reg d /\ dv_sector d' = dv_sector d;
  outb_reg_ok d p x : dv_delay d = O -> task_file p -> let d' := dv_outb p x d in
    dv_delay d' = O /\ (forall q, dv_reg d' q = if q =? p then x else dv_reg d q) /\ dv_sector d' = dv_sector d;
  outb_read_ok d : dv_delay d = O -> dv_reg d 0x1f2 = 1 -> let d' := dv_outb 0x1f7 IDE_CMD_READ d in
    dv_cmd d' = Some (dv_addr d, false) /\ dv_lost d' = false /\ dv_sector d' = dv_sector d;
  outb_write_ok d : dv_delay d = O -> dv_reg d 0x1f2 = 1 -> let d' := dv_outb 0x1f7 IDE_CMD_WRITE d in
    dv_cmd d' = Some (dv_addr d, true) /\ dv_sector d' = dv_sector d;
  (** A write changes its own sector only.  The sector gets the data when the
      controller asked for it and ends the command without an error;
      otherwise nothing is known of its 512 bytes. *)
  outsl_ok d a b data : dv_cmd d = Some (a, b, true) -> length data = 512%nat -> let d' := dv_outsl data d in
    dv_lost d' = negb (dv_drq d) /\ length (dv_sector d' a b) = 512%nat /\
    (dv_lost d' = false -> dv_fault d' = false -> dv_sector d' a b = data) /\
    (forall a' b', (a', b') <> (a, b) -> dv_sector d' a' b' = dv_sector d a' b');
  insl_ok d a b : dv_cmd d = Some (a, b, false) -> dv_delay d = O -> dv_fault d = false ->
    (dv_insl d).1 = dv_sector d a b /\ dv_sector (dv_insl d).2 = dv_sector d }.

(** ** The driver *)
Section driver.
Context {D : Type} `{IdeDevice D}.

Record ide := mkIde {
  i_bufs : list buf; i_qnext : list (option nat); idequeue : option nat; havedisk1 : bool;
  i_ctl : D; i_wake : list chan }.

Definition ctl {A} (f : D -> A * D) : K ide A := fun s =>
  let (a, d) := f (i_ctl s) in
  Ok a (mkIde (i_bufs s) (i_qnext s) (idequeue s) (havedisk1 s) d (i_wake s)).
Definition inb (port : Z) : K ide Z := ctl dv_inb.
Definition outb (port x : Z) : K ide unit := ctl (fun d => (tt, dv_outb port x d)).
Definition outsl (data : list Z) : K ide unit := ctl (fun d => (tt, dv_outsl data d)).
Definition insl : K ide (list Z) := ctl dv_insl.
Definition ibuf (i : nat) : K ide buf := fun s =>
  match i_bufs s !! i with Some b => Ok b s | None => Fail Undef end.
Definition set_ibuf (i : nat) (f : buf -> buf) : K ide unit :=
  modify (fun s => mkIde (alter f i (i_bufs s)) (i_qnext s) (idequeue s) (havedisk1 s) (i_ctl s) (i_wake s)).
Definition get_qnext (i : nat) : K ide (option nat) := fun s =>
  match i_qnext s !! i with Some q => Ok q s | None => Fail Undef end.
Definition set_qnext (i : nat) (q : option nat) : K ide unit :=
  modify (fun s => mkIde (i_bufs s) (<[i := q]> (i_qnext s)) (idequeue s) (havedisk1 s) (i_ctl s) (i_wake s)).
Definition set_idequeue (q : option nat) : K ide unit :=
  modify (fun s => mkIde (i_bufs s) (i_qnext s) q (havedisk1 s) (i_ctl s) (i_wake s)).
Definition wakeup_buf (i : nat) : K ide unit :=
  modify (fun s => mkIde (i_bufs s) (i_qnext s) (idequeue s) (havedisk1 s) (i_ctl s) (ChBuf i :: i_wake s)).

(** Wait for IDE disk to become ready.  The loop ends after the controller's
    delay. *)
Definition idewait (checkerr : bool) : K ide Z :=
  d <- gets i_ctl;;
  r <- while (S (dv_delay d)) (fun _ =>
    r <- inb 0x1f7;;
    if status_ready r then ret (inr r) else ret (inl tt)) tt;;
  if checkerr && status_fault r then ret (-1) else ret 0.

Definition ideinit : K ide unit :=
  idewait false;;
  outb 0x1f6 (Z.lor 0xe0 (Z.shiftl 1 4));;
  r <- for_find 1000 0 (fun _ =>
    r <- inb 0x1f7;;
    if negb (r =? 0) then ret (Some tt) else ret None);;
  when (bool_decide (r = Some tt))
    (modify (fun s => mkIde (i_bufs s) (i_qnext s) (idequeue s) true (i_ctl s) (i_wake s)));;
  outb 0x1f6 (Z.lor 0xe0 (Z.shiftl 0 4)).

(** Start the request for b. *)
Definition idestart (b : nat) : K ide unit :=
  idewait false;;
  outb 0x3f6 0;;
  outb 0x1f2 1;;
  x <- ibuf b;;
  outb 0x1f3 (Z.land (b_sector x) 0xff);;
  outb 0x1f4 (Z.land (Z.shiftr (b_sector x) 8) 0xff);;
  outb 0x1f5 (Z.land (Z.shiftr (b_sector x) 16) 0xff);;
  outb 0x1f6 (Z.lor (Z.lor 0xe0 (Z.shiftl (Z.land (b_dev x) 1) 4)) (Z.land (Z.shiftr (b_sector x) 24) 0x0f));;
  if has (b_flags x) B_DIRTY then
    outb 0x1f7 IDE_CMD_WRITE;;
    outsl (b_data x)
  else
    outb 0x1f7 IDE_CMD_READ.

(** Interrupt handler. *)
Definition ideintr : K ide unit :=
  q <- gets idequeue;;
  match q with
  | None => ret tt
  | Some b =>
      n <- get_qnext b;;
      set_idequeue n;;
      x <- ibuf b;;
      (if negb (has (b_flags x) B_DIRTY) then
         r <- idewait true;;
         if 0 <=? r then d <- insl;; set_ibuf b (set_data d) else ret tt
       else ret tt);;
      set_ibuf b (fun x => set_flags (fset B_VALID (b_flags x)) x);;
      set_ibuf b (fun x => set_flags (fclr B_DIRTY (b_flags x)) x);;
      wakeup_buf b;;
      q <- gets idequeue;;
      match q with
      | Some b => idestart b
      | None => ret tt
      end
  end.

(** The loop over the qnext links to the last buffer of a non-empty queue. *)
Definition queue_last (h : nat) : K ide nat :=
  n <- gets (fun s => length (i_qnext s));;
  while (S n) (fun i => q <- get_qnext i;; match q with Some j => ret (inl j) | None => ret (inr i) end) h.

(** iderw up to its wait. *)
Definition iderw_start (b : nat) : K ide unit :=
  x <- ibuf b;;
  if negb (has (b_flags x) B_BUSY) then panic "iderw: buf not busy" else
  if Z.land (b_flags x) (Z.lor B_VALID B_DIRTY) =? B_VALID then panic "iderw: nothing to do" else
  h1 <- gets havedisk1;;
  if negb (b_dev x =? 0) && negb h1 then panic "iderw: ide disk 1 not present" else
  set_qnext b None;;
  q <- gets idequeue;;
  match q with
  | None => set_idequeue (Some b)
  | Some h => l <- queue_last h;; set_qnext l (Some b)
  end;;
  q <- gets idequeue;;
  when (bool_decide (q = Some b)) (idestart b).
(** while((b->flags & (B_VALID|B_DIRTY)) != B_VALID) sleep(b, &idelock); *)
Definition iderw_wait (b : nat) : K ide unit :=
  x <- ibuf b;;
  if Z.land (b_flags x) (Z.lor B_VALID B_DIRTY) =? B_VALID then ret tt else fail (Sleep (ChBuf b)).
End driver.
Arguments ide D : clear implicits.
