(* ===== verification/IdeThms.v ===== *)
(** The IDE driver against its contract: the requests queued by iderw take
    effect one after the other, in the order of the calls, each atomically
    when its interrupt is handled. *)
From S2P Require Import Prelude Params Bio BioSpec Ide.

(** ** Addresses *)
Definition drive (x : buf) : Z := Z.land (b_dev x) 1.
Definition lba (x : buf) : Z := b_sector x mod 2 ^ 28.

Section bits.
Lemma land_mask z k : 0 <= k -> Z.land z (2 ^ k - 1) = z mod 2 ^ k.
Proof. intros. by rewrite <- Z.land_ones, Z.ones_equiv, <- Z.sub_1_r by lia. Qed.
Lemma head_bits d n : 0 <= d < 2 -> 0 <= n < 16 ->
  let r := Z.lor (Z.lor 0xe0 (Z.shiftl d 4)) n in Z.land (Z.shiftr r 4) 1 = d /\ Z.land r 0x0f = n.
Proof.
  intros Hd Hn r.
  assert (Hall : forallb (fun d => forallb (fun n => let r := Z.lor (Z.lor 0xe0 (Z.shiftl d 4)) n in
    (Z.land (Z.shiftr r 4) 1 =? d) && (Z.land r 0x0f =? n)) (seqZ 0 16)) (seqZ 0 2) = true) by (by vm_compute).
  rewrite forallb_forall in Hall. specialize (Hall d ltac:(apply list_elem_of_In, elem_of_seqZ; lia)).
  rewrite forallb_forall in Hall. specialize (Hall n ltac:(apply list_elem_of_In, elem_of_seqZ; lia)).
  cbv zeta in Hall. apply andb_prop in Hall as [?%Z.eqb_eq ?%Z.eqb_eq]. done.
Qed.
Lemma lba_bytes z : 
  z mod 2 ^ 8 + 2 ^ 8 * (z / 2 ^ 8 mod 2 ^ 8) + 2 ^ 16 * (z / 2 ^ 16 mod 2 ^ 8) + 2 ^ 24 * (z / 2 ^ 24 mod 2 ^ 4) = z mod 2 ^ 28.
Proof.
  assert (H16 : z / 2 ^ 16 = z / 2 ^ 8 / 2 ^ 8) by (rewrite Z.div_div by lia; done).
  assert (H24 : z / 2 ^ 24 = z / 2 ^ 8 / 2 ^ 8 / 2 ^ 8) by (rewrite !Z.div_div by lia; done).
  rewrite H24, H16. set (q1 := z / 2 ^ 8). set (q2 := q1 / 2 ^ 8). set (q3 := q2 / 2 ^ 8).
  pose proof (Z.div_mod z (2 ^ 8) ltac:(lia)). pose proof (Z.div_mod q1 (2 ^ 8) ltac:(lia)).
  pose proof (Z.div_mod q2 (2 ^ 8) ltac:(lia)). pose proof (Z.div_mod q3 (2 ^ 4) ltac:(lia)).
  pose proof (Z.mod_pos_bound z (2 ^ 8) ltac:(lia)). pose proof (Z.mod_pos_bound q1 (2 ^ 8) ltac:(lia)).
  pose proof (Z.mod_pos_bound q2 (2 ^ 8) ltac:(lia)). pose proof (Z.mod_pos_bound q3 (2 ^ 4) ltac:(lia)).
  apply Z.mod_unique with (q3 / 2 ^ 4); [left|]; lia.
Qed.
End bits.

Section driver.
Context {D : Type} `{IdeDevice D}.
Implicit Types (s : ide D) (x : buf) (d : D) (q : list nat) (i : nat).

Definition with_ctl s d : ide D := mkIde (i_bufs s) (i_qnext s) (idequeue s) (havedisk1 s) d (i_wake s).
Lemma with_ctl_id s : with_ctl s (i_ctl s) = s.
Proof. by destruct s. Qed.

(** Nothing but the status of the controller may have changed. *)
Definition polled d d' : Prop :=
  dv_fault d' = dv_fault d /\ dv_lost d' = dv_lost d /\ dv_cmd d' = dv_cmd d /\ dv_reg d' = dv_reg d /\ dv_sector d' = dv_sector d.

Lemma idewait_ok chk s E (Q : Z -> ide D -> Prop) :
  (forall d', polled (i_ctl s) d' -> dv_delay d' = O ->
     Q (if chk && dv_fault (i_ctl s) then -1 else 0) (with_ctl s d')) ->
  wp (idewait chk) E Q s.
Proof.
  intros HQ. unfold idewait. apply wp_bind, wp_gets, wp_bind. set (d0 := i_ctl s) in *.
  apply (wp_while_state (fun _ s' => exists d, s' = with_ctl s d /\ polled d0 d) (fun _ s' => dv_delay (i_ctl s'))).
  - exists d0. split; [by rewrite with_ctl_id|done].
  - cbv beta. fold d0. lia.
  - intros [] s' (d&->&Hp). apply wp_bind. unfold wp at 1, inb, ctl. cbn [with_ctl i_ctl i_bufs i_qnext idequeue havedisk1 i_wake].
    pose proof (inb_ok d) as Hin. destruct (dv_inb d) as [r d'].
    destruct Hin as (Hrd&Hft&Hdl&Hf&Hlo&Hc&Hg&Hs). destruct Hp as (Hp1&Hp2&Hp3&Hp4&Hp5).
    assert (Hp' : polled d0 d') by (unfold polled; split_and!; congruence).
    destruct (Nat.eqb_spec (dv_delay d) 0) as [H0|H0]; rewrite Hrd.
    + apply wp_ret. rewrite (Hft H0), Hp1. specialize (HQ d' Hp' ltac:(rewrite Hdl, H0; done)).
      destruct (chk && dv_fault d0); by apply wp_ret.
    + apply wp_ret. split; [by exists d'|]. cbn [i_ctl with_ctl]. lia.
Qed.

Lemma wp_outb s p v E (Q : unit -> ide D -> Prop) :
  Q tt (with_ctl s (dv_outb p v (i_ctl s))) -> wp (outb p v) E Q s.
Proof. done. Qed.
Lemma wp_outsl s v E (Q : unit -> ide D -> Prop) :
  Q tt (with_ctl s (dv_outsl v (i_ctl s))) -> wp (outsl v) E Q s.
Proof. done. Qed.
Lemma wp_ibuf s i x E (Q : buf -> ide D -> Prop) : i_bufs s !! i = Some x -> Q x s -> wp (ibuf i) E Q s.
Proof. intros Hx HQ. unfold wp, ibuf. by rewrite Hx. Qed.

(** The sectors after a request. *)
Definition put_sector (f : Z -> Z -> list Z) (a b : Z) (data : list Z) : Z -> Z -> list Z :=
  fun a' b' => if (a' =? a) && (b' =? b) then data else f a' b'.
(** The command under way fails: the controller reports an error, or did not
    ask for the data it was sent. *)
Definition failed d : bool := dv_fault d || dv_lost d.
(** The request for [x] is with the controller, which had the sectors [disk]:
    a write that does not fail has its data in its sector. *)
Definition started x (disk : Z -> Z -> list Z) d : Prop :=
  if has (b_flags x) B_DIRTY
  then exists data, length data = 512%nat /\ (failed d = false -> data = b_data x) /\
    forall a b, dv_sector d a b = put_sector disk (drive x) (lba x) data a b
  else dv_cmd d = Some (drive x, lba x, false) /\ dv_lost d = false /\ forall a b, dv_sector d a b = disk a b.

Lemma idestart_ok s i x E :
  i_bufs s !! i = Some x -> length (b_data x) = 512%nat ->
  wp (idestart i) E (fun _ s' => exists d', s' = with_ctl s d' /\ started x (dv_sector (i_ctl s)) d') s.
Proof.
  intros Hx Hl. unfold idestart. apply wp_bind, idewait_ok. intros d0 (_&_&_&_&Hs0) Hd0.
  do 2 (apply wp_bind, wp_outb). cbn [with_ctl i_ctl i_bufs i_qnext idequeue havedisk1 i_wake].
  apply wp_bind, (wp_ibuf _ i x); [done|].
  do 4 (apply wp_bind, wp_outb). cbn [with_ctl i_ctl i_bufs i_qnext idequeue havedisk1 i_wake].
  set (v3 := Z.land (b_sector x) 0xff). set (v4 := Z.land (Z.shiftr (b_sector x) 8) 0xff).
  set (v5 := Z.land (Z.shiftr (b_sector x) 16) 0xff).
  set (v6 := Z.lor (Z.lor 0xe0 (Z.shiftl (Z.land (b_dev x) 1) 4)) (Z.land (Z.shiftr (b_sector x) 24) 0x0f)).
  assert (Htf : forall p, p ∈ [0x3f6; 0x1f2; 0x1f3; 0x1f4; 0x1f5; 0x1f6] -> task_file p) by done.
  destruct (outb_reg_ok d0 0x3f6 0 Hd0) as (H1&R1&S1); [apply Htf; set_solver|]. set (d1 := dv_outb 0x3f6 0 d0) in *.
  destruct (outb_reg_ok d1 0x1f2 1 H1) as (H2&R2&S2); [apply Htf; set_solver|]. set (d2 := dv_outb 0x1f2 1 d1) in *.
  destruct (outb_reg_ok d2 0x1f3 v3 H2) as (H3&R3&S3); [apply Htf; set_solver|]. set (d3 := dv_outb 0x1f3 v3 d2) in *.
  destruct (outb_reg_ok d3 0x1f4 v4 H3) as (H4&R4&S4); [apply Htf; set_solver|]. set (d4 := dv_outb 0x1f4 v4 d3) in *.
  destruct (outb_reg_ok d4 0x1f5 v5 H4) as (H5&R5&S5); [apply Htf; set_solver|]. set (d5 := dv_outb 0x1f5 v5 d4) in *.
  destruct (outb_reg_ok d5 0x1f6 v6 H5) as (H6&R6&S6); [apply Htf; set_solver|]. set (d6 := dv_outb 0x1f6 v6 d5) in *.
  assert (Hsec : dv_sector d6 = dv_sector (i_ctl s)) by congruence.
  assert (Hreg : dv_reg d6 0x1f2 = 1) by (rewrite R6, R5, R4, R3, R2; done).
  assert (Haddr : dv_addr d6 = (drive x, lba x)).
  { unfold dv_addr. rewrite !R6, !R5, !R4, !R3. change (0x1f6 =? 0x1f6) with true. change (0x1f3 =? 0x1f6) with false.
    change (0x1f4 =? 0x1f6) with false. change (0x1f5 =? 0x1f6) with false. change (0x1f3 =? 0x1f5) with false.
    change (0x1f4 =? 0x1f5) with false. change (0x1f5 =? 0x1f5) with true. change (0x1f3 =? 0x1f4) with false.
    change (0x1f4 =? 0x1f4) with true. change (0x1f3 =? 0x1f3) with true. cbv iota.
    unfold drive, lba. pose proof (land_mask (b_dev x) 1 ltac:(lia)) as Hm. change (2 ^ 1 - 1) with 1 in Hm.
    pose proof (Z.mod_pos_bound (b_dev x) (2 ^ 1) ltac:(lia)).
    pose proof (land_mask (Z.shiftr (b_sector x) 24) 4 ltac:(lia)) as Hm4. change (2 ^ 4 - 1) with 0x0f in Hm4.
    pose proof (Z.mod_pos_bound (Z.shiftr (b_sector x) 24) (2 ^ 4) ltac:(lia)).
    destruct (head_bits (Z.land (b_dev x) 1) (Z.land (Z.shiftr (b_sector x) 24) 0x0f)) as [Hh1 Hh2]; [lia|lia|].
    fold v6 in Hh1, Hh2. rewrite Hh1, Hh2. f_equal. rewrite Hm4. unfold v3, v4, v5. change 0xff with (2 ^ 8 - 1).
    rewrite !land_mask, !Z.shiftr_div_pow2 by lia. apply lba_bytes. }
  unfold started. destruct (has (b_flags x) B_DIRTY).
  - apply wp_bind, wp_outb, wp_outsl. cbn [with_ctl i_ctl i_bufs i_qnext idequeue havedisk1 i_wake].
    eexists. split; [done|]. destruct (outb_write_ok d6 H6 Hreg) as [Hc Hs]. rewrite Haddr in Hc.
    destruct (outsl_ok _ _ _ _ Hc Hl) as (_&Hl'&Hgot&Hoth). eexists. split; [exact Hl'|]. split.
    + unfold failed. intros [Hf Hlo]%orb_false_elim. by apply Hgot.
    + intros a b. unfold put_sector. destruct (decide ((a, b) = (drive x, lba x))) as [[= -> ->]|Hne]; [by rewrite !Z.eqb_refl|].
      rewrite Hoth, Hs, Hsec by done. destruct (Z.eqb_spec a (drive x)) as [->|], (Z.eqb_spec b (lba x)) as [->|]; done.
  - apply wp_outb. cbn [with_ctl i_ctl i_bufs i_qnext idequeue havedisk1 i_wake].
    eexists. split; [done|]. destruct (outb_read_ok d6 H6 Hreg) as (Hc&Hlo&Hs). rewrite Haddr in Hc.
    split_and!; [done|done|]. intros a b. by rewrite Hs, Hsec.
Qed.
End driver.

(** ** The queue *)
Fixpoint chain (qn : list (option nat)) (h : option nat) (q : list nat) : Prop :=
  match q with
  | [] => h = None
  | i :: q => h = Some i /\ exists n, qn !! i = Some n /\ chain qn n q
  end.

Section queue.
Implicit Types (qn : list (option nat)) (q : list nat) (h : option nat) (i l b : nat).

Lemma qchain_frame qn h q b n : b ∉ q -> chain qn h q -> chain (<[b := n]> qn) h q.
Proof.
  revert h. induction q as [|i q IH]; intros h Hb; simpl; [done|]. intros (->&m&Hm&Hc). split; [done|].
  exists m. rewrite list_lookup_insert_ne by set_solver. split; [done|]. apply IH; [set_solver|done].
Qed.
Lemma chain_append qn h q l b :
  chain qn h (q ++ [l]) -> NoDup (q ++ [l]) -> b ∉ q ++ [l] -> qn !! b = Some None ->
  chain (<[l := Some b]> qn) h ((q ++ [l]) ++ [b]).
Proof.
  revert h. induction q as [|i q IH]; intros h; simpl.
  - intros (->&n&Hn&->) _ Hb Hqb. split; [done|]. exists (Some b). split.
    + apply list_lookup_insert_eq. by eapply lookup_lt_Some.
    + split; [done|]. exists None. split; [|done]. rewrite list_lookup_insert_ne; [done|set_solver].
  - intros (->&n&Hn&Hc) [Hi Hnd]%NoDup_cons Hb Hqb. split; [done|]. exists n. split.
    + rewrite list_lookup_insert_ne; [done|set_solver].
    + apply IH; [done|done|set_solver|done].
Qed.
Lemma chain_bound qn h q : chain qn h q -> forall i, i ∈ q -> (i < length qn)%nat.
Proof.
  revert h. induction q as [|j q IH]; intros h; simpl; [set_solver|]. intros (->&n&Hn&Hc) i [->|Hi]%elem_of_cons.
  - by eapply lookup_lt_Some.
  - by eapply IH.
Qed.
(** A list of distinct indices below [n] is no longer than [n]. *)
Lemma NoDup_below (q : list nat) (n : nat) : NoDup q -> (forall i, i ∈ q -> (i < n)%nat) -> (length q <= n)%nat.
Proof.
  intros Hnd Hb. assert (Hs : q ⊆+ seq 0 n).
  { apply NoDup_submseteq; [done|]. intros i Hi%Hb. apply elem_of_seq. lia. }
  apply submseteq_length in Hs. by rewrite length_seq in Hs.
Qed.

Context {D : Type} `{IdeDevice D}.
Lemma queue_last_ok (s : ide D) q l (h : nat) E (Q : nat -> ide D -> Prop) :
  chain (i_qnext s) (Some h) (q ++ [l]) -> NoDup (q ++ [l]) -> Q l s -> wp (queue_last h) E Q s.
Proof.
  intros Hc Hnd HQ. unfold queue_last. apply wp_bind, wp_gets.
  assert (Hlen : (length (q ++ [l]) <= length (i_qnext s))%nat).
  { apply NoDup_below; [done|]. by eapply chain_bound. }
  revert h Hc. rewrite length_app in Hlen. simpl in Hlen.
  assert (Hfuel : (length q < S (length (i_qnext s)))%nat) by lia. revert Hfuel.
  generalize (S (length (i_qnext s))) as fuel. clear Hlen Hnd.
  induction q as [|i q IH]; intros fuel Hfuel h Hc; (destruct fuel as [|fuel]; [simpl in Hfuel; lia|]); cbn [while]; apply wp_bind.
  - destruct Hc as ([= ->]&n&Hn&->). unfold wp at 1, bind, get_qnext. rewrite Hn. by apply wp_ret.
  - destruct Hc as ([= ->]&n&Hn&Hc). unfold wp at 1, bind, get_qnext. rewrite Hn.
    assert (exists j, n = Some j) as [j ->] by (destruct q; destruct Hc as [-> _]; eauto).
    simpl. apply IH; [simpl in Hfuel; lia|done].
Qed.
End queue.

(** ** Runs of the driver *)

(** A process calls iderw on a buffer it holds, goes to sleep in it or returns
    from it; an interrupt is handled ([f]: the request under way failed); the
    holder of a buffer that is not inside iderw changes it. *)
Inductive label := Req (i : nat) | Slp (i : nat) | Intr (f : bool) | Ret (i : nat) | Use (i : nat) (x : buf).

(** The driver, the buffers whose holders are inside iderw, and those of them
    whose holders sleep. *)
Record sys (D : Type) := mkSys { sy_ide : ide D; sy_in : list nat; sy_asleep : list nat }.
Arguments mkSys {D}. Arguments sy_ide {D}. Arguments sy_in {D}. Arguments sy_asleep {D}.

Definition plain_buf (x : buf) : Prop := length (b_data x) = 512%nat.
(** The channels of the calls of wakeup between two states, and who still
    sleeps after them. *)
Definition woken {D} (s s' : ide D) : list chan := take (length (i_wake s') - length (i_wake s)) (i_wake s').
Definition wake_up (w : list chan) (A : list nat) : list nat := filter (fun j => ChBuf j ∉ w) A.
(** An interrupt is handled. *)
Definition intr {D} `{IdeDevice D} (t : sys D) : option (sys D) :=
  match ideintr (sy_ide t) with
  | Ok _ s' => Some (mkSys s' (sy_in t) (wake_up (woken (sy_ide t) s') (sy_asleep t)))
  | Fail _ => None
  end.
Inductive step {D : Type} `{IdeDevice D} : label -> sys D -> sys D -> Prop :=
  | step_req i s s' W A : i ∉ W -> iderw_start i s = Ok tt s' -> step (Req i) (mkSys s W A) (mkSys s' (i :: W) A)
  | step_sleep i s W A : i ∈ W -> i ∉ A -> iderw_wait i s = Fail (Sleep (ChBuf i)) ->
      step (Slp i) (mkSys s W A) (mkSys s W (i :: A))
  | step_intr t t' : intr t = Some t' -> step (Intr (failed (i_ctl (sy_ide t)))) t t'
  | step_ret i s s' W A : i ∈ W -> i ∉ A -> iderw_wait i s = Ok tt s' ->
      step (Ret i) (mkSys s W A) (mkSys s' (filter (fun j => j <> i) W) A)
  | step_use i x s W A : i ∉ W -> (i < length (i_bufs s))%nat -> plain_buf x ->
      step (Use i x) (mkSys s W A)
        (mkSys (mkIde (<[i := x]> (i_bufs s)) (i_qnext s) (idequeue s) (havedisk1 s) (i_ctl s) (i_wake s)) W A).

(** ** The contract *)

(** The disk as two arrays of sectors; requests are served in order, each in
    one step. *)
Record spec := mkSpec { sp_bufs : list buf; sp_disk : Z -> Z -> list Z; sp_q : list nat; sp_in : list nat }.

Definition pending (x : buf) : Prop := has (b_flags x) B_BUSY = true /\
  (Z.land (b_flags x) (Z.lor B_VALID B_DIRTY) =? B_VALID) = false.
Definition ready (x : buf) : Prop := (Z.land (b_flags x) (Z.lor B_VALID B_DIRTY) =? B_VALID) = true.
Definition done_flags (f : Z) : Z := fclr B_DIRTY (fset B_VALID f).
(** A request that does not fail stores the data or gets it.  A read that
    fails leaves the buffer what it had, a write that fails leaves [junk] in
    its sector; the buffer is marked as done in each case. *)
Definition serve (f : bool) (junk : list Z) (disk : Z -> Z -> list Z) (x : buf) : (Z -> Z -> list Z) * buf :=
  if has (b_flags x) B_DIRTY
  then (put_sector disk (drive x) (lba x) (if f then junk else b_data x), set_flags (done_flags (b_flags x)) x)
  else (disk, set_flags (done_flags (b_flags x)) (if f then x else set_data (disk (drive x) (lba x)) x)).

Inductive spec_step (two : bool) : label -> spec -> spec -> Prop :=
  | spec_req i x B disk q W : i ∉ W -> B !! i = Some x -> pending x -> (b_dev x = 0 \/ two = true) ->
      spec_step two (Req i) (mkSpec B disk q W) (mkSpec B disk (q ++ [i]) (i :: W))
  | spec_sleep i B disk q W : i ∈ q -> spec_step two (Slp i) (mkSpec B disk q W) (mkSpec B disk q W)
  | spec_intr f junk i x B disk q W : length junk = 512%nat -> B !! i = Some x ->
      spec_step two (Intr f) (mkSpec B disk (i :: q) W)
        (mkSpec (<[i := (serve f junk disk x).2]> B) (serve f junk disk x).1 q W)
  | spec_spurious f B disk W : spec_step two (Intr f) (mkSpec B disk [] W) (mkSpec B disk [] W)
  | spec_ret i x B disk q W : i ∈ W -> i ∉ q -> B !! i = Some x -> ready x ->
      spec_step two (Ret i) (mkSpec B disk q W) (mkSpec B disk q (filter (fun j => j <> i) W))
  | spec_use i x B disk q W : i ∉ W -> spec_step two (Use i x) (mkSpec B disk q W) (mkSpec (<[i := x]> B) disk q W).

(** The request at the head of the queue is with the controller. *)
Definition with_ctl_head {D} `{IdeDevice D} (B : list buf) (disk : Z -> Z -> list Z) (q : list nat) (d : D) : Prop :=
  match q with
  | [] => forall a b, dv_sector d a b = disk a b
  | i :: _ => exists x, B !! i = Some x /\ started x disk d
  end.
Record refines {D} `{IdeDevice D} (two : bool) (t : sys D) (p : spec) : Prop := {
  rf_two : havedisk1 (sy_ide t) = two;
  rf_bufs : i_bufs (sy_ide t) = sp_bufs p;
  rf_len : length (i_qnext (sy_ide t)) = length (sp_bufs p);
  rf_in : sy_in t = sp_in p;
  rf_plain : Forall plain_buf (sp_bufs p);
  rf_disk : forall a b, length (sp_disk p a b) = 512%nat;
  rf_chain : chain (i_qnext (sy_ide t)) (idequeue (sy_ide t)) (sp_q p);
  rf_nodup : NoDup (sp_q p);
  rf_q : forall i, i ∈ sp_q p -> i ∈ sp_in p /\ exists x, sp_bufs p !! i = Some x /\ pending x;
  rf_done : forall i, i ∈ sp_in p -> i ∉ sp_q p -> exists x, sp_bufs p !! i = Some x /\ ready x;
  (** who sleeps has his request in the queue: no wakeup is lost *)
  rf_asleep : forall i, i ∈ sy_asleep t -> i ∈ sp_q p;
  rf_ctl : with_ctl_head (sp_bufs p) (sp_disk p) (sp_q p) (i_ctl (sy_ide t)) }.

Section sim.
Context {D : Type} `{IdeDevice D}.
Implicit Types (s : ide D) (B : list buf) (x : buf) (q W : list nat) (i : nat) (disk : Z -> Z -> list Z) (two : bool).

Lemma put_sector_plain disk a b data :
  (forall a b, length (disk a b) = 512%nat) -> length data = 512%nat -> forall a' b', length (put_sector disk a b data a' b') = 512%nat.
Proof. intros Hd Hl a' b'. unfold put_sector. by destruct (_ && _). Qed.
Lemma serve_plain f junk disk x : length junk = 512%nat -> plain_buf x -> (forall a b, length (disk a b) = 512%nat) ->
  plain_buf (serve f junk disk x).2 /\ forall a b, length ((serve f junk disk x).1 a b) = 512%nat.
Proof.
  unfold serve, plain_buf. intros Hj Hx Hd. destruct (has (b_flags x) B_DIRTY); cbn [fst snd].
  - split; [done|]. apply put_sector_plain; [done|by destruct f].
  - split; [destruct f; [done|apply Hd]|done].
Qed.
Lemma serve_ready f junk disk x : ready (serve f junk disk x).2.
Proof.
  assert (Hf : b_flags (serve f junk disk x).2 = done_flags (b_flags x)) by (unfold serve; by destruct (has (b_flags x) B_DIRTY)).
  unfold ready. rewrite Hf, valid_clean_test. unfold done_flags. by flags.
Qed.
Lemma pending_not_ready x : pending x -> ready x -> False.
Proof. unfold pending, ready. intros [_ ->] ?. done. Qed.

Lemma wp_get_qnext s i n E (Q : option nat -> ide D -> Prop) : i_qnext s !! i = Some n -> Q n s -> wp (get_qnext i) E Q s.
Proof. intros Hx HQ. unfold wp, get_qnext. by rewrite Hx. Qed.
Definition with_bufs s B : ide D := mkIde B (i_qnext s) (idequeue s) (havedisk1 s) (i_ctl s) (i_wake s).
Lemma alter_same (f : buf -> buf) B i x : B !! i = Some x -> alter f i B = <[i := f x]> B.
Proof.
  intros Hl. apply list_eq. intros j. destruct (decide (i = j)) as [<-|Hij].
  - rewrite list_lookup_alter_eq, Hl. simpl. rewrite list_lookup_insert_eq; [done|]. by eapply lookup_lt_Some.
  - by rewrite list_lookup_alter_ne, list_lookup_insert_ne.
Qed.
Lemma wp_set_ibuf s i x f E (Q : unit -> ide D -> Prop) :
  i_bufs s !! i = Some x -> Q tt (with_bufs s (<[i := f x]> (i_bufs s))) -> wp (set_ibuf i f) E Q s.
Proof. intros Hx HQ. apply wp_modify. by erewrite alter_same. Qed.

(** The part of ideintr that takes the data of a read. *)
Lemma take_data_ok s i x disk E (Q : unit -> ide D -> Prop) :
  let f := failed (i_ctl s) in
  i_bufs s !! i = Some x -> plain_buf x -> started x disk (i_ctl s) ->
  (forall d y junk, length junk = 512%nat -> (forall a b, dv_sector d a b = (serve f junk disk x).1 a b) ->
     set_flags (done_flags (b_flags x)) y = (serve f junk disk x).2 -> b_flags y = b_flags x ->
     Q tt (with_ctl (with_bufs s (<[i := y]> (i_bufs s))) d)) ->
  wp (if negb (has (b_flags x) B_DIRTY) then
        r <- idewait true;;
        if 0 <=? r then d <- insl;; set_ibuf i (set_data d) else ret tt
      else ret tt) E Q s.
Proof.
  intros f Hx Hp Hctl HQ. unfold serve in HQ. unfold started in Hctl. destruct (has (b_flags x) B_DIRTY) eqn:Hd; cbn [negb].
  - destruct Hctl as (data&Hl&Hgot&Hs). apply wp_ret. specialize (HQ (i_ctl s) x data Hl). rewrite list_insert_id in HQ by done.
    replace s with (with_ctl (with_bufs s (i_bufs s)) (i_ctl s)) by (by destruct s). apply HQ; [|done|done].
    intros a b. rewrite Hs. subst f. cbn [fst]. destruct (failed (i_ctl s)); [done|]. by rewrite Hgot.
  - destruct Hctl as (Hc&Hlo&Hs). apply wp_bind, idewait_ok. intros d' (Hf&_&Hc'&_&Hs') Hdl. cbn [andb].
    subst f. unfold failed in HQ. rewrite Hlo, orb_false_r in HQ.
    destruct (dv_fault (i_ctl s)) eqn:Hfault; cbn [fst snd] in HQ.
    + change (0 <=? -1) with false. cbv iota. apply wp_ret. specialize (HQ d' x (b_data x) Hp). rewrite list_insert_id in HQ by done.
      apply HQ; [|done|done]. intros a b. by rewrite Hs', Hs.
    + change (0 <=? 0) with true. cbv iota. apply wp_bind. unfold wp at 1, insl, ctl. cbn [with_ctl i_ctl i_bufs i_qnext idequeue havedisk1 i_wake].
      destruct (insl_ok d' (drive x) (lba x)) as [Hi1 Hi2]; [congruence|done|congruence|].
      destruct (dv_insl d') as [data d2]. cbn [fst snd] in Hi1, Hi2. eapply wp_set_ibuf; [done|].
      cbn [with_bufs i_ctl i_bufs i_qnext idequeue havedisk1 i_wake].
      apply (HQ d2 (set_data data x) (b_data x) Hp); [|by rewrite Hi1, Hs', Hs|done]. intros a b. by rewrite Hi2, Hs', Hs.
Qed.
Lemma woken_cons (s s' : ide D) c : i_wake s' = c :: i_wake s -> woken s s' = [c].
Proof. intros Hw. unfold woken. rewrite Hw. cbn [length]. by replace (S (length (i_wake s)) - length (i_wake s))%nat with 1%nat by lia. Qed.
Lemma started_ext x disk disk' d : (forall a b, disk a b = disk' a b) -> started x disk d -> started x disk' d.
Proof.
  intros He. unfold started. destruct (has (b_flags x) B_DIRTY).
  - intros (data&Hl&Hg&Hs). exists data. split_and!; [done|done|]. intros a b. rewrite Hs. unfold put_sector. by rewrite He.
  - intros (Hc&Hlo&Hs). split_and!; [done|done|]. intros a b. by rewrite Hs.
Qed.

Lemma ideintr_ok two s W A p :
  refines two (mkSys s W A) p ->
  wp ideintr noerr (fun _ s' => exists p', spec_step two (Intr (failed (i_ctl s))) p p' /\
    refines two (mkSys s' W (wake_up (woken s s') A)) p') s.
Proof.
  destruct p as [B disk q W']. intros [Htwo HB Hlen Hin Hpl Hdk Hch Hnd Hq Hdone Hslp Hctl].
  cbn [sy_ide sy_in sy_asleep sp_bufs sp_disk sp_q sp_in] in *. subst W'.
  unfold ideintr. apply wp_bind, wp_gets. destruct q as [|i q]; simpl in Hch.
  { rewrite Hch. apply wp_ret. exists (mkSpec B disk [] W). split; [constructor|].
    assert (A = []) as -> by (destruct A as [|j A]; [done|]; specialize (Hslp j); set_solver). by split. }
  destruct Hch as (Hqi&n&Hn&Hch). rewrite Hqi. destruct Hctl as (x&Hx&Hctl). rewrite <- HB in Hx.
  apply wp_bind. eapply wp_get_qnext; [done|]. apply wp_bind, wp_modify. apply wp_bind.
  eapply (wp_ibuf _ i x); [done|]. apply wp_bind.
  assert (Hpx : plain_buf x) by (eapply (proj1 (Forall_lookup _ _) Hpl i); by rewrite <- HB).
  set (f := failed (i_ctl s)). apply (take_data_ok _ i x disk); [done|done|exact Hctl|].
  intros d y junk Hjl Hsec Hy Hfl. cbn [i_ctl] in Hsec, Hy. fold f in Hsec, Hy.
  set (x' := (serve f junk disk x).2) in *. set (disk' := (serve f junk disk x).1) in *. apply NoDup_cons in Hnd as [Hni Hnd].
  assert (Hlt : (i < length (i_bufs s))%nat) by (by eapply lookup_lt_Some).
  do 2 (apply wp_bind; eapply wp_set_ibuf; [cbn [with_ctl with_bufs i_bufs]; by apply list_lookup_insert_eq; rewrite ?length_insert|]).
  cbn [with_ctl with_bufs i_bufs i_qnext idequeue havedisk1 i_ctl i_wake]. rewrite !list_insert_insert_eq.
  cbn [b_flags set_flags]. rewrite Hfl.
  assert (Hx' : set_flags (fclr B_DIRTY (fset B_VALID (b_flags x))) (set_flags (fset B_VALID (b_flags x)) y) = x')
    by exact Hy. rewrite Hx'.
  apply wp_bind, wp_modify. apply wp_bind, wp_gets. cbn [with_ctl with_bufs i_bufs i_qnext idequeue havedisk1 i_ctl i_wake].
  set (B' := <[i := x']> (i_bufs s)) in *.
  destruct (serve_plain f junk disk x Hjl Hpx Hdk) as [Hpl' Hdk'].
  assert (HplB : Forall plain_buf B') by (unfold B'; apply Forall_insert; [by rewrite HB|done]).
  assert (Hspec : spec_step two (Intr f) (mkSpec B disk (i :: q) W) (mkSpec B' disk' q W))
    by (unfold B'; rewrite HB in *; by constructor).
  assert (Hne : forall j, j <> i -> B' !! j = B !! j) by (intros j Hj; unfold B'; rewrite HB; by apply list_lookup_insert_ne).
  assert (Hrest : forall s', i_bufs s' = B' -> i_qnext s' = i_qnext s -> idequeue s' = n -> havedisk1 s' = havedisk1 s ->
    i_wake s' = ChBuf i :: i_wake s ->
    with_ctl_head B' disk' q (i_ctl s') -> refines two (mkSys s' W (wake_up (woken s s') A)) (mkSpec B' disk' q W)).
  { intros s' H1 H2 H3 H4 H6 H5. split; cbn [sy_ide sy_in sy_asleep sp_bufs sp_disk sp_q sp_in]; rewrite ?H1, ?H2, ?H3, ?H4; try done.
    - rewrite Hlen. unfold B'. by rewrite length_insert, HB.
    - intros j Hj. destruct (Hq j) as [HjW (y0&Hy0&Hpy)]; [set_solver|]. split; [done|]. exists y0.
      rewrite Hne; [done|]. intros ->. set_solver.
    - intros j HjW Hjq. destruct (decide (j = i)) as [->|Hji].
      + exists x'. split; [unfold B'; by apply list_lookup_insert_eq|]. apply serve_ready.
      + rewrite Hne by done. apply Hdone; [done|set_solver].
    - intros j. rewrite (woken_cons _ _ _ H6). unfold wake_up. intros [Hw Hj']%list_elem_of_filter.
      destruct (proj1 (elem_of_cons _ _ _) (Hslp j Hj')) as [->|]; [|done]. set_solver. }
  destruct q as [|j q]; simpl in Hch.
  - subst n. apply wp_ret. exists (mkSpec B' disk' [] W). split; [done|]. by apply Hrest.
  - destruct Hch as (->&m&Hm&Hch). destruct (Hq j) as [_ (xj&Hxj&Hpj)]; [set_solver|].
    assert (Hji : j <> i) by (intros ->; set_solver).
    eapply wp_post; [eapply (idestart_ok _ j xj)|].
    + cbn [i_bufs]. by rewrite Hne.
    + by apply (proj1 (Forall_lookup _ _) Hpl j).
    + intros [] s' (d'&->&Hst). cbn [with_ctl i_bufs i_qnext idequeue havedisk1 i_ctl i_wake] in *.
      exists (mkSpec B' disk' (j :: q) W). split; [done|]. apply Hrest; try done.
      exists xj. split; [by rewrite Hne|]. cbn [i_ctl with_ctl]. by eapply started_ext; [|exact Hst].
Qed.

(** The state iderw leaves before its wait: the buffer is the last of the
    queue, and with the controller if it is the only one. *)
Lemma iderw_start_ok two s W A p i x :
  refines two (mkSys s W A) p -> i ∉ W -> i_bufs s !! i = Some x -> pending x -> (b_dev x = 0 \/ two = true) ->
  wp (iderw_start i) noerr (fun _ s' => exists p', spec_step two (Req i) p p' /\ refines two (mkSys s' (i :: W) A) p') s.
Proof.
  destruct p as [B disk q W']. intros [Htwo HB Hlen Hin Hpl Hdk Hch Hnd Hq Hdone Hslp Hctl] HiW Hx Hpx Hdev.
  cbn [sy_ide sy_in sy_asleep sp_bufs sp_disk sp_q sp_in] in *. subst W' B.
  assert (Hiq : i ∉ q) by (intros Hi; by destruct (Hq i Hi)). assert (Hlt : (i < length (i_bufs s))%nat) by (by eapply lookup_lt_Some).
  assert (Hspec : spec_step two (Req i) (mkSpec (i_bufs s) disk q W) (mkSpec (i_bufs s) disk (q ++ [i]) (i :: W)))
    by (by eapply spec_req).
  assert (Hrest : forall s', i_bufs s' = i_bufs s -> length (i_qnext s') = length (i_qnext s) -> havedisk1 s' = havedisk1 s ->
    chain (i_qnext s') (idequeue s') (q ++ [i]) -> with_ctl_head (i_bufs s) disk (q ++ [i]) (i_ctl s') ->
    exists p', spec_step two (Req i) (mkSpec (i_bufs s) disk q W) p' /\ refines two (mkSys s' (i :: W) A) p').
  { intros s' H1 H2 H3 H4 H5. eexists. split; [exact Hspec|].
    split; cbn [sy_ide sy_in sy_asleep sp_bufs sp_disk sp_q sp_in]; try done; [congruence..| | | |].
    - apply NoDup_app. split_and!; [done|set_solver|apply NoDup_singleton].
    - intros j [Hj|Hj%list_elem_of_singleton]%elem_of_app.
      + destruct (Hq j Hj) as [? ?]. split; [set_solver|done].
      + subst j. split; [set_solver|]. by exists x.
    - intros j Hj Hjq. apply Hdone; set_solver.
    - intros j Hj. specialize (Hslp j Hj). set_solver. }
  unfold iderw_start. apply wp_bind, (wp_ibuf _ i x); [done|]. destruct Hpx as [-> ->]. cbn [negb].
  apply wp_bind, wp_gets. rewrite Htwo.
  assert (negb (b_dev x =? 0) && negb two = false) as -> by (destruct Hdev as [-> | ->]; [done|by rewrite andb_false_r]).
  apply wp_bind, wp_modify. apply wp_bind, wp_gets. cbn [idequeue]. apply wp_bind.
  assert (Hqn : <[i := None]> (i_qnext s) !! i = Some None) by (apply list_lookup_insert_eq; lia).
  destruct q as [|l q0 _] using rev_ind.
  - simpl in Hch. rewrite Hch. apply wp_modify. apply wp_bind, wp_gets. cbn [idequeue]. rewrite bool_decide_true by done.
    cbn [when]. eapply wp_post; [eapply (idestart_ok _ i x); [done|by apply (proj1 (Forall_lookup _ _) Hpl i)]|].
    intros [] s' (d'&->&Hst). cbn [i_bufs i_qnext idequeue havedisk1 i_ctl i_wake] in Hst.
    apply Hrest; cbn [with_ctl i_bufs i_qnext idequeue havedisk1 i_ctl i_wake]; [done|by rewrite length_insert|done| |].
    + simpl. split; [done|]. exists None. done.
    + exists x. split; [done|]. by eapply started_ext; [|exact Hst].
  - assert (exists h, idequeue s = Some h /\ chain (i_qnext s) (Some h) (q0 ++ [l])) as (h&Hh&Hch').
    { destruct q0 as [|h q0]; [exists l|exists h]; destruct Hch as [Hh ?]; rewrite Hh; by split. }
    rewrite Hh. apply wp_bind. eapply (queue_last_ok _ q0 l); [by apply qchain_frame|done|].
    apply wp_modify. apply wp_bind, wp_gets. cbn [idequeue i_qnext i_bufs havedisk1 i_ctl i_wake].
    assert (Hhi : h <> i). { destruct q0 as [|h' q0]; destruct Hch' as [[= <-] _]; intros ->; set_solver. }
    rewrite bool_decide_false by congruence. apply wp_ret.
    apply Hrest; cbn [i_bufs i_qnext idequeue havedisk1 i_ctl i_wake]; [done|by rewrite !length_insert|done| |].
    + apply chain_append; [by apply qchain_frame|done|done|done].
    + destruct q0 as [|h' q0]; exact Hctl.
Qed.

Lemma intr_ok two s W A t' p :
  refines two (mkSys s W A) p -> intr (mkSys s W A) = Some t' ->
  exists p', spec_step two (Intr (failed (i_ctl s))) p p' /\ refines two t' p'.
Proof.
  intros Hr Hi. pose proof (ideintr_ok two s W A p Hr) as Hok. unfold wp in Hok. unfold intr in Hi. cbn [sy_ide sy_in sy_asleep] in Hi.
  destruct (ideintr s) as [[] s'|]; [|done]. by injection Hi as <-.
Qed.

(** Every step of the driver is a step of the contract. *)
Lemma step_sim two l t t' p :
  refines two t p -> step l t t' -> exists p', spec_step two l p p' /\ refines two t' p'.
Proof.
  intros Hr Hst. inversion Hst as [i s s' W A HiW Hrun|i s W A HiW HiA Hrun|t0 t1 Hrun|i s s' W A HiW HiA Hrun|i x s W A HiW Hlt Hpl]; subst.
  - assert (exists x, i_bufs s !! i = Some x /\ pending x /\ (b_dev x = 0 \/ two = true)) as (x&Hx&Hpx&Hdev).
    { pose proof (rf_two _ _ _ Hr) as Htwo. cbn [sy_ide] in Htwo. unfold iderw_start, bind, ibuf, gets, ret, panic, fail in Hrun.
      destruct (i_bufs s !! i) as [x|]; [|done]. exists x. split; [done|]. unfold pending.
      destruct (has (b_flags x) B_BUSY); cbn [negb] in Hrun; [|done].
      destruct (_ =? B_VALID); [done|]. split; [done|]. rewrite Htwo in Hrun. destruct two; [by right|].
      destruct (Z.eqb_spec (b_dev x) 0); [by left|done]. }
    pose proof (iderw_start_ok two s W A p i x Hr HiW Hx Hpx Hdev) as Hok. unfold wp in Hok. by rewrite Hrun in Hok.
  - exists p. assert (Hiq : i ∈ sp_q p).
    { destruct (decide (i ∈ sp_q p)) as [|Hiq]; [done|]. destruct (rf_done _ _ _ Hr i) as (x&Hx&Hrd); [by rewrite <- (rf_in _ _ _ Hr)|done|].
      rewrite <- (rf_bufs _ _ _ Hr) in Hx. cbn [sy_ide] in Hx. unfold iderw_wait, bind, ibuf, ret, fail in Hrun. rewrite Hx in Hrun.
      unfold ready in Hrd. by rewrite Hrd in Hrun. }
    split; [destruct p; by constructor|]. destruct Hr as [Htwo HB Hlen Hin Hpl Hdk Hch Hnd Hq Hdone Hslp Hctl].
    split; try done. cbn [sy_asleep]. intros j [->|Hj]%elem_of_cons; [done|by apply Hslp].
  - destruct t as [s W A]. by eapply intr_ok.
  - destruct p as [B disk q W']. destruct Hr as [Htwo HB Hlen Hin Hpl Hdk Hch Hnd Hq Hdone Hslp Hctl].
    cbn [sy_ide sy_in sy_asleep sp_bufs sp_disk sp_q sp_in] in *. subst W' B.
    unfold iderw_wait, bind, ibuf, ret, fail in Hrun. destruct (i_bufs s !! i) as [x|] eqn:Hx; [|done].
    destruct (_ =? B_VALID) eqn:Hrd; [|done]. injection Hrun as <-.
    assert (Hiq : i ∉ q). { intros Hi. destruct (Hq i Hi) as [_ (y&Hy&Hpy)]. assert (y = x) as -> by congruence. by eapply pending_not_ready. }
    exists (mkSpec (i_bufs s) disk q (filter (fun j => j <> i) W)). split; [by econstructor|].
    split; cbn [sy_ide sy_in sp_bufs sp_disk sp_q sp_in]; try done.
    + intros j Hj. destruct (Hq j Hj) as [HjW ?]. split; [|done]. apply list_elem_of_filter. split; [congruence|done].
    + intros j [_ HjW]%list_elem_of_filter. by apply Hdone.
  - destruct p as [B disk q W']. destruct Hr as [Htwo HB Hlen Hin Hpls Hdk Hch Hnd Hq Hdone Hslp Hctl].
    cbn [sy_ide sy_in sy_asleep sp_bufs sp_disk sp_q sp_in] in *. subst W' B.
    exists (mkSpec (<[i := x]> (i_bufs s)) disk q W). split; [by econstructor|].
    assert (Hiq : i ∉ q) by (intros Hi; by destruct (Hq i Hi)).
    assert (Hne : forall j, j <> i -> <[i := x]> (i_bufs s) !! j = i_bufs s !! j) by (intros; by apply list_lookup_insert_ne).
    split; cbn [sy_ide sy_in sp_bufs sp_disk sp_q sp_in i_bufs i_qnext idequeue havedisk1 i_ctl]; try done.
    + by rewrite length_insert.
    + by apply Forall_insert.
    + intros j Hj. rewrite Hne by congruence. by apply Hq.
    + intros j HjW Hjq. rewrite Hne by congruence. by apply Hdone.
    + destruct q as [|j q]; [done|]. destruct Hctl as (y&Hy&Hctl). exists y. rewrite Hne; [done|]. intros ->. set_solver.
Qed.
End sim.

(** ** Runs *)
Inductive runs {S L : Type} (R : L -> S -> S -> Prop) : list L -> S -> S -> Prop :=
  | runs_nil s : runs R [] s s
  | runs_cons l tr s1 s2 s3 : R l s1 s2 -> runs R tr s2 s3 -> runs R (l :: tr) s1 s3.

Section thms.
Context {D : Type} `{IdeDevice D}.
Implicit Types (s : ide D) (t : sys D) (tr : list label) (i : nat) (x : buf).

(** The driver before any request, with [disk] on the drives. *)
Definition idle s (disk : Z -> Z -> list Z) : Prop :=
  idequeue s = None /\ length (i_qnext s) = length (i_bufs s) /\ Forall plain_buf (i_bufs s) /\
  (forall a b, length (disk a b) = 512%nat) /\ forall a b, dv_sector (i_ctl s) a b = disk a b.
Definition spec0 s (disk : Z -> Z -> list Z) : spec := mkSpec (i_bufs s) disk [] [].

Lemma idle_refines s disk : idle s disk -> refines (havedisk1 s) (mkSys s [] []) (spec0 s disk).
Proof. intros (Hq&Hl&Hp&Hd&Hs). split; cbn; try done; [apply NoDup_nil_2|set_solver..]. Qed.
Lemma runs_sim two tr t t' p :
  runs step tr t t' -> refines two t p -> exists p', runs (spec_step two) tr p p' /\ refines two t' p'.
Proof.
  intros Hr. revert p. induction Hr as [t|l tr t1 t2 t3 Hs Hr IH]; intros p Hp; [eexists; by split; [constructor|]|].
  destruct (step_sim two l t1 t2 p Hp Hs) as (p2&Hs2&Hp2). destruct (IH p2 Hp2) as (p3&Hr3&Hp3).
  exists p3. split; [by econstructor|done].
Qed.

(** C9. The disk driver implements its contract.  However processes call
    iderw on buffers they hold, sleep in it and return, whenever interrupts
    arrive (also spurious ones) and whatever is done to buffers outside iderw,
    the run is one of a machine with two arrays of sectors and a queue in
    which each interrupt serves the oldest request in one step.  When the
    request does not fail, a dirty buffer is stored at its drive and sector
    (modulo 2^28) and another one is read from there.  When the controller reports an
    error, a read leaves the buffer what it had; when it reports an error, or
    did not ask for the data that idestart sends without waiting for DRQ, a
    write leaves unknown bytes in its own sector and nowhere else.  In each
    case the buffer becomes valid and clean (ideintr looks at errors of reads
    only and tells nobody), and iderw returns only after its request was
    served. *)
Theorem ide_refines s disk tr t :
  idle s disk -> runs step tr (mkSys s [] []) t ->
  exists p, runs (spec_step (havedisk1 s)) tr (spec0 s disk) p /\ refines (havedisk1 s) t p.
Proof. intros Hi Hr. eapply runs_sim; [done|]. by apply idle_refines. Qed.

(** [n] interrupts. *)
Fixpoint intrs (n : nat) t : option (sys D) :=
  match n with O => Some t | S n => match intr t with Some t => intrs n t | None => None end end.

Lemma intrs_serve two i n t p :
  refines two t p -> i ∈ sy_in t -> (forall k, sp_q p !! k = Some i -> (k < n)%nat) ->
  exists t', intrs n t = Some t' /\ (i ∉ sy_asleep t') /\ iderw_wait i (sy_ide t') = Ok tt (sy_ide t').
Proof.
  revert t p. induction n as [|n IH]; intros t p Hr HiW Hk.
  - assert (Hiq : i ∉ sp_q p) by (intros [k Hi]%list_elem_of_lookup; specialize (Hk k Hi); lia).
    exists t. split_and!; [done|by intros ?%(rf_asleep _ _ _ Hr)|].
    destruct (rf_done _ _ _ Hr i) as (x&Hx&Hrd); [by rewrite <- (rf_in _ _ _ Hr)|done|].
    rewrite <- (rf_bufs _ _ _ Hr) in Hx. unfold iderw_wait, bind, ibuf, ret, fail. unfold ready in Hrd. by rewrite Hx, Hrd.
  - cbn [intrs]. destruct t as [s W A]. pose proof (ideintr_ok two s W A p Hr) as Hok. unfold wp in Hok. unfold intr at 1. cbn [sy_ide sy_in sy_asleep].
    destruct (ideintr s) as [[] s'|e]; [|done]. destruct Hok as (p'&Hsp&Hr').
    apply (IH _ p' Hr'); [exact HiW|]. inversion Hsp; subst; cbn [sp_q] in *; [|done]. intros k Hki. specialize (Hk (S k) Hki). lia.
Qed.

(** C30. No request is lost and no process is stranded in iderw: in every
    reachable state the queue is a list q of distinct buffers, not more than
    there are buffers, and every process that sleeps in iderw sleeps for a
    request in it.  For a process inside iderw(i), asleep or not, after as many
    interrupts as there are requests up to and including the one for i,
    wakeup has been called for it, so it does not sleep any more, and it finds the
    buffer ready and returns; handling the interrupts never panics. *)
Theorem ide_completes s disk tr t i :
  idle s disk -> runs step tr (mkSys s [] []) t -> i ∈ sy_in t ->
  exists q, chain (i_qnext (sy_ide t)) (idequeue (sy_ide t)) q /\ NoDup q /\ (length q <= length (i_bufs (sy_ide t)))%nat /\
    (forall j, j ∈ sy_asleep t -> j ∈ q) /\
    forall n, (forall k, q !! k = Some i -> (k < n)%nat) ->
      exists t', intrs n t = Some t' /\ (i ∉ sy_asleep t') /\ iderw_wait i (sy_ide t') = Ok tt (sy_ide t').
Proof.
  intros Hi Hr HiW. destruct (runs_sim _ _ _ _ _ Hr (idle_refines s disk Hi)) as (p&_&Hp).
  exists (sp_q p). split_and!; [apply Hp|apply Hp| |apply Hp|].
  - pose proof (rf_bufs _ _ _ Hp) as HB. pose proof (rf_len _ _ _ Hp) as Hl.
    rewrite HB, <- Hl. apply NoDup_below; [apply Hp|]. intros j Hj. by eapply chain_bound; [apply (rf_chain _ _ _ Hp)|].
  - intros n Hn. by eapply intrs_serve.
Qed.
End thms.

(** ** The IDE driver beside the memory disk, and a controller on which the
    theorems are applied. *)
Section memide.
Context {D : Type} `{IdeDevice D}.
Implicit Types (s : ide D) (x : buf) (img : list (list Z)) (i : nat).

Lemma flags_commute f : fset B_VALID (fclr B_DIRTY f) = done_flags f.
Proof.
  unfold done_flags, fset, fclr. apply Z.bits_inj'. intros n Hn.
  rewrite Z.lor_spec, !Z.land_spec, Z.lor_spec, Z.lnot_spec by done.
  change B_VALID with (2 ^ 1). change B_DIRTY with (2 ^ 2). rewrite !Z.pow2_bits_eqb by lia.
  destruct (Z.testbit f n), (Z.eqb_spec 1 n), (Z.eqb_spec 2 n); (done || lia).
Qed.

Lemma clean_flags f : has f B_DIRTY = false -> done_flags f = fset B_VALID f.
Proof.
  intros Hd. rewrite <- flags_commute. f_equal. unfold fclr. apply Z.bits_inj'. intros n Hn.
  change B_DIRTY with (2 ^ 2) in *. rewrite has_bit in Hd by lia.
  rewrite Z.land_spec, Z.lnot_spec, Z.pow2_bits_eqb by lia.
  destruct (Z.eqb_spec 2 n) as [<-|]; [by rewrite Hd|by rewrite andb_true_r].
Qed.
(** memide.c on a request it accepts. *)
Lemma memide_run (B : list buf) img past wk i x :
  B !! i = Some x -> pending x -> b_dev x = 1 -> 0 <= b_sector x < Z.of_nat (length img) ->
  let dirty := has (b_flags x) B_DIRTY in
  let y := if dirty then x else set_data (img !!! Z.to_nat (b_sector x)) x in
  let d := if dirty then mkDisk (<[Z.to_nat (b_sector x) := b_data x]> img) (img :: past) else mkDisk img past in
  iderw i (mkBio B (mkDisk img past) wk) = Ok tt (mkBio (<[i := set_flags (done_flags (b_flags x)) y]> B) d wk).
Proof.
  intros Hx [Hbusy Hnv] Hdev Hsec. assert (Hlt : (i < length B)%nat) by (by eapply lookup_lt_Some).
  unfold iderw, bind, getb, disksize, disk_read, disk_write, updb, gets, modify, ret. cbn [bcache dsk d_now]. rewrite Hx.
  rewrite Hbusy, Hnv, Hdev. change (1 =? 1) with true. cbn [negb bcache dsk d_now d_past woken].
  assert ((Z.of_nat (length img) <=? b_sector x) = false) as -> by lia.
  destruct (has (b_flags x) B_DIRTY) eqn:Hd; cbn [bcache dsk d_now d_past woken];
    rewrite (alter_same _ _ i x Hx), list_lookup_insert_eq by done; cbn [bcache dsk d_now d_past woken];
    rewrite (alter_same _ _ i _ (list_lookup_insert_eq _ _ _ Hlt)), list_insert_insert_eq;
    cbn [b_flags set_flags set_data b_dev b_sector b_prev b_next b_data].
  - by rewrite flags_commute.
  - by rewrite clean_flags.
Qed.

(** Run from an idle driver, for a request that does not fail, iderw of ide.c (up to its sleep, the interrupt, the rest) does to the
    buffers and to drive 1 exactly what iderw of memide.c does in one go to
    the buffers and its image: the two drivers can stand for each other under
    the buffer cache. *)
Theorem iderw_memide s disk img past wk i x :
  idle s disk -> havedisk1 s = true ->
  i_bufs s !! i = Some x -> pending x -> b_dev x = 1 ->
  0 <= b_sector x < Z.of_nat (length img) -> Z.of_nat (length img) <= 2 ^ 28 ->
  (forall k, 0 <= k < Z.of_nat (length img) -> disk 1 k = img !!! Z.to_nat k) ->
  wp (iderw_start i) noerr (fun _ s1 => failed (i_ctl s1) = false -> wp (ideintr;; iderw_wait i) noerr (fun _ s' => exists bo,
    iderw i (mkBio (i_bufs s) (mkDisk img past) wk) = Ok tt bo /\ i_bufs s' = bcache bo /\
    forall k, 0 <= k < Z.of_nat (length img) -> dv_sector (i_ctl s') 1 k = d_now (dsk bo) !!! Z.to_nat k) s1) s.
Proof.
  intros Hidle Htwo Hx Hpx Hdev Hsec Himg Hdisk.
  pose proof (idle_refines s disk Hidle) as Hr. rewrite Htwo in Hr.
  assert (Hlba : lba x = b_sector x) by (apply Z.mod_small; lia).
  assert (Hdrv : drive x = 1) by (unfold drive; by rewrite Hdev).
  assert (Hlt : (i < length (i_bufs s))%nat) by (by eapply lookup_lt_Some).
  eapply wp_post; [eapply (iderw_start_ok true s [] [] _ i x); [done|set_solver|done|done|by right]|].
  intros [] s1 (p1&Hs1&Hr1) Hrel. inversion Hs1; subst. apply wp_bind.
  eapply wp_post; [by eapply ideintr_ok|]. intros [] s2 (p2&Hs2&Hr2). rewrite Hrel in Hs2.
  inversion Hs2 as [| |f junk i0 y B dk q W Hj Hy| | |]; subst. assert (y = x) as -> by congruence.
  pose proof (rf_bufs _ _ _ Hr2) as HB2. pose proof (rf_ctl _ _ _ Hr2) as Hc2. cbn [sy_ide sp_bufs sp_q sp_disk with_ctl_head] in HB2, Hc2.
  apply wp_bind. eapply (wp_ibuf _ i (serve false junk disk x).2); [rewrite HB2; by apply list_lookup_insert_eq|].
  pose proof (serve_ready false junk disk x) as Hrd. unfold ready in Hrd. rewrite Hrd. apply wp_ret.
  eexists. split; [by apply (memide_run _ img past wk i x)|]. cbn [bcache dsk d_now].
  unfold serve in *. destruct (has (b_flags x) B_DIRTY); cbn [fst snd dsk d_now bcache] in *; (split; [rewrite HB2|intros k Hk; rewrite Hc2]).
  - done.
  - rewrite Hdrv, Hlba. unfold put_sector. destruct (Z.eqb_spec k (b_sector x)) as [->|Hne].
    + symmetry. apply list_lookup_total_insert_eq. lia.
    + rewrite andb_false_r, list_lookup_total_insert_ne by lia. by apply Hdisk.
  - by rewrite Hdrv, Hlba, Hdisk.
  - by apply Hdisk.
Qed.
End memide.

(** ** Initialisation *)
Section init.
Context {D : Type} `{IdeDevice D}.
Implicit Types (s : ide D).

(** ideinit probes for the second drive and leaves the driver idle with the
    sectors as they were. *)
Lemma ideinit_idle s disk : idle s disk -> wp ideinit noerr (fun _ s' => idle s' disk /\ i_bufs s' = i_bufs s) s.
Proof.
  intros (Hq&Hl&Hp&Hdl&Hs). unfold ideinit. apply wp_bind, idewait_ok. intros d0 (_&_&_&_&Hs0) Hd0.
  apply wp_bind, wp_outb. destruct (outb_reg_ok d0 0x1f6 (Z.lor 0xe0 (Z.shiftl 1 4)) Hd0) as (Hd1&_&Hs1); [unfold task_file; set_solver|].
  cbn [with_ctl i_ctl i_bufs i_qnext idequeue havedisk1 i_wake]. set (d1 := dv_outb _ _ d0) in *. apply wp_bind.
  set (I := fun (s' : ide D) => exists d, s' = with_ctl s d /\ dv_delay d = O /\ dv_sector d = dv_sector (i_ctl s)).
  assert (Hfin : forall s', (exists s1, I s1 /\ i_bufs s' = i_bufs s1 /\ i_qnext s' = i_qnext s1 /\ idequeue s' = idequeue s1 /\ i_ctl s' = i_ctl s1) ->
    wp (outb 0x1f6 (Z.lor 0xe0 (Z.shiftl 0 4))) noerr (fun _ s' => idle s' disk /\ i_bufs s' = i_bufs s) s').
  { intros s' (s1&(d&->&Hd&Hsd)&H1&H2&H3&H4). apply wp_outb. cbn [with_ctl i_bufs i_qnext idequeue i_ctl] in *.
    destruct (outb_reg_ok d 0x1f6 (Z.lor 0xe0 (Z.shiftl 0 4)) Hd) as (_&_&Hs2); [unfold task_file; set_solver|].
    unfold idle. cbn [with_ctl i_bufs i_qnext idequeue i_ctl]. rewrite H1, H2, H3, H4, Hs2, Hsd. split_and!; done. }
  assert (Hpost : forall (r : option unit) s', I s' -> wp (when (bool_decide (r = Some tt))
      (modify (fun s => mkIde (i_bufs s) (i_qnext s) (idequeue s) true (i_ctl s) (i_wake s)));;
      outb 0x1f6 (Z.lor 0xe0 (Z.shiftl 0 4))) noerr (fun _ s' => idle s' disk /\ i_bufs s' = i_bufs s) s').
  { intros r s' HI. apply wp_bind, wp_when; intros _; [apply wp_modify|]; apply Hfin; exists s'; by split_and!. }
  apply (wp_for_find (fun _ => I)).
  - exists d1. split_and!; [done|done|congruence].
  - intros j s' _ (d&->&Hd&Hsd). apply wp_bind. unfold wp at 1, inb, ctl. cbn [with_ctl i_ctl i_bufs i_qnext idequeue havedisk1 i_wake].
    pose proof (inb_ok d) as Hin. destruct (dv_inb d) as [r d']. destruct Hin as (_&_&Hdl'&_&_&_&_&Hs').
    assert (HI : I (with_ctl s d')) by (exists d'; split_and!; [done|by rewrite Hdl', Hd|congruence]).
    destruct (negb (r =? 0)); apply wp_ret; [by apply Hpost|exact HI].
  - intros s' HI. by apply Hpost.
Qed.
End init.

(** ** A controller *)

(** Two drives.  A command keeps the controller busy for three polls of the
    status; the data of a write is in a buffer of the controller until then.
    Sector 13 of a drive is bad: commands for it end with ERR.  A write that
    fails leaves zeros. *)
Record pio := mkPio { p_reg : Z -> Z; p_cmd : option (Z * Z * bool); p_wait : option (Z * Z * list Z);
  p_medium : Z -> Z -> list Z; p_busy : nat; p_drq : bool; p_lost : bool }.
Definition pio_addr (d : pio) : Z * Z :=
  (Z.land (Z.shiftr (p_reg d 0x1f6) 4) 1,
   p_reg d 0x1f3 + 2 ^ 8 * p_reg d 0x1f4 + 2 ^ 16 * p_reg d 0x1f5 + 2 ^ 24 * Z.land (p_reg d 0x1f6) 0x0f).
Definition bad_sector (b : Z) : bool := b =? 13.
Definition pio_fault (d : pio) : bool := match p_cmd d with Some (_, b, _) => bad_sector b | None => false end.
Definition pio_written (w : option (Z * Z * list Z)) (f : Z -> Z -> list Z) : Z -> Z -> list Z :=
  match w with Some (a, b, data) => put_sector f a b (if bad_sector b then zero_block else data) | None => f end.
(** The medium when the command has ended. *)
Definition pio_sector (d : pio) : Z -> Z -> list Z := pio_written (p_wait d) (p_medium d).
Definition pio_inb (d : pio) : Z * pio :=
  match p_busy d with
  | O => (Z.lor IDE_DRDY (if pio_fault d then IDE_ERR else 0), d)
  | S O => (IDE_BSY, mkPio (p_reg d) (p_cmd d) None (pio_sector d) 0 (p_drq d) (p_lost d))
  | S n => (IDE_BSY, mkPio (p_reg d) (p_cmd d) (p_wait d) (p_medium d) n (p_drq d) (p_lost d))
  end.
(** A write command asks for its data at once; until it is there the
    controller is not busy. *)
Definition pio_outb (p x : Z) (d : pio) : pio :=
  if p =? 0x1f7 then
    let w := x =? IDE_CMD_WRITE in
    mkPio (p_reg d) (Some (pio_addr d, w)) (p_wait d) (p_medium d) (if w then 0 else 3) w false
  else mkPio (fun q => if q =? p then x else p_reg d q) (p_cmd d) (p_wait d) (p_medium d) (p_busy d) (p_drq d) (p_lost d).
Definition pio_outsl (data : list Z) (d : pio) : pio :=
  match p_cmd d with
  | Some (a, b, true) =>
      if p_drq d then mkPio (p_reg d) (p_cmd d) (Some (a, b, data)) (pio_sector d) 3 false false
      else mkPio (p_reg d) (p_cmd d) (Some (a, b, zero_block)) (pio_sector d) 3 false true
  | _ => d
  end.
Definition pio_insl (d : pio) : list Z * pio :=
  match p_cmd d with Some (a, b, false) => (pio_sector d a b, d) | _ => ([], d) end.
#[export] Program Instance pio_device : IdeDevice pio := {|
  dv_inb := pio_inb; dv_outb := pio_outb; dv_outsl := pio_outsl; dv_insl := pio_insl;
  dv_delay := p_busy; dv_fault := pio_fault; dv_drq := p_drq; dv_lost := p_lost;
  dv_reg := p_reg; dv_cmd := p_cmd; dv_sector := pio_sector |}.
Next Obligation. intros d. unfold pio_inb. destruct (p_busy d) as [|[|n]] eqn:Hb; cbn; rewrite ?Hb; split_and!; try done; by destruct (pio_fault d). Qed.
Next Obligation.
  intros d p x Hd Hp. unfold pio_outb. destruct (Z.eqb_spec p 0x1f7) as [->|]; [|done].
  exfalso. unfold task_file in Hp. by apply (bool_decide_unpack _ ) in Hp || (rewrite !elem_of_cons in Hp; destruct Hp as [?|[?|[?|[?|[?|[?|?%elem_of_nil]]]]]]; done).
Qed.
Next Obligation. done. Qed.
Next Obligation. done. Qed.
Next Obligation.
  intros d a b data Hc Hl. cbv zeta. unfold pio_outsl. rewrite Hc.
  assert (Hsec : forall r c x m n q l, pio_sector (mkPio r c (Some (a, b, x)) m n q l) = put_sector m a b (if bad_sector b then zero_block else x)) by done.
  assert (Hf : forall r w m n q l, pio_fault (mkPio r (Some (a, b, true)) w m n q l) = bad_sector b) by done.
  assert (Hoth : forall x a' b', (a', b') <> (a, b) -> put_sector (pio_sector d) a b x a' b' = pio_sector d a' b')
    by (intros x a' b' Hne; unfold put_sector; destruct (Z.eqb_spec a' a) as [->|], (Z.eqb_spec b' b) as [->|]; done).
  assert (Hat : forall x, put_sector (pio_sector d) a b x a b = x) by (intros x; unfold put_sector; by rewrite !Z.eqb_refl).
  destruct (p_drq d); rewrite Hf, !Hsec, !Hat; cbn [p_lost negb]; split_and!; try done; try (by destruct (bad_sector b)).
  all: intros a' b' Hne; by apply Hoth.
Qed.
Next Obligation. intros d a b Hc _ _. unfold pio_insl. by rewrite Hc. Qed.

(** Three requests for drive 1: a read of sector 5, a write of sector 6 and
    one of the bad sector; the second process sleeps. *)
Definition demo_disk (a b : Z) : list Z := if (a =? 1) && (b =? 5) then replicate 512 7 else zero_block.
Definition dirty_buf (k : Z) : buf := mkBuf (Z.lor B_BUSY B_DIRTY) 1 k 0 0 (replicate 512 9).
Definition ide0 : ide pio :=
  mkIde [mkBuf B_BUSY 1 5 0 0 zero_block; dirty_buf 6; dirty_buf 13]
    [None; None; None] None true (mkPio (fun _ => 0) None None demo_disk 0 false false) [].
Definition after {A} (m : K (ide pio) A) (s : ide pio) : ide pio :=
  match m s with Ok _ s' => s' | Fail _ => s end.
Definition ide3 : ide pio := after (iderw_start 0;; iderw_start 1;; iderw_start 2) ide0.
Definition sys3 : sys pio := mkSys ide3 [2; 1; 0]%nat [1%nat].
Definition after_intr (t : sys pio) : sys pio := default t (intr t).
Definition sys6 : sys pio := after_intr (after_intr (after_intr sys3)).
Definition demo_trace : list label := [Req 0; Req 1; Slp 1; Req 2].

Lemma demo_idle : idle ide0 demo_disk.
Proof.
  split_and!; [done|done|by repeat constructor| |done]. intros a b. unfold demo_disk. by destruct (_ && _).
Qed.
Lemma demo_run3 : runs step demo_trace (mkSys ide0 [] []) sys3.
Proof.
  eapply runs_cons; [eapply step_req; [set_solver|by vm_compute]|].
  eapply runs_cons; [eapply step_req; [set_solver|by vm_compute]|].
  eapply runs_cons; [eapply step_sleep; [set_solver|set_solver|by vm_compute]|].
  eapply runs_cons; [eapply step_req; [set_solver|by vm_compute]|].
  match goal with |- runs _ _ ?t _ => replace t with sys3 by (unfold sys3; f_equal; by vm_compute) end. apply runs_nil.
Qed.
Lemma runs_app {S L} (R : L -> S -> S -> Prop) tr tr' s1 s2 s3 :
  runs R tr s1 s2 -> runs R tr' s2 s3 -> runs R (tr ++ tr') s1 s3.
Proof. induction 1; intros; simpl; [done|]. econstructor; eauto. Qed.
Lemma demo_run6 : runs step (demo_trace ++ [Intr false; Intr false; Intr true]) (mkSys ide0 [] []) sys6.
Proof.
  apply (runs_app step _ _ _ _ _ demo_run3).
  apply runs_cons with (after_intr sys3); [refine (step_intr sys3 _ _); by vm_compute|].
  apply runs_cons with (after_intr (after_intr sys3)); [refine (step_intr (after_intr sys3) _ _); by vm_compute|].
  apply runs_cons with sys6; [refine (step_intr (after_intr (after_intr sys3)) _ _); by vm_compute|]. apply runs_nil.
Qed.
(** The read and the first write are done; the write of the bad sector is
    not, though its buffer says so. *)
Lemma ide_refines_witness :
  (b_data <$> i_bufs (sy_ide sys6) !! 0%nat) = Some (replicate 512 7) /\ dv_sector (i_ctl (sy_ide sys6)) 1 6 = replicate 512 9 /\
  dv_sector (i_ctl (sy_ide sys6)) 1 13 = zero_block /\ (b_flags <$> i_bufs (sy_ide sys6) !! 2%nat) = Some (Z.lor B_BUSY B_VALID) /\
  exists p, runs (spec_step true) (demo_trace ++ [Intr false; Intr false; Intr true]) (spec0 ide0 demo_disk) p /\ refines true sys6 p.
Proof.
  split_and!; [by vm_compute..|]. refine (ide_refines ide0 demo_disk _ _ demo_idle demo_run6).
Defined.
Lemma ide_completes_witness :
  exists q, chain (i_qnext ide3) (idequeue ide3) q /\ NoDup q /\ (length q <= length (i_bufs ide3))%nat /\
    (forall j, j ∈ [1%nat] -> j ∈ q) /\
    forall n, (forall k, q !! k = Some 1%nat -> (k < n)%nat) ->
      exists t', intrs n sys3 = Some t' /\ (1%nat ∉ sy_asleep t') /\ iderw_wait 1 (sy_ide t') = Ok tt (sy_ide t').
Proof.
  refine (ide_completes ide0 demo_disk demo_trace sys3 1 demo_idle demo_run3 _). set_solver.
Defined.

Definition mem_img : list (list Z) := replicate 5 zero_block ++ [replicate 512 7; zero_block; zero_block].
Lemma iderw_memide_witness :
  wp (iderw_start 0) noerr (fun _ s1 => failed (i_ctl s1) = false -> wp (ideintr;; iderw_wait 0) noerr (fun _ s' => exists bo,
    iderw 0 (mkBio (i_bufs ide0) (mkDisk mem_img []) []) = Ok tt bo /\ i_bufs s' = bcache bo /\
    forall k, 0 <= k < Z.of_nat (length mem_img) -> dv_sector (i_ctl s') 1 k = d_now (dsk bo) !!! Z.to_nat k) s1) ide0.
Proof.
  refine (iderw_memide ide0 demo_disk mem_img [] [] 0 (mkBuf B_BUSY 1 5 0 0 zero_block) demo_idle eq_refl eq_refl _ eq_refl _ _ _).
  - by split.
  - vm_compute. split; congruence.
  - by vm_compute.
  - assert (Hall : forallb (fun k => bool_decide (demo_disk 1 k = mem_img !!! Z.to_nat k)) (seqZ 0 8) = true) by (by vm_compute).
    rewrite forallb_forall in Hall. intros k Hk. eapply bool_decide_eq_true_1, Hall, list_elem_of_In, elem_of_seqZ.
    change (Z.of_nat (length mem_img)) with 8 in Hk. lia.
Defined.
