(* ===== verification/Mkfs.v ===== *)
(** mkfs.c: the host program that builds the initial file-system image.

    State: the image file as a list of 512-byte sectors and the three
    allocation counters.  A write past the end of the image extends it with
    zeroes, a read there fails, as the host's file does; [exit(1)] and a
    failed [assert] stop the program.  An input file is its argument string
    and, when the host can open it, the pieces that successive [read]s
    return. *)
From S2P Require Import Prelude Params Str Bio BioSpec Log Fs.

(** int nblocks, nlog, ninodes, size. *)
Definition nblocks : Z := 985.
Definition nlog : Z := LOGSIZE.
Definition ninodes : Z := 200.
Definition size : Z := 1024.

Record mkst := mkMk {
  mk_img : list (list Z); freeblock : Z; usedblocks : Z; freeinode : Z }.
Definition mk0 : mkst := mkMk [] 0 0 1.
Definition bitblocks : Z := size / (512 * 8) + 1.

Definition assert (b : bool) : K mkst unit := if b then ret tt else panic "assert".

(** ushort xshort, uint xint: the bytes of the result, read back on the
    little-endian host. *)
Definition xshort (x : Z) : Z := le_dec [u8 x; u8 (Z.shiftr x 8)].
Definition xint (x : Z) : Z :=
  le_dec [u8 x; u8 (Z.shiftr x 8); u8 (Z.shiftr x 16); u8 (Z.shiftr x 24)].

(** ** Sectors *)
Definition wsect (sec : Z) (buf : list Z) : K mkst unit :=
  modify (fun s =>
    let k := Z.to_nat sec in
    mkMk (<[k := buf]> (mk_img s ++ replicate (S k - length (mk_img s)) zero_block))
      (freeblock s) (usedblocks s) (freeinode s)).
Definition rsect (sec : Z) : K mkst (list Z) := fun s =>
  match mk_img s !! Z.to_nat sec with Some b => Ok b s | None => Fail (Panic "read") end.

(** ** Inodes *)
Definition i2b (inum : Z) : Z := inum / IPB + 2.
Definition din0 : inode := mkInode 0 0 0 0 0 0 0 0 0 (replicate 13 0).

Definition winode (inum : Z) (ip : inode) : K mkst unit :=
  let bn := i2b inum in
  buf <- rsect bn;;
  wsect bn (put_dinode (dip_off inum) ip buf).
Definition rinode (inum : Z) : K mkst inode :=
  let bn := i2b inum in
  buf <- rsect bn;;
  ret (get_dinode (dip_off inum) buf din0).

Definition set_nlink (n : Z) (ip : inode) : inode :=
  mkInode (i_dev ip) (i_inum ip) (i_ref ip) (i_flags ip) (i_type ip) (i_major ip) (i_minor ip)
    n (i_size ip) (i_addrs ip).
Definition ialloc (type : Z) : K mkst Z :=
  inum <- gets freeinode;;
  modify (fun s => mkMk (mk_img s) (freeblock s) (usedblocks s) (u32 (freeinode s + 1)));;
  winode inum (set_size (xint 0) (set_nlink (xshort 1) (set_type (xshort type) din0)));;
  ret inum.

(** ** The bitmap *)
Fixpoint balloc_bits (n : nat) : list Z :=
  match n with O => zero_block | S n => bit_set (Z.of_nat n) (balloc_bits n) end.
Definition balloc (used : Z) : K mkst unit :=
  assert (used <? 512 * 8);;
  wsect (ninodes / IPB + 3) (balloc_bits (Z.to_nat used)).

(** ** Appending to a file *)

(** x = xint(freeblock++); usedblocks++ *)
Definition newblock : K mkst Z :=
  x <- gets freeblock;;
  modify (fun s => mkMk (mk_img s) (u32 (freeblock s + 1)) (u32 (usedblocks s + 1)) (freeinode s));;
  ret (xint x).
Definition set_addr (k a : Z) (din : inode) : inode :=
  set_addrs (<[Z.to_nat k := a]> (i_addrs din)) din.

(** din.addrs[k], allocated if it is still zero. *)
Definition addr_at (k : Z) (din : inode) : K mkst inode :=
  a <- aget (i_addrs din) k;;
  if xint a =? 0 then x <- newblock;; ret (set_addr k x din) else ret din.

(** The block that holds block [fbn] of the file, allocated on demand. *)
Definition iblock (fbn : Z) (din : inode) : K mkst (inode * Z) :=
  if fbn <? NDIRECT then
    din <- addr_at fbn din;;
    a <- aget (i_addrs din) fbn;;
    ret (din, xint a)
  else
    din <- addr_at NDIRECT din;;
    a <- aget (i_addrs din) NDIRECT;;
    indirect <- rsect (xint a);;
    let k := fbn - NDIRECT in
    if rd 4 (4 * k) indirect =? 0 then
      x <- newblock;;
      let indirect := wr 4 (4 * k) x indirect in
      wsect (xint a) indirect;;
      ret (din, xint (rd 4 (4 * k) indirect))
    else ret (din, xint (rd 4 (4 * k) indirect)).

(** bcopy(p, buf + o, n) *)
Definition bcopy (p : list Z) (o n : Z) (buf : list Z) : K mkst (list Z) :=
  if (n <=? Z.of_nat (length p)) && (o + n <=? Z.of_nat (length buf))
  then ret (splice o (take (Z.to_nat n) p) buf) else fail Undef.

Definition iappend_body (st : list Z * Z * Z * inode) : K mkst ((list Z * Z * Z * inode) + (Z * inode)) :=
  let '(p, n, off, din) := st in
  if negb (0 <? n) then ret (inr (off, din)) else
  let fbn := off / 512 in
  assert (fbn <? MAXFILE);;
  let! (din, x) := iblock fbn din in
  let n1 := Z.min n (u32 ((fbn + 1) * 512 - off)) in
  buf <- rsect x;;
  buf <- bcopy p (off - fbn * 512) n1 buf;;
  wsect x buf;;
  ret (inl (drop (Z.to_nat n1) p, n - n1, u32 (off + n1), din)).
Definition iappend (inum : Z) (p : list Z) (n : Z) : K mkst unit :=
  din <- rinode inum;;
  let! (off, din) := while (S (Z.to_nat n)) iappend_body (p, n, xint (i_size din), din) in
  winode inum (set_size (xint off) din).

(** ** main *)
Definition enc_superblock : list Z :=
  le_enc 4 (xint size) ++ le_enc 4 (xint nblocks) ++ le_enc 4 (xint ninodes) ++ le_enc 4 (xint nlog).
Definition de0 : list Z := replicate DIRSIZ 0.
Definition DOT : Z := 46.
Definition UNDERSCORE : Z := 95.

(** sb, the counters, the zeroed sectors and the super block. *)
Definition mkfs_init : K mkst unit :=
  let used := ninodes / IPB + 3 + bitblocks in
  modify (fun s => mkMk (mk_img s) used used (freeinode s));;
  assert (nblocks + used + nlog =? size);;
  for_range (Z.to_nat (nblocks + used + nlog)) 0 (fun i => wsect i zero_block);;
  wsect 1 (splice 0 enc_superblock zero_block).

(** The root directory with . and .. *)
Definition mkfs_root : K mkst Z :=
  rootino <- ialloc T_DIR;;
  assert (rootino =? ROOTINO);;
  iappend rootino (enc_dirent (mkDe (xshort rootino) (splice 0 [DOT; 0] de0))) DIRENT_SZ;;
  iappend rootino (enc_dirent (mkDe (xshort rootino) (splice 0 [DOT; DOT; 0] de0))) DIRENT_SZ;;
  ret rootino.

(** An argument and what the host has under that name. *)
Record hostfile := mkHost { h_arg : list Z; h_reads : option (list (list Z)) }.

(** while((cc = read(fd, buf, sizeof(buf))) > 0) iappend(inum, buf, cc); *)
Fixpoint append_reads (inum : Z) (rs : list (list Z)) : K mkst unit :=
  match rs with
  | [] => ret tt
  | r :: rs =>
      if 0 <? Z.of_nat (length r)
      then iappend inum r (Z.of_nat (length r));; append_reads inum rs
      else ret tt
  end.

Definition skip_underscore (a : list Z) : list Z :=
  match a with c :: a' => if c =? UNDERSCORE then a' else a | [] => a end.

(** One iteration of for(i = 2; i < argc; i++). *)
Definition mkfs_file (rootino : Z) (f : hostfile) : K mkst unit :=
  assert (bool_decide (SLASH ∉ cstr (h_arg f)));;
  match h_reads f with
  | None => panic "open"
  | Some rs =>
      inum <- ialloc T_FILE;;
      iappend rootino
        (enc_dirent (mkDe (xshort inum) (strncpy de0 (skip_underscore (h_arg f)) (Z.of_nat DIRSIZ)))) DIRENT_SZ;;
      append_reads inum rs
  end.
Fixpoint mkfs_files (rootino : Z) (fs : list hostfile) : K mkst unit :=
  match fs with
  | [] => ret tt
  | f :: fs => mkfs_file rootino f;; mkfs_files rootino fs
  end.

(** fix size of root inode dir *)
Definition mkfs_fix (rootino : Z) : K mkst unit :=
  din <- rinode rootino;;
  let off := xint (i_size din) in
  let off := u32 ((off / BSIZE + 1) * BSIZE) in
  winode rootino (set_size (xint off) din).

Definition main (fs : list hostfile) : K mkst unit :=
  mkfs_init;;
  rootino <- mkfs_root;;
  mkfs_files rootino fs;;
  mkfs_fix rootino;;
  used <- gets usedblocks;;
  balloc used.
