(* ===== verification/MkfsSpec.v ===== *)
(** The image mkfs builds, related to the file-system invariant the kernel
    works under: while mkfs runs, the image read with the bitmap that mkfs
    writes only at the end ([mrep]) satisfies [fs_ok], and every allocation
    and write of [iappend] is one of the steps of [FsFile]. *)
From S2P Require Import Prelude Params Str Bio BioSpec Log LogSpec Recover BlockIf Fs FsBlocks FsFile FsSpec FsThms FsInode FsTrunc FsDemo FsDir FsPath Mkfs.

Implicit Types (v : Z -> list Z) (A c : list Z) (s : mkst) (x : Z).

Definition mg : geo := mkGeo size (size - nlog) nlog.
(** The sector of the bitmap and the first data block. *)
Definition BMAP : Z := ninodes / IPB + 3.
Definition DATA : Z := BMAP + bitblocks.

(** ** Machine words *)
Lemma xint_id x : 0 <= x < 2 ^ 32 -> xint x = x.
Proof.
  intros Hx. unfold xint, u8. rewrite !Z.shiftr_div_pow2 by lia.
  change (2 ^ 8) with 256. change (2 ^ 16) with 65536. change (2 ^ 24) with 16777216. cbn [le_dec].
  pose proof (Z.div_mod x 256 ltac:(lia)). pose proof (Z.div_mod (x / 256) 256 ltac:(lia)).
  pose proof (Z.div_mod (x / 256 / 256) 256 ltac:(lia)).
  replace (x / 65536) with (x / 256 / 256) by (rewrite Z.div_div by lia; done).
  replace (x / 16777216) with (x / 256 / 256 / 256) by (rewrite !Z.div_div by lia; done).
  rewrite (Z.mod_small (x / 256 / 256 / 256)); [lia|].
  rewrite !Z.div_div by lia. split; [apply Z.div_pos; lia|apply Z.div_lt_upper_bound; lia].
Qed.
Lemma xshort_id x : 0 <= x < 2 ^ 16 -> xshort x = x.
Proof.
  intros Hx. unfold xshort, u8. rewrite !Z.shiftr_div_pow2 by lia.
  change (2 ^ 8) with 256. cbn [le_dec]. pose proof (Z.div_mod x 256 ltac:(lia)).
  rewrite (Z.mod_small (x / 256)); [lia|]. split; [apply Z.div_pos; lia|apply Z.div_lt_upper_bound; lia].
Qed.

(** ** The bitmap *)
Lemma balloc_bits_block (n : nat) : (n <= 4096)%nat -> is_block (balloc_bits n).
Proof.
  induction n as [|n IH]; intros Hn; simpl; [apply zero_is_block|].
  apply block_bit_set; [apply IH; lia|unfold BPB, BSIZE; lia].
Qed.
Lemma balloc_bits_free (n : nat) x :
  (n <= 4096)%nat -> 0 <= x < BPB -> bit_free (balloc_bits n) x = (Z.of_nat n <=? x).
Proof.
  induction n as [|n IH]; intros Hn Hx; cbn [balloc_bits].
  - rewrite (proj2 (Z.leb_le _ _)) by lia. unfold bit_free. rewrite zero_byte; [done|].
    unfold BPB, BSIZE in Hx. pose proof (Z.div_lt_upper_bound x 8 512). lia.
  - rewrite bit_free_set; [|apply balloc_bits_block; lia|unfold BPB, BSIZE; lia|done].
    rewrite IH by lia.
    case_decide; destruct (Z.leb_spec (Z.of_nat n) x), (Z.leb_spec (Z.of_nat (S n)) x); (done || lia).
Qed.

(** ** The image in progress *)
Record mrep s v : Prop := {
  mr_len : length (mk_img s) = Z.to_nat size;
  mr_view : forall x, x <> BMAP -> v x = sector_of (mk_img s) x;
  mr_fb : DATA <= freeblock s <= size - nlog;
  mr_used : usedblocks s = freeblock s;
  mr_bm : v BMAP = balloc_bits (Z.to_nat (freeblock s));
  mr_zero : forall x, freeblock s <= x < size -> v x = zero_block;
  mr_sb : v 1 = splice 0 enc_superblock zero_block;
  mr_block : forall x, 0 <= x < size -> is_block (v x) }.

Section image.
Lemma BMAP_eq : BMAP = 28. Proof. done. Qed.
Lemma DATA_eq : DATA = 29. Proof. done. Qed.
Lemma sb_mkfs v : v 1 = splice 0 enc_superblock zero_block -> sb_of v = mkSb 1024 985 200 10.
Proof. intros Hv. unfold sb_of. rewrite Hv. by vm_compute. Qed.
Lemma mrep_sb s v : mrep s v -> sb_of v = mkSb 1024 985 200 10.
Proof. intros Hr. apply sb_mkfs, Hr. Qed.
Lemma mrep_bitmap s v x : mrep s v -> 0 <= x < size -> bitmap_of v x = BMAP.
Proof.
  intros Hr Hx. unfold bitmap_of. rewrite (mrep_sb s v Hr). unfold BBLOCK. cbn [sb_ninodes].
  rewrite Z.div_small; [done|]. unfold size, BPB, BSIZE in *. lia.
Qed.
Lemma mrep_dstart s v : mrep s v -> dstart v = DATA.
Proof. intros Hr. unfold dstart. rewrite (mrep_sb s v Hr). by rewrite (mrep_bitmap s v _ Hr). Qed.
Lemma mrep_free s v x : mrep s v -> 0 <= x < size -> blk_free v x = (freeblock s <=? x).
Proof.
  intros Hr Hx. unfold blk_free. rewrite (mrep_bitmap s v x Hr Hx), (mr_bm _ _ Hr).
  pose proof (mr_fb _ _ Hr) as Hfb. unfold DATA, size, nlog, LOGSIZE in *.
  rewrite (Z.mod_small x) by (unfold BPB, BSIZE; lia).
  rewrite balloc_bits_free; [rewrite Z2Nat.id; [done|]|..]; unfold BPB, BSIZE in *; rewrite ?BMAP_eq in *; change bitblocks with 1 in *; lia.
Qed.
Lemma mrep_fs s v : mrep s v -> fs_ok mg v.
Proof.
  intros Hr. pose proof (mr_fb _ _ Hr) as Hfb. rewrite DATA_eq in Hfb.
  split; rewrite ?(mrep_sb s v Hr), ?(mrep_dstart s v Hr); try done.
  - intros x Hx. apply (mr_block _ _ Hr). unfold mg, size, nlog, LOGSIZE in *. simpl in Hx. lia.
  - intros x Hx Hxs. rewrite DATA_eq in Hx. rewrite (mrep_free s v x Hr) by (unfold size; lia). lia.
Qed.
Lemma mrep_sector s v x : mrep s v -> 0 <= x < size -> x <> BMAP -> mk_img s !! Z.to_nat x = Some (v x).
Proof.
  intros Hr Hx Hb. rewrite (mr_view _ _ Hr) by done. unfold sector_of.
  rewrite (proj2 (Z.leb_le _ _)) by lia. apply list_lookup_lookup_total_lt. rewrite (mr_len _ _ Hr). lia.
Qed.

Lemma wp_rsect s v x E (Q : list Z -> mkst -> Prop) :
  mrep s v -> 0 <= x < size -> x <> BMAP -> Q (v x) s -> wp (rsect x) E Q s.
Proof. intros Hr Hx Hb HQ. unfold wp, rsect. by rewrite (mrep_sector s v x Hr). Qed.
(** A store outside the bitmap: to a block in use, or zeroes. *)
Definition store s x (d : list Z) : mkst :=
  mkMk (<[Z.to_nat x := d]> (mk_img s)) (freeblock s) (usedblocks s) (freeinode s).
Lemma wsect_in s x d E (Q : unit -> mkst -> Prop) :
  0 <= x < Z.of_nat (length (mk_img s)) -> Q tt (store s x d) -> wp (wsect x d) E Q s.
Proof.
  intros Hx HQ. apply wp_modify. cbv zeta.
  replace (Datatypes.S (Z.to_nat x) - length (mk_img s))%nat with O by lia. simpl. by rewrite app_nil_r.
Qed.
Lemma wp_wsect s v x d E (Q : unit -> mkst -> Prop) :
  mrep s v -> 2 <= x < freeblock s -> x <> BMAP -> is_block d ->
  (mrep (store s x d) (<[x := d]> v) -> Q tt (store s x d)) -> wp (wsect x d) E Q s.
Proof.
  intros Hr Hx Hb Hd HQ. pose proof (mr_len _ _ Hr) as Hl. pose proof (mr_fb _ _ Hr) as Hfb.
  unfold size, nlog, LOGSIZE in Hfb, Hl.
  apply wsect_in; [lia|]. apply HQ. split; cbn [store mk_img freeblock usedblocks].
  - by rewrite length_insert.
  - intros y Hy. unfold sector_of. destruct (decide (y = x)) as [->|Hyx].
    + rewrite fn_lookup_insert, (proj2 (Z.leb_le _ _)) by lia. symmetry. apply list_lookup_total_insert_eq. lia.
    + rewrite fn_lookup_insert_ne by done. rewrite (mr_view _ _ Hr) by done. unfold sector_of.
      destruct (Z.leb_spec 0 y); [|done]. symmetry. apply list_lookup_total_insert_ne. lia.
  - apply Hr.
  - apply Hr.
  - rewrite fn_lookup_insert_ne by done. apply Hr.
  - intros y Hy. rewrite fn_lookup_insert_ne by lia. by apply Hr.
  - rewrite fn_lookup_insert_ne by lia. apply Hr.
  - intros y Hy. destruct (decide (y = x)) as [->|]; [by rewrite fn_lookup_insert|].
    rewrite fn_lookup_insert_ne by done. by apply Hr.
Qed.

(** The allocation of the next block is the kernel's, the bitmap in mind. *)
Definition bump s : mkst := mkMk (mk_img s) (freeblock s + 1) (usedblocks s + 1) (freeinode s).
Lemma newblock_ok s v E (Q : Z -> mkst -> Prop) :
  mrep s v -> freeblock s < size - nlog ->
  (29 <= freeblock s < 1014 -> dstart v <= freeblock s < g_lstart mg -> blk_free v (freeblock s) = true ->
    mrep (bump s) (alloc_view v (freeblock s)) -> Q (freeblock s) (bump s)) ->
  wp newblock E Q s.
Proof.
  intros Hr Hfb HQ. pose proof (mr_fb _ _ Hr) as Hf. rewrite DATA_eq in Hf. unfold size, nlog, LOGSIZE in *.
  unfold newblock. apply wp_bind, wp_gets, wp_bind, wp_modify, wp_ret. rewrite (mr_used _ _ Hr).
  rewrite !u32_small, xint_id by lia.
  assert (Hb : blk_free v (freeblock s) = true).
  { rewrite (mrep_free s v) by (done || (unfold size; lia)). apply Z.leb_refl. }
  assert (Hd : dstart v <= freeblock s < g_lstart mg) by (rewrite (mrep_dstart s v Hr), DATA_eq; change (g_lstart mg) with 1014; lia).
  assert (Hbm : bitmap_of v (freeblock s) = 28) by (rewrite (mrep_bitmap s v) by (done || (unfold size; lia)); done).
  assert (Hat := alloc_at v (freeblock s)). rewrite Hbm in Hat.
  unfold bump in HQ. rewrite (mr_used _ _ Hr) in HQ. apply HQ; [lia|done..|].
  split; cbn [mk_img freeblock usedblocks]; rewrite ?BMAP_eq in *.
  - apply Hr.
  - intros x Hx. rewrite Hat. case_decide as Hxf.
    + subst x. rewrite <- (mr_view _ _ Hr) by done. symmetry. apply (mr_zero _ _ Hr). unfold size. lia.
    + rewrite decide_False by done. by apply Hr.
  - rewrite DATA_eq. unfold size, nlog, LOGSIZE. lia.
  - done.
  - rewrite Hat, decide_False, decide_True by (done || lia). rewrite <- BMAP_eq, (mr_bm _ _ Hr).
    replace (Z.to_nat (freeblock s + 1)) with (Datatypes.S (Z.to_nat (freeblock s))) by lia. cbn [balloc_bits].
    f_equal. rewrite Z2Nat.id by lia. apply Z.mod_small. unfold BPB, BSIZE. lia.
  - intros x Hx. rewrite Hat. case_decide; [done|]. rewrite decide_False by lia. apply Hr. lia.
  - rewrite Hat, !decide_False by lia. apply Hr.
  - intros x Hx. rewrite Hat. case_decide; [apply zero_is_block|]. case_decide; [|by apply Hr].
    apply block_bit_set; [apply Hr; unfold size; lia|]. rewrite Z.mod_small; unfold BPB, BSIZE; lia.
Qed.
End image.

(** ** Files under construction *)

(** Blocks of a file of [n] bytes, and blocks of the disk it takes. *)
Definition nblk (n : Z) : Z := (n + BSIZE - 1) / BSIZE.
Definition bcost (k : Z) : Z := if NDIRECT <? k then k + 1 else k.
(** The first [k] blocks are there and no others; [b]: the indirect block is. *)
Definition mapped v A (k : Z) (b : bool) : Prop :=
  (forall bn, 0 <= bn < MAXFILE -> blkno v A bn <> 0 <-> bn < k) /\ (ind_of A <> 0 <-> b = true).

Definition byte_of c (p : Z) : Z := default 0 (c !! Z.to_nat p).
Record holds v A c : Prop := {
  ho_ino : inode_ok mg v A;
  ho_bytes : forall p, 0 <= p < MAXFILE * BSIZE -> fbyte v A p = byte_of c p;
  ho_map : mapped v A (nblk (Z.of_nat (length c))) (NDIRECT <? nblk (Z.of_nat (length c))) }.

Section blocks.
Implicit Types (din : inode) (k fbn : Z).

Lemma nblk_lt n bn : 0 <= bn -> bn < nblk n <-> bn * BSIZE < n.
Proof.
  intros Hb. unfold nblk, BSIZE. pose proof (Z.div_mod (n + 512 - 1) 512 ltac:(lia)).
  pose proof (Z.mod_pos_bound (n + 512 - 1) 512 ltac:(lia)). lia.
Qed.
Lemma bcost_mono k k' : k <= k' -> bcost k <= bcost k'.
Proof. intros. unfold bcost. destruct (Z.ltb_spec NDIRECT k), (Z.ltb_spec NDIRECT k'); lia. Qed.

Lemma owned_small s v A x : mrep s v -> inode_ok mg v A -> owns v A x -> 29 <= x < 1014.
Proof.
  intros Hr Hi Ho. pose proof (io_range _ _ _ Hi x Ho) as Hx. rewrite (mrep_dstart s v Hr), DATA_eq in Hx.
  exact Hx.
Qed.
Lemma owned_stored s v A x : mrep s v -> inode_ok mg v A -> owns v A x -> x < freeblock s.
Proof.
  intros Hr Hi Ho. pose proof (owned_small s v A x Hr Hi Ho). pose proof (io_used _ _ _ Hi x Ho) as Hu.
  rewrite (mrep_free s v x Hr) in Hu by (unfold size; lia). lia.
Qed.
Lemma direct_small s v A k : mrep s v -> inode_ok mg v A -> 0 <= k < 13 -> 0 <= A !!! Z.to_nat k < 1014.
Proof.
  intros Hr Hi Hk. destruct (decide (A !!! Z.to_nat k = 0)) as [->|Hne]; [lia|].
  assert (Ho : owns v A (A !!! Z.to_nat k)); [|pose proof (owned_small s v A _ Hr Hi Ho); lia].
  destruct (decide (k = NDIRECT)) as [->|Hkn]; [by apply owns_ind|].
  assert (Hb : blkno v A k = A !!! Z.to_nat k) by (unfold blkno; rewrite (proj2 (Z.ltb_lt _ _)) by (unfold NDIRECT in *; lia); done).
  rewrite <- Hb in *. apply owns_blk; [rewrite MAXFILE_eq; lia|done].
Qed.

(** din.addrs[k] is there, or is allocated. *)
Lemma addr_at_ok s v din k E (Q : inode -> mkst -> Prop) :
  mrep s v -> inode_ok mg v (i_addrs din) -> 0 <= k < 13 ->
  (i_addrs din !!! Z.to_nat k <> 0 -> Q din s) ->
  (i_addrs din !!! Z.to_nat k = 0 -> wp newblock E (fun x => Q (set_addr k x din)) s) ->
  wp (addr_at k din) E Q s.
Proof.
  intros Hr Hi Hk H1 H0. pose proof (direct_small s v _ k Hr Hi Hk). unfold addr_at. apply wp_bind.
  apply wp_aget; [rewrite (io_len _ _ _ Hi); lia|]. rewrite xint_id by lia.
  case_match eqn:He; [apply Z.eqb_eq in He|apply Z.eqb_neq in He; by apply wp_ret, H1].
  apply wp_bind. eapply wp_post; [by apply H0|]. intros x s' HQ. by apply wp_ret.
Qed.

(** What iblock has done when it returns [(din', x)]. *)
Definition iblock_post s v din k fbn (r : inode * Z) (s' : mkst) : Prop :=
  exists v' A', r = (set_addrs A' din, blkno v' A' fbn) /\ mrep s' v' /\
    kept mg v (i_addrs din) v' A' /\ mapped v' A' (fbn + 1) (NDIRECT <? fbn + 1) /\
    freeblock s' = freeblock s + bcost (fbn + 1) - bcost k /\ freeinode s' = freeinode s.

Lemma iblock_direct s v din k fbn E :
  mrep s v -> inode_ok mg v (i_addrs din) -> mapped v (i_addrs din) k (NDIRECT <? k) ->
  0 <= fbn < NDIRECT -> k - 1 <= fbn <= k -> freeblock s + bcost (fbn + 1) - bcost k <= size - nlog ->
  wp (iblock fbn din) E (iblock_post s v din k fbn) s.
Proof.
  intros Hr Hi [Hm Hmi] Hb Hk Hfb. pose proof (direct_small s v _ fbn Hr Hi) as Hsm.
  unfold NDIRECT in *. specialize (Hsm ltac:(lia)).
  unfold iblock, NDIRECT. rewrite (proj2 (Z.ltb_lt fbn 12)) by lia. apply wp_bind.
  assert (Hbk : blkno v (i_addrs din) fbn = i_addrs din !!! Z.to_nat fbn)
    by (unfold blkno, NDIRECT; by rewrite (proj2 (Z.ltb_lt fbn 12)) by lia).
  assert (Hk12 : (12 <? k) = false) by lia. assert (Hf12 : (12 <? fbn + 1) = false) by lia.
  unfold bcost, NDIRECT in *. rewrite Hk12 in *. rewrite Hf12 in *.
  assert (Hne := Hm fbn ltac:(rewrite MAXFILE_eq; lia)). rewrite Hbk in Hne.
  apply (addr_at_ok s v); [done|done|lia|intros Ha|intros Ha].
  - assert (k = fbn + 1) as -> by lia. apply wp_bind, wp_aget; [rewrite (io_len _ _ _ Hi); lia|].
    apply wp_ret. rewrite xint_id by lia. exists v, (i_addrs din). rewrite set_addrs_id, Hbk.
    unfold bcost, NDIRECT. rewrite Hf12.
    split_and!; [done|done|apply kept_refl; [by eapply mrep_fs|done]|by split|lia|done].
  - assert (k = fbn) as -> by lia. eapply newblock_ok; [done|unfold size, nlog, LOGSIZE in *; lia|].
    intros Hr4 Hd Hfr Hr'. set (r := freeblock s) in *. apply wp_bind.
    assert (Hat : set_addr fbn r din = set_addrs (<[Z.to_nat fbn := r]> (i_addrs din)) din) by done.
    rewrite Hat. cbn [i_addrs set_addrs].
    apply wp_aget; [rewrite length_insert, (io_len _ _ _ Hi); lia|].
    rewrite list_lookup_total_insert_eq by (rewrite (io_len _ _ _ Hi); lia). apply wp_ret. rewrite xint_id by lia.
    assert (Hbl : forall bn, 0 <= bn -> blkno (alloc_view v r) (<[Z.to_nat fbn := r]> (i_addrs din)) bn =
      if decide (bn = fbn) then r else blkno v (i_addrs din) bn).
    { intros bn Hbn. apply (direct_blkno mg); [by eapply mrep_fs|done..|unfold NDIRECT; lia|done]. }
    exists (alloc_view v r), (<[Z.to_nat fbn := r]> (i_addrs din)).
    split_and!; [by rewrite Hbl, decide_True by lia|done| | |unfold bcost, NDIRECT, r; rewrite Hk12, Hf12; simpl; lia|done].
    + apply grow_direct; [by eapply mrep_fs|done|done|done|unfold NDIRECT; lia|done].
    + split.
      * intros bn Hbn. rewrite Hbl by lia. case_decide; [lia|]. rewrite Hm by done. lia.
      * rewrite direct_ind by (unfold NDIRECT; lia). unfold NDIRECT. rewrite Hmi, Hf12. done.
Qed.

(** The indirect block is there, or is allocated. *)
Lemma ind_ok s v din k E :
  mrep s v -> inode_ok mg v (i_addrs din) -> mapped v (i_addrs din) k (NDIRECT <? k) ->
  freeblock s + (if NDIRECT <? k then 0 else 1) <= size - nlog ->
  wp (addr_at NDIRECT din) E (fun din1 s1 => exists v1 A1, din1 = set_addrs A1 din /\ mrep s1 v1 /\
    kept mg v (i_addrs din) v1 A1 /\ mapped v1 A1 k true /\
    freeblock s1 = freeblock s + (if NDIRECT <? k then 0 else 1) /\ freeinode s1 = freeinode s) s.
Proof.
  intros Hr Hi [Hm Hmi] Hfb. pose proof (mrep_fs s v Hr) as Hf.
  apply (addr_at_ok s v); [done|done|done|intros Ha|intros Ha];
    change (i_addrs din !!! Z.to_nat NDIRECT) with (ind_of (i_addrs din)) in Ha.
  - assert (Hk : (NDIRECT <? k) = true) by (by apply Hmi). rewrite Hk in *.
    exists v, (i_addrs din). rewrite set_addrs_id. split_and!; [done|done|by apply kept_refl|by split|lia|done].
  - assert (Hk : (NDIRECT <? k) = false).
    { destruct (NDIRECT <? k); [|done]. by destruct (proj2 Hmi eq_refl). }
    rewrite Hk in *. eapply newblock_ok; [done|lia|]. intros Hr4 Hd Hfr Hr'.
    set (r := freeblock s) in *. exists (alloc_view v r), (<[Z.to_nat NDIRECT := r]> (i_addrs din)).
    split_and!; [done|done|by apply grow_indirect| |done|done]. split.
    + intros bn Hbn. rewrite (indirect_blkno mg); [by apply Hm|done..|lia].
    + rewrite (indirect_ind mg v) by done. split; [done|lia].
Qed.

(** The entry of the indirect block. *)
Lemma entry_ok s v din k fbn E :
  mrep s v -> inode_ok mg v (i_addrs din) -> mapped v (i_addrs din) k true ->
  NDIRECT <= fbn < MAXFILE -> k - 1 <= fbn <= k -> freeblock s + (fbn + 1 - k) <= size - nlog ->
  wp (a <- aget (i_addrs din) NDIRECT;;
      indirect <- rsect (xint a);;
      let e := fbn - NDIRECT in
      if rd 4 (4 * e) indirect =? 0 then
        x <- newblock;;
        let indirect := wr 4 (4 * e) x indirect in
        wsect (xint a) indirect;;
        ret (din, xint (rd 4 (4 * e) indirect))
      else ret (din, xint (rd 4 (4 * e) indirect))) E
    (fun r s' => exists v', r = (din, blkno v' (i_addrs din) fbn) /\ mrep s' v' /\
      kept mg v (i_addrs din) v' (i_addrs din) /\ mapped v' (i_addrs din) (fbn + 1) true /\
      freeblock s' = freeblock s + (fbn + 1 - k) /\ freeinode s' = freeinode s) s.
Proof.
  intros Hr Hi [Hm Hmi] Hb Hk Hfb. set (A := i_addrs din) in *. set (ia := ind_of A) in *.
  pose proof (mrep_fs s v Hr) as Hf. rewrite MAXFILE_eq in Hb. unfold NDIRECT in Hb.
  assert (Hne : ia <> 0) by (by apply Hmi). assert (Ho : owns v A ia) by (by apply owns_ind).
  pose proof (owned_small s v A ia Hr Hi Ho) as Hia. pose proof (owned_stored s v A ia Hr Hi Ho) as Hst.
  apply wp_bind, wp_aget; [rewrite (io_len _ _ _ Hi); unfold NDIRECT; lia|].
  change (A !!! Z.to_nat NDIRECT) with ia. rewrite xint_id by lia. apply wp_bind.
  apply (wp_rsect s v); [done|unfold size; lia|rewrite BMAP_eq; lia|]. cbv zeta.
  assert (Hbk : blkno v A fbn = rd 4 (4 * (fbn - NDIRECT)) (v ia)).
  { unfold blkno. fold ia. rewrite (proj2 (Z.ltb_ge _ _)), (proj2 (Z.eqb_neq ia 0)) by (done || (unfold NDIRECT; lia)). done. }
  rewrite <- Hbk. assert (Hmf := Hm fbn ltac:(rewrite MAXFILE_eq; lia)).
  destruct (Z.eqb_spec (blkno v A fbn) 0) as [H0|H0].
  - assert (k = fbn) as -> by lia. apply wp_bind. eapply newblock_ok; [done|lia|].
    intros Hr4 Hd Hfr Hr1. set (r := freeblock s) in *. set (e := fbn - NDIRECT).
    assert (He : 0 <= e < NINDIRECT) by (unfold e, NDIRECT; change NINDIRECT with 128; lia).
    assert (Hsame : alloc_view v r ia = v ia) by (by apply (grow_same mg v A r)).
    set (w := wr 4 (4 * e) r (v ia)).
    assert (Hblk : is_block (v ia)) by (apply Hr; unfold size; lia).
    assert (Hw : is_block w) by (destruct Hblk; split; [by unfold w; rewrite length_wr|by apply bytes_wr]).
    set (v2 := <[ia := w]> (alloc_view v r)).
    assert (Hv2 : v2 = <[ind_of A := wr 4 (4 * e) r (alloc_view v r (ind_of A))]> (alloc_view v r))
      by (unfold v2, w; fold ia; by rewrite Hsame).
    assert (Hbl : forall bn, 0 <= bn < MAXFILE -> blkno v2 A bn = if decide (bn = fbn) then r else blkno v A bn).
    { intros bn Hbn. rewrite Hv2. replace fbn with (NDIRECT + e) by (unfold e; lia).
      by apply (entry_blkno mg). }
    cbv zeta. apply wp_bind. eapply wp_wsect; [done|unfold bump; cbn [freeblock]; lia|rewrite BMAP_eq; lia|done|].
    intros Hr2. fold v2 in Hr2. apply wp_ret. exists v2.
    assert (Hrd : xint (rd 4 (4 * e) w) = r).
    { unfold w. rewrite rd_wr_eq; [|lia|destruct Hblk as [-> _]; change NINDIRECT with 128 in He; lia].
      rewrite mod32 by lia. apply xint_id. lia. }
    split_and!; [|done| | |cbn [store bump freeblock]; lia|done].
    + rewrite Hrd, Hbl, decide_True by (done || (rewrite MAXFILE_eq; lia)). done.
    + rewrite Hv2. apply (grow_entry mg v A r); try done. unfold ind_ent, e. fold ia. by rewrite <- Hbk.
    + split; [|by apply Hmi]. intros bn Hbn. rewrite Hbl by done. case_decide; [lia|]. rewrite Hm by done. lia.
  - assert (k = fbn + 1) as -> by lia. apply wp_ret. exists v.
    assert (Ho' : owns v A (blkno v A fbn)) by (apply owns_blk; [rewrite MAXFILE_eq; lia|done]).
    pose proof (owned_small s v A _ Hr Hi Ho'). rewrite xint_id by lia.
    split_and!; [done|done|by apply kept_refl|by split|lia|done].
Qed.

Lemma iblock_ok s v din k fbn E :
  mrep s v -> inode_ok mg v (i_addrs din) -> mapped v (i_addrs din) k (NDIRECT <? k) ->
  0 <= fbn < MAXFILE -> k - 1 <= fbn <= k -> freeblock s + bcost (fbn + 1) - bcost k <= size - nlog ->
  wp (iblock fbn din) E (iblock_post s v din k fbn) s.
Proof.
  intros Hr Hi Hm Hb Hk Hfb. destruct (decide (fbn < NDIRECT)) as [Hlt|Hge]; [apply iblock_direct; (done || lia)|].
  unfold iblock. rewrite (proj2 (Z.ltb_ge _ _)) by lia.
  assert (Hc : freeblock s + (if NDIRECT <? k then 0 else 1) + (fbn + 1 - k) = freeblock s + bcost (fbn + 1) - bcost k).
  { unfold bcost. rewrite (proj2 (Z.ltb_lt NDIRECT (fbn + 1))) by lia. case_match; lia. }
  apply wp_bind. eapply wp_post; [eapply ind_ok; [done|done|done|lia]|].
  intros din1 s1 (v1&A1&->&Hr1&Hk1&Hm1&Hf1&Hi1).
  eapply wp_post; [eapply (entry_ok s1 v1 (set_addrs A1 din) k fbn); [done|apply Hk1|done|lia|done|lia]|].
  intros r s2 (v2&->&Hr2&Hk2&Hm2&Hf2&Hi2). cbn [i_addrs set_addrs] in *. exists v2, A1.
  rewrite (proj2 (Z.ltb_lt NDIRECT (fbn + 1))) by lia. split_and!; [done|done| |done|lia|congruence].
  eapply becomes_ext; [by eapply kept_trans|]. intros p Hp. by apply (k_bytes _ _ _ _ _ _ Hk1).
Qed.
End blocks.
