(* ===== verification/MkfsThms.v ===== *)
(** iappend, the directory mkfs writes and the image it leaves. *)
From S2P Require Import Prelude Params Str Bio BioSpec Log LogSpec Recover BlockIf Fs FsBlocks FsFile FsSpec FsThms FsInode FsTrunc FsDemo FsDir FsPath Mkfs MkfsSpec.

Implicit Types (v : Z -> list Z) (A c src : list Z) (s : mkst) (x : Z) (din : inode).

Abbreviation len l := (Z.of_nat (length l)).

(** ** iappend *)
Section append.
Lemma byte_of_app c t p :
  0 <= p -> byte_of (c ++ t) p = if decide (len c <= p < len c + len t) then t !!! Z.to_nat (p - len c) else byte_of c p.
Proof.
  intros Hp. unfold byte_of. case_decide as Hd.
  - rewrite lookup_app_r by lia. replace (Z.to_nat p - length c)%nat with (Z.to_nat (p - len c)) by lia.
    by rewrite list_lookup_lookup_total_lt by lia.
  - destruct (decide (Z.to_nat p < length c)%nat); [by rewrite lookup_app_l by lia|].
    rewrite !lookup_ge_None_2 by (rewrite ?length_app; lia). done.
Qed.

(** Storing [t] after the [off] bytes of the file in its last block. *)
Lemma append_store v A c t fbn :
  fs_ok mg v -> inode_ok mg v A -> (forall p, 0 <= p < MAXFILE * BSIZE -> fbyte v A p = byte_of c p) ->
  fbn = len c / 512 -> len c + len t <= (fbn + 1) * 512 -> 0 <= fbn < MAXFILE -> blkno v A fbn <> 0 ->
  bytes t -> is_block (v (blkno v A fbn)) ->
  let d := splice (len c - fbn * 512) t (v (blkno v A fbn)) in
  is_block d /\ becomes mg v A (<[blkno v A fbn := d]> v) A (byte_of (c ++ t)).
Proof.
  intros Hf Hi Hc Hfbn Hend Hb Hne Ht Hblk d. set (o := len c - fbn * 512) in *.
  assert (Ho : 0 <= o < 512).
  { pose proof (Z.div_mod (len c) 512 ltac:(lia)). pose proof (Z.mod_pos_bound (len c) 512 ltac:(lia)). lia. }
  destruct Hblk as [Hl Hby].
  assert (Hd : is_block d) by (split; [by unfold d; rewrite length_splice|by apply bytes_splice]).
  split; [done|]. eapply becomes_ext; [by apply update_becomes|]. intros p Hp. cbv beta.
  rewrite byte_of_app by lia. unfold BSIZE in *.
  pose proof (Z.div_mod p 512 ltac:(lia)) as Hdm. pose proof (Z.mod_pos_bound p 512 ltac:(lia)) as Hpm.
  case_decide as Hpf.
  - unfold d. rewrite splice_at by lia. rewrite Hpf in Hdm.
    destruct (decide (o <= p mod 512 < o + len t)) as [Hin|Hin].
    + rewrite decide_True by lia. do 2 f_equal. lia.
    + rewrite decide_False by lia. rewrite <- Hc by lia. unfold fbyte, BSIZE. rewrite Hpf.
      by rewrite (proj2 (Z.eqb_neq _ _)).
  - rewrite decide_False; [by apply Hc|]. intros Hin. apply Hpf. symmetry.
    apply Z.div_unique with (p - fbn * 512); lia.
Qed.

Lemma becomes_holds v A v' A' c (k : Z) :
  becomes mg v A v' A' (byte_of c) -> mapped v' A' k (NDIRECT <? k) -> k = nblk (len c) -> holds v' A' c.
Proof. intros Hb Hm ->. split; [apply Hb|apply Hb|done]. Qed.

(** The state of the loop after [k] bytes of [src]. *)
Definition appended s v A c src (k : Z) A' (s' : mkst) v' : Prop :=
  0 <= k <= len src /\ mrep s' v' /\ becomes mg v A v' A' (byte_of (c ++ take (Z.to_nat k) src)) /\
  holds v' A' (c ++ take (Z.to_nat k) src) /\
  freeblock s' = freeblock s + bcost (nblk (len c + k)) - bcost (nblk (len c)) /\ freeinode s' = freeinode s.
Definition iapp_inv s v din c src (st : list Z * Z * Z * inode) (s' : mkst) : Prop :=
  let '(p, n, off, din') := st in
  exists k A' v', p = drop (Z.to_nat k) src /\ n = len src - k /\ off = len c + k /\
    din' = set_addrs A' din /\ appended s v (i_addrs din) c src k A' s' v'.

Lemma length_taken c src (k : Z) : 0 <= k <= len src -> len (c ++ take (Z.to_nat k) src) = len c + k.
Proof. intros. rewrite length_app, length_take. lia. Qed.

Lemma iappend_body_ok s v din c src E st s' :
  bytes src -> len c + len src <= MAXFILE * BSIZE ->
  freeblock s + bcost (nblk (len c + len src)) - bcost (nblk (len c)) <= size - nlog ->
  iapp_inv s v din c src st s' ->
  wp (iappend_body st) E (fun r s'' => match r with
    | inl st' => iapp_inv s v din c src st' s'' /\ (Z.to_nat st'.1.1.2 < Z.to_nat st.1.1.2)%nat
    | inr (off, din') => off = len c + len src /\ iapp_inv s v din c src ([], 0, off, din') s'' end) s'.
Proof.
  intros Hby Hmax Hroom. destruct st as [[[p n] off] din'].
  intros (k&A&v1&->&->&->&->&Hk&Hr&Hbc&[Hi Hc Hm]&Hfb&Hfi). rewrite MAXFILE_eq in Hmax. unfold BSIZE in Hmax.
  unfold iappend_body. destruct (Z.ltb_spec 0 (len src - k)) as [Hlt|Hge]; cbn [negb].
  - set (off := len c + k) in *. set (fbn := off / 512). set (c1 := c ++ take (Z.to_nat k) src) in *.
    assert (Hl1 : len c1 = off) by (by apply length_taken). rewrite Hl1 in Hm.
    pose proof (Z.div_mod off 512 ltac:(lia)) as Hdm. pose proof (Z.mod_pos_bound off 512 ltac:(lia)) as Hmod. fold fbn in Hdm.
    assert (Hfbn : 0 <= fbn < MAXFILE) by (rewrite MAXFILE_eq; lia).
    assert (Hnb : nblk off - 1 <= fbn <= nblk off).
    { unfold nblk, BSIZE. pose proof (Z.div_mod (off + 512 - 1) 512 ltac:(lia)).
      pose proof (Z.mod_pos_bound (off + 512 - 1) 512 ltac:(lia)). lia. }
    assert (Hstep : forall m, 0 < m -> off + m <= (fbn + 1) * 512 -> nblk (off + m) = fbn + 1).
    { intros m Hm0 Hm1. unfold nblk, BSIZE. symmetry. apply Z.div_unique with (off + m - 1 - fbn * 512); lia. }
    set (n1 := Z.min (len src - k) (u32 ((fbn + 1) * 512 - off))).
    assert (Hn1 : 0 < n1 <= len src - k /\ off + n1 <= (fbn + 1) * 512) by (unfold n1; rewrite u32_small by lia; lia).
    assert (Hgrow : bcost (fbn + 1) <= bcost (nblk (len c + len src))).
    { rewrite <- (Hstep n1) by lia. apply bcost_mono. unfold nblk, BSIZE. apply Z.div_le_mono; lia. }
    unfold assert. rewrite (proj2 (Z.ltb_lt fbn MAXFILE)) by lia. apply wp_bind, wp_ret, wp_bind.
    eapply wp_post; [eapply (iblock_ok s' v1 (set_addrs A din) (nblk off) fbn); [done..|lia]|].
    intros r s2 (v2&A2&->&Hr2&Hk2&Hm2&Hf2&Hi2). cbn [i_addrs set_addrs] in Hk2.
    assert (Hx : blkno v2 A2 fbn <> 0) by (apply Hm2; [done|lia]).
    assert (Ho : owns v2 A2 (blkno v2 A2 fbn)) by (by apply owns_blk).
    pose proof (owned_small s2 v2 A2 _ Hr2 (k_ino _ _ _ _ _ _ Hk2) Ho) as Hxs.
    pose proof (owned_stored s2 v2 A2 _ Hr2 (k_ino _ _ _ _ _ _ Hk2) Ho) as Hxf.
    apply wp_bind, (wp_rsect s2 v2); [done|unfold size; lia|rewrite BMAP_eq; lia|].
    assert (Hblk : is_block (v2 (blkno v2 A2 fbn))) by (apply Hr2; unfold size; lia).
    set (t := take (Z.to_nat n1) (drop (Z.to_nat k) src)).
    assert (Htl : len t = n1) by (unfold t; rewrite length_take, length_drop; lia).
    destruct (append_store v2 A2 c1 t fbn) as [Hd Hb2]; [by eapply mrep_fs|apply Hk2| |by rewrite Hl1|lia|done|done|
      by apply Forall_take, Forall_drop|done|].
    { intros p Hp. rewrite <- Hc by done. by apply (k_bytes _ _ _ _ _ _ Hk2). }
    rewrite Hl1 in Hd, Hb2. apply wp_bind. unfold bcopy. fold fbn off n1 t.
    rewrite (proj2 (Z.leb_le n1 _)) by (rewrite length_drop; lia).
    rewrite (proj2 (Z.leb_le (off - fbn * 512 + n1) _)) by (destruct Hblk as [-> _]; lia). cbn [andb].
    apply wp_ret, wp_bind. eapply wp_wsect; [done|lia|rewrite BMAP_eq; lia|done|]. intros Hr3.
    apply wp_ret. cbn [fst snd].
    assert (Hct : c1 ++ t = c ++ take (Z.to_nat (k + n1)) src).
    { unfold c1, t. rewrite <- app_assoc. f_equal. rewrite Z2Nat.inj_add by lia. by rewrite take_take_drop. }
    split; [|lia]. exists (k + n1), A2, (<[blkno v2 A2 fbn := splice (off - fbn * 512) t (v2 (blkno v2 A2 fbn))]> v2).
    rewrite drop_drop.
    split_and!; [f_equal; lia|lia|unfold off; rewrite u32_small; lia|done|]. unfold appended. rewrite <- Hct.
    assert (Hnew : nblk (len c + (k + n1)) = fbn + 1) by (rewrite <- (Hstep n1) by lia; f_equal; unfold off; lia).
    assert (Hb3 := kept_trans _ _ _ _ _ _ _ _ _ Hbc (kept_trans _ _ _ _ _ _ _ _ _ Hk2 Hb2)).
    split_and!; [lia|lia|exact Hr3|exact Hb3| |cbn [store freeblock]; rewrite Hnew, Hf2, Hfb; fold off; lia|cbn [store freeinode]; congruence].
    apply (becomes_holds _ _ _ _ _ (fbn + 1) Hb3); [|rewrite Hct, length_taken by lia; by rewrite Hnew].
    destruct Hm2 as [Hm2 Hmi2]. split; [|done]. intros bn Hbn. rewrite <- Hm2 by done.
    by rewrite (update_blkno mg v2 A2 fbn _ (k_ino _ _ _ _ _ _ Hk2)).
  - apply wp_ret. assert (k = len src) as -> by lia. split; [done|]. exists (len src), A, v1.
    split_and!; [by rewrite drop_ge by lia|lia|done|done|]. split; [lia|done].
Qed.
End append.

(** ** The files of the image *)

(** Inode [i] is a file of type [ty] with contents [c] and one link. *)
Record file_at v (i ty : Z) c : Prop := {
  fa_type : i_type (dnode v i) = ty;
  fa_dev : i_major (dnode v i) = 0 /\ i_minor (dnode v i) = 0;
  fa_nlink : i_nlink (dnode v i) = 1;
  fa_size : i_size (dnode v i) = len c;
  fa_holds : holds v (i_addrs (dnode v i)) c }.
Abbreviation blocks v i x := (owns v (i_addrs (dnode v i)) x).

Implicit Types (F : list (Z * list Z)).
(** Data blocks that files with these contents take. *)
Definition total F : Z := foldr (fun f n => bcost (nblk (len f.2)) + n) 0 F.

(** Inode [i + 1] holds file [i] of [F], the other inodes are free, no block
    belongs to two files. *)
Record minv s v F : Prop := {
  mi_rep : mrep s v;
  mi_free : freeinode s = len F + 1;
  mi_count : len F < ninodes;
  mi_file : forall i ty c, F !! i = Some (ty, c) -> file_at v (Z.of_nat i + 1) ty c;
  mi_rest : forall i, i = 0 \/ len F < i < ninodes -> i_type (dnode v i) = 0;
  mi_sep : forall i j x, (i < length F)%nat -> (j < length F)%nat -> i <> j ->
    blocks v (Z.of_nat i + 1) x -> ~ blocks v (Z.of_nat j + 1) x;
  mi_room : freeblock s = DATA + total F }.

Section inodes.
Implicit Types (i j : Z).

(** A file on an image that has the same contents in the file's blocks. *)
Lemma same_blkno v v' A bn : (forall x, owns v A x -> v' x = v x) -> blkno v' A bn = blkno v A bn.
Proof.
  intros Hv. unfold blkno. case_match; [done|]. destruct (Z.eqb_spec (ind_of A) 0); [done|].
  rewrite Hv; [done|]. by apply owns_ind.
Qed.
Lemma same_owns v v' A x : (forall x, owns v A x -> v' x = v x) -> owns v' A x <-> owns v A x.
Proof. intros Hv. unfold owns. setoid_rewrite (same_blkno v v' A _ Hv). done. Qed.
Lemma holds_frame s v s' v' A c :
  mrep s v -> mrep s' v' -> freeblock s <= freeblock s' -> (forall x, owns v A x -> v' x = v x) ->
  holds v A c -> holds v' A c.
Proof.
  intros Hr Hr' Hfb Hv [Hi Hb [Hm Hmi]]. split.
  - split; [apply Hi|..].
    + intros x Ho. rewrite (same_owns v v') in Ho by done. rewrite (mrep_dstart s' v' Hr'), <- (mrep_dstart s v Hr). by apply Hi.
    + intros x Ho. rewrite (same_owns v v') in Ho by done. pose proof (owned_small s v A x Hr Hi Ho).
      pose proof (owned_stored s v A x Hr Hi Ho). rewrite (mrep_free s' v' x Hr') by (unfold size; lia). lia.
    + intros bn bn'. rewrite !(same_blkno v v') by done. apply Hi.
    + intros bn. rewrite !(same_blkno v v') by done. apply Hi.
  - intros p Hp. rewrite <- Hb by done. unfold fbyte. rewrite (same_blkno v v') by done.
    case_match eqn:He; [done|]. rewrite Hv; [done|]. apply owns_blk; [by apply div_file|by apply Z.eqb_neq].
  - split; [|done]. intros bn Hbn. rewrite (same_blkno v v') by done. by apply Hm.
Qed.

Definition put_inode v i (ip : inode) : Z -> list Z :=
  <[IBLOCK i := put_dinode (dip_off i) ip (v (IBLOCK i))]> v.
Lemma iblock_range i : 0 <= i < ninodes -> 2 <= IBLOCK i < BMAP.
Proof.
  unfold ninodes, IBLOCK. rewrite BMAP_eq, IPB_eq. intros Hi.
  pose proof (Z.div_pos i 8). pose proof (Z.div_lt_upper_bound i 8 26). lia.
Qed.
Lemma dip_off_range i : 0 <= dip_off i <= 448.
Proof. unfold dip_off. change DINODE_SZ with 64. rewrite IPB_eq. pose proof (Z.mod_pos_bound i 8). lia. Qed.
Lemma dnode_put v i ip :
  is_block (v (IBLOCK i)) -> inode_typed ip -> dnode (put_inode v i ip) i = with_disk ip (dnode v i).
Proof.
  intros [Hl _] Ht. unfold dnode, put_inode. rewrite fn_lookup_insert. pose proof (dip_off_range i).
  rewrite get_put_dinode by (done || lia). done.
Qed.
Lemma dnode_put_ne v i j ip :
  0 <= i -> 0 <= j -> i <> j -> length (i_addrs ip) = 13%nat -> dnode (put_inode v i ip) j = dnode v j.
Proof.
  intros Hi Hj Hij Hl. unfold dnode, put_inode. destruct (decide (IBLOCK j = IBLOCK i)) as [He|He].
  - rewrite He, fn_lookup_insert. apply get_put_other; [done|apply dip_off_range..|].
    unfold IBLOCK in He. unfold dip_off. change DINODE_SZ with 64. rewrite IPB_eq in *.
    pose proof (Z.div_mod i 8 ltac:(lia)). pose proof (Z.div_mod j 8 ltac:(lia)). lia.
  - by rewrite fn_lookup_insert_ne.
Qed.

Lemma winode_ok s v i ip E (Q : unit -> mkst -> Prop) :
  mrep s v -> 0 <= i < ninodes ->
  (forall s', mrep s' (put_inode v i ip) -> freeblock s' = freeblock s -> freeinode s' = freeinode s -> Q tt s') ->
  wp (winode i ip) E Q s.
Proof.
  intros Hr Hi HQ. pose proof (iblock_range i Hi) as Hb. rewrite BMAP_eq in Hb.
  pose proof (mr_fb _ _ Hr) as Hfb. rewrite DATA_eq in Hfb. unfold winode. change (i2b i) with (IBLOCK i). apply wp_bind.
  apply (wp_rsect s v); [done|unfold size; lia|rewrite BMAP_eq; lia|].
  eapply wp_wsect; [done|lia|rewrite BMAP_eq; lia| |intros Hr'; by apply HQ].
  apply block_put_dinode. apply Hr. unfold size. lia.
Qed.
Lemma rinode_ok s v i E (Q : inode -> mkst -> Prop) :
  mrep s v -> 0 <= i < ninodes -> Q (with_disk (dnode v i) din0) s -> wp (rinode i) E Q s.
Proof.
  intros Hr Hi HQ. pose proof (iblock_range i Hi) as Hb. rewrite BMAP_eq in Hb.
  unfold rinode. change (i2b i) with (IBLOCK i). apply wp_bind.
  apply (wp_rsect s v); [done|unfold size; lia|rewrite BMAP_eq; lia|]. by apply wp_ret.
Qed.
(** Blocks of files are not inode blocks. *)
Lemma put_same s v i ip A x : mrep s v -> 0 <= i < ninodes -> inode_ok mg v A -> owns v A x -> put_inode v i ip x = v x.
Proof.
  intros Hr Hi Hok Ho. pose proof (owned_small s v A x Hr Hok Ho). pose proof (iblock_range i Hi) as Hb.
  rewrite BMAP_eq in Hb. unfold put_inode. by rewrite fn_lookup_insert_ne by lia.
Qed.
Lemma addrs_typed s v A : mrep s v -> inode_ok mg v A -> Forall (fun a => 0 <= a < 2 ^ 32) A.
Proof.
  intros Hr Hi. apply Forall_lookup. intros k a Ha. pose proof (lookup_lt_Some _ _ _ Ha) as Hk.
  rewrite (io_len _ _ _ Hi) in Hk. pose proof (direct_small s v A (Z.of_nat k) Hr Hi ltac:(lia)) as Hs.
  rewrite Nat2Z.id, (list_lookup_total_correct _ _ _ Ha) in Hs. lia.
Qed.
End inodes.

Section files.
Lemma total_insert F (i : nat) f f' :
  F !! i = Some f -> total (<[i := f']> F) = total F - bcost (nblk (len f.2)) + bcost (nblk (len f'.2)).
Proof.
  revert i. induction F as [|g F IH]; intros [|i]; simpl; intros Hi; [done..| |].
  - injection Hi as ->. lia.
  - unfold total in *. simpl. rewrite IH by done. lia.
Qed.
Lemma total_files_app F F' : total (F ++ F') = total F + total F'.
Proof. unfold total. induction F as [|f F IH]; simpl; [done|]. rewrite IH. lia. Qed.

(** Replacing file [i] of the image: the new inode is on the disk, its blocks
    are those it had or blocks that were free. *)
Lemma minv_replace s v F (i : nat) ty c c' s' v' A' ip :
  minv s v F -> F !! i = Some (ty, c) -> mrep s' v' ->
  becomes mg v (i_addrs (dnode v (Z.of_nat i + 1))) v' A' (byte_of c') -> holds v' A' c' ->
  freeblock s' = freeblock s + bcost (nblk (len c')) - bcost (nblk (len c)) -> freeblock s <= freeblock s' ->
  freeinode s' = freeinode s -> len c' < 2 ^ 32 ->
  ip = set_size (len c') (set_addrs A' (with_disk (dnode v (Z.of_nat i + 1)) din0)) -> - 2 ^ 15 <= ty < 2 ^ 15 ->
  forall s'', mrep s'' (put_inode v' (Z.of_nat i + 1) ip) -> freeblock s'' = freeblock s' ->
  freeinode s'' = freeinode s' -> minv s'' (put_inode v' (Z.of_nat i + 1) ip) (<[i := (ty, c')]> F).
Proof.
  intros [Hr Hfr Hct Hfile Hrest Hsep Hroom] Hi Hr' Hb Hh Hfb Hle Hfi Hc' Hip Hty s'' Hr'' Hfb' Hfi'.
  set (ino := Z.of_nat i + 1) in *. set (v'' := put_inode v' ino ip) in *.
  pose proof (lookup_lt_Some _ _ _ Hi) as Hlt. unfold ninodes in Hct.
  assert (Hino : 0 <= ino < ninodes) by (unfold ino, ninodes; lia).
  destruct (Hfile i ty c Hi) as [Ht [Hma Hmi] Hnl Hsz Hho]. fold ino in Ht, Hma, Hmi, Hnl, Hsz, Hho.
  assert (Hlen : length (i_addrs ip) = 13%nat) by (rewrite Hip; apply (io_len _ _ _ (ho_ino _ _ _ Hh))).
  assert (Hold : forall j, 0 <= j < ninodes -> dnode v' j = dnode v j).
  { intros j Hj. unfold dnode. rewrite (k_inodes _ _ _ _ _ _ Hb); [done|].
    rewrite (mrep_bitmap s v 0 Hr) by done. pose proof (iblock_range j Hj). lia. }
  assert (Hne : forall j, 0 <= j < ninodes -> j <> ino -> dnode v'' j = dnode v j).
  { intros j Hj Hji. unfold v''. rewrite dnode_put_ne by (done || lia). by apply Hold. }
  assert (Heq : dnode v'' ino = with_disk ip (dnode v ino)).
  { unfold v''. rewrite dnode_put, Hold; [done|done| |].
    - apply Hr'. pose proof (iblock_range ino Hino) as Hx. rewrite BMAP_eq in Hx. unfold size. lia.
    - rewrite Hip. split; cbn [set_size set_addrs with_disk i_type i_major i_minor i_nlink i_size i_addrs];
        rewrite ?Ht, ?Hma, ?Hmi, ?Hnl; [lia..|apply Hh|]. apply (addrs_typed s' v'); [done|apply Hh]. }
  assert (Hpi : forall x, owns v' A' x -> v'' x = v' x) by (intros; eapply put_same; [done|done|apply Hh|done]).
  assert (Hfr' : forall j x, (j < length F)%nat -> j <> i -> blocks v (Z.of_nat j + 1) x -> v'' x = v x /\ ~ owns v' A' x).
  { intros j x Hj Hji Ho. destruct (lookup_lt_is_Some_2 F j Hj) as [[tj cj] HFj].
    destruct (Hfile j tj cj HFj) as [_ _ _ _ Hhj].
    destruct (k_frame _ _ _ _ _ _ Hb x) as (Hx&_&Hno); [by apply (ho_ino _ _ _ Hhj)|by apply (ho_ino _ _ _ Hhj)|by apply (Hsep j i)|].
    split; [|done]. rewrite <- Hx. pose proof (owned_small s v _ x Hr (ho_ino _ _ _ Hhj) Ho).
    pose proof (iblock_range ino Hino) as Hbl. rewrite BMAP_eq in Hbl. unfold v'', put_inode.
    by rewrite fn_lookup_insert_ne by lia. }
  assert (HA : i_addrs (dnode v'' ino) = A') by (rewrite Heq, Hip; done).
  assert (Hbk : forall j x, (j < length F)%nat -> blocks v'' (Z.of_nat j + 1) x <->
    if decide (j = i) then owns v' A' x else blocks v (Z.of_nat j + 1) x).
  { intros j x Hj. case_decide as Hji.
    - subst j. fold ino. rewrite HA. by apply same_owns.
    - rewrite Hne by (unfold ninodes, ino; lia). apply same_owns. intros y Hy. by apply (Hfr' j). }
  split; [done|rewrite length_insert; lia|rewrite length_insert; unfold ninodes; lia|..].
  - intros j tj cj. destruct (decide (j = i)) as [->|Hji].
    + rewrite list_lookup_insert_eq by done. intros [= <- <-]. fold ino. split; rewrite ?HA; rewrite ?Heq, ?Hip;
        cbn [with_disk set_size set_addrs i_type i_major i_minor i_nlink i_size i_addrs]; [done|done|done|done|].
      eapply (holds_frame s' v'); [done|done|lia|done|done].
    + rewrite list_lookup_insert_ne by done. intros HFj. pose proof (lookup_lt_Some _ _ _ HFj) as Hj.
      destruct (Hfile j tj cj HFj) as [? ? ? ? ?]. split; rewrite (Hne (Z.of_nat j + 1)) by (unfold ninodes, ino; lia); try done.
      eapply (holds_frame s v); [done|done|lia| |done]. intros x Hx. by apply (Hfr' j).
  - rewrite length_insert. intros j Hj. rewrite Hne; [by apply Hrest|unfold ninodes in *; lia|unfold ino; lia].
  - rewrite length_insert. intros j k x Hj Hk Hjk. rewrite !Hbk by done.
    destruct (decide (j = i)) as [->|Hji], (decide (k = i)) as [->|Hki]; [done| | |by apply Hsep].
    + intros Ho Ho'. by destruct (Hfr' k x Hk Hki Ho').
    + intros Ho. by apply (Hfr' j x Hj Hji Ho).
  - rewrite (total_insert F i (ty, c)) by done. simpl. lia.
Qed.
End files.

Section calls.
Lemma nblk_mono n m : n <= m -> nblk n <= nblk m.
Proof. intros. unfold nblk, BSIZE. apply Z.div_le_mono; lia. Qed.

Lemma iappend_ok s v F (i : nat) ty c src E :
  minv s v F -> F !! i = Some (ty, c) -> - 2 ^ 15 <= ty < 2 ^ 15 -> bytes src ->
  len c + len src <= MAXFILE * BSIZE -> total (<[i := (ty, c ++ src)]> F) <= nblocks ->
  wp (iappend (Z.of_nat i + 1) src (len src)) E
    (fun _ s' => exists v', minv s' v' (<[i := (ty, c ++ src)]> F)) s.
Proof.
  intros Hm Hi Hty Hby Hmax Htot. destruct (mi_file _ _ _ Hm i ty c Hi) as [Ht _ Hnl Hsz Hho].
  pose proof (mi_rep _ _ _ Hm) as Hr. pose proof (mi_count _ _ _ Hm) as Hct. pose proof (lookup_lt_Some _ _ _ Hi) as Hlt.
  set (ino := Z.of_nat i + 1) in *. assert (Hino : 0 <= ino < ninodes) by (unfold ino; lia).
  set (din := with_disk (dnode v ino) din0).
  assert (HT : len (c ++ src) = len c + len src) by (rewrite length_app; lia).
  rewrite (total_insert F i (ty, c) (ty, c ++ src)) in Htot by done. simpl in Htot. rewrite HT in Htot.
  pose proof (mi_room _ _ _ Hm) as Hroom. rewrite DATA_eq in Hroom. unfold nblocks in Htot.
  pose proof Hmax as Hmax'. rewrite MAXFILE_eq in Hmax'. unfold BSIZE in Hmax'.
  unfold iappend. apply wp_bind. apply (rinode_ok s v); [done|done|]. fold din.
  change (i_size din) with (i_size (dnode v ino)). rewrite Hsz, xint_id by lia. apply wp_bind.
  apply (wp_while (iapp_inv s v din c src) (fun st => Z.to_nat st.1.1.2)).
  - exists 0, (i_addrs din), v. rewrite Z.add_0_r, Z.sub_0_r. split_and!; [done..|by rewrite set_addrs_id|].
    unfold appended. simpl take. rewrite app_nil_r, Z.add_0_r.
    split_and!; [lia|lia|done| |exact Hho|lia|done].
    eapply becomes_ext; [apply kept_refl; [by eapply mrep_fs|apply Hho]|]. apply Hho.
  - simpl. lia.
  - intros st s1 HI. eapply wp_post; [apply (iappend_body_ok s v din c src); [done|done| |done]|].
    { unfold size, nlog, LOGSIZE. lia. }
    intros [st'|[off din']] s2; [done|]. intros (->&k&A&v2&_&Hn&_&->&Hk&Hr2&Hb2&Hh2&Hf2&Hi2).
    assert (k = len src) as -> by lia. rewrite Nat2Z.id, firstn_all in Hb2, Hh2.
    eapply (winode_ok s2 v2); [done|done|]. intros s3 Hr3 Hf3 Hi3. eexists.
    eapply (minv_replace s v F i ty c (c ++ src) s2 v2 A (set_size (xint (len c + len src)) (set_addrs A din))); try done.
    + by rewrite HT.
    + rewrite Hf2. pose proof (bcost_mono (nblk (len c)) (nblk (len c + len src)) (nblk_mono (len c) (len c + len src) ltac:(lia))). lia.
    + lia.
    + by rewrite HT, xint_id by lia.
Qed.

Lemma ialloc_ok s v F ty E :
  minv s v F -> len F + 1 < ninodes -> 0 < ty < 2 ^ 15 ->
  wp (ialloc ty) E (fun r s' => r = len F + 1 /\ exists v', minv s' v' (F ++ [(ty, [])])) s.
Proof.
  intros [Hr Hfr Hct Hfile Hrest Hsep Hroom] Hlt Hty. unfold ninodes in Hlt.
  unfold ialloc. apply wp_bind, wp_gets, wp_bind, wp_modify, wp_bind. rewrite Hfr, u32_small by lia.
  set (s1 := mkMk _ _ _ _). assert (Hr1 : mrep s1 v) by (destruct Hr; by split).
  set (ip := set_size _ _). set (ino := len F + 1). assert (Hino : 0 <= ino < ninodes) by (unfold ino, ninodes; lia).
  assert (Hip : ip = mkInode 0 0 0 0 ty 0 0 1 0 (replicate 13 0)).
  { unfold ip. rewrite (xshort_id ty), (xshort_id 1), xint_id by lia. done. }
  assert (Htyped : inode_typed ip).
  { rewrite Hip. split; cbn [i_type i_major i_minor i_nlink i_size i_addrs]; [lia..|done|]. by apply Forall_replicate. }
  eapply (winode_ok s1 v); [done|done|]. intros s2 Hr2 Hf2 Hi2. apply wp_ret. split; [done|].
  set (v2 := put_inode v ino ip) in *. exists v2.
  assert (Heq : dnode v2 ino = with_disk ip (dnode v ino)).
  { apply dnode_put; [|done]. apply Hr. pose proof (iblock_range ino Hino) as Hx. rewrite BMAP_eq in Hx. unfold size. lia. }
  assert (Hne : forall j, 0 <= j < ninodes -> j <> ino -> dnode v2 j = dnode v j).
  { intros j Hj Hji. unfold v2. apply dnode_put_ne; [lia|lia|done|by rewrite Hip]. }
  assert (Hown : forall j x, (j < length F)%nat -> blocks v2 (Z.of_nat j + 1) x <-> blocks v (Z.of_nat j + 1) x).
  { intros j x Hj. rewrite Hne by (unfold ninodes, ino; lia). apply same_owns. intros y Hy.
    destruct (lookup_lt_is_Some_2 F j Hj) as [[tj cj] HFj]. eapply put_same; [done|done|apply (Hfile j tj cj HFj)|done]. }
  assert (Hnone : forall x, ~ blocks v2 ino x).
  { intros x. rewrite Heq, Hip. apply owns_empty. }
  assert (Hlen : forall j, (j < length (F ++ [(ty, [] : list Z)]))%nat -> (j < length F)%nat \/ Z.of_nat j + 1 = ino).
  { intros j. rewrite length_app. simpl. unfold ino. lia. }
  split; [done|rewrite length_app; simpl; cbn [freeinode s1] in Hi2; lia|rewrite length_app; unfold ninodes; simpl; lia|..].
  - intros j tj cj Hj. destruct (decide (j < length F)%nat) as [Hjl|Hjl].
    + rewrite lookup_app_l in Hj by done. destruct (Hfile j tj cj Hj) as [? ? ? ? ?].
      split; rewrite (Hne (Z.of_nat j + 1)) by (unfold ninodes, ino; lia); try done.
      eapply (holds_frame s v); [done|done|simpl in Hf2; lia| |done]. intros x Hx. eapply put_same; [done|done|apply (Hfile j tj cj Hj)|done].
    + apply list_lookup_singleton_Some in Hj || (rewrite lookup_app_r in Hj by lia; apply list_lookup_singleton_Some in Hj).
      destruct Hj as [Hj0 [= <- <-]]. assert (j = length F) as -> by lia. fold ino.
      split; rewrite Heq, Hip; try done. cbn [with_disk i_addrs]. split.
      * apply inode_ok_empty.
      * intros p Hp. unfold fbyte. rewrite blkno_empty; [done|]. by apply div_file.
      * split; [|done]. intros bn Hbn. rewrite blkno_empty by lia. change (nblk (len (@nil Z))) with 0. split; [done|lia].
  - rewrite length_app. cbn [length]. intros j Hj. rewrite Hne; [apply Hrest; lia|unfold ninodes in *; lia|unfold ino; lia].
  - intros j k x Hj%Hlen Hk%Hlen Hjk. destruct Hj as [Hj|Hj], Hk as [Hk|Hk].
    + rewrite !Hown by done. by apply Hsep.
    + rewrite Hk. intros _ Hx. by destruct (Hnone x).
    + rewrite Hj. intros Hx. by destruct (Hnone x).
    + unfold ino in *. lia.
  - rewrite total_files_app. change (total [(ty, [])]) with 0. cbn [freeblock s1] in Hf2. lia.
Qed.
End calls.
