(* ===== verification/MkfsImage.v ===== *)
(** main of mkfs.c: the image it leaves is a file system the kernel can boot
    from and walk, with every file under its name. *)
From S2P Require Import Prelude Params Str Bio BioSpec Log LogSpec Trans Recover BlockIf Storage Fs FsBlocks FsFile FsSpec FsThms FsInode FsTrunc FsDemo FsDir FsPath Mkfs MkfsSpec MkfsThms.

Implicit Types (v : Z -> list Z) (A c : list Z) (s : mkst) (x : Z) (F : list (Z * list Z)) (fs : list hostfile) (f : hostfile).

(** ** What the image holds *)
Definition fname f : list Z := skip_underscore (h_arg f).
Definition contents f : list Z := concat (default [] (h_reads f)).
Definition root_ents fs : list (list Z * Z) :=
  ([DOT], ROOTINO) :: ([DOT; DOT], ROOTINO) :: imap (fun k f => (fname f, Z.of_nat k + 2)) fs.
Definition dir_data (es : list (list Z * Z)) : list Z := concat (map (fun e => new_entry e.1 e.2) es).
Definition image_files fs : list (Z * list Z) :=
  (T_DIR, dir_data (root_ents fs)) :: map (fun f => (T_FILE, contents f)) fs.

(** A file the host can open and read, that fits an inode. *)
Record hosted f : Prop := {
  hs_arg : (SLASH ∉ cstr (h_arg f)) /\ bytes (h_arg f);
  hs_open : exists rs, h_reads f = Some rs /\ Forall (fun r => 0 < len r <= 512 /\ bytes r) rs;
  hs_size : len (contents f) <= MAXFILE * BSIZE }.

(** ** The start *)
Section start.
Definition img0 : list (list Z) := <[1%nat := splice 0 enc_superblock zero_block]> (replicate 1024 zero_block).
Definition start_state : mkst := mkMk img0 29 29 1.
Definition start_view : Z -> list Z := <[28 := balloc_bits 29]> (sector_of img0).

Lemma start_at x : x <> 1 -> x <> 28 -> 0 <= x < 1024 -> start_view x = zero_block.
Proof.
  intros H1 H28 Hx. unfold start_view. rewrite fn_lookup_insert_ne by done. unfold sector_of.
  rewrite (proj2 (Z.leb_le _ _)) by lia. unfold img0. rewrite list_lookup_total_insert_ne by lia.
  apply lookup_total_replicate_2. lia.
Qed.
Lemma start_one : start_view 1 = splice 0 enc_superblock zero_block.
Proof. unfold start_view. by rewrite fn_lookup_insert_ne by done. Qed.
Lemma start_rep : mrep start_state start_view.
Proof.
  split; cbn [start_state mk_img freeblock usedblocks]; rewrite ?BMAP_eq, ?DATA_eq.
  - unfold img0. by rewrite length_insert, length_replicate.
  - intros x Hx. unfold start_view. by rewrite fn_lookup_insert_ne.
  - unfold size, nlog, LOGSIZE. lia.
  - done.
  - apply fn_lookup_insert.
  - unfold size. intros x Hx. apply start_at; lia.
  - apply start_one.
  - unfold size. intros x Hx. destruct (decide (x = 28)) as [->|H28]; [unfold start_view; rewrite fn_lookup_insert; by apply balloc_bits_block; lia|].
    destruct (decide (x = 1)) as [->|H1]; [|rewrite start_at by done; apply zero_is_block].
    rewrite start_one. split; [by rewrite length_splice|]. apply bytes_splice; [|apply zero_is_block].
    unfold enc_superblock. repeat apply Forall_app_2; apply bytes_le_enc.
Qed.
Lemma start_inv : minv start_state start_view [].
Proof.
  split; [apply start_rep|done|done|done| | |done].
  - intros i Hi. assert (Hi' : 0 <= i < ninodes) by (unfold ninodes in *; simpl in Hi; lia).
    pose proof (iblock_range i Hi') as Hb. rewrite BMAP_eq in Hb. unfold dnode. rewrite start_at by lia.
    unfold get_dinode. cbn [i_type]. pose proof (dip_off_range i). by rewrite zero_rd by lia.
  - intros i j x Hi. simpl in Hi. lia.
Qed.
Lemma mkfs_init_ok E : wp mkfs_init E (fun _ s => s = start_state) mk0.
Proof.
  unfold mkfs_init. cbv zeta. apply wp_bind, wp_modify, wp_bind.
  change (nblocks + (ninodes / IPB + 3 + bitblocks) + nlog =? size) with true. apply wp_ret, wp_bind.
  change (Z.to_nat (nblocks + (ninodes / IPB + 3 + bitblocks) + nlog)) with 1024%nat.
  apply (wp_for_range (fun j s => s = mkMk (replicate (Z.to_nat j) zero_block) 29 29 1)); [done| |].
  - intros j s Hj ->. apply wp_modify. cbn [mk_img freeblock usedblocks freeinode]. rewrite length_replicate.
    replace (Datatypes.S (Z.to_nat j) - Z.to_nat j)%nat with 1%nat by lia. f_equal.
    rewrite <- replicate_add, insert_replicate. f_equal. lia.
  - intros s ->. apply wsect_in; [cbn [mk_img]; rewrite length_replicate; lia|done].
Qed.
End start.

(** ** The files, one after the other *)
Section run.
Lemma length_dir_data es : len (dir_data es) = DIRENT_SZ * len es.
Proof.
  unfold dir_data. induction es as [|e es IH]; [done|]. cbn [map concat length].
  rewrite length_app, Nat2Z.inj_add, length_new_entry, IH. lia.
Qed.
Lemma dir_data_snoc es e : dir_data (es ++ [e]) = dir_data es ++ new_entry e.1 e.2.
Proof. unfold dir_data. rewrite map_app, concat_app. simpl. by rewrite app_nil_r. Qed.
Lemma root_ents_snoc fs f : root_ents (fs ++ [f]) = root_ents fs ++ [(fname f, len fs + 2)].
Proof. unfold root_ents. rewrite imap_app. simpl. by rewrite Nat.add_0_r. Qed.
Lemma length_root_ents fs : len (root_ents fs) = len fs + 2.
Proof. unfold root_ents. cbn [length]. rewrite length_imap. lia. Qed.
Lemma bytes_fname f : bytes (h_arg f) -> bytes (fname f).
Proof.
  unfold fname, skip_underscore. intros Hb. destruct (h_arg f) as [|a l]; [done|].
  case_match; [by inversion Hb|done].
Qed.

(** What a file system with fewer or shorter files needs. *)
Lemma total_pos F : 0 <= total F.
Proof.
  induction F as [|f F IH]; [done|]. change (total (f :: F)) with (bcost (nblk (len f.2)) + total F).
  pose proof (bcost_mono 0 (nblk (len f.2))) as Hb. change (bcost 0) with 0 in Hb.
  assert (0 <= nblk (len f.2)) by (apply Z.div_pos; unfold BSIZE; lia). lia.
Qed.
Lemma total_le F F' :
  (forall i h, F !! i = Some h -> exists h', F' !! i = Some h' /\ len h.2 <= len h'.2) -> total F <= total F'.
Proof.
  revert F'. induction F as [|h F IH]; intros F' Hf; [apply total_pos|].
  destruct (Hf 0%nat h eq_refl) as (h'&H0&Hle). destruct F' as [|g F']; [done|]. injection H0 as ->.
  change (total (h :: F)) with (bcost (nblk (len h.2)) + total F).
  change (total (h' :: F')) with (bcost (nblk (len h'.2)) + total F').
  pose proof (bcost_mono _ _ (nblk_mono _ _ Hle)).
  assert (total F <= total F'); [|lia]. apply IH. intros i e Hi. by apply (Hf (Datatypes.S i)).
Qed.
Lemma image_files_le fs fs' : total (image_files fs) <= total (image_files (fs ++ fs')).
Proof.
  apply total_le. intros [|i] h; cbn [image_files lookup list_lookup].
  - intros [= <-]. eexists. split; [done|]. cbn [snd]. rewrite !length_dir_data, !length_root_ents, length_app. rewrite DIRENT_eq. lia.
  - intros Hi. exists h. split; [|done]. rewrite map_app. by apply lookup_app_l_Some.
Qed.

Lemma append_reads_ok s v F (i : nat) ty c rs E :
  minv s v F -> F !! i = Some (ty, c) -> - 2 ^ 15 <= ty < 2 ^ 15 ->
  Forall (fun r => 0 < len r <= 512 /\ bytes r) rs ->
  len (c ++ concat rs) <= MAXFILE * BSIZE -> total (<[i := (ty, c ++ concat rs)]> F) <= nblocks ->
  wp (append_reads (Z.of_nat i + 1) rs) E
    (fun _ s' => exists v', minv s' v' (<[i := (ty, c ++ concat rs)]> F)) s.
Proof.
  intros Hm Hi Hty Hrs. revert s v F c Hm Hi. induction Hrs as [|r rs [Hr Hb] Hrs IH]; intros s v F c Hm Hi Hmax Htot.
  - apply wp_ret. exists v. simpl. by rewrite app_nil_r, list_insert_id.
  - cbn [append_reads concat] in *. rewrite (proj2 (Z.ltb_lt 0 _)) by lia. rewrite app_assoc in *.
    rewrite length_app in Hmax. apply wp_bind. eapply wp_post; [eapply (iappend_ok s v F i ty c r); [done|done|done|done| |]|].
    + rewrite length_app in Hmax. lia.
    + etrans; [|exact Htot]. apply total_le. intros j h. pose proof (lookup_lt_Some _ _ _ Hi) as Hlt.
      destruct (decide (j = i)) as [->|Hji].
      * rewrite !list_lookup_insert_eq by done. intros [= <-]. eexists. split; [done|]. simpl. rewrite !length_app. lia.
      * rewrite !list_lookup_insert_ne by done. intros Hj. exists h. split; [done|lia].
    + intros [] s1 (v1&Hm1). pose proof (lookup_lt_Some _ _ _ Hi) as Hlt.
      eapply wp_post; [eapply (IH s1 v1 _ (c ++ r)); [done|by apply list_lookup_insert_eq|rewrite length_app; lia|]|].
      * by rewrite list_insert_insert_eq.
      * intros [] s2 (v2&Hm2). exists v2. by rewrite list_insert_insert_eq in Hm2.
Qed.

Lemma mkfs_root_ok E : wp mkfs_root E (fun r s => r = ROOTINO /\ exists v, minv s v (image_files [])) start_state.
Proof.
  unfold mkfs_root. apply wp_bind. eapply wp_post; [eapply (ialloc_ok _ _ [] T_DIR); [apply start_inv|done|done]|].
  intros r s (->&v&Hm). change (len [] + 1) with 1. apply wp_bind. apply wp_ret.
  change (enc_dirent (mkDe (xshort 1) (splice 0 [DOT; 0] de0))) with (new_entry [DOT] ROOTINO).
  change (enc_dirent (mkDe (xshort 1) (splice 0 [DOT; DOT; 0] de0))) with (new_entry [DOT; DOT] ROOTINO).
  apply wp_bind. rewrite <- (length_new_entry [DOT] ROOTINO) at 1.
  eapply wp_post; [eapply (iappend_ok s v _ 0 T_DIR []); [done|done|done|apply bytes_new_entry; by repeat constructor|done|done]|].
  intros [] s1 (v1&Hm1). apply wp_bind. rewrite <- (length_new_entry [DOT; DOT] ROOTINO).
  eapply wp_post; [eapply (iappend_ok s1 v1 _ 0 T_DIR); [done|done|done|apply bytes_new_entry; by repeat constructor|done|done]|].
  intros [] s2 (v2&Hm2). apply wp_ret. split; [done|]. by exists v2.
Qed.
End run.

Lemma lookup_S {B} (b : B) (l : list B) (n : nat) : (b :: l) !! Datatypes.S n = l !! n.
Proof. done. Qed.
Section image.
Lemma bytes_contents f : hosted f -> bytes (contents f).
Proof.
  intros [_ (rs&Hrs&Hall) _]. unfold contents. rewrite Hrs. simpl. clear Hrs.
  induction Hall as [|r rs [_ Hr] _ IH]; simpl; [constructor|]. by apply Forall_app_2.
Qed.
Lemma strncpy_full t : strncpy de0 t (Z.of_nat DIRSIZ) = strncpy_bytes t DIRSIZ.
Proof.
  unfold strncpy. rewrite Nat2Z.id. rewrite splice_app_eq by (rewrite ?length_strncpy_bytes; done).
  rewrite length_strncpy_bytes. simpl take. rewrite app_nil_l. unfold de0.
  rewrite drop_ge by (rewrite length_replicate; done). apply app_nil_r.
Qed.

Lemma mkfs_file_ok s v fs f E :
  minv s v (image_files fs) -> hosted f -> len fs + 2 < ninodes -> total (image_files (fs ++ [f])) <= nblocks ->
  wp (mkfs_file ROOTINO f) E (fun _ s' => exists v', minv s' v' (image_files (fs ++ [f]))) s.
Proof.
  intros Hm Hh Hn Htot. destruct Hh as [[Hsl Hba] (rs&Hrs&Hall) Hsz].
  unfold mkfs_file, assert. rewrite bool_decide_true by done. apply wp_bind, wp_ret. rewrite Hrs.
  assert (HlF : len (image_files fs) = len fs + 1) by (unfold image_files; cbn [length]; rewrite length_map; lia).
  apply wp_bind. eapply wp_post; [eapply ialloc_ok; [done|rewrite HlF; lia|done]|].
  intros inum s1 (->&v1&Hm1). rewrite HlF. replace (len fs + 1 + 1) with (len fs + 2) by lia.
  unfold ninodes in Hn. rewrite strncpy_full, xshort_id by lia. change (skip_underscore (h_arg f)) with (fname f).
  assert (Hent : enc_dirent (mkDe (len fs + 2) (strncpy_bytes (fname f) DIRSIZ)) = new_entry (fname f) (len fs + 2))
    by (unfold new_entry; by rewrite u16_small by lia).
  rewrite Hent. rewrite <- (length_new_entry (fname f) (len fs + 2)).
  set (root := dir_data (root_ents fs)). set (files := map (fun f => (T_FILE, contents f)) fs).
  set (F2 := (T_DIR, root ++ new_entry (fname f) (len fs + 2)) :: files ++ [(T_FILE, [])]).
  assert (Hc : contents f = concat rs) by (unfold contents; by rewrite Hrs).
  assert (HF3 : <[Datatypes.S (length files) := (T_FILE, concat rs)]> F2 = image_files (fs ++ [f])).
  { unfold F2, image_files. rewrite root_ents_snoc, dir_data_snoc, map_app. cbn [fst snd map]. rewrite Hc.
    change (<[Datatypes.S ?n := ?a]> (?b :: ?l)) with (b :: <[n := a]> l).
    by rewrite insert_app_r_alt, Nat.sub_diag by lia. }
  assert (Hlf : length files = length fs) by apply length_map.
  apply wp_bind. eapply wp_post; [eapply (iappend_ok s1 v1 _ 0 T_DIR root); [done|done|done|by apply bytes_new_entry, bytes_fname| |]|].
  - rewrite length_new_entry. unfold root. rewrite length_dir_data, length_root_ents, MAXFILE_eq, DIRENT_eq. unfold BSIZE. lia.
  - etrans; [|exact Htot]. rewrite <- HF3. apply total_le. change (<[0%nat := _]> _) with F2. intros j h Hj.
    destruct (decide (j = Datatypes.S (length files))) as [->|Hji].
    + exists (T_FILE, concat rs). split; [apply list_lookup_insert_eq; by eapply lookup_lt_Some|].
      unfold F2 in Hj. rewrite lookup_S, lookup_app_r, Nat.sub_diag in Hj by lia. injection Hj as <-. simpl. lia.
    + exists h. rewrite list_lookup_insert_ne by done. split; [done|lia].
  - intros [] s2 (v2&Hm2). change (<[0%nat := _]> _) with F2 in Hm2.
    replace (len fs + 2) with (Z.of_nat (Datatypes.S (length files)) + 1) by lia.
    eapply wp_post; [eapply (append_reads_ok s2 v2 F2 _ T_FILE []); [done| |done|done| |]|].
    + unfold F2. by rewrite lookup_S, lookup_app_r, Nat.sub_diag by lia.
    + simpl app. by rewrite <- Hc.
    + simpl app. by rewrite HF3.
    + intros [] s3 (v3&Hm3). simpl app in Hm3. rewrite HF3 in Hm3. eauto.
Qed.

Lemma mkfs_files_ok s v fs fs' E :
  minv s v (image_files fs) -> Forall hosted fs' -> len fs + len fs' + 1 < ninodes ->
  total (image_files (fs ++ fs')) <= nblocks ->
  wp (mkfs_files ROOTINO fs') E (fun _ s' => exists v', minv s' v' (image_files (fs ++ fs'))) s.
Proof.
  intros Hm Hh. revert s v fs Hm. induction Hh as [|f fs' Hf Hh IH]; intros s v fs Hm Hn Htot.
  - apply wp_ret. exists v. by rewrite app_nil_r.
  - cbn [mkfs_files length] in *. rewrite cons_middle, app_assoc in *. apply wp_bind.
    eapply wp_post; [eapply (mkfs_file_ok s v fs f); [done|done|unfold ninodes in *; lia|]|].
    + etrans; [|exact Htot]. apply image_files_le.
    + intros [] s1 (v1&Hm1). apply (IH s1 v1); [done|rewrite length_app; simpl; lia|done].
Qed.

(** The root directory is padded to whole blocks. *)
Definition padded fs : list Z :=
  let c := dir_data (root_ents fs) in c ++ replicate (512 - Z.to_nat (len c mod 512)) 0.
Definition final_files fs : list (Z * list Z) :=
  (T_DIR, padded fs) :: map (fun f => (T_FILE, contents f)) fs.

Lemma byte_of_pad c n p : 0 <= p -> byte_of (c ++ replicate n 0) p = byte_of c p.
Proof.
  intros Hp. rewrite byte_of_app by done. rewrite length_replicate. case_decide; [|done].
  unfold byte_of. rewrite (lookup_ge_None_2 c) by lia. apply lookup_total_replicate_2. lia.
Qed.
Lemma length_padded fs : (DIRENT_SZ * (len fs + 2)) mod 512 <> 0 ->
  len (padded fs) = (DIRENT_SZ * (len fs + 2) / 512 + 1) * 512 /\
  nblk (len (padded fs)) = nblk (DIRENT_SZ * (len fs + 2)).
Proof.
  intros Hm. set (n := DIRENT_SZ * (len fs + 2)) in *.
  assert (Hl : len (padded fs) = (n / 512 + 1) * 512).
  { unfold padded. cbv zeta. rewrite length_app, length_replicate, Nat2Z.inj_add, length_dir_data, length_root_ents. fold n.
    pose proof (Z.div_mod n 512 ltac:(lia)). pose proof (Z.mod_pos_bound n 512 ltac:(lia)). lia. }
  split; [done|]. rewrite Hl. unfold nblk, BSIZE.
  pose proof (Z.div_mod n 512 ltac:(lia)). pose proof (Z.mod_pos_bound n 512 ltac:(lia)).
  transitivity (n / 512 + 1); [symmetry; apply Z.div_unique with 511; lia|].
  apply Z.div_unique with (n mod 512 - 1); lia.
Qed.

Lemma mkfs_fix_ok s v fs E :
  minv s v (image_files fs) -> (DIRENT_SZ * (len fs + 2)) mod 512 <> 0 -> len fs + 1 < ninodes ->
  wp (mkfs_fix ROOTINO) E (fun _ s' => exists v', minv s' v' (final_files fs)) s.
Proof.
  intros Hm Hmod Hn. pose proof (mi_rep _ _ _ Hm) as Hr. unfold ninodes in Hn.
  destruct (mi_file _ _ _ Hm 0%nat _ _ eq_refl) as [Ht Hd Hnl Hsz Hho]. change (Z.of_nat 0 + 1) with ROOTINO in *.
  rewrite length_dir_data, length_root_ents in Hsz. destruct (length_padded fs Hmod) as [Hlp Hnp].
  set (n := DIRENT_SZ * (len fs + 2)) in *. set (din := with_disk (dnode v ROOTINO) din0).
  assert (Hn0 : 0 <= n / 512 < 10).
  { unfold n. rewrite DIRENT_eq. split; [apply Z.div_pos; lia|apply Z.div_lt_upper_bound; lia]. }
  assert (Hn1 : 0 <= n < 2 ^ 32) by (unfold n; rewrite DIRENT_eq; lia).
  unfold mkfs_fix. apply wp_bind. apply (rinode_ok s v); [done|done|]. fold din. cbv zeta.
  change (i_size din) with (i_size (dnode v ROOTINO)). rewrite Hsz, (xint_id n) by done. unfold BSIZE.
  rewrite u32_small, xint_id, <- Hlp by lia.
  apply (winode_ok s v); [done|done|]. intros s' Hr' Hf' Hi'. exists (put_inode v ROOTINO (set_size (len (padded fs)) din)).
  destruct Hho as [Hi Hby Hmap]. rewrite length_dir_data, length_root_ents in Hmap. fold n in Hmap.
  assert (Hby' : forall p, 0 <= p < MAXFILE * BSIZE -> fbyte v (i_addrs (dnode v ROOTINO)) p = byte_of (padded fs) p).
  { intros p Hp. rewrite Hby by done. unfold padded. cbv zeta. by rewrite byte_of_pad by lia. }
  eapply (minv_replace s v (image_files fs) 0 T_DIR (dir_data (root_ents fs)) (padded fs) s v (i_addrs (dnode v ROOTINO))); try done.
  - eapply becomes_ext; [apply kept_refl; [by eapply mrep_fs|done]|done].
  - split; [done|done|]. by rewrite Hnp.
  - rewrite Hnp, length_dir_data, length_root_ents. fold n. lia.
  - lia.
Qed.

(** The bitmap on the disk. *)
Lemma balloc_final s v F E :
  minv s v F -> wp (balloc (usedblocks s)) E (fun _ s' => minv s' (sector_of (mk_img s')) F) s.
Proof.
  intros [Hr Hfr Hct Hfile Hrest Hsep Hroom]. pose proof (mr_fb _ _ Hr) as Hfb. rewrite DATA_eq in Hfb.
  unfold size, nlog, LOGSIZE in Hfb. unfold balloc. apply wp_bind. rewrite (mr_used _ _ Hr). unfold assert.
  rewrite (proj2 (Z.ltb_lt _ _)) by lia. apply wp_ret. change (ninodes / IPB + 3) with 28.
  pose proof (mr_len _ _ Hr) as Hl. unfold size in Hl. apply wsect_in; [lia|].
  set (s' := store s 28 _). assert (Hv : forall x, sector_of (mk_img s') x = v x).
  { intros x. unfold s', store, sector_of. cbn [mk_img]. destruct (decide (x = 28)) as [->|Hx].
    - rewrite list_lookup_total_insert_eq by lia. symmetry. exact (mr_bm _ _ Hr).
    - rewrite (mr_view _ _ Hr x Hx). unfold sector_of. destruct (Z.leb_spec 0 x); [|done].
      apply list_lookup_total_insert_ne. lia. }
  set (v' := sector_of (mk_img s')) in *.
  assert (Hr' : mrep s' v').
  { split; unfold s', store; cbn [mk_img freeblock usedblocks]; [by rewrite length_insert|done|apply Hr|apply Hr|..].
    - rewrite Hv. apply Hr.
    - intros x Hx. rewrite Hv. by apply Hr.
    - rewrite Hv. apply Hr.
    - intros x Hx. rewrite Hv. by apply Hr. }
  assert (Hdn : forall i, dnode v' i = dnode v i) by (intros i; unfold dnode; by rewrite Hv).
  split; [done|done|done| | | |done].
  - intros i ty c Hi. destruct (Hfile i ty c Hi). split; rewrite Hdn; try done.
    eapply (holds_frame s v); [done|done|done| |done]. intros x _. apply Hv.
  - intros i Hi. rewrite Hdn. by apply Hrest.
  - intros i j x Hi Hj Hij. rewrite !Hdn, !(same_owns v v') by (intros; apply Hv). by apply Hsep.
Qed.
End image.

(** ** The directory as the kernel reads it *)
Section dir.
Implicit Types (es : list (list Z * Z)) (k : Z) (name : list Z).

Lemma dir_data_app es es' : dir_data (es ++ es') = dir_data es ++ dir_data es'.
Proof. unfold dir_data. by rewrite map_app, concat_app. Qed.
Lemma dent_byte_of c k (t : list Z) :
  0 <= k -> len t = DIRENT_SZ -> (forall i, 0 <= i < DIRENT_SZ -> byte_of c (DIRENT_SZ * k + i) = t !!! Z.to_nat i) ->
  dent (byte_of c) k = dec_dirent t.
Proof.
  intros Hk Ht Hb. unfold dent. f_equal. apply list_eq_same_length with (length t); [done| |].
  { rewrite length_map, length_seqZ. lia. }
  intros i a b Hi. rewrite list_lookup_fmap, lookup_seqZ_lt by lia. cbn [fmap option_fmap option_map].
  intros [= <-] Hbb. rewrite Hb by lia. rewrite Nat2Z.id. by apply list_lookup_total_correct.
Qed.
Lemma dent_dir es n k e :
  0 <= k -> es !! Z.to_nat k = Some e -> dent (byte_of (dir_data es ++ replicate n 0)) k = dec_dirent (new_entry e.1 e.2).
Proof.
  intros Hk He. apply dent_byte_of; [done|apply length_new_entry|]. intros i Hi. rewrite DIRENT_eq in Hi.
  rewrite byte_of_pad by (rewrite DIRENT_eq; lia). rewrite <- (take_drop_middle es _ _ He), dir_data_app.
  pose proof (lookup_lt_Some _ _ _ He) as Hlt.
  assert (Hl : len (dir_data (take (Z.to_nat k) es)) = DIRENT_SZ * k)
    by (rewrite length_dir_data, length_take; rewrite DIRENT_eq; lia).
  change (dir_data (e :: ?l)) with (new_entry e.1 e.2 ++ dir_data l). pose proof (length_new_entry e.1 e.2) as Hn.
  rewrite byte_of_app by (rewrite DIRENT_eq; lia). rewrite Hl, length_app. rewrite DIRENT_eq in *.
  rewrite decide_True by lia. replace (16 * k + i - 16 * k) with i by lia.
  apply lookup_total_app_l. lia.
Qed.
Lemma dent_pad es n k :
  len es <= k -> dent (byte_of (dir_data es ++ replicate n 0)) k = dec_dirent (replicate 16 0).
Proof.
  intros Hk. apply dent_byte_of; [lia|done|]. rewrite DIRENT_eq. intros i Hi. rewrite byte_of_pad by lia.
  unfold byte_of. rewrite lookup_ge_None_2; [symmetry; apply lookup_total_replicate_2; lia|].
  apply Nat2Z.inj_le. rewrite length_dir_data, DIRENT_eq. lia.
Qed.
Lemma dec_new_entry name inum :
  0 <= inum < 2 ^ 16 -> dec_dirent (new_entry name inum) = mkDe inum (strncpy_bytes name DIRSIZ).
Proof. intros Hi. unfold new_entry. rewrite u16_small by done. by apply dec_enc_dirent; [|apply length_strncpy_bytes]. Qed.

Lemma root_ents_small fs (k : nat) e : len fs + 1 < ninodes -> root_ents fs !! k = Some e -> 1 <= e.2 <= len fs + 1.
Proof.
  unfold ninodes. intros Hn. destruct k as [|[|k]]; cbn [root_ents lookup list_lookup].
  - intros [= <-]. unfold ROOTINO. simpl. lia.
  - intros [= <-]. unfold ROOTINO. simpl. lia.
  - intros Hk. change (imap (fun (k : nat) f => (fname f, Z.of_nat k + 2)) fs !! k = Some e) in Hk.
    rewrite list_lookup_imap in Hk. destruct (fs !! k) as [f|] eqn:Hf; [|done].
    injection Hk as <-. apply lookup_lt_Some in Hf. simpl. lia.
Qed.
End dir.

Section final.
Context (fs : list hostfile) (s : mkst).
Let v := sector_of (mk_img s).
Hypotheses (Hm : minv s v (final_files fs)) (Hn : len fs + 1 < ninodes)
  (Hmod : (DIRENT_SZ * (len fs + 2)) mod 512 <> 0).

Lemma final_root : file_at v ROOTINO T_DIR (padded fs).
Proof using Hm. exact (mi_file _ _ _ Hm 0%nat _ _ eq_refl). Qed.
Lemma final_file (k : nat) f : fs !! k = Some f -> file_at v (Z.of_nat k + 2) T_FILE (contents f).
Proof using Hm.
  intros Hk. replace (Z.of_nat k + 2) with (Z.of_nat (Datatypes.S k) + 1) by lia. apply (mi_file _ _ _ Hm).
  unfold final_files. rewrite lookup_S, list_lookup_fmap, Hk. done.
Qed.
Lemma no_holes_at i ty c : file_at v i ty c -> len c <= MAXFILE * BSIZE -> no_holes v (dnode v i).
Proof.
  intros [_ _ _ Hsz [_ _ [Hmap _]]] Hmax p Hp. rewrite Hsz in Hp.
  assert (Hp' : 0 <= p / BSIZE < MAXFILE) by (apply div_file; lia).
  apply Hmap; [done|]. apply nblk_lt; [lia|]. pose proof (Z.div_mod p BSIZE ltac:(done)).
  pose proof (Z.mod_pos_bound p BSIZE ltac:(done)). lia.
Qed.
Lemma padded_small : len (padded fs) <= MAXFILE * BSIZE /\ len (padded fs) mod DIRENT_SZ = 0.
Proof using Hmod Hn.
  destruct (length_padded fs Hmod) as [-> _]. unfold ninodes in Hn.
  assert (DIRENT_SZ * (len fs + 2) / 512 < 10) by (rewrite DIRENT_eq; apply Z.div_lt_upper_bound; lia).
  rewrite MAXFILE_eq, DIRENT_eq in *. unfold BSIZE. split; [lia|].
  replace ((16 * (len fs + 2) / 512 + 1) * 512) with ((16 * (len fs + 2) / 512 + 1) * 32 * 16) by lia.
  apply Z.mod_mul. done.
Qed.
(** Entry [k] of the root directory. *)
Lemma final_dent k : 0 <= k < nents (dnode v ROOTINO) ->
  dent (fbyte v (i_addrs (dnode v ROOTINO))) k = dent (byte_of (padded fs)) k.
Proof using Hm Hmod Hn.
  intros Hk. apply dent_ext. intros p Hp. destruct padded_small as [Hmax Hm16].
  destruct final_root as [_ _ _ Hsz [_ Hb _]]. apply Hb. unfold nents in Hk. rewrite Hsz in Hk.
  rewrite DIRENT_eq in *. pose proof (Z.div_mod (len (padded fs)) 16 ltac:(lia)). lia.
Qed.
Lemma final_entry (k : nat) e : root_ents fs !! k = Some e ->
  Z.of_nat k < nents (dnode v ROOTINO) /\
  dent (fbyte v (i_addrs (dnode v ROOTINO))) (Z.of_nat k) = mkDe e.2 (strncpy_bytes e.1 DIRSIZ).
Proof using Hm Hmod Hn.
  intros He. pose proof (root_ents_small fs k e Hn He) as He2. unfold ninodes in Hn.
  assert (Hk : Z.of_nat k < nents (dnode v ROOTINO)).
  { unfold nents. destruct final_root as [_ _ _ -> _]. apply lookup_lt_Some in He.
    pose proof (length_root_ents fs). apply Z.lt_le_trans with (len fs + 2); [lia|].
    apply Z.div_le_lower_bound; [done|]. unfold padded. cbv zeta. rewrite length_app, Nat2Z.inj_add, length_dir_data. rewrite DIRENT_eq. lia. }
  split; [done|]. rewrite final_dent by lia. unfold padded. cbv zeta.
  rewrite (dent_dir _ _ _ e); [|lia|by rewrite Nat2Z.id]. apply dec_new_entry. lia.
Qed.

Lemma final_tree : tree_ok mg v.
Proof using Hm Hmod Hn.
  pose proof (mi_rep _ _ _ Hm) as Hr. pose proof (mrep_sb s v Hr) as Hsb. pose proof final_root as Hroot.
  assert (Hdir : forall i, 0 <= i < sb_ninodes (sb_of v) -> i_type (dnode v i) = T_DIR -> i = ROOTINO).
  { rewrite Hsb. cbn [sb_ninodes]. intros i Hi Hty.
    assert (Hl : len (final_files fs) = len fs + 1) by (unfold final_files; cbn [length]; rewrite length_map; lia).
    destruct (decide (i = 0 \/ len (final_files fs) < i)) as [Hout|Hin].
    { rewrite (mi_rest _ _ _ Hm) in Hty; [done|]. unfold ninodes. lia. }
    destruct (decide (i = ROOTINO)) as [|Hne]; [done|]. exfalso. unfold ROOTINO in Hne.
    destruct (lookup_lt_is_Some_2 fs (Z.to_nat (i - 2)) ltac:(lia)) as [f Hf].
    pose proof (fa_type _ _ _ _ (final_file _ f Hf)) as Ht. replace (Z.of_nat (Z.to_nat (i - 2)) + 2) with i in Ht by lia.
    rewrite Ht in Hty. done. }
  destruct padded_small as [Hmax Hm16]. split; [by eapply mrep_fs|..].
  - intros i Hi Hty. rewrite (Hdir i Hi Hty). rewrite (fa_size _ _ _ _ Hroot). split_and!; [|lia|lia|done|].
    + apply (fa_holds _ _ _ _ Hroot).
    + by apply (no_holes_at _ T_DIR (padded fs)).
  - intros i k Hi Hty. rewrite (Hdir i Hi Hty). intros Hk. cbv zeta. rewrite Hsb. cbn [sb_ninodes].
    destruct (root_ents fs !! Z.to_nat k) as [e|] eqn:He.
    + destruct (final_entry _ e He) as [_ Hd]. rewrite Z2Nat.id in Hd by lia. rewrite Hd. cbn [de_inum]. intros _.
      pose proof (root_ents_small fs _ e Hn He) as He2. unfold ninodes in Hn. split; [lia|].
      destruct (decide (e.2 = 1)) as [->|Hne].
      * destruct Hroot as [Ht _ Hl _ _]. change (dnode v 1) with (dnode v ROOTINO). by rewrite Ht, Hl.
      * destruct (lookup_lt_is_Some_2 fs (Z.to_nat (e.2 - 2)) ltac:(lia)) as [f Hf].
        destruct (final_file _ f Hf) as [Ht _ Hl _ _].
        replace (Z.of_nat (Z.to_nat (e.2 - 2)) + 2) with e.2 in Ht, Hl by lia. by rewrite Ht, Hl.
    + rewrite final_dent by done. unfold padded. cbv zeta. rewrite dent_pad; [done|].
      apply lookup_ge_None in He. lia.
Qed.

(** Every file is found under its name and holds the bytes mkfs read. *)
Definition image_holds : Prop := forall (k : nat) f, fs !! k = Some f ->
  let ip := dnode v (Z.of_nat k + 2) in
  walk v ROOTINO [fname f] = Some (Z.of_nat k + 2) /\ i_type ip = T_FILE /\ i_nlink ip = 1 /\
  i_size ip = len (contents f) /\ inode_ok mg v (i_addrs ip) /\ no_holes v ip /\
  map (fbyte v (i_addrs ip)) (seqZ 0 (len (contents f))) = contents f.
Definition name_key (e : list Z * Z) : list Z := take DIRSIZ (cstr e.1).

Lemma final_walk (k : nat) f :
  NoDup (map name_key (root_ents fs)) -> fs !! k = Some f -> walk v ROOTINO [fname f] = Some (Z.of_nat k + 2).
Proof using Hm Hmod Hn.
  intros Hnd Hk. cbn [walk]. rewrite (fa_type _ _ _ _ final_root). change (T_DIR =? T_DIR) with true. cbv iota.
  assert (He : root_ents fs !! Datatypes.S (Datatypes.S k) = Some (fname f, Z.of_nat k + 2)).
  { unfold root_ents. rewrite !lookup_S, list_lookup_imap, Hk. done. }
  destruct (final_entry _ _ He) as [Hlt Hd]. cbn [fst snd] in Hd. unfold dnode_find, dir_find.
  set (g := fbyte v (i_addrs (dnode v ROOTINO))) in *.
  rewrite (find_first (matches g (fname f)) _ (Z.of_nat (Datatypes.S (Datatypes.S k)))); [| |split|].
  - cbn [fmap option_fmap option_map]. by rewrite Hd.
  - lia.
  - rewrite Hd. cbn [de_inum]. lia.
  - rewrite Hd. cbn [de_name]. by apply same_name_copy.
  - intros j Hj [_ Hsame]. destruct (lookup_lt_is_Some_2 (root_ents fs) (Z.to_nat j)) as [e Hej].
    { pose proof (lookup_lt_Some _ _ _ He). lia. }
    destruct (final_entry _ _ Hej) as [_ Hdj]. rewrite Z2Nat.id in Hdj by lia. fold g in Hdj. rewrite Hdj in Hsame. cbn [de_name] in Hsame.
    apply (proj1 (same_name_copy _ _)) in Hsame.
    assert (Hij : Datatypes.S (Datatypes.S k) = Z.to_nat j); [|lia].
    eapply (NoDup_lookup _ _ _ (name_key (fname f, Z.of_nat k + 2)) Hnd); rewrite list_lookup_fmap.
    + by rewrite He.
    + rewrite Hej. cbn [fmap option_fmap option_map]. f_equal. symmetry. exact Hsame.
Qed.
Lemma final_holds :
  Forall hosted fs -> NoDup (map name_key (root_ents fs)) -> image_holds.
Proof using Hm Hmod Hn.
  intros Hh Hnd k f Hk. cbv zeta. pose proof (final_file k f Hk) as Hf. pose proof (final_walk k f Hnd Hk) as Hw.
  pose proof (proj1 (Forall_lookup _ _) Hh k f Hk) as [_ _ Hmax].
  assert (Hhole := no_holes_at _ _ _ Hf Hmax). destruct Hf as [Ht _ Hnl Hsz [Hi Hb _]].
  split_and!; [done..|]. apply list_eq_same_length with (length (contents f)); [done| |].
  { rewrite length_map, length_seqZ. lia. }
  intros i a b Hilt. rewrite list_lookup_fmap, lookup_seqZ_lt by lia. cbn [fmap option_fmap option_map].
  intros [= <-] Hbb. rewrite Hb by lia. unfold byte_of. replace (Z.to_nat (0 + Z.of_nat i)) with i by lia. by rewrite Hbb.
Qed.
(** The header of the log says that it is empty. *)
Lemma final_log : hdr_n (v (sb_start (mk_img s))) = 0.
Proof using Hm.
  pose proof (mi_rep _ _ _ Hm) as Hr. assert (Hsb : dec_sb (sector_of (mk_img s) 1) = mkSb 1024 985 200 10) by exact (mrep_sb s v Hr).
  unfold sb_start. rewrite Hsb. cbn [sb_size sb_nlog]. rewrite (mr_zero _ _ Hr); [done|].
  pose proof (mr_fb _ _ Hr). unfold size, nlog, LOGSIZE in *. lia.
Qed.
(** Inode 1 is the root, inodes 2 to [len fs + 1] the files: no block belongs
    to two of them, and the other inodes are free. *)
Definition image_disjoint : Prop := forall i j x, 1 <= i <= len fs + 1 -> 1 <= j <= len fs + 1 -> i <> j ->
  owns v (i_addrs (dnode v i)) x -> owns v (i_addrs (dnode v j)) x -> False.
Definition image_rest : Prop := forall i, i = 0 \/ len fs + 1 < i < ninodes -> i_type (dnode v i) = 0.
Lemma final_disjoint : image_disjoint /\ image_rest.
Proof using Hm Hn.
  assert (Hlen : len (final_files fs) = len fs + 1) by (unfold final_files; cbn [length]; rewrite ?length_map; lia). split.
  - intros i j x Hi Hj Hij Ho Ho'. eapply (mi_sep _ _ _ Hm (Z.to_nat (i - 1)) (Z.to_nat (j - 1)) x); [lia..| |];
      by rewrite Z2Nat.id, Z.sub_add by lia.
  - intros i Hi. apply (mi_rest _ _ _ Hm). lia.
Qed.
Lemma final_boot : image_ok (mk_img s) /\ log_ok (sb_start (mk_img s)) (sb_logsize (mk_img s)) (mk_img s).
Proof using Hm.
  pose proof (mi_rep _ _ _ Hm) as Hr. pose proof (mr_len _ _ Hr) as Hl. change (Z.to_nat size) with 1024%nat in Hl.
  assert (Hsb : dec_sb (sector_of (mk_img s) 1) = mkSb 1024 985 200 10) by exact (mrep_sb s v Hr).
  unfold image_ok, sb_start, sb_logsize. rewrite Hsb. cbn [sb_size sb_nlog]. split.
  - split_and!; [|lia..]. apply Forall_lookup. intros k d Hk.
    pose proof (lookup_lt_Some _ _ _ Hk). assert (Hv : v (Z.of_nat k) = d).
    { unfold v, sector_of. rewrite (proj2 (Z.leb_le _ _)), Nat2Z.id by lia. by apply list_lookup_total_correct. }
    rewrite <- Hv. apply Hr. unfold size. lia.
  - apply log_ok_empty; [done|]. change (sector_of (mk_img s) (1024 - 10)) with (v 1014).
    rewrite (mr_zero _ _ Hr); [done|]. pose proof (mr_fb _ _ Hr). unfold size, nlog, LOGSIZE in *. lia.
Qed.
End final.

(** Files that mkfs can put on a disk of its size. *)
Record fits_disk fs : Prop := {
  fd_files : Forall hosted fs;
  fd_inodes : len fs + 1 < ninodes;
  fd_blocks : total (image_files fs) <= nblocks;
  fd_names : NoDup (map name_key (root_ents fs));
  (** the root directory does not end at a block boundary *)
  fd_root : (DIRENT_SZ * (len fs + 2)) mod BSIZE <> 0 }.

Lemma main_ok fs : fits_disk fs ->
  wp (main fs) noerr (fun _ s => minv s (sector_of (mk_img s)) (final_files fs)) mk0.
Proof.
  intros [Hh Hn Htot Hnd Hmod]. unfold BSIZE in Hmod. unfold main. apply wp_bind. eapply wp_post; [apply mkfs_init_ok|].
  intros [] s ->. apply wp_bind. eapply wp_post; [apply mkfs_root_ok|]. intros r s1 (->&v1&Hm1). apply wp_bind.
  eapply wp_post; [eapply (mkfs_files_ok s1 v1 [] fs); [done|done|simpl; lia|done]|].
  intros [] s2 (v2&Hm2). simpl app in Hm2. apply wp_bind.
  eapply wp_post; [eapply (mkfs_fix_ok s2 v2 fs); [done|done|lia]|].
  intros [] s3 (v3&Hm3). apply wp_bind, wp_gets. eapply balloc_final. done.
Qed.

(** C4. The image mkfs builds is a well-formed file system.  On any list of
    readable files that fit (at most 198 of them, every one at most MAXFILE
    blocks, together no more than the 985 data blocks, with distinct names,
    the entries of the root directory not filling whole blocks),
    mkfs finishes without a failed assert; its image can be booted from: the
    super block places the log inside the disk, and the header of the log
    says that it is empty.  The image satisfies the invariant under which the kernel's path walk
    and file operations are verified; in the bitmap the first blocks are in use, as many
    as the metadata and the files take, and the others free.  It holds every file: the
    root directory leads from its name to an inode of type T_FILE with one
    link, whose blocks spell the bytes that were read.  No block belongs to
    two inodes, the root directory among them, and all other inodes are free. *)
Theorem mkfs_image_ok fs :
  fits_disk fs ->
  wp (main fs) noerr (fun _ s => let v := sector_of (mk_img s) in
    image_ok (mk_img s) /\ log_ok (sb_start (mk_img s)) (sb_logsize (mk_img s)) (mk_img s) /\ tree_ok mg v /\
    hdr_n (v (sb_start (mk_img s))) = 0 /\
    (forall x, 0 <= x < size -> blk_free v x = (DATA + total (image_files fs) <=? x)) /\
    image_holds fs s /\ image_disjoint fs s /\ image_rest fs s) mk0.
Proof.
  intros Hfit. eapply wp_post; [by apply main_ok|]. destruct Hfit as [Hh Hn Htot Hnd Hmod].
  intros [] s Hm. cbv zeta. destruct (final_boot fs s Hm) as [Hb1 Hb2].
  destruct (final_disjoint fs s Hm Hn) as [Hd1 Hd2].
  refine (conj Hb1 (conj Hb2 (conj (final_tree fs s Hm Hn Hmod) (conj (final_log fs s Hm) (conj _ (conj _ (conj Hd1 Hd2))))))); [|by apply final_holds].
  intros x Hx. rewrite (mrep_free s _ x (mi_rep _ _ _ Hm) Hx), (mi_room _ _ _ Hm).
  do 2 f_equal. unfold final_files, image_files, total. cbn [foldr snd]. destruct (length_padded fs Hmod) as [_ ->].
  by rewrite length_dir_data, length_root_ents.
Qed.

(** ** The first boot *)
Definition inode0 : inode := mkInode 0 0 0 0 0 0 0 0 0 [].
Definition icache0 : list inode := replicate NINODE inode0.

Lemma icache0_ok v : cache_ok v None icache0.
Proof.
  assert (Hz : forall i (x : inode), icache0 !! i = Some x -> i_ref x = 0) by (intros i x [-> _]%lookup_replicate; done).
  split_and!; [split|..].
  - intros i j x y Hx Hy Hrx. rewrite (Hz i x Hx) in Hrx. lia.
  - intros i x Hx. rewrite (Hz i x Hx). lia.
  - intros i x Hx Hrx. rewrite (Hz i x Hx) in Hrx. lia.
  - done.
Qed.
Lemma icache0_refs n : refs icache0 n = 0.
Proof.
  unfold refs, icache0. induction NINODE as [|k IH]; [done|]. cbn [replicate foldr]. rewrite IH. unfold ref_to.
  rewrite bool_decide_eq_false_2; [done|]. intros [? _]. done.
Qed.
Lemma words_plain (p : list Z) : SLASH ∉ cstr p -> words p = (cstr p, []).
Proof.
  induction p as [|a p IH]; simpl; [done|]. destruct (Z.eqb_spec a 0); [done|]. intros Hno.
  rewrite IH by set_solver. destruct (Z.eqb_spec a SLASH) as [->|]; [set_solver|done].
Qed.
Lemma path_elems_plain (p : list Z) : SLASH ∉ cstr p -> cstr p <> [] -> path_elems (SLASH :: p) = [cstr p].
Proof.
  intros Hno Hne. rewrite path_elems_slash. unfold path_elems. rewrite words_plain by done.
  cbn [fst snd]. by destruct (cstr p).
Qed.
Lemma cstr_fname f : SLASH ∉ cstr (h_arg f) -> SLASH ∉ cstr (fname f).
Proof.
  unfold fname, skip_underscore. destruct (h_arg f) as [|a l]; [done|]. case_match eqn:Ha; [|done].
  apply Z.eqb_eq in Ha as ->. simpl. set_solver.
Qed.
(** Walking compares names as C strings. *)
Lemma dir_find_named (h : Z -> Z) n (e e' : list Z) : same_name e e' -> dir_find h n e = dir_find h n e'.
Proof.
  intros Hs. unfold dir_find. generalize (seqZ 0 n) as l. induction l as [|k l IH]; [done|]. cbn [List.find].
  rewrite IH. replace (bool_decide (matches h e k)) with (bool_decide (matches h e' k)); [done|].
  apply bool_decide_ext. unfold matches, same_name in *. by rewrite Hs.
Qed.
Lemma walk_same v i (e e' : list Z) : same_name e e' -> walk v i [e] = walk v i [e'].
Proof. intros Hs. cbn [walk]. unfold dnode_find. by rewrite (dir_find_named _ _ e e' Hs). Qed.
Lemma same_name_cstr (p : list Z) : same_name (cstr p) p.
Proof. unfold same_name. by rewrite (cstr_id (cstr p)) by apply cstr_nonzero. Qed.

(** C19. The image mkfs builds boots, and the kernel finds every file mkfs was
    given: after binit, initlog and begin_trans on the image, namei of
    "/name", with the empty inode cache of the boot, returns, without a panic,
    an inode of the cache that stands for the inode mkfs gave the file. *)
Theorem mkfs_boot_namei fs :
  fits_disk fs ->
  wp (main fs) noerr (fun _ s => forall (k : nat) f devsw cwd,
    fs !! k = Some f -> cstr (fname f) <> [] ->
    wp (bootlog;; begin_trans) noerr (fun _ st =>
      wp (namei devsw cwd (SLASH :: fname f)) noerr
        (fun r (w : fsysL) => exists ip (x : inode), r = Some ip /\ f_icache w !! ip = Some x /\ caches 1 (Z.of_nat k + 2) x)
        (mkFs st icache0 [])) (mkL (boot (mk_img s)) log0)) mk0.
Proof.
  intros Hfit. eapply wp_post; [by apply main_ok|]. destruct Hfit as [Hh Hn Htot Hnd Hmod].
  intros [] s Hm k f devsw cwd Hk Hne. destruct (final_boot fs s Hm) as [Hio Hlog].
  pose proof (mi_rep _ _ _ Hm) as Hr. set (v := sector_of (mk_img s)) in *.
  assert (Hsb : dec_sb (sector_of (mk_img s) 1) = mkSb 1024 985 200 10) by exact (mrep_sb s v Hr).
  assert (Hrec : recovered (sb_start (mk_img s)) (mk_img s) = v).
  { unfold recovered, disk_log, sb_start. rewrite Hsb. cbn [sb_size sb_nlog].
    change (sector_of (mk_img s) (1024 - 10)) with (v 1014). rewrite (mr_zero _ _ Hr); [done|].
    pose proof (mr_fb _ _ Hr). unfold size, nlog, LOGSIZE in *. lia. }
  eapply wp_post; [apply (boot_wp (mk_img s) mg v Hio Hlog); [|by rewrite Hrec]|].
  { unfold sb_start, sb_logsize. rewrite Hsb, (mr_len _ _ Hr). done. }
  intros [] st Hrep. pose proof (proj1 (Forall_lookup _ _) Hh k f Hk) as [[Hsl _] _ _].
  unfold namei. apply wp_bind. eapply wp_mono.
  - eapply (namex_root devsw mg st icache0 [] cwd (t_begin (t_idle v)) []); try done.
    + by apply (final_tree fs s).
    + unfold root_ok. cbn [t_begin t_idle t_view]. rewrite (mrep_sb s v Hr). destruct (final_root fs s Hm) as [Ht _ Hl _ _].
      fold v in Ht, Hl. by rewrite Ht, Hl.
    + split_and!; [apply NoDup_nil_2|simpl; set_solver|vm_compute log_cap; simpl length; lia|].
      cbn [t_begin t_idle t_held]. rewrite map_size_empty. simpl length. unfold NBUF. lia.
    + apply icache0_ok.
  - intros e (_&l&_&Hlen&Hl). destruct l as [|n l]; [by vm_compute in Hlen; lia|].
    specialize (Hl n ltac:(set_solver)). by rewrite icache0_refs in Hl.
  - rewrite path_elems_plain by (done || by apply cstr_fname). unfold target. cbn [t_begin t_idle t_view].
    rewrite (walk_same _ _ _ (fname f)) by apply same_name_cstr.
    pose proof (final_walk fs s Hm Hn Hmod k f Hnd Hk) as Hw. fold v in Hw. rewrite Hw. cbn [fmap option_fmap option_map].
    intros r s' (st'&ic'&wk'&->&_&_&ip&name&x&->&Hx&Hc&_). apply wp_ret. by exists ip, x.
Qed.

(** ** mkfs on concrete files: three files, and the number of files at which
    the size of the root directory goes wrong. *)
(** "_a" in two reads, "b" empty, "c" of more than twelve blocks. *)
Definition demo_files : list hostfile :=
  [mkHost [UNDERSCORE; 97] (Some [replicate 512 65; replicate 3 66]); mkHost [98] (Some []);
   mkHost [99; 0] (Some (replicate 14 (replicate 512 67)))].

(** The conditions of [hosted] as a program. *)
Definition hostedb (f : hostfile) : bool :=
  bool_decide (SLASH ∉ cstr (h_arg f)) && forallb (fun b => (0 <=? b) && (b <? 256)) (h_arg f) &&
  match h_reads f with
  | None => false
  | Some rs => forallb (fun r => (0 <? Z.of_nat (length r)) && (Z.of_nat (length r) <=? 512) &&
                                 forallb (fun b => (0 <=? b) && (b <? 256)) r) rs
  end && (Z.of_nat (length (contents f)) <=? MAXFILE * BSIZE).
Lemma bytes_vm (l : list Z) : forallb (fun b => (0 <=? b) && (b <? 256)) l = true -> bytes l.
Proof.
  rewrite forallb_forall. intros Hl. apply Forall_forall. intros b Hb%list_elem_of_In%Hl. unfold is_byte. lia.
Qed.
Lemma hosted_vm f : hostedb f = true -> hosted f.
Proof.
  unfold hostedb. destruct (h_reads f) as [rs|] eqn:Hrs; [|by rewrite andb_false_r].
  intros [[[Hs%bool_decide_eq_true_1 Ha%bytes_vm]%andb_prop Hr]%andb_prop Hm%Z.leb_le]%andb_prop. split; [done| |done].
  exists rs. split; [done|]. rewrite forallb_forall in Hr. apply Forall_forall. intros r Hin%list_elem_of_In%Hr.
  apply andb_prop in Hin as [[? ?]%andb_prop Hb%bytes_vm]. split; [lia|done].
Qed.
Lemma demo_fits : fits_disk demo_files.
Proof.
  split.
  - repeat (constructor; [apply hosted_vm; by vm_compute|]). constructor.
  - by vm_compute.
  - apply Z.leb_le. by vm_compute.
  - apply (bool_decide_unpack _). by vm_compute.
  - by vm_compute.
Qed.

Lemma mkfs_image_ok_witness :
  total (image_files demo_files) = 18 /\
  wp (main demo_files) noerr (fun _ s => let v := sector_of (mk_img s) in
    image_ok (mk_img s) /\ log_ok (sb_start (mk_img s)) (sb_logsize (mk_img s)) (mk_img s) /\ tree_ok mg v /\
    hdr_n (v (sb_start (mk_img s))) = 0 /\
    (forall x, 0 <= x < size -> blk_free v x = (DATA + total (image_files demo_files) <=? x)) /\
    image_holds demo_files s /\ image_disjoint demo_files s /\ image_rest demo_files s) mk0.
Proof. split; [by vm_compute|]. refine (mkfs_image_ok demo_files demo_fits). Defined.

Lemma mkfs_boot_namei_witness :
  (fname <$> demo_files !! 0%nat) = Some [97] /\
  wp (main demo_files) noerr (fun _ s => forall (k : nat) f devsw cwd,
    demo_files !! k = Some f -> cstr (fname f) <> [] ->
    wp (bootlog;; begin_trans) noerr (fun _ st =>
      wp (namei devsw cwd (SLASH :: fname f)) noerr
        (fun r (w : fsysL) => exists ip (x : inode),
          r = Some ip /\ f_icache w !! ip = Some x /\ caches 1 (Z.of_nat k + 2) x)
        (mkFs st icache0 [])) (mkL (boot (mk_img s)) log0)) mk0.
Proof. split; [done|]. refine (mkfs_boot_namei demo_files demo_fits). Defined.

(** ** A full block of directory entries *)

(** Thirty empty files, aA, aB, ...: with . and .. the root directory has 32
    entries, one block. *)
Definition thirty_files : list hostfile := map (fun k => mkHost [97; 65 + k] (Some [])) (seqZ 0 30).
Definition boundary_img : list (list Z) :=
  match main thirty_files mk0 with Ok _ s => mk_img s | Fail _ => [] end.
(** namei on the freshly booted image, outside a transaction. *)
Definition boot_lookup (img : list (list Z)) (path : list Z) : option (option nat + err) :=
  match bootlog (mkL (boot img) log0) with
  | Ok _ st => match namei (fun _ => None) 0 path (mkFs st icache0 []) with
               | Ok r _ => Some (inl r)
               | Fail e => Some (inr e)
               end
  | Fail _ => None
  end.

(** mkfs rounds the size of the root directory up to the next block even
    when the entries fill whole blocks.  With 30 files the root directory
    gets the size of two blocks with one block allocated: the lookup of a
    name that is there succeeds, but looking up a missing name reaches the
    unallocated block, bmap allocates it, and the kernel panics because no
    transaction is running.  With 29 files the same lookup just fails. *)
Theorem mkfs_root_boundary :
  let root := dnode (sector_of boundary_img) ROOTINO in
  i_size root = 1024 /\ blkno (sector_of boundary_img) (i_addrs root) 1 = 0 /\
  boot_lookup boundary_img [SLASH; 97; 66] = Some (inl (Some 1%nat)) /\
  boot_lookup boundary_img [SLASH; 98] = Some (inr (Panic "write outside of trans")) /\
  boot_lookup (match main (take 29 thirty_files) mk0 with Ok _ s => mk_img s | Fail _ => [] end) [SLASH; 98] =
    Some (inl None).
Proof. vm_compute. repeat split. Qed.
