(* ===== verification/Pipe.v ===== *)
(** pipe.c: a bounded byte queue shared by readers and writers that sleep and
    wake each other.

    pipewrite and piperead run with the pipe locked until they return or
    sleep; sleeping releases the lock, and a woken process goes back to the
    test of its loop.  [pipewrite_loop] and [piperead] are one such run, from
    the start of the call or from the point of the sleep to the next sleep or
    the return; the step relation [step] interleaves runs of any number of
    processes. *)
From S2P Require Import Prelude Params.

Definition PIPESIZE : Z := 512.

(** struct pipe; the counters are uint. *)
Record pipe := mkPipe { p_data : list Z; nread : Z; nwrite : Z; readopen : bool; writeopen : bool }.

Definition pipe_full (p : pipe) : bool := nwrite p =? u32 (nread p + PIPESIZE).
Definition pipe_empty (p : pipe) : bool := nread p =? nwrite p.
(** data[nwrite++ % PIPESIZE] = c, data[nread++ % PIPESIZE] *)
Definition pipe_put (c : Z) (p : pipe) : pipe :=
  mkPipe (<[Z.to_nat (nwrite p mod PIPESIZE) := c]> (p_data p)) (nread p) (u32 (nwrite p + 1))
    (readopen p) (writeopen p).
Definition pipe_get (p : pipe) : Z * pipe :=
  (p_data p !!! Z.to_nat (nread p mod PIPESIZE),
   mkPipe (p_data p) (u32 (nread p + 1)) (nwrite p) (readopen p) (writeopen p)).

(** How a run ends; [rest] is what the writer has still to write. *)
Inductive wstop := WRet (r : Z) | WSleep (rest : list Z).
Inductive rstop := RRet (r : Z) (bytes : list Z) | RSleep.

(** The result of a run: the pipe, the channels woken, how it ended. *)
Fixpoint pipewrite_loop (p : pipe) (killed : bool) (rest : list Z) (n : Z) : pipe * list chan * wstop :=
  match rest with
  | [] => (p, [ChPipeR], WRet n)
  | c :: rest' =>
      if pipe_full p then
        if negb (readopen p) || killed then (p, [], WRet (-1))
        else (p, [ChPipeR], WSleep rest)
      else pipewrite_loop (pipe_put c p) killed rest' n
  end.
Definition pipewrite (p : pipe) (killed : bool) (addr : list Z) (n : Z) : pipe * list chan * wstop :=
  pipewrite_loop p killed (take (Z.to_nat n) addr) n.

Fixpoint piperead_copy (p : pipe) (n : nat) : pipe * list Z :=
  match n with
  | O => (p, [])
  | S n =>
      if pipe_empty p then (p, []) else
      let '(c, p) := pipe_get p in
      let '(p, l) := piperead_copy p n in
      (p, c :: l)
  end.
Definition piperead (p : pipe) (killed : bool) (n : Z) : pipe * list chan * rstop :=
  if pipe_empty p && writeopen p then
    if killed then (p, [], RRet (-1) []) else (p, [], RSleep)
  else
    let '(p, l) := piperead_copy p (Z.to_nat n) in
    (p, [ChPipeW], RRet (Z.of_nat (length l)) l).

(** Returns whether the page of the pipe is freed. *)
Definition pipeclose (p : pipe) (writable : bool) : pipe * list chan * bool :=
  let '(p, wk) :=
    if writable then (mkPipe (p_data p) (nread p) (nwrite p) (readopen p) false, [ChPipeR])
    else (mkPipe (p_data p) (nread p) (nwrite p) false (writeopen p), [ChPipeW]) in
  (p, wk, negb (readopen p) && negb (writeopen p)).

(** pipealloc's initialisation; the page is not cleared. *)
Definition pipe_init (page : list Z) : pipe := mkPipe page 0 0 true true.

(** ** Processes on a pipe *)

(** A process in a call on the pipe, or in none. *)
Inductive call :=
  | Idle
  | InWrite (rest : list Z) (n : Z)
  | InRead (n : Z).
Record thread := mkT { t_call : call; t_asleep : bool; t_killed : bool }.
(** The pipe, the processes, and all the bytes written and read so far. *)
Record psys := mkP { ps_pipe : pipe; ps_threads : list thread; ps_wrote : list Z; ps_read : list Z }.

(** The channel a sleeping process is on; wakeup(c). *)
Definition sleeps_on (t : thread) (c : chan) : bool :=
  t_asleep t && match t_call t, c with
                | InWrite _ _, ChPipeW | InRead _, ChPipeR => true
                | _, _ => false
                end.
Definition wake1 (wk : list chan) (t : thread) : thread :=
  if existsb (sleeps_on t) wk then mkT (t_call t) false (t_killed t) else t.
Definition wake (wk : list chan) (ts : list thread) : list thread := map (wake1 wk) ts.

(** What a run does to the process that made it. *)
Definition after_wrun (k : bool) (n : Z) (w : wstop) : thread :=
  match w with
  | WRet _ => mkT Idle false k
  | WSleep rest => mkT (InWrite rest n) true k
  end.
Definition after_rrun (k : bool) (n : Z) (r : rstop) : thread :=
  match r with
  | RRet _ _ => mkT Idle false k
  | RSleep => mkT (InRead n) true k
  end.
Definition got (r : rstop) : list Z := match r with RRet _ l => l | RSleep => [] end.
(** The bytes a run of the writer stored. *)
Definition stored (rest : list Z) (p p' : pipe) : list Z :=
  take (Z.to_nat (u32 (nwrite p' - nwrite p))) rest.

(** The process is in a call on the write (read) end. *)
Definition uses (writable : bool) (t : thread) : Prop :=
  match t_call t with InWrite _ _ => writable = true | InRead _ => writable = false | Idle => False end.

(** Steps: a process starts a call on an open end, runs until it returns or
    sleeps, an end of the pipe is closed, or (when [kills]) a process is
    killed, which also ends its sleep.  An end is closed with the last file
    descriptor for it; a process in a call on it has one. *)
Inductive step (kills : bool) : psys -> psys -> Prop :=
  | StartWrite p ts w r i k addr n :
      ts !! i = Some (mkT Idle false k) -> writeopen p = true -> n <= Z.of_nat (length addr) ->
      step kills (mkP p ts w r) (mkP p (<[i := mkT (InWrite (take (Z.to_nat n) addr) n) false k]> ts) w r)
  | StartRead p ts w r i k n :
      ts !! i = Some (mkT Idle false k) -> readopen p = true ->
      step kills (mkP p ts w r) (mkP p (<[i := mkT (InRead n) false k]> ts) w r)
  | RunWrite p ts w r i k rest n p' wk st :
      ts !! i = Some (mkT (InWrite rest n) false k) ->
      pipewrite_loop p k rest n = (p', wk, st) ->
      step kills (mkP p ts w r)
        (mkP p' (wake wk (<[i := after_wrun k n st]> ts)) (w ++ stored rest p p') r)
  | RunRead p ts w r i k n p' wk st :
      ts !! i = Some (mkT (InRead n) false k) ->
      piperead p k n = (p', wk, st) ->
      step kills (mkP p ts w r)
        (mkP p' (wake wk (<[i := after_rrun k n st]> ts)) w (r ++ got st))
  | Close p ts w r writable p' wk b :
      (forall t, t ∈ ts -> ~ uses writable t) -> pipeclose p writable = (p', wk, b) ->
      step kills (mkP p ts w r) (mkP p' (wake wk ts) w r)
  | Kill p ts w r i t :
      kills = true -> ts !! i = Some t ->
      step kills (mkP p ts w r) (mkP p (<[i := mkT (t_call t) false true]> ts) w r).

Definition pstart (page : list Z) (n : nat) : psys :=
  mkP (pipe_init page) (replicate n (mkT Idle false false)) [] [].

(** ** The pipe holds a queue *)

(** The pipe holds the bytes [buf], after [R] bytes have gone through it. *)
Record pipe_ok (p : pipe) (R : Z) (buf : list Z) : Prop := {
  po_len : length (p_data p) = 512%nat;
  po_R : 0 <= R;
  po_read : nread p = u32 R;
  po_write : nwrite p = u32 (R + Z.of_nat (length buf));
  po_size : Z.of_nat (length buf) <= PIPESIZE;
  po_data : forall k c, buf !! k = Some c -> p_data p !!! Z.to_nat ((R + Z.of_nat k) mod PIPESIZE) = c }.
Definition same_ends (p p' : pipe) : Prop := readopen p' = readopen p /\ writeopen p' = writeopen p.

Section queue.
Implicit Types (p : pipe) (R n c : Z) (buf rest : list Z) (k : bool).

Lemma u32_mod_pipe z : u32 z mod PIPESIZE = z mod PIPESIZE.
Proof.
  unfold u32, PIPESIZE. apply Z.mod_mod_divide. by exists 8388608.
Qed.
Lemma full_spec p R buf : pipe_ok p R buf -> pipe_full p = bool_decide (Z.of_nat (length buf) = PIPESIZE).
Proof.
  intros H. unfold pipe_full. rewrite (po_read _ _ _ H), (po_write _ _ _ H), u32_u32_add.
  pose proof (po_size _ _ _ H). unfold PIPESIZE in *.
  assert (Hu : u32 (R + Z.of_nat (length buf)) = u32 (R + 512) <-> R + Z.of_nat (length buf) = R + 512) by (apply u32_eq; lia).
  case_bool_decide as Hb.
  - apply Z.eqb_eq, Hu. lia.
  - apply Z.eqb_neq. rewrite Hu. lia.
Qed.
Lemma empty_spec p R buf : pipe_ok p R buf -> pipe_empty p = bool_decide (buf = []).
Proof.
  intros H. unfold pipe_empty. rewrite (po_read _ _ _ H), (po_write _ _ _ H).
  pose proof (po_size _ _ _ H). unfold PIPESIZE in *.
  assert (Hu : u32 R = u32 (R + Z.of_nat (length buf)) <-> R = R + Z.of_nat (length buf)) by (apply u32_eq; lia).
  case_bool_decide as Hb.
  - subst buf. apply Z.eqb_eq, Hu. simpl. lia.
  - apply Z.eqb_neq. rewrite Hu. destruct buf; [done|]. simpl. lia.
Qed.

Lemma put_ok p R buf c :
  pipe_ok p R buf -> Z.of_nat (length buf) <> PIPESIZE -> pipe_ok (pipe_put c p) R (buf ++ [c]).
Proof.
  intros [Hl HR Hr Hw Hs Hd] Hne. unfold pipe_put. rewrite Hw, u32_mod_pipe, u32_u32_add.
  unfold PIPESIZE in *. pose proof (Z.mod_pos_bound (R + Z.of_nat (length buf)) 512 ltac:(lia)).
  split; simpl.
  - by rewrite length_insert.
  - done.
  - done.
  - rewrite length_app. simpl. f_equal. lia.
  - rewrite length_app. unfold PIPESIZE. simpl. lia.
  - unfold PIPESIZE. intros k c' [Hk|[Hk Hc]]%lookup_app_Some.
    + assert (Hkl : (k < length buf)%nat) by (by eapply lookup_lt_Some).
      rewrite list_lookup_total_insert_ne; [by apply Hd|].
      pose proof (Z.mod_pos_bound (R + Z.of_nat k) 512 ltac:(lia)).
      intros Heq. apply Z2Nat.inj in Heq; [|lia..]. pose proof (Z.div_mod (R + Z.of_nat k) 512). 
      pose proof (Z.div_mod (R + Z.of_nat (length buf)) 512). lia.
    + apply list_lookup_singleton_Some in Hc as [Hk0 <-].
      replace k with (length buf) by lia. apply list_lookup_total_insert_eq. lia.
Qed.
Lemma get_ok p R c buf : pipe_ok p R (c :: buf) ->
  exists p', pipe_get p = (c, p') /\ pipe_ok p' (R + 1) buf /\ same_ends p p'.
Proof.
  intros [Hl HR Hr Hw Hs Hd]. unfold pipe_get. rewrite Hr, u32_mod_pipe, u32_u32_add.
  pose proof (Hd O c eq_refl) as H0. rewrite Z.add_0_r in H0. rewrite H0.
  eexists. split; [done|split; [split; simpl|done]].
  - done.
  - lia.
  - done.
  - rewrite Hw. f_equal. simpl. lia.
  - simpl in Hs. lia.
  - intros k c' Hk. specialize (Hd (S k) c' Hk). rewrite <- Hd. do 3 f_equal. lia.
Qed.

(** What a run of the writer does. *)
Lemma pipewrite_loop_ok p R buf k rest n p' wk st :
  pipe_ok p R buf -> pipewrite_loop p k rest n = (p', wk, st) ->
  exists m, (m <= length rest)%nat /\ pipe_ok p' R (buf ++ take m rest) /\ same_ends p p' /\
    ((m = length rest /\ st = WRet n /\ wk = [ChPipeR]) \/
     (Z.of_nat (length buf + m) = PIPESIZE /\ (m < length rest)%nat /\
       ((st = WRet (-1) /\ wk = [] /\ (readopen p = false \/ k = true)) \/
        (st = WSleep (drop m rest) /\ wk = [ChPipeR] /\ readopen p = true /\ k = false)))).
Proof.
  revert p buf. induction rest as [|c rest IH]; intros p buf Hok Hrun; simpl in Hrun.
  - simplify_eq. exists O. rewrite app_nil_r. split_and!; [done..|]. by left.
  - rewrite (full_spec _ _ _ Hok) in Hrun. case_bool_decide as Hf.
    + exists O. rewrite take_0, app_nil_r. destruct (readopen p) eqn:Hro, k; simpl in Hrun; simplify_eq;
        (split_and!; [simpl; lia|done..|]; right; split_and!; [lia|simpl; lia|]; naive_solver).
    + apply (IH _ (buf ++ [c])) in Hrun as (m&Hm&Hok'&He&Hcase); [|by apply put_ok].
      exists (S m). rewrite <- app_assoc in Hok'. simpl. split_and!; [lia|done|done..|].
      rewrite length_app in Hcase. simpl in Hcase.
      destruct Hcase as [(->&->&->)|(Hl&Hlt&Hc)]; [by left|]. right. split_and!; [lia|lia|]. done.
Qed.
Lemma stored_ok p R buf m rest p' :
  pipe_ok p R buf -> (m <= length rest)%nat -> pipe_ok p' R (buf ++ take m rest) -> stored rest p p' = take m rest.
Proof.
  intros H Hm H'. unfold stored. f_equal. rewrite (po_write _ _ _ H), (po_write _ _ _ H').
  pose proof (po_size _ _ _ H') as Hs. rewrite length_app, length_take, Nat.min_l in * by done. unfold PIPESIZE in Hs.
  unfold u32. rewrite <- Zminus_mod. rewrite Z.mod_small by lia. lia.
Qed.

(** And of the reader. *)
Lemma piperead_copy_ok (n : nat) p R buf p' l :
  pipe_ok p R buf -> piperead_copy p n = (p', l) ->
  length l = (n `min` length buf)%nat /\ l = take (length l) buf /\
  pipe_ok p' (R + Z.of_nat (length l)) (drop (length l) buf) /\ same_ends p p'.
Proof.
  revert p R buf p' l. induction n as [|n IH]; intros p R buf p' l Hok Hrun; cbn [piperead_copy] in Hrun.
  - simplify_eq. rewrite Z.add_0_r. done.
  - rewrite (empty_spec _ _ _ Hok) in Hrun. case_bool_decide as He.
    + simplify_eq. simpl. rewrite Z.add_0_r. done.
    + destruct buf as [|c buf]; [done|]. destruct (get_ok _ _ _ _ Hok) as (p1&Hg&Hok1&He1). rewrite Hg in Hrun.
      destruct (piperead_copy p1 n) as [p2 l2] eqn:Hc. simplify_eq.
      destruct (IH _ _ _ _ _ Hok1 Hc) as (Hl&Heq&Hok2&He2). cbn [length take drop]. split_and!; [lia|by f_equal| |destruct He1, He2; split; congruence..].
      replace (R + Z.of_nat (S (length l2))) with (R + 1 + Z.of_nat (length l2)) by lia. done.
Qed.
End queue.

(** ** Invariants of the system *)

(** The bytes in the pipe are those written and not yet read. *)
Definition fifo (s : psys) : Prop :=
  exists buf, pipe_ok (ps_pipe s) (Z.of_nat (length (ps_read s))) buf /\ ps_wrote s = ps_read s ++ buf.
(** A process uses an open end. *)
Definition is_open (writable : bool) (p : pipe) : bool := if writable then writeopen p else readopen p.
Definition ends_ok (s : psys) : Prop :=
  forall i t wr, ps_threads s !! i = Some t -> uses wr t -> is_open wr (ps_pipe s) = true.
(** No process sleeps when it could go on: a sleeping writer finds the pipe
    full, a sleeping reader finds it empty with a writer to come. *)
Definition rests (p : pipe) (t : thread) : Prop :=
  t_killed t = false /\ (t_asleep t = true -> match t_call t with
      | Idle => False
      | InWrite _ _ => pipe_full p = true /\ readopen p = true
      | InRead _ => pipe_empty p = true /\ writeopen p = true
      end).
Definition no_lost_wakeup (s : psys) : Prop :=
  forall i t, ps_threads s !! i = Some t -> rests (ps_pipe s) t.

Section invariants.
Implicit Types (s : psys) (p : pipe) (ts : list thread) (t : thread).

Lemma fifo_start page n : length page = 512%nat -> fifo (pstart page n).
Proof. intros Hl. exists []. split; [|done]. by split. Qed.
Lemma piperead_ok p R buf k n p' wk st :
  pipe_ok p R buf -> piperead p k n = (p', wk, st) ->
  pipe_ok p' (R + Z.of_nat (length (got st))) (drop (length (got st)) buf) /\
  got st = take (length (got st)) buf /\ same_ends p p' /\
  ((wk = [ChPipeW] /\ ~ (buf = [] /\ writeopen p = true) /\
     st = RRet (Z.of_nat (length (got st))) (got st) /\ length (got st) = (Z.to_nat n `min` length buf)%nat) \/
   (wk = [] /\ p' = p /\ buf = [] /\ writeopen p = true /\ st = (if k then RRet (-1) [] else RSleep))).
Proof.
  intros Hok Hrun. unfold piperead in Hrun. rewrite (empty_spec _ _ _ Hok) in Hrun.
  destruct (bool_decide_reflect (buf = [])) as [->|Hne], (writeopen p) eqn:Hw; simpl in Hrun.
  1:{ destruct k; simplify_eq; simpl; rewrite Z.add_0_r; split_and!; try done; right; auto. }
  all: destruct (piperead_copy p (Z.to_nat n)) as [p1 l] eqn:Hc; simplify_eq;
    destruct (piperead_copy_ok _ _ _ _ _ _ Hok Hc) as (Hl&Heq&Hok1&He); cbn [got].
  all: split; [done|split; [done|split; [done|left; split_and!; [done|naive_solver|done..]]]].
Qed.
Lemma pipe_ok_ends p R buf b b' : pipe_ok p R buf ->
  pipe_ok (mkPipe (p_data p) (nread p) (nwrite p) b b') R buf.
Proof. intros H. split; apply H. Qed.

Lemma fifo_step kills s s' : step kills s s' -> fifo s -> fifo s'.
Proof.
  intros Hstep (buf&Hok&Hw). destruct Hstep as [| |p ts w r i k rest n p' wk st Hi Hrun|p ts w r i k n p' wk st Hi Hrun
    |p ts w r writable p' wk b Hno Hc|]; simpl in *; [by exists buf..| | | |by exists buf].
  - destruct (pipewrite_loop_ok _ _ _ _ _ _ _ _ _ Hok Hrun) as (m&Hm&Hok'&_).
    exists (buf ++ take m rest). split; [done|]. simpl. rewrite (stored_ok _ _ _ m _ _ Hok Hm Hok'), Hw. by rewrite app_assoc.
  - destruct (piperead_ok _ _ _ _ _ _ _ _ Hok Hrun) as (Hok'&Hgot&_).
    exists (drop (length (got st)) buf). simpl. rewrite length_app, Nat2Z.inj_add. split; [done|].
    rewrite Hw, <- app_assoc. f_equal. rewrite Hgot at 1. by rewrite take_drop.
  - exists buf. split; [|done]. simpl. unfold pipeclose in Hc. destruct writable; simplify_eq; by apply pipe_ok_ends.
Qed.

(** Waking. *)
Lemma wake_lookup wk ts i t : wake wk ts !! i = Some t <-> exists t0, ts !! i = Some t0 /\ t = wake1 wk t0.
Proof. unfold wake. rewrite list_lookup_fmap. destruct (ts !! i); simpl; naive_solver. Qed.
Lemma wake1_call wk t : t_call (wake1 wk t) = t_call t /\ t_killed (wake1 wk t) = t_killed t.
Proof. unfold wake1. by destruct (existsb _ _). Qed.
(** A process still asleep after wakeup(c) is not on [c]. *)
Lemma wake1_asleep c t : t_asleep (wake1 [c] t) = true -> t_asleep t = true /\ sleeps_on t c = false.
Proof.
  unfold wake1. simpl. rewrite orb_false_r. destruct (sleeps_on t c) eqn:Hs; simpl; [done|]. done.
Qed.
Lemma wake_nil ts : wake [] ts = ts.
Proof. unfold wake. rewrite <- (map_id ts) at 2. apply map_ext. done. Qed.
Lemma uses_wake wk wr t : uses wr (wake1 wk t) <-> uses wr t.
Proof. unfold uses. by rewrite (proj1 (wake1_call wk t)). Qed.
Lemma insert_thread ts i t t' j u :
  ts !! i = Some t -> <[i := t']> ts !! j = Some u -> (j = i /\ u = t') \/ (j <> i /\ ts !! j = Some u).
Proof.
  intros Hi Hj. destruct (decide (j = i)) as [->|Hne]; [|rewrite list_lookup_insert_ne in Hj by done; by right].
  rewrite list_lookup_insert_eq in Hj by (by eapply lookup_lt_Some). left. by simplify_eq.
Qed.

Lemma ends_step kills s s' : step kills s s' -> fifo s -> ends_ok s -> ends_ok s'.
Proof.
  intros Hstep (buf&Hok&_) He j u wr. destruct Hstep as [p ts w r i k addr n Hi Ho|p ts w r i k n Hi Ho
    |p ts w r i k rest n p' wk st Hi Hrun|p ts w r i k n p' wk st Hi Hrun|p ts w r writable p' wk b Hno Hc|p ts w r i t _ Hi];
    simpl in *; intros Hj Hu.
  - destruct (insert_thread _ _ _ _ _ _ Hi Hj) as [[-> ->]|[_ Hj']]; [|by eapply He]. unfold uses in Hu. simpl in Hu. by subst wr.
  - destruct (insert_thread _ _ _ _ _ _ Hi Hj) as [[-> ->]|[_ Hj']]; [|by eapply He]. unfold uses in Hu. simpl in Hu. by subst wr.
  - destruct (pipewrite_loop_ok _ _ _ _ _ _ _ _ _ Hok Hrun) as (m&_&_&[Her Hew]&_).
    apply wake_lookup in Hj as (u0&Hj&->). apply uses_wake in Hu. unfold is_open. rewrite Her, Hew.
    destruct (insert_thread _ _ _ _ _ _ Hi Hj) as [[-> ->]|[_ Hj']]; [|by eapply (He j u0)].
    apply (He i _ wr Hi). unfold uses in *. by destruct st.
  - destruct (piperead_ok _ _ _ _ _ _ _ _ Hok Hrun) as (_&_&[Her Hew]&_).
    apply wake_lookup in Hj as (u0&Hj&->). apply uses_wake in Hu. unfold is_open. rewrite Her, Hew.
    destruct (insert_thread _ _ _ _ _ _ Hi Hj) as [[-> ->]|[_ Hj']]; [|by eapply (He j u0)].
    apply (He i _ wr Hi). unfold uses in *. by destruct st.
  - apply wake_lookup in Hj as (u0&Hj&->). apply uses_wake in Hu.
    assert (Hne : wr <> writable) by (intros ->; by apply (Hno u0); [eapply list_elem_of_lookup_2|]).
    pose proof (He j u0 wr Hj Hu) as Hop. unfold pipeclose in Hc. destruct writable, wr; simplify_eq; done.
  - destruct (insert_thread _ _ _ _ _ _ Hi Hj) as [[-> ->]|[_ Hj']]; [|by eapply He]. by eapply (He i t).
Qed.

Lemma rests_wake c p p' t : rests p t ->
  (t_asleep t = true -> sleeps_on t c = false -> rests p t -> rests p' t) -> rests p' (wake1 [c] t).
Proof.
  intros [Hk Hr] Hp. destruct (t_asleep (wake1 [c] t)) eqn:Ha.
  - destruct (wake1_asleep _ _ Ha) as [Hat Hs]. assert (wake1 [c] t = t) as ->; [|by apply Hp].
    unfold wake1. simpl. by rewrite Hs.
  - split; [by rewrite (proj2 (wake1_call _ _))|by rewrite Ha].
Qed.

(** A run of a writer keeps a full pipe full. *)
Lemma full_kept p R buf m rest p' : pipe_ok p R buf -> pipe_ok p' R (buf ++ take m rest) ->
  pipe_full p = true -> pipe_full p' = true.
Proof.
  intros H H'. rewrite (full_spec _ _ _ H), (full_spec _ _ _ H'). rewrite !bool_decide_eq_true.
  pose proof (po_size _ _ _ H') as Hs. rewrite length_app in *. lia.
Qed.
Lemma rests_write p R buf k rest n p' wk st t :
  pipe_ok p R buf -> pipewrite_loop p k rest n = (p', wk, st) -> k = false ->
  (readopen p = false -> ~ uses false t) -> rests p t -> rests p' (wake1 wk t).
Proof.
  intros Hok Hrun -> Hro Hr.
  destruct (pipewrite_loop_ok _ _ _ _ _ _ _ _ _ Hok Hrun) as (m&_&Hok'&[Her Hew]&Hcase).
  assert (Hwr : t_asleep t = true -> ~ uses false t -> rests p' t).
  { intros Ha Hnr. destruct Hr as [Hk Hr]. split; [done|]. intros _. specialize (Hr Ha).
    destruct (t_call t) eqn:Hc; [done| |by destruct Hnr; unfold uses; rewrite Hc].
    rewrite Her. split; [eapply full_kept; [exact Hok|exact Hok'|apply Hr]|apply Hr]. }
  assert (HR : rests p' (wake1 [ChPipeR] t)).
  { apply (rests_wake _ p); [done|]. intros Ha Hs _. apply Hwr; [done|]. unfold uses. unfold sleeps_on in Hs.
    rewrite Ha in Hs; simpl in Hs. intros Hu. by destruct (t_call t). }
  destruct Hcase as [(_&_&->)|(_&_&[(_&->&[Hf|?])|(_&->&_)])]; [done| |done|done].
  unfold wake1. simpl. destruct (t_asleep t) eqn:Ha; [apply Hwr; auto|]. split; [apply Hr|by rewrite Ha].
Qed.

Lemma wakeup_step s s' : step false s s' -> fifo s -> ends_ok s -> no_lost_wakeup s -> no_lost_wakeup s'.
Proof.
  intros Hstep (buf&Hok&_) He Hn j u. destruct Hstep as [p ts w r i k addr n Hi Ho|p ts w r i k n Hi Ho
    |p ts w r i k rest n p' wk st Hi Hrun|p ts w r i k n p' wk st Hi Hrun|p ts w r writable p' wk b Hno Hc|p ts w r i t ? Hi];
    simpl in *; intros Hj; [| | | | |done].
  - destruct (insert_thread _ _ _ _ _ _ Hi Hj) as [[-> ->]|[_ Hj']]; [|by eapply Hn]. split; [|done]. apply (Hn i _ Hi).
  - destruct (insert_thread _ _ _ _ _ _ Hi Hj) as [[-> ->]|[_ Hj']]; [|by eapply Hn]. split; [|done]. apply (Hn i _ Hi).
  - assert (k = false) as -> by (apply (Hn i _ Hi)).
    apply wake_lookup in Hj as (u0&Hj&->).
    destruct (insert_thread _ _ _ _ _ _ Hi Hj) as [[-> ->]|[_ Hj']].
    + destruct (pipewrite_loop_ok _ _ _ _ _ _ _ _ _ Hok Hrun) as (m&Hm&Hok'&[Her Hew]&Hcase).
      destruct st as [v|rest']; [by unfold wake1; destruct (existsb _ _)|].
      destruct Hcase as [(_&?&_)|(Hl&_&[(?&_)|(_&->&Hro&_)])]; [done..|].
      split; [done|]. intros _. simpl. rewrite (full_spec _ _ _ Hok'), Her, length_app, length_take, Nat.min_l by done.
      split; [by apply bool_decide_eq_true|done].
    + eapply rests_write; [done..| |by eapply Hn]. intros Hro Hu. pose proof (He j u0 false Hj' Hu) as Ho. simpl in Ho. congruence.
  - assert (k = false) as -> by (apply (Hn i _ Hi)).
    destruct (piperead_ok _ _ _ _ _ _ _ _ Hok Hrun) as (_&_&[Her Hew]&Hcase).
    apply wake_lookup in Hj as (u0&Hj&->).
    assert (Hemp : pipe_empty p = true -> buf = []).
    { rewrite (empty_spec _ _ _ Hok). by rewrite bool_decide_eq_true. }
    destruct Hcase as [(->&Hne&Hst&_)|(->&->&Hb&Hw&->)].
    + destruct (insert_thread _ _ _ _ _ _ Hi Hj) as [[-> ->]|[_ Hj']].
      { rewrite Hst. done. }
      apply (rests_wake _ p); [by eapply Hn|]. intros Ha Hs [Hk Hr]. split; [done|]. intros _. specialize (Hr Ha).
      unfold sleeps_on in Hs. rewrite Ha in Hs. destruct (t_call u0); [done..|]. destruct Hr as [H1 H2]. naive_solver.
    + assert (Hnil : wake1 [] u0 = u0) by done. rewrite Hnil.
      destruct (insert_thread _ _ _ _ _ _ Hi Hj) as [[-> ->]|[_ Hj']]; [|by eapply Hn].
      split; [done|]. intros _. simpl. split; [|done]. rewrite (empty_spec _ _ _ Hok). by apply bool_decide_eq_true.
  - apply wake_lookup in Hj as (u0&Hj&->). assert (Hnu : ~ uses writable u0) by (apply Hno; by eapply list_elem_of_lookup_2).
    assert (exists c, wk = [c] /\ c = if writable then ChPipeR else ChPipeW) as (c&->&Hcc)
      by (unfold pipeclose in Hc; destruct writable; simplify_eq; eauto).
    apply (rests_wake _ p); [by eapply Hn|]. intros Ha Hs [Hk Hr]. specialize (Hr Ha). unfold sleeps_on in Hs. unfold uses in Hnu.
    rewrite Ha in Hs. exfalso. destruct (t_call u0), writable; subst c; done.
Qed.
End invariants.

(** ** Theorems *)

(** C7. A pipe is a first-in first-out queue of at most PIPESIZE bytes: whatever
    the interleaving of writers, readers, closings and kills, the bytes
    written so far are the bytes read so far followed by those in the pipe,
    also after the 32-bit counters have wrapped around. *)
Theorem pipe_fifo kills page n s :
  length page = 512%nat -> rtc (step kills) (pstart page n) s ->
  exists buf, ps_wrote s = ps_read s ++ buf /\ Z.of_nat (length buf) <= PIPESIZE /\
    pipe_ok (ps_pipe s) (Z.of_nat (length (ps_read s))) buf.
Proof.
  intros Hl Hr. assert (Hf : fifo s).
  { pose proof (fifo_start page n Hl) as H0. induction Hr as [|s s1 s2 Hs _ IH]; [done|]. apply IH. by eapply fifo_step. }
  destruct Hf as (buf&Hok&Hw). exists buf. split_and!; [done|apply Hok|done].
Qed.

(** C32. No wakeup is lost: as long as no process is killed, a sleeping writer
    finds the pipe full and its read end open, a sleeping reader finds it
    empty and its write end open; so readers and writers never sleep at the
    same time, each waiting for the other. *)
Theorem pipe_no_lost_wakeup page n s :
  length page = 512%nat -> rtc (step false) (pstart page n) s ->
  no_lost_wakeup s /\
  forall i j t u, ps_threads s !! i = Some t -> ps_threads s !! j = Some u ->
    t_asleep t = true -> t_asleep u = true -> uses true t -> ~ uses false u.
Proof.
  intros Hl Hr. assert (Hinv : fifo s /\ ends_ok s /\ no_lost_wakeup s).
  { assert (H0 : fifo (pstart page n) /\ ends_ok (pstart page n) /\ no_lost_wakeup (pstart page n)).
    { split_and!; [by apply fifo_start|..].
      - by intros i t wr [-> _]%lookup_replicate.
      - by intros i t [-> _]%lookup_replicate. }
    induction Hr as [|s s1 s2 Hs _ IH]; [done|]. destruct H0 as (H1&H2&H3).
    apply IH. split_and!; [by eapply fifo_step|by eapply ends_step|by eapply wakeup_step]. }
  destruct Hinv as ((buf&Hok&_)&_&Hn). split; [done|]. intros i j t u Ht Hu Hat Hau Hut Huu.
  destruct (Hn i t Ht) as [_ H1], (Hn j u Hu) as [_ H2]. specialize (H1 Hat). specialize (H2 Hau).
  unfold uses in *. destruct (t_call t); [done| |done]. destruct (t_call u); [done|done|].
  destruct H1 as [H1 _], H2 as [H2 _]. rewrite (full_spec _ _ _ Hok), bool_decide_eq_true in H1.
  rewrite (empty_spec _ _ _ Hok), bool_decide_eq_true in H2. subst buf. done.
Qed.

(** What the calls return.  pipewrite stores the bytes that fit, in order,
    behind those in the pipe: it returns [n] when all fit, else it sleeps
    with the rest, or returns -1 when there is no reader or it was killed.
    piperead returns as many bytes as there are, at most [n], the oldest
    first; at the end of file, that is on an empty pipe without writers, it
    returns 0; on an empty pipe with writers it sleeps, or returns -1 when
    killed. *)
Theorem pipe_results p R buf killed addr n :
  pipe_ok p R buf -> 0 <= n <= Z.of_nat (length addr) ->
  (let '(p', _, st) := pipewrite p killed addr n in
   let fit := (Z.to_nat n `min` (512 - length buf))%nat in
   pipe_ok p' R (buf ++ take fit addr) /\ same_ends p p' /\
   st = (if decide (Z.of_nat fit = n) then WRet n
         else if readopen p && negb killed then WSleep (drop fit (take (Z.to_nat n) addr)) else WRet (-1))) /\
  (let '(p', _, st) := piperead p killed n in
   let m := (Z.to_nat n `min` length buf)%nat in
   if decide (buf = [] /\ writeopen p = true)
   then p' = p /\ st = (if killed then RRet (-1) [] else RSleep)
   else st = RRet (Z.of_nat m) (take m buf) /\ pipe_ok p' (R + Z.of_nat m) (drop m buf)).
Proof.
  intros Hok Hn. split.
  - destruct (pipewrite p killed addr n) as [[p' wk] st] eqn:Hrun. unfold pipewrite in Hrun. set (rest := take _ addr) in *.
    assert (Hlen : length rest = Z.to_nat n) by (unfold rest; rewrite length_take; lia).
    destruct (pipewrite_loop_ok _ _ _ _ _ _ _ _ _ Hok Hrun) as (m&Hm&Hok'&He&Hcase). cbv zeta.
    pose proof (po_size _ _ _ Hok') as Hs. rewrite length_app, length_take, Nat.min_l in Hs by done. unfold PIPESIZE in *.
    assert (Hfit : m = (Z.to_nat n `min` (512 - length buf))%nat) by (destruct Hcase as [(?&_)|(?&?&_)]; lia).
    rewrite <- Hfit. split_and!; [|apply He..|].
    { unfold rest in Hok'. rewrite take_take, Nat.min_l in Hok' by lia. done. }
    destruct Hcase as [(->&->&_)|(Hl&Hlt&Hc)]; [by rewrite decide_True by lia|]. rewrite decide_False by lia.
    destruct Hc as [(->&_&[->| ->])|(->&_&->&->)]; [done|by rewrite andb_false_r|done].
  - destruct (piperead p killed n) as [[p' wk] st] eqn:Hrun.
    destruct (piperead_ok _ _ _ _ _ _ _ _ Hok Hrun) as (Hok'&Hgot&_&Hcase). cbv zeta.
    destruct Hcase as [(_&Hne&Hst&Hlg)|(_&->&Hb&Hw&Hst)].
    + rewrite decide_False by done. rewrite <- Hlg, <- Hgot. done.
    + by rewrite decide_True.
Qed.

(** A killed writer can leave a reader asleep on a pipe with 512 bytes in
    it: when it finds the pipe full, pipewrite returns -1 without a wakeup
    for the bytes it has stored. *)
Lemma killed_writer_strands_reader :
  exists s, rtc (step true) (pstart (replicate 512 0) 2) s /\
    ps_threads s = [mkT (InRead 1) true false; mkT Idle false true] /\ pipe_full (ps_pipe s) = true.
Proof.
  set (p0 := pipe_init (replicate 512 0)). set (p1 := mkPipe (replicate 512 7) 0 512 true true).
  set (t0 := mkT Idle false false). set (bs := take (Z.to_nat 513) (replicate 513 7)).
  assert (Hrun : pipewrite_loop p0 true bs 513 = (p1, [], WRet (-1))) by (by vm_compute).
  exists (mkP p1 [mkT (InRead 1) true false; mkT Idle false true] ([] ++ stored bs p0 p1) []). split; [|by split].
  apply rtc_l with (mkP p0 [mkT (InRead 1) false false; mkT Idle false false] [] []).
  { exact (StartRead true p0 [t0; t0] [] [] 0 false 1 eq_refl eq_refl). }
  apply rtc_l with (mkP p0 [mkT (InRead 1) true false; mkT Idle false false] [] []).
  { exact (RunRead true p0 [mkT (InRead 1) false false; t0] [] [] 0 false 1 p0 [] RSleep eq_refl eq_refl). }
  apply rtc_l with (mkP p0 [mkT (InRead 1) true false; mkT (InWrite bs 513) false false] [] []).
  { refine (StartWrite true p0 [mkT (InRead 1) true false; t0] [] [] 1 false (replicate 513 7) 513 eq_refl eq_refl _). rewrite length_replicate. lia. }
  apply rtc_l with (mkP p0 [mkT (InRead 1) true false; mkT (InWrite bs 513) false true] [] []).
  { exact (Kill true p0 [mkT (InRead 1) true false; mkT (InWrite bs 513) false false] [] [] 1 _ eq_refl eq_refl). }
  eapply rtc_once. exact (RunWrite true p0 [mkT (InRead 1) true false; mkT (InWrite bs 513) false true] [] [] 1 true bs 513 p1 [] (WRet (-1)) eq_refl Hrun).
Qed.

(** One process writes two bytes and reads one. *)
Definition run_page : list Z := replicate 512 0.
Definition run_p1 : pipe := pipe_put 6 (pipe_put 5 (pipe_init run_page)).
Definition run_end : psys := mkP (snd (pipe_get run_p1)) [mkT Idle false false] [5; 6] [5].
Lemma run_ok : rtc (step false) (pstart run_page 1) run_end.
Proof.
  set (t0 := mkT Idle false false). set (p0 := pipe_init run_page).
  apply rtc_l with (mkP p0 [mkT (InWrite [5; 6] 2) false false] [] []).
  { refine (StartWrite false p0 [t0] [] [] 0 false [5; 6] 2 eq_refl eq_refl _). simpl. lia. }
  apply rtc_l with (mkP run_p1 [t0] [5; 6] []).
  { exact (RunWrite false p0 [mkT (InWrite [5; 6] 2) false false] [] [] 0 false [5; 6] 2 run_p1 [ChPipeR] (WRet 2) eq_refl eq_refl). }
  apply rtc_l with (mkP run_p1 [mkT (InRead 1) false false] [5; 6] []).
  { exact (StartRead false run_p1 [t0] [5; 6] [] 0 false 1 eq_refl eq_refl). }
  eapply rtc_once.
  exact (RunRead false run_p1 [mkT (InRead 1) false false] [5; 6] [] 0 false 1 (snd (pipe_get run_p1)) [ChPipeW] (RRet 1 [5]) eq_refl eq_refl).
Qed.
Lemma pipe_fifo_witness :
  exists buf, ps_wrote run_end = ps_read run_end ++ buf /\ Z.of_nat (length buf) <= PIPESIZE /\
    pipe_ok (ps_pipe run_end) (Z.of_nat (length (ps_read run_end))) buf.
Proof. exact (pipe_fifo false run_page 1 run_end eq_refl run_ok). Defined.
Lemma pipe_no_lost_wakeup_witness :
  no_lost_wakeup run_end /\
  forall i j t u, ps_threads run_end !! i = Some t -> ps_threads run_end !! j = Some u ->
    t_asleep t = true -> t_asleep u = true -> uses true t -> ~ uses false u.
Proof. exact (pipe_no_lost_wakeup run_page 1 run_end eq_refl run_ok). Defined.
Lemma pipe_init_ok : pipe_ok (pipe_init run_page) 0 [].
Proof. by split. Qed.
Lemma pipe_results_witness :
  let '(p', _, st) := pipewrite (pipe_init run_page) false [5; 6] 2 in
  pipe_ok p' 0 [5; 6] /\ st = WRet 2.
Proof.
  pose proof (proj1 (pipe_results (pipe_init run_page) 0 [] false [5; 6] 2 pipe_init_ok ltac:(simpl; lia))) as H.
  exact (conj (proj1 H) (proj2 (proj2 H))).
Defined.
