(* ===== verification/Spinlock.v ===== *)
(** spinlock.c: spin locks and the nesting of interrupt disabling, on several
    CPUs.

    A CPU runs acquire, release and the like one shared-memory access at a
    time, in any interleaving with the other CPUs.  A call is the list of
    these accesses; [exec] performs one.  Locks are numbered, a pointer to a
    struct cpu is the number of the CPU.  The debugging fields name and pcs
    are left out.  The two reads of holding (lk->locked, then lk->cpu) are one
    step: only the CPU itself ever stores itself in lk->cpu or, when it has
    the lock, clears lk->locked, so other CPUs cannot change the answer between the
    two. *)
From S2P Require Import Prelude Params.

(** struct spinlock: locked and cpu. *)
Record spinlock := mkLock { locked : Z; lk_cpu : option nat }.
Definition initlock : spinlock := mkLock 0 None.
#[export] Instance spinlock_inhabited : Inhabited spinlock := populate initlock.

(** The accesses of the code: pushcli and popcli are local to the CPU. *)
Inductive instr :=
  | Pushcli                 (* pushcli(); *)
  | NotHolding (lk : nat)   (* if(holding(lk)) panic("acquire"); *)
  | Xchg1 (lk : nat)        (* while(xchg(&lk->locked, 1) != 0); *)
  | SetCpu (lk : nat)       (* lk->cpu = cpu; *)
  | Holding (lk : nat)      (* if(!holding(lk)) panic("release"); *)
  | ClearCpu (lk : nat)     (* lk->cpu = 0; *)
  | Xchg0 (lk : nat)        (* xchg(&lk->locked, 0); *)
  | Popcli.                 (* popcli(); *)
Definition acquire (lk : nat) : list instr := [Pushcli; NotHolding lk; Xchg1 lk; SetCpu lk].
Definition release (lk : nat) : list instr := [Holding lk; ClearCpu lk; Xchg0 lk; Popcli].
(** Code between pushcli and popcli that takes no lock, as in switchuvm. *)
Definition cli_section : list instr := [Pushcli; Popcli].

(** struct cpu: FL_IF of eflags, ncli, intena, and what it has still to do;
    [held] are the locks it has taken and not given back. *)
Record cpu := mkCpu { c_if : bool; ncli : Z; intena : bool; code : list instr; held : list nat }.
#[export] Instance cpu_inhabited : Inhabited cpu := populate (mkCpu false 0 false [] []).

Definition holding (c : nat) (l : spinlock) : bool :=
  negb (locked l =? 0) && bool_decide (lk_cpu l = Some c).
Definition pushcli (x : cpu) : cpu :=
  mkCpu false (ncli x + 1) (if ncli x =? 0 then c_if x else intena x) (code x) (held x).
(** A panic message, or the new state. *)
Definition popcli (x : cpu) : string + cpu :=
  if c_if x then inl "popcli - interruptible" else
  if ncli x - 1 <? 0 then inl "popcli" else
  inr (mkCpu ((ncli x - 1 =? 0) && intena x) (ncli x - 1) (intena x) (code x) (held x)).

Inductive outcome := Next (ls : list spinlock) (x : cpu) | Stop (msg : string).
Definition next (ls : list spinlock) (x : cpu) (rest : list instr) : outcome :=
  Next ls (mkCpu (c_if x) (ncli x) (intena x) rest (held x)).

(** CPU [c] performs the first access of its code. *)
Definition exec (c : nat) (ls : list spinlock) (x : cpu) : outcome :=
  match code x with
  | [] => Next ls x
  | Pushcli :: rest => next ls (pushcli x) rest
  | NotHolding lk :: rest => if holding c (ls !!! lk) then Stop "acquire" else next ls x rest
  | Xchg1 lk :: rest =>
      let ls' := <[lk := mkLock 1 (lk_cpu (ls !!! lk))]> ls in
      if locked (ls !!! lk) =? 0
      then Next ls' (mkCpu (c_if x) (ncli x) (intena x) rest (lk :: held x))
      else Next ls' x
  | SetCpu lk :: rest => next (<[lk := mkLock (locked (ls !!! lk)) (Some c)]> ls) x rest
  | Holding lk :: rest => if holding c (ls !!! lk) then next ls x rest else Stop "release"
  | ClearCpu lk :: rest => next (<[lk := mkLock (locked (ls !!! lk)) None]> ls) x rest
  | Xchg0 lk :: rest =>
      Next (<[lk := mkLock 0 (lk_cpu (ls !!! lk))]> ls)
        (mkCpu (c_if x) (ncli x) (intena x) rest (filter (.≠ lk) (held x)))
  | Popcli :: rest =>
      match popcli x with
      | inl msg => Stop msg
      | inr x => next ls x rest
      end
  end.

(** The machine; [base] is for each CPU whether its interrupts were on when
    its pushcli depth was last zero. *)
Record mach := mkMach { m_locks : list spinlock; m_cpus : list cpu; m_base : list bool }.

(** A CPU between calls starts one; a CPU in a call performs an access; a
    CPU between calls and outside pushcli turns its interrupts on or off. *)
Inductive step : mach -> mach -> Prop :=
  | Call ls cs b c x cd :
      cs !! c = Some x -> code x = [] ->
      (exists lk, (lk < length ls)%nat /\ (cd = acquire lk \/ cd = release lk)) \/ cd = cli_section ->
      step (mkMach ls cs b) (mkMach ls (<[c := mkCpu (c_if x) (ncli x) (intena x) cd (held x)]> cs) b)
  | Exec ls cs b c x ls' x' :
      cs !! c = Some x -> code x <> [] -> exec c ls x = Next ls' x' ->
      step (mkMach ls cs b) (mkMach ls' (<[c := x']> cs) b)
  | SetIF ls cs b c x f :
      cs !! c = Some x -> code x = [] -> ncli x = 0 ->
      step (mkMach ls cs b)
        (mkMach ls (<[c := mkCpu f 0 (intena x) [] (held x)]> cs) (<[c := f]> b)).

Definition boot_cpu : cpu := mkCpu false 0 false [] [].
Definition mstart (nlock ncpu : nat) : mach :=
  mkMach (replicate nlock initlock) (replicate ncpu boot_cpu) (replicate ncpu false).

(** ** Invariant *)

(** CPU [c] has the lock; it has it and lk->cpu says so. *)
Definition owns (cs : list cpu) (lk c : nat) : Prop := exists x, cs !! c = Some x /\ lk ∈ held x.
Definition settled (lk : nat) (x : cpu) : Prop :=
  lk ∈ held x /\ code x <> [SetCpu lk] /\ code x <> [Xchg0 lk; Popcli].
Definition lock_ok (cs : list cpu) (lk : nat) (l : spinlock) : Prop :=
  exists o : option nat, (forall c, owns cs lk c <-> o = Some c) /\
    locked l = (if o is Some _ then 1 else 0) /\
    (forall c, lk_cpu l = Some c <-> exists x, cs !! c = Some x /\ settled lk x).

(** The pushcli of an acquire that has no lock yet, or of a release that has
    none any more. *)
Definition pend (cd : list instr) : Z :=
  match cd with NotHolding _ :: _ | Xchg1 _ :: _ | Popcli :: _ => 1 | _ => 0 end.
(** What is left of a call, and what is known of its lock. *)
Definition call_ok (nl : nat) (x : cpu) : Prop :=
  code x = [] \/ code x = cli_section \/ code x = [Popcli] \/
  exists lk, (lk < nl)%nat /\
    (code x = acquire lk \/ code x = [NotHolding lk; Xchg1 lk; SetCpu lk] \/
     (code x = [Xchg1 lk; SetCpu lk] /\ lk ∉ held x) \/ (code x = [SetCpu lk] /\ lk ∈ held x) \/
     code x = release lk \/ (code x = [ClearCpu lk; Xchg0 lk; Popcli] /\ lk ∈ held x) \/
     (code x = [Xchg0 lk; Popcli] /\ lk ∈ held x)).
Record cpu_ok (nl : nat) (base : bool) (x : cpu) : Prop := {
  co_call : call_ok nl x;
  co_nodup : NoDup (held x);
  co_ncli : ncli x = Z.of_nat (length (held x)) + pend (code x);
  co_off : 0 < ncli x -> c_if x = false /\ intena x = base;
  co_on : ncli x = 0 -> c_if x = base }.
Record mach_ok (m : mach) : Prop := {
  mo_cpu : forall c x, m_cpus m !! c = Some x -> exists b, m_base m !! c = Some b /\ cpu_ok (length (m_locks m)) b x;
  mo_lock : forall lk l, m_locks m !! lk = Some l -> lock_ok (m_cpus m) lk l }.

Section invariant.
Implicit Types (cs : list cpu) (ls : list spinlock) (x : cpu) (l : spinlock) (lk c nl : nat) (b : bool).

Lemma cpu_insert cs c x x' c' y : cs !! c = Some x ->
  <[c := x']> cs !! c' = Some y <-> (c' = c /\ y = x') \/ (c' <> c /\ cs !! c' = Some y).
Proof.
  intros Hc. assert (Hl : (c < length cs)%nat) by (by eapply lookup_lt_Some).
  destruct (decide (c' = c)) as [->|Hne].
  - rewrite list_lookup_insert_eq by done. naive_solver.
  - rewrite list_lookup_insert_ne by done. naive_solver.
Qed.
Lemma owns_insert cs c x x' lk c' : cs !! c = Some x ->
  owns (<[c := x']> cs) lk c' <-> (c' = c /\ lk ∈ held x') \/ (c' <> c /\ owns cs lk c').
Proof. intros Hc. unfold owns. setoid_rewrite (cpu_insert _ _ _ _ _ _ Hc). naive_solver. Qed.

(** A lock is not touched by a CPU that keeps having it or not. *)
Lemma lock_frame cs c x x' lk l : cs !! c = Some x ->
  (lk ∈ held x' <-> lk ∈ held x) -> (settled lk x' <-> settled lk x) ->
  lock_ok cs lk l -> lock_ok (<[c := x']> cs) lk l.
Proof.
  intros Hc Hh Hs (o&Ho&Hl&Hv). exists o. split_and!; [|done|].
  - intros c'. rewrite (owns_insert _ _ _ _ _ _ Hc), Hh, <- Ho. unfold owns.
    destruct (decide (c' = c)) as [->|]; naive_solver.
  - intros c'. rewrite Hv. setoid_rewrite (cpu_insert _ _ _ _ _ _ Hc).
    destruct (decide (c' = c)) as [->|]; naive_solver.
Qed.

(** The test of holding is right for the CPU that makes it. *)
Lemma holding_ok cs c x lk l : cs !! c = Some x -> lock_ok cs lk l ->
  code x <> [SetCpu lk] -> code x <> [Xchg0 lk; Popcli] -> holding c l = bool_decide (lk ∈ held x).
Proof.
  intros Hc (o&Ho&Hl&Hv) H1 H2. unfold holding. rewrite Hl. destruct (bool_decide_reflect (lk ∈ held x)) as [Hin|Hin].
  - assert (lk_cpu l = Some c) as Heq by (apply Hv; exists x; by repeat split).
    assert (o = Some c) as -> by (apply Ho; by exists x). simpl. by apply bool_decide_eq_true.
  - apply andb_false_iff. right. apply bool_decide_eq_false. rewrite Hv.
    intros (y&Hy&Hyin&_). by simplify_eq.
Qed.

Lemma mach_update ls cs base c x x' ls' b : mach_ok (mkMach ls cs base) -> cs !! c = Some x ->
  base !! c = Some b -> cpu_ok (length ls) b x' -> length ls' = length ls ->
  (forall lk l, ls' !! lk = Some l -> lock_ok (<[c := x']> cs) lk l) ->
  mach_ok (mkMach ls' (<[c := x']> cs) base).
Proof.
  intros [Hcpu Hlock] Hc Hb Hx' Hlen Hl. split; simpl in *; [|done]. rewrite Hlen.
  intros c' y [[-> ->]|[Hne Hy]]%(cpu_insert _ _ _ _ _ _ Hc); [eauto|]. by apply Hcpu.
Qed.
(** Nothing changes for any lock. *)
Lemma mach_local ls cs base c x x' b : mach_ok (mkMach ls cs base) -> cs !! c = Some x ->
  base !! c = Some b -> cpu_ok (length ls) b x' -> held x' = held x ->
  (forall lk, lk ∈ held x -> settled lk x' <-> settled lk x) ->
  mach_ok (mkMach ls (<[c := x']> cs) base).
Proof.
  intros Hm Hc Hb Hx' Hh Hs. eapply mach_update; [done..|]. intros lk l Hl.
  apply (lock_frame cs c x); [done|by rewrite Hh| |by apply (mo_lock _ Hm)].
  destruct (decide (lk ∈ held x)) as [Hin|Hno]; [by apply Hs|].
  unfold settled. rewrite Hh. naive_solver.
Qed.
(** One lock changes with the CPU. *)
Lemma mach_lock ls cs base c x x' b lk l' : mach_ok (mkMach ls cs base) -> cs !! c = Some x ->
  base !! c = Some b -> cpu_ok (length ls) b x' -> (lk < length ls)%nat ->
  (forall lk', lk' <> lk -> lk' ∈ held x' <-> lk' ∈ held x) ->
  (forall lk', lk' <> lk -> lk' ∈ held x -> settled lk' x' <-> settled lk' x) ->
  lock_ok (<[c := x']> cs) lk l' ->
  mach_ok (mkMach (<[lk := l']> ls) (<[c := x']> cs) base).
Proof.
  intros Hm Hc Hb Hx' Hlk Hh Hs Hl'. eapply mach_update; [done..|by rewrite length_insert|]. intros lk1 l1 Hl1.
  destruct (decide (lk1 = lk)) as [->|Hne].
  - rewrite list_lookup_insert_eq in Hl1 by done. by simplify_eq.
  - rewrite list_lookup_insert_ne in Hl1 by done. apply (lock_frame cs c x); [done|by apply Hh| |by apply (mo_lock _ Hm)].
    destruct (decide (lk1 ∈ held x)) as [Hin|Hno]; [by apply Hs|].
    pose proof (Hh lk1 Hne). unfold settled. naive_solver.
Qed.
(** The lock belongs to [c] afterwards, or to nobody. *)
Lemma lock_mine cs c x x' lk l l' : cs !! c = Some x -> lock_ok cs lk l ->
  (lk ∈ held x \/ locked l = 0) ->
  locked l' = (if decide (lk ∈ held x') then 1 else 0) ->
  (lk_cpu l' = Some c <-> settled lk x') -> (forall c', lk_cpu l' = Some c' -> c' = c \/ lk_cpu l = Some c') ->
  lock_ok (<[c := x']> cs) lk l'.
Proof.
  intros Hc (o&Ho&Hl&Hv) Hown Hl' Hv' Hother.
  assert (Hno : forall c', c' <> c -> ~ owns cs lk c').
  { intros c' Hne Hc'. destruct Hown as [Hin|H0].
    - assert (o = Some c) as -> by (apply Ho; by exists x). apply Ho in Hc'. congruence.
    - apply Ho in Hc' as ->. by rewrite Hl in H0. }
  exists (if decide (lk ∈ held x') then Some c else None). split_and!.
  - intros c'. rewrite (owns_insert _ _ _ _ _ _ Hc). destruct (decide (c' = c)) as [->|Hne]; [case_decide; naive_solver|].
    split; [naive_solver|]. case_decide; congruence.
  - rewrite Hl'. by case_decide.
  - intros c'. setoid_rewrite (cpu_insert _ _ _ _ _ _ Hc). destruct (decide (c' = c)) as [->|Hne]; [naive_solver|].
    split.
    + intros Heq. exfalso. destruct (Hother c' Heq) as [?|Hold]; [done|]. apply Hv in Hold as (y&Hy&Hin&_).
      apply (Hno c' Hne). by exists y.
    + intros (y&[[? _]|[_ Hy]]&Hin&_); [done|]. exfalso. apply (Hno c' Hne). by exists y.
Qed.

Lemma pushcli_ok nl b x cd : cpu_ok nl b x -> pend (code x) = 0 -> pend cd = 1 ->
  call_ok nl (mkCpu false (ncli x + 1) (if ncli x =? 0 then c_if x else intena x) cd (held x)) ->
  cpu_ok nl b (mkCpu false (ncli x + 1) (if ncli x =? 0 then c_if x else intena x) cd (held x)).
Proof.
  intros [Hc Hn Hk Hoff Hon] Hp Hp' Hcall. split; simpl; try done; [lia| |lia].
  intros _. split; [done|]. destruct (Z.eqb_spec (ncli x) 0); [auto|]. apply Hoff. lia.
Qed.
Lemma popcli_ok nl b x : cpu_ok nl b x -> code x = [Popcli] -> exists x1, popcli x = inr x1 /\
  cpu_ok nl b (mkCpu (c_if x1) (ncli x1) (intena x1) [] (held x1)) /\ held x1 = held x.
Proof.
  intros [Hc Hn Hk Hoff Hon] Hcode. rewrite Hcode in Hk. simpl in Hk.
  destruct (Hoff ltac:(lia)) as [Hif Hint]. unfold popcli. rewrite Hif, (proj2 (Z.ltb_ge _ _)) by lia.
  eexists. split; [done|]. split; [|done]. split; simpl; [by left|done|lia| |].
  - intros Hpos. rewrite (proj2 (Z.eqb_neq _ _)) by lia. done.
  - intros H0. by rewrite (proj2 (Z.eqb_eq _ _) H0).
Qed.
(** The rest of a call that changes neither depth nor locks. *)
Lemma cpu_ok_code nl b x cd : cpu_ok nl b x -> pend cd = pend (code x) ->
  call_ok nl (mkCpu (c_if x) (ncli x) (intena x) cd (held x)) ->
  cpu_ok nl b (mkCpu (c_if x) (ncli x) (intena x) cd (held x)).
Proof. intros [Hc Hn Hk Hoff Hon] Hp Hcall. split; simpl; try done. lia. Qed.

Lemma lookup_lock ls lk : (lk < length ls)%nat -> ls !! lk = Some (ls !!! lk).
Proof. apply list_lookup_lookup_total_lt. Qed.

(** acquire *)
Lemma acquire_step ls cs base c x b lk ls' x' : mach_ok (mkMach ls cs base) -> cs !! c = Some x ->
  base !! c = Some b -> cpu_ok (length ls) b x -> (lk < length ls)%nat ->
  code x = acquire lk \/ code x = [NotHolding lk; Xchg1 lk; SetCpu lk] \/
  (code x = [Xchg1 lk; SetCpu lk] /\ lk ∉ held x) \/ (code x = [SetCpu lk] /\ lk ∈ held x) ->
  exec c ls x = Next ls' x' -> mach_ok (mkMach ls' (<[c := x']> cs) base).
Proof.
  intros Hm Hc Hb Hok Hlk Hcode. pose proof (mo_lock _ Hm lk _ (lookup_lock ls lk Hlk)) as Hlock. simpl in Hlock.
  unfold exec. destruct Hcode as [Hcd|[Hcd|[[Hcd Hno]|[Hcd Hin]]]]; rewrite Hcd; cbv [acquire].
  - intros [= <- <-]. eapply mach_local; [done..| |done|].
    + apply pushcli_ok; [done|by rewrite Hcd|done|]. right; right; right. exists lk. split; [done|]. by right; left.
    + intros lk' Hin. unfold settled. simpl. rewrite Hcd. done.
  - destruct (holding c (ls !!! lk)) eqn:Hh; [done|]. intros [= <- <-].
    rewrite (holding_ok cs c x lk) in Hh by (done || by rewrite Hcd). apply bool_decide_eq_false in Hh.
    eapply mach_local; [done..| |done|].
    + apply cpu_ok_code; [done|by rewrite Hcd|]. right; right; right. exists lk. split; [done|]. right; right; left. done.
    + intros lk' Hin. unfold settled. simpl. rewrite Hcd. done.
  - destruct (Z.eqb_spec (locked (ls !!! lk)) 0) as [H0|H0]; intros [= <- <-].
    + eapply mach_lock; [done..| |done| | |].
      * destruct Hok as [_ Hn Hk Hoff Hon]. rewrite Hcd in Hk. simpl in Hk. split; simpl; [|by constructor|lia|done|done].
        right; right; right. exists lk. split; [done|]. do 3 right. left. split; [done|]. by left.
      * simpl. intros lk' Hne. rewrite elem_of_cons. naive_solver.
      * intros lk' Hne Hin. unfold settled. simpl. rewrite Hcd, elem_of_cons.
        assert ([SetCpu lk] <> [SetCpu lk']) by congruence. naive_solver.
      * apply (lock_mine cs c x _ lk (ls !!! lk)); [done|done|by right| | |by auto].
        -- simpl. rewrite decide_True; [done|by left].
        -- simpl. split; [|unfold settled; simpl; naive_solver]. intros Heq. exfalso.
           destruct Hlock as (o&Ho&Hl&Hv). apply Hv in Heq as (y&Hy&Hyin&_).
           assert (o = Some c) as -> by (apply Ho; by exists y). by rewrite Hl in H0.
    + assert (Hsame : <[lk := mkLock 1 (lk_cpu (ls !!! lk))]> ls = ls).
      { apply list_insert_id. rewrite (lookup_lock ls lk Hlk). destruct Hlock as (o&_&Hl&_).
        destruct (ls !!! lk) as [v w]. simpl in *. destruct o; [by subst|done]. }
      rewrite Hsame, (list_insert_id cs) by done. exact Hm.
  - intros [= <- <-]. eapply mach_lock; [done..| |done|done| |].
    + apply cpu_ok_code; [done|by rewrite Hcd|]. by left.
    + intros lk' Hne Hin'. unfold settled. simpl. rewrite Hcd. split; [|done]. intros _. split_and!; [done|congruence|done].
    + apply (lock_mine cs c x _ lk (ls !!! lk)); [done|done|by left| | |].
      * simpl. rewrite decide_True by done. destruct Hlock as (o&Ho&Hl&_).
        assert (o = Some c) as -> by (apply Ho; by exists x). done.
      * simpl. split; [|done]. intros _. unfold settled. simpl. done.
      * simpl. intros c' [= <-]. by left.
Qed.

(** release *)
Lemma release_step ls cs base c x b lk ls' x' : mach_ok (mkMach ls cs base) -> cs !! c = Some x ->
  base !! c = Some b -> cpu_ok (length ls) b x -> (lk < length ls)%nat ->
  code x = release lk \/ (code x = [ClearCpu lk; Xchg0 lk; Popcli] /\ lk ∈ held x) \/
  (code x = [Xchg0 lk; Popcli] /\ lk ∈ held x) ->
  exec c ls x = Next ls' x' -> mach_ok (mkMach ls' (<[c := x']> cs) base).
Proof.
  intros Hm Hc Hb Hok Hlk Hcode. pose proof (mo_lock _ Hm lk _ (lookup_lock ls lk Hlk)) as Hlock. simpl in Hlock.
  unfold exec. destruct Hcode as [Hcd|[[Hcd Hin]|[Hcd Hin]]]; rewrite Hcd; cbv [release].
  - destruct (holding c (ls !!! lk)) eqn:Hh; [|done]. intros [= <- <-].
    rewrite (holding_ok cs c x lk) in Hh by (done || by rewrite Hcd). apply bool_decide_eq_true in Hh.
    eapply mach_local; [done..| |done|].
    + apply cpu_ok_code; [done|by rewrite Hcd|]. right; right; right. exists lk. split; [done|]. do 5 right. left. done.
    + intros lk' Hin. unfold settled. simpl. rewrite Hcd. done.
  - intros [= <- <-]. eapply mach_lock; [done..| |done|done| |].
    + apply cpu_ok_code; [done|by rewrite Hcd|]. right; right; right. exists lk. split; [done|]. do 6 right. done.
    + intros lk' Hne Hin'. unfold settled. simpl. rewrite Hcd. split; intros _; split_and!; try done. congruence.
    + apply (lock_mine cs c x _ lk (ls !!! lk)); [done|done|by left| | |done].
      * simpl. rewrite decide_True by done. destruct Hlock as (o&Ho&Hl&_).
        assert (o = Some c) as -> by (apply Ho; by exists x). done.
      * simpl. split; [done|]. unfold settled. simpl. naive_solver.
  - intros [= <- <-]. eapply mach_lock; [done..| |done| | |].
    + destruct Hok as [_ Hn Hk Hoff Hon]. rewrite Hcd in Hk. simpl in Hk.
      assert (Hlen : length (held x) = S (length (filter (.≠ lk) (held x)))).
      { clear -Hn Hin. induction Hn as [|a l Ha Hn IH]; [by apply elem_of_nil in Hin|].
        apply elem_of_cons in Hin as [->|Hin].
        - rewrite filter_cons_False by naive_solver. simpl. f_equal.
          clear -Ha. induction l as [|d l IH]; [done|]. apply not_elem_of_cons in Ha as [Hd Hl].
          rewrite filter_cons_True by done. simpl. f_equal. auto.
        - rewrite filter_cons_True by (intros ->; done). simpl. f_equal. auto. }
      split; simpl; [|by apply NoDup_filter|lia|done|done]. by right; right; left.
    + simpl. intros lk' Hne. rewrite list_elem_of_filter. naive_solver.
    + intros lk' Hne Hin'. unfold settled. simpl. rewrite Hcd, list_elem_of_filter.
      assert ([Xchg0 lk; Popcli] <> [Xchg0 lk'; Popcli]) by congruence. naive_solver.
    + apply (lock_mine cs c x _ lk (ls !!! lk)); [done|done|by left| | |by auto].
      * simpl. rewrite decide_False; [done|]. rewrite list_elem_of_filter. naive_solver.
      * simpl. destruct Hlock as (o&Ho&_&Hv). rewrite Hv. unfold settled. simpl. rewrite list_elem_of_filter.
        split; [|naive_solver]. intros (y&Hy&_&_&Hcy). by simplify_eq.
Qed.

Lemma exec_ok ls cs base c x b ls' x' : mach_ok (mkMach ls cs base) -> cs !! c = Some x ->
  base !! c = Some b -> cpu_ok (length ls) b x -> code x <> [] ->
  exec c ls x = Next ls' x' -> mach_ok (mkMach ls' (<[c := x']> cs) base).
Proof.
  intros Hm Hc Hb Hok Hne Hex. destruct (co_call _ _ _ Hok) as [?|[Hcd|[Hcd|(lk&Hlk&Hcd)]]]; [done| | |].
  - unfold exec in Hex. rewrite Hcd in Hex. injection Hex as <- <-. eapply mach_local; [done..| |done|].
    + apply pushcli_ok; [done|by rewrite Hcd|done|]. by right; right; left.
    + intros lk' Hin. unfold settled. simpl. rewrite Hcd. done.
  - destruct (popcli_ok _ _ _ Hok Hcd) as (x1&Hp&Hok1&Hh). unfold exec in Hex. rewrite Hcd, Hp in Hex.
    injection Hex as <- <-. eapply mach_local; [done..|].
    intros lk' Hin. unfold settled. simpl. rewrite Hcd, Hh. done.
  - assert (Hcase : (code x = acquire lk \/ code x = [NotHolding lk; Xchg1 lk; SetCpu lk] \/
        (code x = [Xchg1 lk; SetCpu lk] /\ lk ∉ held x) \/ (code x = [SetCpu lk] /\ lk ∈ held x)) \/
      (code x = release lk \/ (code x = [ClearCpu lk; Xchg0 lk; Popcli] /\ lk ∈ held x) \/
        (code x = [Xchg0 lk; Popcli] /\ lk ∈ held x))) by tauto.
    destruct Hcase; [by eapply acquire_step|by eapply release_step].
Qed.

Lemma step_ok m m' : step m m' -> mach_ok m -> mach_ok m'.
Proof.
  intros Hstep Hm. destruct Hstep as [ls cs base c x cd Hc Hcode Hcd|ls cs base c x ls' x' Hc Hne Hex|ls cs base c x f Hc Hcode H0].
  - destruct (mo_cpu _ Hm c x Hc) as (b&Hb&Hok). simpl in *. eapply mach_local; [done..| |done|].
    + apply cpu_ok_code; [done| |].
      * rewrite Hcode. destruct Hcd as [(lk&_&[->| ->])| ->]; done.
      * destruct Hcd as [(lk&Hlk&[->| ->])| ->]; [do 3 right; exists lk; naive_solver..|by right; left].
    + intros lk Hin. unfold settled. simpl. rewrite Hcode.
      destruct Hcd as [(lk'&_&[->| ->])| ->]; (split; intros _; split_and!; done).
  - destruct (mo_cpu _ Hm c x Hc) as (b&Hb&Hok). by eapply exec_ok.
  - destruct (mo_cpu _ Hm c x Hc) as (b&Hb&Hok). simpl in *.
    assert (Hlb : (c < length base)%nat) by (by eapply lookup_lt_Some).
    split; simpl.
    + intros c' y [[-> ->]|[Hne Hy]]%(cpu_insert _ _ _ _ _ _ Hc).
      * exists f. rewrite list_lookup_insert_eq by done. split; [done|]. destruct Hok as [_ Hn Hk _ _].
        rewrite Hcode in Hk. split; simpl; [by left|done|simpl in Hk; lia|lia|done].
      * rewrite list_lookup_insert_ne by done. by apply (mo_cpu _ Hm).
    + intros lk l Hl. apply (lock_frame cs c x); [done|done| |by apply (mo_lock _ Hm)].
      unfold settled. simpl. by rewrite Hcode.
Qed.
Lemma start_ok nl nc : mach_ok (mstart nl nc).
Proof.
  split; simpl.
  - intros c x [-> Hc]%lookup_replicate. exists false. split; [by apply lookup_replicate_2|].
    split; simpl; [by left|constructor|done|lia|done].
  - intros lk l [-> _]%lookup_replicate. exists None. split_and!; [|done|].
    + intros c. split; [|done]. intros (x&[-> _]%lookup_replicate&Hin). by apply elem_of_nil in Hin.
    + intros c. split; [done|]. intros (x&[-> _]%lookup_replicate&Hin&_). by apply elem_of_nil in Hin.
Qed.
Lemma reach_ok nl nc m : rtc step (mstart nl nc) m -> mach_ok m.
Proof. intros Hr. pose proof (start_ok nl nc) as H0. induction Hr as [|m m1 m2 Hs _ IH]; [done|]. by apply IH, (step_ok m). Qed.
End invariant.

(** ** Theorems *)

(** C8. Mutual exclusion.  Whatever the interleaving of the CPUs' accesses, two
    CPUs never have the same lock; a lock reads as free exactly when no CPU
    has it; and for a CPU that is not itself in the middle of acquire or
    release, holding says whether it has the lock. *)
Theorem spinlock_mutex nl nc m : rtc step (mstart nl nc) m ->
  (forall lk c c', owns (m_cpus m) lk c -> owns (m_cpus m) lk c' -> (lk < length (m_locks m))%nat -> c = c') /\
  (forall lk l, m_locks m !! lk = Some l -> locked l = 0 <-> (forall c, ~ owns (m_cpus m) lk c)) /\
  (forall lk l c x, m_locks m !! lk = Some l -> m_cpus m !! c = Some x -> code x = [] ->
    holding c l = bool_decide (lk ∈ held x)).
Proof.
  intros Hr. pose proof (reach_ok _ _ _ Hr) as Hm. split_and!.
  - intros lk c c' Hc Hc' Hlt. destruct (mo_lock _ Hm lk _ (lookup_lock _ _ Hlt)) as (o&Ho&_).
    apply Ho in Hc. apply Ho in Hc'. congruence.
  - intros lk l Hl. destruct (mo_lock _ Hm lk l Hl) as (o&Ho&Hlk&_). rewrite Hlk. destruct o as [c|].
    + split; [done|]. intros Hno. destruct (Hno c). by apply Ho.
    + split; [|done]. intros _ c Hc%Ho. done.
  - intros lk l c x Hl Hc Hcode. eapply holding_ok; [done|by apply (mo_lock _ Hm)|by rewrite Hcode..].
Qed.

(** Interrupts and panics.  A CPU that has a lock, or is about to take one,
    runs with interrupts off; between calls its pushcli depth is the number
    of locks it has, and when that is zero its interrupts are as they were
    before the first acquire.  acquire panics exactly for a lock the CPU
    already has, release for one it does not have, and popcli never. *)
Theorem spinlock_interrupts nl nc m c x : rtc step (mstart nl nc) m -> m_cpus m !! c = Some x ->
  (held x <> [] \/ pend (code x) = 1 -> c_if x = false) /\
  (code x = [] -> ncli x = Z.of_nat (length (held x))) /\
  (code x = [] -> held x = [] -> m_base m !! c = Some (c_if x)) /\
  (forall msg, exec c (m_locks m) x = Stop msg ->
    (exists lk, msg = "acquire"%string /\ lk ∈ held x /\ code x = [NotHolding lk; Xchg1 lk; SetCpu lk]) \/
    (exists lk, msg = "release"%string /\ (lk ∉ held x) /\ code x = release lk)).
Proof.
  intros Hr Hc. pose proof (reach_ok _ _ _ Hr) as Hm. destruct (mo_cpu _ Hm c x Hc) as (b&Hb&Hok).
  pose proof (co_ncli _ _ _ Hok) as Hk. split_and!.
  - intros Hor. apply (co_off _ _ _ Hok). destruct Hor as [Hne|Hp]; [|lia].
    assert (0 <= pend (code x)) by (unfold pend; destruct (code x) as [|[]]; lia). destruct (held x); [done|simpl in *; lia].
  - intros Hcd. rewrite Hcd in Hk. simpl in Hk. lia.
  - intros Hcd Hh. rewrite Hcd, Hh in Hk. rewrite Hb. f_equal. symmetry. by apply (co_on _ _ _ Hok).
  - intros msg Hex. destruct (co_call _ _ _ Hok) as [Hcd|[Hcd|[Hcd|(lk&Hlk&Hcd)]]]; unfold exec in Hex.
    1, 2: by rewrite Hcd in Hex.
    { destruct (popcli_ok _ _ _ Hok Hcd) as (x1&Hp&_). by rewrite Hcd, Hp in Hex. }
    pose proof (mo_lock _ Hm lk _ (lookup_lock _ lk Hlk)) as Hlock.
    destruct Hcd as [Hcd|[Hcd|[[Hcd _]|[[Hcd _]|[Hcd|[[Hcd _]|[Hcd _]]]]]]];
      rewrite Hcd in Hex; cbv [acquire release] in Hex; [done| | |done| |done..].
    + rewrite (holding_ok _ c x lk _ Hc Hlock) in Hex by (by rewrite Hcd). case_bool_decide; [|done].
      left. exists lk. by simplify_eq.
    + by destruct (_ =? 0) in Hex.
    + rewrite (holding_ok _ c x lk _ Hc Hlock) in Hex by (by rewrite Hcd). case_bool_decide; [done|].
      right. exists lk. by simplify_eq.
Qed.

(** CPU 0 of two takes the lock. *)
Definition lk_end : mach :=
  mkMach [mkLock 1 (Some O)] [mkCpu false 1 false [] [O]; boot_cpu] [false; false].
Lemma lk_run : rtc step (mstart 1 2) lk_end.
Proof.
  set (l0 := [initlock]). set (b := [false; false]). set (at_ := fun n cd h => [mkCpu false n false cd h; boot_cpu]).
  apply rtc_l with (mkMach l0 (at_ 0 (acquire 0) []) b).
  { refine (Call l0 [boot_cpu; boot_cpu] b 0 boot_cpu (acquire 0) eq_refl eq_refl _). left. exists O. split; [simpl; lia|by left]. }
  apply rtc_l with (mkMach l0 (at_ 1 [NotHolding 0; Xchg1 0; SetCpu 0] []) b).
  { refine (Exec l0 (at_ 0 (acquire 0) []) b 0 _ _ _ eq_refl _ eq_refl). done. }
  apply rtc_l with (mkMach l0 (at_ 1 [Xchg1 0%nat; SetCpu 0] []) b).
  { refine (Exec l0 (at_ 1 [NotHolding 0; Xchg1 0; SetCpu 0] []) b 0 _ _ _ eq_refl _ eq_refl). done. }
  apply rtc_l with (mkMach [mkLock 1 None] (at_ 1 [SetCpu 0] [O]) b).
  { refine (Exec l0 (at_ 1 [Xchg1 0%nat; SetCpu 0] []) b 0 _ _ _ eq_refl _ eq_refl). done. }
  eapply rtc_once. refine (Exec [mkLock 1 None] (at_ 1 [SetCpu 0] [O]) b 0 _ _ _ eq_refl _ eq_refl). done.
Qed.
Lemma spinlock_mutex_witness :
  holding 0 (mkLock 1 (Some O)) = bool_decide (O ∈ [O]) /\ holding 1 (mkLock 1 (Some O)) = bool_decide (O ∈ @nil nat).
Proof.
  pose proof (proj2 (proj2 (spinlock_mutex 1 2 lk_end lk_run)) O (mkLock 1 (Some O))) as H.
  exact (conj (H O _ eq_refl eq_refl eq_refl) (H 1%nat _ eq_refl eq_refl eq_refl)).
Defined.
Lemma spinlock_interrupts_witness : c_if (mkCpu false 1 false [] [O]) = false.
Proof. apply (proj1 (spinlock_interrupts 1 2 lk_end 0 _ lk_run eq_refl)). by left. Defined.
