(* ===== verification/Kalloc.v ===== *)
(** kalloc.c: the allocator of physical pages, a linked list threaded through
    the free pages themselves.

    Memory is a map from the kernel address of a page to its PGSIZE bytes.
    [kend] is the first address after the kernel, which the linker sets. *)
From S2P Require Import Prelude Params.

(** memlayout.h and mmu.h *)
Definition EXTMEM : Z := 0x100000.
Definition PHYSTOP : Z := 0xE000000.
Definition DEVSPACE : Z := 0xFE000000.
Definition KERNBASE : Z := 0x80000000.
Definition KERNLINK : Z := KERNBASE + EXTMEM.
Definition v2p (a : Z) : Z := u32 (a - KERNBASE).
Definition p2v (a : Z) : Z := u32 (a + KERNBASE).
Definition PGSIZE : Z := 4096.
Definition PGROUNDUP (sz : Z) : Z := Z.land (u32 (sz + PGSIZE - 1)) (Z.lnot (PGSIZE - 1)).
Definition PGROUNDDOWN (a : Z) : Z := Z.land a (Z.lnot (PGSIZE - 1)).

(** kmem and the memory the pages are in. *)
Record kmem := mkK { freelist : Z; mem : gmap Z (list Z) }.

Section kalloc.
Variable kend : Z.

(** memset(v, 1, PGSIZE); r->next = kmem.freelist; *)
Definition junk_page (next : Z) : list Z := wr 4 0 next (replicate (Z.to_nat PGSIZE) 1).
Definition kfree (v : Z) : K kmem unit :=
  if negb (v mod PGSIZE =? 0) || (v <? kend) || (PHYSTOP <=? v2p v) then panic "kfree" else
  modify (fun s => mkK v (<[v := junk_page (freelist s)]> (mem s))).

(** The pages of [p], p + PGSIZE, ... that end below [vend]. *)
Definition freerange (vstart vend : Z) : K kmem unit :=
  let p := PGROUNDUP vstart in
  while (S (Z.to_nat ((vend - p) / PGSIZE + 1))) (fun p =>
    if negb (p + PGSIZE <=? vend) then ret (inr tt) else
    kfree p;;
    ret (inl (p + PGSIZE))) p.
Definition kinit1 (vstart vend : Z) : K kmem unit := freerange vstart vend.
Definition kinit2 (vstart vend : Z) : K kmem unit := freerange vstart vend.

(** 0 when there is no page. *)
Definition kalloc : K kmem Z :=
  r <- gets freelist;;
  if r =? 0 then ret 0 else
  m <- gets mem;;
  match m !! r with
  | Some pg => modify (fun s => mkK (rd 4 0 pg) (mem s));; ret r
  | None => fail Undef
  end.

(** ** The free list *)

(** A page the allocator manages. *)
Definition page_ok (v : Z) : Prop :=
  v mod PGSIZE = 0 /\ kend <= v /\ KERNBASE <= v < KERNBASE + PHYSTOP.
#[export] Instance page_ok_dec v : Decision (page_ok v).
Proof. unfold page_ok. apply _. Defined.
(** The pages on the list, in the order kalloc hands them out. *)
Fixpoint chain (m : gmap Z (list Z)) (head : Z) (l : list Z) : Prop :=
  match l with
  | [] => head = 0
  | v :: l => head = v /\ exists pg, m !! v = Some pg /\ chain m (rd 4 0 pg) l
  end.
Record free_list (s : kmem) (l : list Z) : Prop := {
  fl_chain : chain (mem s) (freelist s) l;
  fl_nodup : NoDup l;
  fl_pages : Forall page_ok l }.

Lemma chain_frame m head l v pg : v ∉ l -> chain m head l -> chain (<[v := pg]> m) head l.
Proof.
  revert head. induction l as [|a l IH]; intros head Hv; simpl; [done|].
  apply not_elem_of_cons in Hv as [Hne Hv]. intros (->&pg'&Ha&Hc). split; [done|].
  exists pg'. rewrite lookup_insert_ne by done. auto.
Qed.
Lemma page_nonzero v : page_ok v -> v <> 0.
Proof. unfold page_ok, KERNBASE. lia. Qed.
Lemma page_u32 v : page_ok v -> 0 <= v < 2 ^ 32.
Proof. unfold page_ok, KERNBASE, PHYSTOP. lia. Qed.
Lemma page_v2p v : page_ok v -> v2p v = v - KERNBASE /\ v2p v < PHYSTOP.
Proof.
  unfold page_ok, v2p. intros (_&_&Hv). rewrite u32_small by (unfold PHYSTOP, KERNBASE in *; lia). lia.
Qed.
Lemma length_junk n : length (junk_page n) = 4096%nat.
Proof. unfold junk_page. by rewrite length_wr, length_replicate. Qed.
Lemma junk_next n : 0 <= n < 2 ^ 32 -> rd 4 0 (junk_page n) = n.
Proof.
  intros Hn. unfold junk_page. rewrite rd_wr_eq; [|lia|rewrite length_replicate; unfold PGSIZE; lia].
  change (256 ^ Z.of_nat 4) with (2 ^ 32). by apply Z.mod_small.
Qed.
Lemma head_u32 s l : free_list s l -> 0 <= freelist s < 2 ^ 32.
Proof.
  intros [Hc _ Hp]. destruct l as [|v l]; simpl in Hc; [lia|]. destruct Hc as [-> _].
  apply page_u32. by inversion Hp.
Qed.

Lemma kalloc_ok s l : free_list s l ->
  match l with
  | [] => kalloc s = Ok 0 s
  | v :: l => exists s', kalloc s = Ok v s' /\ free_list s' l /\ mem s' = mem s
  end.
Proof.
  intros Hf. destruct Hf as [Hc Hn Hp]. unfold kalloc, bind, gets. destruct l as [|v l]; simpl in Hc.
  - by rewrite Hc.
  - destruct Hc as (Hh&pg&Hv&Hc). apply NoDup_cons in Hn as [Hno Hn]. apply Forall_cons in Hp as [Hv1 Hp].
    rewrite Hh, (proj2 (Z.eqb_neq v 0)) by (by apply page_nonzero). rewrite Hv.
    eexists. split; [done|]. by split.
Qed.
Lemma kfree_ok s l v : free_list s l -> page_ok v -> v ∉ l ->
  exists s', kfree v s = Ok tt s' /\ free_list s' (v :: l) /\ mem s' = <[v := junk_page (freelist s)]> (mem s).
Proof.
  intros Hf Hv Hno. pose proof (head_u32 _ _ Hf) as Hh. destruct Hf as [Hc Hn Hp]. unfold kfree.
  destruct (page_v2p v Hv) as [_ Hlt]. pose proof Hv as (Hm&Hk&Hr).
  rewrite (proj2 (Z.eqb_eq _ _) Hm), (proj2 (Z.ltb_ge _ _) Hk), (proj2 (Z.leb_gt _ _) Hlt). simpl.
  eexists. split; [done|]. split; [|done]. split; simpl.
  - split; [done|]. eexists. rewrite lookup_insert_eq. split; [done|]. rewrite junk_next by done.
    by apply chain_frame.
  - by constructor.
  - by constructor.
Qed.
Lemma kfree_bad s v : ~ (v mod PGSIZE = 0 /\ kend <= v /\ v2p v < PHYSTOP) -> kfree v s = Fail (Panic "kfree").
Proof.
  intros Hv. unfold kfree. destruct (Z.eqb_spec (v mod PGSIZE) 0), (Z.ltb_spec v kend), (Z.leb_spec PHYSTOP (v2p v)); simpl; try done.
  exfalso. apply Hv. done.
Qed.

(** freerange puts the whole pages of the range on the list. *)
Definition range_pages (p : Z) (n : nat) : list Z := map (fun k => p + PGSIZE * k) (seqZ 0 (Z.of_nat n)).
Lemma range_pages_S p n : range_pages p (S n) = range_pages p n ++ [p + PGSIZE * Z.of_nat n].
Proof. unfold range_pages. by rewrite seqZ_S, map_app, Z.add_0_l. Qed.
Lemma range_pages_elem p n v : v ∈ range_pages p n <-> exists k, 0 <= k < Z.of_nat n /\ v = p + PGSIZE * k.
Proof. unfold range_pages. rewrite list_elem_of_fmap. setoid_rewrite elem_of_seqZ. split; intros (k&?&?); exists k; lia. Qed.

Lemma freerange_ok s l vstart n :
  let p0 := PGROUNDUP vstart in
  free_list s l -> (forall v, v ∈ range_pages p0 n -> page_ok v /\ (v ∉ l)) ->
  forall vend, n = Z.to_nat ((vend - p0) / PGSIZE) ->
  wp (freerange vstart vend) noerr (fun _ s' => free_list s' (rev (range_pages p0 n) ++ l)) s.
Proof.
  intros p0 Hf Hpg vend Hn. unfold freerange. fold p0. unfold PGSIZE in *.
  apply (wp_while (fun p s' => exists k, (k <= n)%nat /\ p = p0 + PGSIZE * Z.of_nat k /\
      free_list s' (rev (range_pages p0 k) ++ l)) (fun p => Z.to_nat ((vend - p) / 4096 + 1))).
  - exists O. split_and!; [lia|lia|done].
  - lia.
  - intros p s1 (k&Hk&->&Hf1). unfold PGSIZE in *.
    pose proof (Z.div_mod (vend - p0) 4096 ltac:(lia)). pose proof (Z.mod_pos_bound (vend - p0) 4096 ltac:(lia)).
    destruct (Z.leb_spec (p0 + 4096 * Z.of_nat k + 4096) vend) as [Hle|Hgt]; cbn [negb].
    + assert (Hkn : (k < n)%nat) by lia. assert (Hin : p0 + 4096 * Z.of_nat k ∈ range_pages p0 n).
      { apply range_pages_elem. exists (Z.of_nat k). unfold PGSIZE. lia. }
      destruct (Hpg _ Hin) as [Hok Hno].
      destruct (kfree_ok s1 _ _ Hf1 Hok) as (s2&Hrun&Hf2&_).
      { rewrite not_elem_of_app. split; [|done]. intros Hr.
        apply list_elem_of_In, in_rev, list_elem_of_In, range_pages_elem in Hr as (j&Hj&Heq). unfold PGSIZE in Heq. lia. }
      apply wp_bind. unfold wp at 1. rewrite Hrun. apply wp_ret. split; [|].
      * exists (S k). split_and!; [lia|lia|]. rewrite range_pages_S, rev_app_distr. done.
      * pose proof (Z.div_mod (vend - (p0 + 4096 * Z.of_nat k)) 4096 ltac:(lia)).
        replace (vend - (p0 + 4096 * Z.of_nat k + 4096)) with (vend - (p0 + 4096 * Z.of_nat k) + (-1) * 4096) by lia.
        rewrite Z.div_add by lia. pose proof (Z.mod_pos_bound (vend - (p0 + 4096 * Z.of_nat k)) 4096 ltac:(lia)). lia.
    + apply wp_ret. assert (k = n) as -> by lia. done.
Qed.

(** ** The allocator and its clients *)

(** The pages that clients have; they write what they like to them and give
    back only what they have. *)
Inductive kstep : kmem * gset Z -> kmem * gset Z -> Prop :=
  | KAlloc s s' v own : kalloc s = Ok v s' -> v <> 0 -> kstep (s, own) (s', {[v]} ∪ own)
  | KFree s s' v own : v ∈ own -> kfree v s = Ok tt s' -> kstep (s, own) (s', own ∖ {[v]})
  | KWrite s own v pg : v ∈ own -> kstep (s, own) (mkK (freelist s) (<[v := pg]> (mem s)), own).
(** Every page of [all] is free or in use, not both. *)
Definition parts (all : gset Z) (st : kmem * gset Z) : Prop :=
  exists l, free_list st.1 l /\ list_to_set l ∪ st.2 = all /\ list_to_set l ## st.2 /\
    (forall v, v ∈ st.2 -> page_ok v).

Lemma parts_step all st st' : kstep st st' -> parts all st -> parts all st'.
Proof.
  intros Hs (l&Hf&Hall&Hd&Hown). destruct Hs as [s s' v own Ha Hv|s s' v own Hv Hfr|s own v pg Hv]; simpl in *.
  - pose proof (kalloc_ok s l Hf) as Hk. destruct l as [|v' l].
    { rewrite Hk in Ha. by simplify_eq. }
    destruct Hk as (s1&Hk&Hf1&_). rewrite Hk in Ha. simplify_eq. exists l.
    pose proof (fl_nodup _ _ Hf) as Hn. apply NoDup_cons in Hn as [Hno _].
    pose proof (fl_pages _ _ Hf) as Hp. apply Forall_cons in Hp as [Hp _]. simpl in *. split_and!; [done|set_solver..].
  - assert (Hno : v ∉ l) by set_solver. destruct (kfree_ok s l v Hf (Hown v Hv) Hno) as (s1&Hk&Hf1&_).
    rewrite Hk in Hfr. simplify_eq. exists (v :: l). simpl. split_and!; [done| |set_solver|set_solver].
    apply set_eq. intros y. destruct (decide (y = v)); set_solver.
  - exists l. split_and!; [|done..]. destruct Hf as [Hc Hn Hp]. split; [|done..]. simpl. apply chain_frame; [set_solver|done].
Qed.
Lemma parts_reach all st st' : rtc kstep st st' -> parts all st -> parts all st'.
Proof. induction 1; eauto using parts_step. Qed.
End kalloc.

(** ** Theorems *)

(** C11. The allocator never hands out a page twice.  Whatever its clients did
    with their pages before, kalloc returns a page that nobody has, or 0 when
    every page is in use, and changes no byte of memory; kfree of a page that
    is in use succeeds, fills it with junk and makes it available; kfree of
    an address that is not a page panics. *)
Theorem kalloc_correct kend all s0 s own :
  parts kend all (s0, ∅) -> rtc (kstep kend) (s0, ∅) (s, own) ->
  wp kalloc noerr (fun v s' => mem s' = mem s /\
    ((v = 0 /\ own = all /\ s' = s) \/ (v ∈ all /\ (v ∉ own) /\ page_ok kend v))) s /\
  (forall v, v ∈ own -> wp (kfree kend v) noerr (fun _ s' =>
    mem s' = <[v := junk_page (freelist s)]> (mem s) /\ parts kend all (s', own ∖ {[v]})) s) /\
  (forall v, ~ (v mod PGSIZE = 0 /\ kend <= v /\ v2p v < PHYSTOP) -> kfree kend v s = Fail (Panic "kfree")).
Proof.
  intros H0 Hr. pose proof (parts_reach kend _ _ _ Hr H0) as Hp. destruct Hp as (l&Hf&Hall&Hd&Hown) eqn:Hpe. clear Hpe. simpl in *.
  split_and!.
  - unfold wp. pose proof (kalloc_ok kend s l Hf) as Hk. destruct l as [|v l].
    + rewrite Hk. split; [done|]. left. set_solver.
    + destruct Hk as (s'&->&_&Hm). split; [done|]. right.
      pose proof (fl_pages _ _ _ Hf) as Hpg. apply Forall_cons in Hpg as [Hpg _]. set_solver.
  - intros v Hv. unfold wp. destruct (kfree_ok kend s l v Hf (Hown v Hv)) as (s'&Hk&_&Hm); [set_solver|]. rewrite Hk.
    split; [done|]. eapply parts_step; [by eapply (KFree kend s s' v own)|done].
  - intros v. apply kfree_bad.
Qed.

(** Initialisation.  freerange frees each whole page of the range, once: the
    list then holds exactly these pages besides those it had. *)
Theorem freerange_correct kend s l vstart vend :
  let p0 := PGROUNDUP vstart in let n := Z.to_nat ((vend - p0) / PGSIZE) in
  free_list kend s l -> (forall v, v ∈ range_pages p0 n -> page_ok kend v /\ (v ∉ l)) ->
  wp (freerange kend vstart vend) noerr (fun _ s' => free_list kend s' (rev (range_pages p0 n) ++ l)) s.
Proof. intros p0 n Hf Hp. by eapply freerange_ok. Qed.

(** Three pages after the kernel. *)
Definition k_end : Z := KERNBASE + 0x100010.
Definition k_base : Z := KERNBASE + 0x101000.
Definition k_empty : kmem := mkK 0 ∅.
Lemma k_pages v : v ∈ range_pages (PGROUNDUP k_end) (Z.to_nat ((k_base + 12288 - PGROUNDUP k_end) / PGSIZE)) ->
  page_ok k_end v /\ (v ∉ @nil Z).
Proof.
  intros Hv. split; [|by apply not_elem_of_nil].
  assert (Hall : Forall (page_ok k_end) (range_pages (PGROUNDUP k_end) (Z.to_nat ((k_base + 12288 - PGROUNDUP k_end) / PGSIZE))))
    by (apply (bool_decide_unpack _); by vm_compute).
  rewrite Forall_forall in Hall. auto.
Qed.
Lemma freerange_correct_witness :
  wp (freerange k_end k_end (k_base + 12288)) noerr
    (fun _ s' => free_list k_end s' [k_base + 8192; k_base + 4096; k_base]) k_empty.
Proof. exact (freerange_correct k_end k_empty [] k_end (k_base + 12288) ltac:(by split; [|constructor|]) k_pages). Defined.
Definition k_one : kmem := mkK k_base {[k_base := junk_page 0]}.
Lemma k_one_parts : parts k_end {[k_base]} (k_one, ∅).
Proof.
  exists [k_base]. split_and!; simpl; [|set_solver..]. split; simpl.
  - split; [done|]. exists (junk_page 0). split; [by rewrite lookup_singleton_eq|by vm_compute].
  - apply NoDup_singleton.
  - constructor; [|constructor]. apply (bool_decide_unpack _). by vm_compute.
Qed.
Lemma kalloc_correct_witness :
  wp kalloc noerr (fun v s' => mem s' = mem k_one /\
    ((v = 0 /\ ∅ = ({[k_base]} : gset Z) /\ s' = k_one) \/
     (v ∈ ({[k_base]} : gset Z) /\ (v ∉ (∅ : gset Z)) /\ page_ok k_end v))) k_one.
Proof. exact (proj1 (kalloc_correct k_end {[k_base]} k_one k_one ∅ k_one_parts (rtc_refl _ _))). Defined.
