(* ===== verification/Vm.v ===== *)
(** vm.c: page tables and address spaces, in the memory of [Kalloc].

    A page directory and the page tables it points to are pages of 1024
    four-byte entries; pointers are kernel addresses.  [kend] and [kdata]
    are the linker's symbols end and data.  Loading the page directory into
    the hardware (switchkvm, switchuvm, seginit) is not part of the model. *)
From S2P Require Import Prelude Params Str Kalloc.

(** mmu.h *)
Definition PDX (va : Z) : Z := Z.land (Z.shiftr (u32 va) 22) 0x3FF.
Definition PTX (va : Z) : Z := Z.land (Z.shiftr (u32 va) 12) 0x3FF.
Definition NPTENTRIES : Z := 1024.
Definition NPDENTRIES : nat := 1024.
Definition PTE_P : Z := 0x001.
Definition PTE_W : Z := 0x002.
Definition PTE_U : Z := 0x004.
Definition PTE_ADDR (pte : Z) : Z := Z.land (u32 pte) (Z.lnot 0xFFF).
Definition PTE_FLAGS (pte : Z) : Z := Z.land (u32 pte) 0xFFF.
Definition zero_page : list Z := replicate (Z.to_nat PGSIZE) 0.

(** Loads and stores at a kernel address. *)
Definition page_at (a : Z) : Z := a - a mod PGSIZE.
Definition ldpage (v : Z) : K kmem (list Z) :=
  m <- gets mem;;
  match m !! v with Some pg => ret pg | None => fail Undef end.
Definition stpage (v : Z) (pg : list Z) : K kmem unit :=
  modify (fun s => mkK (freelist s) (<[v := pg]> (mem s))).
Definition ld32 (a : Z) : K kmem Z :=
  pg <- ldpage (page_at a);;
  ret (rd 4 (a mod PGSIZE) pg).
Definition st32 (a v : Z) : K kmem unit :=
  pg <- ldpage (page_at a);;
  stpage (page_at a) (wr 4 (a mod PGSIZE) v pg).

(** The entry of kmap: virt, phys_start, phys_end, perm. *)
Record kmap_entry := mkKmap { virt : Z; phys_start : Z; phys_end : Z; perm : Z }.

Section vm.
Variables (kend kdata : Z).

(** The address of the PTE, or 0. *)
Definition walkpgdir (pgdir va : Z) (alloc : bool) : K kmem Z :=
  pde <- ld32 (pgdir + 4 * PDX va);;
  if has pde PTE_P then ret (p2v (PTE_ADDR pde) + 4 * PTX va) else
  if negb alloc then ret 0 else
  pgtab <- kalloc;;
  if pgtab =? 0 then ret 0 else
  stpage pgtab zero_page;;
  st32 (pgdir + 4 * PDX va) (Z.lor (Z.lor (Z.lor (v2p pgtab) PTE_P) PTE_W) PTE_U);;
  ret (pgtab + 4 * PTX va).

Definition mappages (pgdir va size pa perm : Z) : K kmem Z :=
  let a := PGROUNDDOWN va in
  let last := PGROUNDDOWN (u32 (va + size - 1)) in
  while (S (Z.to_nat (u32 (last - a) / PGSIZE))) (fun '(a, pa) =>
    pte <- walkpgdir pgdir a true;;
    if pte =? 0 then ret (inr (-1)) else
    e <- ld32 pte;;
    if has e PTE_P then panic "remap" else
    st32 pte (Z.lor (Z.lor pa perm) PTE_P);;
    if a =? last then ret (inr 0) else
    ret (inl (u32 (a + PGSIZE), u32 (pa + PGSIZE)))) (a, pa).

Definition kmap : list kmap_entry :=
  [mkKmap KERNBASE 0 EXTMEM PTE_W;
   mkKmap KERNLINK (v2p KERNLINK) (v2p kdata) 0;
   mkKmap kdata (v2p kdata) PHYSTOP PTE_W;
   mkKmap DEVSPACE DEVSPACE 0 PTE_W].
Definition setupkvm : K kmem Z :=
  pgdir <- kalloc;;
  if pgdir =? 0 then ret 0 else
  stpage pgdir zero_page;;
  if DEVSPACE <? p2v PHYSTOP then panic "PHYSTOP too high" else
  r <- for_find (length kmap) 0 (fun i =>
    k <- aget (H := populate (mkKmap 0 0 0 0)) kmap i;;
    r <- mappages pgdir (virt k) (u32 (phys_end k - phys_start k)) (phys_start k) (perm k);;
    ret (if r <? 0 then Some tt else None));;
  match r with Some _ => ret 0 | None => ret pgdir end.

Definition inituvm (pgdir : Z) (init : list Z) (sz : Z) : K kmem unit :=
  if PGSIZE <=? sz then panic "inituvm: more than a page" else
  mem <- kalloc;;
  if mem =? 0 then fail Undef else
  stpage mem zero_page;;
  mappages pgdir 0 PGSIZE (v2p mem) (Z.lor PTE_W PTE_U);;
  pg <- ldpage mem;;
  stpage mem (splice 0 (slice 0 sz init) pg).

(** Returns the new size. *)
Definition deallocuvm (pgdir oldsz newsz : Z) : K kmem Z :=
  if oldsz <=? newsz then ret oldsz else
  while (S (Z.to_nat ((oldsz - PGROUNDUP newsz) / PGSIZE + 1))) (fun a =>
    if negb (a <? oldsz) then ret (inr newsz) else
    pte <- walkpgdir pgdir a false;;
    if pte =? 0 then ret (inl (u32 (a + (NPTENTRIES - 1) * PGSIZE + PGSIZE))) else
    e <- ld32 pte;;
    if has e PTE_P then
      let pa := PTE_ADDR e in
      if pa =? 0 then panic "kfree" else
      kfree kend (p2v pa);;
      st32 pte 0;;
      ret (inl (u32 (a + PGSIZE)))
    else ret (inl (u32 (a + PGSIZE)))) (PGROUNDUP newsz).

(** 0 on error. *)
Definition allocuvm (pgdir oldsz newsz : Z) : K kmem Z :=
  if KERNBASE <=? newsz then ret 0 else
  if newsz <? oldsz then ret oldsz else
  while (S (Z.to_nat ((newsz - PGROUNDUP oldsz) / PGSIZE + 1))) (fun a =>
    if negb (a <? newsz) then ret (inr newsz) else
    mem <- kalloc;;
    if mem =? 0 then
      deallocuvm pgdir newsz oldsz;;
      ret (inr 0)
    else
      stpage mem zero_page;;
      mappages pgdir a PGSIZE (v2p mem) (Z.lor PTE_W PTE_U);;
      ret (inl (u32 (a + PGSIZE)))) (PGROUNDUP oldsz).

Definition freevm (pgdir : Z) : K kmem unit :=
  if pgdir =? 0 then panic "freevm: no pgdir" else
  deallocuvm pgdir KERNBASE 0;;
  for_range NPDENTRIES 0 (fun i =>
    e <- ld32 (pgdir + 4 * i);;
    when (has e PTE_P) (kfree kend (p2v (PTE_ADDR e))));;
  kfree kend pgdir.

Definition clearpteu (pgdir uva : Z) : K kmem unit :=
  pte <- walkpgdir pgdir uva false;;
  if pte =? 0 then panic "clearpteu" else
  e <- ld32 pte;;
  st32 pte (Z.land e (Z.lnot PTE_U)).

(** The copy, or 0; an exit by "goto bad" ends the loop with [false]. *)
Definition copyuvm (pgdir sz : Z) : K kmem Z :=
  d <- setupkvm;;
  if d =? 0 then ret 0 else
  ok <- while (S (Z.to_nat (sz / PGSIZE + 1))) (fun i =>
    if negb (i <? sz) then ret (inr true) else
    pte <- walkpgdir pgdir i false;;
    if pte =? 0 then panic "copyuvm: pte should exist" else
    e <- ld32 pte;;
    if negb (has e PTE_P) then panic "copyuvm: page not present" else
    let pa := PTE_ADDR e in
    let flags := PTE_FLAGS e in
    mem <- kalloc;;
    if mem =? 0 then ret (inr false) else
    pg <- ldpage (p2v pa);;
    stpage mem pg;;
    r <- mappages d i PGSIZE (v2p mem) flags;;
    if r <? 0 then ret (inr false) else
    ret (inl (u32 (i + PGSIZE)))) 0;;
  if ok : bool then ret d else
  freevm d;;
  ret 0.

(** walkpgdir may return 0 here, and the code then reads address 0. *)
Definition uva2ka (pgdir uva : Z) : K kmem Z :=
  pte <- walkpgdir pgdir uva false;;
  if pte =? 0 then fail Undef else
  e <- ld32 pte;;
  if negb (has e PTE_P) then ret 0 else
  if negb (has e PTE_U) then ret 0 else
  ret (p2v (PTE_ADDR e)).

Definition copyout (pgdir va : Z) (p : list Z) (len : Z) : K kmem Z :=
  while (S (Z.to_nat (len / PGSIZE + 2))) (fun '(va, buf, len) =>
    if negb (0 <? len) then ret (inr 0) else
    let va0 := PGROUNDDOWN va in
    pa0 <- uva2ka pgdir va0;;
    if pa0 =? 0 then ret (inr (-1)) else
    let n := u32 (PGSIZE - (va - va0)) in
    let n := if len <? n then len else n in
    pg <- ldpage pa0;;
    stpage pa0 (splice (va - va0) (take (Z.to_nat n) buf) pg);;
    ret (inl (u32 (va0 + PGSIZE), drop (Z.to_nat n) buf, u32 (len - n)))) (va, p, len).
End vm.
