(* ===== verification/VmSpec.v ===== *)
(** Address spaces as functions from virtual page numbers to page table
    entries, and what the routines of vm.c do to them. *)
From S2P Require Import Prelude Params Str Kalloc Vm.

(** ** Addresses and entries *)
Section bits.
Implicit Types (a k e va : Z).

Lemma land_lnot_4095 a : Z.land a (Z.lnot 4095) = 4096 * (a / 4096).
Proof.
  change 4095 with (Z.ones 12). rewrite <- Z.ldiff_land, Z.ldiff_ones_r by lia.
  rewrite Z.shiftr_div_pow2, Z.shiftl_mul_pow2 by lia. change (2 ^ 12) with 4096. lia.
Qed.
Lemma pgrounddown_eq a : PGROUNDDOWN a = 4096 * (a / 4096).
Proof. unfold PGROUNDDOWN, PGSIZE. change (4096 - 1) with 4095. apply land_lnot_4095. Qed.
Lemma pgroundup_eq a : 0 <= a -> a + 4095 < 2 ^ 32 -> PGROUNDUP a = 4096 * ((a + 4095) / 4096).
Proof.
  intros. unfold PGROUNDUP, PGSIZE. change (4096 - 1) with 4095. rewrite land_lnot_4095.
  rewrite u32_small by lia. do 2 f_equal. lia.
Qed.
Lemma pte_addr_eq e : 0 <= e < 2 ^ 32 -> PTE_ADDR e = 4096 * (e / 4096).
Proof. intros. unfold PTE_ADDR. rewrite u32_small by done. apply land_lnot_4095. Qed.
Lemma pte_flags_eq e : 0 <= e < 2 ^ 32 -> PTE_FLAGS e = e mod 4096.
Proof.
  intros. unfold PTE_FLAGS. rewrite u32_small by done. change 0xFFF with (Z.ones 12). by rewrite Z.land_ones by lia.
Qed.
Lemma lor_page k e : 0 <= e < 4096 -> Z.lor (4096 * k) e = 4096 * k + e.
Proof.
  intros He. assert (Hl : Z.land (4096 * k) e = 0).
  { apply Z.bits_inj'. intros n Hn. rewrite Z.land_spec, Z.bits_0. destruct (decide (n < 12)) as [Hlt|Hge].
    - replace (4096 * k) with (Z.shiftl k 12) by (rewrite Z.shiftl_mul_pow2 by lia; lia).
      rewrite Z.shiftl_spec_low by lia. done.
    - rewrite <- (Z.mod_small e (2 ^ 12)) by lia. rewrite Z.mod_pow2_bits_high by lia. apply andb_false_r. }
  rewrite <- Z.lxor_lor by done. symmetry. by apply Z.add_nocarry_lxor.
Qed.
Lemma lor_flags a e : 0 <= a < 4096 -> 0 <= e < 4096 -> 0 <= Z.lor a e < 4096.
Proof.
  intros Ha He. split; [apply Z.lor_nonneg; lia|].
  destruct (decide (Z.lor a e = 0)) as [->|Hne]; [lia|].
  assert (Hpos : 0 < Z.lor a e) by (pose proof (proj2 (Z.lor_nonneg a e) ltac:(lia)); lia).
  change 4096 with (2 ^ 12). apply Z.log2_lt_pow2; [done|]. rewrite Z.log2_lor by lia.
  apply Z.max_lub_lt.
  - destruct (decide (a = 0)) as [->|]; [done|]. apply Z.log2_lt_pow2; lia.
  - destruct (decide (e = 0)) as [->|]; [done|]. apply Z.log2_lt_pow2; lia.
Qed.

(** The entry for the frame [f] (a kernel address) with [perm]. *)
Lemma pte_make f p : f mod PGSIZE = 0 -> KERNBASE <= f < KERNBASE + PHYSTOP -> 0 <= p < 4096 ->
  let e := Z.lor (Z.lor (v2p f) p) PTE_P in
  0 <= e < 2 ^ 32 /\ has e PTE_P = true /\ p2v (PTE_ADDR e) = f /\ PTE_FLAGS e = Z.lor p PTE_P.
Proof.
  intros Hm Hf Hp e. unfold PGSIZE, KERNBASE, PHYSTOP in *.
  assert (Hv : v2p f = 4096 * (f / 4096 - 0x80000)).
  { unfold v2p, KERNBASE. rewrite u32_small by lia. pose proof (Z.div_mod f 4096). lia. }
  assert (Hq : 0x80000 <= f / 4096 < 0x8E000) by (pose proof (Z.div_mod f 4096); lia).
  set (k := f / 4096 - 0x80000) in *. set (fl := Z.lor p PTE_P).
  assert (Hfl : 0 <= fl < 4096) by (apply lor_flags; [done|unfold PTE_P; lia]).
  assert (He : e = 4096 * k + fl).
  { unfold e. rewrite <- Z.lor_assoc, Hv. fold fl. by apply lor_page. }
  assert (Hr : 0 <= e < 2 ^ 32) by lia.
  split_and!; [lia|lia| | |].
  - unfold e. change PTE_P with (2 ^ 0). rewrite has_bit by lia. rewrite Z.lor_spec. apply orb_true_r.
  - rewrite pte_addr_eq by done. rewrite He. replace (4096 * k + fl) with (fl + k * 4096) by lia.
    rewrite Z.div_add, (Z.div_small fl) by lia. unfold p2v, KERNBASE, k. rewrite u32_small by lia.
    pose proof (Z.div_mod f 4096). lia.
  - rewrite pte_flags_eq by done. rewrite He. replace (4096 * k + fl) with (fl + k * 4096) by lia.
    rewrite Z.mod_add, Z.mod_small by lia. done.
Qed.

(** Virtual page [k], byte [o]. *)
Lemma pdx_ptx k o : 0 <= k < 2 ^ 20 -> 0 <= o < 4096 ->
  PDX (4096 * k + o) = k / 1024 /\ PTX (4096 * k + o) = k mod 1024.
Proof.
  intros Hk Ho. unfold PDX, PTX. rewrite u32_small by lia. change 0x3FF with (Z.ones 10).
  rewrite !Z.land_ones, !Z.shiftr_div_pow2 by lia.
  replace (2 ^ 22) with (4096 * 1024) by done. change (2 ^ 12) with 4096. change (2 ^ 10) with 1024.
  rewrite <- Z.div_div by lia. assert (Hd : (4096 * k + o) / 4096 = k).
  { replace (4096 * k + o) with (o + k * 4096) by lia. rewrite Z.div_add by lia. rewrite (Z.div_small o) by lia. lia. }
  rewrite Hd. split; [|done]. apply Z.mod_small. split; [apply Z.div_pos; lia|apply Z.div_lt_upper_bound; lia].
Qed.
Lemma rd4_bound o b : bytes b -> 0 <= rd 4 o b < 2 ^ 32.
Proof.
  intros Hb. unfold rd. pose proof (le_dec_bound _ (bytes_slice o (Z.of_nat 4) b Hb)) as H.
  assert (Hl : (length (slice o (Z.of_nat 4) b) <= 4)%nat) by (unfold slice; rewrite length_take; lia).
  assert (256 ^ Z.of_nat (length (slice o (Z.of_nat 4) b)) <= 256 ^ Z.of_nat 4) by (apply Z.pow_le_mono_r; lia).
  change (2 ^ 32) with (256 ^ Z.of_nat 4). lia.
Qed.
End bits.

(** ** The page table as a function *)

Definition is_page (pg : list Z) : Prop := length pg = 4096%nat /\ bytes pg.
Definition pgt (m : gmap Z (list Z)) (a : Z) : list Z := default [] (m !! a).
(** Entry [i] of the directory [d] and the table it points to. *)
Definition pde (m : gmap Z (list Z)) (d i : Z) : Z := rd 4 (4 * i) (pgt m d).
Definition tab (m : gmap Z (list Z)) (d i : Z) : Z := p2v (PTE_ADDR (pde m d i)).
Definition has_tab (m : gmap Z (list Z)) (d i : Z) : Prop := 0 <= i < 1024 /\ has (pde m d i) PTE_P = true.
(** The entry for virtual page [k], 0 when there is no table for it. *)
Definition entry (m : gmap Z (list Z)) (d k : Z) : Z :=
  if has (pde m d (k / 1024)) PTE_P then rd 4 (4 * (k mod 1024)) (pgt m (tab m d (k / 1024))) else 0.
Definition frame (m : gmap Z (list Z)) (d k : Z) : Z := p2v (PTE_ADDR (entry m d k)).
(** Pages below KERNBASE are the user's. *)
Definition upage (k : Z) : Prop := 0 <= k < 2 ^ 19.
Definition mapped (m : gmap Z (list Z)) (d k : Z) : Prop := upage k /\ has (entry m d k) PTE_P = true.

Section space.
Variable kend : Z.
Implicit Types (m : gmap Z (list Z)) (d i j k v e : Z) (pg : list Z).

(** The directory, the tables and the user's frames are distinct pages. *)
Record space m d : Prop := {
  sp_dir : page_ok kend d /\ exists pg, m !! d = Some pg /\ is_page pg;
  sp_tab : forall i, has_tab m d i -> page_ok kend (tab m d i) /\ tab m d i <> d /\
    exists pg, m !! tab m d i = Some pg /\ is_page pg;
  sp_tinj : forall i j, has_tab m d i -> has_tab m d j -> tab m d i = tab m d j -> i = j;
  sp_frame : forall k, mapped m d k -> page_ok kend (frame m d k) /\ frame m d k <> d /\
    (forall i, has_tab m d i -> frame m d k <> tab m d i) /\
    exists pg, m !! frame m d k = Some pg /\ is_page pg;
  sp_finj : forall k j, mapped m d k -> mapped m d j -> frame m d k = frame m d j -> k = j }.
Definition used m d v : Prop :=
  v = d \/ (exists i, has_tab m d i /\ v = tab m d i) \/ (exists k, mapped m d k /\ v = frame m d k).
Record vm_ok (s : kmem) (l : list Z) (d : Z) : Prop := {
  vo_free : free_list kend s l;
  vo_space : space (mem s) d;
  vo_apart : forall v, v ∈ l -> ~ used (mem s) d v }.

Lemma pgt_lookup m a pg : m !! a = Some pg -> pgt m a = pg.
Proof. unfold pgt. by intros ->. Qed.
Lemma pgt_insert m a pg b : pgt (<[a := pg]> m) b = if decide (a = b) then pg else pgt m b.
Proof. unfold pgt. case_decide; [subst; by rewrite lookup_insert_eq|by rewrite lookup_insert_ne]. Qed.
Lemma is_page_wr o e pg : is_page pg -> is_page (wr 4 o e pg).
Proof. intros [Hl Hb]. split; [by rewrite length_wr|by apply bytes_wr]. Qed.
Lemma is_page_zero : is_page zero_page.
Proof. unfold zero_page. split; [by rewrite length_replicate|]. apply Forall_replicate. unfold is_byte. lia. Qed.
Lemma page_div k : 0 <= k < 2 ^ 20 -> 0 <= k / 1024 < 1024 /\ 0 <= k mod 1024 < 1024.
Proof. intros. split; [split; [apply Z.div_pos; lia|apply Z.div_lt_upper_bound; lia]|apply Z.mod_pos_bound; lia]. Qed.
Lemma upage_20 k : upage k -> 0 <= k < 2 ^ 20.
Proof. unfold upage. lia. Qed.
Lemma rd4_wr4 a b e pg : is_page pg -> 0 <= a < 1024 -> 0 <= b < 1024 -> 0 <= e < 2 ^ 32 ->
  rd 4 (4 * a) (wr 4 (4 * b) e pg) = if decide (a = b) then e else rd 4 (4 * a) pg.
Proof.
  intros [Hl _] Ha Hb He. case_decide as Hab.
  - subst a. rewrite rd_wr_eq by lia. change (256 ^ Z.of_nat 4) with (2 ^ 32). by apply Z.mod_small.
  - apply rd_wr_ne; lia.
Qed.
Lemma rd4_zero o : rd 4 o zero_page = 0.
Proof.
  unfold rd, slice, zero_page. rewrite drop_replicate, take_replicate.
  generalize (Z.to_nat (Z.of_nat 4) `min` (Z.to_nat PGSIZE - Z.to_nat o))%nat. intros n.
  induction n as [|n IH]; simpl; [done|]. rewrite IH. lia.
Qed.

(** Memory that agrees on the directory and the tables. *)
Lemma pde_agree m m' d : pgt m' d = pgt m d -> forall i, pde m' d i = pde m d i.
Proof. intros Hd i. unfold pde. by rewrite Hd. Qed.
Lemma entry_agree m m' d :
  pgt m' d = pgt m d -> (forall i, has_tab m d i -> pgt m' (tab m d i) = pgt m (tab m d i)) ->
  forall k, 0 <= k < 2 ^ 20 -> entry m' d k = entry m d k.
Proof.
  intros Hd Ht k Hk. unfold entry. rewrite (pde_agree m m' d Hd). destruct (has (pde m d (k / 1024)) PTE_P) eqn:Hp; [|done].
  unfold tab. rewrite (pde_agree m m' d Hd). fold (tab m d (k / 1024)). rewrite Ht; [done|]. split; [apply page_div, Hk|done].
Qed.

Record agree m m' d : Prop := {
  ag_dir : pgt m' d = pgt m d;
  ag_tab : forall i, has_tab m d i -> pgt m' (tab m d i) = pgt m (tab m d i) }.
Lemma agree_pde m m' d : agree m m' d -> forall i, pde m' d i = pde m d i.
Proof. intros H. apply pde_agree, H. Qed.
Lemma agree_has_tab m m' d i : agree m m' d -> has_tab m' d i <-> has_tab m d i.
Proof. intros H. unfold has_tab. by rewrite (agree_pde _ _ _ H). Qed.
Lemma agree_tab m m' d i : agree m m' d -> tab m' d i = tab m d i.
Proof. intros H. unfold tab. by rewrite (agree_pde _ _ _ H). Qed.
Lemma agree_entry m m' d k : agree m m' d -> 0 <= k < 2 ^ 20 -> entry m' d k = entry m d k.
Proof. intros [H1 H2]. by apply entry_agree. Qed.
Lemma agree_mapped m m' d k : agree m m' d -> mapped m' d k <-> mapped m d k.
Proof.
  intros H. unfold mapped. split; intros [Hu Hp]; (split; [done|]).
  - by rewrite <- (agree_entry m m') by (done || by apply upage_20).
  - by rewrite (agree_entry m m') by (done || by apply upage_20).
Qed.
Lemma agree_frame m m' d k : agree m m' d -> upage k -> frame m' d k = frame m d k.
Proof. intros H Hu. unfold frame. by rewrite (agree_entry m m') by (done || by apply upage_20). Qed.
Lemma agree_used m m' d v : agree m m' d -> used m' d v <-> used m d v.
Proof.
  intros H. unfold used. setoid_rewrite (agree_has_tab m m' d _ H). setoid_rewrite (agree_tab m m' d _ H).
  setoid_rewrite (agree_mapped m m' d _ H). split; (intros [?|[?|(k&Hk&->)]]; [by left|by right; left|]; right; right; exists k).
  - by rewrite (agree_frame m m') by (done || apply Hk).
  - by rewrite (agree_frame m m') by (done || apply Hk).
Qed.
Lemma agree_space m m' d : agree m m' d ->
  (forall v pg, used m d v -> m !! v = Some pg -> is_page pg -> exists pg', m' !! v = Some pg' /\ is_page pg') ->
  space m d -> space m' d.
Proof.
  intros Ha Hpg [(Hd&pgd&Hpd&Hpd') Ht Hti Hf Hfi]. split.
  - split; [done|]. eapply Hpg; [by left|done..].
  - intros i Hi. rewrite (agree_tab m m') by done. apply (agree_has_tab m m') in Hi; [|done].
    destruct (Ht i Hi) as (H1&H2&pg&H3&H4). split_and!; [done..|]. eapply Hpg; [|done..]. right; left. eauto.
  - intros i j Hi Hj. rewrite !(agree_tab m m') by done. rewrite (agree_has_tab m m') in Hi, Hj by done. by apply Hti.
  - intros k Hk. apply (agree_mapped m m') in Hk; [|done]. rewrite (agree_frame m m') by (done || apply Hk).
    destruct (Hf k Hk) as (H1&H2&H3&pg&H4&H5). split_and!; [done..| |].
    + intros i Hi. rewrite (agree_tab m m') by done. apply H3. by apply (agree_has_tab m m').
    + eapply Hpg; [|done..]. right; right. eauto.
  - intros k j Hk Hj. apply (agree_mapped m m') in Hk, Hj; [|done..].
    rewrite !(agree_frame m m') by (done || apply Hk || apply Hj). by apply Hfi.
Qed.

(** Writing a page that is neither the directory nor a table. *)
Lemma store_agree m d v pg : v <> d -> (forall i, has_tab m d i -> v <> tab m d i) -> agree m (<[v := pg]> m) d.
Proof.
  intros Hd Ht. split.
  - rewrite pgt_insert. by rewrite decide_False.
  - intros i Hi. rewrite pgt_insert. rewrite decide_False by (by apply Ht). done.
Qed.
Lemma store_space m d v pg : v <> d -> (forall i, has_tab m d i -> v <> tab m d i) -> is_page pg ->
  space m d -> space (<[v := pg]> m) d.
Proof.
  intros Hd Ht Hp. apply agree_space; [by apply store_agree|]. intros w pg' _ Hw Hpg'.
  destruct (decide (v = w)) as [->|Hne]; [rewrite lookup_insert_eq; eauto|rewrite lookup_insert_ne by done; eauto].
Qed.

(** Setting the entry of page [k], which has a table. *)
Section set_entry.
Variables (m : gmap Z (list Z)) (d k e : Z).
Hypotheses (Hsp : space m d) (Hk : 0 <= k < 2 ^ 20) (Ht : has_tab m d (k / 1024)) (He : 0 <= e < 2 ^ 32).
Let v := tab m d (k / 1024).
Let m' := <[v := wr 4 (4 * (k mod 1024)) e (pgt m v)]> m.

Lemma set_pde i : pde m' d i = pde m d i.
Proof using Hsp Ht.
  unfold pde, m'. rewrite pgt_insert. rewrite decide_False; [done|]. by apply (sp_tab _ _ Hsp).
Qed.
Lemma set_has_tab i : has_tab m' d i <-> has_tab m d i.
Proof using Hsp Ht. unfold has_tab. by rewrite set_pde. Qed.
Lemma set_tab i : tab m' d i = tab m d i.
Proof using Hsp Ht. unfold tab. by rewrite set_pde. Qed.
Lemma set_entry j : 0 <= j < 2 ^ 20 -> entry m' d j = if decide (j = k) then e else entry m d j.
Proof using Hsp Hk Ht He.
  intros Hj. unfold entry. rewrite set_pde, set_tab.
  destruct (page_div j Hj) as [Hj1 Hj2]. destruct (page_div k Hk) as [Hk1 Hk2].
  destruct (sp_tab _ _ Hsp _ Ht) as (_&_&pg&Hpg&Hisp). fold v in Hpg.
  destruct (decide (j / 1024 = k / 1024)) as [Heq|Hne].
  - rewrite Heq. destruct Ht as [_ ->]. unfold m' at 1. fold v. rewrite pgt_insert, decide_True by done.
    rewrite (pgt_lookup _ _ _ Hpg). rewrite rd4_wr4 by done.
    destruct (decide (j = k)) as [->|Hjk]; [by rewrite decide_True|].
    rewrite decide_False; [done|]. intros Hm. apply Hjk. rewrite (Z.div_mod j 1024), (Z.div_mod k 1024) by lia. lia.
  - rewrite decide_False by congruence. destruct (has (pde m d (j / 1024)) PTE_P) eqn:Hp; [|done].
    unfold m'. rewrite pgt_insert, decide_False; [done|]. intros Heq. apply Hne.
    by apply (sp_tinj _ _ Hsp).
Qed.
Lemma set_mapped_ne j : j <> k -> mapped m' d j <-> mapped m d j.
Proof using Hsp Hk Ht He.
  intros Hne. unfold mapped. split; intros [Hu Hp]; (split; [done|]).
  - rewrite set_entry, decide_False in Hp by (done || by apply upage_20). done.
  - rewrite set_entry, decide_False by (done || by apply upage_20). done.
Qed.
Lemma set_frame_ne j : upage j -> j <> k -> frame m' d j = frame m d j.
Proof using Hsp Hk Ht He.
  intros Hu Hne. unfold frame. by rewrite set_entry, decide_False by (done || by apply upage_20).
Qed.
Lemma set_pages w pg : m !! w = Some pg -> is_page pg -> exists pg', m' !! w = Some pg' /\ is_page pg'.
Proof using Hsp Ht.
  intros Hw Hp. unfold m'. destruct (decide (v = w)) as [<-|Hne].
  - rewrite lookup_insert_eq. eexists. split; [done|]. apply is_page_wr. by rewrite (pgt_lookup _ _ _ Hw).
  - rewrite lookup_insert_ne by done. eauto.
Qed.

(** The new frame, if there is one, is a page nobody else uses. *)
Lemma set_space :
  (upage k -> has e PTE_P = true -> page_ok kend (p2v (PTE_ADDR e)) /\ ~ used m d (p2v (PTE_ADDR e)) /\
    exists pg, m !! p2v (PTE_ADDR e) = Some pg /\ is_page pg) ->
  space m' d.
Proof using Hsp Hk Ht He.
  intros Hnew.
  assert (Hfk : mapped m' d k -> frame m' d k = p2v (PTE_ADDR e) /\ upage k /\ has e PTE_P = true).
  { intros [Hu Hp]. unfold frame. rewrite set_entry, decide_True in Hp |- * by done. done. }
  destruct Hsp as [(Hd&pgd&Hpd&Hpd') Htb Hti Hf Hfi] eqn:Hspe. clear Hspe. split.
  - split; [done|]. by eapply set_pages.
  - intros i Hi%set_has_tab. rewrite set_tab. destruct (Htb i Hi) as (H1&H2&pg&H3&H4). split_and!; [done..|].
    by eapply set_pages.
  - intros i j Hi%set_has_tab Hj%set_has_tab. rewrite !set_tab. by apply Hti.
  - intros j Hj. destruct (decide (j = k)) as [->|Hne].
    + destruct (Hfk Hj) as (->&Hu&Hp). destruct (Hnew Hu Hp) as (H1&H2&pg&H3&H4). split_and!; [done| | |by eapply set_pages].
      * intros Heq. apply H2. by left.
      * intros i Hi%set_has_tab. rewrite set_tab. intros Heq. apply H2. right; left. eauto.
    + apply (set_mapped_ne j Hne) in Hj. rewrite set_frame_ne by (done || apply Hj).
      destruct (Hf j Hj) as (H1&H2&H3&pg&H4&H5). split_and!; [done..| |by eapply set_pages].
      intros i Hi%set_has_tab. rewrite set_tab. by apply H3.
  - assert (Hfresh : forall j, j <> k -> mapped m d j -> mapped m' d k -> frame m d j <> frame m' d k).
    { intros j Hne Hj Hmk Heq. destruct (Hfk Hmk) as (Hfe&Hu&Hp). destruct (Hnew Hu Hp) as (_&H2&_).
      apply H2. rewrite <- Hfe, <- Heq. right; right. eauto. }
    intros i j Hi Hj Heq. destruct (decide (i = k)) as [->|Hik], (decide (j = k)) as [->|Hjk]; [done|..].
    + apply (set_mapped_ne j Hjk) in Hj. rewrite (set_frame_ne j) in Heq by (done || apply Hj). by destruct (Hfresh j).
    + apply (set_mapped_ne i Hik) in Hi. rewrite (set_frame_ne i) in Heq by (done || apply Hi). by destruct (Hfresh i).
    + apply (set_mapped_ne i Hik) in Hi. apply (set_mapped_ne j Hjk) in Hj.
      rewrite !set_frame_ne in Heq by (done || apply Hi || apply Hj). by apply Hfi.
Qed.
Lemma set_used w : used m' d w -> used m d w \/ (upage k /\ has e PTE_P = true /\ w = p2v (PTE_ADDR e)).
Proof using Hsp Hk Ht He.
  intros [->|[(i&Hi&->)|(j&Hj&->)]].
  - left. by left.
  - left. right; left. exists i. rewrite set_tab. split; [by apply set_has_tab|done].
  - destruct (decide (j = k)) as [->|Hne].
    + right. destruct Hj as [Hu Hp]. unfold frame. rewrite set_entry, decide_True in Hp |- * by done. done.
    + left. right; right. exists j. apply (set_mapped_ne j Hne) in Hj. rewrite set_frame_ne by (done || apply Hj). done.
Qed.
End set_entry.

(** A new table [v], all zeros, for the directory entry [i]. *)
Section new_table.
Variables (m : gmap Z (list Z)) (d i v e : Z).
Hypotheses (Hsp : space m d) (Hi : 0 <= i < 1024) (Hno : ~ has_tab m d i) (Hv : page_ok kend v)
  (Hfree : ~ used m d v) (He : 0 <= e < 2 ^ 32) (Hp : has e PTE_P = true) (Hev : p2v (PTE_ADDR e) = v).
Let m1 := <[v := zero_page]> m.
Let m2 := <[d := wr 4 (4 * i) e (pgt m d)]> m1.

Lemma nt_vd : v <> d.
Proof using Hfree. intros Heq. apply Hfree. by left. Qed.
Lemma nt_vt j : has_tab m d j -> v <> tab m d j.
Proof using Hfree. intros Hj Heq. apply Hfree. right; left. eauto. Qed.
Lemma nt_pde j : 0 <= j < 1024 -> pde m2 d j = if decide (j = i) then e else pde m d j.
Proof using Hsp Hi He.
  intros Hj. unfold pde, m2. rewrite pgt_insert, decide_True by done.
  destruct (sp_dir _ _ Hsp) as (_&pg&Hpg&Hisp). rewrite (pgt_lookup _ _ _ Hpg). by rewrite rd4_wr4.
Qed.
Lemma nt_has_tab j : has_tab m2 d j <-> j = i \/ has_tab m d j.
Proof using Hsp Hi He Hp.
  unfold has_tab. split.
  - intros [Hj Ht]. rewrite nt_pde in Ht by done. case_decide; auto.
  - intros [->|[Hj Ht]]; [split; [done|]; rewrite nt_pde, decide_True by done; done|].
    split; [done|]. rewrite nt_pde by done. by case_decide.
Qed.
Lemma nt_tab j : 0 <= j < 1024 -> tab m2 d j = if decide (j = i) then v else tab m d j.
Proof using Hsp Hi He Hev. intros Hj. unfold tab. rewrite nt_pde by done. by case_decide. Qed.
Lemma nt_pgt j : has_tab m d j -> pgt m2 (tab m d j) = pgt m (tab m d j).
Proof using Hsp Hfree.
  intros Hj. unfold m2, m1. rewrite !pgt_insert. rewrite decide_False by (intros Heq; by destruct (sp_tab _ _ Hsp j Hj) as (_&?&_)).
  rewrite decide_False by (by apply nt_vt). done.
Qed.
Lemma nt_entry k : 0 <= k < 2 ^ 20 -> entry m2 d k = entry m d k.
Proof using Hsp Hi He Hp Hev Hfree Hno.
  intros Hk. destruct (page_div k Hk) as [Hk1 Hk2]. unfold entry. rewrite nt_pde, nt_tab by done.
  destruct (decide (k / 1024 = i)) as [Heq|Hne].
  - rewrite Hp. destruct (has (pde m d (k / 1024)) PTE_P) eqn:Hpk; [by destruct Hno; rewrite <- Heq|].
    unfold m2, m1. rewrite pgt_insert, decide_False by (apply not_eq_sym, nt_vd). rewrite pgt_insert, decide_True by done.
    apply rd4_zero.
  - destruct (has (pde m d (k / 1024)) PTE_P) eqn:Hpk; [|done]. by rewrite nt_pgt.
Qed.
Lemma nt_mapped k : mapped m2 d k <-> mapped m d k.
Proof using Hsp Hi He Hp Hev Hfree Hno.
  unfold mapped. split; intros [Hu Hm]; (split; [done|]).
  - by rewrite nt_entry in Hm by (by apply upage_20).
  - by rewrite nt_entry by (by apply upage_20).
Qed.
Lemma nt_frame k : upage k -> frame m2 d k = frame m d k.
Proof using Hsp Hi He Hp Hev Hfree Hno. intros Hu. unfold frame. by rewrite nt_entry by (by apply upage_20). Qed.
Lemma nt_pages w pg : m !! w = Some pg -> is_page pg -> exists pg', m2 !! w = Some pg' /\ is_page pg'.
Proof using Hsp.
  intros Hw Hpg. unfold m2, m1. destruct (decide (d = w)) as [<-|Hdw].
  - rewrite lookup_insert_eq. eexists. split; [done|]. apply is_page_wr. by rewrite (pgt_lookup _ _ _ Hw).
  - rewrite lookup_insert_ne by done. destruct (decide (v = w)) as [<-|Hvw].
    + rewrite lookup_insert_eq. eexists. split; [done|apply is_page_zero].
    + rewrite lookup_insert_ne by done. eauto.
Qed.
Lemma nt_space : space m2 d.
Proof using Hsp Hi He Hp Hev Hfree Hno Hv.
  destruct Hsp as [(Hd&pgd&Hpd&Hpd') Htb Hti Hf Hfi] eqn:Hspe. clear Hspe. split.
  - split; [done|]. by eapply nt_pages.
  - intros j Hj. pose proof Hj as [Hjr _]. rewrite nt_tab by done. apply nt_has_tab in Hj. case_decide as Hji.
    + split_and!; [done|apply nt_vd|]. exists zero_page. unfold m2, m1. rewrite lookup_insert_ne by (apply not_eq_sym, nt_vd).
      rewrite lookup_insert_eq. split; [done|apply is_page_zero].
    + destruct Hj as [?|Hj]; [done|]. destruct (Htb j Hj) as (H1&H2&pg&H3&H4). split_and!; [done..|by eapply nt_pages].
  - intros j j' Hj Hj'. pose proof Hj as [Hjr _]. pose proof Hj' as [Hjr' _]. rewrite !nt_tab by done.
    apply nt_has_tab in Hj, Hj'. destruct (decide (j = i)) as [E1|E1], (decide (j' = i)) as [E2|E2]; intros Heq.
    + congruence.
    + destruct Hj' as [?|Hj']; [done|]. by destruct (nt_vt j' Hj').
    + destruct Hj as [?|Hj]; [done|]. by destruct (nt_vt j Hj).
    + destruct Hj as [?|Hj], Hj' as [?|Hj']; try done. by apply Hti.
  - intros k Hk%nt_mapped. rewrite nt_frame by apply Hk. destruct (Hf k Hk) as (H1&H2&H3&pg&H4&H5).
    split_and!; [done..| |by eapply nt_pages]. intros j Hj. pose proof Hj as [Hjr _]. rewrite nt_tab by done.
    apply nt_has_tab in Hj. case_decide; [|by destruct Hj as [?|Hj]; [done|apply H3]].
    intros Heq. apply Hfree. right; right. exists k. done.
  - intros k j Hk%nt_mapped Hj%nt_mapped. rewrite !nt_frame by (apply Hk || apply Hj). by apply Hfi.
Qed.
Lemma nt_used w : used m2 d w -> used m d w \/ w = v.
Proof using Hsp Hi He Hp Hev Hfree Hno.
  intros [->|[(j&Hj&->)|(k&Hk&->)]].
  - left. by left.
  - pose proof Hj as [Hjr _]. rewrite nt_tab by done. apply nt_has_tab in Hj. case_decide; [by right|].
    destruct Hj as [?|Hj]; [done|]. left. right; left. eauto.
  - apply nt_mapped in Hk. rewrite nt_frame by apply Hk. left. right; right. eauto.
Qed.
End new_table.

(** ** Loads, stores, walkpgdir *)

Lemma at_page v o : v mod PGSIZE = 0 -> 0 <= o < 4096 -> page_at (v + o) = v /\ (v + o) mod PGSIZE = o.
Proof.
  unfold page_at, PGSIZE. intros Hv Ho. pose proof (Z.div_mod v 4096 ltac:(lia)) as Hd. rewrite Hv in Hd.
  assert (Hm : (v + o) mod 4096 = o).
  { rewrite Hd. replace (4096 * (v / 4096) + 0 + o) with (o + v / 4096 * 4096) by lia.
    rewrite Z.mod_add by lia. by apply Z.mod_small. }
  rewrite Hm. lia.
Qed.
Lemma wp_ldpage s v pg E (Q : list Z -> kmem -> Prop) : mem s !! v = Some pg -> Q pg s -> wp (ldpage v) E Q s.
Proof. intros Hv HQ. unfold ldpage, wp, bind, gets. by rewrite Hv. Qed.
Lemma wp_ld32 s v o pg E (Q : Z -> kmem -> Prop) :
  v mod PGSIZE = 0 -> 0 <= o < 4096 -> mem s !! v = Some pg -> Q (rd 4 o pg) s -> wp (ld32 (v + o)) E Q s.
Proof.
  intros Hv Ho Hpg HQ. destruct (at_page v o Hv Ho) as [H1 H2]. unfold ld32. rewrite H1, H2.
  apply wp_bind. eapply wp_ldpage; [done|]. by apply wp_ret.
Qed.
Lemma wp_st32 s v o x pg E (Q : unit -> kmem -> Prop) :
  v mod PGSIZE = 0 -> 0 <= o < 4096 -> mem s !! v = Some pg ->
  Q tt (mkK (freelist s) (<[v := wr 4 o x pg]> (mem s))) -> wp (st32 (v + o) x) E Q s.
Proof.
  intros Hv Ho Hpg HQ. destruct (at_page v o Hv Ho) as [H1 H2]. unfold st32. rewrite H1, H2.
  apply wp_bind. eapply wp_ldpage; [done|]. by apply wp_modify.
Qed.

(** Directory entries without a table. *)
Definition missing m d : nat := length (filter (fun i => has (pde m d i) PTE_P = false) (seqZ 0 1024)).
Lemma filter_same (P P' : Z -> Prop) `{forall x, Decision (P x)} `{forall x, Decision (P' x)} (l : list Z) :
  (forall x, x ∈ l -> P x <-> P' x) -> filter P l = filter P' l.
Proof.
  induction l as [|a l IH]; intros Heq; [done|]. rewrite !filter_cons.
  assert (Ha : P a <-> P' a) by (apply Heq; by left). rewrite IH by (intros x Hx; apply Heq; by right).
  destruct (decide (P a)); [rewrite decide_True by (by apply Ha)|rewrite decide_False by (by rewrite <- Ha)]; done.
Qed.
Lemma filter_all (P : Z -> Prop) `{forall x, Decision (P x)} (l : list Z) : (forall x, x ∈ l -> P x) -> filter P l = l.
Proof.
  induction l as [|a l IH]; intros HP; [done|]. rewrite filter_cons_True by (apply HP; by left).
  f_equal. apply IH. intros x Hx. apply HP. by right.
Qed.
Lemma missing_agree m m' d : (forall i, 0 <= i < 1024 -> pde m' d i = pde m d i) -> missing m' d = missing m d.
Proof.
  intros H. unfold missing. f_equal. apply filter_same. intros i Hi%elem_of_seqZ. by rewrite H by lia.
Qed.
Lemma count_one (P P' : Z -> Prop) `{forall x, Decision (P x)} `{forall x, Decision (P' x)} (l : list Z) (i : Z) :
  NoDup l -> i ∈ l -> P i -> ~ P' i -> (forall x, x ∈ l -> x <> i -> P x <-> P' x) ->
  length (filter P l) = S (length (filter P' l)).
Proof.
  intros Hn Hi HP HP' Heq. induction Hn as [|a l Ha Hn IH]; [by apply elem_of_nil in Hi|].
  apply elem_of_cons in Hi as [->|Hi].
  - rewrite filter_cons_True, filter_cons_False by done. simpl. f_equal. f_equal.
    apply filter_same. intros x Hx. apply Heq; [by right|]. by intros ->.
  - assert (Hne : a <> i) by (by intros ->). rewrite !filter_cons.
    assert (Ha' : P a <-> P' a) by (apply Heq; [by left|done]).
    assert (IH' : length (filter P l) = S (length (filter P' l))) by (apply IH; [done|]; intros x Hx; apply Heq; by right).
    destruct (decide (P a)) as [Hpa|Hpa]; [rewrite decide_True by (by apply Ha')|rewrite decide_False by (by rewrite <- Ha')];
      simpl; by rewrite IH'.
Qed.

(** walkpgdir that does not allocate. *)
Lemma page_of_tab m d i : space m d -> has_tab m d i -> tab m d i mod PGSIZE = 0.
Proof. intros Hs Hi. by apply (sp_tab _ _ Hs). Qed.
Lemma wp_walk s l d k o E (Q : Z -> kmem -> Prop) :
  vm_ok s l d -> 0 <= k < 2 ^ 20 -> 0 <= o < 4096 ->
  (has_tab (mem s) d (k / 1024) -> Q (tab (mem s) d (k / 1024) + 4 * (k mod 1024)) s) ->
  (~ has_tab (mem s) d (k / 1024) -> Q 0 s) ->
  wp (walkpgdir d (4096 * k + o) false) E Q s.
Proof.
  intros [_ Hsp _] Hk Ho H1 H2. destruct (pdx_ptx k o Hk Ho) as [Hd Hp]. destruct (page_div k Hk) as [Hk1 Hk2].
  destruct (sp_dir _ _ Hsp) as ((Hdm&_)&pg&Hpg&_). unfold walkpgdir. rewrite Hd, Hp. apply wp_bind.
  eapply wp_ld32; [done|lia|done|]. assert (Hpde : rd 4 (4 * (k / 1024)) pg = pde (mem s) d (k / 1024)).
  { unfold pde. by rewrite (pgt_lookup _ _ _ Hpg). }
  rewrite Hpde. destruct (has (pde (mem s) d (k / 1024)) PTE_P) eqn:Hb.
  - apply wp_ret. by apply H1.
  - apply wp_ret. apply H2. intros [_ Ht]. congruence.
Qed.
Lemma flags7 a : Z.lor (Z.lor (Z.lor a PTE_P) PTE_W) PTE_U = Z.lor (Z.lor a 6) PTE_P.
Proof. rewrite <- !Z.lor_assoc. done. Qed.
(** walkpgdir that allocates the table. *)
Lemma wp_walk_alloc s l d k E (Q : Z -> kmem -> Prop) :
  vm_ok s l d -> 0 <= k < 2 ^ 20 ->
  (l = [] -> ~ has_tab (mem s) d (k / 1024) -> Q 0 s) ->
  (forall s' l', vm_ok s' l' d -> has_tab (mem s') d (k / 1024) ->
    (forall j, 0 <= j < 2 ^ 20 -> entry (mem s') d j = entry (mem s) d j) ->
    (forall w, ~ used (mem s) d w -> (w ∉ l) -> ~ used (mem s') d w /\ mem s' !! w = mem s !! w) ->
    (forall j, upage j -> has_tab (mem s) d (j / 1024) -> has_tab (mem s') d (j / 1024)) ->
    (forall j, mapped (mem s) d j -> mem s' !! frame (mem s) d j = mem s !! frame (mem s) d j) ->
    (length l' + missing (mem s) d = length l + missing (mem s') d)%nat -> (forall w, w ∈ l' -> w ∈ l) ->
    Q (tab (mem s') d (k / 1024) + 4 * (k mod 1024)) s') ->
  wp (walkpgdir d (4096 * k) true) E Q s.
Proof.
  intros Hok Hk Hnone HQ. destruct Hok as [Hfl Hsp Hap] eqn:Hoke. clear Hoke.
  destruct (pdx_ptx k 0 Hk ltac:(lia)) as [Hd Hp]. rewrite Z.add_0_r in Hd, Hp. destruct (page_div k Hk) as [Hk1 Hk2].
  destruct (sp_dir _ _ Hsp) as ((Hdm&Hdr)&pg&Hpg&Hisp). unfold walkpgdir. rewrite Hd, Hp. apply wp_bind.
  eapply wp_ld32; [done|lia|done|]. assert (Hpde : rd 4 (4 * (k / 1024)) pg = pde (mem s) d (k / 1024)).
  { unfold pde. by rewrite (pgt_lookup _ _ _ Hpg). }
  rewrite Hpde. destruct (has (pde (mem s) d (k / 1024)) PTE_P) eqn:Hb.
  { apply wp_ret. apply (HQ s l); [done|by split|done|done|done|done|done|done]. }
  assert (Hno : ~ has_tab (mem s) d (k / 1024)) by (intros [_ Ht]; congruence).
  cbn [negb]. apply wp_bind. unfold wp at 1. pose proof (kalloc_ok kend s l Hfl) as Hka. destruct l as [|v l].
  { rewrite Hka. apply wp_ret. by apply Hnone. }
  destruct Hka as (s1&->&Hfl1&Hm1). pose proof (fl_pages _ _ _ Hfl) as Hpgs. apply Forall_cons in Hpgs as [Hvp _].
  pose proof (fl_nodup _ _ _ Hfl) as Hnd. apply NoDup_cons in Hnd as [Hvl _].
  rewrite (proj2 (Z.eqb_neq v 0)) by (by eapply page_nonzero).
  assert (Hvu : ~ used (mem s) d v) by (apply Hap; by left). assert (Hvd : v <> d) by (intros ->; apply Hvu; by left).
  apply wp_bind, wp_modify. rewrite Hm1. apply wp_bind. cbn [freelist mem].
  eapply (wp_st32 _ d (4 * (k / 1024)) _ pg); [done|lia|cbn [mem]; by rewrite lookup_insert_ne|]. cbn [freelist mem].
  rewrite flags7. set (e := Z.lor (Z.lor (v2p v) 6) PTE_P). apply wp_ret.
  destruct (pte_make v 6) as (He&Hep&Hev&_); [apply Hvp|apply Hvp|lia|]. fold e in He, Hep, Hev.
  set (s2 := mkK _ _). assert (Hm2 : mem s2 = <[d := wr 4 (4 * (k / 1024)) e (pgt (mem s) d)]> (<[v := zero_page]> (mem s))).
  { unfold s2. cbn [mem]. by rewrite (pgt_lookup _ _ _ Hpg). }
  pose proof (nt_space (mem s) d (k / 1024) v e Hsp Hk1 Hno Hvp Hvu He Hep Hev) as Hsp2. rewrite <- Hm2 in Hsp2.
  pose proof (fun w => nt_used (mem s) d (k / 1024) v e Hsp Hk1 Hno Hvu He Hep Hev w) as Hu2. rewrite <- Hm2 in Hu2.
  assert (Htab : tab (mem s2) d (k / 1024) = v).
  { rewrite Hm2. rewrite (nt_tab (mem s) d (k / 1024) v e Hsp Hk1 He Hev) by done. by rewrite decide_True. }
  assert (Hht : forall j, has_tab (mem s2) d j <-> j = k / 1024 \/ has_tab (mem s) d j).
  { intros j. rewrite Hm2. by apply nt_has_tab. }
  assert (Hdl : d ∉ l) by (intros Hin; apply (Hap d); [by right|by left]).
  rewrite <- Htab. apply (HQ s2 l).
  - split; [|done|].
    + destruct Hfl1 as [Hc Hn' Hp']. rewrite Hm1 in Hc. split; [|done..]. rewrite Hm2.
      apply chain_frame; [done|]. by apply chain_frame.
    + intros w Hw Huw. apply Hu2 in Huw as [Huw|Heq]; [by apply (Hap w); [by right|]|congruence].
  - apply Hht. by left.
  - intros j Hj. rewrite Hm2. by apply nt_entry.
  - intros w Hw Hwl. apply not_elem_of_cons in Hwl as [Hwv Hwl]. split.
    + intros Huw. by apply Hu2 in Huw as [Huw|Heq].
    + rewrite Hm2. rewrite lookup_insert_ne by (intros ->; apply Hw; by left). by rewrite lookup_insert_ne.
  - intros j _ Hj. apply Hht. by right.
  - intros j Hj. rewrite Hm2. destruct (sp_frame _ _ Hsp j Hj) as (_&Hfd&_).
    rewrite lookup_insert_ne by done. rewrite lookup_insert_ne; [done|]. intros Heq. apply Hvu. right; right. eauto.
  - assert (Hmis : missing (mem s) d = S (missing (mem s2) d)); [|cbn [length]; lia]. unfold missing.
    apply (count_one _ _ _ (k / 1024)).
    + apply NoDup_seqZ.
    + apply elem_of_seqZ. lia.
    + done.
    + destruct (proj2 (Hht (k / 1024)) (or_introl eq_refl)) as [_ ->]. done.
    + intros i Hi%elem_of_seqZ Hne. rewrite Hm2. rewrite (nt_pde (mem s) d (k / 1024) v e Hsp Hk1 He) by lia.
      by rewrite decide_False.
  - intros w Hw. by right.
Qed.

(** ** Mapping a page *)

(** [s'] is [s] with page [k] mapped by the entry [e]; tables may have been
    allocated from the free list. *)
Record maps (s : kmem) (l : list Z) (d k e : Z) (s' : kmem) (l' : list Z) : Prop := {
  mp_ok : vm_ok s' l' d;
  mp_entry : forall j, 0 <= j < 2 ^ 20 -> entry (mem s') d j = if decide (j = k) then e else entry (mem s) d j;
  mp_other : forall w, ~ used (mem s) d w -> (w ∉ l) -> mem s' !! w = mem s !! w;
  mp_unused : forall w, ~ used (mem s) d w -> (w ∉ l) -> ~ (upage k /\ w = p2v (PTE_ADDR e)) -> ~ used (mem s') d w;
  mp_frames : forall j, mapped (mem s) d j -> mem s' !! frame (mem s) d j = mem s !! frame (mem s) d j;
  mp_count : (length l' + missing (mem s) d = length l + missing (mem s') d)%nat;
  mp_sub : forall w, w ∈ l' -> w ∈ l }.

(** The new frame of a user page. *)
Definition fresh (s : kmem) (l : list Z) (d f : Z) : Prop :=
  page_ok kend f /\ ~ used (mem s) d f /\ (f ∉ l) /\ exists pg, mem s !! f = Some pg /\ is_page pg.

Lemma set_maps s l d k e : vm_ok s l d -> 0 <= k < 2 ^ 20 -> has_tab (mem s) d (k / 1024) -> 0 <= e < 2 ^ 32 ->
  has (entry (mem s) d k) PTE_P = false -> (upage k -> has e PTE_P = true -> fresh s l d (p2v (PTE_ADDR e))) ->
  let v := tab (mem s) d (k / 1024) in
  maps s l d k e (mkK (freelist s) (<[v := wr 4 (4 * (k mod 1024)) e (pgt (mem s) v)]> (mem s))) l.
Proof.
  intros [Hfl Hsp Hap] Hk Ht He Hnp Hf v.
  assert (Huv : used (mem s) d v) by (right; left; eauto).
  assert (Hvl : v ∉ l) by (intros Hin; by apply (Hap v)).
  pose proof (fun w => set_used (mem s) d k e Hsp Hk Ht He w) as Hu.
  split; cbn [mem freelist].
  - split; cbn [mem freelist].
    + destruct Hfl as [Hc Hn Hp]. split; [|done..]. cbn [mem freelist]. by apply chain_frame.
    + apply set_space; [done..|]. intros Hup Hep. destruct (Hf Hup Hep) as (H1&H2&_&H4). done.
    + intros w Hw [Huw|(Hup&Hep&->)]%Hu; [by apply (Hap w)|]. destruct (Hf Hup Hep) as (_&_&H3&_). done.
  - intros j Hj. by apply set_entry.
  - intros w Hw _. rewrite lookup_insert_ne; [done|]. by intros ->.
  - intros w Hw _ Hne [Huw|(Hup&Hep&->)]%Hu; [done|]. by apply Hne.
  - intros j Hj. rewrite lookup_insert_ne; [done|]. apply not_eq_sym. by apply (sp_frame _ _ Hsp j Hj).
  - assert (missing (<[v := wr 4 (4 * (k mod 1024)) e (pgt (mem s) v)]> (mem s)) d = missing (mem s) d) as ->; [|done].
    apply missing_agree. intros i _. by apply set_pde.
  - done.
Qed.

Lemma wp_map_one {A} s l d k e E (Q : A -> kmem -> Prop) (none rest : K kmem A) :
  vm_ok s l d -> 0 <= k < 2 ^ 20 -> has (entry (mem s) d k) PTE_P = false -> 0 <= e < 2 ^ 32 ->
  (upage k -> has e PTE_P = true -> fresh s l d (p2v (PTE_ADDR e))) ->
  (l = [] -> ~ has_tab (mem s) d (k / 1024) -> wp none E Q s) ->
  (forall s' l', maps s l d k e s' l' -> wp rest E Q s') ->
  wp (pte <- walkpgdir d (4096 * k) true;;
      if pte =? 0 then none else
      e0 <- ld32 pte;;
      if has e0 PTE_P then panic "remap" else
      st32 pte e;;
      rest) E Q s.
Proof.
  intros Hok Hk Hnp He Hf Hnone Hrest. apply wp_bind. apply (wp_walk_alloc s l); [done|done| |].
  { intros Hl Hn. by apply Hnone. }
  intros s1 l1 Hok1 Ht1 Hent1 Hoth1 _ Hfr1 Hc1 Hsub1. destruct Hok1 as [Hfl1 Hsp1 Hap1] eqn:Hoke. clear Hoke.
  destruct (sp_tab _ _ Hsp1 _ Ht1) as (Hpk&_&pg&Hpg&Hisp). set (v := tab (mem s1) d (k / 1024)) in *.
  destruct (page_div k Hk) as [Hk1 Hk2]. pose proof (page_nonzero _ _ Hpk) as Hv0. pose proof (page_u32 _ _ Hpk) as Hvr.
  rewrite (proj2 (Z.eqb_neq _ 0)) by (unfold page_ok, KERNBASE in Hpk; lia).
  apply wp_bind. eapply wp_ld32; [apply Hpk|lia|done|].
  assert (Hold : rd 4 (4 * (k mod 1024)) pg = entry (mem s1) d k).
  { unfold entry. destruct Ht1 as [_ ->]. fold v. by rewrite (pgt_lookup _ _ _ Hpg). }
  rewrite Hold, Hent1, Hnp by done. apply wp_bind. eapply wp_st32; [apply Hpk|lia|done|].
  rewrite <- (pgt_lookup _ _ _ Hpg). apply (Hrest _ l1).
  assert (Hf1 : upage k -> has e PTE_P = true -> fresh s1 l1 d (p2v (PTE_ADDR e))).
  { intros Hup Hep. destruct (Hf Hup Hep) as (H1&H2&H3&H4). destruct (Hoth1 _ H2 H3) as [H5 H6].
    split_and!; [done|done|by intros Hin; apply H3, Hsub1|by rewrite H6]. }
  assert (Hnp1 : has (entry (mem s1) d k) PTE_P = false) by (by rewrite Hent1).
  destruct (set_maps s1 l1 d k e Hok1 Hk Ht1 He Hnp1 Hf1) as [G1 G2 G3 G4 G5 G6 G7]. fold v in G1, G2, G3, G4, G5, G6, G7.
  split; [done|..].
  - intros j Hj. rewrite G2 by done. case_decide; [done|by apply Hent1].
  - intros w Hw Hwl. destruct (Hoth1 w Hw Hwl) as [Hw1 Hm1]. rewrite G3; [done|done|]. by intros Hin; apply Hwl, Hsub1.
  - intros w Hw Hwl Hne. destruct (Hoth1 w Hw Hwl) as [Hw1 Hm1]. apply G4; [done|by intros Hin; apply Hwl, Hsub1|done].
  - intros j Hj. assert (Hj1 : mapped (mem s1) d j) by (destruct Hj as [Hu Hp]; split; [done|]; by rewrite Hent1 by (by apply upage_20)).
    assert (Hfe : frame (mem s1) d j = frame (mem s) d j) by (unfold frame; rewrite Hent1; [done|apply upage_20, Hj]).
    rewrite <- Hfe at 1. rewrite G5 by done. rewrite Hfe. by apply Hfr1.
  - lia.
  - intros w Hw. by apply Hsub1, G7.
Qed.

Lemma div_4096 k : 4096 * k / 4096 = k.
Proof. rewrite Z.mul_comm. by apply Z.div_mul. Qed.
Lemma mappages_range k n : 0 <= k -> 0 < n -> k + n <= 2 ^ 20 ->
  PGROUNDDOWN (4096 * k) = 4096 * k /\ PGROUNDDOWN (u32 (4096 * k + 4096 * n - 1)) = 4096 * (k + n - 1).
Proof.
  intros Hk Hn Hkn. rewrite !pgrounddown_eq, div_4096. split; [done|]. rewrite u32_small by lia. f_equal.
  replace (4096 * k + 4096 * n - 1) with (4095 + (k + n - 1) * 4096) by lia. rewrite Z.div_add by lia. done.
Qed.

(** mappages of one page. *)
Lemma mappages_one s l d k f p : vm_ok s l d -> 0 <= k < 2 ^ 20 -> has (entry (mem s) d k) PTE_P = false ->
  page_ok kend f -> 0 <= p < 4096 -> (upage k -> fresh s l d f) ->
  let e := Z.lor (Z.lor (v2p f) p) PTE_P in
  wp (mappages d (4096 * k) PGSIZE (v2p f) p) noerr (fun r s' =>
    (r = -1 /\ s' = s /\ l = [] /\ ~ has_tab (mem s) d (k / 1024)) \/
    (r = 0 /\ exists l', maps s l d k e s' l')) s.
Proof.
  intros Hok Hk Hnp Hf Hp Hfr e. destruct (pte_make f p) as (He&_&Hev&_); [apply Hf|apply Hf|done|]. fold e in He, Hev.
  destruct (mappages_range k 1) as [Hd Hlast]; [lia..|]. replace (k + 1 - 1) with k in Hlast by lia. rewrite Z.mul_1_r in Hlast.
  unfold mappages. change (4096 * k + PGSIZE - 1) with (4096 * k + 4096 - 1). rewrite Hd, Hlast, Z.sub_diag. change (u32 0 / PGSIZE) with 0. cbn [while Z.to_nat].
  apply wp_bind.
  eapply (wp_map_one s l d k e); [done|done|done|done|by intros Hu _; rewrite Hev; apply Hfr| |].
  - intros Hl Ht. apply wp_ret. apply wp_ret. left. done.
  - intros s' l' Hm. rewrite Z.eqb_refl. apply wp_ret. apply wp_ret. right. eauto.
Qed.

Lemma missing_pos m d k : 0 <= k < 2 ^ 20 -> ~ has_tab m d (k / 1024) -> (0 < missing m d)%nat.
Proof.
  intros Hk Hno. unfold missing. destruct (page_div k Hk) as [Hk1 _].
  assert (Hin : k / 1024 ∈ filter (fun i => has (pde m d i) PTE_P = false) (seqZ 0 1024)).
  { apply list_elem_of_filter. split; [|apply elem_of_seqZ; lia].
    destruct (has (pde m d (k / 1024)) PTE_P) eqn:Hb; [|done]. by destruct Hno. }
  destruct (filter _ _); [by apply elem_of_nil in Hin|simpl; lia].
Qed.

(** mappages of [n] kernel pages, with memory for the tables. *)
Lemma mappages_kernel s l d k n q p : vm_ok s l d -> 2 ^ 19 <= k -> 0 < n -> k + n <= 2 ^ 20 -> 0 <= q -> q + n <= 2 ^ 20 ->
  0 <= p < 4096 -> (forall i, k <= i < k + n -> has (entry (mem s) d i) PTE_P = false) ->
  (missing (mem s) d <= length l)%nat ->
  wp (mappages d (4096 * k) (4096 * n) (4096 * q) p) noerr (fun r s' => r = 0 /\ exists l', vm_ok s' l' d /\
    (forall i, 0 <= i < 2 ^ 20 -> entry (mem s') d i =
      if decide (k <= i < k + n) then Z.lor (Z.lor (4096 * (q + (i - k))) p) PTE_P else entry (mem s) d i) /\
    (forall w, ~ used (mem s) d w -> (w ∉ l) -> mem s' !! w = mem s !! w /\ ~ used (mem s') d w) /\
    (missing (mem s') d <= length l')%nat /\ (length l' + missing (mem s) d = length l + missing (mem s') d)%nat /\
    (forall w, w ∈ l' -> w ∈ l)) s.
Proof.
  intros Hok Hk Hn Hkn Hq Hqn Hp Habs Hmem. destruct (mappages_range k n) as [Hd Hlast]; [lia..|].
  unfold mappages. rewrite Hd, Hlast. replace (4096 * (k + n - 1) - 4096 * k) with (4096 * (n - 1)) by lia.
  rewrite u32_small by lia. unfold PGSIZE at 1. rewrite div_4096.
  apply (wp_while (fun st s1 => let '(a, pa) := st in exists j l1, 0 <= j < n /\ a = 4096 * (k + j) /\ pa = 4096 * (q + j) /\
      vm_ok s1 l1 d /\
      (forall i, 0 <= i < 2 ^ 20 -> entry (mem s1) d i =
        if decide (k <= i < k + j) then Z.lor (Z.lor (4096 * (q + (i - k))) p) PTE_P else entry (mem s) d i) /\
      (forall w, ~ used (mem s) d w -> (w ∉ l) -> mem s1 !! w = mem s !! w /\ ~ used (mem s1) d w) /\
      (length l1 + missing (mem s) d = length l + missing (mem s1) d)%nat /\ (forall w, w ∈ l1 -> w ∈ l))
    (fun st => Z.to_nat (k + n - 1 - st.1 / 4096))).
  - exists 0, l. rewrite !Z.add_0_r. split_and!; try done; try lia.
    intros i Hi. by rewrite decide_False by lia.
  - simpl. rewrite div_4096. lia.
  - intros [a pa] s1 (j&l1&Hj&->&->&Hok1&Hent1&Hoth1&Hc1&Hsub1).
    set (e := Z.lor (Z.lor (4096 * (q + j)) p) PTE_P).
    assert (He : 0 <= e < 2 ^ 32).
    { unfold e. rewrite <- Z.lor_assoc. assert (0 <= Z.lor p PTE_P < 4096) by (apply lor_flags; [done|unfold PTE_P; lia]).
      rewrite lor_page by done. lia. }
    eapply (wp_map_one s1 l1 d (k + j) e); [done|lia| |done| | |].
    + rewrite Hent1, decide_False by lia. apply Habs. lia.
    + unfold upage. lia.
    + intros -> Hno. exfalso. pose proof (missing_pos (mem s1) d (k + j) ltac:(lia) Hno). simpl in Hc1. lia.
    + intros s2 l2 Hm. destruct Hm as [G1 G2 G3 G4 _ G6 G7].
      assert (Hent2 : forall i, 0 <= i < 2 ^ 20 -> entry (mem s2) d i =
        if decide (k <= i < k + (j + 1)) then Z.lor (Z.lor (4096 * (q + (i - k))) p) PTE_P else entry (mem s) d i).
      { intros i Hi. rewrite G2 by done. destruct (decide (i = k + j)) as [->|Hne].
        - rewrite decide_True by lia. unfold e. do 3 f_equal. lia.
        - rewrite Hent1 by done. destruct (decide (k <= i < k + j)); [by rewrite decide_True by lia|by rewrite decide_False by lia]. }
      assert (Hoth2 : forall w, ~ used (mem s) d w -> (w ∉ l) -> mem s2 !! w = mem s !! w /\ ~ used (mem s2) d w).
      { intros w Hw Hwl. destruct (Hoth1 w Hw Hwl) as [H1 H2].
        assert (Hwl1 : w ∉ l1) by (intros Hin; by apply Hwl, Hsub1). split; [by rewrite G3|].
        apply G4; [done|done|]. unfold upage. intros [? _]. lia. }
      destruct (Z.eqb_spec (4096 * (k + j)) (4096 * (k + n - 1))) as [Heq|Hne].
      * apply wp_ret. split; [done|]. exists l2. replace (j + 1) with n in Hent2 by lia.
        split_and!; [done|done|done|lia|lia|]. intros w Hw. by apply Hsub1, G7.
      * apply wp_ret. split; [|simpl; rewrite u32_small, div_4096 by (unfold PGSIZE; lia)].
        -- exists (j + 1), l2. unfold PGSIZE. rewrite !u32_small by lia. split_and!; try lia; try done.
           intros w Hw. by apply Hsub1, G7.
        -- unfold PGSIZE. replace (4096 * (k + j) + 4096) with (4096 * (k + j + 1)) by lia. rewrite div_4096. lia.
Qed.

(** ** Frames *)

(** A page that no part of the space uses is written. *)
Lemma vm_store s l d v pg : vm_ok s l d -> (v ∉ l) -> v <> d -> (forall i, has_tab (mem s) d i -> v <> tab (mem s) d i) ->
  is_page pg -> vm_ok (mkK (freelist s) (<[v := pg]> (mem s))) l d.
Proof.
  intros [[Hc Hn Hp] Hsp Hap] Hvl Hvd Hvt Hpg. pose proof (store_agree (mem s) d v pg Hvd Hvt) as Hag. split; cbn [mem freelist].
  - split; [|done..]. cbn [mem freelist]. by apply chain_frame.
  - by apply store_space.
  - intros w Hw Huw. apply (agree_used _ _ _ _ Hag) in Huw. by apply (Hap w).
Qed.
(** A page taken from the allocator, filled and mapped for the user. *)
Lemma alloc_map s l d k pg p : vm_ok s l d -> upage k -> has (entry (mem s) d k) PTE_P = false -> 0 <= p < 4096 ->
  is_page pg -> (missing (mem s) d < length l)%nat ->
  exists v s1 l1, kalloc s = Ok v s1 /\ v <> 0 /\ page_ok kend v /\ l = v :: l1 /\ mem s1 = mem s /\
  let e := Z.lor (Z.lor (v2p v) p) PTE_P in
  wp (stpage v pg;; mappages d (4096 * k) PGSIZE (v2p v) p) noerr (fun r s' => r = 0 /\ exists l', vm_ok s' l' d /\
    (forall j, 0 <= j < 2 ^ 20 -> entry (mem s') d j = if decide (j = k) then e else entry (mem s) d j) /\
    mem s' !! v = Some pg /\
    (forall w, ~ used (mem s) d w -> (w ∉ l) -> mem s' !! w = mem s !! w /\ ~ used (mem s') d w) /\
    (forall j, mapped (mem s) d j -> mem s' !! frame (mem s) d j = mem s !! frame (mem s) d j) /\
    (S (length l') + missing (mem s) d = length l + missing (mem s') d)%nat /\ (forall w, w ∈ l' -> w ∈ l)) s1.
Proof.
  intros Hok Hu Hnp Hp Hpg Hmem. destruct Hok as [Hfl Hsp Hap] eqn:Hoke. clear Hoke.
  pose proof (kalloc_ok kend s l Hfl) as Hka. destruct l as [|v l1]; [simpl in Hmem; lia|].
  destruct Hka as (s1&Hk&Hfl1&Hm1). exists v, s1, l1.
  pose proof (fl_pages _ _ _ Hfl) as Hpgs. apply Forall_cons in Hpgs as [Hvp _].
  pose proof (fl_nodup _ _ _ Hfl) as Hnd. apply NoDup_cons in Hnd as [Hvl _].
  split_and!; [done|by eapply page_nonzero|done..|]. intros e.
  assert (Hvu : ~ used (mem s) d v) by (apply Hap; by left).
  assert (Hvd : v <> d) by (intros ->; apply Hvu; by left).
  assert (Hvt : forall i, has_tab (mem s) d i -> v <> tab (mem s) d i) by (intros i Hi ->; apply Hvu; right; left; eauto).
  apply wp_bind, wp_modify. set (s2 := mkK _ _). assert (Hm2 : mem s2 = <[v := pg]> (mem s)) by (unfold s2; cbn [mem]; by rewrite Hm1).
  assert (Hok1 : vm_ok s1 l1 d).
  { split; [done|by rewrite Hm1|]. intros w Hw. rewrite Hm1. apply Hap. by right. }
  assert (Hok2 : vm_ok s2 l1 d) by (unfold s2; apply vm_store; [done|done|done|by rewrite Hm1|done]).
  assert (Hag : agree (mem s) (mem s2) d) by (rewrite Hm2; by apply store_agree).
  assert (Hmis : missing (mem s2) d = missing (mem s) d) by (apply missing_agree; intros; by apply (agree_pde (mem s))).
  assert (Hent : forall j, 0 <= j < 2 ^ 20 -> entry (mem s2) d j = entry (mem s) d j) by (intros; by apply agree_entry).
  destruct (pte_make v p) as (He&_&Hev&_); [apply Hvp|apply Hvp|done|]. fold e in He, Hev.
  eapply wp_post; [apply (mappages_one s2 l1 d k v p); [done|by apply upage_20| |done|done|]|].
  - rewrite Hent by (by apply upage_20). done.
  - intros _. split_and!; [done|by rewrite (agree_used (mem s))|done|]. rewrite Hm2, lookup_insert_eq. eauto.
  - fold e. intros r s' [(_&_&->&Hno)|(->&l'&[G1 G2 G3 G4 G5 G6 G7])].
    { exfalso. pose proof (missing_pos (mem s2) d k ltac:(by apply upage_20) Hno). simpl in Hmem. lia. }
    split; [done|]. exists l'. split_and!.
    + done.
    + intros j Hj. rewrite G2 by done. case_decide; [done|by apply Hent].
    + rewrite G3; [by rewrite Hm2, lookup_insert_eq|by rewrite (agree_used (mem s))|done].
    + intros w Hw Hwl. apply not_elem_of_cons in Hwl as [Hwv Hwl]. split.
      * rewrite G3; [by rewrite Hm2, lookup_insert_ne|by rewrite (agree_used (mem s))|done].
      * apply G4; [by rewrite (agree_used (mem s))|done|]. rewrite Hev. by intros [_ ?].
    + intros j Hj. assert (Hj2 : mapped (mem s2) d j) by (by apply (agree_mapped (mem s))).
      rewrite <- (agree_frame (mem s) (mem s2) d j Hag (proj1 Hj)) at 1. rewrite G5 by done.
      rewrite (agree_frame (mem s) (mem s2) d j Hag (proj1 Hj)). rewrite Hm2. rewrite lookup_insert_ne; [done|].
      intros Heq. apply Hvu. right; right. eauto.
    + cbn [length]. lia.
    + intros w Hw. right. by apply G7.
Qed.
End space.
