(* ===== verification/VmThms.v ===== *)
(** Theorems on address spaces: growing one, copying one, copying to one. *)
From S2P Require Import Prelude Params Str Kalloc Vm VmSpec.

(** User page [k] maps the frame [v] with the permissions [p]. *)
Definition maps_to (m : gmap Z (list Z)) (d k v p : Z) : Prop :=
  entry m d k = Z.lor (Z.lor (v2p v) p) PTE_P.
Definition pages (sz : Z) : Z := (sz + 4095) / 4096.

Section grow.
Variable kend : Z.
Implicit Types (s : kmem) (l : list Z) (d k v p : Z).

Lemma maps_to_frame m d k v p : upage k -> page_ok kend v -> 0 <= p < 4096 -> maps_to m d k v p ->
  mapped m d k /\ frame m d k = v /\ PTE_FLAGS (entry m d k) = Z.lor p PTE_P.
Proof.
  intros Hu Hv Hp He. unfold mapped, frame. rewrite He.
  destruct (pte_make v p) as (_&H1&H2&H3); [apply Hv|apply Hv|done|]. done.
Qed.
Lemma pages_up sz : 0 <= sz <= KERNBASE -> PGROUNDUP sz = 4096 * pages sz /\ 0 <= pages sz <= 2 ^ 19.
Proof.
  unfold KERNBASE, pages. intros Hs. rewrite pgroundup_eq by lia. split; [done|].
  split; [apply Z.div_pos; lia|]. pose proof (Z.div_mod (sz + 4095) 4096 ltac:(lia)).
  pose proof (Z.mod_pos_bound (sz + 4095) 4096 ltac:(lia)). lia.
Qed.
Lemma pages_lt sz j : 4096 * j < sz <-> j < pages sz.
Proof.
  unfold pages. pose proof (Z.div_mod (sz + 4095) 4096 ltac:(lia)). pose proof (Z.mod_pos_bound (sz + 4095) 4096 ltac:(lia)). lia.
Qed.

(** What has been added by the time [j] pages are mapped. *)
Record added s l d k0 j s' l' : Prop := {
  ad_ok : vm_ok kend s' l' d;
  ad_new : forall k, k0 <= k < k0 + j -> exists v, page_ok kend v /\ maps_to (mem s') d k v 6 /\ mem s' !! v = Some zero_page;
  ad_old : forall k, 0 <= k < 2 ^ 20 -> ~ (k0 <= k < k0 + j) -> entry (mem s') d k = entry (mem s) d k;
  ad_frames : forall k, mapped (mem s) d k -> mem s' !! frame (mem s) d k = mem s !! frame (mem s) d k;
  ad_other : forall w, ~ used (mem s) d w -> (w ∉ l) -> mem s' !! w = mem s !! w /\ ~ used (mem s') d w /\ (w ∉ l');
  ad_count : Z.of_nat (length l') + j + Z.of_nat (missing (mem s) d) = Z.of_nat (length l) + Z.of_nat (missing (mem s') d) }.
Lemma added_0 s l d k0 : vm_ok kend s l d -> added s l d k0 0 s l.
Proof. intros Hok. split; try done; intros; lia. Qed.

Lemma added_step s l d k0 j s1 l1 : added s l d k0 j s1 l1 -> 0 <= k0 -> 0 <= j -> upage (k0 + j) ->
  (forall k, k0 <= k <= k0 + j -> has (entry (mem s) d k) PTE_P = false) -> (missing (mem s1) d < length l1)%nat ->
  exists v s2 l2, kalloc s1 = Ok v s2 /\ v <> 0 /\
  wp (stpage v zero_page;; mappages d (4096 * (k0 + j)) PGSIZE (v2p v) (Z.lor PTE_W PTE_U)) noerr
    (fun r s' => r = 0 /\ exists l', added s l d k0 (j + 1) s' l') s2 /\ l1 = v :: l2.
Proof.
  intros [Hok Hnew Hold Hfr Hoth Hc] Hk0 Hj Hu Hnp Hmem.
  assert (Hnp1 : has (entry (mem s1) d (k0 + j)) PTE_P = false) by (rewrite Hold by (by apply upage_20 || lia); apply Hnp; lia).
  destruct (alloc_map kend s1 l1 d (k0 + j) zero_page 6 Hok Hu Hnp1 ltac:(lia) is_page_zero Hmem)
    as (v&s2&l2&Hk&Hv0&Hvp&Hl1&Hm2&Hrun).
  exists v, s2, l2. split_and!; [done..| |done]. eapply wp_post; [exact Hrun|].
  intros r s' (->&l'&Hok'&Hent'&Hv'&Hoth'&Hfr'&Hc'&Hsub'). split; [done|]. exists l'.
  assert (Hmapped : forall k, mapped (mem s) d k -> ~ (k0 <= k < k0 + j) -> mapped (mem s1) d k /\ frame (mem s1) d k = frame (mem s) d k).
  { intros k [Huk Hpk] Hno. unfold mapped, frame. rewrite (Hold k (upage_20 k Huk) Hno). done. }
  split.
  - done.
  - intros k Hk'. destruct (decide (k = k0 + j)) as [->|Hne].
    + exists v. split_and!; [done| |done]. unfold maps_to. rewrite Hent', decide_True by (done || by apply upage_20). done.
    + destruct (Hnew k ltac:(lia)) as (w&Hw&Hmt&Hz). exists w.
      assert (Huk : upage k) by (unfold upage in *; lia).
      destruct (maps_to_frame _ _ _ _ 6 Huk Hw ltac:(lia) Hmt) as (Hmk&Hfk&_).
      split_and!; [done| |].
      * unfold maps_to. rewrite Hent', decide_False by (done || by apply upage_20). done.
      * pose proof (Hfr' k Hmk) as Hsame. rewrite Hfk in Hsame. by rewrite Hsame.
  - intros k Hkr Hno. rewrite Hent' by done. rewrite decide_False by lia. apply Hold; [done|lia].
  - intros k Hmk. destruct (decide (k0 <= k < k0 + j)) as [Hin|Hout].
    + destruct Hmk as [_ Hpk]. by rewrite Hnp in Hpk by lia.
    + destruct (Hmapped k Hmk Hout) as [Hmk1 Hfk]. pose proof (Hfr' k Hmk1) as Hsame. rewrite Hfk in Hsame. rewrite Hsame. by apply Hfr.
  - intros w Hw Hwl. destruct (Hoth w Hw Hwl) as (H1&H2&H3). destruct (Hoth' w H2 H3) as [H4 H5].
    split_and!; [by rewrite H4|done|]. intros Hin. by apply H3, Hsub'.
  - lia.
Qed.
End grow.

(** With the memory for them, allocuvm adds the pages. *)
Lemma allocuvm_ok kend s l d oldsz newsz :
  vm_ok kend s l d -> 0 <= oldsz <= newsz -> newsz < KERNBASE ->
  (forall k, pages oldsz <= k < pages newsz -> has (entry (mem s) d k) PTE_P = false) ->
  Z.of_nat (missing (mem s) d) + (pages newsz - pages oldsz) <= Z.of_nat (length l) ->
  wp (allocuvm kend d oldsz newsz) noerr (fun r s' => r = newsz /\ exists l',
    added kend s l d (pages oldsz) (pages newsz - pages oldsz) s' l') s.
Proof.
  intros Hok Hsz Hkb Habs Hmem. unfold allocuvm.
  rewrite (proj2 (Z.leb_gt _ _)), (proj2 (Z.ltb_ge _ _)) by lia.
  destruct (pages_up oldsz ltac:(lia)) as [Hup Hk0]. destruct (pages_up newsz ltac:(lia)) as [_ Hk1]. rewrite Hup.
  set (k0 := pages oldsz) in *. set (k1 := pages newsz) in *.
  assert (Hkk : k0 <= k1) by (unfold k0, k1, pages; apply Z.div_le_mono; lia).
  apply (wp_while (fun a s1 => exists j l1, 0 <= j <= k1 - k0 /\ a = 4096 * (k0 + j) /\ added kend s l d k0 j s1 l1)
    (fun a => Z.to_nat (k1 - a / 4096))).
  - exists 0, l. split_and!; [lia|lia|f_equal; lia|by apply added_0].
  - rewrite div_4096. pose proof (Z.div_mod (newsz - 4096 * k0) 4096 ltac:(lia)) as Hd. unfold PGSIZE.
    pose proof (pages_lt newsz (k1 - 1)) as Hl. pose proof (Z.mod_pos_bound (newsz - 4096 * k0) 4096 ltac:(lia)). lia.
  - intros a s1 (j&l1&Hj&->&Had). destruct (Z.ltb_spec (4096 * (k0 + j)) newsz) as [Hlt|Hge]; cbn [negb].
    + apply pages_lt in Hlt. fold k1 in Hlt. pose proof (ad_count _ _ _ _ _ _ _ _ Had) as Hc.
      destruct (added_step kend s l d k0 j s1 l1 Had) as (v&s2&l2&Hk&Hv0&Hrun&_); [lia|lia|unfold upage; lia| |lia|].
      { intros k Hk. apply Habs. lia. }
      apply wp_bind. unfold wp at 1. rewrite Hk. rewrite (proj2 (Z.eqb_neq v 0)) by done.
      eapply wp_seq2; [exact Hrun|]. intros r s' (->&l'&Had'). apply wp_ret. unfold PGSIZE.
      rewrite u32_small by (unfold KERNBASE in *; lia). replace (4096 * (k0 + j) + 4096) with (4096 * (k0 + (j + 1))) by lia.
      split; [|rewrite !div_4096; lia]. exists (j + 1), l'. split_and!; [lia|lia|done|done].
    + apply wp_ret. split; [done|]. exists l1. assert (j = k1 - k0) as <-; [|done].
      pose proof (pages_lt newsz (k0 + j)). fold k1 in H. lia.
Qed.

(** Growing a process.  With memory for the pages and their tables, allocuvm
    maps exactly the pages between the old and the new size, each to a page
    of its own filled with zeros and accessible to the user; every other
    mapping, and the contents of every other page, stay as they were.  A new
    size at or above KERNBASE is refused, and one below the old size changes
    nothing. *)
Theorem allocuvm_correct kend s l d oldsz newsz :
  (vm_ok kend s l d -> 0 <= oldsz <= newsz -> newsz < KERNBASE ->
   (forall k, pages oldsz <= k < pages newsz -> has (entry (mem s) d k) PTE_P = false) ->
   Z.of_nat (missing (mem s) d) + (pages newsz - pages oldsz) <= Z.of_nat (length l) ->
   wp (allocuvm kend d oldsz newsz) noerr (fun r s' => r = newsz /\ exists l',
     added kend s l d (pages oldsz) (pages newsz - pages oldsz) s' l') s) /\
  (KERNBASE <= newsz -> allocuvm kend d oldsz newsz s = Ok 0 s) /\
  (newsz < KERNBASE -> newsz < oldsz -> allocuvm kend d oldsz newsz s = Ok oldsz s).
Proof.
  split_and!; [apply allocuvm_ok|..].
  - intros Hkb. unfold allocuvm. by rewrite (proj2 (Z.leb_le _ _)).
  - intros Hkb Hlt. unfold allocuvm. by rewrite (proj2 (Z.leb_gt _ _)), (proj2 (Z.ltb_lt _ _)).
Qed.

(** ** copyout *)

(** The byte of user memory at address [a]. *)
Definition ubyte (m : gmap Z (list Z)) (d a : Z) : Z := peek (pgt m (frame m d (a / 4096))) (a mod 4096).
(** The pages of the range are the user's. *)
Definition user_range (m : gmap Z (list Z)) (d va len : Z) : Prop :=
  forall a, va <= a < va + len -> mapped m d (a / 4096) /\ has (entry m d (a / 4096)) PTE_U = true.
(** The first [t] bytes of [p] have been written at [va]. *)
Record copied kend s l d va (p : list Z) t s' : Prop := {
  cp_ok : vm_ok kend s' l d;
  cp_agree : agree (mem s) (mem s') d;
  cp_bytes : forall a, 0 <= a -> mapped (mem s) d (a / 4096) ->
    ubyte (mem s') d a = if decide (va <= a < va + t) then peek p (a - va) else ubyte (mem s) d a;
  cp_other : forall w, ~ used (mem s) d w -> mem s' !! w = mem s !! w }.

Section copyout.
Variable kend : Z.
Implicit Types (s : kmem) (l : list Z) (d va a t n : Z) (p : list Z).

Lemma copied_0 s l d va p : vm_ok kend s l d -> copied kend s l d va p 0 s.
Proof. intros Hok. split; try done. intros a _ _. by rewrite decide_False by lia. Qed.

Lemma uva2ka_user s l d k E (Q : Z -> kmem -> Prop) :
  vm_ok kend s l d -> mapped (mem s) d k -> has (entry (mem s) d k) PTE_U = true -> Q (frame (mem s) d k) s ->
  wp (uva2ka d (4096 * k)) E Q s.
Proof.
  intros Hok Hm Hu HQ. destruct Hm as [Huk Hp]. pose proof (upage_20 k Huk) as Hk. destruct (page_div k Hk) as [Hk1 Hk2].
  pose proof (vo_space _ _ _ _ Hok) as Hsp. unfold uva2ka. apply wp_bind.
  replace (4096 * k) with (4096 * k + 0) by lia.
  assert (Ht : has_tab (mem s) d (k / 1024)).
  { split; [done|]. unfold entry in Hp. destruct (has (pde (mem s) d (k / 1024)) PTE_P); done. }
  apply (wp_walk kend s l d k 0); [done|done|lia| |done]. intros _.
  destruct (sp_tab _ _ _ Hsp _ Ht) as (Hpk&_&pg&Hpg&_).
  rewrite (proj2 (Z.eqb_neq _ 0)) by (unfold page_ok, KERNBASE in Hpk; lia).
  apply wp_bind. eapply wp_ld32; [apply Hpk|lia|done|].
  assert (Hold : rd 4 (4 * (k mod 1024)) pg = entry (mem s) d k).
  { unfold entry. destruct Ht as [_ ->]. by rewrite (pgt_lookup _ _ _ Hpg). }
  rewrite Hold, Hp, Hu. cbn [negb]. by apply wp_ret.
Qed.

(** A page the user may not access. *)
Lemma uva2ka_deny s l d k E (Q : Z -> kmem -> Prop) :
  vm_ok kend s l d -> 0 <= k < 2 ^ 20 -> has_tab (mem s) d (k / 1024) ->
  (has (entry (mem s) d k) PTE_P && has (entry (mem s) d k) PTE_U) = false -> Q 0 s ->
  wp (uva2ka d (4096 * k)) E Q s.
Proof.
  intros Hok Hk Ht Hno HQ. destruct (page_div k Hk) as [Hk1 Hk2].
  pose proof (vo_space _ _ _ _ Hok) as Hsp. unfold uva2ka. apply wp_bind.
  replace (4096 * k) with (4096 * k + 0) by lia.
  apply (wp_walk kend s l d k 0); [done|done|lia| |done]. intros _.
  destruct (sp_tab _ _ _ Hsp _ Ht) as (Hpk&_&pg&Hpg&_).
  rewrite (proj2 (Z.eqb_neq _ 0)) by (unfold page_ok, KERNBASE in Hpk; lia).
  apply wp_bind. eapply wp_ld32; [apply Hpk|lia|done|].
  assert (Hold : rd 4 (4 * (k mod 1024)) pg = entry (mem s) d k).
  { unfold entry. destruct Ht as [_ ->]. by rewrite (pgt_lookup _ _ _ Hpg). }
  rewrite Hold. destruct (has (entry (mem s) d k) PTE_P); cbn [negb]; [|by apply wp_ret].
  simpl in Hno. rewrite Hno. by apply wp_ret.
Qed.

(** Writing [n] bytes into the page at [va + t]. *)
Lemma copied_step s l d va p t n s1 :
  copied kend s l d va p t s1 -> 0 <= va -> 0 <= t -> 0 < n -> (va + t) mod 4096 + n <= 4096 ->
  t + n <= Z.of_nat (length p) -> bytes p ->
  let k := (va + t) / 4096 in
  mapped (mem s) d k ->
  let f := frame (mem s1) d k in
  copied kend s l d va p (t + n)
    (mkK (freelist s1) (<[f := splice ((va + t) mod 4096) (take (Z.to_nat n) (drop (Z.to_nat t) p)) (pgt (mem s1) f)]> (mem s1))).
Proof.
  intros [Hok Hag Hby Hoth] Hva Ht Hn Hfit Hlen Hb k Hm f.
  assert (Hm1 : mapped (mem s1) d k) by (by apply (agree_mapped (mem s))).
  pose proof (vo_space _ _ _ _ Hok) as Hsp. destruct (sp_frame _ _ _ Hsp k Hm1) as (Hfp&Hfd&Hft&pg&Hpg&Hisp). fold f in Hfp, Hfd, Hft, Hpg.
  rewrite (pgt_lookup _ _ _ Hpg). set (o := (va + t) mod 4096) in *. set (src := take _ _). set (pg' := splice o src pg).
  assert (Hls : length src = Z.to_nat n) by (unfold src; rewrite length_take, length_drop; lia).
  assert (Ho : 0 <= o < 4096) by (apply Z.mod_pos_bound; lia).
  assert (Hfl : f ∉ l) by (intros Hin; apply (vo_apart _ _ _ _ Hok f Hin); right; right; eauto).
  assert (Hisp' : is_page pg').
  { destruct Hisp as [Hl Hbp]. split; [by unfold pg'; rewrite length_splice|]. apply bytes_splice; [|done].
    by apply Forall_take, Forall_drop. }
  assert (Hag2 : agree (mem s1) (<[f := pg']> (mem s1)) d) by (by apply store_agree).
  split; cbn [mem freelist].
  - by apply vm_store.
  - destruct Hag as [A1 A2], Hag2 as [B1 B2]. split; [by rewrite B1|]. intros i Hi.
    assert (Hi1 : has_tab (mem s1) d i) by (by apply (agree_has_tab (mem s)); [split|]).
    pose proof (B2 i Hi1) as HB. rewrite (agree_tab (mem s) (mem s1)) in HB by (by split). rewrite HB. by apply A2.
  - intros a Ha Hma. unfold ubyte. rewrite (agree_frame (mem s1)) by (done || apply Hma).
    destruct (decide (a / 4096 = k)) as [Hak|Hak].
    + rewrite Hak. fold f. rewrite pgt_insert, decide_True by done. unfold pg'. pose proof (proj1 Hisp) as Hlp.
      pose proof (Z.mod_pos_bound a 4096 ltac:(lia)) as Hma4. rewrite peek_splice by (rewrite ?Hls, ?Hlp; lia).
      rewrite Hls. pose proof (Z.div_mod a 4096 ltac:(lia)) as Hda. pose proof (Z.div_mod (va + t) 4096 ltac:(lia)) as Hdv. fold k o in Hdv.
      pose proof (Hby a Ha Hma) as Hbya. unfold ubyte in Hbya. rewrite Hak in Hbya. fold f in Hbya. rewrite (pgt_lookup _ _ _ Hpg) in Hbya.
      destruct (decide (o <= a mod 4096 < o + Z.of_nat (Z.to_nat n))) as [Hin|Hout].
      * rewrite decide_True by lia. unfold src, peek. rewrite lookup_total_take, decide_True by lia. rewrite lookup_total_drop. f_equal. lia.
      * rewrite Hbya. destruct (decide (va <= a < va + t)); [by rewrite decide_True by lia|by rewrite decide_False by lia].
    + rewrite pgt_insert, decide_False.
      * pose proof (Hby a Ha Hma) as Hbya. unfold ubyte in Hbya. rewrite Hbya.
        assert (Hiff : va <= a < va + (t + n) <-> va <= a < va + t); [|destruct (decide (va <= a < va + t)); [by rewrite decide_True by lia|by rewrite decide_False by lia]].
        split; [|lia]. intros Hr. split; [lia|]. destruct (decide (a < va + t)) as [|Hge]; [done|]. exfalso. apply Hak.
        unfold k. pose proof (Z.div_mod (va + t) 4096 ltac:(lia)) as Hdv. fold o in Hdv. symmetry. apply (Z.div_unique a 4096 ((va + t) / 4096) (a - 4096 * ((va + t) / 4096))); lia.
      * intros Heq. apply Hak. apply (sp_finj _ _ _ Hsp); [by apply (agree_mapped (mem s))|done|done].
  - intros w Hw. rewrite lookup_insert_ne; [by apply Hoth|]. intros <-. apply Hw. right; right. exists k. split; [done|].
    unfold f. apply (agree_frame (mem s)); [done|apply Hm].
Qed.
End copyout.

(** copyout.  When the user may access every page of the range, copyout
    returns 0 and the bytes of user memory at [va] are those of [p]; every
    other byte of user memory, the page tables and all memory outside the
    address space are as before.  When the page of [va] has no user
    permission, it returns -1 and changes nothing. *)
Theorem copyout_correct kend s l d va p len :
  vm_ok kend s l d -> 0 <= va -> 0 <= len <= Z.of_nat (length p) -> va + len <= KERNBASE -> bytes p ->
  (user_range (mem s) d va len ->
    wp (copyout d va p len) noerr (fun r s' => r = 0 /\ copied kend s l d va p len s') s) /\
  (0 < len -> has_tab (mem s) d (va / 4096 / 1024) ->
    (has (entry (mem s) d (va / 4096)) PTE_P && has (entry (mem s) d (va / 4096)) PTE_U) = false ->
    wp (copyout d va p len) noerr (fun r s' => r = -1 /\ s' = s) s).
Proof.
  intros Hok Hva Hlen Hend Hb. unfold KERNBASE in Hend. unfold copyout. split.
  - intros Hur.
    apply (wp_while (fun st s1 => let '(v, buf, n) := st in exists t, 0 <= t <= len /\ n = len - t /\ buf = drop (Z.to_nat t) p /\
        (t < len -> v = va + t /\ (t = 0 \/ v mod 4096 = 0)) /\ copied kend s l d va p t s1)
      (fun st => let '(v, buf, n) := st in Z.to_nat (if decide (n = 0) then 0 else (v mod 4096 + n - 1) / 4096 + 1))).
    + exists 0. split_and!; [lia|lia|lia|done|by split; [lia|left]|by apply copied_0].
    + case_decide; [lia|]. pose proof (Z.mod_pos_bound va 4096 ltac:(lia)). unfold PGSIZE.
      pose proof (Z.div_mod (va mod 4096 + len - 1) 4096 ltac:(lia)). pose proof (Z.mod_pos_bound (va mod 4096 + len - 1) 4096 ltac:(lia)).
      pose proof (Z.div_mod len 4096 ltac:(lia)). pose proof (Z.mod_pos_bound len 4096 ltac:(lia)). lia.
    + intros [[v buf] n] s1 (t&Ht&->&->&Hv&Hcp). destruct (Z.ltb_spec 0 (len - t)) as [Hlt|Hge]; cbn [negb].
      2:{ apply wp_ret. split; [done|]. by replace len with t by lia. }
      destruct (Hv ltac:(lia)) as [-> Hal]. set (k := (va + t) / 4096). set (o := (va + t) mod 4096).
      pose proof (Z.div_mod (va + t) 4096 ltac:(lia)) as Hdm. fold k o in Hdm.
      assert (Ho : 0 <= o < 4096) by (apply Z.mod_pos_bound; lia).
      destruct (Hur (va + t) ltac:(lia)) as [Hm Hu]. fold k in Hm, Hu.
      pose proof (cp_agree _ _ _ _ _ _ _ _ Hcp) as Hag. assert (Hm1 : mapped (mem s1) d k) by (by apply (agree_mapped (mem s))).
      rewrite pgrounddown_eq. fold k. apply wp_bind.
      apply (uva2ka_user kend s1 l d k); [apply Hcp|done| |].
      { rewrite (agree_entry (mem s)) by (done || apply upage_20, Hm). done. }
      destruct (sp_frame _ _ _ (vo_space _ _ _ _ (cp_ok _ _ _ _ _ _ _ _ Hcp)) k Hm1) as (Hfp&_&_&pg&Hpg&_).
      rewrite (proj2 (Z.eqb_neq _ 0)) by (by eapply page_nonzero).
      replace (va + t - 4096 * k) with o by lia. unfold PGSIZE. rewrite u32_small by lia.
      set (n := if len - t <? 4096 - o then len - t else 4096 - o).
      assert (Hn : 0 < n <= len - t /\ o + n <= 4096 /\ (n < len - t -> o + n = 4096)).
      { unfold n. destruct (Z.ltb_spec (len - t) (4096 - o)); lia. }
      apply wp_bind. eapply wp_ldpage; [done|]. apply wp_bind, wp_modify. apply wp_ret.
      assert (Hku : upage k) by apply Hm. unfold upage in Hku.
      rewrite (u32_small (4096 * k + 4096)) by lia. rewrite (u32_small (len - t - n)) by lia.
      assert (Hcp' : copied kend s l d va p (t + n)
        (mkK (freelist s1) (<[frame (mem s1) d k := splice o (take (Z.to_nat n) (drop (Z.to_nat t) p)) pg]> (mem s1)))).
      { rewrite <- (pgt_lookup _ _ _ Hpg). apply copied_step; try done; lia. }
      split.
      * exists (t + n). split_and!; [lia|lia|lia| |intros Hlt'; split; [lia|right]|done].
        -- rewrite drop_drop. f_equal. lia.
        -- replace (4096 * k + 4096) with ((k + 1) * 4096) by lia. by apply Z.mod_mul.
      * fold o. rewrite (decide_False (P := len - t = 0)) by lia.
        replace (4096 * k + 4096) with ((k + 1) * 4096) by lia. rewrite Z.mod_mul by lia.
        pose proof (Z.div_mod (o + (len - t) - 1) 4096 ltac:(lia)). pose proof (Z.mod_pos_bound (o + (len - t) - 1) 4096 ltac:(lia)).
        case_decide; [lia|]. pose proof (Z.div_mod (0 + (len - t - n) - 1) 4096 ltac:(lia)).
        pose proof (Z.mod_pos_bound (0 + (len - t - n) - 1) 4096 ltac:(lia)). lia.
  - intros Hpos Ht Hno. cbn [while]. apply wp_bind. rewrite (proj2 (Z.ltb_lt 0 len)) by done. cbn [negb].
    rewrite pgrounddown_eq. apply wp_bind. apply (uva2ka_deny kend s l d (va / 4096)); [done| |done|done|].
    { split; [apply Z.div_pos; lia|apply Z.div_lt_upper_bound; lia]. }
    by apply wp_ret.
Qed.

(** ** The kernel part and copies *)

(** The entry kmap asks for; the linker puts data at page [kd]. *)
Definition kpte (kd i : Z) : Z :=
  let e q p := Z.lor (Z.lor (4096 * q) p) PTE_P in
  if decide (0x80000 <= i < 0x80100) then e (i - 0x80000) PTE_W else
  if decide (0x80100 <= i < kd) then e (i - 0x80000) 0 else
  if decide (kd <= i < 0x8E000) then e (i - 0x80000) PTE_W else
  if decide (0xFE000 <= i < 0x100000) then e i PTE_W else 0.

Section setup.
Variables (kend kd : Z).
Hypothesis Hkd : 0x80100 < kd < 0x8E000.
Implicit Types (s : kmem) (l : list Z) (d v k : Z).

(** A directory without entries. *)
Lemma empty_dir s l d : free_list kend s (d :: l) ->
  forall s1, free_list kend s1 l -> mem s1 = mem s ->
  let s2 := mkK (freelist s1) (<[d := zero_page]> (mem s1)) in
  vm_ok kend s2 l d /\ (forall k, entry (mem s2) d k = 0) /\ missing (mem s2) d = 1024%nat /\
  (forall w, w <> d -> mem s2 !! w = mem s !! w /\ ~ used (mem s2) d w).
Proof.
  intros Hf s1 Hf1 Hm1 s2. pose proof (fl_pages _ _ _ Hf) as Hp. apply Forall_cons in Hp as [Hdp _].
  pose proof (fl_nodup _ _ _ Hf) as Hn. apply NoDup_cons in Hn as [Hdl _].
  assert (Hpde : forall i, pde (mem s2) d i = 0).
  { intros i. unfold pde, s2. cbn [mem]. rewrite pgt_insert, decide_True by done. apply rd4_zero. }
  assert (Hno : forall i, ~ has_tab (mem s2) d i) by (intros i [_ Hi]; by rewrite Hpde in Hi).
  assert (Hent : forall k, entry (mem s2) d k = 0) by (intros k; unfold entry; by rewrite Hpde).
  assert (Hnm : forall k, ~ mapped (mem s2) d k) by (intros k [_ Hk]; by rewrite Hent in Hk).
  assert (Hus : forall w, used (mem s2) d w -> w = d).
  { intros w [->|[(i&Hi&_)|(k&Hk&_)]]; [done|by destruct (Hno i)|by destruct (Hnm k)]. }
  split_and!.
  - split.
    + destruct Hf1 as [Hc Hn1 Hp1]. split; [|done..]. unfold s2. cbn [mem freelist]. by apply chain_frame.
    + split; [split; [done|]|..].
      * exists zero_page. unfold s2. cbn [mem]. rewrite lookup_insert_eq. split; [done|apply is_page_zero].
      * intros i Hi. by destruct (Hno i).
      * intros i j Hi. by destruct (Hno i).
      * intros k Hk. by destruct (Hnm k).
      * intros k j Hk. by destruct (Hnm k).
    + intros w Hw ->%Hus. done.
  - done.
  - unfold missing. rewrite filter_all; [by rewrite length_seqZ|]. intros i _. by rewrite Hpde.
  - intros w Hw. split; [unfold s2; cbn [mem]; by rewrite lookup_insert_ne, Hm1|]. by intros ?%Hus.
Qed.

(** One entry of kmap. *)
Definition mapped_so_far s0 l0 d (P : Z -> Prop) `{forall i, Decision (P i)} s l : Prop :=
  vm_ok kend s l d /\ (forall i, 0 <= i < 2 ^ 20 -> entry (mem s) d i = if decide (P i) then kpte kd i else 0) /\
  (forall w, ~ used (mem s0) d w -> (w ∉ l0) -> mem s !! w = mem s0 !! w /\ ~ used (mem s) d w) /\
  (missing (mem s) d <= length l)%nat /\ (length l0 + missing (mem s) d = length l + missing (mem s0) d)%nat /\
  (forall w, w ∈ l -> w ∈ l0).
Lemma kmap_step s0 l0 d (P : Z -> Prop) `{forall i, Decision (P i)} (P' : Z -> Prop) `{forall i, Decision (P' i)} s l k n q p :
  mapped_so_far s0 l0 d P s l -> 2 ^ 19 <= k -> 0 < n -> k + n <= 2 ^ 20 -> 0 <= q -> q + n <= 2 ^ 20 -> 0 <= p < 4096 ->
  (forall i, k <= i < k + n -> ~ P i /\ kpte kd i = Z.lor (Z.lor (4096 * (q + (i - k))) p) PTE_P) ->
  (forall i, P' i <-> P i \/ k <= i < k + n) ->
  wp (mappages d (4096 * k) (4096 * n) (4096 * q) p) noerr (fun r s' => r = 0 /\ exists l', mapped_so_far s0 l0 d P' s' l') s.
Proof.
  intros (Hok&Hent&Hoth&Hmis&Hcnt&Hsub) Hk Hn Hkn Hq Hqn Hp Hkp HP'.
  eapply wp_post; [apply (mappages_kernel kend s l d k n q p); try done|].
  - intros i Hi. rewrite Hent by lia. destruct (Hkp i Hi) as [HnP _]. by rewrite decide_False.
  - intros r s' (->&l'&Hok'&Hent'&Hoth'&Hmis'&Hcnt'&Hsub'). split; [done|]. exists l'. split_and!; [done| | |done| |].
    + intros i Hi. rewrite Hent' by done. destruct (decide (k <= i < k + n)) as [Hin|Hout].
      * rewrite decide_True by (apply HP'; by right). symmetry. by apply Hkp.
      * rewrite Hent by done. destruct (decide (P i)) as [HPi|HPi].
        -- rewrite decide_True by (apply HP'; by left). done.
        -- rewrite decide_False; [done|]. rewrite HP'. tauto.
    + intros w Hw Hwl. destruct (Hoth w Hw Hwl) as [H1 H2].
      destruct (Hoth' w H2) as [H3 H4]; [by intros Hin; apply Hwl, Hsub|]. split; [by rewrite H3|done].
    + lia.
    + intros w Hw. by apply Hsub, Hsub'.
Qed.

Ltac kp := unfold kpte, PTE_W; repeat first [rewrite decide_True by lia | rewrite decide_False by lia]; repeat f_equal; lia.
Lemma setupkvm_ok s d l : free_list kend s (d :: l) -> (1024 <= length l)%nat ->
  wp (setupkvm (4096 * kd)) noerr (fun r s' => r = d /\ exists l', vm_ok kend s' l' d /\
    (forall i, 0 <= i < 2 ^ 20 -> entry (mem s') d i = kpte kd i) /\
    (forall w, w <> d -> (w ∉ l) -> mem s' !! w = mem s !! w /\ ~ used (mem s') d w) /\
    (missing (mem s') d <= length l')%nat /\ (length l + missing (mem s') d = length l' + 1024)%nat /\
    (forall w, w ∈ l' -> w ∈ l)) s.
Proof using Hkd.
  intros Hf Hmem. unfold setupkvm. apply wp_bind. unfold wp at 1. destruct (kalloc_ok kend s _ Hf) as (s1&->&Hf1&Hm1).
  pose proof (fl_pages _ _ _ Hf) as Hp. apply Forall_cons in Hp as [Hdp _].
  rewrite (proj2 (Z.eqb_neq d 0)) by (by eapply page_nonzero). apply wp_bind, wp_modify.
  destruct (empty_dir s l d Hf s1 Hf1 Hm1) as (Hok&Hent&Hmis&Hoth). set (s2 := mkK _ _) in *.
  change (DEVSPACE <? p2v PHYSTOP) with false. cbv iota.
  assert (H0 : mapped_so_far s2 l d (fun _ => False) s2 l).
  { split_and!; [done| |done|lia|lia|done]. intros i _. rewrite Hent. by case_decide. }
  set (D := 4096 * kd).
  assert (Hv2p : v2p D = 4096 * (kd - 0x80000)) by (unfold v2p, D, KERNBASE; rewrite u32_small by lia; lia).
  set (body := fun i : Z => _). apply wp_bind.
  assert (Hbody : forall (i : Z) (k : kmap_entry) (s3 : kmem) (Q : option unit -> kmem -> Prop), kmap D !! Z.to_nat i = Some k -> 0 <= i < 4 ->
    wp (mappages d (virt k) (u32 (phys_end k - phys_start k)) (phys_start k) (perm k)) noerr (fun r s' => r = 0 /\ Q None s') s3 ->
    wp (body i) noerr Q s3).
  { intros i k s3 Q Hk Hi Hrun. unfold body. apply wp_bind.
    apply (wp_aget (H := populate (mkKmap 0 0 0 0))); [unfold kmap; simpl; lia|]. rewrite (list_lookup_total_correct _ _ _ Hk).
    apply wp_bind. eapply wp_post; [exact Hrun|]. intros r s4 [-> HQ]. by apply wp_ret. }
  change (length (kmap D)) with 4%nat. cbn [for_find].
  apply wp_bind. eapply Hbody; [done|lia|]. cbn [virt phys_start phys_end perm].
  change (mappages d KERNBASE (u32 (EXTMEM - 0)) 0 PTE_W) with (mappages d (4096 * 0x80000) (4096 * 0x100) (4096 * 0) PTE_W).
  eapply wp_post; [apply (kmap_step s2 l d (fun _ => False) (fun i => 0x80000 <= i < 0x80100) s2 l 0x80000 0x100 0 PTE_W); [done|lia..|unfold PTE_W; lia| |lia]|].
  { intros i Hi. split; [by intros []|]. kp. }
  intros r s3 (->&l3&H3). split; [done|].
  apply wp_bind. eapply Hbody; [done|lia|]. cbn [virt phys_start phys_end perm].
  change (v2p KERNLINK) with (4096 * 0x100). change KERNLINK with (4096 * 0x80100). rewrite Hv2p.
  replace (u32 (4096 * (kd - 524288) - 4096 * 256)) with (4096 * (kd - 0x80100)) by (rewrite u32_small by lia; lia).
  eapply wp_post; [apply (kmap_step s2 l d (fun i => 0x80000 <= i < 0x80100) (fun i => 0x80000 <= i < kd) s3 l3 0x80100 (kd - 0x80100) 0x100 0); [done|lia..| |lia]|].
  { intros i Hi. split; [lia|]. kp. }
  intros r s4 (->&l4&H4). split; [done|].
  apply wp_bind. eapply Hbody; [done|lia|]. cbn [virt phys_start phys_end perm]. rewrite Hv2p.
  change PHYSTOP with (4096 * 0xE000). replace (u32 (4096 * 57344 - 4096 * (kd - 524288))) with (4096 * (0x8E000 - kd)) by (rewrite u32_small by lia; lia).
  eapply wp_post; [apply (kmap_step s2 l d (fun i => 0x80000 <= i < kd) (fun i => 0x80000 <= i < 0x8E000) s4 l4 kd (0x8E000 - kd) (kd - 0x80000) PTE_W); [done|lia..|unfold PTE_W; lia| |lia]|].
  { intros i Hi. split; [lia|]. kp. }
  intros r s5 (->&l5&H5). split; [done|].
  apply wp_bind. eapply Hbody; [done|lia|]. cbn [virt phys_start phys_end perm].
  change (u32 (0 - DEVSPACE)) with (4096 * 0x2000). change DEVSPACE with (4096 * 0xFE000).
  eapply wp_post; [apply (kmap_step s2 l d (fun i => 0x80000 <= i < 0x8E000)
    (fun i => 0x80000 <= i < 0x8E000 \/ 0xFE000 <= i < 0x100000) s5 l5 0xFE000 0x2000 0xFE000 PTE_W); [done|lia..|unfold PTE_W; lia| |lia]|].
  { intros i Hi. split; [lia|]. kp. }
  intros r s6 (->&l6&Hok6&Hent6&Hoth6&Hmis6&Hcnt6&Hsub6). split; [done|]. apply wp_ret. apply wp_ret. split; [done|]. exists l6.
  split_and!; [done| | |done|lia|done].
  - intros i Hi. rewrite Hent6 by done. destruct (decide _) as [|Hno]; [done|]. unfold kpte.
    repeat (rewrite decide_False by lia). done.
  - intros w Hw Hwl. destruct (Hoth w Hw) as [Ha Hb]. destruct (Hoth6 w Hb Hwl) as [Hc Hd]. split; [by rewrite Hc|done].
Qed.
End setup.

(** [d] in [s'] is a copy of the first [n] pages of the space [pd] of [s]. *)
Record copy_of kend kd s pd n s' l' d : Prop := {
  co_child : vm_ok kend s' l' d;
  co_page : forall k, 0 <= k < n -> exists v, page_ok kend v /\
    maps_to (mem s') d k v (PTE_FLAGS (entry (mem s) pd k)) /\ mem s' !! v = mem s !! frame (mem s) pd k;
  co_rest : forall k, n <= k < 2 ^ 20 -> entry (mem s') d k = kpte kd k;
  co_parent : forall w, used (mem s) pd w -> mem s' !! w = mem s !! w /\ ~ used (mem s') d w /\ (w ∉ l') }.

Section copy.
Variables (kend kd : Z).
Hypothesis Hkd : 0x80100 < kd < 0x8E000.
Implicit Types (s : kmem) (l : list Z) (d pd v k : Z).

Lemma entry_bound m d k : space kend m d -> 0 <= k < 2 ^ 20 -> 0 <= entry m d k < 2 ^ 32.
Proof using.
  intros Hsp Hk. unfold entry. destruct (has (pde m d (k / 1024)) PTE_P) eqn:Hp; [|lia].
  destruct (sp_tab _ _ _ Hsp (k / 1024)) as (_&_&pg&Hpg&_&Hb); [split; [apply page_div, Hk|done]|].
  rewrite (pgt_lookup _ _ _ Hpg). by apply rd4_bound.
Qed.
(** A space whose pages are not touched. *)
Lemma vm_keep s l pd s' l' : vm_ok kend s l pd -> free_list kend s' l' ->
  (forall w, used (mem s) pd w -> mem s' !! w = mem s !! w /\ (w ∉ l')) ->
  vm_ok kend s' l' pd /\ agree (mem s) (mem s') pd.
Proof using.
  intros [Hfl Hsp Hap] Hfl' Hk. assert (Hag : agree (mem s) (mem s') pd).
  { split; [unfold pgt; rewrite (proj1 (Hk pd ltac:(by left))); done|]. intros i Hi. unfold pgt.
    rewrite (proj1 (Hk (tab (mem s) pd i) ltac:(right; left; eauto))). done. }
  split; [|done]. split; [done| |].
  - eapply agree_space; [done| |done]. intros w pg Hw Hpg Hp. exists pg. by rewrite (proj1 (Hk w Hw)).
  - intros w Hw Huw. apply (agree_used (mem s)) in Huw; [|done]. by destruct (Hk w Huw).
Qed.

Lemma copy_step s l pd j s1 l1 d : vm_ok kend s l pd -> copy_of kend kd s pd j s1 l1 d -> 0 <= j -> upage j ->
  mapped (mem s) pd j -> (missing (mem s1) d < length l1)%nat ->
  exists v s2, kalloc s1 = Ok v s2 /\ v <> 0 /\ mem s2 = mem s1 /\
  wp (stpage v (pgt (mem s) (frame (mem s) pd j));;
      mappages d (4096 * j) PGSIZE (v2p v) (PTE_FLAGS (entry (mem s) pd j))) noerr
    (fun r s' => r = 0 /\ exists l', copy_of kend kd s pd (j + 1) s' l' d /\
      (S (length l') + missing (mem s1) d = length l1 + missing (mem s') d)%nat) s2.
Proof using Hkd.
  intros Hpar [Hch Hpg Hrest Hp] Hj Hu Hm Hmem. set (e := entry (mem s) pd j).
  pose proof (entry_bound (mem s) pd j (vo_space _ _ _ _ Hpar) (upage_20 j Hu)) as Heb. fold e in Heb.
  assert (Hfl : 0 <= PTE_FLAGS e < 4096) by (rewrite pte_flags_eq by done; apply Z.mod_pos_bound; lia).
  destruct (sp_frame _ _ _ (vo_space _ _ _ _ Hpar) j Hm) as (_&_&_&pg&Hpgj&Hisp).
  rewrite (pgt_lookup _ _ _ Hpgj).
  assert (Hnp : has (entry (mem s1) d j) PTE_P = false).
  { rewrite Hrest by (pose proof (upage_20 j Hu); lia). unfold kpte, upage in *. repeat (rewrite decide_False by lia). done. }
  destruct (alloc_map kend s1 l1 d j pg (PTE_FLAGS e) Hch Hu Hnp Hfl Hisp Hmem) as (v&s2&l2&Hk&Hv0&Hvp&Hl1&Hm2&Hrun).
  exists v, s2. split_and!; [done..|]. eapply wp_post; [exact Hrun|].
  intros r s' (->&l'&Hok'&Hent'&Hv'&Hoth'&Hfr'&Hc'&Hsub'). split; [done|]. exists l'. split; [|done].
  split.
  - done.
  - intros k Hk'. destruct (decide (k = j)) as [->|Hne].
    + exists v. split_and!; [done| |by rewrite Hv', Hpgj]. unfold maps_to. by rewrite Hent', decide_True by (done || by apply upage_20).
    + destruct (Hpg k ltac:(lia)) as (w&Hw&Hmt&Hsame). exists w.
      assert (Huk : upage k) by (unfold upage in *; lia).
      assert (Hfk : 0 <= PTE_FLAGS (entry (mem s) pd k) < 4096).
      { rewrite pte_flags_eq by (apply entry_bound; [apply Hpar|by apply upage_20]). apply Z.mod_pos_bound. lia. }
      destruct (maps_to_frame kend _ _ _ _ _ Huk Hw Hfk Hmt) as (Hmk&Hfr&_).
      split_and!; [done| |].
      * unfold maps_to. by rewrite Hent', decide_False by (done || by apply upage_20).
      * pose proof (Hfr' k Hmk) as Hs'. rewrite Hfr in Hs'. by rewrite Hs'.
  - intros k Hk'. rewrite Hent', decide_False by lia. apply Hrest. lia.
  - intros w Hw. destruct (Hp w Hw) as (H1&H2&H3). destruct (Hoth' w H2 H3) as [H4 H5].
    split_and!; [by rewrite H4|done|]. intros Hin. by apply H3, Hsub'.
Qed.
End copy.

(** C20. fork's copy of an address space.  With memory for it, copyuvm returns a
    new directory whose first pages are copies: each in a frame of its own,
    with the same bytes and permissions; above them there is only the
    kernel's part.  The parent keeps every byte, and no page belongs to
    both. *)
Theorem copyuvm_correct kend kd s l pd d sz :
  0x80100 < kd < 0x8E000 -> vm_ok kend s (d :: l) pd -> 0 <= sz <= KERNBASE ->
  (forall k, 0 <= k < pages sz -> mapped (mem s) pd k) -> 1024 + pages sz <= Z.of_nat (length l) ->
  wp (copyuvm kend (4096 * kd) pd sz) noerr (fun r s' => r = d /\ exists l', copy_of kend kd s pd (pages sz) s' l' d) s.
Proof.
  intros Hkd Hpar Hsz Hmap Hmem. destruct (pages_up sz Hsz) as [_ Hn]. set (n := pages sz) in *.
  unfold copyuvm. apply wp_bind. eapply wp_post; [eapply (setupkvm_ok kend kd Hkd s d l); [apply Hpar|lia]|].
  intros r s0 (->&l0&Hok0&Hent0&Hoth0&Hmis0&Hcnt0&Hsub0).
  assert (Hdp : page_ok kend d).
  { pose proof (fl_pages _ _ _ (vo_free _ _ _ _ Hpar)) as Hp. by apply Forall_cons in Hp as [Hp _]. }
  rewrite (proj2 (Z.eqb_neq d 0)) by (by eapply page_nonzero).
  assert (Hc0 : copy_of kend kd s pd 0 s0 l0 d).
  { split; [done|lia|intros k Hk; apply Hent0; lia|]. intros w Hw.
    assert (Hwl : w ∉ d :: l) by (intros Hin; by apply (vo_apart _ _ _ _ Hpar w)).
    apply not_elem_of_cons in Hwl as [Hwd Hwl]. destruct (Hoth0 w Hwd Hwl) as [H1 H2]. split_and!; [done..|].
    intros Hin. by apply Hwl, Hsub0. }
  apply wp_bind. apply (wp_while (fun i s1 => exists j l1, 0 <= j <= n /\ i = 4096 * j /\ copy_of kend kd s pd j s1 l1 d /\
      Z.of_nat (missing (mem s1) d) + (n - j) <= Z.of_nat (length l1)) (fun i => Z.to_nat (n - i / 4096))).
  - exists 0, l0. split_and!; [lia|lia|lia|done|lia].
  - change (0 / 4096) with 0. unfold n, pages, PGSIZE. pose proof (Z.div_mod (sz + 4095) 4096 ltac:(lia)).
    pose proof (Z.div_mod sz 4096 ltac:(lia)). pose proof (Z.mod_pos_bound sz 4096 ltac:(lia)).
    pose proof (Z.mod_pos_bound (sz + 4095) 4096 ltac:(lia)). lia.
  - intros i s1 (j&l1&Hj&->&Hc&Hm1). destruct (Z.ltb_spec (4096 * j) sz) as [Hlt|Hge]; cbn [negb].
    + apply pages_lt in Hlt. fold n in Hlt. assert (Huj : upage j) by (unfold upage; lia). pose proof (Hmap j ltac:(lia)) as Hmj.
      destruct (vm_keep kend s (d :: l) pd s1 l1 Hpar (vo_free _ _ _ _ (co_child _ _ _ _ _ _ _ _ Hc))) as [Hpar1 Hag].
      { intros w Hw. destruct (co_parent _ _ _ _ _ _ _ _ Hc w Hw) as (H1&_&H3). done. }
      assert (Hent1 : entry (mem s1) pd j = entry (mem s) pd j) by (apply agree_entry; [done|by apply upage_20]).
      destruct (page_div j (upage_20 j Huj)) as [Hj1 Hj2].
      assert (Ht : has_tab (mem s1) pd (j / 1024)).
      { split; [done|]. destruct Hmj as [_ Hp]. rewrite <- Hent1 in Hp. unfold entry in Hp. by destruct (has (pde (mem s1) pd (j / 1024)) PTE_P). }
      apply wp_bind. replace (4096 * j) with (4096 * j + 0) at 1 by lia.
      apply (wp_walk kend s1 l1 pd j 0); [done|by apply upage_20|lia| |done]. intros _.
      destruct (sp_tab _ _ _ (vo_space _ _ _ _ Hpar1) _ Ht) as (Hpk&_&pg&Hpg&_).
      rewrite (proj2 (Z.eqb_neq _ 0)) by (unfold page_ok, KERNBASE in Hpk; lia).
      apply wp_bind. eapply wp_ld32; [apply Hpk|lia|done|].
      assert (Hold : rd 4 (4 * (j mod 1024)) pg = entry (mem s) pd j).
      { rewrite <- Hent1. unfold entry. destruct Ht as [_ ->]. by rewrite (pgt_lookup _ _ _ Hpg). }
      rewrite Hold. destruct Hmj as [Hu Hp] eqn:Hmje. rewrite Hp. cbn [negb]. cbv zeta.
      destruct (copy_step kend kd Hkd s (d :: l) pd j s1 l1 d Hpar Hc ltac:(lia) Hu Hmj ltac:(lia)) as (v&s2&Hk&Hv0&Hm2&Hrun).
      apply wp_bind. unfold wp at 1. rewrite Hk, (proj2 (Z.eqb_neq v 0)) by done.
      fold (frame (mem s) pd j). destruct (sp_frame _ _ _ (vo_space _ _ _ _ Hpar) j Hmj) as (_&_&_&pgf&Hpgf&_).
      apply wp_bind. eapply (wp_ldpage _ _ pgf).
      { rewrite Hm2. rewrite (proj1 (co_parent _ _ _ _ _ _ _ _ Hc (frame (mem s) pd j) ltac:(right; right; eauto))). done. }
      rewrite (pgt_lookup _ _ _ Hpgf) in Hrun.
      eapply wp_seq2; [exact Hrun|]. intros r s' (->&l'&Hc'&Hcnt). change (0 <? 0) with false. cbv iota. apply wp_ret.
      unfold PGSIZE, KERNBASE in *. rewrite u32_small by lia. replace (4096 * j + 4096) with (4096 * (j + 1)) by lia.
      split; [|rewrite !div_4096; lia]. exists (j + 1), l'. split_and!; [lia|lia|done|done|lia].
    + apply wp_ret. apply wp_ret. split; [done|]. exists l1. assert (j = n) as <-; [|done].
      pose proof (pages_lt sz j) as Hl. fold n in Hl. lia.
Qed.

(** ** The theorems on address spaces at a concrete memory: four thousand free
    pages after the kernel, a directory, and a space of two pages. *)
(** The state a run ends in. *)
Definition end_state {A} (r : result kmem A) : kmem := match r with Ok _ s => s | Fail _ => k_empty end.
Lemma wp_end {A} (m : K kmem A) (Q : A -> kmem -> Prop) s : wp m noerr Q s -> exists a, m s = Ok a (end_state (m s)) /\ Q a (end_state (m s)).
Proof. unfold wp. destruct (m s) as [a s'|e]; simpl; [eauto|by intros []]. Qed.

Definition d_top : Z := k_base + 4096 * 4000.
Definition d_free : kmem := end_state (freerange k_end k_end d_top k_empty).
Definition d_dir : Z := k_base + 4096 * 3999.
Definition d_list : list Z := rev (range_pages k_base (Z.to_nat 3999)).
Lemma d_page k : 0 <= k < 4000 -> page_ok k_end (k_base + PGSIZE * k).
Proof.
  intros Hk. unfold page_ok, PGSIZE, k_end, k_base, KERNBASE, PHYSTOP. split_and!; [|lia..].
  replace (0x80000000 + 0x101000 + 4096 * k) with ((0x80101 + k) * 4096) by lia. apply Z.mod_mul. lia.
Qed.
Lemma d_free_ok : free_list k_end d_free (d_dir :: d_list).
Proof.
  assert (Hp : PGROUNDUP k_end = k_base) by by vm_compute.
  destruct (wp_end _ _ _ (freerange_ok k_end k_empty [] k_end (S (Z.to_nat 3999)) ltac:(by split; [|constructor|])
    ltac:(rewrite Hp; intros v (k&Hk&->)%range_pages_elem; split; [apply d_page; lia|by apply not_elem_of_nil])
    d_top ltac:(by vm_compute))) as (a&_&H).
  rewrite Hp, range_pages_S, rev_app_distr, app_nil_r in H. rewrite Z2Nat.id in H by lia. exact H.
Qed.
Lemma d_list_length : length d_list = Z.to_nat 3999.
Proof. unfold d_list, range_pages. rewrite length_rev, length_map, length_seqZ. lia. Qed.

(** The directory, with no entries. *)
Definition d_zero : kmem := end_state ((d <- kalloc;; stpage d zero_page) d_free).
Lemma d_zero_ok : vm_ok k_end d_zero d_list d_dir /\ (forall k, entry (mem d_zero) d_dir k = 0) /\ missing (mem d_zero) d_dir = 1024%nat.
Proof.
  destruct (kalloc_ok k_end d_free _ d_free_ok) as (s1&Hk&Hf1&Hm1).
  assert (Hz : d_zero = mkK (freelist s1) (<[d_dir := zero_page]> (mem s1))).
  { unfold d_zero. unfold bind. rewrite Hk. exact eq_refl. }
  destruct (empty_dir k_end d_free d_list d_dir d_free_ok s1 Hf1 Hm1) as (H1&H2&H3&_).
  rewrite Hz. exact (conj H1 (conj H2 H3)).
Qed.
Lemma allocuvm_correct_witness :
  wp (allocuvm k_end d_dir 0 8192) noerr (fun r s' => r = 8192 /\ exists l',
    added k_end d_zero d_list d_dir 0 2 s' l') d_zero.
Proof.
  destruct d_zero_ok as (Hok&Hent&Hmis).
  refine (proj1 (allocuvm_correct k_end d_zero d_list d_dir 0 8192) Hok _ _ _ _).
  - lia.
  - by vm_compute.
  - intros k _. by rewrite Hent.
  - rewrite Hmis, d_list_length. by vm_compute.
Defined.

(** The space of two pages. *)
Definition d_user : kmem := end_state (allocuvm k_end d_dir 0 8192 d_zero).
Lemma d_user_ok : exists l, added k_end d_zero d_list d_dir 0 2 d_user l.
Proof.
  destruct d_zero_ok as (Hok&Hent&Hmis).
  destruct (wp_end _ _ _ (allocuvm_ok k_end d_zero d_list d_dir 0 8192 Hok ltac:(lia) ltac:(by vm_compute)
    ltac:(intros k _; by rewrite Hent) ltac:(rewrite Hmis, d_list_length; by vm_compute))) as (a&_&_&l&H).
  exists l. exact H.
Qed.
Lemma d_user_mapped k : 0 <= k < 2 -> mapped (mem d_user) d_dir k /\ has (entry (mem d_user) d_dir k) PTE_U = true.
Proof.
  intros Hk. destruct d_user_ok as (l&H). destruct (ad_new _ _ _ _ _ _ _ _ H k ltac:(lia)) as (v&Hv&He&_).
  destruct (maps_to_frame k_end (mem d_user) d_dir k v 6 ltac:(unfold upage; lia) Hv ltac:(lia) He) as (Hm&_&Hf).
  split; [exact Hm|]. unfold has. apply negb_true_iff, Z.eqb_neq. intros H0.
  assert (Hb : Z.testbit (Z.land (entry (mem d_user) d_dir k) PTE_U) 2 = true).
  { rewrite He. unfold PTE_P, PTE_U. rewrite Z.land_spec, !Z.lor_spec. by rewrite orb_true_r. }
  rewrite H0 in Hb. discriminate.
Qed.
Lemma copyout_correct_witness : exists l,
  wp (copyout d_dir 4090 [7; 8; 9; 10; 11; 12; 13; 14] 8) noerr
    (fun r s' => r = 0 /\ copied k_end d_user l d_dir 4090 [7; 8; 9; 10; 11; 12; 13; 14] 8 s') d_user.
Proof.
  destruct d_user_ok as (l&H). exists l.
  refine (proj1 (copyout_correct k_end d_user l d_dir 4090 [7; 8; 9; 10; 11; 12; 13; 14] 8 (ad_ok _ _ _ _ _ _ _ _ H) _ _ _ _) _).
  - lia.
  - simpl; lia.
  - by vm_compute.
  - apply (bool_decide_unpack _). by vm_compute.
  - intros a Ha. apply d_user_mapped. split; [apply Z.div_pos; lia|apply Z.div_lt_upper_bound; lia].
Defined.
Lemma copyuvm_correct_witness : exists d l,
  wp (copyuvm k_end (4096 * 0x80103) d_dir 8192) noerr
    (fun r s' => r = d /\ exists l', copy_of k_end 0x80103 d_user d_dir 2 s' l' d) d_user /\ vm_ok k_end d_user (d :: l) d_dir.
Proof.
  destruct d_user_ok as (l&H). destruct d_zero_ok as (_&_&Hmis).
  pose proof (ad_count _ _ _ _ _ _ _ _ H) as Hc. rewrite Hmis, d_list_length in Hc.
  destruct l as [|d l]; cbn [length] in Hc; [lia|]. exists d, l. split; [|exact (ad_ok _ _ _ _ _ _ _ _ H)].
  refine (copyuvm_correct k_end 0x80103 d_user l d_dir d 8192 _ (ad_ok _ _ _ _ _ _ _ _ H) _ _ _).
  - lia.
  - unfold KERNBASE. lia.
  - intros k Hk. change (pages 8192) with 2 in Hk. exact (proj1 (d_user_mapped k Hk)).
  - change (pages 8192) with 2. lia.
Defined.
