(* ===== verification/Proc.v ===== *)
(** proc.c: the process table, sleeping and waking, the life of a process
    from allocproc to wait, and the scheduler.

    The operations here are the ones on the table itself, each the code
    between acquire and release of ptable.lock, where a processor has the
    table to itself; Kern composes them with memory and files into fork,
    exit, wait and the rest.  A pointer to a process is its index. *)
From S2P Require Import Prelude Params.

Inductive procstate := UNUSED | EMBRYO | SLEEPING | RUNNABLE | RUNNING | ZOMBIE.
#[export] Instance procstate_eq : EqDecision procstate.
Proof. solve_decision. Defined.

(** x86.h: what a trap saves of the user's registers. *)
Record trapframe := mkTf {
  tf_edi : Z; tf_esi : Z; tf_ebp : Z; tf_oesp : Z; tf_ebx : Z; tf_edx : Z; tf_ecx : Z; tf_eax : Z;
  tf_gs : Z; tf_fs : Z; tf_es : Z; tf_ds : Z; tf_trapno : Z;
  tf_err : Z; tf_eip : Z; tf_cs : Z; tf_eflags : Z; tf_esp : Z; tf_ss : Z }.
Definition zero_tf : trapframe := mkTf 0 0 0 0 0 0 0 0 0 0 0 0 0 0 0 0 0 0 0.
Definition set_eax (v : Z) (t : trapframe) : trapframe :=
  mkTf (tf_edi t) (tf_esi t) (tf_ebp t) (tf_oesp t) (tf_ebx t) (tf_edx t) (tf_ecx t) v
    (tf_gs t) (tf_fs t) (tf_es t) (tf_ds t) (tf_trapno t)
    (tf_err t) (tf_eip t) (tf_cs t) (tf_eflags t) (tf_esp t) (tf_ss t).
Definition set_eip_esp (eip esp : Z) (t : trapframe) : trapframe :=
  mkTf (tf_edi t) (tf_esi t) (tf_ebp t) (tf_oesp t) (tf_ebx t) (tf_edx t) (tf_ecx t) (tf_eax t)
    (tf_gs t) (tf_fs t) (tf_es t) (tf_ds t) (tf_trapno t)
    (tf_err t) eip (tf_cs t) (tf_eflags t) esp (tf_ss t).

(** proc.h: struct proc.  [p_chan] is 0 when it is [None], as [p_parent]
    and [p_cwd] are. *)
Record proc := mkProc {
  p_sz : Z; p_pgdir : Z; p_kstack : Z; p_state : procstate; p_pid : Z; p_parent : option nat;
  p_tf : trapframe; p_ctx : Z; p_chan : option chan; p_killed : bool;
  p_ofile : list (option nat); p_cwd : option nat; p_name : list Z }.
Definition zero_proc : proc :=
  mkProc 0 0 0 UNUSED 0 None zero_tf 0 None false (replicate NOFILE None) None (replicate 16 0).
#[export] Instance proc_inhabited : Inhabited proc := populate zero_proc.

Definition set_state st p := mkProc (p_sz p) (p_pgdir p) (p_kstack p) st (p_pid p) (p_parent p)
  (p_tf p) (p_ctx p) (p_chan p) (p_killed p) (p_ofile p) (p_cwd p) (p_name p).
Definition set_pid v p := mkProc (p_sz p) (p_pgdir p) (p_kstack p) (p_state p) v (p_parent p)
  (p_tf p) (p_ctx p) (p_chan p) (p_killed p) (p_ofile p) (p_cwd p) (p_name p).
Definition set_parent v p := mkProc (p_sz p) (p_pgdir p) (p_kstack p) (p_state p) (p_pid p) v
  (p_tf p) (p_ctx p) (p_chan p) (p_killed p) (p_ofile p) (p_cwd p) (p_name p).
Definition set_chan v p := mkProc (p_sz p) (p_pgdir p) (p_kstack p) (p_state p) (p_pid p) (p_parent p)
  (p_tf p) (p_ctx p) v (p_killed p) (p_ofile p) (p_cwd p) (p_name p).
Definition set_killed v p := mkProc (p_sz p) (p_pgdir p) (p_kstack p) (p_state p) (p_pid p) (p_parent p)
  (p_tf p) (p_ctx p) (p_chan p) v (p_ofile p) (p_cwd p) (p_name p).
Definition set_kstack v p := mkProc (p_sz p) (p_pgdir p) v (p_state p) (p_pid p) (p_parent p)
  (p_tf p) (p_ctx p) (p_chan p) (p_killed p) (p_ofile p) (p_cwd p) (p_name p).
Definition set_mem sz pgdir p := mkProc sz pgdir (p_kstack p) (p_state p) (p_pid p) (p_parent p)
  (p_tf p) (p_ctx p) (p_chan p) (p_killed p) (p_ofile p) (p_cwd p) (p_name p).
Definition set_tf v p := mkProc (p_sz p) (p_pgdir p) (p_kstack p) (p_state p) (p_pid p) (p_parent p)
  v (p_ctx p) (p_chan p) (p_killed p) (p_ofile p) (p_cwd p) (p_name p).
Definition set_ctx v p := mkProc (p_sz p) (p_pgdir p) (p_kstack p) (p_state p) (p_pid p) (p_parent p)
  (p_tf p) v (p_chan p) (p_killed p) (p_ofile p) (p_cwd p) (p_name p).
Definition set_ofile v p := mkProc (p_sz p) (p_pgdir p) (p_kstack p) (p_state p) (p_pid p) (p_parent p)
  (p_tf p) (p_ctx p) (p_chan p) (p_killed p) v (p_cwd p) (p_name p).
Definition set_cwd v p := mkProc (p_sz p) (p_pgdir p) (p_kstack p) (p_state p) (p_pid p) (p_parent p)
  (p_tf p) (p_ctx p) (p_chan p) (p_killed p) (p_ofile p) v (p_name p).
Definition set_name v p := mkProc (p_sz p) (p_pgdir p) (p_kstack p) (p_state p) (p_pid p) (p_parent p)
  (p_tf p) (p_ctx p) (p_chan p) (p_killed p) (p_ofile p) (p_cwd p) v.

(** ** Operations on the table *)

(** allocproc: the first UNUSED process becomes EMBRYO with the next pid. *)
Definition find_unused (t : list proc) : option nat :=
  fst <$> list_find (fun p => p_state p = UNUSED) t.
Definition take_slot (i : nat) (pid : Z) (t : list proc) : list proc :=
  alter (fun p => set_pid pid (set_state EMBRYO p)) i t.

(** SLEEPING on [c] becomes RUNNABLE. *)
Definition wakeup1 (c : option chan) (t : list proc) : list proc :=
  map (fun p => if decide (p_state p = SLEEPING /\ p_chan p = c) then set_state RUNNABLE p else p) t.

(** The first process with the pid; its index tells success. *)
Definition kill (pid : Z) (t : list proc) : option (list proc) :=
  match list_find (fun p => p_pid p = pid) t with
  | Some (i, _) => Some (alter (fun p =>
      let p := set_killed true p in
      if decide (p_state p = SLEEPING) then set_state RUNNABLE p else p) i t)
  | None => None
  end.

(** exit, under the lock: wake the parent, pass the children to init, become
    ZOMBIE. *)
Fixpoint reparent (me init : nat) (n i : nat) (t : list proc) : list proc :=
  match n with
  | O => t
  | S n =>
      reparent me init n (S i)
        (match t !! i with
         | Some p =>
             if decide (p_parent p = Some me) then
               let t := <[i := set_parent (Some init) p]> t in
               if decide (p_state p = ZOMBIE) then wakeup1 (Some (ChProc init)) t else t
             else t
         | None => t
         end)
  end.
Definition exit_table (me init : nat) (t : list proc) : list proc :=
  let t := wakeup1 (ChProc <$> (t !! me ≫= p_parent)) t in
  let t := reparent me init (length t) 0 t in
  alter (set_state ZOMBIE) me t.

(** wait, one scan of the table. *)
Inductive scan := Reap (i : nat) | HaveKids | NoKids.
Fixpoint wait_scan (me i : nat) (t : list proc) (havekids : bool) : scan :=
  match t with
  | [] => if havekids then HaveKids else NoKids
  | p :: t =>
      if decide (p_parent p = Some me) then
        if decide (p_state p = ZOMBIE) then Reap i else wait_scan me (S i) t true
      else wait_scan me (S i) t havekids
  end.
Definition reap (p : proc) : proc :=
  set_killed false (set_name (<[0%nat := 0]> (p_name p)) (set_parent None (set_pid 0 (set_state UNUSED (set_kstack 0 p))))).

(** sleep, up to sched, and what it does when it has the processor again. *)
Definition sleep_table (me : nat) (c : option chan) (t : list proc) : list proc :=
  alter (fun p => set_state SLEEPING (set_chan c p)) me t.
Definition sleep_tidy (me : nat) (t : list proc) : list proc := alter (set_chan None) me t.
Definition yield_table (me : nat) (t : list proc) : list proc := alter (set_state RUNNABLE) me t.

(** scheduler: from position [pos] of its loop, the next process it runs. *)
Definition next_runnable (pos : nat) (t : list proc) : option nat :=
  (fun '(i, _) => (pos + i)%nat) <$> list_find (fun p => p_state p = RUNNABLE) (drop pos t).
