(* ===== verification/ProcSys.v ===== *)
(** The processes and processors as a system of atomic steps, and what holds
    in every state it reaches.

    A step is one critical section of ptable.lock, or one assignment that
    fork makes outside it.  [kpos] says where in fork or wait a process is;
    whatever else processes and interrupts do reaches the table through
    yield, sleep, wakeup and kill, which may happen at any time.  Pids are
    followed until nextpid would overflow. *)
From S2P Require Import Prelude Params Proc.

(** fork has taken slot [np]; [linked] once it has set the child's parent. *)
Inductive kpos := User | Forking (np : nat) (linked : bool) | Waiting.
#[export] Instance kpos_inhabited : Inhabited kpos := populate User.
(** A processor: the process it runs, or the position of its scheduler. *)
Record sched_cpu := mkSc { sc_proc : option nat; sc_pos : nat }.
Record psys := mkPs { ps_t : list proc; ps_k : list kpos; ps_c : list sched_cpu; ps_next : Z }.

Definition init_slot : nat := 0.
Inductive event := Sched (c : nat) | Other.
#[export] Instance event_eq : EqDecision event.
Proof. solve_decision. Defined.
Inductive pstep : event -> psys -> psys -> Prop :=
  | Pick t ks cs next c pos i :
      cs !! c = Some (mkSc None pos) -> next_runnable pos t = Some i ->
      pstep (Sched c) (mkPs t ks cs next)
        (mkPs (sleep_tidy i (alter (set_state RUNNING) i t)) ks (<[c := mkSc (Some i) (S i)]> cs) next)
  | Pass t ks cs next c pos :
      cs !! c = Some (mkSc None pos) -> next_runnable pos t = None ->
      pstep (Sched c) (mkPs t ks cs next) (mkPs t ks (<[c := mkSc None 0]> cs) next)
  | Yield t ks cs next c i pos :
      cs !! c = Some (mkSc (Some i) pos) ->
      pstep Other (mkPs t ks cs next) (mkPs (yield_table i t) ks (<[c := mkSc None pos]> cs) next)
  | SleepOn t ks cs next c i pos ch :
      cs !! c = Some (mkSc (Some i) pos) -> ks !!! i = User -> (forall q, ch <> ChProc q) ->
      pstep Other (mkPs t ks cs next) (mkPs (sleep_table i (Some ch) t) ks (<[c := mkSc None pos]> cs) next)
  | Wakeup t ks cs next ch :
      pstep Other (mkPs t ks cs next) (mkPs (wakeup1 (Some ch) t) ks cs next)
  | Kill t t' ks cs next pid :
      kill pid t = Some t' -> pstep Other (mkPs t ks cs next) (mkPs t' ks cs next)
  | ForkTake t ks cs next c i pos np :
      cs !! c = Some (mkSc (Some i) pos) -> ks !!! i = User -> find_unused t = Some np -> next < 2 ^ 31 - 1 ->
      pstep Other (mkPs t ks cs next) (mkPs (take_slot np next t) (<[i := Forking np false]> ks) cs (next + 1))
  | ForkFail t ks cs next c i pos np :
      cs !! c = Some (mkSc (Some i) pos) -> ks !!! i = Forking np false ->
      pstep Other (mkPs t ks cs next) (mkPs (alter (fun p => set_state UNUSED (set_kstack 0 p)) np t) (<[i := User]> ks) cs next)
  | ForkLink t ks cs next c i pos np :
      cs !! c = Some (mkSc (Some i) pos) -> ks !!! i = Forking np false ->
      pstep Other (mkPs t ks cs next) (mkPs (alter (set_parent (Some i)) np t) (<[i := Forking np true]> ks) cs next)
  | ForkGo t ks cs next c i pos np :
      cs !! c = Some (mkSc (Some i) pos) -> ks !!! i = Forking np true ->
      pstep Other (mkPs t ks cs next) (mkPs (alter (set_state RUNNABLE) np t) (<[i := User]> ks) cs next)
  | Exit t ks cs next c i pos :
      cs !! c = Some (mkSc (Some i) pos) -> ks !!! i = User -> i <> init_slot ->
      pstep Other (mkPs t ks cs next) (mkPs (exit_table i init_slot t) ks (<[c := mkSc None pos]> cs) next)
  | WaitReap t ks cs next c i pos j :
      cs !! c = Some (mkSc (Some i) pos) -> (ks !!! i = User \/ ks !!! i = Waiting) ->
      wait_scan i 0 t false = Reap j ->
      pstep Other (mkPs t ks cs next) (mkPs (alter reap j t) (<[i := User]> ks) cs next)
  | WaitNone t ks cs next c i pos :
      cs !! c = Some (mkSc (Some i) pos) -> (ks !!! i = User \/ ks !!! i = Waiting) ->
      (forall j, wait_scan i 0 t false <> Reap j) ->
      (wait_scan i 0 t false = NoKids \/ p_killed (t !!! i) = true) ->
      pstep Other (mkPs t ks cs next) (mkPs t (<[i := User]> ks) cs next)
  | WaitSleep t ks cs next c i pos :
      cs !! c = Some (mkSc (Some i) pos) -> (ks !!! i = User \/ ks !!! i = Waiting) ->
      wait_scan i 0 t false = HaveKids -> p_killed (t !!! i) = false ->
      pstep Other (mkPs t ks cs next)
        (mkPs (sleep_table i (Some (ChProc i)) t) (<[i := Waiting]> ks) (<[c := mkSc None pos]> cs) next).

(** After userinit: the first process, and idle processors. *)
Definition ps_start (ncpu : nat) : psys :=
  mkPs (<[init_slot := set_state RUNNABLE (set_pid 1 zero_proc)]> (replicate NPROC zero_proc))
    (replicate NPROC User) (replicate ncpu (mkSc None 0)) 2.
Definition pexec (s s' : psys) : Prop := exists e, pstep e s s'.

(** ** The operations, index by index *)
Section views.
Implicit Types (t : list proc) (i j : nat).

Lemma alter_total {A} `{Inhabited A} (f : A -> A) i (l : list A) j :
  (i < length l)%nat -> alter f i l !!! j = if decide (i = j) then f (l !!! j) else l !!! j.
Proof.
  intros Hi. destruct (decide (i = j)) as [<-|Hne]; [by apply list_lookup_total_alter_eq|by apply list_lookup_total_alter_ne].
Qed.
Lemma insert_total {A} `{Inhabited A} (x : A) i (l : list A) j :
  (i < length l)%nat -> <[i := x]> l !!! j = if decide (i = j) then x else l !!! j.
Proof.
  intros Hi. destruct (decide (i = j)) as [<-|Hne]; [by apply list_lookup_total_insert_eq|by apply list_lookup_total_insert_ne].
Qed.
Lemma total_in t i : (i < length t)%nat -> t !! i = Some (t !!! i).
Proof. intros. by apply list_lookup_lookup_total_lt. Qed.
Lemma total_out t i : (length t <= i)%nat -> t !!! i = zero_proc.
Proof. intros. rewrite list_lookup_total_alt, lookup_ge_None_2 by done. done. Qed.
Lemma state_in t i : p_state (t !!! i) <> UNUSED -> (i < length t)%nat.
Proof. intros H. destruct (decide (i < length t)%nat); [done|]. by rewrite total_out in H by lia. Qed.
Lemma parent_in t i q : p_parent (t !!! i) = Some q -> (i < length t)%nat.
Proof. intros H. destruct (decide (i < length t)%nat); [done|]. by rewrite total_out in H by lia. Qed.

Definition woken (c : option chan) (p : proc) : proc :=
  if decide (p_state p = SLEEPING /\ p_chan p = c) then set_state RUNNABLE p else p.
Lemma wakeup1_total c t j : wakeup1 c t !!! j = woken c (t !!! j).
Proof.
  unfold wakeup1. destruct (decide (j < length t)%nat) as [Hj|Hj].
  - apply list_lookup_total_correct. rewrite list_lookup_fmap, total_in by done. done.
  - rewrite !total_out by (rewrite ?length_map; lia). unfold woken. by rewrite decide_False by (intros [? _]; done).
Qed.
Lemma length_wakeup1 c t : length (wakeup1 c t) = length t.
Proof. apply length_map. Qed.
Lemma woken_parent c p : p_parent (woken c p) = p_parent p.
Proof. unfold woken. by case_decide. Qed.
Lemma woken_chan c p : p_chan (woken c p) = p_chan p.
Proof. unfold woken. by case_decide. Qed.
Lemma woken_pid c p : p_pid (woken c p) = p_pid p.
Proof. unfold woken. by case_decide. Qed.
Lemma woken_killed c p : p_killed (woken c p) = p_killed p.
Proof. unfold woken. by case_decide. Qed.
Lemma woken_state c p :
  (p_state p = SLEEPING /\ p_chan p = c /\ p_state (woken c p) = RUNNABLE) \/
  (~ (p_state p = SLEEPING /\ p_chan p = c) /\ p_state (woken c p) = p_state p).
Proof. unfold woken. case_decide; naive_solver. Qed.

Lemma find_unused_spec t np : find_unused t = Some np -> (np < length t)%nat /\ p_state (t !!! np) = UNUSED.
Proof.
  unfold find_unused. destruct (list_find _ t) as [[i p]|] eqn:Hf; simpl; [|done]. intros [= <-].
  apply list_find_Some in Hf as (Hp&Hs&_). split; [by eapply lookup_lt_Some|]. by rewrite (list_lookup_total_correct _ _ _ Hp).
Qed.
Lemma next_runnable_spec pos t i : next_runnable pos t = Some i ->
  (pos <= i < length t)%nat /\ p_state (t !!! i) = RUNNABLE /\ forall j, (pos <= j < i)%nat -> p_state (t !!! j) <> RUNNABLE.
Proof.
  unfold next_runnable. destruct (list_find _ _) as [[k p]|] eqn:Hf; simpl; [|done]. intros [= <-].
  apply list_find_Some in Hf as (Hp&Hs&Hb). rewrite lookup_drop in Hp. pose proof (lookup_lt_Some _ _ _ Hp). split_and!; [lia|lia| |].
  - by rewrite (list_lookup_total_correct _ _ _ Hp).
  - intros j Hj. apply (Hb (j - pos)%nat (t !!! j)); [|lia]. rewrite lookup_drop. replace (pos + (j - pos))%nat with j by lia.
    apply total_in. lia.
Qed.
Lemma next_runnable_none pos t j : next_runnable pos t = None -> (pos <= j)%nat -> p_state (t !!! j) <> RUNNABLE.
Proof.
  unfold next_runnable. destruct (list_find _ _) as [[k p]|] eqn:Hf; simpl; [done|]. intros _ Hj Hs.
  apply list_find_None in Hf. rewrite Forall_forall in Hf. apply (Hf (t !!! j)); [|done].
  apply list_elem_of_lookup. exists (j - pos)%nat. rewrite lookup_drop. replace (pos + (j - pos))%nat with j by lia.
  apply total_in, state_in. by rewrite Hs.
Qed.
Lemma kill_spec pid t t' : kill pid t = Some t' -> exists i, (i < length t)%nat /\ p_pid (t !!! i) = pid /\ length t' = length t /\
  forall j, t' !!! j = if decide (i = j) then (let p := set_killed true (t !!! j) in if decide (p_state p = SLEEPING) then set_state RUNNABLE p else p) else t !!! j.
Proof.
  unfold kill. destruct (list_find _ t) as [[i p]|] eqn:Hf; [|done]. intros [= <-].
  apply list_find_Some in Hf as (Hp&Hs&_). pose proof (lookup_lt_Some _ _ _ Hp) as Hi. exists i. split_and!; [done| |apply length_alter|].
  - by rewrite (list_lookup_total_correct _ _ _ Hp).
  - intros j. by rewrite alter_total.
Qed.
(** What one scan of wait finds. *)
Lemma wait_scan_spec me t : forall i hk,
  match wait_scan me i t hk with
  | Reap j => (i <= j < i + length t)%nat /\ p_parent (t !!! (j - i)%nat) = Some me /\ p_state (t !!! (j - i)%nat) = ZOMBIE
  | HaveKids => (hk = true \/ exists j, p_parent (t !!! j) = Some me) /\ forall j, p_parent (t !!! j) = Some me -> p_state (t !!! j) <> ZOMBIE
  | NoKids => hk = false /\ forall j, p_parent (t !!! j) <> Some me
  end.
Proof.
  induction t as [|p t IH]; intros i hk; cbn [wait_scan].
  - destruct hk; split; auto; intros [|j]; cbn; done.
  - assert (Hc : forall hk', match wait_scan me (S i) t hk' with
      | Reap j => (i <= j < i + S (length t))%nat /\ p_parent ((p :: t) !!! (j - i)%nat) = Some me /\ p_state ((p :: t) !!! (j - i)%nat) = ZOMBIE
      | HaveKids => (hk' = true \/ exists j, p_parent ((p :: t) !!! S j) = Some me) /\ forall j, p_parent ((p :: t) !!! S j) = Some me -> p_state ((p :: t) !!! S j) <> ZOMBIE
      | NoKids => hk' = false /\ forall j, p_parent ((p :: t) !!! S j) <> Some me
      end).
    { intros hk'. specialize (IH (S i) hk'). destruct (wait_scan me (S i) t hk') as [j| |]; [|done..].
      destruct IH as (Hj&H1&H2). replace (j - i)%nat with (S (j - S i)) by lia. cbn. split_and!; [lia|lia|done|done]. }
    case_decide as Hp; [case_decide as Hz|].
    + rewrite Nat.sub_diag. cbn. split_and!; [lia|lia|done|done].
    + specialize (Hc true). destruct (wait_scan me (S i) t true) as [j| |]; [done| |by destruct Hc].
      destruct Hc as [_ Hc]. split; [right; by exists 0%nat|]. intros [|j]; [done|apply Hc].
    + specialize (Hc hk). destruct (wait_scan me (S i) t hk) as [j| |]; [done| |].
      * destruct Hc as [H1 H2]. split; [destruct H1 as [|[j Hj]]; [by left|right; by exists (S j)]|]. intros [|j]; [done|apply H2].
      * destruct Hc as [H1 H2]. split; [done|]. intros [|j]; [done|apply H2].
Qed.
(** The children of [me] go to [init], which is awake if one is a zombie. *)
Lemma reparent_spec me init n : forall i t, (i + n = length t)%nat ->
  length (reparent me init n i t) = length t /\
  forall j p p', t !!! j = p -> reparent me init n i t !!! j = p' ->
  p_parent p' = (if decide ((i <= j)%nat /\ p_parent p = Some me) then Some init else p_parent p) /\
  p_pid p' = p_pid p /\ p_killed p' = p_killed p /\ p_chan p' = p_chan p /\
  ((p_state p = SLEEPING /\ p_chan p = Some (ChProc init) /\ p_state p' = RUNNABLE) \/
   (p_state p' = p_state p /\ ~ (p_state p = SLEEPING /\ p_chan p = Some (ChProc init) /\
      exists z, (i <= z)%nat /\ p_parent (t !!! z) = Some me /\ p_state (t !!! z) = ZOMBIE))).
Proof.
  induction n as [|n IH]; intros i t Hlen; cbn [reparent].
  - split; [done|]. intros j p p' <- <-. split_and!; [|done..|].
    + rewrite decide_False; [done|]. intros [Hj Hp]. apply parent_in in Hp. lia.
    + right. split; [done|]. intros (_&_&z&Hz&Hp&_). apply parent_in in Hp. lia.
  - assert (Hi : (i < length t)%nat) by lia. rewrite total_in by done.
    set (t1 := if decide (p_parent (t !!! i) = Some me) then _ else _).
    assert (Ht1 : length t1 = length t /\ forall j p p', t !!! j = p -> t1 !!! j = p' ->
      p_parent p' = (if decide (i = j /\ p_parent p = Some me) then Some init else p_parent p) /\
      p_pid p' = p_pid p /\ p_killed p' = p_killed p /\ p_chan p' = p_chan p /\
      ((p_state p = SLEEPING /\ p_chan p = Some (ChProc init) /\ p_state p' = RUNNABLE) \/
       (p_state p' = p_state p /\ ~ (p_state p = SLEEPING /\ p_chan p = Some (ChProc init) /\
          p_parent (t !!! i) = Some me /\ p_state (t !!! i) = ZOMBIE)))).
    { unfold t1. destruct (decide (p_parent (t !!! i) = Some me)) as [Hp|Hp].
      2:{ split; [done|]. intros j p p' <- <-. split_and!; [|done..|right; split; [done|naive_solver]].
          rewrite decide_False; [done|]. by intros [<- ?]. }
      assert (Hins : forall j, <[i := set_parent (Some init) (t !!! i)]> t !!! j = if decide (i = j) then set_parent (Some init) (t !!! j) else t !!! j).
      { intros j. rewrite insert_total by done. case_decide; [by subst|done]. }
      destruct (decide (p_state (t !!! i) = ZOMBIE)) as [Hz|Hz].
      - split; [by rewrite length_wakeup1, length_insert|]. intros j p p' <- <-. rewrite wakeup1_total, Hins.
        rewrite woken_parent, woken_chan, woken_pid, woken_killed.
        destruct (woken_state (Some (ChProc init)) (if decide (i = j) then set_parent (Some init) (t !!! j) else t !!! j)) as [(H1&H2&H3)|[H1 H2]].
        + destruct (decide (i = j)) as [<-|Hne]; cbn in *; [congruence|]. rewrite decide_False by (by intros [? _]). by split_and!; [..|left].
        + destruct (decide (i = j)) as [<-|Hne]; cbn in *.
          * rewrite decide_True by done. split_and!; [done..|]. right. split; [done|]. intros (Hs&_). congruence.
          * rewrite decide_False by (by intros [? _]). split_and!; [done..|]. right. split; [done|]. naive_solver.
      - split; [by rewrite length_insert|]. intros j p p' <- <-. rewrite Hins. destruct (decide (i = j)) as [<-|Hne]; cbn.
        + rewrite decide_True by done. split_and!; [done..|]. right. split; [done|]. naive_solver.
        + rewrite decide_False by (by intros [? _]). split_and!; [done..|]. right. split; [done|]. naive_solver. }
    clearbody t1. destruct Ht1 as [Hl1 Ht1]. destruct (IH (S i) t1) as [Hl2 H2]; [lia|]. split; [congruence|].
    intros j p p' Hp Hp'. destruct (Ht1 j p _ Hp eq_refl) as (A1&A2&A3&A4&A5). destruct (H2 j _ p' eq_refl Hp') as (B1&B2&B3&B4&B5).
    set (p1 := t1 !!! j) in *. split_and!; [|congruence..|].
    + rewrite B1, A1. destruct (decide (i = j /\ p_parent p = Some me)) as [[<- Hpp]|Hn].
      * rewrite decide_False by lia. by rewrite decide_True by (split; [lia|done]).
      * destruct (decide (S i <= j /\ p_parent p = Some me)%nat) as [[Hj Hpp]|Hn'].
        -- rewrite decide_True by (split; [lia|done]). done.
        -- rewrite decide_False; [done|]. intros [Hj Hpp]. destruct (decide (i = j)) as [<-|]; [naive_solver|]. apply Hn'. split; [lia|done].
    + destruct A5 as [(C1&C2&C3)|[C1 C2]].
      * left. split_and!; [done..|]. destruct B5 as [(D1&_)|[D1 _]]; congruence.
      * destruct B5 as [(D1&D2&D3)|[D1 D2]]; [left; split_and!; congruence|]. right. split; [congruence|].
        intros (Hs&Hc&z&Hz&Hzp&Hzs). destruct (decide (z = i)) as [->|Hne]; [naive_solver|].
        apply D2. split_and!; [congruence..|]. exists z. destruct (Ht1 z _ _ eq_refl eq_refl) as (E1&_&_&_&E5). split_and!; [lia| |].
        -- rewrite E1, decide_False by naive_solver. done.
        -- destruct E5 as [(E5&_)|[E5 _]]; congruence.
Qed.
(** exit, as the other processes see it. *)
Lemma exit_table_spec me init t : (me < length t)%nat ->
  length (exit_table me init t) = length t /\
  forall j p p', t !!! j = p -> exit_table me init t !!! j = p' ->
  p_parent p' = (if decide (p_parent p = Some me) then Some init else p_parent p) /\
  p_pid p' = p_pid p /\ p_killed p' = p_killed p /\ p_chan p' = p_chan p /\
  (j = me -> p_state p' = ZOMBIE) /\
  (j <> me -> (p_state p = SLEEPING /\ p_state p' = RUNNABLE) \/
    (p_state p' = p_state p /\ (p_state p = SLEEPING ->
       p_chan p <> (ChProc <$> p_parent (t !!! me)) /\
       (p_chan p = Some (ChProc init) -> forall z, p_parent (t !!! z) = Some me -> p_state (t !!! z) <> ZOMBIE)))).
Proof.
  intros Hme. unfold exit_table. rewrite (total_in t me) by done. cbn [mbind option_bind].
  set (c := ChProc <$> p_parent (t !!! me)). set (t1 := wakeup1 c t).
  destruct (reparent_spec me init (length t1) 0 t1 ltac:(lia)) as [Hl Hr]. set (t2 := reparent me init (length t1) 0 t1) in *.
  assert (Hl1 : length t1 = length t) by apply length_wakeup1.
  split; [rewrite length_alter; congruence|]. intros j p p' Hp Hp'.
  destruct (Hr j _ _ eq_refl eq_refl) as (A1&A2&A3&A4&A5). unfold t1 in A1, A2, A3, A4, A5. rewrite wakeup1_total, Hp in A1, A2, A3, A4, A5.
  rewrite woken_parent in A1. rewrite woken_pid in A2. rewrite woken_killed in A3. rewrite woken_chan in A4, A5.
  rewrite alter_total in Hp' by lia.
  assert (Hpar : p_parent (t2 !!! j) = if decide (p_parent p = Some me) then Some init else p_parent p).
  { rewrite A1. destruct (decide (p_parent p = Some me)) as [Hpp|Hpp]; [rewrite decide_True by (split; [lia|done])|rewrite decide_False by (by intros [_ ?])]; done. }
  destruct (decide (me = j)) as [<-|Hne]; rewrite <- Hp'; cbn.
  - split_and!; [done..|done|done].
  - split_and!; [done..|done|]. intros _. destruct (woken_state c p) as [(C1&C2&C3)|[C1 C2]].
    + left. split; [done|]. rewrite C3 in A5. destruct A5 as [(A5&_)|[A5 _]]; [done|done].
    + rewrite C2 in A5. destruct A5 as [(A5&A6&A7)|[A5 A6]]; [by left|]. right. split; [done|]. intros Hs. split; [naive_solver|].
      intros Hc z Hz Hzs. apply A6. split_and!; [done..|]. exists z. rewrite wakeup1_total, woken_parent. split_and!; [lia|done|].
      destruct (woken_state c (t !!! z)) as [(D1&_)|[_ D2]]; congruence.
Qed.
End views.
