(* ===== verification/ProcThms.v ===== *)
(** What holds of processes in every reachable state, and of the scheduler. *)
From S2P Require Import Prelude Params Proc ProcSys.

Definition alive (s : procstate) : Prop := s = SLEEPING \/ s = RUNNABLE \/ s = RUNNING.
Definition on_cpu (cs : list sched_cpu) (c i : nat) : Prop := exists pos, cs !! c = Some (mkSc (Some i) pos).

(** A process that sleeps in wait: it has children, none is a zombie. *)
Definition waits (t : list proc) (i : nat) : Prop :=
  p_chan (t !!! i) = Some (ChProc i) /\ p_killed (t !!! i) = false /\
  (exists j, p_parent (t !!! j) = Some i) /\ forall j, p_parent (t !!! j) = Some i -> p_state (t !!! j) <> ZOMBIE.
Record pinv (t : list proc) (ks : list kpos) (cs : list sched_cpu) (next : Z) : Prop := {
  iv_len : length t = NPROC /\ length ks = NPROC;
  iv_run : forall i, p_state (t !!! i) = RUNNING <-> exists c, on_cpu cs c i;
  iv_cpu : forall c c' i, on_cpu cs c i -> on_cpu cs c' i -> c = c';
  iv_init : alive (p_state (t !!! init_slot));
  iv_par : forall i q, p_parent (t !!! i) = Some q -> alive (p_state (t !!! q)) /\ p_state (t !!! i) <> UNUSED;
  iv_orph : forall i, alive (p_state (t !!! i)) \/ p_state (t !!! i) = ZOMBIE -> i = init_slot \/ exists q, p_parent (t !!! i) = Some q;
  iv_fork : forall i np b, ks !!! i = Forking np b -> (p_state (t !!! i) = RUNNING \/ p_state (t !!! i) = RUNNABLE) /\
    p_state (t !!! np) = EMBRYO /\ p_parent (t !!! np) = if b then Some i else None;
  iv_finj : forall i j np b b', ks !!! i = Forking np b -> ks !!! j = Forking np b' -> i = j;
  iv_emb : forall i, p_state (t !!! i) = EMBRYO -> exists j b, ks !!! j = Forking i b;
  iv_pos : forall i, ks !!! i <> User -> alive (p_state (t !!! i));
  iv_pid : forall i j, 0 < p_pid (t !!! i) -> p_pid (t !!! i) = p_pid (t !!! j) -> i = j;
  iv_pidb : 0 < next /\ forall i, 0 <= p_pid (t !!! i) < next /\ (p_state (t !!! i) <> UNUSED -> 0 < p_pid (t !!! i));
  iv_sleep : forall i, p_state (t !!! i) = SLEEPING ->
    (ks !!! i = Waiting /\ waits t i) \/ (ks !!! i = User /\ forall q, p_chan (t !!! i) <> Some (ChProc q));
  iv_tree : p_parent (t !!! init_slot) = None /\ forall i, p_parent (t !!! i) <> Some i }.

Section inv.
Implicit Types (t : list proc) (ks : list kpos) (cs : list sched_cpu).

Lemma on_cpu_insert cs c x c' i : (c < length cs)%nat ->
  on_cpu (<[c := x]> cs) c' i <-> (c' = c /\ sc_proc x = Some i) \/ (c' <> c /\ on_cpu cs c' i).
Proof.
  intros Hc. unfold on_cpu. destruct (decide (c' = c)) as [->|Hne].
  - rewrite list_lookup_insert_eq by done. destruct x as [o pos]. simpl. naive_solver.
  - rewrite list_lookup_insert_ne by done. naive_solver.
Qed.
Lemma sc_in cs c x : cs !! c = Some x -> (c < length cs)%nat.
Proof. apply lookup_lt_Some. Qed.

(** The processor [c] gives process [i] up: the process stops RUNNING. *)
Lemma leave_cpu cs c i pos pos' j :
  cs !! c = Some (mkSc (Some i) pos) -> (forall c' k, on_cpu cs c' k -> on_cpu cs c k -> c' = c) ->
  (exists c', on_cpu (<[c := mkSc None pos']> cs) c' j) <-> j <> i /\ exists c', on_cpu cs c' j.
Proof.
  intros Hc Hu. pose proof (sc_in _ _ _ Hc) as Hl. assert (Hi : on_cpu cs c i) by (by exists pos). split.
  - intros (c'&H). apply on_cpu_insert in H as [[_ H]|[Hne H]]; [done|..|done]. split; [|by exists c'].
    intros ->. by apply Hne, (Hu c' i).
  - intros (Hji&c'&H). exists c'. apply on_cpu_insert; [done|]. right. split; [|done]. intros ->.
    destruct H as (p1&H). rewrite Hc in H. by inversion H.
Qed.

(** Processes may only be woken, and marked as killed when awake. *)
Definition woke (p p' : proc) : Prop :=
  p_parent p' = p_parent p /\ p_pid p' = p_pid p /\
  ((p_state p' = p_state p /\ (p_state p = SLEEPING -> p_chan p' = p_chan p /\ p_killed p' = p_killed p)) \/
   (p_state p = SLEEPING /\ p_state p' = RUNNABLE)).
Lemma woke_state p p' s : woke p p' -> s <> SLEEPING -> s <> RUNNABLE -> p_state p' = s <-> p_state p = s.
Proof. intros (_&_&[[-> _]|[H1 H2]]) Hs Hr; [done|]. rewrite H1, H2. split; intros <-; done. Qed.
Lemma woke_alive p p' : woke p p' -> alive (p_state p') <-> alive (p_state p).
Proof. unfold alive. intros (_&_&[[-> _]|[H1 H2]]); [done|]. rewrite H1, H2. naive_solver. Qed.
Lemma pinv_woke t ks cs next t' : pinv t ks cs next -> length t' = length t -> (forall j, woke (t !!! j) (t' !!! j)) ->
  pinv t' ks cs next.
Proof.
  intros [Hlen Hrun Hcpu Hinit Hpar Horph Hfork Hfinj Hemb Hpos Hpid Hpidb Hsl Htree] Hl Hw.
  assert (Hp : forall j, p_parent (t' !!! j) = p_parent (t !!! j)) by (intros j; apply (Hw j)).
  assert (Hi : forall j, p_pid (t' !!! j) = p_pid (t !!! j)) by (intros j; apply (Hw j)).
  assert (Hs : forall j s, s <> SLEEPING -> s <> RUNNABLE -> p_state (t' !!! j) = s <-> p_state (t !!! j) = s) by (intros; by apply woke_state).
  assert (Ha : forall j, alive (p_state (t' !!! j)) <-> alive (p_state (t !!! j))) by (intros; by apply woke_alive).
  split.
  - by rewrite Hl.
  - intros i. by rewrite Hs.
  - done.
  - by apply Ha.
  - intros i q. rewrite Hp, Ha. intros [H1 H2]%Hpar. split; [done|]. by rewrite Hs.
  - intros i. rewrite Hp, Ha, Hs by done. apply Horph.
  - intros i np b (H1&H2&H3)%Hfork. rewrite Hp, (Hs np) by done. split_and!; [|done..].
    destruct H1 as [H1|H1]; [left; by apply Hs|]. destruct (Hw i) as (_&_&[[-> _]|[H4 _]]); [by right|congruence].
  - done.
  - intros i. rewrite Hs by done. apply Hemb.
  - intros i. rewrite Ha. apply Hpos.
  - intros i j. rewrite !Hi. apply Hpid.
  - split; [apply Hpidb|]. intros i. rewrite Hi, Hs by done. apply Hpidb.
  - intros i H. destruct (Hw i) as (_&_&[[H1 H2]|[_ H2]]); [|congruence]. rewrite H in H1. symmetry in H1. destruct (H2 H1) as [H3 H4].
    unfold waits. rewrite H3, H4. setoid_rewrite Hp. destruct (Hsl i H1) as [[G1 (G2&G3&G4&G5)]|G]; [left|by right].
    split_and!; [done..|]. intros j Hj. rewrite Hs by done. by apply G5.
  - rewrite Hp. setoid_rewrite Hp. done.
Qed.
Lemma woke_woken c p : woke p (woken c p).
Proof.
  unfold woke. rewrite woken_parent, woken_pid, woken_chan, woken_killed. split_and!; [done..|].
  destruct (woken_state c p) as [(?&_&?)|[_ ?]]; [by right|by left].
Qed.
Lemma woke_refl p : woke p p.
Proof. unfold woke. split_and!; [done..|by left]. Qed.

(** The running process [i] gives up its processor and becomes [p']. *)
Lemma pinv_leave t ks cs next c i pos ks' st ch :
  pinv t ks cs next -> cs !! c = Some (mkSc (Some i) pos) ->
  (st = RUNNABLE /\ ks' = ks \/
   st = SLEEPING /\ ((ks' = ks /\ ks !!! i = User /\ forall q, ch <> Some (ChProc q)) \/
     (ks' = <[i := Waiting]> ks /\ (forall np b, ks !!! i <> Forking np b) /\
      waits (alter (fun p => set_state st (set_chan ch p)) i t) i))) ->
  pinv (alter (fun p => set_state st (set_chan ch p)) i t) ks' (<[c := mkSc None pos]> cs) next.
Proof.
  intros [Hlen Hrun Hcpu Hinit Hpar Horph Hfork Hfinj Hemb Hpos Hpid Hpidb Hsl Htree] Hc Hst.
  assert (Hi : p_state (t !!! i) = RUNNING) by (apply Hrun; exists c; by exists pos).
  assert (Hil : (i < length t)%nat) by (apply state_in; by rewrite Hi).
  set (t' := alter _ i t) in *.
  assert (Ht : forall j, t' !!! j = if decide (i = j) then set_state st (set_chan ch (t !!! j)) else t !!! j) by (intros j; unfold t'; by rewrite alter_total).
  assert (Hp : forall j, p_parent (t' !!! j) = p_parent (t !!! j)) by (intros j; rewrite Ht; by case_decide).
  assert (Hpd : forall j, p_pid (t' !!! j) = p_pid (t !!! j)) by (intros j; rewrite Ht; by case_decide).
  assert (Hst' : st = RUNNABLE \/ st = SLEEPING) by naive_solver.
  assert (Hs : forall j s, s <> SLEEPING -> s <> RUNNABLE -> s <> RUNNING -> p_state (t' !!! j) = s <-> p_state (t !!! j) = s).
  { intros j s H1 H2 H3. rewrite Ht. destruct (decide (i = j)) as [<-|]; [|done]. cbn. rewrite Hi. split; intros <-; [|done]. naive_solver. }
  assert (Ha : forall j, alive (p_state (t' !!! j)) <-> alive (p_state (t !!! j))).
  { intros j. rewrite Ht. destruct (decide (i = j)) as [<-|]; [|done]. cbn. rewrite Hi. unfold alive. naive_solver. }
  assert (Hks : forall j np b, ks' !!! j = Forking np b <-> ks !!! j = Forking np b).
  { intros j np b. destruct Hst as [[_ ->]|[_ [(->&_)|(->&Hn&_)]]]; [done..|].
    rewrite insert_total by lia. destruct (decide (i = j)) as [<-|]; [|done]. split; [done|]. intros H. by apply Hn in H. }
  split.
  - unfold t'. rewrite length_alter. destruct Hst as [[_ ->]|[_ [(->&_)|(->&Hn&_)]]]; rewrite ?length_insert; done.
  - intros j. rewrite (leave_cpu cs c i pos) by (done || naive_solver). rewrite <- Hrun, Ht. destruct (decide (i = j)) as [<-|Hne]; [|naive_solver].
    cbn. split; [|by intros [? _]]. naive_solver.
  - intros c1 c2 k. rewrite !on_cpu_insert by (by eapply sc_in). cbn. naive_solver.
  - by apply Ha.
  - intros j q. rewrite Hp, Ha. intros [H1 H2]%Hpar. split; [done|]. by rewrite Hs.
  - intros j. rewrite Hp, Ha, Hs by done. apply Horph.
  - intros j np b H%Hks. destruct (Hfork _ _ _ H) as (H1&H2&H3). rewrite Hp, (Hs np) by done. split_and!; [|done..].
    rewrite Ht. destruct (decide (i = j)) as [<-|]; [cbn|done]. destruct Hst as [[-> _]|[_ [(->&Hu&_)|(_&Hn&_)]]]; [by right|congruence|]. by apply Hn in H.
  - intros j k np b b' H1%Hks H2%Hks. by eapply Hfinj.
  - intros j. rewrite Hs by done. intros (k&b&H)%Hemb. exists k, b. by apply Hks.
  - intros j Hj. rewrite Ha. destruct Hst as [[_ ->]|[_ [(->&_)|(->&Hn&_)]]]; [by apply Hpos..|].
    rewrite insert_total in Hj by lia. destruct (decide (i = j)) as [<-|]; [|by apply Hpos]. unfold alive. auto.
  - intros j k. rewrite !Hpd. apply Hpid.
  - split; [apply Hpidb|]. intros j. rewrite Hpd, Hs by done. apply Hpidb.
  - intros j Hj. destruct (decide (i = j)) as [<-|Hne].
    + rewrite Ht, decide_True in Hj |- * by done. cbn in Hj |- *. destruct Hst as [[? _]|[_ [(->&H1&H2)|(->&H1&H2)]]]; [congruence|by right|].
      left. split; [|done]. rewrite insert_total by lia. by rewrite decide_True.
    + assert (Hj' : p_state (t !!! j) = SLEEPING) by (by rewrite Ht, decide_False in Hj).
      assert (Hkj : ks' !!! j = ks !!! j).
      { destruct Hst as [[_ ->]|[_ [(->&_)|(->&Hn&_)]]]; [done..|]. rewrite insert_total by lia. by rewrite decide_False. }
      rewrite Hkj. unfold waits. rewrite Ht, decide_False by done. setoid_rewrite Hp.
      destruct (Hsl j Hj') as [[G1 (G2&G3&G4&G5)]|G]; [left|by right]. split_and!; [done..|]. intros k Hk. rewrite Hs by done. by apply G5.
  - rewrite Hp. setoid_rewrite Hp. done.
Qed.

Lemma pinv_pick t ks cs next c pos i :
  pinv t ks cs next -> cs !! c = Some (mkSc None pos) -> p_state (t !!! i) = RUNNABLE ->
  pinv (sleep_tidy i (alter (set_state RUNNING) i t)) ks (<[c := mkSc (Some i) (S i)]> cs) next.
Proof.
  intros [Hlen Hrun Hcpu Hinit Hpar Horph Hfork Hfinj Hemb Hpos Hpid Hpidb Hsl Htree] Hc Hi.
  assert (Hil : (i < length t)%nat) by (apply state_in; by rewrite Hi). set (t' := sleep_tidy i _).
  assert (Ht : forall j, t' !!! j = if decide (i = j) then set_chan None (set_state RUNNING (t !!! j)) else t !!! j).
  { intros j. unfold t', sleep_tidy. rewrite !alter_total by (rewrite ?length_alter; done). by case_decide. }
  assert (Hp : forall j, p_parent (t' !!! j) = p_parent (t !!! j)) by (intros j; rewrite Ht; by case_decide).
  assert (Hpd : forall j, p_pid (t' !!! j) = p_pid (t !!! j)) by (intros j; rewrite Ht; by case_decide).
  assert (Hs : forall j s, s <> RUNNABLE -> s <> RUNNING -> p_state (t' !!! j) = s <-> p_state (t !!! j) = s).
  { intros j s H1 H2. rewrite Ht. destruct (decide (i = j)) as [<-|]; [|done]. cbn. rewrite Hi. naive_solver. }
  assert (Ha : forall j, alive (p_state (t' !!! j)) <-> alive (p_state (t !!! j))).
  { intros j. rewrite Ht. destruct (decide (i = j)) as [<-|]; [|done]. cbn. rewrite Hi. unfold alive. naive_solver. }
  pose proof (sc_in _ _ _ Hc) as Hcl.
  assert (Hno : forall c', ~ on_cpu cs c' i) by (intros c' H; assert (p_state (t !!! i) = RUNNING) by (apply Hrun; eauto); congruence).
  split.
  - unfold t', sleep_tidy. by rewrite !length_alter.
  - intros j. rewrite Ht. setoid_rewrite on_cpu_insert; [|done]. cbn. destruct (decide (i = j)) as [<-|Hne].
    + cbn. split; [|done]. intros _. exists c. by left.
    + rewrite Hrun. split.
      * intros (c'&H). exists c'. right. split; [|done]. intros ->. destruct H as (p1&H). by rewrite Hc in H.
      * intros (c'&[[_ [= ->]]|[_ H]]); [done|]. by exists c'.
  - intros c1 c2 k. rewrite !on_cpu_insert by done. cbn. intros [[-> E1]|[H1 H2]] [[-> E2]|[H3 H4]]; simplify_eq; [done| | |by eapply Hcpu].
    + by apply Hno in H4.
    + by apply Hno in H2.
  - by apply Ha.
  - intros j q. rewrite Hp, Ha. intros [H1 H2]%Hpar. split; [done|]. by rewrite Hs.
  - intros j. rewrite Hp, Ha, Hs by done. apply Horph.
  - intros j np b H. destruct (Hfork _ _ _ H) as (H1&H2&H3). rewrite Hp, (Hs np) by done. split_and!; [|done..].
    rewrite Ht. destruct (decide (i = j)) as [<-|]; [by left|done].
  - done.
  - intros j. rewrite Hs by done. apply Hemb.
  - intros j Hj. rewrite Ha. by apply Hpos.
  - intros j k. rewrite !Hpd. apply Hpid.
  - split; [apply Hpidb|]. intros j. rewrite Hpd, Hs by done. apply Hpidb.
  - intros j Hj. apply Hs in Hj as Hj'; [|done..]. assert (Hne : i <> j) by (intros ->; congruence). unfold waits.
    rewrite Ht, decide_False by done. setoid_rewrite Hp. destruct (Hsl j Hj') as [[G1 (G2&G3&G4&G5)]|G]; [left|by right].
    split_and!; [done..|]. intros k Hk. rewrite Hs by done. by apply G5.
  - rewrite Hp. setoid_rewrite Hp. done.
Qed.
(** An idle processor moves its scheduler's position. *)
Lemma pinv_pass t ks cs next c pos pos' :
  pinv t ks cs next -> cs !! c = Some (mkSc None pos) -> pinv t ks (<[c := mkSc None pos']> cs) next.
Proof.
  intros H Hc. assert (Hon : forall c' i, on_cpu (<[c := mkSc None pos']> cs) c' i <-> on_cpu cs c' i).
  { intros c' i. rewrite on_cpu_insert by (by eapply sc_in). cbn. split; [naive_solver|]. intros H1. right. split; [|done].
    intros ->. destruct H1 as (p&H1). by rewrite Hc in H1. }
  destruct H. split; try done.
  - intros i. setoid_rewrite Hon. done.
  - intros c1 c2 i. rewrite !Hon. eauto.
Qed.
(** wait returns. *)
Lemma pinv_user t ks cs next i : pinv t ks cs next -> p_state (t !!! i) = RUNNING -> ks !!! i = User \/ ks !!! i = Waiting ->
  pinv t (<[i := User]> ks) cs next.
Proof.
  intros [Hlen Hrun Hcpu Hinit Hpar Horph Hfork Hfinj Hemb Hpos Hpid Hpidb Hsl Htree] Hi Hk.
  assert (Hil : (i < length t)%nat) by (apply state_in; by rewrite Hi).
  assert (Hks : forall j, <[i := User]> ks !!! j = if decide (i = j) then User else ks !!! j) by (intros; apply insert_total; lia).
  assert (Hf : forall j np b, <[i := User]> ks !!! j = Forking np b <-> ks !!! j = Forking np b).
  { intros j np b. rewrite Hks. case_decide as Hd; [|done]. rewrite <- Hd. split; [done|]. intros E. destruct Hk; congruence. }
  split; try done.
  - by rewrite length_insert.
  - intros j np b H%Hf. by apply Hfork.
  - intros j k np b b' H1%Hf H2%Hf. by eapply Hfinj.
  - intros j (k&b&H)%Hemb. exists k, b. by apply Hf.
  - intros j. rewrite Hks. case_decide; [done|apply Hpos].
  - intros j Hj. assert (i <> j) by (intros ->; congruence). rewrite Hks, decide_False by done. by apply Hsl.
Qed.

(** A slot that nobody's child is in changes hands between UNUSED and
    EMBRYO. *)
Lemma waits_change t t' i : waits t i ->
  (forall j, p_parent (t' !!! j) = p_parent (t !!! j)) -> (forall j, p_state (t' !!! j) = ZOMBIE -> p_state (t !!! j) = ZOMBIE) ->
  p_chan (t' !!! i) = p_chan (t !!! i) -> p_killed (t' !!! i) = p_killed (t !!! i) -> waits t' i.
Proof.
  intros (G2&G3&G4&G5) Hp Hz Hc Hk. unfold waits. rewrite Hc, Hk. setoid_rewrite Hp. split_and!; [done..|].
  intros j Hj Hs. by apply (G5 j), Hz.
Qed.
Lemma pinv_take t ks cs next i np : pinv t ks cs next -> p_state (t !!! i) = RUNNING -> ks !!! i = User ->
  (np < length t)%nat -> p_state (t !!! np) = UNUSED ->
  pinv (take_slot np next t) (<[i := Forking np false]> ks) cs (next + 1).
Proof.
  intros [Hlen Hrun Hcpu Hinit Hpar Horph Hfork Hfinj Hemb Hpos Hpid Hpidb Hsl Htree] Hi Hu Hnl Hnp. unfold take_slot. set (t' := alter _ np t).
  assert (Hil : (i < length t)%nat) by (apply state_in; by rewrite Hi).
  assert (Ht : forall j, t' !!! j = if decide (np = j) then set_pid next (set_state EMBRYO (t !!! j)) else t !!! j) by (intros j; unfold t'; by rewrite alter_total).
  assert (Hp : forall j, p_parent (t' !!! j) = p_parent (t !!! j)) by (intros j; rewrite Ht; by case_decide).
  assert (Hs : forall j s, s <> UNUSED -> s <> EMBRYO -> p_state (t' !!! j) = s <-> p_state (t !!! j) = s).
  { intros j s H1 H2. rewrite Ht. destruct (decide (np = j)) as [<-|]; [|done]. cbn. rewrite Hnp. naive_solver. }
  assert (Ha : forall j, alive (p_state (t' !!! j)) <-> alive (p_state (t !!! j))) by (intros j; unfold alive; by rewrite !Hs).
  assert (Hnpar : p_parent (t !!! np) = None).
  { destruct (p_parent (t !!! np)) as [q|] eqn:E; [|done]. by apply Hpar in E as [_ E]. }
  assert (Hks : forall j, <[i := Forking np false]> ks !!! j = if decide (i = j) then Forking np false else ks !!! j) by (intros; apply insert_total; lia).
  assert (Hnf : forall j b, ks !!! j <> Forking np b) by (intros j b (_&H&_)%Hfork; congruence).
  split.
  - unfold t'. by rewrite length_alter, length_insert.
  - intros j. by rewrite Hs.
  - done.
  - by apply Ha.
  - intros j q. rewrite Hp, Ha. intros H. destruct (Hpar _ _ H) as [H1 H2]. split; [done|]. rewrite Ht. by case_decide.
  - intros j. rewrite Hp, Ha, Hs by done. apply Horph.
  - intros j n b. rewrite Hks. destruct (decide (i = j)) as [<-|Hne].
    + intros [= <- <-]. rewrite Hp, Hs by done. split_and!; [by left| |done]. by rewrite Ht, decide_True.
    + intros H. destruct (Hfork _ _ _ H) as (H1&H2&H3). rewrite Hp, !Hs by done. split_and!; [done| |done].
      rewrite Ht, decide_False; [done|]. intros <-. by apply Hnf in H.
  - intros j k n b b'. rewrite !Hks. destruct (decide (i = j)) as [<-|], (decide (i = k)) as [<-|]; [done|..]; try (intros [= <- <-]);
      [intros H; by apply Hnf in H|intros H [= <- <-]; by apply Hnf in H|by eapply Hfinj].
  - intros j. rewrite Ht. destruct (decide (np = j)) as [<-|Hne].
    + intros _. exists i, false. by rewrite Hks, decide_True.
    + intros (k&b&H)%Hemb. exists k, b. rewrite Hks, decide_False; [done|]. intros <-. congruence.
  - intros j. rewrite Hks, Ha. case_decide as Hd; [intros _; rewrite <- Hd, Hi; unfold alive; auto|apply Hpos].
  - destruct Hpidb as [Hn0 Hb]. intros j k. rewrite !Ht. destruct (decide (np = j)) as [<-|], (decide (np = k)) as [<-|]; cbn; [done|..|apply Hpid].
    + pose proof (proj1 (Hb k)). lia.
    + pose proof (proj1 (Hb j)). lia.
  - destruct Hpidb as [Hn0 Hb]. split; [lia|]. intros j. rewrite Ht. destruct (decide (np = j)); cbn; [lia|]. destruct (Hb j) as [H1 H2]. split; [lia|done].
  - intros j Hj. apply Hs in Hj as Hj'; [|done..]. assert (np <> j) by (intros <-; congruence). assert (i <> j) by (intros <-; congruence).
    rewrite Hks, decide_False by done. assert (Htj : t' !!! j = t !!! j) by (by rewrite Ht, decide_False).
    destruct (Hsl j Hj') as [[G1 G2]|G]; [left|by rewrite Htj; right]. split; [done|].
    apply (waits_change t); [done..| | |]; [|by rewrite Htj..]. intros k. by apply Hs.
  - rewrite Hp. setoid_rewrite Hp. done.
Qed.

Lemma pinv_fail t ks cs next i np : pinv t ks cs next -> ks !!! i = Forking np false ->
  pinv (alter (fun p => set_state UNUSED (set_kstack 0 p)) np t) (<[i := User]> ks) cs next.
Proof.
  intros [Hlen Hrun Hcpu Hinit Hpar Horph Hfork Hfinj Hemb Hpos Hpid Hpidb Hsl Htree] Hi.
  destruct (Hfork _ _ _ Hi) as (Hir&Hnp&Hnpar). set (t' := alter _ np t).
  assert (Hnl : (np < length t)%nat) by (apply state_in; by rewrite Hnp).
  assert (Hil : (i < length t)%nat) by (apply state_in; by destruct Hir as [-> | ->]).
  assert (Ht : forall j, t' !!! j = if decide (np = j) then set_state UNUSED (set_kstack 0 (t !!! j)) else t !!! j) by (intros j; unfold t'; by rewrite alter_total).
  assert (Hp : forall j, p_parent (t' !!! j) = p_parent (t !!! j)) by (intros j; rewrite Ht; by case_decide).
  assert (Hpd : forall j, p_pid (t' !!! j) = p_pid (t !!! j)) by (intros j; rewrite Ht; by case_decide).
  assert (Hs : forall j s, s <> UNUSED -> s <> EMBRYO -> p_state (t' !!! j) = s <-> p_state (t !!! j) = s).
  { intros j s H1 H2. rewrite Ht. destruct (decide (np = j)) as [<-|]; [|done]. cbn. rewrite Hnp. naive_solver. }
  assert (Ha : forall j, alive (p_state (t' !!! j)) <-> alive (p_state (t !!! j))) by (intros j; unfold alive; by rewrite !Hs).
  assert (Hks : forall j, <[i := User]> ks !!! j = if decide (i = j) then User else ks !!! j) by (intros; apply insert_total; lia).
  split.
  - unfold t'. by rewrite length_alter, length_insert.
  - intros j. by rewrite Hs.
  - done.
  - by apply Ha.
  - intros j q. rewrite Hp, Ha. intros H. destruct (Hpar _ _ H) as [H1 H2]. split; [done|]. rewrite Ht. case_decide; [by subst; rewrite Hnpar in H|done].
  - intros j. rewrite Hp, Ha, Hs by done. apply Horph.
  - intros j n b. rewrite Hks. case_decide as Hd; [done|]. intros H. destruct (Hfork _ _ _ H) as (H1&H2&H3). rewrite Hp, !Hs by done.
    split_and!; [done| |done]. rewrite Ht, decide_False; [done|]. intros <-. by apply Hd, (Hfinj i j np false b).
  - intros j k n b b'. rewrite !Hks. case_decide; [done|]. case_decide; [done|]. apply Hfinj.
  - intros j. rewrite Ht. case_decide as Hd; [done|]. intros (k&b&H)%Hemb. exists k, b. rewrite Hks, decide_False; [done|]. intros <-. congruence.
  - intros j. rewrite Hks, Ha. case_decide; [done|apply Hpos].
  - intros j k. rewrite !Hpd. apply Hpid.
  - split; [apply Hpidb|]. intros j. rewrite Hpd. split; [apply Hpidb|]. intros Hj. apply Hpidb. rewrite Ht in Hj. case_decide; [by subst; rewrite Hnp|done].
  - intros j Hj. apply Hs in Hj as Hj'; [|done..]. assert (np <> j) by (intros <-; congruence). assert (i <> j) by (intros <-; destruct Hir; congruence).
    rewrite Hks, decide_False by done. assert (Htj : t' !!! j = t !!! j) by (by rewrite Ht, decide_False).
    destruct (Hsl j Hj') as [[G1 G2]|G]; [left|by rewrite Htj; right]. split; [done|].
    apply (waits_change t); [done..| | |]; [|by rewrite Htj..]. intros k. by apply Hs.
  - rewrite Hp. setoid_rewrite Hp. done.
Qed.
Lemma pinv_link t ks cs next i np : pinv t ks cs next -> p_state (t !!! i) = RUNNING -> ks !!! i = Forking np false ->
  pinv (alter (set_parent (Some i)) np t) (<[i := Forking np true]> ks) cs next.
Proof.
  intros [Hlen Hrun Hcpu Hinit Hpar Horph Hfork Hfinj Hemb Hpos Hpid Hpidb Hsl Htree] Hir Hi.
  destruct (Hfork _ _ _ Hi) as (_&Hnp&Hnpar). set (t' := alter _ np t).
  assert (Hnl : (np < length t)%nat) by (apply state_in; by rewrite Hnp).
  assert (Hil : (i < length t)%nat) by (apply state_in; by rewrite Hir).
  assert (Ht : forall j, t' !!! j = if decide (np = j) then set_parent (Some i) (t !!! j) else t !!! j) by (intros j; unfold t'; by rewrite alter_total).
  assert (Hp : forall j, p_parent (t' !!! j) = if decide (np = j) then Some i else p_parent (t !!! j)) by (intros j; rewrite Ht; by case_decide).
  assert (Hs : forall j, p_state (t' !!! j) = p_state (t !!! j)) by (intros j; rewrite Ht; by case_decide).
  assert (Hpd : forall j, p_pid (t' !!! j) = p_pid (t !!! j)) by (intros j; rewrite Ht; by case_decide).
  assert (Hks : forall j, <[i := Forking np true]> ks !!! j = if decide (i = j) then Forking np true else ks !!! j) by (intros; apply insert_total; lia).
  assert (Hkf : forall j n b, <[i := Forking np true]> ks !!! j = Forking n b -> exists b', ks !!! j = Forking n b').
  { intros j n b. rewrite Hks. case_decide as Hd; [|eauto]. intros [= <- <-]. rewrite <- Hd. eauto. }
  split.
  - unfold t'. by rewrite length_alter, length_insert.
  - intros j. by rewrite Hs.
  - done.
  - by rewrite Hs.
  - intros j q. rewrite Hp, !Hs. case_decide as Hd; [|apply Hpar]. intros [= <-]. rewrite <- Hd, Hnp, Hir. unfold alive. auto.
  - intros j. rewrite Hp, Hs. case_decide; [eauto|apply Horph].
  - intros j n b. rewrite Hks, Hp, !Hs. destruct (decide (i = j)) as [<-|Hd].
    + intros [= <- <-]. rewrite decide_True by done. auto.
    + intros H. rewrite decide_False; [by apply Hfork|]. intros <-. by apply Hd, (Hfinj i j np false b).
  - intros j k n b b' (b1&H1)%Hkf (b2&H2)%Hkf. by eapply Hfinj.
  - intros j. rewrite Hs. intros (k&b&H)%Hemb. destruct (decide (i = k)) as [<-|Hd].
    + rewrite Hi in H. injection H as <- <-. exists i, true. by rewrite Hks, decide_True.
    + exists k, b. by rewrite Hks, decide_False.
  - intros j. rewrite Hks, Hs. case_decide as Hd; [intros _; rewrite <- Hd, Hir; unfold alive; auto|apply Hpos].
  - intros j k. rewrite !Hpd. apply Hpid.
  - split; [apply Hpidb|]. intros j. rewrite Hpd, Hs. apply Hpidb.
  - intros j. rewrite Hs. intros Hj. assert (np <> j) by (intros <-; congruence). assert (Hij : i <> j) by (intros <-; congruence).
    rewrite Hks, decide_False by done. assert (Htj : t' !!! j = t !!! j) by (by rewrite Ht, decide_False). unfold waits. rewrite Htj.
    destruct (Hsl j Hj) as [[G1 (G2&G3&(k&G4)&G5)]|G]; [left|by right]. split_and!; [done..| |].
    + exists k. rewrite Hp, decide_False; [done|]. intros <-. congruence.
    + intros l. rewrite Hp, Hs. case_decide; [congruence|apply G5].
  - destruct Htree as [H1 H2]. split.
    + rewrite Hp, decide_False; [done|]. intros ->. unfold alive in Hinit. rewrite Hnp in Hinit. naive_solver.
    + intros j. rewrite Hp. case_decide as Hd; [|done]. intros [= ->]. congruence.
Qed.

Lemma pinv_go t ks cs next i np : pinv t ks cs next -> p_state (t !!! i) = RUNNING -> ks !!! i = Forking np true ->
  pinv (alter (set_state RUNNABLE) np t) (<[i := User]> ks) cs next.
Proof.
  intros [Hlen Hrun Hcpu Hinit Hpar Horph Hfork Hfinj Hemb Hpos Hpid Hpidb Hsl Htree] Hir Hi.
  destruct (Hfork _ _ _ Hi) as (_&Hnp&Hnpar). set (t' := alter _ np t).
  assert (Hnl : (np < length t)%nat) by (apply state_in; by rewrite Hnp).
  assert (Hil : (i < length t)%nat) by (apply state_in; by rewrite Hir).
  assert (Ht : forall j, t' !!! j = if decide (np = j) then set_state RUNNABLE (t !!! j) else t !!! j) by (intros j; unfold t'; by rewrite alter_total).
  assert (Hp : forall j, p_parent (t' !!! j) = p_parent (t !!! j)) by (intros j; rewrite Ht; by case_decide).
  assert (Hpd : forall j, p_pid (t' !!! j) = p_pid (t !!! j)) by (intros j; rewrite Ht; by case_decide).
  assert (Hs : forall j s, s <> RUNNABLE -> s <> EMBRYO -> p_state (t' !!! j) = s <-> p_state (t !!! j) = s).
  { intros j s H1 H2. rewrite Ht. destruct (decide (np = j)) as [<-|]; [|done]. cbn. rewrite Hnp. naive_solver. }
  assert (Hsn : forall j, np <> j -> p_state (t' !!! j) = p_state (t !!! j)) by (intros j Hj; by rewrite Ht, decide_False).
  assert (Ha : forall j, alive (p_state (t !!! j)) -> alive (p_state (t' !!! j))).
  { intros j Hj. rewrite Ht. case_decide; [right; by left|done]. }
  assert (Hks : forall j, <[i := User]> ks !!! j = if decide (i = j) then User else ks !!! j) by (intros; apply insert_total; lia).
  split.
  - unfold t'. by rewrite length_alter, length_insert.
  - intros j. by rewrite Hs.
  - done.
  - by apply Ha.
  - intros j q. rewrite Hp. intros H. destruct (Hpar _ _ H) as [H1 H2]. split; [by apply Ha|]. by rewrite Hs.
  - intros j. rewrite Hp. destruct (decide (np = j)) as [<-|Hd]; [rewrite Hnpar; eauto|]. rewrite Hsn by done. apply Horph.
  - intros j n b. rewrite Hks. case_decide as Hd; [done|]. intros H. destruct (Hfork _ _ _ H) as (H1&H2&H3). rewrite Hp.
    rewrite (Hsn n), (Hsn j); [done|..]; intros <-; [destruct H1; congruence|]. by apply Hd, (Hfinj i j np true b).
  - intros j k n b b'. rewrite !Hks. case_decide; [done|]. case_decide; [done|]. apply Hfinj.
  - intros j. rewrite Ht. case_decide as Hd; [done|]. intros (k&b&H)%Hemb. exists k, b. rewrite Hks, decide_False; [done|]. intros <-. congruence.
  - intros j. rewrite Hks. case_decide; [done|]. intros Hj. by apply Ha, Hpos.
  - intros j k. rewrite !Hpd. apply Hpid.
  - split; [apply Hpidb|]. intros j. rewrite Hpd, Hs by done. apply Hpidb.
  - intros j Hj. apply Hs in Hj as Hj'; [|done..]. assert (np <> j) by (intros <-; congruence). assert (i <> j) by (intros <-; congruence).
    rewrite Hks, decide_False by done. assert (Htj : t' !!! j = t !!! j) by (by rewrite Ht, decide_False).
    destruct (Hsl j Hj') as [[G1 G2]|G]; [left|by rewrite Htj; right]. split; [done|].
    apply (waits_change t); [done..| | |]; [|by rewrite Htj..]. intros k. by apply Hs.
  - rewrite Hp. setoid_rewrite Hp. done.
Qed.
Lemma pinv_reap t ks cs next i j : pinv t ks cs next -> p_state (t !!! i) = RUNNING ->
  p_parent (t !!! j) = Some i -> p_state (t !!! j) = ZOMBIE -> pinv (alter reap j t) ks cs next.
Proof.
  intros [Hlen Hrun Hcpu Hinit Hpar Horph Hfork Hfinj Hemb Hpos Hpid Hpidb Hsl Htree] Hir Hjp Hjz. set (t' := alter _ j t).
  assert (Hjl : (j < length t)%nat) by (apply state_in; by rewrite Hjz).
  assert (Ht : forall k, t' !!! k = if decide (j = k) then reap (t !!! k) else t !!! k) by (intros k; unfold t'; by rewrite alter_total).
  assert (Htn : forall k, j <> k -> t' !!! k = t !!! k) by (intros; by rewrite Ht, decide_False).
  assert (Htj : t' !!! j = reap (t !!! j)) by (by rewrite Ht, decide_True).
  assert (Hs : forall k s, s <> ZOMBIE -> s <> UNUSED -> p_state (t' !!! k) = s <-> p_state (t !!! k) = s).
  { intros k s H1 H2. rewrite Ht. destruct (decide (j = k)) as [<-|]; [|done]. cbn. rewrite Hjz. naive_solver. }
  assert (Ha : forall k, alive (p_state (t' !!! k)) <-> alive (p_state (t !!! k))) by (intros k; unfold alive; by rewrite !Hs).
  split.
  - unfold t'. by rewrite length_alter.
  - intros k. by rewrite Hs.
  - done.
  - by apply Ha.
  - intros k q. destruct (decide (j = k)) as [<-|Hd]; [by rewrite Htj|]. rewrite Ha, !Htn by done. apply Hpar.
  - intros k. destruct (decide (j = k)) as [<-|Hd]; [rewrite Htj; cbn; unfold alive; naive_solver|]. rewrite !Htn by done. apply Horph.
  - intros k n b H. destruct (Hfork _ _ _ H) as (H1&H2&H3). rewrite !Hs, (Htn n) by (done || intros <-; congruence). done.
  - done.
  - intros k. rewrite Hs by done. apply Hemb.
  - intros k. rewrite Ha. apply Hpos.
  - destruct Hpidb as [_ Hb]. intros k l. destruct (decide (j = k)) as [<-|Hk]; [rewrite Htj; cbn; lia|]. rewrite (Htn k) by done.
    destruct (decide (j = l)) as [<-|Hl]; [rewrite Htj; cbn; lia|]. rewrite (Htn l) by done. apply Hpid.
  - split; [apply Hpidb|]. intros k. destruct (decide (j = k)) as [<-|Hk]; [rewrite Htj; cbn|rewrite Htn by done; apply Hpidb].
    destruct Hpidb. split; [lia|done].
  - intros k Hk. apply Hs in Hk as Hk'; [|done..]. assert (j <> k) by (intros <-; congruence). unfold waits. rewrite (Htn k) by done.
    destruct (Hsl k Hk') as [[G1 (G2&G3&(l&G4)&G5)]|G]; [left|by right]. split_and!; [done..| |].
    + exists l. rewrite Htn; [done|]. intros <-. congruence.
    + intros m. destruct (decide (j = m)) as [<-|Hm]; [by rewrite Htj|]. rewrite Htn by done. apply G5.
  - destruct Htree as [H1 H2]. split; [|intros k].
    + rewrite Htn; [done|]. intros ->. congruence.
    + destruct (decide (j = k)) as [<-|Hk]; [by rewrite Htj|]. by rewrite Htn.
Qed.
Lemma pinv_exit t ks cs next c i pos : pinv t ks cs next -> cs !! c = Some (mkSc (Some i) pos) -> ks !!! i = User -> i <> init_slot ->
  pinv (exit_table i init_slot t) ks (<[c := mkSc None pos]> cs) next.
Proof.
  intros [Hlen Hrun Hcpu Hinit Hpar Horph Hfork Hfinj Hemb Hpos Hpid Hpidb Hsl Htree] Hc Hu Hni.
  assert (Hi : p_state (t !!! i) = RUNNING) by (apply Hrun; exists c; by exists pos).
  assert (Hil : (i < length t)%nat) by (apply state_in; by rewrite Hi).
  destruct (exit_table_spec i init_slot t Hil) as [Hl Hx]. set (t' := exit_table i init_slot t) in *.
  assert (Hp : forall j, p_parent (t' !!! j) = if decide (p_parent (t !!! j) = Some i) then Some init_slot else p_parent (t !!! j)) by (intros j; by apply (Hx j)).
  assert (Hpd : forall j, p_pid (t' !!! j) = p_pid (t !!! j)) by (intros j; by apply (Hx j)).
  assert (Hsi : p_state (t' !!! i) = ZOMBIE) by (by apply (Hx i _ _ eq_refl eq_refl)).
  assert (Hsn : forall j, j <> i -> (p_state (t !!! j) = SLEEPING /\ p_state (t' !!! j) = RUNNABLE) \/ p_state (t' !!! j) = p_state (t !!! j)).
  { intros j Hj. destruct (Hx j _ _ eq_refl eq_refl) as (_&_&_&_&_&H). destruct (H Hj) as [|[? _]]; auto. }
  assert (Hs : forall j s, s <> SLEEPING -> s <> RUNNABLE -> j <> i -> p_state (t' !!! j) = s <-> p_state (t !!! j) = s).
  { intros j s H1 H2 Hj. destruct (Hsn j Hj) as [[-> ->]| ->]; [|done]. naive_solver. }
  assert (Ha : forall j, j <> i -> alive (p_state (t' !!! j)) <-> alive (p_state (t !!! j))).
  { intros j Hj. unfold alive. destruct (Hsn j Hj) as [[-> ->]| ->]; [|done]. naive_solver. }
  assert (Hnp : forall j, p_parent (t' !!! j) <> Some i) by (intros j; rewrite Hp; case_decide; congruence).
  split.
  - by rewrite Hl.
  - intros j. rewrite (leave_cpu cs c i pos) by (done || naive_solver). rewrite <- Hrun. destruct (decide (j = i)) as [->|Hne]; [rewrite Hsi; naive_solver|].
    rewrite Hs by done. naive_solver.
  - intros c1 c2 k. rewrite !on_cpu_insert by (by eapply sc_in). cbn. naive_solver.
  - by apply Ha.
  - intros j q Hq. assert (Hqi : q <> i) by (intros ->; by apply (Hnp j)). rewrite Ha by done. rewrite Hp in Hq. split.
    + case_decide; [by injection Hq as <-|by apply (Hpar j)].
    + destruct (decide (j = i)) as [->|Hji]; [by rewrite Hsi|]. rewrite Hs by done. case_decide as Hd; by eapply Hpar.
  - intros j Hj. rewrite Hp. case_decide as Hd; [eauto|]. apply Horph. destruct (decide (j = i)) as [->|Hji]; [left; rewrite Hi; right; by right|].
    by rewrite Ha, Hs in Hj.
  - intros j n b H. destruct (Hfork _ _ _ H) as (H1&H2&H3). assert (Hji : j <> i) by (intros ->; congruence).
    assert (n <> i) by (intros ->; congruence). rewrite (Hs n), Hp by done. split_and!; [|done|].
    + destruct (Hsn j Hji) as [[? ?]| ->]; [by right|done].
    + rewrite H3. rewrite decide_False; [done|]. destruct b; congruence.
  - done.
  - intros j. destruct (decide (j = i)) as [->|Hji]; [by rewrite Hsi|]. rewrite Hs by done. apply Hemb.
  - intros j Hj. assert (j <> i) by (intros ->; congruence). rewrite Ha by done. by apply Hpos.
  - intros j k. rewrite !Hpd. apply Hpid.
  - split; [apply Hpidb|]. intros j. rewrite Hpd. split; [apply Hpidb|]. intros Hj. apply Hpidb.
    destruct (decide (j = i)) as [->|Hji]; [by rewrite Hi|]. by rewrite Hs in Hj.
  - intros j Hj. assert (Hji : j <> i) by (intros ->; congruence). destruct (Hx j _ _ eq_refl eq_refl) as (_&_&Hk&Hch&_&H).
    destruct (H Hji) as [[_ ?]|[Hj' Hno]]; [congruence|]. rewrite Hj in Hj'. symmetry in Hj'. destruct (Hno Hj') as [H1 H2].
    destruct (Hsl j Hj') as [[G1 (G2&G3&(l&G4)&G5)]|G]; [left|rewrite Hch; by right]. unfold waits. rewrite Hk, Hch. split_and!; [done..| |].
    + exists l. rewrite Hp, decide_False; [done|]. rewrite G4. congruence.
    + intros m. destruct (decide (m = i)) as [->|Hm].
      * rewrite Hp. destruct Htree as [_ Hself]. rewrite decide_False by done. intros Hmp. exfalso. apply H1. rewrite G2, Hmp. done.
      * rewrite Hs by done. rewrite Hp. case_decide as Hd; [|apply G5]. intros [= <-]. by apply H2.
  - destruct Htree as [H1 H2]. split.
    + by rewrite Hp, H1.
    + intros j. rewrite Hp. case_decide as Hd; [|done]. intros [= <-]. congruence.
Qed.

Lemma pinv_step e s s' : pstep e s s' -> pinv (ps_t s) (ps_k s) (ps_c s) (ps_next s) -> pinv (ps_t s') (ps_k s') (ps_c s') (ps_next s').
Proof.
  assert (Hr : forall t ks cs next c i pos, pinv t ks cs next -> cs !! c = Some (mkSc (Some i) pos) -> p_state (t !!! i) = RUNNING).
  { intros t ks cs next c i pos H Hc. apply H. exists c. by exists pos. }
  destruct 1; cbn [ps_t ps_k ps_c ps_next]; intros Hv.
  - apply next_runnable_spec in H0 as (_&Hs&_). by eapply pinv_pick.
  - by eapply pinv_pass.
  - assert (Hy : yield_table i t = alter (fun p => set_state RUNNABLE (set_chan (p_chan (t !!! i)) p)) i t).
    { apply list_eq. intros j. unfold yield_table. destruct (decide (i = j)) as [<-|Hne].
      - rewrite !list_lookup_alter_eq. destruct (t !! i) as [p|] eqn:E; [|done]. cbn. rewrite (list_lookup_total_correct _ _ _ E). by destruct p.
      - by rewrite !list_lookup_alter_ne. }
    rewrite Hy. apply (pinv_leave t ks cs next c i pos ks RUNNABLE); [done..|]. by left.
  - apply (pinv_leave t ks cs next c i pos ks SLEEPING); [done..|]. right. split; [done|]. left. split_and!; [done..|]. intros q [= Hq]. by apply (H1 q).
  - apply (pinv_woke t); [done|by rewrite length_wakeup1|]. intros j. rewrite wakeup1_total. apply woke_woken.
  - apply kill_spec in H as (i&Hi&_&Hl&Ht). apply (pinv_woke t); [done..|]. intros j. rewrite Ht. case_decide; [|apply woke_refl]. cbn.
    case_decide; (split_and!; [done..|]); [by right|left]. by split.
  - apply find_unused_spec in H1 as [Hl Hs]. apply pinv_take; [done|by eapply Hr|done..].
  - by apply pinv_fail.
  - apply pinv_link; [done|by eapply Hr|done].
  - apply pinv_go; [done|by eapply Hr|done].
  - by eapply pinv_exit.
  - pose proof (wait_scan_spec i t 0 false) as Hw. rewrite H1 in Hw. destruct Hw as (_&Hp&Hz). rewrite Nat.sub_0_r in *.
    pose proof (Hr _ _ _ _ _ _ _ Hv H) as Hri. apply pinv_user; [by eapply pinv_reap| |done].
    rewrite list_lookup_total_alter_ne; [done|]. intros ->. congruence.
  - apply pinv_user; [done|by eapply Hr|done].
  - pose proof (wait_scan_spec i t 0 false) as Hw. rewrite H1 in Hw. destruct Hw as [[?|(j&Hj)] Hz]; [done|].
    pose proof (Hr _ _ _ _ _ _ _ Hv H) as Hri. assert (Hil : (i < length t)%nat) by (apply state_in; by rewrite Hri).
    apply (pinv_leave t ks cs next c i pos _ SLEEPING); [done..|]. right. split; [done|]. right. split_and!; [done|intros np b; destruct H0; congruence|].
    unfold waits. setoid_rewrite alter_total; [|done..]. rewrite decide_True by done. cbn. split_and!; [done..| |].
    + exists j. by case_decide.
    + intros k. case_decide; cbn; [done|apply Hz].
Qed.
Lemma pinv_start ncpu : pinv (ps_t (ps_start ncpu)) (ps_k (ps_start ncpu)) (ps_c (ps_start ncpu)) (ps_next (ps_start ncpu)).
Proof.
  unfold ps_start. cbn [ps_t ps_k ps_c ps_next]. set (t := <[_ := _]> _).
  assert (Ht : forall j, t !!! j = if decide (init_slot = j) then set_state RUNNABLE (set_pid 1 zero_proc) else zero_proc).
  { intros j. unfold t. rewrite insert_total by (rewrite length_replicate; unfold NPROC, init_slot; lia). case_decide; [done|].
    destruct (decide (j < NPROC)%nat); [by apply lookup_total_replicate_2|]. rewrite total_out by (rewrite length_replicate; lia). done. }
  assert (Hk : forall j, replicate NPROC User !!! j = User).
  { intros j. rewrite list_lookup_total_alt. destruct (replicate NPROC User !! j) eqn:E; [|done]. by apply lookup_replicate in E as [-> _]. }
  assert (Hon : forall c i, ~ on_cpu (replicate ncpu (mkSc None 0)) c i) by (intros c i (pos&H); by apply lookup_replicate in H as [? _]).
  split.
  - unfold t. rewrite length_insert, !length_replicate. done.
  - intros i. rewrite Ht. split; [by case_decide|]. intros (c&H). by apply Hon in H.
  - intros c c' i H. by apply Hon in H.
  - rewrite Ht, decide_True by done. right; by left.
  - intros i q. rewrite Ht. by case_decide.
  - intros i. rewrite Ht. case_decide; [by left|]. intros [[|[|]]|]; done.
  - intros i np b. by rewrite Hk.
  - intros i j np b b'. by rewrite Hk.
  - intros i. rewrite Ht. by case_decide.
  - intros i. by rewrite Hk.
  - intros i j. rewrite !Ht. case_decide as H1; [|done]. case_decide as H2; [|done]. congruence.
  - split; [lia|]. intros i. rewrite Ht. case_decide; cbn; [lia|]. split; [lia|done].
  - intros i. rewrite Ht. by case_decide.
  - split; [by rewrite Ht, decide_True|]. intros i. rewrite Ht. by case_decide.
Qed.
Lemma pinv_reach ncpu s : rtc pexec (ps_start ncpu) s -> pinv (ps_t s) (ps_k s) (ps_c s) (ps_next s).
Proof.
  intros Hr. pose proof (pinv_start ncpu) as H0. revert H0. induction Hr as [|s1 s2 s3 [e He] _ IH]; [done|].
  intros H. apply IH. by eapply pinv_step.
Qed.

(** ** Fairness *)

(** Runs in which [i] stays RUNNABLE, with the number of decisions that the
    scheduler of processor [c] takes. *)
Inductive starves (i c : nat) : nat -> psys -> psys -> Prop :=
  | starves_0 s : p_state (ps_t s !!! i) = RUNNABLE -> starves i c 0 s s
  | starves_S e s s' s'' n : p_state (ps_t s !!! i) = RUNNABLE -> pstep e s s' -> starves i c n s' s'' ->
      starves i c (match e with Sched c' => if decide (c' = c) then S n else n | Other => n end) s s''.
(** How far the scheduler at [pos] is from looking at [i]. *)
Definition dist (pos i : nat) : nat := if decide (pos <= i)%nat then (i - pos)%nat else (NPROC - pos + 1 + i)%nat.
Definition pos_of (s : psys) (c : nat) : nat := match ps_c s !! c with Some x => sc_pos x | None => 0%nat end.
Lemma pos_keep cs c o o' pos c' : cs !! c = Some (mkSc o pos) ->
  match <[c := mkSc o' pos]> cs !! c' with Some x => sc_pos x | None => 0%nat end = match cs !! c' with Some x => sc_pos x | None => 0%nat end.
Proof.
  intros Hc. destruct (decide (c = c')) as [<-|Hne]; [|by rewrite list_lookup_insert_ne].
  by rewrite list_lookup_insert_eq, Hc by (by eapply sc_in).
Qed.
(** Only its own decisions move a scheduler. *)
Lemma pos_step e s s' c : pstep e s s' -> e <> Sched c -> pos_of s' c = pos_of s c.
Proof.
  destruct 1; intros He; unfold pos_of; cbn [ps_c]; try done; try (by eapply pos_keep).
  - rewrite list_lookup_insert_ne; [done|]. congruence.
  - rewrite list_lookup_insert_ne; [done|]. congruence.
Qed.
Lemma sched_step s s' c i : pstep (Sched c) s s' -> length (ps_t s) = NPROC -> (pos_of s c <= NPROC)%nat ->
  p_state (ps_t s !!! i) = RUNNABLE -> p_state (ps_t s' !!! i) = RUNNABLE ->
  (pos_of s' c <= NPROC)%nat /\ (dist (pos_of s' c) i < dist (pos_of s c) i)%nat.
Proof.
  intros Hstep Hlen Hpos Hi Hi'. assert (Hil : (i < NPROC)%nat) by (rewrite <- Hlen; apply state_in; by rewrite Hi).
  inversion Hstep; subst; unfold pos_of in *; cbn [ps_c ps_t] in *.
  - rewrite list_lookup_insert_eq by (by eapply sc_in). match goal with H : cs !! c = _ |- _ => rewrite H in * end. cbn in *.
    match goal with H : next_runnable _ _ = _ |- _ => apply next_runnable_spec in H as (Hk&Hs&Hb) end.
    split; [lia|]. assert (Hne : i0 <> i).
    { intros ->. unfold sleep_tidy in Hi'. rewrite alter_total, alter_total, !decide_True in Hi' by (rewrite ?length_alter; lia || done). done. }
    assert (~ (pos <= i < i0)%nat) by (intros H; by apply (Hb i)). unfold dist. repeat case_decide; lia.
  - rewrite list_lookup_insert_eq by (by eapply sc_in). match goal with H : cs !! c = _ |- _ => rewrite H in * end. cbn in *.
    split; [lia|]. assert (Hgt : (i < pos)%nat).
    { destruct (decide (pos <= i)%nat); [|lia]. exfalso. by eapply next_runnable_none. }
    unfold dist. repeat case_decide; lia.
Qed.
Lemma starves_bound i c n s s' : starves i c n s s' -> length (ps_t s) = NPROC -> (pos_of s c <= NPROC)%nat ->
  (forall e s1 s2, pstep e s1 s2 -> length (ps_t s1) = NPROC -> length (ps_t s2) = NPROC) -> (n <= dist (pos_of s c) i)%nat.
Proof.
  intros Hr Hl Hp Hlen. induction Hr as [s Hs|e s s1 s2 n Hs Hst Hr IH]; [lia|].
  assert (Hs1 : p_state (ps_t s1 !!! i) = RUNNABLE) by (by inversion Hr).
  specialize (IH (Hlen _ _ _ Hst Hl)).
  destruct e as [c'|]; [destruct (decide (c' = c)) as [->|Hne]|].
  - destruct (sched_step _ _ _ _ Hst Hl Hp Hs Hs1) as [H1 H2]. specialize (IH H1). lia.
  - pose proof (pos_step _ _ _ c Hst ltac:(congruence)) as He. rewrite He in IH. auto.
  - pose proof (pos_step _ _ _ c Hst ltac:(done)) as He. rewrite He in IH. auto.
Qed.
Lemma pstep_length e s s' : pstep e s s' -> length (ps_t s') = length (ps_t s).
Proof.
  destruct 1; cbn [ps_t]; unfold sleep_tidy, yield_table, sleep_table, take_slot; rewrite ?length_alter, ?length_wakeup1; try done.
  - apply kill_spec in H as (i&_&_&?&_). done.
  - unfold exit_table. rewrite length_alter. destruct (reparent_spec i init_slot (length (wakeup1 (ChProc <$> (t !! i ≫= p_parent)) t)) 0 _ eq_refl) as [-> _].
    apply length_wakeup1.
Qed.
Lemma pos_bound ncpu s c : rtc pexec (ps_start ncpu) s -> (pos_of s c <= NPROC)%nat.
Proof.
  intros Hr. assert (H0 : length (ps_t (ps_start ncpu)) = NPROC /\ forall c, (pos_of (ps_start ncpu) c <= NPROC)%nat).
  { split; [apply pinv_start|]. intros c'. unfold pos_of, ps_start. cbn. destruct (replicate ncpu (mkSc None 0) !! c') eqn:E; [|lia].
    apply lookup_replicate in E as [-> _]. cbn. lia. }
  enough (H : length (ps_t s) = NPROC /\ forall c, (pos_of s c <= NPROC)%nat) by apply H. revert H0.
  induction Hr as [|s1 s2 s3 [e He] _ IH]; [done|]. intros [Hl Hp]. apply IH. split; [by rewrite (pstep_length _ _ _ He)|].
  intros c'. destruct (decide (e = Sched c')) as [->|Hne]; [|rewrite (pos_step _ _ _ _ He) by done; apply Hp].
  inversion He; subst; unfold pos_of; cbn [ps_c]; rewrite list_lookup_insert_eq by (by eapply sc_in); cbn; [|lia].
  match goal with H : next_runnable _ _ = _ |- _ => apply next_runnable_spec in H as (Hk&_) end. cbn in Hl. lia.
Qed.
End inv.

(** C6. In every state the system reaches, on any number of processors: a process
    is RUNNING exactly when a processor runs it, and no two processors run
    the same one; no two processes have the same pid; init lives, and every
    process that has started, a zombie too, is init or has a living parent;
    every EMBRYO is being built by one fork. *)
Theorem process_invariant ncpu s : rtc pexec (ps_start ncpu) s ->
  (forall i, p_state (ps_t s !!! i) = RUNNING <-> exists c, on_cpu (ps_c s) c i) /\
  (forall c c' i, on_cpu (ps_c s) c i -> on_cpu (ps_c s) c' i -> c = c') /\
  (forall i j, p_state (ps_t s !!! i) <> UNUSED -> p_pid (ps_t s !!! i) = p_pid (ps_t s !!! j) -> i = j) /\
  alive (p_state (ps_t s !!! init_slot)) /\
  (forall i, alive (p_state (ps_t s !!! i)) \/ p_state (ps_t s !!! i) = ZOMBIE ->
     i = init_slot \/ exists q, p_parent (ps_t s !!! i) = Some q /\ alive (p_state (ps_t s !!! q))) /\
  (forall i, p_state (ps_t s !!! i) = EMBRYO -> exists j b, ps_k s !!! j = Forking i b /\
     forall j' b', ps_k s !!! j' = Forking i b' -> j' = j).
Proof.
  intros [Hlen Hrun Hcpu Hinit Hpar Horph Hfork Hfinj Hemb Hpos Hpid Hpidb Hsl Htree]%pinv_reach. split_and!; try done.
  - intros i j Hi. apply Hpid, Hpidb, Hi.
  - intros i [->|(q&Hq)]%Horph; [by left|]. right. exists q. split; [done|]. by eapply Hpar.
  - intros i (j&b&H)%Hemb. exists j, b. split; [done|]. intros j' b' H'. by eapply Hfinj.
Qed.

(** C33. wait.  A process that sleeps in wait has not been killed, has a child,
    and no child of it is a zombie: no exit has been missed.  And when a
    child of it exits, or it is killed, it is RUNNABLE afterwards. *)
Theorem wait_not_stranded ncpu s i : rtc pexec (ps_start ncpu) s ->
  p_state (ps_t s !!! i) = SLEEPING -> ps_k s !!! i = Waiting ->
  waits (ps_t s) i /\
  (forall j, p_parent (ps_t s !!! j) = Some i -> j <> i -> p_state (exit_table j init_slot (ps_t s) !!! i) = RUNNABLE) /\
  (exists t', kill (p_pid (ps_t s !!! i)) (ps_t s) = Some t' /\ p_state (t' !!! i) = RUNNABLE).
Proof.
  intros [Hlen Hrun Hcpu Hinit Hpar Horph Hfork Hfinj Hemb Hpos Hpid Hpidb Hsl Htree]%pinv_reach Hs Hw.
  assert (Hwt : waits (ps_t s) i) by (destruct (Hsl i Hs) as [[_ ?]|[? _]]; [done|congruence]). split_and!; [done|..].
  - intros j Hj Hne. destruct (exit_table_spec j init_slot (ps_t s) (parent_in _ _ _ Hj)) as [_ Hx].
    destruct (Hx i _ _ eq_refl eq_refl) as (_&_&_&_&_&H). destruct (H ltac:(done)) as [[_ ?]|[_ H1]]; [done|].
    destruct (H1 Hs) as [H2 _]. destruct H2. rewrite Hj. apply Hwt.
  - assert (Hil : (i < length (ps_t s))%nat) by (apply state_in; by rewrite Hs).
    destruct (kill (p_pid (ps_t s !!! i)) (ps_t s)) as [t'|] eqn:Hk.
    + exists t'. split; [done|]. apply kill_spec in Hk as (k&Hk&Hkp&_&Ht). rewrite Ht.
      assert (i = k) as <- by (apply Hpid; [apply Hpidb; by rewrite Hs|done]). rewrite decide_True by done. cbn. by rewrite decide_True.
    + unfold kill in Hk. destruct (list_find _ _) as [[??]|] eqn:Hf; [done|]. apply list_find_None in Hf. rewrite Forall_forall in Hf.
      exfalso. apply (Hf (ps_t s !!! i)); [|done]. apply list_elem_of_lookup. exists i. by apply total_in.
Qed.

(** C38. The scheduler starves nobody: while a process stays RUNNABLE, each
    processor takes at most NPROC scheduling decisions. *)
Theorem scheduler_fair ncpu s s' i c n : rtc pexec (ps_start ncpu) s -> starves i c n s s' -> (n <= NPROC)%nat.
Proof.
  intros Hr Hst. pose proof (pos_bound ncpu s c Hr) as Hp. pose proof (pinv_reach _ _ Hr) as Hv. pose proof (proj1 (iv_len _ _ _ _ Hv)) as Hl.
  assert (Hi : (i < NPROC)%nat).
  { rewrite <- Hl. apply state_in. assert (H : p_state (ps_t s !!! i) = RUNNABLE) by (by inversion Hst). by rewrite H. }
  pose proof (starves_bound i c n s s' Hst Hl Hp) as Hb. eapply Nat.le_trans; [apply Hb|].
  - intros e s1 s2 He H1. by rewrite (pstep_length _ _ _ He).
  - unfold dist. case_decide; lia.
Qed.

(** One processor: init forks, and then waits or yields. *)
Definition dt1 : list proc := sleep_tidy 0 (alter (set_state RUNNING) 0%nat (ps_t (ps_start 1))).
Definition dt2 : list proc := alter (set_state RUNNABLE) 1%nat (alter (set_parent (Some 0%nat)) 1%nat (take_slot 1 2 dt1)).
Definition dk (k : kpos) : list kpos := <[0%nat := k]> (<[0%nat := Forking 1 true]> (<[0%nat := Forking 1 false]> (replicate NPROC User))).
Definition dc1 : list sched_cpu := <[0%nat := mkSc (Some 0%nat) 1]> (replicate 1 (mkSc None 0)).
Definition d_forked : psys := mkPs dt2 (dk User) dc1 3.
Definition d_waiting : psys :=
  mkPs (sleep_table 0 (Some (ChProc 0)) dt2) (<[0%nat := Waiting]> (dk User)) (<[0%nat := mkSc None 1]> dc1) 3.
Definition d_yielded : psys := mkPs (yield_table 0 dt2) (dk User) (<[0%nat := mkSc None 1]> dc1) 3.
Lemma d_forked_reach : rtc pexec (ps_start 1) d_forked.
Proof.
  eapply rtc_l; [eexists; by eapply (Pick _ _ _ _ 0 0 0)|].
  eapply rtc_l; [eexists; by eapply (ForkTake _ _ _ _ 0 0 1 1)|].
  eapply rtc_l; [eexists; by eapply (ForkLink _ _ _ _ 0 0 1 1)|].
  eapply rtc_l; [eexists; by eapply (ForkGo _ _ _ _ 0 0 1 1)|]. apply rtc_refl.
Qed.
Lemma d_waiting_reach : rtc pexec (ps_start 1) d_waiting.
Proof.
  eapply rtc_r; [apply d_forked_reach|]. eexists. eapply (WaitSleep _ _ _ _ 0 0 1); [done|by left|by vm_compute|by vm_compute].
Qed.
Lemma d_yielded_reach : rtc pexec (ps_start 1) d_yielded.
Proof. eapply rtc_r; [apply d_forked_reach|]. eexists. by eapply (Yield _ _ _ _ 0 0 1). Qed.
Lemma process_invariant_witness : exists q, p_parent (ps_t d_waiting !!! 1%nat) = Some q /\ alive (p_state (ps_t d_waiting !!! q)).
Proof.
  destruct (process_invariant 1 d_waiting d_waiting_reach) as (_&_&_&_&H&_).
  destruct (H 1%nat) as [He|Hq]; [left; right; left; by vm_compute|discriminate He|exact Hq].
Defined.
Lemma wait_not_stranded_witness : p_state (exit_table 1 init_slot (ps_t d_waiting) !!! 0%nat) = RUNNABLE.
Proof.
  refine (proj1 (proj2 (wait_not_stranded 1 d_waiting 0 d_waiting_reach _ _)) 1%nat _ _).
  - by vm_compute.
  - by vm_compute.
  - by vm_compute.
  - discriminate.
Defined.
Lemma scheduler_fair_witness : exists s', starves 0 0 1 d_yielded s' /\ (1 <= NPROC)%nat.
Proof.
  assert (H : exists s', starves 0 0 1 d_yielded s').
  { eexists. refine (starves_S 0 0 (Sched 0) d_yielded _ _ 0 _ _ _).
    - by vm_compute.
    - by eapply (Pick _ _ _ _ 0 1 1).
    - apply starves_0. by vm_compute. }
  destruct H as [s' H]. exists s'. split; [exact H|exact (scheduler_fair 1 d_yielded s' 0 0 1 d_yielded_reach H)].
Defined.

(** kill finds unused slots too, their pid is 0, and allocproc does not clear
    p->killed: kill(0) succeeds, and the next child is born killed. *)
Lemma kill_zero_marks_next_child : exists s, rtc pexec (ps_start 1) s /\
  p_state (ps_t s !!! 1%nat) = RUNNABLE /\ p_pid (ps_t s !!! 1%nat) = 2 /\ p_killed (ps_t s !!! 1%nat) = true.
Proof.
  eexists. split.
  - eapply rtc_l; [eexists; by eapply (Pick _ _ _ _ 0 0 0)|].
    eapply rtc_l; [eexists; eapply (Kill _ _ _ _ _ 0); unfold kill; vm_compute; reflexivity|].
    eapply rtc_l; [eexists; by eapply (ForkTake _ _ _ _ 0 0 1 1)|].
    eapply rtc_l; [eexists; by eapply (ForkLink _ _ _ _ 0 0 1 1)|].
    eapply rtc_l; [eexists; by eapply (ForkGo _ _ _ _ 0 0 1 1)|]. apply rtc_refl.
  - split_and!; by vm_compute.
Qed.
