(* ===== verification/Console.v ===== *)
(** console.c: formatted output, the screen, and the line editor between the
    keyboard and the readers of the console.

    The state has the variables of console.c and of global_var.c, the CGA
    memory and its cursor registers, the bytes sent to the serial port and
    the channels woken.  Characters are bytes; uint and int variables are
    kept at 32 bits; the rows of the history and of the commands hold
    terminated strings. *)
From S2P Require Import Prelude Params Str.

Definition BACKSPACE : Z := 0x100.
Definition INPUT_BUF : Z := 128.
Definition SHELL : Z := 0.
Definition EDITOR : Z := 1.
Definition CAT : Z := 2.
(** C(x) *)
Definition ctl (c : Z) : Z := c - 64.
Definition NL : Z := 10.

(** defs_struct.h *)
Definition H_ITEMS : Z := 32.
Definition H_LEN : Z := 128.
Definition MAX_EXECMD : Z := 128.
Definition EXECMD_LEN : Z := 64.
Record HistoryStruct := mkHs { hs_len : Z; hs_start : Z; hs_current : Z; hs_history : list (list Z) }.
Record ExecutedCmd := mkEc { ec_len : Z; ec_commands : list (list Z) }.

Record input := mkIn { in_buf : list Z; in_r : Z; in_w : Z; in_e : Z }.
Record tabs := mkTabs { tab_loc : Z; constant_tab : Z; last_tab_loc : Z; blanks : list Z; blank_len : Z; firstInput : Z }.
Record globals := mkGlob { g_first : Z; g_hs : HistoryStruct; g_ec : ExecutedCmd; g_status : Z }.
Record screen := mkScr { crt : list Z; cur_hi : Z; cur_lo : Z }.
Record console := mkCon {
  c_in : input; c_tabs : tabs; c_glob : globals; c_scr : screen; c_uart : list Z; c_panicked : bool; c_woken : list chan }.

Definition set_in i s := mkCon i (c_tabs s) (c_glob s) (c_scr s) (c_uart s) (c_panicked s) (c_woken s).
Definition set_tabs t s := mkCon (c_in s) t (c_glob s) (c_scr s) (c_uart s) (c_panicked s) (c_woken s).
Definition set_glob g s := mkCon (c_in s) (c_tabs s) g (c_scr s) (c_uart s) (c_panicked s) (c_woken s).
Definition set_scr r s := mkCon (c_in s) (c_tabs s) (c_glob s) r (c_uart s) (c_panicked s) (c_woken s).
Definition upd_in f : K console unit := modify (fun s => set_in (f (c_in s)) s).
Definition upd_tabs f : K console unit := modify (fun s => set_tabs (f (c_tabs s)) s).
Definition upd_glob f : K console unit := modify (fun s => set_glob (f (c_glob s)) s).

(** ** The screen *)

(** pos is in the cursor registers; a row has 80 cells. *)
Definition scr_pos (r : screen) : Z := Z.lor (Z.shiftl (cur_hi r) 8) (cur_lo r).
Definition scroll (pos : Z) (cells : list Z) : list Z :=
  let cells := splice 0 (slice 80 (23 * 80) cells) cells in
  splice pos (replicate (Z.to_nat (24 * 80 - pos)) 0) cells.
Definition cgaputc (c : Z) : K screen unit :=
  r <- get;;
  let pos := scr_pos r in
  let! (cells, pos) :=
    (if c =? NL then ret (crt r, pos + (80 - pos mod 80)) else
     if c =? BACKSPACE then ret (crt r, if 0 <? pos then pos - 1 else pos) else
     cells <- aset (crt r) pos (Z.lor (Z.land c 0xff) 0x0700);;
     ret (cells, pos + 1)) in
  let '(cells, pos) :=
    (if 24 <=? pos / 80 then (scroll (pos - 80) cells, pos - 80) else (cells, pos)) in
  cells <- aset cells pos (Z.lor 32 0x0700);;
  put (mkScr cells (u8 (Z.shiftr pos 8)) (u8 pos)).

Definition on_scr (m : K screen unit) : K console unit := fun s =>
  match m (c_scr s) with Ok a r => Ok a (set_scr r s) | Fail e => Fail e end.
Definition uartputc (c : Z) : K console unit :=
  modify (fun s => mkCon (c_in s) (c_tabs s) (c_glob s) (c_scr s) (c_uart s ++ [u8 c]) (c_panicked s) (c_woken s)).
(** After a panic it never returns. *)
Definition consputc (c : Z) : K console unit :=
  p <- gets c_panicked;;
  if p : bool then fail OutOfFuel else
  (if c =? BACKSPACE then uartputc 8;; uartputc 32;; uartputc 8 else uartputc c);;
  on_scr (cgaputc c).

(** ** cprintf *)

Definition digits : list Z := [48; 49; 50; 51; 52; 53; 54; 55; 56; 57; 97; 98; 99; 100; 101; 102].
(** The digits in the order they are put in buf. *)
Fixpoint digits_of (fuel : nat) (x base : Z) : list Z :=
  match fuel with
  | O => []
  | S f => digits !!! Z.to_nat (x mod base) :: (if x / base =? 0 then [] else digits_of f (x / base) base)
  end.
Definition printint_chars (xx base : Z) (sign : bool) : list Z :=
  let neg := sign && (s32 xx <? 0) in
  let x := if neg then u32 (- xx) else u32 xx in
  rev (digits_of 32 x base ++ (if neg then [45] else [])).
Definition putall (l : list Z) : K console unit := foldr (fun c m => consputc c;; m) (ret tt) l.
Definition printint (xx base : Z) (sign : bool) : K console unit := putall (printint_chars xx base sign).

(** The arguments after fmt: numbers and strings, 0 for a null string. *)
Inductive cparg := AInt (z : Z) | AStr (s : option (list Z)).
Definition str_null : list Z := [40; 110; 117; 108; 108; 41].
Fixpoint cprintf (fmt : list Z) (argp : list cparg) : K console unit :=
  match fmt with
  | [] => ret tt
  | c :: fmt =>
      if c =? 0 then ret tt else
      if negb (c =? 37) then consputc c;; cprintf fmt argp else
      match fmt with
      | [] => ret tt
      | c :: fmt =>
          if c =? 0 then ret tt else
          if c =? 100 then
            match argp with AInt z :: argp => printint z 10 true;; cprintf fmt argp | _ => fail Undef end
          else if (c =? 120) || (c =? 112) then
            match argp with AInt z :: argp => printint z 16 false;; cprintf fmt argp | _ => fail Undef end
          else if c =? 115 then
            match argp with
            | AStr s :: argp => putall (cstr (default str_null s));; cprintf fmt argp
            | _ => fail Undef
            end
          else if c =? 37 then consputc 37;; cprintf fmt argp
          else consputc 37;; consputc c;; cprintf fmt argp
      end
  end.

(** ** The line editor *)

Definition in_get (i : Z) : K console Z := x <- gets c_in;; aget (in_buf x) (u32 i mod INPUT_BUF).
(** input.buf[input.e++ % INPUT_BUF] = c *)
Definition in_put (c : Z) : K console unit :=
  x <- gets c_in;;
  b <- aset (in_buf x) (in_e x mod INPUT_BUF) (u8 c);;
  upd_in (fun x => mkIn b (in_r x) (in_w x) (u32 (in_e x + 1))).
Definition set_e (e : Z) : K console unit := upd_in (fun x => mkIn (in_buf x) (in_r x) (in_w x) (u32 e)).
(** input.w = input.e *)
Definition in_commit : K console unit := upd_in (fun x => mkIn (in_buf x) (in_r x) (in_e x) (in_e x)).
Definition wakeup_input : K console unit :=
  modify (fun s => mkCon (c_in s) (c_tabs s) (c_glob s) (c_scr s) (c_uart s) (c_panicked s) (ChInput :: c_woken s)).

Definition set_tab_loc v t := mkTabs (s32 v) (constant_tab t) (last_tab_loc t) (blanks t) (blank_len t) (firstInput t).
Definition set_constant_tab v t := mkTabs (tab_loc t) v (last_tab_loc t) (blanks t) (blank_len t) (firstInput t).
Definition set_last_tab_loc v t := mkTabs (tab_loc t) (constant_tab t) (s32 v) (blanks t) (blank_len t) (firstInput t).
Definition set_blanks l n t := mkTabs (tab_loc t) (constant_tab t) (last_tab_loc t) l n (firstInput t).
Definition set_firstInput v t := mkTabs (tab_loc t) (constant_tab t) (last_tab_loc t) (blanks t) (blank_len t) v.

(** memset clears 32 bytes of blanks, eight of its ints. *)
Definition initBlank : K console unit :=
  t <- gets c_tabs;;
  when (firstInput t =? 1) (
    i <- gets c_in;;
    upd_tabs (set_firstInput 0);;
    upd_tabs (fun t => set_blanks (<[0%nat := s32 (in_w i)]> (splice 0 (replicate 8 0) (blanks t))) 1 t)).

(** The first command from index [i] on that begins with the [n] bytes at
    [buffer]. *)
Fixpoint find_prefix (k : nat) (i : Z) (cmds : list (list Z)) (buffer : list Z) (n : nat) : K console (option Z) :=
  match k with
  | O => ret None
  | S k =>
      cmd <- aget cmds i;;
      if strncmp buffer cmd n =? 0 then ret (Some i) else find_prefix k (i + 1) cmds buffer n
  end.
(** Copies the characters of the word into the local buffer. *)
Definition word_of (tl e : Z) : K console (list Z) :=
  b <- while (S (Z.to_nat (u32 (e - tl)))) (fun '(i, b) =>
    if negb (u32 i <? e) then ret (inr b) else
    x <- gets c_in;;
    c <- aget (in_buf x) (Z.rem i INPUT_BUF);;
    b <- aset b (i - tl) c;;
    ret (inl (i + 1, b))) (tl, replicate (Z.to_nat INPUT_BUF) 0);;
  aset b (u32 (e - tl)) 0.
(** The recursive call comes with constant_tab = -1 and makes no further one. *)
Fixpoint checkPrefix (fuel : nat) : K console unit :=
  match fuel with
  | O => fail OutOfFuel
  | S fuel =>
      i <- gets c_in;;
      t <- gets c_tabs;;
      buffer <- word_of (tab_loc t) (in_e i);;
      upd_tabs (fun t => set_constant_tab (constant_tab t + 1) t);;
      t <- gets c_tabs;;
      let bufLen := length (cstr buffer) in
      ec <- gets (fun s => g_ec (c_glob s));;
      r <- find_prefix (Z.to_nat (ec_len ec - constant_tab t)) (constant_tab t) (ec_commands ec) buffer bufLen;;
      match r with
      | None =>
          if constant_tab t =? 0 then ret tt else
          upd_tabs (set_constant_tab (-1));;
          checkPrefix fuel
      | Some k =>
          upd_tabs (set_constant_tab k);;
          cmd <- aget (ec_commands ec) k;;
          foldr (fun c m => in_put c;; consputc c;; m) (ret tt) (drop bufLen (cstr cmd))
      end
  end.

(** while(input.e != stop) { input.e--; consputc(BACKSPACE); } *)
Definition erase_to (stop : Z) : K console unit :=
  i <- gets c_in;;
  while (S (Z.to_nat (u32 (in_e i - stop)))) (fun _ : unit =>
    i <- gets c_in;;
    if in_e i =? stop then ret (inr tt) else
    set_e (in_e i - 1);;
    consputc BACKSPACE;;
    ret (inl tt)) tt.
(** The word and the end of line that ESC and ^S put into the input. *)
Definition inject (word : list Z) : K console unit :=
  upd_tabs (set_firstInput 1);;
  in_commit;;
  foldr (fun c m => in_put c;; m) (ret tt) (word ++ [NL]);;
  in_commit;;
  i <- gets c_in;;
  upd_tabs (set_tab_loc (in_e i));;
  wakeup_input.
(** The current history item goes to the line. *)
Definition show_history : K console unit :=
  h <- gets (fun s => g_hs (c_glob s));;
  item <- aget (hs_history h) (hs_current h);;
  foldr (fun c m => in_put c;; consputc c;; m) (ret tt) (cstr item).
Definition set_current (v : Z) : K console unit :=
  upd_glob (fun g => mkGlob (g_first g) (mkHs (hs_len (g_hs g)) (hs_start (g_hs g)) v (hs_history (g_hs g))) (g_ec g) (g_status g)).
Definition set_first (v : Z) : K console unit := upd_glob (fun g => mkGlob v (g_hs g) (g_ec g) (g_status g)).

Definition key_kill_line : K console unit :=
  i <- gets c_in;;
  while (S (Z.to_nat (u32 (in_e i - in_w i)))) (fun _ : unit =>
    i <- gets c_in;;
    if in_e i =? in_w i then ret (inr tt) else
    c <- in_get (in_e i - 1);;
    if c =? NL then ret (inr tt) else
    set_e (in_e i - 1);;
    consputc BACKSPACE;;
    ret (inl tt)) tt.
Definition key_backspace : K console unit :=
  upd_tabs (set_constant_tab (-1));;
  i <- gets c_in;;
  if in_e i =? in_w i then ret tt else
  t <- gets c_tabs;;
  b <- aget (blanks t) (blank_len t - 1);;
  when (in_e i =? u32 b) (
    l <- aset (blanks t) (blank_len t - 1) 0;;
    upd_tabs (set_blanks l (blank_len t - 1));;
    b <- aget l (blank_len t - 2);;
    upd_tabs (set_tab_loc b));;
  set_e (in_e i - 1);;
  consputc BACKSPACE.
Definition key_tab : K console unit :=
  g <- gets c_glob;;
  if g_status g =? SHELL then
    initBlank;;
    t <- gets c_tabs;;
    i <- gets c_in;;
    when (tab_loc t =? -1) (
      upd_tabs (set_tab_loc (in_w i));;
      upd_tabs (set_last_tab_loc 0));;
    t <- gets c_tabs;;
    (if negb (constant_tab t =? -1) then erase_to (u32 (last_tab_loc t))
     else upd_tabs (set_last_tab_loc (in_e i)));;
    checkPrefix 2
  else if (g_status g =? CAT) || (g_status g =? EDITOR) then
    for_range 4 0 (fun _ => in_put 32;; consputc 32)
  else ret tt.
Definition key_up : K console unit :=
  g <- gets c_glob;;
  if negb (g_status g =? SHELL) then ret tt else
  upd_tabs (set_constant_tab (-1));;
  i <- gets c_in;;
  erase_to (in_w i);;
  if g_first g =? 1 then show_history;; set_first 0 else
  let h := g_hs g in
  (if H_ITEMS <=? hs_len h then
     let last := Z.rem (hs_start h + 1) H_ITEMS in
     set_current (if negb (hs_current h =? last) then Z.rem (hs_current h - 1 + H_ITEMS) H_ITEMS else hs_current h)
   else set_current (if 0 <? hs_current h then hs_current h - 1 else hs_current h));;
  show_history.
Definition key_down : K console unit :=
  g <- gets c_glob;;
  if negb (g_status g =? SHELL) then ret tt else
  upd_tabs (set_constant_tab (-1));;
  i <- gets c_in;;
  erase_to (in_w i);;
  let h := g_hs g in
  if hs_current h =? hs_start h then set_first 1 else
  (if H_ITEMS <=? hs_len h then
     set_current (if negb (hs_current h =? hs_start h) then Z.rem (hs_current h + 1) H_ITEMS else hs_current h)
   else set_current (if hs_current h <? hs_start h then hs_current h + 1 else hs_current h));;
  show_history.
Definition key_char (c : Z) : K console unit :=
  i <- gets c_in;;
  if (c =? 0) || negb (u32 (in_e i - in_r i) <? INPUT_BUF) then ret tt else
  initBlank;;
  upd_tabs (set_constant_tab (-1));;
  let c := if c =? 13 then NL else c in
  in_put c;;
  consputc c;;
  i <- gets c_in;;
  when (c =? 32) (
    t <- gets c_tabs;;
    l <- aset (blanks t) (blank_len t) (s32 (in_e i));;
    upd_tabs (set_blanks l (blank_len t + 1));;
    upd_tabs (set_tab_loc (in_e i)));;
  when ((c =? NL) || (c =? ctl 68) || (in_e i =? u32 (in_r i + INPUT_BUF))) (
    upd_tabs (set_firstInput 1);;
    in_commit;;
    upd_tabs (set_tab_loc (in_e i));;
    wakeup_input).

Section intr.
(** procdump of proc.c. *)
Variable procdump : K console unit.

Definition console_key (c : Z) : K console unit :=
  g <- gets c_glob;;
  if c =? ctl 80 then procdump else
  if c =? ctl 85 then key_kill_line else
  if (c =? ctl 72) || (c =? 0x7f) then key_backspace else
  if c =? 27 then
    if (g_status g =? SHELL) || (g_status g =? CAT) then inject [69; 83; 67]
    else if g_status g =? EDITOR then inject [101; 120; 105; 116] else ret tt
  else if c =? 19 then
    if g_status g =? EDITOR then inject [115; 97; 118; 101] else ret tt
  else if c =? 9 then key_tab else
  if c =? 0xE2 then key_up else
  if c =? 0xE3 then key_down else
  if (c =? 0xE4) || (c =? 0xE5) then ret tt else
  key_char c.
(** The characters that getc returns until it returns -1. *)
Definition consoleintr (keys : list Z) : K console unit :=
  foldr (fun c m => console_key c;; m) (ret tt) keys.
End intr.

(** ** Reading and writing *)

(** consoleread either returns, with the result and the bytes stored at dst,
    or goes to sleep on input.r with [n] bytes still to read. *)
Inductive cread := CRet (r : Z) (dst : list Z) | CSleep (n : Z) (dst : list Z).
Definition consoleread (killed : bool) (target : Z) : K console cread :=
  while (S (Z.to_nat target)) (fun '(n, dst) =>
    if negb (0 <? n) then ret (inr (CRet (target - n) dst)) else
    x <- gets c_in;;
    if in_r x =? in_w x then
      if killed then ret (inr (CRet (-1) dst)) else ret (inr (CSleep n dst))
    else
      c <- aget (in_buf x) (in_r x mod INPUT_BUF);;
      upd_in (fun x => mkIn (in_buf x) (u32 (in_r x + 1)) (in_w x) (in_e x));;
      if c =? ctl 68 then
        when (n <? target) (upd_in (fun x => mkIn (in_buf x) (u32 (in_r x - 1)) (in_w x) (in_e x)));;
        ret (inr (CRet (target - n) dst))
      else if c =? NL then ret (inr (CRet (target - (n - 1)) (dst ++ [c])))
      else ret (inl (n - 1, dst ++ [c]))) (target, []).
Definition consolewrite (buf : list Z) (n : Z) : K console Z :=
  putall (map (fun c => Z.land c 0xff) (take (Z.to_nat n) buf));;
  ret n.
