(* ===== verification/ConsoleThms.v ===== *)
(** Theorems on the console: numbers, the screen, and the line editor. *)
From S2P Require Import Prelude Params Str Console.

(** ** Numbers *)

(** The number a digit string stands for. *)
Definition undigit (c : Z) : Z := if c <? 58 then c - 48 else c - 87.
Fixpoint value_le (base : Z) (l : list Z) : Z :=
  match l with [] => 0 | c :: l => undigit c + base * value_le base l end.
Definition is_digit (base c : Z) : Prop := 0 <= undigit c < base /\ digits !!! Z.to_nat (undigit c) = c.

Section printint.
Variable base : Z.
Hypothesis Hbase : 2 <= base <= 16.
Lemma digit_ok d : 0 <= d < base -> is_digit base (digits !!! Z.to_nat d) /\ undigit (digits !!! Z.to_nat d) = d.
Proof using Hbase.
  intros Hd. assert (Hu : undigit (digits !!! Z.to_nat d) = d).
  { assert (H : d = 0 \/ d = 1 \/ d = 2 \/ d = 3 \/ d = 4 \/ d = 5 \/ d = 6 \/ d = 7 \/ d = 8 \/ d = 9 \/ d = 10 \/ d = 11 \/ d = 12 \/ d = 13 \/ d = 14 \/ d = 15) by lia.
    repeat destruct H as [->|H]; try done. by subst. }
  split; [|done]. unfold is_digit. rewrite Hu. done.
Qed.
Lemma digits_of_spec fuel x : (1 <= fuel)%nat -> 0 <= x < base ^ Z.of_nat fuel ->
  let l := digits_of fuel x base in
  value_le base l = x /\ Forall (is_digit base) l /\ (l = [48] \/ (last l <> Some 48 /\ l <> [])).
Proof using Hbase.
  revert x. induction fuel as [|f IH]; intros x Hf Hx; [lia|]. cbn [digits_of]. cbv zeta.
  pose proof (Z.div_mod x base ltac:(lia)) as Hdm. pose proof (Z.mod_pos_bound x base ltac:(lia)) as Hm.
  destruct (digit_ok (x mod base) Hm) as [Hd Hu]. set (c := digits !!! _) in *.
  destruct (Z.eqb_spec (x / base) 0) as [H0|H0].
  - split_and!; [cbn [value_le]; lia|by apply Forall_singleton|]. destruct (decide (c = 48)) as [->|Hc]; [by left|]. right. split; [cbn; congruence|done].
  - destruct f as [|f]; [change (base ^ Z.of_nat 1) with (base ^ 1) in Hx; rewrite Z.pow_1_r in Hx; by rewrite Z.div_small in H0|].
    assert (Hb : 0 <= x / base < base ^ Z.of_nat (S f)).
    { split; [apply Z.div_pos; lia|]. apply Z.div_lt_upper_bound; [lia|]. rewrite <- Z.pow_succ_r by lia.
      replace (Z.succ (Z.of_nat (S f))) with (Z.of_nat (S (S f))) by lia. apply Hx. }
    destruct (IH (x / base) ltac:(lia) Hb) as (H1&H2&H3). set (l := digits_of (S f) (x / base) base) in *.
    split_and!; [cbn [value_le]; rewrite H1; lia|by constructor|]. right. split; [|done]. destruct H3 as [H3|[H3 H4]].
    + rewrite H3 in H1. cbn in H1. lia.
    + destruct l as [|d l']; [done|]. done.
Qed.
Lemma digits_of_length fuel x k : (1 <= k)%nat -> 0 <= x < base ^ Z.of_nat k -> (length (digits_of fuel x base) <= k)%nat.
Proof using Hbase.
  revert x k. induction fuel as [|f IH]; intros x k Hk Hx; cbn [digits_of]; [cbn; lia|].
  destruct (Z.eqb_spec (x / base) 0) as [H0|H0]; [cbn; lia|].
  destruct k as [|[|k]]; [lia| |].
  - change (base ^ Z.of_nat 1) with (base ^ 1) in Hx. rewrite Z.pow_1_r in Hx. by rewrite Z.div_small in H0.
  - cbn [length]. apply le_n_S. apply IH; [lia|]. split; [apply Z.div_pos; lia|]. apply Z.div_lt_upper_bound; [lia|].
    rewrite <- Z.pow_succ_r by lia. replace (Z.succ (Z.of_nat (S k))) with (Z.of_nat (S (S k))) by lia. apply Hx.
Qed.
End printint.

(** printint.  The characters it prints are the digits of the number in the
    base, most significant first, with no leading zero, after a minus sign
    exactly when the number is taken as signed and is negative; the smallest
    int included.  In base 10 and 16 they fit its buffer of 16 characters. *)
Theorem printint_correct xx base sign : 2 <= base <= 16 -> - 2 ^ 31 <= xx < 2 ^ 31 ->
  exists ds, printint_chars xx base sign = (if sign && (xx <? 0) then [45] else []) ++ rev ds /\
    value_le base ds = (if sign && (xx <? 0) then - xx else u32 xx) /\
    Forall (is_digit base) ds /\ (ds = [48] \/ (last ds <> Some 48 /\ ds <> [])) /\
    (10 <= base -> (length (printint_chars xx base sign) <= 16)%nat).
Proof.
  intros Hb Hx. unfold printint_chars. rewrite s32_small by lia. set (neg := sign && (xx <? 0)).
  set (x := if neg then u32 (- xx) else u32 xx).
  assert (Hxb : 0 <= x < 2 ^ 32) by (unfold x; destruct neg; apply Z.mod_pos_bound; lia).
  assert (Hxv : x = if neg then - xx else u32 xx).
  { unfold x. destruct neg eqn:Hn; [|done]. unfold neg in Hn. apply andb_true_iff in Hn as [_ Hn%Z.ltb_lt]. apply u32_small. lia. }
  exists (digits_of 32 x base).
  assert (Hpow : 2 ^ 32 <= base ^ 32) by (apply Z.pow_le_mono_l; lia).
  destruct (digits_of_spec base Hb 32 x ltac:(lia) ltac:(change (Z.of_nat 32) with 32; lia)) as (H1&H2&H3). rewrite rev_app_distr.
  split_and!; [by destruct neg|by rewrite H1|done|done|]. intros H10. rewrite length_app, !length_rev.
  assert (2 ^ 32 <= base ^ Z.of_nat 10) by (etransitivity; [|apply (Z.pow_le_mono_l 10); lia]; by vm_compute).
  pose proof (digits_of_length base Hb 32 x 10 ltac:(lia) ltac:(lia)). destruct neg; cbn [length]; lia.
Qed.
Lemma printint_correct_witness : exists ds, printint_chars (- 2 ^ 31) 10 true = [45] ++ rev ds /\ value_le 10 ds = 2 ^ 31.
Proof.
  destruct (printint_correct (- 2 ^ 31) 10 true ltac:(lia) ltac:(lia)) as (ds&H1&H2&_). exists ds. split; [exact H1|exact H2].
Defined.
Example printint_min : printint_chars (- 2 ^ 31) 10 true = [45; 50; 49; 52; 55; 52; 56; 51; 54; 52; 56].
Proof. by vm_compute. Qed.

(** ** The screen *)

(** 25 rows; the cursor is in the first 24. *)
Record screen_ok (r : screen) : Prop := {
  so_len : length (crt r) = 2000%nat;
  so_pos : 0 <= scr_pos r < 24 * 80;
  so_regs : 0 <= cur_hi r /\ 0 <= cur_lo r < 256 }.
Lemma lor_shiftl k e n : 0 <= n -> 0 <= e < 2 ^ n -> Z.lor (Z.shiftl k n) e = k * 2 ^ n + e.
Proof.
  intros Hn He. assert (Hl : Z.land (Z.shiftl k n) e = 0).
  { apply Z.bits_inj'. intros i Hi. rewrite Z.land_spec, Z.bits_0. destruct (decide (i < n)) as [Hlt|Hge].
    - rewrite Z.shiftl_spec_low by lia. done.
    - rewrite <- (Z.mod_small e (2 ^ n)) by lia. rewrite Z.mod_pow2_bits_high by lia. apply andb_false_r. }
  rewrite <- Z.lxor_lor by done. rewrite <- Z.add_nocarry_lxor by done. by rewrite Z.shiftl_mul_pow2.
Qed.
Lemma regs_pos cells pos : 0 <= pos < 24 * 80 -> scr_pos (mkScr cells (u8 (Z.shiftr pos 8)) (u8 pos)) = pos.
Proof.
  intros Hp. unfold scr_pos. cbn [cur_hi cur_lo]. unfold u8. rewrite Z.shiftr_div_pow2 by lia. change (2 ^ 8) with 256.
  pose proof (Z.div_mod pos 256 ltac:(lia)). pose proof (Z.mod_pos_bound pos 256 ltac:(lia)).
  rewrite (Z.mod_small (pos / 256)) by (split; [apply Z.div_pos; lia|apply Z.div_lt_upper_bound; lia]).
  rewrite lor_shiftl by lia. lia.
Qed.
Lemma splice_lookup off src b k : 0 <= off -> off + Z.of_nat (length src) <= Z.of_nat (length b) -> 0 <= k ->
  splice off src b !!! Z.to_nat k = if decide (off <= k < off + Z.of_nat (length src)) then src !!! Z.to_nat (k - off) else b !!! Z.to_nat k.
Proof.
  intros Ho Hl Hk. unfold splice. case_decide as Hd.
  - rewrite list_lookup_total_inserts by lia. f_equal. lia.
  - rewrite !list_lookup_total_alt. destruct (decide (k < off)).
    + rewrite list_lookup_inserts_lt by lia. done.
    + rewrite list_lookup_inserts_ge by lia. done.
Qed.
Lemma scroll_spec pos cells : length cells = 2000%nat -> 23 * 80 <= pos + 80 <= 24 * 80 -> 0 <= pos ->
  length (scroll pos cells) = 2000%nat /\
  forall k, 0 <= k < 2000 -> scroll pos cells !!! Z.to_nat k =
    if decide (pos <= k < 24 * 80) then 0 else if decide (k < 23 * 80) then cells !!! Z.to_nat (k + 80) else cells !!! Z.to_nat k.
Proof.
  intros Hl Hp H0. unfold scroll. assert (Hs : length (slice 80 (23 * 80) cells) = 1840%nat) by (rewrite length_slice by lia; done).
  split; [by rewrite !length_splice|]. intros k Hk. rewrite splice_lookup by (rewrite ?length_splice, ?length_replicate; lia).
  rewrite length_replicate. destruct (decide (pos <= k < 24 * 80)) as [Hd|Hd].
  - rewrite decide_True by lia. apply lookup_total_replicate_2. lia.
  - rewrite decide_False by lia. rewrite splice_lookup by lia. rewrite Hs. destruct (decide (k < 23 * 80)) as [Hk2|Hk2].
    + rewrite decide_True by lia. unfold slice. rewrite !list_lookup_total_alt, lookup_take_lt, lookup_drop by lia. f_equal. f_equal. lia.
    + by rewrite decide_False by lia.
Qed.

(** Where the character goes, and where the cursor goes. *)
Definition after (c pos : Z) : Z :=
  if c =? NL then pos + (80 - pos mod 80) else if c =? BACKSPACE then (if 0 <? pos then pos - 1 else pos) else pos + 1.
Definition typed (c pos : Z) (cells : list Z) : list Z :=
  if (c =? NL) || (c =? BACKSPACE) then cells else <[Z.to_nat pos := Z.lor (Z.land c 0xff) 0x0700]> cells.
Lemma cgaputc_ok c r : screen_ok r -> let p1 := after c (scr_pos r) in
  wp (cgaputc c) noerr (fun _ r' => screen_ok r' /\
    if 24 <=? p1 / 80 then scr_pos r' = p1 - 80 /\ crt r' = <[Z.to_nat (p1 - 80) := 0x720]> (scroll (p1 - 80) (typed c (scr_pos r) (crt r)))
    else scr_pos r' = p1 /\ crt r' = <[Z.to_nat p1 := 0x720]> (typed c (scr_pos r) (crt r))) r.
Proof.
  intros [Hl Hp Hr] p1. unfold cgaputc. apply wp_bind, wp_get. set (pos := scr_pos r) in *.
  set (cells1 := typed c pos (crt r)).
  assert (Hl1 : length cells1 = 2000%nat) by (unfold cells1, typed; case_match; rewrite ?length_insert; done).
  assert (Hp1 : 0 <= p1 <= 24 * 80).
  { unfold p1, after. pose proof (Z.mod_pos_bound pos 80 ltac:(lia)). pose proof (Z.div_mod pos 80 ltac:(lia)).
    destruct (c =? NL), (c =? BACKSPACE), (Z.ltb_spec 0 pos); lia. }
  eapply wp_seq with (Q := fun x s => x = (cells1, p1) /\ s = r).
  { unfold cells1, typed, p1, after. destruct (c =? NL); [by apply wp_ret|]. destruct (c =? BACKSPACE); [by apply wp_ret|].
    apply wp_bind, wp_aset; [lia|]. by apply wp_ret. }
  intros x s [-> ->]. cbv beta iota.
  destruct (Z.leb_spec 24 (p1 / 80)) as [Hs|Hs].
  - pose proof (Z.div_mod p1 80 ltac:(lia)). pose proof (Z.mod_pos_bound p1 80 ltac:(lia)).
    destruct (scroll_spec (p1 - 80) cells1 Hl1 ltac:(lia) ltac:(lia)) as [Hsl _].
    apply wp_bind, wp_aset; [lia|]. apply wp_put. change (Z.lor 32 1792) with 0x720. split; [split|]; cbn [crt cur_hi cur_lo].
    + by rewrite length_insert.
    + rewrite regs_pos by lia. lia.
    + unfold u8. pose proof (Z.mod_pos_bound (Z.shiftr (p1 - 80) 8) (2 ^ 8) ltac:(lia)). pose proof (Z.mod_pos_bound (p1 - 80) (2 ^ 8) ltac:(lia)). lia.
    + split; [apply regs_pos; lia|done].
  - assert (p1 < 24 * 80) by (pose proof (Z.div_mod p1 80 ltac:(lia)); pose proof (Z.mod_pos_bound p1 80 ltac:(lia)); lia).
    apply wp_bind, wp_aset; [lia|]. apply wp_put. change (Z.lor 32 1792) with 0x720. split; [split|]; cbn [crt cur_hi cur_lo].
    + by rewrite length_insert.
    + rewrite regs_pos by lia. lia.
    + unfold u8. pose proof (Z.mod_pos_bound (Z.shiftr p1 8) (2 ^ 8) ltac:(lia)). pose proof (Z.mod_pos_bound p1 (2 ^ 8) ltac:(lia)). lia.
    + split; [apply regs_pos; lia|done].
Qed.

(** ** The line editor

    What a reader of the console should see: [l_com] are the bytes of the
    lines that are complete, [l_line] is the line being typed, [l_blanks]
    counts the blanks typed since the last line was completed. *)
Record line_ed := mkLine { l_com : list Z; l_line : list Z; l_blanks : Z }.
Definition l_total (L : line_ed) : Z := Z.of_nat (length (l_com L ++ l_line L)).
Definition special (c : Z) : bool :=
  (c =? ctl 80) || (c =? 27) || (c =? 19) || (c =? 9) || (c =? 0xE2) || (c =? 0xE3).
(** A key; [None] for the keys that complete commands, recall history and
    switch programs, and for the 32nd blank of a line. *)
Definition line_key (c : Z) (L : line_ed) : option line_ed :=
  if special c then None else
  if c =? ctl 85 then Some (mkLine (l_com L) [] (l_blanks L)) else
  if (c =? ctl 72) || (c =? 0x7f) then Some (mkLine (l_com L) (removelast (l_line L)) (l_blanks L)) else
  if (c =? 0xE4) || (c =? 0xE5) || (c =? 0) || (l_total L =? INPUT_BUF) then Some L else
  let c := if c =? 13 then NL else c in
  if (c =? 32) && (31 <=? l_blanks L) then None else
  let line := l_line L ++ [c] in
  if (c =? NL) || (c =? ctl 68) || (l_total L + 1 =? INPUT_BUF) then Some (mkLine (l_com L ++ line) [] 0)
  else Some (mkLine (l_com L) line (if c =? 32 then l_blanks L + 1 else l_blanks L)).
(** A read of [n] more bytes after [got]: it ends after a newline or at ^D,
    which it consumes only when it has read nothing. *)
Fixpoint line_read (n : nat) (got com : list Z) : cread * list Z :=
  match n with
  | O => (CRet (Z.of_nat (length got)) got, com)
  | S n' =>
      match com with
      | [] => (CSleep (Z.of_nat n) got, [])
      | c :: com' =>
          if c =? ctl 68 then (CRet (Z.of_nat (length got)) got, match got with [] => com' | _ => com end)
          else if c =? NL then (CRet (Z.of_nat (length got) + 1) (got ++ [c]), com')
          else line_read n' (got ++ [c]) com'
      end
  end.

Record line_rel (L : line_ed) (s : console) : Prop := {
  lr_len : length (in_buf (c_in s)) = 128%nat;
  lr_ptr : exists R, in_r (c_in s) = u32 R /\ in_w (c_in s) = u32 (R + Z.of_nat (length (l_com L))) /\
    in_e (c_in s) = u32 (R + l_total L) /\
    forall k c, (l_com L ++ l_line L) !! k = Some c -> in_buf (c_in s) !!! Z.to_nat ((R + Z.of_nat k) mod 128) = c;
  lr_size : l_total L <= 128;
  lr_line : NL ∉ l_line L;
  lr_blen : length (blanks (c_tabs s)) = 32%nat;
  lr_blank : 0 <= l_blanks L <= 31 /\
    ((firstInput (c_tabs s) = 1 /\ l_line L = [] /\ l_blanks L = 0) \/
     (firstInput (c_tabs s) = 0 /\ 1 <= blank_len (c_tabs s) <= 1 + l_blanks L /\ u32 (blanks (c_tabs s) !!! 0%nat) = in_w (c_in s)));
  lr_scr : screen_ok (c_scr s);
  lr_live : c_panicked s = false }.

Section editor.
Implicit Types (L : line_ed) (s : console).

Lemma mod128 z : u32 z mod 128 = z mod 128.
Proof. apply u32_mod_ring. by exists 33554432. Qed.
Lemma consputc_rel c s E (Q : unit -> console -> Prop) : screen_ok (c_scr s) -> c_panicked s = false ->
  (forall s', c_in s' = c_in s -> c_tabs s' = c_tabs s -> c_glob s' = c_glob s -> screen_ok (c_scr s') -> c_panicked s' = false -> Q tt s') ->
  wp (consputc c) E Q s.
Proof.
  intros Hs Hp HQ. unfold consputc. apply wp_bind, wp_gets. rewrite Hp. cbv iota.
  assert (Hu : forall s1, c_scr s1 = c_scr s -> c_in s1 = c_in s -> c_tabs s1 = c_tabs s -> c_glob s1 = c_glob s -> c_panicked s1 = false ->
    wp (on_scr (cgaputc c)) E Q s1).
  { intros s1 H1 H2 H3 H4 H5. unfold wp, on_scr. rewrite H1. pose proof (cgaputc_ok c (c_scr s) Hs) as Hc. cbv zeta in Hc. unfold wp in Hc.
    destruct (cgaputc c (c_scr s)) as [a r'|e]; [|done]. destruct Hc as [Hc _]. destruct a. apply HQ; cbn; done. }
  apply wp_bind. destruct (c =? BACKSPACE).
  - apply wp_bind, wp_modify. apply wp_bind, wp_modify. apply wp_modify. by apply Hu.
  - apply wp_modify. by apply Hu.
Qed.
(** Storing at the edit index. *)
Lemma in_put_rel L s c E (Q : unit -> console -> Prop) : line_rel L s -> l_total L < 128 -> is_byte c ->
  (forall s', c_tabs s' = c_tabs s -> c_glob s' = c_glob s -> screen_ok (c_scr s') -> c_panicked s' = false ->
     in_r (c_in s') = in_r (c_in s) -> in_w (c_in s') = in_w (c_in s) -> length (in_buf (c_in s')) = 128%nat ->
     (exists R, in_r (c_in s') = u32 R /\ in_w (c_in s') = u32 (R + Z.of_nat (length (l_com L))) /\ in_e (c_in s') = u32 (R + (l_total L + 1)) /\
       forall k d, (l_com L ++ l_line L ++ [c]) !! k = Some d -> in_buf (c_in s') !!! Z.to_nat ((R + Z.of_nat k) mod 128) = d) -> Q tt s') ->
  wp (in_put c) E Q s.
Proof.
  intros [Hl (R&Hr&Hw&He&Hd) Hsz Hln Hbl Hb Hsc Hp] Ht Hc HQ. unfold in_put. apply wp_bind, wp_gets. apply wp_bind.
  unfold INPUT_BUF. rewrite He, mod128. pose proof (Z.mod_pos_bound (R + l_total L) 128 ltac:(lia)) as Hm. apply wp_aset; [lia|].
  apply wp_modify. apply HQ; cbn; try done.
  - by rewrite length_insert.
  - exists R. split_and!; [done..| |].
    + rewrite He, u32_u32_add. f_equal. lia.
    + intros k d. rewrite app_assoc. unfold u8. rewrite (Z.mod_small c) by (unfold is_byte in Hc; lia). intros [Hk|[Hk Hd']]%lookup_app_Some.
      * assert (Hkl : (k < length (l_com L ++ l_line L))%nat) by (by eapply lookup_lt_Some).
        rewrite list_lookup_total_insert_ne; [by apply Hd|]. unfold l_total in *. pose proof (Z.mod_pos_bound (R + Z.of_nat k) 128 ltac:(lia)).
        intros Heq. apply Z2Nat.inj in Heq; [|lia..]. pose proof (Z.div_mod (R + Z.of_nat k) 128).
        pose proof (Z.div_mod (R + Z.of_nat (length (l_com L ++ l_line L))) 128). lia.
      * apply list_lookup_singleton_Some in Hd' as [Hk0 <-]. unfold l_total. replace k with (length (l_com L ++ l_line L)) by lia.
        unfold l_total in Hm. apply list_lookup_total_insert_eq. lia.
Qed.
Lemma total_app c b L : l_total (mkLine (l_com L) (l_line L ++ [c]) b) = l_total L + 1.
Proof. unfold l_total. cbn. rewrite !length_app. cbn. lia. Qed.

(** The edit index is at the end of the complete lines iff the line is empty. *)
Lemma at_w L s : line_rel L s -> (in_e (c_in s) =? in_w (c_in s)) = bool_decide (l_line L = []).
Proof.
  intros [Hl (R&Hr&Hw&He&Hd) Hsz Hln Hbl Hb Hsc Hp]. rewrite Hw, He. unfold l_total in *. rewrite length_app in *.
  assert (Hu : u32 (R + Z.of_nat (length (l_com L))) = u32 (R + Z.of_nat (length (l_com L) + length (l_line L))) <->
    R + Z.of_nat (length (l_com L)) = R + Z.of_nat (length (l_com L) + length (l_line L))) by (apply u32_eq; lia).
  case_bool_decide as Hb'.
  - rewrite Hb'. apply Z.eqb_eq. f_equal. cbn. lia.
  - apply Z.eqb_neq. intros Heq. symmetry in Heq. apply Hu in Heq. destruct (l_line L); [done|]. cbn in Heq. lia.
Qed.
(** Taking the last character back. *)
Lemma back_rel L s b t e' : line_rel L s -> l_line L <> [] -> e' = u32 (in_e (c_in s) - 1) ->
  length (blanks t) = 32%nat -> firstInput t = 0 -> 1 <= blank_len t <= 1 + b -> 0 <= b <= 31 -> u32 (blanks t !!! 0%nat) = in_w (c_in s) ->
  forall s', c_in s' = mkIn (in_buf (c_in s)) (in_r (c_in s)) (in_w (c_in s)) e' -> c_tabs s' = t -> screen_ok (c_scr s') -> c_panicked s' = false ->
  line_rel (mkLine (l_com L) (removelast (l_line L)) b) s'.
Proof.
  intros [Hl (R&Hr&Hw&He&Hd) Hsz Hln Hbl Hb Hsc Hp] Hne -> Ht1 Ht2 Ht3 Hb31 Ht4 s' Hin Htab Hs' Hp'.
  pose proof (app_removelast_last 0 Hne) as Hll. set (line' := removelast (l_line L)) in *. set (c := List.last (l_line L) 0) in *.
  assert (Htot : l_total (mkLine (l_com L) line' b) = l_total L - 1) by (unfold l_total; cbn; rewrite Hll, !length_app; cbn; lia).
  split; rewrite ?Hin, ?Htab; cbn [in_buf in_r in_w in_e l_com l_line l_blanks]; try done.
  - exists R. split_and!; [done..| |].
    + rewrite He, u32_u32_sub, Htot. f_equal. lia.
    + intros k d Hk. apply Hd. rewrite Hll, app_assoc. by apply lookup_app_l_Some.
  - rewrite Htot. lia.
  - intros Hin'. apply Hln. rewrite Hll. apply elem_of_app. by left.
  - split; [done|]. right. done.
Qed.

(** The line is erased, or nothing of it was typed. *)
Lemma line_width L s : line_rel L s -> u32 (in_e (c_in s) - in_w (c_in s)) = Z.of_nat (length (l_line L)).
Proof.
  intros [_ (R&_&Hw&He&_) Hsz]. unfold l_total in *. rewrite length_app in *. rewrite He, Hw, u32_sub by lia. lia.
Qed.
Lemma last_char L s : line_rel L s -> l_line L <> [] ->
  in_buf (c_in s) !!! Z.to_nat (u32 (in_e (c_in s) - 1) mod 128) = List.last (l_line L) 0.
Proof.
  intros [Hl (R&Hr&Hw&He&Hd) Hsz Hln Hbl Hb Hsc Hp] Hne. pose proof (app_removelast_last 0 Hne) as Hll.
  rewrite He, u32_u32_sub, mod128. replace (R + l_total L - 1) with (R + Z.of_nat (length (l_com L ++ removelast (l_line L)))).
  - apply Hd. assert (Ha : l_com L ++ l_line L = (l_com L ++ removelast (l_line L)) ++ [List.last (l_line L) 0]).
    { rewrite <- app_assoc. f_equal. exact Hll. }
    rewrite Ha. by apply list_lookup_middle.
  - assert (length (l_line L) = S (length (removelast (l_line L)))) by (rewrite Hll at 1; rewrite length_app; cbn; lia).
    unfold l_total. rewrite !length_app. lia.
Qed.
Lemma unshown L s : line_rel L s -> l_line L <> [] -> firstInput (c_tabs s) = 0 /\
  1 <= blank_len (c_tabs s) <= 1 + l_blanks L /\ u32 (blanks (c_tabs s) !!! 0%nat) = in_w (c_in s).
Proof. intros H Hne. destruct (lr_blank _ _ H) as [_ [(_&?&_)|?]]; done. Qed.
Lemma set_e_back L s E (Q : unit -> console -> Prop) : line_rel L s -> l_line L <> [] ->
  (forall s', line_rel (mkLine (l_com L) (removelast (l_line L)) (l_blanks L)) s' -> Q tt s') ->
  wp (set_e (in_e (c_in s) - 1);; consputc BACKSPACE) E Q s.
Proof.
  intros H Hne HQ. destruct (unshown L s H Hne) as (H1&H2&H3). apply wp_bind, wp_modify.
  apply consputc_rel; [apply H|apply H|]. intros s' Hin Htab _ Hs Hp. apply HQ.
  eapply (back_rel L s (l_blanks L) (c_tabs s)); [done|done|reflexivity|apply H|done|done|apply H|done|exact Hin|exact Htab|done|done].
Qed.
Lemma kill_line_rel L s : line_rel L s ->
  wp key_kill_line noerr (fun _ s' => line_rel (mkLine (l_com L) [] (l_blanks L)) s') s.
Proof.
  intros H0. unfold key_kill_line. apply wp_bind, wp_gets. rewrite (line_width L s H0), Nat2Z.id.
  apply (wp_while_state (fun _ s1 => exists line, line_rel (mkLine (l_com L) line (l_blanks L)) s1)
    (fun _ s1 => Z.to_nat (u32 (in_e (c_in s1) - in_w (c_in s1))))).
  - exists (l_line L). by destruct L.
  - rewrite (line_width L s H0). lia.
  - intros _ s1 (line&H1). apply wp_bind, wp_gets. rewrite (at_w _ _ H1). cbn [l_line].
    case_bool_decide as Hn; [apply wp_ret; by subst|]. unfold in_get. apply wp_bind. apply wp_bind, wp_gets. unfold INPUT_BUF.
    pose proof (Z.mod_pos_bound (u32 (in_e (c_in s1) - 1)) 128 ltac:(lia)). apply wp_aget; [rewrite (lr_len _ _ H1); lia|].
    rewrite (last_char _ _ H1) by done. cbn [l_line].
    destruct (Z.eqb_spec (List.last line 0) NL) as [He|He].
    { exfalso. apply (lr_line _ _ H1). cbn. rewrite (app_removelast_last 0 Hn), He. apply elem_of_app. right. by left. }
    eapply wp_seq2; [apply (set_e_back _ _ _ (fun _ s2 => line_rel (mkLine (l_com L) (removelast line) (l_blanks L)) s2) H1 Hn); by intros s2|].
    intros [] s2 H2. apply wp_ret. split; [by exists (removelast line)|]. rewrite (line_width _ _ H1), (line_width _ _ H2). cbn [l_line].
    assert (length line = S (length (removelast line))) by (rewrite (app_removelast_last 0 Hn) at 1; rewrite length_app; cbn; lia). lia.
Qed.
Lemma backspace_rel L s : line_rel L s ->
  wp key_backspace noerr (fun _ s' => line_rel (mkLine (l_com L) (removelast (l_line L)) (l_blanks L)) s') s.
Proof.
  intros H0. unfold key_backspace. apply wp_bind, wp_modify. set (s1 := set_tabs _ s).
  assert (H1 : line_rel L s1) by (destruct H0; by split). clearbody s1. clear H0.
  apply wp_bind, wp_gets. rewrite (at_w _ _ H1). case_bool_decide as Hn.
  { apply wp_ret. rewrite Hn. cbn. by destruct L; cbn in Hn; subst. }
  destruct (unshown L s1 H1 Hn) as (Hf&Hbl&Hb0). pose proof (lr_blank _ _ H1) as [Hb31 _].
  apply wp_bind, wp_gets. apply wp_bind. apply wp_aget; [rewrite (lr_blen _ _ H1); lia|].
  set (b := blanks (c_tabs s1) !!! _). unfold when. destruct (Z.eqb_spec (in_e (c_in s1)) (u32 b)) as [He|He].
  2:{ apply wp_bind, wp_ret. by eapply set_e_back. }
  assert (Hb2 : 2 <= blank_len (c_tabs s1)).
  { destruct (decide (blank_len (c_tabs s1) = 1)) as [E1|]; [|lia]. exfalso. pose proof (at_w _ _ H1) as Hw. rewrite bool_decide_false in Hw by done.
    apply Z.eqb_neq in Hw. apply Hw. rewrite He. rewrite <- Hb0. unfold b. by rewrite E1. }
  set (n := blank_len (c_tabs s1)) in *. pose proof (lr_blen _ _ H1) as Hbln.
  apply wp_bind. apply wp_bind. apply wp_aset; [lia|]. apply wp_bind, wp_modify. apply wp_bind. apply wp_aget; [rewrite length_insert; lia|].
  apply wp_modify. apply wp_bind, wp_modify.
  apply consputc_rel; [apply H1|apply H1|]. intros s' Hin Htab _ Hs Hp.
  eapply (back_rel L s1 (l_blanks L)); [done|done|reflexivity|..|exact Hin|exact Htab|done|done]; cbn.
  - by rewrite length_insert.
  - done.
  - lia.
  - done.
  - rewrite list_lookup_total_insert_ne by lia. done.
Qed.

Ltac con := cbn [c_in c_tabs c_glob c_scr c_uart c_panicked c_woken set_in set_tabs set_glob set_scr in_buf in_r in_w in_e
  tab_loc constant_tab last_tab_loc blanks blank_len firstInput set_blanks set_firstInput set_tab_loc set_constant_tab set_last_tab_loc
  l_com l_line l_blanks].
(** initBlank, when the line is being begun. *)
Lemma initBlank_rel L s E (Q : unit -> console -> Prop) : line_rel L s ->
  (forall s', line_rel L s' -> firstInput (c_tabs s') = 0 -> 1 <= blank_len (c_tabs s') <= 1 + l_blanks L ->
     u32 (blanks (c_tabs s') !!! 0%nat) = in_w (c_in s') -> c_in s' = c_in s -> Q tt s') ->
  wp initBlank E Q s.
Proof.
  intros H HQ. unfold initBlank. apply wp_bind, wp_gets. pose proof (lr_blank _ _ H) as [Hb [(Hf&Hl&Hb0)|(Hf&Hn&Hw)]]; rewrite Hf; cbn [when Z.eqb].
  - change (1 =? 1) with true. cbn [when]. apply wp_bind, wp_gets. apply wp_bind, wp_modify. apply wp_modify.
    pose proof (lr_blen _ _ H) as Hbl. destruct (lr_ptr _ _ H) as (R&Hr&Hw&He&Hd).
    assert (H0 : u32 (<[0%nat := s32 (in_w (c_in s))]> (splice 0 (replicate 8 0) (blanks (c_tabs s))) !!! 0%nat) = in_w (c_in s)).
    { rewrite list_lookup_total_insert_eq by (rewrite length_splice; lia). by rewrite u32_s32, Hw, u32_u32. }
    apply HQ; con; [|done|lia|done|done]. destruct H. split; con; try done.
    + by rewrite length_insert, length_splice.
    + split; [done|]. right. split_and!; [done|lia|lia|done].
  - change (0 =? 1) with false. cbn [when]. by apply HQ.
Qed.
Lemma char_rel L s c L' : line_rel L s -> is_byte c -> special c = false ->
  (c =? ctl 85) || (c =? ctl 72) || (c =? 0x7f) || (c =? 0xE4) || (c =? 0xE5) = false -> line_key c L = Some L' ->
  wp (key_char c) noerr (fun _ s' => line_rel L' s') s.
Proof.
  intros H Hc Hsp Hno Hk. unfold line_key in Hk. rewrite Hsp in Hk.
  apply orb_false_iff in Hno as [Hno H5]. apply orb_false_iff in Hno as [Hno H4]. apply orb_false_iff in Hno as [Hno H3].
  apply orb_false_iff in Hno as [H1 H2]. rewrite H1, H2, H3, H4, H5 in Hk. cbn [orb] in Hk. unfold key_char. apply wp_bind, wp_gets.
  assert (Hroom : u32 (in_e (c_in s) - in_r (c_in s)) = l_total L).
  { destruct (lr_ptr _ _ H) as (R&Hr&_&He&_). pose proof (lr_size _ _ H). rewrite He, Hr, u32_sub; unfold l_total in *; lia. }
  rewrite Hroom. pose proof (lr_size _ _ H) as Hsz. unfold INPUT_BUF in *.
  destruct (Z.eqb_spec c 0) as [Hc0|Hc0]; cbn [orb] in Hk |- *; [injection Hk as <-; by apply wp_ret|].
  destruct (Z.eqb_spec (l_total L) 128) as [Hf|Hf].
  { rewrite (proj2 (Z.ltb_ge _ _)) by lia. injection Hk as <-. by apply wp_ret. }
  rewrite (proj2 (Z.ltb_lt _ _)) by lia. cbn [negb]. set (d := if c =? 13 then NL else c) in *.
  assert (Hd : is_byte d) by (unfold d, is_byte, NL in *; destruct (c =? 13); lia). clearbody d. clear Hc H1 H2 H3 H4 H5 Hsp Hc0 c.
  apply wp_bind. apply (initBlank_rel L); [done|]. intros s1 G1 Hfi Hbl Hb0 Hin1. apply wp_bind, wp_modify.
  set (s2 := set_tabs _ s1). assert (G2 : line_rel L s2) by (destruct G1; by split).
  assert (Hfi2 : firstInput (c_tabs s2) = 0) by done. assert (Hbl2 : 1 <= blank_len (c_tabs s2) <= 1 + l_blanks L) by done.
  assert (Hb02 : u32 (blanks (c_tabs s2) !!! 0%nat) = in_w (c_in s2)) by done. clearbody s2. clear G1 Hfi Hbl Hb0 Hin1 s1.
  apply wp_bind. apply (in_put_rel L); [done|lia|done|]. intros s3 Ht3 Hg3 Hs3 Hp3 Hr3 Hw3 Hlen3 (R&Hr&Hw&He&Hbuf). rewrite <- Ht3 in Hfi2, Hbl2, Hb02. rewrite <- Hw3 in Hb02.
  pose proof (lr_blen _ _ G2) as Hbln. rewrite <- Ht3 in Hbln. pose proof (lr_line _ _ G2) as Hnl. pose proof (lr_blank _ _ G2) as [Hb31 _].
  clear Ht3 Hg3 Hr3 Hw3 G2 H Hroom s s2.
  apply wp_bind. apply consputc_rel; [done..|]. intros s4 Hin4 Htab4 _ Hs4 Hp4. rewrite <- Hin4 in *. rewrite <- Htab4 in *. clear Hin4 Htab4 s3 Hs3 Hp3.
  apply wp_bind, wp_gets. set (line := l_line L ++ [d]) in *.
  assert (Hend : (in_e (c_in s4) =? u32 (in_r (c_in s4) + 128)) = (l_total L + 1 =? 128)).
  { rewrite He, Hr, u32_u32_add. unfold l_total in *. destruct (Z.eqb_spec (Z.of_nat (length (l_com L ++ l_line L)) + 1) 128) as [Heq|Hne].
    - apply Z.eqb_eq. f_equal. lia.
    - apply Z.eqb_neq. intros Heq.
      assert (R + (Z.of_nat (length (l_com L ++ l_line L)) + 1) = R + 128) by (apply u32_eq; [lia|exact Heq]). lia. }
  eapply wp_seq with (Q := fun _ s5 => c_in s5 = c_in s4 /\ screen_ok (c_scr s5) /\ c_panicked s5 = false /\ length (blanks (c_tabs s5)) = 32%nat /\
    firstInput (c_tabs s5) = 0 /\ 1 <= blank_len (c_tabs s5) <= 1 + (if d =? 32 then l_blanks L + 1 else l_blanks L) /\
    u32 (blanks (c_tabs s5) !!! 0%nat) = in_w (c_in s5) /\ ((d =? 32) = true -> l_blanks L < 31)).
  { unfold when. destruct (Z.eqb_spec d 32) as [Hd32|Hd32]; [|apply wp_ret; split_and!; done || lia].
    destruct (Z.leb_spec 31 (l_blanks L)) as [Hge|Hlt]; [by cbn [andb] in Hk|].
    apply wp_bind, wp_gets. apply wp_bind. apply wp_aset; [lia|]. apply wp_bind, wp_modify. apply wp_modify. con. split_and!; [done..| | |lia|lia| |done].
    - by rewrite length_insert.
    - done.
    - rewrite list_lookup_total_insert_ne by lia. done. }
  intros _ s5 (Hin5&Hs5&Hp5&Hl5&Hf5&Hn5&Hw5&H31). rewrite <- Hin5 in Hend, Hr, Hw, He, Hbuf, Hlen3 |- *. clear Hin5 s4 Hfi2 Hbl2 Hb02 Hbln Hs4 Hp4.
  assert (Hb' : 0 <= (if d =? 32 then l_blanks L + 1 else l_blanks L) <= 31) by (destruct (d =? 32); [specialize (H31 eq_refl)|]; lia).
  set (b' := if d =? 32 then _ else _) in *.
  assert (Hk' : (if (d =? NL) || (d =? ctl 68) || (l_total L + 1 =? 128) then Some (mkLine (l_com L ++ line) [] 0) else Some (mkLine (l_com L) line b')) = Some L').
  { destruct (Z.eqb_spec d 32) as [->|]; cbn [andb] in Hk; [|exact Hk]. rewrite (proj2 (Z.leb_gt _ _)) in Hk by (specialize (H31 eq_refl); lia). exact Hk. }
  clear Hk. rewrite Hend. unfold when.
  destruct ((d =? NL) || (d =? ctl 68) || (l_total L + 1 =? 128)) eqn:Hc; injection Hk' as <-.
  - apply wp_bind, wp_modify. apply wp_bind, wp_modify. apply wp_bind, wp_modify. apply wp_modify.
    assert (Hlen : Z.of_nat (length (l_com L ++ line)) = l_total L + 1) by (unfold line, l_total; rewrite app_assoc, length_app; cbn; lia).
    assert (Htot : l_total (mkLine (l_com L ++ line) [] 0) = l_total L + 1) by (unfold l_total at 1; cbn [l_com l_line]; by rewrite app_nil_r).
    split; con; try done.
    + exists R. rewrite Htot, Hlen, app_nil_r. done.
    + rewrite Htot. lia.
    + by apply not_elem_of_nil.
    + split; [lia|]. by left.
  - apply orb_false_iff in Hc as [Hc Hc3]. apply orb_false_iff in Hc as [Hc1 Hc2]. apply wp_ret. split; con; try done.
    + exists R. split_and!; [done..| |done]. unfold line. by rewrite total_app.
    + unfold line. rewrite total_app. lia.
    + unfold line. rewrite not_elem_of_app, list_elem_of_singleton. split; [done|]. intros <-. by rewrite Z.eqb_refl in Hc1.
    + split; [done|]. by right.
Qed.

Lemma key_rel dump L s c L' : line_rel L s -> is_byte c -> line_key c L = Some L' ->
  wp (console_key dump c) noerr (fun _ s' => line_rel L' s') s.
Proof.
  intros H Hc Hk. destruct (special c) eqn:Hsp; [unfold line_key in Hk; by rewrite Hsp in Hk|].
  unfold special in Hsp. repeat match goal with Hx : (_ || _) = false |- _ => apply orb_false_iff in Hx as [Hx ?] end.
  unfold console_key. apply wp_bind, wp_gets. repeat match goal with Hx : (c =? _) = false |- _ => rewrite Hx; clear Hx end.
  assert (Hsp : special c = false) by (destruct (special c) eqn:E; [unfold line_key in Hk; by rewrite E in Hk|done]).
  destruct (c =? ctl 85) eqn:H1.
  { unfold line_key in Hk. rewrite Hsp, H1 in Hk. injection Hk as <-. by apply kill_line_rel. }
  destruct (c =? ctl 72) eqn:H2; [|destruct (c =? 0x7f) eqn:H3]; cbn [orb].
  - unfold line_key in Hk. rewrite Hsp, H1, H2 in Hk. injection Hk as <-. by apply backspace_rel.
  - unfold line_key in Hk. rewrite Hsp, H1, H2, H3 in Hk. injection Hk as <-. by apply backspace_rel.
  - destruct ((c =? 0xE4) || (c =? 0xE5)) eqn:H45.
    + unfold line_key in Hk. rewrite Hsp, H1, H2, H3, H45 in Hk. injection Hk as <-. by apply wp_ret.
    + apply orb_false_iff in H45 as [H4 H5]. eapply char_rel; [done..| |done]. by rewrite H1, H2, H3, H4, H5.
Qed.

(** One byte is consumed. *)
Lemma read_one c com line b s : line_rel (mkLine (c :: com) line b) s ->
  in_buf (c_in s) !!! Z.to_nat (in_r (c_in s) mod 128) = c /\
  line_rel (mkLine com line b) (set_in (mkIn (in_buf (c_in s)) (u32 (in_r (c_in s) + 1)) (in_w (c_in s)) (in_e (c_in s))) s).
Proof.
  intros [Hl (R&Hr&Hw&He&Hd) Hsz Hln Hbl Hb Hsc Hp]. cbn [l_com l_line l_blanks] in *.
  assert (Htot : l_total (mkLine (c :: com) line b) = l_total (mkLine com line b) + 1) by (unfold l_total; cbn; lia). split.
  - rewrite Hr, mod128. rewrite <- (Z.add_0_r R). by apply (Hd 0%nat c).
  - split; con; try done.
    + exists (R + 1). rewrite Hr, Hw, He, u32_u32_add, Htot. split_and!; [done|f_equal; cbn; lia|f_equal; lia|].
      intros k d Hk. rewrite <- (Hd (S k) d Hk). do 3 f_equal. lia.
    + lia.
Qed.
Lemma at_r L s : line_rel L s -> (in_r (c_in s) =? in_w (c_in s)) = bool_decide (l_com L = []).
Proof.
  intros [Hl (R&Hr&Hw&He&Hd) Hsz Hln Hbl Hb Hsc Hp]. rewrite Hr, Hw. unfold l_total in *. rewrite length_app in *.
  case_bool_decide as Hb'.
  - rewrite Hb'. apply Z.eqb_eq. f_equal. cbn. lia.
  - apply Z.eqb_neq. intros Heq. assert (R = R + Z.of_nat (length (l_com L))) by (apply u32_eq; [lia|exact Heq]). destruct (l_com L); [done|]. cbn in *. lia.
Qed.
Lemma read_rel L s target : line_rel L s -> 0 <= target ->
  wp (consoleread false target) noerr (fun r s' => exists com', line_read (Z.to_nat target) [] (l_com L) = (r, com') /\
    line_rel (mkLine com' (l_line L) (l_blanks L)) s') s.
Proof.
  intros H Ht. unfold consoleread.
  apply (wp_while (fun '(n, dst) s1 => 0 <= n /\ n + Z.of_nat (length dst) = target /\ exists com1,
      line_rel (mkLine com1 (l_line L) (l_blanks L)) s1 /\ line_read (Z.to_nat n) dst com1 = line_read (Z.to_nat target) [] (l_com L))
    (fun '(n, dst) => Z.to_nat n)).
  - split_and!; [done|cbn; lia|]. exists (l_com L). split; [by destruct L|done].
  - lia.
  - intros [n dst] s1 (Hn&Hnt&com1&H1&Hl). destruct (Z.ltb_spec 0 n) as [Hpos|Hz]; cbn [negb].
    2:{ apply wp_ret. exists com1. replace (Z.to_nat n) with 0%nat in Hl by lia. cbn in Hl. rewrite <- Hl. split; [|done]. do 2 f_equal. lia. }
    destruct (Z.to_nat n) as [|m] eqn:Hm; [lia|]. cbn [line_read] in Hl.
    apply wp_bind, wp_gets. rewrite (at_r _ _ H1). cbn [l_com]. case_bool_decide as He.
    { apply wp_ret. subst com1. exists []. rewrite <- Hl. split; [|done]. do 2 f_equal. lia. }
    destruct com1 as [|c com1]; [done|]. destruct (read_one _ _ _ _ _ H1) as [Hc H2].
    apply wp_bind. unfold INPUT_BUF. pose proof (Z.mod_pos_bound (in_r (c_in s1)) 128 ltac:(lia)). apply wp_aget; [rewrite (lr_len _ _ H1); lia|].
    rewrite Hc. apply wp_bind, wp_modify. set (s2 := set_in _ s1) in *.
    destruct (c =? ctl 68) eqn:Hcd.
    { unfold when. destruct (Z.ltb_spec n target) as [Hlt|Hge].
      - apply wp_bind, wp_modify. apply wp_ret. exists (c :: com1). rewrite <- Hl. split.
        + f_equal; [f_equal; lia|]. destruct dst; [cbn in *; lia|done].
        + assert (Hback : u32 (u32 (in_r (c_in s1) + 1) - 1) = in_r (c_in s1)).
          { destruct (lr_ptr _ _ H1) as (R&Hr&_). rewrite Hr, u32_u32_add, u32_u32_sub. f_equal. lia. }
          unfold s2. con. rewrite Hback. destruct H1. by split.
      - apply wp_bind, wp_ret. apply wp_ret. exists com1. rewrite <- Hl. split; [|done]. f_equal; [f_equal; lia|]. destruct dst; [done|cbn in *; lia]. }
    destruct (c =? NL) eqn:Hcn.
    { apply wp_ret. exists com1. rewrite <- Hl. split; [|done]. do 2 f_equal. lia. }
    apply wp_ret. split; [|lia]. split_and!; [lia|rewrite length_app; cbn; lia|]. exists com1. split; [done|]. replace (Z.to_nat (n - 1)) with m by lia. done.
Qed.
End editor.

(** Keys and reads, in any order. *)
Inductive cevent := Key (c : Z) | Read (n : Z).
Definition event_ok (e : cevent) : Prop := match e with Key c => is_byte c | Read n => 0 <= n end.
Fixpoint lines_run (evs : list cevent) (L : line_ed) : option (list cread * line_ed) :=
  match evs with
  | [] => Some ([], L)
  | Key c :: evs => match line_key c L with Some L => lines_run evs L | None => None end
  | Read n :: evs =>
      let '(r, com) := line_read (Z.to_nat n) [] (l_com L) in
      match lines_run evs (mkLine com (l_line L) (l_blanks L)) with Some (rs, L) => Some (r :: rs, L) | None => None end
  end.
Fixpoint console_run (dump : K console unit) (evs : list cevent) : K console (list cread) :=
  match evs with
  | [] => ret []
  | Key c :: evs => consoleintr dump [c];; console_run dump evs
  | Read n :: evs => r <- consoleread false n;; rs <- console_run dump evs;; ret (r :: rs)
  end.

(** C21. The console refines the line editor: for any sequence of reads and of
    keys that the editor has ([lines_run] gives a result: no TAB, ESC, ^S, ^P,
    no arrow up or down, and at most 31 blanks in a line; [blanks_overflow] and
    [esc_overruns] below show what happens outside these bounds), what the reads return
    is what the editor gives its readers, whole lines with the erased
    characters gone, in the order typed, also when the ring indices wrap; and
    no access is out of bounds. *)
Theorem console_refines dump evs L s rs L' : line_rel L s -> Forall event_ok evs -> lines_run evs L = Some (rs, L') ->
  wp (console_run dump evs) noerr (fun rs' s' => rs' = rs /\ line_rel L' s') s.
Proof.
  intros H Hev. revert L s rs L' H. induction Hev as [|e evs He Hev IH]; intros L s rs L' H Hr; cbn [console_run lines_run] in *.
  - injection Hr as <- <-. by apply wp_ret.
  - destruct e as [c|n].
    + destruct (line_key c L) as [L1|] eqn:Hk; [|done]. apply wp_bind. cbn [consoleintr foldr]. apply wp_bind.
      eapply wp_post; [by eapply key_rel|]. intros [] s1 H1. apply wp_ret. by eapply IH.
    + destruct (line_read (Z.to_nat n) [] (l_com L)) as [r com] eqn:Hl. destruct (lines_run evs _) as [[rs1 L1]|] eqn:Hl1; [|done]. injection Hr as <- <-.
      apply wp_bind. eapply wp_post; [by apply read_rel|]. intros r' s1 (com'&He'&H1). rewrite Hl in He'. injection He' as <- <-.
      apply wp_bind. eapply wp_post; [by eapply IH|]. intros rs' s2 [-> H2]. by apply wp_ret.
Qed.

(** An idle console. *)
Definition con_start : console :=
  mkCon (mkIn (replicate 128 0) 0 0 0) (mkTabs (-1) (-1) (-1) (replicate 32 0) 0 1)
    (mkGlob 0 (mkHs 0 0 0 (replicate 32 (replicate 128 0))) (mkEc 0 (replicate 128 (replicate 64 0))) 0)
    (mkScr (replicate 2000 0) 0 0) [] false [].
Lemma con_start_rel : line_rel (mkLine [] [] 0) con_start.
Proof.
  split; try done.
  - by exists 0.
  - by apply not_elem_of_nil.
  - split; [cbn; lia|]. by left.
Qed.
(** hw, backspace, i, newline, and a read: the reader gets "hi". *)
Lemma console_refines_witness :
  wp (console_run (ret tt) [Key 104; Key 119; Key 8; Key 105; Key 13; Read 10]) noerr
    (fun rs s' => rs = [CRet 3 [104; 105; 10]] /\ line_rel (mkLine [] [] 0) s') con_start.
Proof.
  refine (console_refines _ _ (mkLine [] [] 0) con_start _ _ con_start_rel _ _).
  - repeat constructor; unfold event_ok, is_byte; lia.
  - by vm_compute.
Defined.

(** The 32nd blank of a line is stored after the end of [blanks]. *)
Lemma blanks_overflow : consoleintr (ret tt) (replicate 32 32) con_start = Fail Undef.
Proof. by vm_compute. Qed.
(** ESC, like the other keys that insert words, does not look for room: after
    127 unread characters the ring has 131 of them in its 128 places. *)
Lemma esc_overruns : exists s, consoleintr (ret tt) (replicate 127 97 ++ [27]) con_start = Ok tt s /\
  u32 (in_e (c_in s) - in_r (c_in s)) = 131.
Proof. eexists. split; [by vm_compute|by vm_compute]. Qed.
