(* ===== verification/Kbd.v ===== *)
(** kbd.c and kbd.h: the keyboard driver, from scan codes to characters. *)
From S2P Require Import Prelude Params.

Definition SHIFT : Z := 1.
Definition CTL : Z := 2.
Definition ALT : Z := 4.
Definition CAPSLOCK : Z := 8.
Definition NUMLOCK : Z := 16.
Definition SCROLLLOCK : Z := 32.
Definition E0ESC : Z := 64.

(** A table of 256 codes: those listed from 0 on, and those at an index. *)
Definition table (l : list Z) (ext : list (Z * Z)) : list Z :=
  foldr (fun '(i, v) t => <[Z.to_nat i := v]> t) (l ++ replicate (256 - length l) 0) ext.
Definition shiftcode : list Z :=
  table []
    [(0x1d, 2); (0x2a, 1); (0x36, 1); (0x38, 4); (0x9d, 2); (0xb8, 4)].
Definition togglecode : list Z :=
  table []
    [(0x3a, 8); (0x45, 16); (0x46, 32)].
Definition normalmap : list Z :=
  table [0;27;49;50;51;52;53;54;55;56;57;48;45;61;8;9;
    113;119;101;114;116;121;117;105;111;112;91;93;10;0;97;115;
    100;102;103;104;106;107;108;59;39;96;0;92;122;120;99;118;
    98;110;109;44;46;47;0;42;0;32;0;0;0;0;0;0;
    0;0;0;0;0;0;0;55;56;57;45;52;53;54;43;49;
    50;51;48;46;0;0;0;0]
    [(0x9c, 10); (0xb5, 47); (0xc8, 226); (0xd0, 227); (0xc9, 230); (0xd1, 231); (0xcb, 228); (0xcd, 229); (0x97, 224); (0xcf, 225); (0xd2, 232); (0xd3, 233)].
Definition shiftmap : list Z :=
  table [0;27;33;64;35;36;37;94;38;42;40;41;95;43;8;9;
    81;87;69;82;84;89;85;73;79;80;123;125;10;0;65;83;
    68;70;71;72;74;75;76;58;34;126;0;124;90;88;67;86;
    66;78;77;60;62;63;0;42;0;32;0;0;0;0;0;0;
    0;0;0;0;0;0;0;55;56;57;45;52;53;54;43;49;
    50;51;48;46;0;0;0;0]
    [(0x9c, 10); (0xb5, 47); (0xc8, 226); (0xd0, 227); (0xc9, 230); (0xd1, 231); (0xcb, 228); (0xcd, 229); (0x97, 224); (0xcf, 225); (0xd2, 232); (0xd3, 233)].
Definition ctlmap : list Z :=
  table [0;0;0;0;0;0;0;0;0;0;0;0;0;0;0;0;
    17;23;5;18;20;25;21;9;15;16;0;0;13;0;1;19;
    4;6;7;8;10;11;12;0;0;0;0;28;26;24;3;22;
    2;14;13;0;0;239;0;0]
    [(0x9c, 13); (0xb5, 239); (0xc8, 226); (0xd0, 227); (0xc9, 230); (0xd1, 231); (0xcb, 228); (0xcd, 229); (0x97, 224); (0xcf, 225); (0xd2, 232); (0xd3, 233)].
Definition charcode : list (list Z) := [normalmap; shiftmap; ctlmap; ctlmap].

(** One byte from the data port; [shift] is the static variable.  Returns the
    character, 0 when there is none, and the new [shift]. *)
Definition kbdgetc (shift data : Z) : Z * Z :=
  if data =? 0xE0 then (0, Z.lor shift E0ESC) else
  if has data 0x80 then
    let data := if has shift E0ESC then data else Z.land data 0x7F in
    (0, Z.land shift (Z.lnot (Z.lor (shiftcode !!! Z.to_nat data) E0ESC)))
  else
  let '(data, shift) :=
    (if has shift E0ESC then (Z.lor data 0x80, Z.land shift (Z.lnot E0ESC)) else (data, shift)) in
  let shift := Z.lor shift (shiftcode !!! Z.to_nat data) in
  let shift := Z.lxor shift (togglecode !!! Z.to_nat data) in
  let c := (charcode !!! Z.to_nat (Z.land shift (Z.lor CTL SHIFT))) !!! Z.to_nat data in
  let c := if has shift CAPSLOCK then
             if (97 <=? c) && (c <=? 122) then c + (65 - 97) else
             if (65 <=? c) && (c <=? 90) then c + (97 - 65) else c
           else c in
  (c, shift).
(** The characters of a sequence of scan codes, without the zeros. *)
Fixpoint kbd_keys (shift : Z) (codes : list Z) : list Z * Z :=
  match codes with
  | [] => ([], shift)
  | d :: codes =>
      let '(c, shift) := kbdgetc shift d in
      let '(cs, shift) := kbd_keys shift codes in
      (if c =? 0 then cs else c :: cs, shift)
  end.

(** ** Typing a text

    The scan codes of a character: its key pressed and released, with the
    left shift key held when it is only on the shifted map. *)
Definition find_key (map : list Z) (c : Z) : option Z :=
  (fun '(i, _) => Z.of_nat i) <$> list_find (fun d => d = c) (take 0x58 map).
Definition scan_of (c : Z) : option (list Z) :=
  if c =? 0 then None else
  match find_key normalmap c with
  | Some k => Some [k; Z.lor k 0x80]
  | None =>
      match find_key shiftmap c with
      | Some k => Some [0x2A; k; Z.lor k 0x80; 0xAA]
      | None => None
      end
  end.
Lemma kbd_keys_app shift a b :
  kbd_keys shift (a ++ b) = (let '(cs, s1) := kbd_keys shift a in let '(ds, s2) := kbd_keys s1 b in (cs ++ ds, s2)).
Proof.
  revert shift. induction a as [|d a IH]; intros shift; cbn [kbd_keys app].
  - by destruct (kbd_keys shift b).
  - destruct (kbdgetc shift d) as [c s1]. rewrite IH. destruct (kbd_keys s1 a) as [cs s2]. destruct (kbd_keys s2 b) as [ds s3]. by destruct (c =? 0).
Qed.
(** Every code that scan_of gives, checked by running the driver. *)
Lemma scan_one c l : scan_of c = Some l -> kbd_keys 0 l = ([c], 0).
Proof.
  intros H. assert (Hall : Forall (fun c => default ([c], 0) (kbd_keys 0 <$> scan_of c) = ([c], 0)) (normalmap ++ shiftmap)).
  { apply (bool_decide_unpack _). by vm_compute. }
  assert (Hin : c ∈ normalmap ++ shiftmap).
  { unfold scan_of in H. destruct (c =? 0); [done|]. assert (Hf : forall m k, find_key m c = Some k -> c ∈ m).
    { intros m k. unfold find_key. destruct (list_find _ _) as [[i x]|] eqn:Hx; [|done]. intros _. apply list_find_Some in Hx as (Hx&->&_).
      apply list_elem_of_lookup. exists i. by apply lookup_take_Some in Hx as [Hx _]. }
    apply elem_of_app. destruct (find_key normalmap c) as [k|] eqn:Hn; [left; by eapply Hf|].
    destruct (find_key shiftmap c) as [k|] eqn:Hs; [right; by eapply Hf|done]. }
  rewrite Forall_forall in Hall. specialize (Hall c Hin). by rewrite H in Hall.
Qed.

(** The keyboard round trip: the scan codes of a text, one character after
    the other, give the text back and leave no modifier set. *)
Theorem kbd_types_text text codes : mapM scan_of text = Some codes -> kbd_keys 0 (concat codes) = (text, 0).
Proof.
  revert codes. induction text as [|c text IH]; intros codes H; cbn in H.
  - by injection H as <-.
  - destruct (scan_of c) as [l|] eqn:Hc; [|done]. cbn in H. destruct (mapM scan_of text) as [ls|] eqn:Ht; [|done]. injection H as <-.
    cbn [concat]. rewrite kbd_keys_app, (scan_one _ _ Hc), (IH _ eq_refl). done.
Qed.
Lemma kbd_types_text_witness : kbd_keys 0 (concat [[42; 35; 163; 170]; [23; 151]; [42; 2; 130; 170]]) = ([72; 105; 33], 0).
Proof. refine (kbd_types_text [72; 105; 33] [[42; 35; 163; 170]; [23; 151]; [42; 2; 130; 170]] _). by vm_compute. Defined.
(** The arrow key: an E0 prefix, on press and on release. *)
Example kbd_arrow : kbd_keys 0 [0xE0; 0x48; 0xE0; 0xC8] = ([0xE2], 0).
Proof. by vm_compute. Qed.
(** Releasing one shift key drops the shift of the other. *)
Lemma kbd_two_shifts : kbd_keys 0 [0x2A; 0x36; 0xB6; 0x1E] = ([97], 0).
Proof. by vm_compute. Qed.
