(* ===== verification/Kern.v ===== *)
(** The state of the whole kernel, and syscall.c: how system calls fetch
    their arguments from the memory of the process that makes them.

    A system call here runs from its trap to its return; an outcome [Sleep]
    says that it would wait.  [k_cur] is the variable proc of the processor.
    Addresses of the user are looked up in the page table of the process,
    as the hardware does. *)
From S2P Require Import Prelude Params Str Log BlockIf Fs Pipe Kalloc Vm Proc Console.

(** file.h: struct file. *)
Inductive ftype := FD_NONE | FD_PIPE | FD_INODE.
#[export] Instance ftype_eq : EqDecision ftype.
Proof. solve_decision. Defined.
Record file := mkFile {
  f_type : ftype; f_ref : Z; f_readable : bool; f_writable : bool; f_pipe : Z; f_ip : option nat; f_off : Z }.
#[export] Instance file_inhabited : Inhabited file := populate (mkFile FD_NONE 0 false false 0 None 0).

Record kern := mkKern {
  k_fs : @fsys lst; k_mem : kmem; k_ft : list file; k_pipes : gmap Z pipe;
  k_procs : list proc; k_cur : nat; k_init : nat; k_next : Z; k_ticks : Z; k_con : console }.
Definition set_kfs v k := mkKern v (k_mem k) (k_ft k) (k_pipes k) (k_procs k) (k_cur k) (k_init k) (k_next k) (k_ticks k) (k_con k).
Definition set_kmem v k := mkKern (k_fs k) v (k_ft k) (k_pipes k) (k_procs k) (k_cur k) (k_init k) (k_next k) (k_ticks k) (k_con k).
Definition set_kft v k := mkKern (k_fs k) (k_mem k) v (k_pipes k) (k_procs k) (k_cur k) (k_init k) (k_next k) (k_ticks k) (k_con k).
Definition set_kpipes v k := mkKern (k_fs k) (k_mem k) (k_ft k) v (k_procs k) (k_cur k) (k_init k) (k_next k) (k_ticks k) (k_con k).
Definition set_kprocs v k := mkKern (k_fs k) (k_mem k) (k_ft k) (k_pipes k) v (k_cur k) (k_init k) (k_next k) (k_ticks k) (k_con k).
Definition set_knext v k := mkKern (k_fs k) (k_mem k) (k_ft k) (k_pipes k) (k_procs k) (k_cur k) (k_init k) v (k_ticks k) (k_con k).
Definition set_kinit v k := mkKern (k_fs k) (k_mem k) (k_ft k) (k_pipes k) (k_procs k) (k_cur k) v (k_next k) (k_ticks k) (k_con k).
Definition set_kticks v k := mkKern (k_fs k) (k_mem k) (k_ft k) (k_pipes k) (k_procs k) (k_cur k) (k_init k) (k_next k) v (k_con k).
Definition set_kcon v k := mkKern (k_fs k) (k_mem k) (k_ft k) (k_pipes k) (k_procs k) (k_cur k) (k_init k) (k_next k) (k_ticks k) v.

(** A routine of one component run in the whole. *)
Definition zoom {S A} (get : kern -> S) (set : S -> kern -> kern) (m : K S A) : K kern A := fun k =>
  match m (get k) with Ok a s => Ok a (set s k) | Fail e => Fail e end.
Definition on_fs {A} (m : K (@fsys lst) A) : K kern A := zoom k_fs set_kfs m.
Definition on_log {A} (m : K lst A) : K kern A := on_fs (blk m).
Definition on_mem {A} (m : K kmem A) : K kern A := zoom k_mem set_kmem m.
Definition on_con {A} (m : K console A) : K kern A := zoom k_con set_kcon m.
Lemma wp_zoom {S A} get set (m : K S A) E (Q : A -> kern -> Prop) k :
  wp m E (fun a s => Q a (set s k)) (get k) -> wp (zoom get set m) E Q k.
Proof. unfold wp, zoom. by destruct (m (get k)). Qed.

Definition proc_at (i : nat) : K kern proc := fun k => match k_procs k !! i with Some p => Ok p k | None => Fail Undef end.
Definition upd_proc (i : nat) (f : proc -> proc) : K kern unit := modify (fun k => set_kprocs (alter f i (k_procs k)) k).
Definition curproc : K kern proc := i <- gets k_cur;; proc_at i.
Definition upd_cur (f : proc -> proc) : K kern unit := i <- gets k_cur;; upd_proc i f.
Definition kwakeup (c : chan) : K kern unit := modify (fun k => set_kprocs (wakeup1 (Some c) (k_procs k)) k).

(** ** User memory

    The kernel runs on the page table of the process: an access to a page
    that is not present faults, which the kernel does not survive. *)
Definition uaddr (pgdir a : Z) : K kmem Z :=
  pte <- walkpgdir pgdir a false;;
  if pte =? 0 then fail Undef else
  e <- ld32 pte;;
  if has e PTE_P then ret (p2v (PTE_ADDR e)) else fail Undef.
Definition uld8 (pgdir a : Z) : K kmem Z :=
  f <- uaddr pgdir a;;
  pg <- ldpage f;;
  ret (peek pg (a mod PGSIZE)).
Definition ust8 (pgdir a v : Z) : K kmem unit :=
  f <- uaddr pgdir a;;
  pg <- ldpage f;;
  stpage f (<[Z.to_nat (a mod PGSIZE) := u8 v]> pg).
Fixpoint uld (pgdir a : Z) (n : nat) : K kmem (list Z) :=
  match n with
  | O => ret []
  | S n => b <- uld8 pgdir a;; l <- uld pgdir (a + 1) n;; ret (b :: l)
  end.
Fixpoint ust (pgdir a : Z) (l : list Z) : K kmem unit :=
  match l with [] => ret tt | b :: l => ust8 pgdir a b;; ust pgdir (a + 1) l end.
Definition user_load (a : Z) (n : nat) : K kern (list Z) := p <- curproc;; on_mem (uld (p_pgdir p) a n).
Definition user_store (a : Z) (l : list Z) : K kern unit := p <- curproc;; on_mem (ust (p_pgdir p) a l).

(** ** syscall.c

    [None] is the return of -1. *)
Definition fetchint (addr : Z) : K kern (option Z) :=
  p <- curproc;;
  if (p_sz p <=? addr) || (p_sz p <? u32 (addr + 4)) then ret None else
  l <- user_load addr 4;;
  ret (Some (s32 (le_dec l))).
(** The address, and the string without its terminator. *)
Definition fetchstr (addr : Z) : K kern (option (Z * list Z)) :=
  p <- curproc;;
  if p_sz p <=? addr then ret None else
  r <- while (S (Z.to_nat (p_sz p - addr))) (fun '(s, l) =>
    if negb (s <? p_sz p) then ret (inr None) else
    c <- on_mem (uld8 (p_pgdir p) s);;
    if c =? 0 then ret (inr (Some l)) else ret (inl (s + 1, l ++ [c]))) (addr, []);;
  ret (match r with Some l => Some (addr, l) | None => None end).
Definition argint (n : Z) : K kern (option Z) :=
  p <- curproc;;
  fetchint (u32 (tf_esp (p_tf p) + 4 + 4 * n)).
Definition argptr (n size : Z) : K kern (option Z) :=
  r <- argint n;;
  match r with
  | None => ret None
  | Some i =>
      p <- curproc;;
      if (p_sz p <=? u32 i) || (p_sz p <? u32 (u32 i + size)) then ret None else ret (Some (u32 i))
  end.
Definition argstr (n : Z) : K kern (option (Z * list Z)) :=
  r <- argint n;;
  match r with None => ret None | Some addr => fetchstr (u32 addr) end.
