(* ===== verification/File.v ===== *)
(** file.c and pipealloc of pipe.c: the table of open files, over pipes and
    inodes.

    A pointer to a struct file is its index in ftable.  The struct pipe in a
    page that pipealloc got is kept in [k_pipes] at the address of the page. *)
From S2P Require Import Prelude Params Str Log BlockIf Fs Pipe Kalloc Vm Proc Console Kern.

Definition set_fref v f := mkFile (f_type f) v (f_readable f) (f_writable f) (f_pipe f) (f_ip f) (f_off f).
Definition set_ftype v f := mkFile v (f_ref f) (f_readable f) (f_writable f) (f_pipe f) (f_ip f) (f_off f).
Definition set_foff v f := mkFile (f_type f) (f_ref f) (f_readable f) (f_writable f) (f_pipe f) (f_ip f) v.
Definition file_at (f : nat) : K kern file := fun k => match k_ft k !! f with Some x => Ok x k | None => Fail Undef end.
Definition upd_file (f : nat) (g : file -> file) : K kern unit := modify (fun k => set_kft (alter g f (k_ft k)) k).
(** f->ip *)
Definition ip_of (x : file) : K kern nat := match f_ip x with Some ip => ret ip | None => fail Undef end.
Definition pipe_at (p : Z) : K kern pipe := fun k => match k_pipes k !! p with Some x => Ok x k | None => Fail Undef end.
Definition upd_pipe (p : Z) (x : pipe) : K kern unit := modify (fun k => set_kpipes (<[p := x]> (k_pipes k)) k).
Fixpoint wake_all (cs : list chan) : K kern unit :=
  match cs with [] => ret tt | c :: cs => kwakeup c;; wake_all cs end.

Section file.
Variable devsw : Z -> option (@devops lst).
Variable kend : Z.

Definition filealloc : K kern (option nat) :=
  t <- gets k_ft;;
  match list_find (fun f => f_ref f = 0) t with
  | Some (i, _) => upd_file i (set_fref 1);; ret (Some i)
  | None => ret None
  end.

Definition filedup (f : nat) : K kern nat :=
  x <- file_at f;;
  if f_ref x <? 1 then panic "filedup" else
  upd_file f (set_fref (f_ref x + 1));;
  ret f.

(** pipeclose, on the pipe at address [p]; the last end frees the page. *)
Definition kpipeclose (p : Z) (writable : bool) : K kern unit :=
  x <- pipe_at p;;
  let '(x, wk, freed) := pipeclose x writable in
  upd_pipe p x;;
  wake_all wk;;
  if freed : bool then
    modify (fun k => set_kpipes (delete p (k_pipes k)) k);;
    on_mem (kfree kend p)
  else ret tt.

Definition fileclose (f : nat) : K kern unit :=
  x <- file_at f;;
  if f_ref x <? 1 then panic "fileclose" else
  upd_file f (set_fref (f_ref x - 1));;
  if 0 <? f_ref x - 1 then ret tt else
  ff <- file_at f;;
  upd_file f (fun x => set_ftype FD_NONE (set_fref 0 x));;
  match f_type ff with
  | FD_PIPE => kpipeclose (f_pipe ff) (f_writable ff)
  | FD_INODE =>
      ip <- ip_of ff;;
      on_log begin_trans;;
      on_fs (iput ip);;
      on_log commit_trans
  | FD_NONE => ret tt
  end.

Definition filestat (f : nat) : K kern (option stat) :=
  x <- file_at f;;
  match f_type x with
  | FD_INODE =>
      ip <- ip_of x;;
      on_fs (ilock ip);;
      st <- on_fs (stati ip);;
      on_fs (iunlock ip);;
      ret (Some st)
  | _ => ret None
  end.

(** The result and the bytes stored at addr. *)
Definition fileread (f : nat) (n : Z) : K kern (Z * list Z) :=
  x <- file_at f;;
  if negb (f_readable x) then ret (-1, []) else
  match f_type x with
  | FD_PIPE =>
      p <- pipe_at (f_pipe x);;
      me <- curproc;;
      let '(p, wk, r) := piperead p (p_killed me) n in
      match r with
      | RSleep => fail (Sleep ChPipeR)
      | RRet v l => upd_pipe (f_pipe x) p;; wake_all wk;; ret (v, l)
      end
  | FD_INODE =>
      ip <- ip_of x;;
      on_fs (ilock ip);;
      let! (r, l) := on_fs (readi devsw ip (f_off x) (u32 n)) in
      when (0 <? s32 r) (upd_file f (set_foff (u32 (f_off x + r))));;
      on_fs (iunlock ip);;
      ret (s32 r, l)
  | FD_NONE => panic "fileread"
  end.

(** ((LOGSIZE-1-1-2) / 2) * 512 *)
Definition wmax : Z := (LOGSIZE - 1 - 1 - 2) / 2 * 512.
(** The loop over the pieces that fit a transaction, from byte [i] on. *)
Definition filewrite_body (f ip : nat) (addr : list Z) (n i : Z) : K kern (Z + Z) :=
  if negb (i <? n) then ret (inr i) else
  let n1 := if wmax <? n - i then wmax else n - i in
  on_log begin_trans;;
  on_fs (ilock ip);;
  x <- file_at f;;
  r <- on_fs (writei devsw ip (drop (Z.to_nat i) addr) (f_off x) n1);;
  when (0 <? r) (upd_file f (set_foff (u32 (f_off x + r))));;
  on_fs (iunlock ip);;
  on_log commit_trans;;
  if r <? 0 then ret (inr i) else
  if negb (r =? n1) then panic "short filewrite" else
  ret (inl (i + r)).
Definition filewrite (f : nat) (addr : list Z) (n : Z) : K kern Z :=
  x <- file_at f;;
  if negb (f_writable x) then ret (-1) else
  match f_type x with
  | FD_PIPE =>
      p <- pipe_at (f_pipe x);;
      me <- curproc;;
      let '(p, wk, r) := pipewrite p (p_killed me) addr n in
      match r with
      | WSleep _ => fail (Sleep ChPipeW)
      | WRet v => upd_pipe (f_pipe x) p;; wake_all wk;; ret v
      end
  | FD_INODE =>
      ip <- ip_of x;;
      i <- while (S (Z.to_nat (n / wmax + 1))) (filewrite_body f ip addr n) 0;;
      ret (if i =? n then n else -1)
  | FD_NONE => panic "filewrite"
  end.

(** The reading and the writing end; the branch to bad closes what there is. *)
Definition pipealloc : K kern (option (nat * nat)) :=
  f0 <- filealloc;;
  match f0 with
  | None => ret None
  | Some f0 =>
      f1 <- filealloc;;
      match f1 with
      | None => fileclose f0;; ret None
      | Some f1 =>
          p <- on_mem kalloc;;
          if p =? 0 then fileclose f0;; fileclose f1;; ret None else
          pg <- on_mem (ldpage p);;
          upd_pipe p (pipe_init (slice 52 PIPESIZE pg));;
          upd_file f0 (fun x => mkFile FD_PIPE (f_ref x) true false p (f_ip x) (f_off x));;
          upd_file f1 (fun x => mkFile FD_PIPE (f_ref x) false true p (f_ip x) (f_off x));;
          ret (Some (f0, f1))
      end
  end.
End file.
