(* ===== verification/ProcOps.v ===== *)
(** proc.c: making, growing and ending processes, over memory and files.

    [initcode] is the program linked into the kernel as initcode; [forkret]
    and [trapret] are code addresses.  switchuvm only loads hardware
    registers. *)
From S2P Require Import Prelude Params Str Log BlockIf Fs Pipe Kalloc Vm Proc Console Kern File.

(** sizeof(struct trapframe), sizeof(struct context) *)
Definition TF_SZ : Z := 76.
Definition CTX_SZ : Z := 20.
(** mmu.h *)
Definition FL_IF : Z := 0x200.
Definition SEG_UCODE : Z := 4.
Definition SEG_UDATA : Z := 5.
Definition DPL_USER : Z := 3.

Section procs.
Variable devsw : Z -> option (@devops lst).
Variables (kend kdata forkret trapret : Z) (initcode : list Z).

(** The new process and the address of its context on the kernel stack. *)
Definition allocproc : K kern (option nat) :=
  t <- gets k_procs;;
  match find_unused t with
  | None => ret None
  | Some np =>
      pid <- gets k_next;;
      modify (fun k => set_knext (s32 (pid + 1)) (set_kprocs (take_slot np pid (k_procs k)) k));;
      kstack <- on_mem kalloc;;
      upd_proc np (set_kstack kstack);;
      if kstack =? 0 then upd_proc np (set_state UNUSED);; ret None else
      let sp := kstack + KSTACKSIZE - TF_SZ - 4 in
      on_mem (st32 sp trapret);;
      let sp := sp - CTX_SZ in
      pg <- on_mem (ldpage kstack);;
      on_mem (stpage kstack (splice (sp - kstack) (replicate (Z.to_nat CTX_SZ) 0) pg));;
      on_mem (st32 (sp + 16) forkret);;
      upd_proc np (set_ctx sp);;
      ret (Some np)
  end.

Definition user_tf : trapframe :=
  let ds := Z.lor (Z.shiftl SEG_UDATA 3) DPL_USER in
  mkTf 0 0 0 0 0 0 0 0 0 0 ds ds 0 0 0 (Z.lor (Z.shiftl SEG_UCODE 3) DPL_USER) FL_IF PGSIZE ds.
Definition userinit : K kern unit :=
  p <- allocproc;;
  match p with
  | None => fail Undef
  | Some p =>
      modify (set_kinit p);;
      pgdir <- on_mem (setupkvm kdata);;
      if pgdir =? 0 then panic "userinit: out of memory?" else
      on_mem (inituvm pgdir initcode (Z.of_nat (length initcode)));;
      upd_proc p (set_mem PGSIZE pgdir);;
      upd_proc p (set_tf user_tf);;
      upd_proc p (fun x => set_name (safestrcpy (p_name x) [105; 110; 105; 116; 99; 111; 100; 101] 16) x);;
      cwd <- on_fs (namei devsw 0 [SLASH]);;
      upd_proc p (set_cwd cwd);;
      upd_proc p (set_state RUNNABLE)
  end.

Definition growproc (n : Z) : K kern Z :=
  p <- curproc;;
  let sz := p_sz p in
  sz <- (if 0 <? n then on_mem (allocuvm kend (p_pgdir p) sz (u32 (sz + n))) else
         if n <? 0 then on_mem (deallocuvm kend (p_pgdir p) sz (u32 (sz + n))) else ret sz);;
  if (sz =? 0) && negb (n =? 0) then ret (-1) else
  upd_cur (fun x => set_mem sz (p_pgdir x) x);;
  ret 0.

(** np->ofile[i] = filedup(proc->ofile[i]) *)
Fixpoint dup_files (l : list (option nat)) : K kern (list (option nat)) :=
  match l with
  | [] => ret []
  | None :: l => l <- dup_files l;; ret (None :: l)
  | Some f :: l => f <- filedup f;; l <- dup_files l;; ret (Some f :: l)
  end.
(** The slots of [old] where [l] has a file get that file. *)
Definition merge_files (old l : list (option nat)) : list (option nat) :=
  zip_with (fun o n => match n with Some f => Some f | None => o end) old l.
Definition fork : K kern Z :=
  np <- allocproc;;
  match np with
  | None => ret (-1)
  | Some np =>
      p <- curproc;;
      pgdir <- on_mem (copyuvm kend kdata (p_pgdir p) (p_sz p));;
      upd_proc np (fun x => set_mem (p_sz x) pgdir x);;
      if pgdir =? 0 then
        x <- proc_at np;;
        on_mem (kfree kend (p_kstack x));;
        upd_proc np (fun x => set_state UNUSED (set_kstack 0 x));;
        ret (-1)
      else
      me <- gets k_cur;;
      upd_proc np (fun x => set_parent (Some me) (set_mem (p_sz p) (p_pgdir x) x));;
      upd_proc np (set_tf (set_eax 0 (p_tf p)));;
      files <- dup_files (p_ofile p);;
      upd_proc np (fun x => set_ofile (merge_files (p_ofile x) files) x);;
      cwd <- (match p_cwd p with Some ip => on_fs (idup ip) | None => fail Undef end);;
      upd_proc np (set_cwd (Some cwd));;
      x <- proc_at np;;
      upd_proc np (set_state RUNNABLE);;
      upd_proc np (fun x => set_name (safestrcpy (p_name x) (p_name p) 16) x);;
      ret (p_pid x)
  end.

(** exit, up to sched, from which it does not return. *)
Definition close_fd (fd : Z) : K kern unit :=
  p <- curproc;;
  f <- aget (p_ofile p) fd;;
  match f with
  | Some f => fileclose kend f;; upd_cur (fun p => set_ofile (<[Z.to_nat fd := None]> (p_ofile p)) p)
  | None => ret tt
  end.
Definition exit : K kern unit :=
  me <- gets k_cur;;
  init <- gets k_init;;
  if (me =? init)%nat then panic "init exiting" else
  for_range NOFILE 0 close_fd;;
  p <- curproc;;
  (match p_cwd p with Some ip => on_fs (iput ip) | None => fail Undef end);;
  upd_cur (set_cwd None);;
  modify (fun k => set_kprocs (exit_table me init (k_procs k)) k).

Definition wait : K kern Z :=
  me <- gets k_cur;;
  t <- gets k_procs;;
  p <- curproc;;
  match wait_scan me 0 t false with
  | Reap i =>
      c <- proc_at i;;
      on_mem (kfree kend (p_kstack c));;
      on_mem (freevm kend (p_pgdir c));;
      upd_proc i reap;;
      ret (p_pid c)
  | NoKids => ret (-1)
  | HaveKids => if p_killed p then ret (-1) else fail (Sleep (ChProc me))
  end.

(** kill of proc.c, on the kernel's table. *)
Definition kkill (pid : Z) : K kern Z :=
  t <- gets k_procs;;
  match kill pid t with
  | Some t => modify (set_kprocs t);; ret 0
  | None => ret (-1)
  end.
End procs.
