(* ===== verification/Sysfile.v ===== *)
(** sysfile.c: the system calls on files. *)
From S2P Require Import Prelude Params Str Log BlockIf Fs Pipe Kalloc Vm Proc Console Kern File ProcOps.

Section sysfile.
Variable devsw : Z -> option (@devops lst).
Variable kend : Z.

(** namei and nameiparent start at the directory of the process. *)
Definition kcwd : K kern nat := p <- curproc;; match p_cwd p with Some ip => ret ip | None => fail Undef end.
Definition knamei (path : list Z) : K kern (option nat) := cwd <- kcwd;; on_fs (namei devsw cwd path).
Definition knameiparent (path : list Z) : K kern (option (nat * list Z)) :=
  cwd <- kcwd;; on_fs (nameiparent devsw cwd path (replicate DIRSIZ 0)).

(** The descriptor and the file; [None] is -1. *)
Definition argfd (n : Z) : K kern (option (Z * nat)) :=
  r <- argint n;;
  match r with
  | None => ret None
  | Some fd =>
      if (fd <? 0) || (Z.of_nat NOFILE <=? fd) then ret None else
      p <- curproc;;
      f <- aget (p_ofile p) fd;;
      ret (match f with Some f => Some (fd, f) | None => None end)
  end.
Definition fdalloc (f : nat) : K kern Z :=
  p <- curproc;;
  match list_find (fun o => o = None) (p_ofile p) with
  | Some (fd, _) => upd_cur (fun p => set_ofile (<[fd := Some f]> (p_ofile p)) p);; ret (Z.of_nat fd)
  | None => ret (-1)
  end.

Definition sys_dup : K kern Z :=
  r <- argfd 0;;
  match r with
  | None => ret (-1)
  | Some (_, f) =>
      fd <- fdalloc f;;
      if fd <? 0 then ret (-1) else
      filedup f;;
      ret fd
  end.

(** argfd(0), argint(2), argptr(1, n): the file, the count and the address. *)
Definition arg_rw : K kern (option (nat * Z * Z)) :=
  r <- argfd 0;;
  match r with
  | None => ret None
  | Some (_, f) =>
      n <- argint 2;;
      match n with
      | None => ret None
      | Some n =>
          p <- argptr 1 n;;
          ret (match p with Some p => Some (f, n, p) | None => None end)
      end
  end.
(** The bytes go to the memory of the process as readi and piperead copy
    them. *)
Definition sys_read : K kern Z :=
  a <- arg_rw;;
  match a with
  | None => ret (-1)
  | Some (f, n, p) =>
      let! (r, l) := fileread devsw f n in
      user_store p l;;
      ret r
  end.
Definition sys_write : K kern Z :=
  a <- arg_rw;;
  match a with
  | None => ret (-1)
  | Some (f, n, p) =>
      l <- user_load p (Z.to_nat n);;
      filewrite devsw f l n
  end.

Definition sys_close : K kern Z :=
  r <- argfd 0;;
  match r with
  | None => ret (-1)
  | Some (fd, f) =>
      upd_cur (fun p => set_ofile (<[Z.to_nat fd := None]> (p_ofile p)) p);;
      fileclose kend f;;
      ret 0
  end.

(** stat.h: short type, int dev, uint ino, short nlink, uint size. *)
Definition STAT_SZ : Z := 20.
Definition store_stat (p : Z) (st : stat) : K kern unit :=
  user_store p (le_enc 2 (st_type st));;
  user_store (p + 4) (le_enc 4 (st_dev st));;
  user_store (p + 8) (le_enc 4 (st_ino st));;
  user_store (p + 12) (le_enc 2 (st_nlink st));;
  user_store (p + 16) (le_enc 4 (st_size st)).
Definition sys_fstat : K kern Z :=
  r <- argfd 0;;
  match r with
  | None => ret (-1)
  | Some (_, f) =>
      p <- argptr 1 STAT_SZ;;
      match p with
      | None => ret (-1)
      | Some p =>
          st <- filestat f;;
          match st with
          | Some st => store_stat p st;; ret 0
          | None => ret (-1)
          end
      end
  end.

Definition set_nlink v x :=
  mkInode (i_dev x) (i_inum x) (i_ref x) (i_flags x) (i_type x) (i_major x) (i_minor x) (s16 v) (i_size x) (i_addrs x).
(** ip->nlink += d; iupdate(ip); *)
Definition add_nlink (ip : nat) (d : Z) : K (@fsys lst) unit :=
  updi ip (fun x => set_nlink (i_nlink x + d) x);;
  iupdate ip.
(** The label bad of sys_link. *)
Definition link_bad (ip : nat) : K kern Z :=
  on_fs (ilock ip);;
  on_fs (add_nlink ip (-1));;
  on_fs (iunlockput ip);;
  on_log commit_trans;;
  ret (-1).
Definition sys_link : K kern Z :=
  old <- argstr 0;;
  match old with None => ret (-1) | Some (_, old) =>
  new <- argstr 1;;
  match new with None => ret (-1) | Some (_, new) =>
  ip <- knamei old;;
  match ip with None => ret (-1) | Some ip =>
  on_log begin_trans;;
  on_fs (ilock ip);;
  x <- on_fs (geti ip);;
  if i_type x =? T_DIR then
    on_fs (iunlockput ip);;
    on_log commit_trans;;
    ret (-1)
  else
  on_fs (add_nlink ip 1);;
  on_fs (iunlock ip);;
  dp <- knameiparent new;;
  match dp with None => link_bad ip | Some (dp, name) =>
  on_fs (ilock dp);;
  d <- on_fs (geti dp);;
  x <- on_fs (geti ip);;
  r <- (if negb (i_dev d =? i_dev x) then ret (-1) else on_fs (dirlink devsw dp name (i_inum x)));;
  if r <? 0 then on_fs (iunlockput dp);; link_bad ip else
  on_fs (iunlockput dp);;
  on_fs (iput ip);;
  on_log commit_trans;;
  ret 0
  end end end end.

(** Only "." and ".." in it? *)
Definition isdirempty (dp : nat) : K (@fsys lst) bool :=
  x <- geti dp;;
  while (S (Z.to_nat (i_size x / DIRENT_SZ + 1))) (fun off =>
    x <- geti dp;;
    if negb (off <? i_size x) then ret (inr true) else
    let! (r, b) := readi devsw dp off DIRENT_SZ in
    if negb (r =? DIRENT_SZ) then panic "isdirempty: readi" else
    if negb (de_inum (dec_dirent b) =? 0) then ret (inr false) else
    ret (inl (off + DIRENT_SZ))) (2 * DIRENT_SZ).

Definition unlink_bad (dp : nat) : K kern Z :=
  on_fs (iunlockput dp);;
  on_log commit_trans;;
  ret (-1).
Definition DOT : list Z := [46; 0].
Definition DOTDOT : list Z := [46; 46; 0].
Definition sys_unlink : K kern Z :=
  path <- argstr 0;;
  match path with None => ret (-1) | Some (_, path) =>
  dp <- knameiparent path;;
  match dp with None => ret (-1) | Some (dp, name) =>
  on_log begin_trans;;
  on_fs (ilock dp);;
  if (namecmp name DOT =? 0) || (namecmp name DOTDOT =? 0) then unlink_bad dp else
  r <- on_fs (dirlookup devsw dp name);;
  match r with None => unlink_bad dp | Some (ip, off) =>
  on_fs (ilock ip);;
  x <- on_fs (geti ip);;
  if i_nlink x <? 1 then panic "unlink: nlink < 1" else
  e <- (if i_type x =? T_DIR then on_fs (isdirempty ip) else ret true);;
  if negb e then on_fs (iunlockput ip);; unlink_bad dp else
  w <- on_fs (writei devsw dp (replicate (Z.to_nat DIRENT_SZ) 0) off DIRENT_SZ);;
  if negb (w =? DIRENT_SZ) then panic "unlink: writei" else
  when (i_type x =? T_DIR) (on_fs (add_nlink dp (-1)));;
  on_fs (iunlockput dp);;
  on_fs (add_nlink ip (-1));;
  on_fs (iunlockput ip);;
  on_log commit_trans;;
  ret 0
  end end end.

(** The new or existing file, locked. *)
Definition create (path : list Z) (type major minor : Z) : K kern (option nat) :=
  dp <- knameiparent path;;
  match dp with None => ret None | Some (dp, name) =>
  on_fs (ilock dp);;
  r <- on_fs (dirlookup devsw dp name);;
  match r with
  | Some (ip, _) =>
      on_fs (iunlockput dp);;
      on_fs (ilock ip);;
      x <- on_fs (geti ip);;
      if (type =? T_FILE) && (i_type x =? T_FILE) then ret (Some ip) else
      on_fs (iunlockput ip);;
      ret None
  | None =>
      d <- on_fs (geti dp);;
      ip <- on_fs (ialloc (i_dev d) type);;
      on_fs (ilock ip);;
      on_fs (updi ip (fun x => mkInode (i_dev x) (i_inum x) (i_ref x) (i_flags x) (i_type x) (s16 major) (s16 minor) 1 (i_size x) (i_addrs x)));;
      on_fs (iupdate ip);;
      x <- on_fs (geti ip);;
      when (type =? T_DIR) (
        on_fs (add_nlink dp 1);;
        r <- on_fs (dirlink devsw ip DOT (i_inum x));;
        if r <? 0 then panic "create dots" else
        r <- on_fs (dirlink devsw ip DOTDOT (i_inum d));;
        if r <? 0 then panic "create dots" else ret tt);;
      r <- on_fs (dirlink devsw dp name (i_inum x));;
      if r <? 0 then panic "create: dirlink" else
      on_fs (iunlockput dp);;
      ret (Some ip)
  end end.

(** filealloc and fdalloc; [None] after what there was has been closed. *)
Definition open_fd : K kern (option (nat * Z)) :=
  f <- filealloc;;
  match f with
  | None => ret None
  | Some f =>
      fd <- fdalloc f;;
      if fd <? 0 then fileclose kend f;; ret None else ret (Some (f, fd))
  end.
(** The locked inode that open and create found, or -1. *)
Definition open_inode (path : list Z) (omode : Z) : K kern (option nat) :=
  if has omode O_CREATE then
    on_log begin_trans;;
    ip <- create path T_FILE 0 0;;
    on_log commit_trans;;
    ret ip
  else
    ip <- knamei path;;
    match ip with
    | None => ret None
    | Some ip =>
        on_fs (ilock ip);;
        x <- on_fs (geti ip);;
        if (i_type x =? T_DIR) && negb (omode =? O_RDONLY) then on_fs (iunlockput ip);; ret None
        else ret (Some ip)
    end.
Definition sys_open : K kern Z :=
  path <- argstr 0;;
  match path with None => ret (-1) | Some (_, path) =>
  omode <- argint 1;;
  match omode with None => ret (-1) | Some omode =>
  ip <- open_inode path omode;;
  match ip with None => ret (-1) | Some ip =>
  r <- open_fd;;
  match r with
  | None => on_fs (iunlockput ip);; ret (-1)
  | Some (f, fd) =>
      on_fs (iunlock ip);;
      upd_file f (fun x => mkFile FD_INODE (f_ref x) (negb (has omode O_WRONLY)) (has omode O_WRONLY || has omode O_RDWR) (f_pipe x) (Some ip) 0);;
      ret fd
  end end end end.

(** mkdir and mknod: the rest after create in the transaction. *)
Definition make_node (ip : option nat) : K kern Z :=
  match ip with
  | None => on_log commit_trans;; ret (-1)
  | Some ip => on_fs (iunlockput ip);; on_log commit_trans;; ret 0
  end.
Definition sys_mkdir : K kern Z :=
  on_log begin_trans;;
  path <- argstr 0;;
  ip <- (match path with Some (_, path) => create path T_DIR 0 0 | None => ret None end);;
  make_node ip.
Definition sys_mknod : K kern Z :=
  on_log begin_trans;;
  path <- argstr 0;;
  match path with None => make_node None | Some (_, path) =>
  major <- argint 1;;
  match major with None => make_node None | Some major =>
  minor <- argint 2;;
  match minor with None => make_node None | Some minor =>
  ip <- create path T_DEV major minor;;
  make_node ip
  end end end.

Definition sys_chdir : K kern Z :=
  path <- argstr 0;;
  match path with None => ret (-1) | Some (_, path) =>
  ip <- knamei path;;
  match ip with None => ret (-1) | Some ip =>
  on_fs (ilock ip);;
  x <- on_fs (geti ip);;
  if negb (i_type x =? T_DIR) then on_fs (iunlockput ip);; ret (-1) else
  on_fs (iunlock ip);;
  cwd <- kcwd;;
  on_fs (iput cwd);;
  upd_cur (set_cwd (Some ip));;
  ret 0
  end end.

Definition clear_fd (fd : Z) : K kern unit := upd_cur (fun p => set_ofile (<[Z.to_nat fd := None]> (p_ofile p)) p).
Definition sys_pipe : K kern Z :=
  fd <- argptr 0 8;;
  match fd with None => ret (-1) | Some fd =>
  r <- pipealloc kend;;
  match r with None => ret (-1) | Some (rf, wf) =>
  fd0 <- fdalloc rf;;
  if fd0 <? 0 then fileclose kend rf;; fileclose kend wf;; ret (-1) else
  fd1 <- fdalloc wf;;
  if fd1 <? 0 then clear_fd fd0;; fileclose kend rf;; fileclose kend wf;; ret (-1) else
  user_store fd (le_enc 4 fd0);;
  user_store (fd + 4) (le_enc 4 fd1);;
  ret 0
  end end.

(** ** The calls added for the shell

    They ignore the result of argptr: after a failure they read address 0. *)
Definition arg_struct (size : Z) : K kern Z := r <- argptr 0 size;; ret (default 0 r).
Definition ld_int (a : Z) : K kern Z := l <- user_load a 4;; ret (s32 (le_dec l)).
(** A string in the memory of the process; nothing is mapped above its last page. *)
Definition user_cstr (a : Z) : K kern (list Z) :=
  p <- curproc;;
  while (S (Z.to_nat (PGROUNDUP (p_sz p) - a))) (fun '(s, l) =>
    c <- on_mem (uld8 (p_pgdir p) s);;
    if c =? 0 then ret (inr l) else ret (inl (s + 1, l ++ [c]))) (a, []).
(** strncpy(row, s, strlen(s)) into a cleared row of [w] bytes. *)
Definition put_row (w : Z) (i : Z) (s : list Z) (rows : list (list Z)) : K kern (list (list Z)) :=
  if w <? Z.of_nat (length s) then fail Undef else
  aset rows i (s ++ replicate (Z.to_nat (w - Z.of_nat (length s))) 0).
Definition load_rows (a w n : Z) (rows : list (list Z)) : K kern (list (list Z)) :=
  while (S (Z.to_nat n)) (fun '(i, rows) =>
    if negb (i <? n) then ret (inr rows) else
    s <- user_cstr (a + w * i);;
    rows <- put_row w i s rows;;
    ret (inl (i + 1, rows))) (0, rows).

Definition sys_test : K kern Z :=
  ts <- arg_struct 132;;
  ld_int ts.
Definition sys_setProgramStatus : K kern Z :=
  r <- argint 0;;
  (match r with
   | Some v => on_con (upd_glob (fun g => mkGlob (g_first g) (g_hs g) (g_ec g) v))
   | None => ret tt
   end);;
  ret 0.
Definition sys_setHistory : K kern Z :=
  p <- arg_struct (12 + H_ITEMS * H_LEN);;
  len <- ld_int p;;
  start <- ld_int (p + 4);;
  current <- ld_int (p + 8);;
  rows <- load_rows (p + 12) H_LEN len (replicate (Z.to_nat H_ITEMS) (replicate (Z.to_nat H_LEN) 0));;
  on_con (upd_glob (fun g => mkGlob 1 (mkHs len start current rows) (g_ec g) (g_status g)));;
  ret 0.
Definition sys_setExeCmd : K kern Z :=
  p <- arg_struct (4 + MAX_EXECMD * EXECMD_LEN);;
  len <- ld_int p;;
  rows <- load_rows (p + 4) EXECMD_LEN len (replicate (Z.to_nat MAX_EXECMD) (replicate (Z.to_nat EXECMD_LEN) 0));;
  on_con (upd_glob (fun g => mkGlob (g_first g) (g_hs g) (mkEc len rows) (g_status g)));;
  on_con (upd_tabs (set_tab_loc (-1)));;
  ret 0.
End sysfile.
