(* ===== verification/Exec.v ===== *)
(** exec.c, loaduvm of vm.c and sys_exec: replacing the image of a process. *)
From S2P Require Import Prelude Params Str Log BlockIf Fs Pipe Kalloc Vm Proc Console Kern File ProcOps Sysfile.

(** elf.h *)
Definition ELF_MAGIC : Z := 0x464C457F.
Definition ELF_PROG_LOAD : Z := 1.
Definition ELF_SZ : Z := 52.
Definition PH_SZ : Z := 32.
Record elfhdr := mkElf { e_magic : Z; e_entry : Z; e_phoff : Z; e_phnum : Z }.
Definition dec_elf (b : list Z) : elfhdr := mkElf (rd 4 0 b) (rd 4 24 b) (rd 4 28 b) (rd 2 44 b).
Record proghdr := mkPh { ph_type : Z; ph_off : Z; ph_vaddr : Z; ph_filesz : Z; ph_memsz : Z }.
Definition dec_ph (b : list Z) : proghdr := mkPh (rd 4 0 b) (rd 4 4 b) (rd 4 8 b) (rd 4 16 b) (rd 4 20 b).

Section exec.
Variable devsw : Z -> option (@devops lst).
Variables (kend kdata : Z).

(** [false] is the return of -1. *)
Definition loaduvm (pgdir addr : Z) (ip : nat) (offset sz : Z) : K kern bool :=
  if negb (addr mod PGSIZE =? 0) then panic "loaduvm: addr must be page aligned" else
  while (S (Z.to_nat (sz / PGSIZE + 1))) (fun i =>
    if negb (i <? sz) then ret (inr true) else
    pte <- on_mem (walkpgdir pgdir (u32 (addr + i)) false);;
    if pte =? 0 then panic "loaduvm: address should exist" else
    e <- on_mem (ld32 pte);;
    let pa := PTE_ADDR e in
    let n := if sz - i <? PGSIZE then sz - i else PGSIZE in
    let! (r, b) := on_fs (readi devsw ip (u32 (offset + i)) n) in
    pg <- on_mem (ldpage (p2v pa));;
    on_mem (stpage (p2v pa) (splice 0 b pg));;
    if negb (r =? n) then ret (inr false) else
    ret (inl (u32 (i + PGSIZE)))) 0.

(** The label bad: [pgdir] and [ip] are 0 before they are set and after the
    file is closed. *)
Definition exec_bad (pgdir : Z) (ip : option nat) : K kern Z :=
  when (negb (pgdir =? 0)) (on_mem (freevm kend pgdir));;
  (match ip with Some ip => on_fs (iunlockput ip) | None => ret tt end);;
  ret (-1).

(** One program header; [None] goes to bad, otherwise the new size. *)
Definition load_segment (pgdir : Z) (ip : nat) (off sz : Z) : K kern (option Z) :=
  let! (r, b) := on_fs (readi devsw ip (u32 off) PH_SZ) in
  if negb (r =? PH_SZ) then ret None else
  let ph := dec_ph b in
  if negb (ph_type ph =? ELF_PROG_LOAD) then ret (Some sz) else
  if ph_memsz ph <? ph_filesz ph then ret None else
  sz <- on_mem (allocuvm kend pgdir sz (u32 (ph_vaddr ph + ph_memsz ph)));;
  if sz =? 0 then ret None else
  ok <- loaduvm pgdir (ph_vaddr ph) ip (ph_off ph) (ph_filesz ph);;
  if ok : bool then ret (Some sz) else ret None.
Definition load_program (pgdir : Z) (ip : nat) (elf : elfhdr) : K kern (option Z) :=
  while (S (Z.to_nat (e_phnum elf))) (fun '(i, off, sz) =>
    if negb (i <? e_phnum elf) then ret (inr (Some sz)) else
    r <- load_segment pgdir ip off sz;;
    match r with
    | None => ret (inr None)
    | Some sz => ret (inl (i + 1, off + PH_SZ, sz))
    end) (0, e_phoff elf, 0).

(** The argument strings; the addresses that go to ustack[3..]. *)
Fixpoint push_args (pgdir : Z) (argv : list (list Z)) (argc : nat) (sp : Z) (addrs : list Z) : K kern (option (Z * list Z)) :=
  match argv with
  | [] => ret (Some (sp, addrs))
  | s :: argv =>
      if (MAXARG <=? argc)%nat then ret None else
      let len := Z.of_nat (length s) + 1 in
      let sp := Z.land (u32 (sp - len)) (Z.lnot 3) in
      r <- on_mem (copyout pgdir sp (s ++ [0]) len);;
      if r <? 0 then ret None else
      push_args pgdir argv (S argc) sp (addrs ++ [sp])
  end.
(** The part of the path after the last slash. *)
Fixpoint last_elem (s last : list Z) : list Z :=
  match s with [] => last | c :: s => last_elem s (if c =? SLASH then s else last) end.

(** The image is built: the arguments go on the stack and the process
    switches to it. *)
Definition exec_commit (pgdir sz : Z) (elf : elfhdr) (path : list Z) (argv : list (list Z)) : K kern Z :=
  r <- push_args pgdir argv 0 sz [];;
  match r with
  | None => exec_bad pgdir None
  | Some (sp, addrs) =>
      let argc := Z.of_nat (length addrs) in
      let ustack := [0xffffffff; argc; u32 (sp - (argc + 1) * 4)] ++ addrs ++ [0] in
      let sp := u32 (sp - (3 + argc + 1) * 4) in
      r <- on_mem (copyout pgdir sp (enc_addrs ustack) ((3 + argc + 1) * 4));;
      if r <? 0 then exec_bad pgdir None else
      p <- curproc;;
      let oldpgdir := p_pgdir p in
      upd_cur (fun p => set_name (safestrcpy (p_name p) (last_elem path path) 16) p);;
      upd_cur (set_mem sz pgdir);;
      upd_cur (fun p => set_tf (set_eip_esp (e_entry elf) sp (p_tf p)) p);;
      on_mem (freevm kend oldpgdir);;
      ret 0
  end.

Definition exec (path : list Z) (argv : list (list Z)) : K kern Z :=
  ip <- knamei devsw path;;
  match ip with None => ret (-1) | Some ip =>
  on_fs (ilock ip);;
  let! (r, b) := on_fs (readi devsw ip 0 ELF_SZ) in
  if u32 r <? ELF_SZ then exec_bad 0 (Some ip) else
  if r <? 0 then fail Undef else
  let elf := dec_elf b in
  if negb (e_magic elf =? ELF_MAGIC) then exec_bad 0 (Some ip) else
  pgdir <- on_mem (setupkvm kdata);;
  if pgdir =? 0 then exec_bad 0 (Some ip) else
  r <- load_program pgdir ip elf;;
  match r with None => exec_bad pgdir (Some ip) | Some sz =>
  on_fs (iunlockput ip);;
  let sz := PGROUNDUP sz in
  sz <- on_mem (allocuvm kend pgdir sz (u32 (sz + 2 * PGSIZE)));;
  if sz =? 0 then exec_bad pgdir None else
  on_mem (clearpteu pgdir (u32 (sz - 2 * PGSIZE)));;
  exec_commit pgdir sz elf path argv
  end end.

(** The strings that uargv points to; [None] is -1. *)
Definition fetch_argv (uargv : Z) : K kern (option (list (list Z))) :=
  while (S MAXARG) (fun '(i, argv) =>
    if (MAXARG <=? i)%nat then ret (inr None) else
    uarg <- fetchint (u32 (uargv + 4 * Z.of_nat i));;
    match uarg with
    | None => ret (inr None)
    | Some uarg =>
        if uarg =? 0 then ret (inr (Some argv)) else
        s <- fetchstr (u32 uarg);;
        match s with
        | None => ret (inr None)
        | Some (_, s) => ret (inl (S i, argv ++ [s]))
        end
    end) (O, []).
Definition sys_exec : K kern Z :=
  path <- argstr 0;;
  match path with None => ret (-1) | Some (_, path) =>
  uargv <- argint 1;;
  match uargv with None => ret (-1) | Some uargv =>
  argv <- fetch_argv (u32 uargv);;
  match argv with None => ret (-1) | Some argv => exec path argv end
  end end.
End exec.
