(* ===== verification/Syscall.v ===== *)
(** The dispatcher of syscall.c, sysproc.c and trap.c. *)
From S2P Require Import Prelude Params Str Log BlockIf Fs Pipe Kalloc Vm Proc Console Kern File ProcOps Sysfile Exec.

Section syscall.
Variable devsw : Z -> option (@devops lst).
Variables (kend kdata forkret trapret : Z).

(** ** sysproc.c *)
Definition sys_fork : K kern Z := fork kend kdata forkret trapret.
Definition sys_exit : K kern Z := exit kend;; ret 0.
Definition sys_wait : K kern Z := wait kend.
Definition sys_kill : K kern Z :=
  r <- argint 0;;
  match r with None => ret (-1) | Some pid => kkill pid end.
Definition sys_getpid : K kern Z := p <- curproc;; ret (p_pid p).
Definition sys_sbrk : K kern Z :=
  r <- argint 0;;
  match r with
  | None => ret (-1)
  | Some n =>
      p <- curproc;;
      let addr := p_sz p in
      g <- growproc kend n;;
      if g <? 0 then ret (-1) else ret (s32 addr)
  end.
(** One look at the clock: it returns when n ticks have passed since
    [ticks0], or sleeps until the next one. *)
Definition sleep_check (ticks0 n : Z) : K kern Z :=
  t <- gets k_ticks;;
  if u32 (t - ticks0) <? u32 n then
    p <- curproc;;
    if p_killed p then ret (-1) else fail (Sleep ChTicks)
  else ret 0.
Definition sys_sleep : K kern Z :=
  r <- argint 0;;
  match r with
  | None => ret (-1)
  | Some n => ticks0 <- gets k_ticks;; sleep_check ticks0 n
  end.
Definition sys_uptime : K kern Z := t <- gets k_ticks;; ret (s32 t).

(** ** syscall.c: the table, by number *)
Definition syscalls : list (option (K kern Z)) :=
  [None; Some sys_fork; Some sys_exit; Some sys_wait; Some (sys_pipe kend); Some (sys_read devsw); Some sys_kill;
   Some (sys_exec devsw kend kdata); Some sys_fstat; Some (sys_chdir devsw); Some sys_dup; Some sys_getpid;
   Some sys_sbrk; Some sys_sleep; Some sys_uptime; Some (sys_open devsw kend); Some (sys_write devsw);
   Some (sys_mknod devsw); Some (sys_unlink devsw); Some (sys_link devsw); Some (sys_mkdir devsw);
   Some (sys_close kend); Some sys_test; Some sys_setHistory; Some sys_setExeCmd; Some sys_setProgramStatus].
(** The message for an unknown call goes to the console. *)
Definition unknown_msg : list Z :=
  [37; 100; 32; 37; 115; 58; 32; 117; 110; 107; 110; 111; 119; 110; 32; 115; 121; 115; 32; 99; 97; 108; 108; 32; 37; 100; 10].
(** exit does not return: after it there is nothing more to do. *)
Definition exited : K kern bool := p <- curproc;; ret (bool_decide (p_state p = ZOMBIE)).
Definition syscall : K kern unit :=
  p <- curproc;;
  let num := s32 (tf_eax (p_tf p)) in
  match (if (0 <? num) && (num <? Z.of_nat (length syscalls)) then syscalls !!! Z.to_nat num else None) with
  | Some f =>
      r <- f;;
      z <- exited;;
      if z : bool then ret tt else upd_cur (fun p => set_tf (set_eax (u32 r) (p_tf p)) p)
  | None =>
      on_con (cprintf unknown_msg [AInt (p_pid p); AStr (Some (p_name p)); AInt num]);;
      upd_cur (fun p => set_tf (set_eax (u32 (-1)) (p_tf p)) p)
  end.

(** ** trap.c *)
Definition T_SYSCALL : Z := 64.
Definition T_IRQ0 : Z := 32.
Definition IRQ_TIMER : Z := 0.
Definition IRQ_KBD : Z := 1.
Definition IRQ_COM1 : Z := 4.
Definition IRQ_IDE : Z := 14.
Definition IRQ_SPURIOUS : Z := 31.

(** The handlers of the devices, the processor's number, and whether the
    processor runs a process. *)
Variables (ideintr kbdintr uartintr : K kern unit) (cpu_id : Z) (running : bool).
Definition from_user (tf : trapframe) : bool := Z.land (tf_cs tf) 3 =? DPL_USER.
Definition killed_now : K kern bool := p <- curproc;; ret (running && p_killed p).
(** A system call; the process leaves when it has been killed. *)
Definition trap_syscall (tf : trapframe) : K kern unit :=
  p <- curproc;;
  if p_killed p then exit kend else
  upd_cur (set_tf tf);;
  syscall;;
  z <- exited;;
  if z : bool then ret tt else
  p <- curproc;;
  if p_killed p then exit kend else ret tt.
Definition trap_irq (tf : trapframe) : K kern unit :=
  let n := tf_trapno tf in
  if n =? T_IRQ0 + IRQ_TIMER then
    when (cpu_id =? 0) (modify (fun k => set_kticks (u32 (k_ticks k + 1)) k);; kwakeup ChTicks)
  else if n =? T_IRQ0 + IRQ_IDE then ideintr
  else if n =? T_IRQ0 + IRQ_IDE + 1 then ret tt
  else if n =? T_IRQ0 + IRQ_KBD then kbdintr
  else if n =? T_IRQ0 + IRQ_COM1 then uartintr
  else if (n =? T_IRQ0 + 7) || (n =? T_IRQ0 + IRQ_SPURIOUS) then ret tt
  else if negb running || (Z.land (tf_cs tf) 3 =? 0) then panic "trap"
  else upd_cur (set_killed true).
(** How the trap ends: back to where it came from, in exit, or in yield, from
    which the process comes back through the scheduler to look at killed once
    more.  Messages to the console and lapiceoi are left out. *)
Inductive trap_end := Return | Yielded | Exited.
Definition trap (tf : trapframe) : K kern trap_end :=
  if tf_trapno tf =? T_SYSCALL then
    trap_syscall tf;;
    z <- exited;;
    ret (if z then Exited else Return)
  else
  trap_irq tf;;
  d <- killed_now;;
  if d && from_user tf then exit kend;; ret Exited else
  p <- curproc;;
  if running && bool_decide (p_state p = RUNNING) && (tf_trapno tf =? T_IRQ0 + IRQ_TIMER) then
    modify (fun k => set_kprocs (yield_table (k_cur k) (k_procs k)) k);; ret Yielded
  else
  d <- killed_now;;
  if d && from_user tf then exit kend;; ret Exited else ret Return.
End syscall.
