(* ===== verification/FileThms.v ===== *)
(** Theorems on open files: a write through a descriptor is a transaction on
    the storage stack. *)
From S2P Require Import Prelude Params Str Bio BioSpec Log LogSpec Trans Recover BlockIf Storage Fs FsBlocks FsFile FsSpec FsThms FsInode.
From S2P Require Import Pipe Kalloc Vm Proc Console Kern File.

Section fileops.
Implicit Types (k : kern) (g : geo) (st : lst) (t : tdisk) (ic : list inode) (wk : list chan) (f ip : nat) (x : inode) (fx : file).

Lemma wp_on_fs {A} (m : K (@fsys lst) A) E (Q : A -> kern -> Prop) k :
  wp m E (fun a s => Q a (set_kfs s k)) (k_fs k) -> wp (on_fs m) E Q k.
Proof. apply wp_zoom. Qed.
Lemma wp_on_log {A} (m : K lst A) E (Q : A -> kern -> Prop) k :
  wp m E (fun a s => Q a (set_kfs (mkFs s (f_icache (k_fs k)) (f_woken (k_fs k))) k)) (f_blk (k_fs k)) -> wp (on_log m) E Q k.
Proof. intros H. apply wp_on_fs. unfold wp, blk in *. by destruct (m (f_blk (k_fs k))). Qed.
Lemma rep_begin g st t : lst_rep g st t -> t_active t = false ->
  wp begin_trans noerr (fun _ st' => lst_rep g st' (t_begin t)) st.
Proof.
  intros (Hi&Hn&Hs&Hz) Ha. eapply wp_post; [by apply (tr_begin st t)|]. intros [] st' (Hi'&Hb&Hl). unfold lst_rep. by rewrite Hb, Hl.
Qed.
Lemma rep_commit g st t : lst_rep g st t -> t_held t = ∅ ->
  wp commit_trans noerr (fun _ st' => lst_rep g st' (t_commit t)) st.
Proof.
  intros (Hi&Hn&Hs&Hz) Hh. eapply wp_post; [by apply (tr_commit st t)|]. intros [] st' (Hi'&Hl&Hn'&_). unfold lst_rep. by rewrite Hn', Hl.
Qed.
Lemma wp_file_at f fx k E (Q : file -> kern -> Prop) : k_ft k !! f = Some fx -> Q fx k -> wp (file_at f) E Q k.
Proof. intros H HQ. unfold wp, file_at. by rewrite H. Qed.
Lemma iunlock_busy st ic wk ip x E (Q : unit -> @fsys lst -> Prop) :
  ic !! ip = Some x -> has (i_flags x) I_BUSY = true -> 1 <= i_ref x ->
  Q tt (mkFs st (<[ip := set_iflags (fclr I_BUSY (i_flags x)) x]> ic) (ChInode ip :: wk)) -> wp (iunlock ip) E Q (mkFs st ic wk).
Proof.
  intros Hx Hb Hr HQ. unfold iunlock. apply wp_bind. eapply wp_geti; [done|]. rewrite Hb, (proj2 (Z.ltb_ge _ _)) by lia. cbn [negb orb].
  apply wp_bind. eapply wp_updi; [done|]. by apply wp_modify.
Qed.
End fileops.

Lemma on_disk_flags v x f : on_disk v x -> on_disk v (set_iflags f x).
Proof. unfold on_disk, get_dinode. destruct x as [dev inum rf fl ty ma mi nl sz ad]. cbn [set_iflags i_dev i_inum i_ref i_flags]. intros [= H1 H2 H3 H4 H5 H6]. by rewrite H1, H2, H3, H4, H5, H6. Qed.
(** The super block on the platter tells the log, also after operations that
    leave it alone. *)
Lemma sb_agrees_kept g st t st' t' :
  lst_rep g st t -> t_active t = false -> t_held t = ∅ -> sb_agrees st -> lst_rep g st' t' ->
  t_comm t' = t_view t' -> sb_of (t_view t') = sb_of (t_view t) -> sb_agrees st'.
Proof.
  intros (Hi&_&Hs&Hz) Ha Hh (H1&H2&H3) (Hi'&_&Hs'&Hz') Hcm Hsb.
  assert (H3' : ~ in_log st' 1) by (unfold in_log in *; rewrite Hs', Hz', <- Hs, <- Hz; done).
  assert (Hv : t_view t 1 = t_comm t 1).
  { apply (li_clean _ _ Hi); [done|rewrite (li_idle _ _ Hi Ha); set_solver|]. unfold unmodified. intros i Hi2. by rewrite Hh in Hi2. }
  assert (He : dec_sb (sector_of (d_now (dsk (l_bio st'))) 1) = dec_sb (sector_of (d_now (dsk (l_bio st))) 1)).
  { change (dec_sb (sect (l_bio st') 1) = dec_sb (sect (l_bio st) 1)).
    rewrite (li_comm _ _ Hi' 1 H3'), (li_comm _ _ Hi 1 H3), Hcm, <- Hv. exact Hsb. }
  split_and!; [| |done]; unfold sb_start, sb_logsize in *; rewrite He; congruence.
Qed.

(** What the write leaves behind: the file as writei leaves it, committed:
    a machine that stops now boots to the disk that has it, and on that disk
    the inode leads to it. *)
Record written (g : geo) (t : tdisk) (x : inode) (src : list Z) (off n : Z) (t' : tdisk) (x' : inode) : Prop := {
  wn_done : t_active t' = false;
  wn_comm : t_comm t' = t_view t';
  wn_inum : i_inum x' = i_inum x /\ i_type x' = i_type x /\ i_nlink x' = i_nlink x;
  wn_disk : on_disk (t_view t) x -> on_disk (t_view t') x';
  wn_inodes : forall i, 0 <= i < sb_ninodes (sb_of (t_view t)) -> i <> i_inum x -> same_dinode (t_view t) (t_view t') i;
  wn_others : forall B, inode_ok g (t_view t) B -> (forall y, owns (t_view t) B y -> ~ owns (t_view t) (i_addrs x) y) ->
    inode_ok g (t_view t') B /\ forall p, 0 <= p < MAXFILE * BSIZE -> fbyte (t_view t') B p = fbyte (t_view t) B p;
  wn_size : i_size x' = Z.max (i_size x) (off + n);
  wn_fs : fs_ok g (t_view t');
  wn_bytes : forall p, 0 <= p < MAXFILE * BSIZE ->
    fbyte (t_view t') (i_addrs x') p = overlay (fbyte (t_view t) (i_addrs x)) src off n p;
  wn_frame : forall y, dstart (t_view t) <= y < g_lstart g -> blk_free (t_view t) y = false ->
    ~ owns (t_view t) (i_addrs x) y -> t_view t' y = t_view t y }.

(** C15. Writing through a descriptor.  A filewrite of at most [wmax] bytes to an
    open inode is one transaction: it returns [n]; the file then has the
    bytes at the offset of the descriptor, which moves on by [n], and what
    the transaction wrote is committed: when the machine stops after the
    call, the next boot from what is on the platter finds exactly the disk that
    has it, and on that disk the inode has the new size and addresses, so the
    bytes can be reached.  The inode is unlocked; the other inodes on the
    disk, the blocks and bytes of files without a block in common with this
    one, and every block in use outside it are as they were. *)
Theorem filewrite_correct devsw g st t ic wk k f fx ip x L addr n :
  k_fs k = mkFs st ic wk -> lst_rep g st t -> t_active t = false ->
  k_ft k !! f = Some fx -> f_type fx = FD_INODE -> f_writable fx = true -> f_ip fx = Some ip ->
  ic !! ip = Some x -> i_flags x = I_VALID -> 1 <= i_ref x ->
  let xl := set_iflags (fset I_BUSY I_VALID) x in
  writable g (t_begin t) (<[ip := xl]> ic) ip xl L (f_off fx) n ->
  0 < n <= wmax -> n <= Z.of_nat (length addr) -> bytes addr ->
  wp (filewrite devsw f addr n) noerr (fun r k' => r = n /\ exists st' t' x',
    k_fs k' = mkFs st' (<[ip := x']> ic) (ChInode ip :: wk) /\ i_flags x' = I_VALID /\
    k_ft k' = <[f := set_foff (f_off fx + n) fx]> (k_ft k) /\
    lst_rep g st' t' /\ written g t x addr (f_off fx) n t' x' /\
    (sb_agrees st -> boots_to st' (d_now (dsk (l_bio st'))) (t_view t'))) k.
Proof.
  intros Hk Hr Hact Hf Hty Hwr Hip Hx Hfl Href xl Hw Hn Hlen Hb. unfold filewrite.
  assert (Hil : (ip < length ic)%nat) by (by eapply lookup_lt_Some).
  apply wp_bind. eapply wp_file_at; [done|]. rewrite Hwr, Hty. cbn [negb]. apply wp_bind. unfold ip_of. rewrite Hip. apply wp_ret.
  apply wp_bind.
  replace (S (Z.to_nat (n / wmax + 1))) with (S (S (Z.to_nat (n / wmax)))) by (pose proof (Z.div_pos n wmax ltac:(lia) ltac:(by vm_compute)); lia).
  cbn [while]. apply wp_bind. unfold filewrite_body at 1. rewrite (proj2 (Z.ltb_lt 0 n)) by lia. cbn [negb].
  rewrite Z.sub_0_r. rewrite (proj2 (Z.ltb_ge wmax n)) by lia. change (Z.to_nat 0) with 0%nat. rewrite drop_0.
  apply wp_bind. apply wp_on_log. rewrite Hk. cbn [f_blk f_icache f_woken]. eapply wp_post; [by apply rep_begin|]. intros [] st1 Hr1.
  apply wp_bind. apply wp_on_fs. cbn [k_fs set_kfs]. eapply ilock_valid; [done|done|by rewrite Hfl|by rewrite Hfl|]. rewrite Hfl. fold xl.
  apply wp_bind. eapply wp_file_at; [exact Hf|]. apply wp_bind. apply wp_on_fs. cbn [k_fs set_kfs].
  eapply wp_post; [eapply (writei_after devsw g st1 _ wk ip xl (t_begin t) L addr (f_off fx) n); [exact Hr1|exact Hw|done|done]|].
  intros r s (->&st2&t2&x2&L2&->&Hr2&Ha&_). destruct (aw_addrs _ _ _ _ _ _ _ _ Ha) as [A2 Hx2].
  rewrite (proj2 (Z.ltb_lt 0 n)) by lia. cbn [when]. apply wp_bind, wp_modify. apply wp_bind. apply wp_on_fs. cbn [k_fs set_kfs set_kft k_ft].
  eapply iunlock_busy.
  { apply list_lookup_insert_eq. by rewrite length_insert. }
  { rewrite Hx2. by vm_compute. }
  { rewrite Hx2. exact Href. }
  apply wp_bind. apply wp_on_log. cbn [k_fs set_kfs set_kft f_blk f_icache f_woken]. eapply wp_post; [apply (rep_commit g st2 t2 Hr2), Ha|]. intros [] st3 Hr3.
  rewrite (proj2 (Z.ltb_ge n 0)) by lia. rewrite Z.eqb_refl. cbn [negb]. apply wp_ret. cbn [while]. apply wp_bind. unfold filewrite_body.
  rewrite Z.add_0_l, (proj2 (Z.ltb_ge n n)) by lia. cbn [negb]. apply wp_ret, wp_ret, wp_ret. rewrite Z.eqb_refl. split; [done|].
  set (x3 := set_iflags _ x2). exists st3, (t_commit t2), x3. split_and!.
  - cbn [k_fs set_kfs]. f_equal. rewrite !list_insert_insert_eq. done.
  - unfold x3. rewrite Hx2. by vm_compute.
  - cbn [k_ft set_kfs set_kft]. apply list_eq. intros j. destruct (decide (f = j)) as [<-|Hne].
    + rewrite list_lookup_alter_eq, Hf, list_lookup_insert_eq by (by eapply lookup_lt_Some). cbn. rewrite u32_small; [done|].
      pose proof (wr_off _ _ _ _ _ _ _ _ Hw). pose proof (wr_end _ _ _ _ _ _ _ _ Hw). rewrite MAXFILE_eq in *. unfold BSIZE in *. lia.
    + by rewrite list_lookup_alter_ne, list_lookup_insert_ne.
  - done.
  - split; try done.
    + unfold x3. by rewrite Hx2.
    + intros Hd. apply on_disk_flags, (aw_disk _ _ _ _ _ _ _ _ Ha). by apply on_disk_flags.
    + apply (aw_inodes _ _ _ _ _ _ _ _ Ha).
    + apply (aw_others _ _ _ _ _ _ _ _ Ha).
    + unfold x3. rewrite Hx2. done.
    + apply (aw_fs _ _ _ _ _ _ _ _ Ha).
    + apply (aw_bytes _ _ _ _ _ _ _ _ Ha).
    + apply (aw_frame _ _ _ _ _ _ _ _ Ha).
  - intros Hsb. apply (crash_outside st3 (t_commit t2)); [apply Hr3|].
    eapply (sb_agrees_kept g st t st3 (t_commit t2)); [done|done| |done|done|done|apply (aw_sb _ _ _ _ _ _ _ _ Ha)].
    apply (fc_held _ _ _ _ _ (wr_ctx _ _ _ _ _ _ _ _ Hw)).
Qed.
