(* ===== verification/FileInv.v ===== *)
(** The table of open files and the descriptors of the processes.

    What file.c counts in f->ref is the number of descriptors, in all
    processes, that refer to the file.  Here: the part of the kernel's state
    that this is about (its view), the invariant, and for every routine of
    file.c, proc.c and sysfile.c what it does to the view. *)
From S2P Require Import Prelude Params Str Log BlockIf Fs Pipe Kalloc Vm Proc Console Kern File ProcOps Sysfile Exec Syscall.

(** ** The view *)
Definition live (st : procstate) : bool :=
  match st with SLEEPING | RUNNABLE | RUNNING => true | _ => false end.
Definition fv (x : file) : Z * ftype := (f_ref x, f_type x).
Definition pv (p : proc) : list (option nat) * bool := (p_ofile p, live (p_state p)).
Record view := mkView { v_files : list (Z * ftype); v_fds : list (list (option nat) * bool); v_cur : nat }.
Definition view_of (k : kern) : view := mkView (fv <$> k_ft k) (pv <$> k_procs k) (k_cur k).
Definition setf (f : nat) (y : Z * ftype) (v : view) : view := mkView (<[f := y]> (v_files v)) (v_fds v) (v_cur v).
Definition setl (i : nat) (y : list (option nat) * bool) (v : view) : view := mkView (v_files v) (<[i := y]> (v_fds v)) (v_cur v).

(** ** The invariant *)
Definition one (f : nat) (o : option nat) : Z := if decide (o = Some f) then 1 else 0.
(** How often a list of descriptors, and all of them, refer to [f]. *)
Definition lcnt (f : nat) (l : list (option nat)) : Z := foldr (fun o a => one f o + a) 0 l.
Definition cnt (f : nat) (fds : list (list (option nat) * bool)) : Z := foldr (fun x a => lcnt f x.1 + a) 0 fds.

(** Inside a routine the counts may differ by [d], the files of [raw] may
    have no type yet, and process [ex] may have descriptors before it runs. *)
Record fok (d : nat -> Z) (raw : list nat) (ex : option nat) (v : view) : Prop := {
  fo_ref : forall f r t, v_files v !! f = Some (r, t) -> r = cnt f (v_fds v) + d f;
  fo_free : forall f r t, v_files v !! f = Some (r, t) -> r = 0 -> t = FD_NONE;
  fo_type : forall f r t, v_files v !! f = Some (r, t) -> r <> 0 -> f ∉ raw -> t <> FD_NONE;
  fo_dom : forall i l b f, v_fds v !! i = Some (l, b) -> Some f ∈ l -> (f < length (v_files v))%nat;
  fo_len : forall i l b, v_fds v !! i = Some (l, b) -> length l = NOFILE;
  fo_dead : forall i l, v_fds v !! i = Some (l, false) -> ex <> Some i -> Forall (fun o => o = None) l }.
(** Between system calls. *)
Definition files_ok (k : kern) : Prop := fok (fun _ => 0) [] None (view_of k).
(** The current process is one that runs. *)
Definition alive (v : view) : Prop := exists l, v_fds v !! v_cur v = Some (l, true).

Lemma lcnt_insert f l n o o' : l !! n = Some o -> lcnt f (<[n := o']> l) = lcnt f l - one f o + one f o'.
Proof.
  revert n. induction l as [|a l IH]; intros [|n] H; simplify_eq/=; [lia|]. rewrite (IH n H). lia.
Qed.
Lemma cnt_insert f fds i l b y : fds !! i = Some (l, b) -> cnt f (<[i := y]> fds) = cnt f fds - lcnt f l + lcnt f y.1.
Proof.
  revert i. induction fds as [|a fds IH]; intros [|i] H; simplify_eq/=; [lia|]. rewrite (IH i H). lia.
Qed.
Lemma one_nonneg f o : 0 <= one f o.
Proof. unfold one. case_decide; lia. Qed.
Lemma lcnt_nonneg f l : 0 <= lcnt f l.
Proof. induction l as [|o l IH]; simpl; [lia|]. pose proof (one_nonneg f o). lia. Qed.
Lemma cnt_ge f fds i l b : fds !! i = Some (l, b) -> lcnt f l <= cnt f fds.
Proof.
  revert i. induction fds as [|[l0 b0] fds IH]; intros [|i] H; simplify_eq/=.
  - assert (0 <= cnt f fds); [|lia]. clear. induction fds as [|x fds IH]; simpl; [lia|]. pose proof (lcnt_nonneg f x.1). lia.
  - specialize (IH i H). pose proof (lcnt_nonneg f l0). lia.
Qed.
Lemma lcnt_elem f l : Some f ∈ l -> 1 <= lcnt f l.
Proof.
  induction l as [|o l IH]; [by intros ?%elem_of_nil|]. intros [<-|H]%elem_of_cons; simpl.
  - unfold one. rewrite decide_True by done. pose proof (lcnt_nonneg f l). lia.
  - specialize (IH H). pose proof (one_nonneg f o). lia.
Qed.
Lemma lcnt_none f l : Forall (fun o => o = None) l -> lcnt f l = 0.
Proof. induction 1 as [|o l -> _ IH]; simpl; [done|]. unfold one. rewrite decide_False by done. lia. Qed.

Lemma fok_ext d d' raw ex v : (forall g, d g = d' g) -> fok d raw ex v -> fok d' raw ex v.
Proof. intros He [H1 H2 H3 H4 H5 H6]. split; try done. intros f r t H. rewrite <- He. by eapply H1. Qed.

(** A file gets a new count or type. *)
Lemma fok_file d raw raw' ex v f r t r' t' :
  fok d raw ex v -> v_files v !! f = Some (r, t) ->
  (r' = 0 -> t' = FD_NONE) -> (r' <> 0 -> f ∉ raw' -> t' <> FD_NONE) -> (forall g, g ∈ raw -> g = f \/ g ∈ raw') ->
  fok (fun g => d g + (if decide (g = f) then r' - r else 0)) raw' ex (setf f (r', t') v).
Proof.
  intros [H1 H2 H3 H4 H5 H6] Hf Hz Ht Hraw. assert (Hlt : (f < length (v_files v))%nat) by (by eapply lookup_lt_Some).
  split; cbn [setf v_files v_fds v_cur].
  - intros g a b. destruct (decide (g = f)) as [->|Hne].
    + rewrite list_lookup_insert_eq by done. intros [= <- <-]. specialize (H1 f r t Hf). lia.
    + rewrite list_lookup_insert_ne by done. intros H. specialize (H1 g a b H). lia.
  - intros g a b. destruct (decide (g = f)) as [->|Hne]; [rewrite list_lookup_insert_eq by done; by intros [= <- <-]|].
    rewrite list_lookup_insert_ne by done. apply H2.
  - intros g a b. destruct (decide (g = f)) as [->|Hne]; [rewrite list_lookup_insert_eq by done; by intros [= <- <-]|].
    rewrite list_lookup_insert_ne by done. intros H Ha Hr. eapply H3; [done..|]. intros Hin. by destruct (Hraw g Hin).
  - intros i l b g. rewrite length_insert. apply H4.
  - apply H5.
  - apply H6.
Qed.

(** A process gets new descriptors. *)
Lemma fok_fds d raw ex ex' v i l b l' b' :
  fok d raw ex v -> v_fds v !! i = Some (l, b) ->
  length l' = NOFILE -> (forall f, Some f ∈ l' -> (f < length (v_files v))%nat) ->
  (b' = false -> ex' <> Some i -> Forall (fun o => o = None) l') -> (forall j, j <> i -> ex = Some j -> ex' = Some j) ->
  fok (fun g => d g + lcnt g l - lcnt g l') raw ex' (setl i (l', b') v).
Proof.
  intros [H1 H2 H3 H4 H5 H6] Hi Hlen Hdom Hdead Hex. assert (Hlt : (i < length (v_fds v))%nat) by (by eapply lookup_lt_Some).
  split; cbn [setl v_files v_fds v_cur]; try done.
  - intros f r t Hf. rewrite (cnt_insert f _ i l b _ Hi). simpl. specialize (H1 f r t Hf). lia.
  - intros j m c f. destruct (decide (j = i)) as [->|Hne]; [rewrite list_lookup_insert_eq by done; intros [= <- <-]; apply Hdom|].
    rewrite list_lookup_insert_ne by done. apply H4.
  - intros j m c. destruct (decide (j = i)) as [->|Hne]; [rewrite list_lookup_insert_eq by done; by intros [= <- <-]|].
    rewrite list_lookup_insert_ne by done. apply H5.
  - intros j m. destruct (decide (j = i)) as [->|Hne]; [rewrite list_lookup_insert_eq by done; intros [= <- ->]; by apply Hdead|].
    rewrite list_lookup_insert_ne by done. intros H He. eapply H6; [done|]. intros Hex0. by specialize (Hex j Hne Hex0).
Qed.

(** One descriptor of a process changes. *)
Lemma fok_fd d raw ex v i l b n o o' :
  fok d raw ex v -> v_fds v !! i = Some (l, b) -> l !! n = Some o ->
  (forall f, o' = Some f -> (f < length (v_files v))%nat) -> (b = false -> o' = None) ->
  fok (fun g => d g + one g o - one g o') raw ex (setl i (<[n := o']> l, b) v).
Proof.
  intros H Hi Hn Hdom Hb. eapply fok_ext; [|eapply (fok_fds _ _ _ ex _ i l b (<[n := o']> l) b H Hi)].
  - intros g. cbn. rewrite (lcnt_insert g l n o o' Hn). lia.
  - rewrite length_insert. by apply (fo_len _ _ _ _ H i l b).
  - intros f Hf. apply list_elem_of_lookup_1 in Hf as [j Hj].
    assert ((n < length l)%nat) by (by eapply lookup_lt_Some).
    destruct (decide (j = n)) as [->|Hne]; [rewrite list_lookup_insert_eq in Hj by done; injection Hj as Hj; by apply Hdom|].
    rewrite list_lookup_insert_ne in Hj by done. apply (fo_dom _ _ _ _ H i l b); [done|]. by eapply list_elem_of_lookup_2.
  - intros -> He. apply Forall_insert; [|by apply Hb]. by apply (fo_dead _ _ _ _ H i).
  - done.
Qed.

(** An open descriptor refers to a file with a count and a type. *)
Lemma fok_open k i p fd f :
  files_ok k -> k_procs k !! i = Some p -> p_ofile p !! fd = Some (Some f) ->
  exists x, k_ft k !! f = Some x /\ 1 <= f_ref x /\ f_type x <> FD_NONE.
Proof.
  intros [H1 H2 H3 H4 H5 H6] Hp Hfd. assert (Hv : v_fds (view_of k) !! i = Some (pv p)) by (cbn; by rewrite list_lookup_fmap, Hp).
  assert (Hin : Some f ∈ p_ofile p) by (by eapply list_elem_of_lookup_2).
  specialize (H4 _ _ _ _ Hv Hin). cbn in H4. rewrite length_fmap in H4. apply lookup_lt_is_Some_2 in H4 as [x Hx]. exists x.
  assert (Hf : v_files (view_of k) !! f = Some (fv x)) by (cbn; by rewrite list_lookup_fmap, Hx).
  specialize (H1 _ _ _ Hf). pose proof (cnt_ge f _ _ _ _ Hv). pose proof (lcnt_elem f _ Hin).
  assert (1 <= f_ref x) by lia. split_and!; [done|done|]. eapply H3; [exact Hf|lia|]. by apply not_elem_of_nil.
Qed.

(** ** Routines that leave the view as it is *)
Definition anyerr : err -> Prop := fun _ => True.
Definition keeps {A} (m : K kern A) : Prop := forall k, wp m anyerr (fun _ k' => view_of k' = view_of k) k.

Lemma keeps_bind {A B} (m : K kern A) (c : A -> K kern B) : keeps m -> (forall a, keeps (c a)) -> keeps (bind m c).
Proof.
  intros Hm Hc k. eapply wp_seq; [apply Hm|]. intros a k1 H1. eapply wp_post; [apply Hc|]. cbn. by intros _ k2 ->.
Qed.
Section keeps.
Context {A : Type}.
Lemma keeps_ret (a : A) : keeps (ret a).
Proof. done. Qed.
Lemma keeps_fail e : keeps (@fail kern A e).
Proof. done. Qed.
Lemma keeps_panic m : keeps (@panic kern A m).
Proof. done. Qed.
Lemma keeps_gets (f : kern -> A) : keeps (gets f).
Proof. done. Qed.
Lemma keeps_while {B} fuel (body : A -> K kern (A + B)) a : (forall a, keeps (body a)) -> keeps (while fuel body a).
Proof.
  intros Hb. revert a. induction fuel as [|n IH]; intros a; cbn [while]; [done|].
  apply keeps_bind; [done|]. intros [a'|v]; [apply IH|done].
Qed.
Lemma keeps_on_fs (m : K (@fsys lst) A) : keeps (on_fs m).
Proof. intros k. apply wp_zoom. unfold wp. by destruct (m _). Qed.
Lemma keeps_on_mem (m : K kmem A) : keeps (on_mem m).
Proof. intros k. apply wp_zoom. unfold wp. by destruct (m _). Qed.
Lemma keeps_on_con (m : K console A) : keeps (on_con m).
Proof. intros k. apply wp_zoom. unfold wp. by destruct (m _). Qed.
Lemma keeps_aget (l : list A) `{Inhabited A} i : keeps (aget l i).
Proof. intros k. unfold aget. by destruct (inb l i). Qed.
Lemma keeps_aset (l : list A) i v : keeps (aset l i v).
Proof. intros k. unfold aset. by destruct (inb l i). Qed.
End keeps.

Lemma keeps_when b (m : K kern unit) : keeps m -> keeps (when b m).
Proof. by destruct b. Qed.
Lemma keeps_on_log {A} (m : K lst A) : keeps (on_log m).
Proof. apply keeps_on_fs. Qed.
Lemma alter_view {A B} (h : A -> B) (g : A -> A) (i : nat) (l : list A) : (forall x, h (g x) = h x) -> h <$> alter g i l = h <$> l.
Proof.
  intros H. apply list_eq. intros j. rewrite !list_lookup_fmap. destruct (decide (i = j)) as [->|Hne].
  - rewrite list_lookup_alter_eq. destruct (l !! j); simpl; by rewrite ?H.
  - by rewrite list_lookup_alter_ne.
Qed.
Lemma alter_view_at {A B} (h : A -> B) (g : A -> A) (i : nat) (l : list A) x : l !! i = Some x -> h <$> alter g i l = <[i := h (g x)]> (h <$> l).
Proof.
  intros Hx. assert ((i < length (h <$> l))%nat) by (rewrite length_fmap; by eapply lookup_lt_Some).
  apply list_eq. intros j. rewrite list_lookup_fmap. destruct (decide (i = j)) as [->|Hne].
  - by rewrite list_lookup_alter_eq, Hx, list_lookup_insert_eq.
  - by rewrite list_lookup_alter_ne, list_lookup_insert_ne, list_lookup_fmap.
Qed.
Lemma keeps_upd_proc i g : (forall p, pv (g p) = pv p) -> keeps (upd_proc i g).
Proof. intros H k. apply wp_modify. unfold view_of. cbn. by rewrite alter_view. Qed.
Lemma keeps_upd_cur g : (forall p, pv (g p) = pv p) -> keeps (upd_cur g).
Proof. intros H. apply keeps_bind; [done|]. intros i. by apply keeps_upd_proc. Qed.
Lemma keeps_upd_file f g : (forall x, fv (g x) = fv x) -> keeps (upd_file f g).
Proof. intros H k. apply wp_modify. unfold view_of. cbn. by rewrite alter_view. Qed.
Lemma keeps_proc_at i : keeps (proc_at i).
Proof. intros k. unfold wp, proc_at. by destruct (_ !! _). Qed.
Lemma keeps_curproc : keeps curproc.
Proof. apply keeps_bind; [done|]. intros i. apply keeps_proc_at. Qed.
Lemma keeps_file_at f : keeps (file_at f).
Proof. intros k. unfold wp, file_at. by destruct (_ !! _). Qed.
Lemma keeps_pipe_at p : keeps (pipe_at p).
Proof. intros k. unfold wp, pipe_at. by destruct (_ !! _). Qed.
Lemma wakeup1_pv c t : pv <$> wakeup1 c t = pv <$> t.
Proof.
  unfold wakeup1. rewrite <- list_fmap_compose. apply list_fmap_ext. intros j p Hp. cbn.
  case_decide as Hd; [|done]. destruct Hd as [Hs _]. unfold pv. cbn. by rewrite Hs.
Qed.
Lemma keeps_kwakeup c : keeps (kwakeup c).
Proof. intros k. apply wp_modify. unfold view_of. cbn. by rewrite wakeup1_pv. Qed.
Lemma keeps_wake_all cs : keeps (wake_all cs).
Proof. induction cs as [|c cs IH]; [done|]. apply keeps_bind; [apply keeps_kwakeup|done]. Qed.
Lemma keeps_modify g : (forall k, view_of (g k) = view_of k) -> keeps (modify g).
Proof. intros H k. apply H. Qed.

Create HintDb keeps discriminated.
#[export] Hint Resolve keeps_ret keeps_fail keeps_panic keeps_gets keeps_on_fs keeps_on_log keeps_on_mem keeps_on_con keeps_aget keeps_aset
  keeps_proc_at keeps_curproc keeps_file_at keeps_pipe_at keeps_kwakeup keeps_wake_all : keeps.
(** Walks through a routine; calls are settled by the hints. *)
Ltac keep_step :=
  lazymatch goal with
  | |- forall _, _ => intro
  | |- keeps (match ?x with _ => _ end) => destruct x
  | |- keeps (bind _ _) => apply keeps_bind
  | |- keeps (while _ _ _) => apply keeps_while
  | |- keeps (when _ _) => apply keeps_when
  | |- keeps (upd_cur _) => apply keeps_upd_cur; done
  | |- keeps (upd_proc _ _) => apply keeps_upd_proc; done
  | |- keeps (upd_file _ _) => apply keeps_upd_file; done
  | |- keeps (modify _) => apply keeps_modify; done
  | |- keeps (let x := _ in _) => cbv zeta
  | |- keeps _ => solve [auto with keeps]
  end.
Ltac keep := repeat keep_step.

Lemma keeps_ip_of x : keeps (ip_of x).
Proof. unfold ip_of. keep. Qed.
Lemma keeps_upd_pipe p x : keeps (upd_pipe p x).
Proof. unfold upd_pipe. keep. Qed.
Lemma keeps_user_load a n : keeps (user_load a n).
Proof. unfold user_load. keep. Qed.
Lemma keeps_user_store a l : keeps (user_store a l).
Proof. unfold user_store. keep. Qed.
#[export] Hint Resolve keeps_ip_of keeps_upd_pipe keeps_user_load keeps_user_store : keeps.
Lemma keeps_fetchint a : keeps (fetchint a).
Proof. unfold fetchint. keep. Qed.
Lemma keeps_fetchstr a : keeps (fetchstr a).
Proof. unfold fetchstr. keep. Qed.
#[export] Hint Resolve keeps_fetchint keeps_fetchstr : keeps.
Lemma keeps_argint n : keeps (argint n).
Proof. unfold argint. keep. Qed.
#[export] Hint Resolve keeps_argint : keeps.
Lemma keeps_argptr n s : keeps (argptr n s).
Proof. unfold argptr. keep. Qed.
Lemma keeps_argstr n : keeps (argstr n).
Proof. unfold argstr. keep. Qed.
#[export] Hint Resolve keeps_argptr keeps_argstr : keeps.
Lemma keeps_argfd n : keeps (argfd n).
Proof. unfold argfd. keep. Qed.
Lemma keeps_kpipeclose kend p w : keeps (kpipeclose kend p w).
Proof. unfold kpipeclose. keep. Qed.
Lemma keeps_filestat f : keeps (filestat f).
Proof. unfold filestat. keep. Qed.
Lemma keeps_fileread devsw f n : keeps (fileread devsw f n).
Proof. unfold fileread. keep. Qed.
Lemma keeps_filewrite devsw f a n : keeps (filewrite devsw f a n).
Proof. unfold filewrite, filewrite_body. keep. Qed.
#[export] Hint Resolve keeps_argfd keeps_kpipeclose keeps_filestat keeps_fileread keeps_filewrite : keeps.
