(* ===== verification/FileOps.v ===== *)
(** What the routines that open, share and close files do to the view of
    [FileInv], and that the invariant survives each of them. *)
From S2P Require Import Prelude Params Str Log BlockIf Fs Pipe Kalloc Vm Proc Console Kern File ProcOps Sysfile Exec Syscall FileInv.

(** ** file.c *)
Section ops.
Implicit Types (k : kern) (v : view) (f : nat).

Lemma view_file k f r t : v_files (view_of k) !! f = Some (r, t) ->
  exists x, k_ft k !! f = Some x /\ f_ref x = r /\ f_type x = t.
Proof. cbn. rewrite list_lookup_fmap. destruct (k_ft k !! f) as [x|]; [|done]. intros [= <- <-]. eauto. Qed.
Lemma view_proc k i l b : v_fds (view_of k) !! i = Some (l, b) ->
  exists p, k_procs k !! i = Some p /\ p_ofile p = l /\ live (p_state p) = b.
Proof. cbn. rewrite list_lookup_fmap. destruct (k_procs k !! i) as [p|]; [|done]. intros [= <- <-]. eauto. Qed.
Lemma wp_file_view k f (Q : file -> kern -> Prop) :
  (forall x, k_ft k !! f = Some x -> v_files (view_of k) !! f = Some (fv x) -> Q x k) -> wp (file_at f) anyerr Q k.
Proof.
  intros H. unfold wp, file_at. destruct (k_ft k !! f) as [x|] eqn:Hx; [|done]. apply H; [done|]. cbn. by rewrite list_lookup_fmap, Hx.
Qed.
Lemma wp_upd_file k f x g (Q : unit -> kern -> Prop) :
  k_ft k !! f = Some x ->
  (forall k', view_of k' = setf f (fv (g x)) (view_of k) -> k_ft k' !! f = Some (g x) -> Q tt k') -> wp (upd_file f g) anyerr Q k.
Proof.
  intros Hx H. apply wp_modify. apply H; cbn.
  - unfold view_of, setf. cbn. by rewrite (alter_view_at fv g f _ x Hx).
  - by rewrite list_lookup_alter_eq, Hx.
Qed.
Lemma wp_proc_view k i (Q : proc -> kern -> Prop) :
  (forall p, k_procs k !! i = Some p -> v_fds (view_of k) !! i = Some (pv p) -> Q p k) -> wp (proc_at i) anyerr Q k.
Proof.
  intros H. unfold wp, proc_at. destruct (k_procs k !! i) as [p|] eqn:Hp; [|done]. apply H; [done|]. cbn. by rewrite list_lookup_fmap, Hp.
Qed.
Lemma wp_curproc_view k (Q : proc -> kern -> Prop) :
  (forall p, k_procs k !! k_cur k = Some p -> v_fds (view_of k) !! v_cur (view_of k) = Some (pv p) -> Q p k) -> wp curproc anyerr Q k.
Proof. intros H. apply wp_bind, wp_gets, wp_proc_view, H. Qed.
Lemma wp_upd_proc k i l b g (Q : unit -> kern -> Prop) :
  v_fds (view_of k) !! i = Some (l, b) ->
  (forall p k', p_ofile p = l -> live (p_state p) = b -> view_of k' = setl i (pv (g p)) (view_of k) -> Q tt k') -> wp (upd_proc i g) anyerr Q k.
Proof.
  intros (p&Hp&Hl&Hb)%view_proc H. apply wp_modify. eapply (H p); [done..|].
  unfold view_of, setl. cbn. by rewrite (alter_view_at pv g i _ p Hp).
Qed.
Lemma wp_upd_cur k l b g (Q : unit -> kern -> Prop) :
  v_fds (view_of k) !! v_cur (view_of k) = Some (l, b) ->
  (forall p k', p_ofile p = l -> live (p_state p) = b -> view_of k' = setl (v_cur (view_of k)) (pv (g p)) (view_of k) -> Q tt k') -> wp (upd_cur g) anyerr Q k.
Proof. intros Hl H. apply wp_bind, wp_gets. eapply wp_upd_proc; [exact Hl|exact H]. Qed.
(** Composing with a routine that keeps the view. *)
Lemma wp_keeps {A B} (m : K kern A) (c : A -> K kern B) k (Q : B -> kern -> Prop) :
  keeps m -> (forall a k', view_of k' = view_of k -> wp (c a) anyerr Q k') -> wp (bind m c) anyerr Q k.
Proof. intros Hm Hc. eapply wp_seq; [apply Hm|]. exact Hc. Qed.
Lemma wp_keeps_end {A} (m : K kern A) k (Q : A -> kern -> Prop) :
  keeps m -> (forall a k', view_of k' = view_of k -> Q a k') -> wp m anyerr Q k.
Proof. intros Hm Hc. eapply wp_post; [apply Hm|]. exact Hc. Qed.

Lemma filealloc_view k : wp filealloc anyerr (fun r k' =>
  match r with
  | None => view_of k' = view_of k
  | Some f => exists t, v_files (view_of k) !! f = Some (0, t) /\ view_of k' = setf f (1, t) (view_of k)
  end) k.
Proof.
  unfold filealloc. apply wp_bind, wp_gets. destruct (list_find _ _) as [[f x]|] eqn:Hf; [|by apply wp_ret].
  apply list_find_Some in Hf as (Hx&Hr&_). apply wp_bind. eapply wp_upd_file; [exact Hx|]. intros k' Hv _. apply wp_ret.
  exists (f_type x). split; [|done]. cbn. rewrite list_lookup_fmap, Hx. cbn. unfold fv. by rewrite Hr.
Qed.
Lemma filedup_view f k : wp (filedup f) anyerr (fun r k' => r = f /\
  exists n t, v_files (view_of k) !! f = Some (n, t) /\ 1 <= n /\ view_of k' = setf f (n + 1, t) (view_of k)) k.
Proof.
  unfold filedup. apply wp_bind, wp_file_view. intros x Hx Hv. destruct (f_ref x <? 1) eqn:Hr; [done|]. apply Z.ltb_ge in Hr.
  apply wp_bind. eapply wp_upd_file; [exact Hx|]. intros k' Hk' _. apply wp_ret. split; [done|]. exists (f_ref x), (f_type x). done.
Qed.
Lemma fileclose_view kend f k : wp (fileclose kend f) anyerr (fun _ k' =>
  exists n t, v_files (view_of k) !! f = Some (n, t) /\ 1 <= n /\
    view_of k' = setf f (if 0 <? n - 1 then (n - 1, t) else (0, FD_NONE)) (view_of k)) k.
Proof.
  unfold fileclose. apply wp_bind, wp_file_view. intros x Hx Hv. destruct (f_ref x <? 1) eqn:Hr; [done|]. apply Z.ltb_ge in Hr.
  apply wp_bind. eapply wp_upd_file; [exact Hx|]. intros k1 Hk1 Hx1.
  destruct (0 <? f_ref x - 1) eqn:H0.
  { apply wp_ret. exists (f_ref x), (f_type x). by rewrite H0. }
  apply wp_bind, wp_file_view. intros x1 Hx1' _. apply wp_bind. eapply wp_upd_file; [exact Hx1'|]. intros k2 Hk2 _.
  apply wp_keeps_end; [keep|]. intros _ k3 Hk3. exists (f_ref x), (f_type x). split_and!; [done|lia|].
  rewrite H0, Hk3, Hk2, Hk1. unfold setf. cbn. by rewrite list_insert_insert_eq.
Qed.

(** ** sysfile.c *)
Lemma argfd_view n k : wp (argfd n) anyerr (fun r k' => view_of k' = view_of k /\
  match r with
  | None => True
  | Some (fd, f) => exists l b, v_fds (view_of k) !! v_cur (view_of k) = Some (l, b) /\ l !! Z.to_nat fd = Some (Some f)
  end) k.
Proof.
  unfold argfd. apply wp_keeps; [keep|]. intros [fd|] k1 Hk1; [|by apply wp_ret].
  case_match; [by apply wp_ret|]. apply wp_bind, wp_curproc_view. intros p Hp Hv. apply wp_bind.
  unfold aget. destruct (inb (p_ofile p) fd) eqn:Hin; [|done]. apply wp_ret. apply andb_true_iff in Hin as [H0%Z.leb_le Hl%Z.ltb_lt].
  apply wp_ret. split; [done|]. destruct (p_ofile p !!! Z.to_nat fd) as [f|] eqn:Hfd; [|done].
  exists (p_ofile p), (live (p_state p)). split; [rewrite <- Hk1; exact Hv|].
  rewrite <- Hfd. apply list_lookup_lookup_total_lt. lia.
Qed.
Lemma fdalloc_view f k : wp (fdalloc f) anyerr (fun r k' =>
  (r = -1 /\ view_of k' = view_of k) \/
  exists n l b, r = Z.of_nat n /\ v_fds (view_of k) !! v_cur (view_of k) = Some (l, b) /\ l !! n = Some None /\
    view_of k' = setl (v_cur (view_of k)) (<[n := Some f]> l, b) (view_of k)) k.
Proof.
  unfold fdalloc. apply wp_bind, wp_curproc_view. intros p Hp Hv. destruct (list_find _ _) as [[n o]|] eqn:Hf; [|by apply wp_ret; left].
  apply list_find_Some in Hf as (Hn&->&_). apply wp_bind. eapply wp_upd_cur; [exact Hv|]. intros q k' Hl Hb Hk'. apply wp_ret. right.
  exists n, (p_ofile p), (live (p_state p)). split_and!; try done. rewrite Hk'. unfold pv. cbn. by rewrite Hl, Hb.
Qed.
Lemma clear_fd_view fd k l b : v_fds (view_of k) !! v_cur (view_of k) = Some (l, b) ->
  wp (clear_fd fd) anyerr (fun _ k' => view_of k' = setl (v_cur (view_of k)) (<[Z.to_nat fd := None]> l, b) (view_of k)) k.
Proof. intros Hl. eapply wp_upd_cur; [exact Hl|]. intros q k' Hql Hqb Hk'. rewrite Hk'. unfold pv. cbn. by rewrite Hql, Hqb. Qed.
End ops.

(** ** The invariant through the routines of file.c *)
Section inv.
Implicit Types (k : kern) (v : view) (f : nat) (d : nat -> Z) (raw : list nat) (ex : option nat).

Lemma one_decide g f : one g (Some f) = if decide (g = f) then 1 else 0.
Proof. unfold one. repeat case_decide; naive_solver. Qed.
Lemma fok_alloc d raw ex v f t : fok d raw ex v -> v_files v !! f = Some (0, t) ->
  fok (fun g => d g + one g (Some f)) (f :: raw) ex (setf f (1, t) v).
Proof.
  intros H Hf. eapply fok_ext; [|eapply (fok_file _ _ (f :: raw) _ _ f 0 t 1 t H Hf)].
  - intros g. cbn. by rewrite one_decide.
  - done.
  - intros _ Hn. exfalso. apply Hn. set_solver.
  - set_solver.
Qed.
Lemma fok_dup d raw ex v f n t : fok d raw ex v -> v_files v !! f = Some (n, t) -> 1 <= n ->
  fok (fun g => d g + one g (Some f)) raw ex (setf f (n + 1, t) v).
Proof.
  intros H Hf Hn. eapply fok_ext; [|eapply (fok_file _ _ raw _ _ f n t (n + 1) t H Hf)].
  - intros g. cbn. rewrite one_decide. case_decide; lia.
  - lia.
  - intros _. eapply fo_type; [exact H|exact Hf|lia].
  - set_solver.
Qed.
Lemma fok_close d raw ex v f n t : fok d raw ex v -> v_files v !! f = Some (n, t) -> 1 <= n ->
  fok (fun g => d g - one g (Some f)) raw ex (setf f (if 0 <? n - 1 then (n - 1, t) else (0, FD_NONE)) v).
Proof.
  intros H Hf Hn. destruct (0 <? n - 1) eqn:H0.
  - apply Z.ltb_lt in H0. eapply fok_ext; [|eapply (fok_file _ _ raw _ _ f n t (n - 1) t H Hf)].
    + intros g. cbn. rewrite one_decide. case_decide; lia.
    + lia.
    + intros _. eapply fo_type; [exact H|exact Hf|lia].
    + set_solver.
  - apply Z.ltb_ge in H0. eapply fok_ext; [|eapply (fok_file _ _ raw _ _ f n t 0 FD_NONE H Hf)]; try done.
    + intros g. cbn. rewrite one_decide. case_decide; lia.
    + set_solver.
Qed.
(** A file of [raw] that has its type, or is free again. *)
Lemma fok_settle d raw ex v f n t : fok d (f :: raw) ex v -> v_files v !! f = Some (n, t) -> (n <> 0 -> t <> FD_NONE) -> fok d raw ex v.
Proof.
  intros [H1 H2 H3 H4 H5 H6] Hf Ht. split; try done. intros g r u Hg Hr Hin.
  destruct (decide (g = f)) as [->|Hne]; [simplify_eq; auto|]. eapply H3; [done..|]. set_solver.
Qed.
Lemma fok_typed d raw ex v f n t t' : fok d (f :: raw) ex v -> v_files v !! f = Some (n, t) -> n <> 0 -> t' <> FD_NONE ->
  fok d raw ex (setf f (n, t') v).
Proof.
  intros H Hf Hn Ht. eapply fok_ext; [|eapply (fok_file _ _ raw _ _ f n t n t' H Hf)]; try done.
  - intros g. cbn. case_decide; lia.
  - set_solver.
Qed.
Lemma fok_bound d raw ex v i l b n f : fok d raw ex v -> v_fds v !! i = Some (l, b) -> l !! n = Some (Some f) -> (f < length (v_files v))%nat.
Proof. intros H Hi Hn. eapply fo_dom; [exact H|exact Hi|]. by eapply list_elem_of_lookup_2. Qed.

(** The counts agree again. *)
Definition good v : Prop := fok (fun _ => 0) [] None v /\ alive v.
Lemma good_ext d v : fok d [] None v -> (forall g, d g = 0) -> alive v -> good v.
Proof. intros H Hd Ha. split; [by eapply fok_ext|done]. Qed.
Lemma alive_setf f y v : alive v -> alive (setf f y v).
Proof. done. Qed.
Lemma alive_setl l l' v : v_fds v !! v_cur v = Some (l, true) -> alive (setl (v_cur v) (l', true) v).
Proof. intros H. exists l'. cbn. apply list_lookup_insert_eq. by eapply lookup_lt_Some. Qed.
Lemma alive_bool v l b : alive v -> v_fds v !! v_cur v = Some (l, b) -> b = true.
Proof. intros [l' H'] H. congruence. Qed.
Lemma wp_good {A} (m : K kern A) k : keeps m -> good (view_of k) -> wp m anyerr (fun _ k' => good (view_of k')) k.
Proof. intros Hm Hg. apply wp_keeps_end; [done|]. by intros _ k' ->. Qed.
Lemma setf_file f y v : (f < length (v_files v))%nat -> v_files (setf f y v) !! f = Some y.
Proof. intros. by apply list_lookup_insert_eq. Qed.
End inv.
Ltac counts := intros; cbn; rewrite ?one_decide; repeat case_decide; subst; unfold one; repeat case_decide; (done || lia).

Section calls.
Implicit Types (k : kern) (v : view) (f : nat).
Variable kend : Z.

Lemma sys_dup_good k : good (view_of k) -> wp sys_dup anyerr (fun _ k' => good (view_of k')) k.
Proof.
  intros [Hk Ha]. unfold sys_dup. eapply wp_seq; [apply argfd_view|]. intros [[fd f]|] k1 [Hv1 H1]; cbn beta iota; [|apply wp_ret; by rewrite Hv1].
  destruct H1 as (l&b&Hl&Hfd). pose proof (alive_bool _ _ _ Ha Hl) as ->. pose proof (fok_bound _ _ _ _ _ _ _ _ _ Hk Hl Hfd) as Hlt.
  eapply wp_seq; [apply fdalloc_view|]. rewrite Hv1. intros r k2 [[-> Hv2]|(n&l'&b&->&Hl'&Hn&Hv2)]; [apply wp_ret; by rewrite Hv2|].
  simplify_eq. rewrite (proj2 (Z.ltb_ge _ _)) by lia. eapply wp_seq; [apply filedup_view|]. intros g k3 (_&m&t&Hf&Hm&Hv3). apply wp_ret.
  rewrite Hv2 in *. rewrite Hv3. eapply good_ext.
  - eapply fok_dup; [eapply fok_fd; [exact Hk|exact Hl|exact Hn|by intros ? [= <-]|done]|exact Hf|done].
  - counts.
  - by eapply alive_setf, alive_setl.
Qed.
Lemma sys_close_good k : good (view_of k) -> wp (sys_close kend) anyerr (fun _ k' => good (view_of k')) k.
Proof.
  intros [Hk Ha]. unfold sys_close. eapply wp_seq; [apply argfd_view|]. intros [[fd f]|] k1 [Hv1 H1]; cbn beta iota; [|apply wp_ret; by rewrite Hv1].
  destruct H1 as (l&b&Hl&Hfd). pose proof (alive_bool _ _ _ Ha Hl) as ->.
  eapply wp_seq; [eapply (clear_fd_view fd k1 l true); by rewrite Hv1|]. rewrite Hv1. intros [] k2 Hv2.
  eapply wp_seq; [apply fileclose_view|]. intros [] k3 (m&t&Hf&Hm&Hv3). apply wp_ret.
  rewrite Hv2 in *. rewrite Hv3. eapply good_ext.
  - eapply fok_close; [eapply fok_fd; [exact Hk|exact Hl|exact Hfd|done|done]|exact Hf|done].
  - counts.
  - by eapply alive_setf, alive_setl.
Qed.
End calls.
