(* ===== verification/FileCalls.v ===== *)
(** The invariant of [FileInv] through open, pipe, fork, exit and wait, and
    then through every system call and trap. *)
From S2P Require Import Prelude Params Str Log BlockIf Fs Pipe Kalloc Vm Proc Console Kern File ProcOps Sysfile Exec Syscall FileInv FileOps.

Section opening.
Implicit Types (k : kern) (v : view) (f : nat).
Variable kend : Z.

Lemma cnt_nonneg f fds : 0 <= cnt f fds.
Proof. induction fds as [|x fds IH]; simpl; [lia|]. pose proof (lcnt_nonneg f x.1). lia. Qed.

Lemma open_fd_good k : good (view_of k) -> wp (open_fd kend) anyerr (fun r k' =>
  match r with
  | None => good (view_of k')
  | Some (f, _) => fok (fun _ => 0) [f] None (view_of k') /\ alive (view_of k') /\ exists t, v_files (view_of k') !! f = Some (1, t)
  end) k.
Proof.
  intros [Hk Ha]. unfold open_fd. eapply wp_seq; [apply filealloc_view|]. intros [f|] k1 H1; [|apply wp_ret; by rewrite H1].
  destruct H1 as (t&Hf&Hv1). pose proof (lookup_lt_Some _ _ _ Hf) as Hlt. pose proof (fok_alloc _ _ _ _ _ _ Hk Hf) as Hk1. rewrite <- Hv1 in Hk1.
  assert (Hf1 : v_files (view_of k1) !! f = Some (1, t)) by (rewrite Hv1; by apply setf_file).
  assert (Ha1 : alive (view_of k1)) by (by rewrite Hv1).
  eapply wp_seq; [apply fdalloc_view|]. intros r k2 [[-> Hv2]|(n&l&b&->&Hl&Hn&Hv2)].
  - cbn. eapply wp_seq; [apply fileclose_view|]. rewrite Hv2. intros [] k3 (m&u&Hm&Hm1&Hv3). apply wp_ret. simplify_eq.
    rewrite Hv3. eapply good_ext; [eapply fok_settle; [eapply fok_close; [exact Hk1|exact Hf1|done]|apply setf_file|done]|counts|done].
    by eapply lookup_lt_Some.
  - rewrite (proj2 (Z.ltb_ge _ _)) by lia. apply wp_ret. pose proof (alive_bool _ _ _ Ha1 Hl) as ->. rewrite Hv2. split_and!.
    + eapply fok_ext; [|eapply fok_fd; [exact Hk1|exact Hl|exact Hn| |done]].
      * counts.
      * intros ? [= <-]. rewrite Hv1. cbn. by rewrite length_insert.
    + by eapply alive_setl.
    + exists t. exact Hf1.
Qed.

Lemma pipealloc_view k : good (view_of k) -> wp (pipealloc kend) anyerr (fun r k' =>
  alive (view_of k') /\ v_fds (view_of k') = v_fds (view_of k) /\
  match r with
  | None => fok (fun _ => 0) [] None (view_of k')
  | Some (f0, f1) => fok (fun g => one g (Some f0) + one g (Some f1)) [] None (view_of k') /\
      v_files (view_of k') !! f0 = Some (1, FD_PIPE) /\ v_files (view_of k') !! f1 = Some (1, FD_PIPE) /\ f0 <> f1
  end) k.
Proof.
  intros [Hk Ha]. unfold pipealloc. eapply wp_seq; [apply filealloc_view|]. intros [f0|] k1 H1; [|apply wp_ret; by rewrite H1].
  destruct H1 as (t0&Hf0&Hv1). pose proof (lookup_lt_Some _ _ _ Hf0) as Hlt0. pose proof (fok_alloc _ _ _ _ _ _ Hk Hf0) as Hk1. rewrite <- Hv1 in Hk1.
  assert (Hf01 : v_files (view_of k1) !! f0 = Some (1, t0)) by (rewrite Hv1; by apply setf_file).
  assert (Hl1 : v_fds (view_of k1) = v_fds (view_of k)) by (by rewrite Hv1). assert (Ha1 : alive (view_of k1)) by (by rewrite Hv1). clear Hv1.
  eapply wp_seq; [apply filealloc_view|]. intros [f1|] k2 H2.
  2:{ eapply wp_seq; [apply fileclose_view|]. rewrite H2. intros [] k3 (m&u&Hm&Hm1&Hv3). apply wp_ret. simplify_eq.
      rewrite Hv3. split_and!; [done|done|].
      eapply fok_ext; [|eapply fok_settle; [eapply fok_close; [exact Hk1|exact Hf01|done]|apply setf_file; by eapply lookup_lt_Some|done]]. counts. }
  destruct H2 as (t1&Hf1&Hv2). pose proof (lookup_lt_Some _ _ _ Hf1) as Hlt1. pose proof (fok_alloc _ _ _ _ _ _ Hk1 Hf1) as Hk2. rewrite <- Hv2 in Hk2.
  assert (Hne : f0 <> f1) by (intros ->; congruence).
  assert (Hf12 : v_files (view_of k2) !! f1 = Some (1, t1)) by (rewrite Hv2; by apply setf_file).
  assert (Hf02 : v_files (view_of k2) !! f0 = Some (1, t0)) by (rewrite Hv2; cbn; by rewrite list_lookup_insert_ne).
  assert (Hl2 : v_fds (view_of k2) = v_fds (view_of k)) by (by rewrite Hv2). assert (Ha2 : alive (view_of k2)) by (by rewrite Hv2). clear Hv2.
  apply wp_keeps; [keep|]. intros p k3 Hv3. destruct (p =? 0).
  - eapply wp_seq; [apply fileclose_view|]. rewrite Hv3. intros [] k4 (m&u&Hm&Hm1&Hv4). simplify_eq.
    pose proof (fok_close _ _ _ _ _ _ _ Hk2 Hf02 Hm1) as Hk4. rewrite <- Hv4 in Hk4. cbn [Z.sub Z.ltb] in *.
    eapply wp_seq; [apply fileclose_view|]. intros [] k5 (m&u&Hm&Hm2&Hv5). apply wp_ret.
    assert (Hm' : (m, u) = (1, t1)). { rewrite Hv4 in Hm. cbn in Hm. rewrite list_lookup_insert_ne in Hm by done. cbn in Hf12. congruence. } simplify_eq.
    pose proof (fok_close _ _ _ _ _ _ _ Hk4 Hm ltac:(lia)) as Hk5. rewrite <- Hv5 in Hk5.
    split_and!; [rewrite Hv5, Hv4; exact Ha2|rewrite Hv5, Hv4; exact Hl2|].
    eapply fok_ext; [|eapply (fok_settle _ _ _ _ f0 0 FD_NONE); [eapply (fok_settle _ _ _ _ f1 0 FD_NONE); [exact Hk5| |done]| |done]].
    + counts.
    + rewrite Hv5. apply setf_file. by eapply lookup_lt_Some.
    + rewrite Hv5. cbn [setf v_files]. rewrite list_lookup_insert_ne by done. rewrite Hv4. apply setf_file. by eapply lookup_lt_Some.
  - apply wp_keeps; [keep|]. intros pg k4 Hv4. apply wp_keeps; [keep|]. intros [] k5 Hv5.
    assert (Hv : view_of k5 = view_of k2) by congruence. clear k3 k4 Hv3 Hv4 Hv5.
    rewrite <- Hv in *. clear k2 Hv Hlt1 Hf1. destruct (view_file _ _ _ _ Hf02) as (x0&Hx0&Hr0&_).
    apply wp_bind. eapply wp_upd_file; [exact Hx0|]. intros k6 Hv6 _. cbn [fv f_ref f_type] in Hv6. rewrite Hr0 in Hv6.
    assert (Hf16 : v_files (view_of k6) !! f1 = Some (1, t1)) by (rewrite Hv6; cbn; cbn in Hf12; by rewrite list_lookup_insert_ne).
    destruct (view_file _ _ _ _ Hf16) as (x1&Hx1&Hr1&_).
    apply wp_bind. eapply wp_upd_file; [exact Hx1|]. intros k7 Hv7 _. cbn [fv f_ref f_type] in Hv7. rewrite Hr1 in Hv7. apply wp_ret.
    assert (H06 : fok (fun g => 0 + one g (Some f0) + one g (Some f1)) [f1] None (view_of k6)).
    { rewrite Hv6. eapply fok_typed; [|exact Hf02|done|done]. destruct Hk2 as [A1 A2 A3 A4 A5 A6]. split; try done.
      intros g r u Hg Hr Hin. eapply A3; [done..|set_solver]. }
    split_and!; [rewrite Hv7, Hv6; exact Ha2|rewrite Hv7, Hv6; exact Hl2|..]; [| | |done]; rewrite Hv7.
    + eapply fok_ext; [|eapply fok_typed; [exact H06|exact Hf16|done|done]]. counts.
    + cbn [setf v_files]. rewrite list_lookup_insert_ne by done. rewrite Hv6. apply setf_file. by eapply lookup_lt_Some.
    + apply setf_file. by eapply lookup_lt_Some.
Qed.
End opening.

(** ** Calls that leave the view as it is *)
Section keeping.
Variable devsw : Z -> option (@devops lst).
Variables (kend kdata : Z).

Lemma keeps_kcwd : keeps kcwd.
Proof. unfold kcwd. keep. Qed.
#[local] Hint Resolve keeps_kcwd : keeps.
Lemma keeps_knamei path : keeps (knamei devsw path).
Proof. unfold knamei. keep. Qed.
Lemma keeps_knameiparent path : keeps (knameiparent devsw path).
Proof. unfold knameiparent. keep. Qed.
#[local] Hint Resolve keeps_knamei keeps_knameiparent : keeps.
Lemma keeps_create path type major minor : keeps (create devsw path type major minor).
Proof. unfold create. keep. Qed.
#[local] Hint Resolve keeps_create : keeps.
Lemma keeps_open_inode path m : keeps (open_inode devsw path m).
Proof. unfold open_inode. keep. Qed.
Lemma keeps_arg_rw : keeps arg_rw.
Proof. unfold arg_rw. keep. Qed.
#[local] Hint Resolve keeps_arg_rw : keeps.
Lemma keeps_sys_read : keeps (sys_read devsw).
Proof. unfold sys_read. keep. Qed.
Lemma keeps_sys_write : keeps (sys_write devsw).
Proof. unfold sys_write. keep. Qed.
Lemma keeps_sys_fstat : keeps sys_fstat.
Proof. unfold sys_fstat, store_stat. keep. Qed.
Lemma keeps_link_bad ip : keeps (link_bad ip).
Proof. unfold link_bad. keep. Qed.
Lemma keeps_unlink_bad dp : keeps (unlink_bad dp).
Proof. unfold unlink_bad. keep. Qed.
#[local] Hint Resolve keeps_link_bad keeps_unlink_bad : keeps.
Lemma keeps_sys_link : keeps (sys_link devsw).
Proof. unfold sys_link. keep. Qed.
Lemma keeps_sys_unlink : keeps (sys_unlink devsw).
Proof. unfold sys_unlink. keep. Qed.
Lemma keeps_make_node ip : keeps (make_node ip).
Proof. unfold make_node. keep. Qed.
#[local] Hint Resolve keeps_make_node : keeps.
Lemma keeps_sys_mkdir : keeps (sys_mkdir devsw).
Proof. unfold sys_mkdir. keep. Qed.
Lemma keeps_sys_mknod : keeps (sys_mknod devsw).
Proof. unfold sys_mknod. keep. Qed.
Lemma keeps_sys_chdir : keeps (sys_chdir devsw).
Proof. unfold sys_chdir. keep. Qed.
Lemma keeps_ld_int a : keeps (ld_int a).
Proof. unfold ld_int. keep. Qed.
Lemma keeps_arg_struct n : keeps (arg_struct n).
Proof. unfold arg_struct. keep. Qed.
Lemma keeps_load_rows a w n rows : keeps (load_rows a w n rows).
Proof. unfold load_rows, user_cstr, put_row. keep. Qed.
#[local] Hint Resolve keeps_ld_int keeps_arg_struct keeps_load_rows : keeps.
Lemma keeps_sys_test : keeps sys_test.
Proof. unfold sys_test. keep. Qed.
Lemma keeps_sys_setProgramStatus : keeps sys_setProgramStatus.
Proof. unfold sys_setProgramStatus. keep. Qed.
Lemma keeps_sys_setHistory : keeps sys_setHistory.
Proof. unfold sys_setHistory. keep. Qed.
Lemma keeps_sys_setExeCmd : keeps sys_setExeCmd.
Proof. unfold sys_setExeCmd. keep. Qed.
Lemma keeps_exec_bad pgdir ip : keeps (exec_bad kend pgdir ip).
Proof. unfold exec_bad. keep. Qed.
Lemma keeps_load_program pgdir ip elf : keeps (load_program devsw kend pgdir ip elf).
Proof. unfold load_program, load_segment, loaduvm. keep. Qed.
Lemma keeps_push_args pgdir argv argc sp addrs : keeps (push_args pgdir argv argc sp addrs).
Proof. revert argc sp addrs. induction argv as [|s argv IH]; intros argc sp addrs; cbn [push_args]; keep. Qed.
#[local] Hint Resolve keeps_exec_bad keeps_load_program keeps_push_args : keeps.
Lemma keeps_exec path argv : keeps (exec devsw kend kdata path argv).
Proof. unfold exec, exec_commit. keep. Qed.
#[local] Hint Resolve keeps_exec : keeps.
Lemma keeps_sys_exec : keeps (sys_exec devsw kend kdata).
Proof. unfold sys_exec, fetch_argv. keep. Qed.
Lemma keeps_kkill pid : keeps (kkill pid).
Proof.
  unfold kkill. intros k. apply wp_bind, wp_gets. unfold kill. destruct (list_find _ _) as [[i p]|]; [|done].
  apply wp_bind, wp_modify, wp_ret. unfold view_of. cbn. rewrite alter_view; [done|].
  intros q. unfold pv. cbn. case_decide as Hd; [|done]. cbn. by rewrite Hd.
Qed.
#[local] Hint Resolve keeps_kkill : keeps.
Lemma keeps_sys_kill : keeps sys_kill.
Proof. unfold sys_kill. keep. Qed.
Lemma keeps_sys_sbrk : keeps (sys_sbrk kend).
Proof. unfold sys_sbrk, growproc. keep. Qed.
Lemma keeps_sys_sleep : keeps sys_sleep.
Proof. unfold sys_sleep, sleep_check. keep. Qed.
Lemma keeps_sys_getpid : keeps sys_getpid.
Proof. unfold sys_getpid. keep. Qed.
Lemma keeps_sys_uptime : keeps sys_uptime.
Proof. unfold sys_uptime. keep. Qed.
End keeping.
#[export] Hint Resolve keeps_open_inode keeps_sys_read keeps_sys_write keeps_sys_fstat keeps_sys_link keeps_sys_unlink keeps_sys_mkdir
  keeps_sys_mknod keeps_sys_chdir keeps_sys_test keeps_sys_setProgramStatus keeps_sys_setHistory keeps_sys_setExeCmd keeps_sys_exec
  keeps_sys_kill keeps_sys_sbrk keeps_sys_sleep keeps_sys_getpid keeps_sys_uptime : keeps.

Section calls2.
Implicit Types (k : kern) (v : view) (f : nat).
Variable devsw : Z -> option (@devops lst).
Variables (kend kdata forkret trapret : Z).

Lemma sys_open_good k : good (view_of k) -> wp (sys_open devsw kend) anyerr (fun _ k' => good (view_of k')) k.
Proof.
  intros Hk. unfold sys_open. apply wp_keeps; [keep|]. intros [[? path]|] k1 Hv1; [|apply wp_ret; by rewrite Hv1].
  apply wp_keeps; [keep|]. intros [m|] k2 Hv2; [|apply wp_ret; by rewrite Hv2, Hv1].
  apply wp_keeps; [keep|]. intros [ip|] k3 Hv3; [|apply wp_ret; by rewrite Hv3, Hv2, Hv1].
  rewrite <- Hv1, <- Hv2, <- Hv3 in Hk. eapply wp_seq; [by apply open_fd_good|]. intros [[f fd]|] k4 H4.
  2:{ apply wp_good; [keep|done]. }
  destruct H4 as (H4&Ha&t&Hf). apply wp_keeps; [keep|]. intros [] k5 Hv5. rewrite <- Hv5 in H4, Ha, Hf.
  destruct (view_file _ _ _ _ Hf) as (x&Hx&Hr&_). apply wp_bind. eapply wp_upd_file; [exact Hx|]. intros k6 Hv6 _. apply wp_ret.
  cbn [fv f_ref f_type] in Hv6. rewrite Hv6, Hr. split; [|done]. by eapply fok_typed.
Qed.

(** The two ends of a pipe, closed again. *)
Lemma close_pair_good r w k (e : Z) : fok (fun g => one g (Some r) + one g (Some w)) [] None (view_of k) -> alive (view_of k) ->
  wp (fileclose kend r;; fileclose kend w;; ret e) anyerr (fun _ k' => good (view_of k')) k.
Proof.
  intros Hk Ha. eapply wp_seq; [apply fileclose_view|]. intros [] k1 (m&t&Hf&Hm&Hv1).
  eapply wp_seq; [apply fileclose_view|]. intros [] k2 (n&u&Hg&Hn&Hv2). apply wp_ret. rewrite Hv1 in *. rewrite Hv2.
  eapply good_ext; [eapply fok_close; [eapply fok_close; [exact Hk|exact Hf|done]|exact Hg|done]|counts|done].
Qed.
Lemma sys_pipe_good k : good (view_of k) -> wp (sys_pipe kend) anyerr (fun _ k' => good (view_of k')) k.
Proof.
  intros Hk. unfold sys_pipe. apply wp_keeps; [keep|]. intros [fd|] k1 Hv1; [|apply wp_ret; by rewrite Hv1]. rewrite <- Hv1 in Hk.
  eapply wp_seq; [by apply pipealloc_view|]. intros [[rf wf]|] k2 (Ha2&_&H2); [|apply wp_ret; by split].
  destruct H2 as (H2&Hr&Hw&Hne). pose proof (lookup_lt_Some _ _ _ Hr) as Hltr. pose proof (lookup_lt_Some _ _ _ Hw) as Hltw.
  eapply wp_seq; [apply fdalloc_view|]. intros n k3 [[-> Hv3]|(n0&l&b&->&Hl&Hn0&Hv3)].
  { cbn. apply close_pair_good; by rewrite Hv3. }
  pose proof (alive_bool _ _ _ Ha2 Hl) as ->. rewrite (proj2 (Z.ltb_ge _ _)) by lia.
  assert (H3 : fok (fun g => one g (Some wf)) [] None (view_of k3)).
  { rewrite Hv3. eapply fok_ext; [|eapply fok_fd; [exact H2|exact Hl|exact Hn0|by intros ? [= <-]|done]]. counts. }
  assert (Ha3 : alive (view_of k3)) by (rewrite Hv3; by eapply alive_setl).
  assert (Hn3 : v_fds (view_of k3) !! v_cur (view_of k3) = Some (<[n0 := Some rf]> l, true)).
  { rewrite Hv3. cbn [setl v_fds v_cur]. apply list_lookup_insert_eq. by eapply lookup_lt_Some. }
  eapply wp_seq; [apply fdalloc_view|]. intros n k4 [[-> Hv4]|(n1&l'&b&->&Hl'&Hn1&Hv4)].
  - change (-1 <? 0) with true. cbn iota. eapply wp_seq; [eapply (clear_fd_view _ k4); rewrite Hv4; exact Hn3|]. intros [] k5 Hv5.
    rewrite Hv4, Nat2Z.id in Hv5. apply close_pair_good; rewrite Hv5; [|by eapply alive_setl].
    eapply fok_ext; [|eapply (fok_fd _ _ _ _ _ _ _ n0 (Some rf) None H3 Hn3); [|done|done]].
    + counts.
    + apply list_lookup_insert_eq. by eapply lookup_lt_Some.
  - rewrite (proj2 (Z.ltb_ge _ _)) by lia. simplify_eq. apply wp_good; [keep|]. rewrite Hv4. eapply good_ext.
    + eapply fok_fd; [exact H3|exact Hn3|exact Hn1| |done]. intros ? [= <-]. by rewrite Hv3.
    + counts.
    + by eapply alive_setl.
Qed.

(** ** proc.c *)
Lemma lcnt_cons g o l : lcnt g (o :: l) = one g o + lcnt g l.
Proof. done. Qed.
Lemma dup_files_view l d k : fok d [] None (view_of k) -> wp (dup_files l) anyerr (fun r k' =>
  r = l /\ v_fds (view_of k') = v_fds (view_of k) /\ v_cur (view_of k') = v_cur (view_of k) /\
  length (v_files (view_of k')) = length (v_files (view_of k)) /\
  fok (fun g => d g + lcnt g l) [] None (view_of k')) k.
Proof.
  revert d k. induction l as [|[f|] l IH]; intros d k Hk; cbn [dup_files].
  - apply wp_ret. split_and!; try done. eapply fok_ext; [|exact Hk]. intros g. cbn. lia.
  - eapply wp_seq; [apply filedup_view|]. intros g k1 (->&n&t&Hf&Hn&Hv1).
    pose proof (fok_dup _ _ _ _ _ _ _ Hk Hf Hn) as Hk1. rewrite <- Hv1 in Hk1.
    eapply wp_seq; [by apply IH|]. intros r k2 (->&H1&H2&H3&H4). apply wp_ret. split_and!; [done|by rewrite H1, Hv1|by rewrite H2, Hv1|rewrite H3, Hv1; apply length_insert|].
    eapply fok_ext; [|exact H4]. intros g. cbv beta. rewrite lcnt_cons. lia.
  - eapply wp_seq; [by apply IH|]. intros r k2 (->&H1&H2&H3&H4). apply wp_ret. split_and!; [done..|].
    eapply fok_ext; [|exact H4]. intros g. cbv beta. rewrite lcnt_cons. unfold one. rewrite decide_False by done. lia.
Qed.
(** The new process is not running and has no descriptors. *)
Lemma setl_same i y v : v_fds v !! i = Some y -> setl i y v = v.
Proof. intros H. unfold setl. rewrite list_insert_id by done. by destruct v. Qed.
Lemma allocproc_view k : wp (allocproc forkret trapret) anyerr (fun r k' => view_of k' = view_of k /\
  match r with None => True | Some np => exists l, v_fds (view_of k) !! np = Some (l, false) end) k.
Proof.
  unfold allocproc. apply wp_bind, wp_gets. unfold find_unused. destruct (list_find _ _) as [[np p]|] eqn:Hf; [|done].
  apply list_find_Some in Hf as (Hp&Hst&_). cbn [fmap option_fmap option_map fst]. apply wp_bind, wp_gets. apply wp_bind, wp_modify.
  assert (Hnp : v_fds (view_of k) !! np = Some (p_ofile p, false)) by (cbn; rewrite list_lookup_fmap, Hp; cbn; unfold pv; by rewrite Hst).
  set (k1 := set_knext _ _). assert (Hv1 : view_of k1 = view_of k).
  { unfold k1, view_of, take_slot. cbn. rewrite (alter_view_at pv _ np _ p Hp). cbn. f_equal. apply list_insert_id. exact Hnp. }
  clearbody k1. apply wp_keeps; [keep|]. intros kst k2 Hv2. apply wp_keeps; [keep|]. intros [] k3 Hv3.
  destruct (kst =? 0).
  - apply wp_bind. eapply (wp_upd_proc k3 np); [rewrite Hv3, Hv2, Hv1; exact Hnp|]. intros q k4 Hq _ Hv4. apply wp_ret. split; [|done].
    rewrite Hv4, Hv3, Hv2, Hv1. apply setl_same. unfold pv. cbn. by rewrite Hq.
  - cbv zeta. do 5 (apply wp_keeps; [keep|]; intros ? ? ?). apply wp_ret. split; [congruence|]. by exists (p_ofile p).
Qed.

Lemma merge_none l files : Forall (fun o => o = None) l -> length l = length files -> merge_files l files = files.
Proof.
  intros Hl. revert files. induction Hl as [|o l -> _ IH]; intros [|f files] H; simplify_eq/=; [done|].
  unfold merge_files in *. cbn. rewrite IH by done. by destruct f.
Qed.
Lemma alive_other i y v l : v_fds v !! i = Some (l, false) -> alive v -> alive (setl i y v).
Proof. intros Hi [m Hm]. exists m. cbn. rewrite list_lookup_insert_ne; [done|]. intros ->. congruence. Qed.
(** fork's child, once it has copies of the descriptors. *)
Lemma child_files_view np l files d k :
  fok d [] None (view_of k) -> alive (view_of k) -> v_fds (view_of k) !! np = Some (l, false) -> length files = NOFILE ->
  (forall f, Some f ∈ files -> (f < length (v_files (view_of k)))%nat) ->
  wp (upd_proc np (fun x => set_ofile (merge_files (p_ofile x) files) x)) anyerr (fun _ k' =>
    fok (fun g => d g - lcnt g files) [] (Some np) (view_of k') /\ alive (view_of k') /\ v_fds (view_of k') !! np = Some (files, false) /\
    length (v_files (view_of k')) = length (v_files (view_of k))) k.
Proof.
  intros Hk Ha Hnp Hlen Hdom. eapply wp_upd_proc; [exact Hnp|]. intros x k' Hx Hb Hv'. unfold pv in Hv'. cbn [p_ofile p_state set_ofile] in Hv'.
  pose proof (fo_dead _ _ _ _ Hk np l Hnp ltac:(done)) as Hnone. rewrite Hb, Hx, merge_none in Hv' by (done || by rewrite Hlen; eapply fo_len).
  rewrite Hv'. split_and!.
  - eapply fok_ext; [|eapply (fok_fds _ _ _ (Some np) _ np l false files false Hk Hnp Hlen Hdom)]; try done.
    intros g. cbv beta. rewrite (lcnt_none g l Hnone). lia.
  - by eapply alive_other.
  - cbn [setl v_fds]. apply list_lookup_insert_eq. by eapply lookup_lt_Some.
  - done.
Qed.
(** ... and runs. *)
Lemma child_runs_view np files d k :
  fok d [] (Some np) (view_of k) -> alive (view_of k) -> v_fds (view_of k) !! np = Some (files, false) ->
  wp (upd_proc np (set_state RUNNABLE)) anyerr (fun _ k' => fok d [] None (view_of k') /\ alive (view_of k')) k.
Proof.
  intros Hk Ha Hnp. eapply wp_upd_proc; [exact Hnp|]. intros x k' Hx Hb Hv'. unfold pv in Hv'. cbn [p_ofile p_state set_state live] in Hv'.
  rewrite Hx in Hv'. rewrite Hv'. split; [|by eapply alive_other].
  eapply fok_ext; [|eapply (fok_fds _ _ _ None _ np files false files true Hk Hnp)]; try done.
  - intros g. cbv beta. lia.
  - by eapply fo_len.
  - intros f Hf. eapply fo_dom; [exact Hk|exact Hnp|exact Hf].
  - intros j Hj [= ->]. done.
Qed.

Lemma fork_good k : good (view_of k) -> wp (fork kend kdata forkret trapret) anyerr (fun _ k' => good (view_of k')) k.
Proof.
  intros [Hk Ha]. unfold fork. eapply wp_seq; [apply allocproc_view|]. intros [np|] k1 [Hv1 H1]; [|apply wp_ret; by rewrite Hv1].
  destruct H1 as [l Hnp]. rewrite <- Hv1 in Hk, Ha, Hnp. clear k Hv1.
  apply wp_bind, wp_curproc_view. intros p Hp Hpv.
  apply wp_keeps; [keep|]. intros pgdir k2 Hv2. apply wp_keeps; [keep|]. intros [] k3 Hv3. rewrite <- Hv2, <- Hv3 in Hk, Ha, Hnp, Hpv.
  clear k2 Hv2 Hv3 Hp k1. destruct (pgdir =? 0).
  { apply wp_keeps; [keep|]. intros x k4 Hv4. apply wp_keeps; [keep|]. intros [] k5 Hv5. rewrite <- Hv4, <- Hv5 in Hk, Ha, Hnp.
    apply wp_bind. eapply wp_upd_proc; [exact Hnp|]. intros q k6 Hq Hb Hv6. apply wp_ret. rewrite Hv6. unfold pv. cbn. rewrite Hq.
    rewrite setl_same by exact Hnp. by split. }
  apply wp_keeps; [keep|]. intros me k4 Hv4. apply wp_keeps; [keep|]. intros [] k5 Hv5. apply wp_keeps; [keep|]. intros [] k6 Hv6.
  rewrite <- Hv4, <- Hv5, <- Hv6 in Hk, Ha, Hnp, Hpv. clear Hv4 Hv5 Hv6 k3 k4 k5.
  eapply wp_seq; [by apply dup_files_view|]. intros files k7 (->&Hl7&Hc7&Hn7&Hk7).
  assert (Hlen : length (p_ofile p) = NOFILE) by (exact (fo_len _ _ _ _ Hk _ _ _ Hpv)).
  assert (Hdom : forall f, Some f ∈ p_ofile p -> (f < length (v_files (view_of k7)))%nat).
  { intros f Hf. rewrite Hn7. eapply fo_dom; [exact Hk|exact Hpv|exact Hf]. }
  eapply wp_seq; [eapply (child_files_view np l); [exact Hk7|unfold alive; by rewrite Hl7, Hc7|by rewrite Hl7|done|done]|].
  intros [] k8 (Hk8&Ha8&Hnp8&_). apply wp_keeps; [keep|]. intros cwd k9 Hv9. apply wp_keeps; [keep|]. intros [] k10 Hv10.
  apply wp_keeps; [keep|]. intros x k11 Hv11. rewrite <- Hv9, <- Hv10, <- Hv11 in Hk8, Ha8, Hnp8.
  eapply wp_seq; [by eapply child_runs_view|]. intros [] k12 [Hk12 Ha12]. apply wp_good; [keep|]. eapply good_ext; [exact Hk12| |done].
  intros g. cbv beta. lia.
Qed.

(** ** exit *)
Lemma close_fd_view j l k : fok (fun _ => 0) [] None (view_of k) -> v_fds (view_of k) !! v_cur (view_of k) = Some (l, true) ->
  0 <= j < Z.of_nat NOFILE ->
  wp (close_fd kend j) anyerr (fun _ k' => fok (fun _ => 0) [] None (view_of k') /\ v_cur (view_of k') = v_cur (view_of k) /\
    v_fds (view_of k') !! v_cur (view_of k') = Some (<[Z.to_nat j := None]> l, true)) k.
Proof.
  intros Hk Hl Hj. assert (Hlen : length l = NOFILE) by (by eapply fo_len).
  unfold close_fd. apply wp_bind, wp_curproc_view. intros p Hp Hpv. rewrite Hl in Hpv. injection Hpv as Hpo _.
  apply wp_bind. apply wp_aget; [rewrite <- Hpo; lia|]. rewrite <- Hpo.
  assert (Hj' : l !! Z.to_nat j = Some (l !!! Z.to_nat j)) by (apply list_lookup_lookup_total_lt; lia).
  destruct (l !!! Z.to_nat j) as [f|].
  - eapply wp_seq; [apply fileclose_view|]. intros [] k1 (m&t&Hf&Hm&Hv1). pose proof (fok_close _ _ _ _ _ _ _ Hk Hf Hm) as Hk1. rewrite <- Hv1 in Hk1.
    assert (Hl1 : v_fds (view_of k1) !! v_cur (view_of k1) = Some (l, true)) by (by rewrite Hv1).
    eapply wp_post; [by eapply clear_fd_view|]. intros [] k2 Hv2. rewrite Hv2. split_and!.
    + eapply fok_ext; [|eapply fok_fd; [exact Hk1|exact Hl1|exact Hj'|done|done]]. counts.
    + by rewrite Hv1.
    + cbn [setl v_fds v_cur]. apply list_lookup_insert_eq. by eapply lookup_lt_Some.
  - apply wp_ret. split_and!; [done..|]. by rewrite list_insert_id.
Qed.
Lemma reparent_pv me init n i t : pv <$> reparent me init n i t = pv <$> t.
Proof.
  revert i t. induction n as [|n IH]; intros i t; cbn [reparent]; [done|]. rewrite IH. destruct (t !! i) as [p|] eqn:Hp; [|done].
  case_decide; [|done]. assert (He : pv <$> <[i := set_parent (Some init) p]> t = pv <$> t).
  { rewrite list_fmap_insert. apply list_insert_id. by rewrite list_lookup_fmap, Hp. }
  case_decide; by rewrite ?wakeup1_pv.
Qed.
(** After exit the process is a zombie without descriptors. *)
Definition gone (k : kern) : Prop := fok (fun _ => 0) [] None (view_of k) /\ exists p, k_procs k !! k_cur k = Some p /\ p_state p = ZOMBIE.
Lemma exit_table_pv me init t p : t !! me = Some p -> pv <$> exit_table me init t = <[me := (p_ofile p, false)]> (pv <$> t).
Proof.
  intros Hp. unfold exit_table. cbv zeta. set (t1 := wakeup1 _ t). set (t2 := reparent _ _ _ _ t1).
  assert (H2 : pv <$> t2 = pv <$> t) by (unfold t2; rewrite reparent_pv; apply wakeup1_pv).
  assert (Hm : (pv <$> t2) !! me = Some (pv p)) by (by rewrite H2, list_lookup_fmap, Hp).
  rewrite list_lookup_fmap in Hm. destruct (t2 !! me) as [q|] eqn:Hq; [|done]. injection Hm as Hm _.
  rewrite (alter_view_at pv _ me _ q Hq), H2. unfold pv at 1. cbn. by rewrite Hm.
Qed.
Lemma close_all_view k : good (view_of k) -> wp (for_range NOFILE 0 (close_fd kend)) anyerr (fun _ k' =>
  fok (fun _ => 0) [] None (view_of k') /\ k_cur k' = k_cur k /\
  exists l, v_fds (view_of k') !! v_cur (view_of k') = Some (l, true) /\ Forall (fun o => o = None) l) k.
Proof.
  intros [Hk [l0 Hl0]].
  apply (wp_for_range (fun j k' => fok (fun _ => 0) [] None (view_of k') /\ k_cur k' = k_cur k /\
    exists l, v_fds (view_of k') !! v_cur (view_of k') = Some (l, true) /\ forall i, (i < Z.to_nat j)%nat -> l !! i = Some None)).
  - split_and!; [done|done|]. exists l0. split; [done|]. intros i Hi. lia.
  - intros j k1 Hj (Hk1&Hc1&l&Hl&Hn). assert (Hlen : length l = NOFILE) by (by eapply fo_len).
    eapply wp_post; [apply (close_fd_view j l); [done|done|lia]|]. intros [] k2 (Hk2&Hc2&Hl2). split_and!; [done|by rewrite <- Hc1|].
    eexists. split; [exact Hl2|]. intros i Hi. destruct (decide (i = Z.to_nat j)) as [->|Hne].
    + apply list_lookup_insert_eq. lia.
    + rewrite list_lookup_insert_ne by done. apply Hn. lia.
  - intros k1 (Hk1&Hc1&l&Hl&Hn). split_and!; [done..|]. exists l. split; [done|]. apply Forall_lookup. intros i o Ho.
    assert (Hlen : length l = NOFILE) by (by eapply fo_len). pose proof (lookup_lt_Some _ _ _ Ho).
    rewrite Hn in Ho by lia. by injection Ho.
Qed.
Lemma exit_gone k : good (view_of k) -> wp (exit kend) anyerr (fun _ k' => gone k') k.
Proof.
  intros Hg. unfold exit. apply wp_bind, wp_gets. apply wp_bind, wp_gets. destruct (_ =? _)%nat; [done|].
  set (me := k_cur k). set (init := k_init k).
  eapply wp_seq; [by apply close_all_view|]. fold me.
  intros [] k1 (Hk1&Hc1&l&Hl&Hn). apply wp_keeps; [keep|]. intros p k2 Hv2. apply wp_keeps; [keep|]. intros _ k3 Hv3.
  apply wp_keeps; [keep|]. intros [] k4 Hv4. assert (Hc : k_cur k4 = me).
  { change (v_cur (view_of k4) = me). rewrite Hv4, Hv3, Hv2. exact Hc1. }
  rewrite <- Hv2, <- Hv3, <- Hv4 in Hk1, Hl. destruct (view_proc _ _ _ _ Hl) as (q&Hq&Hqo&_). cbn [v_cur view_of] in Hq, Hl. rewrite Hc in Hq, Hl.
  apply wp_modify. pose proof (exit_table_pv me init _ q Hq) as He. rewrite Hqo in He. split.
  - replace (view_of _) with (setl me (l, false) (view_of k4)) by (unfold view_of, setl; cbn; by rewrite He).
    eapply fok_ext; [|eapply (fok_fds _ _ _ None _ me l true l false Hk1 Hl)]; try done.
    + intros g. cbv beta. lia.
    + by eapply fo_len.
    + intros f Hf. eapply fo_dom; [exact Hk1|exact Hl|exact Hf].
  - cbn. rewrite Hc. unfold exit_table. cbv zeta. set (t2 := reparent _ _ _ _ _).
    assert (H2 : (pv <$> t2) !! me = Some (pv q)) by (unfold t2; by rewrite reparent_pv, wakeup1_pv, list_lookup_fmap, Hq).
    rewrite list_lookup_fmap in H2. destruct (t2 !! me) as [z|] eqn:Hz; [|done].
    exists (set_state ZOMBIE z). by rewrite list_lookup_alter_eq, Hz.
Qed.

Lemma wait_scan_zombie me i t h j : wait_scan me i t h = Reap j -> exists n p, j = (i + n)%nat /\ t !! n = Some p /\ p_state p = ZOMBIE.
Proof.
  revert i h. induction t as [|p t IH]; intros i h; cbn [wait_scan]; [by destruct h|]. repeat case_decide.
  - intros [= <-]. exists O, p. split_and!; [lia|done|done].
  - intros (n&q&->&Hq&Hz)%IH. exists (S n), q. split_and!; [lia|done|done].
  - intros (n&q&->&Hq&Hz)%IH. exists (S n), q. split_and!; [lia|done|done].
Qed.
Lemma wait_good k : good (view_of k) -> wp (wait kend) anyerr (fun _ k' => good (view_of k')) k.
Proof.
  intros Hk. unfold wait. apply wp_bind, wp_gets. apply wp_bind, wp_gets. apply wp_keeps; [keep|]. intros me k1 Hv1.
  destruct (wait_scan _ _ _ _) as [i| |] eqn:Hs; [|case_match; [by apply wp_ret; rewrite Hv1|done]|apply wp_ret; by rewrite Hv1].
  apply wait_scan_zombie in Hs as (n&q&->&Hq&Hz). cbn [Nat.add].
  assert (Hn : v_fds (view_of k) !! n = Some (p_ofile q, false)) by (cbn; rewrite list_lookup_fmap, Hq; cbn; unfold pv; by rewrite Hz).
  rewrite <- Hv1 in Hk, Hn. apply wp_keeps; [keep|]. intros c k2 Hv2. apply wp_keeps; [keep|]. intros [] k3 Hv3.
  apply wp_keeps; [keep|]. intros [] k4 Hv4. rewrite <- Hv2, <- Hv3, <- Hv4 in Hk, Hn. apply wp_bind.
  eapply wp_upd_proc; [exact Hn|]. intros x k5 Hx Hb Hv5. apply wp_ret. rewrite Hv5. unfold pv. cbn. rewrite Hx. by rewrite setl_same.
Qed.
End calls2.
