(* ===== verification/Descriptors.v ===== *)
(** Every system call and trap keeps the counts of the open files equal to
    the number of descriptors. *)
From S2P Require Import Prelude Params Str Log BlockIf Fs Pipe Kalloc Vm Proc Console Kern File ProcOps Sysfile Exec Syscall.
From S2P Require Import FileInv FileOps FileCalls Bio ConsoleThms.

Section traps.
Implicit Types (k : kern) (v : view) (tf : trapframe).
Variable devsw : Z -> option (@devops lst).
Variables (kend kdata forkret trapret : Z) (initcode : list Z).
Variables (ideintr kbdintr uartintr : K kern unit) (cpu_id : Z).
(** The interrupt handlers of the devices touch neither files nor
    descriptors. *)
Hypotheses (Hide : keeps ideintr) (Hkbd : keeps kbdintr) (Huart : keeps uartintr).

(** A system call leaves a process that runs, or one that has exited. *)
Definition settled k : Prop := good (view_of k) \/ gone k.
Definition call_ok {A} (m : K kern A) : Prop := forall k, good (view_of k) -> wp m anyerr (fun _ k' => settled k') k.
Lemma call_good {A} (m : K kern A) : (forall k, good (view_of k) -> wp m anyerr (fun _ k' => good (view_of k')) k) -> call_ok m.
Proof. intros H k Hk. eapply wp_post; [by apply H|]. by left. Qed.
Lemma call_keeps {A} (m : K kern A) : keeps m -> call_ok m.
Proof. intros H. apply call_good. intros k Hk. by apply wp_good. Qed.
Lemma call_exit : call_ok (sys_exit kend).
Proof. intros k Hk. eapply wp_seq; [by apply exit_gone|]. intros [] k' Hg. apply wp_ret. by right. Qed.
Lemma syscalls_ok : Forall (fun o => match o with Some f => call_ok f | None => True end) (syscalls devsw kend kdata forkret trapret).
Proof.
  unfold syscalls. repeat (apply Forall_cons; split); try done; try (solve [apply call_keeps; auto with keeps]).
  - apply call_good, fork_good.
  - exact call_exit.
  - apply call_good, wait_good.
  - apply call_good, sys_pipe_good.
  - apply call_good, sys_dup_good.
  - apply call_good, sys_open_good.
  - apply call_good, sys_close_good.
Qed.
Lemma settled_view k k' : view_of k' = view_of k -> k_procs k' = k_procs k -> settled k -> settled k'.
Proof.
  intros Hv Hp [H|[H1 H2]]; [left; by rewrite Hv|right]. split; [by rewrite Hv|]. rewrite Hp.
  by replace (k_cur k') with (k_cur k) by (change (v_cur (view_of k) = v_cur (view_of k')); by rewrite Hv).
Qed.
(** exited tells the two apart. *)
Lemma exited_spec k : settled k -> wp exited anyerr (fun z k' => k' = k /\ if z : bool then gone k else good (view_of k)) k.
Proof.
  intros Hk. unfold exited. apply wp_bind, wp_curproc_view. intros p Hp Hv. apply wp_ret. split; [done|].
  destruct Hk as [Hg|[H1 (q&Hq&Hz)]].
  - rewrite bool_decide_false; [done|]. intros Hz. destruct Hg as [_ [l Hl]]. rewrite Hv in Hl. injection Hl as _ Hl. by rewrite Hz in Hl.
  - simplify_eq. rewrite bool_decide_true by done. split; eauto.
Qed.
Lemma syscall_ok : call_ok (syscall devsw kend kdata forkret trapret).
Proof.
  intros k Hk. unfold syscall. apply wp_keeps; [keep|]. intros p k1 Hv1. rewrite <- Hv1 in Hk. cbv zeta. case_match eqn:Hnum.
  - assert (Hf : call_ok k0).
    { case_match eqn:Hr; [|done]. apply andb_true_iff in Hr as [_ Hr%Z.ltb_lt]. set (n := Z.to_nat _) in Hnum.
      assert (Hl : (n < length (syscalls devsw kend kdata forkret trapret))%nat) by (revert Hr; unfold n; generalize (s32 (tf_eax (p_tf p))); cbn; lia).
      pose proof syscalls_ok as Hall. rewrite Forall_lookup in Hall. specialize (Hall n (Some k0)). apply Hall.
      rewrite <- Hnum. by apply list_lookup_lookup_total_lt. }
    eapply wp_seq; [by apply Hf|]. intros r k2 H2. eapply wp_seq; [by apply exited_spec|]. intros [] k3 [-> H3].
    + apply wp_ret. by right.
    + eapply wp_post; [by apply wp_good; [keep|]|]. by left.
  - apply wp_keeps; [keep|]. intros r k2 Hv2. rewrite <- Hv2 in Hk. eapply wp_post; [by apply wp_good; [keep|]|]. by left.
Qed.
Lemma trap_syscall_ok tf : call_ok (trap_syscall devsw kend kdata forkret trapret tf).
Proof.
  intros k Hk. unfold trap_syscall. apply wp_keeps; [keep|]. intros p k1 Hv1. rewrite <- Hv1 in Hk.
  destruct (p_killed p); [eapply wp_post; [by apply exit_gone|]; by right|].
  eapply wp_seq; [by apply wp_good; [keep|]|]. intros [] k2 H2. eapply wp_seq; [by apply syscall_ok|]. intros [] k3 H3.
  eapply wp_seq; [by apply exited_spec|]. intros [] k4 [-> H4]; [apply wp_ret; by right|].
  apply wp_keeps; [keep|]. intros q k5 Hv5. rewrite <- Hv5 in H4. destruct (p_killed q); [eapply wp_post; [by apply exit_gone|]; by right|].
  apply wp_ret. by left.
Qed.
Lemma keeps_trap_irq running tf : keeps (trap_irq ideintr kbdintr uartintr cpu_id running tf).
Proof. unfold trap_irq. keep. Qed.
Lemma keeps_killed_now running : keeps (killed_now running).
Proof. unfold killed_now. keep. Qed.
Lemma trap_ok running tf : call_ok (trap devsw kend kdata forkret trapret ideintr kbdintr uartintr cpu_id running tf).
Proof.
  intros k Hk. unfold trap. case_match.
  { eapply wp_seq; [by apply trap_syscall_ok|]. intros [] k1 H1. eapply wp_seq; [by apply exited_spec|]. intros z k2 [-> H2]. by apply wp_ret. }
  eapply wp_seq; [apply wp_good; [apply keeps_trap_irq|done]|]. intros [] k1 H1.
  eapply wp_seq; [apply wp_good; [apply keeps_killed_now|done]|]. intros d k2 H2. case_match.
  { eapply wp_seq; [by apply exit_gone|]. intros [] k3 G3. apply wp_ret. by right. }
  apply wp_bind, wp_curproc_view. intros p Hp Hv. case_match eqn:Hy.
  { apply wp_bind, wp_modify, wp_ret. left. apply andb_true_iff in Hy as [Hy _]. apply andb_true_iff in Hy as [_ Hy]. apply bool_decide_eq_true in Hy.
    replace (view_of _) with (view_of k2); [done|]. unfold view_of, yield_table. cbn. rewrite (alter_view_at pv _ _ _ p Hp).
    f_equal. symmetry. apply list_insert_id. cbn in Hv. rewrite Hv. unfold pv. cbn. by rewrite Hy. }
  eapply wp_seq; [apply wp_good; [apply keeps_killed_now|done]|]. intros d' k3 H3. case_match.
  { eapply wp_seq; [by apply exit_gone|]. intros [] k4 G4. apply wp_ret. by right. }
  apply wp_ret. by left.
Qed.

(** ** Histories of the kernel *)
Definition running_proc k : Prop := exists p, k_procs k !! k_cur k = Some p /\ p_state p = RUNNING.
Definition run_proc (i : nat) k : kern :=
  mkKern (k_fs k) (k_mem k) (k_ft k) (k_pipes k) (alter (set_state RUNNING) i (k_procs k)) i (k_init k) (k_next k) (k_ticks k) (k_con k).
(** A trap of the process that runs, up to its end, and the scheduler. *)
Inductive kstep k : kern -> Prop :=
  | KTrap tf e k' : running_proc k ->
      trap devsw kend kdata forkret trapret ideintr kbdintr uartintr cpu_id true tf k = Ok e k' -> kstep k k'
  | KSched i p : k_procs k !! i = Some p -> p_state p = RUNNABLE -> kstep k (run_proc i k).

Lemma running_good k : files_ok k -> running_proc k -> good (view_of k).
Proof.
  intros Hk (p&Hp&Hr). split; [done|]. exists (p_ofile p). cbn. rewrite list_lookup_fmap, Hp. cbn. unfold pv. by rewrite Hr.
Qed.
Lemma settled_files k : settled k -> files_ok k.
Proof. by intros [[H _]|[H _]]. Qed.
Lemma kstep_files k k' : kstep k k' -> files_ok k -> files_ok k'.
Proof.
  intros [tf e k1 Hr Ht|i p Hp Hst] Hk.
  - pose proof (trap_ok true tf k (running_good k Hk Hr)) as Hw. unfold wp in Hw. rewrite Ht in Hw. by apply settled_files.
  - destruct Hk as [H1 H2 H3 H4 H5 H6].
    assert (He : pv <$> alter (set_state RUNNING) i (k_procs k) = pv <$> k_procs k).
    { rewrite (alter_view_at pv _ _ _ p Hp). apply list_insert_id. rewrite list_lookup_fmap, Hp. cbn. unfold pv. by rewrite Hst. }
    unfold files_ok, view_of, run_proc in *. cbn in *. rewrite He. by split.
Qed.
Lemma histories_files k k' : rtc kstep k k' -> files_ok k -> files_ok k'.
Proof. induction 1; [done|]. eauto using kstep_files. Qed.
End traps.

(** The tables at boot. *)
Lemma boot_files_ok k n : k_ft k = replicate n (mkFile FD_NONE 0 false false 0 None 0) ->
  k_procs k = replicate NPROC zero_proc -> files_ok k.
Proof.
  intros Hf Hp. assert (Hfd : forall i l b, v_fds (view_of k) !! i = Some (l, b) -> l = replicate NOFILE None /\ b = false).
  { intros i l b. cbn. rewrite Hp, fmap_replicate. intros [[= <- <-] _]%lookup_replicate. done. }
  assert (Hc : forall f, cnt f (v_fds (view_of k)) = 0).
  { intros f. cbn [view_of v_fds]. rewrite Hp. by vm_compute. }
  split.
  - intros f r t H. rewrite Hc. cbn in H. rewrite Hf, fmap_replicate in H. apply lookup_replicate in H as [[= -> _] _]. done.
  - intros f r t H. cbn in H. rewrite Hf, fmap_replicate in H. apply lookup_replicate in H as [[= -> ->] _]. done.
  - intros f r t H. cbn in H. rewrite Hf, fmap_replicate in H. apply lookup_replicate in H as [[= -> ->] _]. intros Hn. by destruct Hn.
  - intros i l b f [-> _]%Hfd H. by apply elem_of_replicate in H as [? _].
  - intros i l b [-> _]%Hfd. apply length_replicate.
  - intros i l [-> _]%Hfd _. by apply Forall_replicate.
Qed.

(** What the invariant says of a state, in words of the code. *)
Definition fd_refs (k : kern) (f : nat) : Z := cnt f (pv <$> k_procs k).
Record ftable_exact (k : kern) : Prop := {
  fx_count : forall f x, k_ft k !! f = Some x -> f_ref x = fd_refs k f;
  fx_free : forall f x, k_ft k !! f = Some x -> (f_ref x = 0 <-> f_type x = FD_NONE);
  fx_open : forall i p fd f, k_procs k !! i = Some p -> p_ofile p !! fd = Some (Some f) ->
    exists x, k_ft k !! f = Some x /\ 1 <= f_ref x;
  fx_dead : forall i p fd f, k_procs k !! i = Some p -> live (p_state p) = false -> p_ofile p !! fd <> Some (Some f) }.
Lemma files_exact k : files_ok k -> ftable_exact k.
Proof.
  intros Hk. pose proof Hk as [H1 H2 H3 H4 H5 H6]. cbn [view_of v_files v_fds v_cur] in *.
  assert (Hv : forall f x, k_ft k !! f = Some x -> (fv <$> k_ft k) !! f = Some (f_ref x, f_type x)).
  { intros f x Hx. by rewrite list_lookup_fmap, Hx. }
  split.
  - intros f x Hx. rewrite (H1 f _ _ (Hv f x Hx)). unfold fd_refs. lia.
  - intros f x Hx. split; [by apply (H2 f _ _ (Hv f x Hx))|]. intros Ht. destruct (decide (f_ref x = 0)) as [|Hn]; [done|].
    exfalso. exact (H3 f _ _ (Hv f x Hx) Hn (not_elem_of_nil f) Ht).
  - intros i p fd f Hp Hfd. destruct (fok_open k i p fd f Hk Hp Hfd) as (x&Hx&Hr&_). by exists x.
  - intros i p fd f Hp Hl Hfd. assert (Hi : (pv <$> k_procs k) !! i = Some (p_ofile p, false)) by (rewrite list_lookup_fmap, Hp; cbn; unfold pv; by rewrite Hl).
    specialize (H6 i _ Hi ltac:(done)). rewrite Forall_lookup in H6. by specialize (H6 _ _ Hfd).
Qed.

(** C5. Reference counts of open files.  From a state where they are right (the
    empty tables at boot are), after any traps and system calls of running
    processes and any switches of the scheduler: f->ref of every file is the
    number of descriptors, over all processes, that refer to it; a file is
    free exactly when it has no type; every descriptor refers to a file that
    is in use, so that filedup, fileclose, fileread and filewrite do not
    panic on it; and a process that is unused, being made or a zombie has no
    descriptors. *)
Theorem descriptors_counted devsw kend kdata forkret trapret ideintr kbdintr uartintr cpu_id k0 k :
  keeps ideintr -> keeps kbdintr -> keeps uartintr -> files_ok k0 ->
  rtc (kstep devsw kend kdata forkret trapret ideintr kbdintr uartintr cpu_id) k0 k ->
  ftable_exact k.
Proof. intros Hi Hk Hu H0 H. apply files_exact. exact (histories_files _ _ _ _ _ _ _ _ _ Hi Hk Hu k0 k H H0). Qed.

(** A process with one open file calls dup and then exit. *)
Definition w_dir : Z := KERNBASE + 0x101000.
Definition w_mem : kmem := mkK 0
  {[ w_dir := wr 4 0 (0x102000 + 7) (replicate 4096 0); KERNBASE + 0x102000 := wr 4 0 (0x103000 + 7) (replicate 4096 0);
     KERNBASE + 0x103000 := replicate 4096 0 ]}.
Definition w_tf (eax : Z) : trapframe := mkTf 0 0 0 0 0 0 0 eax 0 0 0 0 T_SYSCALL 0 0 27 0 4000 0.
Definition w_proc : proc := mkProc 4096 w_dir 0 RUNNING 1 None zero_tf 0 None false (Some O :: replicate 15 None) (Some O) (replicate 16 0).
Definition w_kern : kern :=
  mkKern (mkFs (mkL (boot []) log0) [] []) w_mem [mkFile FD_INODE 1 true true 0 (Some O) 0] ∅ [w_proc; zero_proc] 0 1 2 0 con_start.
Definition w_trap (eax : Z) := trap (fun _ => None) 0 0 0 0 (ret tt) (ret tt) (ret tt) 0 true (w_tf eax).
Definition w_after : kern := match w_trap 10 w_kern with Ok _ k => k | Fail _ => w_kern end.
Lemma w_step : exists e, w_trap 10 w_kern = Ok e w_after.
Proof.
  unfold w_after. assert (H : match w_trap 10 w_kern with Ok _ _ => true | Fail _ => false end = true) by by vm_compute.
  destruct (w_trap 10 w_kern) as [e k|]; [by exists e|done].
Qed.
Lemma w_files_ok : files_ok w_kern.
Proof.
  split; cbn.
  - intros [|f] r t; cbn; [|done]. by intros [= <- <-].
  - intros [|f] r t; cbn; [|done]. intros [= <- <-] [=].
  - intros [|f] r t; cbn; [|done]. by intros [= <- <-].
  - intros [|[|i]] l b f; cbn; [|intros [= <- <-]|done]; [intros [= <- <-]|]; intros Hf.
    + apply elem_of_cons in Hf as [[= ->]|Hf]; [lia|]. by apply (elem_of_replicate 15) in Hf as [? _].
    + by apply (elem_of_replicate NOFILE) in Hf as [? _].
  - intros [|[|i]] l b; cbn; [by intros [= <- <-]..|done].
  - intros [|[|i]] l; cbn; [by intros [=]|intros [= <-] _; by repeat constructor|done].
Qed.
Lemma descriptors_counted_witness : ftable_exact w_after /\ f_ref <$> k_ft w_after = [2].
Proof.
  split; [|by vm_compute].
  refine (descriptors_counted (fun _ => None) 0 0 0 0 (ret tt) (ret tt) (ret tt) 0 w_kern w_after (keeps_ret tt) (keeps_ret tt) (keeps_ret tt) w_files_ok _).
  destruct w_step as [e He]. apply rtc_once. refine (KTrap _ _ _ _ _ _ _ _ _ _ (w_tf 10) e _ _ He).
  exact (ex_intro _ w_proc (conj eq_refl eq_refl)).
Defined.
