(* ===== verification/SysArgs.v ===== *)
(** How system calls get at their arguments: what argint, argptr and argstr
    let through lies in the memory of the process, where the kernel's loads
    do not fault. *)
From S2P Require Import Prelude Params Str Log BlockIf Fs Pipe Kalloc Vm VmSpec VmThms Proc Console Kern.

(** The process that runs has a page for every address below its size. *)
Record user_space (kend : Z) (k : kern) (p : proc) (l : list Z) : Prop := {
  us_cur : k_procs k !! k_cur k = Some p;
  us_vm : vm_ok kend (k_mem k) l (p_pgdir p);
  us_sz : 0 <= p_sz p <= KERNBASE;
  us_mapped : forall a, 0 <= a < p_sz p -> mapped (mem (k_mem k)) (p_pgdir p) (a / 4096) }.
(** Its memory. *)
Definition umem (k : kern) (p : proc) (a : Z) : Z := ubyte (mem (k_mem k)) (p_pgdir p) a.
Definition ubytes (k : kern) (p : proc) (a : Z) (n : nat) : list Z := map (umem k p) (seqZ a (Z.of_nat n)).
Definition uword (k : kern) (p : proc) (a : Z) : Z := s32 (le_dec (ubytes k p a 4)).

Section loads.
Variable kend : Z.
Implicit Types (k : kern) (p : proc) (l : list Z) (s : kmem) (a n d : Z).

Lemma wp_curproc k p E (Q : proc -> kern -> Prop) : k_procs k !! k_cur k = Some p -> Q p k -> wp curproc E Q k.
Proof. intros Hp HQ. unfold curproc. apply wp_bind, wp_gets. unfold wp, proc_at. by rewrite Hp. Qed.

Lemma wp_uaddr s l d a E (Q : Z -> kmem -> Prop) :
  vm_ok kend s l d -> mapped (mem s) d (a / 4096) -> Q (frame (mem s) d (a / 4096)) s -> wp (uaddr d a) E Q s.
Proof.
  intros Hok [Huk Hp] HQ. pose proof (upage_20 _ Huk) as Hk. destruct (page_div _ Hk) as [Hk1 Hk2]. set (k := a / 4096) in *.
  pose proof (vo_space _ _ _ _ Hok) as Hsp. unfold uaddr. apply wp_bind.
  replace a with (4096 * k + a mod 4096) by (symmetry; apply Z.div_mod; lia).
  assert (Ht : has_tab (mem s) d (k / 1024)).
  { split; [done|]. unfold entry in Hp. destruct (has (pde (mem s) d (k / 1024)) PTE_P); done. }
  apply (wp_walk kend s l d k); [done|done|apply Z.mod_pos_bound; lia| |done]. intros _.
  destruct (sp_tab _ _ _ Hsp _ Ht) as (Hpk&_&pg&Hpg&_).
  rewrite (proj2 (Z.eqb_neq _ 0)) by (unfold page_ok, KERNBASE in Hpk; lia).
  apply wp_bind. eapply wp_ld32; [apply Hpk|lia|done|].
  assert (Hold : rd 4 (4 * (k mod 1024)) pg = entry (mem s) d k).
  { unfold entry. destruct Ht as [_ ->]. by rewrite (pgt_lookup _ _ _ Hpg). }
  rewrite Hold, Hp. by apply wp_ret.
Qed.
Lemma wp_uld8 s l d a E (Q : Z -> kmem -> Prop) :
  vm_ok kend s l d -> mapped (mem s) d (a / 4096) -> Q (ubyte (mem s) d a) s -> wp (uld8 d a) E Q s.
Proof.
  intros Hok Hm HQ. unfold uld8. apply wp_bind. eapply wp_uaddr; [done..|]. apply wp_bind.
  destruct (sp_frame _ _ _ (vo_space _ _ _ _ Hok) _ Hm) as (_&_&_&pg&Hpg&_). eapply wp_ldpage; [done|]. apply wp_ret.
  unfold ubyte in HQ. by rewrite (pgt_lookup _ _ _ Hpg) in HQ.
Qed.
Lemma wp_uld s l d a m E (Q : list Z -> kmem -> Prop) :
  vm_ok kend s l d -> (forall b, a <= b < a + Z.of_nat m -> mapped (mem s) d (b / 4096)) ->
  Q (map (ubyte (mem s) d) (seqZ a (Z.of_nat m))) s -> wp (uld d a m) E Q s.
Proof.
  intros Hok. revert a Q. induction m as [|m IH]; intros a Q Hm HQ; cbn [uld]; [by apply wp_ret|].
  apply wp_bind. eapply wp_uld8; [done|apply Hm; lia|]. apply wp_bind. apply IH; [intros b Hb; apply Hm; lia|]. apply wp_ret.
  rewrite seqZ_cons in HQ by lia. by rewrite Nat2Z.inj_succ, Z.pred_succ in HQ.
Qed.
Lemma set_kmem_same k : set_kmem (k_mem k) k = k.
Proof. by destruct k. Qed.
Lemma wp_user_load k p l a m E (Q : list Z -> kern -> Prop) :
  user_space kend k p l -> 0 <= a -> a + Z.of_nat m <= p_sz p -> Q (ubytes k p a m) k -> wp (user_load a m) E Q k.
Proof.
  intros [Hc Hok Hsz Hm] Ha Hl HQ. unfold user_load. apply wp_bind. eapply wp_curproc; [done|]. apply wp_zoom.
  eapply wp_uld; [done|intros b Hb; apply Hm; lia|]. by rewrite set_kmem_same.
Qed.

(** ** The routines of syscall.c *)
Lemma wp_fetchint k p l a E (Q : option Z -> kern -> Prop) : user_space kend k p l -> 0 <= a < 2 ^ 32 ->
  Q (if decide (a + 4 <= p_sz p) then Some (uword k p a) else None) k -> wp (fetchint a) E Q k.
Proof.
  intros Hus Ha HQ. pose proof (us_sz _ _ _ _ Hus) as Hsz. unfold KERNBASE in Hsz. unfold fetchint. apply wp_bind. eapply wp_curproc; [apply Hus|].
  destruct (Z.leb_spec (p_sz p) a) as [Hge|Hlt]; cbn [orb].
  - apply wp_ret. by rewrite decide_False in HQ by lia.
  - rewrite u32_small by lia. destruct (Z.ltb_spec (p_sz p) (a + 4)); [apply wp_ret; by rewrite decide_False in HQ by lia|].
    apply wp_bind. eapply wp_user_load; [done|lia|lia|]. apply wp_ret. rewrite decide_True in HQ by lia. exact HQ.
Qed.
Lemma wp_argint k p l n E (Q : option Z -> kern -> Prop) : user_space kend k p l ->
  let a := u32 (tf_esp (p_tf p) + 4 + 4 * n) in
  Q (if decide (a + 4 <= p_sz p) then Some (uword k p a) else None) k -> wp (argint n) E Q k.
Proof.
  intros Hus a HQ. unfold argint. apply wp_bind. eapply wp_curproc; [apply Hus|]. eapply wp_fetchint; [done| |exact HQ].
  apply Z.mod_pos_bound. lia.
Qed.
(** The string at [a]: the bytes before the first 0, which lies below the
    size of the process. *)
Definition ustring k p a (r : list Z) : Prop :=
  r = ubytes k p a (length r) /\ (0 ∉ r) /\ a + Z.of_nat (length r) < p_sz p /\ umem k p (a + Z.of_nat (length r)) = 0.
Lemma wp_fetchstr k p l a E : user_space kend k p l -> 0 <= a ->
  wp (fetchstr a) E (fun r k' => k' = k /\
    match r with
    | Some (a', str) => a' = a /\ ustring k p a str
    | None => forall b, a <= b < p_sz p -> umem k p b <> 0
    end) k.
Proof.
  intros Hus Ha. pose proof (us_sz _ _ _ _ Hus) as Hsz. unfold fetchstr. apply wp_bind. eapply wp_curproc; [apply Hus|].
  destruct (Z.leb_spec (p_sz p) a) as [Hge|Hlt]; [apply wp_ret; split; [done|]; intros b Hb; lia|].
  eapply wp_seq.
  { eapply (wp_while (fun '(s, str) k' => k' = k /\ s = a + Z.of_nat (length str) /\ s <= p_sz p /\ str = ubytes k p a (length str) /\ (0 ∉ str))
      (fun '(s, _) => Z.to_nat (p_sz p - s)) _ _ _ _ (fun r k' => k' = k /\ match r with Some str => ustring k p a str | None => forall b, a <= b < p_sz p -> umem k p b <> 0 end)).
    - split_and!; [done|cbn; lia|lia|done|by apply not_elem_of_nil].
    - lia.
    - intros [s str] k' (->&->&Hle&Hstr&Hnz). destruct (Z.ltb_spec (a + Z.of_nat (length str)) (p_sz p)) as [Hin|Hout]; cbn [negb].
      + apply wp_bind. apply wp_zoom. eapply wp_uld8; [apply Hus|apply (us_mapped _ _ _ _ Hus); lia|]. rewrite set_kmem_same.
        fold (umem k p (a + Z.of_nat (length str))). destruct (Z.eqb_spec (umem k p (a + Z.of_nat (length str))) 0) as [Hz|Hz]; apply wp_ret.
        * split; [done|]. by split_and!.
        * rewrite length_app. cbn [length]. split_and!; [done|lia|lia| |rewrite elem_of_app, list_elem_of_singleton; naive_solver|lia].
          unfold ubytes in *. rewrite (Nat.add_1_r (length str)), seqZ_S, map_app, <- Hstr. done.
      + apply wp_ret. split; [done|]. intros b Hb. assert (Hbs : umem k p b ∈ str); [|by intros Hz; rewrite Hz in Hbs].
        rewrite Hstr. apply list_elem_of_fmap. exists b. split; [done|]. apply elem_of_seqZ. lia. }
  intros [str|] k' [-> H]; apply wp_ret; by split_and!.
Qed.
End loads.

(** C28. Arguments of system calls.  The memory of the process is mapped up to its
    size, and [size] is an int that is not negative (a negative one passes, see
    [argptr_negative]).  For any trap frame: argint returns the word at its place on the
    user's stack, or -1 exactly when the word is not in the process's
    memory; argptr with such a size lets a pointer through
    exactly when all [size] bytes at it are in that memory; argstr returns
    the bytes before the first 0, all inside, and -1 exactly when there is no
    0 between the pointer and the end.  None of them faults or changes the
    state. *)
Theorem arguments_checked kend k p l n size :
  user_space kend k p l -> 0 <= size < 2 ^ 31 ->
  let a := u32 (tf_esp (p_tf p) + 4 + 4 * n) in
  let arg := if decide (a + 4 <= p_sz p) then Some (uword k p a) else None in
  wp (argint n) noerr (fun r k' => k' = k /\ r = arg) k /\
  wp (argptr n size) noerr (fun r k' => k' = k /\
    match arg with
    | Some i => r = if decide (u32 i < p_sz p /\ u32 i + size <= p_sz p) then Some (u32 i) else None
    | None => r = None
    end) k /\
  wp (argstr n) noerr (fun r k' => k' = k /\
    match arg, r with
    | Some i, Some (q, str) => q = u32 i /\ ustring k p q str
    | Some i, None => forall b, u32 i <= b < p_sz p -> umem k p b <> 0
    | None, r => r = None
    end) k.
Proof.
  intros Hus Hsize a arg. pose proof (us_sz _ _ _ _ Hus) as Hsz. unfold KERNBASE in Hsz. split_and!.
  - eapply wp_argint; [done|]. done.
  - unfold argptr. apply wp_bind. eapply wp_argint; [done|]. fold a arg. destruct arg as [i|]; [|by apply wp_ret].
    apply wp_bind. eapply wp_curproc; [apply Hus|]. assert (Hi : 0 <= u32 i < 2 ^ 32) by (apply Z.mod_pos_bound; lia).
    destruct (Z.leb_spec (p_sz p) (u32 i)); cbn [orb]; [apply wp_ret; rewrite decide_False by lia; done|].
    rewrite (u32_small (u32 i + size)) by lia.
    destruct (Z.ltb_spec (p_sz p) (u32 i + size)); apply wp_ret; [rewrite decide_False by lia|rewrite decide_True by lia]; done.
  - unfold argstr. apply wp_bind. eapply wp_argint; [done|]. fold a arg. destruct arg as [i|]; [|by apply wp_ret].
    eapply wp_post; [eapply wp_fetchstr; [done|apply Z.mod_pos_bound; lia]|]. intros [[q str]|] k' [-> H]; [|done]. by destruct H as [-> H].
Qed.

(** A negative size passes the test: -1 is let through at any address but 0. *)
Lemma argptr_negative kend k p l n : user_space kend k p l ->
  let a := u32 (tf_esp (p_tf p) + 4 + 4 * n) in
  a + 4 <= p_sz p -> 0 < u32 (uword k p a) < p_sz p ->
  wp (argptr n (-1)) noerr (fun r _ => r = Some (u32 (uword k p a))) k.
Proof.
  intros Hus a Ha Hi. pose proof (us_sz _ _ _ _ Hus) as Hsz. unfold KERNBASE in Hsz.
  unfold argptr. apply wp_bind. eapply wp_argint; [done|]. fold a. rewrite decide_True by done.
  apply wp_bind. eapply wp_curproc; [apply Hus|]. rewrite (proj2 (Z.leb_gt _ _)) by lia. cbn [orb].
  rewrite (u32_small (u32 (uword k p a) + -1)), (proj2 (Z.ltb_ge _ _)) by lia. by apply wp_ret.
Qed.
