(* ===== verification/FileDemo.v ===== *)
(** The idle file system of [FsDemo] under a kernel with one open file, on
    which the theorem of [FileThms] is applied. *)
From S2P Require Import Prelude Params Str Bio BioSpec Log LogSpec Trans Recover BlockIf Storage Fs FsBlocks FsFile FsSpec FsThms FsInode FsTrunc FsDemo.
From S2P Require Import Pipe Kalloc Vm VmSpec VmThms Proc Console ConsoleThms Kern File FileThms SysArgs.

Lemma boot_idle img g f :
  image_ok img -> log_ok (sb_start img) (sb_logsize img) img ->
  g = mkGeo (Z.of_nat (length img)) (sb_start img) (sb_logsize img) ->
  f = recovered (sb_start img) img ->
  lst_rep g (state_of (bootlog (mkL (boot img) log0))) (t_idle f).
Proof.
  intros Hio Hok -> ->. apply (wp_state_of bootlog (fun s => lst_rep _ s (t_idle _))).
  eapply wp_post; [by apply initlog_spec|]. intros [] st (Hi&Hs&Hz&Hn&_). unfold lst_rep. simpl. done.
Qed.
Definition idle_state : lst := state_of (bootlog (mkL (boot fs_img) log0)).
Definition idle_disk : tdisk := t_idle (recovered (sb_start fs_img) fs_img).
Lemma idle_rep : lst_rep fs_geo idle_state idle_disk.
Proof.
  apply boot_idle; [split|..].
  - apply blocks_vm. by vm_compute.
  - apply (bool_decide_unpack _). by vm_compute.
  - apply (bool_decide_unpack _). by vm_compute.
  - by vm_compute.
  - done.
Qed.
(** A descriptor on inode 1, at offset 0. *)
Definition demo_file : file := mkFile FD_INODE 1 true true 0 (Some O) 0.
Definition demo_kern : kern :=
  mkKern (mkFs idle_state [fs_unlocked] []) (mkK 0 ∅) [demo_file] ∅ [] 0 0 1 0 con_start.

Lemma filewrite_correct_witness :
  on_disk (t_view idle_disk) fs_unlocked /\ sb_agrees idle_state /\ wp (filewrite (fun _ => None) 0 [104; 105; 10] 3) noerr (fun r k' => r = 3 /\ exists st' t' x',
    k_fs k' = mkFs st' (<[O := x']> [fs_unlocked]) [ChInode 0] /\ i_flags x' = I_VALID /\
    k_ft k' = <[O := set_foff 3 demo_file]> (k_ft demo_kern) /\
    lst_rep fs_geo st' t' /\ written fs_geo idle_disk fs_unlocked [104; 105; 10] 0 3 t' x' /\
    (sb_agrees idle_state -> boots_to st' (d_now (dsk (l_bio st'))) (t_view t'))) demo_kern.
Proof.
  split_and!; [by vm_compute|apply (bool_decide_unpack _); by vm_compute|].
  refine (filewrite_correct (fun _ => None) fs_geo idle_state idle_disk [fs_unlocked] [] demo_kern 0 demo_file 0 fs_unlocked fs_L
    [104; 105; 10] 3 eq_refl idle_rep eq_refl eq_refl eq_refl eq_refl eq_refl eq_refl eq_refl _ fs_writable _ _ _).
  - simpl. lia.
  - by vm_compute.
  - simpl. lia.
  - apply (bool_decide_unpack _). by vm_compute.
Defined.

(** A process of two pages, on the memory of [VmDemo], about to make a call. *)
Definition demo_tf : trapframe := mkTf 0 0 0 0 0 0 0 6 0 0 0 0 64 0 0 27 0 8000 0.
Definition demo_proc : proc := mkProc 8192 d_dir 0 RUNNING 1 None demo_tf 0 None false (replicate NOFILE None) (Some O) (replicate 16 0).
Definition demo_call : kern := mkKern (mkFs idle_state [] []) d_user [] ∅ [demo_proc] 0 0 2 0 con_start.
Lemma demo_space : exists l, user_space k_end demo_call demo_proc l.
Proof.
  destruct d_user_ok as (l&H). exists l. split; [exact eq_refl|exact (ad_ok _ _ _ _ _ _ _ _ H)|unfold KERNBASE; cbn; lia|].
  intros a Ha. cbn [p_sz demo_proc] in Ha. apply d_user_mapped. split; [apply Z.div_pos; lia|apply Z.div_lt_upper_bound; lia].
Qed.
Lemma arguments_checked_witness :
  wp (argint 0) noerr (fun r k' => k' = demo_call /\ r = Some (uword demo_call demo_proc 8004)) demo_call /\
  wp (argint 100) noerr (fun r k' => k' = demo_call /\ r = None) demo_call.
Proof.
  destruct demo_space as [l H]. split.
  - exact (proj1 (arguments_checked k_end demo_call demo_proc l 0 16 H ltac:(lia))).
  - exact (proj1 (arguments_checked k_end demo_call demo_proc l 100 16 H ltac:(lia))).
Defined.
