(* ===== verification/Umalloc.v ===== *)
(** umalloc.c: malloc and free of the user library.

    The memory of the process is a map from addresses to units of
    sizeof(Header) = 8 bytes, each a pointer and a size; [u_brk] is the end of
    its memory.  The kernel's answer to sbrk is a parameter: [grant brk n]
    tells whether it has the memory. *)
From S2P Require Import Prelude Params Kalloc.

Record ust := mkU { u_heap : gmap Z (Z * Z); u_freep : Z; u_brk : Z }.
Definition HSZ : Z := 8.

Section umalloc.
(** &base, and whether the kernel has memory. *)
Variables (base : Z) (grant : Z -> Z -> bool).

Definition hget (a : Z) : K ust (Z * Z) := fun st =>
  match u_heap st !! a with Some x => Ok x st | None => Fail Undef end.
Definition hset (a : Z) (x : Z * Z) : K ust unit := fun st =>
  match u_heap st !! a with Some _ => Ok tt (mkU (<[a := x]> (u_heap st)) (u_freep st) (u_brk st)) | None => Fail Undef end.
(** p->s.ptr = v, p->s.size = v *)
Definition set_ptr (a v : Z) : K ust unit := x <- hget a;; hset a (v, x.2).
Definition set_hsize (a v : Z) : K ust unit := x <- hget a;; hset a (x.1, v).
Definition set_freep (v : Z) : K ust unit := modify (fun st => mkU (u_heap st) v (u_brk st)).

(** Steps a walk around the free list may take. *)
Definition walk_fuel (st : ust) : nat := S (size (u_heap st)).

Definition free (ap : Z) : K ust unit :=
  let bp := u32 (ap - HSZ) in
  fuel <- gets walk_fuel;;
  p <- gets u_freep;;
  p <- while fuel (fun p =>
    x <- hget p;;
    if (p <? bp) && (bp <? x.1) then ret (inr p) else
    if (x.1 <=? p) && ((p <? bp) || (bp <? x.1)) then ret (inr p) else
    ret (inl x.1)) p;;
  x <- hget p;;
  b <- hget bp;;
  (if u32 (bp + HSZ * b.2) =? x.1 then
     n <- hget x.1;;
     set_hsize bp (u32 (b.2 + n.2));;
     set_ptr bp n.1
   else set_ptr bp x.1);;
  (if u32 (p + HSZ * x.2) =? bp then
     b <- hget bp;;
     set_hsize p (u32 (x.2 + b.2));;
     set_ptr p b.1
   else set_ptr p bp);;
  set_freep p.

(** The units of new memory, zeroed by the kernel. *)
Fixpoint new_units (n : nat) (a : Z) (h : gmap Z (Z * Z)) : gmap Z (Z * Z) :=
  match n with O => h | S n => new_units n (a + HSZ) (<[a := (0, 0)]> h) end.
(** The system call, for a positive number of bytes; None is -1. *)
Definition sbrk (n : Z) : K ust (option Z) := fun st =>
  if (0 <? n) && (u_brk st + n <? KERNBASE) && grant (u_brk st) n
  then Ok (Some (u_brk st)) (mkU (new_units (Z.to_nat (n / HSZ)) (u_brk st) (u_heap st)) (u_freep st) (u_brk st + n))
  else if 0 <? n then Ok None st else Fail Undef.

Definition morecore (nu : Z) : K ust Z :=
  let nu := if nu <? 4096 then 4096 else nu in
  p <- sbrk (s32 (nu * HSZ));;
  match p with
  | None => ret 0
  | Some hp =>
      set_hsize hp nu;;
      free (u32 (hp + HSZ));;
      gets u_freep
  end.

(** The loop of malloc: the block found and its predecessor, or None. *)
Definition find_block (nunits : Z) (st : Z * Z) : K ust (Z * Z + option Z) :=
  let '(prevp, p) := st in
  x <- hget p;;
  if nunits <=? x.2 then
    r <- (if x.2 =? nunits then
            set_ptr prevp x.1;;
            ret p
          else
            let sz := u32 (x.2 - nunits) in
            set_hsize p sz;;
            let q := u32 (p + HSZ * sz) in
            set_hsize q nunits;;
            ret q);;
    set_freep prevp;;
    ret (inr (Some (u32 (r + HSZ))))
  else
  fp <- gets u_freep;;
  if p =? fp then
    p <- morecore nunits;;
    if p =? 0 then ret (inr None) else
    x <- hget p;;
    ret (inl (p, x.1))
  else ret (inl (p, x.1)).
Definition malloc (nbytes : Z) : K ust Z :=
  let nunits := u32 (nbytes + HSZ - 1) / HSZ + 1 in
  fp <- gets u_freep;;
  (if fp =? 0 then
     hset base (base, 0);;
     set_freep base
   else ret tt);;
  prevp <- gets u_freep;;
  x <- hget prevp;;
  fuel <- gets (fun st => (2 * walk_fuel st + 2)%nat);;
  r <- while fuel (find_block nunits) (prevp, x.1);;
  ret (default 0 r).
End umalloc.
