(* ===== verification/UmallocThms.v ===== *)
(** Correctness of malloc and free.

    [F] and [U] are the free blocks and the blocks the program has, as maps
    from their addresses to their sizes in units.  The free list is the
    circle through the static header base and the free blocks, in the order
    of addresses. *)
From S2P Require Import Prelude Params Kalloc Umalloc.

Section heap.
Variables (base lo : Z).
Implicit Types (st : ust) (h : gmap Z (Z * Z)) (F U N : gmap Z Z) (a b c p q s n : Z).

(** ** The circle *)
Definition nodes F : gmap Z Z := <[base := 0]> F.
Definition isnext N a b : Prop :=
  is_Some (N !! b) /\
  ((a < b /\ forall c, is_Some (N !! c) -> ~ (a < c < b)) \/ (b = base /\ forall c, is_Some (N !! c) -> c <= a)).
(** The nodes after [p] up to [t], around the circle. *)
Definition ahead N p t : gset Z := filter (fun c => (p <= t /\ p < c <= t) \/ (t < p /\ (p < c \/ c <= t))) (dom N).
Definition dist N p t : nat := size (ahead N p t).

Lemma dist_next N p q t : (forall c, is_Some (N !! c) -> base <= c) -> is_Some (N !! t) -> p <> t -> isnext N p q -> dist N p t = S (dist N q t).
Proof.
  intros Hb Ht Hne [Hq Hn]. unfold dist. assert (He : ahead N p t ≡ {[q]} ∪ ahead N q t).
  { unfold ahead. intros c. rewrite elem_of_union, elem_of_singleton, !elem_of_filter, !elem_of_dom.
    pose proof (Hb t Ht) as Hbt. pose proof (Hb q Hq) as Hbq. destruct Hn as [[Hlt Hno]|[-> Hmax]].
    - pose proof (Hno t Ht). split; [|intros [->|[Hc Hd]]; (split; [lia|done])]. intros [Hc Hd]. pose proof (Hno c Hd). destruct (decide (c = q)); [by left|right]. split; [lia|done].
    - pose proof (Hmax t Ht). split; [|intros [->|[Hc Hd]]; (split; [lia|done])]. intros [Hc Hd]. pose proof (Hmax c Hd). pose proof (Hb c Hd). destruct (decide (c = base)); [by left|right]. split; [lia|done]. }
  rewrite He, size_union, size_singleton; [done|]. intros c. rewrite elem_of_singleton. intros -> Hin. unfold ahead in Hin. rewrite elem_of_filter in Hin. lia.
Qed.
Lemma dist_0 N p t : is_Some (N !! t) -> dist N p t = O -> p = t.
Proof.
  intros Ht Hd. apply size_empty_inv in Hd. destruct (decide (p = t)); [done|]. exfalso.
  assert (Hin : t ∈ ahead N p t) by (unfold ahead; rewrite elem_of_filter, elem_of_dom; split; [lia|done]). rewrite Hd in Hin. by apply elem_of_empty in Hin.
Qed.
(** Every node is met on the way from the one after [f] round to [f]. *)
Lemma dist_round N f p t : (forall c, is_Some (N !! c) -> base <= c) -> isnext N f p -> (dist N p t <= dist N p f)%nat.
Proof.
  intros Hb [Hp Hn]. apply subseteq_size. unfold ahead. intros c. rewrite !elem_of_filter, !elem_of_dom. intros [Hc Hd]. split; [|done].
  pose proof (Hb c Hd). destruct Hn as [[Hlt Hno]|[-> Hmax]]; [pose proof (Hno c Hd)|pose proof (Hmax c Hd)]; lia.
Qed.
Lemma dist_bound N p t : (dist N p t <= size N)%nat.
Proof. unfold dist, ahead. rewrite <- size_dom. apply subseteq_size. intros c. rewrite elem_of_filter. tauto. Qed.
Lemma isnext_fun N a b c : (forall d, is_Some (N !! d) -> base <= d) -> is_Some (N !! base) -> isnext N a b -> isnext N a c -> b = c.
Proof.
  intros Hb Hbase [Hbs [[Hab Hno]|[-> Hm]]] [Hcs [[Hac Hno']|[-> Hm']]].
  - pose proof (Hno c Hcs). pose proof (Hno' b Hbs). lia.
  - pose proof (Hm' b Hbs). lia.
  - pose proof (Hm c Hcs). lia.
  - done.
Qed.

(** ** The invariant *)
Definition blk F U a s : Prop := F !! a = Some s \/ U !! a = Some s.
Record heap_ok st F U : Prop := {
  h_lay : 0 < base /\ base + HSZ <= lo /\ lo <= u_brk st < 2 ^ 31;
  h_freep : is_Some (nodes F !! u_freep st);
  h_node : forall a s, nodes F !! a = Some s -> exists b, u_heap st !! a = Some (b, s) /\ isnext (nodes F) a b;
  h_used : forall a s, U !! a = Some s -> exists v, u_heap st !! a = Some (v, s);
  h_dom : forall a, lo <= a < u_brk st -> (a - lo) mod HSZ = 0 -> is_Some (u_heap st !! a);
  h_blk : forall a s, blk F U a s -> lo <= a /\ (a - lo) mod HSZ = 0 /\ 0 < s /\ a + HSZ * s <= u_brk st;
  h_apart : forall a, is_Some (F !! a) -> U !! a = None;
  h_dis : forall a s b t, blk F U a s -> blk F U b t -> a < b -> a + HSZ * s <= b;
  h_cov : forall a, lo <= a < u_brk st -> exists b s, blk F U b s /\ b <= a < b + HSZ * s }.
(** The contents of the blocks the program has. *)
Definition same_used U st st' : Prop :=
  forall a s c, U !! a = Some s -> a <= c < a + HSZ * s -> u_heap st' !! c = u_heap st !! c.

Lemma nodes_F st F U a : heap_ok st F U -> F !! a <> None -> a <> base.
Proof. intros H Ha ->. destruct (F !! base) as [s|] eqn:Hs; [|done]. pose proof (h_blk _ _ _ H base s (or_introl Hs)). pose proof (h_lay _ _ _ H). unfold HSZ in *. lia. Qed.
Lemma nodes_ge st F U : heap_ok st F U -> forall c, is_Some (nodes F !! c) -> base <= c.
Proof.
  intros H c [s Hs]. unfold nodes in Hs. destruct (decide (base = c)) as [->|Hne]; [lia|]. rewrite lookup_insert_ne in Hs by done.
  pose proof (h_blk _ _ _ H c s (or_introl Hs)). pose proof (h_lay _ _ _ H). unfold HSZ in *. lia.
Qed.
Lemma nodes_base F : nodes F !! base = Some 0.
Proof. apply lookup_insert_eq. Qed.
Lemma nodes_size st F U : heap_ok st F U -> (size (nodes F) <= size (u_heap st))%nat.
Proof.
  intros H. rewrite <- !size_dom. apply subseteq_size. intros a. rewrite !elem_of_dom. intros [s Hs].
  destruct (h_node _ _ _ H a s Hs) as (b&Hb&_). by rewrite Hb.
Qed.

(** ** Changes of the heap *)
Definition with_heap h st : ust := mkU h (u_freep st) (u_brk st).

(** A block of the program enters the circle between [p] and [q]. *)
Lemma heap_link st F U bp s p q sp :
  heap_ok st F (<[bp := s]> U) -> U !! bp = None -> nodes F !! p = Some sp -> isnext (nodes F) p q -> p < bp -> (bp < q \/ q <= p) ->
  heap_ok (with_heap (<[p := (bp, sp)]> (<[bp := (q, s)]> (u_heap st))) st) (<[bp := s]> F) U.
Proof.
  intros H Hu Hp Hnx Hpb Hbq. pose proof (h_lay _ _ _ H) as Hlay. assert (HF : F !! bp = None).
  { destruct (F !! bp) eqn:E; [|done]. assert (Hx : <[bp := s]> U !! bp = None) by (apply (h_apart _ _ _ H); by eexists). by rewrite lookup_insert_eq in Hx. }
  assert (Hbl : forall a t, blk (<[bp := s]> F) U a t <-> blk F (<[bp := s]> U) a t).
  { intros a t. unfold blk. destruct (decide (bp = a)) as [<-|Hne]; [rewrite !lookup_insert_eq, HF, Hu; naive_solver|by rewrite !lookup_insert_ne]. }
  assert (Hbb : bp <> base).
  { intros ->. pose proof (h_blk _ _ _ H base s ltac:(right; apply lookup_insert_eq)). unfold HSZ in *. lia. }
  assert (Hnn : nodes (<[bp := s]> F) = <[bp := s]> (nodes F)) by (unfold nodes; by rewrite insert_insert_ne).
  destruct Hnx as [Hq Hnx]. split; cbn [with_heap u_heap u_freep u_brk].
  - done.
  - rewrite Hnn. apply lookup_insert_is_Some'. right. apply H.
  - rewrite Hnn. intros a t. destruct (decide (bp = a)) as [<-|Hne].
    + rewrite lookup_insert_eq. intros [= <-]. rewrite lookup_insert_ne, lookup_insert_eq by lia. exists q. split; [done|]. split; [by apply lookup_insert_is_Some'; right|].
      pose proof (nodes_ge _ _ _ H q Hq). destruct Hnx as [[Hlt Hno]|[-> Hm]].
      * left. split; [lia|]. intros c [<-|Hc]%lookup_insert_is_Some'; [lia|]. pose proof (Hno c Hc). lia.
      * right. split; [done|]. intros c [<-|Hc]%lookup_insert_is_Some'; [lia|]. pose proof (Hm c Hc). lia.
    + rewrite lookup_insert_ne by done. intros Ha. destruct (decide (p = a)) as [<-|Hpa].
      * simplify_eq. rewrite lookup_insert_eq. exists bp. split; [done|]. split; [apply lookup_insert_is_Some'; by left|]. left. split; [done|].
        intros c [<-|Hc]%lookup_insert_is_Some'; [lia|]. destruct Hnx as [[Hlt Hno]|[-> Hm]]; [pose proof (Hno c Hc); lia|pose proof (Hm c Hc); lia].
      * rewrite !lookup_insert_ne by done. destruct (h_node _ _ _ H a t Ha) as (b&Hb&Hbs&Hn). exists b. split; [done|].
        split; [apply lookup_insert_is_Some'; by right|]. assert (Hps : is_Some (nodes F !! p)) by (by eexists).
        destruct Hn as [[Hlt Hno]|[-> Hm]].
        -- left. split; [done|]. intros c [<-|Hc]%lookup_insert_is_Some'; [|by apply Hno]. intros Hab. pose proof (Hno p Hps). pose proof (Hno q Hq).
           destruct Hnx as [[Hpq Hnpq]|[-> Hmx]]; [pose proof (Hnpq a ltac:(by eexists)); lia|]. pose proof (Hmx b Hbs). lia.
        -- right. split; [done|]. intros c [<-|Hc]%lookup_insert_is_Some'; [|by apply Hm]. pose proof (Hm p Hps).
           destruct Hnx as [[Hpq Hnpq]|[-> Hmx]]; [|pose proof (Hmx a ltac:(by eexists)); lia]. pose proof (Hm q Hq). lia.
  - intros a t Ha. assert (a <> bp) by congruence. assert (Hau : <[bp := s]> U !! a = Some t) by (by rewrite lookup_insert_ne).
    destruct (h_used _ _ _ H a t Hau) as [v Hv]. destruct (decide (p = a)) as [<-|Hpa]; [|exists v; by rewrite !lookup_insert_ne].
    exfalso. destruct (decide (p = base)) as [->|Hpb']; [pose proof (h_blk _ _ _ H base t (or_intror Hau)); unfold HSZ in *; lia|].
    unfold nodes in Hp. rewrite lookup_insert_ne in Hp by done. rewrite (h_apart _ _ _ H p ltac:(by eexists)) in Hau. done.
  - intros a Ha Hm. apply lookup_insert_is_Some'. right. apply lookup_insert_is_Some'. right. by apply H.
  - intros a t Hat%Hbl. exact (h_blk _ _ _ H a t Hat).
  - intros a [<-|Ha]%lookup_insert_is_Some'; [done|]. pose proof (h_apart _ _ _ H a Ha) as Hx. destruct (decide (bp = a)) as [<-|Hne]; [done|]. by rewrite lookup_insert_ne in Hx.
  - intros a t b u Ha%Hbl Hb%Hbl. exact (h_dis _ _ _ H a t b u Ha Hb).
  - intros a Ha. destruct (h_cov _ _ _ H a Ha) as (b&t&Hbt&Hin). exists b, t. split; [by apply Hbl|done].
Qed.

Lemma heap_freep st F U p : heap_ok st F U -> is_Some (nodes F !! p) -> heap_ok (mkU (u_heap st) p (u_brk st)) F U.
Proof. intros [H1 H2 H3 H4 H5 H6 H7 H8 H9] Hp. by split. Qed.
Lemma node_free st F U a s : heap_ok st F U -> F !! a = Some s -> nodes F !! a = Some s.
Proof. intros H Ha. unfold nodes. rewrite lookup_insert_ne; [done|]. intros <-. eapply nodes_F; [exact H| |done]. by rewrite Ha. Qed.
Lemma node_cases F a s : nodes F !! a = Some s -> a = base /\ s = 0 \/ F !! a = Some s.
Proof. unfold nodes. destruct (decide (base = a)) as [<-|Hne]; [rewrite lookup_insert_eq; intros [= <-]; by left|]. rewrite lookup_insert_ne by done. by right. Qed.

(** Two free blocks that touch become one. *)
Lemma heap_merge st F U a sa b sb c :
  heap_ok st F U -> F !! a = Some sa -> F !! b = Some sb -> a + HSZ * sa = b -> u_heap st !! b = Some (c, sb) -> u_freep st <> b ->
  heap_ok (with_heap (<[a := (c, sa + sb)]> (u_heap st)) st) (<[a := sa + sb]> (delete b F)) U.
Proof.
  intros H Ha Hb Hab Hc Hf. pose proof (h_lay _ _ _ H) as Hlay. set (F' := <[a := sa + sb]> (delete b F)).
  destruct (h_blk _ _ _ H a sa (or_introl Ha)) as (Hla&Hma&Hsa&_). destruct (h_blk _ _ _ H b sb (or_introl Hb)) as (_&_&Hsb&Hbe). unfold HSZ in *.
  assert (Hlt : a < b) by lia.
  assert (HF : forall d, F' !! d = if decide (d = a) then Some (sa + sb) else if decide (d = b) then None else F !! d).
  { intros d. unfold F'. repeat case_decide; subst; [apply lookup_insert_eq|rewrite lookup_insert_ne, lookup_delete_eq by lia; done|].
    by rewrite lookup_insert_ne, lookup_delete_ne. }
  assert (HN : forall d, is_Some (nodes F' !! d) <-> d <> b /\ is_Some (nodes F !! d)).
  { intros d. unfold nodes. destruct (decide (base = d)) as [<-|Hne].
    - rewrite !lookup_insert_eq. split; [|naive_solver]. intros _. split; [lia|by eexists].
    - rewrite !lookup_insert_ne by done. rewrite HF. destruct (decide (d = a)) as [->|]; [rewrite Ha; split; [|naive_solver]; split; [lia|by eexists]|].
      destruct (decide (d = b)); [|tauto]. split; [by intros [? ?]|tauto]. }
  assert (Hin : forall d t, blk F U d t -> a <= d < b -> d = a).
  { intros d t Hd Hdr. destruct (decide (d = a)); [done|]. pose proof (h_dis _ _ _ H a sa d t (or_introl Ha) Hd ltac:(lia)). unfold HSZ in *. lia. }
  assert (Hnxb : isnext (nodes F) b c).
  { destruct (h_node _ _ _ H b sb (node_free _ _ _ _ _ H Hb)) as (c'&Hc'&Hn). rewrite Hc in Hc'. by injection Hc' as <-. }
  assert (Hnoin : forall d, is_Some (nodes F !! d) -> a < d <= b -> d = b).
  { intros d [t [[-> _]|Hd]%node_cases] Hr; [lia|]. destruct (decide (d = b)); [done|]. specialize (Hin d t (or_introl Hd) ltac:(lia)). lia. }
  split; cbn [with_heap u_heap u_freep u_brk].
  - done.
  - apply HN. split; [done|]. apply H.
  - intros d t Hd. assert (Hds : is_Some (nodes F' !! d)) by (by eexists). apply HN in Hds as [Hdb Hds].
    destruct (decide (d = a)) as [->|Hda].
    + rewrite lookup_insert_eq. assert (t = sa + sb) as ->.
      { apply node_cases in Hd as [[-> _]|Hd]; [lia|]. rewrite HF, decide_True in Hd by done. congruence. }
      exists c. split; [done|]. destruct Hnxb as [Hcs Hn]. split.
      * apply HN. split; [|done]. intros ->. destruct Hn as [[? _]|[-> _]]; lia.
      * destruct Hn as [[Hbc Hno]|[-> Hm]]; [left|right]; (split; [lia || done|]); intros e [Heb He]%HN.
        -- intros Her. destruct (decide (e < b)); [specialize (Hnoin e He ltac:(lia)); done|]. apply (Hno e He). lia.
        -- pose proof (Hm e He). destruct (decide (a < e)); [|lia]. specialize (Hnoin e He ltac:(lia)). done.
    + rewrite lookup_insert_ne by done. assert (Hdt : nodes F !! d = Some t).
      { apply node_cases in Hd as [[-> ->]|Hd]; [apply nodes_base|]. rewrite HF, !decide_False in Hd by done. by eapply node_free. }
      destruct (h_node _ _ _ H d t Hdt) as (e&He&Hes&Hn). exists e. split; [done|]. split.
      * apply HN. split; [|done]. intros ->. destruct Hn as [[Hde Hno]|[-> _]]; [|lia].
        destruct (decide (d < a)) as [Hda'|]; [|specialize (Hnoin d ltac:(by eexists) ltac:(lia)); done].
        apply (Hno a); [by rewrite (node_free _ _ _ _ _ H Ha)|lia].
      * destruct Hn as [[Hde Hno]|[-> Hm]]; [left|right]; (split; [done|]); intros g [Hgb Hg]%HN; auto.
  - intros d t Hd. destruct (h_used _ _ _ H d t Hd) as [v Hv]. exists v. rewrite lookup_insert_ne; [done|]. intros <-.
    rewrite (h_apart _ _ _ H a ltac:(by eexists)) in Hd. done.
  - intros d Hd Hm. apply lookup_insert_is_Some'. right. by apply H.
  - intros d t [Hd|Hd].
    + rewrite HF in Hd. repeat case_decide; simplify_eq; [unfold HSZ; split_and!; (done || lia)|]. exact (h_blk _ _ _ H d t (or_introl Hd)).
    + exact (h_blk _ _ _ H d t (or_intror Hd)).
  - intros d Hd. apply (h_apart _ _ _ H). destruct Hd as [t Hd]. rewrite HF in Hd. repeat case_decide; simplify_eq; by eexists.
  - assert (Hsub : forall d t, blk F' U d t -> d = a /\ t = sa + sb /\ F' !! d = Some t \/ d <> a /\ d <> b /\ blk F U d t).
    { intros d t [Hd|Hd].
      - pose proof Hd as Hd0. rewrite HF in Hd. repeat case_decide; simplify_eq; [by left|]. right. split_and!; [done..|]. by left.
      - right. split_and!; [intros ->; rewrite (h_apart _ _ _ H a ltac:(by eexists)) in Hd; done|intros ->; rewrite (h_apart _ _ _ H b ltac:(by eexists)) in Hd; done|by right]. }
    intros d t e u Hd He Hde. apply Hsub in Hd as [(->&->&_)|(Hd1&Hd2&Hd)]; apply Hsub in He as [(->&->&_)|(He1&He2&He)].
    + lia.
    + destruct (decide (e < b)) as [Heb|]; [specialize (Hin e u He ltac:(lia)); done|]. pose proof (h_dis _ _ _ H b sb e u (or_introl Hb) He ltac:(lia)). unfold HSZ in *. lia.
    + exact (h_dis _ _ _ H d t a sa Hd (or_introl Ha) Hde).
    + exact (h_dis _ _ _ H d t e u Hd He Hde).
  - intros d Hd. destruct (h_cov _ _ _ H d Hd) as (e&t&Het&Hin'). destruct (decide (a <= d < b + 8 * sb)) as [Hr|Hr].
    + exists a, (sa + sb). split; [left; by rewrite HF, decide_True|]. unfold HSZ. lia.
    + exists e, t. split; [|done]. destruct Het as [He|He]; [left|by right]. rewrite HF. unfold HSZ in *. repeat case_decide; simplify_eq; [lia|lia|done].
Qed.

(** A free block leaves the circle. *)
Lemma heap_take st F U a s c p sp :
  heap_ok st F U -> F !! a = Some s -> u_heap st !! a = Some (c, s) -> nodes F !! p = Some sp -> isnext (nodes F) p a -> u_freep st <> a ->
  heap_ok (with_heap (<[p := (c, sp)]> (u_heap st)) st) (delete a F) (<[a := s]> U) /\ p <> a.
Proof.
  intros H Ha Hc Hp Hpa Hf. pose proof (h_lay _ _ _ H) as Hlay. assert (Hab : a <> base) by (eapply nodes_F; [exact H|by rewrite Ha]).
  assert (HU : U !! a = None) by (apply (h_apart _ _ _ H); by eexists).
  assert (Hne : p <> a). { intros ->. destruct Hpa as [_ [[? _]|[? _]]]; [lia|done]. }
  assert (Hbl : forall d t, blk (delete a F) (<[a := s]> U) d t <-> blk F U d t).
  { intros d t. unfold blk. destruct (decide (a = d)) as [<-|Hd]; [rewrite lookup_insert_eq, lookup_delete_eq, Ha, HU; naive_solver|].
    by rewrite lookup_insert_ne, lookup_delete_ne. }
  assert (HN : forall d t, nodes (delete a F) !! d = Some t <-> d <> a /\ nodes F !! d = Some t).
  { intros d t. unfold nodes. destruct (decide (base = d)) as [<-|Hd]; [rewrite !lookup_insert_eq; naive_solver|]. rewrite !lookup_insert_ne by done.
    rewrite lookup_delete_Some. naive_solver. }
  assert (HNs : forall d, is_Some (nodes (delete a F) !! d) <-> d <> a /\ is_Some (nodes F !! d)).
  { intros d. unfold is_Some. setoid_rewrite HN. naive_solver. }
  pose proof (nodes_ge _ _ _ H) as Hge.
  assert (Hnxa : isnext (nodes F) a c).
  { destruct (h_node _ _ _ H a s (node_free _ _ _ _ _ H Ha)) as (c'&Hc'&Hn). rewrite Hc in Hc'. by injection Hc' as <-. }
  assert (Hca : c <> a). { intros ->. destruct Hnxa as [_ [[? _]|[? _]]]; [lia|done]. }
  assert (HpN : is_Some (nodes F !! p)) by (by eexists).
  split; [|done]. split; cbn [with_heap u_heap u_freep u_brk].
  - done.
  - apply HNs. split; [done|apply H].
  - intros d t [Hda Hd]%HN. destruct (decide (p = d)) as [<-|Hpd].
    + simplify_eq. rewrite lookup_insert_eq. exists c. split; [done|]. destruct Hnxa as [Hcs Hn], Hpa as [Has Hn']. split; [by apply HNs|].
      destruct Hn' as [[Hpa Hno']|[Hx _]]; [|by rewrite Hx in Hab]. destruct Hn as [[Hac Hno]|[-> Hm]]; [left|right].
      * split; [lia|]. intros e [Hea He]%HNs Her. pose proof (Hno e He). pose proof (Hno' e He). lia.
      * split; [done|]. intros e [Hea He]%HNs. pose proof (Hm e He). pose proof (Hno' e He). lia.
    + rewrite lookup_insert_ne by done. destruct (h_node _ _ _ H d t Hd) as (e&He&Hes&Hn). exists e. split; [done|]. split.
      * apply HNs. split; [|done]. intros ->. apply Hpd. destruct Hpa as [Has Hn'].
        destruct Hn as [[Hde Hno]|[Hx _]]; [|by rewrite Hx in Hab]. destruct Hn' as [[Hpa Hno']|[Hx _]]; [|by rewrite Hx in Hab]. pose proof (Hno p HpN). pose proof (Hno' d ltac:(by eexists)). lia.
      * destruct Hn as [[Hde Hno]|[-> Hm]]; [left|right]; (split; [done|]); intros g [Hg1 Hg]%HNs; auto.
  - intros d t. destruct (decide (a = d)) as [<-|Hd]; [rewrite lookup_insert_eq; intros [= <-]; exists c; by rewrite lookup_insert_ne|].
    rewrite lookup_insert_ne by done. intros Hd'. destruct (h_used _ _ _ H d t Hd') as [v Hv]. exists v. rewrite lookup_insert_ne; [done|]. intros <-.
    apply node_cases in Hp as [[-> _]|Hp]; [pose proof (h_blk _ _ _ H base t (or_intror Hd')); unfold HSZ in *; lia|].
    rewrite (h_apart _ _ _ H p ltac:(by eexists)) in Hd'. done.
  - intros d Hd Hm. apply lookup_insert_is_Some'. right. by apply H.
  - intros d t Hd%Hbl. exact (h_blk _ _ _ H d t Hd).
  - intros d [t [Hd Ht]%lookup_delete_Some]. rewrite lookup_insert_ne by done. apply (h_apart _ _ _ H). by eexists.
  - intros d t e u Hd%Hbl He%Hbl. exact (h_dis _ _ _ H d t e u Hd He).
  - intros d Hd. destruct (h_cov _ _ _ H d Hd) as (e&t&Het&Hin). exists e, t. split; [by apply Hbl|done].
Qed.

(** The tail of a free block goes to the program. *)
Lemma heap_split st F U a s c n v :
  heap_ok st F U -> F !! a = Some s -> u_heap st !! a = Some (c, s) -> 0 < n < s ->
  heap_ok (with_heap (<[a + HSZ * (s - n) := (v, n)]> (<[a := (c, s - n)]> (u_heap st))) st)
    (<[a := s - n]> F) (<[a + HSZ * (s - n) := n]> U) /\ U !! (a + HSZ * (s - n)) = None /\ F !! (a + HSZ * (s - n)) = None.
Proof.
  intros H Ha Hc Hn. pose proof (h_lay _ _ _ H) as Hlay. destruct (h_blk _ _ _ H a s (or_introl Ha)) as (Hla&Hma&Hs&Hae). unfold HSZ in *. set (q := a + 8 * (s - n)).
  assert (Hq : a < q < a + 8 * s) by (unfold q; lia).
  assert (Hnb : forall d t, blk F U d t -> ~ (a < d < a + 8 * s)).
  { intros d t Hd Hr. pose proof (h_dis _ _ _ H a s d t (or_introl Ha) Hd ltac:(lia)). unfold HSZ in *. lia. }
  assert (HUq : U !! q = None). { destruct (U !! q) as [t|] eqn:E; [|done]. exfalso. exact (Hnb q t (or_intror E) Hq). }
  assert (HFq : F !! q = None). { destruct (F !! q) as [t|] eqn:E; [|done]. exfalso. exact (Hnb q t (or_introl E) Hq). }
  assert (Hab : a <> base) by lia.
  assert (HN : nodes (<[a := s - n]> F) = <[a := s - n]> (nodes F)) by (unfold nodes; by rewrite insert_insert_ne).
  assert (HaN : nodes F !! a = Some s) by (by eapply node_free).
  assert (HNs : forall d, is_Some (<[a := s - n]> (nodes F) !! d) <-> is_Some (nodes F !! d)).
  { intros d. rewrite lookup_insert_is_Some'. split; [intros [<-|Hd]; [by eexists|done]|by right]. }
  assert (Hnx : forall d e, isnext (nodes F) d e -> isnext (<[a := s - n]> (nodes F)) d e).
  { intros d e [He Hn']. split; [by apply HNs|]. destruct Hn' as [[Hde Hno]|[-> Hm]]; [left|right]; (split; [done|]); intros g Hg%HNs; auto. }
  assert (HaU : U !! a = None) by (apply (h_apart _ _ _ H); by eexists).
  assert (Hsub : forall d t, blk (<[a := s - n]> F) (<[q := n]> U) d t -> d = a /\ t = s - n \/ d = q /\ t = n \/ d <> a /\ d <> q /\ blk F U d t).
  { intros d t [Hd|Hd]; [destruct (decide (a = d)) as [<-|Hda]|destruct (decide (q = d)) as [<-|Hdq]].
    - rewrite lookup_insert_eq in Hd. injection Hd as <-. by left.
    - rewrite lookup_insert_ne in Hd by done. right; right. split_and!; [done|congruence|by left].
    - rewrite lookup_insert_eq in Hd. injection Hd as <-. right; by left.
    - rewrite lookup_insert_ne in Hd by done. right; right. split_and!; [congruence|done|by right]. }
  split; [|done]. split; cbn [with_heap u_heap u_freep u_brk].
  - done.
  - rewrite HN. apply HNs, H.
  - rewrite HN. intros d t. destruct (decide (a = d)) as [<-|Hd].
    + rewrite lookup_insert_eq. intros [= <-]. rewrite lookup_insert_ne, lookup_insert_eq by lia. exists c. split; [done|].
      destruct (h_node _ _ _ H a s HaN) as (c'&Hc'&Hn'). rewrite Hc in Hc'. injection Hc' as <-. by apply Hnx.
    + rewrite lookup_insert_ne by done. intros Hdt. destruct (h_node _ _ _ H d t Hdt) as (e&He&Hn'). exists e. split; [|by apply Hnx].
      rewrite !lookup_insert_ne; [done|done|]. intros <-. apply node_cases in Hdt as [[? _]|Hdt]; [lia|]. congruence.
  - intros d t. destruct (decide (q = d)) as [<-|Hd]; [rewrite lookup_insert_eq; intros [= <-]; exists v; by rewrite lookup_insert_eq|].
    rewrite lookup_insert_ne by done. intros Hd'. destruct (h_used _ _ _ H d t Hd') as [w Hw]. exists w. rewrite !lookup_insert_ne; [done|congruence|done].
  - intros d Hd Hm. apply lookup_insert_is_Some'. right. apply lookup_insert_is_Some'. right. by apply H.
  - intros d t Hd. apply Hsub in Hd as [[-> ->]|[[-> ->]|(_&_&Hd)]]; [unfold HSZ; split_and!; (done || lia)| |exact (h_blk _ _ _ H d t Hd)].
    unfold HSZ. split_and!; [lia| |lia|lia]. unfold q. replace (a + 8 * (s - n) - lo) with (a - lo + (s - n) * 8) by lia. rewrite Z.mod_add by lia. exact Hma.
  - intros d Hd%lookup_insert_is_Some'. rewrite lookup_insert_ne.
    + destruct Hd as [<-|Hd]; [done|by apply (h_apart _ _ _ H)].
    + intros <-. destruct Hd as [?|[t Ht]]; [lia|congruence].
  - intros d t e u Hd He Hde. unfold HSZ in *.
    apply Hsub in Hd as [[-> ->]|[[-> ->]|(Hd1&Hd2&Hd)]]; apply Hsub in He as [[-> ->]|[[-> ->]|(He1&He2&He)]]; try lia.
    + pose proof (h_dis _ _ _ H a s e u (or_introl Ha) He Hde). unfold HSZ in *. lia.
    + pose proof (Hnb e u He). pose proof (h_dis _ _ _ H a s e u (or_introl Ha) He ltac:(lia)). unfold HSZ in *. lia.
    + pose proof (h_dis _ _ _ H d t a s Hd (or_introl Ha) Hde). unfold HSZ in *. lia.
    + pose proof (Hnb d t Hd). pose proof (h_dis _ _ _ H d t a s Hd (or_introl Ha) ltac:(lia)). unfold HSZ in *. lia.
    + pose proof (h_dis _ _ _ H d t e u Hd He Hde). unfold HSZ in *. lia.
  - intros d Hd. destruct (h_cov _ _ _ H d Hd) as (e&t&Het&Hin). unfold HSZ in *. destruct (decide (a <= d < a + 8 * s)) as [Hr|Hr].
    + destruct (decide (d < q)); [exists a, (s - n)|exists q, n]; (split; [|lia]); [left|right]; apply lookup_insert_eq.
    + exists e, t. split; [|done]. destruct Het as [He|He]; [left|right]; (rewrite lookup_insert_ne; [done|]); intros <-; [|congruence].
      assert (t = s) as -> by congruence. lia.
Qed.

(** ** Growing the heap *)
Lemma new_units_lookup m a h c : new_units m a h !! c =
  if decide (a <= c < a + 8 * Z.of_nat m /\ (c - a) mod 8 = 0) then Some (0, 0) else h !! c.
Proof.
  revert a h. induction m as [|m IH]; intros a h; cbn [new_units]; [by rewrite decide_False by lia|]. rewrite IH. unfold HSZ.
  assert (Hm : (c - (a + 8)) mod 8 = (c - a) mod 8). { replace (c - a) with (c - (a + 8) + 1 * 8) by lia. by rewrite Z.mod_add by lia. }
  rewrite Hm. destruct (decide (c = a)) as [->|Hca].
  - rewrite decide_False by lia. rewrite lookup_insert_eq, decide_True; [done|]. rewrite Z.sub_diag. split; [lia|done].
  - rewrite lookup_insert_ne by done. destruct (decide (a + 8 <= c < a + 8 + 8 * Z.of_nat m /\ (c - a) mod 8 = 0)) as [Hd|Hd].
    + rewrite decide_True by lia. done.
    + rewrite decide_False; [done|]. intros [Hr Hz]. apply Hd. split; [|done]. pose proof (Z.div_mod (c - a) 8 ltac:(lia)). lia.
Qed.
Lemma heap_grow st F U nu :
  heap_ok st F U -> 0 < nu -> u_brk st + HSZ * nu < 2 ^ 31 -> (u_brk st - lo) mod HSZ = 0 ->
  let h := new_units (Z.to_nat nu) (u_brk st) (u_heap st) in
  let st' := mkU (<[u_brk st := (0, nu)]> h) (u_freep st) (u_brk st + HSZ * nu) in
  heap_ok st' F (<[u_brk st := nu]> U) /\ U !! u_brk st = None /\ is_Some (h !! u_brk st) /\ same_used U st st'.
Proof.
  intros H Hnu Hend Hal h st'. pose proof (h_lay _ _ _ H) as Hlay. unfold HSZ in *. set (k := u_brk st) in *.
  assert (Hbd : forall a s, blk F U a s -> a < k).
  { intros a s Ha. pose proof (h_blk _ _ _ H a s Ha). unfold HSZ in *. lia. }
  assert (HU : U !! k = None). { destruct (U !! k) as [t|] eqn:E; [|done]. pose proof (Hbd k t (or_intror E)). lia. }
  assert (Hold : forall a, a < k -> h !! a = u_heap st !! a). { intros a Ha. unfold h. rewrite new_units_lookup, decide_False by lia. done. }
  assert (Hk : is_Some (h !! k)).
  { unfold h. rewrite new_units_lookup, decide_True; [by eexists|]. rewrite Z.sub_diag. split; [lia|done]. }
  assert (Hsub : forall a s, blk F (<[k := nu]> U) a s -> a = k /\ s = nu \/ a <> k /\ blk F U a s).
  { intros a s [Ha|Ha]; [right; split; [|by left]; intros ->; pose proof (Hbd k s (or_introl Ha)); lia|].
    destruct (decide (k = a)) as [<-|Hne]; [rewrite lookup_insert_eq in Ha; injection Ha as <-; by left|].
    rewrite lookup_insert_ne in Ha by done. right. split; [done|by right]. }
  assert (Hnode : forall a, is_Some (nodes F !! a) -> a < k).
  { intros a [s [[-> _]|Ha]%node_cases]; [lia|]. exact (Hbd a s (or_introl Ha)). }
  split_and!; [|done|done|].
  - split; unfold st'; cbn [u_heap u_freep u_brk].
    + unfold HSZ; lia.
    + apply H.
    + intros a s Ha. pose proof (Hnode a ltac:(by eexists)). rewrite lookup_insert_ne, Hold by lia. by apply (h_node _ _ _ H).
    + intros a s Ha. destruct (decide (k = a)) as [<-|Hne]; [rewrite lookup_insert_eq in Ha; injection Ha as <-; exists 0; by rewrite lookup_insert_eq|].
      rewrite lookup_insert_ne in Ha by done. pose proof (Hbd a s (or_intror Ha)). rewrite lookup_insert_ne, Hold by lia. by apply (h_used _ _ _ H).
    + intros a Ha Hm. apply lookup_insert_is_Some'. right. destruct (decide (a < k)); [rewrite Hold by done; apply (h_dom _ _ _ H); [lia|done]|].
      unfold h. rewrite new_units_lookup, decide_True; [by eexists|]. split; [lia|].
      pose proof (Z.div_mod (a - lo) 8 ltac:(lia)). pose proof (Z.div_mod (k - lo) 8 ltac:(lia)). unfold HSZ in Hm.
      replace (a - k) with (0 + ((a - lo) / 8 - (k - lo) / 8) * 8) by lia. by rewrite Z.mod_add by lia.
    + intros a s Ha. apply Hsub in Ha as [[-> ->]|[_ Ha]]; [unfold HSZ; split_and!; (done || lia)|]. pose proof (h_blk _ _ _ H a s Ha). unfold HSZ in *.
      destruct (h_blk _ _ _ H a s Ha) as (?&?&?&?). unfold HSZ in *. split_and!; (done || lia).
    + intros a Ha. rewrite lookup_insert_ne; [by apply (h_apart _ _ _ H)|]. intros <-. destruct Ha as [t Ht]. pose proof (Hbd k t (or_introl Ht)). lia.
    + intros a s b t Ha Hb Hab. apply Hsub in Ha as [[-> ->]|[_ Ha]]; apply Hsub in Hb as [[-> ->]|[_ Hb]]; unfold HSZ.
      * lia.
      * pose proof (Hbd b t Hb). lia.
      * pose proof (h_blk _ _ _ H a s Ha). unfold HSZ in *. lia.
      * exact (h_dis _ _ _ H a s b t Ha Hb Hab).
    + intros a Ha. destruct (decide (a < k)).
      * destruct (h_cov _ _ _ H a ltac:(lia)) as (b&t&Hb&Hin). exists b, t. split; [|done]. destruct Hb as [Hb|Hb]; [by left|right].
        rewrite lookup_insert_ne; [done|]. intros <-. congruence.
      * exists k, nu. split; [right; apply lookup_insert_eq|]. unfold HSZ. lia.
  - intros a s c Ha Hc. unfold st'. cbn [u_heap]. pose proof (h_blk _ _ _ H a s (or_intror Ha)). unfold HSZ in *.
    rewrite lookup_insert_ne, Hold by lia. done.
Qed.

(** ** free *)
Lemma wp_hget st a x E (Q : Z * Z -> ust -> Prop) : u_heap st !! a = Some x -> Q x st -> wp (hget a) E Q st.
Proof. intros Ha HQ. unfold wp, hget. by rewrite Ha. Qed.
Lemma wp_set_ptr st a x v E (Q : unit -> ust -> Prop) : u_heap st !! a = Some x ->
  Q tt (with_heap (<[a := (v, x.2)]> (u_heap st)) st) -> wp (set_ptr a v) E Q st.
Proof. intros Ha HQ. unfold set_ptr. apply wp_bind. eapply wp_hget; [done|]. unfold wp, hset. by rewrite Ha. Qed.
Lemma wp_set_hsize st a x v E (Q : unit -> ust -> Prop) : u_heap st !! a = Some x ->
  Q tt (with_heap (<[a := (x.1, v)]> (u_heap st)) st) -> wp (set_hsize a v) E Q st.
Proof. intros Ha HQ. unfold set_hsize. apply wp_bind. eapply wp_hget; [done|]. unfold wp, hset. by rewrite Ha. Qed.

Lemma last_below N bp : is_Some (N !! base) -> base < bp -> exists t, is_Some (N !! t) /\ t < bp /\ forall c, is_Some (N !! c) -> c < bp -> c <= t.
Proof.
  intros Hb Hlt. set (X := filter (fun c => c < bp) (dom N) : gset Z).
  set (R := fun a b : Z => b <= a). assert (Htr : Transitive R) by (unfold R; intros ???; lia).
  assert (Hdec : forall x y, Decision (R x y)) by (unfold R; intros; apply _).
  assert (HX0 : X ≢ ∅).
  { intros HX. specialize (HX base). assert (Hin : base ∈ X) by (by apply elem_of_filter; rewrite elem_of_dom). rewrite HX in Hin. by apply elem_of_empty in Hin. }
  destruct (minimal_exists_elem_of R X HX0) as (t&Ht&Hmin).
  apply elem_of_filter in Ht as [Htb Ht]. apply elem_of_dom in Ht. exists t. split_and!; [done|done|]. intros c Hc Hcb.
  assert (Hin : c ∈ X) by (apply elem_of_filter; by rewrite elem_of_dom). specialize (Hmin c Hin). unfold R in Hmin. lia.
Qed.

(** The walk finds the node after which the block belongs. *)
Definition before F bp p q : Prop := isnext (nodes F) p q /\ p < bp /\ (bp < q \/ q <= p).
Lemma free_walk st F U bp s :
  heap_ok st F (<[bp := s]> U) -> U !! bp = None ->
  wp (while (walk_fuel st) (fun p =>
    x <- hget p;;
    if (p <? bp) && (bp <? x.1) then ret (inr p) else
    if (x.1 <=? p) && ((p <? bp) || (bp <? x.1)) then ret (inr p) else
    ret (inl x.1)) (u_freep st)) noerr (fun p st' => st' = st /\ exists q sp, nodes F !! p = Some sp /\ u_heap st !! p = Some (q, sp) /\ before F bp p q) st.
Proof.
  intros H Hu. pose proof (h_lay _ _ _ H) as Hlay. assert (Hbp : blk F (<[bp := s]> U) bp s) by (right; apply lookup_insert_eq).
  pose proof (h_blk _ _ _ H bp s Hbp) as Hbb. unfold HSZ in Hlay, Hbb. pose proof (nodes_ge _ _ _ H) as Hge.
  assert (HbN : nodes F !! bp = None).
  { destruct (nodes F !! bp) as [t|] eqn:E; [|done]. apply node_cases in E as [[? _]|E]; [lia|].
    pose proof (h_apart _ _ _ H bp ltac:(by eexists)) as Hx. by rewrite lookup_insert_eq in Hx. }
  destruct (last_below (nodes F) bp ltac:(by rewrite nodes_base) ltac:(lia)) as (t&Ht&Htb&Htmax).
  apply (wp_while (fun p st' => st' = st /\ is_Some (nodes F !! p)) (fun p => dist (nodes F) p t)).
  - split; [done|apply H].
  - unfold walk_fuel. pose proof (dist_bound (nodes F) (u_freep st) t). pose proof (nodes_size _ _ _ H). lia.
  - intros p st' [-> [sp Hp]]. destruct (h_node _ _ _ H p sp Hp) as (q&Hq&Hnx). apply wp_bind. eapply wp_hget; [done|]. cbn [fst].
    assert (Hqn : q <> bp). { intros ->. destruct Hnx as [[? ?] _]. congruence. }
    assert (Hpn : p <> bp) by congruence.
    destruct ((p <? bp) && (bp <? q)) eqn:H1.
    { apply andb_true_iff in H1 as [H1%Z.ltb_lt H1'%Z.ltb_lt]. apply wp_ret. split; [done|]. exists q, sp. split_and!; [done..|]. split_and!; [done|done|by left]. }
    destruct ((q <=? p) && ((p <? bp) || (bp <? q))) eqn:H2.
    { apply andb_true_iff in H2 as [H2%Z.leb_le H2']. apply wp_ret. split; [done|]. exists q, sp. split_and!; [done..|]. split_and!; [done| |by right].
      destruct Hnx as [_ [[? _]|[-> _]]]; [lia|]. apply orb_true_iff in H2' as [H2'%Z.ltb_lt|H2'%Z.ltb_lt]; lia. }
    apply wp_ret. split; [split; [done|apply Hnx]|]. rewrite (dist_next _ p q t); [lia|done|done| |done]. intros ->.
    apply andb_false_iff in H1 as [H1%Z.ltb_ge|H1%Z.ltb_ge]; [lia|].
    assert (Hqt : q <= t) by (apply Htmax; [apply Hnx|lia]). apply andb_false_iff in H2 as [H2%Z.leb_gt|H2]; [lia|].
    apply orb_false_iff in H2 as [H2%Z.ltb_ge _]. lia.
Qed.

Lemma free_right st F U bp s v p q sp :
  heap_ok st F (<[bp := s]> U) -> U !! bp = None -> u_heap st !! bp = Some (v, s) -> nodes F !! p = Some sp -> u_heap st !! p = Some (q, sp) -> before F bp p q ->
  wp (if u32 (bp + HSZ * s) =? q then
        n <- hget q;;
        set_hsize bp (u32 (s + n.2));;
        set_ptr bp n.1
      else set_ptr bp q) noerr (fun _ st' => exists c s' F', st' = with_heap (<[bp := (c, s')]> (u_heap st)) st /\ s <= s' /\ F' !! bp = Some s' /\
        nodes F' !! p = Some sp /\ (size (nodes F') <= S (size (nodes F)))%nat /\
        heap_ok (mkU (<[p := (bp, sp)]> (<[bp := (c, s')]> (u_heap st))) p (u_brk st)) F' U) st.
Proof.
  intros H Hu Hv Hp Hpq (Hnx&Hpb&Hbq). pose proof (h_lay _ _ _ H) as Hlay. pose proof (h_blk _ _ _ H bp s ltac:(right; apply lookup_insert_eq)) as Hbb. unfold HSZ in *.
  pose proof (heap_link (mkU (u_heap st) p (u_brk st)) F U bp s p q sp (heap_freep _ _ _ p H ltac:(by eexists)) Hu Hp Hnx Hpb Hbq) as Hl.
  unfold with_heap in Hl. cbn [u_heap u_freep u_brk] in Hl.
  assert (Hpl : nodes (<[bp := s]> F) !! p = Some sp).
  { unfold nodes in *. destruct (decide (base = p)) as [<-|?]; [by rewrite lookup_insert_eq in Hp |- *|]. rewrite !lookup_insert_ne in * by lia. done. }
  assert (Hsz : (size (nodes (<[bp := s]> F)) <= S (size (nodes F)))%nat).
  { unfold nodes. rewrite insert_insert_ne by lia. set (N := <[base := 0]> F). rewrite map_size_insert. unfold id. case_match; lia. }
  rewrite u32_small by lia. destruct (Z.eqb_spec (bp + 8 * s) q) as [Hadj|Hadj].
  - pose proof Hnx as [Hqs _]. destruct Hqs as [sq Hqn]. pose proof Hqn as Hqn'. apply node_cases in Hqn' as [[-> _]|Hq]; [lia|].
    destruct (h_node _ _ _ H q sq Hqn) as (c&Hc&_). destruct (h_blk _ _ _ H q sq (or_introl Hq)) as (_&_&Hsq&Hqe). unfold HSZ in *.
    apply wp_bind. eapply wp_hget; [done|]. cbn [fst snd]. apply wp_bind. eapply wp_set_hsize; [done|]. cbn [fst]. eapply wp_set_ptr; [apply lookup_insert_eq|].
    cbn [snd u_heap with_heap u_freep u_brk]. rewrite insert_insert_eq, u32_small by lia. exists c, (s + sq), (<[bp := s + sq]> (delete q (<[bp := s]> F))).
    assert (Hqb : q <> bp) by lia. assert (Hqp : q <> p) by lia. assert (Hpbp : p <> bp) by lia.
    split_and!; [done|lia|apply lookup_insert_eq| | |].
    + unfold nodes in *. destruct (decide (base = p)) as [<-|?]; [by rewrite lookup_insert_eq in Hp |- *|]. rewrite lookup_insert_ne in Hpl by done.
      by rewrite lookup_insert_ne, lookup_insert_ne, lookup_delete_ne by done.
    + etrans; [|exact Hsz]. rewrite <- !size_dom. apply subseteq_size. intros d. unfold nodes. rewrite !elem_of_dom, !lookup_insert_is_Some', lookup_delete_is_Some, lookup_insert_is_Some'. tauto.
    + replace (<[p := (bp, sp)]> (<[bp := (c, s + sq)]> (u_heap st))) with (<[bp := (c, s + sq)]> (<[p := (bp, sp)]> (<[bp := (q, s)]> (u_heap st)))).
      2:{ rewrite (insert_insert_ne _ p bp) by done. rewrite insert_insert_eq. by apply insert_insert_ne. }
      eapply (heap_merge _ _ _ bp s q sq c Hl); cbn [u_heap u_freep]; unfold HSZ; [apply lookup_insert_eq|by rewrite lookup_insert_ne|done|by rewrite !lookup_insert_ne|done].
  - eapply wp_set_ptr; [done|]. cbn [snd]. exists q, s, (<[bp := s]> F). split_and!; [done|lia|apply lookup_insert_eq|done|done|exact Hl].
Qed.

Lemma free_left st F U bp s c p q sp :
  heap_ok (mkU (<[p := (bp, sp)]> (u_heap st)) p (u_brk st)) F U -> u_heap st !! bp = Some (c, s) -> u_heap st !! p = Some (q, sp) ->
  F !! bp = Some s -> nodes F !! p = Some sp -> p < bp ->
  wp (if u32 (p + HSZ * sp) =? bp then
        b <- hget bp;;
        set_hsize p (u32 (sp + b.2));;
        set_ptr p b.1
      else set_ptr p bp) noerr (fun _ st' => exists F' x, st' = with_heap (<[p := x]> (u_heap st)) st /\
        heap_ok (mkU (u_heap st') p (u_brk st)) F' U /\ (size (nodes F') <= size (nodes F))%nat /\
        exists d t, F' !! d = Some t /\ d <= bp /\ bp + HSZ * s <= d + HSZ * t) st.
Proof.
  intros H Hb Hp HF HN Hlt. pose proof (h_lay _ _ _ H) as Hlay. pose proof (h_blk _ _ _ H bp s (or_introl HF)) as Hbb. unfold HSZ in *. cbn [u_brk] in *.
  assert (Hsp : 0 < p /\ p + 8 * sp <= bp).
  { apply node_cases in HN as [[-> ->]|HN]; [lia|]. pose proof (h_dis _ _ _ H p sp bp s (or_introl HN) (or_introl HF) Hlt).
    pose proof (h_blk _ _ _ H p sp (or_introl HN)). unfold HSZ in *. cbn [u_brk] in *. lia. }
  assert (Hsp0 : 0 <= sp). { apply node_cases in HN as [[_ ->]|HN]; [lia|]. pose proof (h_blk _ _ _ H p sp (or_introl HN)). lia. }
  rewrite u32_small by lia. destruct (Z.eqb_spec (p + 8 * sp) bp) as [Hadj|Hadj].
  - assert (HpF : F !! p = Some sp). { apply node_cases in HN as [[-> ->]|?]; [lia|done]. }
    apply wp_bind. eapply wp_hget; [done|]. apply wp_bind. eapply wp_set_hsize; [done|]. cbn [fst snd]. eapply wp_set_ptr; [apply lookup_insert_eq|].
    cbn [snd u_heap with_heap u_freep u_brk]. rewrite insert_insert_eq, u32_small by lia.
    exists (<[p := sp + s]> (delete bp F)), (c, sp + s). split_and!; [done| | |].
    + pose proof (heap_merge _ F U p sp bp s c H HpF HF Hadj) as Hm. cbn [with_heap u_heap u_freep u_brk] in Hm. rewrite insert_insert_eq in Hm. apply Hm; [|lia].
      by rewrite lookup_insert_ne by lia.
    + rewrite <- !size_dom. apply subseteq_size. intros d. unfold nodes. rewrite !elem_of_dom, !lookup_insert_is_Some', lookup_delete_is_Some.
      intros [?|[<-|?]]; [tauto|right; by eexists|tauto].
    + exists p, (sp + s). split_and!; [apply lookup_insert_eq|lia|lia].
  - eapply wp_set_ptr; [done|]. cbn [snd]. exists F, (bp, sp). split_and!; [done|done|done|]. exists bp, s. split_and!; [done|lia|lia].
Qed.

Lemma used_apart st F U a s c d t : heap_ok st F U -> U !! a = Some s -> a <= c < a + HSZ * s -> blk F U d t -> d <> a -> d <> c.
Proof.
  intros H Ha Hc Hd Hne ->. destruct (decide (a < c)); [|lia]. pose proof (h_dis _ _ _ H a s c t (or_intror Ha) Hd ltac:(lia)). lia.
Qed.
Lemma used_node st F U a s c p sp : heap_ok st F U -> U !! a = Some s -> a <= c < a + HSZ * s -> nodes F !! p = Some sp -> p <> c.
Proof.
  intros H Ha Hc [[-> _]|Hp]%node_cases.
  - pose proof (h_blk _ _ _ H a s (or_intror Ha)). pose proof (h_lay _ _ _ H). unfold HSZ in *. lia.
  - eapply used_apart; [done..|by left|]. intros ->. rewrite (h_apart _ _ _ H a ltac:(by eexists)) in Ha. done.
Qed.

(** What free leaves: the block is part of a free block, and the other
    blocks of the program are as they were. *)
Definition freed st U bp s (m : nat) st' : Prop := exists F',
  heap_ok st' F' U /\ u_brk st' = u_brk st /\ same_used U st st' /\ (size (nodes F') <= S m)%nat /\
  exists d t, F' !! d = Some t /\ d <= bp /\ bp + HSZ * s <= d + HSZ * t.
Lemma free_ok st F U bp s : heap_ok st F (<[bp := s]> U) -> U !! bp = None ->
  wp (free (u32 (bp + HSZ))) noerr (fun _ st' => freed st U bp s (size (nodes F)) st') st.
Proof.
  intros H Hu. pose proof (h_lay _ _ _ H) as Hlay. assert (HbU : <[bp := s]> U !! bp = Some s) by apply lookup_insert_eq.
  pose proof (h_blk _ _ _ H bp s (or_intror HbU)) as Hbb. destruct (h_used _ _ _ H bp s HbU) as [v Hv]. unfold HSZ in *.
  unfold free. assert (Hap : u32 (u32 (bp + 8) - HSZ) = bp) by (unfold HSZ; rewrite u32_u32_sub, u32_small by lia; lia). rewrite Hap. cbv zeta.
  apply wp_bind, wp_gets. apply wp_bind, wp_gets. eapply wp_seq; [eapply free_walk; [exact H|exact Hu]|].
  intros p st0 (->&q&sp&Hp&Hpq&Hbf). pose proof Hbf as (_&Hpb&_). apply wp_bind. eapply wp_hget; [exact Hpq|]. apply wp_bind. eapply wp_hget; [exact Hv|].
  cbn [fst snd]. eapply wp_seq; [eapply free_right; [exact H|exact Hu|exact Hv|exact Hp|exact Hpq|exact Hbf]|].
  intros [] st1 (c&s'&F1&->&Hs&HF1&Hp1&Hsz1&H1). eapply wp_seq.
  { eapply (free_left _ F1 U bp s' c p q sp); cbn [with_heap u_heap u_brk u_freep]; [exact H1|apply lookup_insert_eq|by rewrite lookup_insert_ne by lia|done|done|done]. }
  intros [] st2 (F2&x&->&H2&Hsz2&d&t&Hd&Hdl&Hdr). apply wp_modify. exists F2. cbn [with_heap u_heap u_brk u_freep] in *. split_and!; [exact H2|done| |lia|].
  - intros a u e Ha He. cbn [u_heap]. assert (Hab : a <> bp) by congruence. assert (Ha' : <[bp := s]> U !! a = Some u) by (by rewrite lookup_insert_ne).
    rewrite lookup_insert_ne by (eapply used_node; [exact H|exact Ha'|exact He|exact Hp]).
    rewrite lookup_insert_ne; [done|]. eapply used_apart; [exact H|exact Ha'|exact He|right; exact HbU|done].
  - exists d, t. unfold HSZ in *. split_and!; [done|done|lia].
Qed.

(** ** malloc *)
Variable grant : Z -> Z -> bool.

Lemma brk_aligned st F U : heap_ok st F U -> (u_brk st - lo) mod HSZ = 0.
Proof.
  intros H. pose proof (h_lay _ _ _ H) as Hlay. unfold HSZ. destruct (decide (u_brk st = lo)) as [->|Hne]; [by rewrite Z.sub_diag|].
  destruct (h_cov _ _ _ H (u_brk st - 1) ltac:(lia)) as (b&s&Hb&Hin). destruct (h_blk _ _ _ H b s Hb) as (_&Hm&_&He). unfold HSZ in *.
  replace (u_brk st - lo) with (b - lo + s * 8) by lia. by rewrite Z.mod_add by lia.
Qed.
Lemma used_out st F U a s c d t : heap_ok st F U -> U !! a = Some s -> a <= c < a + HSZ * s -> blk F U d t -> d <> a -> ~ (d <= c < d + HSZ * t).
Proof.
  intros H Ha Hc Hd Hne Hr. destruct (decide (a < d)).
  - pose proof (h_dis _ _ _ H a s d t (or_intror Ha) Hd ltac:(lia)). lia.
  - pose proof (h_dis _ _ _ H d t a s Hd (or_intror Ha) ltac:(lia)). lia.
Qed.

Lemma morecore_ok st F U n : heap_ok st F U -> 0 < n -> HSZ * n < 2 ^ 31 ->
  wp (morecore grant n) noerr (fun r st' => r = 0 /\ st' = st \/
    r = u_freep st' /\ r <> 0 /\ exists F', heap_ok st' F' U /\ same_used U st st' /\ (size (nodes F') <= S (size (nodes F)))%nat /\
      exists d t, F' !! d = Some t /\ n <= t) st.
Proof.
  intros H Hn Hsz. pose proof (h_lay _ _ _ H) as Hlay. unfold morecore. cbv zeta. set (nu := if n <? 4096 then 4096 else n).
  assert (Hnu : n <= nu /\ 0 < HSZ * nu < 2 ^ 31) by (unfold nu, HSZ in *; destruct (Z.ltb_spec n 4096); lia). clearbody nu.
  assert (Hnz : nu * HSZ / HSZ = nu) by (apply Z.div_mul; unfold HSZ; lia).
  rewrite s32_small by lia. apply wp_bind. unfold wp at 1, sbrk. rewrite (proj2 (Z.ltb_lt 0 (nu * HSZ))) by lia. cbn [andb].
  destruct ((u_brk st + nu * HSZ <? KERNBASE) && grant (u_brk st) (nu * HSZ)) eqn:Hg; [|apply wp_ret; by left].
  apply andb_true_iff in Hg as [Hk%Z.ltb_lt _]. unfold KERNBASE in Hk. rewrite Hnz.
  destruct (heap_grow st F U nu H ltac:(lia) ltac:(lia) (brk_aligned _ _ _ H)) as (Hgok&HU&_&Hsame). cbv zeta in *.
  apply wp_bind. eapply wp_set_hsize.
  { cbn [u_heap]. rewrite new_units_lookup, decide_True; [done|]. rewrite Z.sub_diag. split; [lia|done]. }
  cbn [fst with_heap u_heap u_freep u_brk]. rewrite (Z.mul_comm nu HSZ).
  eapply wp_seq; [eapply free_ok; [exact Hgok|exact HU]|]. intros [] st' (F'&H'&Hb'&Hs'&Hsz'&d&t&Hd&Hdl&Hdr). apply wp_gets. right.
  split; [done|]. split.
  { intros Hz. pose proof (h_freep _ _ _ H') as Hf. rewrite Hz in Hf. pose proof (nodes_ge _ _ _ H' 0 Hf). lia. }
  exists F'. split_and!; [done| |done|].
  - intros a s c Ha Hc. rewrite (Hs' a s c Ha Hc). by apply (Hsame a s c).
  - exists d, t. unfold HSZ in *. split; [done|lia].
Qed.

(** What malloc gives: a block of [n] units the program did not have, or
    nothing; the blocks of the program are as they were. *)
Definition malloced st U n (r : option Z) st' : Prop := same_used U st st' /\
  match r with
  | None => exists F', heap_ok st' F' U
  | Some ap => exists F' q, ap = q + HSZ /\ U !! q = None /\ heap_ok st' F' (<[q := n]> U)
  end.

(** The walk is at a block that is large enough. *)
Lemma find_hit st F U n prev p :
  heap_ok st F U -> 0 < n -> is_Some (nodes F !! prev) -> isnext (nodes F) prev p -> forall s c, nodes F !! p = Some s -> u_heap st !! p = Some (c, s) -> n <= s ->
  wp (find_block grant n (prev, p)) noerr (fun r st' => exists ap, r = inr (Some ap) /\ malloced st U n (Some ap) st') st.
Proof.
  intros H Hn [sp Hprev] Hnx s c Hp Hc Hs. pose proof (h_lay _ _ _ H) as Hlay.
  assert (HF : F !! p = Some s) by (apply node_cases in Hp as [[-> ->]|?]; [lia|done]).
  destruct (h_blk _ _ _ H p s (or_introl HF)) as (Hlo&Hal&_&Hend). unfold HSZ in Hlay, Hend, Hal.
  destruct (h_node _ _ _ H prev sp Hprev) as (c'&Hpc&Hn'). assert (c' = p) as ->.
  { eapply isnext_fun; [by eapply nodes_ge|by rewrite nodes_base|done|done]. }
  assert (Hpp : prev <> p). { intros ->. destruct Hnx as [_ [[? _]|[Hx _]]]; [lia|]. eapply nodes_F; [exact H| |exact Hx]. by rewrite HF. }
  assert (Hp0 : heap_ok (mkU (u_heap st) prev (u_brk st)) F U) by (eapply heap_freep; [done|by eexists]).
  unfold find_block. apply wp_bind. eapply wp_hget; [done|]. cbn [fst snd]. rewrite (proj2 (Z.leb_le _ _)) by done.
  destruct (Z.eqb_spec s n) as [->|Hsn].
  - apply wp_bind. apply wp_bind. eapply wp_set_ptr; [exact Hpc|]. apply wp_ret. apply wp_bind, wp_modify, wp_ret. eexists. split; [done|].
    cbn [snd with_heap u_heap u_freep u_brk]. destruct (heap_take _ F U p n c prev sp Hp0 HF Hc Hprev Hnx ltac:(done)) as [Ht _]. split.
    + intros a t e Ha He. cbn [u_heap]. rewrite lookup_insert_ne; [done|]. eapply used_node; [exact H|exact Ha|exact He|exact Hprev].
    + exists (delete p F), p. split_and!; [unfold HSZ; rewrite u32_small by lia; done|apply (h_apart _ _ _ H); by eexists|exact Ht].
  - cbv zeta. set (sz := u32 (s - n)). assert (Hsz : sz = s - n) by (apply u32_small; lia). assert (Hqe : u32 (p + HSZ * sz) = p + 8 * (s - n)) by (rewrite Hsz; unfold HSZ; apply u32_small; lia).
    rewrite Hqe, Hsz. clear Hqe Hsz sz.
    set (q := p + 8 * (s - n)). assert (Hq : is_Some (u_heap st !! q)).
    { apply (h_dom _ _ _ H); [unfold q; lia|]. unfold q, HSZ. replace (p + 8 * (s - n) - lo) with (p - lo + (s - n) * 8) by lia. by rewrite Z.mod_add by lia. }
    destruct Hq as [[v w] Hq]. apply wp_bind. apply wp_bind. eapply wp_set_hsize; [exact Hc|]. apply wp_bind. eapply wp_set_hsize.
    { cbn [with_heap u_heap]. rewrite lookup_insert_ne by (unfold q; lia). exact Hq. }
    apply wp_ret. apply wp_bind, wp_modify, wp_ret. eexists. split; [done|]. cbn [fst with_heap u_heap u_freep u_brk].
    destruct (heap_split _ F U p s c n v Hp0 HF Hc ltac:(lia)) as (Ht&HU&_). cbn [with_heap u_heap u_freep u_brk] in Ht. unfold HSZ in Ht, HU. fold q in Ht, HU. split.
    + intros a t e Ha He. cbn [u_heap]. assert (Hpa : p <> a). { intros ->. rewrite (h_apart _ _ _ H a ltac:(by eexists)) in Ha. done. }
      pose proof (used_out _ _ _ _ _ _ p s H Ha He (or_introl HF) Hpa) as Hout. unfold HSZ in Hout. rewrite !lookup_insert_ne; [done|..]; unfold q in *; lia.
    + exists (<[p := s - n]> F), q. split_and!; [unfold HSZ; rewrite u32_small by (unfold q; lia); done|done|exact Ht].
Qed.

Lemma same_used_trans U st st1 st2 : same_used U st st1 -> same_used U st1 st2 -> same_used U st st2.
Proof. intros H1 H2 a s c Ha Hc. rewrite (H2 a s c Ha Hc). by apply (H1 a s c). Qed.

(** When some block is large enough it is found on this round. *)
Lemma find_present n fuel st F U prev p g t :
  heap_ok st F U -> 0 < n -> is_Some (nodes F !! prev) -> isnext (nodes F) prev p -> F !! g = Some t -> n <= t ->
  (dist (nodes F) p g <= dist (nodes F) p (u_freep st))%nat -> (dist (nodes F) p g < fuel)%nat ->
  wp (while fuel (find_block grant n) (prev, p)) noerr (malloced st U n) st.
Proof.
  intros H Hn. revert prev p. induction fuel as [|fuel IH]; intros prev p Hprev Hnx Hg Ht Hle Hfuel; [lia|]. cbn [while].
  pose proof Hnx as [[s Hp] _]. destruct (h_node _ _ _ H p s Hp) as (c&Hc&Hnc). destruct (decide (n <= s)) as [Hs|Hs].
  - eapply wp_seq; [by eapply find_hit|]. intros r st' (ap&->&Hm). by apply wp_ret.
  - assert (Hgn : nodes F !! g = Some t) by (by eapply node_free). assert (Hpg : p <> g). { intros ->. rewrite Hp in Hgn. injection Hgn as ->. lia. }
    assert (Hpf : p <> u_freep st).
    { intros ->. assert (Hd : dist (nodes F) (u_freep st) (u_freep st) = O).
      { apply size_empty_iff. unfold ahead. intros e. rewrite elem_of_filter. split; [lia|by intros ?%elem_of_empty]. }
      rewrite Hd in Hle. apply Hpg. apply (dist_0 (nodes F)); [by eexists|lia]. }
    apply wp_bind. unfold find_block. apply wp_bind. eapply wp_hget; [done|]. cbn [fst snd]. rewrite (proj2 (Z.leb_gt _ _)) by lia.
    apply wp_bind, wp_gets. rewrite (proj2 (Z.eqb_neq _ _)) by done. apply wp_ret. pose proof (nodes_ge _ _ _ H) as Hge.
    pose proof (dist_next _ p c g Hge ltac:(by eexists) Hpg Hnc). pose proof (dist_next _ p c (u_freep st) Hge (h_freep _ _ _ H) Hpf Hnc).
    apply IH; [by eexists|done|done|done|lia|lia].
Qed.
Lemma find_loop n fuel st F U prev p :
  heap_ok st F U -> 0 < n -> HSZ * n < 2 ^ 31 -> is_Some (nodes F !! prev) -> isnext (nodes F) prev p ->
  (dist (nodes F) p (u_freep st) + size (nodes F) + 3 <= fuel)%nat ->
  wp (while fuel (find_block grant n) (prev, p)) noerr (malloced st U n) st.
Proof.
  intros H Hn Hn8. revert prev p. induction fuel as [|fuel IH]; intros prev p Hprev Hnx Hfuel; [lia|]. cbn [while].
  pose proof Hnx as [[s Hp] _]. destruct (h_node _ _ _ H p s Hp) as (c&Hc&Hnc). destruct (decide (n <= s)) as [Hs|Hs].
  { eapply wp_seq; [by eapply find_hit|]. intros r st' (ap&->&Hm). by apply wp_ret. }
  apply wp_bind. unfold find_block. apply wp_bind. eapply wp_hget; [done|]. cbn [fst snd]. rewrite (proj2 (Z.leb_gt _ _)) by lia.
  apply wp_bind, wp_gets. destruct (Z.eqb_spec p (u_freep st)) as [->|Hpf].
  - eapply wp_seq; [by eapply morecore_ok|]. intros r st1 [[-> ->]|(->&Hr&F1&H1&Hs1&Hsz&g&t&Hg&Ht)].
    + rewrite Z.eqb_refl. apply wp_ret, wp_ret. split; [done|]. by exists F.
    + rewrite (proj2 (Z.eqb_neq _ _)) by done. pose proof (h_freep _ _ _ H1) as [sf Hf]. destruct (h_node _ _ _ H1 _ _ Hf) as (c1&Hc1&Hn1).
      apply wp_bind. eapply wp_hget; [done|]. apply wp_ret. cbn [fst].
      eapply wp_post; [eapply (find_present n fuel st1 F1 U _ c1 g t H1 Hn); [by eexists|done|done|done| |]|].
      * apply dist_round; [by eapply nodes_ge|done].
      * pose proof (dist_bound (nodes F1) c1 g). lia.
      * intros r st' [Hs' Hm]. split; [by eapply same_used_trans|done].
  - apply wp_ret. pose proof (dist_next _ p c (u_freep st) (nodes_ge _ _ _ H) (h_freep _ _ _ H) Hpf Hnc). apply IH; [by eexists|done|lia].
Qed.

(** ** Programs that use the allocator *)
Record fresh st : Prop := {
  fr_freep : u_freep st = 0;
  fr_brk : u_brk st = lo;
  fr_lay : 0 < base /\ base + HSZ <= lo < 2 ^ 31;
  fr_base : is_Some (u_heap st !! base) }.
Definition alloc_ok st U : Prop := (fresh st /\ U = ∅) \/ exists F, heap_ok st F U.
(** The program has blocks that lie in its heap and do not overlap. *)
Definition blocks_ok st U : Prop :=
  (forall q s, U !! q = Some s -> lo <= q /\ 0 < s /\ q + HSZ * s <= u_brk st) /\
  (forall q s r t, U !! q = Some s -> U !! r = Some t -> q < r -> q + HSZ * s <= r).
Definition units nbytes : Z := (nbytes + 7) / 8 + 1.

Lemma alloc_blocks st U : alloc_ok st U -> blocks_ok st U.
Proof.
  intros [[_ ->]|[F H]]; [by split|]. split.
  - intros q s Hq. pose proof (h_blk _ _ _ H q s (or_intror Hq)). tauto.
  - intros q s r t Hq Hr. exact (h_dis _ _ _ H q s r t (or_intror Hq) (or_intror Hr)).
Qed.
Lemma init_ok st : fresh st -> heap_ok (mkU (<[base := (base, 0)]> (u_heap st)) base (u_brk st)) ∅ ∅.
Proof.
  intros [Hf Hb Hl Hx]. assert (HN : nodes ∅ = {[base := 0]}) by done. split; cbn [u_heap u_freep u_brk]; rewrite ?HN.
  - lia.
  - by rewrite lookup_singleton_eq.
  - intros a s [<- <-]%lookup_singleton_Some. exists base. rewrite lookup_insert_eq. split; [done|]. split; [by rewrite lookup_singleton_eq|]. right. split; [done|].
    intros c [t [<- _]%lookup_singleton_Some]. lia.
  - done.
  - intros a Ha. lia.
  - by intros a s [?|?].
  - by intros a [? ?].
  - by intros a s b t [?|?].
  - intros a Ha. lia.
Qed.
Lemma malloc_ok st U nbytes : alloc_ok st U -> 0 <= nbytes -> nbytes + 16 <= 2 ^ 31 ->
  wp (malloc base grant nbytes) noerr (fun r st' => same_used U st st' /\
    (r = 0 /\ alloc_ok st' U \/ exists q, r = q + HSZ /\ 0 < q /\ U !! q = None /\ alloc_ok st' (<[q := units nbytes]> U))) st.
Proof.
  intros Hok Hn Hmax. unfold malloc. cbv zeta. assert (Hu : u32 (nbytes + HSZ - 1) / HSZ + 1 = units nbytes).
  { unfold units, HSZ. rewrite u32_small by lia. f_equal. f_equal. lia. }
  rewrite Hu. pose proof (Z.div_mod (nbytes + 7) 8 ltac:(lia)) as Hdm. pose proof (Z.mod_pos_bound (nbytes + 7) 8 ltac:(lia)).
  assert (Hun : 0 < units nbytes /\ HSZ * units nbytes < 2 ^ 31) by (unfold units, HSZ; lia).
  apply wp_bind, wp_gets. eapply (wp_seq _ _ _ (fun _ st1 => exists F, heap_ok st1 F U /\ same_used U st st1)).
  { destruct Hok as [[Hfr ->]|[F HF]].
    - rewrite (fr_freep _ Hfr). cbn. pose proof (fr_base _ Hfr) as [x Hx]. apply wp_bind. unfold wp at 1, hset. rewrite Hx. apply wp_modify.
      exists ∅. split; [exact (init_ok st Hfr)|done].
    - pose proof (h_freep _ _ _ HF) as Hf. pose proof (nodes_ge _ _ _ HF _ Hf). pose proof (h_lay _ _ _ HF). rewrite (proj2 (Z.eqb_neq _ 0)) by lia.
      apply wp_ret. by exists F. }
  intros [] st1 (F&H1&Hs1). pose proof (h_freep _ _ _ H1) as [sf Hf]. destruct (h_node _ _ _ H1 _ _ Hf) as (p&Hp&Hnx). pose proof (h_lay _ _ _ H1) as Hlay.
  apply wp_bind, wp_gets. apply wp_bind. eapply wp_hget; [done|]. apply wp_bind, wp_gets. cbn [fst].
  eapply wp_seq; [eapply (find_loop (units nbytes) _ st1 F U); [done|lia|lia|by eexists|done|]|].
  { pose proof (dist_bound (nodes F) p (u_freep st1)). pose proof (nodes_size _ _ _ H1). unfold walk_fuel. lia. }
  intros r st2 [Hs2 Hm]. apply wp_ret. split; [by eapply same_used_trans|]. destruct r as [ap|]; cbn [default].
  - destruct Hm as (F'&q&->&HU&H2). right. exists q. split_and!; [done| |done|by right; exists F'].
    pose proof (h_blk _ _ _ H2 q (units nbytes) ltac:(right; apply lookup_insert_eq)). unfold HSZ in *. lia.
  - left. split; [done|]. right. exact Hm.
Qed.
Lemma free_block_ok st U q s : alloc_ok st U -> U !! q = Some s ->
  wp (free (u32 (q + HSZ))) noerr (fun _ st' => alloc_ok st' (delete q U) /\ same_used (delete q U) st st') st.
Proof.
  intros [[_ ->]|[F H]] Hq; [done|]. eapply wp_post; [eapply (free_ok st F (delete q U) q s)|].
  - by rewrite insert_delete_id.
  - apply lookup_delete_eq.
  - intros [] st' (F'&H'&_&Hs&_). split; [|done]. right. by exists F'.
Qed.
(** The program writes into a block it has. *)
Lemma heap_write st U q s c x : alloc_ok st U -> U !! q = Some s -> q < c < q + HSZ * s -> alloc_ok (with_heap (<[c := x]> (u_heap st)) st) U.
Proof.
  intros [[_ ->]|[F H]] Hq Hc; [done|]. right. exists F.
  assert (Hnb : forall d t, blk F U d t -> d <> c).
  { intros d t Hd ->. pose proof (h_dis _ _ _ H q s c t (or_intror Hq) Hd ltac:(lia)). lia. }
  destruct H as [H1 H2 H3 H4 H5 H6 H7 H8 H9]. split; cbn [with_heap u_heap u_freep u_brk]; try done.
  - intros a t Ha. rewrite lookup_insert_ne; [by apply H3|]. intros <-. apply node_cases in Ha as [[-> _]|Ha]; [|by eapply Hnb; [left|]].
    pose proof (H6 q s (or_intror Hq)). unfold HSZ in *. lia.
  - intros a t Ha. rewrite lookup_insert_ne; [by apply H4|]. intros <-. by eapply Hnb; [right|].
  - intros a Ha Hm. apply lookup_insert_is_Some'. right. by apply H5.
Qed.

(** A program calls malloc and free, and writes into its blocks. *)
Inductive ustep : ust * gmap Z Z -> ust * gmap Z Z -> Prop :=
  | UMalloc st U nbytes q st' : 0 <= nbytes -> nbytes + 16 <= 2 ^ 31 -> malloc base grant nbytes st = Ok (q + HSZ) st' -> 0 < q ->
      ustep (st, U) (st', <[q := units nbytes]> U)
  | UNone st U nbytes st' : 0 <= nbytes -> nbytes + 16 <= 2 ^ 31 -> malloc base grant nbytes st = Ok 0 st' -> ustep (st, U) (st', U)
  | UFree st U q s st' : U !! q = Some s -> free (u32 (q + HSZ)) st = Ok tt st' -> ustep (st, U) (st', delete q U)
  | UWrite st U q s c x : U !! q = Some s -> q < c < q + HSZ * s -> ustep (st, U) (with_heap (<[c := x]> (u_heap st)) st, U).
Lemma ustep_ok y z : ustep y z -> alloc_ok y.1 y.2 -> alloc_ok z.1 z.2.
Proof.
  intros [st U nb q st' H0 H1 Hm Hq|st U nb st' H0 H1 Hm|st U q s st' Hq Hf|st U q s c x Hq Hc] Hok; cbn [fst snd] in *.
  - pose proof (malloc_ok st U nb Hok H0 H1) as Hw. unfold wp in Hw. rewrite Hm in Hw. destruct Hw as [_ [[Hz _]|(q'&He&_&_&Hw)]]; [unfold HSZ in *; lia|].
    by assert (q' = q) as -> by lia.
  - pose proof (malloc_ok st U nb Hok H0 H1) as Hw. unfold wp in Hw. rewrite Hm in Hw. destruct Hw as [_ [[_ Hw]|(q'&He&?&_)]]; [done|unfold HSZ in *; lia].
  - pose proof (free_block_ok st U q s Hok Hq) as Hw. unfold wp in Hw. rewrite Hf in Hw. apply Hw.
  - by eapply heap_write.
Qed.
Lemma usteps_ok y z : rtc ustep y z -> alloc_ok y.1 y.2 -> alloc_ok z.1 z.2.
Proof. induction 1; [done|]. eauto using ustep_ok. Qed.
End heap.

(** C18. malloc and free.  In every state a program reaches that starts without a
    heap, calls malloc (for less than 2 GB) and free on blocks it has, and
    writes what it likes into them: the blocks it has lie in its heap and do
    not overlap; malloc returns, 0 or the address of a new block with room
    for nbytes that overlaps none of the others; free returns; and neither
    changes the contents of another block.  So both loops around the free
    list end, whatever memory the kernel grants. *)
Theorem malloc_free_correct base lo grant st0 st U :
  fresh base lo st0 -> rtc (ustep base grant) (st0, ∅) (st, U) ->
  blocks_ok lo st U /\
  (forall nbytes, 0 <= nbytes -> nbytes + 16 <= 2 ^ 31 ->
    wp (malloc base grant nbytes) noerr (fun r st' => same_used U st st' /\
      (r = 0 \/ exists q, r = q + HSZ /\ U !! q = None /\ nbytes <= HSZ * (units nbytes - 1) /\ blocks_ok lo st' (<[q := units nbytes]> U))) st) /\
  (forall q s, U !! q = Some s -> wp (free (u32 (q + HSZ))) noerr (fun _ st' => same_used (delete q U) st st' /\ blocks_ok lo st' (delete q U)) st).
Proof.
  intros Hfr Hr. assert (Hok : alloc_ok base lo st U) by (apply (usteps_ok base lo grant _ _ Hr); left; by split). split_and!.
  - by eapply alloc_blocks.
  - intros nb H0 H1. eapply wp_post; [by apply malloc_ok|]. intros r st' [Hs [[-> _]|(q&->&_&HU&Ho)]]; (split; [done|]); [by left|right].
    exists q. split_and!; [done|done| |by eapply alloc_blocks]. unfold units, HSZ. pose proof (Z.div_mod (nb + 7) 8 ltac:(lia)). pose proof (Z.mod_pos_bound (nb + 7) 8 ltac:(lia)). lia.
  - intros q s Hq. eapply wp_post; [by eapply free_block_ok|]. intros [] st' [Ho Hs]. split; [done|by eapply alloc_blocks].
Qed.

(** A program that has one block of 100 bytes. *)
Definition d_ustart : ust := mkU {[ 4096 := (0, 0) ]} 0 8192.
Definition d_grant : Z -> Z -> bool := fun _ _ => true.
Definition d_malloc (n : Z) (st : ust) : Z * ust := match malloc 4096 d_grant n st with Ok r st' => (r, st') | Fail _ => (-1, st) end.
Definition d_one : ust := (d_malloc 100 d_ustart).2.
Lemma d_one_run : malloc 4096 d_grant 100 d_ustart = Ok (40848 + HSZ) d_one.
Proof.
  unfold d_one, d_malloc. assert (H : match malloc 4096 d_grant 100 d_ustart with Ok r _ => r =? 40856 | Fail _ => false end = true) by by vm_compute.
  destruct (malloc _ _ _ _) as [r st'|]; [|done]. by apply Z.eqb_eq in H as ->.
Qed.
Lemma malloc_free_correct_witness :
  let U := {[40848 := 14]} : gmap Z Z in
  wp (free (u32 (40848 + HSZ))) noerr (fun _ st' => same_used (delete 40848 U) d_one st' /\ blocks_ok 8192 st' (delete 40848 U)) d_one.
Proof.
  intros U. assert (Hfr : fresh 4096 8192 d_ustart) by (split; [done|done|unfold HSZ; lia|by exists (0, 0)]).
  refine (proj2 (proj2 (malloc_free_correct 4096 8192 d_grant d_ustart d_one U Hfr _)) 40848 14 (lookup_singleton_eq 40848 14)).
  apply rtc_once. refine (UMalloc 4096 d_grant d_ustart ∅ 100 40848 d_one _ _ d_one_run _); lia.
Defined.
