(* ===== verification/Ulib.v ===== *)
(** ulib.c and printf.c: the library of the user programs.

    A C string is the list of its characters before the terminator, an array
    that is written to is a list of its bytes, and None is a store or a load
    outside the array.  Integers wrap as the machine's do. *)
From S2P Require Import Prelude Params Str.

(** The characters of a string constant, and the newline. *)
Definition chars (s : string) : list Z := map (fun a => Z.of_N (Ascii.N_of_ascii a)) (String.list_ascii_of_string s).
Definition NL : Z := 10.

(** ** ulib.c *)
Fixpoint ustrcpy (s t : list Z) : option (list Z) :=
  match s with
  | [] => None
  | _ :: s => match t with [] => Some (0 :: s) | c :: t => cons c <$> ustrcpy s t end
  end.
(** The terminator of the first copy is overwritten by the second one. *)
Fixpoint ustrcat (dst s1 s2 : list Z) : option (list Z) :=
  match dst with
  | [] => None
  | _ :: dst' => match s1 with [] => ustrcpy dst s2 | c :: s1 => cons c <$> ustrcat dst' s1 s2 end
  end.
Fixpoint substring_loop (n : nat) (dst src : list Z) (i : Z) : option (list Z) :=
  match dst with
  | [] => None
  | _ :: dst =>
      match n with
      | O => Some (0 :: dst)
      | S n => if inb src i then cons (src !!! Z.to_nat i) <$> substring_loop n dst src (i + 1) else None
      end
  end.
Definition substring (dst src : list Z) (start end_ : Z) : option (list Z) :=
  substring_loop (Z.to_nat (end_ - start)) dst src start.
Fixpoint ustrcmp (p q : list Z) : Z :=
  match p, q with
  | c :: p', d :: q' => if c =? d then ustrcmp p' q' else u8 c - u8 d
  | _, _ => u8 (chr p) - u8 (chr q)
  end.
Fixpoint ustrlen (s : list Z) : Z := match s with [] => 0 | _ :: s => 1 + ustrlen s end.
(** The rest of the string from the character on. *)
Fixpoint strchr (s : list Z) (c : Z) : option (list Z) :=
  match s with [] => None | x :: s' => if x =? c then Some s else strchr s' c end.
(** [input]: the bytes that read(0, &c, 1) will return, one after another,
    before it returns 0; the buffer and what is left. *)
Fixpoint gets_loop (n : nat) (input : list Z) : list Z * list Z :=
  match n with
  | O => ([], input)
  | S n =>
      match input with
      | [] => ([], [])
      | c :: input =>
          if (c =? 10) || (c =? 13) then ([c], input) else
          let '(l, input) := gets_loop n input in (c :: l, input)
      end
  end.
Definition gets_str (buf : list Z) (max : Z) (input : list Z) : option (list Z * list Z) :=
  let '(l, rest) := gets_loop (Z.to_nat (max - 1)) input in
  if (length buf <? length l + 1)%nat then None else Some (l ++ [0] ++ drop (length l + 1) buf, rest).
Definition isdigit (c : Z) : bool := (48 <=? c) && (c <=? 57).
Fixpoint atoi_loop (n : Z) (s : list Z) : Z :=
  match s with
  | [] => n
  | c :: s => if isdigit c then atoi_loop (s32 (n * 10 + c - 48)) s else n
  end.
Definition atoi (s : list Z) : Z :=
  match s with
  | c :: s' => if c =? 45 then s32 (atoi_loop 0 s' * -1) else s32 (atoi_loop 0 s * 1)
  | [] => 0
  end.
Fixpoint umemmove (n : nat) (dst src : list Z) : option (list Z) :=
  match n with
  | O => Some dst
  | S n => match dst, src with _ :: dst, c :: src => cons c <$> umemmove n dst src | _, _ => None end
  end.

(** ** printf.c *)
Definition udigits : list Z := [48; 49; 50; 51; 52; 53; 54; 55; 56; 57; 65; 66; 67; 68; 69; 70].
Fixpoint udigits_of (fuel : nat) (x base : Z) : list Z :=
  match fuel with
  | O => []
  | S f => udigits !!! Z.to_nat (x mod base) :: (if x / base =? 0 then [] else udigits_of f (x / base) base)
  end.
(** The characters in the order they go to putc. *)
Definition uprintint (xx base : Z) (sgn : bool) : list Z :=
  let neg := sgn && (s32 xx <? 0) in
  let x := if neg then u32 (- xx) else u32 xx in
  rev (udigits_of 32 x base ++ (if neg then [45] else [])).
Inductive uarg := UInt (z : Z) | UStr (s : option (list Z)).
Definition unull : list Z := [40; 110; 117; 108; 108; 41].
(** What printf writes; a conversion without its argument is None. *)
Fixpoint uprintf (fmt : list Z) (pct : bool) (ap : list uarg) : option (list Z) :=
  match fmt with
  | [] => Some []
  | c :: fmt =>
      let c := Z.land c 0xff in
      if negb pct then
        if c =? 37 then uprintf fmt true ap else cons c <$> uprintf fmt false ap
      else if c =? 100 then
        match ap with UInt z :: ap => app (uprintint z 10 true) <$> uprintf fmt false ap | _ => None end
      else if (c =? 120) || (c =? 112) then
        match ap with UInt z :: ap => app (uprintint z 16 false) <$> uprintf fmt false ap | _ => None end
      else if c =? 115 then
        match ap with UStr s :: ap => app (default unull s) <$> uprintf fmt false ap | _ => None end
      else if c =? 99 then
        match ap with UInt z :: ap => cons (u8 z) <$> uprintf fmt false ap | _ => None end
      else if c =? 37 then cons c <$> uprintf fmt false ap
      else app [37; c] <$> uprintf fmt false ap
  end.

(** ** Numbers *)
Section numbers.
Lemma s32_mod a : exists k, s32 a = a + 2 ^ 32 * k.
Proof.
  exists (- ((a + 2 ^ 31) / 2 ^ 32)). unfold s32. pose proof (Z.div_mod (a + 2 ^ 31) (2 ^ 32) ltac:(lia)). lia.
Qed.
Lemma s32_add_mul a k : s32 (a + 2 ^ 32 * k) = s32 a.
Proof. unfold s32. replace (a + 2 ^ 32 * k + 2 ^ 31) with (a + 2 ^ 31 + k * 2 ^ 32) by lia. by rewrite Z.mod_add by lia. Qed.
Lemma s32_step a d : s32 (s32 a * 10 + d) = s32 (a * 10 + d).
Proof. destruct (s32_mod a) as [k ->]. replace ((a + 2 ^ 32 * k) * 10 + d) with (a * 10 + d + 2 ^ 32 * (k * 10)) by lia. apply s32_add_mul. Qed.
Lemma s32_opp a : s32 (s32 a * -1) = s32 (- a).
Proof. destruct (s32_mod a) as [k ->]. replace ((a + 2 ^ 32 * k) * -1) with (- a + 2 ^ 32 * - k) by lia. apply s32_add_mul. Qed.
Lemma udigit_ok d : 0 <= d < 10 -> udigits !!! Z.to_nat d = 48 + d.
Proof.
  intros Hd. assert (H : d = 0 \/ d = 1 \/ d = 2 \/ d = 3 \/ d = 4 \/ d = 5 \/ d = 6 \/ d = 7 \/ d = 8 \/ d = 9) by lia.
  repeat destruct H as [->|H]; try done. by subst.
Qed.
(** Reading the digits of [x] after some others. *)
Lemma atoi_digits fuel x acc rest : 0 <= x < 10 ^ Z.of_nat fuel -> (1 <= fuel)%nat ->
  exists k : nat, atoi_loop (s32 acc) (rev (udigits_of fuel x 10) ++ rest) = atoi_loop (s32 (acc * 10 ^ Z.of_nat k + x)) rest.
Proof.
  revert x rest. induction fuel as [|f IH]; intros x rest Hx Hf; [lia|]. cbn [udigits_of].
  pose proof (Z.div_mod x 10 ltac:(lia)) as Hdm. pose proof (Z.mod_pos_bound x 10 ltac:(lia)) as Hm. rewrite (udigit_ok (x mod 10) Hm).
  assert (Hstep : forall n, atoi_loop (s32 n) ((48 + x mod 10) :: rest) = atoi_loop (s32 (n * 10 + x mod 10)) rest).
  { intros n. cbn [atoi_loop]. unfold isdigit. rewrite (proj2 (Z.leb_le _ _)), (proj2 (Z.leb_le _ _)) by lia. cbn [andb].
    replace (s32 n * 10 + (48 + x mod 10) - 48) with (s32 n * 10 + x mod 10) by lia. by rewrite s32_step. }
  destruct (Z.eqb_spec (x / 10) 0) as [H0|H0].
  - exists 1%nat. cbn [rev app]. rewrite Hstep. f_equal. f_equal. change (10 ^ Z.of_nat 1) with 10. lia.
  - destruct f as [|f]; [change (10 ^ Z.of_nat 1) with 10 in Hx; by rewrite Z.div_small in H0|].
    assert (Hb : 0 <= x / 10 < 10 ^ Z.of_nat (S f)).
    { split; [apply Z.div_pos; lia|]. apply Z.div_lt_upper_bound; [lia|]. rewrite <- Z.pow_succ_r by lia.
      replace (Z.succ (Z.of_nat (S f))) with (Z.of_nat (S (S f))) by lia. apply Hx. }
    destruct (IH (x / 10) ((48 + x mod 10) :: rest) Hb ltac:(lia)) as [k Hk]. exists (S k).
    cbn [rev]. rewrite <- app_assoc. cbn [app]. rewrite Hk, Hstep. rewrite Nat2Z.inj_succ, Z.pow_succ_r by lia. f_equal. f_equal. lia.
Qed.
Lemma atoi_number x rest : 0 <= x < 2 ^ 32 -> isdigit (chr rest) = false ->
  atoi_loop 0 (rev (udigits_of 32 x 10) ++ rest) = s32 x.
Proof.
  intros Hx Hr. destruct (atoi_digits 32 x 0 rest ltac:(split; [lia|]; etrans; [apply Hx|by vm_compute]) ltac:(lia)) as [k Hk].
  change (s32 0) with 0 in Hk. rewrite Hk, Z.mul_0_l, Z.add_0_l. destruct rest as [|c rest]; [done|]. cbn [atoi_loop]. cbn in Hr. by rewrite Hr.
Qed.
Lemma first_digit fuel x l : (1 <= fuel)%nat -> 0 <= x -> exists c l', rev (udigits_of fuel x 10) ++ l = c :: l' /\ isdigit c = true.
Proof.
  revert x l. induction fuel as [|f IH]; intros x l Hf Hx; [lia|]. cbn [udigits_of]. pose proof (Z.mod_pos_bound x 10 ltac:(lia)) as Hm. rewrite (udigit_ok _ Hm).
  assert (Hd : isdigit (48 + x mod 10) = true) by (unfold isdigit; rewrite (proj2 (Z.leb_le _ _)), (proj2 (Z.leb_le _ _)) by lia; done).
  destruct ((x / 10 =? 0) || (f =? 0)%nat) eqn:H0.
  - replace (if x / 10 =? 0 then [] else udigits_of f (x / 10) 10) with (@nil Z); [cbn; by eexists _, _|].
    destruct (x / 10 =? 0); [done|]. cbn in H0. apply Nat.eqb_eq in H0 as ->. done.
  - apply orb_false_iff in H0 as [-> H0%Nat.eqb_neq]. cbn [rev]. rewrite <- app_assoc. apply IH; [lia|]. apply Z.div_pos; lia.
Qed.
End numbers.

(** printf and atoi.  For every int, the smallest included, atoi reads back
    what printf writes for %d, whatever follows that is not a digit. *)
Theorem atoi_printf n rest : - 2 ^ 31 <= n < 2 ^ 31 -> isdigit (chr rest) = false ->
  uprintf [37; 100] false [UInt n] = Some (uprintint n 10 true) /\ atoi (uprintint n 10 true ++ rest) = n.
Proof.
  intros Hn Hr. split; [cbn; by rewrite app_nil_r|]. unfold uprintint. rewrite s32_small by lia. destruct (Z.ltb_spec n 0) as [Hneg|Hpos]; cbn [andb].
  - rewrite rev_app_distr. cbn [rev app atoi]. rewrite Z.eqb_refl, u32_small by lia. rewrite atoi_number by (done || lia).
    rewrite s32_opp, Z.opp_involutive. by apply s32_small.
  - rewrite app_nil_r, u32_small by lia. destruct (first_digit 32 n rest ltac:(lia) Hpos) as (c&l'&He&Hd).
    pose proof (atoi_number n rest ltac:(lia) Hr) as Ha. rewrite He in Ha |- *. cbn [atoi]. rewrite (proj2 (Z.eqb_neq c 45)).
    + rewrite Ha, Z.mul_1_r, (s32_small n) by lia. apply s32_small. lia.
    + intros ->. done.
Qed.
Lemma atoi_printf_witness :
  uprintf [37; 100] false [UInt (- 2 ^ 31)] = Some (uprintint (- 2 ^ 31) 10 true) /\ atoi (uprintint (- 2 ^ 31) 10 true ++ [10]) = - 2 ^ 31.
Proof. refine (atoi_printf (- 2 ^ 31) [10] _ eq_refl). lia. Defined.

(** ** Strings *)
Lemma ustrcpy_ok s t : ustrcpy s t = if (length t <? length s)%nat then Some (t ++ 0 :: drop (length t + 1) s) else None.
Proof.
  revert t. induction s as [|x s IH]; intros [|c t]; cbn [ustrcpy]; [done..|]. rewrite IH. cbn [length].
  change (S (length t) <? S (length s))%nat with (length t <? length s)%nat. by destruct (length t <? length s)%nat.
Qed.
(** strcat needs room for both strings and the terminator. *)
Lemma ustrcat_ok dst s1 s2 : ustrcat dst s1 s2 =
  if (length s1 + length s2 <? length dst)%nat then Some (s1 ++ s2 ++ 0 :: drop (length s1 + length s2 + 1) dst) else None.
Proof.
  revert s1. induction dst as [|x dst IH]; intros s1; [by destruct s1, s2|]. destruct s1 as [|c s1]; cbn [ustrcat].
  - by rewrite ustrcpy_ok.
  - rewrite IH. cbn [length Nat.add]. change (S (length s1 + length s2) <? S (length dst))%nat with (length s1 + length s2 <? length dst)%nat.
    by destruct (length s1 + length s2 <? length dst)%nat.
Qed.
Lemma gets_loop_ok n input : let '(l, rest) := gets_loop n input in input = l ++ rest /\ (length l <= n)%nat /\
  forall i c, l !! i = Some c -> (S i < length l)%nat -> c <> 10 /\ c <> 13.
Proof.
  revert input. induction n as [|n IH]; intros [|c input]; cbn [gets_loop]; try by (split_and!; [done|cbn; lia|]).
  destruct ((c =? 10) || (c =? 13)) eqn:Hc.
  - split_and!; [done|cbn; lia|]. intros i d _ Hi. cbn in Hi. lia.
  - specialize (IH input). destruct (gets_loop n input) as [l rest]. destruct IH as (->&Hl&Hno). split_and!; [done|cbn; lia|].
    intros [|i] d Hd Hi; [|apply (Hno i d); [done|cbn in Hi; lia]]. injection Hd as <-. apply orb_false_iff in Hc as [?%Z.eqb_neq ?%Z.eqb_neq]. done.
Qed.
Lemma u8_small c : is_byte c -> u8 c = c.
Proof. intros. apply Z.mod_small. done. Qed.
Lemma ustrcmp_eq (p q : list Z) : bytes p -> bytes q -> Forall (fun c => c <> 0) p -> Forall (fun c => c <> 0) q ->
  ustrcmp p q = 0 <-> p = q.
Proof.
  intros Hp. revert q. induction Hp as [|c p Hc Hp IH]; intros q Hq Hnp Hnq.
  - destruct Hq as [|d q Hd Hq]; [done|]. inversion Hnq; subst. cbn [ustrcmp chr hd]. rewrite (u8_small d Hd). change (u8 0) with 0.
    split; [lia|done].
  - inversion Hnp; subst. destruct Hq as [|d q Hd Hq]; cbn [ustrcmp chr hd].
    + rewrite (u8_small c Hc). change (u8 0) with 0. split; [lia|done].
    + inversion Hnq; subst. destruct (Z.eqb_spec c d) as [->|Hne].
      * rewrite IH by done. split; [by intros ->|by intros [= ->]].
      * rewrite (u8_small c Hc), (u8_small d Hd). split; [lia|]. by intros [= ? ?].
Qed.
