(* ===== verification/Sh.v ===== *)
(** sh.c: the parser of the shell and the search for a similar command.

    A pointer into the line is what is left of it; a token is its text, as it
    is after nulterminate.  panic prints and leaves the shell's child: an
    error with its message.  The loops and the descent have fuel. *)
From S2P Require Import Prelude Params Str Ulib.

Inductive perr := PErr (msg : string) | PFuel.
Definition parser A : Type := perr + (A * list Z).
Definition pbind {A B} (m : parser A) (k : A -> list Z -> parser B) : parser B :=
  match m with inl e => inl e | inr (a, s) => k a s end.

(** struct execcmd and the others.  A redirection is its file, mode and fd. *)
Record redir := mkRedir { r_file : list Z; r_mode : Z; r_fd : Z }.
Inductive cmd :=
  | CExec (argv : list (list Z))
  | CRedir (c : cmd) (r : redir)
  | CPipe (left right : cmd)
  | CList (left right : cmd)
  | CBack (c : cmd).
Definition MAXARGS : nat := 10.

(** ** Tokens *)
Definition whitespace : list Z := [32; 9; 13; 10; 11].
Definition symbols : list Z := [60; 124; 62; 38; 59; 40; 41].
Definition inset (l : list Z) (c : Z) : bool := match strchr l c with Some _ => true | None => false end.
Fixpoint skip_ws (s : list Z) : list Z :=
  match s with c :: s' => if inset whitespace c then skip_ws s' else s | [] => [] end.
Fixpoint word (s : list Z) : list Z * list Z :=
  match s with
  | c :: s' => if negb (inset whitespace c) && negb (inset symbols c) then let '(w, r) := word s' in (c :: w, r) else ([], s)
  | [] => ([], [])
  end.
(** The kind of the token, its text, and the rest of the line. *)
Definition gettoken (s : list Z) : Z * list Z * list Z :=
  match skip_ws s with
  | [] => (0, [], [])
  | c :: s =>
      if inset [124; 40; 41; 59; 38; 60] c then (c, [c], skip_ws s)
      else if c =? 62 then
        match s with
        | d :: s' => if d =? 62 then (43, [c; d], skip_ws s') else (c, [c], skip_ws s)
        | [] => (c, [c], [])
        end
      else let '(w, r) := word (c :: s) in (97, w, skip_ws r)
  end.
Definition peek_tok (s toks : list Z) : bool * list Z :=
  let s := skip_ws s in
  (match s with c :: _ => inset toks c | [] => false end, s).

(** ** The grammar *)
Fixpoint parseredirs (fuel : nat) (s : list Z) : parser (list redir) :=
  match fuel with
  | O => inl PFuel
  | S f =>
      let '(b, s) := peek_tok s [60; 62] in
      if b : bool then
        let '(tok, _, s) := gettoken s in
        let '(t, file, s) := gettoken s in
        if negb (t =? 97) then inl (PErr "missing file for redirection") else
        let r := if tok =? 60 then mkRedir file O_RDONLY 0 else mkRedir file (Z.lor O_WRONLY O_CREATE) 1 in
        pbind (parseredirs f s) (fun rs s => inr (r :: rs, s))
      else inr ([], s)
  end.
Definition wrap (c : cmd) (rs : list redir) : cmd := foldl CRedir c rs.
(** The arguments of a command and the redirections around it, in order. *)
Fixpoint parseargs (fuel : nat) (s : list Z) (argv : list (list Z)) (rs : list redir) : parser (list (list Z) * list redir) :=
  match fuel with
  | O => inl PFuel
  | S f =>
      let '(b, s) := peek_tok s [124; 41; 38; 59] in
      if b : bool then inr ((argv, rs), s) else
      let '(tok, q, s) := gettoken s in
      if tok =? 0 then inr ((argv, rs), s) else
      if negb (tok =? 97) then inl (PErr "syntax") else
      let argv := argv ++ [q] in
      if (MAXARGS <=? length argv)%nat then inl (PErr "too many args") else
      pbind (parseredirs (S (length s)) s) (fun rs' s => parseargs f s argv (rs ++ rs'))
  end.
(** The loop of parseline over &. *)
Fixpoint parseback (fuel : nat) (c : cmd) (s : list Z) : parser cmd :=
  match fuel with
  | O => inl PFuel
  | S f =>
      let '(b, s) := peek_tok s [38] in
      if b : bool then let '(_, _, s) := gettoken s in parseback f (CBack c) s else inr (c, s)
  end.
Fixpoint parseline (fuel : nat) (s : list Z) : parser cmd :=
  match fuel with
  | O => inl PFuel
  | S f =>
      pbind (parsepipe f s) (fun c s =>
      pbind (parseback (S (length s)) c s) (fun c s =>
      let '(b, s) := peek_tok s [59] in
      if b : bool then
        let '(_, _, s) := gettoken s in
        pbind (parseline f s) (fun c2 s => inr (CList c c2, s))
      else inr (c, s)))
  end
with parsepipe (fuel : nat) (s : list Z) : parser cmd :=
  match fuel with
  | O => inl PFuel
  | S f =>
      pbind (parseexec f s) (fun c s =>
      let '(b, s) := peek_tok s [124] in
      if b : bool then
        let '(_, _, s) := gettoken s in
        pbind (parsepipe f s) (fun c2 s => inr (CPipe c c2, s))
      else inr (c, s))
  end
(** parseblock is its first branch. *)
with parseexec (fuel : nat) (s : list Z) : parser cmd :=
  match fuel with
  | O => inl PFuel
  | S f =>
      let '(b, s) := peek_tok s [40] in
      if b : bool then
        let '(_, _, s) := gettoken s in
        pbind (parseline f s) (fun c s =>
        let '(b, s) := peek_tok s [41] in
        if negb b then inl (PErr "syntax - missing )") else
        let '(_, _, s) := gettoken s in
        pbind (parseredirs (S (length s)) s) (fun rs s => inr (wrap c rs, s)))
      else
        pbind (parseredirs (S (length s)) s) (fun rs s =>
        pbind (parseargs (S (length s)) s [] rs) (fun '(argv, rs) s => inr (wrap (CExec argv) rs, s)))
  end.
Definition parse_fuel (s : list Z) : nat := (3 * length s + 3)%nat.
Definition parsecmd (s : list Z) : perr + cmd :=
  match parseline (parse_fuel s) s with
  | inl e => inl e
  | inr (c, s) => let '(_, s) := peek_tok s [] in match s with [] => inr c | _ :: _ => inl (PErr "syntax") end
  end.

(** ** A similar command *)
Definition threeintmin (x1 x2 x3 : Z) : Z :=
  if (x1 <=? x2) && (x1 <=? x3) then x1 else if (x2 <=? x1) && (x2 <=? x3) then x2 else x3.
(** A row of the table from the row above: [left] is dp[i][j-1], [diag] and
    the head of [up] are dp[i-1][j-1] and dp[i-1][j]. *)
Fixpoint dist_row (c : Z) (s2 : list Z) (left diag : Z) (up : list Z) : list Z :=
  match s2, up with
  | d :: s2, u :: up =>
      let v := if c =? d then diag else threeintmin left u diag + 1 in
      v :: dist_row c s2 v u up
  | _, _ => []
  end.
(** The rows for [s1] after row [i]. *)
Fixpoint dist_rows (s1 s2 : list Z) (i : Z) (row : list Z) : list Z :=
  match s1 with
  | [] => row
  | c :: s1 => dist_rows s1 s2 (i + 1) ((i + 1) :: dist_row c s2 (i + 1) (row !!! 0%nat) (drop 1 row))
  end.
Definition stringdistance (s1 s2 : list Z) : Z :=
  default 0 (last (dist_rows s1 s2 0 (seqZ 0 (Z.of_nat (length s2) + 1)))).
(** The inner and the outer loop of the sort, on pairs of a distance and an
    index. *)
Fixpoint bubble (n : nat) (l : list (Z * Z)) : list (Z * Z) :=
  match n, l with
  | S n, x :: y :: l => if y.1 <? x.1 then y :: bubble n (x :: l) else x :: bubble n (y :: l)
  | _, _ => l
  end.
Fixpoint bubble_sort (n : nat) (l : list (Z * Z)) : list (Z * Z) :=
  match n with O => l | S n' => bubble_sort n' (bubble n l) end.
(** The commands that fixcmd prints. *)
Definition fixcmd (errorcmd : list Z) (cmdlist : list (list Z)) : list (list Z) :=
  let l := imap (fun i c => (stringdistance errorcmd c, Z.of_nat i)) cmdlist in
  let l := bubble_sort (length l - 1) l in
  let name i := cmdlist !!! Z.to_nat i in
  map (fun x => name x.2) (fst (foldl (fun '(out, go) x =>
    if go && negb ((Z.of_nat (length errorcmd) <=? x.1) || (Z.of_nat (length (name x.2)) + 1 <=? x.1)) then (out ++ [x], true) else (out, false))
    ([], true) l)).
