(* ===== verification/ShThms.v ===== *)
(** Theorems on the shell: the parser always answers and reads back every
    command; the distance is the edit distance. *)
From S2P Require Import Prelude Params Str Ulib Sh.

(** ** Termination *)
Definition answers {A} (m : parser A) (n : nat) : Prop :=
  match m with inl PFuel => False | inl (PErr _) => True | inr (_, s) => (length s <= n)%nat end.
Lemma answers_bind {A B} (m : parser A) (k : A -> list Z -> parser B) n n' :
  answers m n -> (forall a s, (length s <= n)%nat -> answers (k a s) n') -> answers (pbind m k) n'.
Proof. destruct m as [[msg|]|[a s]]; cbn; [done|done|]. intros H Hk. by apply Hk. Qed.
Lemma answers_mono {A} (m : parser A) n n' : answers m n -> (n <= n')%nat -> answers m n'.
Proof. destruct m as [[msg|]|[a s]]; cbn; [done|done|]. lia. Qed.

Section termination.
Implicit Types (s w : list Z).
Lemma skip_ws_length s : (length (skip_ws s) <= length s)%nat.
Proof. induction s as [|c s IH]; cbn [skip_ws]; [done|]. destruct (inset _ c); cbn [length]; lia. Qed.
Lemma word_length s : (length (word s).2 <= length s)%nat.
Proof. induction s as [|c s IH]; cbn [word]; [done|]. destruct (_ && _); [|done]. destruct (word s). cbn [snd length] in *. lia. Qed.
Lemma word_nonempty c s : inset symbols c = false -> inset whitespace c = false -> (length (word (c :: s)).2 <= length s)%nat.
Proof. intros H1 H2. cbn [word]. rewrite H1, H2. cbn [negb andb]. pose proof (word_length s). destruct (word s). done. Qed.
Lemma skip_ws_head s c r : skip_ws s = c :: r -> inset whitespace c = false.
Proof. induction s as [|d s IH]; cbn [skip_ws]; [done|]. destruct (inset whitespace d) eqn:E; [done|]. by intros [= <- _]. Qed.
(** A token other than the end takes at least one character. *)
Lemma gettoken_length s : let '(t, w, r) := gettoken s in (length r <= length s)%nat /\ (t <> 0 \/ skip_ws s <> [] -> (length r < length s)%nat).
Proof.
  unfold gettoken. pose proof (skip_ws_length s) as Hs. destruct (skip_ws s) as [|c r] eqn:Hsk.
  { split; [cbn; lia|]. by intros [?|?]. }
  pose proof (skip_ws_head s c r Hsk) as Hw. cbn [length] in Hs. pose proof (skip_ws_length r).
  destruct (inset [124; 40; 41; 59; 38; 60] c) eqn:H1; [split; lia|]. destruct (Z.eqb_spec c 62) as [->|Hc].
  - destruct r as [|d r']; [cbn in *; split; lia|]. pose proof (skip_ws_length r'). destruct (d =? 62); cbn [length] in *; split; lia.
  - assert (Hsym : inset symbols c = false).
    { revert H1. unfold inset, symbols. cbn [strchr]. repeat (case_match; try done). intros _. lia. }
    pose proof (word_nonempty c r Hsym Hw) as Hwl. destruct (word (c :: r)) as [w r']. cbn [snd] in Hwl. pose proof (skip_ws_length r'). split; lia.
Qed.
Lemma peek_length s toks : (length (peek_tok s toks).2 <= length s)%nat.
Proof. apply skip_ws_length. Qed.
Lemma peek_true s toks : (peek_tok s toks).1 = true -> (peek_tok s toks).2 <> [].
Proof. unfold peek_tok. cbn. by destruct (skip_ws s). Qed.
(** After a successful peek the token is taken. *)
Lemma skip_ws_idem s : skip_ws (skip_ws s) = skip_ws s.
Proof. induction s as [|c s IH]; [done|]. cbn [skip_ws]. destruct (inset whitespace c) eqn:E; [done|]. cbn [skip_ws]. by rewrite E. Qed.
Lemma peek_token s toks r t w : peek_tok s toks = (true, r) -> forall r', gettoken r = (t, w, r') -> (length r' < length s)%nat.
Proof.
  unfold peek_tok. intros [= Hb <-] r' Hg. pose proof (gettoken_length (skip_ws s)) as Hl. rewrite Hg in Hl. destruct Hl as [_ Hl].
  pose proof (skip_ws_length s). rewrite skip_ws_idem in Hl. destruct (skip_ws s) as [|c q]; [done|]. specialize (Hl ltac:(by right)). lia.
Qed.
Lemma peek_rest s toks b r : peek_tok s toks = (b, r) -> (length r <= length s)%nat.
Proof. intros H. pose proof (peek_length s toks). by rewrite H in *. Qed.
Lemma token_rest s t w r : gettoken s = (t, w, r) -> (length r <= length s)%nat.
Proof. intros H. pose proof (gettoken_length s) as Hl. rewrite H in Hl. apply Hl. Qed.
Lemma token_taken s t w r : gettoken s = (t, w, r) -> t <> 0 -> (length r < length s)%nat.
Proof. intros H Ht. pose proof (gettoken_length s) as Hl. rewrite H in Hl. apply Hl. by left. Qed.

Lemma parseredirs_answers fuel s : (length s < fuel)%nat -> answers (parseredirs fuel s) (length s).
Proof.
  revert s. induction fuel as [|f IH]; intros s Hf; [lia|]. cbn [parseredirs]. destruct (peek_tok s [60; 62]) as [b r] eqn:Hp. destruct b.
  - destruct (gettoken r) as [[tok w] r1] eqn:H1. pose proof (peek_token _ _ _ _ _ Hp _ H1). destruct (gettoken r1) as [[t file] r2] eqn:H2.
    pose proof (token_rest _ _ _ _ H2). destruct (negb (t =? 97)); [done|]. eapply answers_bind; [apply IH; lia|]. intros rs s' Hs'. cbn. lia.
  - cbn. by eapply peek_rest.
Qed.
Lemma parseargs_answers fuel s argv rs : (length s < fuel)%nat -> answers (parseargs fuel s argv rs) (length s).
Proof.
  revert s argv rs. induction fuel as [|f IH]; intros s argv rs Hf; [lia|]. cbn [parseargs]. destruct (peek_tok s [124; 41; 38; 59]) as [b r] eqn:Hp.
  pose proof (peek_rest _ _ _ _ Hp). destruct b; [done|]. destruct (gettoken r) as [[tok q] r1] eqn:H1. pose proof (token_rest _ _ _ _ H1).
  destruct (Z.eqb_spec tok 0) as [->|Ht]; [cbn; lia|]. pose proof (token_taken _ _ _ _ H1 Ht). destruct (negb (tok =? 97)); [done|]. cbv zeta. destruct (_ <=? _)%nat; [done|].
  eapply answers_bind; [apply parseredirs_answers; lia|]. intros rs' s' Hs'. eapply answers_mono; [apply IH; lia|lia].
Qed.
Lemma parseback_answers fuel c s : (length s < fuel)%nat -> answers (parseback fuel c s) (length s).
Proof.
  revert c s. induction fuel as [|f IH]; intros c s Hf; [lia|]. cbn [parseback]. destruct (peek_tok s [38]) as [b r] eqn:Hp. destruct b; [|cbn; by eapply peek_rest].
  destruct (gettoken r) as [[tok w] r1] eqn:H1. pose proof (peek_token _ _ _ _ _ Hp _ H1). eapply answers_mono; [apply IH; lia|lia].
Qed.
Lemma parse_answers n s : (length s <= n)%nat ->
  (forall fuel, (3 * length s + 3 <= fuel)%nat -> answers (parseline fuel s) (length s)) /\
  (forall fuel, (3 * length s + 2 <= fuel)%nat -> answers (parsepipe fuel s) (length s)) /\
  (forall fuel, (3 * length s + 1 <= fuel)%nat -> answers (parseexec fuel s) (length s)).
Proof.
  revert s. induction n as [n IH] using (well_founded_induction lt_wf). intros s Hn.
  assert (IHs : forall s', (length s' < length s)%nat -> _) by (intros s' Hs'; exact (IH (length s') ltac:(lia) s' ltac:(lia))). clear IH.
  assert (He : forall fuel, (3 * length s + 1 <= fuel)%nat -> answers (parseexec fuel s) (length s)).
  { intros [|f] Hf; [lia|]. cbn [parseexec]. destruct (peek_tok s [40]) as [b r] eqn:Hp. pose proof (peek_rest _ _ _ _ Hp). destruct b.
    - destruct (gettoken r) as [[tok w] r1] eqn:H1. pose proof (peek_token _ _ _ _ _ Hp _ H1) as Hl1. destruct (IHs r1 Hl1) as (HL&_&_).
      eapply answers_bind; [apply HL; lia|]. intros c s2 Hs2. destruct (peek_tok s2 [41]) as [b r2] eqn:Hp2. pose proof (peek_rest _ _ _ _ Hp2).
      destruct b; cbn [negb]; [|done]. destruct (gettoken r2) as [[tok2 w2] r3] eqn:H3. pose proof (token_rest _ _ _ _ H3).
      eapply answers_bind; [apply parseredirs_answers; lia|]. intros rs s4 Hs4. cbn. lia.
    - eapply answers_bind; [apply parseredirs_answers; lia|]. intros rs s2 Hs2. eapply answers_bind; [apply parseargs_answers; lia|]. intros [argv rs'] s3 Hs3. cbn. lia. }
  assert (Hpp : forall fuel, (3 * length s + 2 <= fuel)%nat -> answers (parsepipe fuel s) (length s)).
  { intros [|f] Hf; [lia|]. cbn [parsepipe]. eapply answers_bind; [apply He; lia|]. intros c s1 Hs1. destruct (peek_tok s1 [124]) as [b r] eqn:Hp.
    pose proof (peek_rest _ _ _ _ Hp). destruct b; [|cbn; lia]. destruct (gettoken r) as [[tok w] r1] eqn:H1. pose proof (peek_token _ _ _ _ _ Hp _ H1).
    destruct (IHs r1 ltac:(lia)) as (_&HP&_). eapply answers_bind; [apply HP; lia|]. intros c2 s2 Hs2. cbn. lia. }
  split_and!; [|done|done]. intros [|f] Hf; [lia|]. cbn [parseline]. eapply answers_bind; [apply Hpp; lia|]. intros c s1 Hs1.
  eapply answers_bind; [apply parseback_answers; lia|]. intros c1 s2 Hs2. destruct (peek_tok s2 [59]) as [b r] eqn:Hp. pose proof (peek_rest _ _ _ _ Hp).
  destruct b; [|cbn; lia]. destruct (gettoken r) as [[tok w] r1] eqn:H1. pose proof (peek_token _ _ _ _ _ Hp _ H1). destruct (IHs r1 ltac:(lia)) as (HL&_&_).
  eapply answers_bind; [apply HL; lia|]. intros c2 s3 Hs3. cbn. lia.
Qed.
End termination.
Lemma parsecmd_answers s : parsecmd s <> inl PFuel.
Proof.
  unfold parsecmd. destruct (parse_answers (length s) s ltac:(lia)) as (HL&_&_). specialize (HL (parse_fuel s) ltac:(unfold parse_fuel; lia)).
  destruct (parseline (parse_fuel s) s) as [[msg|]|[c r]]; [done|done|]. destruct (peek_tok r []) as [b [|x r']]; done.
Qed.

(** ** Printing commands *)
Definition pr_word (w : list Z) : list Z := w ++ [32].
Definition pr_redir (r : redir) : list Z := (if r_mode r =? O_RDONLY then 60 else 62) :: 32 :: pr_word (r_file r).
Definition words (l : list (list Z)) : list Z := concat (map pr_word l).
Definition pr_redirs (l : list redir) : list Z := concat (map pr_redir l).
Definition paren (b : bool) (l : list Z) : list Z := if b then 40 :: 32 :: l ++ [41; 32] else l.
(** Levels: 0 for a line, 1 for what & may follow, 2 for a pipeline, 3 for a
    command; blocks go in parentheses where the level asks for less. *)
Fixpoint pr (lvl : nat) (c : cmd) : list Z :=
  match c with
  | CExec argv => words argv
  | CRedir c r => pr 3 c ++ pr_redir r
  | CPipe l r => paren (2 <? lvl)%nat (pr 3 l ++ [124; 32] ++ pr 2 r)
  | CBack c => paren (1 <? lvl)%nat (pr 1 c ++ [38; 32])
  | CList l r => paren (0 <? lvl)%nat (pr 1 l ++ [59; 32] ++ pr 0 r)
  end.
Definition wordchar (c : Z) : Prop := inset whitespace c = false /\ inset symbols c = false.
Definition wf_word (w : list Z) : Prop := w <> [] /\ Forall wordchar w.
Definition wf_redir (r : redir) : Prop := wf_word (r_file r) /\
  (r_mode r = O_RDONLY /\ r_fd r = 0 \/ r_mode r = Z.lor O_WRONLY O_CREATE /\ r_fd r = 1).
Fixpoint wf_cmd (c : cmd) : Prop :=
  match c with
  | CExec argv => Forall wf_word argv /\ (length argv < MAXARGS)%nat
  | CRedir c r => wf_cmd c /\ wf_redir r
  | CPipe l r | CList l r => wf_cmd l /\ wf_cmd r
  | CBack c => wf_cmd c
  end.

Section printing.
Implicit Types (s t w : list Z) (toks : list Z) (c : cmd) (fuel : nat).
Definition clean s : Prop := skip_ws s = s.
Definition starts toks s : Prop := match s with [] => True | c :: _ => inset toks c = true end.
Definition disjoint_ws toks : bool := forallb (fun x => negb (inset whitespace x)) toks.

Lemma inset_elem l (c : Z) : inset l c = true <-> c ∈ l.
Proof.
  unfold inset. induction l as [|x l IH]; cbn [strchr]; [split; [done|by intros ?%elem_of_nil]|]. rewrite elem_of_cons.
  destruct (Z.eqb_spec x c) as [->|Hne]; [split; [by left|done]|]. rewrite IH. split; [by right|]. intros [->|?]; done.
Qed.
Lemma starts_clean toks s : disjoint_ws toks = true -> starts toks s -> clean s.
Proof.
  unfold disjoint_ws, clean, starts. rewrite forallb_forall. intros Hd Hs. destruct s as [|c s]; [done|]. cbn [skip_ws].
  apply inset_elem, list_elem_of_In in Hs. specialize (Hd c Hs). apply negb_true_iff in Hd. by rewrite Hd.
Qed.
Lemma peek_clean s toks : clean s -> peek_tok s toks = (match s with c :: _ => inset toks c | [] => false end, s).
Proof. intros H. unfold peek_tok. by rewrite H. Qed.
Lemma starts_not toks toks' s : starts toks s -> forallb (fun x => negb (inset toks' x)) toks = true ->
  match s with c :: _ => inset toks' c | [] => false end = false.
Proof.
  rewrite forallb_forall. intros Hs Hd. destruct s as [|c s]; [done|]. cbn in Hs. apply inset_elem, list_elem_of_In in Hs. specialize (Hd c Hs). by apply negb_true_iff in Hd.
Qed.
Lemma skip_space s : clean s -> skip_ws (32 :: s) = s.
Proof. done. Qed.
Lemma gettoken_sym (c : Z) s : inset [124; 40; 41; 59; 38; 60; 62] c = true -> clean s -> gettoken (c :: 32 :: s) = (c, [c], s).
Proof.
  intros Hc Hs. apply inset_elem in Hc. unfold gettoken. repeat (apply elem_of_cons in Hc as [->|Hc]; [cbn; by rewrite Hs|]). by apply elem_of_nil in Hc.
Qed.
Lemma word_take w s : Forall wordchar w -> word (w ++ 32 :: s) = (w, 32 :: s).
Proof. induction 1 as [|c w [H1 H2] _ IH]; [done|]. cbn [word app]. rewrite H1, H2. cbn [negb andb]. by rewrite IH. Qed.
Lemma wordchar_no (c : Z) toks : wordchar c -> forallb (inset symbols) toks = true -> inset toks c = false.
Proof.
  intros [_ Hc] Hd. rewrite forallb_forall in Hd. destruct (inset toks c) eqn:E; [|done]. apply inset_elem, list_elem_of_In in E. specialize (Hd c E). congruence.
Qed.
Lemma word_clean w s : wf_word w -> clean (w ++ s).
Proof. intros [Hne Hw]. destruct Hw as [|c w [H1 _] _]; [done|]. unfold clean. cbn [skip_ws app]. by rewrite H1. Qed.
Lemma gettoken_word w s : wf_word w -> clean s -> gettoken (w ++ 32 :: s) = (97, w, s).
Proof.
  intros Hw Hs. unfold gettoken. rewrite (word_clean w (32 :: s) Hw). destruct Hw as [Hne Hw]. destruct w as [|c w]; [done|]. cbn [app].
  inversion Hw as [|? ? Hc Hw']; subst. rewrite (wordchar_no c) by done.
  assert (c <> 62). { intros ->. destruct Hc as [_ Hc]. done. }
  rewrite (proj2 (Z.eqb_neq _ _)) by done. change (c :: w ++ 32 :: s) with ((c :: w) ++ 32 :: s). rewrite word_take by done. by rewrite skip_space.
Qed.

Lemma pr_redir_clean r s : clean (pr_redir r ++ s).
Proof. unfold pr_redir. by destruct (_ =? _). Qed.
Lemma pr_redirs_clean rs s : clean s -> clean (pr_redirs rs ++ s).
Proof. destruct rs as [|r rs]; [done|]. intros _. unfold pr_redirs. cbn [map concat]. rewrite <- app_assoc. apply pr_redir_clean. Qed.
Lemma words_clean l s : Forall wf_word l -> clean s -> clean (words l ++ s).
Proof. intros [|w l' Hw _] Hs; [done|]. unfold words, pr_word. cbn [map concat]. rewrite <- !app_assoc. by apply word_clean. Qed.
Lemma pr_clean lvl c s : wf_cmd c -> clean s -> clean (pr lvl c ++ s).
Proof.
  revert lvl s. induction c as [argv|c IH r|l IHl r IHr|l IHl r IHr|c IH]; intros lvl s Hw Hs; cbn [pr].
  - destruct Hw. by apply words_clean.
  - destruct Hw. rewrite <- app_assoc. apply IH; [done|]. apply pr_redir_clean.
  - destruct Hw. unfold paren. destruct (_ <? _)%nat; [done|]. rewrite <- !app_assoc. by apply IHl.
  - destruct Hw. unfold paren. destruct (_ <? _)%nat; [done|]. rewrite <- !app_assoc. by apply IHl.
  - unfold paren. destruct (_ <? _)%nat; [done|]. rewrite <- !app_assoc. by apply IH.
Qed.

(** ** Reading them back *)
Definition after_cmd : list Z := [124; 41; 38; 59].
Lemma read_redirs fuel rs s : Forall wf_redir rs -> clean s -> match s with x :: _ => inset [60; 62] x | [] => false end = false -> (length rs < fuel)%nat ->
  parseredirs fuel (pr_redirs rs ++ s) = inr (rs, s).
Proof.
  revert fuel. induction rs as [|r rs IH]; intros [|f] Hw Hs Hh Hf; cbn [length] in Hf; try lia; cbn [parseredirs].
  - rewrite peek_clean by done. cbn [pr_redirs map concat app]. by rewrite Hh.
  - inversion Hw as [|? ? [Hr Hm] Hw']; subst. unfold pr_redirs. cbn [map concat]. fold (pr_redirs rs). rewrite <- app_assoc. rewrite peek_clean by apply pr_redir_clean.
    pose proof (pr_redirs_clean rs s Hs) as Hc. unfold pr_redir, pr_word. cbn [app]. rewrite <- !app_assoc. cbn [app].
    assert (Hk : inset [60; 62] (if r_mode r =? O_RDONLY then 60 else 62) = true) by (by destruct (_ =? _)). rewrite Hk.
    rewrite gettoken_sym; [|by destruct (_ =? _)|by apply word_clean]. rewrite gettoken_word by done. cbn [negb Z.eqb Pos.eqb].
    rewrite IH by (done || lia). cbn [pbind]. do 3 f_equal. destruct r as [file mode fd]. cbn in *. destruct Hm as [[-> ->]|[-> ->]]; done.
Qed.
Lemma words_cons w l : words (w :: l) = w ++ 32 :: words l.
Proof. unfold words, pr_word. cbn [map concat]. rewrite <- app_assoc. done. Qed.
Lemma read_args fuel w argv acc rs0 rs s : Forall wf_word (w :: argv) -> Forall wf_redir rs -> starts after_cmd s -> (length acc + S (length argv) < MAXARGS)%nat -> (S (length argv) < fuel)%nat ->
  parseargs fuel (words (w :: argv) ++ pr_redirs rs ++ s) acc rs0 = inr ((acc ++ w :: argv, rs0 ++ rs), s).
Proof.
  intros Hws Hrs Hs. assert (Hcs : clean s) by (by eapply starts_clean; [|exact Hs]). revert fuel w acc rs0 Hws.
  induction argv as [|v argv IH]; intros [|f] w acc rs0 Hws Hmax Hf; cbn [length] in *; try lia; inversion Hws as [|? ? Hw Hws']; subst.
  - rewrite words_cons, <- app_assoc. cbn [parseargs app]. assert (Hrc : clean (pr_redirs rs ++ s)) by (by apply pr_redirs_clean).
    rewrite peek_clean by (by apply word_clean). assert (Hh : match w ++ 32 :: pr_redirs rs ++ s with x :: _ => inset after_cmd x | [] => false end = false).
    { destruct Hw as [Hne Hw]. destruct Hw as [|x w Hx _]; [done|]. cbn. by apply (wordchar_no x). }
    cbn [words map concat app]. unfold after_cmd in Hh. rewrite Hh. rewrite gettoken_word by done. cbn [Z.eqb Pos.eqb negb]. cbv zeta.
    rewrite length_app. cbn [length]. rewrite (proj2 (Nat.leb_gt _ _)) by lia.
    rewrite read_redirs; [|done|done|by eapply starts_not; [exact Hs|]|]. 2:{ rewrite length_app. assert (length rs <= length (pr_redirs rs))%nat; [|lia].
      clear. induction rs as [|r rs IH]; [done|]. unfold pr_redirs in *. cbn [map concat length]. rewrite length_app. unfold pr_redir at 1. cbn [length]. lia. }
    cbn [pbind]. destruct f as [|f]; [lia|]. cbn [parseargs]. rewrite peek_clean by done. destruct s as [|x s].
    + done.
    + cbn in Hs. unfold after_cmd in Hs. by rewrite Hs.
  - rewrite words_cons, <- app_assoc. cbn [parseargs app]. assert (Hrc : clean (words (v :: argv) ++ pr_redirs rs ++ s)) by (apply words_clean; [done|]; by apply pr_redirs_clean).
    rewrite peek_clean by (by apply word_clean). assert (Hh : match w ++ 32 :: words (v :: argv) ++ pr_redirs rs ++ s with x :: _ => inset after_cmd x | [] => false end = false).
    { destruct Hw as [Hne Hw]. destruct Hw as [|x w Hx _]; [done|]. cbn. by apply (wordchar_no x). }
    unfold after_cmd in Hh. rewrite Hh. rewrite gettoken_word by done. cbn [Z.eqb Pos.eqb negb]. cbv zeta.
    rewrite length_app. cbn [length]. rewrite (proj2 (Nat.leb_gt _ _)) by lia.
    pose proof (read_redirs (S (length (words (v :: argv) ++ pr_redirs rs ++ s))) [] (words (v :: argv) ++ pr_redirs rs ++ s)) as Hr. cbn [pr_redirs map concat app] in Hr. rewrite Hr; [|done|done| |cbn; lia].
    2:{ inversion Hws' as [|? ? [Hne Hv] _]; subst. destruct Hv as [|x v' Hx _]; [done|]. cbn. by apply (wordchar_no x). }
    cbn [pbind]. rewrite app_nil_r, IH; [|done|rewrite length_app; cbn; lia|lia]. by rewrite <- app_assoc.
Qed.
End printing.

Section reading.
Implicit Types (s t : list Z) (c l r : cmd) (fuel : nat).
Definition R3 c : Prop := forall fuel rs s, Forall wf_redir rs -> starts after_cmd s -> (3 * length (pr 3 c ++ pr_redirs rs ++ s) + 1 <= fuel)%nat ->
  parseexec fuel (pr 3 c ++ pr_redirs rs ++ s) = inr (wrap c rs, s).
Definition R2 c : Prop := forall fuel s, starts [41; 38; 59] s -> (3 * length (pr 2 c ++ s) + 2 <= fuel)%nat -> parsepipe fuel (pr 2 c ++ s) = inr (c, s).
Definition R1 c : Prop := forall fuel s, starts [41; 38; 59] s -> (3 * length (pr 1 c ++ s) + 2 <= fuel)%nat ->
  pbind (parsepipe fuel (pr 1 c ++ s)) (fun c s => parseback (S (length s)) c s) = parseback (S (length s)) c s.
Definition R0 c : Prop := forall fuel s, starts [41] s -> (3 * length (pr 0 c ++ s) + 3 <= fuel)%nat -> parseline fuel (pr 0 c ++ s) = inr (c, s).

Lemma starts_sub toks toks' s : forallb (inset toks') toks = true -> starts toks s -> starts toks' s.
Proof. rewrite forallb_forall. destruct s as [|x s]; [done|]. cbn. intros H Hs. apply H. by apply list_elem_of_In, inset_elem. Qed.
Lemma pbind_assoc {A B C} (m : parser A) (k : A -> list Z -> parser B) (k' : B -> list Z -> parser C) :
  pbind m (fun a s => pbind (k a s) k') = pbind (pbind m k) k'.
Proof. by destruct m as [e|[a s]]. Qed.
Lemma parseback_stop c fuel s : starts [41; 59] s -> (0 < fuel)%nat -> parseback fuel c s = inr (c, s).
Proof.
  intros Hs Hf. destruct fuel as [|f]; [lia|]. cbn [parseback]. rewrite peek_clean by (by eapply starts_clean; [|exact Hs]).
  by rewrite (starts_not [41; 59] [38] s Hs).
Qed.
Lemma parseback_fuel fuel fuel' c s : (length s < fuel)%nat -> (length s < fuel')%nat -> parseback fuel c s = parseback fuel' c s.
Proof.
  revert fuel' c s. induction fuel as [|f IH]; intros [|f'] c s H1 H2; try lia. cbn [parseback]. destruct (peek_tok s [38]) as [b q] eqn:Hp. destruct b; [|done].
  destruct (gettoken q) as [[tok w] q1] eqn:Hg. pose proof (peek_token _ _ _ _ _ Hp _ Hg). apply IH; lia.
Qed.
Lemma parseback_step fuel c s : clean s -> parseback (S fuel) c (38 :: 32 :: s) = parseback fuel (CBack c) s.
Proof. intros Hs. cbn [parseback]. rewrite peek_clean by done. change (inset [38] 38) with true. cbn iota. by rewrite gettoken_sym. Qed.

(** From one level to the one above. *)
Lemma L32 c : R3 c -> pr 2 c = pr 3 c -> R2 c.
Proof.
  intros H He fuel s Hs Hf. rewrite He in *. destruct fuel as [|f]; [lia|]. cbn [parsepipe].
  pose proof (H f [] s ltac:(constructor) ltac:(by eapply starts_sub; [|exact Hs])) as Hr. cbn [pr_redirs map concat app] in Hr. rewrite Hr by lia.
  cbn [pbind wrap foldl]. rewrite peek_clean by (by eapply starts_clean; [|exact Hs]). by rewrite (starts_not [41; 38; 59] [124] s Hs).
Qed.
Lemma L21 c : R2 c -> pr 1 c = pr 2 c -> R1 c.
Proof. intros H He fuel s Hs Hf. rewrite He in *. by rewrite H. Qed.
Lemma L10 c : R1 c -> pr 0 c = pr 1 c -> R0 c.
Proof.
  intros H He fuel s Hs Hf. rewrite He in *. destruct fuel as [|f]; [lia|]. cbn [parseline]. rewrite pbind_assoc.
  rewrite H; [|by eapply starts_sub; [|exact Hs]|lia]. rewrite parseback_stop; [|by eapply starts_sub; [|exact Hs]|lia]. cbn [pbind].
  rewrite peek_clean by (by eapply starts_clean; [|exact Hs]). by rewrite (starts_not [41] [59] s Hs).
Qed.
Lemma length_redirs rs : (length rs <= length (pr_redirs rs))%nat.
Proof. induction rs as [|q rs IH]; [done|]. unfold pr_redirs in *. cbn [map concat length]. rewrite length_app. unfold pr_redir at 1. cbn [length]. lia. Qed.
(** A block in parentheses. *)
Lemma L03 c : wf_cmd c -> R0 c -> pr 3 c = paren true (pr 0 c) -> R3 c.
Proof.
  intros Hw H He fuel rs s Hrs Hs Hf. rewrite He in *. unfold paren in *. destruct fuel as [|f]; [lia|].
  assert (Hcs : clean s) by (by eapply starts_clean; [|exact Hs]). pose proof (pr_redirs_clean rs s Hcs) as Hcr.
  replace ((40 :: 32 :: pr 0 c ++ [41; 32]) ++ pr_redirs rs ++ s) with (40 :: 32 :: pr 0 c ++ 41 :: 32 :: pr_redirs rs ++ s) in * by (cbn [app]; by rewrite <- app_assoc).
  cbn [parseexec]. rewrite peek_clean by done. change (inset [40] 40) with true. cbn iota.
  rewrite gettoken_sym; [|done|by apply pr_clean]. cbn [length] in Hf. rewrite H; [|done|lia]. cbn [pbind].
  rewrite peek_clean by done. change (inset [41] 41) with true. cbn [negb]. rewrite gettoken_sym by done.
  rewrite read_redirs; [done|done|done|by eapply starts_not; [exact Hs|]|]. rewrite length_app. pose proof (length_redirs rs). lia.
Qed.

Lemma read_exec argv : wf_cmd (CExec argv) -> R3 (CExec argv).
Proof.
  intros [Hw Hlen] [|f] rs s Hrs Hs Hf; [lia|]. cbn [pr] in *. cbn [parseexec].
  assert (Hcs : clean s) by (by eapply starts_clean; [|exact Hs]). pose proof (pr_redirs_clean rs s Hcs) as Hcr.
  assert (Hst : match s with x :: _ => inset [60; 62] x | [] => false end = false) by (by eapply starts_not; [exact Hs|]).
  rewrite peek_clean by (by apply words_clean). pose proof (length_redirs rs). destruct argv as [|w argv].
  - cbn [words map concat app] in *. assert (Hh : match pr_redirs rs ++ s with x :: _ => inset [40] x | [] => false end = false).
    { destruct rs as [|q rs]; [by eapply (starts_not after_cmd [40])|]. unfold pr_redirs, pr_redir. cbn. by destruct (_ =? _). }
    rewrite Hh. rewrite read_redirs; [|done|done|done|rewrite length_app; lia]. cbn [pbind parseargs].
    rewrite peek_clean by done. destruct s as [|x s]; [done|]. cbn in Hs. unfold after_cmd in Hs. by rewrite Hs.
  - inversion Hw as [|? ? Hw0 Hws]; subst. pose proof Hw0 as [Hne Hwc]. destruct Hwc as [|x w Hx Hwc]; [done|].
    assert (Hno : forall toks, forallb (inset symbols) toks = true -> match words ((x :: w) :: argv) ++ pr_redirs rs ++ s with y :: _ => inset toks y | [] => false end = false).
    { intros toks Ht. rewrite words_cons. cbn [app]. by apply wordchar_no. }
    rewrite Hno by done. pose proof (read_redirs (S (length (words ((x :: w) :: argv) ++ pr_redirs rs ++ s))) [] (words ((x :: w) :: argv) ++ pr_redirs rs ++ s)) as Hr.
    cbn [pr_redirs map concat app] in Hr. rewrite Hr; [|done|by apply words_clean|by apply Hno|cbn; lia]. cbn [pbind].
    rewrite read_args; [done|done|done|done|cbn [length] in *; lia|].
    assert (Hl : (S (length argv) <= length (words ((x :: w) :: argv)))%nat); [|rewrite length_app; lia].
    clear. generalize (x :: w) as v. induction argv as [|a argv IH]; intros v; rewrite words_cons, length_app; cbn [length]; [lia|]. specialize (IH a). lia.
Qed.
Lemma read_back c : wf_cmd c -> R0 c /\ R1 c /\ R2 c /\ R3 c.
Proof.
  induction c as [argv|c IH q|l IHl r IHr|l IHl r IHr|c IH]; intros Hw.
  - pose proof (read_exec argv Hw) as H3. assert (H2 : R2 (CExec argv)) by (by apply L32). assert (H1 : R1 (CExec argv)) by (by apply L21). split_and!; [by apply L10|done|done|done].
  - destruct Hw as [Hw Hq]. destruct (IH Hw) as (_&_&_&H3). assert (H3' : R3 (CRedir c q)).
    { intros fuel rs s Hrs Hs Hf. cbn [pr] in *. pose proof (H3 fuel (q :: rs) s ltac:(by constructor) Hs) as Hr. unfold pr_redirs in Hr. cbn [map concat] in Hr. fold (pr_redirs rs) in Hr.
      rewrite <- app_assoc in *. by rewrite Hr. }
    assert (H2 : R2 (CRedir c q)) by (by apply L32). assert (H1 : R1 (CRedir c q)) by (by apply L21). split_and!; [by apply L10|done|done|done].
  - pose proof Hw as [Hl Hr]. destruct (IHl Hl) as (_&_&_&H3l), (IHr Hr) as (_&_&H2r&_). assert (H2 : R2 (CPipe l r)).
    { intros [|f] s Hs Hf; [lia|]. cbn [pr paren Nat.ltb Nat.leb] in *. assert (Hcs : clean s) by (by eapply starts_clean; [|exact Hs]).
      cbn [parsepipe]. replace ((pr 3 l ++ [124; 32] ++ pr 2 r) ++ s) with (pr 3 l ++ 124 :: 32 :: pr 2 r ++ s) in * by (rewrite <- !app_assoc; done).
      pose proof (H3l f [] (124 :: 32 :: pr 2 r ++ s) ltac:(constructor) ltac:(done)) as Hx. cbn [pr_redirs map concat app] in Hx. rewrite Hx by lia.
      cbn [pbind wrap foldl]. rewrite peek_clean by done. change (inset [124] 124) with true. cbn iota. rewrite gettoken_sym; [|done|by apply pr_clean].
      rewrite length_app in Hf. cbn [length] in Hf. rewrite H2r; [done|done|lia]. }
    assert (H1 : R1 (CPipe l r)) by (by apply L21). assert (H0 : R0 (CPipe l r)) by (by apply L10). split_and!; [done..|]. by apply L03.
  - pose proof Hw as [Hl Hr]. destruct (IHl Hl) as (_&H1l&_&_), (IHr Hr) as (H0r&_&_&_). assert (H0 : R0 (CList l r)).
    { intros [|f] s Hs Hf; [lia|]. cbn [pr paren Nat.ltb Nat.leb] in *. assert (Hcs : clean s) by (by eapply starts_clean; [|exact Hs]).
      cbn [parseline]. rewrite pbind_assoc. replace ((pr 1 l ++ [59; 32] ++ pr 0 r) ++ s) with (pr 1 l ++ 59 :: 32 :: pr 0 r ++ s) in * by (rewrite <- !app_assoc; done).
      rewrite H1l; [|done|lia]. rewrite parseback_stop by (done || lia). cbn [pbind]. rewrite peek_clean by done. change (inset [59] 59) with true. cbn iota.
      rewrite gettoken_sym; [|done|by apply pr_clean]. rewrite length_app in Hf. cbn [length] in Hf. rewrite H0r; [done|done|lia]. }
    assert (H3 : R3 (CList l r)) by (by apply L03). assert (H2 : R2 (CList l r)) by (by apply L32). split_and!; [done|by apply L21|done|done].
  - destruct (IH Hw) as (_&H1c&_&_). assert (H1 : R1 (CBack c)).
    { intros fuel s Hs Hf. cbn [pr paren Nat.ltb Nat.leb] in *. assert (Hcs : clean s) by (by eapply starts_clean; [|exact Hs]).
      replace ((pr 1 c ++ [38; 32]) ++ s) with (pr 1 c ++ 38 :: 32 :: s) in * by (by rewrite <- app_assoc). rewrite H1c; [|done|lia].
      rewrite parseback_step by done. apply parseback_fuel; cbn [length]; lia. }
    assert (H0 : R0 (CBack c)) by (by apply L10). assert (H3 : R3 (CBack c)) by (by apply L03). split_and!; [done|done|by apply L32|done].
Qed.
End reading.

(** C22. The shell's parser.  It gives an answer for every line: the recursive
    descent ends.  And it reads back every command: for each tree of simple
    commands, redirections, pipes, lists and background commands (with words
    free of blanks and symbols, and fewer than MAXARGS arguments) there is a
    line, its printed form, that parsecmd parses to that tree. *)
Theorem parsecmd_correct : (forall s, parsecmd s <> inl PFuel) /\ (forall c, wf_cmd c -> parsecmd (pr 0 c) = inr c).
Proof.
  split; [exact parsecmd_answers|]. intros c Hw. destruct (read_back c Hw) as (H0&_). unfold parsecmd.
  pose proof (H0 (parse_fuel (pr 0 c)) []) as H. rewrite app_nil_r in H. rewrite H; [done|done|]. unfold parse_fuel. lia.
Qed.
(** a b < c | ( d ; e & ) > f *)
Example parse_line : parsecmd [97; 32; 98; 60; 99; 124; 40; 100; 59; 101; 38; 41; 62; 102] =
  inr (CPipe (CRedir (CExec [[97]; [98]]) (mkRedir [99] 0 0)) (CRedir (CList (CExec [[100]]) (CBack (CExec [[101]]))) (mkRedir [102] 0x201 1))).
Proof. by vm_compute. Qed.
Lemma parsecmd_correct_witness :
  let c := CPipe (CExec [[97]; [98]]) (CList (CBack (CExec [[99]])) (CRedir (CExec []) (mkRedir [100] 0 0))) in
  wf_cmd c /\ parsecmd (pr 0 c) = inr c.
Proof.
  intros c. assert (H : wf_cmd c).
  { cbn. unfold MAXARGS, wf_word, wf_redir, wf_word, wordchar. cbn. split_and!; try lia; try done; repeat (constructor; try done). }
  split; [exact H|]. exact (proj2 parsecmd_correct c H).
Defined.

(** ** The edit distance *)
(** [edit s t n]: [n] single characters inserted, deleted or replaced make
    [t] of [s]. *)
Inductive edit : list Z -> list Z -> Z -> Prop :=
  | ENil : edit [] [] 0
  | EKeep c s t n : edit s t n -> edit (c :: s) (c :: t) n
  | ESub c d s t n : edit s t n -> edit (c :: s) (d :: t) (n + 1)
  | EDel c s t n : edit s t n -> edit (c :: s) t (n + 1)
  | EIns d s t n : edit s t n -> edit s (d :: t) (n + 1).

Section lev.
Implicit Types (s t P pre : list Z) (c d n : Z).
Fixpoint lev s : list Z -> Z :=
  match s with
  | [] => fun t => Z.of_nat (length t)
  | c :: s' =>
      fix go t := match t with
      | [] => Z.of_nat (length s)
      | d :: t' => if c =? d then lev s' t' else threeintmin (go t') (lev s' t) (lev s' t') + 1
      end
  end.
Lemma lev_nil_r s : lev s [] = Z.of_nat (length s).
Proof. by destruct s. Qed.
Lemma lev_cons c s d t : lev (c :: s) (d :: t) = if c =? d then lev s t else threeintmin (lev (c :: s) t) (lev s (d :: t)) (lev s t) + 1.
Proof. done. Qed.
Lemma min3 x y z : threeintmin x y z = Z.min x (Z.min y z).
Proof. unfold threeintmin. destruct (Z.leb_spec x y), (Z.leb_spec x z), (Z.leb_spec y x), (Z.leb_spec y z); cbn [andb]; lia. Qed.
Lemma lev_sym s t : lev s t = lev t s.
Proof.
  revert t. induction s as [|c s IHs]; intros t; [by rewrite lev_nil_r|]. induction t as [|d t IHt]; [by rewrite lev_nil_r|].
  rewrite !lev_cons, (Z.eqb_sym d c), (IHs t), (IHs (d :: t)), IHt, !min3. destruct (c =? d); [done|]. lia.
Qed.
(** One character more or less changes the distance by at most one. *)
Lemma lev_step (n : nat) s t : (length s + length t <= n)%nat -> forall c, lev (c :: s) t <= lev s t + 1 /\ lev s t <= lev (c :: s) t + 1.
Proof.
  revert s t. induction n as [|n IH]; intros s t Hn c.
  - destruct s, t; cbn in Hn; try lia; cbn; lia.
  - destruct t as [|d t]; [rewrite !lev_nil_r; cbn [length]; lia|]. cbn [length] in Hn. rewrite lev_cons, min3.
    assert (Hi : forall x, lev s (x :: t) <= lev s t + 1 /\ lev s t <= lev s (x :: t) + 1).
    { intros x. rewrite (lev_sym s (x :: t)), (lev_sym s t). apply IH. lia. }
    destruct (IH s t ltac:(lia) c) as [H1 H2]. destruct (Hi d) as [H3 H4]. destruct (Z.eqb_spec c d) as [->|Hne]; lia.
Qed.
Lemma lev_edit s t : edit s t (lev s t).
Proof.
  revert t. induction s as [|c s IHs]; intros t.
  - induction t as [|d t IHt]; [constructor|]. cbn [lev length] in *. rewrite Nat2Z.inj_succ, <- Z.add_1_r. by constructor.
  - induction t as [|d t IHt].
    + rewrite lev_nil_r. cbn [length]. rewrite Nat2Z.inj_succ, <- Z.add_1_r. constructor. rewrite <- lev_nil_r. apply IHs.
    + rewrite lev_cons. destruct (Z.eqb_spec c d) as [->|Hne]; [constructor; apply IHs|]. unfold threeintmin.
      destruct (_ && _); [by constructor|]. destruct (_ && _); constructor; apply IHs.
Qed.
Lemma lev_least s t n : edit s t n -> lev s t <= n.
Proof.
  induction 1 as [|c s t n H IH|c d s t n H IH|c s t n H IH|d s t n H IH].
  - done.
  - rewrite lev_cons, Z.eqb_refl. done.
  - rewrite lev_cons, min3. destruct (c =? d); lia.
  - pose proof (proj1 (lev_step (length s + length t) s t ltac:(lia) c)). lia.
  - rewrite lev_sym in IH |- *. pose proof (proj1 (lev_step (length t + length s) t s ltac:(lia) d)). lia.
Qed.
Lemma edit_app s t n s' t' n' : edit s t n -> edit s' t' n' -> edit (s ++ s') (t ++ t') (n + n').
Proof.
  intros H H'. induction H; cbn [app]; rewrite ?Z.add_0_l; [done|by constructor|..]; replace (n + 1 + n') with (n + n' + 1) by lia; by constructor.
Qed.
Lemma edit_rev s t n : edit s t n -> edit (rev s) (rev t) n.
Proof.
  induction 1 as [|c s t n H IH|c d s t n H IH|c s t n H IH|d s t n H IH]; cbn [rev]; [constructor|..].
  - replace n with (n + 0) by lia. apply edit_app; [done|]. repeat constructor.
  - apply (edit_app _ _ _ _ _ 1); [done|]. apply (ESub c d [] [] 0). constructor.
  - rewrite <- (app_nil_r (rev t)). apply (edit_app _ _ _ _ _ 1); [done|]. apply (EDel c [] [] 0). constructor.
  - rewrite <- (app_nil_r (rev s)). apply (edit_app _ _ _ _ _ 1); [done|]. apply (EIns d [] [] 0). constructor.
Qed.
(** A row of the table. *)
Fixpoint lev_row P pre s : list Z := match s with [] => [] | d :: s => lev P (d :: pre) :: lev_row P (d :: pre) s end.
Lemma dist_row_ok c P pre s : dist_row c s (lev (c :: P) pre) (lev P pre) (lev_row P pre s) = lev_row (c :: P) pre s.
Proof.
  revert pre. induction s as [|d s IH]; intros pre; cbn [dist_row lev_row]; [done|]. rewrite <- lev_cons. f_equal. apply IH.
Qed.
Lemma dist_rows_ok s1 s2 P : dist_rows s1 s2 (Z.of_nat (length P)) (lev P [] :: lev_row P [] s2) = lev (rev s1 ++ P) [] :: lev_row (rev s1 ++ P) [] s2.
Proof.
  revert P. induction s1 as [|c s1 IH]; intros P; cbn [dist_rows rev app]; [done|]. cbn [drop]. change ((lev P [] :: lev_row P [] s2) !!! 0%nat) with (lev P []).
  assert (Hl : Z.of_nat (length P) + 1 = lev (c :: P) []) by (rewrite lev_nil_r; cbn [length]; lia).
  rewrite Hl. rewrite dist_row_ok, <- Hl. rewrite <- app_assoc. cbn [app].
  replace (Z.of_nat (length P) + 1) with (Z.of_nat (length (c :: P))) by (cbn [length]; lia). rewrite <- IH. done.
Qed.
Lemma first_row pre s : lev_row [] pre s = seqZ (Z.of_nat (length pre) + 1) (Z.of_nat (length s)).
Proof.
  revert pre. induction s as [|d s IH]; intros pre; cbn [lev_row length]; [done|]. rewrite seqZ_cons, IH by lia. cbn [length]. f_equal; [cbn; lia|]. f_equal; lia.
Qed.
Lemma last_row P pre s x : last (x :: lev_row P pre s) = Some (match s with [] => x | _ => lev P (rev s ++ pre) end).
Proof.
  revert pre x. induction s as [|d s IH]; intros pre x; cbn [lev_row]; [done|]. rewrite last_cons_cons, IH. f_equal. destruct s as [|e s]; [done|]. cbn [rev]. by rewrite <- !app_assoc.
Qed.
Lemma stringdistance_lev s1 s2 : stringdistance s1 s2 = lev (rev s1) (rev s2).
Proof.
  unfold stringdistance. assert (H : seqZ 0 (Z.of_nat (length s2) + 1) = lev [] [] :: lev_row [] [] s2).
  { rewrite seqZ_cons by lia. rewrite first_row. cbn [lev length]. f_equal. f_equal. lia. }
  pose proof (dist_rows_ok s1 s2 []) as Hr. cbn [length] in Hr. change (Z.of_nat 0) with 0 in Hr. rewrite H, Hr, app_nil_r, last_row. cbn [default].
  destruct s2 as [|d s2]; [done|]. by rewrite app_nil_r.
Qed.
End lev.
(** The distance between commands.  stringdistance, the table over prefixes
    that the shell fills to suggest a command, is the least number of single
    characters to insert, delete or replace to make one string of the
    other. *)
Theorem stringdistance_correct s1 s2 : edit s1 s2 (stringdistance s1 s2) /\ forall n, edit s1 s2 n -> stringdistance s1 s2 <= n.
Proof.
  rewrite stringdistance_lev. split.
  - pose proof (edit_rev _ _ _ (lev_edit (rev s1) (rev s2))) as H. by rewrite !rev_involutive in H.
  - intros n H. by apply lev_least, edit_rev.
Qed.
Example distance_make : stringdistance [109; 97; 107; 101] [109; 107; 100; 105; 114] = 4.
Proof. by vm_compute. Qed.
