(* ===== verification/Lines.v ===== *)
(** A file as lines: what editor.c, script.c and make.c read. *)
From S2P Require Import Prelude Params Str Ulib.

(** The characters before the first newline. *)
Fixpoint newline_at (b : list Z) : nat :=
  match b with c :: b => if c =? NL then O else S (newline_at b) | [] => O end.
Fixpoint lines_of (f : list Z) : list (list Z) :=
  match f with
  | [] => [[]]
  | c :: f => if c =? NL then [] :: lines_of f else
      match lines_of f with l :: ls => (c :: l) :: ls | [] => [[c]] end
  end.
Fixpoint join (L : list (list Z)) : list Z :=
  match L with
  | [] => []
  | l :: L' => match L' with [] => l | _ => l ++ NL :: join L' end
  end.
Definition no_nl (l : list Z) : Prop := Forall (fun c => c <> NL) l.

Implicit Types (f g l : list Z) (P L : list (list Z)).
Lemma lines_of_cons f : exists l ls, lines_of f = l :: ls.
Proof. induction f as [|c f (l&ls&IH)]; simpl; [eauto|]. rewrite IH. destruct (c =? NL); eauto. Qed.
Lemma lines_of_app f g P l l' ls :
  lines_of f = P ++ [l] -> lines_of g = l' :: ls -> lines_of (f ++ g) = P ++ (l ++ l') :: ls.
Proof.
  intros Hf Hg. revert P l Hf. induction f as [|c f IH]; intros P l Hf; cbn [lines_of app] in *.
  - destruct P as [|p P]; [|destruct P; done]. injection Hf as <-. simpl. by rewrite Hg.
  - destruct (lines_of_cons f) as (k&ks&Hk). destruct (exists_last (l := k :: ks)) as (P'&l0&Hlast); [done|].
    destruct (c =? NL).
    + rewrite Hk, Hlast in Hf. destruct P as [|p P]; [destruct P'; done|]. injection Hf as <- Hf.
      apply app_inj_tail in Hf as [<- <-]. rewrite (IH P' l0) by (by rewrite Hk, Hlast). done.
    + rewrite Hk in Hf. rewrite (IH P' l0) by (by rewrite Hk, Hlast). destruct P' as [|p P']; simpl in Hlast |- *.
      * injection Hlast as -> ->. destruct P as [|p P]; [by injection Hf as <-|destruct P; done].
      * injection Hlast as -> ->. destruct P as [|q P]; [simpl in Hf; by destruct P'|].
        injection Hf as <- Hf. apply app_inj_tail in Hf as [<- <-]. done.
Qed.
Lemma lines_of_last f : exists P l, lines_of f = P ++ [l].
Proof. destruct (lines_of_cons f) as (k&ks&Hk). destruct (exists_last (l := k :: ks)) as (P&l&Hl); [done|]. exists P, l. by rewrite Hk. Qed.
Lemma lines_of_plain g : no_nl g -> lines_of g = [g].
Proof. induction 1 as [|c g Hc _ IH]; simpl; [done|]. rewrite (proj2 (Z.eqb_neq _ _)), IH by done. done. Qed.
Lemma lines_of_join L : L <> [] -> Forall no_nl L -> lines_of (join L) = L.
Proof.
  intros Hne HL. induction HL as [|l L Hl HL IH]; [done|]. cbn [join]. destruct L as [|l2 L]; [by apply lines_of_plain|].
  assert (Hr : lines_of (NL :: join (l2 :: L)) = [] :: l2 :: L) by (cbn [lines_of]; rewrite IH by done; done).
  rewrite (lines_of_app l _ [] l [] (l2 :: L)); [by rewrite app_nil_r|by rewrite lines_of_plain|done].
Qed.
Lemma newline_split (b : list Z) :
  let k := newline_at b in no_nl (take k b) /\ ((k < length b)%nat -> b !! k = Some NL) /\ (k <= length b)%nat.
Proof.
  induction b as [|c b (H1&H2&H3)]; simpl; [split_and!; [constructor|lia|lia]|]. destruct (Z.eqb_spec c NL) as [->|Hc]; simpl.
  - split_and!; [constructor|done|lia].
  - split_and!; [by constructor|intros; apply H2; lia|lia].
Qed.
