(* ===== verification/Editor.v ===== *)
(** editor.c: the line editor.

    [text] is the array of MAX_LINE_NUMBER pointers to lines, each line a
    buffer of MAX_LINE_LENGTH bytes of its own; an access outside the array
    or through NULL, and a copy past the end of a line, is undefined.  The
    other state: the program's globals, what the user still types, what was
    printed, the file (None: it does not exist; [e_create]: whether it can be
    created) and the program status of the console.  Memory from malloc holds
    [junk]. *)
From S2P Require Import Prelude Params Str Ulib Lines.

Definition BUF_SIZE : Z := 256.
Definition MAX_LINE_NUMBER : Z := 256.
Definition MAX_LINE_LENGTH : Z := 256.
Definition SHELL : Z := 0.
Definition EDITOR : Z := 1.

Record ed := mkEd {
  e_text : list (option (list Z)); line_number : Z; changed : Z; auto_show : Z;
  e_input : list Z; e_out : list Z; e_file : option (list Z); e_create : bool; e_status : Z }.

Definition set_text (t : list (option (list Z))) (s : ed) : ed :=
  mkEd t (line_number s) (changed s) (auto_show s) (e_input s) (e_out s) (e_file s) (e_create s) (e_status s).
Definition set_line_number (n : Z) (s : ed) : ed :=
  mkEd (e_text s) n (changed s) (auto_show s) (e_input s) (e_out s) (e_file s) (e_create s) (e_status s).
Definition set_changed (c : Z) (s : ed) : ed :=
  mkEd (e_text s) (line_number s) c (auto_show s) (e_input s) (e_out s) (e_file s) (e_create s) (e_status s).
Definition set_auto_show (c : Z) (s : ed) : ed :=
  mkEd (e_text s) (line_number s) (changed s) c (e_input s) (e_out s) (e_file s) (e_create s) (e_status s).
Definition set_input (i : list Z) (s : ed) : ed :=
  mkEd (e_text s) (line_number s) (changed s) (auto_show s) i (e_out s) (e_file s) (e_create s) (e_status s).
Definition add_out (o : list Z) (s : ed) : ed :=
  mkEd (e_text s) (line_number s) (changed s) (auto_show s) (e_input s) (e_out s ++ o) (e_file s) (e_create s) (e_status s).
Definition set_file (f : option (list Z)) (s : ed) : ed :=
  mkEd (e_text s) (line_number s) (changed s) (auto_show s) (e_input s) (e_out s) f (e_create s) (e_status s).
Definition set_status (c : Z) (s : ed) : ed :=
  mkEd (e_text s) (line_number s) (changed s) (auto_show s) (e_input s) (e_out s) (e_file s) (e_create s) c.

Definition say (s : string) : K ed unit := modify (add_out (chars s ++ [NL])).
Definition need {A} (o : option A) : K ed A := match o with Some a => ret a | None => fail Undef end.

(** text[i], text[i] = p, and the line text[i] points to. *)
Definition text_at (i : Z) : K ed (option (list Z)) := t <- gets e_text;; aget t i.
Definition text_put (i : Z) (p : option (list Z)) : K ed unit :=
  t <- gets e_text;; t <- aset t i p;; modify (set_text t).
Definition line_at (i : Z) : K ed (list Z) := p <- text_at i;; need p.

Definition zeros : list Z := replicate (Z.to_nat MAX_LINE_LENGTH) 0.
(** memset(text[i], 0, MAX_LINE_LENGTH) *)
Definition clear_line (i : Z) : K ed unit := line_at i;; text_put i (Some zeros).
(** strcpy(text[i], s) *)
Definition copy_line (i : Z) (s : list Z) : K ed unit :=
  l <- line_at i;; l <- need (ustrcpy l (cstr s));; text_put i (Some l).

(** strcat_n: dest with the first [len] bytes of [src] appended. *)
Definition strcat_n (dest src : list Z) (len : Z) : K ed (list Z) :=
  if len <=? 0 then ret dest else
  let pos := strlen dest in
  if MAX_LINE_LENGTH <=? len + pos then ret dest else
  if (len <=? Z.of_nat (length src)) && (pos + len <? Z.of_nat (length dest))
  then ret (splice pos (take (Z.to_nat len) src ++ [0]) dest) else fail Undef.

Definition show_text : K ed unit :=
  say "****************************************";;
  say "the contents of the file are:";;
  while (S (Z.to_nat MAX_LINE_NUMBER)) (fun j =>
    p <- text_at j;;
    match p with
    | None => ret (inr tt)
    | Some l =>
        o <- need (uprintf (chars "%d%d%d:%s" ++ [NL]) false
                     [UInt ((j + 1) / 100); UInt ((j + 1) mod 100 / 10); UInt ((j + 1) mod 10); UStr (Some (cstr l))]);;
        modify (add_out o);;
        ret (inl (j + 1))
    end) 0.

Definition get_line_number : K ed Z :=
  r <- for_find (Z.to_nat MAX_LINE_NUMBER) 0 (fun i =>
    p <- text_at i;;
    match p with None => ret (Some (i - 1)) | Some _ => ret None end);;
  ret (default (MAX_LINE_NUMBER - 1) r).

(** gets(input, MAX_LINE_LENGTH); input[strlen(input)-1] = 0: the string. *)
Definition get_input : K ed (list Z) :=
  i <- gets e_input;;
  let! (buf, rest) := need (gets_str zeros MAX_LINE_LENGTH i) in
  modify (set_input rest);;
  aset buf (strlen buf - 1) 0.

(** input: what follows the command, or a line typed for it. *)
Definition content (extra : list Z) : K ed (list Z) :=
  if chr extra =? 0 then
    say "please input content:";;
    get_input
  else need (ustrcpy zeros (cstr extra)).

Definition edited : K ed unit :=
  modify (set_changed 1);;
  a <- gets auto_show;;
  when (a =? 1) show_text.

Section junk.
Variable junk : list Z.

(** One iteration of the loop that makes room. *)
Definition shift_line (i : Z) : K ed unit :=
  p <- text_at (i - 1);;
  match p with
  | None => ret tt
  | Some l =>
      q <- text_at i;;
      (match q with None => text_put i (Some junk) | Some _ => ret tt end);;
      clear_line i;;
      copy_line i l
  end.

(** text[n] gets the line; a line that is new and follows an empty one goes
    into the empty one. *)
Definition place_line (n : Z) (input : list Z) : K ed unit :=
  p <- text_at n;;
  e <- (match p with
        | Some _ => ret false
        | None =>
            text_put n (Some junk);;
            l <- line_at (n - 1);;
            c <- aget l 0;;
            ret (c =? 0)
        end);;
  if e : bool then
    clear_line n;;
    copy_line (n - 1) input
  else
    clear_line n;;
    copy_line n input.
Definition com_ins (n : Z) (extra : list Z) : K ed unit :=
  g <- get_line_number;;
  if (n <? 0) || (g + 1 <? n) then say "invalid line number" else
  input <- content extra;;
  for_range (Z.to_nat (MAX_LINE_NUMBER - 1 - n)) 0 (fun k => shift_line (MAX_LINE_NUMBER - 1 - k));;
  place_line n input;;
  edited.

Definition com_mod (n : Z) (extra : list Z) : K ed unit :=
  g <- get_line_number;;
  if (n <=? 0) || (g + 1 <? n) then say "invalid line number" else
  input <- content extra;;
  clear_line (n - 1);;
  copy_line (n - 1) input;;
  edited.

Definition com_del (n : Z) : K ed unit :=
  g <- get_line_number;;
  if (n <=? 0) || (g + 1 <? n) then say "invalid line number" else
  clear_line (n - 1);;
  i <- while (Z.to_nat MAX_LINE_NUMBER) (fun i =>
    p <- text_at (i + 1);;
    match p with
    | None => ret (inr i)
    | Some l =>
        copy_line i l;;
        clear_line (i + 1);;
        ret (inl (i + 1))
    end) (n - 1);;
  when (negb (i =? 0)) (text_put i None);;
  edited.

Definition com_help : K ed unit :=
  say "****************************************";;
  say "instructions for use:";;
  say "ins-n, insert a line after line n";;
  say "mod-n, modify line n";;
  say "del-n, delete line n";;
  say "ins, insert a line after the last line";;
  say "mod, modify the last line";;
  say "del, delete the last line";;
  say "show, enable show current contents after executing a command.";;
  say "hide, disable show current contents after executing a command.";;
  say "save, save the file";;
  say "exit, exit editor".

(** write(fd, ...) to the file that was just opened, at its end. *)
Definition write_file (b : list Z) : K ed unit :=
  modify (fun s => set_file (Some (default [] (e_file s) ++ b)) s).

(** true: the program has ended. *)
Definition com_save : K ed bool :=
  modify (set_file None);;
  c <- gets e_create;;
  if negb c then say "save failed, file can't open:";; modify (set_status SHELL);; ret true else
  modify (set_file (Some []));;
  p <- text_at 0;;
  match p with
  | None => ret false
  | Some l =>
      write_file (cstr l);;
      while (S (Z.to_nat MAX_LINE_NUMBER)) (fun i =>
        p <- text_at i;;
        match p with
        | None => ret (inr tt)
        | Some l => write_file [NL];; write_file (cstr l);; ret (inl (i + 1))
        end) 1;;
      say "saved successfully";;
      modify (set_changed 0);;
      ret false
  end.

Definition com_exit : K ed bool :=
  c <- gets changed;;
  stop <- (if c =? 1 then
     say "save the file? y/n";;
     input <- get_input;;
     if ustrcmp (cstr input) (chars "y") =? 0 then com_save else ret false
   else ret false);;
  if stop : bool then ret true else
  while (S (Z.to_nat MAX_LINE_NUMBER)) (fun i =>
    p <- text_at i;;
    match p with None => ret (inr tt) | Some _ => text_put i None;; ret (inl (i + 1)) end) 0;;
  modify (set_status SHELL);;
  ret true.

(** ** main *)

(** One read of the file: its bytes up to a full array.  true: is_full. *)
Definition load_chunk (buf : list Z) : K ed bool :=
  let len := Z.of_nat (length buf) in
  while (S (length buf)) (fun next =>
    let i := next + Z.of_nat (newline_at (drop (Z.to_nat next) buf)) in
    n <- gets line_number;;
    l <- line_at n;;
    l <- strcat_n l (drop (Z.to_nat next) buf) (i - next);;
    text_put n (Some l);;
    full <- (if i <? len then
               if MAX_LINE_NUMBER - 1 <=? n then ret true
               else
                 modify (set_line_number (n + 1));;
                 text_put (n + 1) (Some junk);;
                 clear_line (n + 1);;
                 ret false
             else ret false);;
    if (full : bool) || (len - 1 <=? i) then ret (inr full) else ret (inl (i + 1))) 0.
Fixpoint load (chunks : list (list Z)) : K ed unit :=
  match chunks with
  | [] => ret tt
  | b :: chunks =>
      if 0 <? Z.of_nat (length b)
      then full <- load_chunk b;; if full : bool then ret tt else load chunks
      else ret tt
  end.

(** char *text[MAX_LINE_NUMBER] = {}; text[0] = malloc(...); memset *)
Definition start_text : K ed unit :=
  modify (set_text (replicate (Z.to_nat MAX_LINE_NUMBER) None));;
  text_put 0 (Some junk);;
  clear_line 0;;
  modify (set_line_number 0).

Definition starts_with (input : list Z) (s : string) : bool :=
  bool_decide (take (length (chars s)) input = chars s).
(** The first blank among the first eight characters: extra is after it. *)
Fixpoint extra_pos (n : nat) (j : Z) (input : list Z) : Z :=
  match n with
  | O => MAX_LINE_LENGTH - 1
  | S n => if input !!! Z.to_nat j =? 32 then j + 1 else extra_pos n (j + 1) input
  end.
(** The line the command names, or the last one. *)
Definition which (input : list Z) : K ed Z :=
  n <- gets line_number;;
  ret (if input !!! 3%nat =? 45 then atoi (cstr (drop 4 input)) else n + 1).
Definition update_line_number : K ed unit := g <- get_line_number;; modify (set_line_number g).

(** One command.  true: the program has ended. *)
Definition command : K ed bool :=
  modify (add_out [NL]);;
  say "please input command:";;
  input <- get_input;;
  let extra := drop (Z.to_nat (extra_pos 8 0 input)) input in
  let says (c : string) := ustrcmp (cstr input) (chars c) =? 0 in
  if starts_with input "ins" then
    n <- which input;; com_ins n extra;; update_line_number;; ret false
  else if starts_with input "mod" then
    n <- which input;; com_mod n extra;; ret false
  else if starts_with input "del" then
    n <- which input;; com_del n;; update_line_number;; ret false
  else if says "show"%string then
    modify (set_auto_show 1);; say "enable show current contents after text changed.";; ret false
  else if says "hide"%string then
    modify (set_auto_show 0);; say "disable show current contents after text changed.";; ret false
  else if says "help"%string then com_help;; ret false
  else if says "save"%string || (ustrcmp (cstr input) (chars "CTRL+S" ++ [NL]) =? 0) then com_save
  else if says "exit"%string then com_exit
  else say "invalid command.";; com_help;; ret false.

(** What successive read(fd, buf, BUF_SIZE) return. *)
Fixpoint reads (fuel : nat) (f : list Z) : list (list Z) :=
  match fuel with
  | O => []
  | S fuel =>
      match f with
      | [] => []
      | _ => take (Z.to_nat BUF_SIZE) f :: reads fuel (drop (Z.to_nat BUF_SIZE) f)
      end
  end.

(** argc: the number of arguments.  Every iteration of the loop takes input. *)
Definition main (argc : Z) : K ed unit :=
  modify (set_status EDITOR);;
  if argc =? 1 then
    say "please input the command as [editor file_name]";;
    modify (set_status SHELL)
  else
    start_text;;
    f <- gets e_file;;
    (match f with Some f => load (reads (length f) f) | None => ret tt end);;
    show_text;;
    com_help;;
    i <- gets e_input;;
    while (S (length i)) (fun _ =>
      stop <- command;;
      if stop : bool then ret (inr tt) else ret (inl tt)) tt.
End junk.
