(* ===== verification/EditorThms.v ===== *)
(** The editor against a list of lines: what the commands do to the text,
    what loading and saving do to the file. *)
From S2P Require Import Prelude Params Str Ulib Lines Editor.

Implicit Types (L : list (list Z)) (l e : list Z) (s : ed) (i n j : Z).
Abbreviation len l := (Z.of_nat (length l)).

(** ** The array of lines *)

(** The buffer that holds a line, and the array that holds a text. *)
Definition row l : list Z := l ++ replicate (256 - length l) 0.
Definition rows L : list (option (list Z)) := map (fun l => Some (row l)) L ++ replicate (256 - length L) None.
Record line_ok l : Prop := { lo_len : len l <= 255; lo_str : Forall (fun c => c <> 0) l }.
Definition text_ok L : Prop := 1 <= len L <= 256 /\ Forall line_ok L.

Section rows.
Lemma length_row l : (length l <= 256)%nat -> length (row l) = 256%nat.
Proof. intros. unfold row. rewrite length_app, length_replicate. lia. Qed.
Lemma cstr_row l : line_ok l -> cstr (row l) = l.
Proof.
  intros [Hl Hs]. unfold row. replace (256 - length l)%nat with (S (255 - length l)) by lia. cbn [replicate].
  by apply cstr_app_zero.
Qed.
Lemma ustrcpy_zeros (m : nat) l : (length l < m)%nat -> ustrcpy (replicate m 0) l = Some (l ++ replicate (m - length l) 0).
Proof.
  revert m. induction l as [|c l IH]; intros [|m] Hm; simpl in *; [lia|done|lia|]. rewrite IH by lia. done.
Qed.
Lemma ustrcpy_row l : (length l <= 255)%nat -> ustrcpy zeros l = Some (row l).
Proof. intros. apply (ustrcpy_zeros 256). lia. Qed.

Lemma length_rows L : (length L <= 256)%nat -> length (rows L) = 256%nat.
Proof. intros. unfold rows. rewrite length_app, length_map, length_replicate. lia. Qed.
Lemma rows_at L (k : nat) : (k < 256)%nat -> rows L !!! k = row <$> L !! k.
Proof.
  intros Hk. unfold rows. destruct (decide (k < length L)%nat) as [Hlt|Hge].
  - rewrite lookup_total_app_l by (by rewrite length_map). destruct (lookup_lt_is_Some_2 L k Hlt) as [l Hl]. rewrite Hl.
    apply list_lookup_total_correct. by rewrite list_lookup_fmap, Hl.
  - rewrite lookup_total_app_r, length_map by (rewrite length_map; lia). rewrite lookup_ge_None_2 by lia.
    apply lookup_total_replicate_2. lia.
Qed.
Lemma rows_insert L (k : nat) l : (k < length L)%nat -> <[k := Some (row l)]> (rows L) = rows (<[k := l]> L).
Proof.
  intros Hk. unfold rows. rewrite insert_app_l by (by rewrite length_map). rewrite length_insert. f_equal.
  symmetry. exact (list_fmap_insert (fun l => Some (row l)) L k l).
Qed.
Lemma rows_snoc L l : (length L < 256)%nat -> <[length L := Some (row l)]> (rows L) = rows (L ++ [l]).
Proof.
  intros Hl. unfold rows. rewrite <- (length_map (fun l => Some (row l)) L) at 1.
  rewrite <- (Nat.add_0_r (length (map _ L))), insert_app_r. rewrite map_app, length_app. simpl length.
  replace (256 - length L)%nat with (S (256 - (length L + 1))) by lia. cbn [replicate]. simpl. by rewrite <- app_assoc.
Qed.
Lemma rows_drop_last L l : (length L < 256)%nat -> <[length L := None]> (rows (L ++ [l])) = rows L.
Proof.
  intros Hl. rewrite <- rows_snoc, list_insert_insert_eq by done. unfold rows.
  rewrite <- (length_map (fun l => Some (row l)) L) at 1. rewrite <- (Nat.add_0_r (length (map _ L))), insert_app_r.
  f_equal. rewrite insert_replicate. done.
Qed.
(** The two ways to store a line. *)
Lemma rows_put L (k : nat) l : (k <= length L)%nat -> (k < 256)%nat ->
  <[k := Some (row l)]> (rows L) = rows (take k L ++ l :: drop (S k) L).
Proof.
  intros Hk Hk'. destruct (decide (k < length L)%nat) as [Hlt|Hge].
  - rewrite rows_insert by done. by rewrite insert_take_drop.
  - assert (k = length L) as -> by lia. rewrite rows_snoc by done. by rewrite firstn_all, drop_ge by lia.
Qed.
End rows.

(** ** Accesses *)
Section access.
Context (s : ed) (L : list (list Z)).
Hypotheses (Ht : e_text s = rows L) (HL : (length L <= 256)%nat).

Lemma wp_text_at i E (Q : option (list Z) -> ed -> Prop) :
  0 <= i < 256 -> Q (row <$> L !! Z.to_nat i) s -> wp (text_at i) E Q s.
Proof using Ht HL.
  intros Hi HQ. unfold text_at. apply wp_bind, wp_gets. rewrite Ht. apply wp_aget; [rewrite length_rows by done; lia|].
  by rewrite rows_at by lia.
Qed.
Lemma wp_text_put i p E (Q : unit -> ed -> Prop) :
  0 <= i < 256 -> Q tt (set_text (<[Z.to_nat i := p]> (rows L)) s) -> wp (text_put i p) E Q s.
Proof using Ht HL.
  intros Hi HQ. unfold text_put. apply wp_bind, wp_gets. rewrite Ht. apply wp_bind, wp_aset; [rewrite length_rows by done; lia|].
  by apply wp_modify.
Qed.
End access.
Lemma wp_line_at s i E (Q : list Z -> ed -> Prop) t b :
  e_text s = t -> length t = 256%nat -> 0 <= i < 256 -> t !!! Z.to_nat i = Some b -> Q b s -> wp (line_at i) E Q s.
Proof.
  intros Ht Hl Hi Hb HQ. unfold line_at, text_at. apply wp_bind, wp_bind, wp_gets. rewrite Ht.
  apply wp_aget; [lia|]. by rewrite Hb.
Qed.
Lemma wp_row_put s i p E (Q : unit -> ed -> Prop) t :
  e_text s = t -> length t = 256%nat -> 0 <= i < 256 -> Q tt (set_text (<[Z.to_nat i := p]> t) s) -> wp (text_put i p) E Q s.
Proof.
  intros Ht Hl Hi HQ. unfold text_put. apply wp_bind, wp_gets. rewrite Ht. apply wp_bind, wp_aset; [lia|]. by apply wp_modify.
Qed.

(** memset(text[i], 0, ...); strcpy(text[i], b): whatever the line was. *)
Lemma fill_line {B} s i b b0 E (m : K ed B) (Q : B -> ed -> Prop) t :
  e_text s = t -> length t = 256%nat -> 0 <= i < 256 -> t !!! Z.to_nat i = Some b0 -> len (cstr b) <= 255 ->
  wp m E Q (set_text (<[Z.to_nat i := Some (row (cstr b))]> t) s) ->
  wp (clear_line i;; copy_line i b;; m) E Q s.
Proof.
  intros Ht Hl Hi Hb Hlen HQ. unfold clear_line, copy_line. apply wp_bind, wp_bind. eapply wp_line_at; [done..|].
  eapply wp_row_put; [done..|]. apply wp_bind, wp_bind.
  eapply (wp_line_at _ _ _ _ (<[Z.to_nat i := Some zeros]> t)); [done|by rewrite length_insert|done|apply list_lookup_total_insert_eq; lia|].
  apply wp_bind. rewrite ustrcpy_row by lia. apply wp_ret.
  eapply (wp_row_put _ _ _ _ _ (<[Z.to_nat i := Some zeros]> t)); [done|by rewrite length_insert|done|].
  rewrite list_insert_insert_eq. exact HQ.
Qed.
Lemma fill_line1 s i b b0 E (Q : unit -> ed -> Prop) t :
  e_text s = t -> length t = 256%nat -> 0 <= i < 256 -> t !!! Z.to_nat i = Some b0 -> len (cstr b) <= 255 ->
  Q tt (set_text (<[Z.to_nat i := Some (row (cstr b))]> t) s) -> wp (clear_line i;; copy_line i b) E Q s.
Proof.
  intros Ht Hl Hi Hb Hlen HQ. pose proof (fill_line s i b b0 E (ret tt) Q t Ht Hl Hi Hb Hlen HQ) as Hw.
  unfold wp, bind, ret in *. destruct (clear_line i s) as [a s1|]; [|done]. by destruct (copy_line i b s1) as [[] s2|].
Qed.

(** ** Parts of the commands *)

(** The lines; nothing else the commands look at. *)
Definition holds s L : Prop := e_text s = rows L /\ text_ok L.

Section parts.
Lemma get_line_number_ok s L E (Q : Z -> ed -> Prop) : holds s L -> Q (len L - 1) s -> wp get_line_number E Q s.
Proof.
  intros [Ht [Hl _]] HQ. unfold get_line_number. apply wp_bind.
  apply (wp_for_find (fun j s' => s' = s /\ j <= len L)); [by split; [|lia]| |].
  - intros j s' Hj [-> Hjl]. apply wp_bind. eapply (wp_text_at s L); [done|lia|unfold MAX_LINE_NUMBER in Hj; lia|].
    destruct (L !! Z.to_nat j) as [l|] eqn:Hlk; simpl; apply wp_ret.
    + apply lookup_lt_Some in Hlk. split; [done|lia].
    + apply lookup_ge_None in Hlk. apply wp_ret. simpl. by replace (j - 1) with (len L - 1) by lia.
  - intros s' [-> Hjl]. apply wp_ret. simpl. unfold MAX_LINE_NUMBER in *. replace (256 - 1) with (len L - 1) by lia. done.
Qed.

Lemma uprintf_line (a b c : Z) (t : list Z) :
  exists o, uprintf (chars "%d%d%d:%s" ++ [NL]) false [UInt a; UInt b; UInt c; UStr (Some t)] = Some o.
Proof. eexists. cbn -[uprintint]. reflexivity. Qed.
Lemma show_text_ok s L E (Q : unit -> ed -> Prop) :
  holds s L -> len L < 256 -> (forall o, Q tt (add_out o s)) -> wp show_text E Q s.
Proof.
  intros [Ht [Hl _]] Hlt HQ. unfold show_text, say. do 2 apply wp_bind, wp_modify.
  apply (wp_while (fun j s' => 0 <= j <= len L /\ exists o, s' = add_out o s) (fun j => Z.to_nat (len L - j))).
  - split; [lia|]. eexists. unfold add_out. simpl. by rewrite <- app_assoc.
  - unfold MAX_LINE_NUMBER. lia.
  - intros j s' (Hj&o&->). apply wp_bind. eapply (wp_text_at _ L); [done|lia|lia|].
    destruct (L !! Z.to_nat j) as [l|] eqn:Hlk; cbn [fmap option_fmap option_map].
    + apply lookup_lt_Some in Hlk. apply wp_bind.
      destruct (uprintf_line ((j + 1) / 100) ((j + 1) mod 100 / 10) ((j + 1) mod 10) (cstr (row l))) as [o' ->].
      apply wp_ret, wp_bind, wp_modify, wp_ret.
      split; [|lia]. split; [lia|]. eexists. unfold add_out. simpl. by rewrite <- app_assoc.
    + apply wp_ret. apply HQ.
Qed.
Lemma edited_ok s L E (Q : unit -> ed -> Prop) :
  holds s L -> len L < 256 -> (forall o, Q tt (add_out o (set_changed 1 s))) -> wp edited E Q s.
Proof.
  intros Hh Hlt HQ. unfold edited. apply wp_bind, wp_modify, wp_bind, wp_gets, wp_when; intros _.
  - eapply (show_text_ok _ L); done.
  - specialize (HQ []). unfold add_out in HQ. simpl in HQ. rewrite app_nil_r in HQ. exact HQ.
Qed.

(** [e] is the line the command gets: what follows it, or what is typed. *)
Definition gives (extra input e rest : list Z) : Prop :=
  line_ok e /\
  ((chr extra <> 0 /\ e = cstr extra /\ rest = input) \/
   (chr extra = 0 /\ input = e ++ NL :: rest /\ len e <= 254 /\ Forall (fun c => c <> 10 /\ c <> 13) e)).

Lemma gets_loop_line (m : nat) e rest :
  (length e < m)%nat -> Forall (fun c => c <> 10 /\ c <> 13) e -> gets_loop m (e ++ NL :: rest) = (e ++ [NL], rest).
Proof.
  intros Hm He. revert m Hm. induction He as [|c e [Hc Hc'] He IH]; intros [|m] Hm; simpl in *; [lia|done|lia|].
  rewrite (proj2 (Z.eqb_neq c 10)), (proj2 (Z.eqb_neq c 13)) by done. simpl. by rewrite IH by lia.
Qed.
Lemma strlen_cstr (p : list Z) : strlen p = len (cstr p).
Proof.
  unfold strlen. assert (H : forall n, strlen_from p n = n + len (cstr p)); [|by rewrite H].
  induction p as [|c p IH]; intros n; simpl; [lia|]. destruct (c =? 0); simpl; [lia|]. rewrite IH. lia.
Qed.
(** A typed line loses its newline. *)
Lemma get_input_ok s e rest E (Q : list Z -> ed -> Prop) :
  e_input s = e ++ NL :: rest -> line_ok e -> len e <= 254 -> Forall (fun c => c <> 10 /\ c <> 13) e ->
  (forall b, cstr b = e -> b !! length e = Some 0 -> length b = 256%nat -> take (length e) b = e -> Q b (set_input rest s)) ->
  wp get_input E Q s.
Proof.
  intros Hin [Hl Hs] Hlen Hnl HQ. unfold get_input. apply wp_bind, wp_gets. rewrite Hin. apply wp_bind.
  unfold gets_str. change (Z.to_nat (MAX_LINE_LENGTH - 1)) with 255%nat. rewrite gets_loop_line by (done || lia).
  change (length zeros) with 256%nat. rewrite length_app. simpl length. rewrite (proj2 (Nat.ltb_ge _ _)) by lia.
  apply wp_ret, wp_bind, wp_modify.
  set (z := drop _ zeros). assert (Hlz : (length z = 256 - (length e + 1 + 1))%nat).
  { unfold z. rewrite length_drop. change (length zeros) with 256%nat. lia. }
  assert (Hc : cstr ((e ++ [NL]) ++ [0] ++ z) = e ++ [NL]).
  { apply cstr_app_zero. apply Forall_app_2; [done|by constructor]. }
  rewrite strlen_cstr, Hc, length_app. simpl (length [NL]). replace (Z.of_nat (length e + 1) - 1) with (len e) by lia.
  apply wp_aset; [rewrite !length_app; simpl; lia|]. rewrite Nat2Z.id. rewrite <- app_assoc.
  replace (<[length e := 0]> (e ++ [NL] ++ [0] ++ z)) with (e ++ 0 :: 0 :: z)
    by (rewrite insert_app_r_alt, Nat.sub_diag by lia; done).
  apply HQ.
  - by apply cstr_app_zero.
  - rewrite lookup_app_r, Nat.sub_diag by lia. done.
  - rewrite length_app. simpl. lia.
  - apply take_app_length.
Qed.
Lemma content_ok s extra e rest E (Q : list Z -> ed -> Prop) :
  gives extra (e_input s) e rest ->
  (forall b o, cstr b = e -> Q b (set_input rest (add_out o s))) -> wp (content extra) E Q s.
Proof.
  intros [He [(Hx&->&->)|(Hx&Hin&Hl&Hn)]] HQ; unfold content.
  - rewrite (proj2 (Z.eqb_neq _ _)) by done. rewrite ustrcpy_row by (destruct He; lia). apply wp_ret.
    specialize (HQ (row (cstr extra)) [] (cstr_row _ He)). unfold add_out, set_input in HQ. simpl in HQ.
    rewrite app_nil_r in HQ. by destruct s.
  - rewrite (proj2 (Z.eqb_eq _ _)) by done. apply wp_bind, wp_modify.
    eapply (get_input_ok _ e rest); [done..|]. intros b Hb _ _ _. by apply HQ.
Qed.
End parts.

(** ** The commands on the lines *)
Definition ins_line (n : Z) e L : list (list Z) :=
  let k := Z.to_nat n in
  if (n =? len L) && bool_decide (L !! (k - 1)%nat = Some [])
  then take (k - 1) L ++ [e; []]
  else take k L ++ e :: drop k L.
Definition mod_line (n : Z) e L : list (list Z) := <[Z.to_nat (n - 1) := e]> L.
Definition del_line (n : Z) L : list (list Z) :=
  if len L =? 1 then [[]] else take (Z.to_nat (n - 1)) L ++ drop (Z.to_nat n) L.

(** What a command that edits leaves: the new lines, the rest of the input,
    the mark that the text was changed; the file is as it was. *)
Record edit s (rest : list Z) (L' : list (list Z)) (s' : ed) : Prop := {
  ed_text : e_text s' = rows L';
  ed_changed : changed s' = 1;
  ed_input : e_input s' = rest;
  ed_same : line_number s' = line_number s /\ auto_show s' = auto_show s /\ e_file s' = e_file s /\
            e_create s' = e_create s /\ e_status s' = e_status s }.

Section commands.
Variable junk : list Z.

Lemma edit_out s rest o o' L' :
  edit s rest L' (add_out o' (set_changed 1 (set_text (rows L') (set_input rest (add_out o s))))).
Proof. by split. Qed.

Lemma text_ok_put L (k : nat) e : text_ok L -> line_ok e -> (k <= length L)%nat -> (k < 256)%nat ->
  text_ok (take k L ++ e :: drop (S k) L).
Proof.
  intros [Hl HL] He Hk Hk'. split.
  - rewrite length_app, length_cons, length_take, length_drop. lia.
  - apply Forall_app_2; [by apply Forall_take|]. constructor; [done|]. by apply Forall_drop.
Qed.

Lemma com_mod_ok s L extra e rest n :
  holds s L -> len L < 256 -> 1 <= n <= len L -> gives extra (e_input s) e rest ->
  wp (com_mod n extra) noerr (fun _ s' => edit s rest (mod_line n e L) s' /\ text_ok (mod_line n e L)) s.
Proof.
  intros Hh Hlt Hn Hg. unfold com_mod. apply wp_bind. eapply (get_line_number_ok s L); [done|].
  rewrite (proj2 (Z.leb_gt n 0)), (proj2 (Z.ltb_ge (len L - 1 + 1) n)) by lia. cbn [orb].
  apply wp_bind. eapply content_ok; [done|]. intros b o Hb. destruct Hh as [Ht HL]. destruct Hg as [He _].
  assert (Hk : (Z.to_nat (n - 1) < length L)%nat) by lia. destruct (lookup_lt_is_Some_2 L _ Hk) as [l Hl].
  assert (Hok : text_ok (mod_line n e L)).
  { unfold mod_line. rewrite insert_take_drop by done. apply text_ok_put; (done || lia). }
  eapply (fill_line _ (n - 1) b (row l) _ _ _ (rows L)); [done|apply length_rows; lia|lia| |rewrite Hb; apply He|].
  { rewrite rows_at by lia. by rewrite Hl. }
  rewrite Hb, rows_insert by done. fold (mod_line n e L).
  eapply (edited_ok _ (mod_line n e L)); [by split|unfold mod_line; by rewrite length_insert|].
  intros o'. split; [apply edit_out|done].
Qed.

(** Making room: the lines from [j] on move down by one. *)
Definition shifted (j : Z) L : list (list Z) := take (Z.to_nat (j + 1)) L ++ drop (Z.to_nat j) L.
Lemma shifted_at j L : 0 <= j -> len (shifted j L) = if j <? len L then len L + 1 else len L.
Proof.
  intros Hj. unfold shifted. rewrite length_app, length_take, length_drop. destruct (Z.ltb_spec j (len L)); lia.
Qed.
Lemma shifted_step j L l : 1 <= j -> L !! Z.to_nat (j - 1) = Some l ->
  take (Z.to_nat j) (shifted j L) ++ l :: drop (S (Z.to_nat j)) (shifted j L) = shifted (j - 1) L.
Proof.
  intros Hj Hl. pose proof (lookup_lt_Some _ _ _ Hl) as Hlt. unfold shifted.
  replace (Z.to_nat (j - 1 + 1)) with (Z.to_nat j) by lia. replace (Z.to_nat (j + 1)) with (S (Z.to_nat j)) by lia.
  rewrite (drop_S L l (Z.to_nat (j - 1)) Hl). replace (S (Z.to_nat (j - 1))) with (Z.to_nat j) by lia.
  rewrite take_app_le by (rewrite length_take; lia). rewrite take_take, Nat.min_l by lia. do 2 f_equal.
  destruct (decide (Z.to_nat j < length L)%nat).
  - rewrite drop_app_length' by (rewrite length_take; lia). done.
  - rewrite (drop_ge L) by lia. rewrite app_nil_r. rewrite drop_ge; [done|]. rewrite length_take. lia.
Qed.
Lemma shift_line_ok s L j E (Q : unit -> ed -> Prop) :
  e_text s = rows (shifted j L) -> Forall line_ok L -> len L <= 255 -> 1 <= j < 256 ->
  Q tt (set_text (rows (shifted (j - 1) L)) s) -> wp (shift_line junk j) E Q s.
Proof.
  intros Ht HL Hlen Hj HQ. pose proof (shifted_at j L ltac:(lia)) as Hsl.
  assert (Hs256 : (length (shifted j L) <= 256)%nat) by (destruct (j <? len L); lia).
  assert (Hprev : shifted j L !! Z.to_nat (j - 1) = L !! Z.to_nat (j - 1)).
  { unfold shifted. destruct (decide (Z.to_nat (j - 1) < length L)%nat).
    - rewrite lookup_app_l by (rewrite length_take; lia). rewrite lookup_take_lt by lia. done.
    - rewrite lookup_ge_None_2; [by rewrite lookup_ge_None_2 by lia|]. destruct (Z.ltb_spec j (len L)); unfold shifted in Hsl; lia. }
  unfold shift_line. apply wp_bind. eapply (wp_text_at _ (shifted j L)); [done|done|lia|]. rewrite Hprev.
  destruct (L !! Z.to_nat (j - 1)) as [l|] eqn:Hl; cbn [fmap option_fmap option_map].
  - assert (Hlo : line_ok l) by (by eapply (proj1 (Forall_lookup _ _) HL)). apply lookup_lt_Some in Hl as Hlt.
    apply wp_bind. eapply (wp_text_at _ (shifted j L)); [done|done|lia|].
    assert (Hfin : rows (shifted (j - 1) L) = <[Z.to_nat j := Some (row (cstr (row l)))]> (rows (shifted j L))).
    { rewrite cstr_row, rows_put, shifted_step by (done || (destruct (Z.ltb_spec j (len L)); lia)). done. }
    apply wp_bind. destruct (shifted j L !! Z.to_nat j) as [l'|] eqn:Hl'; cbn [fmap option_fmap option_map].
    + apply wp_ret. eapply (fill_line1 _ j _ (row l') _ _ (rows (shifted j L))); [done|by apply length_rows|lia|rewrite rows_at, Hl' by lia; done| |].
      * rewrite cstr_row by done. apply Hlo.
      * by rewrite <- Hfin.
    + eapply (wp_row_put _ _ _ _ _ (rows (shifted j L))); [done|by apply length_rows|lia|].
      eapply (fill_line1 _ j _ junk _ _ (<[Z.to_nat j := Some junk]> (rows (shifted j L)))).
      * done.
      * by rewrite length_insert, length_rows.
      * lia.
      * apply list_lookup_total_insert_eq. rewrite length_rows by done. lia.
      * rewrite cstr_row by done. apply Hlo.
      * rewrite list_insert_insert_eq, <- Hfin. exact HQ.
  - apply wp_ret. assert (Heq : shifted (j - 1) L = shifted j L).
    { apply lookup_ge_None in Hl. unfold shifted. rewrite !take_ge, !drop_ge by lia. done. }
    rewrite Heq, <- Ht in HQ. by destruct s.
Qed.

Lemma ins_line_ok n e L : text_ok L -> line_ok e -> 0 <= n <= len L -> len L <= 255 -> text_ok (ins_line n e L).
Proof.
  intros [Hl HL] He Hn Hlen. unfold ins_line. cbv zeta. destruct ((n =? len L) && _) eqn:Hc.
  - split; [rewrite length_app, length_take; simpl; lia|]. apply Forall_app_2; [by apply Forall_take|].
    repeat constructor; [apply He|apply He|simpl; lia].
  - split; [rewrite length_app, length_cons, length_take, length_drop; lia|].
    apply Forall_app_2; [by apply Forall_take|]. constructor; [done|by apply Forall_drop].
Qed.
Lemma length_ins_line n e L : 0 <= n <= len L -> 1 <= len L -> len (ins_line n e L) = len L + 1.
Proof.
  intros Hn Hl. unfold ins_line. cbv zeta. destruct ((n =? len L) && _) eqn:Hc.
  - apply andb_prop in Hc as [Hc%Z.eqb_eq _]. rewrite length_app, length_take. simpl. lia.
  - rewrite length_app, length_cons, length_take, length_drop. lia.
Qed.
(** strcpy into a line that was cleared. *)
Lemma copy_cleared s i b E (Q : unit -> ed -> Prop) t :
  e_text s = t -> length t = 256%nat -> 0 <= i < 256 -> t !!! Z.to_nat i = Some zeros -> len (cstr b) <= 255 ->
  Q tt (set_text (<[Z.to_nat i := Some (row (cstr b))]> t) s) -> wp (copy_line i b) E Q s.
Proof.
  intros Ht Hl Hi Hz Hlen HQ. unfold copy_line. apply wp_bind. eapply wp_line_at; [done..|].
  rewrite ustrcpy_row by lia. apply wp_bind, wp_ret. by eapply wp_row_put.
Qed.

(** The end of com_ins: text[n] gets the line, unless it is new and follows
    an empty line. *)
Lemma place_line_ok s L n b e E (Q : unit -> ed -> Prop) :
  e_text s = rows (shifted n L) -> text_ok L -> len L <= 255 -> 0 <= n <= len L -> cstr b = e -> line_ok e ->
  Q tt (set_text (rows (ins_line n e L)) s) ->
  wp (place_line junk n b) E Q s.
Proof.
  intros Ht [Hl HL] Hlen Hn Hb He HQ. destruct He as [Hel Hes].
  assert (Hsl : len (shifted n L) <= 256) by (rewrite shifted_at by lia; destruct (n <? len L); lia).
  unfold place_line. apply wp_bind. eapply (wp_text_at _ (shifted n L)); [done|lia|lia|]. unfold ins_line in HQ. cbv zeta in HQ.
  destruct (Z.eqb_spec n (len L)) as [->|Hne].
  - assert (Hsh : shifted (len L) L = L) by (unfold shifted; by rewrite take_ge, drop_ge, app_nil_r by lia).
    rewrite Hsh in *. rewrite Nat2Z.id in *. rewrite lookup_ge_None_2 by lia. cbn [fmap option_fmap option_map].
    destruct (lookup_lt_is_Some_2 L (length L - 1) ltac:(lia)) as [l Hlk]. rewrite Hlk in HQ. cbn [andb] in HQ.
    assert (Hlo : line_ok l) by (by eapply (proj1 (Forall_lookup _ _) HL)).
    apply wp_bind, wp_bind. eapply (wp_row_put _ _ _ _ _ (rows L)); [done|apply length_rows; lia|lia|].
    set (t1 := <[_ := Some junk]> (rows L)). assert (Ht1 : length t1 = 256%nat) by (unfold t1; by rewrite length_insert, length_rows by lia).
    apply wp_bind. eapply (wp_line_at _ _ _ _ t1 (row l)); [done|done|lia| |].
    { unfold t1. rewrite list_lookup_total_insert_ne by lia. rewrite rows_at by lia.
      replace (Z.to_nat (len L - 1)) with (length L - 1)%nat by lia. by rewrite Hlk. }
    apply wp_bind, wp_aget; [rewrite length_row by (destruct Hlo; lia); lia|]. apply wp_ret.
    assert (Hz : (row l !!! Z.to_nat 0 =? 0) = bool_decide (l = [])).
    { destruct l as [|a l]; [done|]. destruct Hlo as [_ Hs]. inversion Hs; subst. unfold row. simpl.
      rewrite (proj2 (Z.eqb_neq a 0)) by done. done. }
    rewrite Hz. destruct (decide (l = [])) as [->|Hnl].
    + rewrite !bool_decide_true by done. rewrite bool_decide_true in HQ by done. unfold clear_line.
      apply wp_bind, wp_bind. eapply (wp_line_at _ _ _ _ t1 junk); [done|done|lia|unfold t1; rewrite Nat2Z.id; apply list_lookup_total_insert_eq; rewrite length_rows; lia|].
      eapply (wp_row_put _ _ _ _ _ t1); [done|done|lia|]. unfold t1. rewrite Nat2Z.id, list_insert_insert_eq.
      change zeros with (row []). rewrite rows_snoc by lia.
      eapply (copy_cleared _ _ _ _ _ (rows (L ++ [[]]))); [done|apply length_rows; rewrite length_app; simpl; lia|lia| |by rewrite Hb|].
      { rewrite rows_at by lia. replace (Z.to_nat (len L - 1)) with (length L - 1)%nat by lia. rewrite lookup_app_l, Hlk by lia. done. }
      rewrite Hb, rows_insert by (rewrite length_app; simpl; lia). replace (Z.to_nat (len L - 1)) with (length L - 1)%nat by lia.
      rewrite insert_take_drop by (rewrite length_app; simpl; lia). rewrite take_app_le by lia.
      rewrite drop_app_le by lia. rewrite drop_ge by lia. exact HQ.
    + rewrite bool_decide_false by done. rewrite bool_decide_false in HQ by congruence.
      eapply (fill_line1 _ _ _ junk _ _ t1); [done|done|lia|unfold t1; rewrite Nat2Z.id; apply list_lookup_total_insert_eq; rewrite length_rows; lia|by rewrite Hb|].
      unfold t1. rewrite Nat2Z.id, list_insert_insert_eq, Hb, rows_snoc by lia. rewrite firstn_all, drop_all in HQ. exact HQ.
  - cbn [andb] in HQ. destruct (lookup_lt_is_Some_2 L (Z.to_nat n) ltac:(lia)) as [l Hlk].
    assert (Hat : shifted n L !! Z.to_nat n = Some l).
    { unfold shifted. rewrite lookup_app_l by (rewrite length_take; lia). by rewrite lookup_take_lt by lia. }
    rewrite Hat. cbn [fmap option_fmap option_map]. apply wp_bind, wp_ret.
    eapply (fill_line1 _ _ _ (row l) _ _ (rows (shifted n L))); [done|apply length_rows; lia|lia|rewrite rows_at, Hat by lia; done|by rewrite Hb|].
    rewrite Hb, rows_put by (apply lookup_lt_Some in Hat; lia).
    replace (take (Z.to_nat n) (shifted n L)) with (take (Z.to_nat n) L).
    + replace (drop (S (Z.to_nat n)) (shifted n L)) with (drop (Z.to_nat n) L); [exact HQ|].
      unfold shifted. rewrite drop_app_length'; [done|]. rewrite length_take. lia.
    + unfold shifted. rewrite take_app_le by (rewrite length_take; lia). rewrite take_take. f_equal. lia.
Qed.

Lemma com_ins_ok s L extra e rest n :
  holds s L -> len L < 255 -> 0 <= n <= len L -> gives extra (e_input s) e rest ->
  wp (com_ins junk n extra) noerr (fun _ s' => edit s rest (ins_line n e L) s' /\ text_ok (ins_line n e L)) s.
Proof.
  intros Hh Hlt Hn Hg. unfold com_ins. apply wp_bind. eapply (get_line_number_ok s L); [done|].
  rewrite (proj2 (Z.ltb_ge n 0)), (proj2 (Z.ltb_ge (len L - 1 + 1) n)) by lia. cbn [orb].
  apply wp_bind. eapply content_ok; [done|]. intros b o Hb. destruct Hh as [Ht HL]. destruct Hg as [He _].
  set (s0 := set_input rest (add_out o s)). change (MAX_LINE_NUMBER - 1) with 255. apply wp_bind.
  apply (wp_for_range (fun k s' => s' = set_text (rows (shifted (255 - k) L)) s0)).
  - assert (Hsh : shifted (255 - 0) L = L) by (unfold shifted; by rewrite take_ge, drop_ge, app_nil_r by lia).
    rewrite Hsh, <- Ht. by destruct s.
  - intros k s' Hk ->. apply (shift_line_ok _ L); [done|apply HL|lia|lia|].
    by replace (255 - k - 1) with (255 - (k + 1)) by lia.
  - intros s' ->. replace (255 - (0 + Z.of_nat (Z.to_nat (255 - n)))) with n by lia. apply wp_bind.
    apply (place_line_ok _ L n b e); [done|done|lia|done|done|done|].
    assert (Hok := ins_line_ok n e L HL He Hn ltac:(lia)).
    eapply (edited_ok _ (ins_line n e L)); [by split|rewrite length_ins_line by (destruct HL; lia); lia|].
    intros o'. split; [exact (edit_out s rest o o' (ins_line n e L))|done].
Qed.

(** Deleting: the lines without line [n], with the empty line at [i]. *)
Definition closing (i : Z) (M : list (list Z)) : list (list Z) := take (Z.to_nat i) M ++ [] :: drop (Z.to_nat i) M.
Lemma length_closing i M : length (closing i M) = S (length M).
Proof. unfold closing. rewrite length_app, length_cons, length_take, length_drop. lia. Qed.
Lemma closing_at i M : 0 <= i <= len M -> closing i M !! Z.to_nat i = Some [].
Proof. intros Hi. unfold closing. rewrite lookup_app_r by (rewrite length_take; lia). rewrite length_take, Nat.min_l, Nat.sub_diag by lia. done. Qed.
Lemma closing_next i M : 0 <= i <= len M -> closing i M !! Z.to_nat (i + 1) = M !! Z.to_nat i.
Proof.
  intros Hi. unfold closing. rewrite lookup_app_r by (rewrite length_take; lia). rewrite length_take, Nat.min_l by lia.
  replace (Z.to_nat (i + 1) - Z.to_nat i)%nat with 1%nat by lia. simpl. rewrite lookup_drop. f_equal. lia.
Qed.
Lemma closing_step i M l : 0 <= i -> M !! Z.to_nat i = Some l ->
  <[Z.to_nat (i + 1) := []]> (<[Z.to_nat i := l]> (closing i M)) = closing (i + 1) M.
Proof.
  intros Hi Hl. pose proof (lookup_lt_Some _ _ _ Hl) as Hlt. unfold closing.
  rewrite (drop_S _ _ _ Hl). replace (Z.to_nat (i + 1)) with (S (Z.to_nat i)) by lia.
  rewrite (take_S_r _ _ _ Hl). rewrite <- app_assoc. simpl app.
  assert (Hlt' : length (take (Z.to_nat i) M) = Z.to_nat i) by (rewrite length_take; lia).
  rewrite insert_app_r_alt, Hlt', Nat.sub_diag by lia. rewrite insert_app_r_alt, Hlt' by lia.
  replace (S (Z.to_nat i) - Z.to_nat i)%nat with 1%nat by lia. done.
Qed.

Lemma com_del_ok s L n :
  holds s L -> len L < 256 -> 1 <= n <= len L ->
  wp (com_del n) noerr (fun _ s' => edit s (e_input s) (del_line n L) s' /\ text_ok (del_line n L)) s.
Proof.
  intros Hh Hlt Hn. unfold com_del. apply wp_bind. eapply (get_line_number_ok s L); [done|].
  rewrite (proj2 (Z.leb_gt n 0)), (proj2 (Z.ltb_ge (len L - 1 + 1) n)) by lia. cbn [orb]. destruct Hh as [Ht [Hl HL]].
  set (M := take (Z.to_nat (n - 1)) L ++ drop (Z.to_nat n) L).
  assert (HM : len M = len L - 1) by (unfold M; rewrite length_app, length_take, length_drop; lia).
  assert (HMok : Forall line_ok M) by (apply Forall_app_2; [by apply Forall_take|by apply Forall_drop]).
  destruct (lookup_lt_is_Some_2 L (Z.to_nat (n - 1)) ltac:(lia)) as [l0 Hl0].
  unfold clear_line at 1. apply wp_bind, wp_bind. eapply (wp_line_at _ _ _ _ (rows L)); [done|apply length_rows; lia|lia|rewrite rows_at, Hl0 by lia; done|].
  eapply (wp_row_put _ _ _ _ _ (rows L)); [done|apply length_rows; lia|lia|]. change zeros with (row []).
  rewrite rows_insert, insert_take_drop by lia. apply wp_bind.
  apply (wp_while (fun i s' => n - 1 <= i <= len M /\ s' = set_text (rows (closing i M)) s) (fun i => Z.to_nat (len M - i))).
  - split; [lia|]. do 2 f_equal. unfold closing, M. rewrite take_app_le by (rewrite length_take; lia).
    rewrite take_take, Nat.min_id. rewrite drop_app_length' by (rewrite length_take; lia).
    replace (S (Z.to_nat (n - 1))) with (Z.to_nat n) by lia. done.
  - unfold MAX_LINE_NUMBER. lia.
  - intros i s' (Hi&->). pose proof (length_closing i M) as Hcl. apply wp_bind.
    eapply (wp_text_at _ (closing i M)); [done|lia|lia|]. rewrite closing_next by lia.
    destruct (M !! Z.to_nat i) as [l|] eqn:HMi; cbn [fmap option_fmap option_map].
    + apply lookup_lt_Some in HMi as Hilt. assert (Hlo : line_ok l) by (by eapply (proj1 (Forall_lookup _ _) HMok)).
      apply wp_bind. eapply (copy_cleared _ _ _ _ _ (rows (closing i M))); [done|apply length_rows; lia|lia| |rewrite cstr_row by done; apply Hlo|].
      { rewrite rows_at, closing_at by lia. done. }
      rewrite cstr_row, rows_insert by (done || lia). unfold clear_line. apply wp_bind, wp_bind.
      eapply (wp_line_at _ _ _ _ (rows (<[Z.to_nat i := l]> (closing i M)))); [done|apply length_rows; rewrite length_insert; lia|lia| |].
      { rewrite rows_at, list_lookup_insert_ne, closing_next, HMi by lia. done. }
      eapply (wp_row_put _ _ _ _ _ (rows (<[Z.to_nat i := l]> (closing i M)))); [done|apply length_rows; rewrite length_insert; lia|lia|].
      change zeros with (row []). rewrite rows_insert by (rewrite length_insert; lia).
      rewrite (closing_step i M l) by (done || lia). apply wp_ret. split; [|lia]. split; [lia|done].
    + apply wp_ret. apply lookup_ge_None in HMi. assert (i = len M) as -> by lia.
      assert (Hend : closing (len M) M = M ++ [[]]) by (unfold closing; by rewrite Nat2Z.id, firstn_all, drop_all).
      rewrite Hend. apply wp_bind.
      assert (Hdel : text_ok (del_line n L)).
      { unfold del_line. destruct (Z.eqb_spec (len L) 1); fold M; split; simpl; try lia; [|done]. constructor; [split; simpl; [lia|done]|done]. }
      assert (Hfin : forall s', s' = set_text (rows (del_line n L)) s -> wp edited noerr
        (fun _ s' => edit s (e_input s) (del_line n L) s' /\ text_ok (del_line n L)) s').
      { intros s' ->. eapply (edited_ok _ (del_line n L)); [by split| |].
        - unfold del_line. destruct (Z.eqb_spec (len L) 1); [done|]. fold M. lia.
        - intros o'. split; [by split|done]. }
      unfold del_line in *. destruct (Z.eqb_spec (len L) 1) as [H1|H1].
      * assert (M = []) as HM0 by (apply nil_length_inv; lia). rewrite HM0 in *. simpl. apply wp_ret. by apply Hfin.
      * fold M in Hfin, Hdel |- *. rewrite (proj2 (Z.eqb_neq (len M) 0)) by lia. cbn [negb when].
        eapply (wp_row_put _ _ _ _ _ (rows (M ++ [[]]))); [done|apply length_rows; rewrite length_app; simpl; lia|lia|].
        rewrite Nat2Z.id, rows_drop_last by lia. by apply Hfin.
Qed.
End commands.

(** ** Files and lines *)
Section lines.
Implicit Types (f g : list Z).
(** A part of a file that fits. *)
Lemma text_ok_prefix f g : text_ok (lines_of (f ++ g)) -> text_ok (lines_of f).
Proof.
  destruct (lines_of_last f) as (P&l&Hf). destruct (lines_of_cons g) as (l'&ls&Hg).
  rewrite (lines_of_app f g P l l' ls Hf Hg), Hf. intros [Hl HL]. rewrite length_app in Hl. simpl in Hl.
  apply Forall_app in HL as [HP Hr]. inversion Hr as [|? ? [Hll Hls] _]; subst. split.
  - rewrite length_app. simpl. lia.
  - apply Forall_app_2; [done|]. constructor; [|done]. rewrite length_app in Hll. apply Forall_app in Hls as [? _]. split; [lia|done].
Qed.
End lines.

(** ** load *)
Section load.
Variable junk : list Z.

Lemma splice_row l (t : list Z) :
  (length l + length t <= 255)%nat -> splice (len l) (t ++ [0]) (row l) = row (l ++ t).
Proof.
  intros Hl. unfold row. rewrite splice_app_eq; [|lia|rewrite !length_app, length_replicate; simpl; lia].
  rewrite Nat2Z.id, take_app_length. rewrite drop_app_ge by lia. rewrite drop_replicate, length_app. simpl (length [0]).
  rewrite <- !app_assoc. do 2 f_equal. rewrite length_app.
  replace (256 - (length l + length t))%nat with (1 + (256 - (length l + length t) - 1))%nat by lia.
  rewrite replicate_add. simpl. do 2 f_equal. lia.
Qed.
Lemma strcat_n_ok s l (src : list Z) (n : nat) E (Q : list Z -> ed -> Prop) :
  line_ok (l ++ take n src) -> (n <= length src)%nat -> Q (row (l ++ take n src)) s ->
  wp (strcat_n (row l) src (Z.of_nat n)) E Q s.
Proof.
  intros Hok Hn HQ. assert (Hl : line_ok l).
  { destruct Hok as [H1 H2]. rewrite length_app in H1. apply Forall_app in H2 as [? _]. split; [lia|done]. }
  destruct Hok as [Hlen _]. rewrite length_app, length_take in Hlen. unfold strcat_n. destruct (Z.leb_spec (Z.of_nat n) 0).
  - assert (n = 0%nat) as -> by lia. simpl in HQ. rewrite app_nil_r in HQ. by apply wp_ret.
  - cbv zeta. rewrite strlen_cstr, cstr_row by done. unfold MAX_LINE_LENGTH. rewrite (proj2 (Z.leb_gt 256 _)) by lia.
    rewrite (proj2 (Z.leb_le _ (len src))) by lia. rewrite (proj2 (Z.ltb_lt (len l + Z.of_nat n) _)) by (rewrite length_row by (destruct Hl; lia); lia).
    cbn [andb]. apply wp_ret. rewrite Nat2Z.id, splice_row by (rewrite length_take; lia). done.
Qed.

(** The text read so far. *)
Definition loaded s (f : list Z) : ed := set_line_number (len (lines_of f) - 1) (set_text (rows (lines_of f)) s).

(** The buffers after a piece of a line, and after the newline. *)
Lemma loaded_line s g P l (t : list Z) :
  lines_of g = P ++ [l] -> no_nl t -> (length P < 256)%nat ->
  set_text (<[length P := Some (row (l ++ t))]> (rows (P ++ [l]))) (loaded s g) = loaded s (g ++ t).
Proof.
  intros Hg Ht HP. unfold loaded. rewrite (lines_of_app g t P l t [] Hg (lines_of_plain t Ht)), Hg.
  rewrite rows_insert by (rewrite length_app; simpl; lia). rewrite insert_app_r_alt, Nat.sub_diag by lia.
  rewrite !length_app. done.
Qed.
Lemma loaded_nl s g P l :
  lines_of g = P ++ [l] -> (length P + 1 < 256)%nat ->
  set_text (<[length (P ++ [l]) := Some (row [])]> (rows (P ++ [l]))) (set_line_number (len P + 1) (loaded s g)) = loaded s (g ++ [NL]).
Proof.
  intros Hg HP. unfold loaded. rewrite (lines_of_app g [NL] P l [] [[]] Hg eq_refl), app_nil_r.
  rewrite rows_snoc by (rewrite length_app; simpl; lia). rewrite <- app_assoc. cbn [app].
  unfold set_text, set_line_number. simpl. f_equal. rewrite length_app. simpl. lia.
Qed.

(** A newline: the next line is made. *)
Lemma new_line_ok s g P l E (Q : bool -> ed -> Prop) :
  lines_of g = P ++ [l] -> (length P + 1 < 256)%nat -> Q false (loaded s (g ++ [NL])) ->
  wp (if MAX_LINE_NUMBER - 1 <=? len P then ret true
      else modify (set_line_number (len P + 1));; text_put (len P + 1) (Some junk);; clear_line (len P + 1);; ret false)
    E Q (loaded s g).
Proof.
  intros Hg HP HQ. unfold MAX_LINE_NUMBER. rewrite (proj2 (Z.leb_gt (256 - 1) _)) by lia. apply wp_bind, wp_modify. apply wp_bind.
  assert (Htx : e_text (set_line_number (len P + 1) (loaded s g)) = rows (P ++ [l]))
    by (unfold loaded; cbn [e_text set_line_number set_text]; by rewrite Hg).
  assert (Hl : length (P ++ [l]) = (length P + 1)%nat) by (rewrite length_app; done).
  eapply (wp_row_put _ _ _ _ _ (rows (P ++ [l]))); [done|apply length_rows; lia|lia|].
  unfold clear_line. apply wp_bind, wp_bind. set (t1 := <[_ := Some junk]> _).
  assert (Ht1 : length t1 = 256%nat) by (unfold t1; rewrite length_insert; apply length_rows; lia).
  eapply (wp_line_at _ _ _ _ t1 junk); [done|done|lia|unfold t1; apply list_lookup_total_insert_eq; rewrite length_rows; lia|].
  eapply (wp_row_put _ _ _ _ _ t1); [done|done|lia|]. apply wp_ret. unfold t1. rewrite list_insert_insert_eq.
  replace (Z.to_nat (len P + 1)) with (length (P ++ [l])) by lia. change zeros with (row []).
  rewrite <- (loaded_nl s g P l) in HQ by (done || lia). exact HQ.
Qed.

Lemma load_chunk_ok s f b :
  b <> [] -> text_ok (lines_of (f ++ b)) ->
  wp (load_chunk junk b) noerr (fun full s' => full = false /\ s' = loaded s (f ++ b)) (loaded s f).
Proof.
  intros Hb Hok. unfold load_chunk. cbv zeta.
  assert (Hlb : (0 < length b)%nat) by (destruct b; simpl; [done|lia]).
  apply (wp_while (fun next s' => 0 <= next < len b /\ s' = loaded s (f ++ take (Z.to_nat next) b)) (fun next => Z.to_nat (len b - next))).
  - split; [lia|]. simpl. by rewrite app_nil_r.
  - lia.
  - intros next s' (Hn&->). set (k := newline_at (drop (Z.to_nat next) b)).
    destruct (newline_split (drop (Z.to_nat next) b)) as (Hnl&Hat&Hk). fold k in Hnl, Hat, Hk. rewrite length_drop in Hat, Hk.
    set (g := f ++ take (Z.to_nat next) b). set (t := take k (drop (Z.to_nat next) b)) in *.
    assert (Hgt : f ++ take (Z.to_nat next + k) b = g ++ t) by (unfold g, t; rewrite <- app_assoc; f_equal; symmetry; apply take_take_drop).
    assert (Hok1 : text_ok (lines_of (g ++ t))).
    { rewrite <- Hgt. rewrite <- (take_drop (Z.to_nat next + k) b), app_assoc in Hok. by eapply text_ok_prefix. }
    destruct (lines_of_last g) as (P&l&Hg). pose proof (lines_of_app g t P l t [] Hg (lines_of_plain t Hnl)) as Hgt'.
    pose proof Hok1 as [HlP HLP]. rewrite Hgt', length_app in HlP. simpl in HlP.
    assert (Hlt : line_ok (l ++ t)) by (rewrite Hgt' in HLP; apply Forall_app in HLP as [_ HLP]; by inversion HLP).
    assert (Hnum : line_number (loaded s g) = len P) by (unfold loaded; cbn [line_number set_line_number]; rewrite Hg, length_app; simpl; lia).
    assert (Htx : e_text (loaded s g) = rows (P ++ [l])) by (unfold loaded; cbn [e_text set_line_number set_text]; by rewrite Hg).
    assert (HPl : (length (P ++ [l]) <= 256)%nat) by (rewrite length_app; simpl; lia).
    apply wp_bind, wp_gets. rewrite Hnum. apply wp_bind.
    eapply (wp_line_at _ _ _ _ (rows (P ++ [l])) (row l)); [done|by apply length_rows|lia| |].
    { rewrite rows_at by lia. rewrite Nat2Z.id, lookup_app_r, Nat.sub_diag by lia. done. }
    apply wp_bind. replace (next + Z.of_nat k - next) with (Z.of_nat k) by lia.
    apply strcat_n_ok; [done|rewrite length_drop; lia|]. fold t. apply wp_bind.
    eapply (wp_row_put _ _ _ _ _ (rows (P ++ [l]))); [done|by apply length_rows|lia|].
    rewrite Nat2Z.id, (loaded_line s g P l t Hg Hnl) by lia. apply wp_bind.
    destruct (Z.ltb_spec (next + Z.of_nat k) (len b)) as [Hin|Hout].
    + specialize (Hat ltac:(lia)). rewrite lookup_drop in Hat.
      assert (Hg2 : f ++ take (Z.to_nat (next + Z.of_nat k + 1)) b = (g ++ t) ++ [NL]).
      { replace (Z.to_nat (next + Z.of_nat k + 1)) with (S (Z.to_nat next + k)) by lia.
        rewrite (take_S_r _ _ _ Hat), app_assoc, Hgt. done. }
      assert (Hok2 : text_ok (lines_of ((g ++ t) ++ [NL]))).
      { rewrite <- Hg2. rewrite <- (take_drop (Z.to_nat (next + Z.of_nat k + 1)) b), app_assoc in Hok. by eapply text_ok_prefix. }
      rewrite (lines_of_app (g ++ t) [NL] P (l ++ t) [] [[]] Hgt' eq_refl) in Hok2. destruct Hok2 as [Hl2 _].
      rewrite length_app in Hl2. simpl in Hl2.
      eapply (new_line_ok s (g ++ t) P (l ++ t)); [done|lia|]. cbn [orb]. destruct (Z.leb_spec (len b - 1) (next + Z.of_nat k)); apply wp_ret.
      * split; [done|]. f_equal. rewrite <- Hg2. rewrite take_ge by lia. done.
      * split; [|lia]. split; [lia|]. by rewrite Hg2.
    + apply wp_ret. cbn [orb]. rewrite (proj2 (Z.leb_le (len b - 1) _)) by lia. apply wp_ret. split; [done|].
      f_equal. rewrite <- Hgt. rewrite take_ge by lia. done.
Qed.
Lemma load_ok s f chunks :
  Forall (fun b => b <> []) chunks -> text_ok (lines_of (f ++ concat chunks)) ->
  wp (load junk chunks) noerr (fun _ s' => s' = loaded s (f ++ concat chunks)) (loaded s f).
Proof.
  intros Hc. revert f. induction Hc as [|b chunks Hb Hc IH]; intros f Hok; cbn [load concat].
  - apply wp_ret. by rewrite app_nil_r.
  - cbn [concat] in Hok. rewrite app_assoc in Hok |- *. rewrite (proj2 (Z.ltb_lt 0 (len b))) by (destruct b; simpl; [done|lia]).
    apply wp_bind. eapply wp_post; [apply (load_chunk_ok s f b); [done|by eapply text_ok_prefix]|].
    intros full s' [-> ->]. by apply IH.
Qed.
End load.

(** ** start and save *)
Section files.
Variable junk : list Z.

Lemma start_text_ok s : wp (start_text junk) noerr (fun _ s' => s' = loaded s []) s.
Proof.
  unfold start_text. apply wp_bind, wp_modify. change (replicate (Z.to_nat MAX_LINE_NUMBER) None) with (rows []).
  apply wp_bind. eapply (wp_row_put _ _ _ _ _ (rows [])); [done|done|lia|]. unfold clear_line. apply wp_bind, wp_bind.
  eapply (wp_line_at _ _ _ _ (<[Z.to_nat 0 := Some junk]> (rows [])) junk); [done|done|lia|done|].
  eapply (wp_row_put _ _ _ _ _ (<[Z.to_nat 0 := Some junk]> (rows []))); [done|done|lia|]. by apply wp_modify.
Qed.

Definition tail_lines L : list Z := concat (map (fun l => NL :: l) L).
Lemma join_tail l L : join (l :: L) = l ++ tail_lines L.
Proof.
  revert l. induction L as [|l2 L IH]; intros l; [by rewrite app_nil_r|].
  change (join (l :: l2 :: L)) with (l ++ NL :: join (l2 :: L)). by rewrite IH.
Qed.
Lemma tail_lines_snoc L l : tail_lines (L ++ [l]) = tail_lines L ++ NL :: l.
Proof. unfold tail_lines. rewrite map_app, concat_app. simpl. by rewrite app_nil_r. Qed.

Lemma com_save_ok s L :
  holds s L -> len L < 256 -> e_create s = true ->
  wp com_save noerr (fun stop s' => stop = false /\ holds s' L /\ e_file s' = Some (join L) /\ changed s' = 0 /\
    e_create s' = true) s.
Proof.
  intros [Ht HL] Hlt Hc. pose proof HL as [Hl HLo]. unfold com_save. apply wp_bind, wp_modify, wp_bind, wp_gets. cbn [e_create set_file]. rewrite Hc. cbn [negb].
  apply wp_bind, wp_modify, wp_bind. eapply (wp_text_at _ L); [done|lia|lia|].
  destruct L as [|l0 L]; [simpl in Hl; lia|]. change (row <$> (l0 :: L) !! Z.to_nat 0) with (Some (row l0)). cbv iota.
  inversion HLo as [|? ? Hl0 HLo']; subst. rewrite cstr_row by done. apply wp_bind, wp_modify. cbn [e_file set_file default].
  apply wp_bind. apply (wp_while (fun i s' => 1 <= i <= len (l0 :: L) /\ e_text s' = rows (l0 :: L) /\ e_create s' = true /\
      e_file s' = Some (l0 ++ tail_lines (take (Z.to_nat (i - 1)) L))) (fun i => Z.to_nat (256 - i))).
  - split_and!; [lia|lia|done|done|]. simpl. by rewrite app_nil_r.
  - unfold MAX_LINE_NUMBER. lia.
  - intros i s' (Hi&Ht'&Hc'&Hf). apply wp_bind. eapply (wp_text_at _ (l0 :: L)); [done|lia|lia|].
    destruct (decide (Z.to_nat (i - 1) < length L)%nat) as [Hil|Hil].
    + destruct (lookup_lt_is_Some_2 L _ Hil) as [l Hlk].
      assert (Hlk' : (l0 :: L) !! Z.to_nat i = Some l) by (replace (Z.to_nat i) with (S (Z.to_nat (i - 1))) by lia; done).
      rewrite Hlk'. cbn [fmap option_fmap option_map]. rewrite cstr_row by (by eapply (proj1 (Forall_lookup _ _) HLo')).
      unfold write_file. do 2 (apply wp_bind, wp_modify). apply wp_ret. cbn [e_file set_file e_text e_create]. rewrite Hf. cbn [default].
      split; [|simpl length in *; lia]. split_and!; [lia|simpl length; lia|done|done|]. f_equal.
      replace (Z.to_nat (i + 1 - 1)) with (S (Z.to_nat (i - 1))) by lia. rewrite (take_S_r _ _ _ Hlk), tail_lines_snoc.
      unfold id. by rewrite <- !app_assoc.
    + rewrite lookup_ge_None_2 by (simpl length; lia). cbn [fmap option_fmap option_map]. apply wp_ret.
      apply wp_bind, wp_modify. apply wp_bind, wp_modify, wp_ret. split_and!; [done|by split|..].
      * cbn [e_file set_changed add_out]. rewrite Hf, join_tail. rewrite take_ge by lia. done.
      * done.
      * done.
Qed.
End files.

(** ** The contract of the editor *)
Inductive edcmd := EIns (n : Z) (extra : list Z) | EMod (n : Z) (extra : list Z) | EDel (n : Z).
Definition run_cmd (junk : list Z) (c : edcmd) : K ed unit :=
  match c with EIns n x => com_ins junk n x | EMod n x => com_mod n x | EDel n => com_del n end.
(** The lines a command may name. *)
Definition in_range (c : edcmd) L : bool :=
  match c with
  | EIns n _ => (0 <=? n) && (n <=? len L)
  | EMod n _ | EDel n => (1 <=? n) && (n <=? len L)
  end.
Definition spec_cmd (c : edcmd) e L : list (list Z) :=
  match c with EIns n _ => ins_line n e L | EMod n _ => mod_line n e L | EDel n => del_line n L end.
Definition takes (c : edcmd) (input e rest : list Z) : Prop :=
  match c with EIns _ x | EMod _ x => gives x input e rest | EDel _ => rest = input end.

(** C17. The commands of the editor work on a list of lines.  On a text of
    fewer than 255 lines, each of fewer than 256 characters, ins, mod and del
    with a line number that exists put the line that follows the command, or
    the one typed for it, after line n (an empty last line becomes that line and
    an empty one follows it), replace line n, or remove line n (the only line becomes empty); the text
    is marked as changed, the file is not touched and every access stays
    inside the array and its lines.  With any other number the command prints
    a message and changes nothing. *)
Theorem editor_refines junk s L c e rest :
  holds s L -> len L < 255 -> (in_range c L = true -> takes c (e_input s) e rest) ->
  wp (run_cmd junk c) noerr (fun _ s' =>
    if in_range c L then edit s rest (spec_cmd c e L) s' /\ text_ok (spec_cmd c e L)
    else exists o, s' = add_out o s) s.
Proof.
  intros Hh Hlt Ht. destruct (in_range c L) eqn:Hr.
  - specialize (Ht eq_refl). destruct c as [n x|n x|n]; cbn [run_cmd spec_cmd takes in_range] in *.
    + apply com_ins_ok; (done || lia).
    + apply com_mod_ok; (done || lia).
    + subst rest. apply com_del_ok; (done || lia).
  - assert (Hmsg : wp (say "invalid line number") noerr (fun _ s' => exists o, s' = add_out o s) s) by (apply wp_modify; eauto).
    destruct c as [n x|n x|n]; cbn [run_cmd in_range] in *; unfold com_ins, com_mod, com_del;
      apply wp_bind; (eapply (get_line_number_ok s L); [done|]);
      (match goal with |- wp (if ?c then _ else _) _ _ _ => assert (c = true) as -> by lia end); exact Hmsg.
Qed.

(** C29. What the editor saves is what it loads: saving a text of fewer than 256
    lines without newlines in them, when the file can be made, and starting the editor again on the file,
    however the file is cut into reads, gives the same lines, with the number
    of the last one. *)
Theorem save_load junk s L chunks :
  holds s L -> len L < 256 -> Forall no_nl L -> e_create s = true ->
  Forall (fun b => b <> []) chunks -> concat chunks = join L ->
  wp (com_save;; start_text junk;; load junk chunks) noerr (fun _ s' =>
    holds s' L /\ line_number s' = len L - 1 /\ e_file s' = Some (join L)) s.
Proof.
  intros Hh Hlt Hnl Hc Hch Hcat. pose proof Hh as [_ HL]. apply wp_bind. eapply wp_post; [by eapply com_save_ok|].
  intros stop s1 (_&_&Hf&_&_). apply wp_bind. eapply wp_post; [apply start_text_ok|]. intros [] s2 ->.
  assert (Hlines : lines_of ([] ++ concat chunks) = L).
  { simpl. rewrite Hcat. apply lines_of_join; [|done]. intros ->. destruct HL. simpl in *. lia. }
  eapply wp_post; [apply (load_ok junk s1 [] chunks); [done|by rewrite Hlines]|].
  intros [] s3 ->. unfold loaded. rewrite Hlines. by split_and!.
Qed.

(** ** The editor on concrete files and sessions. *)
Definition demo_junk : list Z := replicate 256 170.
(** The editor when it starts, on a file and with what the user will type. *)
Definition ed0 (f : option (list Z)) (input : list Z) : ed :=
  mkEd [] 0 0 1 input [] f true SHELL.
Definition typed (cs : list string) : list Z := concat (map (fun c => chars c ++ [NL]) cs).

(** The conditions on a text as a program. *)
Definition line_okb (l : list Z) : bool := (Z.of_nat (length l) <=? 255) && forallb (fun c => negb (c =? 0)) l.
Lemma text_ok_vm (L : list (list Z)) :
  (1 <=? len L) && (len L <=? 256) && forallb line_okb L = true -> text_ok L.
Proof.
  intros [[H1 H2]%andb_prop H3]%andb_prop. split; [lia|]. rewrite forallb_forall in H3. apply Forall_forall.
  intros l Hl%list_elem_of_In%H3. unfold line_okb in Hl. apply andb_prop in Hl as [Hl Hs]. split; [lia|].
  rewrite forallb_forall in Hs. apply Forall_forall. intros c Hc%list_elem_of_In%Hs. by destruct (Z.eqb_spec c 0).
Qed.

Definition demo_lines : list (list Z) := [chars "one"; chars "two"; []].
Definition demo_ed : ed := mkEd (rows demo_lines) 2 0 1 (chars "new" ++ [NL] ++ chars "exit") [] None true EDITOR.
Lemma demo_holds : holds demo_ed demo_lines.
Proof. split; [done|]. apply text_ok_vm. by vm_compute. Qed.

Lemma editor_refines_witness :
  spec_cmd (EIns 1 []) (chars "new") demo_lines = [chars "one"; chars "new"; chars "two"; []] /\
  wp (run_cmd demo_junk (EIns 1 [])) noerr (fun _ s' =>
    if in_range (EIns 1 []) demo_lines
    then edit demo_ed (chars "exit") (spec_cmd (EIns 1 []) (chars "new") demo_lines) s' /\
         text_ok (spec_cmd (EIns 1 []) (chars "new") demo_lines)
    else exists o, s' = add_out o demo_ed) demo_ed.
Proof.
  split; [done|]. refine (editor_refines demo_junk demo_ed demo_lines (EIns 1 []) (chars "new") (chars "exit") demo_holds _ _); [done|].
  intros _. split; [split; [done|repeat constructor; done]|]. right. split_and!; [done|done|done|]. repeat constructor; done.
Defined.

Lemma save_load_witness :
  join demo_lines = chars "one" ++ [NL] ++ chars "two" ++ [NL] /\
  wp (com_save;; start_text demo_junk;; load demo_junk [chars "on"; chars "e" ++ [NL; 116]; chars "wo" ++ [NL]]) noerr (fun _ s' =>
    holds s' demo_lines /\ line_number s' = len demo_lines - 1 /\ e_file s' = Some (join demo_lines)) demo_ed.
Proof.
  split; [done|]. refine (save_load demo_junk demo_ed demo_lines _ demo_holds _ _ _ _ _); [done| |done| |done].
  - repeat constructor; done.
  - repeat constructor; done.
Defined.

(** A session of the editor from its first line to its exit: on a file of
    two lines, [ins-1 x], [mod y], [del-1], [save], [exit] and any other
    command leave the file and the console as the user expects; without
    changes nothing is asked; on a file that does not exist the first [ins]
    fills the first line (and leaves an empty one after it), and an exit
    answered with y saves. *)
Theorem editor_sessions :
  (exists s, main demo_junk 2 (ed0 (Some (typed ["a"; "b"])) (typed ["hide"; "ins-1 x"; "mod y"; "del-1"; "del-7"; "save"; "exit"; "ls"])) = Ok tt s /\
     e_file s = Some (chars "x" ++ [NL] ++ chars "b" ++ [NL] ++ chars "y") /\ e_input s = typed ["ls"] /\
     e_status s = SHELL /\ changed s = 0) /\
  (exists s, main demo_junk 2 (ed0 None (typed ["ins"; "hello"; "exit"; "y"; "ls"])) = Ok tt s /\
     e_file s = Some (chars "hello" ++ [NL]) /\ e_input s = typed ["ls"] /\ e_status s = SHELL) /\
  (exists s, main demo_junk 2 (ed0 None (typed ["ins hello"; "exit"; "n"])) = Ok tt s /\ e_file s = None /\ e_status s = SHELL).
Proof. split_and!; (eexists; split; [by vm_compute|by vm_compute]). Qed.

(** A text of 256 lines is one too many: MAX_LINE_NUMBER lines are loaded,
    but the loop that shows them ends only at a null pointer and reads
    text[256], outside the array; and an end of input, for which gets returns
    an empty string, makes the editor write input[-1]. *)
Theorem editor_full_text :
  main demo_junk 2 (ed0 (Some (replicate 255 NL)) (typed ["exit"])) = Fail Undef /\
  (exists s, main demo_junk 2 (ed0 (Some (replicate 254 NL)) (typed ["exit"])) = Ok tt s /\ e_file s = Some (replicate 254 NL)) /\
  main demo_junk 2 (ed0 None []) = Fail Undef.
Proof. split; [by vm_compute|]. split; [|by vm_compute]. eexists. split; by vm_compute. Qed.
