(* ===== verification/Exit.v ===== *)
(** User programs that may end at any call, and their buffers.

    A call returns, ends the program by exit() (None) or fails.  A buffer is
    the list of its bytes, a C string the bytes before the first 0; reading on
    where a buffer has no 0 is undefined.  script.c and make.c are written
    with these. *)
From S2P Require Import Prelude Params Str Ulib.

Definition zeros (n : Z) : list Z := replicate (Z.to_nat n) 0.

(** ** Calls: None is exit() *)
Definition X (St A : Type) := K St (option A).
Definition up {St A} (m : K St A) : X St A := bind m (fun a => ret (Some a)).
Definition xret {St A} (a : A) : X St A := ret (Some a).
Definition xbind {St A B} (m : X St A) (k : A -> X St B) : X St B :=
  bind m (fun r => match r with Some a => k a | None => ret None end).
Definition exit {St A} : X St A := ret None.
Definition undef {St A} : X St A := fail Undef.


Declare Scope x_scope.
Delimit Scope x_scope with X.
Notation "x <- c1 ;; c2" := (xbind c1 (fun x => c2)) : x_scope.
Notation "'let!' pat ':=' c1 'in' c2" := (xbind c1 (fun x => match x with pat => c2 end)) : x_scope.
Notation "c1 ;; c2" := (xbind c1 (fun _ => c2)) : x_scope.
Open Scope x_scope.

Definition need {St A} (o : option A) : X St A := match o with Some a => xret a | None => undef end.
Definition the {St A} (f : St -> A) : X St A := up (gets f).
Definition change {St} (f : St -> St) : X St unit := up (modify f).
Definition xget {St A} `{Inhabited A} (l : list A) (i : Z) : X St A := up (aget l i).
Definition xset {St A} (l : list A) (i : Z) (a : A) : X St (list A) := up (aset l i a).
Fixpoint xfor {St} (n : nat) (i : Z) (body : Z -> X St unit) : X St unit :=
  match n with O => xret tt | S n => body i;; xfor n (i + 1) body end.
Fixpoint xwhile {St A R} (fuel : nat) (body : A -> X St (A + R)) (a : A) : X St R :=
  match fuel with
  | O => fail OutOfFuel
  | S f => r <- body a;; match r with inl a => xwhile f body a | inr v => xret v end
  end.

(** printf(1, fmt, args), for a program that keeps what it prints. *)
Class Prints (St : Type) := add_printed : list Z -> St -> St.
Definition print `{Prints St} (fmt : list Z) (args : list uarg) : X St unit :=
  o <- need (uprintf fmt false args);; change (add_printed o).

(** The string at the start of a buffer. *)
Definition str {St} (p : list Z) : X St (list Z) := if existsb (Z.eqb 0) p then xret (cstr p) else undef.
Fixpoint strs {St} (l : list (list Z)) : X St (list (list Z)) :=
  match l with [] => xret [] | b :: l => s <- str b;; r <- strs l;; xret (s :: r) end.
Definition strcpy {St} (dest s : list Z) : X St (list Z) := need (ustrcpy dest s).

(** strcat_n of the programs: dest with the first [len] bytes of [src] appended;
    one that would reach [line_len] is left as it is. *)
Definition cat_n {St} (line_len : Z) (dest src : list Z) (len : Z) : X St (list Z) :=
  if len <=? 0 then xret dest else
  d <- str dest;;
  let pos := Z.of_nat (length d) in
  if line_len <=? len + pos then xret dest else
  if (len <=? Z.of_nat (length src)) && (pos + len <? Z.of_nat (length dest))
  then xret (splice pos (take (Z.to_nat len) src ++ [0]) dest) else undef.

Definition QUOTE : Z := 39.
Definition DQUOTE : Z := 34.
(** The pieces of [src] between the characters [pattern] outside quotes, each
    in a buffer of [name_len] bytes; [cur], [p]: the buffer being filled
    and the next place in it. *)
Fixpoint split_loop {St} (name_len : Z) (src : list Z) (pattern : Z) (sq dq : bool) (p : Z) (cur : list Z) (before : list (list Z))
      : X St (list (list Z) * list Z) :=
  match src with
  | [] => xret (before, cur)
  | c :: src' =>
      if negb (c =? pattern) || sq || dq then
        cur <- xset cur p c;;
        split_loop name_len src' pattern (xorb sq (c =? QUOTE)) (xorb dq (c =? DQUOTE)) (p + 1) cur before
      else if negb (bool_decide (src' = [])) && negb (chr cur =? 0) then
        split_loop name_len src' pattern sq dq 0 (zeros name_len) (before ++ [cur])
      else split_loop name_len src' pattern sq dq 0 cur before
  end.
(** [cap]: the length of the array [result]; its pointers that were set. *)
Definition split_n {St} (name_len cap : Z) (src : list Z) (pattern : Z) : X St (Z * list (list Z)) :=
  src <- str src;;
  let! (before, cur) := split_loop name_len src pattern false false 0 (zeros name_len) [] in
  let n := Z.of_nat (length before) in
  if cap <=? n then undef else
  xret (if chr cur =? 0 then n else n + 1, before ++ [cur]).

(** ** Strings in buffers *)
Definition nonzero (l : list Z) : Prop := Forall (fun c => c <> 0) l.
(** A buffer of [n] bytes with the string [l]. *)
Definition pad (n : nat) (l : list Z) : list Z := l ++ replicate (n - length l) 0.

Implicit Types (l : list Z).

Lemma cstr_app (p k : list Z) : Forall (fun c => c <> 0) p -> cstr (p ++ k) = p ++ cstr k.
Proof. induction 1 as [|c p Hc _ IH]; simpl; [done|]. destruct (Z.eqb_spec c 0); [done|]. by rewrite IH. Qed.
Lemma pad_zero (n : nat) l : (length l < n)%nat -> 0 ∈ pad n l.
Proof. intros H. unfold pad. replace (n - length l)%nat with (S (n - length l - 1)) by lia. set_solver. Qed.
Lemma cstr_pad (n : nat) l : nonzero l -> cstr (pad n l) = l.
Proof.
  intros Hl. unfold pad. rewrite cstr_app by done. destruct (n - length l)%nat; simpl; by rewrite app_nil_r.
Qed.
Lemma length_pad (n : nat) l : (length l <= n)%nat -> length (pad n l) = n.
Proof. intros. unfold pad. rewrite length_app, length_replicate. lia. Qed.
Lemma bytes_pad (n : nat) l : bytes l -> bytes (pad n l).
Proof. intros. apply Forall_app. split; [done|]. by apply Forall_replicate. Qed.
Lemma chr_pad (n : nat) l : chr (pad n l) = chr l.
Proof. destruct l as [|c l]; [|done]. unfold pad. cbn. destruct (n - 0)%nat; done. Qed.

(** ** Equations of calls *)
Section calls.
Context {St : Type}.
Implicit Types (s : St).
Lemma xbind_ok {A B} (m : X St A) (k : A -> X St B) s a s' : m s = Ok (Some a) s' -> xbind m k s = k a s'.
Proof. intros H. unfold xbind, bind. by rewrite H. Qed.
Lemma xwhile_go {A R} (n : nat) (body : A -> X St (A + R)) a a' s s' :
  body a s = Ok (Some (inl a')) s' -> xwhile (S n) body a s = xwhile n body a' s'.
Proof. intros H. cbn [xwhile]. by rewrite (xbind_ok _ _ _ _ _ H). Qed.
Lemma xwhile_stop {A R} (n : nat) (body : A -> X St (A + R)) a v s s' :
  body a s = Ok (Some (inr v)) s' -> xwhile (S n) body a s = Ok (Some v) s'.
Proof. intros H. cbn [xwhile]. by rewrite (xbind_ok _ _ _ _ _ H). Qed.
Lemma xbind_ext {A B} (m : X St A) (k k' : A -> X St B) s :
  (forall a s', m s = Ok (Some a) s' -> k a s' = k' a s') -> xbind m k s = xbind m k' s.
Proof. intros H. unfold xbind, bind. destruct (m s) as [[a|] s'|]; [by apply H|done|done]. Qed.
Lemma xbind_assoc {A B C} (m : X St A) (k : A -> X St B) (k' : B -> X St C) s :
  xbind (xbind m k) k' s = xbind m (fun a => xbind (k a) k') s.
Proof. unfold xbind, bind. by destruct (m s) as [[a|] s'|]. Qed.
Lemma xbind_ret_r {A} (m : X St A) s : (a <- m;; xret a) s = m s.
Proof. unfold xbind, bind. by destruct (m s) as [[a|] s'|]. Qed.
Lemma xbind_eq {A B} (m m' : X St A) (k k' : A -> X St B) s :
  m s = m' s -> (forall a s', k a s' = k' a s') -> xbind m k s = xbind m' k' s.
Proof. intros Hm Hk. unfold xbind, bind. rewrite Hm. by destruct (m' s) as [[a|] s'|]. Qed.
Lemma xwhile_more {A R} (body : A -> X St (A + R)) (n n' : nat) a s r s' :
  xwhile n body a s = Ok r s' -> (n <= n')%nat -> xwhile n' body a s = Ok r s'.
Proof.
  revert n' a s. induction n as [|n IH]; intros n' a s H Hn; [done|]. destruct n' as [|n']; [lia|]. cbn [xwhile] in *.
  unfold xbind, bind in *. destruct (body a s) as [[[a'|v]|] s1|]; [|done..]. apply IH; [done|lia].
Qed.
Lemma get_at {A} `{Inhabited A} {s} (l : list A) (k : nat) a : l !! k = Some a -> xget l (Z.of_nat k) s = Ok (Some a) s.
Proof.
  intros Hk. pose proof (lookup_lt_Some _ _ _ Hk). unfold xget, up, bind, aget, inb.
  rewrite (proj2 (Z.leb_le _ _)), (proj2 (Z.ltb_lt _ _)) by lia. cbn. by rewrite Nat2Z.id, (list_lookup_total_correct _ _ _ Hk).
Qed.

Lemma str_zero l s : 0 ∈ l -> str l s = Ok (Some (cstr l)) s.
Proof.
  intros Hz. unfold str. assert (existsb (Z.eqb 0) l = true) as ->; [|done].
  apply existsb_exists. exists 0. split; [by apply list_elem_of_In|done].
Qed.
Lemma str_app0 l (r : list Z) s : nonzero l -> str (l ++ 0 :: r) s = Ok (Some l) s.
Proof. intros Hl. rewrite str_zero by set_solver. by rewrite cstr_app_zero. Qed.
Lemma strcpy_pad (n : nat) l s : (length l < n)%nat -> strcpy (replicate n 0) l s = Ok (Some (pad n l)) s.
Proof.
  intros Hl. unfold strcpy. assert (ustrcpy (replicate n 0) l = Some (pad n l)) as ->; [|done].
  unfold pad. revert n Hl. induction l as [|c l IH]; intros [|n] Hl; simpl in *; [lia|done|lia|]. by rewrite IH by lia.
Qed.
(** No quote, and not the character to split at. *)
Definition unsplit (c : Z) l : Prop := Forall (fun d => d <> c /\ d <> QUOTE /\ d <> DQUOTE) l.
Lemma split_fill (n : nat) c x : forall src y before s, unsplit c x -> (length (y ++ x) <= n)%nat ->
  split_loop (Z.of_nat n) (x ++ src) c false false (Z.of_nat (length y)) (pad n y) before s =
  split_loop (Z.of_nat n) src c false false (Z.of_nat (length (y ++ x))) (pad n (y ++ x)) before s.
Proof.
  induction x as [|d x IH]; intros src y before s Hx Hl; [by rewrite app_nil_r|]. inversion Hx as [|? ? (Hc&Hq&Hdq) Hx']; subst.
  cbn [app split_loop]. rewrite (proj2 (Z.eqb_neq d c) Hc). cbn [negb orb].
  rewrite length_app in Hl. cbn [length] in Hl.
  assert (Hset : xset (pad n y) (Z.of_nat (length y)) d s = Ok (Some (pad n (y ++ [d]))) s).
  { unfold xset, up, bind, aset, inb. rewrite length_pad by lia. rewrite (proj2 (Z.leb_le _ _)), (proj2 (Z.ltb_lt _ _)) by lia.
    cbn. rewrite Nat2Z.id. do 2 f_equal. unfold pad. rewrite insert_app_r_alt, Nat.sub_diag by lia.
    rewrite <- app_assoc, length_app. cbn [length]. f_equal.
    replace (n - length y)%nat with (S (n - (length y + 1))) by lia. done. }
  rewrite (xbind_ok _ _ _ _ _ Hset), (proj2 (Z.eqb_neq d _) Hq), (proj2 (Z.eqb_neq d _) Hdq). cbn [xorb].
  replace (Z.of_nat (length y) + 1) with (Z.of_nat (length (y ++ [d]))) by (rewrite length_app; cbn [length]; lia).
  rewrite IH; [by rewrite <- app_assoc|done|rewrite !length_app in *; cbn [length]; lia].
Qed.
Lemma pad_nil (n : nat) : pad n [] = zeros (Z.of_nat n).
Proof. unfold pad, zeros. cbn [length app]. by rewrite Nat2Z.id, Nat.sub_0_r. Qed.
Lemma strs_pad (n : nat) (l : list (list Z)) s :
  Forall (fun w => nonzero w /\ (length w < n)%nat) l -> strs (map (pad n) l) s = Ok (Some l) s.
Proof.
  induction 1 as [|w l [Hn Hl] _ IH]; [done|]. cbn [map strs].
  rewrite (xbind_ok _ _ _ _ _ (str_zero (pad n w) s (pad_zero n w Hl))), cstr_pad by done. by rewrite (xbind_ok _ _ _ _ _ IH).
Qed.
(** Words with the character between them. *)
Definition joined (c : Z) (w : list Z) (ws : list (list Z)) : list Z := w ++ concat (map (cons c) ws).
Definition piece (n : nat) (c : Z) (w : list Z) : Prop := unsplit c w /\ nonzero w /\ w <> [] /\ (length w <= n)%nat.
Lemma chr_word (n : nat) c w : piece n c w -> (chr (pad n w) =? 0) = false.
Proof. intros (_&Hn&Hne&_). rewrite chr_pad. destruct w as [|d w]; [done|]. inversion Hn; subst. by apply Z.eqb_neq. Qed.
Lemma split_words_loop (n : nat) c ws : forall w before s, Forall (piece n c) (w :: ws) ->
  split_loop (Z.of_nat n) (joined c w ws) c false false 0 (zeros (Z.of_nat n)) before s =
  Ok (Some (before ++ map (pad n) (removelast (w :: ws)), pad n (List.last (w :: ws) []))) s.
Proof.
  unfold joined. induction ws as [|w' ws IH]; intros w before s Hws; inversion Hws as [|? ? Hw Hws']; subst; pose proof Hw as (Hu&_&Hne&Hl).
  - cbn [map concat]. rewrite <- pad_nil. change 0 with (Z.of_nat (length (@nil Z))) at 1. rewrite (split_fill n c w [] []) by done.
    cbn. by rewrite app_nil_r.
  - rewrite <- pad_nil. change 0 with (Z.of_nat (length (@nil Z))) at 1. rewrite (split_fill n c w _ []) by done.
    cbn [map concat app split_loop]. rewrite Z.eqb_refl. cbn [negb orb]. rewrite (chr_word n c w Hw).
    inversion Hws' as [|? ? (_&_&Hne'&_) _]; subst. rewrite bool_decide_eq_false_2 by (by destruct w'). cbn [negb andb].
    rewrite IH by done. by rewrite <- app_assoc.
Qed.
Lemma split_words (n : nat) (cap : Z) c w ws (r : list Z) s :
  Z.of_nat (length ws) < cap -> c <> 0 -> Forall (piece n c) (w :: ws) ->
  split_n (Z.of_nat n) cap (joined c w ws ++ 0 :: r) c s = Ok (Some (Z.of_nat (S (length ws)), map (pad n) (w :: ws))) s.
Proof.
  intros Hcap Hc Hws. unfold split_n. assert (Hnz : nonzero (joined c w ws)).
  { inversion Hws as [|? ? (_&Hn&_) Hws']; subst. apply Forall_app. split; [done|]. clear -Hc Hws'.
    induction Hws' as [|x ws (_&Hn&_) _ IH]; cbn; [constructor|]. constructor; [done|]. by apply Forall_app. }
  rewrite (xbind_ok _ _ _ _ _ (str_app0 _ r s Hnz)), (xbind_ok _ _ _ _ _ (split_words_loop n c ws w [] s Hws)). cbv beta iota zeta.
  assert (Hlen : length (map (pad n) (removelast (w :: ws))) = length ws).
  { rewrite length_map. rewrite (removelast_firstn_len (w :: ws)), length_firstn. cbn. lia. }
  rewrite app_nil_l, Hlen. rewrite (proj2 (Z.leb_gt cap _)) by lia.
  assert (Hlast : piece n c (List.last (w :: ws) [])).
  { clear -Hws. revert w Hws. induction ws as [|x ws IH]; intros w Hws; inversion Hws; subst; [done|]. by apply IH. }
  rewrite (chr_word n c _ Hlast). unfold xret, ret. do 3 f_equal; [lia|].
  rewrite (app_removelast_last (l := w :: ws) []) at 3 by done. by rewrite map_app.
Qed.
End calls.
