(* ===== verification/Script.v ===== *)
(** script.c: the interpreter of scripts, its data and its string routines.

    A buffer is the list of its bytes, a C string the bytes before the first
    0; reading on where a buffer has no 0, and any access outside an array or
    through NULL, is undefined.  Values live in memory from malloc, which
    gives whole units of eight bytes: the bytes that are not written hold
    [junk].  A Var that is used before it is set is [uninit].

    The state: the globals of the program, the parameters that find_functions
    is collecting, what was printed and the commands that were run.  A call
    may end the program: exit() is an outcome of its own. *)
From S2P Require Import Prelude Params Str Ulib Exit.
Open Scope x_scope.

Definition BUF_SIZE : Z := 48.
Definition MAX_LINE_NUMBER : Z := 40.
Definition MAX_LINE_LENGTH : Z := 32.
Definition MAX_VARS_NUMBER : Z := 8.
Definition MAX_FUNCTION_NUMBER : Z := 4.
Definition MAX_NAME_LINGTH : Z := 24.
Definition MAX_STACK_LENGTH : Z := 8.
Definition VOID : Z := 0.
Definition INT : Z := 1.
Definition CHAR : Z := 2.
Definition STRING : Z := 3.

Record Var := mkVar { v_type : Z; v_name : list Z; v_value : option (list Z) }.
Record IfBlock := mkIf { if_from : Z; if_to : Z; if_cond : list Z }.
Record IfElseBlock := mkIfElse { if_start : Z; if_end : Z; else_start : Z; else_end : Z; ie_cond : list Z }.
Record ForBlock := mkFor { for_start : Z; for_end : Z; for_init : list Z; for_cond : list Z; for_back : list Z }.
Record Function := mkFun {
  f_start : Z; f_end : Z; return_type : Z; f_name : list Z; param_type : list Z; param_name : list (list Z) }.
Record Frame := mkFrame { fr_function : Function; current : Z; vars : list Var; fr_return : Var }.

#[export] Instance var_inhabited : Inhabited Var := populate (mkVar 0 [] None).
Definition var0 : Var := mkVar 0 (zeros MAX_NAME_LINGTH) None.
Definition function0 : Function :=
  mkFun 0 0 0 (zeros MAX_NAME_LINGTH) (zeros MAX_VARS_NUMBER)
    (replicate (Z.to_nat MAX_VARS_NUMBER) (zeros MAX_NAME_LINGTH)).
Definition vars0 : list Var := replicate (Z.to_nat MAX_VARS_NUMBER) var0.
Definition frame0 : Frame := mkFrame function0 0 vars0 var0.
#[export] Instance function_inhabited : Inhabited Function := populate function0.
#[export] Instance frame_inhabited : Inhabited Frame := populate frame0.

Record sc := mkSc {
  text : list (option (list Z)); fun_list : list Function; fun_list_number : Z;
  stack_frame : list Frame; stack_frame_number : Z; global_vars : list Var; global_vars_number : Z;
  params : list Var; sc_out : list Z; sc_runs : list (list (list Z)) }.
Definition sc0 : sc :=
  mkSc (replicate (Z.to_nat MAX_LINE_NUMBER) None) (replicate (Z.to_nat MAX_FUNCTION_NUMBER) function0) 0
    (replicate (Z.to_nat MAX_STACK_LENGTH) frame0) 0 vars0 0 vars0 [] [].

Definition set_text (t : list (option (list Z))) (s : sc) : sc :=
  mkSc t (fun_list s) (fun_list_number s) (stack_frame s) (stack_frame_number s) (global_vars s) (global_vars_number s) (params s) (sc_out s) (sc_runs s).
Definition set_funs (l : list Function) (n : Z) (s : sc) : sc :=
  mkSc (text s) l n (stack_frame s) (stack_frame_number s) (global_vars s) (global_vars_number s) (params s) (sc_out s) (sc_runs s).
Definition set_frames (l : list Frame) (n : Z) (s : sc) : sc :=
  mkSc (text s) (fun_list s) (fun_list_number s) l n (global_vars s) (global_vars_number s) (params s) (sc_out s) (sc_runs s).
Definition set_globals (l : list Var) (n : Z) (s : sc) : sc :=
  mkSc (text s) (fun_list s) (fun_list_number s) (stack_frame s) (stack_frame_number s) l n (params s) (sc_out s) (sc_runs s).
Definition set_params (l : list Var) (s : sc) : sc :=
  mkSc (text s) (fun_list s) (fun_list_number s) (stack_frame s) (stack_frame_number s) (global_vars s) (global_vars_number s) l (sc_out s) (sc_runs s).
Definition add_out (o : list Z) (s : sc) : sc :=
  mkSc (text s) (fun_list s) (fun_list_number s) (stack_frame s) (stack_frame_number s) (global_vars s) (global_vars_number s) (params s) (sc_out s ++ o) (sc_runs s).
Definition add_run (r : list (list Z)) (s : sc) : sc :=
  mkSc (text s) (fun_list s) (fun_list_number s) (stack_frame s) (stack_frame_number s) (global_vars s) (global_vars_number s) (params s) (sc_out s) (sc_runs s ++ [r]).

(** ** Calls *)
Abbreviation X := (Exit.X sc).
#[export] Instance sc_prints : Prints sc := add_out.
Definition die {A} (msg : string) : X A := print (chars msg ++ [NL]) [];; exit.
Definition line_at (i : Z) : X (list Z) := t <- the text;; p <- xget t i;; need p.
Definition put_line (i : Z) (b : list Z) : X unit := t <- the text;; t <- xset t i (Some b);; change (set_text t).

(** ** Values *)
Definition s8 (z : Z) : Z := (z + 2 ^ 7) mod 2 ^ 8 - 2 ^ 7.
Section values.
Variable junk : list Z.
Definition new_int (n : Z) : list Z := le_enc 4 n ++ drop 4 junk.
Definition new_char (c : Z) : list Z := u8 c :: drop 1 junk.
End values.
(** *(int * )p, *(char * )p *)
Definition get_int (p : option (list Z)) : X Z :=
  b <- need p;; if (4 <=? length b)%nat then xret (s32 (rd 4 0 b)) else undef.
Definition get_chr (p : option (list Z)) : X Z := b <- need p;; c <- xget b 0;; xret (s8 c).
Definition get_str (p : option (list Z)) : X (list Z) := b <- need p;; str b.

(** ** Strings *)

Abbreviation strcat_n := (cat_n MAX_LINE_LENGTH).

Fixpoint strcmp_n (str1 str2 : list Z) (n : nat) : Z :=
  match n with
  | O => 0
  | S n =>
      if s8 (chr str1) <? s8 (chr str2) then -1 else
      if s8 (chr str2) <? s8 (chr str1) then 1 else strcmp_n (tail str1) (tail str2) n
  end.
(** strcmp_n(p, "s", strlen "s") == 0 *)
Definition begins (p : list Z) (s : string) : bool := strcmp_n p (chars s) (length (chars s)) =? 0.

Definition BACKSLASH : Z := 92.

Abbreviation split := (split_n MAX_NAME_LINGTH).
(** The loop ends at a null pointer of the array. *)
Definition free_split (cap : Z) (array : list (list Z)) : X unit :=
  if Z.of_nat (length array) <? cap then xret tt else undef.

(** The spaces that are kept: after a type and after return. *)
Definition keeps_space (before : list Z) : bool :=
  let ends (s : string) :=
    (length (chars s) <=? length before)%nat && begins (drop (length before - length (chars s)) before) s in
  ends "void"%string || ends "int"%string || ends "char"%string || ends "string"%string || ends "return"%string.
Fixpoint spaces_loop (before line : list Z) (sq dq : bool) : list Z :=
  match line with
  | [] => []
  | c :: line =>
      let rest := spaces_loop (before ++ [c]) line (xorb sq (c =? QUOTE)) (xorb dq (c =? DQUOTE)) in
      if negb (c =? 9) && (negb (c =? 32) || sq || dq || keeps_space before) then c :: rest else rest
  end.
Definition remove_spaces (line : list Z) : X (list Z) :=
  s <- str line;;
  result <- strcpy (zeros MAX_LINE_LENGTH) (spaces_loop [] s false false);;
  if (Z.of_nat (length line) <? MAX_LINE_LENGTH) then undef else
  b <- strcpy (zeros MAX_LINE_LENGTH) (cstr result);;
  xret (b ++ drop (Z.to_nat MAX_LINE_LENGTH) line).

(** The characters before the first semicolon outside quotes. *)
Fixpoint statement (line : list Z) (sq dq : bool) : list Z :=
  match line with
  | [] => []
  | c :: line =>
      if negb (c =? 59) || sq || dq
      then c :: statement line (xorb sq (c =? QUOTE)) (xorb dq (c =? DQUOTE)) else []
  end.
Definition remove_semicolon (line : list Z) : X (list Z) :=
  if begins line "for" then xret line else
  s <- str line;;
  let k := statement s false false in
  xret (splice (Z.of_nat (length k)) (zeros (Z.of_nat (length s - length k))) line).

Definition is_function (part : list Z) : bool :=
  if (chr part =? 0) || (chr part =? 40) || (chr part =? 41) then false else
  match strchr (tail part) 40 with Some (_ :: r) => bool_decide (41 ∈ r) | _ => false end.
Fixpoint variable_loop (part : list Z) : bool :=
  match part with
  | [] => true
  | c :: part => if c =? 61 then true else if (c =? 40) || (c =? 41) then false else variable_loop part
  end.
Definition is_variable (part : list Z) : bool := if chr part =? 0 then false else variable_loop part.

Definition escape (c : Z) : Z :=
  if c =? 97 then 7 else if c =? 98 then 8 else if c =? 102 then 12 else if c =? 110 then 10 else
  if c =? 114 then 13 else if c =? 116 then 9 else if c =? 118 then 11 else if c =? BACKSLASH then BACKSLASH else
  if c =? QUOTE then QUOTE else if c =? DQUOTE then DQUOTE else 0.
Definition get_char_value (part : list Z) : Z :=
  match part with
  | [_; c; _] => c
  | [_; b; c; _] => if b =? BACKSLASH then escape c else 0
  | _ => 0
  end.
(** The characters between the quotes; an escape that the closing quote cuts
    leaves its place as it was. *)
Fixpoint string_loop (s : list Z) (pos : Z) (result : list Z) : X (list Z) :=
  match s with
  | [] => xret result
  | c :: s' =>
      if negb (c =? BACKSLASH) then r <- xset result pos c;; string_loop s' (pos + 1) r else
      match s' with
      | [] => xret result
      | d :: s'' => r <- xset result pos (get_char_value [QUOTE; BACKSLASH; d; QUOTE]);; string_loop s'' (pos + 1) r
      end
  end.
Definition get_string_value (part result : list Z) : X (list Z) :=
  if (length part <? 2)%nat then xret result else
  string_loop (take (length part - 2) (tail part)) 0 result.

(** itoa(s, n), on the bytes of s: nothing for 0, and characters below '0'
    for a negative number. *)
Fixpoint itoa_digits (fuel : nat) (n : Z) : list Z :=
  match fuel with
  | O => []
  | S f => if n =? 0 then [] else u8 (Z.rem n 10 + 48) :: itoa_digits f (Z.quot n 10)
  end.
Definition itoa (s : list Z) (n : Z) : X (list Z) :=
  let d := rev (itoa_digits 10 n) in
  if (length d <=? length s)%nat then xret (splice 0 d s) else undef.

(** i++ becomes i=i+1 in the buffer, i-- becomes i=i-1. *)
Definition inc_dec (part s : list Z) (c : Z) (one : string) : X (option (list Z)) :=
  let i := Z.of_nat (length s - length (default [] (strchr s c))) in
  next <- xget part (i + 1);;
  if negb (next =? c) then xret None else
  var <- strcat_n (zeros MAX_LINE_NUMBER) part i;;
  let part := splice i [61; 0] part in
  v <- str var;;
  part <- strcat_n part var (Z.of_nat (length v));;
  part <- strcat_n part (chars one) 2;;
  xret (Some part).
Definition convert_inc_dec (part : list Z) : X (list Z) :=
  s <- str part;;
  r <- inc_dec part s 43 "+1";;
  match r with
  | Some part => xret part
  | None => r <- inc_dec part s 45 "-1";; xret (default part r)
  end.
