(* ===== verification/ScriptRun.v ===== *)
(** script.c: variables, expressions, statements and the whole program.

    The routines that evaluate expressions, call functions and run lines are
    mutually recursive; each is written over the ones it calls, and
    [run_expression] and [run_line] tie the knot with fuel.  [runnable] tells
    which commands exec finds. *)
From S2P Require Import Prelude Params Str Ulib Lines Exit Script.
Open Scope x_scope.

Section script.
Variables (junk : list Z) (uninit : Var) (runnable : list (list Z) -> bool).
Implicit Types (part expression line : list Z) (line_number : Z).

(** ** Variables *)

(** stack_frame[stack_frame_number - 1] *)
Definition top : X Frame := l <- the stack_frame;; n <- the stack_frame_number;; xget l (n - 1).
Definition set_top (f : Frame) : X unit :=
  l <- the stack_frame;; n <- the stack_frame_number;; l <- xset l (n - 1) f;; change (set_frames l n).
Definition with_vars (vs : list Var) (f : Frame) : Frame := mkFrame (fr_function f) (current f) vs (fr_return f).

(** The arrays a Var * may point into. *)
Inductive place := InGlobals | InTop | InParams.
Definition vars_of (w : place) : X (list Var) :=
  match w with InGlobals => the global_vars | InTop => f <- top;; xret (vars f) | InParams => the params end.
Definition put_vars (w : place) (vs : list Var) : X unit :=
  match w with
  | InGlobals => n <- the global_vars_number;; change (set_globals vs n)
  | InTop => f <- top;; set_top (with_vars vs f)
  | InParams => change (set_params vs)
  end.

(** The index of a local variable; [last]: of the last one of that name. *)
Definition find_local (name : list Z) (last : bool) : X (option Z) :=
  f <- top;;
  xwhile (S (length (vars f))) (fun '(i, r) =>
    v <- xget (vars f) i;;
    if v_type v =? VOID then xret (inr r) else
    n <- str (v_name v);;
    if ustrcmp n name =? 0 then (if last : bool then xret (inl (i + 1, Some i)) else xret (inr (Some i)))
    else xret (inl (i + 1, r))) (0, None).
Definition find_global (name : list Z) (last : bool) : X (option Z) :=
  n <- the global_vars_number;;
  g <- the global_vars;;
  xwhile (S (Z.to_nat n)) (fun '(i, r) =>
    if n <=? i then xret (inr r) else
    v <- xget g i;;
    s <- str (v_name v);;
    if ustrcmp s name =? 0 then (if last : bool then xret (inl (i + 1, Some i)) else xret (inr (Some i)))
    else xret (inl (i + 1, r))) (0, None).
Definition find_var (name : list Z) (last : bool) : X (place * Z) :=
  r <- find_local name last;;
  match r with
  | Some i => xret (InTop, i)
  | None =>
      r <- find_global name last;;
      match r with
      | Some i => xret (InGlobals, i)
      | None => print (chars "can't find variable %s") [UStr (Some name)];; exit
      end
  end.

Definition line_buf : list Z := zeros MAX_LINE_LENGTH.
(** A copy of a value of the given type; another type leaves the result
    unset. *)
Definition copy_value (t : Z) (v : option (list Z)) : X Var :=
  if t =? INT then n <- get_int v;; xret (mkVar INT (v_name uninit) (Some (new_int junk n)))
  else if t =? CHAR then c <- get_chr v;; xret (mkVar CHAR (v_name uninit) (Some (new_char junk c)))
  else if t =? STRING then
    s <- get_str v;; b <- strcpy line_buf s;; xret (mkVar STRING (v_name uninit) (Some b))
  else xret uninit.
Definition is_number (part : list Z) : bool := negb (atoi part =? 0) || (chr part =? 48).
Definition get_var (part : list Z) : X Var :=
  part <- str part;;
  if chr part =? 0 then xret uninit else
  if is_number part then xret (mkVar INT (v_name uninit) (Some (new_int junk (atoi part)))) else
  if chr part =? QUOTE then xret (mkVar CHAR (v_name uninit) (Some (new_char junk (get_char_value part)))) else
  if chr part =? DQUOTE then b <- get_string_value part line_buf;; xret (mkVar STRING (v_name uninit) (Some b)) else
  let! (w, i) := find_var part false in
  vs <- vars_of w;;
  v <- xget vs i;;
  copy_value (v_type v) (v_value v).

(** What the assignment leaves in the memory of [local]. *)
Definition assigned (local var : Var) : X (list Z) :=
  let t := v_type local in let u := v_type var in
  if (t =? INT) && (u =? INT) then n <- get_int (v_value var);; b <- need (v_value local);; xret (splice 0 (le_enc 4 n) b)
  else if (t =? INT) && (u =? CHAR) then n <- get_chr (v_value var);; b <- need (v_value local);; xret (splice 0 (le_enc 4 n) b)
  else if (t =? CHAR) && ((u =? INT) || (u =? CHAR)) then
    n <- get_chr (v_value var);; b <- need (v_value local);; xset b 0 (u8 n)
  else if (t =? STRING) && (u =? INT) then n <- get_int (v_value var);; itoa line_buf n
  else if (t =? STRING) && (u =? CHAR) then n <- get_chr (v_value var);; xset line_buf 0 (u8 n)
  else if (t =? STRING) && (u =? STRING) then s <- get_str (v_value var);; strcpy line_buf s
  else die "parameter type error".
Definition set_var (var_name : list Z) (var : Var) : X unit :=
  var_name <- str var_name;;
  let! (w, i) := find_var var_name true in
  vs <- vars_of w;;
  v <- xget vs i;;
  b <- assigned v var;;
  vs <- xset vs i (mkVar (v_type v) (v_name v) (Some b));;
  put_vars w vs.

(** Of two variables of the same name the later one stays. *)
Fixpoint named (vs : list Var) : list Var :=
  match vs with v :: vs => if chr (v_name v) =? 0 then [] else v :: named vs | [] => [] end.
Fixpoint dedupe (vs : list Var) : list Var :=
  match vs with
  | [] => []
  | v :: vs =>
      if existsb (fun w => ustrcmp (cstr (v_name w)) (cstr (v_name v)) =? 0) vs then dedupe vs else v :: dedupe vs
  end.
Definition remove_duplicate_variables (vs : list Var) : list Var :=
  let kept := dedupe (named (take (Z.to_nat MAX_VARS_NUMBER) vs)) in
  kept ++ replicate (length vs - length kept) var0.

(** ** Expressions *)
Definition char_result (n : Z) : X Var := xret (mkVar CHAR (v_name var0) (Some (new_char junk n))).
Definition int_result (n : Z) : X Var := xret (mkVar INT (v_name var0) (Some (new_int junk (s32 n)))).
Definition string_result (b : list Z) : X Var :=
  s <- str b;; b <- strcpy line_buf s;; xret (mkVar STRING (v_name var0) (Some b)).
Definition PLUS : Z := 43.
Definition MINUS : Z := 45.
Definition TIMES : Z := 42.
Definition DIV : Z := 47.
(** The C operator on ints; a division that traps is undefined. *)
Definition int_op (kind a b : Z) : X Z :=
  if kind =? PLUS then xret (a + b) else if kind =? MINUS then xret (a - b) else if kind =? TIMES then xret (a * b)
  else if (b =? 0) || ((a =? - 2 ^ 31) && (b =? -1)) then undef else xret (Z.quot a b).
(** An operand as a string: the digits of an int, one char, or the string. *)
Definition as_string (v : Var) : X (list Z) :=
  if v_type v =? INT then n <- get_int (v_value v);; itoa line_buf n
  else if v_type v =? CHAR then c <- get_chr (v_value v);; xset line_buf 0 (u8 c)
  else s <- get_str (v_value v);; strcpy line_buf s.
Definition is_num (t : Z) : bool := (t =? INT) || (t =? CHAR).
Definition num_of (v : Var) : X Z := if v_type v =? INT then get_int (v_value v) else get_chr (v_value v).
Definition calculate (expression : list Z) (kind : Z) : X Var :=
  let! (_, split_exp) := split MAX_VARS_NUMBER expression kind in
  l <- need (split_exp !! 0%nat);;
  left <- get_var l;;
  r <- need (split_exp !! 1%nat);;
  right <- get_var r;;
  result <-
    (if is_num (v_type left) && is_num (v_type right) then
       a <- num_of left;; b <- num_of right;; n <- int_op kind a b;;
       if (v_type left =? CHAR) && (v_type right =? CHAR) then char_result n else int_result n
     else if (kind =? PLUS) && ((v_type left =? STRING) && (is_num (v_type right) || (v_type right =? STRING)) ||
                                is_num (v_type left) && (v_type right =? STRING)) then
       a <- as_string left;;
       b <- as_string right;;
       s <- str b;;
       c <- strcat_n a b (Z.of_nat (length s));;
       string_result c
     else xret var0);;
  free_split MAX_VARS_NUMBER split_exp;;
  xret result.

Definition compare (operator : list Z) (a b : Z) : Z :=
  let opis (s : string) := ustrcmp operator (chars s) =? 0 in
  Z.b2z (if opis ">"%string then b <? a else if opis "<"%string then a <? b else if opis ">="%string then b <=? a
         else if opis "<="%string then a <=? b else if opis "=="%string then a =? b else if opis "!="%string then negb (a =? b) else false).
Definition calculate_condition (left right : Var) (operator : list Z) : X Z :=
  if is_num (v_type left) && is_num (v_type right) then
    number1 <- (if v_type left =? INT then get_int (v_value left) else get_chr (v_value left));;
    number2 <- (if v_type right =? CHAR then get_int (v_value right) else get_chr (v_value right));;
    xret (compare operator number1 number2)
  else if (v_type left =? STRING) && (v_type right =? STRING) then
    a <- get_str (v_value left);;
    b <- get_str (v_value right);;
    xret (compare operator (ustrcmp a b) 0)
  else die "can't compare variables".
Definition is_rel (c : Z) : bool := (c =? 62) || (c =? 60) || (c =? 61) || (c =? 33).
Fixpoint rel_at (s : list Z) : nat := match s with c :: s => if is_rel c then O else S (rel_at s) | [] => O end.
Definition get_condition_result (part : list Z) : X Z :=
  s <- str part;;
  let i := rel_at s in
  if (i <? length s)%nat then
    let eq := chr (drop (S i) s) =? 61 in
    let operator := chr (drop i s) :: (if eq then [61] else []) in
    str_left <- strcat_n (zeros MAX_NAME_LINGTH) part (Z.of_nat i);;
    str_right <- strcpy (zeros MAX_NAME_LINGTH) (drop (i + if eq then 2 else 1) s);;
    left <- get_var str_left;;
    right <- get_var str_right;;
    calculate_condition left right operator
  else
    var <- get_var part;;
    if v_type var =? INT then get_int (v_value var) else
    if v_type var =? CHAR then get_chr (v_value var) else
    if v_type var =? STRING then c <- get_chr (v_value var);; xret (if c =? 0 then 0 else 1) else
    xret 0.

(** ** Blocks *)

(** The loop that looks for the brace that closes the block from line [i] on;
    MAX_LINE_NUMBER if there is none. *)
Definition block_end (i : Z) : X Z :=
  xwhile (S (Z.to_nat MAX_LINE_NUMBER)) (fun '(i, count) =>
    l <- line_at i;;
    let c := chr l in
    let count := if c =? 123 then count + 1 else count in
    let count := if c =? 125 then count - 1 else count in
    if 0 <? count then
      if i + 1 <? MAX_LINE_NUMBER then xret (inl (i + 1, count)) else xret (inr (i + 1))
    else xret (inr i)) (i, 0).
(** The index of the first [c] at or after [i] within MAX_LINE_LENGTH. *)
Fixpoint index_from (n : nat) (i : Z) (line : list Z) (c : Z) : Z :=
  match n with O => i | S n => if line !!! Z.to_nat i =? c then i else index_from n (i + 1) line c end.
Definition index_of (i : Z) (line : list Z) (c : Z) : Z := index_from (Z.to_nat (MAX_LINE_LENGTH - i)) i line c.
(** The condition between the parentheses, into a buffer. *)
Definition condition_of (line : list Z) : X (list Z) :=
  let i := index_of 0 line 40 in
  let pos1 := if i <? MAX_LINE_LENGTH then i else 0 in
  let j := index_of i line 41 in
  let pos2 := if j <? MAX_LINE_LENGTH then j else 0 in
  strcat_n (zeros (MAX_NAME_LINGTH * 2)) (drop (Z.to_nat (pos1 + 1)) line) (pos2 - pos1 - 1).

Definition get_if_block line_number : X (option IfBlock) :=
  i <- block_end (line_number + 1);;
  if i =? MAX_LINE_NUMBER then xret None else
  line <- line_at line_number;;
  c <- condition_of line;;
  xret (Some (mkIf (line_number + 2) (i - 1) c)).
Definition get_if_else_block line_number : X (option IfElseBlock) :=
  i <- block_end (line_number + 1);;
  if MAX_LINE_NUMBER - 3 <=? i then xret None else
  e <- line_at (i + 1);;
  e <- str e;;
  if negb (ustrcmp e (chars "else") =? 0) then xret None else
  j <- block_end (i + 2);;
  if MAX_LINE_NUMBER <=? j then xret None else
  line <- line_at line_number;;
  c <- condition_of line;;
  xret (Some (mkIfElse (line_number + 2) (i - 1) (i - 1 + 4) (j - 1) c)).
(** The three fields between the parentheses of a for. *)
Definition for_fields (line : list Z) : X (option (list Z * list Z * list Z)) :=
  let pos1 := index_of 0 line 40 in
  let pos2 := index_of (pos1 + 1) line 59 in
  let pos3 := index_of (pos2 + 1) line 59 in
  let pos4 := index_of (pos3 + 1) line 41 in
  if (MAX_LINE_LENGTH <=? pos1) || (MAX_LINE_LENGTH <=? pos2) || (MAX_LINE_LENGTH <=? pos3) || (MAX_LINE_LENGTH <=? pos4)
  then xret None else
  let field (a b : Z) := strcat_n (zeros (MAX_NAME_LINGTH * 2)) (drop (Z.to_nat (a + 1)) line) (b - a - 1) in
  init <- field pos1 pos2;;
  cond <- field pos2 pos3;;
  back <- field pos3 pos4;;
  init <- convert_inc_dec init;;
  back <- convert_inc_dec back;;
  xret (Some (init, cond, back)).
Definition get_for_block line_number : X (option ForBlock) :=
  line <- line_at line_number;;
  r <- for_fields line;;
  match r with
  | None => xret None
  | Some (init, cond, back) =>
      i <- block_end (line_number + 1);;
      if i =? MAX_LINE_NUMBER then xret None else
      xret (Some (mkFor (line_number + 2) (i - 1) init cond back))
  end.

(** split(cmd, ' ', res); the child execs, the parent waits.  A command that
    exec does not find is outside the model: the child would go on with the
    script. *)
Definition run_command (cmd : list Z) : X unit :=
  let! (_, res) := split MAX_VARS_NUMBER cmd 32 in
  if Z.of_nat (length res) <? MAX_VARS_NUMBER then
    argv <- strs res;;
    if runnable argv then change (add_run argv) else fail (Panic "exec")
  else undef.

(** ** Declarations and calls, over run_expression *)
Section calls.
Variable run_expression : list Z -> X Var.

(** One declarator: name, or name = expression. *)
Definition declare (w : place) (base ty : Z) (count : Z) (piece : list Z) : X Z :=
  let! (m, se) := split MAX_NAME_LINGTH piece 61 in
  count <-
    (if m =? 0 then xret count else
     name <- need (se !! 0%nat);;
     name <- str name;;
     vs <- vars_of w;;
     v <- xget vs (base + count);;
     name <- strcpy (v_name v) name;;
     let fresh := if ty =? STRING then line_buf
                  else if m =? 1 then (if ty =? INT then new_int junk 0 else new_char junk 0) else junk in
     vs <- xset vs (base + count) (mkVar ty name (Some fresh));;
     put_vars w vs;;
     if m =? 1 then xret (count + 1) else
     e <- need (se !! 1%nat);;
     result <- run_expression e;;
     set_var name result;;
     xret (count + 1));;
  free_split MAX_NAME_LINGTH se;;
  xret count.
Fixpoint declare_all (w : place) (base ty : Z) (count : Z) (pieces : list (list Z)) : X Z :=
  match pieces with
  | [] => xret count
  | p :: pieces => count <- declare w base ty count p;; declare_all w base ty count pieces
  end.
Definition declare_type (w : place) (base ty : Z) (prefix : string) (line : list Z) (count : Z) : X Z :=
  if negb (begins line prefix) then xret count else
  let rest := drop (length (chars prefix)) line in
  s <- str rest;;
  if negb (is_variable s) then xret count else
  let! (n, split_vars) := split MAX_NAME_LINGTH rest 44 in
  count <- declare_all w base ty count (take (Z.to_nat n) split_vars);;
  free_split MAX_NAME_LINGTH split_vars;;
  xret count.
Definition find_vars_in_line (line : list Z) (w : place) (base : Z) : X Z :=
  n <- declare_type w base INT "int " line 0;;
  n <- declare_type w base CHAR "char " line n;;
  declare_type w base STRING "string " line n.

Definition expect (want got : Z) : X unit := if want =? got then xret tt else die "parameter type error".
(** The argument [piece] for a parameter of type [want]: its type and
    memory. *)
Definition argument (want : Z) (piece : list Z) : X (Z * list Z) :=
  p <- str piece;;
  let quoted (q : Z) := (chr p =? q) && (List.last p 0 =? q) in
  if is_number p then expect want INT;; xret (INT, new_int junk (atoi p))
  else if quoted QUOTE then expect want CHAR;; xret (CHAR, new_char junk (get_char_value p))
  else if quoted DQUOTE then expect want STRING;; b <- get_string_value p line_buf;; xret (STRING, b)
  else
    tmp_var <- run_expression piece;;
    if v_type tmp_var =? 0 then print (chars "can't find variable %s") [UStr (Some p)];; exit else
    expect want (v_type tmp_var);;
    v <- copy_value (v_type tmp_var) (v_value tmp_var);;
    b <- need (v_value v);;
    xret (v_type tmp_var, b).
(** stack_frame[stack_frame_number].vars[i] = the argument *)
Definition pass_argument (i : Z) (piece : list Z) : X unit :=
  l <- the stack_frame;;
  n <- the stack_frame_number;;
  f <- xget l n;;
  want <- xget (param_type (fr_function f)) i;;
  let! (t, b) := argument want piece in
  l <- the stack_frame;;
  n <- the stack_frame_number;;
  f <- xget l n;;
  v <- xget (vars f) i;;
  p <- xget (param_name (fr_function f)) i;;
  p <- str p;;
  name <- strcpy (v_name v) p;;
  vs <- xset (vars f) i (mkVar t name (Some b));;
  l <- xset l n (with_vars vs f);;
  change (set_frames l n).
Fixpoint pass_arguments (i : Z) (pieces : list (list Z)) : X unit :=
  match pieces with [] => xret tt | p :: pieces => pass_argument i p;; pass_arguments (i + 1) pieces end.
(** The first [c] at or after [i]; reading past the buffer is undefined. *)
Definition scan_to (fun_str : list Z) (c i : Z) : X Z :=
  xwhile (S (Z.to_nat MAX_LINE_LENGTH)) (fun i =>
    x <- xget fun_str i;;
    if negb (x =? c) && (i <? MAX_LINE_LENGTH) then xret (inl (i + 1)) else xret (inr i)) i.
Definition find_function (name : list Z) : X (option Function) :=
  l <- the fun_list;;
  n <- the fun_list_number;;
  xret (List.find (fun f => ustrcmp name (cstr (f_name f)) =? 0) (take (Z.to_nat n) l)).
Definition push_function (fun_str : list Z) : X Z :=
  pos1 <- scan_to fun_str 40 0;;
  if pos1 <? 1 then die "error, it's not function" else
  pos2 <- scan_to fun_str 41 pos1;;
  fun_name <- strcat_n (zeros MAX_NAME_LINGTH) fun_str pos1;;
  name <- str fun_name;;
  r <- find_function name;;
  match r with
  | None => print (chars "error, can't find function %s" ++ [NL]) [UStr (Some name)];; exit
  | Some fn =>
      l <- the stack_frame;;
      n <- the stack_frame_number;;
      f <- xget l n;;
      l <- xset l n (mkFrame fn (f_start fn + 2) (vars f) (fr_return f));;
      change (set_frames l n);;
      ps <- strcat_n (zeros MAX_LINE_LENGTH) (drop (Z.to_nat (pos1 + 1)) fun_str) (pos2 - pos1 - 1);;
      let! (number, split_param) := split MAX_VARS_NUMBER ps 44 in
      pass_arguments 0 (take (Z.to_nat number) split_param);;
      l <- the stack_frame;;
      change (set_frames l (n + 1));;
      free_split MAX_VARS_NUMBER split_param;;
      f <- xget l n;;
      xret (current f)
  end.
End calls.

(** ** Running lines, over run_line: the lines consumed, and the value of a
    return *)
Section lines.
Variables (run_expression : list Z -> X Var) (run_line : Z -> X (Z * option Var)).

Definition run_lines (i end_ : Z) : X (option Var) :=
  xwhile (S (Z.to_nat (end_ + 1 - i))) (fun i =>
    if end_ <? i then xret (inr None) else
    let! (n, r) := run_line i in
    match r with Some v => xret (inr (Some v)) | None => xret (inl (i + (n - 1) + 1)) end) i.

(** The values are freed up to the first null pointer, and the frame is
    cleared. *)
Definition pop_frame : X unit :=
  f <- top;;
  xwhile (S (length (vars f))) (fun j =>
    v <- xget (vars f) j;;
    match v_value v with Some _ => xret (inl (j + 1)) | None => xret (inr tt) end) 0;;
  set_top frame0;;
  l <- the stack_frame;;
  n <- the stack_frame_number;;
  change (set_frames l (n - 1)).
Definition run_function : X Var :=
  f <- top;;
  r <- run_lines (current f) (f_end (fr_function f) - 1);;
  let return_var := default uninit r in
  f <- top;;
  if negb (v_type return_var =? return_type (fr_function f)) then die "return type error" else
  pop_frame;;
  xret return_var.

(** name = expression, from its two pieces. *)
Definition assign_pieces (split_equal : list (list Z)) : X unit :=
  r <- need (split_equal !! 1%nat);;
  right_val <- run_expression r;;
  l <- need (split_equal !! 0%nat);;
  set_var l right_val.
(** The assignments of the head of a for. *)
Definition assign (part : list Z) : X unit :=
  let! (number, split_equal) := split MAX_VARS_NUMBER part 61 in
  (if number =? 2 then assign_pieces split_equal else xret tt);;
  free_split MAX_VARS_NUMBER split_equal.

Definition run_if_block (b : IfBlock) : X (Z * option Var) :=
  c <- get_condition_result (if_cond b);;
  r <- (if c =? 0 then xret None else run_lines (if_from b) (if_to b));;
  xret (if_to b - if_from b + 4, r).
Definition run_if_else_block (b : IfElseBlock) : X (Z * option Var) :=
  c <- get_condition_result (ie_cond b);;
  r <- (if c =? 0 then run_lines (else_start b) (else_end b) else run_lines (if_start b) (if_end b));;
  xret (else_end b - if_start b + 4, r).
Definition run_for_block (fuel : nat) (b : ForBlock) : X (Z * option Var) :=
  assign (for_init b);;
  r <- xwhile fuel (fun _ =>
    c <- get_condition_result (for_cond b);;
    if c =? 0 then xret (inr None) else
    r <- run_lines (for_start b) (for_end b);;
    match r with
    | Some v => xret (inr (Some v))
    | None => assign (for_back b);; xret (inl tt)
    end) tt;;
  xret (for_end b - for_start b + 4, r).

Definition unknown_line {A} (line : list Z) : X A :=
  s <- str line;; print (chars "unknown line: %s" ++ [NL]) [UStr (Some s)];; exit.
(** The declarations of a line of a function. *)
Definition declare_locals (line : list Z) : X Z :=
  f <- top;;
  local_vars_number <- xwhile (S (length (vars f))) (fun i =>
    v <- xget (vars f) i;; if v_type v =? VOID then xret (inr i) else xret (inl (i + 1))) 0;;
  number <- find_vars_in_line run_expression line InTop local_vars_number;;
  f <- top;;
  set_top (with_vars (remove_duplicate_variables (vars f)) f);;
  xret number.
Definition run_system (line : list Z) : X unit :=
  s <- str line;;
  com <- strcat_n line_buf (drop 7 line) (Z.of_nat (length s) - 8);;
  tmp <- run_expression com;;
  if negb (v_type tmp =? STRING) then die "parameter type error" else
  p <- get_str (v_value tmp);;
  param <- strcpy line_buf p;;
  run_command param.
(** What is not a declaration: a block, an assignment or a call. *)
Definition run_statement (fuel : nat) line_number : X (Z * option Var) :=
  line <- line_at line_number;;
  if begins line "if" then
    b <- get_if_else_block line_number;;
    match b with
    | Some b => run_if_else_block b
    | None => b <- get_if_block line_number;; match b with Some b => run_if_block b | None => unknown_line line end
    end
  else if begins line "for" then
    b <- get_for_block line_number;;
    match b with Some b => run_for_block fuel b | None => unknown_line line end
  else
    line <- convert_inc_dec line;;
    put_line line_number line;;
    let! (number, split_equal) := split MAX_VARS_NUMBER line 61 in
    if negb (number =? 2) then
      s <- str line;;
      if is_function s then push_function run_expression line;; run_function;; xret (1, None)
      else unknown_line line
    else
      assign_pieces split_equal;;
      free_split MAX_VARS_NUMBER split_equal;;
      xret (1, None).
Definition line_body (fuel : nat) line_number : X (Z * option Var) :=
  line <- line_at line_number;;
  if chr line =? 0 then xret (1, None) else
  if begins line "return" then v <- run_expression (drop 7 line);; xret (1, Some v) else
  if begins line "system(" then run_system line;; xret (1, None) else
  number <- declare_locals line;;
  if 0 <? number then xret (1, None) else
  run_statement fuel line_number.

Definition has_char (s : list Z) (c : Z) : bool := bool_decide (c ∈ s).
Definition expression_body (expression : list Z) : X Var :=
  s <- str expression;;
  if is_function s then push_function run_expression expression;; run_function else
  if has_char s PLUS then calculate expression PLUS else
  if has_char s MINUS then calculate expression MINUS else
  if has_char s TIMES then calculate expression TIMES else
  if has_char s DIV then calculate expression DIV else
  get_var expression.
End lines.

Fixpoint run_expression (fuel : nat) (expression : list Z) : X Var :=
  match fuel with
  | O => fail OutOfFuel
  | S f => expression_body (run_expression f) (run_line f) expression
  end
with run_line (fuel : nat) (line_number : Z) : X (Z * option Var) :=
  match fuel with
  | O => fail OutOfFuel
  | S f => line_body (run_expression f) (run_line f) f line_number
  end.

(** ** The program *)

(** The line before which the function that starts at [start] ends. *)
Definition get_fun_finish (start : Z) : X Z :=
  t <- the text;;
  i <- xwhile (S (Z.to_nat MAX_LINE_NUMBER)) (fun '(i, count, flag) =>
    if negb (i <? MAX_LINE_NUMBER) then xret (inr i) else
    p <- xget t i;;
    match p with
    | None => xret (inr i)
    | Some l =>
        if (flag : bool) && negb (0 <? count) then xret (inr i) else
        let c := chr l in
        xret (inl (i + 1, count + (if c =? 123 then 1 else 0) - (if c =? 125 then 1 else 0),
                   flag || (c =? 123) || (c =? 125)))
    end) (start + 1, 0, false);;
  xret (i - 1).

(** A line that declares a function of type [ty]: its name goes to the next
    entry of fun_list.  The positions of its parentheses. *)
Definition function_head (ty : Z) (prefix : string) (line : list Z) (pos : option (Z * Z)) : X (option (Z * Z)) :=
  if negb (begins line prefix) then xret pos else
  let k := length (chars prefix) in
  s <- str (drop k line);;
  if negb (is_function s) then xret pos else
  let to (i : Z) (c : Z) : Z :=
    let r := drop (Z.to_nat i - k) s in i + Z.of_nat (length r - length (default [] (strchr r c))) in
  let pos1 := to (Z.of_nat k) 40 in
  let pos2 := to (pos1 + 1) 41 in
  l <- the fun_list;;
  n <- the fun_list_number;;
  f <- xget l n;;
  name <- strcat_n (f_name f) (drop k line) (pos1 - Z.of_nat k);;
  l <- xset l n (mkFun (f_start f) (f_end f) ty name (param_type f) (param_name f));;
  change (set_funs l n);;
  xret (Some (pos1, pos2)).

Fixpoint find_params (fuel : nat) (pieces : list (list Z)) (count : Z) : X Z :=
  match pieces with
  | [] => xret count
  | p :: pieces => n <- find_vars_in_line (run_expression fuel) p InParams count;; find_params fuel pieces (count + n)
  end.
Fixpoint copy_params (n : nat) (j : Z) (ps : list Var) (f : Function) : X Function :=
  match n with
  | O => xret f
  | S n =>
      v <- xget ps j;;
      pt <- xset (param_type f) j (v_type v);;
      b <- xget (param_name f) j;;
      s <- str (v_name v);;
      b <- strcpy b s;;
      pn <- xset (param_name f) j b;;
      copy_params n (j + 1) ps (mkFun (f_start f) (f_end f) (return_type f) (f_name f) pt pn)
  end.
Definition find_function_at (fuel : nat) (i : Z) (line : list Z) : X unit :=
  pos <- function_head INT "int " line None;;
  pos <- function_head CHAR "char " line pos;;
  pos <- function_head STRING "string " line pos;;
  pos <- function_head VOID "void " line pos;;
  match pos with
  | None => xret tt
  | Some (pos1, pos2) =>
      to_split <- strcat_n (zeros MAX_LINE_NUMBER) (drop (Z.to_nat (pos1 + 1)) line) (pos2 - pos1 - 1);;
      let! (number, split_result) := split MAX_LINE_NUMBER to_split 44 in
      change (set_params vars0);;
      params_number <- find_params fuel (take (Z.to_nat number) split_result) 0;;
      ps <- the params;;
      l <- the fun_list;;
      n <- the fun_list_number;;
      f <- xget l n;;
      f <- copy_params (Z.to_nat params_number) 0 ps f;;
      free_split MAX_LINE_NUMBER split_result;;
      e <- get_fun_finish i;;
      l <- xset l n (mkFun i e (return_type f) (f_name f) (param_type f) (param_name f));;
      change (set_funs l (n + 1))
  end.
(** for (; text[i] != NULL; i++) *)
Definition each_line (body : Z -> list Z -> X unit) : X unit :=
  xwhile (S (Z.to_nat MAX_LINE_NUMBER)) (fun i =>
    t <- the text;;
    p <- xget t i;;
    match p with None => xret (inr tt) | Some l => body i l;; xret (inl (i + 1)) end) 0.
Definition find_functions (fuel : nat) : X unit := each_line (find_function_at fuel).

Definition in_fun (l : list Function) (i : Z) : bool := existsb (fun f => (f_start f <=? i) && (i <=? f_end f)) l.
Definition find_global_vars (fuel : nat) : X unit :=
  l <- the fun_list;;
  n <- the fun_list_number;;
  each_line (fun i line =>
    if in_fun (take (Z.to_nat n) l) i then xret tt else
    k <- the global_vars_number;;
    c <- find_vars_in_line (run_expression fuel) line InGlobals k;;
    g <- the global_vars;;
    k <- the global_vars_number;;
    change (set_globals g (k + c)));;
  g <- the global_vars;;
  k <- the global_vars_number;;
  change (set_globals (remove_duplicate_variables g) k).

Definition execute_text (fuel : nat) : X unit :=
  push_function (run_expression fuel) (chars "main()" ++ [0]);;
  run_function (run_line fuel);;
  xret tt.
Definition process_text (fuel : nat) : X unit :=
  each_line (fun i line =>
    l <- remove_spaces line;;
    l <- remove_semicolon l;;
    put_line i (if (chr l =? 47) && (chr (tail l) =? 47) then zeros MAX_LINE_LENGTH else l));;
  find_functions fuel;;
  find_global_vars fuel;;
  execute_text fuel.

(** One read of the file.  true: is_full. *)
Definition read_chunk (buf : list Z) (line_number : Z) : X (Z * bool) :=
  let len := Z.of_nat (length buf) in
  xwhile (S (length buf)) (fun '(next, n) =>
    let i := next + Z.of_nat (newline_at (drop (Z.to_nat next) buf)) in
    l <- line_at n;;
    l <- strcat_n l (drop (Z.to_nat next) buf) (i - next);;
    put_line n l;;
    let! (n, full) :=
      (if i <? len then
         if MAX_LINE_NUMBER - 1 <=? n then xret (n, true)
         else put_line (n + 1) (zeros MAX_LINE_LENGTH);; xret (n + 1, false)
       else xret (n, false)) in
    if (full : bool) || (len - 1 <=? i) then xret (inr (n, full)) else xret (inl (i + 1, n))) (0, line_number).
Fixpoint read_chunks (chunks : list (list Z)) (line_number : Z) : X unit :=
  match chunks with
  | [] => xret tt
  | b :: chunks =>
      if 0 <? Z.of_nat (length b) then
        let! (n, full) := read_chunk b line_number in
        if full : bool then xret tt else read_chunks chunks n
      else xret tt
  end.
(** What successive read(fd, buf, BUF_SIZE) return. *)
Fixpoint reads (fuel : nat) (f : list Z) : list (list Z) :=
  match fuel with
  | O => []
  | S fuel =>
      match f with
      | [] => []
      | _ => take (Z.to_nat BUF_SIZE) f :: reads fuel (drop (Z.to_nat BUF_SIZE) f)
      end
  end.
Definition read_script (file : option (list Z)) : X unit :=
  match file with
  | None => die "can't open the file"
  | Some f =>
      put_line 0 (zeros MAX_LINE_LENGTH);;
      read_chunks (reads (length f) f) 0
  end.
(** [file]: what argv[1] names. *)
Definition main (fuel : nat) (argc : Z) (file : option (list Z)) : X unit :=
  if argc <? 2 then die "please input the command as [script file]" else
  read_script file;;
  process_text fuel;;
  exit.
End script.
