(* ===== verification/ScriptThms.v ===== *)
(** The script interpreter: what running lines does to the text, and that
    nested blocks are run as their braces say. *)
From S2P Require Import Prelude Params Str Ulib Exit Script ScriptRun.
Open Scope x_scope.

Implicit Types (l part line : list Z) (t : list (option (list Z))) (s : sc) (i L : Z).

(** ** The text while a script runs

    Running a line may rewrite it (i++ becomes i=i+1).  What the block
    structure depends on stays: the heads of blocks, the lines else and the
    first characters that open and close blocks. *)
Definition is_head l : bool := begins l "if" || begins l "for".
Definition is_else l : bool := bool_decide (cstr l = chars "else").
(** The line else, with no character of an operator in reach behind it. *)
Definition solid_else l : bool :=
  is_else l && negb (l !!! 5%nat =? PLUS) && negb (l !!! 5%nat =? MINUS).
Definition opens l : bool := chr l =? 123.
Definition closes l : bool := chr l =? 125.

(** A terminated string of bytes. *)
Definition good_line l : Prop := bytes l /\ 0 ∈ l.

Definition line_like l l' : Prop :=
  l' = l \/ (is_head l = false /\ is_head l' = false /\ solid_else l = false /\ is_else l' = false /\
             opens l' = opens l /\ closes l' = closes l /\ (good_line l -> good_line l')).
Definition text_like t t' : Prop :=
  forall k : nat, t' !! k = t !! k \/ exists l l', t !! k = Some (Some l) /\ t' !! k = Some (Some l') /\ line_like l l'.

Lemma text_like_refl t : text_like t t.
Proof. by left. Qed.
Lemma line_like_trans l1 l2 l3 : line_like l1 l2 -> line_like l2 l3 -> line_like l1 l3.
Proof.
  intros [->|H12] [->|H23]; [by left|by right|by right|]. right. destruct H12 as (?&?&?&?&?&?&?), H23 as (?&?&?&?&?&?&?).
  split_and!; (done || congruence || auto).
Qed.
Lemma text_like_trans t1 t2 t3 : text_like t1 t2 -> text_like t2 t3 -> text_like t1 t3.
Proof.
  intros H12 H23 k. destruct (H12 k) as [E12|(l1&l2&E1&E2&R12)], (H23 k) as [E23|(l2'&l3&E2'&E3&R23)].
  - left. congruence.
  - right. exists l2', l3. split_and!; (done || congruence).
  - right. exists l1, l2. split_and!; (done || congruence).
  - right. rewrite E2 in E2'. injection E2' as <-. exists l1, l3. split_and!; [done..|]. by eapply line_like_trans.
Qed.

(** A call keeps the structure of the text. *)
Definition keeps {A} (m : X A) : Prop := forall s r s', m s = Ok r s' -> text_like (text s) (text s').

Create HintDb script_keeps.
Lemma script_bind {A B} (m : X A) (k : A -> X B) : keeps m -> (forall a, keeps (k a)) -> keeps (xbind m k).
Proof.
  intros Hm Hk s r s'. unfold xbind, bind. destruct (m s) as [[a|] s1|] eqn:E; [| |done].
  - intros H. eapply text_like_trans; [by eapply Hm|by eapply Hk].
  - intros [= <- <-]. by eapply Hm.
Qed.
Lemma script_ret {A} (a : A) : keeps (xret a).
Proof. intros s r s' [= <- <-]. apply text_like_refl. Qed.
Lemma script_exit {A} : keeps (@exit sc A).
Proof. intros s r s' [= <- <-]. apply text_like_refl. Qed.
Lemma script_fail {A} e : keeps (fail e : X A).
Proof. by intros s r s'. Qed.
Lemma script_undef {A} : keeps (@undef sc A).
Proof. by intros s r s'. Qed.
Lemma script_the {A} (f : sc -> A) : keeps (the f).
Proof. intros s r s' [= <- <-]. apply text_like_refl. Qed.
Lemma script_change f : (forall s, text (f s) = text s) -> keeps (change f).
Proof. intros H s r s' [= <- <-]. rewrite H. apply text_like_refl. Qed.
Lemma script_xget {A} `{Inhabited A} (l : list A) i : keeps (xget l i).
Proof. intros s r s'. unfold xget, up, bind, aget. destruct (inb l i); [|done]. intros [= <- <-]. apply text_like_refl. Qed.
Lemma script_xset {A} (l : list A) i a : keeps (xset l i a).
Proof. intros s r s'. unfold xset, up, bind, aset. destruct (inb l i); [|done]. intros [= <- <-]. apply text_like_refl. Qed.
Lemma script_need {A} (o : option A) : keeps (need o).
Proof. destruct o; [apply script_ret|apply script_undef]. Qed.
Lemma script_xwhile {A R} fuel (body : A -> X (A + R)) a : (forall a, keeps (body a)) -> keeps (xwhile fuel body a).
Proof.
  intros Hb. revert a. induction fuel as [|f IH]; intros a; cbn [xwhile]; [apply script_fail|].
  apply script_bind; [done|]. intros [a'|v]; [apply IH|apply script_ret].
Qed.
#[export] Hint Resolve @script_ret @script_exit @script_fail @script_undef @script_the @script_xget @script_xset @script_need : script_keeps.

(** One step through the structure of a call. *)
Ltac keeps_step :=
  match goal with
  | |- keeps (xbind _ _) => apply script_bind; [|intros ?]
  | |- keeps (xwhile _ _ _) => apply script_xwhile; intros ?
  | |- keeps (change _) => apply script_change; intros ?; reflexivity
  | |- keeps (if ?c then _ else _) => destruct c
  | |- keeps (match ?x with _ => _ end) => destruct x
  | |- keeps (let _ := _ in _) => cbv zeta
  | |- keeps _ => solve [eauto 2 with script_keeps]
  end.
Ltac keeps_run := repeat (cbv zeta beta; keeps_step).

Lemma script_str l : keeps (str l).
Proof. unfold str. keeps_run. Qed.
Lemma script_strcpy l l' : keeps (strcpy l l').
Proof. unfold strcpy. keeps_run. Qed.
Lemma script_line_at i : keeps (line_at i).
Proof. unfold line_at. keeps_run. Qed.
#[export] Hint Resolve script_str script_strcpy script_line_at : script_keeps.
Lemma script_print f a : keeps (print f a).
Proof. unfold print. keeps_run. Qed.
#[export] Hint Resolve script_print : script_keeps.
Lemma script_die {A} m : keeps (@die A m).
Proof. unfold die. keeps_run. Qed.
Lemma script_strcat_n l l' n : keeps (strcat_n l l' n).
Proof. unfold cat_n. keeps_run. Qed.
Lemma script_get_int p : keeps (get_int p).
Proof. unfold get_int. keeps_run. Qed.
Lemma script_get_chr p : keeps (get_chr p).
Proof. unfold get_chr. keeps_run. Qed.
Lemma script_get_str p : keeps (get_str p).
Proof. unfold get_str. keeps_run. Qed.
Lemma script_split_loop l c sq dq p cur b : keeps (split_loop MAX_NAME_LINGTH l c sq dq p cur b).
Proof. revert sq dq p cur b. induction l as [|x l IH]; intros; cbn [split_loop]; keeps_run; apply IH. Qed.
#[export] Hint Resolve @script_die script_strcat_n script_get_int script_get_chr script_get_str script_split_loop : script_keeps.
Lemma script_split cap l c : keeps (split cap l c).
Proof. unfold split_n. keeps_run. Qed.
Lemma script_free_split cap a : keeps (free_split cap a).
Proof. unfold free_split. keeps_run. Qed.
Lemma script_string_loop l p r : keeps (string_loop l p r).
Proof.
  revert p r. induction l as [l IH] using (induction_ltof1 _ (@length Z)); unfold ltof in IH; intros p r.
  destruct l as [|c [|d l]]; cbn [string_loop]; keeps_run; apply IH; simpl; lia.
Qed.
Lemma script_itoa l n : keeps (itoa l n).
Proof. unfold itoa. keeps_run. Qed.
#[export] Hint Resolve script_split script_free_split script_string_loop script_itoa : script_keeps.
Lemma script_get_string_value l r : keeps (get_string_value l r).
Proof. unfold get_string_value. keeps_run. Qed.
Lemma script_inc_dec l r c o : keeps (inc_dec l r c o).
Proof. unfold inc_dec. keeps_run. Qed.
#[export] Hint Resolve script_get_string_value script_inc_dec : script_keeps.
Lemma script_convert_inc_dec l : keeps (convert_inc_dec l).
Proof. unfold convert_inc_dec. keeps_run. Qed.
#[export] Hint Resolve script_convert_inc_dec : script_keeps.

(** *** Rewriting a line *)

(** Calls that only compute. *)
Definition computes {A} (m : X A) (P : A -> Prop) : Prop := forall s r s', m s = Ok r s' -> s' = s /\ exists a, r = Some a /\ P a.
Lemma computes_bind {A B} (m : X A) (k : A -> X B) (P : A -> Prop) (Q : B -> Prop) :
  computes m P -> (forall a, P a -> computes (k a) Q) -> computes (xbind m k) Q.
Proof.
  intros Hm Hk s r s'. unfold xbind, bind. destruct (m s) as [r1 s1|] eqn:E; [|done].
  destruct (Hm s r1 s1 E) as (->&a&->&Ha). by apply Hk.
Qed.
Lemma computes_ret {A} (a : A) (P : A -> Prop) : P a -> computes (xret a) P.
Proof. intros H s r s' [= <- <-]. eauto. Qed.
Lemma computes_undef {A} (P : A -> Prop) : computes undef P.
Proof. by intros s r s'. Qed.
Lemma computes_str l : computes (str l) (fun x => x = cstr l).
Proof. unfold str. destruct (existsb _ l); [by apply computes_ret|apply computes_undef]. Qed.
Lemma computes_xget {A} `{Inhabited A} (l : list A) i :
  computes (xget l i) (fun a => 0 <= i /\ l !! Z.to_nat i = Some a).
Proof.
  intros s r s'. unfold xget, up, bind, aget. destruct (inb l i) eqn:Hi; [|done]. intros [= <- <-]. split; [done|].
  eexists. split; [done|]. unfold inb in Hi. split; [lia|]. apply list_lookup_lookup_total_lt. lia.
Qed.
Lemma cstr_take l : exists k, l = cstr l ++ k.
Proof.
  induction l as [|c l [k IH]]; [by exists []|]. simpl. destruct (c =? 0); [by exists (c :: l)|].
  exists k. simpl. by rewrite <- IH.
Qed.
(** A string that [strcat_n] appends to keeps what it starts with. *)
Lemma computes_strcat (p dest src : list Z) n :
  Forall (fun c => c <> 0) p -> p `prefix_of` dest ->
  computes (strcat_n dest src n) (fun d => p `prefix_of` d /\ (bytes dest -> bytes src -> bytes d) /\ (0 ∈ dest -> 0 ∈ d)).
Proof.
  intros Hp [k ->]. unfold cat_n. destruct (Z.leb_spec n 0); [apply computes_ret; split_and!; [by exists k|done|done]|].
  eapply computes_bind; [apply computes_str|]. intros d ->. rewrite cstr_app by done. cbv zeta.
  destruct (MAX_LINE_LENGTH <=? _); [apply computes_ret; split_and!; [by exists k|done|done]|].
  destruct (_ && _) eqn:Hin; [|apply computes_undef]. apply andb_prop in Hin as [Hn Hlen]. apply computes_ret.
  assert (Hfit : Z.of_nat (length (p ++ cstr k)) + Z.of_nat (length (take (Z.to_nat n) src ++ [0])) <= Z.of_nat (length (p ++ k)))
    by (rewrite (length_app (take _ _)), length_take; cbn [length]; lia).
  split_and!.
  - rewrite splice_app_eq by lia.
    rewrite Nat2Z.id, length_app, take_app, (take_ge p) by lia. rewrite <- app_assoc. by eexists.
  - intros Hd Hs. apply bytes_splice; [|done]. apply Forall_app. split; [by apply Forall_take|]. by repeat constructor.
  - intros _. rewrite splice_app_eq by lia. set_solver.
Qed.

(** i++ in place: [p], what stood before the operator, is followed by =. *)
Lemma computes_inc_dec part c one :
  c <> 0 -> bytes (chars one) ->
  computes (inc_dec part (cstr part) c one) (fun r => forall l', r = Some l' -> exists p,
    p `prefix_of` cstr part /\ part !! S (length p) = Some c /\ (p = cstr part \/ exists k, cstr part = p ++ c :: k) /\
    (p ++ [61]) `prefix_of` l' /\ (good_line part -> good_line l')).
Proof.
  intros Hc Hone. set (q := default [] (strchr (cstr part) c)).
  assert (Hq : exists p, cstr part = p ++ q /\ (q = [] \/ exists k, q = c :: k)).
  { unfold q. generalize (cstr part) as x. induction x as [|y x (p&Hx&Hk)]; [by exists []; split; [|left]|]. cbn [strchr].
    destruct (Z.eqb_spec y c) as [->|Hy]; [exists []; split; [done|right; by exists x]|].
    exists (y :: p). split; [|done]. simpl. by f_equal. }
  destruct Hq as (p&Hp&Hk). unfold inc_dec. fold q. cbv zeta.
  replace (length (cstr part) - length q)%nat with (length p) by (rewrite Hp, length_app; lia).
  eapply computes_bind; [apply computes_xget|]. intros next [_ Hnext]. destruct (Z.eqb_spec next c) as [->|]; cbn [negb];
    [|by apply computes_ret]. replace (Z.to_nat (Z.of_nat (length p) + 1)) with (S (length p)) in Hnext by lia.
  destruct (cstr_take part) as [z Hz]. rewrite Hp, <- app_assoc in Hz.
  assert (Hnz : Forall (fun c => c <> 0) (p ++ [61])).
  { apply Forall_app. split; [|by repeat constructor]. pose proof (cstr_nonzero part) as H. rewrite Hp in H. by apply Forall_app in H as [H _]. }
  eapply computes_bind; [apply (computes_strcat []); [constructor|apply prefix_nil]|]. intros var (_&Hvb&_).
  eapply computes_bind; [apply computes_str|]. intros v ->.
  assert (Hs : p ++ [61] `prefix_of` splice (Z.of_nat (length p)) [61; 0] part).
  { pose proof (lookup_lt_Some _ _ _ Hnext). rewrite splice_app_eq by (cbn [length]; lia).
    rewrite Nat2Z.id, Hz, take_app_length. exists (0 :: drop (length p + 2) (p ++ q ++ z)). by rewrite <- app_assoc. }
  eapply computes_bind; [apply (computes_strcat (p ++ [61])); done|]. intros part1 (Hp1&Hb1&Hz1).
  eapply computes_bind; [apply (computes_strcat (p ++ [61])); done|]. intros part2 (Hp2&Hb2&Hz2).
  apply computes_ret. intros l' [= <-]. exists p. split_and!; [by exists q|done| |done|].
  - destruct Hk as [->|[k ->]]; [left; by rewrite app_nil_r in Hp|right; by exists k].
  - intros [Hb _]. split.
    + apply Hb2; [|done]. apply Hb1; [apply bytes_splice; [by repeat constructor|done]|].
      apply Hvb; [apply Forall_replicate; done|done].
    + apply Hz2, Hz1. rewrite splice_app_eq by (cbn [length]; pose proof (lookup_lt_Some _ _ _ Hnext); lia). set_solver.
Qed.

Lemma not_in_else c : bool_decide (c ∈ chars "else") = false -> c ∉ chars "else".
Proof. by intros H%bool_decide_eq_false. Qed.
(** The rewritten line is still not a head, not else, and starts alike. *)
Lemma rewritten_like l l' p c :
  (c = PLUS \/ c = MINUS) -> is_head l = false -> p `prefix_of` cstr l -> l !! S (length p) = Some c ->
  (p = cstr l \/ exists k, cstr l = p ++ c :: k) -> (p ++ [61]) `prefix_of` l' -> (good_line l -> good_line l') -> line_like l l'.
Proof.
  intros Hc Hh [q Hq] Hnext Hop [z Hz] Hb. right. destruct (cstr_take l) as [y Hy]. rewrite Hq, <- app_assoc in Hy.
  assert (Hnz : Forall (fun c => c <> 0) (p ++ [61])).
  { apply Forall_app. split; [|by repeat constructor]. pose proof (cstr_nonzero l) as H. rewrite Hq in H. by apply Forall_app in H as [H _]. }
  assert (Hce : c ∉ chars "else") by (apply not_in_else; by destruct Hc as [->| ->]).
  assert (Hfirst : p = [] -> chr l = c \/ chr l = 0).
  { intros ->. destruct Hop as [Hn|[k Hk]]; [right|left]; rewrite chr_cstr; [by rewrite <- Hn|by rewrite Hk]. }
  split_and!; [done| | | | | |done].
  - unfold is_head in *. apply orb_false_iff in Hh as [Hi Hf]. apply orb_false_iff. subst l'. rewrite Hy in Hi, Hf. clear Hy. unfold begins in *.
    change (chars "if") with [105; 102] in *. change (chars "for") with [102; 111; 114] in *.
    destruct p as [|a [|b [|d p]]]; cbn [app length strcmp_n chr hd tail] in *; split; try exact Hi; try exact Hf; repeat case_match; done.
  - unfold solid_else, is_else. case_bool_decide as He; [|done]. cbn [andb].
    assert (Hp : p = chars "else").
    { destruct Hop as [->|[k Hk]]; [done|]. exfalso. apply Hce. rewrite <- He, Hk. set_solver. }
    subst p. change (S (length (chars "else"))) with 5%nat in Hnext. rewrite (list_lookup_total_correct _ _ _ Hnext).
    by destruct Hc as [->| ->].
  - unfold is_else. apply bool_decide_eq_false. subst l'. rewrite cstr_app by done. intros He.
    assert (H61 : 61 ∉ chars "else") by (by apply not_in_else). apply H61. rewrite <- He. set_solver.
  - unfold opens. subst l'. destruct p as [|a p]; [|by rewrite Hy]. cbn [app chr hd].
    destruct (Hfirst eq_refl) as [->| ->]; [|done]. by destruct Hc as [->| ->].
  - unfold closes. subst l'. destruct p as [|a p]; [|by rewrite Hy]. cbn [app chr hd].
    destruct (Hfirst eq_refl) as [->| ->]; [|done]. by destruct Hc as [->| ->].
Qed.
Lemma computes_convert l : is_head l = false -> computes (convert_inc_dec l) (line_like l).
Proof.
  intros Hh. unfold convert_inc_dec. eapply computes_bind; [apply computes_str|]. intros ? ->.
  assert (Hb1 : bytes (chars "+1")) by (repeat constructor; done). assert (Hb2 : bytes (chars "-1")) by (repeat constructor; done).
  eapply computes_bind; [by apply computes_inc_dec|]. intros [l'|] Hr.
  - apply computes_ret. destruct (Hr l' eq_refl) as (p&H1&H2&H3&H4&H5). eapply (rewritten_like l l' p PLUS); auto.
  - eapply computes_bind; [by apply computes_inc_dec|]. intros [l'|] Hr'; apply computes_ret; [|by left].
    destruct (Hr' l' eq_refl) as (p&H1&H2&H3&H4&H5). eapply (rewritten_like l l' p MINUS); auto.
Qed.

Section run.
Variables (junk : list Z) (uninit : Var) (runnable : list (list Z) -> bool).
Abbreviation run_line := (run_line junk uninit runnable).
Abbreviation run_expression := (run_expression junk uninit runnable).

(** *** Variables and expressions *)
Lemma script_top : keeps top.
Proof. unfold top. keeps_run. Qed.
Lemma script_set_top f : keeps (set_top f).
Proof. unfold set_top. keeps_run. Qed.
#[local] Hint Resolve script_top script_set_top : script_keeps.
Lemma script_vars_of w : keeps (vars_of w).
Proof. destruct w; cbn [vars_of]; keeps_run. Qed.
Lemma script_put_vars w vs : keeps (put_vars w vs).
Proof. destruct w; cbn [put_vars]; keeps_run. Qed.
Lemma script_find_var n b : keeps (find_var n b).
Proof. unfold find_var, find_local, find_global. keeps_run. Qed.
Lemma script_copy_value ty v : keeps (copy_value junk uninit ty v).
Proof. unfold copy_value. keeps_run. Qed.
Lemma script_assigned v w : keeps (assigned v w).
Proof. unfold assigned. keeps_run. Qed.
#[local] Hint Resolve script_vars_of script_put_vars script_find_var script_copy_value script_assigned : script_keeps.
Lemma script_get_var l : keeps (get_var junk uninit l).
Proof. unfold get_var. keeps_run. Qed.
Lemma script_set_var l v : keeps (set_var l v).
Proof. unfold set_var. keeps_run. Qed.
Lemma script_int_op k a b : keeps (int_op k a b).
Proof. unfold int_op. keeps_run. Qed.
Lemma script_as_string v : keeps (as_string v).
Proof. unfold as_string. keeps_run. Qed.
Lemma script_num_of v : keeps (num_of v).
Proof. unfold num_of. keeps_run. Qed.
#[local] Hint Resolve script_get_var script_set_var script_int_op script_as_string script_num_of : script_keeps.
Lemma script_calculate l k : keeps (calculate junk uninit l k).
Proof. unfold calculate, char_result, int_result, string_result. keeps_run. Qed.
Lemma script_condition l : keeps (get_condition_result junk uninit l).
Proof. unfold get_condition_result, calculate_condition. keeps_run. Qed.
Lemma script_block_end i : keeps (block_end i).
Proof. unfold block_end. keeps_run. Qed.
Lemma script_condition_of l : keeps (condition_of l).
Proof. unfold condition_of. keeps_run. Qed.
#[local] Hint Resolve script_calculate script_condition script_block_end script_condition_of : script_keeps.
Lemma script_blocks i : keeps (get_if_block i) /\ keeps (get_if_else_block i) /\ keeps (get_for_block i).
Proof. unfold get_if_block, get_if_else_block, get_for_block, for_fields. split_and!; keeps_run. Qed.
Lemma script_strs (l : list (list Z)) : keeps (strs l).
Proof. induction l; cbn [strs]; keeps_run; auto. Qed.
#[local] Hint Resolve script_strs : script_keeps.
Lemma script_run_command l : keeps (run_command runnable l).
Proof. unfold run_command. keeps_run. Qed.
#[local] Hint Resolve script_run_command : script_keeps.

(** *** Declarations, calls and lines, for any routines that keep the text *)
Section rec.
Variables (rx : list Z -> X Var) (rl : Z -> X (Z * option Var)).
Hypotheses (Hrx : forall l, keeps (rx l)) (Hrl : forall i, keeps (rl i)).
#[local] Hint Resolve Hrx Hrl : script_keeps.

Lemma script_declare w b ty n l : keeps (declare junk rx w b ty n l).
Proof. unfold declare. keeps_run. Qed.
Lemma script_declare_all w b ty n ls : keeps (declare_all junk rx w b ty n ls).
Proof. revert n. induction ls as [|l ls IH]; intros n; cbn [declare_all]; [apply script_ret|]. apply script_bind; [apply script_declare|apply IH]. Qed.
#[local] Hint Resolve script_declare_all : script_keeps.
Lemma script_find_vars l w b : keeps (find_vars_in_line junk rx l w b).
Proof. unfold find_vars_in_line, declare_type. keeps_run. Qed.
#[local] Hint Resolve script_find_vars : script_keeps.
Lemma script_pass_argument i l : keeps (pass_argument junk uninit rx i l).
Proof. unfold pass_argument, argument, expect. keeps_run. Qed.
Lemma script_pass_arguments i ls : keeps (pass_arguments junk uninit rx i ls).
Proof. revert i. induction ls as [|l ls IH]; intros i; cbn [pass_arguments]; [apply script_ret|]. apply script_bind; [apply script_pass_argument|intros _; apply IH]. Qed.
#[local] Hint Resolve script_pass_arguments : script_keeps.
Lemma script_push_function l : keeps (push_function junk uninit rx l).
Proof. unfold push_function, scan_to, find_function. keeps_run. Qed.
Lemma script_run_lines i e : keeps (run_lines rl i e).
Proof. unfold run_lines. keeps_run. Qed.
#[local] Hint Resolve script_push_function script_run_lines : script_keeps.
Lemma script_run_function : keeps (run_function uninit rl).
Proof. unfold run_function, pop_frame. keeps_run. Qed.
Lemma script_assign_pieces ls : keeps (assign_pieces rx ls).
Proof. unfold assign_pieces. keeps_run. Qed.
#[local] Hint Resolve script_run_function script_assign_pieces : script_keeps.
Lemma script_assign l : keeps (assign rx l).
Proof. unfold assign. keeps_run. Qed.
#[local] Hint Resolve script_assign : script_keeps.
Lemma script_declare_locals l : keeps (declare_locals junk rx l).
Proof. unfold declare_locals. keeps_run. Qed.
Lemma script_unknown_line {A} l : keeps (@unknown_line A l).
Proof. unfold unknown_line. keeps_run. Qed.
Lemma script_expression_body l : keeps (expression_body junk uninit rx rl l).
Proof. unfold expression_body. keeps_run. Qed.
Lemma script_run_blocks (f : nat) bi be bf :
  keeps (run_if_block junk uninit rl bi) /\ keeps (run_if_else_block junk uninit rl be) /\ keeps (run_for_block junk uninit rx rl f bf).
Proof. unfold run_if_block, run_if_else_block, run_for_block. split_and!; keeps_run. Qed.
Lemma script_run_system l : keeps (run_system runnable rx l).
Proof. unfold run_system. keeps_run. Qed.


(** Replacing a line by one that is like it. *)
Lemma put_like s i l l' : line_like l l' -> text s !! Z.to_nat i = Some (Some l) ->
  forall r s', put_line i l' s = Ok r s' -> text_like (text s) (text s').
Proof.
  intros Hll Hi r s'. unfold put_line, the, up, xset, xbind, bind, gets, aset, change, modify. cbn.
  destruct (inb _ i); [|done]. intros [= <- <-]. cbn [text set_text]. intros k. destruct (decide (k = Z.to_nat i)) as [->|Hk].
  - right. exists l, l'. split_and!; [done| |done]. apply list_lookup_insert_eq. by eapply lookup_lt_Some.
  - left. by rewrite list_lookup_insert_ne.
Qed.
Lemma line_at_inv i s r s' : line_at i s = Ok r s' ->
  s' = s /\ exists l, r = Some l /\ text s !! Z.to_nat i = Some (Some l).
Proof.
  unfold line_at, the, up, xget, xbind, bind, gets, aget. cbn. unfold inb. destruct (_ && _) eqn:Hin; [|done]. cbn.
  destruct (text s !!! Z.to_nat i) as [l|] eqn:Hl; [|done]. intros [= <- <-]. split; [done|]. exists l. split; [done|].
  rewrite <- Hl. apply list_lookup_lookup_total_lt. lia.
Qed.
(** A statement: i++ and i-- are rewritten in the text. *)
Lemma script_statement {A} i (k : list Z -> X A) :
  (forall l, keeps (k l)) -> forall s l r s', is_head l = false -> text s !! Z.to_nat i = Some (Some l) ->
  (line <- convert_inc_dec l;; put_line i line;; k line) s = Ok r s' -> text_like (text s) (text s').
Proof.
  intros Hk s l r s' Hh Hl. unfold xbind at 1, bind at 1. destruct (convert_inc_dec l s) as [r1 s1|] eqn:E1; [|done].
  destruct (computes_convert l Hh s r1 s1 E1) as (->&l'&->&Hll). unfold xbind at 1, bind at 1.
  destruct (put_line i l' s) as [r2 s2|] eqn:E2; [|done]. pose proof (put_like s i l l' Hll Hl r2 s2 E2) as H2.
  destruct r2 as [[]|]; [|by intros [= <- <-]]. intros H. eapply text_like_trans; [done|by eapply Hk].
Qed.
Lemma script_line_body (f : nat) i : keeps (line_body junk uninit runnable rx rl f i).
Proof.
  pose proof (script_blocks i) as (Hb1&Hb2&Hb3).
  pose proof (fun bi be bf => script_run_blocks f bi be bf) as Hrun.
  unfold line_body. apply script_bind; [apply script_line_at|intros line].
  destruct (chr line =? 0); [apply script_ret|]. destruct (begins line "return"); [keeps_run|].
  destruct (begins line "system("); [apply script_bind; [by apply script_run_system|intros _; apply script_ret]|].
  apply script_bind; [apply script_declare_locals|intros number]. destruct (0 <? number); [apply script_ret|].
  clear line. unfold run_statement. intros s r s'. unfold xbind at 1, bind at 1. destruct (line_at i s) as [r1 s1|] eqn:Hl; [|done].
  destruct (line_at_inv i s r1 s1 Hl) as (->&line&->&Hat). clear Hl.
  destruct (begins line "if") eqn:Hif; [|destruct (begins line "for") eqn:Hfor].
  - revert s r s' Hat. assert (H : keeps (
      b <- get_if_else_block i;;
      match b with
      | Some b => run_if_else_block junk uninit rl b
      | None => b <- get_if_block i;; match b with Some b => run_if_block junk uninit rl b | None => unknown_line line end
      end)); [|intros s r s' _; apply H].
    apply script_bind; [done|]. intros [b|]; [apply (Hrun (mkIf 0 0 []) b (mkFor 0 0 [] [] []))|].
    apply script_bind; [done|]. intros [b|]; [apply (Hrun b (mkIfElse 0 0 0 0 []) (mkFor 0 0 [] [] []))|apply script_unknown_line].
  - assert (H : keeps (
      b <- get_for_block i;;
      match b with Some b => run_for_block junk uninit rx rl f b | None => unknown_line line end)); [|apply H].
    apply script_bind; [done|]. intros [b|]; [apply (Hrun (mkIf 0 0 []) (mkIfElse 0 0 0 0 []) b)|apply script_unknown_line].
  - assert (Hh : is_head line = false) by (unfold is_head; by rewrite Hif, Hfor). revert Hh Hat.
    apply (script_statement i (fun line =>
      let! (number, split_equal) := split MAX_VARS_NUMBER line 61 in
      if negb (number =? 2) then
        s <- str line;;
        if is_function s then push_function junk uninit rx line;; run_function uninit rl;; xret (1, None)
        else unknown_line line
      else assign_pieces rx split_equal;; free_split MAX_VARS_NUMBER split_equal;; xret (1, None))).
    intros l. pose proof (@script_unknown_line (Z * option Var) l). keeps_run; done.
Qed.
End rec.

(** Whatever a script does, the structure of its text stays. *)
Lemma script_keeps_text (f : nat) : (forall l, keeps (run_expression f l)) /\ (forall i, keeps (run_line f i)).
Proof.
  induction f as [|f [IHx IHl]]; [split; intros; apply script_fail|]. split; intros x; cbn [ScriptRun.run_expression ScriptRun.run_line].
  - by apply script_expression_body.
  - by apply script_line_body.
Qed.
End run.
