(* ===== verification/ScriptFlow.v ===== *)
(** The script interpreter: nested blocks.

    A script is a sequence of lines and blocks.  [laid] says that the text
    holds a script from a line on, with its braces; [exec] runs it by its
    structure, a plain line by run_line.  Running the lines one after another,
    as the interpreter does, is the same. *)
From S2P Require Import Prelude Params Str Ulib Exit Script ScriptRun ScriptThms.
Open Scope x_scope.

Implicit Types (l line : list Z) (t : list (option (list Z))) (s : sc) (L : nat).

Inductive prog :=
  | PEnd
  | PLine (p : prog)
  | PIf (b p : prog)
  | PIfElse (b1 b2 p : prog)
  | PFor (b p : prog).
Implicit Types (p b : prog).

(** The number of its lines. *)
Fixpoint size p : nat :=
  match p with
  | PEnd => 0
  | PLine p => 1 + size p
  | PIf b p | PFor b p => 3 + size b + size p
  | PIfElse b1 b2 p => 6 + size b1 + size b2 + size p
  end.

Definition has_line t L (P : list Z -> bool) : Prop := exists l, t !! L = Some (Some l) /\ P l = true.
Definition plain l : bool := negb (is_head l) && negb (opens l) && negb (closes l).
(** The positions of ( ; ; ) in the head of a for. *)
Definition for_ok l : bool :=
  begins l "for" &&
  let pos1 := index_of 0 l 40 in let pos2 := index_of (pos1 + 1) l 59 in
  let pos3 := index_of (pos2 + 1) l 59 in let pos4 := index_of (pos3 + 1) l 41 in
  (pos1 <? MAX_LINE_LENGTH) && (pos2 <? MAX_LINE_LENGTH) && (pos3 <? MAX_LINE_LENGTH) && (pos4 <? MAX_LINE_LENGTH).
Fixpoint laid t L p : Prop :=
  match p with
  | PEnd => True
  | PLine p => has_line t L plain /\ laid t (L + 1) p
  | PIf b p =>
      has_line t L (fun l => begins l "if") /\
      (has_line t (L + 1) opens /\ laid t (L + 2) b /\ has_line t (L + 2 + size b) closes) /\
      has_line t (L + 3 + size b) (fun l => negb (is_else l)) /\
      laid t (L + 3 + size b) p
  | PIfElse b1 b2 p =>
      has_line t L (fun l => begins l "if") /\
      (has_line t (L + 1) opens /\ laid t (L + 2) b1 /\ has_line t (L + 2 + size b1) closes) /\
      has_line t (L + 3 + size b1) solid_else /\
      (has_line t (L + 4 + size b1) opens /\ laid t (L + 5 + size b1) b2 /\ has_line t (L + 5 + size b1 + size b2) closes) /\
      has_line t (L + 6 + size b1 + size b2) (fun _ => true) /\
      laid t (L + 6 + size b1 + size b2) p
  | PFor b p =>
      has_line t L for_ok /\
      (has_line t (L + 1) opens /\ laid t (L + 2) b /\ has_line t (L + 2 + size b) closes) /\
      has_line t (L + 3 + size b) (fun _ => true) /\
      laid t (L + 3 + size b) p
  end.
Definition text_ok t : Prop := length t = 40%nat /\ forall k l, t !! k = Some (Some l) -> good_line l.

(** ** What running keeps *)
Lemma has_like t t' L (P : list Z -> bool) :
  (forall l l', line_like l l' -> P l = true -> P l' = true) -> text_like t t' -> has_line t L P -> has_line t' L P.
Proof.
  intros HP Ht (l&Hl&Hp). destruct (Ht L) as [E|(l1&l2&E1&E2&Hll)].
  - exists l. by rewrite E.
  - rewrite E1 in Hl. injection Hl as ->. exists l2. split; [done|]. by eapply HP.
Qed.
Lemma like_head (P : list Z -> bool) l l' : (P l = true -> is_head l = true) -> line_like l l' -> P l = true -> P l' = true.
Proof. intros HP [->|(Hh&_)] Hp; [done|]. specialize (HP Hp). congruence. Qed.
Lemma like_plain l l' : line_like l l' -> plain l = true -> plain l' = true.
Proof.
  intros [->|(H1&H2&_&_&H5&H6&_)]; [done|]. unfold plain. rewrite H2, H5, H6, H1. done.
Qed.
Lemma laid_like t t' p L : text_like t t' -> laid t L p -> laid t' L p.
Proof.
  intros Ht. revert L.
  assert (Hif : forall k, has_line t k (fun l => begins l "if") -> has_line t' k (fun l => begins l "if")).
  { intros k. apply has_like; [|done]. intros l l'. apply (like_head (fun l => begins l "if")). unfold is_head. by intros ->. }
  assert (Hfor : forall k, has_line t k for_ok -> has_line t' k for_ok).
  { intros k. apply has_like; [|done]. intros l l'. apply (like_head for_ok). unfold for_ok, is_head. intros [-> _]%andb_prop. apply orb_true_r. }
  assert (Hop : forall k, has_line t k opens -> has_line t' k opens).
  { intros k. apply has_like; [|done]. intros l l' [->|(_&_&_&_&H&_)]; [done|]. by rewrite H. }
  assert (Hcl : forall k, has_line t k closes -> has_line t' k closes).
  { intros k. apply has_like; [|done]. intros l l' [->|(_&_&_&_&_&H&_)]; [done|]. by rewrite H. }
  assert (Hel : forall k, has_line t k solid_else -> has_line t' k solid_else).
  { intros k. apply has_like; [|done]. intros l l' [->|(_&_&H&_)]; [done|]. by rewrite H. }
  assert (Hne : forall k, has_line t k (fun l => negb (is_else l)) -> has_line t' k (fun l => negb (is_else l))).
  { intros k. apply has_like; [|done]. intros l l' [->|(_&_&_&H&_)]; [done|]. by rewrite H. }
  assert (Hpl : forall k, has_line t k plain -> has_line t' k plain) by (intros k; apply has_like; [apply like_plain|done]).
  assert (Hany : forall k, has_line t k (fun _ => true) -> has_line t' k (fun _ => true)) by (intros k; by apply has_like).
  induction p as [|p IH|b IHb p IH|b1 IH1 b2 IH2 p IH|b IHb p IH]; intros L; cbn [laid]; [done|..]; intros Hl;
    repeat match goal with H : _ /\ _ |- _ => destruct H end; split_and!; eauto.
Qed.
Lemma text_like_length t t' : text_like t t' -> length t' = length t.
Proof.
  intros Ht. assert (H : forall k, t' !! k = None <-> t !! k = None).
  { intros k. destruct (Ht k) as [->|(l&l'&->&->&_)]; done. }
  apply Nat.le_antisymm; apply lookup_ge_None; apply H; by apply lookup_ge_None.
Qed.
Lemma text_ok_like t t' : text_like t t' -> text_ok t -> text_ok t'.
Proof.
  intros Ht [Hl Hg]. split; [by rewrite (text_like_length t t')|]. intros k l Hk. destruct (Ht k) as [E|(l1&l2&E1&E2&Hll)].
  - rewrite E in Hk. by eapply Hg.
  - rewrite E2 in Hk. injection Hk as <-. destruct Hll as [->|(_&_&_&_&_&_&H)]; [by eapply Hg|]. apply H. by eapply Hg.
Qed.

(** ** Finding the end of a block *)
Lemma line_at_ok s L l : text s !! L = Some (Some l) -> line_at (Z.of_nat L) s = Ok (Some l) s.
Proof.
  intros Hl. unfold line_at, the, up, xget, xbind, bind, gets, aget. cbn. unfold inb. pose proof (lookup_lt_Some _ _ _ Hl).
  rewrite (proj2 (Z.leb_le _ _)), (proj2 (Z.ltb_lt _ _)) by lia. cbn. rewrite Nat2Z.id, (list_lookup_total_correct _ _ _ Hl). done.
Qed.

Section scan.
Variable s : sc.
(** The body of the loop of [block_end]. *)
Definition scan : Z * Z -> X ((Z * Z) + Z) := fun '(i, count) =>
  l <- line_at i;;
  let c := chr l in
  let count := if c =? 123 then count + 1 else count in
  let count := if c =? 125 then count - 1 else count in
  if 0 <? count then
    if i + 1 <? MAX_LINE_NUMBER then xret (inl (i + 1, count)) else xret (inr (i + 1))
  else xret (inr i).
Lemma scan_line (n L : nat) count (P : list Z -> bool) d :
  has_line (text s) L P -> (forall l, P l = true -> d = (if opens l then 1 else 0) - (if closes l then 1 else 0)) ->
  0 < count + d -> (L + 1 < 40)%nat ->
  xwhile (S n) scan (Z.of_nat L, count) s = xwhile n scan (Z.of_nat (L + 1), count + d) s.
Proof.
  intros (l&Hl&HP) Hd Hc HL. specialize (Hd l HP). apply xwhile_go. unfold scan. rewrite (xbind_ok _ _ _ _ _ (line_at_ok s L l Hl)).
  cbv zeta. unfold opens, closes in Hd.
  assert (Hcnt : (if chr l =? 125 then (if chr l =? 123 then count + 1 else count) - 1 else if chr l =? 123 then count + 1 else count) = count + d)
    by (destruct (chr l =? 123), (chr l =? 125); lia).
  rewrite Hcnt, (proj2 (Z.ltb_lt 0 _)) by lia. unfold MAX_LINE_NUMBER. rewrite (proj2 (Z.ltb_lt _ 40)) by lia.
  unfold xret. do 4 f_equal. lia.
Qed.

Lemma head_no_brace (P : list Z -> bool) l : (P l = true -> is_head l = true) -> P l = true -> opens l = false /\ closes l = false.
Proof.
  intros HP Hp. apply HP in Hp. unfold opens, closes. unfold is_head, begins in Hp.
  change (chars "if") with [105; 102] in Hp. change (chars "for") with [102; 111; 114] in Hp. cbn [length strcmp_n] in Hp.
  split; apply Z.eqb_neq; intros H; by rewrite H in Hp.
Qed.
Lemma else_no_brace l : solid_else l = true -> opens l = false /\ closes l = false.
Proof.
  unfold solid_else, is_else, opens, closes. intros [[He%bool_decide_eq_true_1 _]%andb_prop _]%andb_prop.
  by rewrite chr_cstr, He.
Qed.
Lemma brace_open l : opens l = true -> closes l = false.
Proof. unfold opens, closes. by intros ->%Z.eqb_eq. Qed.
Lemma brace_close l : closes l = true -> opens l = false.
Proof. unfold opens, closes. by intros ->%Z.eqb_eq. Qed.

(** A line without a brace, an opening and a closing one. *)
Lemma scan_plain (n L : nat) count (P : list Z -> bool) :
  has_line (text s) L P -> (forall l, P l = true -> opens l = false /\ closes l = false) ->
  0 < count -> (L + 1 < 40)%nat -> xwhile (S n) scan (Z.of_nat L, count) s = xwhile n scan (Z.of_nat (L + 1), count) s.
Proof.
  intros HL HP Hc Hb. rewrite (scan_line n L count P 0 HL) by (done || lia || (intros l Hp; destruct (HP l Hp) as [-> ->]; done)).
  by rewrite Z.add_0_r.
Qed.
Lemma scan_open (n L : nat) count :
  has_line (text s) L opens -> 0 <= count -> (L + 1 < 40)%nat ->
  xwhile (S n) scan (Z.of_nat L, count) s = xwhile n scan (Z.of_nat (L + 1), count + 1) s.
Proof. intros HL Hc Hb. apply (scan_line n L count opens 1 HL); [|lia|done]. intros l Hl. by rewrite Hl, (brace_open l Hl). Qed.
Lemma scan_close (n L : nat) count :
  has_line (text s) L closes -> 1 < count -> (L + 1 < 40)%nat ->
  xwhile (S n) scan (Z.of_nat L, count) s = xwhile n scan (Z.of_nat (L + 1), count - 1) s.
Proof. intros HL Hc Hb. apply (scan_line n L count closes (-1) HL); [|lia|done]. intros l Hl. by rewrite Hl, (brace_close l Hl). Qed.

Lemma if_no_brace l : begins l "if" = true -> opens l = false /\ closes l = false.
Proof. apply (head_no_brace (fun l => begins l "if")). unfold is_head. by intros ->. Qed.
Lemma for_no_brace l : for_ok l = true -> opens l = false /\ closes l = false.
Proof. apply (head_no_brace for_ok). unfold for_ok, is_head. intros [-> _]%andb_prop. apply orb_true_r. Qed.
Lemma plain_no_brace l : plain l = true -> opens l = false /\ closes l = false.
Proof. unfold plain. destruct (is_head l), (opens l), (closes l); done. Qed.

(** A script inside a block is passed over. *)
Definition passes p : Prop := forall L L' n count,
  laid (text s) L p -> 0 < count -> L' = (L + size p)%nat -> (L' < 40)%nat ->
  xwhile (size p + n) scan (Z.of_nat L, count) s = xwhile n scan (Z.of_nat L', count) s.
Lemma scan_block b L L1 L2 L3 n count :
  passes b -> has_line (text s) L opens /\ laid (text s) L1 b /\ has_line (text s) L2 closes ->
  L1 = (L + 1)%nat -> L2 = (L1 + size b)%nat -> L3 = (L2 + 1)%nat -> 0 < count -> (L3 < 40)%nat ->
  xwhile (S (size b + S n)) scan (Z.of_nat L, count) s = xwhile n scan (Z.of_nat L3, count) s.
Proof.
  intros IH (Ho&Hb&Hc) -> E2 -> Hcnt HL. rewrite scan_open by (done || lia). rewrite (IH _ L2) by (done || lia).
  rewrite scan_close by (done || lia). by replace (count + 1 - 1) with count by lia.
Qed.
Lemma scan_prog p : passes p.
Proof.
  induction p as [|p IH|b IHb p IH|b1 IH1 b2 IH2 p IH|b IHb p IH]; intros L L' n count; cbn [laid size]; intros Hl Hc -> HL.
  - by rewrite Nat.add_0_r.
  - destruct Hl as [H1 H2]. cbn [Nat.add]. rewrite (scan_plain _ L count plain H1 plain_no_brace) by lia. apply IH; (done || lia).
  - destruct Hl as (H1&Hb&_&H2). replace (3 + size b + size p + n)%nat with (S (S (size b + S (size p + n)))) by lia.
    rewrite (scan_plain _ L count _ H1 if_no_brace) by lia.
    rewrite (scan_block b _ _ _ (L + 3 + size b) _ count IHb Hb) by lia. apply IH; (done || lia).
  - destruct Hl as (H1&Hb1&He&Hb2&_&H2).
    replace (6 + size b1 + size b2 + size p + n)%nat with (S (S (size b1 + S (S (S (size b2 + S (size p + n))))))) by lia.
    rewrite (scan_plain _ L count _ H1 if_no_brace) by lia.
    rewrite (scan_block b1 _ _ _ (L + 3 + size b1) _ count IH1 Hb1) by lia.
    rewrite (scan_plain _ _ count _ He else_no_brace) by lia. replace (L + 3 + size b1 + 1)%nat with (L + 4 + size b1)%nat by lia.
    rewrite (scan_block b2 _ _ _ (L + 6 + size b1 + size b2) _ count IH2 Hb2) by lia. apply IH; (done || lia).
  - destruct Hl as (H1&Hb&_&H2). replace (3 + size b + size p + n)%nat with (S (S (size b + S (size p + n)))) by lia.
    rewrite (scan_plain _ L count _ H1 for_no_brace) by lia.
    rewrite (scan_block b _ _ _ (L + 3 + size b) _ count IHb Hb) by lia. apply IH; (done || lia).
Qed.
(** The loop of a block ends at its closing brace. *)
Lemma block_end_ok b L L1 L2 :
  has_line (text s) L opens /\ laid (text s) L1 b /\ has_line (text s) L2 closes ->
  L1 = (L + 1)%nat -> L2 = (L1 + size b)%nat -> (L2 < 40)%nat ->
  block_end (Z.of_nat L) s = Ok (Some (Z.of_nat L2)) s.
Proof.
  intros (Ho&Hb&Hc) -> E2 HL.
  change (block_end (Z.of_nat L)) with (xwhile (S (Z.to_nat MAX_LINE_NUMBER)) scan (Z.of_nat L, 0)).
  replace (S (Z.to_nat MAX_LINE_NUMBER)) with (S (size b + S (39 - size b))) by (unfold MAX_LINE_NUMBER; lia).
  rewrite scan_open by (done || lia). change (0 + 1) with 1. rewrite (scan_prog b (L + 1)%nat L2) by (done || lia). apply xwhile_stop.
  destruct Hc as (l&Hl&Hcl). unfold scan. rewrite (xbind_ok _ _ _ _ _ (line_at_ok s L2 l Hl)). cbv zeta.
  unfold closes in Hcl. pose proof (brace_close l Hcl) as Hop. unfold opens in Hop. by rewrite Hop, Hcl.
Qed.
End scan.

(** ** Running by structure *)
Section flow.
Variables (junk : list Z) (uninit : Var) (runnable : list (list Z) -> bool).
Abbreviation run_line := (run_line junk uninit runnable).
Abbreviation run_expression := (run_expression junk uninit runnable).
Abbreviation condition := (get_condition_result junk uninit).

(** A line is first looked at as a declaration: of the variables of the
    function, of which there must be fewer than MAX_VARS_NUMBER, duplicates
    are dropped. *)
Definition tidy : X unit :=
  f <- top;;
  xwhile (S (length (vars f))) (fun i => v <- xget (vars f) i;; if v_type v =? VOID then xret (inr i) else xret (inl (i + 1))) 0;;
  f <- top;;
  set_top (with_vars (remove_duplicate_variables (vars f)) f).

Definition next (r : option Var) (m : X (option Var)) : X (option Var) :=
  match r with Some v => xret (Some v) | None => m end.
Definition exec_if L (yes no : X (option Var)) : X (option Var) :=
  tidy;;
  line <- line_at (Z.of_nat L);;
  c <- condition_of line;;
  v <- condition c;;
  if v =? 0 then no else yes.
Definition exec_for (f : nat) L (body : X (option Var)) : X (option Var) :=
  tidy;;
  line <- line_at (Z.of_nat L);;
  r <- for_fields line;;
  match r with
  | None => xret None
  | Some (init, cond, back) =>
      assign (run_expression f) init;;
      xwhile f (fun _ =>
        c <- condition cond;;
        if c =? 0 then xret (inr None) else
        r <- body;;
        match r with
        | Some v => xret (inr (Some v))
        | None => assign (run_expression f) back;; xret (inl tt)
        end) tt
  end.
(** The fuel is that of run_line: a block is run with one less. *)
Definition deeper (f : nat) (m : nat -> X (option Var)) : X (option Var) :=
  match f with O => fail OutOfFuel | S f => m f end.
Fixpoint exec (f : nat) L p : X (option Var) :=
  match p with
  | PEnd => xret None
  | PLine p => let! (_, r) := run_line f (Z.of_nat L) in next r (exec f (L + 1) p)
  | PIf b p =>
      r <- deeper f (fun f => exec_if L (exec f (L + 2) b) (xret None));;
      next r (exec f (L + 3 + size b) p)
  | PIfElse b1 b2 p =>
      r <- deeper f (fun f => exec_if L (exec f (L + 2) b1) (exec f (L + 5 + size b1) b2));;
      next r (exec f (L + 6 + size b1 + size b2) p)
  | PFor b p =>
      r <- deeper f (fun f => exec_for f L (exec f (L + 2) b));;
      next r (exec f (L + 3 + size b) p)
  end.

(** *** Equations of calls *)

Lemma run_line_S (f : nat) (i : Z) : run_line (S f) i = line_body junk uninit runnable (run_expression f) (run_line f) f i.
Proof. reflexivity. Qed.

Lemma script_tidy : keeps tidy.
Proof. unfold tidy. pose proof script_top. pose proof script_set_top. keeps_run; auto. Qed.
Lemma declare_none rx l s :
  begins l "int " = false -> begins l "char " = false -> begins l "string " = false ->
  declare_locals junk rx l s = (tidy;; xret 0) s.
Proof.
  intros H1 H2 H3. unfold declare_locals, tidy. rewrite xbind_assoc. apply xbind_ext. intros f s1 _.
  rewrite xbind_assoc. apply xbind_ext. intros n s2 _. unfold find_vars_in_line, declare_type. rewrite H1, H2, H3. symmetry. apply xbind_assoc.
Qed.
Lemma strcmp_n_cons (p q : list Z) c (n : nat) :
  strcmp_n p (c :: q) (S n) = 0 <-> s8 (chr p) = s8 c /\ strcmp_n (tail p) q n = 0.
Proof.
  cbn [strcmp_n chr hd tail]. fold (chr p). destruct (Z.ltb_spec (s8 (chr p)) (s8 c)); [lia|].
  destruct (Z.ltb_spec (s8 c) (s8 (chr p))); [lia|]. intuition lia.
Qed.
(** Two words that differ in their first or second character. *)
Lemma begins_differ l (w w' : string) :
  begins l w = true -> (exists c c' q q', chars w = c :: q /\ chars w' = c' :: q' /\
    (s8 c <> s8 c' \/ exists d d' r r', q = d :: r /\ q' = d' :: r' /\ s8 d <> s8 d')) -> begins l w' = false.
Proof.
  intros Hw (c&c'&q&q'&E&E'&Hd). unfold begins in *. rewrite E in Hw. rewrite E'. apply Z.eqb_eq in Hw. apply Z.eqb_neq.
  cbn [length] in *. rewrite strcmp_n_cons in *. intros [H1' H2']. destruct Hw as [H1 H2].
  destruct Hd as [Hd|(d&d'&r&r'&->&->&Hd)]; [congruence|]. cbn [length] in *. rewrite strcmp_n_cons in *.
  destruct H2 as [H2 _], H2' as [H2' _]. congruence.
Qed.
Lemma begins_nonempty l (w : string) c q : chars w = c :: q -> s8 c <> s8 0 -> begins l w = true -> chr l <> 0.
Proof.
  intros E Hc Hw Hl. unfold begins in Hw. rewrite E in Hw. apply Z.eqb_eq in Hw. cbn [length] in Hw.
  rewrite strcmp_n_cons, Hl in Hw. by destruct Hw.
Qed.
(** A line that starts a block is no other statement. *)
Definition only_head l : Prop :=
  chr l <> 0 /\ begins l "return" = false /\ begins l "system(" = false /\
  begins l "int " = false /\ begins l "char " = false /\ begins l "string " = false.
Ltac differ1 := do 4 eexists; split; [reflexivity|split; [reflexivity|left; by vm_compute]].
Ltac differ2 := do 4 eexists; split; [reflexivity|split; [reflexivity|right; do 4 eexists; split; [reflexivity|split; [reflexivity|by vm_compute]]]].
Lemma head_if l : begins l "if" = true -> only_head l.
Proof.
  intros H. split; [eapply (begins_nonempty l "if"); [reflexivity|by vm_compute|done]|].
  split_and!; (apply (begins_differ l "if"); [done|]); first [differ1|differ2].
Qed.
Lemma head_for l : begins l "for" = true -> only_head l /\ begins l "if" = false.
Proof.
  intros H. split; [split; [eapply (begins_nonempty l "for"); [reflexivity|by vm_compute|done]|split_and!]|];
    (apply (begins_differ l "for"); [done|]); first [differ1|differ2].
Qed.

(** *** Running the head of a block *)
Lemma run_line_head (f : nat) L s l :
  text s !! L = Some (Some l) -> only_head l ->
  run_line (S f) (Z.of_nat L) s =
    (tidy;; run_statement junk uninit (run_expression f) (run_line f) f (Z.of_nat L)) s.
Proof.
  intros Hl (Hc&Hr&Hsy&Hi&Hch&Hst). rewrite run_line_S. unfold line_body. rewrite (xbind_ok _ _ _ _ _ (line_at_ok s L l Hl)).
  rewrite (proj2 (Z.eqb_neq _ _) Hc), Hr, Hsy.
  transitivity ((number <- (tidy;; xret 0);; if 0 <? number then xret (1, None)
    else run_statement junk uninit (run_expression f) (run_line f) f (Z.of_nat L)) s).
  - apply xbind_eq; [|done]. by apply declare_none.
  - rewrite xbind_assoc. by apply xbind_ext.
Qed.

Lemma str_good l s : good_line l -> str l s = Ok (Some (cstr l)) s.
Proof.
  intros [_ Hz]. unfold str. assert (existsb (Z.eqb 0) l = true) as ->; [|done].
  apply existsb_exists. exists 0. split; [by apply list_elem_of_In|done].
Qed.
Lemma bytes_cstr l : bytes l -> bytes (cstr l).
Proof. intros Hb. destruct (cstr_take l) as [k Hk]. rewrite Hk in Hb. by apply Forall_app in Hb as [Hb _]. Qed.
Lemma else_test l : good_line l -> (ustrcmp (cstr l) (chars "else") =? 0) = is_else l.
Proof.
  intros [Hb _]. unfold is_else. assert (He : ustrcmp (cstr l) (chars "else") = 0 <-> cstr l = chars "else").
  { apply ustrcmp_eq; [by apply bytes_cstr|by repeat constructor|apply cstr_nonzero|by repeat constructor]. }
  case_bool_decide as Hd; [by rewrite (proj2 He Hd)|]. apply Z.eqb_neq. by rewrite He.
Qed.

(** The blocks found at the head of an if, with and without else. *)
Lemma find_if L b s :
  text_ok (text s) -> has_line (text s) (L + 1) opens /\ laid (text s) (L + 2) b /\ has_line (text s) (L + 2 + size b) closes ->
  has_line (text s) (L + 3 + size b) (fun l => negb (is_else l)) ->
  get_if_else_block (Z.of_nat L) s = Ok (Some None) s /\
  forall l, text s !! L = Some (Some l) ->
    get_if_block (Z.of_nat L) s =
      (c <- condition_of l;; xret (Some (mkIf (Z.of_nat L + 2) (Z.of_nat (L + 2 + size b) - 1) c))) s.
Proof.
  intros [Hlen Hgood] Hb (e&He&Hne). pose proof (lookup_lt_Some _ _ _ He) as Hlt. rewrite Hlen in Hlt.
  assert (Hend : block_end (Z.of_nat L + 1) s = Ok (Some (Z.of_nat (L + 2 + size b))) s).
  { replace (Z.of_nat L + 1) with (Z.of_nat (L + 1)) by lia. eapply block_end_ok; [exact Hb|lia..]. }
  split.
  - unfold get_if_else_block. rewrite (xbind_ok _ _ _ _ _ Hend). destruct (_ <=? _); [done|].
    replace (Z.of_nat (L + 2 + size b) + 1) with (Z.of_nat (L + 3 + size b)) by lia. rewrite (xbind_ok _ _ _ _ _ (line_at_ok s _ e He)).
    pose proof (Hgood _ _ He) as Hg. rewrite (xbind_ok _ _ _ _ _ (str_good e s Hg)), (else_test e Hg). apply negb_true_iff in Hne. by rewrite Hne.
  - intros l Hl. unfold get_if_block. rewrite (xbind_ok _ _ _ _ _ Hend). unfold MAX_LINE_NUMBER. rewrite (proj2 (Z.eqb_neq _ 40)) by lia.
    by rewrite (xbind_ok _ _ _ _ _ (line_at_ok s L l Hl)).
Qed.
Lemma find_if_else L b1 b2 s l :
  text_ok (text s) -> text s !! L = Some (Some l) ->
  has_line (text s) (L + 1) opens /\ laid (text s) (L + 2) b1 /\ has_line (text s) (L + 2 + size b1) closes ->
  has_line (text s) (L + 3 + size b1) solid_else ->
  has_line (text s) (L + 4 + size b1) opens /\ laid (text s) (L + 5 + size b1) b2 /\ has_line (text s) (L + 5 + size b1 + size b2) closes ->
  has_line (text s) (L + 6 + size b1 + size b2) (fun _ => true) ->
  get_if_else_block (Z.of_nat L) s =
    (c <- condition_of l;;
     xret (Some (mkIfElse (Z.of_nat L + 2) (Z.of_nat (L + 2 + size b1) - 1) (Z.of_nat (L + 2 + size b1) - 1 + 4)
                   (Z.of_nat (L + 5 + size b1 + size b2) - 1) c))) s.
Proof.
  intros [Hlen Hgood] Hl Hb1 (e&He&Hse) Hb2 (z&Hz&_). pose proof (lookup_lt_Some _ _ _ Hz) as Hlt. rewrite Hlen in Hlt.
  assert (Hend : block_end (Z.of_nat L + 1) s = Ok (Some (Z.of_nat (L + 2 + size b1))) s).
  { replace (Z.of_nat L + 1) with (Z.of_nat (L + 1)) by lia. eapply block_end_ok; [exact Hb1|lia..]. }
  assert (Hend2 : block_end (Z.of_nat (L + 2 + size b1) + 2) s = Ok (Some (Z.of_nat (L + 5 + size b1 + size b2))) s).
  { replace (Z.of_nat (L + 2 + size b1) + 2) with (Z.of_nat (L + 4 + size b1)) by lia. eapply block_end_ok; [exact Hb2|lia..]. }
  unfold get_if_else_block. rewrite (xbind_ok _ _ _ _ _ Hend). unfold MAX_LINE_NUMBER. rewrite (proj2 (Z.leb_gt (40 - 3) _)) by lia.
  replace (Z.of_nat (L + 2 + size b1) + 1) with (Z.of_nat (L + 3 + size b1)) by lia. rewrite (xbind_ok _ _ _ _ _ (line_at_ok s _ e He)).
  pose proof (Hgood _ _ He) as Hg. rewrite (xbind_ok _ _ _ _ _ (str_good e s Hg)), (else_test e Hg).
  unfold solid_else in Hse. apply andb_prop in Hse as [[Hse _]%andb_prop _]. rewrite Hse. cbn [negb].
  rewrite (xbind_ok _ _ _ _ _ Hend2), (proj2 (Z.leb_gt 40 _)) by lia. by rewrite (xbind_ok _ _ _ _ _ (line_at_ok s L l Hl)).
Qed.

(** *** The blocks *)

(** The lines of a script, run one after another, do what it says. *)
Definition runs (f : nat) p : Prop := forall L s, text_ok (text s) -> laid (text s) L p ->
  run_lines (run_line f) (Z.of_nat L) (Z.of_nat (L + size p) - 1) s = exec f L p s.

Lemma keep_state {A} (m : X A) s a s' p L :
  keeps m -> m s = Ok (Some a) s' -> text_ok (text s) -> laid (text s) L p -> text_ok (text s') /\ laid (text s') L p.
Proof.
  intros Hk Hm Hok Hl. pose proof (Hk s _ s' Hm) as Ht. split; [by eapply text_ok_like|by eapply laid_like].
Qed.

Lemma run_if_line (f : nat) L b s :
  text_ok (text s) -> laid (text s) L (PIf b PEnd) -> runs f b ->
  run_line (S f) (Z.of_nat L) s =
    (r <- exec_if L (exec f (L + 2) b) (xret None);; xret (Z.of_nat (3 + size b), r)) s.
Proof.
  intros Hok Hlaid Hb. pose proof Hlaid as ((l&Hl&Hif)&_). rewrite (run_line_head f L s l Hl (head_if l Hif)).
  unfold exec_if. rewrite xbind_assoc. apply xbind_ext. intros [] s1 H1.
  destruct (keep_state _ _ _ _ _ _ script_tidy H1 Hok Hlaid) as [Hok1 Hlaid1]. clear s Hok Hlaid H1 l Hl Hif.
  pose proof Hlaid1 as ((l&Hl&Hif)&Hbl&Hnext&_).
  destruct (find_if L b s1 Hok1 Hbl Hnext) as [Hnone Hsome]. unfold run_statement.
  rewrite (xbind_ok _ _ _ _ _ (line_at_ok s1 L l Hl)), Hif, (xbind_ok _ _ _ _ _ Hnone).
  rewrite xbind_assoc, (xbind_ok _ _ _ _ _ (line_at_ok s1 L l Hl)).
  etransitivity; [eapply xbind_eq; [exact (Hsome l Hl)|intros ? ?; reflexivity]|].
  rewrite !xbind_assoc. apply xbind_ext. intros c s2 H2.
  destruct (keep_state _ _ _ _ _ _ (script_condition_of l) H2 Hok1 Hlaid1) as [Hok2 Hlaid2]. clear Hok1 Hlaid1 Hbl Hnext Hnone Hsome.
  unfold run_if_block. cbn [if_cond if_from if_to]. change (xbind (xret (Some ?x)) ?k s2) with (k (Some x) s2). cbv beta iota.
  rewrite xbind_assoc. apply xbind_ext. intros v s3 H3.
  destruct (keep_state _ _ _ _ _ _ (script_condition junk uninit c) H3 Hok2 Hlaid2) as [Hok3 Hlaid3].
  cbn [if_from if_to]. apply xbind_eq; [|intros r s4; unfold xret, ret; do 3 f_equal; lia]. destruct (v =? 0); [done|].
  replace (Z.of_nat L + 2) with (Z.of_nat (L + 2)) by lia. apply Hb; [done|]. apply Hlaid3.
Qed.

Lemma run_if_else_line (f : nat) L b1 b2 s :
  text_ok (text s) -> laid (text s) L (PIfElse b1 b2 PEnd) -> runs f b1 -> runs f b2 ->
  run_line (S f) (Z.of_nat L) s =
    (r <- exec_if L (exec f (L + 2) b1) (exec f (L + 5 + size b1) b2);; xret (Z.of_nat (6 + size b1 + size b2), r)) s.
Proof.
  intros Hok Hlaid Hr1 Hr2. pose proof Hlaid as ((l&Hl&Hif)&_). rewrite (run_line_head f L s l Hl (head_if l Hif)).
  unfold exec_if. rewrite xbind_assoc. apply xbind_ext. intros [] s1 H1.
  destruct (keep_state _ _ _ _ _ _ script_tidy H1 Hok Hlaid) as [Hok1 Hlaid1]. clear s Hok Hlaid H1 l Hl Hif.
  pose proof Hlaid1 as ((l&Hl&Hif)&Hb1&He&Hb2&Hz&_).
  pose proof (find_if_else L b1 b2 s1 l Hok1 Hl Hb1 He Hb2 Hz) as Hsome. unfold run_statement.
  rewrite (xbind_ok _ _ _ _ _ (line_at_ok s1 L l Hl)), Hif. rewrite xbind_assoc, (xbind_ok _ _ _ _ _ (line_at_ok s1 L l Hl)).
  etransitivity; [eapply xbind_eq; [exact Hsome|intros ? ?; reflexivity]|].
  rewrite !xbind_assoc. apply xbind_ext. intros c s2 H2.
  destruct (keep_state _ _ _ _ _ _ (script_condition_of l) H2 Hok1 Hlaid1) as [Hok2 Hlaid2].
  unfold run_if_else_block. change (xbind (xret (Some ?x)) ?k s2) with (k (Some x) s2). cbv beta iota.
  cbn [ie_cond if_start if_end else_start else_end].
  rewrite xbind_assoc. apply xbind_ext. intros v s3 H3.
  destruct (keep_state _ _ _ _ _ _ (script_condition junk uninit c) H3 Hok2 Hlaid2) as [Hok3 (_&(_&Hl1&_)&_&(_&Hl2&_)&_)].
  apply xbind_eq; [|intros r s4; unfold xret, ret; do 3 f_equal; lia].
  destruct (v =? 0).
  - replace (Z.of_nat (L + 2 + size b1) - 1 + 4) with (Z.of_nat (L + 5 + size b1)) by lia. by apply Hr2.
  - replace (Z.of_nat L + 2) with (Z.of_nat (L + 2)) by lia. by apply Hr1.
Qed.

Lemma script_for_fields l : keeps (for_fields l).
Proof. unfold for_fields. keeps_run. Qed.
Lemma for_fields_some l s r s' :
  (let pos1 := index_of 0 l 40 in let pos2 := index_of (pos1 + 1) l 59 in
   let pos3 := index_of (pos2 + 1) l 59 in let pos4 := index_of (pos3 + 1) l 41 in
   (pos1 <? MAX_LINE_LENGTH) && (pos2 <? MAX_LINE_LENGTH) && (pos3 <? MAX_LINE_LENGTH) && (pos4 <? MAX_LINE_LENGTH)) = true ->
  for_fields l s = Ok (Some r) s' -> exists x, r = Some x.
Proof.
  cbv zeta. intros [[[H1 H2]%andb_prop H3]%andb_prop H4]%andb_prop. unfold for_fields.
  set (p1 := index_of 0 l 40) in *. set (p2 := index_of (p1 + 1) l 59) in *. set (p3 := index_of (p2 + 1) l 59) in *.
  set (p4 := index_of (p3 + 1) l 41) in *. rewrite !(proj2 (Z.leb_gt MAX_LINE_LENGTH _)) by lia. cbn [orb]. unfold xbind, bind.
  repeat match goal with |- match ?m with _ => _ end = _ -> _ => destruct m as [[?|] ?|]; [|done|done] end.
  intros [= <- _]. eauto.
Qed.
(** Two loops whose bodies agree where an invariant holds. *)
Lemma xwhile_ext {A R} (I : sc -> Prop) (body body' : A -> X (A + R)) (n : nat) a s :
  I s -> (forall a s, I s -> body a s = body' a s /\ forall r s', body a s = Ok r s' -> I s') ->
  xwhile n body a s = xwhile n body' a s.
Proof.
  intros HI Hb. revert a s HI. induction n as [|n IH]; intros a s HI; [done|]. cbn [xwhile]. unfold xbind, bind.
  destruct (Hb a s HI) as [<- Hk]. destruct (body a s) as [[[a'|v]|] s'|] eqn:E; [|done..]. apply IH. by eapply Hk.
Qed.
Lemma run_for_line (f : nat) L b s :
  text_ok (text s) -> laid (text s) L (PFor b PEnd) -> runs f b ->
  run_line (S f) (Z.of_nat L) s =
    (r <- exec_for f L (exec f (L + 2) b);; xret (Z.of_nat (3 + size b), r)) s.
Proof.
  intros Hok Hlaid Hr. pose proof Hlaid as ((l&Hl&Hfor)&_). pose proof Hfor as [Hbf _]%andb_prop.
  rewrite (run_line_head f L s l Hl (proj1 (head_for l Hbf))).
  unfold exec_for. rewrite xbind_assoc. apply xbind_ext. intros [] s1 H1.
  destruct (keep_state _ _ _ _ _ _ script_tidy H1 Hok Hlaid) as [Hok1 Hlaid1]. clear s Hok Hlaid H1 l Hl Hfor Hbf.
  pose proof Hlaid1 as ((l&Hl&Hfor)&Hb&(z&Hz&_)&_). pose proof Hfor as [Hbf Hpos]%andb_prop.
  pose proof (lookup_lt_Some _ _ _ Hz) as Hlt. destruct Hok1 as [Hlen Hgood]. rewrite Hlen in Hlt.
  assert (Hget : get_for_block (Z.of_nat L) s1 = (
    r <- for_fields l;;
    match r with
    | None => xret None
    | Some (init, cond, back) => xret (Some (mkFor (Z.of_nat L + 2) (Z.of_nat (L + 2 + size b) - 1) init cond back))
    end) s1).
  { unfold get_for_block. rewrite (xbind_ok _ _ _ _ _ (line_at_ok s1 L l Hl)). apply xbind_ext. intros [[[init cond] back]|] s2 H2; [|done].
    destruct (keep_state _ _ _ _ _ _ (script_for_fields l) H2 (conj Hlen Hgood) Hlaid1) as [_ (_&Hb2&_)].
    replace (Z.of_nat L + 1) with (Z.of_nat (L + 1)) by lia.
    rewrite (xbind_ok _ _ _ _ _ (block_end_ok s2 b _ _ _ Hb2 ltac:(lia) ltac:(lia) ltac:(lia))).
    unfold MAX_LINE_NUMBER. by rewrite (proj2 (Z.eqb_neq _ 40)) by lia. }
  unfold run_statement. rewrite (xbind_ok _ _ _ _ _ (line_at_ok s1 L l Hl)), (proj2 (head_for l Hbf)), Hbf.
  etransitivity; [eapply xbind_eq; [exact Hget|intros ? ?; reflexivity]|]. rewrite xbind_assoc.
  rewrite (xbind_assoc (line_at _)), (xbind_ok _ _ _ _ _ (line_at_ok s1 L l Hl)), xbind_assoc. apply xbind_ext.
  intros r s2 H2. pose proof (for_fields_some l s1 r s2 Hpos H2) as ([[init cond] back]&->).
  destruct (keep_state _ _ _ _ _ _ (script_for_fields l) H2 (conj Hlen Hgood) Hlaid1) as [Hok2 Hlaid2].
  change (xbind (xret (Some ?x)) ?k s2) with (k (Some x) s2). cbv beta iota. unfold run_for_block.
  cbn [for_init for_cond for_back for_start for_end]. rewrite xbind_assoc. apply xbind_ext. intros [] s3 H3.
  destruct (keep_state _ _ _ _ _ _ (script_assign _ (proj1 (script_keeps_text junk uninit runnable f)) init) H3 Hok2 Hlaid2) as [Hok3 Hlaid3].
  apply xbind_eq; [|intros r s4; unfold xret, ret; do 3 f_equal; lia].
  apply (xwhile_ext (fun s => text_ok (text s) /\ laid (text s) L (PFor b PEnd))); [done|].
  clear s3 Hok3 Hlaid3 H3. intros [] s3 [Hok3 Hlaid3].
  destruct (script_keeps_text junk uninit runnable f) as [Hkx Hkl]. split.
  - apply xbind_ext. intros c s4 H4. destruct (keep_state _ _ _ _ _ _ (script_condition junk uninit cond) H4 Hok3 Hlaid3) as [Hok4 (_&(_&Hl4&_)&_)].
    destruct (c =? 0); [done|]. apply xbind_eq; [|done].
    replace (Z.of_nat L + 2) with (Z.of_nat (L + 2)) by lia. by apply Hr.
  - intros r s4 H4. set (body := xbind _ _) in H4. assert (Hk : keeps body).
    { unfold body. pose proof (script_condition junk uninit cond). pose proof (script_run_lines _ Hkl).
      pose proof (script_assign _ Hkx back). keeps_run; auto. }
    pose proof (Hk s3 r s4 H4) as Ht. split; [by eapply text_ok_like|by eapply laid_like].
Qed.

(** A plain line counts as one. *)
Definition counts_one (m : X (Z * option Var)) : Prop := forall s r s', m s = Ok (Some r) s' -> r.1 = 1.
Lemma one_bind {A} (m : X A) k : (forall a, counts_one (k a)) -> counts_one (xbind m k).
Proof. intros Hk s r s'. unfold xbind, bind. destruct (m s) as [[a|] s1|]; [apply Hk|done|done]. Qed.
Lemma one_ret r : counts_one (xret (1, r)).
Proof. by intros s x s' [= <- _]. Qed.
Lemma one_unknown l : counts_one (unknown_line l).
Proof. unfold unknown_line. do 2 (apply one_bind; intros). by intros s r s'. Qed.
Lemma run_plain_line (f : nat) L s r s' :
  has_line (text s) L plain -> run_line f (Z.of_nat L) s = Ok (Some r) s' -> r.1 = 1.
Proof.
  destruct f as [|f]; [done|]. intros Hpl. rewrite run_line_S.
  destruct (script_keeps_text junk uninit runnable f) as [Hkx _]. revert Hkx. generalize (run_expression f) as rx, (run_line f) as rl.
  intros rx rl Hkx. unfold line_body. pose proof Hpl as (l&Hl&_).
  rewrite (xbind_ok _ _ _ _ _ (line_at_ok s L l Hl)). destruct (chr l =? 0); [apply one_ret|].
  destruct (begins l "return"); [apply one_bind; intros; apply one_ret|].
  destruct (begins l "system("); [apply one_bind; intros; apply one_ret|].
  unfold xbind at 1, bind at 1. destruct (declare_locals _ _ l s) as [[number|] s1|] eqn:Hd; [|done|done].
  destruct (0 <? number); [apply one_ret|].
  pose proof (script_declare_locals junk _ Hkx l s _ s1 Hd) as Ht.
  destruct (has_like _ _ L plain like_plain Ht Hpl) as (l1&Hl1&Hp1). unfold run_statement.
  rewrite (xbind_ok _ _ _ _ _ (line_at_ok s1 L l1 Hl1)). unfold plain, is_head in Hp1.
  destruct (begins l1 "if"), (begins l1 "for"); try done.
  apply one_bind. intros line. apply one_bind. intros _. apply one_bind. intros [k se]. destruct (negb (k =? 2)).
  - apply one_bind. intros x. destruct (is_function x); [do 2 (apply one_bind; intros); apply one_ret|apply one_unknown].
  - do 2 (apply one_bind; intros). apply one_ret.
Qed.

(** One round of the loop over the lines. *)
Definition line_loop (f : nat) (end_ : Z) : Z -> X (Z + option Var) := fun i =>
  if end_ <? i then xret (inr None) else
  let! (n, r) := run_line f i in
  match r with Some v => xret (inr (Some v)) | None => xret (inl (i + (n - 1) + 1)) end.
Lemma loop_step (f n : nat) L L' s end_ (m : X (option Var)) (k : nat) p :
  run_line f (Z.of_nat L) s = (r <- m;; xret (Z.of_nat k, r)) s -> L' = (L + k)%nat -> Z.of_nat L <= end_ ->
  (forall s1, text_like (text s) (text s1) -> xwhile n (line_loop f end_) (Z.of_nat L') s1 = exec f L' p s1) ->
  xwhile (S n) (line_loop f end_) (Z.of_nat L) s = (r <- m;; next r (exec f L' p)) s.
Proof.
  intros Hrun -> HL Hrest. cbn [xwhile]. unfold line_loop at 1. rewrite (proj2 (Z.ltb_ge _ _)) by done.
  rewrite xbind_assoc. etransitivity; [eapply xbind_eq; [exact Hrun|intros ? ?; reflexivity]|].
  rewrite xbind_assoc. apply xbind_ext. intros r s1 H1.
  assert (Ht : text_like (text s) (text s1)).
  { eapply (proj2 (script_keeps_text junk uninit runnable f)). rewrite Hrun, (xbind_ok _ _ _ _ _ H1). done. }
  destruct r as [v|]; [done|]. cbn [next]. rewrite <- (Hrest s1 Ht).
  replace (Z.of_nat (L + k)) with (Z.of_nat L + (Z.of_nat k - 1) + 1) by lia. done.
Qed.
Lemma deeper_run (f : nat) L s (m : nat -> X (option Var)) k :
  (forall f', run_line (S f') (Z.of_nat L) s = (r <- m f';; xret (k, r)) s) ->
  run_line f (Z.of_nat L) s = (r <- deeper f m;; xret (k, r)) s.
Proof. intros H. destruct f as [|f]; [done|]. apply H. Qed.
Lemma run_loop p : forall (f n : nat) L s end_,
  text_ok (text s) -> laid (text s) L p -> end_ = Z.of_nat (L + size p) - 1 -> (size p <= n)%nat ->
  xwhile (S n) (line_loop f end_) (Z.of_nat L) s = exec f L p s.
Proof.
  assert (Hruns : forall p, (forall (f n : nat) L s end_,
      text_ok (text s) -> laid (text s) L p -> end_ = Z.of_nat (L + size p) - 1 -> (size p <= n)%nat ->
      xwhile (S n) (line_loop f end_) (Z.of_nat L) s = exec f L p s) -> forall f, runs f p).
  { intros q Hq f L s Hok Hl. apply Hq; [done|done|done|lia]. }
  induction p as [|p IH|b IHb p IH|b1 IH1 b2 IH2 p IH|b IHb p IH]; intros f n L s end_ Hok Hlaid Hend Hn; cbn [size] in Hend, Hn.
  - apply xwhile_stop. unfold line_loop. by rewrite (proj2 (Z.ltb_lt _ _)) by lia.
  - destruct Hlaid as [Hpl Hlaid]. destruct n as [|n]; [lia|].
    transitivity ((r <- (let! (_, r) := run_line f (Z.of_nat L) in xret r);; next r (exec f (L + 1) p)) s).
    + apply (loop_step _ _ _ _ _ _ _ 1); [|done|lia|].
      * rewrite xbind_assoc. rewrite <- (xbind_ret_r (run_line f (Z.of_nat L))) at 1. apply xbind_ext. intros [k r] s1 H1.
        pose proof (run_plain_line f L s _ s1 Hpl H1) as Hk. cbn in Hk. by subst k.
      * intros s1 Ht. apply IH; [by eapply text_ok_like|by eapply laid_like|lia|lia].
    + cbn [exec]. rewrite xbind_assoc. apply xbind_ext. by intros [k r] s1 _.
  - destruct n as [|n]; [lia|]. pose proof Hlaid as (_&_&_&Hrest). cbn [exec].
    apply (loop_step _ _ _ _ _ _ _ (3 + size b)); [|lia|lia|].
    + apply deeper_run. intros f'. apply run_if_line; [done| |by apply Hruns]. destruct Hlaid as (H1&H2&H3&_). exact (conj H1 (conj H2 (conj H3 I))).
    + intros s1 Ht. apply IH; [by eapply text_ok_like|by eapply laid_like|lia|lia].
  - destruct n as [|n]; [lia|]. pose proof Hlaid as (_&_&_&_&_&Hrest). cbn [exec].
    apply (loop_step _ _ _ _ _ _ _ (6 + size b1 + size b2)); [|lia|lia|].
    + apply deeper_run. intros f'. apply run_if_else_line; [done| |by apply Hruns|by apply Hruns]. destruct Hlaid as (H1&H2&H3&H4&H5&_). exact (conj H1 (conj H2 (conj H3 (conj H4 (conj H5 I))))).
    + intros s1 Ht. apply IH; [by eapply text_ok_like|by eapply laid_like|lia|lia].
  - destruct n as [|n]; [lia|]. pose proof Hlaid as (_&_&_&Hrest). cbn [exec].
    apply (loop_step _ _ _ _ _ _ _ (3 + size b)); [|lia|lia|].
    + apply deeper_run. intros f'. apply run_for_line; [done| |by apply Hruns]. destruct Hlaid as (H1&H2&H3&_). exact (conj H1 (conj H2 (conj H3 I))).
    + intros s1 Ht. apply IH; [by eapply text_ok_like|by eapply laid_like|lia|lia].
Qed.

(** C13. Nested blocks are run as their braces say.  Take a script of plain
    lines and if, if-else and for blocks, nested to any depth, as it lies in
    the text with its braces on lines of their own.  The interpreter, which
    runs its lines one after another and looks for the braces each time it
    meets the head of a block, does exactly what the structure says: the same
    result, return, end of the program, error or lack of fuel, from every
    state; although lines rewrite themselves (i++ becomes i=i+1) and call
    functions of the same text. *)
Theorem script_structured (f : nat) p L s :
  text_ok (text s) -> laid (text s) L p ->
  run_lines (run_line f) (Z.of_nat L) (Z.of_nat (L + size p) - 1) s = exec f L p s.
Proof.
  intros Hok Hl. unfold run_lines. apply run_loop; [done|done|done|lia].
Qed.
End flow.
