(* ===== verification/ScriptVars.v ===== *)
(** The script interpreter: variables, expressions and assignments.

    The variables of the running function and of the script are lists of
    names and values; an expression is a number, a variable or two of them
    with an operator.  Evaluating and assigning on these lists is what
    run_expression and set_var do on the arrays and buffers. *)
From S2P Require Import Prelude Params Str Ulib Exit Script ScriptRun ScriptThms ScriptFlow.
Open Scope x_scope.

Implicit Types (l x y : list Z) (s : sc) (b : list Z).

(** ** split *)
Lemma split_two (cap : Z) c x y (r : list Z) s :
  1 < cap -> unsplit c x -> unsplit c y -> nonzero x -> nonzero y -> c <> 0 -> x <> [] -> y <> [] -> (length x <= 24)%nat -> (length y <= 24)%nat ->
  split cap (x ++ c :: y ++ 0 :: r) c s = Ok (Some (2, [pad 24 x; pad 24 y])) s.
Proof.
  intros Hcap Hx Hy Hnx Hny Hc Hnex Hney Hlx Hly.
  replace (x ++ c :: y ++ 0 :: r) with (joined c x [y] ++ 0 :: r) by (unfold joined; cbn; by rewrite app_nil_r, <- app_assoc).
  apply (split_words 24 cap c x [y] r s); [done|done|]. constructor; [done|]. by constructor.
Qed.

(** ** Values and variables *)
Inductive val := VInt (n : Z) | VChar (c : Z) | VStr (l : list Z).
Definition type_of (w : val) : Z := match w with VInt _ => INT | VChar _ => CHAR | VStr _ => STRING end.
Lemma type_nonvoid (w : val) : (type_of w =? VOID) = false.
Proof. by destruct w. Qed.
(** The memory of a value. *)
Definition value_at b (w : val) : Prop :=
  match w with
  | VInt n => (4 <= length b)%nat /\ s32 (rd 4 0 b) = n
  | VChar c => exists u r, b = u :: r /\ s8 u = c
  | VStr l => b = pad 32 l /\ (length l < 32)%nat /\ nonzero l
  end.
Definition var_is (v : Var) (w : val) : Prop :=
  v_type v = type_of w /\ exists b, v_value v = Some b /\ value_at b w.
Definition good_name x : Prop := bytes x /\ nonzero x /\ x <> [] /\ (length x < 24)%nat.
Definition named_var (v : Var) (d : list Z * val) : Prop := v_name v = pad 24 d.1 /\ good_name d.1 /\ var_is v d.2.

Abbreviation env := (list (list Z * val)).
(** The variables of the running function and of the script, with different
    names in each. *)
Record has_env s (E G : env) : Prop := {
  he_frame : 0 < stack_frame_number s <= Z.of_nat (length (stack_frame s));
  he_local : exists vs (n : nat), vars (stack_frame s !!! Z.to_nat (stack_frame_number s - 1)) = vs ++ var0 :: replicate n var0 /\
             (length vs + S n = 8)%nat /\ Forall2 named_var vs E;
  he_global : exists vs r, global_vars s = vs ++ r /\ Forall2 named_var vs G /\ global_vars_number s = Z.of_nat (length G);
  he_names : NoDup (E.*1) /\ NoDup (G.*1) }.

(** Looking for a name in a loop over variables with distinct names. *)
Lemma search_ok (body : Z * option Z -> X (Z * option Z + option Z)) (names : list (list Z)) x (last : bool) s :
  NoDup names ->
  (forall (k : nat) y r, names !! k = Some y -> y <> x -> body (Z.of_nat k, r) s = Ok (Some (inl (Z.of_nat k + 1, r))) s) ->
  (forall (k : nat) r, names !! k = Some x ->
     body (Z.of_nat k, r) s = Ok (Some (if last then inl (Z.of_nat k + 1, Some (Z.of_nat k)) else inr (Some (Z.of_nat k)))) s) ->
  (forall r, body (Z.of_nat (length names), r) s = Ok (Some (inr r)) s) ->
  xwhile (S (length names)) body (0, None) s = Ok (Some (Z.of_nat <$> (list_find (eq x) names ≫= fun p => Some p.1))) s.
Proof.
  intros Hnd Hskip Hhit Hend.
  assert (Hrest : forall n (k : nat) r, n = (length names - k)%nat -> (k <= length names)%nat ->
    (forall j, (k <= j)%nat -> names !! j <> Some x) -> xwhile (S n) body (Z.of_nat k, r) s = Ok (Some r) s).
  { induction n as [|n IH]; intros k r Hn Hk Hno.
    - assert (k = length names) as -> by lia. by apply xwhile_stop.
    - destruct (lookup_lt_is_Some_2 names k ltac:(lia)) as [y Hy].
      rewrite (xwhile_go _ _ _ _ _ _ (Hskip k y r Hy ltac:(intros ->; by apply (Hno k)))).
      replace (Z.of_nat k + 1) with (Z.of_nat (S k)) by lia. apply IH; [lia|lia|]. intros j Hj. apply Hno. lia. }
  destruct (list_find (eq x) names) as [[i y]|] eqn:Hf; cbn [mbind option_bind fmap option_fmap option_map fst].
  - apply list_find_Some in Hf as (Hi&<-&Hbefore). pose proof (lookup_lt_Some _ _ _ Hi) as Hlt.
    assert (Hgo : forall d (k : nat), (d + k = i)%nat ->
      xwhile (S (length names - k)) body (Z.of_nat k, None) s = xwhile (S (length names - i)) body (Z.of_nat i, None) s).
    { induction d as [|d IH]; intros k Hk; [by replace k with i by lia|]. destruct (lookup_lt_is_Some_2 names k ltac:(lia)) as [y Hy].
      replace (length names - k)%nat with (S (length names - S k)) by lia.
      assert (Hne : y <> x) by (intros Heq; apply (Hbefore k y Hy); [lia|done]).
      rewrite (xwhile_go _ _ _ _ _ _ (Hskip k y None Hy Hne)).
      replace (Z.of_nat k + 1) with (Z.of_nat (S k)) by lia. apply IH. lia. }
    specialize (Hgo i 0%nat ltac:(lia)). rewrite Nat.sub_0_r in Hgo. change (Z.of_nat 0) with 0 in Hgo. rewrite Hgo.
    specialize (Hhit i None Hi). destruct last.
    + replace (length names - i)%nat with (S (length names - S i)) by lia. rewrite (xwhile_go _ _ _ _ _ _ Hhit).
      replace (Z.of_nat i + 1) with (Z.of_nat (S i)) by lia. apply Hrest; [lia|lia|]. intros j Hj Hjx.
      pose proof (NoDup_lookup _ _ _ _ Hnd Hi Hjx). lia.
    + by apply xwhile_stop.
  - apply list_find_None in Hf. apply (Hrest (length names) 0%nat None); [lia|lia|]. intros j _ Hj.
    apply list_elem_of_lookup_2 in Hj. rewrite Forall_forall in Hf. by apply (Hf x Hj).
Qed.

Definition find_env x (E : env) : option nat := list_find (eq x) E.*1 ≫= fun p => Some p.1.
Lemma find_env_Some x E i : find_env x E = Some i -> exists w, E !! i = Some (x, w).
Proof.
  unfold find_env. destruct (list_find (eq x) E.*1) as [[j y]|] eqn:Hf; [|done]. intros [= <-].
  apply list_find_Some in Hf as (Hj&<-&_). rewrite list_lookup_fmap in Hj. destruct (E !! j) as [[z w]|] eqn:Hz; cbn in Hj; [|done].
  injection Hj as ->. eauto.
Qed.

Section search.
Variables (s : sc) (E G : env) (x : list Z).
Hypotheses (Henv : has_env s E G) (Hx : bytes x) (Hxn : nonzero x).

Lemma top_env : top s = Ok (Some (stack_frame s !!! Z.to_nat (stack_frame_number s - 1))) s.
Proof using Henv.
  destruct Henv as [Hf _ _ _]. unfold top, the, up, xget, xbind, bind, gets, aget. cbn. unfold inb.
  rewrite (proj2 (Z.leb_le _ _)), (proj2 (Z.ltb_lt _ _)) by lia. done.
Qed.
Lemma name_test v d : named_var v d -> (ustrcmp d.1 x =? 0) = bool_decide (x = d.1) /\ str (v_name v) s = Ok (Some d.1) s.
Proof using Hx Hxn.
  intros (Hn&(Hb&Hnz&Hne&Hl)&_). split.
  - pose proof (ustrcmp_eq d.1 x Hb Hx Hnz Hxn) as He. case_bool_decide as Hd; [by rewrite (proj2 He (eq_sym Hd))|].
    apply Z.eqb_neq. rewrite He. intros H. by apply Hd.
  - rewrite Hn, str_zero by (by apply pad_zero). by rewrite cstr_pad.
Qed.
(** A variable that is looked at. *)
Lemma named_at vs (D : env) (k : nat) y : Forall2 named_var vs D -> D.*1 !! k = Some y ->
  exists v w, vs !! k = Some v /\ named_var v (y, w).
Proof.
  intros HF. rewrite list_lookup_fmap. destruct (D !! k) as [[z w]|] eqn:Hk; [|done]. intros [= ->].
  destruct (Forall2_lookup_r _ _ _ _ _ HF Hk) as (v&Hv&Hn). eauto.
Qed.
Lemma find_local_ok (last : bool) : find_local x last s = Ok (Some (Z.of_nat <$> find_env x E)) s.
Proof using Henv Hx Hxn.
  unfold find_local. rewrite (xbind_ok _ _ _ _ _ top_env). destruct (he_local _ _ _ Henv) as (vs&n&Hvs&Hn&HF). rewrite Hvs.
  pose proof (Forall2_length _ _ _ HF) as Hlen.
  assert (Hat : forall (k : nat) v, vs !! k = Some v -> xget (vs ++ var0 :: replicate n var0) (Z.of_nat k) s = Ok (Some v) s).
  { intros k v Hv. apply get_at. by apply lookup_app_l_Some. }
  eapply xwhile_more; [eapply (search_ok _ (E.*1) x last)|].
  - apply (he_names _ _ _ Henv).
  - intros k y rr Hy Hne. destruct (named_at vs E k y HF Hy) as (v&w&Hv&Hnv). cbv beta iota.
    rewrite (xbind_ok _ _ _ _ _ (Hat k v Hv)). destruct (name_test v _ Hnv) as [Htest Hstr]. destruct Hnv as (_&_&Ht&_).
    by rewrite Ht, type_nonvoid, (xbind_ok _ _ _ _ _ Hstr), Htest, bool_decide_eq_false_2 by (cbn; congruence).
  - intros k rr Hy. destruct (named_at vs E k x HF Hy) as (v&w&Hv&Hnv). cbv beta iota.
    rewrite (xbind_ok _ _ _ _ _ (Hat k v Hv)). destruct (name_test v _ Hnv) as [Htest Hstr]. destruct Hnv as (_&_&Ht&_).
    rewrite Ht, type_nonvoid, (xbind_ok _ _ _ _ _ Hstr), Htest, bool_decide_eq_true_2 by done. by destruct last.
  - intros rr. cbv beta iota. rewrite length_fmap, <- Hlen.
    by rewrite (xbind_ok _ _ _ _ _ (get_at (vs ++ var0 :: replicate n var0) (length vs) var0 ltac:(by rewrite lookup_app_r, Nat.sub_diag by lia))).
  - rewrite length_fmap, length_app. lia.
Qed.
Lemma find_global_ok (last : bool) : find_global x last s = Ok (Some (Z.of_nat <$> find_env x G)) s.
Proof using Henv Hx Hxn.
  unfold find_global. destruct (he_global _ _ _ Henv) as (vs&r&Hvs&HF&Hn).
  unfold the, up. unfold xbind at 1 2, bind at 1 2 3 4, gets. cbn [ret]. rewrite Hn, Hvs, Nat2Z.id.
  pose proof (Forall2_length _ _ _ HF) as Hlen.
  assert (Hat : forall (k : nat) v, vs !! k = Some v -> xget (vs ++ r) (Z.of_nat k) s = Ok (Some v) s).
  { intros k v Hv. apply get_at. by apply lookup_app_l_Some. }
  rewrite <- (length_fmap fst G). apply (search_ok _ _ x last).
  - apply (he_names _ _ _ Henv).
  - intros k y rr Hy Hne. pose proof (lookup_lt_Some _ _ _ Hy). destruct (named_at vs G k y HF Hy) as (v&w&Hv&Hnv). cbv beta iota.
    rewrite (proj2 (Z.leb_gt _ _)) by lia.
    rewrite (xbind_ok _ _ _ _ _ (Hat k v Hv)). destruct (name_test v _ Hnv) as [Htest Hstr].
    by rewrite (xbind_ok _ _ _ _ _ Hstr), Htest, bool_decide_eq_false_2 by (cbn; congruence).
  - intros k rr Hy. pose proof (lookup_lt_Some _ _ _ Hy). destruct (named_at vs G k x HF Hy) as (v&w&Hv&Hnv). cbv beta iota.
    rewrite (proj2 (Z.leb_gt _ _)) by lia.
    rewrite (xbind_ok _ _ _ _ _ (Hat k v Hv)). destruct (name_test v _ Hnv) as [Htest Hstr].
    rewrite (xbind_ok _ _ _ _ _ Hstr), Htest, bool_decide_eq_true_2 by done. by destruct last.
  - intros rr. cbv beta iota. by rewrite (proj2 (Z.leb_le _ _)) by lia.
Qed.
End search.

(** ** Reading and assigning *)
Definition env_get x (E G : env) : option val :=
  match find_env x E with
  | Some i => snd <$> E !! i
  | None => match find_env x G with Some j => snd <$> G !! j | None => None end
  end.
Definition env_set x (w : val) (E G : env) : env * env :=
  match find_env x E with
  | Some i => (<[i := (x, w)]> E, G)
  | None => match find_env x G with Some j => (E, <[j := (x, w)]> G) | None => (E, G) end
  end.
(** The variable that was set, and no other, has the new value. *)
Lemma env_get_set x y w t (E G : env) : env_get x E G = Some t ->
  env_get y (env_set x w E G).1 (env_set x w E G).2 = if decide (y = x) then Some w else env_get y E G.
Proof.
  assert (Hins : forall (D : env) i, find_env x D = Some i -> find_env y (<[i := (x, w)]> D) = find_env y D /\
    (forall j, find_env y D = Some j -> snd <$> <[i := (x, w)]> D !! j = if decide (y = x) then Some w else snd <$> D !! j)).
  { intros D i Hi. pose proof (find_env_Some x D i Hi) as [u Hu]. split.
    - unfold find_env. rewrite list_fmap_insert, list_insert_id; [done|]. by rewrite list_lookup_fmap, Hu.
    - intros j Hj. pose proof (lookup_lt_Some _ _ _ Hu). case_decide as Hd; [subst y; rewrite Hi in Hj; injection Hj as <-; by rewrite list_lookup_insert_eq|].
      pose proof (find_env_Some y D j Hj) as [u' Hu']. rewrite list_lookup_insert_ne; [done|]. intros ->. congruence. }
  unfold env_get, env_set. destruct (find_env x E) as [i|] eqn:HE; cbn [fst snd].
  - intros _. destruct (Hins E i HE) as [-> Hat]. destruct (find_env y E) as [j|] eqn:Hj; [by apply Hat|].
    case_decide; [congruence|done].
  - destruct (find_env x G) as [i|] eqn:HG; [|done]. cbn [fst snd]. intros _. destruct (Hins G i HG) as [-> Hat].
    destruct (find_env y E) as [j|] eqn:Hj; [case_decide; [congruence|done]|]. destruct (find_env y G) as [j|] eqn:Hj'; [by apply Hat|].
    case_decide; [congruence|done].
Qed.
(** What is left of a value that is assigned to a variable of a type. *)
Definition convert (t w : val) : option val :=
  match t, w with
  | VInt _, VInt n => Some (VInt n)
  | VInt _, VChar c => Some (VInt c)
  | VChar _, VInt n => Some (VChar (s8 n))
  | VChar _, VChar c => Some (VChar c)
  | VStr _, VInt n => Some (VStr (rev (itoa_digits 10 n)))
  | VStr _, VChar c => Some (VStr (if c =? 0 then [] else [u8 c]))
  | VStr _, VStr l => Some (VStr l)
  | _, _ => None
  end.

(** *** Memory *)
Lemma s32_idem n : s32 (s32 n) = s32 n.
Proof. rewrite <- (s32_u32 (s32 n)), u32_s32. apply s32_u32. Qed.
Lemma s8_u8 c : s8 (u8 c) = s8 c.
Proof. unfold s8, u8. by rewrite Zplus_mod_idemp_l. Qed.
Lemma s8_idem c : s8 (s8 c) = s8 c.
Proof. unfold s8. rewrite Z.sub_add, Zmod_mod. done. Qed.
Lemma u8_s8 c : u8 (s8 c) = u8 c.
Proof. unfold u8, s8. rewrite Zminus_mod, Zmod_mod, <- Zminus_mod. f_equal. lia. Qed.
Lemma s8_zero c : s8 c = 0 -> u8 c = 0.
Proof. intros H. by rewrite <- u8_s8, H. Qed.
Lemma rd_head (u : Z) r n : s32 (rd 4 0 (u :: r)) = n -> (4 <= length (u :: r))%nat -> s8 u = s8 n.
Proof.
  intros <- Hl. destruct r as [|b1 [|b2 [|b3 r]]]; cbn [length] in Hl; try lia. 
  change (rd 4 0 (u :: b1 :: b2 :: b3 :: r)) with (le_dec [u; b1; b2; b3]).
  set (x := u + 256 * (b1 + 256 * (b2 + 256 * (b3 + 256 * 0)))). change (le_dec [u; b1; b2; b3]) with x. destruct (s32_mod x) as [k ->]. unfold s8, x.
  rewrite <- (Z.mod_add (u + 2 ^ 7) (b1 + 256 * (b2 + 256 * (b3 + 256 * 0)) + 2 ^ 24 * k) (2 ^ 8)) by lia. do 2 f_equal. lia.
Qed.
Lemma rd_new_int junk n : s32 (rd 4 0 (new_int junk n)) = s32 n.
Proof.
  unfold new_int, rd, slice. change (Z.to_nat 0) with 0%nat. rewrite drop_0. change (Z.to_nat (Z.of_nat 4)) with 4%nat.
  rewrite (take_app_length' (le_enc 4 n)) by (by rewrite length_le_enc). rewrite le_dec_enc. change (256 ^ Z.of_nat 4) with (2 ^ 32). apply s32_u32.
Qed.
Lemma new_int_at junk n : s32 n = n -> value_at (new_int junk n) (VInt n).
Proof. intros Hn. split; [unfold new_int; rewrite length_app, length_le_enc; lia|]. by rewrite rd_new_int. Qed.
Lemma new_char_at junk c : s8 c = c -> value_at (new_char junk c) (VChar c).
Proof. intros Hc. unfold new_char. do 2 eexists. split; [done|]. by rewrite s8_u8. Qed.

Section reads.
Variable s : sc.
Lemma get_int_at b n : value_at b (VInt n) -> get_int (Some b) s = Ok (Some n) s.
Proof. intros [Hl Hn]. unfold get_int, need. change (xbind (xret b) ?k s) with (k b s). cbv beta. rewrite (proj2 (Nat.leb_le _ _)) by lia. by rewrite Hn. Qed.
Lemma get_chr_at b c : value_at b (VChar c) -> get_chr (Some b) s = Ok (Some c) s.
Proof. intros (u&r&->&<-). done. Qed.
Lemma get_chr_int b n : value_at b (VInt n) -> get_chr (Some b) s = Ok (Some (s8 n)) s.
Proof.
  intros [Hl Hn]. destruct b as [|u r]; [cbn in Hl; lia|]. rewrite <- (rd_head u r n Hn Hl). done.
Qed.
Lemma get_str_at b l : value_at b (VStr l) -> get_str (Some b) s = Ok (Some l) s.
Proof.
  intros (->&Hl&Hn). unfold get_str, need. change (xbind (xret (pad 32 l)) ?k s) with (k (pad 32 l) s). cbv beta.
  rewrite str_zero by (by apply pad_zero). by rewrite cstr_pad.
Qed.
End reads.

Lemma itoa_facts (fuel : nat) n : (length (itoa_digits fuel n) <= fuel)%nat /\ nonzero (itoa_digits fuel n) /\ bytes (itoa_digits fuel n).
Proof.
  revert n. induction fuel as [|f IH]; intros n; cbn [itoa_digits]; [split_and!; constructor|].
  destruct (n =? 0); [split_and!; [cbn; lia|constructor|constructor]|]. destruct (IH (Z.quot n 10)) as (H1&H2&H3).
  assert (Hrem : Z.abs (Z.rem n 10) < 10) by (by apply (Z.rem_bound_abs n 10)).
  assert (Hd : 38 < Z.rem n 10 + 48 < 58) by lia.
  rewrite (u8_small _) by (unfold is_byte; lia). split_and!; [cbn [length]; lia|constructor; [lia|done]|constructor; [unfold is_byte; lia|done]].
Qed.
Lemma itoa_ok n s : itoa line_buf n s = Ok (Some (pad 32 (rev (itoa_digits 10 n)))) s.
Proof.
  destruct (itoa_facts 10 n) as (Hl&_). unfold itoa. rewrite length_rev, (proj2 (Nat.leb_le _ _)) by (change (length line_buf) with 32%nat; lia).
  unfold xret, ret. do 2 f_equal. unfold pad. rewrite splice_app_eq; [|lia|rewrite length_rev; change (length line_buf) with 32%nat; lia].
  cbn [Z.to_nat take app Nat.add]. unfold line_buf, zeros. by rewrite drop_replicate.
Qed.
Definition char_text (c : Z) : list Z := if c =? 0 then [] else [u8 c].
Lemma char_buf c s : s8 c = c -> xset line_buf 0 (u8 c) s = Ok (Some (pad 32 (char_text c))) s.
Proof.
  intros Hc. unfold char_text. destruct (Z.eqb_spec c 0) as [->|Hne]; done.
Qed.
Lemma char_text_facts c : s8 c = c -> nonzero (char_text c) /\ (length (char_text c) < 32)%nat.
Proof.
  intros Hc. unfold char_text. destruct (Z.eqb_spec c 0) as [->|Hne]; [split; [constructor|cbn; lia]|].
  split; [|cbn; lia]. constructor; [|constructor]. intros H0. apply Hne. rewrite <- Hc, <- s8_u8, H0. done.
Qed.
Lemma str_value l : (length l < 32)%nat -> nonzero l -> value_at (pad 32 l) (VStr l).
Proof. by split. Qed.
Lemma itoa_value n : value_at (pad 32 (rev (itoa_digits 10 n))) (VStr (rev (itoa_digits 10 n))).
Proof. destruct (itoa_facts 10 n) as (Hl&Hn&_). apply str_value; [rewrite length_rev; lia|by apply Forall_rev]. Qed.
Lemma char_value c : s8 c = c -> value_at (pad 32 (char_text c)) (VStr (char_text c)).
Proof. intros Hc. destruct (char_text_facts c Hc). by apply str_value. Qed.
(** A value in memory is in the range of its type. *)
Definition in_range (w : val) : Prop := match w with VInt n => s32 n = n | VChar c => s8 c = c | VStr l => (length l < 32)%nat /\ nonzero l end.
Lemma value_range b w : value_at b w -> in_range w.
Proof. destruct w as [n|c|l]; cbn; [intros [_ <-]; apply s32_idem|intros (u&r&_&<-); apply s8_idem|by intros (_&?&?)]. Qed.

Section variables.
Variables (junk : list Z) (uninit : Var).

Lemma copy_value_ok v w s : var_is v w -> exists v', copy_value junk uninit (v_type v) (v_value v) s = Ok (Some v') s /\ var_is v' w.
Proof.
  intros (->&b&->&Hb). pose proof (value_range b w Hb) as Hr. unfold copy_value. destruct w as [n|c|l]; cbn [type_of].
  - rewrite Z.eqb_refl, (xbind_ok _ _ _ _ _ (get_int_at s b n Hb)). eexists. split; [done|]. split; [done|]. eexists. split; [done|].
    by apply new_int_at.
  - change (CHAR =? INT) with false. change (CHAR =? CHAR) with true. cbv iota. rewrite (xbind_ok _ _ _ _ _ (get_chr_at s b c Hb)).
    eexists. split; [done|]. split; [done|]. eexists. split; [done|]. by apply new_char_at.
  - change (STRING =? INT) with false. change (STRING =? CHAR) with false. change (STRING =? STRING) with true. cbv iota.
    destruct Hr as [Hl Hn]. rewrite (xbind_ok _ _ _ _ _ (get_str_at s b l Hb)), (xbind_ok _ _ _ _ _ (strcpy_pad 32 l s Hl)).
    eexists. split; [done|]. split; [done|]. eexists. split; [done|]. by apply str_value.
Qed.

(** A word that is the name of a variable. *)
Definition letter (c : Z) : bool := (97 <=? c) && (c <=? 122) || (65 <=? c) && (c <=? 90) || (c =? 95).
Definition ident x : Prop :=
  exists c r, x = c :: r /\ letter c = true /\ Forall (fun d => letter d || isdigit d = true) r /\ (length x < 24)%nat.
Definition digit_word x : Prop := Forall (fun d => isdigit d = true) x /\ is_number x = true /\ x <> [] /\ (length x < 24)%nat.
Lemma word_char d : letter d || isdigit d = true -> 48 <= d <= 122 /\ d <> 61 /\ d <> 0.
Proof. unfold letter, isdigit. lia. Qed.
Lemma ident_chars x : ident x -> Forall (fun d => letter d || isdigit d = true) x.
Proof. intros (c&r&->&Hc&Hr&_). constructor; [by rewrite Hc|done]. Qed.
Lemma digit_word_chars x : digit_word x -> Forall (fun d => letter d || isdigit d = true) x.
Proof. intros [H _]. eapply Forall_impl; [exact H|]. intros d Hd. cbn. by rewrite Hd, orb_true_r. Qed.
Lemma ident_name x : ident x -> good_name x.
Proof.
  intros Hi. pose proof (ident_chars x Hi) as Hc. destruct Hi as (c&r&->&_&_&Hl). split_and!; [|..|done|done].
  - eapply Forall_impl; [exact Hc|]. intros d Hd%word_char. unfold is_byte. lia.
  - eapply Forall_impl; [exact Hc|]. intros d Hd%word_char. lia.
Qed.
Lemma ident_first x : ident x -> chr x <> 0 /\ is_number x = false /\ chr x <> QUOTE /\ chr x <> DQUOTE.
Proof.
  intros (c&r&->&Hc&_&_). unfold letter in Hc. unfold QUOTE, DQUOTE. cbn [chr hd]. split_and!; try lia.
  unfold is_number, atoi. cbn [chr hd]. rewrite (proj2 (Z.eqb_neq c 45)) by lia. cbn [atoi_loop].
  assert (isdigit c = false) as -> by (unfold isdigit; lia). rewrite (proj2 (Z.eqb_neq c 48)) by lia. done.
Qed.

Inductive atom := ANum (d : list Z) | AName (x : list Z).
Definition atom_text (a : atom) : list Z := match a with ANum d => d | AName x => x end.
Definition atom_ok (a : atom) : Prop := match a with ANum d => digit_word d | AName x => ident x end.
Definition eval_atom (E G : env) (a : atom) : option val :=
  match a with ANum d => Some (VInt (atoi d)) | AName x => env_get x E G end.
Lemma atom_chars a : atom_ok a -> Forall (fun d => letter d || isdigit d = true) (atom_text a).
Proof. destruct a; [apply digit_word_chars|apply ident_chars]. Qed.
Lemma atom_nonzero a : atom_ok a -> nonzero (atom_text a).
Proof. intros Ha. eapply Forall_impl; [by apply atom_chars|]. intros d Hd%word_char. lia. Qed.

(** The variable a name stands for. *)
Lemma find_var_ok x (last : bool) s E G w :
  has_env s E G -> bytes x -> nonzero x -> env_get x E G = Some w ->
  exists pl (i : nat) vs v, find_var x last s = Ok (Some (pl, Z.of_nat i)) s /\ vars_of pl s = Ok (Some vs) s /\ vs !! i = Some v /\ named_var v (x, w) /\
    (pl = InTop /\ find_env x E = Some i \/ pl = InGlobals /\ find_env x E = None /\ find_env x G = Some i).
Proof.
  intros He Hb Hn Hget. unfold find_var. rewrite (xbind_ok _ _ _ _ _ (find_local_ok s E G x He Hb Hn last)).
  unfold env_get in Hget. destruct (find_env x E) as [i|] eqn:HE; cbn [fmap option_fmap option_map].
  - destruct (he_local _ _ _ He) as (vs&n&Hvs&Hlen&HF). destruct (find_env_Some x E i HE) as [w' Hi]. rewrite Hi in Hget. injection Hget as ->.
    destruct (Forall2_lookup_r _ _ _ _ _ HF Hi) as (v&Hv&Hnv). exists InTop, i, (vs ++ var0 :: replicate n var0), v.
    split_and!; [done| |by apply lookup_app_l_Some|done..|by left]. cbn [vars_of]. by rewrite (xbind_ok _ _ _ _ _ (top_env s E G He)), Hvs.
  - rewrite (xbind_ok _ _ _ _ _ (find_global_ok s E G x He Hb Hn last)). destruct (find_env x G) as [i|] eqn:HG; [|done].
    cbn [fmap option_fmap option_map]. destruct (he_global _ _ _ He) as (vs&r&Hvs&HF&Hlen). destruct (find_env_Some x G i HG) as [w' Hi].
    rewrite Hi in Hget. injection Hget as ->. destruct (Forall2_lookup_r _ _ _ _ _ HF Hi) as (v&Hv&Hnv).
    exists InGlobals, i, (vs ++ r), v. split_and!; [done| |by apply lookup_app_l_Some|done..|by right].
    cbn [vars_of]. unfold the, up, bind, gets, ret. by rewrite Hvs.
Qed.
Lemma get_var_ok a (r : list Z) s E G w :
  has_env s E G -> atom_ok a -> eval_atom E G a = Some w ->
  exists v, get_var junk uninit (atom_text a ++ 0 :: r) s = Ok (Some v) s /\ var_is v w.
Proof.
  intros He Ha Hev. unfold get_var. rewrite (xbind_ok _ _ _ _ _ (str_app0 _ r s (atom_nonzero a Ha))).
  destruct a as [d|x]; cbn [atom_text atom_ok eval_atom] in *.
  - destruct Ha as (Hd&Hnum&Hne&_). injection Hev as <-. destruct d as [|c d]; [done|]. inversion Hd; subst.
    rewrite (proj2 (Z.eqb_neq (chr (c :: d)) 0)) by (cbn; unfold isdigit in *; lia). rewrite Hnum. eexists. split; [done|]. split; [done|].
    eexists. split; [done|]. apply new_int_at. unfold atoi. destruct (c =? 45); apply s32_idem.
  - destruct (ident_first x Ha) as (H0&Hnum&Hq&Hdq). destruct (ident_name x Ha) as (Hb&Hn&_).
    rewrite (proj2 (Z.eqb_neq _ _) H0), Hnum, (proj2 (Z.eqb_neq _ _) Hq), (proj2 (Z.eqb_neq _ _) Hdq).
    destruct (find_var_ok x false s E G w He Hb Hn Hev) as (pl&i&vs&v&Hf&Hvs&Hv&(_&_&Hvar)&_).
    rewrite (xbind_ok _ _ _ _ _ Hf). cbv beta iota. rewrite (xbind_ok _ _ _ _ _ Hvs), (xbind_ok _ _ _ _ _ (get_at vs i v Hv)).
    by apply copy_value_ok.
Qed.

(** *** Assignments *)
Lemma assigned_ok local v t w w' x s :
  named_var local (x, t) -> var_is v w -> convert t w = Some w' ->
  exists b, assigned local v s = Ok (Some b) s /\ value_at b w'.
Proof.
  intros (_&_&Ht&b0&Hb0&Hv0) (Hw&b&Hb&Hv) Hc. pose proof (value_range b w Hv) as Hr. cbn [snd] in *.
  unfold assigned. rewrite Ht, Hw, Hb, Hb0.
  destruct t as [n0|c0|l0], w as [n|c|l]; try done; injection Hc as <-; cbn [type_of].
  - change (INT =? INT) with true. cbn [andb]. rewrite (xbind_ok _ _ _ _ _ (get_int_at s b n Hv)). eexists. split; [done|].
    destruct Hv0 as [Hl _]. split; [by rewrite length_splice|]. change (splice 0 (le_enc 4 n) b0) with (wr 4 0 n b0). rewrite (rd_wr_eq 4 0 n b0) by lia.
    change (n mod 256 ^ Z.of_nat 4) with (u32 n). rewrite s32_u32. exact Hr.
  - change (INT =? INT) with true. change (CHAR =? INT) with false. change (CHAR =? CHAR) with true. cbn [andb].
    rewrite (xbind_ok _ _ _ _ _ (get_chr_at s b c Hv)). eexists. split; [done|].
    destruct Hv0 as [Hl _]. split; [by rewrite length_splice|]. change (splice 0 (le_enc 4 c) b0) with (wr 4 0 c b0). rewrite (rd_wr_eq 4 0 c b0) by lia.
    change (c mod 256 ^ Z.of_nat 4) with (u32 c). rewrite s32_u32. apply s32_small.
    cbn in Hr. unfold s8 in Hr. pose proof (Z.mod_pos_bound (c + 2 ^ 7) (2 ^ 8) ltac:(lia)). lia.
  - change (CHAR =? INT) with false. change (INT =? INT) with true. change (CHAR =? CHAR) with true. cbn [andb orb].
    rewrite (xbind_ok _ _ _ _ _ (get_chr_int s b n Hv)). destruct Hv0 as (u&r&->&_). eexists. split; [done|].
    do 2 eexists. split; [done|]. by rewrite s8_u8, s8_idem.
  - change (CHAR =? INT) with false. change (CHAR =? CHAR) with true. cbn [andb orb].
    rewrite (xbind_ok _ _ _ _ _ (get_chr_at s b c Hv)). destruct Hv0 as (u&r&->&_). eexists. split; [done|].
    do 2 eexists. split; [done|]. rewrite s8_u8. exact Hr.
  - change (STRING =? INT) with false. change (STRING =? CHAR) with false. change (STRING =? STRING) with true.
    change (INT =? INT) with true. cbn [andb]. rewrite (xbind_ok _ _ _ _ _ (get_int_at s b n Hv)), itoa_ok. eexists. split; [done|]. apply itoa_value.
  - change (STRING =? INT) with false. change (STRING =? CHAR) with false. change (STRING =? STRING) with true.
    change (CHAR =? INT) with false. change (CHAR =? CHAR) with true. cbn [andb]. rewrite (xbind_ok _ _ _ _ _ (get_chr_at s b c Hv)).
    rewrite (char_buf c s Hr). eexists. split; [done|]. by apply char_value.
  - change (STRING =? INT) with false. change (STRING =? CHAR) with false. change (STRING =? STRING) with true. cbn [andb].
    rewrite (xbind_ok _ _ _ _ _ (get_str_at s b l Hv)). destruct Hr as [Hl Hn]. exists (pad 32 l). split; [exact (strcpy_pad 32 l s Hl)|]. by apply str_value.
Qed.

(** All but the values of the variables is as it was: the frames of the
    callers, the function, the line and the result of the running one, the
    globals that are not declared yet, the parameters that wait for a call. *)
Abbreviation top_at s := (Z.to_nat (stack_frame_number s - 1)).
Record same_rest s s' : Prop := {
  sr_text : text s' = text s;
  sr_funs : fun_list s' = fun_list s /\ fun_list_number s' = fun_list_number s;
  sr_depth : stack_frame_number s' = stack_frame_number s /\ length (stack_frame s') = length (stack_frame s);
  sr_callers : forall k, k <> top_at s -> stack_frame s' !! k = stack_frame s !! k;
  sr_top : let f := stack_frame s !!! top_at s in let f' := stack_frame s' !!! top_at s in
    fr_function f' = fr_function f /\ current f' = current f /\ fr_return f' = fr_return f;
  sr_globals : global_vars_number s' = global_vars_number s /\
    drop (Z.to_nat (global_vars_number s)) (global_vars s') = drop (Z.to_nat (global_vars_number s)) (global_vars s);
  sr_params : params s' = params s;
  sr_out : sc_out s' = sc_out s /\ sc_runs s' = sc_runs s }.
Lemma insert_names (D : env) (i : nat) x w w' : D !! i = Some (x, w) -> (<[i := (x, w')]> D).*1 = D.*1.
Proof. intros Hi. rewrite list_fmap_insert. apply list_insert_id. by rewrite list_lookup_fmap, Hi. Qed.
Lemma set_top_ok s E G (f : Frame) : has_env s E G ->
  set_top f s = Ok (Some tt) (set_frames (<[Z.to_nat (stack_frame_number s - 1) := f]> (stack_frame s)) (stack_frame_number s) s).
Proof.
  intros He. pose proof (he_frame _ _ _ He). unfold set_top, the, up, xset, xbind, bind, gets, aset, change, modify. cbn. unfold inb.
  by rewrite (proj2 (Z.leb_le _ _)), (proj2 (Z.ltb_lt _ _)) by lia.
Qed.
Lemma store_top s E G (i : nat) v v' x w w' vs :
  has_env s E G -> vars_of InTop s = Ok (Some vs) s -> vs !! i = Some v -> named_var v (x, w) -> E !! i = Some (x, w) ->
  v_name v' = v_name v -> var_is v' w' ->
  exists s', put_vars InTop (<[i := v']> vs) s = Ok (Some tt) s' /\ has_env s' (<[i := (x, w')]> E) G /\ same_rest s s'.
Proof.
  intros He Hvs Hv Hn Hi Hname Hvar. cbn [vars_of] in Hvs. pose proof (top_env s E G He) as Htop. rewrite (xbind_ok _ _ _ _ _ Htop) in Hvs.
  injection Hvs as <-. set (n := stack_frame_number s) in *. set (k := Z.to_nat (n - 1)) in *.
  set (f := stack_frame s !!! k) in *. cbn [put_vars]. rewrite (xbind_ok _ _ _ _ _ Htop).
  pose proof (he_frame _ _ _ He) as Hf. fold n in Hf.
  rewrite (set_top_ok s E G) by done. fold n k. eexists. split; [done|]. split; cycle 1.
  { split; cbn [set_frames text fun_list fun_list_number stack_frame stack_frame_number global_vars global_vars_number params sc_out sc_runs]; try done.
    - by rewrite length_insert.
    - intros j Hj. by rewrite list_lookup_insert_ne.
    - fold n k. by rewrite list_lookup_total_insert_eq by (unfold k; lia). }
  destruct (he_local _ _ _ He) as (ws&m&Hws&Hlen&HF). fold n k f in Hws.
  assert (Hil : (i < length ws)%nat) by (rewrite (Forall2_length _ _ _ HF); by eapply lookup_lt_Some).
  destruct He as [_ _ Hg [Hnd1 Hnd2]]. split; cbn [stack_frame stack_frame_number set_frames global_vars global_vars_number].
  - rewrite length_insert. done.
  - exists (<[i := v']> ws), m. fold k. rewrite list_lookup_total_insert_eq by (unfold k; lia). cbn [vars with_vars]. rewrite Hws.
    split_and!; [by rewrite insert_app_l|by rewrite length_insert|]. apply Forall2_insert; [done|].
    destruct Hn as (Hn1&Hn2&_). split; [by rewrite Hname|]. split; done.
  - done.
  - by rewrite (insert_names E i x w).
Qed.
Lemma store_global s E G (i : nat) v v' x w w' vs :
  has_env s E G -> vars_of InGlobals s = Ok (Some vs) s -> vs !! i = Some v -> named_var v (x, w) -> G !! i = Some (x, w) ->
  v_name v' = v_name v -> var_is v' w' ->
  exists s', put_vars InGlobals (<[i := v']> vs) s = Ok (Some tt) s' /\ has_env s' E (<[i := (x, w')]> G) /\ same_rest s s'.
Proof.
  intros He Hvs Hv Hn Hi Hname Hvar. cbn [vars_of] in Hvs. unfold the, up, bind, gets, ret in Hvs. injection Hvs as <-.
  cbn [put_vars]. eexists. split; [done|]. destruct (he_global _ _ _ He) as (ws&r&Hws&HF&Hlen).
  assert (Hil : (i < length ws)%nat) by (rewrite (Forall2_length _ _ _ HF); by eapply lookup_lt_Some).
  split; cycle 1.
  { split; try done. cbn [set_globals global_vars global_vars_number]. split; [done|].
    rewrite drop_insert_lt; [done|]. rewrite Hlen, <- (Forall2_length _ _ _ HF). lia. }
  destruct He as [Hf Hl _ [Hnd1 Hnd2]]. split; cbn [stack_frame stack_frame_number set_globals global_vars global_vars_number]; [done|done| |].
  - exists (<[i := v']> ws), r. rewrite Hws. split_and!; [by rewrite insert_app_l| |by rewrite length_insert]. apply Forall2_insert; [done|].
    destruct Hn as (Hn1&Hn2&_). split; [by rewrite Hname|]. split; done.
  - by rewrite (insert_names G i x w).
Qed.
Lemma set_var_ok x (r : list Z) v t w w' s E G :
  has_env s E G -> bytes x -> nonzero x -> env_get x E G = Some t -> var_is v w -> convert t w = Some w' ->
  exists s', set_var (x ++ 0 :: r) v s = Ok (Some tt) s' /\
    has_env s' (env_set x w' E G).1 (env_set x w' E G).2 /\ same_rest s s'.
Proof.
  intros He Hb Hn Hget Hv Hc. unfold set_var. rewrite (xbind_ok _ _ _ _ _ (str_app0 x r s Hn)).
  destruct (find_var_ok x true s E G t He Hb Hn Hget) as (pl&i&vs&loc&Hf&Hvs&Hloc&Hnl&Hpl).
  rewrite (xbind_ok _ _ _ _ _ Hf). cbv beta iota. rewrite (xbind_ok _ _ _ _ _ Hvs), (xbind_ok _ _ _ _ _ (get_at vs i loc Hloc)).
  destruct (assigned_ok loc v t w w' x s Hnl Hv Hc) as (b&Hass&Hb'). rewrite (xbind_ok _ _ _ _ _ Hass).
  set (v' := mkVar (v_type loc) (v_name loc) (Some b)).
  assert (Hv' : var_is v' w').
  { split; [|by exists b]. destruct Hnl as (_&_&Ht&_). cbn in Ht |- *. rewrite Ht. by destruct t, w; try done; injection Hc as <-. }
  assert (Hset : xset vs (Z.of_nat i) v' s = Ok (Some (<[i := v']> vs)) s).
  { pose proof (lookup_lt_Some _ _ _ Hloc). unfold xset, up, bind, aset, inb. rewrite (proj2 (Z.leb_le _ _)), (proj2 (Z.ltb_lt _ _)) by lia.
    cbn. by rewrite Nat2Z.id. }
  rewrite (xbind_ok _ _ _ _ _ Hset). unfold env_set, env_get in *. destruct Hpl as [[-> HE]|(->&HE&HG)]; rewrite HE in *.
  - destruct (find_env_Some x E i HE) as [t' Hi]. rewrite Hi in Hget. injection Hget as ->. by eapply store_top.
  - rewrite HG in *. destruct (find_env_Some x G i HG) as [t' Hi]. rewrite Hi in Hget. injection Hget as ->. by eapply store_global.
Qed.

(** ** Expressions *)
Inductive expr := EAtom (a : atom) | EBin (k : Z) (a1 a2 : atom).
Definition is_op (k : Z) : Prop := k = PLUS \/ k = MINUS \/ k = TIMES \/ k = DIV.
Definition expr_ok (e : expr) : Prop :=
  match e with EAtom a => atom_ok a | EBin k a1 a2 => is_op k /\ atom_ok a1 /\ atom_ok a2 end.
Definition expr_text (e : expr) : list Z :=
  match e with EAtom a => atom_text a | EBin k a1 a2 => atom_text a1 ++ k :: atom_text a2 end.

Definition num (w : val) : option Z := match w with VInt n | VChar n => Some n | VStr _ => None end.
Definition arith (k a b : Z) : option Z :=
  if k =? PLUS then Some (a + b) else if k =? MINUS then Some (a - b) else if k =? TIMES then Some (a * b)
  else if (b =? 0) || ((a =? - 2 ^ 31) && (b =? -1)) then None else Some (Z.quot a b).
(** A value as a string. *)
Definition text_of (w : val) : list Z :=
  match w with VInt n => rev (itoa_digits 10 n) | VChar c => char_text c | VStr l => l end.
(** What does not fit in a line is dropped. *)
Definition cat (a b : list Z) : list Z := if (32 <=? length a + length b)%nat then a else a ++ b.
Definition op_val (k : Z) (w1 w2 : val) : option val :=
  match num w1, num w2 with
  | Some a, Some b =>
      n ← arith k a b;
      Some (match w1, w2 with VChar _, VChar _ => VChar (s8 n) | _, _ => VInt (s32 n) end)
  | _, _ => if k =? PLUS then Some (VStr (cat (text_of w1) (text_of w2))) else None
  end.
Definition eval (E G : env) (e : expr) : option val :=
  match e with
  | EAtom a => eval_atom E G a
  | EBin k a1 a2 => w1 ← eval_atom E G a1; w2 ← eval_atom E G a2; op_val k w1 w2
  end.

Lemma text_of_facts w : in_range w -> nonzero (text_of w) /\ (length (text_of w) < 32)%nat.
Proof.
  destruct w as [n|c|l]; cbn [text_of in_range]; intros Hr.
  - destruct (itoa_facts 10 n) as (Hl&Hn&_). split; [by apply Forall_rev|rewrite length_rev; lia].
  - by apply char_text_facts.
  - by destruct Hr.
Qed.
Lemma as_string_ok v w s : var_is v w -> as_string v s = Ok (Some (pad 32 (text_of w))) s.
Proof.
  intros (Ht&b&Hb&Hv). pose proof (value_range b w Hv) as Hr. unfold as_string. rewrite Ht, Hb. destruct w as [n|c|l]; cbn [type_of text_of].
  - rewrite Z.eqb_refl, (xbind_ok _ _ _ _ _ (get_int_at s b n Hv)). apply itoa_ok.
  - change (CHAR =? INT) with false. rewrite Z.eqb_refl, (xbind_ok _ _ _ _ _ (get_chr_at s b c Hv)). by apply char_buf.
  - change (STRING =? INT) with false. change (STRING =? CHAR) with false. cbv iota. rewrite (xbind_ok _ _ _ _ _ (get_str_at s b l Hv)).
    apply (strcpy_pad 32). apply Hr.
Qed.
Lemma cat_facts a b : nonzero a -> nonzero b -> (length a < 32)%nat -> nonzero (cat a b) /\ (length (cat a b) < 32)%nat.
Proof.
  intros Ha Hb Hl. unfold cat. destruct (Nat.leb_spec 32 (length a + length b)); [done|]. split; [by apply Forall_app|rewrite length_app; lia].
Qed.
Lemma strcat_pad a b s : nonzero a -> (length a < 32)%nat -> (length b < 32)%nat ->
  strcat_n (pad 32 a) (pad 32 b) (Z.of_nat (length b)) s = Ok (Some (pad 32 (cat a b))) s.
Proof.
  intros Ha Hla Hlb. unfold cat_n, cat. destruct (Z.leb_spec (Z.of_nat (length b)) 0).
  - destruct b; [|cbn in *; lia]. rewrite app_nil_r. by destruct (32 <=? _)%nat.
  - rewrite (xbind_ok _ _ _ _ _ (str_zero (pad 32 a) s (pad_zero 32 a Hla))), cstr_pad by done. cbv zeta. unfold MAX_LINE_LENGTH.
    destruct (Z.leb_spec 32 (Z.of_nat (length b) + Z.of_nat (length a))) as [Hge|Hlt].
    { by rewrite (proj2 (Nat.leb_le 32 _)) by lia. }
    rewrite (proj2 (Nat.leb_gt 32 _)) by lia. rewrite !length_pad by lia.
    rewrite (proj2 (Z.leb_le _ (Z.of_nat 32))), (proj2 (Z.ltb_lt _ (Z.of_nat 32))) by lia. cbn [andb]. unfold xret, ret. do 2 f_equal.
    rewrite Nat2Z.id. unfold pad at 1. rewrite take_app_length.
    rewrite splice_app_eq; [|lia|rewrite length_pad, length_app by lia; cbn [length]; lia]. rewrite Nat2Z.id.
    unfold pad. rewrite take_app_length, <- !app_assoc. cbn [app]. do 2 f_equal. rewrite drop_app_ge, drop_replicate by (rewrite length_app; cbn [length]; lia).
    rewrite !length_app. cbn [length]. replace (32 - (length a + length b))%nat with (S (32 - (length a + length b) - 1)) by lia. cbn [replicate].
    do 2 f_equal. lia.
Qed.
Lemma num_of_ok v w n s : var_is v w -> num w = Some n -> num_of v s = Ok (Some n) s /\ is_num (v_type v) = true.
Proof.
  intros (Ht&b&Hb&Hv) Hn. unfold num_of, is_num. rewrite Ht, Hb. destruct w as [m|c|l]; try done; injection Hn as <-; (split; [|done]).
  - by apply get_int_at.
  - by apply get_chr_at.
Qed.
Lemma int_op_ok (k a b n : Z) s : arith k a b = Some n -> int_op k a b s = Ok (Some n) s.
Proof. unfold arith, int_op. repeat case_match; by intros [= <-]. Qed.
Lemma atom_unsplit k a : is_op k \/ k = 61 -> atom_ok a -> unsplit k (atom_text a).
Proof.
  intros Hk Ha. eapply Forall_impl; [by apply atom_chars|]. intros d Hd%word_char. unfold is_op, PLUS, MINUS, TIMES, DIV, QUOTE, DQUOTE in *. lia.
Qed.
Lemma atom_size a : atom_ok a -> atom_text a <> [] /\ (length (atom_text a) < 24)%nat.
Proof. destruct a as [d|x]; [by intros (_&_&?&?)|]. intros (c&r&->&_&_&Hl). done. Qed.
Lemma pad_split (n : nat) l : (length l < n)%nat -> exists r, pad n l = l ++ 0 :: r.
Proof. intros Hl. unfold pad. replace (n - length l)%nat with (S (n - length l - 1)) by lia. by eexists. Qed.

Lemma concat_ok v1 w1 v2 w2 s : var_is v1 w1 -> var_is v2 w2 ->
  exists v, (a <- as_string v1;; b <- as_string v2;; x <- str b;; c <- strcat_n a b (Z.of_nat (length x));; string_result c) s = Ok (Some v) s /\
    var_is v (VStr (cat (text_of w1) (text_of w2))).
Proof.
  intros H1 H2. pose proof H1 as (_&b1&_&Hb1). pose proof H2 as (_&b2&_&Hb2).
  destruct (text_of_facts w1 (value_range _ _ Hb1)) as [Hn1 Hl1], (text_of_facts w2 (value_range _ _ Hb2)) as [Hn2 Hl2].
  destruct (cat_facts _ _ Hn1 Hn2 Hl1) as [Hcn Hcl].
  rewrite (xbind_ok _ _ _ _ _ (as_string_ok v1 w1 s H1)), (xbind_ok _ _ _ _ _ (as_string_ok v2 w2 s H2)).
  rewrite (xbind_ok _ _ _ _ _ (str_zero (pad 32 (text_of w2)) s (pad_zero 32 _ Hl2))), cstr_pad by done.
  rewrite (xbind_ok _ _ _ _ _ (strcat_pad _ _ s Hn1 Hl1 Hl2)). unfold string_result.
  rewrite (xbind_ok _ _ _ _ _ (str_zero (pad 32 (cat _ _)) s (pad_zero 32 _ Hcl))), cstr_pad by done.
  rewrite (xbind_ok _ _ _ _ _ (strcpy_pad 32 _ s Hcl)). eexists. split; [done|]. split; [done|]. eexists. split; [done|]. by apply str_value.
Qed.
Lemma calculate_ok k a1 a2 (r : list Z) w1 w2 w s E G :
  has_env s E G -> is_op k -> atom_ok a1 -> atom_ok a2 ->
  eval_atom E G a1 = Some w1 -> eval_atom E G a2 = Some w2 -> op_val k w1 w2 = Some w ->
  exists v, calculate junk uninit ((atom_text a1 ++ k :: atom_text a2) ++ 0 :: r) k s = Ok (Some v) s /\ var_is v w.
Proof.
  intros He Hk Ha1 Ha2 H1 H2 Hop. destruct (atom_size a1 Ha1) as [Hne1 Hl1], (atom_size a2 Ha2) as [Hne2 Hl2].
  assert (Hk0 : k <> 0) by (unfold is_op, PLUS, MINUS, TIMES, DIV in Hk; lia).
  unfold calculate. rewrite <- app_assoc. cbn [app].
  rewrite (xbind_ok _ _ _ _ _ (split_two MAX_VARS_NUMBER k _ _ r s ltac:(done) (atom_unsplit k a1 (or_introl Hk) Ha1)
    (atom_unsplit k a2 (or_introl Hk) Ha2) (atom_nonzero a1 Ha1) (atom_nonzero a2 Ha2) Hk0 Hne1 Hne2 ltac:(lia) ltac:(lia))).
  cbv beta iota. destruct (pad_split 24 _ Hl1) as [r1 Hr1], (pad_split 24 _ Hl2) as [r2 Hr2]. rewrite Hr1, Hr2. cbn [lookup list_lookup].
  destruct (get_var_ok a1 r1 s E G w1 He Ha1 H1) as (v1&Hg1&Hv1), (get_var_ok a2 r2 s E G w2 He Ha2 H2) as (v2&Hg2&Hv2).
  change (xbind (need (Some ?x)) ?f s) with (f x s). cbv beta. rewrite (xbind_ok _ _ _ _ _ Hg1).
  change (xbind (need (Some ?x)) ?f s) with (f x s). cbv beta. rewrite (xbind_ok _ _ _ _ _ Hg2).
  match goal with |- exists v, (xbind ?m _) s = _ /\ _ => assert (Hm : exists v, m s = Ok (Some v) s /\ var_is v w) end;
    [|destruct Hm as (v&Hm&Hv); rewrite (xbind_ok _ _ _ _ _ Hm); by exists v].
  clear He H1 H2 Hg1 Hg2. unfold op_val in Hop. destruct (num w1) as [n1|] eqn:Hn1, (num w2) as [n2|] eqn:Hn2.
  - destruct (num_of_ok v1 w1 n1 s Hv1 Hn1) as [Hm1 Hi1], (num_of_ok v2 w2 n2 s Hv2 Hn2) as [Hm2 Hi2]. rewrite Hi1, Hi2. cbn [andb].
    destruct (arith k n1 n2) as [n|] eqn:Har; [|done]. cbn [mbind option_bind] in Hop. injection Hop as <-.
    rewrite (xbind_ok _ _ _ _ _ Hm1), (xbind_ok _ _ _ _ _ Hm2), (xbind_ok _ _ _ _ _ (int_op_ok k n1 n2 n s Har)).
    destruct Hv1 as [Ht1 _], Hv2 as [Ht2 _]. rewrite Ht1, Ht2.
    destruct w1, w2; try done; cbn [type_of]; (eexists; split; [reflexivity|]); (split; [done|]); eexists; (split; [reflexivity|]).
    + apply new_int_at, s32_idem.
    + apply new_int_at, s32_idem.
    + apply new_int_at, s32_idem.
    + unfold new_char. do 2 eexists. split; [reflexivity|]. by rewrite s8_u8.
  - destruct (k =? PLUS) eqn:Hp; [|done]. injection Hop as <-. pose proof (concat_ok v1 w1 v2 w2 s Hv1 Hv2) as Hcat.
    destruct Hv1 as [Ht1 _], Hv2 as [Ht2 _]. rewrite Ht1, Ht2. destruct w1, w2; done.
  - destruct (k =? PLUS) eqn:Hp; [|done]. injection Hop as <-. pose proof (concat_ok v1 w1 v2 w2 s Hv1 Hv2) as Hcat.
    destruct Hv1 as [Ht1 _], Hv2 as [Ht2 _]. rewrite Ht1, Ht2. destruct w1, w2; done.
  - destruct (k =? PLUS) eqn:Hp; [|done]. injection Hop as <-. pose proof (concat_ok v1 w1 v2 w2 s Hv1 Hv2) as Hcat.
    destruct Hv1 as [Ht1 _], Hv2 as [Ht2 _]. rewrite Ht1, Ht2. destruct w1, w2; done.
Qed.

(** An expression has none of the characters that would make it something
    else. *)
Lemma expr_chars e : expr_ok e -> nonzero (expr_text e) /\ (40 ∉ expr_text e) /\ (61 ∉ expr_text e) /\ expr_text e <> [] /\
  Forall (fun d => d <> QUOTE /\ d <> DQUOTE) (expr_text e).
Proof.
  assert (Hat : forall a, atom_ok a -> Forall (fun d => 48 <= d <= 122 /\ d <> 61) (atom_text a)).
  { intros a Ha. eapply Forall_impl; [by apply atom_chars|]. intros d Hd%word_char. lia. }
  intros He. assert (Hall : Forall (fun d => 40 < d /\ d <> 61) (expr_text e)).
  { destruct e as [a|k a1 a2]; cbn [expr_text expr_ok] in *.
    - eapply Forall_impl; [by apply Hat|]. cbn. lia.
    - destruct He as (Hk&H1&H2). apply Forall_app. split; [eapply Forall_impl; [by apply Hat|]; cbn; lia|].
      constructor; [unfold is_op, PLUS, MINUS, TIMES, DIV in Hk; lia|]. eapply Forall_impl; [by apply Hat|]. cbn. lia. }
  rewrite Forall_forall in Hall. split_and!.
  - apply Forall_forall. intros d Hd%Hall. lia.
  - intros Hd%Hall. lia.
  - intros Hd%Hall. lia.
  - destruct e as [a|k a1 a2]; cbn; [by apply atom_size|]. by destruct (atom_text a1).
  - apply Forall_forall. intros d Hd%Hall. unfold QUOTE, DQUOTE. lia.
Qed.
Lemma not_function l : 40 ∉ l -> is_function l = false.
Proof.
  intros Hl. unfold is_function. destruct (_ || _ || _); [done|].
  assert (strchr (tail l) 40 = None) as ->; [|done]. assert (H : 40 ∉ tail l) by (destruct l; set_solver). revert H.
  generalize (tail l) as x. induction x as [|c x IH]; intros Hx; [done|]. cbn [strchr]. destruct (Z.eqb_spec c 40); [set_solver|apply IH; set_solver].
Qed.
Lemma op_in k c a1 a2 : is_op k -> is_op c -> atom_ok a1 -> atom_ok a2 -> has_char (atom_text a1 ++ k :: atom_text a2) c = bool_decide (k = c).
Proof.
  intros Hk Hc H1 H2. unfold has_char. apply bool_decide_ext.
  assert (Hno : forall a, atom_ok a -> c ∉ atom_text a).
  { intros a Ha Hin. pose proof (atom_unsplit c a (or_introl Hc) Ha) as Hu. unfold unsplit in Hu. rewrite Forall_forall in Hu. by destruct (Hu c Hin). }
  rewrite elem_of_app, elem_of_cons. pose proof (Hno a1 H1). pose proof (Hno a2 H2). naive_solver.
Qed.
Lemma atom_no_op a c : is_op c -> atom_ok a -> has_char (atom_text a) c = false.
Proof.
  intros Hc Ha. unfold has_char. apply bool_decide_eq_false. intros Hin. pose proof (atom_unsplit c a (or_introl Hc) Ha) as Hu.
  unfold unsplit in Hu. rewrite Forall_forall in Hu. by destruct (Hu c Hin).
Qed.
Lemma expression_ok rx rl e (r : list Z) s E G w :
  has_env s E G -> expr_ok e -> eval E G e = Some w ->
  exists v, expression_body junk uninit rx rl (expr_text e ++ 0 :: r) s = Ok (Some v) s /\ var_is v w.
Proof.
  intros He Hok Hev. destruct (expr_chars e Hok) as (Hnz&H40&_). unfold expression_body.
  rewrite (xbind_ok _ _ _ _ _ (str_app0 _ r s Hnz)), (not_function _ H40).
  assert (Hops : is_op PLUS /\ is_op MINUS /\ is_op TIMES /\ is_op DIV) by (unfold is_op; tauto). destruct Hops as (Hp&Hm&Ht&Hd).
  destruct e as [a|k a1 a2]; cbn [expr_text expr_ok eval] in *.
  - rewrite !atom_no_op by done. by apply (get_var_ok a r s E G w).
  - destruct Hok as (Hk&Ha1&Ha2). destruct (eval_atom E G a1) as [w1|] eqn:H1; [|done]. destruct (eval_atom E G a2) as [w2|] eqn:H2; [|done].
    cbn [mbind option_bind] in Hev. pose proof (calculate_ok k a1 a2 r w1 w2 w s E G He Hk Ha1 Ha2 H1 H2 Hev) as Hcalc.
    rewrite !op_in by done. destruct Hk as [->|[->|[->| ->]]]; exact Hcalc.
Qed.

(** ** The line of an assignment *)
Lemma first_split (c : Z) (p p' q q' : list Z) : p ++ c :: q = p' ++ c :: q' -> c ∉ p -> c ∉ p' -> q = q'.
Proof.
  revert p'. induction p as [|d p IH]; intros [|d' p'] H Hp Hp'; cbn [app] in H.
  - by injection H.
  - injection H as -> _. set_solver.
  - injection H as -> _. set_solver.
  - injection H as -> H. apply (IH p'); [done|set_solver|set_solver].
Qed.
Lemma strchr_spec l (c : Z) : match strchr l c with Some q => exists p q', l = p ++ c :: q' /\ q = c :: q' /\ (c ∉ p) | None => c ∉ l end.
Proof.
  induction l as [|d l IH]; cbn [strchr]; [set_solver|]. destruct (Z.eqb_spec d c) as [->|Hd]; [exists [], l; set_solver|].
  destruct (strchr l c) as [q|]; [|set_solver]. destruct IH as (p&q'&->&->&Hp). exists (d :: p), q'. set_solver.
Qed.
(** A line with at most single operators is not rewritten. *)
Definition single (c : Z) l : Prop := forall p q, l = p ++ c :: q -> c ∉ p -> chr q <> c.
Lemma inc_dec_none l (c : Z) one s :
  single c l -> c <> 0 -> (length l <= 30)%nat -> inc_dec (pad 32 l) l c one s = Ok (Some None) s.
Proof.
  intros Hs Hc Hl. unfold inc_dec. cbv zeta. pose proof (strchr_spec l c) as Hq.
  assert (Hnext : exists d, pad 32 l !! (length l - length (default [] (strchr l c)) + 1)%nat = Some d /\ d <> c).
  { destruct (strchr l c) as [q|]; cbn [default from_option id].
    - destruct Hq as (p&q'&Hp&->&Hnp). specialize (Hs p q' Hp Hnp). exists (chr q'). split; [|done]. subst l.
      replace (length (p ++ c :: q') - length (c :: q') + 1)%nat with (length p + 1)%nat by (rewrite length_app; lia).
      unfold pad. rewrite <- app_assoc. rewrite lookup_app_r by lia. replace (length p + 1 - length p)%nat with 1%nat by lia.
      destruct q' as [|d q']; [|done]. cbn [app lookup list_lookup chr hd]. rewrite length_app in *. cbn [length] in *.
      apply lookup_replicate_2. lia.
    - exists 0. split; [|done]. unfold pad. cbn [length]. rewrite lookup_app_r by lia. apply lookup_replicate_2. lia. }
  destruct Hnext as (d&Hd&Hne).
  replace (Z.of_nat (length l - length (default [] (strchr l c))) + 1) with (Z.of_nat (length l - length (default [] (strchr l c)) + 1)) by lia.
  rewrite (xbind_ok _ _ _ _ _ (get_at _ _ d Hd)). by rewrite (proj2 (Z.eqb_neq d c)).
Qed.
Lemma convert_none l s :
  single PLUS l -> single MINUS l -> nonzero l -> (length l <= 30)%nat -> convert_inc_dec (pad 32 l) s = Ok (Some (pad 32 l)) s.
Proof.
  intros Hp Hm Hn Hl. unfold convert_inc_dec. rewrite (xbind_ok _ _ _ _ _ (str_zero (pad 32 l) s (pad_zero 32 l ltac:(lia)))), cstr_pad by done.
  rewrite (xbind_ok _ _ _ _ _ (inc_dec_none l PLUS "+1" s Hp ltac:(done) Hl)). cbv iota.
  by rewrite (xbind_ok _ _ _ _ _ (inc_dec_none l MINUS "-1" s Hm ltac:(done) Hl)).
Qed.

Definition assign_text x (e : expr) : list Z := x ++ 61 :: expr_text e.
Lemma assign_single x e c : ident x -> expr_ok e -> c = PLUS \/ c = MINUS -> single c (assign_text x e).
Proof.
  intros Hx He Hc p q Heq Hnp. assert (Hop : is_op c) by (unfold is_op; tauto).
  assert (Hno : forall a, atom_ok a -> c ∉ atom_text a).
  { intros a Ha Hin. pose proof (atom_unsplit c a (or_introl Hop) Ha) as Hu. unfold unsplit in Hu. rewrite Forall_forall in Hu. by destruct (Hu c Hin). }
  assert (H61 : c <> 61) by (unfold PLUS, MINUS in Hc; lia). pose proof (Hno (AName x) Hx) as Hnx. cbn [atom_text] in Hnx.
  unfold assign_text in Heq. destruct e as [a|k a1 a2]; cbn [expr_text expr_ok] in *.
  - pose proof (Hno a He). exfalso. assert (Hin : c ∈ x ++ 61 :: atom_text a) by (rewrite Heq; set_solver). set_solver.
  - destruct He as (Hk&H1&H2). pose proof (Hno a1 H1). pose proof (Hno a2 H2).
    destruct (decide (k = c)) as [->|Hkc].
    + assert (Hq : q = atom_text a2).
      { symmetry. apply (first_split c (x ++ 61 :: atom_text a1) p (atom_text a2) q); [|set_solver|done]. rewrite <- Heq, <- app_assoc. done. }
      subst q. destruct (atom_size a2 H2) as [Hne _]. pose proof (Hno a2 H2). destruct (atom_text a2) as [|d r]; [done|]. cbn [chr hd]. set_solver.
    + exfalso. assert (Hin : c ∈ x ++ 61 :: atom_text a1 ++ k :: atom_text a2) by (rewrite Heq; set_solver). set_solver.
Qed.

(** *** Before the line *)
Lemma named_take vs (n : nat) : Forall (fun v => chr (v_name v) <> 0) vs -> named (vs ++ replicate n var0) = vs.
Proof.
  induction vs as [|v vs IH]; intros H; [by destruct n|]. inversion H; subst. cbn [app named].
  rewrite (proj2 (Z.eqb_neq _ _)) by done. by rewrite IH.
Qed.
Lemma dedupe_id vs (E : env) : Forall2 named_var vs E -> NoDup E.*1 -> dedupe vs = vs.
Proof.
  induction 1 as [|v [x w] vs E Hv HF IH]; [done|]. cbn [fmap list_fmap fst]. intros Hnd. apply NoDup_cons in Hnd as [Hx Hnd].
  cbn [dedupe]. rewrite IH by done. destruct (existsb _ vs) eqn:He; [|done]. exfalso. apply Hx.
  apply existsb_exists in He as (u&Hu%list_elem_of_In%list_elem_of_lookup&Heq%Z.eqb_eq). destruct Hu as [k Hk].
  destruct (Forall2_lookup_l _ _ _ _ _ HF Hk) as ([y w']&Hy&Hyn&(Hyb&Hyz&_&Hyl)&_).
  destruct Hv as (Hxn&(Hxb&Hxz&_&Hxl)&_). cbn [fst] in *. rewrite Hyn, Hxn, !cstr_pad in Heq by done.
  apply ustrcmp_eq in Heq; [|done..]. subst. apply list_elem_of_fmap. exists (x, w'). split; [done|]. by eapply list_elem_of_lookup_2.
Qed.
Lemma name_first v d : named_var v d -> chr (v_name v) <> 0.
Proof. intros (Hn&(_&Hz&Hne&_)&_). rewrite Hn, chr_pad. destruct d.1; [done|]. by inversion Hz. Qed.
Lemma tidy_ok s E G : has_env s E G -> tidy s = Ok (Some tt) s.
Proof.
  intros He. unfold tidy. rewrite (xbind_ok _ _ _ _ _ (top_env s E G He)). set (f := stack_frame s !!! _).
  destruct (he_local _ _ _ He) as (vs&n&Hvs&Hlen&HF). fold f in Hvs.
  match goal with |- xbind ?m _ _ = _ => assert (Hm : m s = Ok (Some (Z.of_nat (length vs))) s) end.
  { assert (Hloop : forall d (k : nat), (d + k = length vs)%nat ->
      xwhile (S d) (fun i => v <- xget (vars f) i;; if v_type v =? VOID then xret (inr i) else xret (inl (i + 1))) (Z.of_nat k) s =
      Ok (Some (Z.of_nat (length vs))) s).
    { rewrite Hvs. induction d as [|d IH]; intros k Hk.
      - assert (k = length vs) as -> by lia. apply xwhile_stop.
        by rewrite (xbind_ok _ _ _ _ _ (get_at (vs ++ var0 :: replicate n var0) (length vs) var0 ltac:(by rewrite lookup_app_r, Nat.sub_diag by lia))).
      - destruct (lookup_lt_is_Some_2 vs k ltac:(lia)) as [v Hv]. destruct (Forall2_lookup_l _ _ _ _ _ HF Hv) as (e&_&_&_&Ht&_).
        erewrite xwhile_go; [apply (IH (S k)); lia|].
        rewrite (xbind_ok _ _ _ _ _ (get_at _ k v (lookup_app_l_Some _ _ _ _ Hv))), Ht, type_nonvoid. unfold xret, ret. do 4 f_equal. lia. }
    eapply xwhile_more; [apply (Hloop (length vs) 0%nat); lia|]. rewrite Hvs, length_app. lia. }
  rewrite (xbind_ok _ _ _ _ _ Hm), (xbind_ok _ _ _ _ _ (top_env s E G He)). fold f. clear Hm.
  assert (Hd : remove_duplicate_variables (vars f) = vars f).
  { unfold remove_duplicate_variables. rewrite Hvs. change (var0 :: replicate n var0) with (replicate (S n) var0).
    rewrite take_ge by (rewrite length_app, length_replicate; change (Z.to_nat MAX_VARS_NUMBER) with 8%nat; lia).
    rewrite named_take, (dedupe_id vs E) by (first [apply (he_names _ _ _ He)|done|eapply Forall2_Forall_l; [done|]; apply Forall_true; intros; by eapply name_first]).
    f_equal. rewrite length_app, length_replicate. f_equal. lia. }
  rewrite Hd, (set_top_ok s E G) by done. destruct s as [t fl fn sf sn g gn pa o ru]. cbn in *. unfold set_frames. cbn. do 2 f_equal.
  replace (with_vars (vars f) f) with f by (by destruct f). rewrite list_insert_id; [done|].
  unfold f. apply list_lookup_lookup_total_lt. destruct He as [Hf _ _ _]. cbn in Hf. lia.
Qed.
Lemma put_same_line s (L : nat) l : text s !! L = Some (Some l) -> put_line (Z.of_nat L) l s = Ok (Some tt) s.
Proof.
  intros Hl. pose proof (lookup_lt_Some _ _ _ Hl). unfold put_line, the, up, xset, xbind, bind, gets, aset, change, modify. cbn. unfold inb.
  rewrite (proj2 (Z.leb_le _ _)), (proj2 (Z.ltb_lt _ _)) by lia. cbn. rewrite Nat2Z.id, list_insert_id by done. by destruct s.
Qed.

(** *** The line *)
Lemma strcmp_all (q : list Z) : forall l, strcmp_n l q (length q) = 0 -> Forall (fun c => s8 c <> 0 -> exists d, d ∈ l /\ s8 d = s8 c) q.
Proof.
  induction q as [|c q IH]; intros l H; [constructor|]. cbn [length] in H. rewrite strcmp_n_cons in H. destruct H as [Hc Hq]. constructor.
  - intros Hne. destruct l as [|d l]; [by rewrite <- Hc in Hne|]. exists d. split; [left|done].
  - eapply Forall_impl; [by apply (IH (tail l))|]. intros e He Hne. destruct (He Hne) as (d&Hd&Heq). exists d. split; [|done]. destruct l; [done|by right].
Qed.
Lemma assign_chars x e : ident x -> expr_ok e -> Forall (fun d => 40 < d <= 122) (assign_text x e).
Proof.
  assert (Hat : forall a, atom_ok a -> Forall (fun d => 40 < d <= 122) (atom_text a)).
  { intros a Ha. eapply Forall_impl; [by apply atom_chars|]. intros d Hd%word_char. lia. }
  intros Hx He. apply Forall_app. split; [by apply (Hat (AName x))|]. constructor; [lia|]. destruct e as [a|k a1 a2]; cbn in *; [auto|].
  destruct He as (Hk&H1&H2). apply Forall_app. split; [auto|]. constructor; [|auto]. unfold is_op, PLUS, MINUS, TIMES, DIV in Hk. lia.
Qed.
(** An assignment has no space: it is no declaration. *)
Lemma no_declaration x e (ty : string) : ident x -> expr_ok e -> 32 ∈ chars ty -> begins (pad 32 (assign_text x e)) ty = false.
Proof.
  intros Hx He Hty. unfold begins. apply Z.eqb_neq. intros H%strcmp_all. rewrite Forall_forall in H.
  destruct (H 32 Hty ltac:(done)) as (d&Hd&Heq). unfold pad in Hd. apply elem_of_app in Hd as [Hd|Hd].
  - pose proof (assign_chars x e Hx He) as Hc. rewrite Forall_forall in Hc. specialize (Hc d Hd). cbn in Hc. unfold s8 in Heq.
    rewrite !Z.mod_small in Heq by lia. lia.
  - apply elem_of_replicate in Hd as [-> _]. done.
Qed.
(** The statement x = e: not one that starts with a keyword. *)
Definition assignment x (e : expr) : Prop :=
  ident x /\ expr_ok e /\ (length (assign_text x e) <= 30)%nat /\ (length (expr_text e) < 24)%nat /\
  existsb (begins (pad 32 (assign_text x e))) ["return"; "system("; "if"; "for"]%string = false.
Lemma assignment_head x e : assignment x e ->
  only_head (pad 32 (assign_text x e)) /\ begins (pad 32 (assign_text x e)) "if" = false /\ begins (pad 32 (assign_text x e)) "for" = false.
Proof.
  intros (Hx&He&_&_&Hk). cbn [existsb] in Hk. apply orb_false_elim in Hk as [H1 Hk]. apply orb_false_elim in Hk as [H2 Hk].
  apply orb_false_elim in Hk as [H3 Hk]. apply orb_false_elim in Hk as [H4 _]. split; [|done]. split.
  - rewrite chr_pad. destruct Hx as (c&r&->&Hc&_). cbn. unfold letter in Hc. lia.
  - split_and!; try done; (apply no_declaration; [done|done|by vm_compute; set_solver]).
Qed.
Lemma assign_pieces_ok rx rl x e t w w' s E G :
  has_env s E G -> ident x -> expr_ok e -> (length (expr_text e) < 24)%nat ->
  env_get x E G = Some t -> eval E G e = Some w -> convert t w = Some w' ->
  exists s', assign_pieces (expression_body junk uninit rx rl) [pad 24 x; pad 24 (expr_text e)] s = Ok (Some tt) s' /\
    has_env s' (env_set x w' E G).1 (env_set x w' E G).2 /\ same_rest s s'.
Proof.
  intros He Hx Hok Hle Hget Hev Hc. destruct (ident_name x Hx) as (Hb&Hn&_&Hlx).
  destruct (pad_split 24 _ Hlx) as [r1 Hr1], (pad_split 24 _ Hle) as [r2 Hr2]. rewrite Hr1, Hr2. unfold assign_pieces. cbn [lookup list_lookup].
  change (xbind (need (Some ?x)) ?f s) with (f x s). cbv beta.
  destruct (expression_ok rx rl e r2 s E G w He Hok Hev) as (v&Hv&Hvw). rewrite (xbind_ok _ _ _ _ _ Hv).
  change (xbind (need (Some ?x)) ?f s) with (f x s). cbv beta. by apply (set_var_ok x r1 v t w w' s E G).
Qed.
End variables.

Section lines.
Context (junk : list Z) (uninit : Var) (runnable : list (list Z) -> bool).
#[local] Abbreviation run_line := (run_line junk uninit runnable).

Lemma assignment_line (f L : nat) x e t w w' s E G :
  has_env s E G -> assignment x e -> text s !! L = Some (Some (pad 32 (assign_text x e))) ->
  env_get x E G = Some t -> eval E G e = Some w -> convert t w = Some w' ->
  exists s', run_line (S (S f)) (Z.of_nat L) s = Ok (Some (1, None)) s' /\
    has_env s' (env_set x w' E G).1 (env_set x w' E G).2 /\ same_rest s s'.
Proof.
  intros He Ha Hl Hget Hev Hc. destruct (assignment_head x e Ha) as (Hh&Hif&Hfor). destruct Ha as (Hx&Hok&Hlen&Hle&_).
  destruct (ident_name x Hx) as (_&Hxn&Hne&Hlx). destruct (expr_chars e Hok) as (Hen&_&H61&Hene&Hq).
  rewrite (run_line_head junk uninit runnable (S f) L s _ Hl Hh), (xbind_ok _ _ _ _ _ (tidy_ok s E G He)). unfold run_statement.
  rewrite (xbind_ok _ _ _ _ _ (line_at_ok s L _ Hl)), Hif, Hfor.
  assert (Hnz : nonzero (assign_text x e)) by (apply Forall_app; split; [done|by constructor]).
  rewrite (xbind_ok _ _ _ _ _ (convert_none _ s (assign_single x e PLUS Hx Hok (or_introl eq_refl)) (assign_single x e MINUS Hx Hok (or_intror eq_refl)) Hnz Hlen)).
  rewrite (xbind_ok _ _ _ _ _ (put_same_line s L _ Hl)). destruct (pad_split 32 (assign_text x e) ltac:(lia)) as [r Hr]. rewrite Hr.
  unfold assign_text. rewrite <- app_assoc. cbn [app].
  assert (Hux : unsplit 61 x) by (apply (atom_unsplit 61 (AName x)); [by right|done]).
  assert (Hue : unsplit 61 (expr_text e)).
  { apply Forall_forall. intros d Hd. rewrite Forall_forall in Hq. split; [by intros ->|by apply Hq]. }
  rewrite (xbind_ok _ _ _ _ _ (split_two MAX_VARS_NUMBER 61 x (expr_text e) r s ltac:(done) Hux Hue Hxn Hen ltac:(done) Hne Hene ltac:(lia) ltac:(lia))).
  cbv beta iota. change (negb (2 =? 2)) with false. cbv iota.
  destruct (assign_pieces_ok junk uninit (run_expression junk uninit runnable f) (ScriptRun.run_line junk uninit runnable f) x e t w w' s E G He Hx Hok Hle Hget Hev Hc)
    as (s'&Hs'&Henv&Hsame).
  change (run_expression junk uninit runnable (S f)) with
    (expression_body junk uninit (run_expression junk uninit runnable f) (ScriptRun.run_line junk uninit runnable f)).
  rewrite (xbind_ok _ _ _ _ _ Hs'). exists s'. done.
Qed.

(** A sequence of assignments. *)
Fixpoint assigns (l : list (list Z * expr)) (D : env * env) : option (env * env) :=
  match l with
  | [] => Some D
  | (x, e) :: l =>
      t ← env_get x D.1 D.2; w ← eval D.1 D.2 e; w' ← convert t w; assigns l (env_set x w' D.1 D.2)
  end.
(** Its lines, from line [L] of the text. *)
Fixpoint assign_lines (t : list (option (list Z))) (L : nat) (l : list (list Z * expr)) : Prop :=
  match l with
  | [] => True
  | (x, e) :: l => assignment x e /\ t !! L = Some (Some (pad 32 (assign_text x e))) /\ assign_lines t (S L) l
  end.
Lemma same_rest_refl s : same_rest s s.
Proof. by split. Qed.
Lemma same_rest_trans s1 s2 s3 : same_rest s1 s2 -> same_rest s2 s3 -> same_rest s1 s3.
Proof.
  intros [A1 [A2 A2'] [A3 A3'] A4 A5 [A6 A6'] A7 [A8 A8']] [B1 [B2 B2'] [B3 B3'] B4 B5 [B6 B6'] B7 [B8 B8']].
  rewrite A3 in B4, B5. rewrite A6 in B6'. split; try (split_and!; congruence); try congruence.
  - intros k Hk. rewrite B4, A4 by done. done.
  - cbv zeta in *. destruct A5 as (?&?&?), B5 as (?&?&?). split_and!; congruence.
Qed.

End lines.

(** ** The script interpreter on concrete scripts. *)
(** A script, with ` for the double quote. *)
Definition script (l : list string) : list Z :=
  concat (map (fun c => map (fun x : Z => if x =? 96 then DQUOTE else x) (chars c) ++ [NL]) l).
Definition demo_junk : list Z := replicate 8 170.
(** How a run of [script file] ends: the commands it ran and what it printed. *)
Inductive ending := Ended (runs : list (list (list Z))) (out : list Z) | Error (e : err).
Definition run_script (fuel : nat) (l : list string) : ending :=
  match main demo_junk var0 (fun _ => true) fuel 2 (Some (script l)) sc0 with
  | Ok _ s => Ended (sc_runs s) (sc_out s)
  | Fail e => Error e
  end.
Definition ran (l : list (list string)) (out : list Z) : ending := Ended (map (map chars) l) out.

Definition demo_script : list string :=
  ["int g;";
   "void main()";
   "{";
   "  int i, n = 3;";
   "  string s = `echo `;";
   "  for (i = 1; i <= n; i++)";
   "  {";
   "    if (i == 2)";
   "    {";
   "      system(s + i); comment";
   "    }";
   "    else";
   "    {";
   "      g = twice(i, 'a');";
   "      system(s + g);";
   "    }";
   "  }";
   "  s = s + `x y`;";
   "  system(s);";
   "}";
   "int twice(int a, char c)";
   "{";
   "  return a * 2;";
   "}"].
Lemma demo_script_runs : run_script 30 demo_script = ran [["echo"; "2"]; ["echo"; "2"]; ["echo"; "6"]; ["echo"; "x"; "y"]] [].
Proof. by vm_compute. Qed.

(** ** A script as it lies in the text *)
Definition has_lineb (t : list (option (list Z))) (L : nat) (P : list Z -> bool) : bool :=
  match t !! L with Some (Some l) => P l | _ => false end.
Fixpoint laidb (t : list (option (list Z))) (L : nat) (p : prog) : bool :=
  match p with
  | PEnd => true
  | PLine p => has_lineb t L plain && laidb t (L + 1) p
  | PIf b p =>
      has_lineb t L (fun l => begins l "if") &&
      (has_lineb t (L + 1) opens && (laidb t (L + 2) b && has_lineb t (L + 2 + size b) closes)) &&
      has_lineb t (L + 3 + size b) (fun l => negb (is_else l)) && laidb t (L + 3 + size b) p
  | PIfElse b1 b2 p =>
      has_lineb t L (fun l => begins l "if") &&
      (has_lineb t (L + 1) opens && (laidb t (L + 2) b1 && has_lineb t (L + 2 + size b1) closes)) &&
      has_lineb t (L + 3 + size b1) solid_else &&
      (has_lineb t (L + 4 + size b1) opens && (laidb t (L + 5 + size b1) b2 && has_lineb t (L + 5 + size b1 + size b2) closes)) &&
      has_lineb t (L + 6 + size b1 + size b2) (fun _ => true) && laidb t (L + 6 + size b1 + size b2) p
  | PFor b p =>
      has_lineb t L for_ok &&
      (has_lineb t (L + 1) opens && (laidb t (L + 2) b && has_lineb t (L + 2 + size b) closes)) &&
      has_lineb t (L + 3 + size b) (fun _ => true) && laidb t (L + 3 + size b) p
  end.
Lemma has_line_vm t L P : has_lineb t L P = true -> has_line t L P.
Proof. unfold has_lineb, has_line. destruct (t !! L) as [[l|]|]; [|done|done]. eauto. Qed.
Lemma laid_vm t p : forall L, laidb t L p = true -> laid t L p.
Proof.
  induction p as [|p IH|b IHb p IH|b1 IH1 b2 IH2 p IH|b IHb p IH]; intros L; cbn [laid laidb]; [done|..]; intros H;
    repeat match goal with H : _ && _ = true |- _ => apply andb_prop in H as [? ?] end; split_and!; auto using has_line_vm.
Qed.
Definition good_lineb (l : list Z) : bool := forallb (fun c => (0 <=? c) && (c <? 256)) l && existsb (Z.eqb 0) l.
Lemma script_text_ok_vm t :
  (length t =? 40)%nat && forallb (fun p => match p with Some l => good_lineb l | None => true end) t = true -> text_ok t.
Proof.
  intros [Hl%Nat.eqb_eq Hg]%andb_prop. split; [done|]. intros k l Hk. rewrite forallb_forall in Hg.
  specialize (Hg (Some l) (proj1 (list_elem_of_In _ _) (list_elem_of_lookup_2 _ _ _ Hk))).
  apply andb_prop in Hg as [Hb Hz]. split.
  - rewrite forallb_forall in Hb. apply Forall_forall. intros c Hc%list_elem_of_In%Hb. unfold is_byte. lia.
  - apply existsb_exists in Hz as (x&Hx&->%Z.eqb_eq). by apply list_elem_of_In.
Qed.

(** The text of the script when its main function starts. *)
Definition at_start (l : list string) : sc :=
  match (read_script (Some (script l));; each_line (fun i line =>
           l <- remove_spaces line;; l <- remove_semicolon l;;
           put_line i (if (chr l =? 47) && (chr (tail l) =? 47) then zeros MAX_LINE_LENGTH else l));;
         find_functions demo_junk var0 (fun _ => true) 30;; find_global_vars demo_junk var0 (fun _ => true) 30;;
         push_function demo_junk var0 (run_expression demo_junk var0 (fun _ => true) 30) (chars "main()" ++ [0])) sc0 with
  | Ok _ s => s
  | Fail _ => sc0
  end.
Definition demo_prog : prog :=
  PLine (PLine (PFor (PIfElse (PLine PEnd) (PLine (PLine PEnd)) PEnd) (PLine (PLine PEnd)))).
Lemma script_structured_witness :
  run_lines (run_line demo_junk var0 (fun _ => true) 30) 3 (Z.of_nat (3 + size demo_prog) - 1) (at_start demo_script) =
  exec demo_junk var0 (fun _ => true) 30 3 demo_prog (at_start demo_script).
Proof.
  refine (script_structured demo_junk var0 (fun _ => true) 30 demo_prog 3 (at_start demo_script) _ _).
  - apply script_text_ok_vm. by vm_compute.
  - apply laid_vm. by vm_compute.
Defined.

(** ** Assignments *)
Definition sum_script : list string :=
  ["int g;"; "void main()"; "{"; "int a=7,b=5"; "a=a*b"; "g=a-10"; "string t=`x`"; "t=t+g"; "}"].
(** The state after the declarations, and its variables. *)
Definition declared : sc :=
  match run_lines (run_line demo_junk var0 (fun _ => true) 30) 3 3 (at_start sum_script) with Ok _ s => s | Fail _ => sc0 end.
Definition demo_E : env := [(chars "a", VInt 7); (chars "b", VInt 5)].
Definition demo_G : env := [(chars "g", VInt 0)].
Definition demo_assigns : list (list Z * expr) :=
  [(chars "a", EBin TIMES (AName (chars "a")) (AName (chars "b"))); (chars "g", EBin MINUS (AName (chars "a")) (ANum (chars "10")))].

Definition demo_var (i : nat) : Var := nth i (vars (stack_frame declared !!! 0%nat)) var0.

Lemma good_name_vm (x : list Z) :
  forallb (fun c => (0 <? c) && (c <? 256)) x && (length x <? 24)%nat && (0 <? length x)%nat = true -> good_name x.
Proof.
  intros [[Hc Hl%Nat.ltb_lt]%andb_prop Hn%Nat.ltb_lt]%andb_prop. rewrite forallb_forall in Hc.
  split_and!; [..|intros ->; cbn in Hn; lia|done]; apply Forall_forall; intros c Hin%list_elem_of_In%Hc; unfold is_byte; lia.
Qed.
Lemma named_int v (x : list Z) n : v_name v = pad 24 x -> good_name x -> v_type v = INT ->
  match v_value v with Some b => (4 <=? length b)%nat && (s32 (rd 4 0 b) =? n) | None => false end = true -> named_var v (x, VInt n).
Proof.
  intros Hv Hx Ht Hb. split_and!; [done|done|]. split; [done|]. destruct (v_value v) as [b|]; [|done].
  apply andb_prop in Hb as [Hl%Nat.leb_le Hn%Z.eqb_eq]. by exists b.
Qed.
Lemma declared_env : has_env declared demo_E demo_G.
Proof.
  split.
  - by vm_compute.
  - exists [demo_var 0; demo_var 1], 5%nat. split_and!; [by vm_compute..|].
    constructor; [|constructor; [|constructor]]; (apply named_int; [by vm_compute|apply good_name_vm|..]; by vm_compute).
  - exists [nth 0 (global_vars declared) var0], (drop 1 (global_vars declared)). split_and!; [by vm_compute| |by vm_compute].
    constructor; [|constructor]. apply named_int; [by vm_compute|apply good_name_vm|..]; by vm_compute.
  - split; apply (bool_decide_unpack _); by vm_compute.
Qed.
Lemma ident_vm (x : list Z) :
  letter (chr x) && forallb (fun d => letter d || isdigit d) (tail x) && (length x <? 24)%nat = true -> ident x.
Proof.
  intros [[Hc Hr]%andb_prop Hl%Nat.ltb_lt]%andb_prop. destruct x as [|c r]; [done|]. exists c, r. split_and!; [done..| |done].
  rewrite forallb_forall in Hr. apply Forall_forall. intros d Hd%list_elem_of_In. by apply Hr.
Qed.

(** ** Limits *)
Definition loop_to (n : string) : list string :=
  ["void main()"; "{"; "  int i, k;"; ("  for (i = 0; i < " ++ n ++ "; i++)")%string; "  {"; "    k++;"; "  }"; "  system(`e ` + k);"; "}"].
(** What the interpreter does at its limits, by running it.  The right side of a
    comparison of numbers is read as a char: a loop to 100 runs 100 times, one
    to 300 runs 44 times.  Of a sum of three only two count, and a number with
    a sign reads a null pointer.  0 becomes the empty string.  A variable of
    the whole script cannot be initialised (the frame below the first one is
    read), and the ninth nested call and the eighth variable of a function
    leave their arrays.  Errors of the script end it with a message. *)
Example script_limits :
  run_script 400 (loop_to "100") = ran [["e"; "100"]] [] /\
  run_script 400 (loop_to "300") = ran [["e"; "44"]] [] /\
  run_script 30 ["void main()"; "{"; "int a=1+2+3"; "system(`e `+a)"; "}"] = ran [["e"; "3"]] [] /\
  run_script 30 ["void main()"; "{"; "int a=-1"; "}"] = Error Undef /\
  run_script 30 ["void main()"; "{"; "int a"; "system(`e `+a)"; "}"] = ran [["e"]] [] /\
  run_script 30 ["int a=1"; "void main()"; "{"; "}"] = Error Undef /\
  run_script 90 ["void main()"; "{"; "f(6)"; "}"; "void f(int n)"; "{"; "if(n>0)"; "{"; "f(n-1)"; "}"; "}"] = ran [] [] /\
  run_script 90 ["void main()"; "{"; "f(7)"; "}"; "void f(int n)"; "{"; "if(n>0)"; "{"; "f(n-1)"; "}"; "}"] = Error Undef /\
  run_script 30 ["void main()"; "{"; "int a,b,c,d,e,f,g"; "a=1"; "}"] = ran [] [] /\
  run_script 30 ["void main()"; "{"; "int a,b,c,d,e,f,g,h"; "a=1"; "}"] = Error Undef /\
  run_script 30 ["void main()"; "{"; "string a"; "int b=a"; "}"] = ran [] (chars "parameter type error" ++ [NL]) /\
  run_script 30 ["void main()"; "{"; "g()"; "}"] = ran [] (chars "error, can't find function g" ++ [NL]).
Proof. vm_compute. repeat split. Qed.
