(* ===== verification/Make.v ===== *)
(** make.c: make, its makefile, its rules and the files of the directory.

    A block from malloc(n) is the units of eight bytes that umalloc.c gives
    for [n] bytes; a store or a load outside it is undefined, and so is the
    use of what was never set.  Blocks are never freed; [junk] is what one
    holds before it is written.  The state: what was printed, the commands
    that were run and the entries of the current directory (None: it cannot
    be opened).  A command changes the directory as [run] says; None is a
    command that exec does not find, after which the child would go on as a
    second make: that is outside the model.  [text0] is the string that the
    machine code at address 0 makes. *)
From S2P Require Import Prelude Params Str Ulib Lines Exit.
Open Scope x_scope.

Definition BUF_SIZE : Z := 256.
Definition MAX_LINE_NUMBER : Z := 512.
Definition MAX_LINE_LENGTH : Z := 256.
Definition MAX_NAME_LINGTH : Z := 16.
Definition T_FILE : Z := 2.
Definition SPACE : Z := 32.

(** A slot of the directory, and the type stat gives for it. *)
Record entry := mkEntry { de_inum : Z; de_name : list Z; st_type : option Z }.
#[export] Instance entry_eq_dec : EqDecision entry.
Proof. solve_decision. Defined.
Record mk := mkMk { m_out : list Z; m_runs : list (list (list Z)); m_dir : option (list entry) }.
Abbreviation X := (Exit.X mk).
#[export] Instance mk_prints : Prints mk := fun o s => mkMk (m_out s ++ o) (m_runs s) (m_dir s).

Record NODE := mkNode { name : list Z; orders : list (list Z); depends : list (list Z); subtree : list (option nat) }.
Record VNODE := mkVnode { vname : list Z; vdata : list Z }.

Section make.
Variables (junk text0 : list Z) (run : list (list Z) -> list entry -> option (list entry)).

(** ** Memory and strings *)
(** The bytes of malloc(n), and the same after memset(_, 0, n). *)
Definition units (n : Z) : nat := Z.to_nat (8 * ((n + 7) / 8)).
Definition new_block (n : Z) : list Z := take (units n) (junk ++ replicate (units n) 0).
Definition cleared (n : Z) : list Z := splice 0 (zeros n) (new_block n).
Definition strcat_n : list Z -> list Z -> Z -> X (list Z) := cat_n MAX_LINE_LENGTH.
Definition split (src : list Z) : X (Z * list (list Z)) := split_n MAX_NAME_LINGTH 256 src SPACE.
(** A copy of a string in a new block of [n] bytes. *)
Definition copy_str (n : Z) (src : list Z) (len : Z) : X (list Z) := b <- strcat_n (cleared n) src len;; str b.
(** s[i], the terminator included. *)
Definition at_ (s : list Z) (i : Z) : Z := nth (Z.to_nat i) s 0.
Definition ulen (s : list Z) : Z := Z.of_nat (length s).

(** src with the characters from [st] to [ed] replaced by [dest]. *)
Definition combinetwostring (src : list Z) (st ed : Z) (dest : list Z) : X (list Z) :=
  let resultlen := ulen src - (ed - st + 1) + ulen dest + 1 in
  let result := splice 0 (take (Z.to_nat st) src) (cleared resultlen) in
  let result := splice st dest result in
  let result := splice (st + ulen dest) (drop (Z.to_nat (ed + 1)) src) result in
  result <- xset result (resultlen - 1) 0;;
  str result.

(** The words of [data] from [linepop] on, the last one first. *)
Fixpoint word_len (s : list Z) : nat :=
  match s with c :: s => if c =? SPACE then O else S (word_len s) | [] => O end.
Definition getsplitlist (data : list Z) (linepop : Z) : X (list (list Z)) :=
  xwhile (S (length data)) (fun '(linepop, dplist) =>
    if negb (linepop <? ulen data) then xret (inr dplist) else
    if at_ data linepop =? SPACE then xret (inl (linepop + 1, dplist)) else
    let w := take (word_len (drop (Z.to_nat linepop) data)) (drop (Z.to_nat linepop) data) in
    xret (inl (linepop + ulen w, w :: dplist))) (linepop, []).

(** ** The commands and the directory *)
Definition runcomand (cmd : list Z) : X unit :=
  let! (_, testres) := split (cmd ++ [0]) in
  if Z.of_nat (length testres) <? 256 then
    argv <- strs testres;;
    d <- the m_dir;;
    match run argv (default [] d) with
    | Some d' => change (fun s => mkMk (m_out s) (m_runs s ++ [argv]) (match d with Some _ => Some d' | None => None end))
    | None => fail (Panic "exec")
    end
  else undef.

(** The part after the last slash, filled up with spaces to DIRSIZ. *)
Fixpoint last_part (path : list Z) : list Z :=
  match path with
  | [] => []
  | c :: r => if existsb (Z.eqb 47) r then last_part r else if c =? 47 then r else path
  end.
Definition fmtname (path : list Z) : list Z :=
  let p := last_part path in
  p ++ replicate (DIRSIZ - length p) SPACE.
(** The trailing spaces are cut off again. *)
Fixpoint cut_spaces (r : list Z) : list Z := match r with c :: r' => if c =? SPACE then cut_spaces r' else r | [] => [] end.
Definition listed (path : list Z) : list Z := rev (cut_spaces (rev (fmtname path))).
Fixpoint list_entries (es : list entry) (cmdall : list (list Z)) : X (list (list Z)) :=
  match es with
  | [] => xret cmdall
  | de :: es =>
      if de_inum de =? 0 then list_entries es cmdall else
      let buf := chars "./" ++ cstr (de_name de) in
      match st_type de with
      | None => print (chars "getcmdlist: cannot stat %s" ++ [NL]) [UStr (Some buf)];; list_entries es cmdall
      | Some t =>
          if (t =? 2) || (t =? 1) then
            if 100 <=? Z.of_nat (length cmdall) then undef else list_entries es (cmdall ++ [listed buf])
          else list_entries es cmdall
      end
  end.
(** getcmdlist("."), a directory.  When it cannot be opened the type that is
    tested was never set. *)
Definition getcmdlist : X (list (list Z)) :=
  d <- the m_dir;;
  es <- need d;;
  list_entries es [].

(** ** Making a target *)
Definition same (a b : list Z) : bool := ustrcmp a b =? 0.
Definition has_file (files : list (list Z)) (f : list Z) : bool := existsb (same f) files.
Fixpoint check_depends (files : list (list Z)) (ds : list (list Z)) : X unit :=
  match ds with
  | [] => xret tt
  | d :: ds =>
      if has_file files d then check_depends files ds
      else print (chars "%s %s." ++ [NL]) [UStr (Some (chars "Can't find")); UStr (Some d)];; exit
  end.
Fixpoint run_orders (os : list (list Z)) : X unit :=
  match os with
  | [] => xret tt
  | o :: os => print (chars "%s" ++ [NL]) [UStr (Some o)];; runcomand o;; run_orders os
  end.
Fixpoint each {A} (f : A -> X unit) (l : list A) : X unit :=
  match l with [] => xret tt | a :: l => f a;; each f l end.
Fixpoint makefiletree (nodes : list NODE) (fuel : nat) (tree : nat) : X unit :=
  match fuel with
  | O => fail OutOfFuel
  | S fuel =>
      n <- need (nodes !! tree);;
      each (fun t => match t with Some k => makefiletree nodes fuel k | None => xret tt end) (subtree n);;
      filelist <- getcmdlist;;
      check_depends filelist (depends n);;
      run_orders (orders n)
  end.

(** ** Reading the makefile *)
(** One read; [text]: the lines so far.  true: is_full. *)
Definition read_chunk (buf : list Z) (text : list (list Z)) : X (list (list Z) * bool) :=
  let len := ulen buf in
  xwhile (S (length buf)) (fun '(next, text) =>
    let i := next + Z.of_nat (newline_at (drop (Z.to_nat next) buf)) in
    let n := Z.of_nat (length text) - 1 in
    l <- xget text n;;
    l <- strcat_n l (drop (Z.to_nat next) buf) (i - next);;
    text <- xset text n l;;
    let nl := i <? len in
    let is_full := nl && (MAX_LINE_NUMBER - 1 <=? n) in
    let text := if nl && negb is_full then text ++ [cleared MAX_LINE_LENGTH] else text in
    if is_full || (len - 1 <=? i) then xret (inr (text, is_full)) else xret (inl (i + 1, text))) (0, text).
Fixpoint read_chunks (chunks : list (list Z)) (text : list (list Z)) : X (list (list Z)) :=
  match chunks with
  | [] => xret text
  | b :: chunks =>
      let! (text, is_full) := read_chunk b text in
      if is_full : bool then xret text else read_chunks chunks text
  end.
(** What successive read(fd, buf, BUF_SIZE) return. *)
Fixpoint reads (fuel : nat) (f : list Z) : list (list Z) :=
  match fuel with
  | O => []
  | S fuel => match f with [] => [] | _ => take (Z.to_nat BUF_SIZE) f :: reads fuel (drop (Z.to_nat BUF_SIZE) f) end
  end.

(** ** Its lines *)
(** $(name) in an order is replaced by the data of the variable. *)
Fixpoint find_value (vs : list VNODE) (value : list Z) : option (list Z) :=
  match vs with [] => None | v :: vs => if same (vname v) value then Some (vdata v) else find_value vs value end.
Fixpoint closing_paren (s : list Z) : nat := match s with c :: s => if c =? 41 then O else S (closing_paren s) | [] => O end.
Definition expand (vs : list VNODE) (fuel : nat) (tempstr : list Z) : X (list Z) :=
  xwhile fuel (fun '(i, t) =>
    if negb (u32 i <? ulen t) then xret (inr t) else
    if negb ((at_ t i =? 36) && (at_ t (i + 1) =? 40)) then xret (inl (i + 1, t)) else
    let popst := i + 2 in
    let poped := popst + Z.of_nat (closing_paren (drop (Z.to_nat popst) t)) - 1 in
    if negb (popst <=? poped) then print (chars "%s" ++ [NL]) [UStr (Some (chars "Illegal input."))];; exit else
    let value := take (Z.to_nat (poped - popst + 1)) (drop (Z.to_nat popst) t) in
    match find_value vs value with
    | Some data =>
        t' <- combinetwostring t i (poped + 1) data;;
        xret (inl (s32 (ulen data - poped + popst) + 1, t'))
    | None =>
        print (chars "%s %s" ++ [NL]) [UStr (Some (chars "Can't find the value")); UStr (Some value)];; exit
    end) (0, tempstr).
(** The lines that start with a tab, the last one first, and the number of
    the line after them. *)
Fixpoint get_orders (vs : list VNODE) (fuel : nat) (lines : list (list Z)) (orderlist : list (list Z)) (n : Z)
    : X (list (list Z) * Z) :=
  match lines with
  | [] => xret (orderlist, n)
  | b :: lines =>
      l <- str b;;
      if (chr l =? 9) && (1 <? ulen l) then
        tempstr <- expand vs fuel (tail l);;
        data <- strcat_n (new_block (ulen tempstr + 1)) (tempstr ++ [0]) (ulen tempstr);;
        data <- str data;;
        get_orders vs fuel lines (data :: orderlist) (n + 1)
      else xret (orderlist, n)
  end.
(** The copies of a list of strings. *)
Fixpoint copies (l : list (list Z)) : X (list (list Z)) :=
  match l with
  | [] => xret []
  | d :: l => c <- copy_str (ulen d + 1) (d ++ [0]) (ulen d);; r <- copies l;; xret (c :: r)
  end.
(** The first of the characters that end a name, and the next one that is
    not a space. *)
Definition name_end (b : list Z) : X Z :=
  xwhile (S (length b)) (fun linepop =>
    charpop <- xget b linepop;;
    if (charpop =? SPACE) || (charpop =? 61) || (charpop =? 58) then xret (inr linepop) else xret (inl (linepop + 1))) 0.
Definition after_spaces (b : list Z) (stop : Z) (linepop : Z) : X Z :=
  xwhile (S (length b)) (fun linepop =>
    charpop <- xget b linepop;;
    if (charpop =? SPACE) && (linepop <? stop) then xret (inl (linepop + 1)) else xret (inr linepop)) linepop.
Definition before_spaces (b : list Z) (linepop : Z) : X Z :=
  xwhile (S (length b)) (fun linepop =>
    charpop <- xget b linepop;;
    if charpop =? SPACE then xret (inl (linepop - 1)) else xret (inr linepop)) linepop.

Record parsed := mkParsed { p_nodes : list NODE; p_values : list VNODE; p_root : option (list Z) }.
(** name : depends, and its orders. *)
Definition rule (fuel : nat) (lines : list (list Z)) (pop linepop : Z) (l mainname : list Z) (p : parsed) : X (Z * parsed) :=
  nm <- copy_str (ulen mainname) (mainname ++ [0]) (ulen mainname);;
  let root := match p_root p with Some r => r | None => nm end in
  dplist <- getsplitlist l (linepop + 1);;
  deps <- copies dplist;;
  let! (orderlist, n) := get_orders (p_values p) fuel (drop (Z.to_nat (pop + 1)) lines) [] 0 in
  os <- copies orderlist;;
  xret (pop + 1 + n, mkParsed (mkNode nm os deps (replicate (length deps) None) :: p_nodes p) (p_values p) (Some root)).
(** name = data *)
Definition value (b l : list Z) (linepop : Z) (mainname : list Z) (p : parsed) : X parsed :=
  nm <- copy_str (ulen mainname) b (ulen mainname);;
  linestpop <- after_spaces b (ulen b) (linepop + 1);;
  lineedpop <- before_spaces b (ulen l - 1);;
  let n := lineedpop - linestpop + 2 in
  if n <=? 0 then undef else
  let data := take (Z.to_nat (n - 1)) (drop (Z.to_nat linestpop) b) in
  xret (mkParsed (p_nodes p) (mkVnode nm data :: p_values p) (p_root p)).
(** A line that is neither is read again and again. *)
Definition parse_line (fuel : nat) (lines : list (list Z)) (pop : Z) (p : parsed) : X (Z * parsed) :=
  b <- xget lines pop;;
  l <- str b;;
  if ulen l =? 0 then xret (pop + 1, p) else
  linepop <- name_end b;;
  mainname <- copy_str linepop b linepop;;
  linepop <- after_spaces b (ulen l - 1) linepop;;
  if negb (linepop <? ulen l) then xret (pop + 1, p) else
  if at_ l linepop =? 58 then rule fuel lines pop linepop l mainname p
  else if at_ l linepop =? 61 then p <- value b l linepop mainname p;; xret (pop + 1, p)
  else xret (pop, p).
Definition parse (fuel : nat) (lines : list (list Z)) (root : option (list Z)) : X parsed :=
  xwhile (S (length lines)) (fun '(pop, p) =>
    if negb (pop <=? Z.of_nat (length lines) - 1) then xret (inr p) else
    r <- parse_line fuel lines pop p;; xret (inl r)) (0, mkParsed [] [] root).

(** ** main *)
(** The last node of the list with that name. *)
Fixpoint last_named (nodes : list NODE) (d : list Z) (i : nat) (r : option nat) : option nat :=
  match nodes with
  | [] => r
  | n :: nodes => last_named nodes d (S i) (if same (name n) d then Some i else r)
  end.
Definition link (nodes : list NODE) (n : NODE) : NODE :=
  mkNode (name n) (orders n) (depends n) (map (fun d => last_named nodes d 0 None) (depends n)).
Fixpoint first_named (nodes : list NODE) (d : list Z) : option NODE :=
  match nodes with [] => None | n :: nodes => if same (name n) d then Some n else first_named nodes d end.
Definition make_clean (nodes : list NODE) : X unit :=
  match first_named nodes (chars "clean") with
  | Some n => run_orders (orders n);; print (chars "%s" ++ [NL]) [UStr (Some (chars "Make clean success."))]
  | None => print (chars "%s" ++ [NL]) [UStr (Some (chars "Can't find clean."))]
  end;;
  exit.
(** Without a node of the name of the root, [noderoot] was never set. *)
Definition make_root (fuel : nat) (nodes : list NODE) (root : option (list Z)) : X unit :=
  let nodes := map (link nodes) nodes in
  noderoot <- need (root ≫= fun r => last_named nodes r 0 None);;
  makefiletree nodes fuel noderoot;;
  print (chars "%s" ++ [NL]) [UStr (Some (chars "Make success."))];;
  exit.
(** [arg]: argv[1], NULL when it is not given; [makefile]: the file, if there
    is one.  The return of main ends the program as well. *)
Definition main (fuel : nat) (arg : option (list Z)) (makefile : option (list Z)) : X unit :=
  match makefile with
  | None => print (chars "Can't find makefile. Halt. " ++ [NL]) [];; exit
  | Some f =>
      text <- read_chunks (reads (length f) f) [cleared MAX_LINE_LENGTH];;
      p <- parse fuel text arg;;
      if same (default text0 arg) (chars "clean") then make_clean (p_nodes p)
      else make_root fuel (p_nodes p) (p_root p)
  end.
End make.
