(* ===== verification/MakeThms.v ===== *)
(** make: the lines of a makefile become its rules, and a target is made
    after what it depends on. *)
From S2P Require Import Prelude Params Str Ulib Lines Exit Make.
Open Scope x_scope.

Implicit Types (l w d : list Z) (s : mk).

Section make.
Variable junk : list Z.
Hypothesis Hjunk : chr junk = 0.

(** ** Strings in new blocks *)
Lemma units_enough n : 0 <= n -> n <= Z.of_nat (units n) /\ n + 1 <= Z.of_nat (units (n + 1)) /\ (n mod 8 <> 0 -> n < Z.of_nat (units n)).
Proof. intros Hn. unfold units. split_and!; rewrite Z2Nat.id; Z.to_euclidean_division_equations; lia. Qed.
Lemma length_new_block n : length (new_block junk n) = units n.
Proof. unfold new_block. rewrite length_take, length_app, length_replicate. lia. Qed.
Lemma cleared_ok n : 0 < n -> exists r, cleared junk n = 0 :: r /\ length (0 :: r) = units n.
Proof.
  intros Hn. destruct (units_enough n ltac:(lia)) as (Hu&_).
  assert (Hl : length (cleared junk n) = units n) by (unfold cleared; by rewrite length_splice, length_new_block).
  assert (Hc : chr (cleared junk n) = 0).
  { unfold cleared. rewrite splice_app_eq; [|lia|unfold zeros; rewrite length_replicate, length_new_block; lia].
    unfold zeros. by replace (Z.to_nat n) with (S (Z.to_nat n - 1)) by lia. }
  destruct (cleared junk n) as [|c r]; cbn in *; [lia|]. subst c. by exists r.
Qed.
Lemma new_block_ok n : 0 < n -> exists r, new_block junk n = 0 :: r /\ length (0 :: r) = units n.
Proof using Hjunk.
  intros Hn. destruct (units_enough n ltac:(lia)) as (Hu&_). pose proof (length_new_block n) as Hl.
  assert (Hc : chr (new_block junk n) = 0).
  { unfold new_block. destruct (units n); [lia|]. by destruct junk as [|c r]. }
  destruct (new_block junk n) as [|c r]; cbn in *; [lia|]. subst c. by exists r.
Qed.
(** The first characters of [src] put in a block that starts with 0. *)
Lemma cat_first (b : list Z) l (r : list Z) s :
  chr b = 0 -> nonzero l -> (length l < 256)%nat -> (length l < length b)%nat ->
  (b' <- strcat_n b (l ++ r) (ulen l);; str b') s = Ok (Some l) s.
Proof.
  intros Hb Hl H256 Hlen. unfold strcat_n, cat_n, ulen. destruct b as [|c b]; [cbn in Hlen; lia|]. cbn in Hb. subst c.
  destruct (Z.leb_spec (Z.of_nat (length l)) 0); [by destruct l|].
  pose proof (str_app0 (@nil Z) b s ltac:(constructor)) as H0. cbn [app] in H0.
  rewrite xbind_assoc, (xbind_ok _ _ _ _ _ H0). cbn [length]. cbv zeta. unfold MAX_LINE_LENGTH.
  rewrite (proj2 (Z.leb_gt 256 _)) by lia. rewrite (proj2 (Z.leb_le _ _)) by (rewrite length_app; lia).
  rewrite (proj2 (Z.ltb_lt _ _)) by (cbn [length] in *; lia). cbn [andb].
  rewrite Nat2Z.id, take_app_length. change (xbind (xret ?x) ?k s) with (k x s). cbv beta.
  rewrite splice_app_eq; [|lia|rewrite length_app; cbn [length] in *; lia]. cbn [Z.of_nat Z.to_nat take app].
  rewrite <- app_assoc. cbn [app]. by apply str_app0.
Qed.
Lemma copy_str_ok n l (r : list Z) s :
  nonzero l -> (length l < 256)%nat -> ulen l < Z.of_nat (units n) -> 0 < n -> copy_str junk n (l ++ r) (ulen l) s = Ok (Some l) s.
Proof.
  intros Hl H256 Hu Hn. destruct (cleared_ok n Hn) as (b&Hb&Hlb). unfold copy_str. rewrite Hb. apply cat_first; [done..|]. unfold ulen in Hu. lia.
Qed.
Definition short l : Prop := nonzero l /\ (length l < 256)%nat.
Lemma copies_ok (ls : list (list Z)) s : Forall short ls -> copies junk ls s = Ok (Some ls) s.
Proof.
  induction 1 as [|l ls [Hn Hl] _ IH]; [done|]. cbn [copies].
  destruct (units_enough (ulen l) ltac:(unfold ulen; lia)) as (_&Hu&_).
  rewrite (xbind_ok _ _ _ _ _ (copy_str_ok (ulen l + 1) l [0] s Hn Hl ltac:(lia) ltac:(unfold ulen; lia))).
  by rewrite (xbind_ok _ _ _ _ _ IH).
Qed.

(** ** Words *)
Definition plain_word w : Prop := nonzero w /\ w <> [] /\ (SPACE ∉ w).
Lemma word_len_ok w (r : list Z) : SPACE ∉ w -> (r = [] \/ chr r = SPACE) -> word_len (w ++ r) = length w.
Proof.
  intros Hw Hr. induction w as [|c w IH]; cbn [app word_len length].
  - destruct Hr as [->|Hr]; [done|]. destruct r as [|c r]; [done|]. cbn in Hr |- *. by rewrite Hr.
  - destruct (Z.eqb_spec c SPACE); [set_solver|]. rewrite IH by set_solver. done.
Qed.
(** Words, each after a space. *)
Definition spaced (ws : list (list Z)) : list Z := concat (map (cons SPACE) ws).
Lemma getsplit_ok (p : list Z) ws : forall acc (m : nat) s, Forall plain_word ws -> (length (spaced ws) < m)%nat ->
  xwhile m (fun '(linepop, dplist) =>
    if negb (linepop <? ulen (p ++ spaced ws)) then xret (inr dplist) else
    if at_ (p ++ spaced ws) linepop =? SPACE then xret (inl (linepop + 1, dplist)) else
    let w := take (word_len (drop (Z.to_nat linepop) (p ++ spaced ws))) (drop (Z.to_nat linepop) (p ++ spaced ws)) in
    xret (inl (linepop + ulen w, w :: dplist))) (ulen p, acc) s = Ok (Some (rev ws ++ acc)) s.
Proof.
  revert p. induction ws as [|w ws IH]; intros p acc m s Hws Hm.
  - destruct m as [|m]; [lia|]. apply xwhile_stop. unfold spaced. cbn [map concat]. rewrite app_nil_r.
    by rewrite (proj2 (Z.ltb_ge _ _)) by lia.
  - inversion Hws as [|? ? (Hn&Hne&Hsp) Hws']; subst.
    assert (Hspl : spaced (w :: ws) = SPACE :: w ++ spaced ws) by done. rewrite Hspl in *. cbn [length] in Hm. rewrite length_app in Hm.
    assert (length w <> 0)%nat by (by destruct w). destruct m as [|[|m]]; [lia|lia|].
    erewrite xwhile_go; [|cbv beta iota; rewrite (proj2 (Z.ltb_lt _ _)) by (unfold ulen; rewrite length_app; cbn [length]; lia);
      unfold at_, ulen at 1; rewrite Nat2Z.id, app_nth2, Nat.sub_diag by lia; reflexivity].
    assert (Hd : drop (Z.to_nat (ulen p + 1)) (p ++ SPACE :: w ++ spaced ws) = w ++ spaced ws).
    { replace (Z.to_nat (ulen p + 1)) with (length p + 1)%nat by (unfold ulen; lia). rewrite drop_app_ge by lia.
      by replace (length p + 1 - length p)%nat with 1%nat by lia. }
    assert (Hw : take (word_len (w ++ spaced ws)) (w ++ spaced ws) = w).
    { rewrite word_len_ok; [apply take_app_length|done|]. destruct ws; [by left|by right]. }
    erewrite xwhile_go; [|cbv beta iota; rewrite (proj2 (Z.ltb_lt _ _)) by (unfold ulen; rewrite !length_app; cbn [length]; rewrite length_app; lia);
      rewrite Hd, Hw; assert (Hat : (at_ (p ++ SPACE :: w ++ spaced ws) (ulen p + 1) =? SPACE) = false);
      [|rewrite Hat; reflexivity]].
    + replace (ulen p + 1 + ulen w) with (ulen ((p ++ [SPACE]) ++ w)) by (unfold ulen; rewrite !length_app; cbn [length]; lia).
      replace (p ++ SPACE :: w ++ spaced ws) with (((p ++ [SPACE]) ++ w) ++ spaced ws) by (by rewrite <- !app_assoc).
      rewrite IH; [|done|lia]. cbn [rev]. by rewrite <- app_assoc.
    + unfold at_. rewrite <- (take_drop (Z.to_nat (ulen p + 1)) (p ++ _)), Hd, app_nth2 by (rewrite length_take; lia).
      rewrite length_take, length_app. cbn [length]. replace (Z.to_nat (ulen p + 1) - _)%nat with 0%nat by (unfold ulen; lia).
      destruct w as [|c w]; [done|]. cbn. apply Z.eqb_neq. set_solver.
Qed.
Lemma getsplitlist_ok (p : list Z) ws s : Forall plain_word ws -> getsplitlist (p ++ spaced ws) (ulen p) s = Ok (Some (rev ws)) s.
Proof.
  intros Hws. unfold getsplitlist. rewrite (getsplit_ok p ws [] _ s Hws); [by rewrite app_nil_r|]. rewrite length_app. lia.
Qed.

(** ** The makefile *)
Record rule_src := mkRule { r_name : list Z; r_deps : list (list Z); r_orders : list (list Z) }.
Inductive item := Blank | Value (x data : list Z) | Rule (r : rule_src).
Definition line l : list Z := pad 256 l.
Definition rule_head (r : rule_src) : list Z := r_name r ++ 58 :: spaced (r_deps r).
Definition item_text (it : item) : list (list Z) :=
  match it with
  | Blank => [[]]
  | Value x data => [x ++ 61 :: data]
  | Rule r => rule_head r :: map (cons 9) (r_orders r)
  end.
Definition file_text (its : list item) : list (list Z) := concat (map item_text its).
Definition item_lines (it : item) : list (list Z) :=
  match it with
  | Blank => [line []]
  | Value x data => [line (x ++ 61 :: data)]
  | Rule r => line (rule_head r) :: map (fun o => line (9 :: o)) (r_orders r)
  end.
(** A name: its length is no multiple of eight. *)
Definition name_ok l : Prop :=
  nonzero l /\ Forall (fun c => c <> SPACE /\ c <> 61 /\ c <> 58) l /\ l <> [] /\ chr l <> 9 /\ ulen l mod 8 <> 0.
(** An order: no variables. *)
Definition order_ok l : Prop := nonzero l /\ l <> [] /\ (36 ∉ l) /\ (length l < 255)%nat.
Definition item_ok (it : item) : Prop :=
  match it with
  | Blank => True
  | Value x data =>
      name_ok x /\ nonzero data /\ data <> [] /\ chr data <> SPACE /\ List.last data 0 <> SPACE /\ (length (x ++ 61%Z :: data) < 256)%nat
  | Rule r => name_ok (r_name r) /\ Forall plain_word (r_deps r) /\ (length (rule_head r) < 256)%nat /\ Forall order_ok (r_orders r)
  end.
(** What the parser has after it. *)
Definition node_of (r : rule_src) : NODE :=
  mkNode (r_name r) (rev (r_orders r)) (rev (r_deps r)) (replicate (length (r_deps r)) None).
Definition add_item (it : item) (p : parsed) : parsed :=
  match it with
  | Blank => p
  | Value x data => mkParsed (p_nodes p) (mkVnode x data :: p_values p) (p_root p)
  | Rule r => mkParsed (node_of r :: p_nodes p) (p_values p) (Some (default (r_name r) (p_root p)))
  end.

Lemma str_line l s : short l -> str (line l) s = Ok (Some l) s.
Proof. intros [Hn Hl]. unfold line. rewrite str_zero by (by apply pad_zero). by rewrite cstr_pad. Qed.
Lemma line_at l (k : nat) s : (length l < 256)%nat -> (k <= length l)%nat -> xget (line l) (Z.of_nat k) s = Ok (Some (nth k l 0)) s.
Proof.
  intros Hl Hk. apply get_at. unfold line, pad. destruct (decide (k < length l)%nat) as [Hlt|Hge].
  - apply lookup_app_l_Some. destruct (lookup_lt_is_Some_2 l k Hlt) as [a Ha]. by rewrite Ha, (nth_lookup_Some _ _ _ _ Ha).
  - assert (k = length l) as -> by lia. rewrite lookup_app_r, Nat.sub_diag, nth_overflow by lia. by replace (256 - length l)%nat with (S (255 - length l)) by lia.
Qed.
Lemma name_end_ok nm c (r : list Z) s :
  Forall (fun c => c <> SPACE /\ c <> 61 /\ c <> 58) nm -> c = SPACE \/ c = 61 \/ c = 58 -> (length (nm ++ c :: r) < 256)%nat ->
  name_end (line (nm ++ c :: r)) s = Ok (Some (ulen nm)) s.
Proof.
  intros Hnm Hc Hl. unfold name_end. rewrite length_app in Hl. cbn [length] in Hl.
  assert (Hgo : forall (j k : nat), (j + k = length nm)%nat ->
    xwhile (S j) (fun linepop => charpop <- xget (line (nm ++ c :: r)) linepop;;
      if (charpop =? SPACE) || (charpop =? 61) || (charpop =? 58) then xret (inr linepop) else xret (inl (linepop + 1))) (Z.of_nat k) s =
    Ok (Some (ulen nm)) s).
  { induction j as [|j IH]; intros k Hk.
    - assert (k = length nm) as -> by lia. apply xwhile_stop.
      rewrite (xbind_ok _ _ _ _ _ (line_at (nm ++ c :: r) (length nm) s ltac:(rewrite length_app; cbn; lia) ltac:(rewrite length_app; cbn; lia))).
      rewrite app_nth2, Nat.sub_diag by lia. by destruct Hc as [->|[->| ->]].
    - erewrite xwhile_go; [apply (IH (S k)); lia|].
      rewrite (xbind_ok _ _ _ _ _ (line_at (nm ++ c :: r) k s ltac:(rewrite length_app; cbn; lia) ltac:(rewrite length_app; cbn; lia))).
      rewrite app_nth1 by lia. rewrite Forall_forall in Hnm. destruct (Hnm (nth k nm 0)) as (H1&H2&H3).
      { apply list_elem_of_In, nth_In. lia. }
      rewrite (proj2 (Z.eqb_neq _ _) H1), (proj2 (Z.eqb_neq _ _) H2), (proj2 (Z.eqb_neq _ _) H3). cbn [orb].
      unfold xret, ret. do 3 f_equal. lia. }
  eapply xwhile_more; [apply (Hgo (length nm) 0%nat); lia|]. unfold line. rewrite length_pad by (rewrite length_app; cbn; lia). lia.
Qed.
Lemma after_none l (stop : Z) (k : nat) s :
  (length l < 256)%nat -> (k <= length l)%nat -> nth k l 0 <> SPACE -> after_spaces (line l) stop (Z.of_nat k) s = Ok (Some (Z.of_nat k)) s.
Proof.
  intros Hl Hk Hc. unfold after_spaces. apply xwhile_stop. rewrite (xbind_ok _ _ _ _ _ (line_at l k s Hl Hk)).
  by rewrite (proj2 (Z.eqb_neq _ _) Hc).
Qed.
Lemma before_none l (k : nat) s :
  (length l < 256)%nat -> (k <= length l)%nat -> nth k l 0 <> SPACE -> before_spaces (line l) (Z.of_nat k) s = Ok (Some (Z.of_nat k)) s.
Proof.
  intros Hl Hk Hc. unfold before_spaces. apply xwhile_stop. rewrite (xbind_ok _ _ _ _ _ (line_at l k s Hl Hk)).
  by rewrite (proj2 (Z.eqb_neq _ _) Hc).
Qed.

(** *** Orders *)
Lemma expand_plain vs (fuel : nat) l s : (36 ∉ l) -> (length l < 256)%nat -> (256 <= fuel)%nat -> expand junk vs fuel l s = Ok (Some l) s.
Proof.
  intros Hd Hl Hf. unfold expand. match goal with |- xwhile _ ?b _ _ = _ => set (body := b) end.
  assert (Hgo : forall (j k : nat), (j + k = length l)%nat -> xwhile (S j) body (Z.of_nat k, l) s = Ok (Some l) s).
  { induction j as [|j IH]; intros k Hk.
    - apply xwhile_stop. unfold body. rewrite u32_small by lia. by rewrite (proj2 (Z.ltb_ge _ _)) by (unfold ulen; lia).
    - erewrite xwhile_go; [apply (IH (S k)); lia|]. unfold body. rewrite u32_small by lia.
      rewrite (proj2 (Z.ltb_lt _ _)) by (unfold ulen; lia). cbn [negb].
      assert (Hat : (at_ l (Z.of_nat k) =? 36) = false).
      { apply Z.eqb_neq. intros Heq. apply Hd. rewrite <- Heq. unfold at_. rewrite Nat2Z.id. apply list_elem_of_In, nth_In. lia. }
      rewrite Hat. cbn [andb negb]. unfold xret, ret. do 4 f_equal. lia. }
  eapply xwhile_more; [apply (Hgo (length l) 0%nat); lia|lia].
Qed.
Definition no_order (post : list (list Z)) : Prop :=
  match post with [] => True | b :: _ => exists l, b = line l /\ short l /\ chr l <> 9 end.
Lemma get_orders_ok vs (fuel : nat) os post : forall acc n s,
  (256 <= fuel)%nat -> Forall order_ok os -> no_order post ->
  get_orders junk vs fuel (map (fun o => line (9 :: o)) os ++ post) acc n s = Ok (Some (rev os ++ acc, n + Z.of_nat (length os))) s.
Proof using Hjunk.
  induction os as [|o os IH]; intros acc n s Hf Hos Hpost; cbn [map app get_orders length rev].
  - rewrite Z.add_0_r. destruct post as [|b post]; [done|]. destruct Hpost as (l&->&Hl&H9). cbn [get_orders].
    rewrite (xbind_ok _ _ _ _ _ (str_line l s Hl)). by rewrite (proj2 (Z.eqb_neq _ _) H9).
  - inversion Hos as [|? ? (Hn&Hne&Hd&Hlen) Hos']; subst.
    assert (Hs : short (9 :: o)) by (split; [by constructor|cbn; lia]).
    rewrite (xbind_ok _ _ _ _ _ (str_line (9 :: o) s Hs)). cbn [chr hd].
    rewrite (proj2 (Z.ltb_lt _ _)) by (unfold ulen; destruct o; [done|cbn [length]; lia]). cbn [Z.eqb Pos.eqb andb tail].
    rewrite (xbind_ok _ _ _ _ _ (expand_plain vs fuel o s Hd ltac:(lia) Hf)).
    destruct (units_enough (ulen o) ltac:(unfold ulen; lia)) as (_&Hu&_). destruct (new_block_ok (ulen o + 1) ltac:(unfold ulen; lia)) as (b&Hb&Hlb).
    pose proof (cat_first (new_block junk (ulen o + 1)) o [0] s ltac:(by rewrite Hb) Hn ltac:(lia) ltac:(rewrite Hb; unfold ulen in *; lia)) as Hcat.
    rewrite <- xbind_assoc, (xbind_ok _ _ _ _ _ Hcat). rewrite IH by done. replace (n + Z.of_nat (S (length os))) with (n + 1 + Z.of_nat (length os)) by lia. by rewrite <- app_assoc.
Qed.

(** *** One item *)
Lemma name_short l : name_ok l -> (length l < 256)%nat -> short l.
Proof. by intros (?&_). Qed.
Lemma name_copy l (r : list Z) s : name_ok l -> (length l < 256)%nat -> copy_str junk (ulen l) (l ++ r) (ulen l) s = Ok (Some l) s.
Proof.
  intros (Hn&_&Hne&_&H8) Hl. assert (0 < ulen l) by (unfold ulen; destruct l; [done|cbn [length]; lia]).
  apply copy_str_ok; [done..| |done]. by apply (units_enough (ulen l)); [lia|].
Qed.
Lemma head_short r : item_ok (Rule r) -> short (rule_head r).
Proof.
  intros (Hn&Hd&Hl&_). split; [|done]. apply Forall_app. split; [apply Hn|]. constructor; [done|].
  clear -Hd. induction Hd as [|w ws (Hw&_) _ IH]; [constructor|]. unfold spaced. cbn [map concat]. apply Forall_app. split; [by constructor|done].
Qed.
(** The start of a line up to its name. *)
Lemma parse_name (fuel : nat) (lines : list (list Z)) (k : nat) (p : parsed) nm c (r : list Z) s :
  lines !! k = Some (line (nm ++ c :: r)) -> name_ok nm -> c = 58 \/ c = 61 -> short (nm ++ c :: r) ->
  parse_line junk fuel lines (Z.of_nat k) p s =
  (if c =? 58 then rule junk fuel lines (Z.of_nat k) (ulen nm) (nm ++ c :: r) nm p
   else p <- value junk (line (nm ++ c :: r)) (nm ++ c :: r) (ulen nm) nm p;; xret (Z.of_nat k + 1, p)) s.
Proof.
  intros Hk Hnm Hc Hs. pose proof Hs as [_ Hl]. assert (Hln : (length nm < 256)%nat) by (rewrite length_app in Hl; lia).
  unfold parse_line. rewrite (xbind_ok _ _ _ _ _ (get_at _ _ _ Hk)), (xbind_ok _ _ _ _ _ (str_line _ s Hs)).
  rewrite (proj2 (Z.eqb_neq _ _)) by (unfold ulen; rewrite length_app; cbn [length]; lia).
  pose proof Hnm as (_&Hsep&_). rewrite (xbind_ok _ _ _ _ _ (name_end_ok nm c r s Hsep ltac:(tauto) Hl)).
  assert (Hcp : copy_str junk (ulen nm) (line (nm ++ c :: r)) (ulen nm) s = Ok (Some nm) s).
  { unfold line, pad. rewrite <- app_assoc. by apply name_copy. }
  rewrite (xbind_ok _ _ _ _ _ Hcp). assert (Hnth : nth (length nm) (nm ++ c :: r) 0 = c) by (by rewrite app_nth2, Nat.sub_diag by lia).
  rewrite (xbind_ok _ _ _ _ _ (after_none (nm ++ c :: r) (ulen (nm ++ c :: r) - 1) (length nm) s Hl ltac:(rewrite length_app; lia) ltac:(rewrite Hnth; unfold SPACE; lia))).
  fold (ulen nm). rewrite (proj2 (Z.ltb_lt _ _)) by (unfold ulen; rewrite length_app; cbn [length]; lia). cbn [negb].
  unfold at_, ulen at 1 3. rewrite Nat2Z.id, Hnth. destruct Hc as [->| ->]; done.
Qed.
Lemma deps_short r : item_ok (Rule r) -> Forall short (rev (r_deps r)).
Proof.
  intros (_&Hd&Hl&_). apply Forall_rev. unfold rule_head in Hl. rewrite length_app in Hl. cbn [length] in Hl.
  assert (H : (length (spaced (r_deps r)) < 256)%nat) by lia. clear Hl. induction Hd as [|w ws (Hn&_) _ IH]; [constructor|].
  unfold spaced in H. cbn [map concat] in H. rewrite length_app in H. cbn [length] in H. constructor; [split; [done|lia]|]. apply IH. unfold spaced. lia.
Qed.
Lemma parse_rule (fuel : nat) (lines pre post : list (list Z)) (p : parsed) r s :
  (256 <= fuel)%nat -> item_ok (Rule r) -> lines = pre ++ item_lines (Rule r) ++ post -> no_order post ->
  parse_line junk fuel lines (Z.of_nat (length pre)) p s =
  Ok (Some (Z.of_nat (length (pre ++ item_lines (Rule r))), add_item (Rule r) p)) s.
Proof using Hjunk.
  intros Hf Hok Hlines Hpost. pose proof Hok as (Hnm&Hd&Hl&Hos).
  assert (Hk : lines !! length pre = Some (line (rule_head r))) by (subst lines; by rewrite lookup_app_r, Nat.sub_diag by lia).
  rewrite (parse_name fuel lines (length pre) p (r_name r) 58 (spaced (r_deps r)) s Hk Hnm ltac:(by left) (head_short r Hok)).
  cbn [Z.eqb Pos.eqb]. unfold rule. assert (Hln : (length (r_name r) < 256)%nat) by (unfold rule_head in Hl; rewrite length_app in Hl; lia).
  rewrite (xbind_ok _ _ _ _ _ (name_copy (r_name r) [0] s Hnm Hln)).
  replace (r_name r ++ 58 :: spaced (r_deps r)) with ((r_name r ++ [58]) ++ spaced (r_deps r)) by (by rewrite <- app_assoc).
  replace (ulen (r_name r) + 1) with (ulen (r_name r ++ [58])) by (unfold ulen; rewrite length_app; cbn [length]; lia).
  rewrite (xbind_ok _ _ _ _ _ (getsplitlist_ok (r_name r ++ [58]) (r_deps r) s Hd)).
  rewrite (xbind_ok _ _ _ _ _ (copies_ok (rev (r_deps r)) s (deps_short r Hok))).
  assert (Hdrop : drop (Z.to_nat (Z.of_nat (length pre) + 1)) lines = map (fun o => line (9 :: o)) (r_orders r) ++ post).
  { replace (Z.to_nat (Z.of_nat (length pre) + 1)) with (length pre + 1)%nat by lia. subst lines. rewrite drop_app_ge by lia.
    replace (length pre + 1 - length pre)%nat with 1%nat by lia. done. }
  rewrite Hdrop, (xbind_ok _ _ _ _ _ (get_orders_ok (p_values p) fuel (r_orders r) post [] 0 s Hf Hos Hpost)), app_nil_r. cbv beta iota.
  assert (Hso : Forall short (rev (r_orders r))).
  { apply Forall_rev. eapply Forall_impl; [exact Hos|]. intros o (Hn&_&_&Hlo). split; [done|lia]. }
  rewrite (xbind_ok _ _ _ _ _ (copies_ok (rev (r_orders r)) s Hso)). unfold xret, ret. rewrite length_app. cbn [item_lines length].
  rewrite length_map, length_rev. do 3 f_equal. lia.
Qed.
Lemma parse_value (fuel : nat) (lines pre post : list (list Z)) (p : parsed) x data s :
  item_ok (Value x data) -> lines = pre ++ item_lines (Value x data) ++ post ->
  parse_line junk fuel lines (Z.of_nat (length pre)) p s =
  Ok (Some (Z.of_nat (length (pre ++ item_lines (Value x data))), add_item (Value x data) p)) s.
Proof.
  intros (Hx&Hn&Hne&Hc&Hlast&Hl) Hlines. set (l := x ++ 61 :: data) in *.
  assert (Hs : short l) by (split; [|done]; apply Forall_app; split; [apply Hx|by constructor]).
  assert (Hk : lines !! length pre = Some (line l)) by (subst lines; by rewrite lookup_app_r, Nat.sub_diag by lia).
  rewrite (parse_name fuel lines (length pre) p x 61 data s Hk Hx ltac:(by right) Hs). fold l. cbn [Z.eqb Pos.eqb]. unfold value.
  assert (Hll : length l = (length x + 1 + length data)%nat) by (unfold l; rewrite length_app; cbn [length]; lia).
  assert (Hcp : copy_str junk (ulen x) (line l) (ulen x) s = Ok (Some x) s).
  { unfold line, pad, l. rewrite <- app_assoc. apply name_copy; [done|lia]. }
  assert (Hdat : forall k : nat, nth (length x + 1 + k) l 0 = nth k data 0).
  { intros k. unfold l. rewrite app_nth2 by lia. by replace (length x + 1 + k - length x)%nat with (S k) by lia. }
  assert (H1 : nth (length x + 1) l 0 <> SPACE) by (rewrite <- (Nat.add_0_r (length x + 1)), Hdat; by destruct data).
  assert (H2 : nth (length l - 1) l 0 <> SPACE).
  { destruct (exists_last Hne) as (d'&e&Hde). rewrite Hde, last_last in Hlast. pose proof (f_equal length Hde) as Hld. rewrite length_app in Hld. cbn [length] in Hld.
    replace (length l - 1)%nat with (length x + 1 + length d')%nat by lia. by rewrite Hdat, Hde, app_nth2, Nat.sub_diag by lia. }
  rewrite xbind_assoc, (xbind_ok _ _ _ _ _ Hcp), xbind_assoc.
  replace (ulen x + 1) with (Z.of_nat (length x + 1)) by (unfold ulen; lia).
  rewrite (xbind_ok _ _ _ _ _ (after_none l (ulen (line l)) (length x + 1) s Hl ltac:(lia) H1)), xbind_assoc.
  assert (length data <> 0)%nat by (by destruct data).
  replace (ulen l - 1) with (Z.of_nat (length l - 1)) by (unfold ulen; lia).
  rewrite (xbind_ok _ _ _ _ _ (before_none l (length l - 1) s Hl ltac:(lia) H2)). cbv zeta.
  rewrite (proj2 (Z.leb_gt _ _)) by lia. cbn [item_lines]. unfold xbind, bind, xret, ret. rewrite length_app. cbn [length add_item]. do 3 f_equal; [lia|].
  do 3 f_equal. replace (Z.to_nat _) with (length data) by lia. rewrite Nat2Z.id. unfold line, pad, l.
  rewrite <- app_assoc, drop_app_ge by lia. replace (length x + 1 - length x)%nat with 1%nat by lia. cbn [drop app]. by rewrite drop_0, take_app_length.
Qed.
Lemma parse_blank (fuel : nat) (lines pre post : list (list Z)) (p : parsed) s :
  lines = pre ++ item_lines Blank ++ post ->
  parse_line junk fuel lines (Z.of_nat (length pre)) p s = Ok (Some (Z.of_nat (length (pre ++ item_lines Blank)), p)) s.
Proof.
  intros Hlines. assert (Hk : lines !! length pre = Some (line [])) by (subst lines; by rewrite lookup_app_r, Nat.sub_diag by lia).
  assert (Hs : short []) by (split; [constructor|cbn; lia]).
  unfold parse_line. rewrite (xbind_ok _ _ _ _ _ (get_at _ _ _ Hk)), (xbind_ok _ _ _ _ _ (str_line _ s Hs)). rewrite length_app. cbn [item_lines length].
  by replace (Z.of_nat (length pre + 1)) with (Z.of_nat (length pre) + 1) by lia.
Qed.
Definition file_lines (its : list item) : list (list Z) := concat (map item_lines its).
Lemma file_no_order its : Forall item_ok its -> no_order (file_lines its).
Proof.
  intros Hits. destruct its as [|it its]; [done|]. inversion Hits as [|? ? Hit _]; subst. unfold file_lines. cbn [map concat].
  destruct it as [|x data|r]; cbn [item_lines app no_order].
  - exists []. split_and!; [done|split; [constructor|cbn; lia]|done].
  - destruct Hit as (Hx&Hn&_&_&_&Hl). exists (x ++ 61 :: data). split_and!; [done| |destruct x; by destruct Hx as (_&_&?&?&_)].
    split; [|done]. apply Forall_app. split; [apply Hx|by constructor].
  - exists (rule_head r). split_and!; [done|by apply head_short|]. destruct Hit as ((_&_&Hne&H9&_)&_). unfold rule_head. by destruct (r_name r).
Qed.
Lemma file_lines_text its : file_lines its = map line (file_text its).
Proof.
  unfold file_lines, file_text. induction its as [|it its IH]; [done|]. cbn [map concat]. rewrite map_app, IH. f_equal.
  destruct it; [done|done|]. cbn. by rewrite map_map.
Qed.
Lemma text_short its : Forall item_ok its -> Forall short (file_text its).
Proof.
  induction 1 as [|it its Hit _ IH]; [constructor|]. unfold file_text. cbn [map concat]. apply Forall_app. split; [|exact IH].
  destruct it as [|x data|r]; cbn [item_text].
  - constructor; [split; [constructor|cbn; lia]|constructor].
  - constructor; [|constructor]. destruct Hit as (Hx&Hn&_&_&_&Hl). split; [|done]. apply Forall_app. split; [apply Hx|by constructor].
  - constructor; [by apply head_short|]. destruct Hit as (_&_&_&Hos). apply Forall_map. eapply Forall_impl; [exact Hos|].
    intros o (Hn&_&_&Hl). split; [by constructor|cbn; lia].
Qed.
(** The lines of a makefile give its rules, the last one first, each with its
    dependencies and its orders from the last to the first. *)
Lemma parse_ok (fuel : nat) its root s :
  (256 <= fuel)%nat -> Forall item_ok its ->
  parse junk fuel (file_lines its) root s = Ok (Some (fold_left (fun p it => add_item it p) its (mkParsed [] [] root))) s.
Proof using Hjunk.
  intros Hf Hits. unfold parse.
  assert (Hgo : forall its' pre p, file_lines its = pre ++ file_lines its' -> Forall item_ok its' ->
    xwhile (S (length its')) (fun '(pop, p) => if negb (pop <=? Z.of_nat (length (file_lines its)) - 1) then xret (inr p) else
      r <- parse_line junk fuel (file_lines its) pop p;; xret (inl r)) (Z.of_nat (length pre), p) s =
    Ok (Some (fold_left (fun p it => add_item it p) its' p)) s).
  { induction its' as [|it its' IH]; intros pre p Heq Hok.
    - apply xwhile_stop. rewrite Heq. unfold file_lines at 1. cbn [map concat]. rewrite app_nil_r. by rewrite (proj2 (Z.leb_gt _ _)) by lia.
    - inversion Hok as [|? ? Hit Hok']; subst. assert (Heq' : file_lines its = pre ++ item_lines it ++ file_lines its') by done.
      assert (Hne : (1 <= length (item_lines it))%nat) by (destruct it; cbn; lia).
      erewrite xwhile_go; [apply (IH (pre ++ item_lines it)); [by rewrite Heq', app_assoc|done]|].
      rewrite (proj2 (Z.leb_le _ _)) by (rewrite Heq', !length_app; lia). cbn [negb].
      assert (Hp : parse_line junk fuel (file_lines its) (Z.of_nat (length pre)) p s =
        Ok (Some (Z.of_nat (length (pre ++ item_lines it)), add_item it p)) s).
      { destruct it; [by eapply parse_blank|by eapply parse_value|eapply parse_rule; [done..|by apply file_no_order]]. }
      by rewrite (xbind_ok _ _ _ _ _ Hp). }
  eapply xwhile_more; [apply (Hgo its [] (mkParsed [] [] root)); done|].
  clear. unfold file_lines. induction its as [|it its IH]; [done|]. cbn [map concat length]. rewrite length_app. destruct it; cbn [item_lines length]; lia.
Qed.

(** ** Reading *)
Definition fits (L : list (list Z)) : Prop := (length L <= 512)%nat /\ Forall short L.
Lemma short_prefix l (r : list Z) : short (l ++ r) -> short l.
Proof. intros [Hn Hl]. apply Forall_app in Hn as [? _]. rewrite length_app in Hl. split; [done|lia]. Qed.
Lemma fits_prefix (f g : list Z) : fits (lines_of (f ++ g)) -> fits (lines_of f).
Proof.
  destruct (lines_of_last f) as (P&l&Hf). destruct (lines_of_cons g) as (l'&ls&Hg).
  rewrite (lines_of_app f g P l l' ls Hf Hg), Hf. intros [Hl HL]. rewrite length_app in Hl. cbn in Hl.
  apply Forall_app in HL as [HP Hr]. inversion Hr as [|? ? Hs _]; subst. split; [rewrite length_app; cbn; lia|].
  apply Forall_app_2; [done|]. constructor; [by eapply short_prefix|done].
Qed.
Lemma cat_line l (src : list Z) (n : nat) s :
  short (l ++ take n src) -> (n <= length src)%nat -> strcat_n (line l) src (Z.of_nat n) s = Ok (Some (line (l ++ take n src))) s.
Proof.
  intros Hs Hn. pose proof (short_prefix _ _ Hs) as Hl. unfold strcat_n, cat_n. destruct (Z.leb_spec (Z.of_nat n) 0).
  { assert (n = 0%nat) as -> by lia. cbn [take]. by rewrite app_nil_r. }
  rewrite (xbind_ok _ _ _ _ _ (str_line l s Hl)). destruct Hs as [_ Hlen]. rewrite length_app, length_take in Hlen. cbv zeta.
  unfold MAX_LINE_LENGTH. rewrite (proj2 (Z.leb_gt 256 _)), (proj2 (Z.leb_le _ (Z.of_nat (length src)))) by lia.
  assert (Hll : length (line l) = 256%nat) by (apply length_pad; destruct Hl; lia).
  rewrite (proj2 (Z.ltb_lt _ _)) by lia. cbn [andb]. unfold xret, ret. do 2 f_equal. rewrite Nat2Z.id.
  rewrite splice_app_eq; [|lia|rewrite length_app, length_take, Hll; cbn [length]; lia]. rewrite Nat2Z.id.
  unfold line, pad. rewrite take_app_length, <- !app_assoc. do 2 f_equal. rewrite !length_app, drop_app_ge, drop_replicate by lia. cbn [length].
  replace (256 - (length l + length (take n src)))%nat with (S (256 - (length l + length (take n src)) - 1)) by (rewrite length_take; lia).
  cbn [replicate app]. do 2 f_equal. lia.
Qed.
Lemma line_nil : cleared junk MAX_LINE_LENGTH = line [].
Proof.
  unfold cleared. pose proof (length_new_block MAX_LINE_LENGTH) as Hl. rewrite splice_app_eq; [|lia|rewrite Hl; unfold zeros; rewrite length_replicate; done].
  cbn [Z.to_nat take app]. unfold zeros at 2. rewrite length_replicate. rewrite drop_ge by (rewrite Hl; done). by rewrite app_nil_r.
Qed.
Lemma read_chunk_ok (f b : list Z) s :
  b <> [] -> fits (lines_of (f ++ b)) ->
  read_chunk junk b (map line (lines_of f)) s = Ok (Some (map line (lines_of (f ++ b)), false)) s.
Proof.
  intros Hb Hok. unfold read_chunk. cbv zeta. match goal with |- xwhile _ ?x _ _ = _ => set (body := x) end.
  assert (Hgo : forall (m next : nat), (length b - next < m)%nat -> (next < length b)%nat ->
    xwhile m body (Z.of_nat next, map line (lines_of (f ++ take next b))) s = Ok (Some (map line (lines_of (f ++ b)), false)) s);
    [|change 0 with (Z.of_nat 0); rewrite <- (Hgo (S (length b)) 0%nat); [cbn [take]; by rewrite app_nil_r|lia|destruct b; [done|cbn; lia]]].
  induction m as [|m IH]; intros next Hm Hn; [lia|]. set (k := newline_at (drop next b)).
  destruct (newline_split (drop next b)) as (Hnl&Hat&Hk). fold k in Hnl, Hat, Hk. rewrite length_drop in Hat, Hk.
  set (g := f ++ take next b) in *. set (t := take k (drop next b)) in *.
  assert (Hgt : f ++ take (next + k) b = g ++ t) by (unfold g, t; rewrite <- app_assoc; f_equal; symmetry; apply take_take_drop).
  assert (Hok1 : fits (lines_of (g ++ t))).
  { rewrite <- Hgt. rewrite <- (take_drop (next + k) b), app_assoc in Hok. by eapply fits_prefix. }
  destruct (lines_of_last g) as (P&l&Hg). pose proof (lines_of_app g t P l t [] Hg (lines_of_plain t Hnl)) as Hgt'.
  destruct Hok1 as [HlP HLP]. rewrite Hgt' in HlP, HLP. rewrite length_app in HlP. cbn in HlP.
  assert (Hlt : short (l ++ t)) by (apply Forall_app in HLP as [_ HLP]; by inversion HLP).
  assert (Hstep : body (Z.of_nat next, map line (lines_of g)) s =
    (if (Z.of_nat (next + k) <? ulen b) && (MAX_LINE_NUMBER - 1 <=? Z.of_nat (length P)) || (ulen b - 1 <=? Z.of_nat (next + k))
     then xret (inr (if (Z.of_nat (next + k) <? ulen b) && negb ((Z.of_nat (next + k) <? ulen b) && (MAX_LINE_NUMBER - 1 <=? Z.of_nat (length P)))
                     then map line (lines_of (g ++ t)) ++ [line []] else map line (lines_of (g ++ t)),
                     (Z.of_nat (next + k) <? ulen b) && (MAX_LINE_NUMBER - 1 <=? Z.of_nat (length P))))
     else xret (inl (Z.of_nat (next + k) + 1,
                     if (Z.of_nat (next + k) <? ulen b) && negb ((Z.of_nat (next + k) <? ulen b) && (MAX_LINE_NUMBER - 1 <=? Z.of_nat (length P)))
                     then map line (lines_of (g ++ t)) ++ [line []] else map line (lines_of (g ++ t))))) s).
  { unfold body. cbv beta iota zeta. rewrite Nat2Z.id. fold k. rewrite Hg, map_app, length_app. cbn [map length]. rewrite length_map.
    replace (Z.of_nat (length P + 1) - 1) with (Z.of_nat (length P)) by lia.
    rewrite (xbind_ok _ _ _ _ _ (get_at (map line P ++ [line l]) (length P) (line l) ltac:(by rewrite lookup_app_r, length_map, Nat.sub_diag by (rewrite length_map; lia)))).
    replace (Z.of_nat next + Z.of_nat k - Z.of_nat next) with (Z.of_nat k) by lia.
    rewrite (xbind_ok _ _ _ _ _ (cat_line l (drop next b) k s Hlt ltac:(rewrite length_drop; lia))). fold t.
    assert (Hset : xset (map line P ++ [line l]) (Z.of_nat (length P)) (line (l ++ t)) s = Ok (Some (map line (lines_of (g ++ t)))) s).
    { unfold xset, up, bind, aset, inb. rewrite length_app, length_map. cbn [length]. rewrite (proj2 (Z.leb_le _ _)), (proj2 (Z.ltb_lt _ _)) by lia.
      cbn. rewrite Nat2Z.id, Hgt', map_app, insert_app_r_alt by (rewrite length_map; lia). by rewrite length_map, Nat.sub_diag. }
    rewrite (xbind_ok _ _ _ _ _ Hset), line_nil. by rewrite <- Nat2Z.inj_add. }
  destruct (Z.ltb_spec (Z.of_nat (next + k)) (ulen b)) as [Hin|Hout].
  - unfold ulen in Hin. specialize (Hat ltac:(lia)). rewrite lookup_drop in Hat.
    assert (Hg2 : f ++ take (S (next + k)) b = (g ++ t) ++ [NL]) by (by rewrite (take_S_r _ _ _ Hat), app_assoc, Hgt).
    assert (Hok2 : fits (lines_of ((g ++ t) ++ [NL]))).
    { rewrite <- Hg2. rewrite <- (take_drop (S (next + k)) b), app_assoc in Hok. by eapply fits_prefix. }
    pose proof (lines_of_app (g ++ t) [NL] P (l ++ t) [] [[]] Hgt' eq_refl) as Hnext. rewrite app_nil_r in Hnext.
    rewrite Hnext in Hok2. destruct Hok2 as [Hl2 _]. rewrite length_app in Hl2. cbn in Hl2.
    assert (Htext : map line (lines_of (g ++ t)) ++ [line []] = map line (lines_of (f ++ take (S (next + k)) b))).
    { rewrite Hg2, Hnext, Hgt'. rewrite !map_app, <- app_assoc. done. }
    unfold MAX_LINE_NUMBER in Hstep. rewrite (proj2 (Z.leb_gt (512 - 1) _)) in Hstep by lia. cbn [andb orb negb] in Hstep. rewrite Htext in Hstep.
    destruct (Z.leb_spec (ulen b - 1) (Z.of_nat (next + k))) as [Hend|Hmore]; unfold ulen in *.
    + rewrite (xwhile_stop _ _ _ _ _ _ Hstep). by rewrite (take_ge b) by lia.
    + rewrite (xwhile_go _ _ _ _ _ _ Hstep). replace (Z.of_nat (next + k) + 1) with (Z.of_nat (S (next + k))) by lia. apply IH; lia.
  - unfold ulen in *. cbn [andb orb] in Hstep. rewrite (proj2 (Z.leb_le _ _)) in Hstep by lia. rewrite (xwhile_stop _ _ _ _ _ _ Hstep).
    rewrite <- Hgt, (take_ge b) by lia. done.
Qed.
Lemma read_chunks_ok (chunks : list (list Z)) : forall f s,
  Forall (fun b => b <> []) chunks -> fits (lines_of (f ++ concat chunks)) ->
  read_chunks junk chunks (map line (lines_of f)) s = Ok (Some (map line (lines_of (f ++ concat chunks)))) s.
Proof.
  induction chunks as [|b chunks IH]; intros f s Hc Hok; cbn [read_chunks concat] in *; [by rewrite app_nil_r|].
  inversion Hc; subst. rewrite app_assoc in Hok. rewrite (xbind_ok _ _ _ _ _ (read_chunk_ok f b s ltac:(done) (fits_prefix _ _ Hok))).
  cbv beta iota. by rewrite IH, app_assoc.
Qed.
Lemma reads_ok (n : nat) : forall f, (length f <= n)%nat -> Forall (fun b => b <> []) (reads n f) /\ concat (reads n f) = f.
Proof.
  induction n as [|n IH]; intros f Hf; cbn [reads]; [by destruct f; cbn in Hf; [|lia]|]. destruct f as [|c f]; [done|].
  destruct (IH (drop (Z.to_nat BUF_SIZE) (c :: f))) as [H1 H2].
  { rewrite length_drop. cbn [length] in *. change (Z.to_nat BUF_SIZE) with 256%nat. lia. }
  split; [constructor; [done|done]|]. cbn [concat]. by rewrite H2, take_drop.
Qed.
Lemma read_file_ok (f : list Z) s :
  fits (lines_of f) -> read_chunks junk (reads (length f) f) [cleared junk MAX_LINE_LENGTH] s = Ok (Some (map line (lines_of f))) s.
Proof.
  intros Hf. destruct (reads_ok (length f) f ltac:(lia)) as [Hne Hcat]. rewrite line_nil.
  pose proof (read_chunks_ok (reads (length f) f) [] s Hne) as H. cbn [app] in H. rewrite Hcat in H. by apply H.
Qed.
End make.
