(* ===== verification/MakeBuild.v ===== *)
(** make: making a target. *)
From S2P Require Import Prelude Params Str Ulib Lines Exit Make MakeThms.
Open Scope x_scope.

Implicit Types (l w d o : list Z) (s : mk) (es : list entry).

(** ** The directory *)
Fixpoint file_names es : list (list Z) :=
  match es with
  | [] => []
  | de :: es =>
      if de_inum de =? 0 then file_names es else
      match st_type de with
      | Some t => if (t =? 2) || (t =? 1) then listed (chars "./" ++ cstr (de_name de)) :: file_names es else file_names es
      | None => file_names es
      end
  end.
(** Every entry has a type, and the list of names has room for them. *)
Definition dir_ok es : Prop :=
  Forall (fun de => de_inum de = 0 \/ is_Some (st_type de)) es /\ (length (file_names es) <= 100)%nat.

Lemma cut_spaces_ok (n : nat) l : chr l <> SPACE -> cut_spaces (replicate n SPACE ++ l) = l.
Proof.
  intros Hl. induction n as [|n IH]; [|exact IH]. cbn [replicate app]. destruct l as [|c l]; [done|]. cbn in Hl |- *.
  by rewrite (proj2 (Z.eqb_neq _ _) Hl).
Qed.
(** A name of a directory entry is listed as it is. *)
Lemma listed_name l : (47 ∉ l) -> (length l <= 14)%nat -> List.last l 0 <> SPACE -> listed (chars "./" ++ l) = l.
Proof.
  intros Hsl Hl Hlast. unfold listed, fmtname.
  assert (last_part (chars "./" ++ l) = l) as ->.
  { cbn. assert (existsb (Z.eqb 47) l = false) as ->; [|done]. apply not_true_is_false. intros (x&Hx&Heq%Z.eqb_eq)%existsb_exists. subst x.
    by apply Hsl, list_elem_of_In. }
  rewrite rev_app_distr, (rev_alt (replicate _ _)). change (rev_append ?x []) with (reverse x). rewrite reverse_replicate, cut_spaces_ok, rev_involutive; [done|].
  destruct l as [|c l]; [done|]. destruct (exists_last (l := c :: l)) as (l'&e&He); [done|]. rewrite He in Hlast |- *.
  rewrite rev_app_distr. rewrite last_last in Hlast. done.
Qed.
Lemma list_entries_ok es : forall (acc : list (list Z)) s,
  Forall (fun de => de_inum de = 0 \/ is_Some (st_type de)) es -> (length acc + length (file_names es) <= 100)%nat ->
  list_entries es acc s = Ok (Some (acc ++ file_names es)) s.
Proof.
  induction es as [|de es IH]; intros acc s Hes Hl; cbn [list_entries file_names] in *; [by rewrite app_nil_r|].
  inversion Hes as [|? ? Hd Hes']; subst. destruct (Z.eqb_spec (de_inum de) 0); [by apply IH|]. destruct Hd as [|[t Ht]]; [done|].
  rewrite Ht in *. destruct ((t =? 2) || (t =? 1)); [|by apply IH]. cbn [length] in Hl.
  rewrite (proj2 (Z.leb_gt 100 _)) by lia. rewrite IH; [by rewrite <- app_assoc|done|rewrite length_app; cbn [length]; lia].
Qed.
Lemma getcmdlist_ok es s : m_dir s = Some es -> dir_ok es -> getcmdlist s = Ok (Some (file_names es)) s.
Proof.
  intros Hd [H1 H2]. unfold getcmdlist, the, up. unfold xbind at 1, bind at 1 2, gets, ret. rewrite Hd.
  change (xbind (need (Some ?x)) ?f s) with (f x s). cbv beta. by apply list_entries_ok.
Qed.

(** ** Commands *)
(** The parts of a string between the characters [c]. *)
Fixpoint fields (c : Z) l : list (list Z) :=
  match l with
  | [] => [[]]
  | e :: l => if e =? c then [] :: fields c l else match fields c l with w :: ws => (e :: w) :: ws | [] => [[e]] end
  end.
Lemma fields_joined c l : exists w ws, fields c l = w :: ws /\ l = joined c w ws.
Proof.
  induction l as [|e l (w&ws&Hf&Hj)]; cbn [fields]; [by exists [], []|]. rewrite Hf. destruct (Z.eqb_spec e c) as [->|He].
  - exists [], (w :: ws). split; [done|]. by rewrite Hj.
  - exists (e :: w), ws. split; [done|]. by rewrite Hj.
Qed.
(** Words with one space between them, none with a quote or longer than 15
    characters. *)
Definition cmd_ok o : Prop := Forall (piece 15 SPACE) (fields SPACE o) /\ (length (fields SPACE o) <= 255)%nat.

Section build.
Variable run : list (list Z) -> list entry -> option (list entry).
(** What orders leave in the directory. *)
Fixpoint effect (os : list (list Z)) es : option (list entry) :=
  match os with [] => Some es | o :: os => run (fields SPACE o) es ≫= effect os end.
Definition echo (os : list (list Z)) : list Z := concat (map (fun o => o ++ [NL]) os).
(** The state after the orders [os] that left [es]. *)
Definition after (os : list (list Z)) es s : mk := mkMk (m_out s ++ echo os) (m_runs s ++ map (fields SPACE) os) (Some es).
Lemma after_app (os os' : list (list Z)) es es' s : after os' es' (after os es s) = after (os ++ os') es' s.
Proof. unfold after, echo. cbn. by rewrite map_app, concat_app, map_app, <- !app_assoc. Qed.

Lemma runcomand_ok o es es' s : cmd_ok o -> m_dir s = Some es -> run (fields SPACE o) es = Some es' ->
  runcomand run o s = Ok (Some tt) (mkMk (m_out s) (m_runs s ++ [fields SPACE o]) (Some es')).
Proof.
  intros [Hp Hn] Hd Hr. destruct (fields_joined SPACE o) as (w&ws&Hf&Hj). rewrite Hf in *. cbn [length] in Hn.
  assert (Hp' : Forall (piece 16 SPACE) (w :: ws)) by (eapply Forall_impl; [exact Hp|]; intros x (?&?&?&?); split_and!; [done..|lia]).
  unfold runcomand, split. rewrite Hj at 1.
  rewrite (xbind_ok _ _ _ _ _ (split_words 16 256 SPACE w ws [] s ltac:(lia) ltac:(done) Hp')). cbv beta iota.
  rewrite (proj2 (Z.ltb_lt _ _)) by (rewrite length_map; cbn [length]; lia).
  assert (Hs : Forall (fun w => nonzero w /\ (length w < 16)%nat) (w :: ws)).
  { eapply Forall_impl; [exact Hp|]. intros x (_&?&_&?). split; [done|lia]. }
  rewrite (xbind_ok _ _ _ _ _ (strs_pad 16 (w :: ws) s Hs)). unfold the, up. unfold xbind at 1, bind at 1 2, gets, ret. rewrite Hd. cbn [default from_option id].
  by rewrite Hr.
Qed.
Lemma run_orders_ok os : forall es es' s, Forall cmd_ok os -> m_dir s = Some es -> effect os es = Some es' ->
  run_orders run os s = Ok (Some tt) (after os es' s).
Proof.
  induction os as [|o os IH]; intros es es' s Hos Hd He; cbn [run_orders effect] in *.
  - injection He as <-. unfold after, echo. cbn. rewrite !app_nil_r, <- Hd. by destruct s.
  - inversion Hos as [|? ? Ho Hos']; subst. destruct (run (fields SPACE o) es) as [es1|] eqn:Hr; [|done]. cbn in He.
    assert (Hpr : print (chars "%s" ++ [NL]) [UStr (Some o)] s = Ok (Some tt) (mkMk (m_out s ++ o ++ [NL]) (m_runs s) (m_dir s))) by done.
    rewrite (xbind_ok _ _ _ _ _ Hpr). rewrite (xbind_ok _ _ _ _ _ (runcomand_ok o es es1 (mkMk (m_out s ++ o ++ [NL]) (m_runs s) (m_dir s)) Ho Hd Hr)).
    cbn [m_out m_runs]. rewrite (IH es1 es' (mkMk (m_out s ++ o ++ [NL]) (m_runs s ++ [fields SPACE o]) (Some es1)) Hos' eq_refl He). unfold after, echo. cbn. by rewrite <- !app_assoc.
Qed.
Lemma same_refl l : same l l = true.
Proof. unfold same. induction l as [|c l IH]; [done|]. cbn. by rewrite Z.eqb_refl. Qed.
Lemma same_eq l l' : bytes l -> bytes l' -> nonzero l -> nonzero l' -> same l l' = true -> l = l'.
Proof. intros H1 H2 H3 H4 H%Z.eqb_eq. by apply ustrcmp_eq. Qed.
Lemma check_ok (files ds : list (list Z)) s : Forall (fun d => d ∈ files) ds -> check_depends files ds s = Ok (Some tt) s.
Proof.
  induction 1 as [|d ds Hd _ IH]; [done|]. cbn [check_depends]. assert (has_file files d = true) as ->; [|done].
  apply existsb_exists. exists d. split; [by apply list_elem_of_In|apply same_refl].
Qed.

(** ** Targets *)
Section tree.
(** The rules, with different names; a rank of the names that goes down to
    what a target depends on; the files that are there at the start; what
    the commands keep of the directory. *)
Variables (rs : list rule_src) (rank : list Z -> nat) (base : list (list Z)) (inv : list entry -> Prop).
Definition find_rule d : option rule_src := List.find (fun r => bool_decide (r_name r = d)) rs.
Record good_rules : Prop := {
  gr_names : NoDup (map r_name rs);
  gr_bytes : forall r, r ∈ rs -> bytes (r_name r) /\ nonzero (r_name r) /\ Forall (fun d => bytes d /\ nonzero d) (r_deps r);
  gr_orders : forall r, r ∈ rs -> Forall cmd_ok (r_orders r);
  gr_rank : forall r d, r ∈ rs -> d ∈ r_deps r -> is_Some (find_rule d) -> (rank d < rank (r_name r))%nat;
  gr_base : forall r d, r ∈ rs -> d ∈ r_deps r -> find_rule d = None -> d ∈ base;
  gr_inv : forall es, inv es -> dir_ok es;
  (** The orders of a rule whose dependencies are there make its target and
      remove nothing. *)
  gr_makes : forall r es, r ∈ rs -> inv es -> base ⊆ file_names es -> r_deps r ⊆ file_names es ->
    exists es', effect (rev (r_orders r)) es = Some es' /\ inv es' /\ file_names es ⊆ file_names es' /\ r_name r ∈ file_names es' }.
Hypothesis Hrs : good_rules.

(** The orders for a target: those of what it depends on, from its last
    dependency to the first, and then its own, from the last to the first. *)
Fixpoint plan (f : nat) d : list (list Z) :=
  match f with
  | O => []
  | S f => match find_rule d with Some r => concat (map (plan f) (rev (r_deps r))) ++ rev (r_orders r) | None => [] end
  end.

Definition unlinked : list NODE := rev (map node_of rs).
Definition nodes : list NODE := map (link unlinked) unlinked.
Lemma find_rule_Some d r : find_rule d = Some r -> r ∈ rs /\ r_name r = d.
Proof. intros [Hin Hd]%List.find_some. split; [by apply list_elem_of_In|by apply bool_decide_eq_true_1 in Hd]. Qed.
Lemma find_rule_in r : r ∈ rs -> find_rule (r_name r) = Some r.
Proof.
  intros Hr. unfold find_rule. destruct (List.find _ rs) as [r'|] eqn:Hf.
  - apply List.find_some in Hf as [Hin Hn%bool_decide_eq_true_1]. f_equal. apply list_elem_of_In in Hin.
    apply list_elem_of_lookup in Hr as [i Hi]. apply list_elem_of_lookup in Hin as [j Hj].
    assert (i = j) as ->; [|congruence]. apply (NoDup_lookup (map r_name rs) i j (r_name r)); [apply Hrs|..].
    + by rewrite list_lookup_fmap, Hi.
    + rewrite list_lookup_fmap, Hj. cbn. by rewrite Hn.
  - exfalso. apply list_elem_of_In in Hr. pose proof (List.find_none _ _ Hf r Hr) as Hn. cbn in Hn. by rewrite bool_decide_eq_true_2 in Hn.
Qed.
Lemma unlinked_rule (i : nat) n : unlinked !! i = Some n -> exists r, r ∈ rs /\ n = node_of r.
Proof.
  intros Hi. apply list_elem_of_lookup_2, list_elem_of_In in Hi. unfold unlinked in Hi. rewrite <- List.in_rev in Hi.
  apply List.in_map_iff in Hi as (r&<-&Hr). exists r. by split; [apply list_elem_of_In|].
Qed.
Lemma last_named_spec (N : list NODE) d : forall (i : nat) r, (forall n, n ∈ N -> same (name n) d = true -> name n = d) ->
  match last_named N d i r with
  | Some k => r = Some k \/ exists n, (i <= k)%nat /\ N !! (k - i)%nat = Some n /\ name n = d
  | None => r = None /\ forall n, n ∈ N -> name n <> d
  end.
Proof.
  induction N as [|n N IH]; intros i r Hs; cbn [last_named]; [destruct r; [by left|split; [done|set_solver]]|].
  specialize (IH (S i) (if same (name n) d then Some i else r) ltac:(set_solver)).
  destruct (last_named N d (S i) _) as [k|].
  - destruct IH as [Hk|(m&Hk&Hm&Hd)].
    + destruct (same (name n) d) eqn:Hsame; [|by left]. injection Hk as <-. right. exists n. rewrite Nat.sub_diag.
      split_and!; [lia|done|]. apply Hs; [set_solver|done].
    + right. exists m. split_and!; [lia| |done]. by replace (k - i)%nat with (S (k - S i)) by lia.
  - destruct IH as [Hr Hno]. destruct (same (name n) d) eqn:Hsame; [done|]. split; [done|]. intros m Hm Hd.
    apply elem_of_cons in Hm as [->|Hm]; [|by apply (Hno m)]. subst d. by rewrite same_refl in Hsame.
Qed.
(** A dependency is linked to its rule. *)
Lemma dep_linked d : bytes d -> nonzero d ->
  match last_named unlinked d 0 None with
  | Some k => exists r, unlinked !! k = Some (node_of r) /\ find_rule d = Some r
  | None => find_rule d = None
  end.
Proof.
  intros Hb Hn. pose proof (last_named_spec unlinked d 0 None) as H.
  assert (Hs : forall n, n ∈ unlinked -> same (name n) d = true -> name n = d).
  { intros n [i Hi]%list_elem_of_lookup. destruct (unlinked_rule i n Hi) as (r&Hr&->). destruct (gr_bytes Hrs r Hr) as (?&?&_). by apply same_eq. }
  specialize (H Hs). destruct (last_named unlinked d 0 None) as [k|].
  - destruct H as [|(n&_&Hk&Hd)]; [done|]. rewrite Nat.sub_0_r in Hk. destruct (unlinked_rule k n Hk) as (r&Hr&->). exists r. split; [done|].
    rewrite <- Hd. by apply find_rule_in.
  - destruct H as [_ Hno]. destruct (find_rule d) as [r|] eqn:Hf; [|done]. exfalso. apply find_rule_Some in Hf as [Hr Hd].
    apply (Hno (node_of r)); [|done]. unfold unlinked. apply list_elem_of_In. rewrite <- List.in_rev. apply List.in_map. by apply list_elem_of_In.
Qed.

Lemma plan_none (f : nat) d : find_rule d = None -> plan f d = [].
Proof. destruct f; [done|]. cbn. by intros ->. Qed.
(** What making one target comes to. *)
Definition makes (f : nat) (m : X unit) (os : list (list Z)) (made : list (list Z)) s es : Prop :=
  exists es', m s = Ok (Some tt) (after os es' s) /\ inv es' /\ file_names es ⊆ file_names es' /\ made ⊆ file_names es'.
Lemma deps_made (f : nat) r :
  r ∈ rs -> (rank (r_name r) < S f)%nat ->
  (forall i r' s es, unlinked !! i = Some (node_of r') -> r' ∈ rs -> (rank (r_name r') < f)%nat -> m_dir s = Some es -> inv es ->
    base ⊆ file_names es -> makes f (makefiletree run nodes f i) (plan f (r_name r')) [r_name r'] s es) ->
  forall ds s es, ds ⊆ r_deps r -> m_dir s = Some es -> inv es -> base ⊆ file_names es ->
  makes f (each (fun t => match t with Some k => makefiletree run nodes f k | None => xret tt end)
    (map (fun d => last_named unlinked d 0 None) ds)) (concat (map (plan f) ds)) ds s es.
Proof using Hrs.
  intros Hr Hrank IH. induction ds as [|d ds IHds]; intros s es Hds Hd Hok Hbase; cbn [map each concat].
  - exists es. split_and!; [|done|done|set_solver]. unfold after, echo. cbn. rewrite !app_nil_r, <- Hd. by destruct s.
  - assert (Hdr : d ∈ r_deps r) by set_solver. destruct (gr_bytes Hrs r Hr) as (_&_&Hdb). rewrite Forall_forall in Hdb. destruct (Hdb d Hdr) as [Hb Hn].
    pose proof (dep_linked d Hb Hn) as Hlink. unfold makes. destruct (last_named unlinked d 0 None) as [k|]; cbv beta iota.
    + destruct Hlink as (r'&Hk&Hf). pose proof (find_rule_Some d r' Hf) as [Hr' <-].
      pose proof (gr_rank Hrs r (r_name r') Hr Hdr ltac:(by eexists)) as Hlt.
      destruct (IH k r' s es Hk Hr' ltac:(lia) Hd Hok Hbase) as (es1&Hm&Hok1&Hsub1&Hin1). rewrite (xbind_ok _ _ _ _ _ Hm).
      destruct (IHds (after (plan f (r_name r')) es1 s) es1 ltac:(set_solver) eq_refl Hok1 ltac:(set_solver)) as (es2&Hm2&Hok2&Hsub2&Hin2).
      exists es2. rewrite Hm2, after_app. split_and!; [done|done|set_solver|set_solver].
    + rewrite (plan_none f d Hlink). change (xbind (xret tt) ?k s) with (k tt s). cbv beta. cbn [app].
      destruct (IHds s es ltac:(set_solver) Hd Hok Hbase) as (es2&Hm2&Hok2&Hsub2&Hin2). exists es2. split_and!; [done..|].
      pose proof (gr_base Hrs r d Hr Hdr Hlink). set_solver.
Qed.
Lemma tree_ok (f : nat) : forall i r s es, unlinked !! i = Some (node_of r) -> r ∈ rs -> (rank (r_name r) < f)%nat ->
  m_dir s = Some es -> inv es -> base ⊆ file_names es -> makes f (makefiletree run nodes f i) (plan f (r_name r)) [r_name r] s es.
Proof using Hrs.
  induction f as [|f IH]; intros i r s es Hi Hr Hrank Hd Hok Hbase; [lia|]. unfold makes. cbn [makefiletree plan].
  assert (Hn : nodes !! i = Some (link unlinked (node_of r))) by (unfold nodes; by rewrite list_lookup_fmap, Hi). rewrite Hn, (find_rule_in r Hr).
  change (xbind (need (Some ?x)) ?f s) with (f x s). cbv beta. cbn [subtree depends orders link node_of].
  destruct (deps_made f r Hr Hrank IH (rev (r_deps r)) s es) as (es1&Hm&Hok1&Hsub1&Hin1); [|done..|].
  { intros d. rewrite !list_elem_of_In, <- List.in_rev. done. }
  rewrite (xbind_ok _ _ _ _ _ Hm). set (s1 := after _ es1 s). rewrite (xbind_ok _ _ _ _ _ (getcmdlist_ok es1 s1 eq_refl (gr_inv Hrs es1 Hok1))).
  assert (Hdeps : Forall (fun d => d ∈ file_names es1) (rev (r_deps r))) by (apply Forall_forall; intros d Hdd; by apply Hin1).
  rewrite (xbind_ok _ _ _ _ _ (check_ok _ _ s1 Hdeps)).
  destruct (gr_makes Hrs r es1 Hr Hok1 ltac:(set_solver)) as (es2&Heff&Hok2&Hsub2&Hin2).
  { intros d Hdd. apply Hin1. by rewrite list_elem_of_In, <- List.in_rev, <- list_elem_of_In. }
  assert (Hcmd : Forall cmd_ok (rev (r_orders r))) by (apply Forall_rev; by apply (gr_orders Hrs)).
  rewrite (run_orders_ok _ es1 es2 s1 Hcmd eq_refl Heff). exists es2. unfold s1. rewrite after_app. split_and!; [done|done|set_solver|set_solver].
Qed.
End tree.
End build.

(** ** The program *)
Definition rules (its : list item) : list rule_src := flat_map (fun it => match it with Rule r => [r] | _ => [] end) its.
Lemma items_added its : forall p, let p' := fold_left (fun p it => add_item it p) its p in
  p_nodes p' = rev (map node_of (rules its)) ++ p_nodes p /\
  p_root p' = match p_root p with Some r => Some r | None => r_name <$> head (rules its) end.
Proof.
  induction its as [|it its IH]; intros p; cbn [fold_left rules flat_map]; [cbn; by destruct (p_root p)|].
  destruct (IH (add_item it p)) as [H1 H2]. cbv zeta in *. rewrite H1, H2. fold (rules its). destruct it as [|x data|r]; [done|done|].
  cbn. rewrite <- app_assoc. split; [done|]. by destruct (p_root p).
Qed.
Lemma last_named_link (M N : list NODE) d : forall (i : nat) r, last_named (map (link M) N) d i r = last_named N d i r.
Proof. induction N as [|n N IH]; intros i r; [done|]. cbn. apply IH. Qed.
(** The rule that is made: the one of the argument, or the first. *)
Definition chosen (arg : option (list Z)) (its : list item) (r : rule_src) : Prop :=
  match arg with Some a => r ∈ rules its /\ a = r_name r | None => head (rules its) = Some r end.

Lemma make_root_ok run rs rank base inv (fuel : nat) r0 s es :
  good_rules run rs rank base inv -> r0 ∈ rs -> (rank (r_name r0) < fuel)%nat -> m_dir s = Some es -> inv es -> base ⊆ file_names es ->
  exists es', make_root run fuel (unlinked rs) (Some (r_name r0)) s =
    Ok None (mkMk (m_out s ++ echo (plan rs fuel (r_name r0)) ++ chars "Make success." ++ [NL]) (m_runs s ++ map (fields SPACE) (plan rs fuel (r_name r0))) (Some es')) /\
    inv es' /\ r_name r0 ∈ file_names es'.
Proof.
  intros Hrs Hr Hrank Hd Hok Hbase. unfold make_root. cbv zeta. cbn [mbind option_bind]. rewrite last_named_link.
  destruct (gr_bytes _ _ _ _ _ Hrs r0 Hr) as (Hb&Hn&_). pose proof (dep_linked run rs rank base inv Hrs (r_name r0) Hb Hn) as Hl.
  destruct (last_named (unlinked rs) (r_name r0) 0 None) as [k|].
  - destruct Hl as (r&Hk&Hf). rewrite (find_rule_in run rs rank base inv Hrs r0 Hr) in Hf. injection Hf as <-.
    change (xbind (need (Some ?x)) ?f s) with (f x s). cbv beta.
    destruct (tree_ok run rs rank base inv Hrs fuel k r0 s es Hk Hr Hrank Hd Hok Hbase) as (es'&Hm&Hok'&_&Hin).
    rewrite (xbind_ok _ _ _ _ _ Hm). exists es'. split_and!; [|done|set_solver].
    unfold after. cbn [m_out m_runs m_dir]. rewrite app_assoc. reflexivity.
  - by rewrite (find_rule_in run rs rank base inv Hrs r0 Hr) in Hl.
Qed.


(** ** make on concrete makefiles. *)
Definition file_entry (x : list Z) : entry := mkEntry 5 (x ++ replicate (14 - length x) 0) (Some T_FILE).
(** The command touch makes a file that is not there; others change nothing. *)
Definition demo_run (argv : list (list Z)) (es : list entry) : option (list entry) :=
  match argv with
  | [c; x] => Some (if bool_decide (c = chars "touch") && negb (bool_decide (x ∈ file_names es)) then es ++ [file_entry x] else es)
  | _ => Some es
  end.
(** A makefile, with @ for the tab. *)
Definition makefile (l : list string) : list Z :=
  concat (map (fun x => map (fun c => if c =? 64 then 9 else c) (chars x) ++ [NL]) l).
Definition dir_of (l : list string) : list entry := map (fun x => file_entry (chars x)) l.
(** How make ends: the commands, the output, the files. *)
Inductive ending := Made (runs : list (list (list Z))) (out : list Z) (files : list (list Z)) | Stopped (e : err).
Definition run_make (arg : option string) (l files : list string) : ending :=
  match main [] (chars "U") demo_run 300 (chars <$> arg) (Some (makefile l)) (mkMk [] [] (Some (dir_of files))) with
  | Ok _ s => Made (m_runs s) (m_out s) (file_names (default [] (m_dir s)))
  | Fail e => Stopped e
  end.
Definition made (runs : list (list string)) (out : list string) (files : list string) : ending :=
  Made (map (map chars) runs) (concat (map (fun l : string => chars l ++ [NL]) out)) (map chars files).

(** What make does beyond a plain makefile.  The orders of a rule run from
    the last to the first.  A value is put in the place of $(name), but of two
    uses the second stays when the name is three longer than the data.  A missing
    dependency, an unknown value or a missing clean is reported.  A name whose
    length is a multiple of eight is written past its block, a line without :
    or = runs over its end, one with words but neither of them is read for
    ever, rules that depend on each other do not end, and the name of no rule
    leaves the root unset. *)
Theorem make_limits :
  run_make None ["CC = touch"; "p: b.o a.o"; "@$(CC) x"; "@$(CC) p"; "a.o: a.c"; "@touch a.o"; "b.o:"; "@touch b.o"] ["a.c"] =
    made [["touch"; "a.o"]; ["touch"; "b.o"]; ["touch"; "p"]; ["touch"; "x"]]
      ["touch a.o"; "touch b.o"; "touch p"; "touch x"; "Make success."] ["a.c"; "a.o"; "b.o"; "p"; "x"] /\
  run_make (Some "clean") ["p:"; "@x"; "clean:"; "@rm p"] [] = made [["rm"; "p"]] ["rm p"; "Make clean success."] [] /\
  run_make (Some "clean") ["p:"; "@x"] [] = made [] ["Can't find clean."] [] /\
  run_make None ["p: a"; "@x"] ["b"] = made [] ["Can't find a."] ["b"] /\
  run_make None ["p:"; "@x $(Y)"] [] = made [] ["Can't find the value Y"] [] /\
  run_make None ["p:"; "@x $()"] [] = made [] ["Illegal input."] [] /\
  run_make None ["ABCD=x"; "p:"; "@e $(ABCD) $(ABCD)"] [] = made [["e"; "x"; "$(ABCD)"]] ["e x $(ABCD)"; "Make success."] [] /\
  run_make None ["all: p"; "p:"; "@touch p"] [] = made [["touch"; "p"]] ["touch p"; "Make success."] ["p"] /\
  run_make None ["makefile:"; "@x"] [] = Stopped Undef /\
  run_make None ["p"] [] = Stopped Undef /\
  run_make None ["p q"] [] = Stopped OutOfFuel /\
  run_make None ["p: q"; "q: p"] [] = Stopped OutOfFuel /\
  run_make (Some "q") ["p:"; "@x"] [] = Stopped Undef.
Proof. vm_compute. repeat split. Qed.

(** ** A makefile that satisfies the conditions *)
Definition demo_rules : list rule_src :=
  [mkRule (chars "prog") [chars "a.o"] [chars "touch prog"]; mkRule (chars "a.o") [chars "a.c"] [chars "cc a.c"; chars "touch a.o"]].
Definition demo_items : list item := [Value (chars "CC") (chars "cc"); Rule (nth 0 demo_rules (mkRule [] [] [])); Blank; Rule (nth 1 demo_rules (mkRule [] [] [])); Blank].
Definition demo_rank (x : list Z) : nat := if bool_decide (x = chars "prog") then 1%nat else 0%nat.
Definition demo_dirs : list (list entry) := [dir_of ["a.c"]; dir_of ["a.c"; "a.o"]; dir_of ["a.c"; "a.o"; "prog"]].
Definition dir_okb (es : list entry) : bool :=
  forallb (fun de => (de_inum de =? 0) || match st_type de with Some _ => true | None => false end) es && (length (file_names es) <=? 100)%nat.
Lemma dir_ok_vm es : dir_okb es = true -> dir_ok es.
Proof.
  intros [H1 H2%Nat.leb_le]%andb_prop. split; [|done]. rewrite forallb_forall in H1. apply Forall_forall. intros de Hde%list_elem_of_In%H1.
  apply orb_prop in Hde as [H%Z.eqb_eq|H]; [by left|right]. destruct (st_type de); [by eexists|done].
Qed.
Definition pieceb (w : list Z) : bool :=
  forallb (fun c => negb (c =? SPACE) && negb (c =? QUOTE) && negb (c =? DQUOTE) && negb (c =? 0)) w && (0 <? length w)%nat && (length w <=? 15)%nat.
Lemma cmd_ok_vm o : forallb pieceb (fields SPACE o) && (length (fields SPACE o) <=? 255)%nat = true -> cmd_ok o.
Proof.
  intros [H1 H2%Nat.leb_le]%andb_prop. split; [|done]. rewrite forallb_forall in H1. apply Forall_forall. intros w Hw%list_elem_of_In%H1.
  apply andb_prop in Hw as [[Hc Hn%Nat.ltb_lt]%andb_prop Hl%Nat.leb_le]. rewrite forallb_forall in Hc.
  split_and!; [| |intros ->; cbn in Hn; lia|done]; apply Forall_forall; intros c Hcin%list_elem_of_In%Hc; unfold SPACE, QUOTE, DQUOTE in *; lia.
Qed.
Definition wordb (w : list Z) : bool := forallb (fun c => (0 <? c) && (c <? 256)) w.
Lemma word_vm w : wordb w = true -> bytes w /\ nonzero w.
Proof. intros H. unfold wordb in H. rewrite forallb_forall in H. split; apply Forall_forall; intros c Hc%list_elem_of_In%H; unfold is_byte; lia. Qed.
Lemma demo_good : good_rules demo_run (rules demo_items) demo_rank [chars "a.c"] (fun es => es ∈ demo_dirs).
Proof.
  assert (Heach : forall (P : rule_src -> Prop), Forall P demo_rules -> forall r, r ∈ rules demo_items -> P r) by (intros P HP r; rewrite Forall_forall in HP; apply HP).
  split.
  - apply (bool_decide_unpack _). by vm_compute.
  - apply (Heach (fun r => bytes (r_name r) /\ nonzero (r_name r) /\ Forall (fun d => bytes d /\ nonzero d) (r_deps r))).
    repeat (constructor; [split_and!; [by apply word_vm..|constructor; [by apply word_vm|constructor]]|]). constructor.
  - apply (Heach (fun r => Forall cmd_ok (r_orders r))). constructor; [|constructor; [|constructor]]; cbn [r_orders]; repeat (constructor; [by apply cmd_ok_vm|]); constructor.
  - intros r d Hr. revert r Hr d. apply (Heach (fun r => forall d, d ∈ r_deps r -> is_Some (find_rule (rules demo_items) d) -> (demo_rank d < demo_rank (r_name r))%nat)).
    constructor; [|constructor; [|constructor]]; cbn [r_deps r_name]; intros d ->%list_elem_of_singleton Hd; [by vm_compute; lia|].
    destruct Hd as [r Hr]. by vm_compute in Hr.
  - intros r d Hr. revert r Hr d. apply (Heach (fun r => forall d, d ∈ r_deps r -> find_rule (rules demo_items) d = None -> d ∈ [chars "a.c"])).
    constructor; [|constructor; [|constructor]]; cbn [r_deps r_name]; intros d ->%list_elem_of_singleton Hd; [by vm_compute in Hd|set_solver].
  - intros es Hes. apply dir_ok_vm. repeat (apply elem_of_cons in Hes as [->|Hes]; [by vm_compute|]). by apply elem_of_nil in Hes.
  - intros r es Hr. revert r Hr es. apply (Heach (fun r => forall es, es ∈ demo_dirs -> [chars "a.c"] ⊆ file_names es -> r_deps r ⊆ file_names es ->
      exists es', effect demo_run (rev (r_orders r)) es = Some es' /\ es' ∈ demo_dirs /\ file_names es ⊆ file_names es' /\ r_name r ∈ file_names es')).
    assert (Hdirs : forall P : list entry -> Prop, Forall P demo_dirs -> forall es, es ∈ demo_dirs -> P es) by (intros P HP es; rewrite Forall_forall in HP; apply HP).
    constructor; [|constructor; [|constructor]].
    + apply (Hdirs (fun es => _ -> _ -> exists es', _)). constructor; [|constructor; [|constructor; [|constructor]]]; intros _ Hdep; [exfalso|exists (dir_of ["a.c"; "a.o"; "prog"])..].
      * specialize (Hdep (chars "a.o") ltac:(by left)). revert Hdep. apply (bool_decide_unpack _). by vm_compute.
      * split_and!; apply (bool_decide_unpack _); by vm_compute.
      * split_and!; apply (bool_decide_unpack _); by vm_compute.
    + apply (Hdirs (fun es => _ -> _ -> exists es', _)). constructor; [|constructor; [|constructor; [|constructor]]]; intros _ _;
        [exists (dir_of ["a.c"; "a.o"])..|exists (dir_of ["a.c"; "a.o"; "prog"])]; split_and!; apply (bool_decide_unpack _); by vm_compute.
Qed.
Definition name_okb (l : list Z) : bool :=
  forallb (fun c => negb (c =? 0) && negb (c =? SPACE) && negb (c =? 61) && negb (c =? 58)) l && (0 <? length l)%nat && negb (chr l =? 9) && negb (ulen l mod 8 =? 0).
Lemma name_ok_vm l : name_okb l = true -> name_ok l.
Proof.
  intros [[[Hc Hn%Nat.ltb_lt]%andb_prop H9]%andb_prop H8]%andb_prop. rewrite forallb_forall in Hc.
  split_and!; [..|intros ->; cbn in Hn; lia|lia|lia]; apply Forall_forall; intros c Hin%list_elem_of_In%Hc; lia.
Qed.
Definition order_okb (l : list Z) : bool :=
  forallb (fun c => negb (c =? 0) && negb (c =? 36)) l && (0 <? length l)%nat && (length l <? 255)%nat.
Lemma order_ok_vm l : order_okb l = true -> order_ok l.
Proof.
  intros [[Hc Hn%Nat.ltb_lt]%andb_prop Hl%Nat.ltb_lt]%andb_prop. rewrite forallb_forall in Hc. split_and!; [|intros ->; cbn in Hn; lia| |done].
  - apply Forall_forall. intros c Hin%list_elem_of_In%Hc. lia.
  - intros Hin%list_elem_of_In%Hc. done.
Qed.
Definition plain_wordb (l : list Z) : bool := forallb (fun c => negb (c =? 0) && negb (c =? SPACE)) l && (0 <? length l)%nat.
Lemma plain_word_vm l : plain_wordb l = true -> plain_word l.
Proof.
  intros [Hc Hn%Nat.ltb_lt]%andb_prop. rewrite forallb_forall in Hc. split_and!; [|intros ->; cbn in Hn; lia|].
  - apply Forall_forall. intros c Hin%list_elem_of_In%Hc. lia.
  - intros Hin%list_elem_of_In%Hc. done.
Qed.
Definition item_okb (it : item) : bool :=
  match it with
  | Blank => true
  | Value x data =>
      name_okb x && forallb (fun c => negb (c =? 0)) data && (0 <? length data)%nat && negb (chr data =? SPACE) &&
      negb (List.last data 0 =? SPACE) && (length (x ++ 61%Z :: data) <? 256)%nat
  | Rule r => name_okb (r_name r) && forallb plain_wordb (r_deps r) && (length (rule_head r) <? 256)%nat && forallb order_okb (r_orders r)
  end.
Lemma item_ok_vm it : item_okb it = true -> item_ok it.
Proof.
  destruct it as [|x data|r]; cbn [item_ok item_okb]; [done|..]; intros H; repeat match goal with H : _ && _ = true |- _ => apply andb_prop in H as [H ?] end.
  - split_and!; [by apply name_ok_vm| |intros ->; done|lia|lia|by apply Nat.ltb_lt].
    match goal with H : forallb _ data = true |- _ => rewrite forallb_forall in H; apply Forall_forall; intros c Hin%list_elem_of_In%H end. lia.
  - split_and!; [by apply name_ok_vm| |by apply Nat.ltb_lt|].
    + match goal with H : forallb plain_wordb _ = true |- _ => rewrite forallb_forall in H; apply Forall_forall; intros c Hin%list_elem_of_In%H end. by apply plain_word_vm.
    + match goal with H : forallb order_okb _ = true |- _ => rewrite forallb_forall in H; apply Forall_forall; intros c Hin%list_elem_of_In%H end. by apply order_ok_vm.
Qed.
