(* ===== verification/ShRun.v ===== *)
(** sh.c: running a command line, the history and the loop of the shell.

    What a process of the shell does is the tree of its system calls, with a
    branch for every result that is tested: fork that fails, open that fails,
    exec that returns.  The descriptor table is part of the tree where it
    matters; the kernel gives the lowest free descriptor.  A pipe is named by
    the place of its command in the command line.

    The history is the bytes of /.bash_history.  A buffer on the stack that
    is not set holds [junk], and reading on past its end is undefined. *)
From S2P Require Import Prelude Params Str Ulib Lines Exit Sh Make Console.
Open Scope k_scope.

(** ** Descriptors *)
Inductive ofile := OConsole | OFile (f : list Z) (mode : Z) | OPipe (at_ : list bool) (w : bool).
Abbreviation table := (list (option ofile)).
Definition lowest (t : table) : option nat := fst <$> list_find (eq None) t.
Definition tclose (fd : nat) (t : table) : table := <[fd := None]> t.
Definition talloc (o : ofile) (t : table) : option (nat * table) := fd ← lowest t; Some (fd, <[fd := Some o]> t).
(** dup(fd), whose result is not looked at. *)
Definition tdup (fd : nat) (t : table) : table :=
  match t !! fd with Some (Some o) => from_option snd t (talloc o t) | _ => t end.
Definition tpipe (at_ : list bool) (t : table) : option (nat * nat * table) :=
  '(p0, t) ← talloc (OPipe at_ false) t; '(p1, t) ← talloc (OPipe at_ true) t; Some (p0, p1, t).

(** ** Processes *)
Inductive proctree :=
  | PExit
  | PPrint (fd : Z) (msg : list Z) (p : proctree)
  | PExec (argv : list (list Z)) (t : table) (failed : proctree)
  | POpen (f : list Z) (mode : Z) (opened failed : proctree)
  | PPipe (made failed : proctree)
  | PFork (child parent failed : proctree)
  | PWait (t : table) (p : proctree).

Definition panic (s : string) : proctree := PPrint 2 (chars s ++ [NL]) PExit.
(** fixcmd prints the similar commands. *)
Fixpoint print_all (l : list (list Z)) (p : proctree) : proctree :=
  match l with [] => p | x :: l => PPrint 1 (x ++ [NL]) (print_all l p) end.
Definition suggest (errorcmd : list Z) (cmdlist : list (list Z)) : proctree :=
  match fixcmd errorcmd cmdlist with
  | [] => PExit
  | l => print_all (l ++ [chars "Maybe you want to input these commands."]) PExit
  end.
(** [cmdlist]: getcmdlist(".") *)
Fixpoint runcmd (cmdlist : list (list Z)) (c : cmd) (t : table) (at_ : list bool) : proctree :=
  match c with
  | CExec argv =>
      match argv with
      | [] => PExit
      | a :: _ => PExec argv t (PPrint 2 (chars "exec " ++ a ++ chars " failed" ++ [NL]) (suggest a cmdlist))
      end
  | CRedir c r =>
      let failed := PPrint 2 (chars "open " ++ r_file r ++ chars " failed" ++ [NL]) PExit in
      match talloc (OFile (r_file r) (r_mode r)) (tclose (Z.to_nat (r_fd r)) t) with
      | Some (_, t) => POpen (r_file r) (r_mode r) (runcmd cmdlist c t at_) failed
      | None => failed
      end
  | CList l r => PFork (runcmd cmdlist l t (at_ ++ [false])) (PWait t (runcmd cmdlist r t (at_ ++ [true]))) (panic "fork")
  | CPipe l r =>
      match tpipe at_ t with
      | Some (p0, p1, t) =>
          let left := tclose p1 (tclose p0 (tdup p1 (tclose 1 t))) in
          let right := tclose p1 (tclose p0 (tdup p0 (tclose 0 t))) in
          let t := tclose p1 (tclose p0 t) in
          PPipe (PFork (runcmd cmdlist l left (at_ ++ [false]))
                  (PFork (runcmd cmdlist r right (at_ ++ [true])) (PWait t (PWait t PExit)) (panic "fork")) (panic "fork"))
            (panic "pipe")
      | None => panic "pipe"
      end
  | CBack c => PFork (runcmd cmdlist c t (at_ ++ [false])) PExit (panic "fork")
  end.

(** ** The history *)
Definition bufSize : Z := 256.
(** What is at the end of the file after read has returned 0. *)
Definition recordHistory (commd : list Z) (f : list Z) : list Z := f ++ commd.
Fixpoint nl_locs (s : list Z) (j : Z) : list Z :=
  match s with [] => [] | c :: s => if c =? NL then j :: nl_locs s (j + 1) else nl_locs s (j + 1) end.
Definition memset0 (n : Z) (b : list Z) : list Z := splice 0 (replicate (Z.to_nat n) 0) b.
Definition opt {S A} (o : option A) : K S A := match o with Some a => ret a | None => fail Undef end.

Record reading := mkRd { rd_buf : list Z; rd_locs : list Z; rd_pre : list Z; rd_nums : Z; rd_hist : list (list Z) }.
(** history[nums % H_ITEMS] *)
Definition put_item (f : list Z -> option (list Z)) (s : reading) : option reading :=
  let i := Z.to_nat (Z.rem (rd_nums s) H_ITEMS) in
  row ← rd_hist s !! i;
  row ← f (memset0 H_ITEMS row);
  Some (mkRd (rd_buf s) (rd_locs s) (rd_pre s) (rd_nums s + 1) (<[i := row]> (rd_hist s))).
Definition sub0 : list Z := replicate (Z.to_nat bufSize) 0.
Fixpoint put_items (locs : list Z) (s : reading) : option reading :=
  match locs with
  | a :: ((b :: _) as locs) =>
      sub ← substring sub0 (rd_buf s) (a + 1) b;
      s ← put_item (fun row => ustrcpy row (cstr sub)) s;
      put_items locs s
  | _ => Some s
  end.
(** One round of the loop over read. *)
Definition read_history (chunk : list Z) (s : reading) : option reading :=
  let len := Z.of_nat (length chunk) in
  let buf := chunk ++ drop (length chunk) (rd_buf s) in
  if negb (existsb (Z.eqb 0) buf) then None else
  let found := nl_locs (cstr buf) 0 in
  let nl := length found in
  let locs := found ++ drop nl (memset0 (bufSize / 4) (rd_locs s)) in
  let s := mkRd buf locs (rd_pre s) (rd_nums s) (rd_hist s) in
  s ← match found with
      | [] => Some s
      | e :: _ =>
          sub ← substring sub0 buf 0 e;
          s ← put_item (fun row => ustrcat row (cstr (rd_pre s)) (cstr sub)) s;
          put_items found s
      end;
  if len =? bufSize then
    match last found with
    | None => None
    | Some e =>
        if e <? len - 1 then
          sub ← substring sub0 buf (e + 1) len;
          pre ← ustrcpy sub0 (cstr sub);
          Some (mkRd sub0 locs pre (rd_nums s) (rd_hist s))
        else Some s
    end
  else Some s.
Fixpoint read_histories (chunks : list (list Z)) (s : reading) : option reading :=
  match chunks with [] => Some s | c :: chunks => s ← read_history c s; read_histories chunks s end.
(** [junk] is what buf and locs hold, [hs] the structure before. *)
Definition getHistory (junk jlocs : list Z) (f : list Z) (hs : HistoryStruct) : option HistoryStruct :=
  s ← read_histories (reads (length f) f) (mkRd junk jlocs sub0 0 (hs_history hs));
  let start := Z.rem (rd_nums s - 1) H_ITEMS in
  Some (mkHs (rd_nums s) start start (rd_hist s)).

(** ** The commands of the directory *)
(** The names of its files; a name is cut after its last character that is
    no space. *)
Fixpoint sh_list_entries (es : list entry) (cmdall : list (list Z)) (out : list Z) : option (list (list Z) * list Z) :=
  match es with
  | [] => Some (cmdall, out)
  | de :: es =>
      if de_inum de =? 0 then sh_list_entries es cmdall out else
      let buf := chars "./" ++ cstr (de_name de) in
      match st_type de with
      | None => sh_list_entries es cmdall (out ++ chars "getcmdlist: cannot stat " ++ buf ++ [NL])
      | Some t =>
          if t =? T_FILE then
            if MAX_EXECMD <=? Z.of_nat (length cmdall) then None else sh_list_entries es (cmdall ++ [listed buf]) out
          else sh_list_entries es cmdall out
      end
  end.
Definition sh_getcmdlist (d : option (list entry)) : option (list (list Z) * list Z) := es ← d; sh_list_entries es [] [].

Definition staticCommands : list (list Z) :=
  map chars ["/ls"; "/mkdir"; "/cp"; "/mv"; "/rename"; "/rm"; "/cat"; "/history"; "/editor"; "/uptime"; "/help"; "/script"; "/touch"; "/make"].
Fixpoint put_commands (rows : list (list Z)) (i : nat) (l : list (list Z)) : option (list (list Z)) :=
  match l with
  | [] => Some rows
  | c :: l => row ← rows !! i; row ← ustrcpy row c; put_commands (<[i := row]> rows) (S i) l
  end.
Definition getExecutedCmd (d : option (list entry)) (ec : ExecutedCmd) : option (ExecutedCmd * list Z) :=
  '(cmd, out) ← sh_getcmdlist d;
  let cmd := take (Z.to_nat MAX_EXECMD) cmd in
  let flag := existsb (fun c => ustrcmp c (chars "ls") =? 0) cmd in
  let cmd := if flag then cmd else cmd ++ staticCommands in
  rows ← put_commands (ec_commands ec) 0 cmd;
  Some (mkEc (Z.of_nat (length cmd)) rows, out).

(** ** The loop *)
(** while((fd = open("console", O_RDWR)) >= 0) if(fd >= 3) { close(fd); break; } *)
Fixpoint open_console (fuel : nat) (t : table) : table :=
  match fuel with
  | O => t
  | S fuel =>
      match talloc OConsole t with
      | Some (fd, t) => if (3 <=? fd)%nat then tclose fd t else open_console fuel t
      | None => t
      end
  end.

Inductive action :=
  | ASetHistory (h : HistoryStruct)
  | ASetExeCmd (e : ExecutedCmd)
  | ASetStatus (st : Z)
  | AChdir (path : list Z)
  | APrint (fd : Z) (msg : list Z)
  | AFork (c : perr + cmd) (t : table)
  | AWait
  | AExit.
(** What is typed, the history file, the directory changes and what the shell
    has done. *)
Record shell := mkShell {
  s_input : list Z; s_hist : list Z; s_cd : list (list Z); s_acts : list action; s_hs : HistoryStruct; s_ec : ExecutedCmd }.

Section shell.
(** The directory after some changes, whether a change succeeds, whether fork
    does after what was done, the descriptors the shell starts with, and the
    memory of the stack. *)
Variables (dir : list (list Z) -> option (list entry)) (cd_ok : list (list Z) -> list Z -> bool) (fork_ok : list action -> bool).
Variables (t0 : table) (junk jlocs : list Z).

Definition act (a : action) : K shell unit :=
  modify (fun s => mkShell (s_input s) (s_hist s) (s_cd s) (s_acts s ++ [a]) (s_hs s) (s_ec s)).
Definition record (commd : list Z) : K shell unit :=
  modify (fun s => mkShell (s_input s) (recordHistory commd (s_hist s)) (s_cd s) (s_acts s) (s_hs s) (s_ec s)).
Definition get_history (hs : HistoryStruct) : K shell unit :=
  f <- gets s_hist;;
  h <- opt (getHistory junk jlocs f hs);;
  modify (fun s => mkShell (s_input s) (s_hist s) (s_cd s) (s_acts s) h (s_ec s));;
  act (ASetHistory h).
Definition get_executed : K shell unit :=
  ec <- gets s_ec;;
  cd <- gets s_cd;;
  let! (ec, out) := opt (getExecutedCmd (dir cd) ec) in
  when (negb (bool_decide (out = []))) (act (APrint 1 out));;
  modify (fun s => mkShell (s_input s) (s_hist s) (s_cd s) (s_acts s) (s_hs s) ec);;
  act (ASetExeCmd ec).
(** getcmd: the line in buf; None is the end of the input. *)
Definition getcmd : K shell (option (list Z)) :=
  act (APrint 2 (chars "$ "));;
  i <- gets s_input;;
  let! (b, rest) := opt (gets_str (replicate 100 0) 100 i) in
  modify (fun s => mkShell rest (s_hist s) (s_cd s) (s_acts s) (s_hs s) (s_ec s));;
  ret (if chr b =? 0 then None else Some (cstr b)).
Definition zero_hs : HistoryStruct := mkHs 0 0 0 (replicate (Z.to_nat H_ITEMS) (replicate (Z.to_nat H_LEN) 0)).
(** cd: the shell itself changes the directory. *)
Definition change_dir (buf : list Z) : K shell unit :=
  record buf;;
  let path := drop 3 (removelast buf) in
  act (AChdir path);;
  cd <- gets s_cd;;
  (if cd_ok cd path then modify (fun s => mkShell (s_input s) (s_hist s) (s_cd s ++ [path]) (s_acts s) (s_hs s) (s_ec s))
   else act (APrint 2 (chars "cannot cd " ++ path ++ [NL])));;
  get_executed.
Definition begins_cd (buf : list Z) : bool := (chr buf =? 99) && (chr (tail buf) =? 100) && (chr (tail (tail buf)) =? 32).
(** One line; true: the shell ends.  The child runs what parsecmd gives. *)
Definition sh_line (t : table) : K shell bool :=
  b <- getcmd;;
  match b with
  | None => act AExit;; ret true
  | Some buf =>
      if ustrcmp buf (chars "ESC" ++ [NL]) =? 0 then act AExit;; ret true else
      if begins_cd buf then change_dir buf;; ret false else
      done <- gets s_acts;;
      if negb (fork_ok done) then act (APrint 2 (chars "fork" ++ [NL]));; act AExit;; ret true else
      act (AFork (parsecmd buf) t);;
      record buf;;
      get_history zero_hs;;
      act AWait;;
      ret false
  end.
Definition sh_main : K shell unit :=
  hs <- gets s_hs;;
  get_history hs;;
  get_executed;;
  act (ASetStatus SHELL);;
  let t := open_console (length t0 + 1) t0 in
  i <- gets s_input;;
  while (S (length i)) (fun _ => stop <- sh_line t;; if stop : bool then ret (inr tt) else ret (inl tt)) tt.
End shell.
