(* ===== verification/ShRunThms.v ===== *)
(** The shell: how a command line is wired, and what the history shows. *)
From S2P Require Import Prelude Params Str Ulib Lines Exit Sh Make Console ShRun.

(** ** Wiring *)
(** Descriptors 0, 1 and 2 are open and no others. *)
Definition std (t : table) : Prop := exists a b c, t = Some a :: Some b :: Some c :: replicate 13 None.
(** The programs a command line runs, each with its place in the line and its
    descriptors: a redirection replaces one descriptor, a pipe is the output
    of its left and the input of its right side. *)
Fixpoint starts (c : cmd) (t : table) (at_ : list bool) : list (list bool * list (list Z) * table) :=
  match c with
  | CExec [] => []
  | CExec argv => [(at_, argv, t)]
  | CRedir c r => starts c (<[Z.to_nat (r_fd r) := Some (OFile (r_file r) (r_mode r))]> t) at_
  | CPipe l r =>
      starts l (<[1%nat := Some (OPipe at_ true)]> t) (at_ ++ [false]) ++ starts r (<[0%nat := Some (OPipe at_ false)]> t) (at_ ++ [true])
  | CList l r => starts l t (at_ ++ [false]) ++ starts r t (at_ ++ [true])
  | CBack c => starts c t (at_ ++ [false])
  end.
(** The programs a process and its children try to run: when every call
    succeeds, and at all. *)
Fixpoint runs_ok (p : proctree) : list (list (list Z) * table) :=
  match p with
  | PExit => []
  | PPrint _ _ p | PWait _ p | POpen _ _ p _ | PPipe p _ => runs_ok p
  | PExec argv t _ => [(argv, t)]
  | PFork child parent _ => runs_ok child ++ runs_ok parent
  end.
Fixpoint runs_may (p : proctree) : list (list (list Z) * table) :=
  match p with
  | PExit => []
  | PPrint _ _ p | PWait _ p => runs_may p
  | PExec argv t p => (argv, t) :: runs_may p
  | POpen _ _ p q | PPipe p q => runs_may p ++ runs_may q
  | PFork child parent failed => runs_may child ++ runs_may parent ++ runs_may failed
  end.
(** The descriptors of the processes that wait. *)
Fixpoint waiting (p : proctree) : list table :=
  match p with
  | PExit => []
  | PPrint _ _ p | PExec _ _ p => waiting p
  | PWait t p => t :: waiting p
  | POpen _ _ p q | PPipe p q => waiting p ++ waiting q
  | PFork child parent failed => waiting child ++ waiting parent ++ waiting failed
  end.

(** The redirections of a command are of descriptors 0 and 1. *)
Fixpoint fds_ok (c : cmd) : Prop :=
  match c with
  | CExec _ => True
  | CRedir c r => (r_fd r = 0 \/ r_fd r = 1) /\ fds_ok c
  | CPipe l r | CList l r => fds_ok l /\ fds_ok r
  | CBack c => fds_ok c
  end.

Lemma std_insert (fd : nat) o t : std t -> (fd < 3)%nat -> std (<[fd := Some o]> t).
Proof. intros (a&b&c&->) Hfd. destruct fd as [|[|[|fd]]]; [..|lia]; do 3 eexists; reflexivity. Qed.
Lemma redirected (fd : nat) o t : std t -> (fd < 3)%nat -> talloc o (tclose fd t) = Some (fd, <[fd := Some o]> t).
Proof. intros (a&b&c&->) Hfd. destruct fd as [|[|[|fd]]]; [..|lia]; reflexivity. Qed.
(** What the calls around a pipe leave. *)
Lemma piped at_ t : std t -> exists t', tpipe at_ t = Some (3%nat, 4%nat, t') /\
  tclose 4 (tclose 3 (tdup 4 (tclose 1 t'))) = <[1%nat := Some (OPipe at_ true)]> t /\
  tclose 4 (tclose 3 (tdup 3 (tclose 0 t'))) = <[0%nat := Some (OPipe at_ false)]> t /\
  tclose 4 (tclose 3 t') = t.
Proof. intros (a&b&c&->). eexists. split; [reflexivity|]. done. Qed.
Lemma suggest_none e l : runs_may (suggest e l) = [] /\ waiting (suggest e l) = [].
Proof.
  assert (H : forall ls, runs_may (print_all ls PExit) = [] /\ waiting (print_all ls PExit) = []) by (induction ls; done).
  unfold suggest. destruct (fixcmd e l); [done|apply H].
Qed.
Lemma runcmd_ok cl c : forall t at_, fds_ok c -> std t ->
  runs_ok (runcmd cl c t at_) = map (fun x => (x.1.2, x.2)) (starts c t at_) /\
  runs_may (runcmd cl c t at_) = map (fun x => (x.1.2, x.2)) (starts c t at_) /\
  Forall std (waiting (runcmd cl c t at_)).
Proof.
  induction c as [argv|c IH r|l IHl r IHr|l IHl r IHr|c IH]; intros t at_ Hf Ht; cbn [runcmd starts fds_ok] in *.
  - destruct argv as [|a argv]; [done|]. cbn. destruct (suggest_none a cl) as [-> ->]. done.
  - destruct Hf as [Hfd Hf]. assert (Hlt : (Z.to_nat (r_fd r) < 3)%nat) by lia. rewrite (redirected _ _ t Ht Hlt).
    destruct (IH _ at_ Hf (std_insert _ (OFile (r_file r) (r_mode r)) t Ht Hlt)) as (H1&H2&H3). cbn. by rewrite H1, H2, !app_nil_r.
  - destruct Hf as [Hl Hr]. destruct (piped at_ t Ht) as (t'&->&->&->&->).
    destruct (IHl _ (at_ ++ [false]) Hl (std_insert 1 (OPipe at_ true) t Ht ltac:(lia))) as (H1&H2&H3).
    destruct (IHr _ (at_ ++ [true]) Hr (std_insert 0 (OPipe at_ false) t Ht ltac:(lia))) as (H4&H5&H6).
    cbn. rewrite H1, H2, H4, H5, !app_nil_r, map_app. split_and!; [done|done|]. apply Forall_app. split; [done|]. apply Forall_app. split; [done|]. by repeat constructor.
  - destruct Hf as [Hl Hr]. destruct (IHl t (at_ ++ [false]) Hl Ht) as (H1&H2&H3). destruct (IHr t (at_ ++ [true]) Hr Ht) as (H4&H5&H6).
    cbn. rewrite H1, H2, H4, H5, !app_nil_r, map_app. split_and!; [done|done|]. apply Forall_app. split; [done|]. by constructor.
  - destruct (IH t (at_ ++ [false]) Hf Ht) as (H1&H2&H3). cbn. rewrite H1, H2, !app_nil_r. done.
Qed.
Lemma starts_std c : forall t at_, fds_ok c -> std t -> Forall (fun x => std x.2) (starts c t at_).
Proof.
  induction c as [argv|c IH r|l IHl r IHr|l IHl r IHr|c IH]; intros t at_ Hf Ht; cbn [starts fds_ok] in *.
  - destruct argv; [constructor|]. by repeat constructor.
  - destruct Hf as [Hfd Hf]. apply IH; [done|]. apply std_insert; [done|lia].
  - destruct Hf as [Hl Hr]. apply Forall_app. split; [apply IHl|apply IHr]; try done; apply std_insert; (done || lia).
  - destruct Hf as [Hl Hr]. apply Forall_app. split; [by apply IHl|by apply IHr].
  - by apply IH.
Qed.
(** The ends of a pipe of the line: the writing end is the output of a program
    of its left side, the reading end the input of one of its right side. *)
Definition ends_ok (at_ : list bool) (t : table) : Prop :=
  forall (fd : nat) q w, t !! fd = Some (Some (OPipe q w)) -> if w then fd = 1%nat /\ (q ++ [false]) `prefix_of` at_ else fd = 0%nat /\ (q ++ [true]) `prefix_of` at_.
Lemma ends_insert at_ (fd : nat) o t (b : bool) :
  ends_ok at_ t -> (forall q w, o = OPipe q w -> q = at_ /\ (if w then fd = 1%nat /\ b = false else fd = 0%nat /\ b = true)) ->
  ends_ok (at_ ++ [b]) (<[fd := Some o]> t).
Proof.
  intros Ht Ho fd' q w Hl. destruct (decide (fd = fd')) as [->|Hne].
  - pose proof (lookup_lt_Some _ _ _ Hl) as Hlt. rewrite length_insert in Hlt. rewrite list_lookup_insert_eq in Hl by done. injection Hl as ->.
    destruct (Ho q w eq_refl) as [-> H]. by destruct w, H as [-> ->].
  - rewrite list_lookup_insert_ne in Hl by done. specialize (Ht fd' q w Hl). destruct w; (destruct Ht as [-> [k ->]]; split; [done|]; rewrite <- app_assoc; by eexists).
Qed.
Lemma ends_later at_ t (b : bool) : ends_ok at_ t -> ends_ok (at_ ++ [b]) t.
Proof. intros Ht fd q w Hl. specialize (Ht fd q w Hl). destruct w; (destruct Ht as [-> [k ->]]; split; [done|]; rewrite <- app_assoc; by eexists). Qed.
Lemma ends_redir at_ (fd : nat) f m t : ends_ok at_ t -> ends_ok at_ (<[fd := Some (OFile f m)]> t).
Proof.
  intros Ht fd' q w Hl. destruct (decide (fd = fd')) as [->|Hne].
  - pose proof (lookup_lt_Some _ _ _ Hl) as Hlt. rewrite length_insert in Hlt. by rewrite list_lookup_insert_eq in Hl by done.
  - rewrite list_lookup_insert_ne in Hl by done. by apply (Ht fd' q w).
Qed.
Lemma starts_ends c : forall t at_, ends_ok at_ t -> Forall (fun x => ends_ok x.1.1 x.2) (starts c t at_).
Proof.
  induction c as [argv|c IH r|l IHl r IHr|l IHl r IHr|c IH]; intros t at_ Ht; cbn [starts].
  - destruct argv; [constructor|]. by repeat constructor.
  - apply IH. by apply ends_redir.
  - apply Forall_app. split; [apply IHl|apply IHr]; apply ends_insert; try done; intros q w [= <- <-]; done.
  - apply Forall_app. split; [apply IHl|apply IHr]; by apply ends_later.
  - apply IH. by apply ends_later.
Qed.

(** The parser makes no others. *)
Definition parses {A} (P : A -> Prop) (m : parser A) : Prop := match m with inr (a, _) => P a | inl _ => True end.
Lemma parses_bind {A B} (P : A -> Prop) (Q : B -> Prop) m (k : A -> list Z -> parser B) :
  parses P m -> (forall a s, P a -> parses Q (k a s)) -> parses Q (pbind m k).
Proof. destruct m as [e|[a s]]; cbn; auto. Qed.
Definition redir_ok (r : redir) : Prop := r_fd r = 0 \/ r_fd r = 1.
Lemma parseredirs_fds fuel : forall s, parses (Forall redir_ok) (parseredirs fuel s).
Proof.
  induction fuel as [|f IH]; intros s; [done|]. cbn [parseredirs]. destruct (peek_tok s [60; 62]) as [[] s1]; [|constructor].
  destruct (gettoken s1) as [[tok q] s2], (gettoken s2) as [[t file] s3]. destruct (negb (t =? 97)); [done|].
  eapply parses_bind; [apply IH|]. intros rs s4 Hrs. constructor; [|done]. destruct (tok =? 60); [by left|by right].
Qed.
Lemma wrap_fds rs : forall c, fds_ok c -> Forall redir_ok rs -> fds_ok (wrap c rs).
Proof. unfold wrap. induction rs as [|r rs IH]; intros c Hc Hrs; [done|]. inversion Hrs; subst. cbn. by apply IH. Qed.
Lemma parseargs_fds fuel : forall s argv rs, Forall redir_ok rs -> parses (fun x => Forall redir_ok x.2) (parseargs fuel s argv rs).
Proof.
  induction fuel as [|f IH]; intros s argv rs Hrs; [done|]. cbn [parseargs]. destruct (peek_tok s _) as [[] s1]; [done|].
  destruct (gettoken s1) as [[tok q] s2]. destruct (tok =? 0); [done|]. destruct (negb (tok =? 97)); [done|].
  destruct (MAXARGS <=? _)%nat; [done|]. eapply parses_bind; [apply parseredirs_fds|]. intros rs' s3 Hrs'. apply IH. by apply Forall_app.
Qed.
Lemma parseback_fds fuel : forall c s, fds_ok c -> parses fds_ok (parseback fuel c s).
Proof.
  induction fuel as [|f IH]; intros c s Hc; [done|]. cbn [parseback]. destruct (peek_tok s _) as [[] s1]; [|done].
  destruct (gettoken s1) as [[tok q] s2]. by apply IH.
Qed.
Lemma parse_fds fuel : (forall s, parses fds_ok (parseline fuel s)) /\ (forall s, parses fds_ok (parsepipe fuel s)) /\ (forall s, parses fds_ok (parseexec fuel s)).
Proof.
  induction fuel as [|f (IHl&IHp&IHe)]; [done|]. split_and!; intros s; cbn [parseline parsepipe parseexec].
  - eapply parses_bind; [apply IHp|]. intros c s1 Hc. eapply parses_bind; [by apply parseback_fds|]. intros c' s2 Hc'.
    destruct (peek_tok s2 _) as [[] s3]; [|done]. destruct (gettoken s3) as [[tok q] s4]. eapply parses_bind; [apply IHl|]. done.
  - eapply parses_bind; [apply IHe|]. intros c s1 Hc. destruct (peek_tok s1 _) as [[] s3]; [|done]. destruct (gettoken s3) as [[tok q] s4].
    eapply parses_bind; [apply IHp|]. done.
  - destruct (peek_tok s _) as [[] s1].
    + destruct (gettoken s1) as [[tok q] s2]. eapply parses_bind; [apply IHl|]. intros c s3 Hc. destruct (peek_tok s3 _) as [b s4].
      destruct (negb b); [done|]. destruct (gettoken s4) as [[tok' q'] s5]. eapply parses_bind; [apply parseredirs_fds|]. intros rs s6 Hrs. by apply wrap_fds.
    + eapply parses_bind; [apply parseredirs_fds|]. intros rs s2 Hrs. eapply parses_bind; [by apply parseargs_fds|]. intros [argv rs'] s3 Hrs'. by apply wrap_fds.
Qed.
Lemma parsecmd_fds s c : parsecmd s = inr c -> fds_ok c.
Proof.
  unfold parsecmd. pose proof (proj1 (parse_fds (parse_fuel s)) s) as H. destruct (parseline (parse_fuel s) s) as [e|[c' s']]; [done|].
  destruct (peek_tok s' []) as [b [|x r]]; [|done]. by intros [= <-].
Qed.

(** C23. Running a command line.  The shell parses the line and a process with
    descriptors 0, 1 and 2 runs it.  Whatever fork, pipe, open and exec do,
    only the programs of the line are run and only with the descriptors the
    line gives them, and all of them when nothing fails.  No program and no
    waiting process of the shell has any other descriptor; the writing end of
    a pipe is held only as the output of programs of its left side, the
    reading end only as the input of programs of its right side, so that a
    reader sees the end of the data when the writers have ended. *)
Theorem runcmd_wiring cl line c t :
  parsecmd line = inr c -> std t -> ends_ok [] t ->
  let programs := starts c t [] in
  runs_may (runcmd cl c t []) = map (fun x => (x.1.2, x.2)) programs /\
  runs_ok (runcmd cl c t []) = map (fun x => (x.1.2, x.2)) programs /\
  Forall (fun x => std x.2 /\ ends_ok x.1.1 x.2) programs /\ Forall std (waiting (runcmd cl c t [])).
Proof.
  intros Hc%parsecmd_fds Ht He programs. destruct (runcmd_ok cl c t [] Hc Ht) as (H1&H2&H3). split_and!; [done|done| |done].
  apply Forall_and. split; [by apply starts_std|by apply starts_ends].
Qed.
(** The table the shell starts with: the loop over the console opens what is
    missing of 0, 1 and 2. *)
Lemma open_console_std (a b c : option ofile) : std (open_console 4 (a :: b :: c :: replicate 13 None)).
Proof. destruct a, b, c; do 3 eexists; reflexivity. Qed.
Lemma runcmd_wiring_witness :
  let t := open_console 4 (replicate 16 None) in
  let out := OPipe [] true in let inp := OPipe [] false in
  let programs := [([false], [chars "cat"], [Some (OFile (chars "x") O_RDONLY); Some out; Some OConsole] ++ replicate 13 None);
                   ([true], [chars "wc"], [Some inp; Some OConsole; Some OConsole] ++ replicate 13 None)] in
  runs_may (runcmd [] (CPipe (CRedir (CExec [chars "cat"]) (mkRedir (chars "x") O_RDONLY 0)) (CExec [chars "wc"])) t []) = map (fun x => (x.1.2, x.2)) programs /\
  runs_ok (runcmd [] (CPipe (CRedir (CExec [chars "cat"]) (mkRedir (chars "x") O_RDONLY 0)) (CExec [chars "wc"])) t []) = map (fun x => (x.1.2, x.2)) programs /\
  Forall (fun x => std x.2 /\ ends_ok x.1.1 x.2) programs /\
  Forall std (waiting (runcmd [] (CPipe (CRedir (CExec [chars "cat"]) (mkRedir (chars "x") O_RDONLY 0)) (CExec [chars "wc"])) t [])).
Proof.
  refine (runcmd_wiring [] (chars "cat < x | wc" ++ [NL]) _ (open_console 4 (replicate 16 None)) _ _ _).
  - by vm_compute.
  - do 3 eexists. reflexivity.
  - intros fd q w Hl. do 16 (destruct fd as [|fd]; [by vm_compute in Hl|]). by destruct fd; vm_compute in Hl.
Defined.

(** ** The shell: the history file and the ring of commands made from it. *)
Implicit Types (c f : list Z) (cs ds : list (list Z)) (rows : list (list Z)).
#[local] Abbreviation NL := Ulib.NL.

(** A command as gets returns it, and the lines of the file. *)
Definition command_ok c : Prop := no_nl c /\ nonzero c /\ (length c < 128)%nat.
Definition lines cs : list Z := concat (map (fun c => c ++ [NL]) cs).
Lemma lines_cons c cs : lines (c :: cs) = c ++ NL :: lines cs.
Proof. unfold lines. cbn. by rewrite <- app_assoc. Qed.
Lemma recorded cs : forall f, fold_left (fun f c => recordHistory (c ++ [NL]) f) cs f = f ++ lines cs.
Proof.
  induction cs as [|c cs IH]; intros f; cbn [fold_left]; [by rewrite app_nil_r|]. rewrite IH. unfold recordHistory, lines. cbn. by rewrite <- !app_assoc.
Qed.
Lemma nl_locs_line c (r : list Z) j : no_nl c -> nl_locs (c ++ NL :: r) j = (j + Z.of_nat (length c)) :: nl_locs r (j + Z.of_nat (length c) + 1).
Proof.
  intros Hc. revert j. induction Hc as [|d c Hd _ IH]; intros j; cbn [app nl_locs length]; [by rewrite Z.add_0_r|].
  change Console.NL with NL in *. rewrite (proj2 (Z.eqb_neq d NL) Hd), IH. by replace (j + 1 + Z.of_nat (length c)) with (j + Z.of_nat (S (length c))) by lia.
Qed.
(** The characters between two positions. *)
Lemma substring_loop_ok c (r : list Z) : forall (dst p : list Z), (length c < length dst)%nat ->
  exists r', substring_loop (length c) dst (p ++ c ++ r) (Z.of_nat (length p)) = Some (c ++ 0 :: r').
Proof.
  induction c as [|d c IH]; intros dst p Hl; (destruct dst as [|x dst]; [cbn in Hl; lia|]); cbn [length substring_loop app] in *; [by eexists|].
  unfold inb. rewrite (proj2 (Z.leb_le _ _)), (proj2 (Z.ltb_lt _ _)) by (rewrite ?length_app; cbn [length]; lia). cbn [andb].
  destruct (IH dst (p ++ [d]) ltac:(lia)) as [r' Hr]. rewrite <- app_assoc, length_app in Hr. cbn [length app] in Hr.
  replace (Z.of_nat (length p) + 1) with (Z.of_nat (length p + 1)) by lia. rewrite Hr. exists r'.
  rewrite Nat2Z.id, list_lookup_total_middle by done. done.
Qed.
Lemma substring_line c (p r : list Z) a b :
  nonzero c -> (length c < 128)%nat -> a = Z.of_nat (length p) -> b = a + Z.of_nat (length c) ->
  exists sub, substring sub0 (p ++ c ++ r) a b = Some sub /\ cstr sub = c.
Proof.
  intros Hn Hl -> ->. unfold substring. replace (Z.to_nat (Z.of_nat (length p) + Z.of_nat (length c) - Z.of_nat (length p))) with (length c) by lia.
  destruct (substring_loop_ok c r sub0 p) as [r' ->]; [change (length sub0) with 256%nat; lia|]. eexists. split; [done|]. by apply cstr_app_zero.
Qed.

(** ** The ring *)
Definition rows_ok rows : Prop := length rows = 32%nat /\ Forall (fun r => length r = 128%nat) rows.
(** The last 32 commands, each in its place. *)
Definition ring cs rows : Prop :=
  rows_ok rows /\ forall (i : nat) c, cs !! i = Some c -> (length cs <= i + 32)%nat -> cstr (rows !!! (i mod 32)%nat) = c.
Lemma ring_snoc cs c rows row : ring cs rows -> cstr row = c -> length row = 128%nat -> ring (cs ++ [c]) (<[(length cs mod 32)%nat := row]> rows).
Proof.
  intros [[Hl Hr] Hi] Hc Hrow. split; [split; [by rewrite length_insert|by apply Forall_insert]|]. intros i d Hd Hlen.
  rewrite length_app in Hlen. cbn in Hlen. pose proof (Nat.mod_upper_bound (length cs) 32 ltac:(lia)).
  destruct (decide (i < length cs)%nat) as [Hlt|Hge].
  - rewrite list_lookup_total_insert_ne; [apply Hi; [by rewrite lookup_app_l in Hd|lia]|].
    intros Heq. pose proof (Nat.div_mod i 32 ltac:(lia)). pose proof (Nat.div_mod (length cs) 32 ltac:(lia)). rewrite Heq in *. lia.
  - pose proof (lookup_lt_Some _ _ _ Hd) as Hb. rewrite length_app in Hb. cbn in Hb. assert (i = length cs) as -> by lia.
    rewrite lookup_app_r, Nat.sub_diag in Hd by lia. injection Hd as <-. by rewrite list_lookup_total_insert_eq by lia.
Qed.
(** One command goes to its row. *)
Lemma put_item_ok (g : list Z -> option (list Z)) c cs s :
  ring cs (rd_hist s) -> rd_nums s = Z.of_nat (length cs) -> nonzero c -> (length c < 128)%nat ->
  (forall row, length row = 128%nat -> g row = ustrcpy row c) ->
  exists rows, put_item g s = Some (mkRd (rd_buf s) (rd_locs s) (rd_pre s) (Z.of_nat (length (cs ++ [c]))) rows) /\ ring (cs ++ [c]) rows.
Proof.
  intros Hring Hn Hc Hlc Hg. pose proof Hring as [[Hl Hr] _]. unfold put_item.
  assert (Hi : Z.to_nat (Z.rem (rd_nums s) H_ITEMS) = (length cs mod 32)%nat).
  { rewrite Hn. unfold H_ITEMS. rewrite Z.rem_mod_nonneg by lia. change 32 with (Z.of_nat 32). by rewrite <- Nat2Z.inj_mod, Nat2Z.id. }
  rewrite Hi. cbv zeta.
  pose proof (Nat.mod_upper_bound (length cs) 32 ltac:(lia)). destruct (lookup_lt_is_Some_2 (rd_hist s) (length cs mod 32)) as [row Hrow]; [lia|].
  rewrite Hrow. cbn [mbind option_bind]. assert (Hlr : length row = 128%nat) by (rewrite Forall_forall in Hr; apply Hr; by eapply list_elem_of_lookup_2).
  rewrite Hg by (unfold memset0; by rewrite length_splice). rewrite ustrcpy_ok. unfold memset0. rewrite length_splice, Hlr.
  rewrite (proj2 (Nat.ltb_lt _ _)) by lia. cbn [mbind option_bind]. eexists. split; [rewrite length_app; cbn [length]; do 2 f_equal; lia|].
  apply ring_snoc; [done|by apply cstr_app_zero|]. rewrite length_app. cbn [length]. rewrite length_drop, length_splice. lia.
Qed.
Lemma put_items_cons a b (l : list Z) s : put_items (a :: b :: l) s =
  (sub ← substring sub0 (rd_buf s) (a + 1) b; s ← put_item (fun row => ustrcpy row (cstr sub)) s; put_items (b :: l) s).
Proof. reflexivity. Qed.
Lemma put_items_ok (tl : list Z) ds : forall cs (p : list Z) a s,
  Forall command_ok ds -> ring cs (rd_hist s) -> rd_nums s = Z.of_nat (length cs) -> rd_buf s = p ++ lines ds ++ tl -> a + 1 = Z.of_nat (length p) ->
  exists rows, put_items (a :: nl_locs (lines ds) (a + 1)) s = Some (mkRd (rd_buf s) (rd_locs s) (rd_pre s) (Z.of_nat (length (cs ++ ds))) rows) /\ ring (cs ++ ds) rows.
Proof.
  induction ds as [|c ds IH]; intros cs p a s Hds Hring Hn Hbuf Ha.
  - exists (rd_hist s). rewrite app_nil_r, <- Hn. split; [by destruct s|done].
  - inversion Hds as [|? ? (Hnl&Hnz&Hlc) Hds']; subst. rewrite lines_cons in *. rewrite nl_locs_line, put_items_cons by done.
    rewrite <- app_assoc in Hbuf. cbn [app] in Hbuf.
    destruct (substring_line c p (NL :: lines ds ++ tl) (a + 1) (a + 1 + Z.of_nat (length c)) Hnz Hlc Ha eq_refl) as (sub&Hsub&Hcs).
    rewrite <- Hbuf in Hsub. rewrite Hsub. cbn [mbind option_bind].
    destruct (put_item_ok (fun row => ustrcpy row (cstr sub)) c cs s Hring Hn Hnz Hlc ltac:(intros; by rewrite Hcs)) as (rows&Hput&Hring').
    rewrite Hput. cbn [mbind option_bind].
    destruct (IH (cs ++ [c]) (p ++ c ++ [NL]) (a + 1 + Z.of_nat (length c)) (mkRd (rd_buf s) (rd_locs s) (rd_pre s) (Z.of_nat (length (cs ++ [c]))) rows) Hds' Hring' eq_refl) as (rows'&Hput'&Hring'').
    { cbn. rewrite Hbuf, <- !app_assoc. done. }
    { rewrite !length_app. cbn [length]. lia. }
    rewrite Hput'. exists rows'. rewrite <- app_assoc in Hring'' |- *. done.
Qed.
Lemma nonzero_lines cs : Forall command_ok cs -> nonzero (lines cs).
Proof.
  induction 1 as [|c cs (_&Hn&_) _ IH]; [constructor|]. rewrite lines_cons. apply Forall_app. split; [done|]. by constructor.
Qed.
Lemma one_read f : f <> [] -> (length f < 256)%nat -> reads (length f) f = [f].
Proof.
  intros Hf Hl. destruct f as [|x f]; [done|]. cbn [length reads]. change (Z.to_nat Make.BUF_SIZE) with 256%nat.
  rewrite take_ge, drop_ge by (cbn [length] in *; lia). by destruct (length f).
Qed.
(** The whole file in one read. *)
Lemma read_history_ok cs (junk jlocs : list Z) rows :
  cs <> [] -> Forall command_ok cs -> (length (lines cs) < 256)%nat -> junk !! length (lines cs) = Some 0 -> rows_ok rows ->
  exists s, read_history (lines cs) (mkRd junk jlocs sub0 0 rows) = Some s /\ rd_nums s = Z.of_nat (length cs) /\ ring cs (rd_hist s).
Proof.
  intros Hne Hcs Hlen Hj Hrows. unfold read_history. cbn [rd_buf rd_locs rd_pre rd_nums rd_hist].
  rewrite (drop_S _ _ _ Hj). set (tl := drop (S (length (lines cs))) junk). set (buf := lines cs ++ 0 :: tl).
  assert (existsb (Z.eqb 0) buf = true) as ->.
  { apply existsb_exists. exists 0. split; [|done]. unfold buf. apply in_app_iff. right. by left. }
  assert (Hc : cstr buf = lines cs) by (by apply cstr_app_zero, nonzero_lines). cbn [negb]. rewrite Hc.
  destruct cs as [|c cs]; [done|]. inversion Hcs as [|? ? (Hnl&Hnz&Hlc) Hcs']; subst. rewrite !lines_cons in *.
  rewrite nl_locs_line by done. rewrite Z.add_0_l. set (locs := _ ++ drop _ _). cbv zeta.
  assert (Hbuf : buf = [] ++ c ++ NL :: lines cs ++ 0 :: tl) by (unfold buf; rewrite ?lines_cons; by rewrite <- app_assoc).
  destruct (substring_line c [] (NL :: lines cs ++ 0 :: tl) 0 (Z.of_nat (length c)) Hnz Hlc eq_refl ltac:(lia)) as (sub&Hsub&Hcsub).
  rewrite <- Hbuf in Hsub. rewrite Hsub. cbn [mbind option_bind].
  destruct (put_item_ok (fun row => ustrcat row (cstr sub0) (cstr sub)) c [] (mkRd buf locs sub0 0 rows)) as (rows1&Hput&Hring1); [by split|done|done|done| |].
  { intros row Hrow. change (cstr sub0) with (@nil Z). rewrite Hcsub. by destruct row. }
  rewrite Hput. cbn [mbind option_bind app length].
  destruct (put_items_ok (0 :: tl) cs [c] (c ++ [NL]) (Z.of_nat (length c)) (mkRd buf locs sub0 (Z.of_nat 1) rows1)) as (rows2&Hput2&Hring2); [done|done|done| | |].
  { cbn. unfold buf. rewrite ?lines_cons. by rewrite <- !app_assoc. }
  { rewrite length_app. cbn [length]. lia. }
  cbn [rd_buf rd_locs rd_pre] in *. rewrite Hput2. cbn [mbind option_bind]. unfold bufSize. rewrite (proj2 (Z.eqb_neq _ 256)) by lia.
  eexists. split; [done|]. by split.
Qed.

(** C34. The history.  Commands that are recorded one after the other are what
    the shell gives the console when it reads the file again: their number,
    the place of the last one, and each of the last 32 in its row of the
    ring.  The file must be shorter than the buffer it is read to, and the
    byte of the buffer after it be 0. *)
Theorem history_shows cs (junk jlocs : list Z) hs :
  Forall command_ok cs -> (length (lines cs) < 256)%nat -> junk !! length (lines cs) = Some 0 -> rows_ok (hs_history hs) ->
  exists rows, getHistory junk jlocs (fold_left (fun f c => recordHistory (c ++ [NL]) f) cs []) hs =
    Some (mkHs (Z.of_nat (length cs)) (Z.rem (Z.of_nat (length cs) - 1) H_ITEMS) (Z.rem (Z.of_nat (length cs) - 1) H_ITEMS) rows) /\
    ring cs rows.
Proof.
  intros Hcs Hlen Hj Hrows. rewrite recorded. cbn [app]. unfold getHistory. destruct (decide (cs = [])) as [->|Hne].
  - exists (hs_history hs). by split.
  - rewrite one_read; [|by destruct cs as [|[|? ?] ?]|done]. cbn [read_histories].
    destruct (read_history_ok cs junk jlocs (hs_history hs) Hne Hcs Hlen Hj Hrows) as (s&->&Hn&Hring). cbn [mbind option_bind]. rewrite Hn. by eexists.
Qed.
Definition zero_rows : list (list Z) := replicate 32 (replicate 128 0).
Lemma history_shows_witness :
  exists rows, getHistory (replicate 256 0) (replicate 256 0) (chars "ls" ++ [NL] ++ chars "cat x" ++ [NL]) zero_hs = Some (mkHs 2 1 1 rows) /\
    ring [chars "ls"; chars "cat x"] rows.
Proof.
  refine (history_shows [chars "ls"; chars "cat x"] (replicate 256 0) (replicate 256 0) zero_hs _ _ eq_refl _).
  - repeat (constructor; [split_and!; [by repeat constructor|by repeat constructor|by vm_compute; lia]|]). constructor.
  - by vm_compute; lia.
  - split; [done|]. by apply Forall_replicate.
Defined.
(** A file of 256 bytes or more fills the buffer: the search for its end runs
    out of it. *)
Lemma history_full (junk jlocs : list Z) f hs : nonzero f -> (256 <= length f)%nat -> length junk = 256%nat -> getHistory junk jlocs f hs = None.
Proof.
  intros Hn Hl Hj. unfold getHistory. destruct f as [|x f]; [cbn in Hl; lia|]. cbn [length reads read_histories]. change (Z.to_nat Make.BUF_SIZE) with 256%nat.
  unfold read_history. cbv zeta. assert (Hlt : length (take 256 (x :: f)) = 256%nat) by (rewrite length_take; cbn [length] in *; lia).
  rewrite Hlt. cbn [rd_buf]. rewrite (drop_ge junk), app_nil_r by (rewrite Hj; lia).
  assert (existsb (Z.eqb 0) (take 256 (x :: f)) = false) as ->; [|done].
  apply not_true_is_false. intros (y&Hy&Heq%Z.eqb_eq)%existsb_exists. subst y. apply list_elem_of_In in Hy.
  pose proof (Forall_take _ 256 _ Hn) as Ht. rewrite Forall_forall in Ht. by apply (Ht 0 Hy).
Qed.

(** ** The shell on what a user types. *)
Definition demo_dir (cd : list (list Z)) : option (list entry) :=
  Some (map (fun x => mkEntry 5 (chars x ++ replicate (14 - length (chars x)) 0) (Some T_FILE)) (match cd with [] => ["cat"; "ls"]%string | _ => ["x"]%string end)).
Definition demo_cd (cd : list (list Z)) (path : list Z) : bool := bool_decide (path = chars "d").
Definition zero_ec : ExecutedCmd := mkEc 0 (replicate 128 (replicate 64 0)).
Definition typed (l : list string) : list Z := concat (map (fun x => chars x ++ [NL]) l).
(** What a session does, less the prompts and what it tells the console. *)
Definition session (l : list string) : option (list action * list Z) :=
  match sh_main demo_dir demo_cd (fun _ => true) (replicate 16 None) (replicate 256 0) (replicate 256 0) (mkShell (typed l) [] [] [] zero_hs zero_ec) with
  | Ok _ s => Some (List.filter (fun a => match a with APrint 1 _ | AChdir _ | AFork _ _ | AWait | AExit => true | APrint _ m => negb (bool_decide (m = chars "$ ")) | _ => false end) (s_acts s), s_hist s)
  | Fail _ => None
  end.
Definition std3 : list (option ofile) := replicate 3 (Some OConsole) ++ replicate 13 None.
(** A session: a line is run by a child the shell waits for, the shell itself
    changes the directory, and ESC ends it; but ESC is not recorded. *)
Example session_runs :
  session ["ls"; "cd d"; "cd e"; "cat x | wc"; "ESC"; "ls"] =
  Some ([AFork (inr (CExec [chars "ls"])) std3; AWait; AChdir (chars "d"); AChdir (chars "e"); APrint 2 (chars "cannot cd e" ++ [NL]);
         AFork (inr (CPipe (CExec (map chars ["cat"; "x"])) (CExec [chars "wc"]))) std3; AWait; AExit], typed ["ls"; "cd d"; "cd e"; "cat x | wc"]).
Proof. by vm_compute. Qed.
(** The commands of a directory without ls are completed with the fixed ones. *)
Example executed_commands :
  (fun '(e, _) => (ec_len e, map cstr (take 3 (ec_commands e)))) <$> getExecutedCmd (demo_dir [[]]) zero_ec = Some (15, map chars ["x"; "/ls"; "/mkdir"]) /\
  (fun '(e, _) => (ec_len e, map cstr (take 2 (ec_commands e)))) <$> getExecutedCmd (demo_dir []) zero_ec = Some (2, map chars ["cat"; "ls"]).
Proof. by vm_compute. Qed.
