(* ===== verification/Boot.v ===== *)
(** bootmain.c: the boot loader.

    Physical memory and the disk are functions from addresses to bytes;
    addresses are 32 bits.  The disk controller gets its 28-bit sector number
    through four ports.  None is a loop that does not end in its fuel. *)
From S2P Require Import Prelude Params Str Kern Exec.

Abbreviation memory := (Z -> Z).
Definition SECTSIZE : Z := 512.
Definition ELF_SCRATCH : Z := 0x10000.

Section boot.
Variable disk : Z -> Z.

(** The sector in the registers 0x1F3 to 0x1F6. *)
Definition boot_lba (offset : Z) : Z :=
  Z.land offset 0xff + 2 ^ 8 * Z.land (Z.shiftr offset 8) 0xff + 2 ^ 16 * Z.land (Z.shiftr offset 16) 0xff +
  2 ^ 24 * Z.land (Z.land (Z.lor (Z.shiftr offset 24) 0xE0) 0xff) 0xf.
Definition readsect (dst offset : Z) (m : memory) : memory :=
  fun a => if u32 (a - dst) <? SECTSIZE then disk (SECTSIZE * boot_lba offset + u32 (a - dst)) else m a.
Fixpoint readseg_loop (fuel : nat) (pa epa offset : Z) (m : memory) : option memory :=
  match fuel with
  | O => None
  | S fuel =>
      if pa <? epa then readseg_loop fuel (u32 (pa + SECTSIZE)) epa (u32 (offset + 1)) (readsect pa offset m) else Some m
  end.
Definition readseg (pa count offset : Z) (m : memory) : option memory :=
  let epa := u32 (pa + count) in
  let pa := u32 (pa - offset mod SECTSIZE) in
  let offset := offset / SECTSIZE + 1 in
  readseg_loop (Z.to_nat (count / SECTSIZE + 3)) pa epa offset m.

(** The [n] bytes at [a]. *)
Definition bytes_at (a : Z) (n : nat) (m : memory) : list Z := map (fun i => m (u32 (a + i))) (seqZ 0 (Z.of_nat n)).
Definition clear (a n : Z) (m : memory) : memory := fun b => if u32 (b - a) <? n then 0 else m b.
Record seg := mkSeg { sg_paddr : Z; sg_off : Z; sg_filesz : Z; sg_memsz : Z }.
Definition dec_seg (b : list Z) : seg := mkSeg (rd 4 12 b) (rd 4 4 b) (rd 4 16 b) (rd 4 20 b).
Definition load_seg (p : seg) (m : memory) : option memory :=
  m ← readseg (sg_paddr p) (sg_filesz p) (sg_off p) m;
  Some (if sg_filesz p <? sg_memsz p then clear (u32 (sg_paddr p + sg_filesz p)) (sg_memsz p - sg_filesz p) m else m).
Fixpoint load_segs (n : nat) (ph : Z) (m : memory) : option memory :=
  match n with
  | O => Some m
  | S n => m ← load_seg (dec_seg (bytes_at ph 32 m)) m; load_segs n (u32 (ph + 32)) m
  end.
(** The address the kernel is entered at; Some None: it is no ELF file. *)
Definition bootmain (m : memory) : option (memory * option Z) :=
  m ← readseg ELF_SCRATCH 4096 0 m;
  let elf := dec_elf (bytes_at ELF_SCRATCH 52 m) in
  if negb (e_magic elf =? ELF_MAGIC) then Some (m, None) else
  m ← load_segs (Z.to_nat (e_phnum elf)) (u32 (ELF_SCRATCH + e_phoff elf)) m;
  Some (m, Some (e_entry (dec_elf (bytes_at ELF_SCRATCH 52 m)))).

(** ** What is loaded *)
Lemma boot_lba_small n : 0 <= n < 2 ^ 28 -> boot_lba n = n.
Proof.
  intros Hn. unfold boot_lba. rewrite Z.land_lor_distr_l. change (Z.land 0xE0 0xff) with (0x0E * 2 ^ 4). rewrite Z.land_lor_distr_l.
  change (Z.land (14 * 2 ^ 4) 0xf) with 0. rewrite Z.lor_0_r, <- Z.land_assoc. change (Z.land 0xff 0xf) with (Z.ones 4). change 0xff with (Z.ones 8).
  rewrite !Z.land_ones, !Z.shiftr_div_pow2 by lia. Z.to_euclidean_division_equations. lia.
Qed.
Lemma u32_diff a b : 0 <= a < 2 ^ 32 -> 0 <= b < 2 ^ 32 -> u32 (a - b) = if b <=? a then a - b else a - b + 2 ^ 32.
Proof.
  intros Ha Hb. unfold u32. destruct (Z.leb_spec b a); [by rewrite Z.mod_small by lia|].
  rewrite <- (Z.mod_add (a - b) 1 (2 ^ 32)), Z.mod_small by lia. lia.
Qed.
Definition addr (a : Z) : Prop := 0 <= a < 2 ^ 32.
Lemma readsect_at dst n m a : addr a -> 0 <= dst -> dst + SECTSIZE <= 2 ^ 32 -> 0 <= n < 2 ^ 28 ->
  readsect dst n m a = if (dst <=? a) && (a <? dst + SECTSIZE) then disk (SECTSIZE * n + (a - dst)) else m a.
Proof.
  unfold addr, readsect, SECTSIZE. intros Ha H0 Hd Hn. rewrite boot_lba_small, u32_diff by lia.
  destruct (Z.leb_spec dst a); cbn [andb].
  - destruct (Z.ltb_spec (a - dst) 512), (Z.ltb_spec a (dst + 512)); try lia; done.
  - by destruct (Z.ltb_spec (a - dst + 2 ^ 32) 512); [lia|].
Qed.
(** The sectors are read in order, up to the end of the last one. *)
Lemma readseg_loop_ok (fuel : nat) : forall pa epa n m,
  0 <= pa -> epa + SECTSIZE < 2 ^ 32 -> 0 <= n -> n + Z.of_nat fuel < 2 ^ 28 -> epa - pa <= SECTSIZE * (Z.of_nat fuel - 1) ->
  (1 <= fuel)%nat -> pa < epa + SECTSIZE ->
  exists m' e, readseg_loop fuel pa epa n m = Some m' /\ epa <= e < epa + SECTSIZE /\ pa <= e /\
    forall a, addr a -> m' a = if (pa <=? a) && (a <? e) then disk (SECTSIZE * n + (a - pa)) else m a.
Proof.
  unfold SECTSIZE. induction fuel as [|fuel IH]; intros pa epa n m Hpa Hepa Hn Hfit Hfuel H1 Hlt; [lia|]. cbn [readseg_loop].
  destruct (Z.ltb_spec pa epa) as [Hin|Hout].
  - rewrite !u32_small by (unfold SECTSIZE; lia).
    destruct (IH (pa + SECTSIZE) epa (n + 1) (readsect pa n m)) as (m'&e&Hm&He&Hpe&Hat); [unfold SECTSIZE; lia..|].
    unfold SECTSIZE in Hpe. exists m', e. split; [done|]. split; [done|]. split; [lia|]. intros a Ha. rewrite Hat by done. rewrite readsect_at by (unfold SECTSIZE, addr in *; lia). unfold SECTSIZE.
    destruct (Z.leb_spec (pa + 512) a), (Z.leb_spec pa a), (Z.ltb_spec a e), (Z.ltb_spec a (pa + 512)); cbn [andb]; try lia; try done; f_equal; lia.
  - exists m, pa. split; [done|]. split; [lia|]. split; [lia|]. intros a Ha. destruct (Z.leb_spec pa a), (Z.ltb_spec a pa); cbn [andb]; try done; lia.
Qed.
(** The bytes of the kernel file, which starts at sector 1. *)
Definition kernel (off : Z) : Z := disk (SECTSIZE + off).
Lemma readseg_ok pa count off m :
  0 <= count -> 0 <= off -> off + count < 2 ^ 36 -> off mod SECTSIZE <= pa -> pa + count + SECTSIZE < 2 ^ 32 ->
  exists m' e, readseg pa count off m = Some m' /\ pa + count <= e < pa + count + SECTSIZE /\
    forall a, addr a -> m' a = if (pa - off mod SECTSIZE <=? a) && (a <? e) then kernel (off + (a - pa)) else m a.
Proof.
  unfold SECTSIZE. intros Hc Ho Hoc Hpa Hlt. unfold readseg, SECTSIZE. cbv zeta. pose proof (Z.mod_pos_bound off 512 ltac:(lia)).
  pose proof (Z.div_mod off 512 ltac:(lia)) as Hdm. rewrite !u32_small by lia.
  pose proof (Z.div_pos count 512 Hc ltac:(lia)). pose proof (Z.div_pos off 512 Ho ltac:(lia)).
  pose proof (Z.mul_div_le count 512 ltac:(lia)). pose proof (Z.mod_pos_bound count 512 ltac:(lia)). pose proof (Z.div_mod count 512 ltac:(lia)).
  destruct (readseg_loop_ok (Z.to_nat (count / 512 + 3)) (pa - off mod 512) (pa + count) (off / 512 + 1) m) as (m'&e&Hm&He&_&Hat);
    [unfold SECTSIZE; lia..|]. exists m', e. split; [done|]. split; [done|]. intros a Ha. rewrite Hat by done.
  destruct ((_ <=? a) && _); [|done]. unfold kernel, SECTSIZE. f_equal. lia.
Qed.

(** What a segment writes, what it is for, and what must be there. *)
Definition touched (p : seg) (a : Z) : Prop :=
  sg_paddr p - sg_off p mod SECTSIZE <= a < sg_paddr p + Z.max (sg_filesz p + SECTSIZE) (sg_memsz p).
Definition holds (p : seg) (a : Z) : Prop := sg_paddr p <= a < sg_paddr p + Z.max (sg_filesz p) (sg_memsz p).
Definition seg_content (p : seg) (a : Z) : Z :=
  if a <? sg_paddr p + sg_filesz p then kernel (sg_off p + (a - sg_paddr p)) else 0.
Definition seg_ok (p : seg) : Prop :=
  0 <= sg_filesz p < 2 ^ 32 /\ 0 <= sg_off p < 2 ^ 32 /\ sg_off p mod SECTSIZE <= sg_paddr p /\
  sg_paddr p + Z.max (sg_filesz p) (sg_memsz p) + SECTSIZE < 2 ^ 32.
Lemma load_seg_ok p m : seg_ok p -> exists m', load_seg p m = Some m' /\
  forall a, addr a -> (holds p a -> m' a = seg_content p a) /\ (~ touched p a -> m' a = m a).
Proof.
  unfold seg_ok, SECTSIZE, addr. intros (Hf&Ho&Hp&Hlt). pose proof (Z.mod_pos_bound (sg_off p) 512 ltac:(lia)).
  destruct (readseg_ok (sg_paddr p) (sg_filesz p) (sg_off p) m) as (m1&e&Hm&He&Hat); [unfold SECTSIZE in *; lia..|].
  unfold load_seg. rewrite Hm. cbn [mbind option_bind]. eexists. split; [done|]. intros a Ha. unfold holds, touched, seg_content, SECTSIZE in *. specialize (Hat a Ha).
  assert (Hread : m1 a = if (sg_paddr p - sg_off p mod 512 <=? a) && (a <? e) then kernel (sg_off p + (a - sg_paddr p)) else m a) by exact Hat.
  destruct (Z.ltb_spec (sg_filesz p) (sg_memsz p)) as [Hbss|Hno].
  - unfold clear. rewrite (u32_small (sg_paddr p + sg_filesz p)), u32_diff by lia.
    destruct (Z.leb_spec (sg_paddr p + sg_filesz p) a).
    + destruct (Z.ltb_spec (a - (sg_paddr p + sg_filesz p)) (sg_memsz p - sg_filesz p)); destruct (Z.ltb_spec a (sg_paddr p + sg_filesz p)); try lia; (split; [|]; intros ?; try done; try lia).
      rewrite Hread. destruct (Z.leb_spec (sg_paddr p - sg_off p mod 512) a), (Z.ltb_spec a e); cbn [andb]; try done; lia.
    + destruct (Z.ltb_spec (a - (sg_paddr p + sg_filesz p) + 2 ^ 32) (sg_memsz p - sg_filesz p)); [lia|]. rewrite Hread.
      destruct (Z.leb_spec (sg_paddr p - sg_off p mod 512) a), (Z.ltb_spec a e), (Z.ltb_spec a (sg_paddr p + sg_filesz p)); cbn [andb]; split; intros ?; try done; lia.
  - rewrite Hread. destruct (Z.leb_spec (sg_paddr p - sg_off p mod 512) a), (Z.ltb_spec a e), (Z.ltb_spec a (sg_paddr p + sg_filesz p)); cbn [andb]; split; intros ?; try done; lia.
Qed.

(** The headers of the kernel file. *)
Definition kbytes (o : Z) (n : nat) : list Z := map (fun i => kernel (o + i)) (seqZ 0 (Z.of_nat n)).
Definition in_scratch (a : Z) : Prop := ELF_SCRATCH <= a < ELF_SCRATCH + 4096.
Definition has_headers (m : memory) : Prop := forall a, in_scratch a -> m a = kernel (a - ELF_SCRATCH).
Lemma header_bytes m o (n : nat) : has_headers m -> 0 <= o -> o + Z.of_nat n <= 4096 -> bytes_at (ELF_SCRATCH + o) n m = kbytes o n.
Proof.
  intros Hm Ho Hn. apply map_ext_in. intros i Hi%list_elem_of_In%elem_of_seqZ. unfold ELF_SCRATCH in *. rewrite u32_small by lia.
  rewrite Hm by (unfold in_scratch, ELF_SCRATCH; lia). f_equal. unfold ELF_SCRATCH. lia.
Qed.
Definition segs_from (phoff : Z) (n : nat) : list seg := map (fun i => dec_seg (kbytes (phoff + 32 * i) 32)) (seqZ 0 (Z.of_nat n)).
Lemma segs_from_S phoff (n : nat) : segs_from phoff (S n) = dec_seg (kbytes phoff 32) :: segs_from (phoff + 32) n.
Proof.
  unfold segs_from. rewrite seqZ_cons by lia. cbn [map]. f_equal; [by rewrite Z.mul_0_r, Z.add_0_r|].
  replace (Z.pred (Z.of_nat (S n))) with (Z.of_nat n) by lia. rewrite <- (fmap_add_seqZ 1 0). change (map ?f (Z.add 1 <$> ?l)) with (map f (map (Z.add 1) l)).
  rewrite map_map. apply map_ext. intros i. do 2 f_equal. lia.
Qed.
(** Segments that stay clear of the headers and of those before them. *)
Fixpoint apart (l : list seg) : Prop :=
  match l with
  | [] => True
  | p :: l => Forall (fun q => forall a, holds p a -> ~ touched q a) l /\ apart l
  end.
Definition clear_of_headers (p : seg) : Prop := forall a, in_scratch a -> ~ touched p a.
Lemma load_segs_ok (n : nat) : forall phoff m,
  has_headers m -> 0 <= phoff -> phoff + 32 * Z.of_nat n <= 4096 -> Forall seg_ok (segs_from phoff n) -> Forall clear_of_headers (segs_from phoff n) ->
  apart (segs_from phoff n) ->
  exists m', load_segs n (ELF_SCRATCH + phoff) m = Some m' /\ has_headers m' /\
    (forall p a, p ∈ segs_from phoff n -> addr a -> holds p a -> m' a = seg_content p a) /\
    (forall a, addr a -> Forall (fun p => ~ touched p a) (segs_from phoff n) -> m' a = m a).
Proof.
  induction n as [|n IH]; intros phoff m Hm Hp Hn Hok Hcl Hap.
  - exists m. split_and!; [done|done| |done]. intros p a Hin. set_solver.
  - rewrite segs_from_S in *. inversion Hok as [|? ? Hok1 Hok2]; subst. inversion Hcl as [|? ? Hcl1 Hcl2]; subst. destruct Hap as [Hap1 Hap2].
    cbn [load_segs]. rewrite header_bytes by (done || lia). set (q := dec_seg (kbytes phoff 32)) in *.
    destruct (load_seg_ok q m Hok1) as (m1&->&Hat). cbn [mbind option_bind]. rewrite u32_small by (unfold ELF_SCRATCH; lia).
    assert (Hm1 : has_headers m1).
    { intros a Ha. rewrite <- Hm by done. apply Hat; [unfold in_scratch, ELF_SCRATCH, addr in *; lia|by apply Hcl1]. }
    rewrite <- Z.add_assoc. destruct (IH (phoff + 32) m1 Hm1 ltac:(lia) ltac:(lia) Hok2 Hcl2 Hap2) as (m'&Hm'&Hh&Hin&Hout).
    exists m'. split_and!; [done|done|..].
    + intros p a [->|Hp']%elem_of_cons Ha Hh'; [|by apply Hin]. rewrite Hout; [by apply Hat|done|].
      eapply Forall_impl; [exact Hap1|]. intros q' Hq'. by apply Hq'.
    + intros a Ha Ht. inversion Ht; subst. rewrite Hout by done. by apply Hat.
Qed.

(** C31. The boot loader loads the kernel.  The headers are in the first page of
    the file; the segments stay clear of the page they are read to and, with
    the whole sectors that are read for them, of those before them.  Then
    bootmain ends, enters the kernel at the address of the ELF header, and
    every segment has its bytes of the file and zeros after them. *)
Theorem bootmain_loads (m : memory) :
  let elf := dec_elf (kbytes 0 52) in let segs := segs_from (e_phoff elf) (Z.to_nat (e_phnum elf)) in
  e_magic elf = ELF_MAGIC -> 0 <= e_phoff elf -> 0 <= e_phnum elf -> e_phoff elf + 32 * e_phnum elf <= 4096 ->
  Forall seg_ok segs -> Forall clear_of_headers segs -> apart segs ->
  exists m', bootmain m = Some (m', Some (e_entry elf)) /\
    forall p a, p ∈ segs -> addr a -> holds p a -> m' a = seg_content p a.
Proof.
  intros elf segs Hmag Hoff Hnum Hfit Hok Hcl Hap. unfold bootmain.
  destruct (readseg_ok ELF_SCRATCH 4096 0 m) as (m1&e&Hm&He&Hat); [by vm_compute..|]. rewrite Hm. cbn [mbind option_bind].
  assert (Hh : has_headers m1).
  { intros a Ha. unfold in_scratch, ELF_SCRATCH, SECTSIZE, addr in *. rewrite Hat by lia. change (0 mod 512) with 0.
    by rewrite (proj2 (Z.leb_le _ _)), (proj2 (Z.ltb_lt _ _)) by lia. }
  assert (Helf : dec_elf (bytes_at ELF_SCRATCH 52 m1) = elf) by (rewrite <- (Z.add_0_r ELF_SCRATCH); by rewrite header_bytes by (done || lia)).
  cbv zeta. rewrite Helf, Hmag. cbn [negb Z.eqb]. change (ELF_MAGIC =? ELF_MAGIC) with true. cbn [negb].
  rewrite u32_small by (unfold ELF_SCRATCH; lia).
  destruct (load_segs_ok (Z.to_nat (e_phnum elf)) (e_phoff elf) m1 Hh Hoff ltac:(lia) Hok Hcl Hap) as (m'&->&Hh'&Hin&_). cbn [mbind option_bind].
  assert (Helf' : dec_elf (bytes_at ELF_SCRATCH 52 m') = elf) by (rewrite <- (Z.add_0_r ELF_SCRATCH); by rewrite header_bytes by (done || lia)).
  rewrite Helf'. by exists m'.
Qed.
End boot.

(** ** A small kernel on a disk. *)
Definition demo_ph (off paddr filesz memsz : Z) : list Z :=
  le_enc 4 1 ++ le_enc 4 off ++ le_enc 4 (paddr + 0x80000000) ++ le_enc 4 paddr ++ le_enc 4 filesz ++ le_enc 4 memsz ++ replicate 8 0.
Definition demo_headers : list Z :=
  le_enc 4 ELF_MAGIC ++ replicate 20 0 ++ le_enc 4 0x100010 ++ le_enc 4 52 ++ replicate 12 0 ++ le_enc 2 2 ++ replicate 6 0 ++
  demo_ph 0x1010 0x100010 600 700 ++ demo_ph 0x1400 0x101000 100 4000.
(** The headers in sector 1, and byte [a mod 251] everywhere after them. *)
Definition demo_disk (a : Z) : Z := if (512 <=? a) && (a <? 512 + 116) then nth (Z.to_nat (a - 512)) demo_headers 0 else a mod 251.
Lemma demo_segs : segs_from demo_disk 52 2 = [mkSeg 0x100010 0x1010 600 700; mkSeg 0x101000 0x1400 100 4000].
Proof. by vm_compute. Qed.
Lemma bootmain_loads_witness :
  exists m', bootmain demo_disk (fun _ => 7) = Some (m', Some 0x100010) /\
    forall p a, p ∈ [mkSeg 0x100010 0x1010 600 700; mkSeg 0x101000 0x1400 100 4000] -> addr a -> holds p a -> m' a = seg_content demo_disk p a.
Proof.
  refine (bootmain_loads demo_disk (fun _ => 7) _ _ _ _ _ _ _); [by vm_compute..| | |].
  - change (Forall seg_ok (segs_from demo_disk 52 2)). rewrite demo_segs. repeat constructor; by vm_compute.
  - change (Forall clear_of_headers (segs_from demo_disk 52 2)). rewrite demo_segs.
    apply Forall_cons. split; [|apply Forall_cons; split; [|by apply Forall_nil]];
      intros a Ha Ht; unfold in_scratch, touched, SECTSIZE, ELF_SCRATCH in *; cbn in Ht; Z.to_euclidean_division_equations; lia.
  - change (apart (segs_from demo_disk 52 2)). rewrite demo_segs. cbn [apart]. split_and!; [|constructor|done].
    apply Forall_cons. split; [|by apply Forall_nil]. intros a Hh Ht. unfold holds, touched, SECTSIZE in *. cbn in Hh, Ht. Z.to_euclidean_division_equations. lia.
Defined.
