(* ===== verification/Mp.v ===== *)
(** mp.c: the multiprocessor tables of the BIOS.

    [m] is physical memory, a function from addresses to bytes.  The state is
    the globals of mp.c, the messages that were printed and whether the IMCR
    was switched.  An entry of an unknown type is looked at again and again:
    the loop has fuel. *)
From S2P Require Import Prelude Params Str.

Definition MPBOOT : Z := 2.
Definition MPPROC : Z := 0.
Definition MPBUS : Z := 1.
Definition MPIOAPIC : Z := 2.
Definition MPIOINTR : Z := 3.
Definition MPLINTR : Z := 4.
Definition MP_SZ : Z := 16.
Definition MPCONF_SZ : Z := 44.
Definition MPPROC_SZ : Z := 20.
Definition MPIOAPIC_SZ : Z := 8.

Inductive mpmsg := BadApicid (ncpu apicid : Z) | UnknownType (ty : Z).
Record mpst := mkMp {
  cpu_ids : list Z; ncpu : Z; bcpu : Z; ismp : Z; ioapicid : Z; lapic_addr : Z; mp_log : list mpmsg; imcr : bool }.

Section mp.
Variable m : Z -> Z.

Definition mbytes (a : Z) (n : nat) : list Z := map (fun i => m (a + i)) (seqZ 0 (Z.of_nat n)).
Definition sum (addr len : Z) : Z := u8 (foldl Z.add 0 (mbytes addr (Z.to_nat len))).
(** "_MP_" and "PCMP" *)
Definition MP_SIG : list Z := [95; 77; 80; 95].
Definition PCMP_SIG : list Z := [80; 67; 77; 80].
Definition is_mp (p : Z) : bool := bool_decide (mbytes p 4 = MP_SIG) && (sum p MP_SZ =? 0).
Fixpoint mpsearch_loop (n : nat) (p e : Z) : option Z :=
  match n with
  | O => None
  | S n => if p <? e then if is_mp p then Some p else mpsearch_loop n (p + MP_SZ) e else None
  end.
Definition mpsearch1 (a len : Z) : option Z := mpsearch_loop (Z.to_nat (len / MP_SZ + 1)) a (a + len).
Definition mpsearch : option Z :=
  let bda := 0x400 in
  let p := Z.shiftl (Z.lor (Z.shiftl (m (bda + 0x0F)) 8) (m (bda + 0x0E))) 4 in
  let found :=
    if negb (p =? 0) then mpsearch1 p 1024
    else mpsearch1 (Z.lor (Z.shiftl (m (bda + 0x14)) 8) (m (bda + 0x13)) * 1024 - 1024) 1024 in
  match found with Some p => Some p | None => mpsearch1 0xF0000 0x10000 end.
(** The fields of struct mp and struct mpconf. *)
Definition field (w : nat) (a off : Z) : Z := le_dec (mbytes (a + off) w).
Definition mpconfig : option (Z * Z) :=
  mp ← mpsearch;
  let conf := field 4 mp 4 in
  if conf =? 0 then None else
  if negb (bool_decide (mbytes conf 4 = PCMP_SIG)) then None else
  let version := field 1 conf 6 in
  if negb (version =? 1) && negb (version =? 4) then None else
  if negb (sum conf (field 2 conf 4) =? 0) then None else
  Some (mp, conf).

Definition set_cpus l n b s := mkMp l n b (ismp s) (ioapicid s) (lapic_addr s) (mp_log s) (imcr s).
Definition set_ismp i lg s := mkMp (cpu_ids s) (ncpu s) (bcpu s) i (ioapicid s) (lapic_addr s) lg (imcr s).
Definition set_ioapicid i s := mkMp (cpu_ids s) (ncpu s) (bcpu s) (ismp s) i (lapic_addr s) (mp_log s) (imcr s).
Definition set_lapic a s := mkMp (cpu_ids s) (ncpu s) (bcpu s) (ismp s) (ioapicid s) a (mp_log s) (imcr s).
Definition set_imcr s := mkMp (cpu_ids s) (ncpu s) (bcpu s) (ismp s) (ioapicid s) (lapic_addr s) (mp_log s) true.

(** The entry at [p], and the next one. *)
Definition mp_entry (p : Z) : K mpst Z :=
  let ty := m p in
  if ty =? MPPROC then
    s <- get;;
    let n := ncpu s in
    when (negb (n =? m (p + 1))) (modify (set_ismp 0 (mp_log s ++ [BadApicid n (m (p + 1))])));;
    when (negb (Z.land (m (p + 3)) MPBOOT =? 0)) (modify (fun s => set_cpus (cpu_ids s) (ncpu s) n s));;
    ids <- aset (cpu_ids s) n (u8 n);;
    modify (fun s => set_cpus ids (n + 1) (bcpu s) s);;
    ret (p + MPPROC_SZ)
  else if ty =? MPIOAPIC then modify (set_ioapicid (m (p + 1)));; ret (p + MPIOAPIC_SZ)
  else if (ty =? MPBUS) || (ty =? MPIOINTR) || (ty =? MPLINTR) then ret (p + 8)
  else modify (fun s => set_ismp 0 (mp_log s ++ [UnknownType ty]) s);; ret p.
Definition mp_entries (fuel : nat) (p e : Z) : K mpst unit :=
  while fuel (fun p => if negb (p <? e) then ret (inr tt) else p <- mp_entry p;; ret (inl p)) p.
Definition mpinit : K mpst unit :=
  modify (fun s => set_cpus (cpu_ids s) (ncpu s) 0 s);;
  match mpconfig with
  | None => ret tt
  | Some (mp, conf) =>
      modify (fun s => set_ismp 1 (mp_log s) s);;
      modify (set_lapic (field 4 conf 36));;
      let len := field 2 conf 4 in
      mp_entries (Z.to_nat (len + 1)) (conf + MPCONF_SZ) (conf + len);;
      i <- gets ismp;;
      if i =? 0 then
        modify (fun s => set_ioapicid 0 (set_lapic 0 (set_cpus (cpu_ids s) 1 (bcpu s) s)))
      else when (negb (m (mp + 12) =? 0)) (modify set_imcr)
  end.

(** ** The search *)
Lemma mpsearch_loop_ok (n : nat) : forall p e, e <= p + MP_SZ * Z.of_nat n ->
  match mpsearch_loop n p e with
  | Some q => exists k, 0 <= k /\ q = p + MP_SZ * k /\ q < e /\ is_mp q = true /\ forall j, 0 <= j < k -> is_mp (p + MP_SZ * j) = false
  | None => forall j, 0 <= j -> p + MP_SZ * j < e -> is_mp (p + MP_SZ * j) = false
  end.
Proof.
  unfold MP_SZ. induction n as [|n IH]; intros p e Hn; cbn [mpsearch_loop]; [intros j; lia|].
  destruct (Z.ltb_spec p e) as [Hp|Hp]; [|intros j; lia]. destruct (is_mp p) eqn:Hm.
  - exists 0. split_and!; [lia|lia|lia|done|lia].
  - specialize (IH (p + 16) e ltac:(lia)). unfold MP_SZ in *. destruct (mpsearch_loop n (p + 16) e) as [q|].
    + destruct IH as (k&Hk&->&Hlt&Hq&Hno). exists (k + 1). split_and!; [lia|lia|lia|done|]. intros j Hj.
      destruct (decide (j = 0)) as [->|]; [by rewrite Z.add_0_r|]. specialize (Hno (j - 1) ltac:(lia)). by replace (p + 16 * j) with (p + 16 + 16 * (j - 1)) by lia.
    + intros j Hj Hlt. destruct (decide (j = 0)) as [->|]; [by rewrite Z.add_0_r|]. specialize (IH (j - 1) ltac:(lia) ltac:(lia)).
      by replace (p + 16 * j) with (p + 16 + 16 * (j - 1)) by lia.
Qed.

(** ** The table *)
Inductive mpent := EProc (apicid flags : Z) | EIoapic (id : Z) | EOther (ty : Z).
Definition ent_size (e : mpent) : Z := match e with EProc _ _ => MPPROC_SZ | EIoapic _ => MPIOAPIC_SZ | EOther _ => 8 end.
Definition ent_at (p : Z) (e : mpent) : Prop :=
  match e with
  | EProc apicid flags => m p = MPPROC /\ m (p + 1) = apicid /\ m (p + 3) = flags
  | EIoapic id => m p = MPIOAPIC /\ m (p + 1) = id
  | EOther ty => m p = ty /\ (ty = MPBUS \/ ty = MPIOINTR \/ ty = MPLINTR)
  end.
Fixpoint entries_at (p : Z) (l : list mpent) : Prop := match l with [] => True | e :: l => ent_at p e /\ entries_at (p + ent_size e) l end.
Definition table_size (l : list mpent) : Z := foldr (fun e n => ent_size e + n) 0 l.
(** The number of processors, whether they are numbered from [k] on, the boot
    processor and the I/O APIC. *)
Fixpoint nproc (l : list mpent) : nat := match l with [] => O | EProc _ _ :: l => S (nproc l) | _ :: l => nproc l end.
Fixpoint in_order (k : Z) (l : list mpent) : bool :=
  match l with [] => true | EProc a _ :: l => (k =? a) && in_order (k + 1) l | _ :: l => in_order k l end.
Fixpoint boot (k b : Z) (l : list mpent) : Z :=
  match l with [] => b | EProc _ f :: l => boot (k + 1) (if Z.land f MPBOOT =? 0 then b else k) l | _ :: l => boot k b l end.
Fixpoint last_ioapic (i : Z) (l : list mpent) : Z := match l with [] => i | EIoapic x :: l => last_ioapic x l | _ :: l => last_ioapic i l end.

Lemma ent_size_8 e : 8 <= ent_size e.
Proof. by destruct e. Qed.
(** Every entry is at least 8 bytes: the length of the table is enough fuel. *)
Lemma table_size_length l : Z.of_nat (length l) <= table_size l.
Proof.
  induction l as [|e l IH]; [done|]. change (table_size (e :: l)) with (ent_size e + table_size l).
  pose proof (ent_size_8 e). cbn [length]. lia.
Qed.
Lemma ids_insert (k : nat) (ids : list Z) : (k < 8)%nat -> length ids = 8%nat ->
  <[k := u8 (Z.of_nat k)]> (seqZ 0 (Z.of_nat k) ++ drop k ids) = seqZ 0 (Z.of_nat (S k)) ++ drop (S k) ids.
Proof.
  intros Hk Hl. rewrite insert_app_r_alt by (rewrite length_seqZ; lia). rewrite length_seqZ, Nat2Z.id, Nat.sub_diag.
  destruct (lookup_lt_is_Some_2 ids k ltac:(lia)) as [x Hx]. rewrite (drop_S _ _ _ Hx).
  replace (Z.of_nat (S k)) with (Z.of_nat k + 1) by lia. rewrite (seqZ_app 0 (Z.of_nat k) 1), <- app_assoc by lia.
  unfold u8. rewrite Z.mod_small by lia. done.
Qed.
Lemma entries_step fuel p e s q s' : p < e -> mp_entry p s = Ok q s' -> mp_entries (S fuel) p e s = mp_entries fuel q e s'.
Proof. intros Hp He. unfold mp_entries. cbn [while]. unfold bind at 1. rewrite (proj2 (Z.ltb_lt p e)) by lia. cbn [negb]. unfold bind at 1. by rewrite He. Qed.
(** A processor entry: the number of the processor is the count so far. *)
Lemma proc_entry p a f (k : nat) ids b g i lap lg im : ent_at p (EProc a f) -> (k < 8)%nat -> length ids = 8%nat ->
  mp_entry p (mkMp (seqZ 0 (Z.of_nat k) ++ drop k ids) (Z.of_nat k) b g i lap lg im) =
    Ok (p + MPPROC_SZ) (mkMp (seqZ 0 (Z.of_nat (S k)) ++ drop (S k) ids) (Z.of_nat (S k)) (if Z.land f MPBOOT =? 0 then b else Z.of_nat k)
      (if Z.of_nat k =? a then g else 0) i lap (if Z.of_nat k =? a then lg else lg ++ [BadApicid (Z.of_nat k) a]) im).
Proof.
  intros (Hp&Ha&Hf) Hk Hids. unfold mp_entry. rewrite Hp, Ha, Hf. change (MPPROC =? MPPROC) with true. cbv iota.
  assert (Hset : forall s : mpst, aset (seqZ 0 (Z.of_nat k) ++ drop k ids) (Z.of_nat k) (u8 (Z.of_nat k)) s =
    Ok (seqZ 0 (Z.of_nat (S k)) ++ drop (S k) ids) s).
  { intros s. unfold aset, inb. rewrite length_app, length_seqZ, length_drop, (proj2 (Z.leb_le _ _)), (proj2 (Z.ltb_lt _ _)) by lia.
    cbn [andb]. by rewrite Nat2Z.id, (ids_insert k ids Hk Hids). }
  rewrite Nat2Z.inj_succ in *. unfold Z.succ in *.
  unfold bind, get, modify. cbn [ncpu mp_log cpu_ids].
  destruct (Z.of_nat k =? a), (Z.land f MPBOOT =? 0); cbn [negb when ncpu mp_log cpu_ids bcpu set_ismp set_cpus]; unfold ret; by rewrite Hset.
Qed.
Lemma entries_ok e ids lap im : forall l (k fuel : nat) p b i g lg,
  entries_at p l -> p + table_size l = e -> (k + nproc l <= 8)%nat -> length ids = 8%nat -> (length l < fuel)%nat ->
  exists lg', mp_entries fuel p e (mkMp (seqZ 0 (Z.of_nat k) ++ drop k ids) (Z.of_nat k) b g i lap lg im) =
    Ok tt (mkMp (seqZ 0 (Z.of_nat (k + nproc l)) ++ drop (k + nproc l) ids) (Z.of_nat (k + nproc l)) (boot (Z.of_nat k) b l)
      (if in_order (Z.of_nat k) l then g else 0) (last_ioapic i l) lap lg' im).
Proof.
  induction l as [|t l IH]; intros k fuel p b i g lg Hat Hsz Hk Hids Hf; (destruct fuel as [|fuel]; [cbn in Hf; lia|]).
  - cbn in Hsz. unfold mp_entries. cbn [while]. unfold bind at 1. rewrite (proj2 (Z.ltb_ge _ _)) by lia. cbn. rewrite Nat.add_0_r. by exists lg.
  - destruct Hat as [Ht Hat]. change (table_size (t :: l)) with (ent_size t + table_size l) in Hsz. cbn [length] in Hf.
    pose proof (table_size_length l). pose proof (ent_size_8 t). assert (Hlt : p < e) by lia.
    destruct t as [a f|x|ty]; cbn [ent_size nproc in_order boot last_ioapic] in *.
    + destruct (IH (S k) fuel (p + MPPROC_SZ) (if Z.land f MPBOOT =? 0 then b else Z.of_nat k) i (if Z.of_nat k =? a then g else 0)
        (if Z.of_nat k =? a then lg else lg ++ [BadApicid (Z.of_nat k) a]) Hat ltac:(lia) ltac:(lia) Hids ltac:(lia)) as [lg' Hrun].
      exists lg'. rewrite (entries_step fuel p e _ _ _ Hlt (proc_entry p a f k ids b g i lap lg im Ht ltac:(lia) Hids)), Hrun.
      replace (k + S (nproc l))%nat with (S k + nproc l)%nat by lia. replace (Z.of_nat k + 1) with (Z.of_nat (S k)) by lia.
      by destruct (Z.of_nat k =? a), (in_order (Z.of_nat (S k)) l).
    + destruct (IH k fuel (p + MPIOAPIC_SZ) b x g lg Hat ltac:(lia) Hk Hids ltac:(lia)) as [lg' Hrun]. exists lg'. rewrite <- Hrun.
      apply entries_step; [lia|]. destruct Ht as (Hp&Hx). unfold mp_entry. by rewrite Hp, Hx.
    + destruct (IH k fuel (p + 8) b i g lg Hat ltac:(lia) Hk Hids ltac:(lia)) as [lg' Hrun]. exists lg'. rewrite <- Hrun.
      apply entries_step; [lia|]. destruct Ht as (Hp&Hty). unfold mp_entry. rewrite Hp. by destruct Hty as [->|[->| ->]].
Qed.

(** C35. mpinit reads the table of the machine.  The table that mpconfig finds
    holds the entries [l] of the known types, at most eight of them
    processors.  When the
    processors are numbered 0, 1, ... in the order of the table, the machine
    has them all: their number, their ids, the boot processor, the I/O APIC
    and the local APIC are those of the table, and the IMCR is switched when
    the floating pointer says that there is one.  When such a table numbers
    them in another order the kernel falls back to one processor without
    APICs.  In both cases mpinit returns: the walk over the entries has fuel
    enough.  (With an unknown entry type it does not, and a ninth processor is
    stored after the array.) *)
Theorem mpinit_reads_table mp conf l s :
  mpconfig = Some (mp, conf) -> entries_at (conf + MPCONF_SZ) l -> MPCONF_SZ + table_size l = field 2 conf 4 ->
  (nproc l <= 8)%nat -> length (cpu_ids s) = 8%nat -> ncpu s = 0 ->
  let n := Z.of_nat (nproc l) in let ids := seqZ 0 n ++ drop (nproc l) (cpu_ids s) in
  exists lg, mpinit s = Ok tt
    (if in_order 0 l then mkMp ids n (boot 0 0 l) 1 (last_ioapic (ioapicid s) l) (field 4 conf 36) lg (negb (m (mp + 12) =? 0) || imcr s)
     else mkMp ids 1 (boot 0 0 l) 0 0 0 lg (imcr s)).
Proof.
  intros Hconf Hat Hsz Hn Hids H0 n ids. subst n ids. destruct s as [cs nc bc im0 io la lg ic]. cbn [cpu_ids ncpu imcr ioapicid] in *. subst nc.
  pose proof (table_size_length l) as Hlen. assert (MPCONF_SZ = 44) by done.
  destruct (entries_ok (conf + field 2 conf 4) cs (field 4 conf 36) ic l 0 (Z.to_nat (field 2 conf 4 + 1)) (conf + MPCONF_SZ) 0 io 1 lg
    Hat ltac:(lia) Hn Hids ltac:(lia)) as [lg' Hrun].
  change (seqZ 0 (Z.of_nat 0) ++ drop 0 cs) with cs in Hrun. change (Z.of_nat 0) with 0 in Hrun. exists lg'. unfold mpinit, modify. unfold bind at 1. rewrite Hconf. cbv iota.
  unfold bind, set_cpus, set_ismp, set_lapic. cbn [cpu_ids ncpu bcpu ismp ioapicid lapic_addr mp_log imcr]. rewrite Hrun.
  destruct (in_order 0 l); cbn -[seqZ drop nproc]; [|done]. by destruct (m (mp + 12) =? 0).
Qed.
End mp.

(** ** A machine with two processors

    The floating pointer is at 0xF0010, the table at 0xF0100. *)
Definition at_bytes (l : list Z) (a p : Z) : Z := if (a <=? p) && (p <? a + Z.of_nat (length l)) then l !!! Z.to_nat (p - a) else 0.
Definition demo_ptr : list Z := MP_SIG ++ le_enc 4 0xF0100 ++ [1; 4; 16; 0; 128; 0; 0; 0].
Definition demo_entries : list Z :=
  [0; 0; 17; 3] ++ replicate 16 0 ++ [0; 1; 17; 1] ++ replicate 16 0 ++ [1; 0; 73; 83; 65; 32; 32; 32] ++ [2; 2; 17; 1; 0; 0; 192; 254].
Definition demo_conf : list Z :=
  PCMP_SIG ++ le_enc 2 100 ++ [4; 205] ++ replicate 20 32 ++ le_enc 4 0 ++ le_enc 2 0 ++ le_enc 2 4 ++ le_enc 4 0xFEE00000 ++ replicate 4 0 ++ demo_entries.
Definition demo_mem (p : Z) : Z := at_bytes demo_ptr 0xF0010 p + at_bytes demo_conf 0xF0100 p.
Definition demo_mp0 : mpst := mkMp (replicate 8 0) 0 0 0 0 0 [] false.
Lemma mpinit_reads_table_witness : exists lg, mpinit demo_mem demo_mp0 =
  Ok tt (mkMp ([0; 1] ++ replicate 6 0) 2 0 1 2 0xFEE00000 lg true).
Proof.
  refine (mpinit_reads_table demo_mem 0xF0010 0xF0100 [EProc 0 3; EProc 1 1; EOther 1; EIoapic 2] demo_mp0 _ _ _ _ _ _);
    try (vm_compute; reflexivity); vm_compute; try lia; repeat split; auto.
Defined.
