(* ===== verification/Ufs.v ===== *)
(** The files a user program sees.

    What the system calls of sysfile.c promise to a program that runs alone:
    inodes that are files, directories or the console, directories as the
    lists of their entries with the free ones, the current directory and the
    open descriptors.  The utilities are programs over these calls.  An inode
    number is not used again, the disk is never full, and a file ends at
    MAXFILE blocks. *)
From S2P Require Import Prelude Params Str Fs FsPath Ulib Exit.

Inductive unode := UFile (data : list Z) | UDir (ents : list (list Z * Z)) | UDev.
#[export] Instance unode_eq_dec : EqDecision unode.
Proof. solve_decision. Defined.
(** A descriptor: inode, offset, mode of open. *)
Record world := mkW {
  w_nodes : gmap Z unode; w_next : Z; w_cwd : Z; w_fds : list (option (Z * Z * Z)); w_in : list Z; w_out : list Z; w_status : Z }.
Definition ROOTINO : Z := 1.
Definition set_nodes f w := mkW (f (w_nodes w)) (w_next w) (w_cwd w) (w_fds w) (w_in w) (w_out w) (w_status w).
Definition set_cwd i w := mkW (w_nodes w) (w_next w) i (w_fds w) (w_in w) (w_out w) (w_status w).
Definition set_fds l w := mkW (w_nodes w) (w_next w) (w_cwd w) l (w_in w) (w_out w) (w_status w).
Definition set_in i w := mkW (w_nodes w) (w_next w) (w_cwd w) (w_fds w) i (w_out w) (w_status w).
Definition set_status st w := mkW (w_nodes w) (w_next w) (w_cwd w) (w_fds w) (w_in w) (w_out w) st.
Definition put_out o w := mkW (w_nodes w) (w_next w) (w_cwd w) (w_fds w) (w_in w) (w_out w ++ o) (w_status w).

(** ** Names *)
Definition names (path : list Z) : list (list Z) := map (take DIRSIZ) (path_elems path).
Definition free_entry : list Z * Z := ([], 0).
Fixpoint find_entry (ents : list (list Z * Z)) (name : list Z) : option (nat * Z) :=
  match ents with
  | [] => None
  | (n, i) :: ents =>
      if negb (i =? 0) && bool_decide (n = name) then Some (O, i)
      else '(k, i) ← find_entry ents name; Some (S k, i)
  end.
Definition entries (w : gmap Z unode) (i : Z) : option (list (list Z * Z)) :=
  match w !! i with Some (UDir ents) => Some ents | _ => None end.
Fixpoint walk (w : gmap Z unode) (i : Z) (es : list (list Z)) : option Z :=
  match es with
  | [] => Some i
  | e :: es => ents ← entries w i; '(_, j) ← find_entry ents e; walk w j es
  end.
Definition start (path : list Z) (w : world) : Z := if chr path =? SLASH then ROOTINO else w_cwd w.
Definition unamei (path : list Z) (w : world) : option Z := walk (w_nodes w) (start path w) (names path).
(** The directory of the last name, its entries and the name. *)
Definition unameiparent (path : list Z) (w : world) : option (Z * list (list Z * Z) * list Z) :=
  name ← last (names path);
  dp ← walk (w_nodes w) (start path w) (removelast (names path));
  ents ← entries (w_nodes w) dp;
  Some (dp, ents, name).
(** The new entry goes to the first free place. *)
Fixpoint add_entry (name : list Z) (i : Z) (ents : list (list Z * Z)) : list (list Z * Z) :=
  match ents with
  | [] => [(name, i)]
  | (n, j) :: ents => if j =? 0 then (name, i) :: ents else (n, j) :: add_entry name i ents
  end.

(** ** Calls: None is -1 *)
Definition call {A} (f : world -> option A * world) : X world (option A) := fun w => let '(r, w') := f w in Ok (Some r) w'.
Definition DOT : list Z := [46].
Definition DOTDOT : list Z := [46; 46].
Definition ucreate (path : list Z) (dir : bool) (w : world) : option (Z * world) :=
  '(dp, ents, name) ← unameiparent path w;
  match find_entry ents name with
  | Some (_, i) => match w_nodes w !! i with Some (UFile _) => if dir then None else Some (i, w) | _ => None end
  | None =>
      let i := w_next w in
      let node := if dir then UDir [(DOT, i); (DOTDOT, dp)] else UFile [] in
      Some (i, mkW (<[dp := UDir (add_entry name i ents)]> (<[i := node]> (w_nodes w))) (i + 1) (w_cwd w) (w_fds w) (w_in w) (w_out w) (w_status w))
  end.
Fixpoint first_free (l : list (option (Z * Z * Z))) : option nat :=
  match l with [] => None | None :: _ => Some O | Some _ :: l => S <$> first_free l end.
Definition alloc_fd (i omode : Z) (w : world) : option Z * world :=
  match first_free (w_fds w) with
  | Some fd => (Some (Z.of_nat fd), set_fds (<[fd := Some (i, 0, omode)]> (w_fds w)) w)
  | None => (None, w)
  end.
Definition uopen (path : list Z) (omode : Z) (w : world) : option Z * world :=
  if has omode O_CREATE then match ucreate path false w with Some (i, w) => alloc_fd i omode w | None => (None, w) end
  else match unamei path w with
       | None => (None, w)
       | Some i =>
           match w_nodes w !! i with
           | Some (UDir _) => if omode =? O_RDONLY then alloc_fd i omode w else (None, w)
           | Some _ => alloc_fd i omode w
           | None => (None, w)
           end
       end.
Definition fd_of (fd : Z) (w : world) : option (Z * Z * Z) := if 0 <=? fd then mjoin (w_fds w !! Z.to_nat fd) else None.
Definition uclose (fd : Z) (w : world) : option unit * world :=
  match fd_of fd w with Some _ => (Some tt, set_fds (<[Z.to_nat fd := None]> (w_fds w)) w) | None => (None, w) end.
(** A directory entry as read returns it. *)
Definition enc_entry (e : list Z * Z) : list Z := le_enc 2 e.2 ++ pad DIRSIZ e.1.
Definition contents (n : unode) : list Z := match n with UFile d => d | UDir ents => concat (map enc_entry ents) | UDev => [] end.
(** What the console gives: at most a line. *)
Fixpoint line_of (n : nat) (i : list Z) : list Z :=
  match n, i with S n, c :: i => if c =? NL then [c] else c :: line_of n i | _, _ => [] end.
Definition uread (fd n : Z) (w : world) : option (list Z) * world :=
  match fd_of fd w with
  | Some (i, off, mode) =>
      if has mode O_WRONLY then (None, w) else
      match w_nodes w !! i with
      | Some UDev => let l := line_of (Z.to_nat n) (w_in w) in (Some l, set_in (drop (length l) (w_in w)) w)
      | Some nd =>
          let l := take (Z.to_nat n) (drop (Z.to_nat off) (contents nd)) in
          (Some l, set_fds (<[Z.to_nat fd := Some (i, off + Z.of_nat (length l), mode)]> (w_fds w)) w)
      | None => (None, w)
      end
  | None => (None, w)
  end.
(** At the end of the file the write makes it longer.  A file that would grow
    over MAXFILE blocks gets the pieces of filewrite that fit before the call
    fails. *)
Definition WCHUNK : Z := (LOGSIZE - 1 - 1 - 2) / 2 * 512.
Definition overwrite (off : nat) (b d : list Z) : list Z := take off d ++ b ++ drop (off + length b) d.
Definition uwrite (fd : Z) (b : list Z) (w : world) : option Z * world :=
  match fd_of fd w with
  | Some (i, off, mode) =>
      if negb (has mode O_WRONLY || has mode O_RDWR) then (None, w) else
      match w_nodes w !! i with
      | Some UDev => (Some (Z.of_nat (length b)), put_out b w)
      | Some (UFile d) =>
          let full := MAXFILE * BSIZE <? off + Z.of_nat (length b) in
          let b := if full then take (Z.to_nat (WCHUNK * ((MAXFILE * BSIZE - off) / WCHUNK))) b else b in
          (if full then None else Some (Z.of_nat (length b)),
           set_nodes (insert i (UFile (overwrite (Z.to_nat off) b d)))
             (set_fds (<[Z.to_nat fd := Some (i, off + Z.of_nat (length b), mode)]> (w_fds w)) w))
      | _ => (None, w)
      end
  | None => (None, w)
  end.
(** type, inode, size *)
Definition node_stat (i : Z) (n : unode) : Z * Z * Z :=
  match n with
  | UFile d => (T_FILE, i, Z.of_nat (length d))
  | UDir ents => (T_DIR, i, 16 * Z.of_nat (length ents))
  | UDev => (T_DEV, i, 0)
  end.
Definition ufstat (fd : Z) (w : world) : option (Z * Z * Z) * world :=
  ('(i, _, _) ← fd_of fd w; node_stat i <$> w_nodes w !! i, w).
Definition uchdir (path : list Z) (w : world) : option unit * world :=
  match unamei path w with
  | Some i => match entries (w_nodes w) i with Some _ => (Some tt, set_cwd i w) | None => (None, w) end
  | None => (None, w)
  end.
Definition is_empty (ents : list (list Z * Z)) : bool := forallb (fun e => e.2 =? 0) (drop 2 ents).
Definition uunlink (path : list Z) (w : world) : option unit * world :=
  match unameiparent path w with
  | None => (None, w)
  | Some (dp, ents, name) =>
      if bool_decide (name = DOT) || bool_decide (name = DOTDOT) then (None, w) else
      match find_entry ents name with
      | None => (None, w)
      | Some (k, i) =>
          match entries (w_nodes w) i with
          | Some es => if is_empty es then (Some tt, set_nodes (insert dp (UDir (<[k := free_entry]> ents))) w) else (None, w)
          | None => (Some tt, set_nodes (insert dp (UDir (<[k := free_entry]> ents))) w)
          end
      end
  end.
Definition ulink (old new : list Z) (w : world) : option unit * world :=
  match unamei old w with
  | None => (None, w)
  | Some i =>
      match w_nodes w !! i with
      | Some (UDir _) | None => (None, w)
      | Some _ =>
          match unameiparent new w with
          | Some (dp, ents, name) =>
              match find_entry ents name with
              | None => (Some tt, set_nodes (insert dp (UDir (add_entry name i ents))) w)
              | Some _ => (None, w)
              end
          | None => (None, w)
          end
      end
  end.
Definition umkdir (path : list Z) (w : world) : option unit * world :=
  match ucreate path true w with Some (_, w) => (Some tt, w) | None => (None, w) end.
(** printf of the programs: the characters go to the descriptor one by one. *)
Fixpoint putcs (fd : Z) (l : list Z) (w : world) : world := match l with [] => w | c :: l => putcs fd l (snd (uwrite fd [c] w)) end.
Definition uprint (fd : Z) (fmt : list Z) (args : list uarg) : X world unit :=
  o <- need (uprintf fmt false args);; change (putcs fd o).
(** stat of ulib.c. *)
Definition ustat (path : list Z) : X world (option (Z * Z * Z)) :=
  fd <- call (uopen path O_RDONLY);;
  match fd with
  | None => xret None
  | Some fd => r <- call (ufstat fd);; call (uclose fd);; xret r
  end.
Definition ugets (buf : list Z) (max : Z) : X world (list Z) :=
  i <- the w_in;;
  let! (b, rest) := need (gets_str buf max i) in
  change (set_in rest);;
  xret b.
