(* ===== verification/Utils.v ===== *)
(** The file utilities: cat.c, cp.c, mv.c, rm.c, ls.c, wc.c, touch.c, mkdir.c,
    rename.c, ln.c, echo.c and history.c.

    Each main is a function of its arguments over the calls of [Ufs]; [fuel]
    bounds the loops over reads and the recursion of rm.  A buffer that was
    never written holds [junk]. *)
From S2P Require Import Prelude Params Str Fs Ulib Make Exit Console Ufs.
Open Scope x_scope.

#[local] Abbreviation X := Exit.X.
#[local] Abbreviation NL := Ulib.NL.
Notation "'S!' s" := (UStr (Some s)) (at level 10, s at level 9).
Definition line (s : string) : list Z := chars s ++ [NL].
Definition eqs (a : list Z) (s : string) : bool := ustrcmp a (chars s) =? 0.

(** read and write until the end; false is a read error. *)
Fixpoint copy_loop (fuel : nat) (size src dst : Z) : X world bool :=
  match fuel with
  | O => fail OutOfFuel
  | S fuel =>
      b <- call (uread src size);;
      match b with
      | None => xret false
      | Some [] => xret true
      | Some b => call (uwrite dst b);; copy_loop fuel size src dst
      end
  end.

(** ** cat.c *)
Section programs.
Variable fuel : nat.

Definition cat (fd dst : Z) : X world unit :=
  ok <- copy_loop fuel 512 fd dst;;
  if ok : bool then xret tt else uprint 1 (line "cat: read error") [];; exit.
Fixpoint print_lines (l : list string) : X world unit :=
  match l with [] => xret tt | s :: l => uprint 1 (line s) [];; print_lines l end.
Definition cat_help : list string :=
  ["SYNOPSIS"; "    cat [FILE]..."; "DESCRIPTION"; "    Concatenate files, or standard input, to standard output."; "";
   "    --help              display this help and exit"; ""; "    With no FILE, or when FILE is -, read standard input."; "EXAMPLES";
   "    cat f               Output f's contents."; "    cat -               Output standard input's contents.";
   "    cat                 Output standard input's contents."]%string.
(** The place of a > that is the last argument but one. *)
Fixpoint find_redirect (i : Z) (args : list (list Z)) : Z :=
  match args with
  | [] => 0
  | a :: args => if eqs a ">" && (length args =? 1)%nat then i else find_redirect (i + 1) args
  end.
(** What is typed goes to the file until a line says so. *)
Fixpoint type_in (fuel : nat) (fd : option Z) : X world unit :=
  match fuel with
  | O => fail OutOfFuel
  | S fuel =>
      b <- ugets (zeros 512) 512;;
      let buf := cstr b in
      if (ustrcmp buf (line "/exit") =? 0) || (ustrcmp buf (line "ESC") =? 0) then
        call (uclose (default (-1) fd));; change (set_status SHELL);; exit
      else call (uwrite (default (-1) fd) buf);; type_in fuel fd
  end.
(** The files one after the other to [dst]. *)
Fixpoint cat_files (args : list (list Z)) (dst : Z) : X world unit :=
  match args with
  | [] => xret tt
  | a :: args =>
      fd <- call (uopen a O_RDONLY);;
      match fd with
      | None => uprint 1 (line "cat: cannot open %s") [S! a];; change (set_status SHELL);; exit
      | Some fd => cat fd dst;; call (uclose fd);; cat_files args dst
      end
  end.
Definition cat_main (argv : list (list Z)) : X world unit :=
  change (set_status CAT);;
  match tail argv with
  | [] => cat 0 1;; change (set_status SHELL);; exit
  | (a1 :: _) as args =>
      if existsb (fun a => eqs a "--help") args then print_lines cat_help;; exit else
      let loc := if eqs a1 "-" && (length argv =? 3)%nat then 1 else find_redirect 1 args in
      if loc =? 1 then
        fd <- call (uopen (nth 2 argv []) (Z.lor O_CREATE O_WRONLY));;
        type_in fuel fd
      else
        (if 1 <? loc then
           fd <- call (uopen (List.last argv []) (Z.lor O_CREATE O_WRONLY));;
           cat_files (take (Z.to_nat loc - 1) args) (default (-1) fd);;
           call (uclose (default (-1) fd));; xret tt
         else cat_files args 1);;
        change (set_status SHELL);; exit
  end.

(** ** ls.c, and ls in cp.c and mv.c *)
Definition print_stat (name : list Z) (st : Z * Z * Z) : X world unit :=
  let '(t, ino, size) := st in uprint 1 (line "%s %d %d %d") [S! (fmtname name); UInt t; UInt ino; UInt size].
Fixpoint ls_entries (fuel : nat) (err : string) (show : list Z -> Z * Z * Z -> X world unit) (path : list Z) (fd : Z) : X world unit :=
  match fuel with
  | O => fail OutOfFuel
  | S fuel =>
      de <- call (uread fd 16);;
      let de := default [] de in
      if negb (length de =? 16)%nat then xret tt else
      if rd 2 0 de =? 0 then ls_entries fuel err show path fd else
      let buf := path ++ chars "/" ++ cstr (slice 2 14 de) in
      st <- ustat buf;;
      match st with
      | None => uprint 1 (chars err ++ line "cannot stat %s") [S! buf]
      | Some st => show buf st
      end;;
      ls_entries fuel err show path fd
  end.
Definition ls_path (err : string) (show_file show_entry : list Z -> Z * Z * Z -> X world unit) (path : list Z) : X world unit :=
  fd <- call (uopen path O_RDONLY);;
  match fd with
  | None => uprint 2 (chars err ++ line "cannot open %s") [S! path]
  | Some fd =>
      st <- call (ufstat fd);;
      match st with
      | None => uprint 2 (chars err ++ line "cannot stat %s") [S! path];; call (uclose fd);; xret tt
      | Some st =>
          (if st.1.1 =? T_FILE then show_file path st
           else if st.1.1 =? T_DIR then
             if 512 <? Z.of_nat (length path) + 1 + Z.of_nat DIRSIZ + 1 then uprint 1 (chars err ++ line "path too long") []
             else ls_entries fuel err show_entry path fd
           else xret tt);;
          call (uclose fd);; xret tt
      end
  end.
Definition ls : list Z -> X world unit := ls_path "ls: " print_stat print_stat.
Fixpoint ls_args (args : list (list Z)) : X world unit := match args with [] => exit | a :: args => ls a;; ls_args args end.
Definition ls_main (argv : list (list Z)) : X world unit :=
  if (length argv <? 2)%nat then ls (chars ".");; exit else ls_args (tail argv).

(** ** cp.c and mv.c *)
Definition cp_show (type : string) (name : list Z) (st : Z * Z * Z) : X world unit :=
  uprint 1 (chars "name = %s, type = " ++ chars type ++ line ", size = %d") [S! (fmtname name); UInt st.2].
Definition cp_ls : list Z -> X world unit := ls_path "" (cp_show "file") (cp_show "directory").
(** The name of the copy: a path that ends in / gets the name of the source. *)
Definition dest_name (src dest : list Z) : X world (list Z) :=
  com <- strcpy (zeros 128) dest;;
  c <- need (last dest);;
  if c =? SLASH then
    rest <- strcpy (drop (length dest) com) (last_part src);;
    xret (cstr (take (length dest) com ++ rest))
  else xret (cstr com).
(** What cp and mv have in common; [verb] is "copy" or "move". *)
Definition copy_file (cmd verb : string) (argv : list (list Z)) : X world unit :=
  match argv with
  | _ :: src :: dest :: _ =>
      fd_src <- call (uopen src O_RDONLY);;
      match fd_src with
      | None => uprint 1 (line "open source file failed") [];; exit
      | Some fd_src =>
          st <- call (ufstat fd_src);;
          st <- need st;;
          if st.1.1 =? T_DIR then
            uprint 1 (line "source file is a directory, the files in that directory is:") [];;
            cp_ls src;;
            uprint 1 (line "the program can't open the file in that directory after list them.") [];;
            uprint 1 (chars "So, I'm sorry that you have to " ++ chars verb ++ line " them one by one.") [];;
            exit
          else
          com <- dest_name src dest;;
          fd_dest <- call (uopen com (Z.lor O_WRONLY O_CREATE));;
          match fd_dest with
          | None => uprint 1 (line "create dest file failed") [];; exit
          | Some fd_dest =>
              copy_loop fuel 256 fd_src fd_dest;;
              call (uclose fd_src);;
              call (uclose fd_dest);;
              xret tt
          end
      end
  | _ => uprint 1 (chars "please input the command as [" ++ chars cmd ++ line " src_file dest_file]") [];; exit
  end.
Definition cp_main (argv : list (list Z)) : X world unit := copy_file "cp" "copy" argv;; exit.
Definition mv_main (argv : list (list Z)) : X world unit :=
  copy_file "mv" "move" argv;;
  r <- call (uunlink (nth 1 argv []));;
  match r with None => uprint 1 (line "delete source file failed") [] | Some _ => xret tt end;;
  exit.
End programs.

(** ** rm.c *)
Fixpoint rm_entries (fuel : nat) (fd : Z) (cmdall : list (list Z)) : X world (list (list Z)) :=
  match fuel with
  | O => fail OutOfFuel
  | S fuel =>
      de <- call (uread fd 16);;
      let de := default [] de in
      if negb (length de =? 16)%nat then xret cmdall else
      if rd 2 0 de =? 0 then rm_entries fuel fd cmdall else
      let buf := chars "./" ++ cstr (slice 2 14 de) in
      st <- ustat buf;;
      match st with
      | None => uprint 1 (line "getcmdlist: cannot stat %s") [S! buf];; rm_entries fuel fd cmdall
      | Some st =>
          if (st.1.1 =? 1) || (st.1.1 =? 2) then
            if MAX_EXECMD <=? Z.of_nat (length cmdall) then undef else rm_entries fuel fd (cmdall ++ [listed buf])
          else rm_entries fuel fd cmdall
      end
  end.
(** getcmdlist(".") *)
Definition rm_getcmdlist (fuel : nat) : X world (list (list Z)) :=
  fd <- call (uopen (chars ".") O_RDONLY);;
  fd <- need fd;;
  l <- rm_entries fuel fd [];;
  call (uclose fd);;
  xret l.
Fixpoint rm_each (rm : list Z -> X world Z) (path : list Z) (l : list (list Z)) (result : Z) : X world Z :=
  match l with
  | [] => xret result
  | c :: l =>
      if eqs c "." || eqs c ".." then rm_each rm path l result else
      r <- rm c;;
      if r <? 0 then uprint 1 (line "rm: %s/%s failed to delete") [S! path; S! c];; rm_each rm path l (-1)
      else rm_each rm path l result
  end.
Fixpoint recurRM (fuel : nat) (path : list Z) : X world Z :=
  match fuel with
  | O => fail OutOfFuel
  | S fuel =>
      d <- call (uchdir path);;
      match d with
      | None =>
          u <- call (uunlink path);;
          match u with
          | None => uprint 1 (line "rm: %s file failed to delete") [S! path];; xret (-1)
          | Some _ => xret 0
          end
      | Some _ =>
          cmd <- rm_getcmdlist fuel;;
          result <- rm_each (recurRM fuel) path cmd 0;;
          call (uchdir (chars "../"));;
          u <- call (uunlink path);;
          match u with
          | None => uprint 1 (line "rm: %s diretory failed to delete") [S! path];; xret (-1)
          | Some _ => xret result
          end
      end
  end.
Fixpoint rm_args (fuel : nat) (args : list (list Z)) : X world unit :=
  match args with
  | [] => exit
  | a :: args =>
      r <- recurRM fuel a;;
      (if r <? 0 then uprint 1 (line "rm: %s failed to delete") [S! a] else xret tt);;
      rm_args fuel args
  end.
Definition rm_main (fuel : nat) (argv : list (list Z)) : X world unit :=
  if (length argv <? 2)%nat then uprint 2 (line "Usage: rm files...") [];; exit else rm_args fuel (tail argv).

(** ** wc.c *)
Record counts := mkC { c_l : Z; c_w : Z; c_c : Z; c_inword : bool }.
Definition SPACES : list Z := [32; 13; 9; 10; 11].
Definition wc_char (s : counts) (ch : Z) : counts :=
  let l := if ch =? NL then c_l s + 1 else c_l s in
  match strchr SPACES ch with
  | Some _ => mkC l (c_w s) (c_c s + 1) false
  | None => if c_inword s then mkC l (c_w s) (c_c s + 1) true else mkC l (c_w s + 1) (c_c s + 1) true
  end.
Fixpoint wc_loop (fuel : nat) (fd : Z) (s : counts) : X world (option counts) :=
  match fuel with
  | O => fail OutOfFuel
  | S fuel =>
      b <- call (uread fd 512);;
      match b with
      | None => xret None
      | Some [] => xret (Some s)
      | Some b => wc_loop fuel fd (foldl wc_char s b)
      end
  end.
Definition wc (fuel : nat) (fd : Z) (name : list Z) : X world unit :=
  s <- wc_loop fuel fd (mkC 0 0 0 false);;
  match s with
  | None => uprint 1 (line "wc: read error") [];; exit
  | Some s => uprint 1 (line "%d %d %d %s") [UInt (c_l s); UInt (c_w s); UInt (c_c s); S! name]
  end.
Fixpoint wc_args (fuel : nat) (args : list (list Z)) : X world unit :=
  match args with
  | [] => exit
  | a :: args =>
      fd <- call (uopen a O_RDONLY);;
      match fd with
      | None => uprint 1 (line "wc: cannot open %s") [S! a];; exit
      | Some fd => wc fuel fd a;; call (uclose fd);; wc_args fuel args
      end
  end.
Definition wc_main (fuel : nat) (argv : list (list Z)) : X world unit :=
  match tail argv with [] => wc fuel 0 [];; exit | args => wc_args fuel args end.

(** ** touch.c, mkdir.c, rename.c, ln.c, echo.c, history.c *)
Fixpoint touch_args (args : list (list Z)) (count : Z) : X world Z :=
  match args with
  | [] => xret count
  | a :: args =>
      fd <- call (uopen a O_RDONLY);;
      match fd with
      | Some fd => call (uclose fd);; touch_args args count
      | None =>
          fd <- call (uopen a (Z.lor O_CREATE O_RDONLY));;
          call (uclose (default (-1) fd));;
          touch_args args (count + 1)
      end
  end.
Definition touch_main (argv : list (list Z)) : X world unit :=
  (if (length argv <=? 1)%nat then uprint 1 (line "Please input this command as [touch file_name1 file_name2 ...]") [] else xret tt);;
  count <- touch_args (tail argv) 0;;
  uprint 1 (line "%d file(s) created, %d file(s) skiped.") [UInt count; UInt (Z.of_nat (length argv) - 1 - count)];;
  exit.
Fixpoint mkdir_args (args : list (list Z)) : X world unit :=
  match args with
  | [] => exit
  | a :: args =>
      r <- call (umkdir a);;
      match r with None => uprint 2 (line "mkdir: %s failed to create") [S! a];; exit | Some _ => mkdir_args args end
  end.
Definition mkdir_main (argv : list (list Z)) : X world unit :=
  if (length argv <? 2)%nat then uprint 2 (line "Usage: mkdir files...") [];; exit else mkdir_args (tail argv).
Definition rename_main (argv : list (list Z)) : X world unit :=
  match argv with
  | _ :: a :: b :: _ =>
      r <- call (ulink a b);;
      match r with
      | Some _ => call (uunlink a);; exit
      | None => uprint 1 (line "rename failed, maybe the file is a directory.") [];; exit
      end
  | _ => uprint 1 (line "please input the command as [rename src_file dest_file]") [];; exit
  end.
Definition ln_main (argv : list (list Z)) : X world unit :=
  match argv with
  | [_; a; b] =>
      r <- call (ulink a b);;
      match r with None => uprint 2 (line "link %s %s: failed") [S! a; S! b];; exit | Some _ => exit end
  | _ => uprint 2 (line "Usage: ln old new") [];; exit
  end.
Fixpoint echo_args (args : list (list Z)) : X world unit :=
  match args with
  | [] => exit
  | a :: args => uprint 1 (chars "%s%s") [S! a; S! (match args with [] => [NL] | _ => chars " " end)];; echo_args args
  end.
Definition echo_main (argv : list (list Z)) : X world unit := echo_args (tail argv).
Fixpoint history_loop (fuel : nat) (fd : Z) (buffer : list Z) : X world unit :=
  match fuel with
  | O => fail OutOfFuel
  | S fuel =>
      b <- call (uread fd 256);;
      match b with
      | None | Some [] => xret tt
      | Some b =>
          s <- str (b ++ drop (length b) buffer);;
          uprint 1 (chars "%s") [S! s];;
          history_loop fuel fd (zeros 256)
      end
  end.
Definition history_main (fuel : nat) (junk : list Z) : X world unit :=
  fd <- call (uopen (chars "/.bash_history") O_RDONLY);;
  match fd with None => exit | Some fd => history_loop fuel fd junk;; call (uclose fd);; exit end.
