(* ===== verification/UtilsThms.v ===== *)
(** The utilities that copy: reads and writes up to the end of a file are one
    write of what is left of it; cp, mv, cat and wc. *)
From S2P Require Import Prelude Params Str Fs FsPath Ulib Make Exit Console Ufs Utils.
Open Scope x_scope.

(** ** Descriptors *)
Lemma fd_of_nat (fd : nat) w x : w_fds w !! fd = Some (Some x) -> fd_of (Z.of_nat fd) w = Some x.
Proof. intros H. unfold fd_of. rewrite (proj2 (Z.leb_le _ _)), Nat2Z.id, H by lia. done. Qed.
Lemma first_free_app (l : list (Z * Z * Z)) r : first_free (map Some l ++ None :: r) = Some (length l).
Proof. induction l as [|x l IH]; [done|]. cbn. by rewrite IH. Qed.
Lemma call_ok {A} (f : world -> option A * world) w r w' : f w = (r, w') -> call f w = Ok (Some r) w'.
Proof. unfold call. by intros ->. Qed.

(** ** Writes *)
Definition written (fd : Z) (b : list Z) (w : world) : world := snd (uwrite fd b w).
(** The descriptor takes [n] more bytes; it does not write to inode [i]. *)
Definition sink (fd n i : Z) (w : world) : Prop :=
  exists j off mode, fd_of fd w = Some (j, off, mode) /\ has mode O_WRONLY || has mode O_RDWR = true /\
    (w_nodes w !! j = Some UDev \/ exists d, w_nodes w !! j = Some (UFile d) /\ 0 <= off /\ off + n <= MAXFILE * BSIZE /\ off <= Z.of_nat (length d) /\ j <> i).
Lemma overwrite_app off b c (d : list Z) : (off <= length d)%nat -> overwrite (off + length b) c (overwrite off b d) = overwrite off (b ++ c) d.
Proof.
  intros Ho. unfold overwrite. rewrite (app_assoc (take off d) b), take_app_length' by (rewrite length_app, length_take; lia).
  rewrite length_app, <- !app_assoc. do 3 f_equal. rewrite !drop_app, length_take, drop_drop.
  rewrite (drop_ge (take off d)), (drop_ge b) by (rewrite ?length_take; lia). cbn [app]. f_equal. lia.
Qed.
Lemma length_overwrite off b (d : list Z) : (off <= length d)%nat -> (off + length b <= length (overwrite off b d))%nat.
Proof. intros Ho. unfold overwrite. rewrite !length_app, length_take. lia. Qed.
Lemma written_file fd j off mode d b w : fd_of fd w = Some (j, off, mode) -> has mode O_WRONLY || has mode O_RDWR = true ->
  w_nodes w !! j = Some (UFile d) -> off + Z.of_nat (length b) <= MAXFILE * BSIZE ->
  written fd b w = set_nodes (insert j (UFile (overwrite (Z.to_nat off) b d)))
    (set_fds (<[Z.to_nat fd := Some (j, off + Z.of_nat (length b), mode)]> (w_fds w)) w).
Proof. intros Hfd Hm Hj Hb. unfold written, uwrite. rewrite Hfd, Hm, Hj. cbn [negb]. by rewrite (proj2 (Z.ltb_ge _ _)) by lia. Qed.
Lemma written_dev fd j off mode b w : fd_of fd w = Some (j, off, mode) -> has mode O_WRONLY || has mode O_RDWR = true ->
  w_nodes w !! j = Some UDev -> written fd b w = put_out b w.
Proof. intros Hfd Hm Hj. unfold written, uwrite. by rewrite Hfd, Hm, Hj. Qed.
Lemma fd_of_insert fd x l w : fd_of fd w = Some x -> fd_of fd (set_fds (<[Z.to_nat fd := Some l]> (w_fds w)) w) = Some l.
Proof.
  unfold fd_of. destruct (0 <=? fd); [|done]. cbn [w_fds set_fds]. destruct (w_fds w !! Z.to_nat fd) as [y|] eqn:E; [|done]. intros _.
  by rewrite list_lookup_insert_eq by (by eapply lookup_lt_Some).
Qed.
(** Two writes are one. *)
Lemma written_app fd n i b c w : sink fd n i w -> Z.of_nat (length b + length c) <= n ->
  written fd c (written fd b w) = written fd (b ++ c) w.
Proof.
  intros (j&off&mode&Hfd&Hm&Hj) Hn. destruct Hj as [Hj|(d&Hj&H0&Hmax&Hlen&_)].
  - rewrite (written_dev fd j off mode b w Hfd Hm Hj), (written_dev fd j off mode (b ++ c) w Hfd Hm Hj).
    rewrite (written_dev fd j off mode c (put_out b w) Hfd Hm Hj). unfold put_out. cbn. by rewrite app_assoc.
  - rewrite (written_file fd j off mode d b w Hfd Hm Hj ltac:(lia)).
    rewrite (written_file fd j off mode d (b ++ c) w Hfd Hm Hj) by (rewrite length_app; lia).
    erewrite (written_file _ j (off + Z.of_nat (length b)) mode (overwrite (Z.to_nat off) b d)).
    2: { unfold set_nodes. pose proof (fd_of_insert fd _ (j, off + Z.of_nat (length b), mode) w Hfd) as H. exact H. }
    2: done. 2: by cbn; rewrite lookup_insert_eq. 2: lia.
    unfold set_nodes, set_fds. cbn. rewrite insert_insert_eq, list_insert_insert_eq.
    replace (Z.to_nat (off + Z.of_nat (length b))) with (Z.to_nat off + length b)%nat by lia. rewrite overwrite_app by lia.
    rewrite length_app, Nat2Z.inj_add, Z.add_assoc. done.
Qed.
Lemma written_nil fd n i w : sink fd n i w -> 0 <= n -> written fd [] w = w.
Proof.
  intros (j&off&mode&Hfd&Hm&Hj) Hn. destruct Hj as [Hj|(d&Hj&H0&Hmax&Hlen&_)].
  - rewrite (written_dev _ j off mode) by done. unfold put_out. rewrite app_nil_r. by destruct w.
  - rewrite (written_file fd j off mode d [] w Hfd Hm Hj ltac:(cbn; lia)). unfold overwrite. cbn [length app]. rewrite Nat.add_0_r, Z.add_0_r, take_drop.
    unfold set_nodes, set_fds. cbn. rewrite insert_id by done. rewrite list_insert_id; [by destruct w|].
    unfold fd_of in Hfd. destruct (0 <=? fd); [|done]. by destruct (w_fds w !! Z.to_nat fd) as [y|]; [cbn in Hfd; subst|].
Qed.
Lemma sink_written fd n i b w : sink fd n i w -> Z.of_nat (length b) <= n -> sink fd (n - Z.of_nat (length b)) i (written fd b w) /\
  (forall d, w_nodes w !! i = Some (UFile d) -> w_nodes (written fd b w) !! i = Some (UFile d)).
Proof.
  intros (j&off&mode&Hfd&Hm&Hj) Hn. destruct Hj as [Hj|(d&Hj&H0&Hmax&Hlen&Hi)].
  - rewrite (written_dev _ j off mode) by done. split; [|done]. exists j, off, mode. split_and!; [done|done|by left].
  - rewrite (written_file fd j off mode d b w Hfd Hm Hj ltac:(lia)). split.
    + exists j, (off + Z.of_nat (length b)), mode. split_and!; [|done|].
      * pose proof (fd_of_insert fd _ (j, off + Z.of_nat (length b), mode) w Hfd) as H. exact H.
      * right. exists (overwrite (Z.to_nat off) b d). cbn. rewrite lookup_insert_eq. pose proof (length_overwrite (Z.to_nat off) b d ltac:(lia)).
        split_and!; [done|lia|lia|lia|done].
    + intros e He. cbn. by rewrite lookup_insert_ne.
Qed.

(** ** Reads *)
Definition moved (fd : Z) (x : Z * Z * Z) (w : world) : world := set_fds (<[Z.to_nat fd := Some x]> (w_fds w)) w.
Lemma fd_of_moved fd fd' x w : Z.to_nat fd <> Z.to_nat fd' -> fd_of fd (moved fd' x w) = fd_of fd w.
Proof. intros Hne. unfold fd_of, moved. cbn. by rewrite list_lookup_insert_ne. Qed.
Lemma sink_moved fd fd' x n i w : Z.to_nat fd <> Z.to_nat fd' -> sink fd n i w -> sink fd n i (moved fd' x w).
Proof. intros Hne (j&off&mode&H). exists j, off, mode. by rewrite fd_of_moved. Qed.
Lemma moved_written fd fd' x n i b w : Z.to_nat fd <> Z.to_nat fd' -> sink fd n i w -> Z.of_nat (length b) <= n ->
  moved fd' x (written fd b w) = written fd b (moved fd' x w) /\ fd_of fd' (written fd b w) = fd_of fd' w.
Proof.
  intros Hne (j&off&mode&Hfd&Hm&Hj) Hn. assert (Hfd' : fd_of fd (moved fd' x w) = Some (j, off, mode)) by (by rewrite fd_of_moved).
  destruct Hj as [Hj|(d&Hj&H0&Hmax&Hlen&_)].
  - by rewrite (written_dev _ j off mode _ w Hfd Hm Hj), (written_dev _ j off mode _ (moved fd' x w) Hfd' Hm Hj).
  - rewrite (written_file fd j off mode d b w Hfd Hm Hj ltac:(lia)), (written_file fd j off mode d b (moved fd' x w) Hfd' Hm Hj ltac:(lia)). split.
    + unfold moved, set_nodes, set_fds. cbn. by rewrite list_insert_insert_ne.
    + unfold set_nodes. exact (fd_of_moved fd' fd (j, off + Z.of_nat (length b), mode) w (not_eq_sym Hne)).
Qed.
Lemma uread_file fd i off mode d n w : fd_of fd w = Some (i, off, mode) -> has mode O_WRONLY = false -> w_nodes w !! i = Some (UFile d) ->
  let b := take (Z.to_nat n) (drop (Z.to_nat off) d) in
  uread fd n w = (Some b, moved fd (i, off + Z.of_nat (length b), mode) w).
Proof. intros Hfd Hm Hi. unfold uread. by rewrite Hfd, Hm, Hi. Qed.
Lemma fd_of_moved_eq fd x y w : fd_of fd w = Some y -> fd_of fd (moved fd x w) = Some x.
Proof. apply fd_of_insert. Qed.
Lemma moved_moved fd x y w : moved fd x (moved fd y w) = moved fd x w.
Proof. unfold moved, set_fds. cbn. by rewrite list_insert_insert_eq. Qed.
Lemma moved_same fd x w : fd_of fd w = Some x -> moved fd x w = w.
Proof.
  intros Hfd. unfold moved, set_fds. rewrite list_insert_id; [by destruct w|]. unfold fd_of in Hfd. destruct (0 <=? fd); [|done].
  by destruct (w_fds w !! Z.to_nat fd) as [y|]; [cbn in Hfd; subst|].
Qed.
(** The loop over reads is one write of the rest of the file. *)
Lemma copy_loop_ok (fuel : nat) size src dst i mode d : forall off w, 0 < size -> 0 <= off ->
  Z.to_nat dst <> Z.to_nat src -> fd_of src w = Some (i, off, mode) -> has mode O_WRONLY = false -> w_nodes w !! i = Some (UFile d) ->
  let rest := drop (Z.to_nat off) d in
  sink dst (Z.of_nat (length rest)) i w -> (length rest < fuel)%nat ->
  copy_loop fuel size src dst w = Ok (Some true) (written dst rest (moved src (i, off + Z.of_nat (length rest), mode) w)).
Proof.
  induction fuel as [|fuel IH]; intros off w Hsz H0 Hne Hfd Hm Hi rest Hsink Hf; [lia|]. cbn [copy_loop].
  pose proof (uread_file src i off mode d size w Hfd Hm Hi) as Hread. fold rest in Hread. cbv zeta in Hread.
  rewrite (xbind_ok _ _ _ _ _ (call_ok _ _ _ _ Hread)). set (b := take (Z.to_nat size) rest) in *.
  destruct b as [|c b0] eqn:Eb.
  - assert (Hr : rest = []) by (unfold b in Eb; destruct rest; [done|]; destruct (Z.to_nat size) eqn:E; [lia|done]). clearbody rest. subst rest. cbn [length].
    by rewrite (written_nil dst 0 i) by (done || by apply sink_moved).
  - assert (Hb0 : (0 < length b)%nat) by (rewrite Eb; cbn; lia). rewrite <- Eb in *. clear c b0 Eb. set (w1 := moved src (i, off + Z.of_nat (length b), mode) w) in *.
    assert (Hlb : Z.of_nat (length b) <= Z.of_nat (length rest)) by (unfold b; rewrite length_take; lia).
    assert (Hs1 : sink dst (Z.of_nat (length rest)) i w1) by (by apply sink_moved).
    rewrite (xbind_ok _ _ _ (fst (uwrite dst b w1)) (written dst b w1)) by (apply call_ok; unfold written; by destruct (uwrite dst b w1)).
    destruct (moved_written dst src (i, off + Z.of_nat (length rest), mode) _ i b w1 Hne Hs1 Hlb) as [Hcomm Hfd2].
    destruct (sink_written dst _ i b w1 Hs1 Hlb) as [Hs2 Hi2].
    assert (Hrest : drop (Z.to_nat (off + Z.of_nat (length b))) d = drop (length b) rest) by (unfold rest; rewrite drop_drop; f_equal; lia).
    assert (Hbr : b ++ drop (length b) rest = rest).
    { unfold b. rewrite length_take. destruct (decide (Z.to_nat size <= length rest)%nat); [rewrite Nat.min_l by done; apply take_drop|].
      rewrite take_ge, Nat.min_r, drop_all by lia. by rewrite app_nil_r. }
    assert (Hlen : length (drop (length b) rest) = (length rest - length b)%nat) by apply length_drop.
    rewrite (IH (off + Z.of_nat (length b))); rewrite ?Hrest, ?Hlen; try done; try lia.
    + replace (off + Z.of_nat (length b) + Z.of_nat (length rest - length b)) with (off + Z.of_nat (length rest)) by lia.
      rewrite Hcomm. unfold w1 at 1. rewrite moved_moved. rewrite (written_app dst (Z.of_nat (length rest)) i); [by rewrite Hbr|by apply sink_moved|lia].
    + rewrite Hfd2. by eapply fd_of_moved_eq.
    + by apply Hi2.
    + by replace (Z.of_nat (length rest - length b)) with (Z.of_nat (length rest) - Z.of_nat (length b)) by lia.
Qed.

(** ** Opening, closing and printing *)
Definition fds_of (l : list (Z * Z * Z)) (n : nat) : list (option (Z * Z * Z)) := map Some l ++ replicate n None.
Lemma fds_alloc l n x : <[length l := Some x]> (fds_of l (S n)) = fds_of (l ++ [x]) n.
Proof. unfold fds_of. rewrite map_app, <- app_assoc. rewrite insert_app_r_alt by (by rewrite length_map). by rewrite length_map, Nat.sub_diag. Qed.
Lemma fds_free l n x : <[length l := None]> (fds_of (l ++ [x]) n) = fds_of l (S n).
Proof. unfold fds_of. rewrite map_app, <- app_assoc. rewrite insert_app_r_alt by (by rewrite length_map). by rewrite length_map, Nat.sub_diag. Qed.
Lemma fds_lookup l n k x : l !! k = Some x -> fds_of l n !! k = Some (Some x).
Proof. intros H. unfold fds_of. apply lookup_app_l_Some. by rewrite list_lookup_fmap, H. Qed.
Lemma alloc_fd_ok l n i omode w : w_fds w = fds_of l (S n) -> alloc_fd i omode w = (Some (Z.of_nat (length l)), set_fds (fds_of (l ++ [(i, 0, omode)]) n) w).
Proof. intros H. unfold alloc_fd. rewrite H. unfold fds_of at 1. cbn [replicate]. rewrite first_free_app. by rewrite fds_alloc. Qed.
Lemma uopen_file path i d l n w : unamei path w = Some i -> w_nodes w !! i = Some (UFile d) -> w_fds w = fds_of l (S n) ->
  uopen path O_RDONLY w = (Some (Z.of_nat (length l)), set_fds (fds_of (l ++ [(i, 0, O_RDONLY)]) n) w).
Proof. intros Hi Hd Hl. unfold uopen. change (has O_RDONLY O_CREATE) with false. cbv iota. rewrite Hi, Hd. by apply alloc_fd_ok. Qed.
Lemma fd_of_nth l n w (k : nat) x : w_fds w = fds_of l n -> l !! k = Some x -> fd_of (Z.of_nat k) w = Some x.
Proof. intros Hl Hk. apply fd_of_nat. rewrite Hl. by apply fds_lookup. Qed.
Lemma uclose_last l x n w : w_fds w = fds_of (l ++ [x]) n -> uclose (Z.of_nat (length l)) w = (Some tt, set_fds (fds_of l (S n)) w).
Proof.
  intros Hl. unfold uclose. rewrite (fd_of_nth (l ++ [x]) n w (length l) x Hl) by (by rewrite lookup_app_r, Nat.sub_diag).
  by rewrite Nat2Z.id, Hl, fds_free.
Qed.
(** The descriptor is the console. *)
Definition console (fd : Z) (w : world) : Prop :=
  exists j off mode, fd_of fd w = Some (j, off, mode) /\ has mode O_WRONLY || has mode O_RDWR = true /\ w_nodes w !! j = Some UDev.
Lemma console_written fd b w : console fd w -> written fd b w = put_out b w.
Proof. intros (j&off&mode&H1&H2&H3). by eapply written_dev. Qed.
Lemma putcs_console fd l w : console fd w -> putcs fd l w = put_out l w.
Proof.
  revert w. induction l as [|c l IH]; intros w Hc; cbn [putcs].
  - unfold put_out. rewrite app_nil_r. by destruct w.
  - change (snd (uwrite fd [c] w)) with (written fd [c] w). rewrite console_written by done.
    rewrite IH; [|by destruct Hc as (j&off&mode&H); exists j, off, mode]. unfold put_out. cbn. by rewrite <- app_assoc.
Qed.
Lemma uprint_console fd fmt args o w : console fd w -> uprintf fmt false args = Some o -> uprint fd fmt args w = Ok (Some tt) (put_out o w).
Proof. intros Hc Ho. unfold uprint. rewrite Ho. unfold need, change, up, xbind, bind, xret, ret, modify. by rewrite putcs_console. Qed.
Lemma console_sink fd n i w : console fd w -> sink fd n i w.
Proof. intros (j&off&mode&H1&H2&H3). exists j, off, mode. split_and!; [done|done|by left]. Qed.

(** ** wc *)
Definition blank (c : Z) : bool := bool_decide (c ∈ SPACES).
(** The pieces between blanks; the words are those that are not empty. *)
Fixpoint pieces (l : list Z) : list (list Z) :=
  match l with
  | [] => [[]]
  | c :: l => if blank c then [] :: pieces l else match pieces l with p :: ps => (c :: p) :: ps | [] => [[c]] end
  end.
Definition nlines (l : list Z) : Z := Z.of_nat (length (filter (fun c => c = Ulib.NL) l)).
Definition nwords (l : list Z) : Z := Z.of_nat (length (filter (fun p => p <> []) (pieces l))).
Lemma pieces_cons l : exists p ps, pieces l = p :: ps.
Proof. induction l as [|c l (p&ps&IH)]; cbn; [eauto|]. rewrite IH. destruct (blank c); eauto. Qed.
Lemma strchr_blank c : match strchr SPACES c with Some _ => blank c = true | None => blank c = false end.
Proof.
  unfold SPACES, blank. cbn [strchr].
  repeat match goal with |- context [?a =? c] => destruct (Z.eqb_spec a c); [subst; by rewrite bool_decide_true by set_solver|] end.
  rewrite bool_decide_false; [done|]. unfold SPACES. set_solver.
Qed.
(** A word goes on at the start of [l] when [inw]. *)
Definition more_words (inw : bool) (l : list Z) : Z :=
  nwords l - match pieces l with [] :: _ => 0 | _ => if inw then 1 else 0 end.
Lemma wc_fold l : forall s, c_l (foldl wc_char s l) = c_l s + nlines l /\ c_w (foldl wc_char s l) = c_w s + more_words (c_inword s) l /\
  c_c (foldl wc_char s l) = c_c s + Z.of_nat (length l).
Proof.
  unfold nlines, more_words, nwords. induction l as [|c l IH]; intros s.
  - cbn [foldl pieces length]. rewrite (filter_cons _ [] []), decide_False by naive_solver. change (filter (fun p : list Z => p <> []) []) with (@nil (list Z)).
    cbn [length]. change (length (filter (fun c : Z => c = Ulib.NL) [])) with O. lia.
  - cbn [foldl]. destruct (IH (wc_char s c)) as (H1&H2&H3). rewrite H1, H2, H3. clear H1 H2 H3 IH.
    cbn [pieces length]. destruct (pieces_cons l) as (p&ps&Hp). rewrite Hp. rewrite filter_cons. unfold wc_char. pose proof (strchr_blank c) as Hb.
    destruct (strchr SPACES c) as [r|]; rewrite Hb; [|destruct (c_inword s) eqn:Hin]; cbn [c_l c_w c_c c_inword];
      (split_and!; [destruct (Z.eqb_spec c Ulib.NL); [rewrite decide_True by done; cbn [length]; lia|rewrite decide_False by done; lia]| |lia]).
    + rewrite (filter_cons _ [] _). rewrite decide_False by naive_solver. destruct p; lia.
    + rewrite !filter_cons. rewrite (decide_True (P := c :: p <> [])) by done. destruct p; [rewrite decide_False by naive_solver|rewrite decide_True by done]; cbn [length]; lia.
    + rewrite !filter_cons. rewrite (decide_True (P := c :: p <> [])) by done. destruct p; [rewrite decide_False by naive_solver|rewrite decide_True by done]; cbn [length]; lia.
Qed.
Lemma wc_loop_ok (fuel : nat) fd i mode d : forall off w s, 0 <= off -> fd_of fd w = Some (i, off, mode) -> has mode O_WRONLY = false ->
  w_nodes w !! i = Some (UFile d) -> let rest := drop (Z.to_nat off) d in (length rest < fuel)%nat ->
  wc_loop fuel fd s w = Ok (Some (Some (foldl wc_char s rest))) (moved fd (i, off + Z.of_nat (length rest), mode) w).
Proof.
  induction fuel as [|fuel IH]; intros off w s H0 Hfd Hm Hi rest Hf; [lia|]. cbn [wc_loop].
  pose proof (uread_file fd i off mode d 512 w Hfd Hm Hi) as Hread. fold rest in Hread. cbv zeta in Hread.
  rewrite (xbind_ok _ _ _ _ _ (call_ok _ _ _ _ Hread)). set (b := take (Z.to_nat 512) rest) in *.
  assert (Hbr : b ++ drop (Z.to_nat 512) rest = rest) by apply take_drop. destruct b as [|c b0] eqn:Eb.
  - assert (Hr : rest = []) by (unfold b in Eb; by destruct rest). clearbody rest. by subst rest.
  - rewrite <- Eb in *. assert (Hlb : (0 < length b)%nat) by (rewrite Eb; cbn; lia). clear c b0 Eb.
    assert (Hlen : length b = Nat.min 512 (length rest)) by (unfold b; apply length_take).
    assert (Hrest : drop (Z.to_nat (off + Z.of_nat (length b))) d = drop (Z.to_nat 512) rest).
    { replace (Z.to_nat (off + Z.of_nat (length b))) with (Z.to_nat off + length b)%nat by lia. unfold rest. rewrite <- drop_drop. fold rest. rewrite Hlen.
      destruct (decide (512 <= length rest)%nat); [by rewrite Nat.min_l|]. by rewrite Nat.min_r, drop_all, drop_ge by lia. }
    assert (Hld : length (drop (Z.to_nat 512) rest) = (length rest - length b)%nat) by (rewrite length_drop; lia).
    rewrite (IH (off + Z.of_nat (length b))); rewrite ?Hrest, ?Hld; [|lia|by eapply fd_of_moved_eq|done|done|lia].
    rewrite <- foldl_app, Hbr, moved_moved. do 4 f_equal. lia.
Qed.
(** %d %d %d %s of the four. *)
Definition wc_line (l w c : Z) (name : list Z) : list Z :=
  uprintint l 10 true ++ [32] ++ uprintint w 10 true ++ [32] ++ uprintint c 10 true ++ [32] ++ name ++ [Ulib.NL].
Lemma wc_printed l w c name : uprintf (line "%d %d %d %s") false [UInt l; UInt w; UInt c; UStr (Some name)] = Some (wc_line l w c name).
Proof.
  change (line "%d %d %d %s") with [37; 100; 32; 37; 100; 32; 37; 100; 32; 37; 115; 10]. unfold wc_line. lazy -[uprintint app]. reflexivity.
Qed.
(** The descriptors of a program the shell has started. *)
Definition started (l : list (Z * Z * Z)) (n : nat) (w : world) : Prop := w_fds w = fds_of l n /\ console 1 w /\ (2 <= length l)%nat.
Lemma started_console l n w x m : started l n w -> console 1 (set_fds (fds_of (l ++ x) m) w).
Proof.
  intros (Hl&(j&off&mode&Hfd&H)&Hlen). exists j, off, mode. split; [|done]. unfold fd_of in *. cbn in *. rewrite Hl in Hfd. change (Z.to_nat 1) with 1%nat in *.
  unfold fds_of in *. rewrite lookup_app_l in Hfd |- * by (rewrite length_map; rewrite ?length_app; lia). rewrite map_app. by rewrite lookup_app_l by (rewrite length_map; lia).
Qed.
Lemma moved_last l x y n w : moved (Z.of_nat (length l)) y (set_fds (fds_of (l ++ [x]) n) w) = set_fds (fds_of (l ++ [y]) n) w.
Proof.
  unfold moved, set_fds. cbn. rewrite Nat2Z.id. f_equal. unfold fds_of. rewrite !map_app, <- !app_assoc. rewrite insert_app_r_alt by (by rewrite length_map).
  by rewrite length_map, Nat.sub_diag.
Qed.

(** wc counts.  Given a file, wc prints the number of its newlines, of its
    words (the pieces between blanks that are not empty) and of its bytes,
    and its name, and leaves everything else as it was; how the reads cut the
    file does not matter. *)
Theorem wc_counts fuel name i d l n w :
  started l (S n) w -> unamei name w = Some i -> w_nodes w !! i = Some (UFile d) -> (length d < fuel)%nat ->
  wc_main fuel [chars "wc"; name] w = Ok None (put_out (wc_line (nlines d) (nwords d) (Z.of_nat (length d)) name) w).
Proof.
  intros Hst Hi Hd Hf. pose proof Hst as (Hl&Hc&Hlen). cbn [wc_main tail wc_args].
  rewrite (xbind_ok _ _ _ _ _ (call_ok _ _ _ _ (uopen_file name i d l n w Hi Hd Hl))). set (w1 := set_fds _ w).
  assert (Hfd : fd_of (Z.of_nat (length l)) w1 = Some (i, 0, O_RDONLY)) by (apply (fd_of_nth (l ++ [(i, 0, O_RDONLY)]) n); [done|by rewrite lookup_app_r, Nat.sub_diag]).
  unfold wc. rewrite xbind_assoc. rewrite (xbind_ok _ _ _ _ _ (wc_loop_ok fuel _ i O_RDONLY d 0 w1 (mkC 0 0 0 false) ltac:(lia) Hfd eq_refl Hd Hf)). change (Z.to_nat 0) with O. rewrite drop_0.
  unfold w1. rewrite moved_last. cbv beta iota. destruct (wc_fold d (mkC 0 0 0 false)) as (H1&H2&H3). rewrite H1, H2, H3. cbn [c_l c_w c_c c_inword].
  rewrite (xbind_ok _ _ _ _ _ (uprint_console 1 _ _ _ _ (started_console l _ w _ _ Hst) (wc_printed _ _ _ _))).
  erewrite xbind_ok; [|apply call_ok, (uclose_last l (i, 0 + Z.of_nat (length d), O_RDONLY) n); reflexivity].
  unfold exit, ret. f_equal. unfold put_out, set_fds. cbn. rewrite <- Hl. replace (more_words false d) with (nwords d); [done|].
  unfold more_words. destruct (pieces d) as [|[] ?]; lia.
Qed.

(** ** cat *)
Lemma cat_file_ok fuel name i d l n w : started l (S n) w -> unamei name w = Some i -> w_nodes w !! i = Some (UFile d) -> (length d < fuel)%nat ->
  forall args, cat_files fuel (name :: args) 1 w = cat_files fuel args 1 (put_out d w).
Proof.
  intros Hst Hi Hd Hf args. pose proof Hst as (Hl&Hc&Hlen). cbn [cat_files].
  rewrite (xbind_ok _ _ _ _ _ (call_ok _ _ _ _ (uopen_file name i d l n w Hi Hd Hl))). set (w1 := set_fds _ w).
  assert (Hfd : fd_of (Z.of_nat (length l)) w1 = Some (i, 0, O_RDONLY)) by (apply (fd_of_nth (l ++ [(i, 0, O_RDONLY)]) n); [done|by rewrite lookup_app_r, Nat.sub_diag]).
  assert (Hc1 : console 1 w1) by (by eapply started_console). unfold cat. rewrite xbind_assoc.
  rewrite (xbind_ok _ _ _ _ _ (copy_loop_ok fuel 512 (Z.of_nat (length l)) 1 i O_RDONLY d 0 w1 ltac:(lia) ltac:(lia) ltac:(lia) Hfd eq_refl Hd (console_sink _ _ _ _ Hc1) Hf)).
  change (Z.to_nat 0) with O. rewrite drop_0. unfold w1. rewrite moved_last.
  rewrite console_written by (by eapply started_console). change (xbind (xret tt) ?f ?s) with (f tt s). cbv beta iota.
  erewrite xbind_ok; [|apply call_ok, (uclose_last l (i, 0 + Z.of_nat (length d), O_RDONLY) n); reflexivity].
  f_equal. unfold put_out, set_fds. cbn. by rewrite <- Hl.
Qed.
Definition reads_as (fuel : nat) (w : world) (a d : list Z) : Prop :=
  (exists i, unamei a w = Some i /\ w_nodes w !! i = Some (UFile d)) /\ (length d < fuel)%nat.
Lemma cat_files_ok fuel l n args : forall ds w, started l (S n) w -> Forall2 (reads_as fuel w) args ds ->
  cat_files fuel args 1 w = Ok (Some tt) (put_out (concat ds) w).
Proof.
  induction args as [|a args IH]; intros ds w Hst H; inversion H as [|a' d args' ds' ((i&Hi&Hd)&Hf) Hr]; subst.
  - unfold put_out. cbn. rewrite app_nil_r. by destruct w.
  - rewrite (cat_file_ok fuel a i d l n w Hst Hi Hd Hf), (IH ds' (put_out d w)).
    + unfold put_out. cbn. by rewrite app_assoc.
    + by destruct Hst as (?&(j&off&mode&?)&?); split_and!; [|exists j, off, mode|].
    + exact Hr.
Qed.
(** cat of files prints them one after the other. *)
Theorem cat_prints fuel args ds l n w : args <> [] -> started l (S n) w -> Forall2 (reads_as fuel w) args ds ->
  existsb (fun a => eqs a "--help") args = false -> find_redirect 1 args = 0 -> eqs (default [] (head args)) "-" && (length args =? 2)%nat = false ->
  cat_main fuel (chars "cat" :: args) w = Ok None (set_status SHELL (put_out (concat ds) w)).
Proof.
  intros Hne Hst Hr Hh Hf Hd. destruct args as [|a args]; [done|]. unfold cat_main. cbn [tail]. change (xbind (change ?f) ?k ?s) with (k tt (f s)). cbv beta.
  rewrite Hh. change (eqs a "-" && (length (chars "cat" :: a :: args) =? 3)%nat) with (eqs (default [] (head (a :: args))) "-" && (length (a :: args) =? 2)%nat).
  rewrite Hd, Hf. change (0 =? 1) with false. change (1 <? 0) with false. cbv iota.
  erewrite xbind_ok; [|apply (cat_files_ok fuel l n (a :: args) ds (set_status CAT w)); [|exact Hr]].
  - done.
  - by destruct Hst as (?&(j&off&mode&?)&?); split_and!; [|exists j, off, mode|].
Qed.

(** ** cp and mv. *)
(** ** The name of the copy *)
Definition dest_path (src dest : list Z) : list Z :=
  match last dest with Some c => if c =? SLASH then dest ++ last_part src else dest | None => dest end.
Lemma last_part_nonzero p : nonzero p -> nonzero (last_part p).
Proof. induction 1 as [|c p Hc Hp IH]; cbn [last_part]; [constructor|]. destruct (existsb _ p); [done|]. destruct (c =? 47); [done|by constructor]. Qed.
Lemma dest_name_ok src dest w : dest <> [] -> nonzero src -> nonzero dest -> (length dest + length (last_part src) < 128)%nat ->
  dest_name src dest w = Ok (Some (dest_path src dest)) w.
Proof.
  intros Hne Hs Hd Hlen. unfold dest_name, dest_path, strcpy. rewrite ustrcpy_ok. unfold zeros. rewrite length_replicate, (proj2 (Nat.ltb_lt _ _)) by lia.
  change (xbind (need (Some ?x)) ?f w) with (f x w). cbv beta. destruct (last dest) as [c|] eqn:El; [|by apply last_None in El].
  change (xbind (need (Some ?x)) ?f w) with (f x w). cbv beta. rewrite drop_replicate.
  replace (128 - (length dest + 1))%nat with (127 - length dest)%nat by lia. destruct (c =? SLASH).
  - rewrite drop_app_length, ustrcpy_ok. cbn [length]. rewrite length_replicate, (proj2 (Nat.ltb_lt _ _)) by lia.
    change (xbind (need (Some ?x)) ?f w) with (f x w). cbv beta. rewrite take_app_length. unfold xret, ret. do 2 f_equal.
    rewrite !cstr_app by (done || by apply last_part_nonzero). cbn [cstr Z.eqb]. by rewrite app_nil_r.
  - unfold xret, ret. do 2 f_equal. rewrite cstr_app by done. cbn. by rewrite app_nil_r.
Qed.

(** ** Creating a file *)
Lemma ucreate_fds path dir w j w1 F : ucreate path dir w = Some (j, w1) -> ucreate path dir (set_fds F w) = Some (j, set_fds F w1).
Proof.
  unfold ucreate. change (unameiparent path (set_fds F w)) with (unameiparent path w). destruct (unameiparent path w) as [[[dp ents] name]|]; [|done].
  cbn [mbind option_bind]. destruct (find_entry ents name) as [[k i]|].
  - change (w_nodes (set_fds F w)) with (w_nodes w). destruct (w_nodes w !! i) as [[]|]; try done. destruct dir; [done|]. by intros [= <- <-].
  - by intros [= <- <-].
Qed.
Lemma ucreate_keeps path w j w1 i d : ucreate path false w = Some (j, w1) -> w_nodes w !! w_next w = None -> w_nodes w !! i = Some (UFile d) ->
  w_nodes w1 !! i = Some (UFile d) /\ w_fds w1 = w_fds w.
Proof.
  unfold ucreate, unameiparent. intros Hc Hf Hi. destruct (last (names path)) as [name|]; [|done]. cbn [mbind option_bind] in Hc.
  destruct (walk _ _ _) as [dp|]; [|done]. cbn [mbind option_bind] in Hc. destruct (entries (w_nodes w) dp) as [ents|] eqn:He; [|done]. cbn [mbind option_bind] in Hc.
  destruct (find_entry ents name) as [[k i']|].
  - destruct (w_nodes w !! i') as [[]|]; try done. by injection Hc as <- <-.
  - injection Hc as <- <-. cbn. unfold entries in He. split; [|done]. rewrite !lookup_insert_ne; [done|congruence|intros ->; by rewrite Hi in He].
Qed.

(** ** Copying *)
Lemma fds_at l x r : (map Some l ++ x :: r : list (option (Z * Z * Z))) !! length l = Some x.
Proof. rewrite lookup_app_r by (by rewrite length_map). by rewrite length_map, Nat.sub_diag. Qed.
Lemma fds_put l x y r : <[length l := y]> (map Some l ++ x :: r : list (option (Z * Z * Z))) = map Some l ++ y :: r.
Proof. rewrite insert_app_r_alt by (by rewrite length_map). by rewrite length_map, Nat.sub_diag. Qed.
Lemma fds_two l (x y : Z * Z * Z) n : fds_of ((l ++ [x]) ++ [y]) n = map Some l ++ Some x :: Some y :: replicate n None.
Proof. unfold fds_of. rewrite !map_app, <- !app_assoc. done. Qed.
Lemma close_two l x y n w : w_fds w = fds_of ((l ++ [x]) ++ [y]) n ->
  uclose (Z.of_nat (length l)) w = (Some tt, set_fds (map Some l ++ None :: Some y :: replicate n None) w) /\
  uclose (Z.of_nat (length (l ++ [x]))) (set_fds (map Some l ++ None :: Some y :: replicate n None) w) = (Some tt, set_fds (fds_of l (S (S n))) w).
Proof.
  rewrite fds_two. intros Hl. split; unfold uclose.
  - erewrite fd_of_nat; [|rewrite Hl; apply fds_at]. by rewrite Nat2Z.id, Hl, fds_put.
  - rewrite length_app. cbn [length]. replace (Z.of_nat (length l + 1)) with (Z.of_nat (S (length l))) by lia.
    assert (Hat : w_fds (set_fds (map Some l ++ None :: Some y :: replicate n None) w) !! S (length l) = Some (Some y)).
    { cbn. rewrite lookup_app_r by (rewrite length_map; lia). rewrite length_map. by replace (S (length l) - length l)%nat with 1%nat by lia. }
    rewrite (fd_of_nat _ _ _ Hat), Nat2Z.id. cbn. unfold set_fds. cbn. do 3 f_equal. rewrite insert_app_r_alt by (rewrite length_map; lia).
    rewrite length_map. by replace (S (length l) - length l)%nat with 1%nat by lia.
Qed.
Definition CREATE : Z := Z.lor O_WRONLY O_CREATE.
(** What cp and mv need of their arguments and the files. *)
Definition copy_ok (fuel : nat) (src dest : list Z) (l : list (Z * Z * Z)) (n : nat) (w : world) (i : Z) (d : list Z) (j : Z) (w1 : world) (e : list Z) : Prop :=
  w_fds w = fds_of l (S (S n)) /\ w_nodes w !! w_next w = None /\
  (dest <> [] /\ nonzero src /\ nonzero dest /\ (length dest + length (last_part src) < 128)%nat) /\
  unamei src w = Some i /\ w_nodes w !! i = Some (UFile d) /\
  ucreate (dest_path src dest) false w = Some (j, w1) /\ w_nodes w1 !! j = Some (UFile e) /\ j <> i /\
  Z.of_nat (length d) <= MAXFILE * BSIZE /\ (length d < fuel)%nat.
Definition copied (d e : list Z) (j : Z) (w1 : world) : world := set_nodes (insert j (UFile (d ++ drop (length d) e))) w1.
Lemma copy_file_ok fuel cmd verb name src dest l n w i d j w1 e : copy_ok fuel src dest l n w i d j w1 e ->
  copy_file fuel cmd verb [name; src; dest] w = Ok (Some tt) (copied d e j w1).
Proof.
  intros (Hl&Hfresh&(Hne&Hs&Hd&Hlen)&Hi&Hdi&Hcr&Hj&Hji&Hmax&Hf). unfold copy_file.
  destruct (ucreate_keeps _ _ _ _ i d Hcr Hfresh Hdi) as [Hi1 Hl1].
  rewrite (xbind_ok _ _ _ _ _ (call_ok _ _ _ _ (uopen_file src i d l (S n) w Hi Hdi Hl))). set (x := (i, 0, O_RDONLY)). set (F := fds_of (l ++ [x]) (S n)).
  assert (Hfd : fd_of (Z.of_nat (length l)) (set_fds F w) = Some x) by (apply (fd_of_nth (l ++ [x]) (S n)); [done|by rewrite lookup_app_r, Nat.sub_diag]).
  assert (Hst : ufstat (Z.of_nat (length l)) (set_fds F w) = (Some (T_FILE, i, Z.of_nat (length d)), set_fds F w)).
  { unfold ufstat. rewrite Hfd. cbn [mbind option_bind x]. change (w_nodes (set_fds F w)) with (w_nodes w). by rewrite Hdi. }
  rewrite (xbind_ok _ _ _ _ _ (call_ok _ _ _ _ Hst)). change (xbind (need (Some ?x)) ?f ?s) with (f x s). cbv beta. cbn [fst]. change (T_FILE =? T_DIR) with false. cbv iota.
  rewrite (xbind_ok _ _ _ _ _ (dest_name_ok src dest (set_fds F w) Hne Hs Hd Hlen)).
  set (y := (j, 0, CREATE)). assert (Hopen : uopen (dest_path src dest) CREATE (set_fds F w) = (Some (Z.of_nat (length (l ++ [x]))), set_fds (fds_of ((l ++ [x]) ++ [y]) n) w1)).
  { unfold uopen. change (has CREATE O_CREATE) with true. cbv iota. rewrite (ucreate_fds _ _ _ _ _ F Hcr). by rewrite (alloc_fd_ok (l ++ [x]) n). }
  rewrite (xbind_ok _ _ _ _ _ (call_ok _ _ _ _ Hopen)). set (w2 := set_fds _ w1).
  assert (Hfs : fd_of (Z.of_nat (length l)) w2 = Some x) by (apply fd_of_nat; cbn; rewrite fds_two; apply fds_at).
  assert (Hfd2 : fd_of (Z.of_nat (length (l ++ [x]))) w2 = Some y) by (apply (fd_of_nth ((l ++ [x]) ++ [y]) n); [done|by rewrite lookup_app_r, Nat.sub_diag]).
  assert (Hne2 : Z.to_nat (Z.of_nat (length (l ++ [x]))) <> Z.to_nat (Z.of_nat (length l))) by (rewrite length_app; cbn; lia).
  erewrite xbind_ok; [|apply (copy_loop_ok fuel 256 _ (Z.of_nat (length (l ++ [x]))) i O_RDONLY d 0 w2); [lia|lia|done|done|done|done| |done]].
  2: { exists j, 0, CREATE. split_and!; [done|done|]. right. exists e. split_and!; [done|lia|done|lia|done]. }
  change (Z.to_nat 0) with O. rewrite drop_0. set (x' := (i, 0 + Z.of_nat (length d), O_RDONLY)).
  erewrite (written_file _ j 0 CREATE e d); [|by rewrite fd_of_moved|done|done|lia].
  set (y' := (j, 0 + Z.of_nat (length d), CREATE)).
  replace (set_nodes _ _) with (set_fds (fds_of ((l ++ [x']) ++ [y']) n) (copied d e j w1)).
  - destruct (close_two l x' y' n (set_fds (fds_of ((l ++ [x']) ++ [y']) n) (copied d e j w1)) eq_refl) as [H1 H2].
    rewrite (xbind_ok _ _ _ _ _ (call_ok _ _ _ _ H1)). replace (length (l ++ [x])) with (length (l ++ [x'])) by (by rewrite !length_app).
    rewrite (xbind_ok _ _ _ _ _ (call_ok _ _ _ _ H2)). unfold xret, ret. f_equal. unfold copied, set_nodes, set_fds. cbn. by rewrite <- Hl, <- Hl1.
  - unfold copied, set_nodes, set_fds, moved. cbn. f_equal. rewrite !fds_two, !Nat2Z.id, fds_put. rewrite length_app. cbn [length].
    rewrite insert_app_r_alt by (rewrite length_map; lia). rewrite length_map. by replace (length l + 1 - length l)%nat with 1%nat by lia.
Qed.

(** cp f g makes g what f is, up to the length of f. *)
Theorem cp_copies fuel src dest l n w i d j w1 e : copy_ok fuel src dest l n w i d j w1 e ->
  cp_main fuel [chars "cp"; src; dest] w = Ok None (copied d e j w1).
Proof. intros H. unfold cp_main. by rewrite (xbind_ok _ _ _ _ _ (copy_file_ok _ _ _ _ _ _ _ _ _ _ _ _ _ _ H)). Qed.

(** ** Directories as finite maps *)
Definition unique_names (ents : list (list Z * Z)) : Prop :=
  forall a b n i1 i2, ents !! a = Some (n, i1) -> ents !! b = Some (n, i2) -> i1 <> 0 -> i2 <> 0 -> a = b.
Definition wf_dirs (nodes : gmap Z unode) : Prop := forall dp ents, entries nodes dp = Some ents -> unique_names ents.
Implicit Types (ents : list (list Z * Z)) (nodes : gmap Z unode).
Lemma find_entry_lookup ents name k i : find_entry ents name = Some (k, i) -> ents !! k = Some (name, i) /\ i <> 0.
Proof.
  revert k. induction ents as [|[n j] ents IH]; intros k; cbn; [done|]. destruct (Z.eqb_spec j 0); cbn [negb andb].
  - destruct (find_entry ents name) as [[k' i']|]; [|done]. cbn. intros [= <- <-]. by apply IH.
  - case_bool_decide as Hn; [by intros [= <- <-]; subst|]. destruct (find_entry ents name) as [[k' i']|]; [|done]. cbn. intros [= <- <-]. by apply IH.
Qed.
Lemma find_entry_None ents name : find_entry ents name = None <-> forall k i, ents !! k = Some (name, i) -> i = 0.
Proof.
  induction ents as [|[n j] ents IH]; cbn; [split; [|done]; intros _ [|k] i; done|]. destruct (Z.eqb_spec j 0); cbn [negb andb].
  - split.
    + intros H [|k] i; [by intros [= <- <-]|]. apply IH. by destruct (find_entry ents name) as [[]|].
    + intros H. rewrite (proj2 IH); [done|]. intros k i Hk. apply (H (S k) i Hk).
  - case_bool_decide as Hn.
    + split; [done|]. intros H. subst. destruct n0. by apply (H O j).
    + split.
      * intros H [|k] i; [by intros [= -> ->]|]. apply IH. by destruct (find_entry ents name) as [[]|].
      * intros H. rewrite (proj2 IH); [done|]. intros k i Hk. apply (H (S k) i Hk).
Qed.
Lemma find_entry_unique ents name k i : unique_names ents -> ents !! k = Some (name, i) -> i <> 0 -> find_entry ents name = Some (k, i).
Proof.
  intros Hu Hk Hi. destruct (find_entry ents name) as [[k' i']|] eqn:Hf.
  - destruct (find_entry_lookup _ _ _ _ Hf) as [Hk' Hi']. pose proof (Hu k k' name i i' Hk Hk' Hi Hi') as ->. by rewrite Hk in Hk'; injection Hk' as ->.
  - by destruct (Hi (proj1 (find_entry_None _ _) Hf k i Hk)).
Qed.
(** A new entry takes a free place or one at the end. *)
Lemma add_entry_at name j ents : exists k, add_entry name j ents !! k = Some (name, j) /\ (ents !! k = None \/ exists n, ents !! k = Some (n, 0)) /\
  forall k', k' <> k -> add_entry name j ents !! k' = ents !! k'.
Proof.
  induction ents as [|[n i] ents (k&H1&H2&H3)]; cbn; [exists O; split_and!; [done|by left|by intros [|k']]|].
  destruct (Z.eqb_spec i 0) as [->|Hi]; [exists O; split_and!; [done|right; by exists n|by intros [|k']]|].
  exists (S k). split_and!; [done|done|]. intros [|k'] Hk; [done|]. apply H3. lia.
Qed.
Lemma add_entry_unique name j ents : unique_names ents -> find_entry ents name = None -> unique_names (add_entry name j ents).
Proof.
  intros Hu Hn. destruct (add_entry_at name j ents) as (k&H1&_&H3). rewrite find_entry_None in Hn. intros a b n i1 i2 Ha Hb Hi1 Hi2.
  destruct (decide (a = k)) as [->|Hak], (decide (b = k)) as [->|Hbk]; [done| | |].
  - rewrite H1 in Ha. injection Ha as <- <-. rewrite H3 in Hb by done. by destruct (Hi2 (Hn _ _ Hb)).
  - rewrite H1 in Hb. injection Hb as <- <-. rewrite H3 in Ha by done. by destruct (Hi1 (Hn _ _ Ha)).
  - rewrite H3 in Ha, Hb by done. by eapply Hu.
Qed.
Lemma free_unique ents k : unique_names ents -> unique_names (<[k := free_entry]> ents).
Proof.
  intros Hu a b n i1 i2 Ha Hb H1 H2. apply list_lookup_insert_Some in Ha as [(<-&[= <- <-]&?)|[Hak Ha]]; [done|].
  apply list_lookup_insert_Some in Hb as [(<-&[= <- <-]&?)|[Hbk Hb]]; [done|]. by eapply Hu.
Qed.
(** What is found stays found when an entry is added, or another one freed. *)
Lemma find_entry_add name j ents n k i : unique_names ents -> find_entry ents name = None -> find_entry ents n = Some (k, i) -> find_entry (add_entry name j ents) n = Some (k, i).
Proof.
  intros Hu Hn Hf. destruct (find_entry_lookup _ _ _ _ Hf) as [Hk Hi]. apply find_entry_unique; [by apply add_entry_unique| |done].
  destruct (add_entry_at name j ents) as (k0&H1&H2&H3). rewrite H3; [done|]. intros ->. destruct H2 as [H2|[n' H2]]; rewrite H2 in Hk; [done|]. by injection Hk as _ <-.
Qed.
Lemma find_entry_free ents n k k' i : unique_names ents -> find_entry ents n = Some (k, i) -> k' <> k -> find_entry (<[k' := free_entry]> ents) n = Some (k, i).
Proof.
  intros Hu Hf Hne. destruct (find_entry_lookup _ _ _ _ Hf) as [Hk Hi]. apply find_entry_unique; [by apply free_unique| |done]. by rewrite list_lookup_insert_ne.
Qed.
Lemma find_entry_freed ents n k i : unique_names ents -> find_entry ents n = Some (k, i) -> find_entry (<[k := free_entry]> ents) n = None.
Proof.
  intros Hu Hf. destruct (find_entry_lookup _ _ _ _ Hf) as [Hk Hi]. apply find_entry_None. intros a b Ha.
  apply list_lookup_insert_Some in Ha as [(<-&[= _ <-]&?)|[Hak Ha]]; [done|]. destruct (decide (b = 0)) as [|Hb]; [done|]. by destruct Hak; eapply Hu.
Qed.

(** ** Walks *)
Lemma walk_app nodes a es e : walk nodes a (es ++ [e]) = (b ← walk nodes a es; ents ← entries nodes b; '(_, j) ← find_entry ents e; Some j).
Proof.
  revert a. induction es as [|e' es IH]; intros a; cbn.
  - by destruct (entries nodes a) as [ents|]; [cbn; destruct (find_entry ents e) as [[]|]|].
  - destruct (entries nodes a) as [ents|]; [|done]. cbn. destruct (find_entry ents e') as [[k j]|]; [|done]. cbn. apply IH.
Qed.
(** The entries that lead to inodes of [P] are still found. *)
Definition keeps (P : Z -> Prop) nodes nodes' : Prop := forall a ents n k b, entries nodes a = Some ents -> find_entry ents n = Some (k, b) -> P b ->
  exists ents' k', entries nodes' a = Some ents' /\ find_entry ents' n = Some (k', b).
Lemma walk_keeps P nodes nodes' : keeps P nodes nodes' -> (forall b, is_Some (entries nodes b) -> P b) ->
  forall es a b, walk nodes a es = Some b -> P b -> walk nodes' a es = Some b.
Proof.
  intros Hk HP. induction es as [|e es IH]; intros a b Hw Hb; [done|]. cbn in Hw |- *. destruct (entries nodes a) as [ents|] eqn:He; [|done]. cbn in Hw.
  destruct (find_entry ents e) as [[k c]|] eqn:Hf; [|done]. cbn in Hw.
  assert (Hc : P c). { destruct es as [|e2 es]; [by injection Hw as ->|]. apply HP. cbn in Hw. by destruct (entries nodes c). }
  destruct (Hk a ents e k c He Hf Hc) as (ents'&k'&->&Hf'). cbn. rewrite Hf'. cbn. by apply IH.
Qed.
Lemma names_split path name : last (names path) = Some name -> names path = removelast (names path) ++ [name].
Proof.
  intros H. destruct (decide (names path = [])) as [E|E]; [by rewrite E in H|]. destruct (exists_last E) as (l'&x&Hx).
  rewrite Hx in *. rewrite last_snoc in H. injection H as ->. by rewrite removelast_last.
Qed.
(** namei and nameiparent agree. *)
Lemma unamei_parent path w i : names path <> [] -> unamei path w = Some i ->
  exists dp ents name k, unameiparent path w = Some (dp, ents, name) /\ find_entry ents name = Some (k, i) /\ entries (w_nodes w) dp = Some ents /\
    walk (w_nodes w) (start path w) (removelast (names path)) = Some dp /\ last (names path) = Some name.
Proof.
  unfold unamei, unameiparent. intros Hne Hw. destruct (last (names path)) as [name|] eqn:Hl; [|by apply last_None in Hl].
  rewrite (names_split path name Hl), walk_app in Hw. cbn. destruct (walk _ _ (removelast _)) as [dp|] eqn:Hd; [|done]. cbn in *.
  destruct (entries (w_nodes w) dp) as [ents|] eqn:He; [|done]. cbn in *. destruct (find_entry ents name) as [[k j]|] eqn:Hf; [|done]. injection Hw as ->.
  exists dp, ents, name, k. done.
Qed.
(** Creating keeps what there is and gives the path its file. *)
Lemma ucreate_ok path w j w1 : ucreate path false w = Some (j, w1) -> w_nodes w !! w_next w = None -> 0 < w_next w -> wf_dirs (w_nodes w) ->
  keeps (fun _ => True) (w_nodes w) (w_nodes w1) /\ wf_dirs (w_nodes w1) /\ unamei path w1 = Some j /\ w_cwd w1 = w_cwd w.
Proof.
  intros Hc Hf H0 Hwf. unfold ucreate in Hc. destruct (unameiparent path w) as [[[dp ents] name]|] eqn:Hp; [|done]. cbn in Hc.
  unfold unameiparent in Hp. destruct (last (names path)) as [nm|] eqn:Hl; [|done]. cbn in Hp.
  destruct (walk _ _ (removelast _)) as [dp'|] eqn:Hd; [|done]. cbn in Hp. destruct (entries (w_nodes w) dp') as [ents'|] eqn:He; [|done]. injection Hp as -> -> ->.
  destruct (find_entry ents name) as [[k i']|] eqn:Hfe.
  - destruct (w_nodes w !! i') as [[]|]; try done. injection Hc as <- <-. split_and!; [|done| |done]; [intros a es n k0 b; eauto|].
    unfold unamei. rewrite (names_split path name Hl), walk_app, Hd. cbn. rewrite He. cbn. by rewrite Hfe.
  - injection Hc as <- <-. cbn. set (i := w_next w) in *. set (nodes' := <[dp := UDir (add_entry name i ents)]> (<[i := UFile []]> (w_nodes w))).
    assert (Hent : forall a, entries nodes' a = if decide (a = dp) then Some (add_entry name i ents) else entries (w_nodes w) a).
    { intros a. unfold entries, nodes'. destruct (decide (a = dp)) as [->|Ha]; [by rewrite lookup_insert_eq|]. rewrite lookup_insert_ne by done.
      destruct (decide (a = i)) as [->|Hi]; [by rewrite lookup_insert_eq, Hf|]. by rewrite lookup_insert_ne. }
    assert (Hk : keeps (fun _ => True) (w_nodes w) nodes').
    { intros a es n k b Hes Hfind _. rewrite Hent. destruct (decide (a = dp)) as [->|Ha]; [|by exists es, k]. rewrite He in Hes. injection Hes as <-.
      exists (add_entry name i ents), k. split; [done|]. apply find_entry_add; [by eapply Hwf|done|done]. }
    split_and!; [done| | |done].
    + intros a es. rewrite Hent. destruct (decide (a = dp)) as [->|Ha]; [|apply Hwf]. intros [= <-]. apply add_entry_unique; [by eapply Hwf|done].
    + unfold unamei. cbn. change (start path _) with (start path w). rewrite (names_split path name Hl), walk_app. fold nodes'.
      rewrite (walk_keeps _ _ _ Hk (fun _ _ => I) _ _ _ Hd I). cbn. rewrite Hent, decide_True by done. cbn.
      destruct (add_entry_at name i ents) as (k&H1&_). rewrite (find_entry_unique _ name k i); [done|apply add_entry_unique; [by eapply Hwf|done]|done|lia].
Qed.
(** Freeing the entry of a file. *)
Lemma free_keeps nodes dp ents name k i : wf_dirs nodes -> entries nodes dp = Some ents -> find_entry ents name = Some (k, i) ->
  keeps (fun b => b <> i) nodes (<[dp := UDir (<[k := free_entry]> ents)]> nodes).
Proof.
  intros Hwf He Hf a es n k' b Hes Hfind Hb. unfold entries. destruct (decide (a = dp)) as [->|Ha].
  - rewrite lookup_insert_eq. rewrite He in Hes. injection Hes as <-. exists (<[k := free_entry]> ents), k'. split; [done|].
    apply find_entry_free; [by eapply Hwf|done|]. intros ->. apply find_entry_lookup in Hf as [Hf _]. apply find_entry_lookup in Hfind as [Hfind _]. congruence.
  - rewrite lookup_insert_ne by done. by exists es, k'.
Qed.

(** C25. mv moves a file.  The paths are of a file and of another one, not the
    same ([j <> i] of [copy_ok]), in directories without double names, the
    path of the destination with the last part of the source below 128
    characters, two descriptors are free, the destination can be made.  mv gives the second path, or the name of the
    source in it when it ends in /, the data [d] of the first, followed by
    what a file [e] that was there had after that length, since nothing cuts
    it (nothing when it is a new file or not longer); the first is no name any
    more; all other files are what they were. *)
Theorem mv_moves fuel src dest l n w i d j w1 e :
  copy_ok fuel src dest l n w i d j w1 e -> 0 < w_next w -> wf_dirs (w_nodes w) ->
  names src <> [] -> last (names src) <> Some DOT -> last (names src) <> Some DOTDOT ->
  exists w2, mv_main fuel [chars "mv"; src; dest] w = Ok None w2 /\
    unamei src w2 = None /\ unamei (dest_path src dest) w2 = Some j /\ w_nodes w2 !! j = Some (UFile (d ++ drop (length d) e)) /\
    (forall i' d', i' <> j -> w_nodes w !! i' = Some (UFile d') -> w_nodes w2 !! i' = Some (UFile d')).
Proof.
  intros Hc H0 Hwf Hne Hdot Hdd. pose proof Hc as (Hl&Hfresh&_&Hi&Hdi&Hcr&Hj&Hji&_). destruct (ucreate_ok _ _ _ _ Hcr Hfresh H0 Hwf) as (Hk1&Hwf1&Hnj&Hcwd).
  pose proof (copy_file_ok fuel "mv" "move" (chars "mv") src dest l n w i d j w1 e Hc) as Hcopy. set (wc := copied d e j w1) in *.
  assert (Hent : forall a, entries (w_nodes wc) a = entries (w_nodes w1) a).
  { intros a. unfold entries, wc. cbn. destruct (decide (a = j)) as [->|Ha]; [by rewrite lookup_insert_eq, Hj|]. by rewrite lookup_insert_ne. }
  assert (Hk : keeps (fun _ => True) (w_nodes w) (w_nodes wc)) by (intros a es nm k b H1 H2 H3; destruct (Hk1 a es nm k b H1 H2 H3) as (es'&k'&?&?); exists es', k'; by rewrite Hent).
  assert (Hwfc : wf_dirs (w_nodes wc)) by (intros a es; rewrite Hent; apply Hwf1).
  assert (Hstart : forall p, start p wc = start p w) by (intros p; unfold start; change (w_cwd wc) with (w_cwd w1); by rewrite Hcwd).
  assert (Hsrc : unamei src wc = Some i) by (unfold unamei; rewrite Hstart; by apply (walk_keeps _ _ _ Hk)).
  destruct (unamei_parent src wc i Hne Hsrc) as (dp&ents&name&k&Hp&Hf&He&Hwd&Hlast).
  assert (Hidir : entries (w_nodes wc) i = None).
  { rewrite Hent. unfold entries. by rewrite (proj1 (ucreate_keeps _ _ _ _ i d Hcr Hfresh Hdi)). }
  set (w2 := set_nodes (insert dp (UDir (<[k := free_entry]> ents))) wc).
  assert (Hun : uunlink src wc = (Some tt, w2)).
  { unfold uunlink. rewrite Hp. rewrite !bool_decide_false by congruence. cbn [orb]. by rewrite Hf, Hidir. }
  assert (Hkf : keeps (fun b => b <> i) (w_nodes wc) (w_nodes w2)) by (by eapply free_keeps).
  assert (HP : forall b, is_Some (entries (w_nodes wc) b) -> b <> i) by (intros b [? Hb] ->; by rewrite Hidir in Hb).
  exists w2. split_and!.
  - unfold mv_main. rewrite (xbind_ok _ _ _ _ _ Hcopy). cbn [nth]. rewrite (xbind_ok _ _ _ _ _ (call_ok _ _ _ _ Hun)). done.
  - unfold unamei. change (start src w2) with (start src wc). rewrite (names_split src name Hlast), walk_app.
    rewrite (walk_keeps _ _ _ Hkf HP _ _ _ Hwd) by (apply HP; by rewrite He). cbn. unfold entries at 1. rewrite lookup_insert_eq. cbn.
    by rewrite (find_entry_freed ents name k i (Hwfc _ _ He) Hf).
  - apply (walk_keeps _ _ _ Hkf HP); [|done]. change (start ?p w2) with (start p wc). rewrite <- Hnj. unfold unamei.
    change (start (dest_path src dest) wc) with (start (dest_path src dest) w1).
    destruct (walk (w_nodes w1) _ _) as [b|] eqn:Hb; [|by unfold unamei in Hnj; rewrite Hb in Hnj].
    apply (walk_keeps (fun _ => True) (w_nodes w1)); [|done|done|done]. intros a es nm k' b' H1 H2 _. exists es, k'. by rewrite Hent.
  - cbn. rewrite lookup_insert_ne; [by rewrite lookup_insert_eq|]. intros ->. unfold entries in He. cbn in He. by rewrite lookup_insert_eq in He.
  - intros i' d' Hi' Hd'. cbn. destruct (ucreate_keeps _ _ _ _ i' d' Hcr Hfresh Hd') as [H1 _]. rewrite !lookup_insert_ne; [done|done|].
    intros ->. rewrite Hent in He. unfold entries in He. by rewrite H1 in He.
Qed.
