(* ===== verification/RmThms.v ===== *)
(** rm removes a directory with everything in it. *)
From S2P Require Import Prelude Params Str Fs FsPath Ulib Exit Make MakeBuild Console Ufs Utils UtilsThms.
Open Scope x_scope.

(** ** Names in a directory *)
Definition name_okb (nm : list Z) : bool :=
  negb (bool_decide (nm = [])) && (length nm <=? DIRSIZ)%nat && forallb (fun c => (0 <? c) && (c <? 256) && negb (c =? 47)) nm && negb (bool_decide (last nm = Some 32)).
Definition plain (nm : list Z) : Prop := Forall (fun c => c <> 0 /\ c <> 47) nm.
Lemma name_okb_spec nm : name_okb nm = true -> nm <> [] /\ (length nm <= DIRSIZ)%nat /\ plain nm /\ last nm <> Some 32.
Proof.
  unfold name_okb. rewrite !andb_true_iff, !negb_true_iff, !bool_decide_eq_false, Nat.leb_le, forallb_forall. intros [[[H1 H2] H3] H4].
  split_and!; [done|done| |done]. apply Forall_forall. intros c Hc. apply list_elem_of_In, H3 in Hc. rewrite !andb_true_iff, negb_true_iff, Z.eqb_neq, !Z.ltb_lt in Hc. lia.
Qed.
Lemma plain_words nm : plain nm -> words nm = (nm, []).
Proof.
  induction 1 as [|c nm [Hc Hs] _ IH]; cbn; [done|]. rewrite (proj2 (Z.eqb_neq c 0)), IH by done. unfold SLASH. by rewrite (proj2 (Z.eqb_neq c _)) by done.
Qed.
Lemma names_plain nm : name_okb nm = true -> names nm = [nm] /\ names (chars "./" ++ nm) = [DOT; nm] /\ chr nm <> SLASH.
Proof.
  intros (Hne&Hlen&Hp&_)%name_okb_spec. unfold names, path_elems. rewrite (plain_words nm Hp).
  assert (Hw : words (chars "./" ++ nm) = ([46], [nm])).
  { change (chars "./" ++ nm) with (46 :: 47 :: nm). cbn [words]. rewrite (plain_words nm Hp). by destruct nm. }
  rewrite Hw. destruct nm as [|c nm]; [done|]. split_and!; cbn [fst snd add_elem map].
  - by rewrite take_ge.
  - rewrite (take_ge (c :: nm)) by done. done.
  - cbn. by apply Forall_inv in Hp as [_ Hp].
Qed.
Lemma last_part_plain pre nm : plain nm -> last_part (pre ++ 47 :: nm) = nm.
Proof.
  intros Hp. assert (Hno : existsb (Z.eqb 47) nm = false).
  { induction Hp as [|c nm [_ Hc] _ IH]; cbn [existsb]; [done|]. by rewrite (proj2 (Z.eqb_neq 47 c)) by done. }
  induction pre as [|c pre IH]; cbn [app last_part]; [by rewrite Hno|]. rewrite existsb_app. cbn [existsb]. by rewrite Z.eqb_refl, orb_true_r.
Qed.
Lemma cut_spaces_replicate n r : last (rev r) <> Some 32 -> cut_spaces (replicate n 32 ++ r) = r.
Proof.
  intros Hr. induction n as [|n IH]; [|done]. destruct r as [|c r]; [done|]. cbn in Hr |- *. rewrite last_snoc in Hr.
  destruct (Z.eqb_spec c SPACE) as [->|]; [done|done].
Qed.
Lemma rev_replicate (n : nat) (x : Z) : rev (replicate n x) = replicate n x.
Proof. induction n as [|n IH]; [done|]. cbn [replicate rev]. rewrite IH. symmetry. apply replicate_cons_app. Qed.
Lemma listed_plain nm : name_okb nm = true -> listed (chars "./" ++ nm) = nm.
Proof.
  intros (Hne&Hlen&Hp&Hl)%name_okb_spec. unfold listed, fmtname. change (chars "./" ++ nm) with ([46] ++ 47 :: nm). rewrite last_part_plain by done.
  rewrite rev_app_distr, rev_replicate. change SPACE with 32. rewrite cut_spaces_replicate by (by rewrite rev_involutive). apply rev_involutive.
Qed.

(** ** Listing the current directory *)
Definition live (ents : list (list Z * Z)) : list (list Z * Z) := filter (fun e => e.2 <> 0) ents.
(** An entry that is in use: a good name and a file or a directory. *)
Definition entry_ok (nodes : gmap Z unode) (e : list Z * Z) : Prop :=
  name_okb e.1 = true /\ 0 < e.2 < 65536 /\ exists nd, nodes !! e.2 = Some nd /\ nd <> UDev.
Record listable (nodes : gmap Z unode) (i dp : Z) (ents : list (list Z * Z)) : Prop := {
  ls_dot : ents !! 0%nat = Some (DOT, i); ls_dotdot : ents !! 1%nat = Some (DOTDOT, dp); ls_unique : unique_names ents; ls_nz : i <> 0 /\ dp <> 0;
  ls_live : Forall (entry_ok nodes) (live ents); ls_short : Forall (fun e => (length e.1 <= DIRSIZ)%nat) ents }.
Lemma enc_entry_length e : (length e.1 <= DIRSIZ)%nat -> length (enc_entry e) = 16%nat.
Proof. intros H. unfold enc_entry. rewrite length_app, length_pad by done. by rewrite length_le_enc. Qed.
Lemma concat_take (L : list (list Z)) (k : nat) : Forall (fun x => length x = 16%nat) L ->
  take 16 (drop (16 * k) (concat L)) = default [] (L !! k).
Proof.
  intros HL. revert k. induction HL as [|x L Hx HL IH]; intros k; [cbn [concat]; by rewrite drop_nil|]. cbn [concat]. destruct k as [|k].
  - rewrite Nat.mul_0_r, drop_0. by rewrite take_app_length'.
  - replace (16 * S k)%nat with (16 + 16 * k)%nat by lia. rewrite <- drop_drop, drop_app_length' by done. apply IH.
Qed.

Lemma read_entry ents k nodes i fd w : w_nodes w = nodes -> nodes !! i = Some (UDir ents) -> Forall (fun e => (length e.1 <= DIRSIZ)%nat) ents ->
  fd_of fd w = Some (i, 16 * Z.of_nat k, O_RDONLY) ->
  let b := default [] (enc_entry <$> ents !! k) in uread fd 16 w = (Some b, moved fd (i, 16 * Z.of_nat k + Z.of_nat (length b), O_RDONLY) w).
Proof.
  intros <- Hi Hs Hfd b. unfold uread. rewrite Hfd, Hi. change (has O_RDONLY O_WRONLY) with false. cbv iota. cbn [contents].
  replace (Z.to_nat (16 * Z.of_nat k)) with (16 * k)%nat by lia. change (Z.to_nat 16) with 16%nat.
  rewrite concat_take; [by rewrite list_lookup_fmap|]. apply Forall_fmap. eapply Forall_impl; [exact Hs|]. intros e He. by apply enc_entry_length.
Qed.
Lemma entry_fields e : (length e.1 <= DIRSIZ)%nat -> nonzero e.1 -> 0 <= e.2 < 65536 -> rd 2 0 (enc_entry e) = e.2 /\ cstr (slice 2 14 (enc_entry e)) = e.1.
Proof.
  intros Hl Hn Hi. unfold rd, slice, enc_entry. change (Z.to_nat 0) with O. change (Z.to_nat (Z.of_nat 2)) with 2%nat. change (Z.to_nat 2) with 2%nat. change (Z.to_nat 14) with 14%nat.
  rewrite drop_0, take_app_length', drop_app_length', le_dec_enc by (by rewrite length_le_enc). rewrite take_ge by (rewrite length_pad by done; done).
  rewrite Z.mod_small by (cbn; lia). by rewrite cstr_pad.
Qed.

Lemma uopen_node path i nd l n w : unamei path w = Some i -> w_nodes w !! i = Some nd -> w_fds w = fds_of l (S n) ->
  uopen path O_RDONLY w = (Some (Z.of_nat (length l)), set_fds (fds_of (l ++ [(i, 0, O_RDONLY)]) n) w).
Proof. intros Hi Hd Hl. unfold uopen. change (has O_RDONLY O_CREATE) with false. cbv iota. rewrite Hi, Hd. destruct nd; by apply alloc_fd_ok. Qed.
Lemma live_found nodes i dp ents nm c : listable nodes i dp ents -> (nm, c) ∈ live ents -> exists k, find_entry ents nm = Some (k, c).
Proof.
  intros Hls Hin. apply list_elem_of_filter in Hin as [Hc [k Hk]%list_elem_of_lookup]. exists k. apply find_entry_unique; [apply Hls|done|done].
Qed.
Lemma find_dot nodes i dp ents : listable nodes i dp ents -> find_entry ents DOT = Some (0%nat, i) /\ find_entry ents DOTDOT = Some (1%nat, dp).
Proof. intros []. split; apply find_entry_unique; naive_solver. Qed.
(** stat("./name") in the current directory. *)
Lemma ustat_entry i dp ents nm c nd l n w : w_cwd w = i -> entries (w_nodes w) i = Some ents -> listable (w_nodes w) i dp ents ->
  w_fds w = fds_of l (S n) -> (nm, c) ∈ live ents -> w_nodes w !! c = Some nd -> ustat (chars "./" ++ nm) w = Ok (Some (Some (node_stat c nd))) w.
Proof.
  intros Hcwd Hi Hls Hl Hin Hc. destruct (live_found _ _ _ _ _ _ Hls Hin) as [k Hk]. destruct (find_dot _ _ _ _ Hls) as [Hdot _].
  assert (Hok : name_okb nm = true) by (pose proof (proj1 (Forall_forall _ _) (ls_live _ _ _ _ Hls) _ Hin) as [H _]; exact H).
  assert (Hn : unamei (chars "./" ++ nm) w = Some c).
  { unfold unamei. rewrite (proj1 (proj2 (names_plain nm Hok))). change (start (chars "./" ++ nm) w) with (w_cwd w). rewrite Hcwd. cbn. rewrite Hi. cbn. rewrite Hdot. cbn. rewrite Hi. cbn. by rewrite Hk. }
  unfold ustat. rewrite (xbind_ok _ _ _ _ _ (call_ok _ _ _ _ (uopen_node _ c nd l n w Hn Hc Hl))). set (w1 := set_fds _ w).
  assert (Hfd : fd_of (Z.of_nat (length l)) w1 = Some (c, 0, O_RDONLY)) by (apply (fd_of_nth (l ++ [(c, 0, O_RDONLY)]) n); [done|by rewrite lookup_app_r, Nat.sub_diag]).
  assert (Hst : ufstat (Z.of_nat (length l)) w1 = (Some (node_stat c nd), w1)) by (unfold ufstat; rewrite Hfd; cbn; by rewrite Hc).
  rewrite (xbind_ok _ _ _ _ _ (call_ok _ _ _ _ Hst)). rewrite (xbind_ok _ _ _ _ _ (call_ok _ _ _ _ (uclose_last l (c, 0, O_RDONLY) n w1 eq_refl))).
  unfold xret, ret. f_equal. unfold w1, set_fds. cbn. rewrite <- Hl. by destruct w.
Qed.
Lemma live_cons_0 nm ents : live ((nm, 0) :: ents) = live ents.
Proof. unfold live. rewrite filter_cons, decide_False; naive_solver. Qed.
Lemma live_cons nm c ents : c <> 0 -> live ((nm, c) :: ents) = (nm, c) :: live ents.
Proof. intros. unfold live. by rewrite filter_cons, decide_True. Qed.
Lemma plain_nonzero nm : plain nm -> nonzero nm.
Proof. intros H. eapply Forall_impl; [exact H|]. by intros c []. Qed.
(** getcmdlist gives the names in use, in order. *)
Lemma rm_entries_ok i dp ents l n (fuel : nat) : forall rest k cmdall w, ents = take k ents ++ rest -> length (take k ents) = k ->
  w_cwd w = i -> entries (w_nodes w) i = Some ents -> listable (w_nodes w) i dp ents -> w_fds w = fds_of (l ++ [(i, 16 * Z.of_nat k, O_RDONLY)]) (S n) ->
  (length rest < fuel)%nat -> Z.of_nat (length cmdall + length rest) <= MAX_EXECMD ->
  rm_entries fuel (Z.of_nat (length l)) cmdall w = Ok (Some (cmdall ++ map fst (live rest))) (set_fds (fds_of (l ++ [(i, 16 * Z.of_nat (length ents), O_RDONLY)]) (S n)) w).
Proof.
  induction fuel as [|fuel IH]; intros rest k cmdall w Hents Hk Hcwd Hi Hls Hl Hf Hmax; [lia|]. cbn [rm_entries].
  assert (Hnode : w_nodes w !! i = Some (UDir ents)) by (unfold entries in Hi; destruct (w_nodes w !! i) as [[]|]; naive_solver).
  assert (Hfd : fd_of (Z.of_nat (length l)) w = Some (i, 16 * Z.of_nat k, O_RDONLY)) by (apply (fd_of_nth (l ++ [(i, 16 * Z.of_nat k, O_RDONLY)]) (S n)); [done|by rewrite lookup_app_r, Nat.sub_diag]).
  pose proof (read_entry ents k _ i (Z.of_nat (length l)) w eq_refl Hnode (ls_short _ _ _ _ Hls) Hfd) as Hread. cbv zeta in Hread.
  rewrite (xbind_ok _ _ _ _ _ (call_ok _ _ _ _ Hread)). clear Hread. cbn [default].
  assert (Hlk : ents !! k = rest !! 0%nat) by (rewrite Hents at 1; rewrite lookup_app_r by lia; by rewrite Hk, Nat.sub_diag).
  assert (Hmv : forall y, moved (Z.of_nat (length l)) y w = set_fds (fds_of (l ++ [y]) (S n)) w).
  { intros y. rewrite <- (moved_last l (i, 16 * Z.of_nat k, O_RDONLY) y (S n) w). rewrite <- Hl. by destruct w. }
  rewrite Hmv. destruct rest as [|[nm c] rest]; cbn [lookup list_lookup] in Hlk; rewrite Hlk; cbn [fmap option_fmap option_map default]; unfold id.
  - change (negb (length (@nil Z) =? 16)%nat) with true. cbv iota. change (map fst (live [])) with (@nil (list Z)). rewrite app_nil_r in *.
    assert (length ents = k) by (by rewrite <- Hents in Hk).
    replace (16 * Z.of_nat k + Z.of_nat (length (@nil Z))) with (16 * Z.of_nat (length ents)) by (cbn; lia). done.
  - assert (Hshort : (length nm <= DIRSIZ)%nat) by (exact (proj1 (Forall_lookup _ _) (ls_short _ _ _ _ Hls) k (nm, c) Hlk)).
    rewrite enc_entry_length by done. cbn [Nat.eqb negb]. change (16 =? 16)%nat with true. cbn [negb].
    set (w1 := set_fds (fds_of (l ++ [(i, 16 * Z.of_nat k + Z.of_nat 16, O_RDONLY)]) (S n)) w).
    assert (Hents' : ents = take (S k) ents ++ rest /\ length (take (S k) ents) = S k).
    { rewrite (take_S_r _ _ _ Hlk), <- app_assoc, length_app, Hk. split; [done|cbn; lia]. }
    assert (Hw1 : w_fds w1 = fds_of (l ++ [(i, 16 * Z.of_nat (S k), O_RDONLY)]) (S n)) by (cbn; do 5 f_equal; lia).
    pose proof (fun cm Hm => IH rest (S k) cm w1 (proj1 Hents') (proj2 Hents') Hcwd Hi Hls Hw1 ltac:(cbn in Hf; lia) Hm) as Hgo.
    destruct (decide (c = 0)) as [->|Hc].
    + assert (Hz : rd 2 0 (enc_entry (nm, 0)) = 0) by (unfold rd, slice, enc_entry; rewrite drop_0; by rewrite take_app_length', le_dec_enc).
      rewrite Hz. cbn [Z.eqb]. rewrite live_cons_0. rewrite (Hgo cmdall) by (cbn in Hmax; lia). done.
    + assert (Hin : (nm, c) ∈ live ents) by (apply list_elem_of_filter; split; [done|by apply list_elem_of_lookup; exists k]).
      pose proof (proj1 (Forall_forall _ _) (ls_live _ _ _ _ Hls) _ Hin) as (Hok&Hcr&nd&Hnd&Hdev). cbn [fst snd] in *.
      destruct (name_okb_spec nm Hok) as (_&_&Hpl&_). destruct (entry_fields (nm, c) Hshort (plain_nonzero nm Hpl) ltac:(cbn; lia)) as [Hrd Hname].
      rewrite Hrd, Hname. cbn [fst snd]. rewrite (proj2 (Z.eqb_neq c 0)) by done.
      rewrite (xbind_ok _ _ _ _ _ (ustat_entry i dp ents nm c nd (l ++ [(i, 16 * Z.of_nat (S k), O_RDONLY)]) n w1 Hcwd Hi Hls Hw1 Hin Hnd)).
      assert (Htype : ((node_stat c nd).1.1 =? 1) || ((node_stat c nd).1.1 =? 2) = true) by (by destruct nd). rewrite Htype.
      cbn [length] in Hmax. rewrite (proj2 (Z.leb_gt _ _)) by lia. rewrite (listed_plain nm Hok), live_cons by done. cbn [map fst].
      rewrite (Hgo (cmdall ++ [nm])) by (rewrite length_app; cbn; lia). by rewrite <- app_assoc.
Qed.

(** ** Trees *)
Lemma name_okb_bytes nm : name_okb nm = true -> bytes nm.
Proof.
  unfold name_okb. rewrite !andb_true_iff, forallb_forall. intros [[_ H3] _]. apply Forall_forall. intros c Hc. apply list_elem_of_In, H3 in Hc.
  rewrite !andb_true_iff, !Z.ltb_lt in Hc. unfold is_byte. lia.
Qed.
Lemma eqs_false nm s : name_okb nm = true -> bytes (chars s) -> nonzero (chars s) -> nm <> chars s -> eqs nm s = false.
Proof.
  intros Hok Hb Hn Hne. apply not_true_iff_false. intros He. apply Hne, same_eq; [by apply name_okb_bytes|done| |done|exact He].
  by apply plain_nonzero, (name_okb_spec nm Hok).
Qed.
Definition entries_okb (ents : list (list Z * Z)) : bool :=
  bool_decide (NoDup (map fst (live ents))) && (length ents <=? 128)%nat &&
  forallb (fun e => (length e.1 <=? DIRSIZ)%nat && ((e.2 =? 0) || (name_okb e.1 && (0 <? e.2) && (e.2 <? 65536)))) ents.
Fixpoint kids (f : Z -> option (list Z)) (rest : list (list Z * Z)) : option (list Z) :=
  match rest with
  | [] => Some []
  | (_, c) :: rest => if c =? 0 then kids f rest else l ← f c; l' ← kids f rest; Some (l ++ l')
  end.
(** The inodes of the tree below [i], a file or a directory of [dp]: at most
    [h] levels of directories with . and .. and good names. *)
Fixpoint inums (h : nat) (nodes : gmap Z unode) (dp i : Z) : option (list Z) :=
  match nodes !! i with
  | Some (UFile _) => Some [i]
  | Some (UDir ents) =>
      match h, ents with
      | S h, e1 :: e2 :: rest =>
          if bool_decide (e1 = (DOT, i)) && bool_decide (e2 = (DOTDOT, dp)) && entries_okb ents then cons i <$> kids (inums h nodes i) rest else None
      | _, _ => None
      end
  | _ => None
  end.
Lemma inums_head h nodes dp i S : inums h nodes dp i = Some S -> i ∈ S /\ exists nd, nodes !! i = Some nd /\ nd <> UDev.
Proof.
  destruct h; cbn [inums]; destruct (nodes !! i) as [[d|ents|]|]; try done.
  - intros [= <-]. split; [set_solver|eauto].
  - intros [= <-]. split; [set_solver|eauto].
  - destruct ents as [|e1 [|e2 rest]]; try done. destruct (_ && _); [|done]. destruct (kids _ rest); [|done]. intros [= <-]. split; [set_solver|eauto].
Qed.
Lemma kids_ext f g rest L : (forall c l, f c = Some l -> (forall a, a ∈ l -> a ∈ L) -> g c = Some l) -> kids f rest = Some L -> kids g rest = Some L.
Proof.
  assert (Hgen : forall L', (forall a, a ∈ L' -> a ∈ L) -> (forall c l, f c = Some l -> (forall a, a ∈ l -> a ∈ L) -> g c = Some l) -> kids f rest = Some L' -> kids g rest = Some L');
    [|intros H1 H2; by apply Hgen].
  induction rest as [|[nm c] rest IH]; intros L' Hsub Hfg; cbn; [done|]. destruct (c =? 0); [by apply IH|].
  destruct (f c) as [l|] eqn:Hl; [|done]. cbn. destruct (kids f rest) as [l'|]; [|done]. cbn. intros [= <-].
  rewrite (Hfg c l Hl) by set_solver. cbn. rewrite (IH l') by (done || set_solver). done.
Qed.
Lemma inums_ext nodes nodes' : forall h dp i S, inums h nodes dp i = Some S -> (forall a, a ∈ S -> nodes' !! a = nodes !! a) -> inums h nodes' dp i = Some S.
Proof.
  induction h as [|h IH]; intros dp i S Hi Heq; pose proof (Heq i (proj1 (inums_head _ _ _ _ _ Hi))) as Hn; cbn [inums] in *; rewrite Hn.
  - done.
  - destruct (nodes !! i) as [[d|ents|]|]; try done. destruct ents as [|e1 [|e2 rest]]; try done. destruct (_ && _); [|done].
    destruct (kids (inums h nodes i) rest) as [L|] eqn:HL; [|done]. injection Hi as <-. erewrite kids_ext; [done| |exact HL].
    intros c l Hc Hl. apply IH; [done|]. intros a Ha. apply Heq. set_solver.
Qed.
Lemma kids_live f rest L nm c : kids f rest = Some L -> (nm, c) ∈ live rest -> exists l, f c = Some l.
Proof.
  revert L. induction rest as [|[nm' c'] rest IH]; intros L; cbn [kids]; [intros _ H; by apply elem_of_nil in H|]. destruct (Z.eqb_spec c' 0) as [->|Hc'].
  - rewrite live_cons_0. apply IH.
  - rewrite live_cons by done. destruct (f c') as [l|] eqn:Hl; [|done]. cbn. destruct (kids f rest) as [l'|]; [|done]. intros _.
    intros [Heq|Hin]%elem_of_cons; [injection Heq as _ ->; eauto|by eapply IH].
Qed.
Lemma nodup_unique ents : NoDup (map fst (live ents)) -> unique_names ents.
Proof.
  induction ents as [|[nm c] ents IH]; intros Hnd; [by intros [|a] b|].
  assert (Hrest : NoDup (map fst (live ents)) /\ (c <> 0 -> forall k i, ents !! k = Some (nm, i) -> i = 0)).
  { destruct (decide (c = 0)) as [->|Hc]; [rewrite live_cons_0 in Hnd; by split|]. rewrite live_cons in Hnd by done. cbn in Hnd. apply NoDup_cons in Hnd as [Hnot Hnd].
    split; [done|]. intros _ k i Hk. destruct (decide (i = 0)) as [|Hi]; [done|]. destruct Hnot. apply list_elem_of_fmap. exists (nm, i). split; [done|].
    apply list_elem_of_filter. split; [done|]. by apply list_elem_of_lookup; exists k. }
  destruct Hrest as [Hnd' Hnm]. intros [|a] [|b] n i1 i2 Ha Hb H1 H2; cbn in Ha, Hb; [done| | |].
  - injection Ha as -> ->. by destruct (H2 (Hnm H1 _ _ Hb)).
  - injection Hb as -> ->. by destruct (H1 (Hnm H2 _ _ Ha)).
  - f_equal. by eapply IH.
Qed.
(** A directory of a tree can be listed. *)
Lemma tree_listable h nodes dp i e1 e2 rest S dents : inums (Datatypes.S h) nodes dp i = Some S -> nodes !! i = Some (UDir (e1 :: e2 :: rest)) ->
  nodes !! dp = Some (UDir dents) -> i <> 0 -> dp <> 0 ->
  exists L, kids (inums h nodes i) rest = Some L /\ S = i :: L /\ listable nodes i dp (e1 :: e2 :: rest) /\ (length (e1 :: e2 :: rest) <= 128)%nat.
Proof.
  cbn [inums]. intros Hi Hn Hdp H0 Hd0. rewrite Hn in Hi. destruct (bool_decide _ && _ && _) eqn:Hb; [|done].
  apply andb_true_iff in Hb as [[->%bool_decide_eq_true ->%bool_decide_eq_true]%andb_true_iff Hok].
  destruct (kids _ rest) as [L|] eqn:HL; [|done]. injection Hi as <-. exists L. unfold entries_okb in Hok.
  apply andb_true_iff in Hok as [[Hnd%bool_decide_eq_true Hlen%Nat.leb_le]%andb_true_iff Hall]. rewrite forallb_forall in Hall.
  assert (Hall' : forall e, e ∈ (DOT, i) :: (DOTDOT, dp) :: rest -> (length e.1 <= DIRSIZ)%nat /\ (e.2 <> 0 -> name_okb e.1 = true /\ 0 < e.2 < 65536)).
  { intros e He. apply list_elem_of_In, Hall, andb_true_iff in He as [H1%Nat.leb_le H2]. split; [done|]. intros He0.
    rewrite (proj2 (Z.eqb_neq e.2 0)) in H2 by done. cbn [orb] in H2. rewrite !andb_true_iff, !Z.ltb_lt in H2. naive_solver. }
  split_and!; [done|done| |done]. split; [done|done|by apply nodup_unique|done| |].
  - apply Forall_forall. intros e [He0 He]%list_elem_of_filter. destruct (Hall' e He) as [_ H2]. destruct (H2 He0) as [H3 H4]. split_and!; [done|lia|lia|].
    apply elem_of_cons in He as [->|[->|He]%elem_of_cons]; [eauto|eauto|]. destruct e as [nm c].
    destruct (kids_live _ _ _ nm c HL) as [l Hl]; [by apply list_elem_of_filter|]. by apply inums_head in Hl as [_ ?].
  - apply Forall_forall. intros e He. by apply Hall'.
Qed.

(** ** Removing *)
Definition with_nodes (nodes : gmap Z unode) (w : world) : world := set_nodes (fun _ => nodes) w.
(** recurRM removes trees of [h] levels from the current directory. *)
Definition removes (h : nat) : Prop := forall fuel w dp ents nm k i l n S,
  inums h (w_nodes w) dp i = Some S -> NoDup (dp :: S) -> w_cwd w = dp -> w_nodes w !! dp = Some (UDir ents) -> unique_names ents ->
  find_entry ents nm = Some (k, i) -> name_okb nm = true -> nm <> DOT -> nm <> DOTDOT -> w_fds w = fds_of l (Datatypes.S (Datatypes.S n)) -> dp <> 0 ->
  (h + 130 <= fuel)%nat ->
  exists nodes', recurRM fuel nm w = Ok (Some 0) (with_nodes nodes' w) /\ nodes' !! dp = Some (UDir (<[k := free_entry]> ents)) /\
    forall a, a ∉ dp :: S -> nodes' !! a = w_nodes w !! a.
Lemma name_resolves nm w dp ents k i : name_okb nm = true -> w_cwd w = dp -> w_nodes w !! dp = Some (UDir ents) -> find_entry ents nm = Some (k, i) ->
  unamei nm w = Some i /\ unameiparent nm w = Some (dp, ents, nm).
Proof.
  intros Hok Hcwd Hdp Hf. destruct (names_plain nm Hok) as (Hn&_&Hs). unfold unamei, unameiparent, start. rewrite Hn, (proj2 (Z.eqb_neq _ _) Hs), Hcwd.
  cbn. unfold entries. rewrite Hdp. cbn. by rewrite Hf.
Qed.
Lemma unlink_name nm w dp ents k i : name_okb nm = true -> nm <> DOT -> nm <> DOTDOT -> w_cwd w = dp -> w_nodes w !! dp = Some (UDir ents) ->
  find_entry ents nm = Some (k, i) -> (forall es, entries (w_nodes w) i = Some es -> is_empty es = true) ->
  uunlink nm w = (Some tt, set_nodes (insert dp (UDir (<[k := free_entry]> ents))) w).
Proof.
  intros Hok H1 H2 Hcwd Hdp Hf He. unfold uunlink. rewrite (proj2 (name_resolves nm w dp ents k i Hok Hcwd Hdp Hf)). rewrite !bool_decide_false by done. cbn [orb].
  rewrite Hf. destruct (entries (w_nodes w) i) as [es|]; [by rewrite He|done].
Qed.
(** The children of directory [i], one after the other. *)
Lemma rm_each_ok h fuel path i dp l n : removes h -> i <> 0 -> dp <> 0 -> (h + 130 <= fuel)%nat -> forall todo don w L,
  w_nodes w !! i = Some (UDir (don ++ todo)) -> w_cwd w = i -> unique_names (don ++ todo) -> don !! 0%nat = Some (DOT, i) -> don !! 1%nat = Some (DOTDOT, dp) ->
  kids (inums h (w_nodes w) i) todo = Some L -> NoDup (i :: L) -> Forall (fun e => name_okb e.1 = true) (live todo) ->
  w_fds w = fds_of l (S (S n)) ->
  exists nodes' todo', rm_each (recurRM fuel) path (map fst (live todo)) 0 w = Ok (Some 0) (with_nodes nodes' w) /\
    nodes' !! i = Some (UDir (don ++ todo')) /\ Forall (fun e => e.2 = 0) todo' /\ forall a, a ∉ i :: L -> nodes' !! a = w_nodes w !! a.
Proof.
  intros Hrm Hi0 Hdp0 Hf. induction todo as [|[nm c] todo IH]; intros don w L Hn Hcwd Hu H0 H1 Hk Hnd Hok Hl.
  - exists (w_nodes w), []. cbn. split_and!; [by destruct w|done|done|done].
  - pose proof (lookup_lt_Some _ _ _ H1) as Hlen. cbn [kids] in Hk. destruct (Z.eqb_spec c 0) as [->|Hc].
    + rewrite live_cons_0 in *. rewrite cons_middle, app_assoc in *.
      destruct (IH (don ++ [(nm, 0)]) w L Hn Hcwd Hu) as (nodes'&todo'&Hr&Hn'&Ht&Hfr); [by apply lookup_app_l_Some|by apply lookup_app_l_Some|done..|].
      exists nodes', ((nm, 0) :: todo'). split_and!; [done|by rewrite Hn', <- app_assoc|by constructor|done].
    + rewrite live_cons in * by done. apply Forall_cons in Hok as [Hnm Hok]. cbn [fst] in Hnm.
      destruct (inums h (w_nodes w) i c) as [S1|] eqn:HS1; [|done]. cbn in Hk. destruct (kids (inums h (w_nodes w) i) todo) as [L2|] eqn:HL2; [|done]. injection Hk as <-.
      assert (Hat : (don ++ (nm, c) :: todo) !! length don = Some (nm, c)) by (by rewrite lookup_app_r, Nat.sub_diag).
      assert (Hdots : nm <> DOT /\ nm <> DOTDOT).
      { split; intros ->; [assert (length don = 0%nat)|assert (length don = 1%nat)]; try lia; (eapply Hu; [exact Hat|by apply lookup_app_l_Some|done|done]). }
      rewrite app_comm_cons, NoDup_app in Hnd. destruct Hnd as (Hnd1&Hdis&Hnd2).
      destruct (Hrm fuel w i _ nm (length don) c l n S1 HS1 Hnd1 Hcwd Hn Hu) as (nodes1&Hr1&Hn1&Hfr1); [by apply find_entry_unique|done|by apply Hdots|by apply Hdots|done|done|done|].
      rewrite insert_app_r_alt, Nat.sub_diag in Hn1 by done. cbn in Hn1. rewrite cons_middle, app_assoc in Hn1.
      assert (Hu1 : unique_names ((don ++ [free_entry]) ++ todo)).
      { pose proof (free_unique _ (length don) Hu) as H. rewrite insert_app_r_alt, Nat.sub_diag in H by done. by rewrite <- app_assoc. }
      assert (HiL2 : i ∉ L2) by (intros HiL; by apply (Hdis i); [left|]).
      assert (HL2' : kids (inums h nodes1 i) todo = Some L2).
      { eapply kids_ext; [|exact HL2]. intros c' l' Hc' Hsub. eapply inums_ext; [exact Hc'|]. intros a Ha. apply Hfr1. intros Hin. by apply (Hdis a Hin), Hsub. }
      destruct (IH (don ++ [free_entry]) (with_nodes nodes1 w) L2 Hn1 Hcwd Hu1) as (nodes'&todo'&Hr&Hn'&Ht&Hfr);
        [by apply lookup_app_l_Some|by apply lookup_app_l_Some|done|by apply NoDup_cons|done|done|].
      exists nodes', (free_entry :: todo'). cbn [map fst rm_each].
      rewrite (eqs_false nm ".") by (done || by apply (Forall_cons_2 _) || by apply Hdots || (repeat constructor; done)).
      rewrite (eqs_false nm "..") by (done || by apply Hdots || (repeat constructor; done)). cbn [orb]. rewrite (xbind_ok _ _ _ _ _ Hr1). change (0 <? 0) with false. cbv iota.
      split_and!; [rewrite Hr; by destruct w|by rewrite Hn', <- app_assoc|by constructor|].
      intros a Ha. rewrite Hfr by set_solver. apply Hfr1. set_solver.
Qed.
Lemma rm_getcmdlist_ok fuel i dp ents l n w : w_cwd w = i -> w_nodes w !! i = Some (UDir ents) -> listable (w_nodes w) i dp ents -> (length ents <= 128)%nat ->
  w_fds w = fds_of l (S (S n)) -> (130 <= fuel)%nat -> rm_getcmdlist fuel w = Ok (Some (map fst (live ents))) w.
Proof.
  intros Hcwd Hn Hls Hlen Hl Hf. unfold rm_getcmdlist. assert (He : entries (w_nodes w) i = Some ents) by (unfold entries; by rewrite Hn).
  assert (Hdot : unamei (chars ".") w = Some i).
  { unfold unamei. change (names (chars ".")) with [DOT]. change (start (chars ".") w) with (w_cwd w). rewrite Hcwd. cbn. rewrite He. cbn. by rewrite (proj1 (find_dot _ _ _ _ Hls)). }
  rewrite (xbind_ok _ _ _ _ _ (call_ok _ _ _ _ (uopen_node _ i _ l (S n) w Hdot Hn Hl))). change (xbind (need (Some ?x)) ?f ?s) with (f x s). cbv beta.
  rewrite (xbind_ok _ _ _ _ _ (rm_entries_ok i dp ents l n fuel ents 0 [] (set_fds (fds_of (l ++ [(i, 0, O_RDONLY)]) (S n)) w) eq_refl eq_refl Hcwd He Hls eq_refl ltac:(lia) ltac:(unfold MAX_EXECMD; cbn; lia))).
  cbn [app]. erewrite xbind_ok; [|apply call_ok, (uclose_last l (i, 16 * Z.of_nat (length ents), O_RDONLY) (S n)); reflexivity].
  unfold xret, ret. f_equal. unfold set_fds. cbn. rewrite <- Hl. by destruct w.
Qed.
Lemma skip_dots f path i dp rest w : i <> 0 -> dp <> 0 ->
  rm_each f path (map fst (live ((DOT, i) :: (DOTDOT, dp) :: rest))) 0 w = rm_each f path (map fst (live rest)) 0 w.
Proof. intros Hi Hdp. by rewrite !live_cons by done. Qed.
(** A directory: its children are removed from inside, then the entry. *)
Lemma removes_dir h fuel w dp ents nm k i l n S es : removes h -> inums (Datatypes.S h) (w_nodes w) dp i = Some S -> w_nodes w !! i = Some (UDir es) ->
  NoDup (dp :: S) -> w_cwd w = dp -> w_nodes w !! dp = Some (UDir ents) ->
  find_entry ents nm = Some (k, i) -> name_okb nm = true -> nm <> DOT -> nm <> DOTDOT -> w_fds w = fds_of l (Datatypes.S (Datatypes.S n)) -> dp <> 0 ->
  (Datatypes.S h + 130 <= Datatypes.S fuel)%nat ->
  exists nodes', recurRM (Datatypes.S fuel) nm w = Ok (Some 0) (with_nodes nodes' w) /\ nodes' !! dp = Some (UDir (<[k := free_entry]> ents)) /\
    forall a, a ∉ dp :: S -> nodes' !! a = w_nodes w !! a.
Proof.
  intros Hrm Hin Hi Hnd Hcwd Hdp Hf Hok H1 H2 Hl H0 Hfuel. assert (Hi0 : i <> 0) by (by apply find_entry_lookup in Hf as [_ ?]).
  destruct es as [|e1 [|e2 rest]]; [by cbn [inums] in Hin; rewrite Hi in Hin..|].
  destruct (tree_listable h _ dp i e1 e2 rest S ents Hin Hi Hdp Hi0 H0) as (L&HL&->&Hls&Hlen).
  assert (e1 = (DOT, i) /\ e2 = (DOTDOT, dp)) as [-> ->] by (destruct Hls as [Hd Hdd _ _ _ _]; by injection Hd; injection Hdd).
  destruct (name_resolves nm w dp ents k i Hok Hcwd Hdp Hf) as [Hres _]. cbn [recurRM].
  assert (Hcd : uchdir nm w = (Some tt, set_cwd i w)) by (unfold uchdir, entries; by rewrite Hres, Hi).
  rewrite (xbind_ok _ _ _ _ _ (call_ok _ _ _ _ Hcd)). set (w1 := set_cwd i w).
  rewrite (xbind_ok _ _ _ _ _ (rm_getcmdlist_ok fuel i dp _ l n w1 eq_refl Hi Hls Hlen Hl ltac:(lia))).
  apply NoDup_cons in Hnd as [Hdpn Hnd].
  destruct (rm_each_ok h fuel nm i dp l n Hrm Hi0 H0 ltac:(lia) rest [(DOT, i); (DOTDOT, dp)] w1 L Hi eq_refl (ls_unique _ _ _ _ Hls) eq_refl eq_refl HL Hnd)
    as (nodes1&todo'&Hr&Hn1&Ht&Hfr); [|exact Hl|].
  { pose proof (ls_live _ _ _ _ Hls) as Hlv. rewrite !live_cons in Hlv by done. apply Forall_cons in Hlv as [_ [_ Hlv]%Forall_cons].
    eapply Forall_impl; [exact Hlv|]. by intros e [? _]. }
  erewrite xbind_ok; [|rewrite skip_dots by done; exact Hr].
  assert (Hdp1 : nodes1 !! dp = Some (UDir ents)) by (by rewrite Hfr).
  assert (Hup : uchdir (chars "../") (with_nodes nodes1 w1) = (Some tt, with_nodes nodes1 w)).
  { unfold uchdir, unamei. change (names (chars "../")) with [DOTDOT]. change (start (chars "../") (with_nodes nodes1 w1)) with i. cbn [walk]. unfold entries at 1. cbn [w_nodes with_nodes set_nodes].
    rewrite Hn1. cbn [mbind option_bind app find_entry]. rewrite (proj2 (Z.eqb_neq i 0)), (proj2 (Z.eqb_neq dp 0)) by done. cbn -[lookup].
    rewrite (bool_decide_false (DOT = DOTDOT)), bool_decide_true by done. cbn -[lookup]. unfold entries. rewrite Hdp1.
    unfold with_nodes, w1, set_nodes, set_cwd. cbn. by rewrite Hcwd. }
  rewrite (xbind_ok _ _ _ _ _ (call_ok _ _ _ _ Hup)).
  assert (Hun : uunlink nm (with_nodes nodes1 w) = (Some tt, set_nodes (insert dp (UDir (<[k := free_entry]> ents))) (with_nodes nodes1 w))).
  { eapply unlink_name; [done|done|done|exact Hcwd|exact Hdp1|done|]. unfold entries. cbn. rewrite Hn1. intros es [= <-]. unfold is_empty. cbn.
    apply forallb_forall. intros e He%list_elem_of_In. apply Z.eqb_eq. by apply (proj1 (Forall_forall _ _) Ht). }
  rewrite (xbind_ok _ _ _ _ _ (call_ok _ _ _ _ Hun)). exists (<[dp := UDir (<[k := free_entry]> ents)]> nodes1). split_and!; [done|by rewrite lookup_insert_eq|].
  intros a Ha. rewrite lookup_insert_ne by set_solver. apply Hfr. set_solver.
Qed.
Lemma removes_all h : removes h.
Proof.
  induction h as [|h IH]; intros [|fuel] w dp ents nm k i l n S Hin Hnd Hcwd Hdp Hu Hf Hok H1 H2 Hl H0 Hfuel; [lia| |lia|].
  all: destruct (inums_head _ _ _ _ _ Hin) as (_&[d|es|]&Hi&Hdev); [|cbn [inums] in Hin; rewrite Hi in Hin; try done|done].
  3: { eapply removes_dir; eauto. cbn [inums]. by rewrite Hi. }
  all: assert (Hcd : uchdir nm w = (None, w)) by (unfold uchdir, entries; by rewrite (proj1 (name_resolves nm w dp ents k i Hok Hcwd Hdp Hf)), Hi).
  all: assert (Hun : uunlink nm w = (Some tt, set_nodes (insert dp (UDir (<[k := free_entry]> ents))) w)) by (eapply unlink_name; eauto; unfold entries; by rewrite Hi).
  all: exists (<[dp := UDir (<[k := free_entry]> ents)]> (w_nodes w)); cbn [recurRM]; rewrite (xbind_ok _ _ _ _ _ (call_ok _ _ _ _ Hcd)), (xbind_ok _ _ _ _ _ (call_ok _ _ _ _ Hun)).
  all: split_and!; [done|by rewrite lookup_insert_eq|]; intros a Ha; rewrite lookup_insert_ne by set_solver; done.
Qed.

(** C24. rm removes trees.  [name] is a file or a directory of the current
    directory whose tree (at most [h] levels of directories with good names
    and at most 128 entries, no inode twice) is what inums collects: rm goes
    through it and frees exactly the entry of [name]; inodes outside the
    tree are not touched, nothing is printed, the process is back in its
    directory with its descriptors.  h + 130 is enough fuel, so rm ends. *)
Theorem rm_removes_tree h fuel w dp ents name k i l n S :
  inums h (w_nodes w) dp i = Some S -> NoDup (dp :: S) -> w_cwd w = dp -> w_nodes w !! dp = Some (UDir ents) -> unique_names ents ->
  find_entry ents name = Some (k, i) -> name_okb name = true -> name <> DOT -> name <> DOTDOT -> w_fds w = fds_of l (Datatypes.S (Datatypes.S n)) -> dp <> 0 ->
  (h + 130 <= fuel)%nat ->
  exists nodes', rm_main fuel [chars "rm"; name] w = Ok None (with_nodes nodes' w) /\
    nodes' !! dp = Some (UDir (<[k := free_entry]> ents)) /\ unamei name (with_nodes nodes' w) = None /\
    forall a, a ∉ dp :: S -> nodes' !! a = w_nodes w !! a.
Proof.
  intros Hin Hnd Hcwd Hdp Hu Hf Hok H1 H2 Hl H0 Hfuel.
  destruct (removes_all h fuel w dp ents name k i l n S Hin Hnd Hcwd Hdp Hu Hf Hok H1 H2 Hl H0 Hfuel) as (nodes'&Hr&Hn&Hfr).
  exists nodes'. split_and!; [|done| |done].
  - unfold rm_main. cbn [length Nat.ltb Nat.leb tail rm_args]. by rewrite (xbind_ok _ _ _ _ _ Hr).
  - destruct (names_plain name Hok) as (Hn1&_&Hs). unfold unamei, start. rewrite Hn1, (proj2 (Z.eqb_neq _ _) Hs). cbn. rewrite Hcwd. unfold entries. rewrite Hn. cbn.
    by rewrite (find_entry_freed ents name k i Hu Hf).
Qed.

(** ** The utilities on a small tree: a directory [a] with a file and a directory
    in it, a file [f] and the console. *)
Definition demo_nodes : gmap Z unode := list_to_map [
  (1, UDir [(DOT, 1); (DOTDOT, 1); (chars "a", 2); (chars "f", 3); (chars "console", 4)]);
  (2, UDir [(DOT, 2); (DOTDOT, 1); (chars "x", 5); (chars "b", 6)]);
  (3, UFile (chars "one two  three" ++ [10]));
  (4, UDev);
  (5, UFile (chars "xx"));
  (6, UDir [(DOT, 6); (DOTDOT, 2); (chars "y", 7)]);
  (7, UFile [])].
Definition demo_w : world := mkW demo_nodes 8 1 (fds_of [(4, 0, O_RDWR); (4, 0, O_RDWR); (4, 0, O_RDWR)] 13) [] [] SHELL.
Definition argv (l : list string) : list (list Z) := map chars l.
Definition after {A} (r : result world A) : option (world) := match r with Ok _ w => Some w | Fail _ => None end.

Lemma wc_counts_witness : wc_main 100 [chars "wc"; chars "f"] demo_w = Ok None (put_out (chars "1 3 15 f" ++ [10]) demo_w).
Proof.
  refine (wc_counts 100 (chars "f") 3 (chars "one two  three" ++ [10]) [(4, 0, O_RDWR); (4, 0, O_RDWR); (4, 0, O_RDWR)] 12 demo_w _ _ _ _); try (vm_compute; reflexivity); [|vm_compute; lia].
  split_and!; [done| |vm_compute; lia]. exists 4, 0, O_RDWR. by vm_compute.
Defined.
Lemma mv_moves_witness : exists w2, mv_main 100 [chars "mv"; chars "a/x"; chars "f"] demo_w = Ok None w2 /\
  unamei (chars "a/x") w2 = None /\ unamei (chars "f") w2 = Some 3 /\ w_nodes w2 !! 3 = Some (UFile (chars "xxe two  three" ++ [10])) /\
  (forall i' d', i' <> 3 -> demo_nodes !! i' = Some (UFile d') -> w_nodes w2 !! i' = Some (UFile d')).
Proof.
  refine (mv_moves 100 (chars "a/x") (chars "f") [(4, 0, O_RDWR); (4, 0, O_RDWR); (4, 0, O_RDWR)] 11 demo_w 5 (chars "xx") 3 demo_w (chars "one two  three" ++ [10]) _ _ _ _ _ _).
  - unfold copy_ok. split_and!.
    all: try (vm_compute; reflexivity).
    all: try done.
    all: try (vm_compute; lia).
    all: apply (bool_decide_unpack _); by vm_compute.
  - done.
  - intros dp ents Hd. unfold entries in Hd. change (w_nodes demo_w) with demo_nodes in Hd. destruct (demo_nodes !! dp) as [[| |]|] eqn:E; [done| |done|done]. injection Hd as <-.
    apply elem_of_list_to_map_2 in E. apply nodup_unique, (bool_decide_unpack _). unfold demo_nodes in E. rewrite !elem_of_cons, elem_of_nil in E.
    repeat destruct E as [E|E]; try done; injection E as _ ->; by vm_compute.
  - by vm_compute.
  - by vm_compute.
  - by vm_compute.
Defined.
Lemma rm_removes_tree_witness : exists nodes', rm_main 140 [chars "rm"; chars "a"] demo_w = Ok None (with_nodes nodes' demo_w) /\
  nodes' !! 1 = Some (UDir [(DOT, 1); (DOTDOT, 1); free_entry; (chars "f", 3); (chars "console", 4)]) /\ unamei (chars "a") (with_nodes nodes' demo_w) = None /\
  forall a, a ∉ [1; 2; 5; 6; 7] -> nodes' !! a = demo_nodes !! a.
Proof.
  refine (rm_removes_tree 2 140 demo_w 1 [(DOT, 1); (DOTDOT, 1); (chars "a", 2); (chars "f", 3); (chars "console", 4)] (chars "a") 2 2
    [(4, 0, O_RDWR); (4, 0, O_RDWR); (4, 0, O_RDWR)] 11 [2; 5; 6; 7] _ _ _ _ _ _ _ _ _ _ _ _); try (vm_compute; reflexivity); try (vm_compute; lia); try done.
  - apply (bool_decide_unpack _). by vm_compute.
  - apply nodup_unique, (bool_decide_unpack _). by vm_compute.
Defined.
(** rm of a directory given by a path goes back to the directory above it and
    not to where it was: the contents are gone, the directory stays. *)
Example rm_path_fails : (fun w => (w_nodes w !! 2, w_nodes w !! 6, w_cwd w)) <$> after (rm_main 140 (argv ["rm"; "a/b"]) demo_w) =
  Some (demo_nodes !! 2, Some (UDir [(DOT, 6); (DOTDOT, 2); free_entry]), 2).
Proof. by vm_compute. Qed.
(** mv of a file to itself removes it. *)
Example mv_self_loses : unamei (chars "f") <$> after (mv_main 100 (argv ["mv"; "f"; "f"]) demo_w) = Some None.
Proof. by vm_compute. Qed.
(** cat of several files to a new one. *)
Example cat_redirect : (fun w => w_nodes w !! 8) <$> after (cat_main 100 (argv ["cat"; "a/x"; "f"; ">"; "g"]) demo_w) = Some (Some (UFile (chars "xxone two  three" ++ [10]))).
Proof. by vm_compute. Qed.
(** The listing of cp says directory for every entry. *)
Example cp_directory : (fun w => take 110 (w_out w)) <$> after (cp_main 100 (argv ["cp"; "a/b"; "c"]) demo_w) =
  Some (line "source file is a directory, the files in that directory is:" ++ chars "name = .             , type = directory, size = 48").
Proof. by vm_compute. Qed.
