(* ===== verification/Grep.v ===== *)
(** grep.c: the regular expression matcher, the loop over lines and main.

    A C string is the list of its characters before the terminator. *)
From S2P Require Import Prelude Params Str Fs Ulib Lines Exit Ufs Utils UtilsThms.

Definition CARET : Z := 94.
Definition DOLLAR : Z := 36.
Definition STAR : Z := 42.
Definition ANY : Z := 46.

(** ** match, matchhere, matchstar *)
Fixpoint matchstar (here : list Z -> bool) (c : Z) (text : list Z) : bool :=
  if here text then true else
  match text with
  | [] => false
  | x :: text => if (x =? c) || (c =? ANY) then matchstar here c text else false
  end.
Fixpoint matchhere (re text : list Z) {struct re} : bool :=
  match re with
  | [] => true
  | c :: re1 =>
      let single :=
        if (c =? DOLLAR) && bool_decide (re1 = []) then bool_decide (text = []) else
        match text with
        | x :: text => if (c =? ANY) || (c =? x) then matchhere re1 text else false
        | [] => false
        end in
      match re1 with
      | d :: re2 => if d =? STAR then matchstar (matchhere re2) c text else single
      | [] => single
      end
  end.
Fixpoint match_any (re text : list Z) : bool :=
  if matchhere re text then true else match text with [] => false | _ :: text => match_any re text end.
Definition match_re (re text : list Z) : bool :=
  match re with
  | c :: re1 => if c =? CARET then matchhere re1 text else match_any re text
  | [] => match_any re text
  end.

(** ** What a pattern means *)
Definition atom (c x : Z) : Prop := c = ANY \/ c = x.
(** [here re text]: some prefix of [text] matches [re]. *)
Inductive here : list Z -> list Z -> Prop :=
  | HNil text : here [] text
  | HStar c re u text : Forall (atom c) u -> here re text -> here (c :: STAR :: re) (u ++ text)
  | HEnd : here [DOLLAR] []
  | HChar c re x text : atom c x -> head re <> Some STAR -> (c = DOLLAR -> re <> []) -> here re text -> here (c :: re) (x :: text).
Definition matches (re text : list Z) : Prop :=
  match re with
  | c :: re1 => if decide (c = CARET) then here re1 text else exists pre suf, text = pre ++ suf /\ here re suf
  | [] => True
  end.

Lemma matchstar_ok (f : list Z -> bool) (P : list Z -> Prop) c text : (forall t, f t = true <-> P t) ->
  matchstar f c text = true <-> exists u t, text = u ++ t /\ Forall (atom c) u /\ P t.
Proof.
  intros Hf. induction text as [|x text IH]; cbn [matchstar].
  - destruct (f []) eqn:E.
    + split; [|done]. intros _. exists [], []. split_and!; [done|constructor|by apply Hf].
    + split; [done|]. intros (u&t&He&_&Ht). symmetry in He. apply app_eq_nil in He as [-> ->]. apply Hf in Ht. congruence.
  - destruct (f (x :: text)) eqn:E.
    { split; [|done]. intros _. exists [], (x :: text). split_and!; [done|constructor|by apply Hf]. }
    assert (Hat : (x =? c) || (c =? ANY) = true <-> atom c x).
    { unfold atom. rewrite orb_true_iff, !Z.eqb_eq. naive_solver. }
    destruct ((x =? c) || (c =? ANY)).
    + rewrite IH. split.
      * intros (u&t&->&Hu&Ht). exists (x :: u), t. split_and!; [done| |done]. constructor; [by apply Hat|done].
      * intros ([|y u]&t&He&Hu&Ht); simplify_eq/=; [apply Hf in Ht; congruence|]. inversion Hu; subst. by exists u, t.
    + split; [done|]. intros ([|y u]&t&He&Hu&Ht); simplify_eq/=; [apply Hf in Ht; congruence|]. inversion Hu; subst.
      assert (Hx : false = true) by (by apply Hat). done.
Qed.
Lemma matchhere_single re c text : head re <> Some STAR ->
  matchhere (c :: re) text =
    (if (c =? DOLLAR) && bool_decide (re = []) then bool_decide (text = []) else
     match text with x :: text => if (c =? ANY) || (c =? x) then matchhere re text else false | [] => false end).
Proof.
  intros Hh. destruct re as [|d re]; [done|]. cbn [matchhere]. rewrite (proj2 (Z.eqb_neq d STAR)); [done|]. intros ->. done.
Qed.
Lemma matchhere_ok re text : matchhere re text = true <-> here re text.
Proof.
  remember (length re) as n eqn:Hn. revert re text Hn. induction (lt_wf n) as [n _ IH]. intros [|c re] text ->.
  { split; [|done]. intros _. constructor. }
  destruct (decide (head re = Some STAR)) as [Hs|Hs].
  - destruct re as [|d re]; [done|]. injection Hs as ->. cbn [matchhere]. rewrite Z.eqb_refl.
    rewrite (matchstar_ok _ (here re)) by (intros t; apply (IH (length re)); [cbn; lia|done]). split.
    + intros (u&t&->&Hu&Ht). by constructor.
    + intros Hh. inversion Hh; subst; [by eexists _, _|done].
  - rewrite matchhere_single by done. destruct ((c =? DOLLAR) && bool_decide (re = [])) eqn:Hd.
    + apply andb_true_iff in Hd as [->%Z.eqb_eq ->%bool_decide_eq_true]. rewrite bool_decide_eq_true. split; [intros ->; constructor|].
      intros Hh. inversion Hh; subst; [done|]. naive_solver.
    + assert (Hnd : c = DOLLAR -> re <> []).
      { intros -> ->. rewrite Z.eqb_refl, bool_decide_true in Hd by done. done. }
      destruct text as [|x text].
      * split; [done|]. intros Hh. inversion Hh; subst; [done|naive_solver].
      * assert (Hat : (c =? ANY) || (c =? x) = true <-> atom c x) by (unfold atom; rewrite orb_true_iff, !Z.eqb_eq; tauto).
        destruct ((c =? ANY) || (c =? x)).
        -- rewrite (IH (length re)) by (cbn; lia || done). split; [intros Hh; constructor; [by apply Hat|done..]|]. intros Hh. inversion Hh; subst; done.
        -- split; [done|]. intros Hh. inversion Hh; subst; [done|]. assert (Hx : false = true) by (by apply Hat). done.
Qed.
Lemma match_any_ok re text : match_any re text = true <-> exists pre suf, text = pre ++ suf /\ here re suf.
Proof.
  induction text as [|x text IH]; cbn [match_any]; pose proof (matchhere_ok re) as Hm.
  - specialize (Hm []). destruct (matchhere re []).
    + split; [|done]. intros _. exists [], []. split; [done|by apply Hm].
    + split; [done|]. intros (pre&suf&He&Hh). symmetry in He. apply app_eq_nil in He as [-> ->]. by apply Hm in Hh.
  - specialize (Hm (x :: text)). destruct (matchhere re (x :: text)).
    + split; [|done]. intros _. exists [], (x :: text). split; [done|by apply Hm].
    + rewrite IH. split; [intros (pre&suf&->&Hh); by exists (x :: pre), suf|].
      intros ([|y pre]&suf&He&Hh); simplify_eq/=; [by apply Hm in Hh|by exists pre, suf].
Qed.
(** C39. The matcher of grep.  For every pattern and line, match says yes exactly
    when the line matches the pattern: anchored at the start after a ^ and
    anywhere otherwise, with . for any character, c* for any number of c
    (which never reads the * as a character) and $ at the end of the pattern
    for the end of the line. *)
Theorem grep_match_correct re text : match_re re text = true <-> matches re text.
Proof.
  unfold match_re, matches. destruct re as [|c re].
  - rewrite match_any_ok. split; [done|]. intros _. exists [], text. split; [done|constructor].
  - destruct (Z.eqb_spec c CARET) as [->|Hc]; [rewrite decide_True by done; apply matchhere_ok|]. rewrite decide_False by done. apply match_any_ok.
Qed.

(** ** The loop over the lines of a file and main.

    buf is static: it keeps what earlier reads and files left, a line that
    does not match keeps the 0 that was put at its end, and a search that
    meets no 0 leaves the buffer. *)
Open Scope x_scope.
Definition GREP_BUF : Z := 1024.
(** strchr(p, '\n'), [k] being the place of the list in buf. *)
Fixpoint find_nl (l : list Z) (k : nat) : option (option nat) :=
  match l with
  | [] => None
  | c :: l => if c =? 0 then Some None else if c =? NL then Some (Some k) else find_nl l (S k)
  end.
(** The lines from [p] on: buf and p when no newline is left. *)
Fixpoint grep_lines (fuel : nat) (pattern buf : list Z) (p : nat) : X world (list Z * nat) :=
  match fuel with
  | O => fail OutOfFuel
  | S fuel =>
      q <- need (find_nl (drop p buf) p);;
      match q with
      | None => xret (buf, p)
      | Some q =>
          let text := take (q - p) (drop p buf) in
          if match_re pattern text then
            call (uwrite 1 (text ++ [NL]));;
            grep_lines fuel pattern (<[q := NL]> buf) (q + 1)
          else grep_lines fuel pattern (<[q := 0]> buf) (q + 1)
      end
  end.
Fixpoint grep_loop (fuel : nat) (pattern : list Z) (fd : Z) (buf : list Z) (m : Z) : X world (list Z) :=
  match fuel with
  | O => fail OutOfFuel
  | S fuel =>
      b <- call (uread fd (GREP_BUF - m));;
      match b with
      | None | Some [] => xret buf
      | Some b =>
          if m <? 0 then undef else
          let buf := splice m b buf in
          let m := m + Z.of_nat (length b) in
          let! (buf, p) := grep_lines fuel pattern buf 0 in
          let m := if (p =? 0)%nat then 0 else m in
          if 0 <? m then
            let m := m - Z.of_nat p in
            grep_loop fuel pattern fd (splice 0 (take (Z.to_nat m) (drop p buf)) buf) m
          else grep_loop fuel pattern fd buf m
      end
  end.
Fixpoint grep_files (fuel : nat) (pattern : list Z) (args : list (list Z)) (buf : list Z) : X world unit :=
  match args with
  | [] => exit
  | a :: args =>
      fd <- call (uopen a O_RDONLY);;
      match fd with
      | None => uprint 1 (line "grep: cannot open %s") [S! a];; exit
      | Some fd =>
          buf <- grep_loop fuel pattern fd buf 0;;
          call (uclose fd);;
          grep_files fuel pattern args buf
      end
  end.
Definition grep_buf0 : list Z := zeros GREP_BUF.
Definition grep_main (fuel : nat) (argv : list (list Z)) : X world unit :=
  match argv with
  | [] | [_] => uprint 2 (line "usage: grep pattern [file ...]") [];; exit
  | [_; pattern] => grep_loop fuel pattern 0 grep_buf0 0;; exit
  | _ :: pattern :: args => grep_files fuel pattern args grep_buf0
  end.

(** ** What is printed *)
Definition text (l : list Z) : Prop := Forall (fun c => c <> 0) l.
Lemma find_nl_line l r (k : nat) : text l -> no_nl l -> find_nl (l ++ NL :: r) k = Some (Some (k + length l)%nat).
Proof.
  intros Ht Hn. revert k. induction Ht as [|c l Hc Ht IH]; intros k; cbn [app find_nl length]; [by rewrite Nat.add_0_r|].
  apply Forall_cons in Hn as [Hcn Hn]. rewrite (proj2 (Z.eqb_neq _ _) Hc), (proj2 (Z.eqb_neq _ _) Hcn), IH by done. do 2 f_equal. lia.
Qed.
Lemma find_nl_last l r (k : nat) : text l -> no_nl l -> find_nl (l ++ 0 :: r) k = Some None.
Proof.
  intros Ht Hn. revert k. induction Ht as [|c l Hc Ht IH]; intros k; cbn [app find_nl]; [done|].
  apply Forall_cons in Hn as [Hcn Hn]. by rewrite (proj2 (Z.eqb_neq _ _) Hc), (proj2 (Z.eqb_neq _ _) Hcn), IH.
Qed.
Definition grep_out (pattern : list Z) (P : list (list Z)) : list Z := concat (map (fun l => l ++ [NL]) (filter (fun l => match_re pattern l = true) P)).
Lemma written_console w b : console 1 w -> uwrite 1 b w = (Some (Z.of_nat (length b)), put_out b w).
Proof. intros (j&off&mode&H1&H2&H3). unfold uwrite. by rewrite H1, H2, H3. Qed.
Lemma console_put b w : console 1 w -> console 1 (put_out b w).
Proof. by intros (j&off&mode&H); exists j, off, mode. Qed.
Lemma put_out_app a b w : put_out b (put_out a w) = put_out (a ++ b) w.
Proof. unfold put_out. cbn. by rewrite app_assoc. Qed.
(** The lines [P] and a rest without newline are in the buffer at [before]. *)
Lemma grep_lines_ok pattern (fuel : nat) : forall P rest before z w, (length P < fuel)%nat -> Forall text P -> Forall no_nl P -> text rest -> no_nl rest -> console 1 w ->
  exists buf, grep_lines fuel pattern (before ++ concat (map (fun l => l ++ [NL]) P) ++ rest ++ 0 :: z) (length before) w =
    Ok (Some (buf, (length before + length (concat (map (fun l => l ++ [NL]) P)))%nat)) (put_out (grep_out pattern P) w) /\
    length buf = length (before ++ concat (map (fun l => l ++ [NL]) P) ++ rest ++ 0 :: z).
Proof.
  induction fuel as [|fuel IH]; intros P rest before z w Hf Ht Hn Hr Hrn Hc; [lia|]. cbn [grep_lines]. rewrite drop_app_length. destruct P as [|l P].
  - cbn [map concat app]. rewrite find_nl_last by done. eexists. split; [|done]. change (xbind (need (Some ?x)) ?f ?s) with (f x s). cbn. rewrite Nat.add_0_r.
    unfold put_out. rewrite app_nil_r. by destruct w.
  - apply Forall_cons in Ht as [Htl Ht]. apply Forall_cons in Hn as [Hnl Hn]. cbn [map concat]. rewrite <- !app_assoc. cbn [app].
    rewrite find_nl_line by done. change (xbind (need (Some ?x)) ?f ?s) with (f x s). cbv beta iota. set (tl := concat (map (fun l => l ++ [NL]) P) ++ rest ++ 0 :: z) in *.
    replace (length before + length l - length before)%nat with (length l) by lia. rewrite take_app_length.
    assert (Hins : forall c, <[(length before + length l)%nat := c]> (before ++ l ++ NL :: tl) = (before ++ l ++ [c]) ++ tl).
    { intros c. rewrite !insert_app_r_alt by lia. replace (length before + length l - length before - length l)%nat with O by lia. by rewrite <- !app_assoc. }
    rewrite !Hins. assert (Hlen : forall c : Z, length (before ++ l ++ [c]) = (length before + length l + 1)%nat) by (intros c; rewrite !length_app; cbn; lia).
    assert (Hsum : forall c : Z, (length (before ++ l ++ [c]) + length (concat (map (fun l => l ++ [NL]) P)))%nat = (length before + length (l ++ NL :: concat (map (fun l => l ++ [NL]) P)))%nat)
      by (intros c; rewrite Hlen, !length_app; cbn; lia).
    unfold grep_out. rewrite filter_cons. cbn [length] in Hf. destruct (match_re pattern l) eqn:Hm.
    + rewrite decide_True by done. cbn [map concat]. rewrite (xbind_ok _ _ _ _ _ (call_ok _ _ _ _ (written_console w (l ++ [NL]) Hc))), <- (put_out_app (l ++ [NL])).
      destruct (IH P rest (before ++ l ++ [NL]) z (put_out (l ++ [NL]) w)) as (buf&Hrun&Hb); [lia|done..|by apply console_put|].
      exists buf. rewrite Hsum, Hlen in Hrun. split; [exact Hrun|]. rewrite Hb. fold tl. rewrite !length_app. cbn. lia.
    + rewrite decide_False by done. destruct (IH P rest (before ++ l ++ [0]) z w) as (buf&Hrun&Hb); [lia|done..|].
      exists buf. rewrite Hsum, Hlen in Hrun. split; [exact Hrun|]. rewrite Hb. fold tl. rewrite !length_app. cbn. lia.
Qed.
Lemma lines_split d : exists P rest, lines_of d = P ++ [rest] /\ d = concat (map (fun l => l ++ [NL]) P) ++ rest /\ Forall no_nl P /\ no_nl rest.
Proof.
  induction d as [|c d (P&rest&Hl&Hd&HP&Hr)]; [exists [], []; split_and!; [done|done|constructor|constructor]|]. cbn [lines_of]. destruct (Z.eqb_spec c NL) as [->|Hc].
  - exists ([] :: P), rest. rewrite Hl. cbn. split_and!; [done|by rewrite <- Hd|by constructor; [constructor|]|done].
  - rewrite Hl. destruct P as [|l P].
    + exists [], (c :: rest). cbn in *. subst. split_and!; [done|done|constructor|by constructor].
    + exists ((c :: l) :: P), rest. cbn in *. apply Forall_cons in HP as [H1 H2]. split_and!; [done|by rewrite Hd at 1|by constructor; [constructor|]|done].
Qed.
Lemma text_split P rest : text (concat (map (fun l => l ++ [NL]) P) ++ rest) -> Forall text P /\ text rest.
Proof.
  intros [H1 H2]%Forall_app. split; [|done]. induction P as [|l P IH]; [constructor|]. cbn in H1. apply Forall_app in H1 as [[H1 _]%Forall_app H3].
  constructor; [done|by apply IH].
Qed.
Lemma length_lines P rest : (length P <= length (concat (map (fun l => l ++ [NL]) P) ++ rest))%nat.
Proof. induction P as [|l P IH]; cbn; [lia|]. rewrite !length_app in *. cbn. lia. Qed.
(** The last round: nothing is left to read. *)
Lemma grep_end fuel pattern fd i off d buf m w : fd_of fd w = Some (i, off, O_RDONLY) -> w_nodes w !! i = Some (UFile d) -> Z.of_nat (length d) <= off ->
  grep_loop (S fuel) pattern fd buf m w = Ok (Some buf) w.
Proof.
  intros Hfd Hi Hoff. cbn [grep_loop]. rewrite (xbind_ok _ _ _ _ _ (call_ok _ _ _ _ (uread_file fd i off O_RDONLY d _ w Hfd eq_refl Hi))).
  rewrite drop_ge, take_nil by lia. cbn [length]. rewrite Z.add_0_r, moved_same by done. done.
Qed.
Lemma grep_loop_ok fuel pattern fd i d w : fd_of fd w = Some (i, 0, O_RDONLY) -> w_nodes w !! i = Some (UFile d) -> console 1 w -> Z.to_nat fd <> 1%nat ->
  text d -> (length d < 1024)%nat -> (length d + 2 <= fuel)%nat ->
  exists buf, grep_loop fuel pattern fd grep_buf0 0 w =
    Ok (Some buf) (put_out (grep_out pattern (removelast (lines_of d))) (moved fd (i, Z.of_nat (length d), O_RDONLY) w)).
Proof.
  intros Hfd Hi Hc Hne Ht Hlen Hf. destruct fuel as [|[|fuel]]; [lia|lia|]. destruct (decide (d = [])) as [->|Hd].
  { eexists. rewrite (grep_end _ _ _ i 0 []) by (done || cbn; lia). cbn [length]. rewrite moved_same by done. unfold put_out. cbn. rewrite app_nil_r. by destruct w. }
  destruct (lines_split d) as (P&rest&Hl&Hd'&HP&Hr). rewrite Hl, removelast_last. change (S (S fuel)) with (S (S fuel)). remember (S fuel) as f eqn:Ef. cbn [grep_loop].
  rewrite (xbind_ok _ _ _ _ _ (call_ok _ _ _ _ (uread_file fd i 0 O_RDONLY d _ w Hfd eq_refl Hi))). change (Z.to_nat 0) with O. rewrite drop_0, take_ge by (unfold GREP_BUF; lia).
  destruct d as [|c d0] eqn:Ed; [done|]. rewrite <- Ed in *. clear c d0 Ed. change (0 <? 0) with false. cbv iota. set (w1 := moved fd (i, 0 + Z.of_nat (length d), O_RDONLY) w).
  assert (Hbuf : splice 0 d grep_buf0 = [] ++ concat (map (fun l => l ++ [NL]) P) ++ rest ++ 0 :: replicate (1023 - length d) 0).
  { cbn [app]. rewrite app_assoc, <- Hd'. rewrite splice_app_eq; [|lia|unfold grep_buf0, zeros, GREP_BUF; rewrite length_replicate; lia].
    unfold grep_buf0, zeros, GREP_BUF. change (Z.to_nat 0) with O. cbn [take app Nat.add]. rewrite drop_replicate.
    by replace (Z.to_nat 1024 - length d)%nat with (S (1023 - length d)) by lia. }
  destruct (text_split P rest ltac:(by rewrite <- Hd')) as [HtP Htr].
  assert (Hc1 : console 1 w1). { destruct Hc as (j&off&mode&H1&H). exists j, off, mode. split; [|done]. unfold w1. rewrite fd_of_moved; [done|]. change (Z.to_nat 1) with 1%nat. done. }
  pose proof (length_lines P rest) as HPl. rewrite <- Hd' in HPl.
  destruct (grep_lines_ok pattern f P rest [] (replicate (1023 - length d) 0) w1 ltac:(lia) HtP HP Htr Hr Hc1) as (buf&Hrun&Hblen). rewrite <- Hbuf in Hrun.
  rewrite (xbind_ok _ _ _ _ _ Hrun). cbv beta iota. cbn [length Nat.add]. subst f.
  assert (Hfd1 : forall o, fd_of fd (put_out o w1) = Some (i, 0 + Z.of_nat (length d), O_RDONLY)) by (intros o; by eapply (fd_of_moved_eq _ _ _ w)).
  destruct (0 <? _); (eexists; rewrite (grep_end _ _ _ i (0 + Z.of_nat (length d)) d) by (done || lia); done).
Qed.

(** C27. grep prints the lines that match.  For a file of less than 1024 bytes
    without 0, grep pattern file prints exactly the lines, each with its
    newline and in their order, in which the pattern matches (what the
    pattern means is in [Grep]); what follows the last newline is not a line.
    It ends, and leaves files and descriptors as they were. *)
Theorem grep_prints fuel pattern name i d l n w :
  started l (S n) w -> unamei name w = Some i -> w_nodes w !! i = Some (UFile d) -> text d -> (length d < 1024)%nat -> (length d + 2 <= fuel)%nat ->
  let hits := filter (fun x => match_re pattern x = true) (removelast (lines_of d)) in
  grep_main fuel [chars "grep"; pattern; name] w = Ok None (put_out (concat (map (fun x => x ++ [NL]) hits)) w).
Proof.
  intros Hst Hi Hd Ht Hlen Hf hits. pose proof Hst as (Hl&Hc&Hl2). cbn [grep_main grep_files].
  rewrite (xbind_ok _ _ _ _ _ (call_ok _ _ _ _ (uopen_file name i d l n w Hi Hd Hl))). set (w1 := set_fds _ w).
  assert (Hfd : fd_of (Z.of_nat (length l)) w1 = Some (i, 0, O_RDONLY)) by (apply (fd_of_nth (l ++ [(i, 0, O_RDONLY)]) n); [done|by rewrite lookup_app_r, Nat.sub_diag]).
  destruct (grep_loop_ok fuel pattern (Z.of_nat (length l)) i d w1 Hfd Hd) as [buf Hrun]; [by eapply started_console|lia|done..|].
  rewrite (xbind_ok _ _ _ _ _ Hrun). unfold w1. rewrite moved_last.
  erewrite xbind_ok; [|apply call_ok, (uclose_last l (i, Z.of_nat (length d), O_RDONLY) n); reflexivity].
  unfold exit, ret. f_equal. unfold put_out, set_fds. cbn. by rewrite <- Hl.
Qed.
Definition grep_nodes : gmap Z unode := list_to_map [
  (1, UDir [(DOT, 1); (DOTDOT, 1); (chars "f", 2); (chars "g", 3); (chars "console", 4)]);
  (2, UFile (concat (map line ["abc"; "xyz"; "ab"; ""]%string)));
  (3, UFile (line "b")); (4, UDev)].
Definition grep_w (input : list Z) : world := mkW grep_nodes 5 1 (fds_of [(4, 0, O_RDWR); (4, 0, O_RDWR); (4, 0, O_RDWR)] 13) input [] 0.
Lemma grep_prints_witness : grep_main 100 [chars "grep"; chars "b"; chars "f"] (grep_w []) = Ok None (put_out (line "abc" ++ line "ab") (grep_w [])).
Proof.
  refine (grep_prints 100 (chars "b") (chars "f") 2 (concat (map line ["abc"; "xyz"; "ab"; ""]%string)) [(4, 0, O_RDWR); (4, 0, O_RDWR); (4, 0, O_RDWR)] 12 (grep_w []) _ _ _ _ _ _);
    try (vm_compute; reflexivity); try (vm_compute; lia).
  - split_and!; [done| |vm_compute; lia]. exists 4, 0, O_RDWR. by vm_compute.
  - apply (bool_decide_unpack _). by vm_compute.
Defined.
(** With two files, what is left of the first in the buffer is searched again
    after the second; lines typed at the console run into each other, and the
    count of what is left becomes negative: the next read stores before the
    buffer. *)
Example grep_stale_buffer :
  match grep_main 100 [chars "grep"; chars "^"; chars "f"; chars "g"] (grep_w []) with Ok _ w => Some (w_out w) | Fail _ => None end =
    Some (concat (map line ["abc"; "xyz"; "ab"; ""; "b"; "c"; "xyz"; "ab"; ""]%string)) /\
  grep_main 100 [chars "grep"; chars "b"] (grep_w (concat (map line ["abc"; "b"; "b"]%string))) = Fail Undef.
Proof. by vm_compute. Qed.
