(* ===== verification/Seg.v ===== *)
(** Segment and gate descriptors: mmu.h, seginit and switchuvm of vm.c, tvinit
    and idtinit of trap.c.

    A descriptor is a record of its bit fields; [seg_word] and [gate_word] are
    the eight bytes in memory, the fields from the lowest bit on, and the
    processor reads base, limit, offset and rights at fixed bits of them. *)
From S2P Require Import Prelude Params Kalloc Kern ProcOps Syscall.

(** ** Bit fields *)
Fixpoint pack (l : list (Z * Z)) : Z := match l with [] => 0 | (v, w) :: l => v mod 2 ^ w + 2 ^ w * pack l end.
Definition width (l : list (Z * Z)) : Z := foldr (fun f n => f.2 + n) 0 l.
Definition bits (x lo n : Z) : Z := Z.shiftr x lo mod 2 ^ n.

(** ** mmu.h *)
Definition SEG_KCODE : Z := 1.
Definition SEG_KDATA : Z := 2.
Definition SEG_KCPU : Z := 3.
Definition SEG_TSS : Z := 6.
Definition NSEGS : nat := 7.
Definition STA_X : Z := 0x8.
Definition STA_W : Z := 0x2.
Definition STA_R : Z := 0x2.
Definition STS_T32A : Z := 0x9.
Definition STS_IG32 : Z := 0xE.
Definition STS_TG32 : Z := 0xF.
Record segdesc := mkSd {
  lim_15_0 : Z; base_15_0 : Z; base_23_16 : Z; sd_type : Z; sd_s : Z; sd_dpl : Z; sd_p : Z; lim_19_16 : Z; avl : Z; rsv1 : Z; db : Z; sd_g : Z; base_31_24 : Z }.
Definition seg_word (d : segdesc) : Z :=
  pack [(lim_15_0 d, 16); (base_15_0 d, 16); (base_23_16 d, 8); (sd_type d, 4); (sd_s d, 1); (sd_dpl d, 2); (sd_p d, 1); (lim_19_16 d, 4);
        (avl d, 1); (rsv1 d, 1); (db d, 1); (sd_g d, 1); (base_31_24 d, 8)].
Definition SEG (type base lim dpl : Z) : segdesc :=
  mkSd (Z.land (Z.shiftr lim 12) 0xffff) (Z.land (u32 base) 0xffff) (Z.land (Z.shiftr (u32 base) 16) 0xff) type 1 dpl 1 (Z.shiftr (u32 lim) 28) 0 0 1 1 (Z.shiftr (u32 base) 24).
Definition SEG16 (type base lim dpl : Z) : segdesc :=
  mkSd (Z.land lim 0xffff) (Z.land (u32 base) 0xffff) (Z.land (Z.shiftr (u32 base) 16) 0xff) type 1 dpl 1 (Z.shiftr (u32 lim) 16) 0 0 1 0 (Z.shiftr (u32 base) 24).
Definition set_s (s : Z) (d : segdesc) : segdesc :=
  mkSd (lim_15_0 d) (base_15_0 d) (base_23_16 d) (sd_type d) s (sd_dpl d) (sd_p d) (lim_19_16 d) (avl d) (rsv1 d) (db d) (sd_g d) (base_31_24 d).
Record gatedesc := mkGate { off_15_0 : Z; g_cs : Z; g_args : Z; g_rsv1 : Z; g_type : Z; g_s : Z; g_dpl : Z; g_p : Z; off_31_16 : Z }.
Definition gate_word (g : gatedesc) : Z :=
  pack [(off_15_0 g, 16); (g_cs g, 16); (g_args g, 5); (g_rsv1 g, 3); (g_type g, 4); (g_s g, 1); (g_dpl g, 2); (g_p g, 1); (off_31_16 g, 16)].
Definition SETGATE (istrap : bool) (sel off d : Z) : gatedesc :=
  mkGate (Z.land (u32 off) 0xffff) sel 0 0 (if istrap then STS_TG32 else STS_IG32) 0 d 1 (Z.shiftr (u32 off) 16).

(** ** The processor *)
Record hw := mkHw {
  h_gdt : list segdesc; h_idt : list gatedesc; h_gdtr : option (Z * Z); h_idtr : option (Z * Z); h_gs : Z; h_tr : Z; h_ss0 : Z; h_esp0 : Z; h_cr3 : Z }.
Definition set_gdt g h := mkHw g (h_idt h) (h_gdtr h) (h_idtr h) (h_gs h) (h_tr h) (h_ss0 h) (h_esp0 h) (h_cr3 h).
Definition set_idt i h := mkHw (h_gdt h) i (h_gdtr h) (h_idtr h) (h_gs h) (h_tr h) (h_ss0 h) (h_esp0 h) (h_cr3 h).
Definition lgdt (p size : Z) h := mkHw (h_gdt h) (h_idt h) (Some (u32 p, u16 (size - 1))) (h_idtr h) (h_gs h) (h_tr h) (h_ss0 h) (h_esp0 h) (h_cr3 h).
Definition lidt (p size : Z) h := mkHw (h_gdt h) (h_idt h) (h_gdtr h) (Some (u32 p, u16 (size - 1))) (h_gs h) (h_tr h) (h_ss0 h) (h_esp0 h) (h_cr3 h).
Definition loadgs (v : Z) h := mkHw (h_gdt h) (h_idt h) (h_gdtr h) (h_idtr h) (u16 v) (h_tr h) (h_ss0 h) (h_esp0 h) (h_cr3 h).
Definition ltr (v : Z) h := mkHw (h_gdt h) (h_idt h) (h_gdtr h) (h_idtr h) (h_gs h) (u16 v) (h_ss0 h) (h_esp0 h) (h_cr3 h).
Definition set_ts ss esp h := mkHw (h_gdt h) (h_idt h) (h_gdtr h) (h_idtr h) (h_gs h) (h_tr h) ss esp (h_cr3 h).
Definition lcr3 (v : Z) h := mkHw (h_gdt h) (h_idt h) (h_gdtr h) (h_idtr h) (h_gs h) (h_tr h) (h_ss0 h) (h_esp0 h) (u32 v).
Definition put_seg (i : Z) (d : segdesc) : K hw unit := g <- gets h_gdt;; g <- aset g i d;; modify (set_gdt g).
Definition put_gate (i : Z) (d : gatedesc) : K hw unit := t <- gets h_idt;; t <- aset t i d;; modify (set_idt t).
(** [gdt], [cpu]: the addresses of c->gdt and c->cpu. *)
Definition seginit (gdt cpu : Z) : K hw unit :=
  put_seg SEG_KCODE (SEG (Z.lor STA_X STA_R) 0 0xffffffff 0);;
  put_seg SEG_KDATA (SEG STA_W 0 0xffffffff 0);;
  put_seg SEG_UCODE (SEG (Z.lor STA_X STA_R) 0 0xffffffff DPL_USER);;
  put_seg SEG_UDATA (SEG STA_W 0 0xffffffff DPL_USER);;
  put_seg SEG_KCPU (SEG STA_W cpu 8 0);;
  modify (lgdt gdt (8 * Z.of_nat NSEGS));;
  modify (loadgs (Z.shiftl SEG_KCPU 3)).
Definition TS_SZ : Z := 104.
(** [ts]: &cpu->ts; [kstack]: proc->kstack; [pgdir]: p->pgdir. *)
Definition switchuvm (ts kstack pgdir : Z) : K hw unit :=
  put_seg SEG_TSS (set_s 0 (SEG16 STS_T32A ts (TS_SZ - 1) 0));;
  modify (set_ts (Z.shiftl SEG_KDATA 3) (u32 (kstack + KSTACKSIZE)));;
  modify (ltr (Z.shiftl SEG_TSS 3));;
  if pgdir =? 0 then panic "switchuvm: no pgdir" else modify (lcr3 (v2p pgdir)).
Definition switchkvm (kpgdir : Z) : K hw unit := modify (lcr3 (v2p kpgdir)).
(** initlock(&tickslock, "time") at its end has no part in the table: the
    locks are in Spinlock. *)
Definition tvinit (vectors : list Z) : K hw unit :=
  for_range 256 0 (fun i => v <- aget vectors i;; put_gate i (SETGATE false (Z.shiftl SEG_KCODE 3) v 0));;
  v <- aget vectors T_SYSCALL;;
  put_gate T_SYSCALL (SETGATE true (Z.shiftl SEG_KCODE 3) v DPL_USER).
Definition idtinit (idt : Z) : K hw unit := modify (lidt idt (8 * 256)).

(** ** What the processor reads *)
Definition seg_base (x : Z) : Z := bits x 16 16 + 2 ^ 16 * bits x 32 8 + 2 ^ 24 * bits x 56 8.
(** The last offset; with the G bit the limit counts pages. *)
Definition seg_limit (x : Z) : Z := let l := bits x 0 16 + 2 ^ 16 * bits x 48 4 in if bits x 55 1 =? 1 then 4096 * l + 4095 else l.
Definition word_type (x : Z) : Z := bits x 40 4.
Definition word_dpl (x : Z) : Z := bits x 45 2.
Definition word_present (x : Z) : bool := bits x 47 1 =? 1.
Definition gate_offset (x : Z) : Z := bits x 0 16 + 2 ^ 16 * bits x 48 16.
Definition gate_selector (x : Z) : Z := bits x 16 16.

Lemma pack_bound l : Forall (fun f => 0 <= f.2) l -> 0 <= pack l < 2 ^ width l.
Proof.
  induction 1 as [|[v w] l Hw Hl IH]; cbn [pack width foldr snd]; [by cbn|]. fold (width l). cbn in Hw.
  assert (0 <= width l) by (clear -Hl; induction Hl; cbn; [lia|]; unfold width in *; lia).
  rewrite Z.pow_add_r by lia. pose proof (Z.mod_pos_bound v (2 ^ w) ltac:(lia)). nia.
Qed.
Lemma pack_field l1 v w l2 : Forall (fun f => 0 <= f.2) (l1 ++ (v, w) :: l2) -> bits (pack (l1 ++ (v, w) :: l2)) (width l1) w = v mod 2 ^ w.
Proof.
  intros [H1 [Hw H2]%Forall_cons]%Forall_app. cbn in Hw. unfold bits. assert (H0 : 0 <= width l1) by (clear -H1; induction H1; cbn; [lia|]; unfold width in *; lia).
  rewrite Z.shiftr_div_pow2 by done. replace (pack (l1 ++ (v, w) :: l2) / 2 ^ width l1) with (pack ((v, w) :: l2)).
  - cbn [pack]. rewrite Z.mul_comm, Z.mod_add by lia. apply Zmod_mod.
  - induction H1 as [|[u m] l1 Hm H1 IH]; cbn [app pack width foldr snd]; [by rewrite Z.div_1_r|]. fold (width l1). cbn in Hm.
    assert (H0' : 0 <= width l1) by (clear -H1; induction H1; cbn; [lia|]; unfold width in *; lia).
    rewrite Z.pow_add_r, <- Z.div_div by lia. pose proof (Z.mod_pos_bound u (2 ^ m) ltac:(lia)).
    rewrite (Z.mul_comm (2 ^ m) (pack _)), Z.div_add by lia. rewrite (Z.div_small (u mod 2 ^ m)), Z.add_0_l by lia. by apply IH.
Qed.
(** Field [n] of a word. *)
Lemma field_at (l : list (Z * Z)) (n : nat) lo v w : l !! n = Some (v, w) -> forallb (fun f => 0 <=? f.2) l = true -> width (take n l) = lo -> bits (pack l) lo w = v mod 2 ^ w.
Proof.
  intros Hn Hl <-. rewrite <- (take_drop_middle l n (v, w) Hn) at 1. apply pack_field. rewrite take_drop_middle by done.
  apply Forall_forall. intros f Hf. apply Z.leb_le. rewrite forallb_forall in Hl. by apply Hl, list_elem_of_In.
Qed.
Lemma land_16 x : Z.land x 0xffff = x mod 2 ^ 16.
Proof. by rewrite <- Z.land_ones. Qed.
Lemma land_8 x : Z.land x 0xff = x mod 2 ^ 8.
Proof. by rewrite <- Z.land_ones. Qed.
Ltac fields n k := erewrite (field_at _ n k) by reflexivity.
Lemma setgate_read t sel off d :
  let x := gate_word (SETGATE t sel off d) in
  gate_offset x = u32 off /\ gate_selector x = sel mod 2 ^ 16 /\ word_type x = (if t then STS_TG32 else STS_IG32) /\ word_dpl x = d mod 4 /\ word_present x = true.
Proof.
  cbv zeta. unfold gate_offset, gate_selector, word_type, word_dpl, word_present, gate_word.
  fields 0%nat 0. fields 8%nat 48. fields 1%nat 16. fields 4%nat 40. fields 6%nat 45. fields 7%nat 47.
  cbn [off_15_0 off_31_16 g_cs g_type g_dpl g_p SETGATE]. split_and!; [|done|by destruct t|done|done].
  rewrite land_16, Z.shiftr_div_pow2 by lia. pose proof (Z.mod_pos_bound off (2 ^ 32) ltac:(lia)) as Hb. fold (u32 off) in Hb. generalize dependent (u32 off). intros x Hx.
  Z.to_euclidean_division_equations. lia.
Qed.
Lemma seg_read type base lim dpl : 0 <= lim < 2 ^ 32 ->
  let x := seg_word (SEG type base lim dpl) in
  seg_base x = u32 base /\ seg_limit x = 4096 * (lim / 4096) + 4095 /\ word_type x = type mod 16 /\ word_dpl x = dpl mod 4 /\ word_present x = true.
Proof.
  intros Hlim. cbv zeta. unfold seg_base, seg_limit, word_type, word_dpl, word_present, seg_word.
  fields 1%nat 16. fields 2%nat 32. fields 12%nat 56. fields 0%nat 0. fields 7%nat 48. fields 11%nat 55. fields 3%nat 40. fields 5%nat 45. fields 6%nat 47.
  cbn [lim_15_0 base_15_0 base_23_16 sd_type sd_dpl sd_p lim_19_16 sd_g base_31_24 SEG]. rewrite !land_16, land_8, !Z.shiftr_div_pow2 by lia.
  split_and!; [| |done|done|done].
  - pose proof (Z.mod_pos_bound base (2 ^ 32) ltac:(lia)) as Hb. fold (u32 base) in Hb. generalize dependent (u32 base). intros x Hx. Z.to_euclidean_division_equations. lia.
  - rewrite (u32_small lim) by done. change (1 mod 2 ^ 1 =? 1) with true. cbv iota. Z.to_euclidean_division_equations. lia.
Qed.

(** ** The tables *)
Definition idt_ok (n : Z) (vectors : list Z) (t : list gatedesc) : Prop :=
  length t = 256%nat /\ forall i : nat, Z.of_nat i < n -> t !! i = Some (SETGATE false (Z.shiftl SEG_KCODE 3) (vectors !!! i) 0).
Lemma put_gate_ok i d (h : hw) : length (h_idt h) = 256%nat -> 0 <= i < 256 -> put_gate i d h = Ok tt (set_idt (<[Z.to_nat i := d]> (h_idt h)) h).
Proof.
  intros Hl Hi. unfold put_gate, bind, gets, aset, inb. rewrite Hl, (proj2 (Z.leb_le _ _)), (proj2 (Z.ltb_lt _ _)) by lia. done.
Qed.
Lemma tvinit_table vectors (h : hw) : length vectors = 256%nat -> length (h_idt h) = 256%nat ->
  exists t, tvinit vectors h = Ok tt (set_idt t h) /\ length t = 256%nat /\
    forall i : nat, (i < 256)%nat -> t !! i = Some (if Z.of_nat i =? T_SYSCALL then SETGATE true (Z.shiftl SEG_KCODE 3) (vectors !!! i) DPL_USER else SETGATE false (Z.shiftl SEG_KCODE 3) (vectors !!! i) 0).
Proof.
  intros Hv Ht. assert (H : wp (tvinit vectors) noerr (fun _ h' => exists t, h' = set_idt t h /\ length t = 256%nat /\
    forall i : nat, (i < 256)%nat -> t !! i = Some (if Z.of_nat i =? T_SYSCALL then SETGATE true (Z.shiftl SEG_KCODE 3) (vectors !!! i) DPL_USER else SETGATE false (Z.shiftl SEG_KCODE 3) (vectors !!! i) 0)) h).
  - eapply wp_seq; [apply (wp_for_range (fun n h' => exists t, h' = set_idt t h /\ idt_ok n vectors t)) with (Q := fun _ h' => exists t, h' = set_idt t h /\ idt_ok 256 vectors t)|].
    + exists (h_idt h). split; [by destruct h|]. split; [done|]. intros i Hi. lia.
    + intros j s Hj (t&->&Hlen&Hok). apply wp_bind, wp_aget; [lia|]. unfold wp. rewrite put_gate_ok by (done || lia). cbn.
      exists (<[Z.to_nat j := SETGATE false (Z.shiftl SEG_KCODE 3) (vectors !!! Z.to_nat j) 0]> t). split; [done|]. split; [by rewrite length_insert|].
      intros i Hi. destruct (decide (i = Z.to_nat j)) as [->|Hne]; [by rewrite list_lookup_insert_eq by lia|]. rewrite list_lookup_insert_ne by done. apply Hok. lia.
    + intros s (t&->&Hok). exists t. by split.
    + intros [] s (t&->&Hlen&Hok). apply wp_bind, wp_aget; [unfold T_SYSCALL; lia|]. unfold wp. rewrite put_gate_ok by (done || unfold T_SYSCALL; lia). cbn.
      eexists. split; [done|]. split; [by rewrite length_insert|]. intros i Hi. destruct (Z.eqb_spec (Z.of_nat i) T_SYSCALL) as [He|Hne].
      * unfold T_SYSCALL in He. replace i with 64%nat by lia. change (Z.to_nat T_SYSCALL) with 64%nat. by rewrite list_lookup_insert_eq by lia.
      * rewrite list_lookup_insert_ne by (unfold T_SYSCALL in *; lia). apply Hok. lia.
  - apply wp_ok in H as ([]&h'&Hrun&t&->&H). exists t. by split.
Qed.

(** C26. The way into the kernel.  After tvinit each of the 256 gates, read
    back by the processor from its eight bytes, is present and leads to its
    vector in the kernel's code segment; all are interrupt gates of level 0,
    which a user program cannot call, but that of the system call, a trap
    gate of level 3: int 64 is the only way a program can ask for. *)
Theorem tvinit_gates vectors (h : hw) : length vectors = 256%nat -> length (h_idt h) = 256%nat ->
  exists t, tvinit vectors h = Ok tt (set_idt t h) /\ length t = 256%nat /\
    forall (i : nat) g, t !! i = Some g -> let x := gate_word g in
      gate_offset x = u32 (vectors !!! i) /\ gate_selector x = 8 /\ word_present x = true /\
      word_type x = (if Z.of_nat i =? T_SYSCALL then STS_TG32 else STS_IG32) /\ word_dpl x = (if Z.of_nat i =? T_SYSCALL then 3 else 0).
Proof.
  intros Hv Ht. destruct (tvinit_table vectors h Hv Ht) as (t&Hrun&Hlen&Hok). exists t. split_and!; [done|done|]. intros i g Hg x.
  pose proof (lookup_lt_Some _ _ _ Hg) as Hi. rewrite Hok in Hg by lia. injection Hg as <-. subst x.
  destruct (Z.of_nat i =? T_SYSCALL).
  - destruct (setgate_read true (Z.shiftl SEG_KCODE 3) (vectors !!! i) DPL_USER) as (H1&H2&H3&H4&H5). by split_and!.
  - destruct (setgate_read false (Z.shiftl SEG_KCODE 3) (vectors !!! i) 0) as (H1&H2&H3&H4&H5). by split_and!.
Qed.
Lemma tvinit_gates_witness : let h := mkHw [] (replicate 256 (mkGate 0 0 0 0 0 0 0 0 0)) None None 0 0 0 0 0 in let vectors := map (fun i => 0x80100000 + 10 * i) (seqZ 0 256) in
  exists t, tvinit vectors h = Ok tt (set_idt t h) /\ length t = 256%nat /\
    forall (i : nat) g, t !! i = Some g -> let x := gate_word g in
      gate_offset x = u32 (vectors !!! i) /\ gate_selector x = 8 /\ word_present x = true /\
      word_type x = (if Z.of_nat i =? T_SYSCALL then STS_TG32 else STS_IG32) /\ word_dpl x = (if Z.of_nat i =? T_SYSCALL then 3 else 0).
Proof. intros h vectors. refine (tvinit_gates vectors h _ _); by vm_compute. Defined.
(** seginit: flat segments for the kernel and, of level 3, for the programs;
    the segment of the processor starts at its variables.  Its limit of 8
    bytes is rounded to a page. *)
Theorem seginit_segments gdt cpu (h : hw) : length (h_gdt h) = NSEGS -> 0 <= cpu < 2 ^ 32 ->
  exists g, seginit gdt cpu h = Ok tt (loadgs 24 (lgdt gdt 56 (set_gdt g h))) /\
    Forall (fun '(i, type, base, limit, dpl) => exists d, g !! i = Some d /\ let x := seg_word d in
      seg_base x = base /\ seg_limit x = limit /\ word_type x = type /\ word_dpl x = dpl /\ word_present x = true)
      [(1%nat, 10, 0, 2 ^ 32 - 1, 0); (2%nat, 2, 0, 2 ^ 32 - 1, 0); (3%nat, 2, cpu, 4095, 0); (4%nat, 10, 0, 2 ^ 32 - 1, 3); (5%nat, 2, 0, 2 ^ 32 - 1, 3)].
Proof.
  intros Hl Hcpu. destruct h as [g t r1 r2 gs tr ss esp cr3]. cbn in Hl. destruct g as [|d0 [|d1 [|d2 [|d3 [|d4 [|d5 [|d6 [|]]]]]]]]; try discriminate Hl.
  exists [d0; SEG 10 0 0xffffffff 0; SEG 2 0 0xffffffff 0; SEG 2 cpu 8 0; SEG 10 0 0xffffffff 3; SEG 2 0 0xffffffff 3; d6]. split; [done|].
  repeat (apply Forall_cons; split; [eexists; split; [reflexivity|]|]); [..|apply Forall_nil].
  3: { destruct (seg_read 2 cpu 8 0 ltac:(lia)) as (H1&H). rewrite u32_small in H1 by done. by split. }
  all: by vm_compute.
Qed.
