(* ===== verification/Irq.v ===== *)
(** The interrupt controllers, the timer and the serial port: ioapic.c,
    picirq.c, lapic.c, timer.c, uart.c.

    What is done to the devices is the list of events; what a port or a local
    APIC register reads as is a function of the events before.  The registers
    of the I/O APIC, which keep what is written to them, are a map. *)
From S2P Require Import Prelude Params Ulib Syscall.

Inductive ev := Out (port v : Z) | In (port : Z) | Lw (index v : Z) | Mem (addr v : Z) | Msg (s : string).
Record dev := mkDev { d_ev : list ev; irqmask : Z; ioapic : gmap Z Z; d_ismp : bool; d_ioapicid : Z; has_lapic : bool; uart : bool }.
Definition emit (e : ev) : K dev unit := modify (fun s => mkDev (d_ev s ++ [e]) (irqmask s) (ioapic s) (d_ismp s) (d_ioapicid s) (has_lapic s) (uart s)).
Definition outb (port v : Z) : K dev unit := emit (Out port (u8 v)).

(** ** picirq.c *)
Definition IO_PIC1 : Z := 0x20.
Definition IO_PIC2 : Z := 0xA0.
Definition IRQ_SLAVE : Z := 2.
Definition irqmask0 : Z := Z.land 0xFFFF (Z.lnot (Z.shiftl 1 IRQ_SLAVE)).
Definition picsetmask (mask : Z) : K dev unit :=
  modify (fun s => mkDev (d_ev s) mask (ioapic s) (d_ismp s) (d_ioapicid s) (has_lapic s) (uart s));;
  outb (IO_PIC1 + 1) mask;;
  outb (IO_PIC2 + 1) (Z.shiftr mask 8).
Definition picenable (irq : Z) : K dev unit :=
  m <- gets irqmask;;
  picsetmask (u16 (Z.land m (Z.lnot (Z.shiftl 1 irq)))).
Definition picinit : K dev unit :=
  outb (IO_PIC1 + 1) 0xFF;; outb (IO_PIC2 + 1) 0xFF;;
  outb IO_PIC1 0x11;; outb (IO_PIC1 + 1) T_IRQ0;; outb (IO_PIC1 + 1) (Z.shiftl 1 IRQ_SLAVE);; outb (IO_PIC1 + 1) 0x3;;
  outb IO_PIC2 0x11;; outb (IO_PIC2 + 1) (T_IRQ0 + 8);; outb (IO_PIC2 + 1) IRQ_SLAVE;; outb (IO_PIC2 + 1) 0x3;;
  outb IO_PIC1 0x68;; outb IO_PIC1 0x0a;;
  outb IO_PIC2 0x68;; outb IO_PIC2 0x0a;;
  m <- gets irqmask;;
  when (negb (m =? 0xFFFF)) (picsetmask m).

(** ** ioapic.c *)
Definition REG_ID : Z := 0x00.
Definition REG_VER : Z := 0x01.
Definition REG_TABLE : Z := 0x10.
Definition INT_DISABLED : Z := 0x00010000.
Definition ioapicread (reg : Z) : K dev Z := gets (fun s => default 0 (ioapic s !! reg)).
Definition ioapicwrite (reg data : Z) : K dev unit :=
  modify (fun s => mkDev (d_ev s) (irqmask s) (<[reg := u32 data]> (ioapic s)) (d_ismp s) (d_ioapicid s) (has_lapic s) (uart s)).
Definition ioapicinit : K dev unit :=
  mp <- gets d_ismp;;
  if negb mp then ret tt else
  v <- ioapicread REG_VER;;
  let maxintr := Z.land (Z.shiftr v 16) 0xFF in
  i <- ioapicread REG_ID;;
  let id := Z.shiftr i 24 in
  ioapicid <- gets d_ioapicid;;
  when (negb (id =? ioapicid)) (emit (Msg "ioapicinit: id isn't equal to ioapicid; not a MP"));;
  for_range (Z.to_nat (maxintr + 1)) 0 (fun i =>
    ioapicwrite (REG_TABLE + 2 * i) (Z.lor INT_DISABLED (T_IRQ0 + i));;
    ioapicwrite (REG_TABLE + 2 * i + 1) 0).
Definition ioapicenable (irq cpunum : Z) : K dev unit :=
  mp <- gets d_ismp;;
  if negb mp then ret tt else
  ioapicwrite (REG_TABLE + 2 * irq) (T_IRQ0 + irq);;
  ioapicwrite (REG_TABLE + 2 * irq + 1) (Z.shiftl cpunum 24).

(** ** timer.c *)
Definition IO_TIMER1 : Z := 0x040.
Definition TIMER_FREQ : Z := 1193182.
Definition TIMER_DIV (x : Z) : Z := (TIMER_FREQ + x / 2) / x.
Definition TIMER_MODE : Z := IO_TIMER1 + 3.
Definition TIMER_SEL0 : Z := 0x00.
Definition TIMER_RATEGEN : Z := 0x04.
Definition TIMER_16BIT : Z := 0x30.
Definition timerinit : K dev unit :=
  outb TIMER_MODE (Z.lor (Z.lor TIMER_SEL0 TIMER_RATEGEN) TIMER_16BIT);;
  outb IO_TIMER1 (TIMER_DIV 100 mod 256);;
  outb IO_TIMER1 (TIMER_DIV 100 / 256);;
  picenable IRQ_TIMER.

Section inputs.
(** What is read after some events. *)
Variables (port : list ev -> Z -> Z) (lapic : list ev -> Z -> Z).
Definition inb (p : Z) : K dev Z := e <- gets d_ev;; emit (In p);; ret (port e p).

(** ** uart.c *)
Definition COM1 : Z := 0x3f8.
Fixpoint wait_uart (n : nat) : K dev unit :=
  match n with
  | O => ret tt
  | S n => s <- inb (COM1 + 5);; if negb (Z.land s 0x20 =? 0) then ret tt else wait_uart n
  end.
Definition uartputc (c : Z) : K dev unit :=
  u <- gets uart;;
  if negb u then ret tt else wait_uart 128;; outb (COM1 + 0) c.
Definition uartgetc : K dev Z :=
  u <- gets uart;;
  if negb u then ret (-1) else
  s <- inb (COM1 + 5);;
  if Z.land s 0x01 =? 0 then ret (-1) else inb (COM1 + 0).
Fixpoint uartputs (s : list Z) : K dev unit := match s with [] => ret tt | c :: s => uartputc c;; uartputs s end.
Definition uartinit : K dev unit :=
  outb (COM1 + 2) 0;;
  outb (COM1 + 3) 0x80;; outb (COM1 + 0) (115200 / 9600);; outb (COM1 + 1) 0;; outb (COM1 + 3) 0x03;; outb (COM1 + 4) 0;; outb (COM1 + 1) 0x01;;
  s <- inb (COM1 + 5);;
  if s =? 0xFF then ret tt else
  modify (fun s => mkDev (d_ev s) (irqmask s) (ioapic s) (d_ismp s) (d_ioapicid s) (has_lapic s) true);;
  inb (COM1 + 2);;
  inb (COM1 + 0);;
  picenable IRQ_COM1;;
  ioapicenable IRQ_COM1 0;;
  uartputs (chars "xv6..." ++ [NL]).

(** ** lapic.c *)
Definition ID : Z := 0x0020 / 4.
Definition VER : Z := 0x0030 / 4.
Definition TPR : Z := 0x0080 / 4.
Definition EOI : Z := 0x00B0 / 4.
Definition SVR : Z := 0x00F0 / 4.
Definition ENABLE : Z := 0x00000100.
Definition ESR : Z := 0x0280 / 4.
Definition ICRLO : Z := 0x0300 / 4.
Definition INIT : Z := 0x00000500.
Definition STARTUP : Z := 0x00000600.
Definition DELIVS : Z := 0x00001000.
Definition ASSERT : Z := 0x00004000.
Definition LEVEL : Z := 0x00008000.
Definition BCAST : Z := 0x00080000.
Definition ICRHI : Z := 0x0310 / 4.
Definition TIMER : Z := 0x0320 / 4.
Definition X1 : Z := 0x0000000B.
Definition PERIODIC : Z := 0x00020000.
Definition PCINT : Z := 0x0340 / 4.
Definition LINT0 : Z := 0x0350 / 4.
Definition LINT1 : Z := 0x0360 / 4.
Definition ERROR : Z := 0x0370 / 4.
Definition MASKED : Z := 0x00010000.
Definition TICR : Z := 0x0380 / 4.
Definition TDCR : Z := 0x03E0 / 4.
Definition IRQ_ERROR : Z := 19.
Definition lapicw (index value : Z) : K dev unit := emit (Lw index (u32 value)).
Definition lapic_get (index : Z) : K dev Z := e <- gets d_ev;; ret (lapic e index).
(** The wait for delivery reads until the bit is clear. *)
Definition wait_delivered (fuel : nat) : K dev unit :=
  while fuel (fun _ => v <- lapic_get ICRLO;; if Z.land v DELIVS =? 0 then ret (inr tt) else ret (inl tt)) tt.
Definition lapicinit (fuel : nat) : K dev unit :=
  l <- gets has_lapic;;
  if negb l then ret tt else
  lapicw SVR (Z.lor ENABLE (T_IRQ0 + IRQ_SPURIOUS));;
  lapicw TDCR X1;;
  lapicw TIMER (Z.lor PERIODIC (T_IRQ0 + IRQ_TIMER));;
  lapicw TICR 10000000;;
  lapicw LINT0 MASKED;;
  lapicw LINT1 MASKED;;
  v <- lapic_get VER;;
  when (4 <=? Z.land (Z.shiftr v 16) 0xFF) (lapicw PCINT MASKED);;
  lapicw ERROR (T_IRQ0 + IRQ_ERROR);;
  lapicw ESR 0;;
  lapicw ESR 0;;
  lapicw EOI 0;;
  lapicw ICRHI 0;;
  lapicw ICRLO (Z.lor (Z.lor BCAST INIT) LEVEL);;
  wait_delivered fuel;;
  lapicw TPR 0.
(** cpunum, called with interrupts off. *)
Definition cpunum : K dev Z :=
  l <- gets has_lapic;;
  if l : bool then v <- lapic_get ID;; ret (Z.shiftr v 24) else ret 0.
Definition lapiceoi : K dev unit := l <- gets has_lapic;; when l (lapicw EOI 0).
Definition IO_RTC : Z := 0x70.
Definition lapicstartap (apicid addr : Z) : K dev unit :=
  outb IO_RTC 0xF;;
  outb (IO_RTC + 1) 0x0A;;
  let wrv := Z.lor (Z.shiftl 0x40 4) 0x67 in
  emit (Mem wrv 0);;
  emit (Mem (wrv + 2) (u16 (Z.shiftr addr 4)));;
  lapicw ICRHI (Z.shiftl apicid 24);;
  lapicw ICRLO (Z.lor (Z.lor INIT LEVEL) ASSERT);;
  lapicw ICRLO (Z.lor INIT LEVEL);;
  for_range 2 0 (fun _ =>
    lapicw ICRHI (Z.shiftl apicid 24);;
    lapicw ICRLO (Z.lor STARTUP (Z.shiftr addr 12))).

(** ** uartputc always returns *)
Lemma wait_uart_ok n (s : dev) : exists k : nat, (k <= n)%nat /\
  wait_uart n s = Ok tt (mkDev (d_ev s ++ replicate k (In (COM1 + 5))) (irqmask s) (ioapic s) (d_ismp s) (d_ioapicid s) (has_lapic s) (uart s)).
Proof.
  revert s. induction n as [|n IH]; intros s; cbn [wait_uart].
  - exists O. split; [done|]. cbn. rewrite app_nil_r. by destruct s.
  - unfold inb, bind, gets, emit, modify, ret. destruct (negb _).
    + exists 1%nat. split; [lia|done].
    + destruct (IH (mkDev (d_ev s ++ [In (COM1 + 5)]) (irqmask s) (ioapic s) (d_ismp s) (d_ioapicid s) (has_lapic s) (uart s))) as (k&Hk&Hr).
      exists (S k). split; [lia|]. rewrite Hr. cbn. by rewrite <- app_assoc.
Qed.
(** The character is sent once, after at most 128 looks at the line. *)
Theorem uartputc_sends c (s : dev) : uart s = true -> exists k : nat, (k <= 128)%nat /\
  uartputc c s = Ok tt (mkDev (d_ev s ++ replicate k (In (COM1 + 5)) ++ [Out COM1 (u8 c)]) (irqmask s) (ioapic s) (d_ismp s) (d_ioapicid s) (has_lapic s) (uart s)).
Proof.
  intros Hu. destruct (wait_uart_ok 128 s) as (k&Hk&Hr). exists k. split; [done|]. unfold uartputc, bind, gets. rewrite Hu. cbn [negb]. rewrite Hr.
  unfold outb, emit, modify. cbn. by rewrite <- app_assoc, Hu.
Qed.
End inputs.

(** ** What the controllers let through *)
Definition low (s : dev) (i : Z) : option Z := ioapic s !! (REG_TABLE + 2 * i).
Definition high (s : dev) (i : Z) : option Z := ioapic s !! (REG_TABLE + 2 * i + 1).
Definition pin (s : dev) (i : Z) (cpu : option Z) : Prop :=
  match cpu with
  | Some c => low s i = Some (T_IRQ0 + i) /\ high s i = Some (Z.shiftl c 24)
  | None => low s i = Some (Z.lor INT_DISABLED (T_IRQ0 + i)) /\ high s i = Some 0
  end.
Definition set_ioapic (r : gmap Z Z) (e : list ev) (s : dev) : dev := mkDev e (irqmask s) r (d_ismp s) (d_ioapicid s) (has_lapic s) (uart s).
Fixpoint enable_all (l : list (Z * Z)) : K dev unit := match l with [] => ret tt | (irq, cpu) :: l => ioapicenable irq cpu;; enable_all l end.
(** The processor an interrupt was routed to last. *)
Definition route (l : list (Z * Z)) (i : Z) : option Z := foldl (fun r '(irq, cpu) => if irq =? i then Some cpu else r) None l.
Definition maxintr (s : dev) : Z := Z.land (Z.shiftr (default 0 (ioapic s !! REG_VER)) 16) 0xFF.
Lemma maxintr_bound s : 0 <= maxintr s <= 255.
Proof.
  unfold maxintr. generalize (Z.shiftr (default 0 (ioapic s !! REG_VER)) 16). intros x. pose proof (Z.land_ones x 8 ltac:(lia)) as H. change (Z.ones 8) with 0xFF in H.
  rewrite H. pose proof (Z.mod_pos_bound x (2 ^ 8) ltac:(lia)). lia.
Qed.
Lemma pin_disabled_u32 i : 0 <= i <= 255 -> u32 (Z.lor INT_DISABLED (T_IRQ0 + i)) = Z.lor INT_DISABLED (T_IRQ0 + i).
Proof.
  intros Hi. apply u32_small. unfold INT_DISABLED, T_IRQ0. split; [apply Z.lor_nonneg; lia|].
  assert (Hne : Z.lor 0x10000 (32 + i) <> 0) by (intros [? _]%Z.lor_eq_0_iff; lia). assert (Hnn : 0 <= Z.lor 0x10000 (32 + i)) by (apply Z.lor_nonneg; lia).
  apply Z.log2_lt_pow2; [lia|]. rewrite Z.log2_lor by lia. apply Z.max_lub_lt; [done|]. apply Z.log2_lt_pow2; lia.
Qed.
Lemma pin_other (s : dev) r e i j x y cpu : ioapic s = r -> 0 <= i -> 0 <= j -> i <> j -> pin s i cpu -> pin (set_ioapic (<[REG_TABLE + 2 * j + 1 := y]> (<[REG_TABLE + 2 * j := x]> r)) e s) i cpu.
Proof. intros <- Hi Hj Hne. unfold pin, low, high. cbn. rewrite !lookup_insert_ne by (unfold REG_TABLE; lia). done. Qed.
Lemma ioapicinit_ok (s : dev) : d_ismp s = true ->
  exists r e, ioapicinit s = Ok tt (set_ioapic r e s) /\ forall i, 0 <= i <= maxintr s -> pin (set_ioapic r e s) i None.
Proof.
  intros Hmp. pose proof (maxintr_bound s) as Hmax.
  assert (H : wp ioapicinit noerr (fun _ s' => exists r e, s' = set_ioapic r e s /\ forall i, 0 <= i <= maxintr s -> pin s' i None) s).
  - unfold ioapicinit. apply wp_bind, wp_gets. rewrite Hmp. cbn [negb]. apply wp_bind, wp_gets, wp_bind, wp_gets, wp_bind, wp_gets.
    fold (maxintr s). set (I := fun (n : Z) s' => exists r e, s' = set_ioapic r e s /\ forall i, 0 <= i < n -> pin s' i None).
    eapply wp_seq; [apply (wp_when _ _ _ (fun _ s' => exists e, s' = set_ioapic (ioapic s) e s)); intros _|].
    { eexists. reflexivity. } { exists (d_ev s). by destruct s. }
    intros [] s1 [e ->]. apply (wp_for_range I).
    + exists (ioapic s), e. split; [done|]. intros i Hi. lia.
    + intros j s2 Hj (r&e2&->&Hp). unfold ioapicwrite. apply wp_bind, wp_modify, wp_modify.
      exists (<[REG_TABLE + 2 * j + 1 := 0]> (<[REG_TABLE + 2 * j := Z.lor INT_DISABLED (T_IRQ0 + j)]> r)), e2. cbn. rewrite pin_disabled_u32 by lia. split; [done|]. intros i Hi.
      destruct (decide (i = j)) as [->|Hne]; [|exact (pin_other (set_ioapic r e2 s) r e2 i j _ _ None eq_refl ltac:(lia) ltac:(lia) Hne (Hp i ltac:(lia)))].
      unfold pin, low, high. cbn. by rewrite lookup_insert_ne, !lookup_insert_eq by (unfold REG_TABLE; lia).
    + intros s2 (r&e2&->&Hp). exists r, e2. split; [done|]. intros i Hi. apply Hp. lia.
  - apply wp_ok in H as ([]&s'&Hrun&r&e&->&Hp). exists r, e. done.
Qed.
Lemma ioapicenable_ok (s : dev) irq cpu : d_ismp s = true -> 0 <= irq <= 255 -> 0 <= cpu <= 255 ->
  exists r, ioapicenable irq cpu s = Ok tt (set_ioapic r (d_ev s) s) /\ pin (set_ioapic r (d_ev s) s) irq (Some cpu) /\
    forall i c, 0 <= i -> i <> irq -> pin s i c -> pin (set_ioapic r (d_ev s) s) i c.
Proof.
  intros Hmp Hi Hc. exists (<[REG_TABLE + 2 * irq + 1 := Z.shiftl cpu 24]> (<[REG_TABLE + 2 * irq := T_IRQ0 + irq]> (ioapic s))). split_and!.
  - unfold ioapicenable, bind, gets. rewrite Hmp. cbn [negb]. unfold ioapicwrite, modify. cbn. do 2 f_equal. rewrite !u32_small; [done|unfold T_IRQ0; lia|]. rewrite Z.shiftl_mul_pow2 by lia. lia.
  - unfold pin, low, high. cbn. by rewrite lookup_insert_ne, !lookup_insert_eq by (unfold REG_TABLE; lia).
  - intros i c Hi0 Hne Hp. by apply pin_other; try lia.
Qed.

(** Routing of interrupts.  On a machine with an I/O APIC, after
    ioapicinit and any calls of ioapicenable for its pins, each pin is either
    enabled, with vector 32 + irq and the processor it was last given to, if
    some call named it, or disabled and routed nowhere. *)
Theorem ioapic_routes (s : dev) l : d_ismp s = true -> Forall (fun x => 0 <= x.1 <= maxintr s /\ 0 <= x.2 <= 255) l ->
  exists s', (ioapicinit;; enable_all l) s = Ok tt s' /\ forall i, 0 <= i <= maxintr s -> pin s' i (route l i).
Proof.
  intros Hmp Hl. pose proof (maxintr_bound s) as Hmax.
  destruct (ioapicinit_ok s Hmp) as (r&e&Hrun&Hp). unfold bind at 1. rewrite Hrun. clear Hrun. unfold route. generalize dependent (@None Z). intros r0 Hp.
  assert (Hgen : forall l r0 s1, d_ismp s1 = true -> Forall (fun x => 0 <= x.1 <= maxintr s /\ 0 <= x.2 <= 255) l -> (forall i, 0 <= i <= maxintr s -> pin s1 i (r0 i)) ->
    exists s', enable_all l s1 = Ok tt s' /\ forall i, 0 <= i <= maxintr s -> pin s' i (foldl (fun r '(irq, cpu) => if irq =? i then Some cpu else r) (r0 i) l)).
  { clear l Hl Hp r0. induction l as [|[irq cpu] l IH]; intros r0 s1 Hs1 Hl Hp; [by exists s1|]. apply Forall_cons in Hl as [[H1 H2] Hl]. cbn [fst snd] in *.
    destruct (ioapicenable_ok s1 irq cpu Hs1 ltac:(lia) ltac:(lia)) as (r1&Hr1&Hpin&Hoth).
    destruct (IH (fun i => if irq =? i then Some cpu else r0 i) (set_ioapic r1 (d_ev s1) s1) Hs1 Hl) as (s'&Hs'&Hp').
    - intros i Hi. destruct (Z.eqb_spec irq i) as [<-|Hne]; [done|]. apply Hoth; [lia|done|by apply Hp].
    - exists s'. split; [|exact Hp']. cbn [enable_all]. unfold bind. by rewrite Hr1. }
  by apply (Hgen l (fun _ => r0) (set_ioapic r e s)).
Qed.
Definition demo_dev : dev := mkDev [] irqmask0 (list_to_map [(REG_VER, 0x170011); (REG_ID, 0)]) true 0 true false.
Lemma ioapic_routes_witness : exists s', (ioapicinit;; enable_all [(1, 0); (14, 0); (14, 1)]) demo_dev = Ok tt s' /\ forall i, 0 <= i <= 23 -> pin s' i (route [(1, 0); (14, 0); (14, 1)] i).
Proof. refine (ioapic_routes demo_dev [(1, 0); (14, 0); (14, 1)] _ _); [done|]. repeat (apply Forall_cons; split; [vm_compute; intuition discriminate|]). apply Forall_nil. exact I. Defined.
(** The mask of the old controllers has exactly the interrupts that were not
    enabled, besides the line of the slave. *)
Theorem pic_mask l (s : dev) i : Forall (fun x => 0 <= x) l -> 0 <= i < 16 -> irqmask s = irqmask0 ->
  exists s', foldl (fun m irq => m;; picenable irq) (ret tt) l s = Ok tt s' /\
    (Z.testbit (irqmask s') i = false <-> i = IRQ_SLAVE \/ i ∈ l).
Proof.
  intros Hl Hi Hs. induction l as [|irq l IH] using rev_ind.
  - exists s. split; [done|]. rewrite Hs. assert (H : i = 0 \/ i = 1 \/ i = 2 \/ i = 3 \/ i = 4 \/ i = 5 \/ i = 6 \/ i = 7 \/ i = 8 \/ i = 9 \/ i = 10 \/ i = 11 \/ i = 12 \/ i = 13 \/ i = 14 \/ i = 15) by lia.
    unfold IRQ_SLAVE. set_unfold. repeat destruct H as [->|H]; subst; cbn; naive_solver lia.
  - apply Forall_app in Hl as [Hl [Hirq _]%Forall_cons]. destruct (IH Hl) as (s'&Hrun&Hbit). rewrite foldl_app. cbn [foldl]. unfold bind at 1. rewrite Hrun.
    eexists. split; [reflexivity|]. cbn. rewrite elem_of_app, list_elem_of_singleton. unfold u16.
    rewrite Z.mod_pow2_bits_low, Z.land_spec, Z.lnot_spec, Z.shiftl_1_l by lia. destruct (decide (i = irq)) as [->|Hne].
    + rewrite Z.pow2_bits_true by lia. rewrite andb_false_r. naive_solver.
    + rewrite Z.pow2_bits_false by lia. rewrite andb_true_r, Hbit. naive_solver.
Qed.
